(* ===== verification/_CoqProject ===== *)
-Q . S2P
Prelude.v
Ring.v
Fifo.v
FifoConc.v
FifoUni.v
DoubleBuffer.v
DualBuffer.v
Status.v
Slot.v
Lifecycle.v
LifecycleConc.v
Interrupt.v
EventBus.v
IntParse.v
Device.v
Driver.v
BusCore.v
SpiBus.v
Crc.v
ConfigBlob.v
ConfigStore.v
IList.v
XtaskPreempt.v
XtaskCoop.v
MiniList.v
MiniSlab.v
MiniFree.v
MiniMem.v
MiniHeap.v
MiniSched.v
MiniKernel.v
MiniSem.v
MiniMutex.v
MiniMutexInv.v
MiniWait.v
MiniQueue.v
MiniQueueInv.v
MiniEvent.v
MiniEventInv.v
MiniTimer.v
MiniTimerInv.v
MiniThread.v
MiniThreadFrame.v
MiniThreadInv.v
OtaState.v
OtaCrypto.v
OtaImage.v
OtaBoot.v
Log.v
LogInv.v
SystemC.v
Bare.v
BareMutex.v
MiniBackend.v
BottomHalfTask.v
