(* ===== verification/Prelude.v ===== *)
(** * mini_tree: a verification development

    mini_tree is a device-tree driven firmware framework in C.  A generator turns the device
    tree into tables of nodes; at boot the board layer builds the devices, probes their
    drivers in order and opens them; applications reach a device through VFS entry points
    that check its state and call the driver; interrupts queue deferred work and events for
    the main loop or a task; ring and double buffers carry data between them; a key-value
    store keeps the configuration in two flash slots; on bare metal a cooperative or a
    preemptive scheduler runs periodic tasks.  Two libraries of the repository go with it:
    mini-os, a small kernel with its own memory pools, and mini-ota, a bootloader that
    downloads, verifies, tries and rolls back firmware images.  This library models that
    core, in C's terms, and proves what makes it correct, and where it is not, what it does
    instead.

    ** Files and sources (all paths under src/)

    - [Prelude]: machine integers, arrays with partial access, automation; no code.
    - [Ring]: circular windows of an array, shared by the ring buffers; no code.
    - [Fifo], [FifoUni]: algorithm/buffer/circle_fifo_buffer.c, [fifo_*] (words) and
      [fifo_uni_*] (items, block and zero-copy access).  [FifoConc]: the writes and reads of
      words once more, access by access, under the memory order of buffer.h.
    - [DoubleBuffer], [DualBuffer]: algorithm/buffer/double_buffer.c, [double_buffer_*] and
      [dual_buffer_*].
    - [Status]: core/include/status.h, core/src/status.c: error codes and error pointers.
    - [Slot]: core/src/mini_slot.c: the index allocator.
    - [Lifecycle], [LifecycleConc]: board/src/dev_lifecycle.c, each function in sequence, and
      cut at its atomic accesses under any interleaving.
    - [Interrupt]: interrupt/interrupt.c and interrupt.h: virtual interrupts and bottom
      halves, over any queue of the class [BoundedQueue], of which [Fifo] is an instance.
    - [EventBus]: core/src/event_bus.c.
    - [IntParse], [Device]: board/src/board_device.c: integer properties; devices, lookups,
      the status machine and the VFS entry points.
    - [Driver]: board/src/board_driver.c: probing, dependencies, removal, safety shutdown.
    - [BusCore]: board/src/bus.c: the controller table and the asynchronous bridges.
    - [SpiBus]: bus/spi/spi_bus.c over the bus core: hosts, clients, transfers; the client
      registration of bus/can/can_bus.c.
    - [Crc]: mini-log/src/crc.c: bit-serial and table engines, streams.
    - [ConfigBlob], [ConfigStore]: board/src/config_store.c: entries, blob and CRC-32; the
      JSON scanner, typed access, A/B slots and commit, over storage of the class
      [HalStorage] (hal/storage/hal_storage.h) with its documented laws.
    - [IList]: the intrusive list of time_slice/task/xtask.h at pointer level.
    - [XtaskPreempt], [XtaskCoop]: time_slice/task/xtask_preempt.c and xtask_coop.c.
    - [MiniList], [MiniSlab], [MiniFree], [MiniMem], [MiniHeap]: lib/mini-os/inc/list.h and
      lib/mini-os/src/memory.c: the kernel's lists at pointer level, slab zones, the
      coalescing free list, memory pools with their segments and counters, and the global
      heap [mini_os_malloc].
    - [MiniSched], [MiniKernel]: lib/mini-os/src/schedule.c, inc/schedule.h and the creation,
      delays and priorities of src/thread.c: ready lists, bitmap, time wheel, waits, tick and
      switch; the operations as steps of one machine.
    - [MiniSem]: lib/mini-os/inc/obj.h and src/semaphore.c: ownership of kernel objects,
      semaphores.  [MiniMutex], [MiniMutexInv]: src/mutex.c with priority inheritance.
    - [MiniWait]: what the calls that wait in a loop share.  [MiniQueue], [MiniQueueInv]:
      src/queue.c.  [MiniEvent], [MiniEventInv]: src/event.c.
    - [MiniTimer], [MiniTimerInv]: src/timer.c: the timer wheel, callbacks in the tick, the
      service thread.
    - [MiniThread], [MiniThreadFrame], [MiniThreadInv]: the rest of src/thread.c (suspension,
      exit, deletion, the idle thread, accessors) on the world of [MiniMutex]; what the other
      operations leave alone of a thread; the invariant.
    - [Log], [LogInv]: mini-log/src/log.c and inc/log.h: the console and flash rings, framed
      records in a flash partition of the class [LogFlash], the scan after a restart.
    - [Bare], [BareMutex]: core/src/mini_backend_bare.c: the queues of the bare-metal backend
      over [Fifo] and [Slot]; its mutexes in both builds and the task stubs.
    - [MiniBackend]: core/src/mini_backend_mini_os.c: codes, timeouts, pools, queues, tasks,
      constructors and memory over the kernel and heap of mini-os.
    - [BottomHalfTask]: the task adapter of interrupt/interrupt.h: the queue and flags of
      [Interrupt], drained by a task that waits for any semaphore of the class [WakeSem];
      the semaphores of [MiniBackend] and the flag of the poller are instances.
    - [OtaState]: lib/mini-ota, ota_state.h, ota_state.c, ota_state_flash.c and flash.c: the
      persistent state word, its records and their log in one flash sector.
    - [OtaCrypto], [OtaImage]: lib/mini-ota/algorithm (sha.c, hmac.c, aes.c), read.c and
      verify.c: stream wrappers over the cipher library; image layouts, streamed
      verification and in-memory reading in the five modes.
    - [OtaBoot]: lib/mini-ota, start.c, boot.c and boot_keys.c: download, activation, trial
      start, roll-back, confirmation, the key slot and the jump.
    - [SystemC]: system_c/src (safe state, watchdogs and stack monitor, scrubber, tasks, the
      two phases of start-up) over the components it composes, the platform's watchdog of the
      class [Iwdg], and core/src/mini_time.c.

    ** Correspondence

    A C struct is a record with the same fields, an enum an inductive type or its numbers, a
    function a definition of the same name; loops are recursive definitions named after
    their function.  A w-bit unsigned integer is a [Z] with its wrap-around written out
    ([u8], [u16], [u32]); [s32] is the cast to [int32_t].  A pointer that may be NULL is an
    [option]; a device, work item, task or bridge pointer is its address or its index in the
    table that holds it.  An operation that can touch an array out of range returns an
    [option], with [None] for that access, so a theorem that gives [Some] is also one of
    memory safety.  Output parameters are results.  Shared state is passed explicitly;
    concurrency is a step relation or a list of events between atomic accesses.  What is
    generated from the device tree (node table, name lookup, probe order, driver functions),
    the OS backend (locks, queues, clock, interrupt context), storage, timers and callbacks
    are parameters or inputs of the calls that use them, with hypotheses that state what
    their interface documents.

    ** What the theorems show

    - Buffers: each ring buffer refines a bounded queue under every sequence of calls; the
      double buffers deliver each accepted word once and in order, and where they do not.
      The accesses of one producer and one consumer of words may interleave and load old
      counters: nothing races, the words arrive in order, and the calls are wait-free.
    - Status and slots: error pointers round-trip; the allocator hands out the lowest free
      index and never an owned one.
    - Lifecycle: after a drain no task holds the device, under all interleavings; the drain
      returns in time; two defects of retry and of finish.
    - Interrupts: with interrupts between any accesses of the consumer, no acknowledged
      trigger is lost outside two windows of it: between clearing the flags [executing] and
      [pending] of an item, and inside its own write of the queue for a rerun; triggers in
      these windows can be lost.  A work item is queued at most once.  On an RTOS the
      bottom-half task serves every trigger outside the windows and sleeps again within a
      number of steps fixed by the queue and the semaphore, and so does the bare-metal main
      loop.
    - Event bus: refinement of an abstract bus with in-order, exactly-once delivery.
    - Properties: the integer parser is exact at 32 bits and inverts printing.
    - Devices and drivers: the walk is complete, VFS calls keep the driver contract, a
      healthy tree is probed and opened in one pass, removal leaves no device active.
    - Bus core: the controller table refines a finite map.  SPI bus: in any order of calls a
      host counts its registered clients and no client is left with a host that is gone; a
      host whose shutdown the HAL refuses is stranded; other buses do not check the type.
    - CRC: the table engine and segmentation are transparent for every width and polynomial;
      the literal table of the store is that of 0xEDB88320 and detects every burst of up to
      four bytes.
    - Configuration: the blob round-trips, commit is atomic and durable with every answer
      it has, start-up takes what the slots hold and falls back as documented, set and get
      agree, flat factory defaults load exactly; persisted values are shadowed by defaults
      and a double corruption is reported as a recovery.
    - Schedulers: the intrusive list refines a list; no task is lost under any interleaving
      with ticks, but for a tick that interrupts the one the idle wait makes itself, which
      can link a task twice; the highest priority runs, due tasks wake away from the
      counter's wrap and may be held back near it, and a task made ready just before the
      idle wait is slept over; a cooperative round runs each due task once.
    - Kernel memory: the lists refine lists; the slab zone and the pools never hand out
      overlapping memory, under any disciplined client that writes what it holds; after all
      is released nothing is fragmented; sizes near 2^32 wrap, a slot released twice is
      handed out twice.
    - Kernel: under every disciplined sequence of ticks, switches and calls no step goes wrong
      and no thread is lost, the highest priority runs and equals rotate, delays and time
      limits are exact in ticks; moving the running thread to another priority derails the
      next switch.
    - Kernel objects, with other calls, ticks and switches between the steps of the calls:
      semaphore units are accounted for and storage outlives the calls, but a take caught by
      a deletion before it tests the count parks on what was deleted; a mutex has one owner
      as long as no switch follows a lowering of the running thread, and the walk of
      inheritance leaves each thread at the priority it has to have, with four defects around
      it; messages are received once, whole and in order, no wake-up is lost and deadlines
      are strict; the flags of a group are those of the completed calls in their order, and
      nobody waits for flags that are there.
    - Threads: in any order of locks, suspension, exit, deletion and reaping, with mutexes
      that report a time-out when their owner ends and with the same condition on switches, a
      thread that ended is once in the queue of the idle thread, with no mutex and no call; a
      suspended thread goes on with exactly the ticks it had left.  An exit that holds a
      mutex without the kill flag hands it out twice, the deletion of a thread that was just
      handed a mutex loses it, delays of 2^31 ticks or more are forgotten.
    - Timers: as long as HARD callbacks leave the other timers of their slot alone they
      refine countdowns, so each deadline is met at its tick, and pending SOFT timers are
      called back, each with its function and argument.  A HARD callback that stops its
      neighbour in the slot makes the tick endless, the periods of SOFT timers drift, the
      service thread can be made twice, and it reads the callback of a timer outside the
      critical section, so of one that was deleted or changed in between.
    - Logger: records written on a working flash of any content are found, exactly those
      since the log last began again, and read back after a restart; prints, log lines and
      flushes refine an abstract logger; records behind a gap, lines around a failed write
      and records over the remains of one are lost.
    - Bootloader: the state word is a register over a log, atomic under a power cut while
      the sector has room and not when it is compacted; parsing inverts the layouts;
      verification in pieces is verification of the whole; reading succeeds only for what
      passes its check; a verified download is activated, tried by one start and rolled back
      unless confirmed; the jump is checked.
    - Bare-metal backend: its queues refine bounded queues of whole items, whatever handles
      the callers use, with interrupts at work in the rounds of a waiting receive; two sends
      that overlap lose an item; a plain mutex excludes, on one core and on several;
      a recursive one has no owner, so that other contexts nest into it.
    - mini-os backend: timeouts are exact while they fit, and wrap from 71 minutes on; the
      pool of mutexes recycles those destroyed while free, but also those still held; a task
      that ended is asked for its state in freed memory.
    - System services: a healthy system starts with every device active and its bus sealed;
      the scrubber freezes a damaged image and no other; the bare-metal delay ends; the boot
      event is never delivered, failed starts are never counted, the time on mini-os jumps.

    ** Bounds and fuel

    Loops over arrays and lists recurse on them.  Fuel is used where the recursion is not
    structural, and is shown to be enough: the token loop of [device_get_prop_int_array] and
    the JSON scan consume a character per round (the length of the text, plus one); the
    drain polls at most timeout_ms + 1 times; [load_from_storage] calls itself once when the
    flag reads back the same (2); the three passes of the probe are those of the code; a
    cooperative round with callbacks that create no task takes one step per task; the scan
    of the state sector advances a record of 8 bytes per round, the verification loop and
    the download loop at least one byte (their lengths, plus one); the flushes of the logger
    read at least a byte of their ring, its scan passes a frame of at least ten bytes (the
    ring, the partition, plus one); a round of the bare-metal delay sees the clock move or
    counts towards the limit of 10000 (1 + (ms + d) * 10001 rounds, [d] the largest step of
    the clock).
    The walk of priority inheritance has the bound of the code, MINI_OS_MUTEX_PI_CHAIN_MAX;
    the walk of the timer tick takes one step per timer of its slot, shown to be enough while
    HARD callbacks leave the slot alone; counting trailing zeros takes a step per bit.
    The platform flash driver ([FlashOps]) and the cipher library ([Mbedtls]) are classes
    with their documented laws, inhabited by [ram_flash] and [toy_mbedtls] in the witnesses.
    Configurable sizes have their defaults: 8 configuration entries, 8 preemptive tasks in 4
    groups of 8 priorities, the subscriber and pin tables as in board_config.h.

    ** What is not modelled, and why

    The backends for FreeRTOS and RT-Thread forward to vendored kernels, the memory functions
    of the bare-metal one to the C library; HAL stubs and per-peripheral VFS, bus and chip
    drivers are calls into hardware; vendored kernels and libraries, the network port, the C++ layer, the
    build and the Python tools are not the program's own C core.  Memory ordering weaker
    than sequential consistency is modelled for the word FIFO only.  Coroutines (CONFIG_XTASK_COROUTINE)
    are left out of the model of their file, and so are submits to one bottom-half queue
    from several contexts that interrupt each other, and calls on one bare-metal queue that do
    (other than in a waiting receive), but for the runs that show what they break.
    In mini-os the deadline class of threads, detaching and joining, the stack check of the
    idle loop and the registries by name are off by default; the port is assembly.  The test
    for a suspended thread that [mini_os_thread_suspend] and [mini_os_thread_resume] make
    before they lock interrupts out is one step with what follows in the model.
    The interleavings of a single producer and a single consumer below the level of calls
    are left out for the item FIFO and the double buffers.  The bus hosts other than SPI follow
    its pattern and are left out. *)

From stdpp Require Export base tactics list numbers option.
From Stdlib Require Export ZArith Lia Bool.

#[local] Open Scope Z_scope.

(** ** Machine integers

    A [w]-bit unsigned C integer is a [Z]; the cast [(uintW_t)x] is written out as
    the wrap-around function below.  [s32] is the two's complement reading that
    gcc/clang give to [(int32_t)x]. *)

Definition u8 (x : Z) : Z := x mod 256.
Definition u16 (x : Z) : Z := x mod 65536.
Definition u32 (x : Z) : Z := x mod 4294967296.
Definition s32 (x : Z) : Z :=
  let y := u32 x in if y <? 2147483648 then y else y - 4294967296.

Definition is_u8 (x : Z) : Prop := 0 <= x < 256.
Definition is_u16 (x : Z) : Prop := 0 <= x < 65536.
Definition is_u32 (x : Z) : Prop := 0 <= x < 4294967296.

Declare Scope mt_scope.
Delimit Scope mt_scope with mt.

(** The C idiom [x & (x - 1)], the power-of-two test used all over the code. *)
Definition pow2_test (x : Z) : bool := Z.land x (x - 1) =? 0.

Definition is_pow2 (x : Z) : Prop := ∃ k, 0 <= k /\ x = 2 ^ k.

(** [lia] with the defining equations of [/] and [mod] for the wrap functions. *)
Ltac wrap_lia :=
  unfold is_u8, is_u16, is_u32, u8, u16, u32 in *;
  Z.to_euclidean_division_equations; lia.

(** Case analysis on every boolean test of the goal, keeping the arithmetic facts. *)
Ltac bool_case :=
  match goal with
  | |- context [if ?b then _ else _] =>
      lazymatch b with
      | context [if _ then _ else _] => fail
      | _ => destruct b eqn:?
      end
  end.
Ltac bool_to_prop :=
  repeat match goal with
  | H : (_ && _) = true |- _ => apply andb_true_iff in H as [??]
  | H : (_ || _) = false |- _ => apply orb_false_iff in H as [??]
  | H : (_ && _) = false |- _ => apply andb_false_iff in H
  | H : (_ || _) = true |- _ => apply orb_true_iff in H
  | H : negb _ = true |- _ => apply negb_true_iff in H
  | H : negb _ = false |- _ => apply negb_false_iff in H
  | H : (_ =? _) = true |- _ => apply Z.eqb_eq in H
  | H : (_ =? _) = false |- _ => apply Z.eqb_neq in H
  | H : (_ <? _) = true |- _ => apply Z.ltb_lt in H
  | H : (_ <? _) = false |- _ => apply Z.ltb_ge in H
  | H : (_ <=? _) = true |- _ => apply Z.leb_le in H
  | H : (_ <=? _) = false |- _ => apply Z.leb_gt in H
  | H : (_ >=? _) = _ |- _ => rewrite Z.geb_leb in H
  | H : (_ >? _) = _ |- _ => rewrite Z.gtb_ltb in H
  end.

Create HintDb mt_arith.
Create Rewrite HintDb mt_arith.

(** *** Wrap-around lemmas *)

Lemma u16_range x : 0 <= u16 x < 65536.
Proof. unfold u16. apply Z.mod_pos_bound. lia. Qed.

Lemma u32_range x : 0 <= u32 x < 4294967296.
Proof. unfold u32. apply Z.mod_pos_bound. lia. Qed.

Lemma u8_range x : 0 <= u8 x < 256.
Proof. unfold u8. apply Z.mod_pos_bound. lia. Qed.

Lemma u16_small x : 0 <= x < 65536 -> u16 x = x.
Proof. apply Z.mod_small. Qed.

Lemma u32_small x : 0 <= x < 4294967296 -> u32 x = x.
Proof. apply Z.mod_small. Qed.

#[export] Hint Resolve u8_range u16_range u32_range : mt_arith.
#[export] Hint Rewrite u16_small u32_small using lia : mt_arith.

Lemma pow2_pos k : 0 <= k -> 0 < 2 ^ k.
Proof. intros. apply Z.pow_pos_nonneg; lia. Qed.

(** Masking with [2^k - 1] is reduction modulo [2^k]. *)
Lemma land_pow2_mask x k : 0 <= k -> Z.land x (2 ^ k - 1) = x mod 2 ^ k.
Proof. intros. replace (2 ^ k - 1) with (Z.ones k) by (rewrite Z.ones_equiv; lia).
  now apply Z.land_ones. Qed.

(** A power of two below the word size divides the word modulus, so masking does not
    see the wrap-around of the counter. *)
Lemma mod_pow2_pow2 x j k : 0 <= j <= k -> (x mod 2 ^ k) mod 2 ^ j = x mod 2 ^ j.
Proof.
  intros. apply Z.mod_mod_divide.
  exists (2 ^ (k - j)). rewrite <- Z.pow_add_r by lia. f_equal. lia.
Qed.

(** The C power-of-two test accepts exactly the powers of two. *)
Lemma pow2_test_pow2 k : 0 <= k -> pow2_test (2 ^ k) = true.
Proof.
  intros. unfold pow2_test. rewrite land_pow2_mask by lia.
  rewrite Z.mod_same; [reflexivity|]. pose proof (pow2_pos k). lia.
Qed.

Lemma pow2_test_spec x : 0 < x -> pow2_test x = true <-> is_pow2 x.
Proof.
  intros Hx. split.
  - unfold pow2_test. rewrite Z.eqb_eq. intros H.
    exists (Z.log2 x). split; [apply Z.log2_nonneg|].
    destruct (Z.log2_spec x Hx) as [Hlo Hhi].
    destruct (Z.eq_dec x (2 ^ Z.log2 x)) as [|Hne]; [assumption|exfalso].
    assert (Hl : Z.log2 (x - 1) = Z.log2 x).
    { apply Z.log2_unique; [apply Z.log2_nonneg|]. lia. }
    assert (Hb : Z.testbit (Z.land x (x - 1)) (Z.log2 x) = true).
    { rewrite Z.land_spec, (Z.bit_log2 x) by lia.
      rewrite <- Hl at 1. rewrite Z.bit_log2; [reflexivity|].
      assert (0 < 2 ^ Z.log2 x) by (apply pow2_pos, Z.log2_nonneg). lia. }
    rewrite H, Z.bits_0 in Hb. discriminate.
  - intros (k & Hk & ->). now apply pow2_test_pow2.
Qed.

(** ** C arrays

    An array is the list of its elements.  Accesses are partial: [None] stands for an
    out-of-range access, which C leaves undefined.  An operation that can touch an
    array out of range is modelled in the [option] monad, so a theorem that it returns
    [Some _] is a memory-safety theorem. *)
Section arrays.
Context {A : Type}.
Implicit Types (b src dst : list A).

Definition arr_get b (i : Z) : option A :=
  if 0 <=? i then b !! Z.to_nat i else None.

Definition arr_set b (i : Z) (x : A) : option (list A) :=
  if (0 <=? i) && (i <? Z.of_nat (length b)) then Some (<[Z.to_nat i := x]> b) else None.

(** [n] elements starting at [off]. *)
Definition mem_read b (off n : Z) : option (list A) :=
  if (0 <=? off) && (0 <=? n) && (off + n <=? Z.of_nat (length b))
  then Some (take (Z.to_nat n) (drop (Z.to_nat off) b)) else None.

Definition mem_write b (off : Z) (data : list A) : option (list A) :=
  if (0 <=? off) && (off + Z.of_nat (length data) <=? Z.of_nat (length b))
  then Some (take (Z.to_nat off) b ++ data ++ drop (Z.to_nat off + length data) b)
  else None.

(** [memcpy(dst + doff, src + soff, n)]. *)
Definition mem_copy dst (doff : Z) src (soff n : Z) : option (list A) :=
  data ← mem_read src soff n; mem_write dst doff data.

Lemma arr_get_Some b i x : arr_get b i = Some x <-> 0 <= i /\ b !! Z.to_nat i = Some x.
Proof.
  unfold arr_get. destruct (Z.leb_spec 0 i); split; try done; try lia; naive_solver.
Qed.

Lemma arr_get_in b i : 0 <= i < Z.of_nat (length b) -> is_Some (arr_get b i).
Proof.
  intros. unfold arr_get. destruct (Z.leb_spec 0 i); [|lia].
  apply lookup_lt_is_Some. lia.
Qed.

Lemma arr_set_in b i x :
  0 <= i < Z.of_nat (length b) -> arr_set b i x = Some (<[Z.to_nat i := x]> b).
Proof.
  intros. unfold arr_set.
  destruct (Z.leb_spec 0 i), (Z.ltb_spec i (Z.of_nat (length b))); simpl; (done || lia).
Qed.

Lemma mem_read_in b off n :
  0 <= off -> 0 <= n -> off + n <= Z.of_nat (length b) ->
  mem_read b off n = Some (take (Z.to_nat n) (drop (Z.to_nat off) b)).
Proof.
  intros. unfold mem_read.
  destruct (Z.leb_spec 0 off), (Z.leb_spec 0 n),
    (Z.leb_spec (off + n) (Z.of_nat (length b))); simpl; (done || lia).
Qed.

Lemma mem_write_in b off data :
  0 <= off -> off + Z.of_nat (length data) <= Z.of_nat (length b) ->
  mem_write b off data =
    Some (take (Z.to_nat off) b ++ data ++ drop (Z.to_nat off + length data) b).
Proof.
  intros. unfold mem_write.
  destruct (Z.leb_spec 0 off),
    (Z.leb_spec (off + Z.of_nat (length data)) (Z.of_nat (length b)));
    simpl; (done || lia).
Qed.

Lemma mem_write_length b off data b' :
  mem_write b off data = Some b' -> length b' = length b.
Proof.
  unfold mem_write. destruct (_ && _) eqn:E; [|done]. intros [= <-]. bool_to_prop.
  rewrite !length_app, length_take, length_drop. lia.
Qed.

(** Writing [d] just after a segment extends the segment by [d]. *)
Lemma seg_append (b d rest : list A) r n :
  (r + n ≤ length b)%nat ->
  take (n + length d) (drop r (take (r + n) b ++ d ++ rest)) = take n (drop r b) ++ d.
Proof.
  intros H. rewrite drop_app_le by (rewrite length_take; lia).
  rewrite skipn_firstn_comm. replace (r + n - r)%nat with n by lia.
  rewrite take_app_add' by (rewrite length_take, length_drop; lia).
  by rewrite take_app_length.
Qed.

(** Reading [k] elements off the front of a segment. *)
Lemma seg_split b r n k :
  (k ≤ n)%nat -> take n (drop r b) = take k (drop r b) ++ take (n - k) (drop (r + k) b).
Proof.
  intros H. replace n with (k + (n - k))%nat at 1 by lia.
  by rewrite <- take_take_drop, drop_drop.
Qed.
End arrays.
