(* ===== verification/Ring.v ===== *)
(** * Circular windows

    The storage lemmas shared by every ring buffer of the code base
    (src/algorithm/buffer/circle_fifo_buffer.c): a window of an array read circularly,
    the two-segment copy into it, and how the two interact.  Positions are [nat]s below
    the length of the array; the components relate their masked counters to them. *)

From S2P Require Import Prelude.

Create HintDb ring.

Section ring.
Context {A : Type}.
Implicit Types b d : list A.

(** [n] consecutive elements of the ring [b] starting at position [s]. *)
Definition ring_slice b (s n : nat) : list A := take n (drop s (b ++ b)).

(** Overwrite of [length d] elements at [s], within bounds. *)
Definition splice b (s : nat) d : list A := take s b ++ d ++ drop (s + length d) b.

(** The two-segment store: up to the end of the array, then from its start. *)
Definition ring_put b (s : nat) d : list A :=
  if decide (s + length d ≤ length b) then splice b s d
  else splice (splice b s (take (length b - s) d)) 0 (drop (length b - s) d).

Lemma lookup_splice b s d i :
  s + length d ≤ length b →
  splice b s d !! i = if decide (s ≤ i < s + length d) then d !! (i - s) else b !! i.
Proof.
  intros. unfold splice.
  destruct (decide (i < s)%nat).
  { rewrite lookup_app_l by (rewrite length_take; lia).
    rewrite decide_False by lia. apply lookup_take_lt. lia. }
  rewrite lookup_app_r by (rewrite length_take; lia).
  rewrite length_take, Nat.min_l by lia.
  destruct (decide (i < s + length d)%nat).
  { rewrite decide_True by lia. by rewrite lookup_app_l by lia. }
  rewrite decide_False, lookup_app_r, lookup_drop by lia. f_equal. lia.
Qed.

Lemma length_splice b s d :
  s + length d ≤ length b → length (splice b s d) = length b.
Proof. intros. unfold splice. rewrite !length_app, length_take, length_drop. lia. Qed.

Lemma length_ring_put b s d :
  s ≤ length b → length d ≤ length b → length (ring_put b s d) = length b.
Proof.
  intros. unfold ring_put. case_decide; [by apply length_splice|].
  assert (length (splice b s (take (length b - s) d)) = length b)
    by (apply length_splice; rewrite length_take; lia).
  rewrite length_splice; rewrite ?length_drop; lia.
Qed.

Lemma length_ring_slice b s n :
  s ≤ length b → n ≤ length b → length (ring_slice b s n) = n.
Proof. intros. unfold ring_slice. rewrite length_take, length_drop, length_app. lia. Qed.

(** Adding at most one lap to a position wraps at most once. *)
Lemma wrap_once s i N :
  s < N → i ≤ N →
  (s + i) `mod` N = if decide (s + i < N) then s + i else s + i - N.
Proof.
  intros. case_decide; [by apply Nat.mod_small|].
  replace (s + i) with (s + i - N + 1 * N) at 1 by lia.
  rewrite Nat.Div0.mod_add. apply Nat.mod_small. lia.
Qed.

Lemma lookup_ring_slice b s n i :
  s < length b → n ≤ length b → i < n →
  ring_slice b s n !! i = b !! ((s + i) `mod` length b).
Proof.
  intros. unfold ring_slice. rewrite lookup_take_lt, lookup_drop, wrap_once by lia.
  case_decide; [by rewrite lookup_app_l by lia|].
  by rewrite lookup_app_r by lia.
Qed.

Lemma lookup_ring_put b s d j :
  s < length b → length d ≤ length b → j < length b →
  ring_put b s d !! ((s + j) `mod` length b) =
    if decide (j < length d) then d !! j else b !! ((s + j) `mod` length b).
Proof.
  intros. unfold ring_put. rewrite wrap_once by lia.
  destruct (decide (s + length d ≤ length b)%nat).
  - rewrite lookup_splice by lia.
    repeat case_decide; try lia; try done; f_equal; lia.
  - assert (length (take (length b - s) d) = length b - s)%nat by (rewrite length_take; lia).
    assert (length (splice b s (take (length b - s) d)) = length b)
      by (apply length_splice; lia).
    assert (length (drop (length b - s) d) = length d - (length b - s))%nat
      by (rewrite length_drop; lia).
    rewrite lookup_splice by lia. rewrite lookup_splice by lia.
    repeat case_decide; try lia; try done.
    all: rewrite ?lookup_drop, ?lookup_take_lt by lia; try (f_equal; lia).
Qed.

(** Storing [d] just behind the window appends it to the window. *)
Lemma ring_slice_put b r n d :
  r < length b → n + length d ≤ length b →
  ring_slice (ring_put b ((r + n) `mod` length b) d) r (n + length d)
    = ring_slice b r n ++ d.
Proof.
  intros. set (N := length b) in *.
  assert (Hw : ((r + n) `mod` N < N)%nat) by (apply Nat.mod_upper_bound; lia).
  assert (HL : length (ring_put b ((r + n) `mod` N) d) = N)
    by (apply length_ring_put; lia).
  apply list_eq. intros i. destruct (decide (i < n + length d)%nat) as [Hi|Hi].
  2: { rewrite !lookup_ge_None_2; [done|rewrite length_app, length_ring_slice; lia|
       rewrite length_ring_slice; lia]. }
  rewrite lookup_ring_slice by lia. rewrite HL.
  destruct (decide (i < n)%nat).
  - rewrite lookup_app_l by (rewrite length_ring_slice; lia).
    rewrite lookup_ring_slice by lia.
    (* position of i relative to the write index *)
    assert (E : (r + i) `mod` N = ((r + n) `mod` N + (N - n + i)) `mod` N).
    { rewrite Nat.Div0.add_mod_idemp_l.
      replace (r + n + (N - n + i)) with (r + i + 1 * N) by lia.
      by rewrite Nat.Div0.mod_add. }
    rewrite E. subst N. rewrite lookup_ring_put by lia. rewrite decide_False by lia. by rewrite E.
  - rewrite lookup_app_r by (rewrite length_ring_slice; lia).
    rewrite length_ring_slice by lia.
    replace (r + i) with (r + n + (i - n)) by lia.
    rewrite <- (Nat.Div0.add_mod_idemp_l (r + n)).
    subst N. rewrite lookup_ring_put by lia. by rewrite decide_True by lia.
Qed.

Lemma ring_slice_split b s n m :
  s < length b → n + m ≤ length b →
  ring_slice b s (n + m)
    = ring_slice b s n ++ ring_slice b ((s + n) `mod` length b) m.
Proof.
  intros. assert (((s + n) `mod` length b < length b)%nat)
    by (apply Nat.mod_upper_bound; lia).
  apply list_eq. intros i. destruct (decide (i < n + m)%nat).
  2: { rewrite !lookup_ge_None_2; [done|rewrite length_app, !length_ring_slice; lia|
       rewrite length_ring_slice; lia]. }
  rewrite lookup_ring_slice by lia. destruct (decide (i < n)%nat).
  - rewrite lookup_app_l by (rewrite length_ring_slice; lia).
    by rewrite lookup_ring_slice by lia.
  - rewrite lookup_app_r by (rewrite length_ring_slice; lia).
    rewrite length_ring_slice by lia. rewrite lookup_ring_slice by lia.
    rewrite Nat.Div0.add_mod_idemp_l. do 2 f_equal. lia.
Qed.

Lemma ring_slice_take b s n k :
  k ≤ n → take k (ring_slice b s n) = ring_slice b s k.
Proof. intros. unfold ring_slice. rewrite take_take. f_equal. lia. Qed.

Lemma ring_slice_0 b s : ring_slice b s 0 = [].
Proof. done. Qed.

(** The two segments the code copies out are the window. *)
Lemma ring_slice_linear b s n :
  s + n ≤ length b → ring_slice b s n = take n (drop s b).
Proof.
  intros. unfold ring_slice. rewrite drop_app_le by lia.
  rewrite take_app_le; [done|]. rewrite length_drop. lia.
Qed.

Lemma ring_slice_two_segments b s n :
  s ≤ length b → length b < s + n → n ≤ length b →
  ring_slice b s n = drop s b ++ take (n - (length b - s)) b.
Proof.
  intros. unfold ring_slice. rewrite drop_app_le by lia.
  rewrite take_app_ge by (rewrite length_drop; lia). by rewrite length_drop.
Qed.

Lemma ring_put_one b s x : s < length b → ring_put b s [x] = <[s := x]> b.
Proof.
  intros. unfold ring_put, splice. rewrite decide_True by (simpl; lia). simpl.
  by rewrite insert_take_drop, Nat.add_1_r.
Qed.
End ring.

#[export] Hint Rewrite @ring_slice_0 @ring_put_one using lia : list.
