(* ===== verification/Fifo.v ===== *)
(** * The SPSC ring FIFO of machine words

    Models src/algorithm/buffer/circle_fifo_buffer.c ([fifo_*]) over the data of
    src/algorithm/buffer/buffer.h: free-running 16-bit write and read counters, a
    power-of-two capacity, the mask applied only when the storage is indexed.  A [NULL]
    pointer is [None]; an out-of-range array access makes the whole operation [None].
    The abstract queue it implements is [fifo_contents]. *)

From S2P Require Import Prelude Ring.

#[local] Open Scope Z_scope.

(** BUFF_* codes: negated errno values (EINVAL = 22, ENOSPC = 28, ENODATA = 61). *)
Definition BUFF_OK : Z := 0.
Definition BUFF_ERR_INVAL : Z := -22.
Definition BUFF_ERR_FULL : Z := -28.
Definition BUFF_ERR_EMPTY : Z := -61.

Record fifo_spsc := mk_fifo {
  fifo_buf : list Z;
  fifo_size : Z;
  fifo_mask : Z;
  fifo_w_ptr : Z;
  fifo_r_ptr : Z
}.

(** [if (p) *p = v;] on an optional output pointer. *)
Definition out_set {A} (p : option A) (v : A) : option A := (fun _ => v) <$> p.

Definition fifo_set_w (h : fifo_spsc) (b : list Z) (w : Z) : fifo_spsc :=
  mk_fifo b (fifo_size h) (fifo_mask h) w (fifo_r_ptr h).
Definition fifo_set_r (h : fifo_spsc) (r : Z) : fifo_spsc :=
  mk_fifo (fifo_buf h) (fifo_size h) (fifo_mask h) (fifo_w_ptr h) r.

Definition fifo_init (handle : option fifo_spsc) (buf : option (list Z)) (size : Z)
    : Z * option fifo_spsc :=
  match handle, buf with
  | Some _, Some b =>
      if (size =? 0) || negb (Z.land size (size - 1) =? 0)
      then (BUFF_ERR_INVAL, handle)
      else (BUFF_OK, Some (mk_fifo b size (u16 (size - 1)) 0 0))
  | _, _ => (BUFF_ERR_INVAL, handle)
  end.

Definition fifo_write_data (handle : option fifo_spsc) (data : Z)
    : option (Z * option fifo_spsc) :=
  match handle with
  | None => Some (BUFF_ERR_INVAL, None)
  | Some h =>
      let read_ptr := fifo_r_ptr h in
      let write_ptr := fifo_w_ptr h in
      if u16 (write_ptr - read_ptr) >=? fifo_size h
      then Some (BUFF_ERR_FULL, handle)
      else
        b ← arr_set (fifo_buf h) (Z.land write_ptr (fifo_mask h)) data;
        Some (BUFF_OK, Some (fifo_set_w h b (u16 (write_ptr + 1))))
  end.

Definition fifo_write_block (handle : option fifo_spsc) (p_data : option (list Z))
    (len : Z) (p_actual : option Z) : option (Z * option fifo_spsc * option Z) :=
  let p_actual := out_set p_actual 0 in
  match handle, p_data with
  | Some h, Some data =>
      if len =? 0 then Some (BUFF_ERR_INVAL, handle, p_actual) else
      let read_ptr := fifo_r_ptr h in
      let write_ptr := fifo_w_ptr h in
      let free_len := u16 (fifo_size h - u16 (write_ptr - read_ptr)) in
      if free_len =? 0 then Some (BUFF_ERR_FULL, handle, p_actual) else
      let len := if len >? free_len then free_len else len in
      let w_idx := u16 (Z.land write_ptr (fifo_mask h)) in
      let space_to_end := u16 (fifo_size h - w_idx) in
      b ← (if space_to_end >=? len
           then mem_copy (fifo_buf h) w_idx data 0 len
           else b1 ← mem_copy (fifo_buf h) w_idx data 0 space_to_end;
                mem_copy b1 0 data space_to_end (len - space_to_end));
      Some (BUFF_OK, Some (fifo_set_w h b (u16 (write_ptr + len))), out_set p_actual len)
  | _, _ => Some (BUFF_ERR_INVAL, handle, p_actual)
  end.

Definition fifo_read_data (handle : option fifo_spsc) (p_data : option Z)
    : option (Z * option fifo_spsc * option Z) :=
  match handle, p_data with
  | Some h, Some _ =>
      let write_ptr := fifo_w_ptr h in
      let read_ptr := fifo_r_ptr h in
      if read_ptr =? write_ptr then Some (BUFF_ERR_EMPTY, handle, p_data) else
      x ← arr_get (fifo_buf h) (Z.land read_ptr (fifo_mask h));
      Some (BUFF_OK, Some (fifo_set_r h (u16 (read_ptr + 1))), Some x)
  | _, _ => Some (BUFF_ERR_INVAL, handle, p_data)
  end.

Definition fifo_read_block (handle : option fifo_spsc) (p_data : option (list Z))
    (len : Z) (p_actual : option Z)
    : option (Z * option fifo_spsc * option (list Z) * option Z) :=
  let p_actual := out_set p_actual 0 in
  match handle, p_data with
  | Some h, Some out =>
      if len =? 0 then Some (BUFF_ERR_INVAL, handle, p_data, p_actual) else
      let write_ptr := fifo_w_ptr h in
      let read_ptr := fifo_r_ptr h in
      let count := u16 (write_ptr - read_ptr) in
      if count =? 0 then Some (BUFF_ERR_EMPTY, handle, p_data, p_actual) else
      let len := if len >? count then count else len in
      let r_idx := u16 (Z.land read_ptr (fifo_mask h)) in
      let space_to_end := u16 (fifo_size h - r_idx) in
      out' ← (if space_to_end >=? len
              then mem_copy out 0 (fifo_buf h) r_idx len
              else o1 ← mem_copy out 0 (fifo_buf h) r_idx space_to_end;
                   mem_copy o1 space_to_end (fifo_buf h) 0 (len - space_to_end));
      Some (BUFF_OK, Some (fifo_set_r h (u16 (read_ptr + len))), Some out',
            out_set p_actual len)
  | _, _ => Some (BUFF_ERR_INVAL, handle, p_data, p_actual)
  end.

Definition fifo_get_count (handle : option fifo_spsc) (p_count : option Z) : Z * option Z :=
  match handle, p_count with
  | Some h, Some _ => (BUFF_OK, Some (u16 (fifo_w_ptr h - fifo_r_ptr h)))
  | _, _ => (BUFF_ERR_INVAL, p_count)
  end.

Definition fifo_isempty (handle : option fifo_spsc) (p_empty : option bool)
    : Z * option bool :=
  match handle, p_empty with
  | Some h, Some _ => (BUFF_OK, Some (fifo_r_ptr h =? fifo_w_ptr h))
  | _, _ => (BUFF_ERR_INVAL, p_empty)
  end.

Definition fifo_isfull (handle : option fifo_spsc) (p_full : option bool)
    : Z * option bool :=
  match handle, p_full with
  | Some h, Some _ =>
      (BUFF_OK, Some (u16 (fifo_w_ptr h - fifo_r_ptr h) >=? fifo_size h))
  | _, _ => (BUFF_ERR_INVAL, p_full)
  end.

(** ** Invariant and abstraction *)

(** What [fifo_init] establishes and every operation keeps. *)
Record fifo_wf (h : fifo_spsc) : Prop := {
  wf_pow2 : ∃ k, 0 <= k <= 15 /\ fifo_size h = 2 ^ k;
  wf_mask : fifo_mask h = fifo_size h - 1;
  wf_len : Z.of_nat (length (fifo_buf h)) = fifo_size h;
  wf_w : is_u16 (fifo_w_ptr h);
  wf_r : is_u16 (fifo_r_ptr h);
  wf_used : u16 (fifo_w_ptr h - fifo_r_ptr h) <= fifo_size h
}.

Definition fifo_used (h : fifo_spsc) : nat := Z.to_nat (u16 (fifo_w_ptr h - fifo_r_ptr h)).
Definition fifo_cap (h : fifo_spsc) : nat := length (fifo_buf h).
Definition fifo_pos (h : fifo_spsc) (p : Z) : nat := Z.to_nat (Z.land p (fifo_mask h)).

(** The queue a FIFO represents, oldest element first. *)
Definition fifo_contents (h : fifo_spsc) : list Z :=
  ring_slice (fifo_buf h) (fifo_pos h (fifo_r_ptr h)) (fifo_used h).

(** ** Positions *)
Section positions.
Context (h : fifo_spsc) (WF : fifo_wf h).

Lemma fifo_size_bounds : 1 <= fifo_size h <= 32768.
Proof.
  destruct (wf_pow2 h WF) as (k & Hk & ->).
  change 32768 with (2 ^ 15). change 1 with (2 ^ 0).
  split; apply Z.pow_le_mono_r; lia.
Qed.

Lemma fifo_cap_pos : (0 < fifo_cap h)%nat.
Proof. pose proof fifo_size_bounds. pose proof (wf_len h WF). unfold fifo_cap. lia. Qed.

(** Masking a 16-bit counter is reduction modulo the capacity, and does not see the
    wrap-around of the counter. *)
Lemma fifo_mask_mod p : Z.land p (fifo_mask h) = p mod fifo_size h.
Proof.
  destruct (wf_pow2 h WF) as (k & Hk & Es). rewrite (wf_mask h WF), Es.
  apply land_pow2_mask. lia.
Qed.

Lemma fifo_u16_mod x : u16 x mod fifo_size h = x mod fifo_size h.
Proof.
  destruct (wf_pow2 h WF) as (k & Hk & ->). unfold u16. change 65536 with (2 ^ 16).
  apply mod_pow2_pow2. lia.
Qed.

Lemma fifo_mask_bounds p : 0 <= Z.land p (fifo_mask h) < fifo_size h.
Proof. rewrite fifo_mask_mod. apply Z.mod_pos_bound. pose proof fifo_size_bounds. lia. Qed.

Lemma fifo_pos_lt p : (fifo_pos h p < fifo_cap h)%nat.
Proof.
  unfold fifo_pos, fifo_cap. pose proof (fifo_mask_bounds p). pose proof (wf_len h WF). lia.
Qed.

Lemma fifo_pos_add p (n : nat) :
  fifo_pos h (u16 (p + Z.of_nat n)) = ((fifo_pos h p + n) `mod` fifo_cap h)%nat.
Proof.
  apply Nat2Z.inj. unfold fifo_pos.
  rewrite Nat2Z.inj_mod, Nat2Z.inj_add, !Z2Nat.id by apply fifo_mask_bounds.
  unfold fifo_cap. rewrite (wf_len h WF), !fifo_mask_mod, fifo_u16_mod.
  pose proof fifo_size_bounds. symmetry. apply Zplus_mod_idemp_l.
Qed.

Lemma fifo_used_le : (fifo_used h ≤ fifo_cap h)%nat.
Proof.
  unfold fifo_used, fifo_cap. pose proof (wf_used h WF). pose proof (wf_len h WF). lia.
Qed.

Lemma fifo_w_pos :
  fifo_pos h (fifo_w_ptr h) = ((fifo_pos h (fifo_r_ptr h) + fifo_used h) `mod` fifo_cap h)%nat.
Proof.
  rewrite <- fifo_pos_add. f_equal. unfold fifo_used.
  pose proof (wf_w h WF). pose proof (wf_r h WF).
  rewrite Z2Nat.id by (pose proof (u16_range (fifo_w_ptr h - fifo_r_ptr h)); lia).
  wrap_lia.
Qed.

Lemma fifo_contents_length : length (fifo_contents h) = fifo_used h.
Proof.
  apply length_ring_slice; [pose proof (fifo_pos_lt (fifo_r_ptr h))|pose proof fifo_used_le];
    unfold fifo_cap in *; lia.
Qed.

Lemma fifo_empty_iff : fifo_r_ptr h = fifo_w_ptr h <-> fifo_contents h = [].
Proof.
  rewrite <- length_zero_iff_nil, fifo_contents_length. unfold fifo_used.
  pose proof (wf_w h WF). pose proof (wf_r h WF). split; intros; wrap_lia.
Qed.

(** Appending [d] behind the write position, with the counter advanced. *)
Lemma fifo_append d :
  (length d + fifo_used h ≤ fifo_cap h)%nat ->
  let h' := fifo_set_w h (ring_put (fifo_buf h) (fifo_pos h (fifo_w_ptr h)) d)
              (u16 (fifo_w_ptr h + Z.of_nat (length d))) in
  fifo_wf h' /\ fifo_contents h' = fifo_contents h ++ d.
Proof.
  intros Hd h'. pose proof (wf_w h WF) as Hw. pose proof (wf_r h WF) as Hr.
  pose proof fifo_size_bounds. pose proof (wf_len h WF) as HL.
  pose proof (fifo_pos_lt (fifo_w_ptr h)). pose proof fifo_used_le.
  assert (Hput : length (ring_put (fifo_buf h) (fifo_pos h (fifo_w_ptr h)) d)
                   = fifo_cap h) by (apply length_ring_put; unfold fifo_cap in *; lia).
  assert (Hu : fifo_used h' = (fifo_used h + length d)%nat).
  { unfold h', fifo_used, fifo_cap in *. simpl. wrap_lia. }
  split.
  - constructor; simpl; try apply WF.
    + rewrite Hput. apply HL.
    + apply u16_range.
    + unfold h', fifo_used in Hu. simpl in Hu. unfold fifo_used, fifo_cap in *.
      pose proof (u16_range (u16 (fifo_w_ptr h + Z.of_nat (length d)) - fifo_r_ptr h)). lia.
  - unfold fifo_contents at 1. rewrite Hu. unfold h'. simpl.
    unfold fifo_pos at 2. simpl. fold (fifo_pos h (fifo_r_ptr h)).
    rewrite fifo_w_pos. apply ring_slice_put; fold (fifo_cap h);
      [apply fifo_pos_lt|lia].
Qed.

(** Advancing the read counter by [n] drops [n] elements. *)
Lemma fifo_advance (n : nat) :
  (n ≤ fifo_used h)%nat ->
  let h' := fifo_set_r h (u16 (fifo_r_ptr h + Z.of_nat n)) in
  fifo_wf h' /\ fifo_contents h = ring_slice (fifo_buf h) (fifo_pos h (fifo_r_ptr h)) n
                                    ++ fifo_contents h'.
Proof.
  intros Hn h'. pose proof (wf_w h WF). pose proof (wf_r h WF).
  pose proof fifo_size_bounds. pose proof fifo_used_le. pose proof (wf_used h WF).
  assert (Hu : fifo_used h = (n + fifo_used h')%nat).
  { unfold h', fifo_used in *. simpl. wrap_lia. }
  split.
  - constructor; simpl; try apply WF; [apply u16_range|].
    unfold h', fifo_used in Hu. simpl in Hu. pose proof (wf_len h WF).
    pose proof (u16_range (fifo_w_ptr h - u16 (fifo_r_ptr h + Z.of_nat n))).
    unfold fifo_used, fifo_cap in *. lia.
  - unfold fifo_contents at 1. rewrite Hu.
    rewrite ring_slice_split; fold (fifo_cap h); [|apply fifo_pos_lt|lia].
    f_equal. rewrite <- fifo_pos_add. reflexivity.
Qed.
End positions.

#[export] Hint Resolve fifo_pos_lt fifo_mask_bounds fifo_cap_pos fifo_used_le : ring.

(** ** The operations against the abstract queue *)

Lemma fifo_full_test h :
  fifo_wf h ->
  (u16 (fifo_w_ptr h - fifo_r_ptr h) >=? fifo_size h)
    = bool_decide (length (fifo_contents h) = fifo_cap h).
Proof.
  intros WF. rewrite (fifo_contents_length h WF).
  pose proof (wf_used h WF). pose proof (wf_len h WF).
  pose proof (u16_range (fifo_w_ptr h - fifo_r_ptr h)). unfold fifo_used, fifo_cap.
  rewrite Z.geb_leb. destruct (Z.leb_spec (fifo_size h) (u16 (fifo_w_ptr h - fifo_r_ptr h))).
  - rewrite bool_decide_eq_true_2; [done|lia].
  - rewrite bool_decide_eq_false_2; [done|lia].
Qed.

Lemma fifo_write_data_ok h x :
  fifo_wf h -> length (fifo_contents h) ≠ fifo_cap h ->
  ∃ h', fifo_write_data (Some h) x = Some (BUFF_OK, Some h') /\ fifo_wf h' /\
        fifo_cap h' = fifo_cap h /\ fifo_contents h' = fifo_contents h ++ [x].
Proof.
  intros WF Hne. unfold fifo_write_data.
  rewrite fifo_full_test, bool_decide_eq_false_2 by done.
  rewrite fifo_contents_length in Hne by done.
  pose proof (fifo_used_le h WF). pose proof (fifo_pos_lt h WF (fifo_w_ptr h)) as Hlt.
  rewrite arr_set_in by (rewrite (wf_len h WF); auto with ring). simpl.
  fold (fifo_pos h (fifo_w_ptr h)). unfold fifo_cap in Hlt.
  rewrite <- ring_put_one by done.
  destruct (fifo_append h WF [x]) as [WF' HC]; [simpl; lia|].
  eexists. split; [reflexivity|]. split; [exact WF'|]. split; [|exact HC].
  unfold fifo_cap. simpl. apply length_ring_put; simpl; lia.
Qed.

Lemma fifo_write_data_full h x :
  fifo_wf h -> length (fifo_contents h) = fifo_cap h ->
  fifo_write_data (Some h) x = Some (BUFF_ERR_FULL, Some h).
Proof.
  intros WF Heq. unfold fifo_write_data.
  by rewrite fifo_full_test, bool_decide_eq_true_2 by done.
Qed.

Lemma fifo_read_data_empty h o :
  fifo_wf h -> fifo_contents h = [] ->
  fifo_read_data (Some h) (Some o) = Some (BUFF_ERR_EMPTY, Some h, Some o).
Proof.
  intros WF E%(fifo_empty_iff h WF). unfold fifo_read_data. by rewrite E, Z.eqb_refl.
Qed.

Lemma fifo_read_data_ok h o x q :
  fifo_wf h -> fifo_contents h = x :: q ->
  ∃ h', fifo_read_data (Some h) (Some o) = Some (BUFF_OK, Some h', Some x) /\ fifo_wf h' /\
        fifo_cap h' = fifo_cap h /\ fifo_contents h' = q.
Proof.
  intros WF E. unfold fifo_read_data.
  destruct (Z.eqb_spec (fifo_r_ptr h) (fifo_w_ptr h)) as [Heq|_].
  { apply (fifo_empty_iff h WF) in Heq. congruence. }
  assert (Hu : (1 ≤ fifo_used h)%nat).
  { rewrite <- (fifo_contents_length h WF), E. simpl. lia. }
  destruct (fifo_advance h WF 1 Hu) as [WF' HC]. rewrite E in HC.
  pose proof (fifo_pos_lt h WF (fifo_r_ptr h)) as Hp. unfold fifo_cap in Hp.
  destruct (lookup_lt_is_Some_2 _ _ Hp) as [y Hy].
  assert (HS : ring_slice (fifo_buf h) (fifo_pos h (fifo_r_ptr h)) 1 = [y]).
  { rewrite ring_slice_linear by lia. by rewrite (drop_S _ y). }
  rewrite HS in HC. injection HC as -> ->.
  assert (HG : arr_get (fifo_buf h) (Z.land (fifo_r_ptr h) (fifo_mask h)) = Some y)
    by (apply arr_get_Some; split; [by apply fifo_mask_bounds|exact Hy]).
  rewrite HG.
  simpl. eexists. split; [reflexivity|]. split; [exact WF'|done].
Qed.

(** Copying [n] elements into the ring at the write index, in one or two segments, is
    the store [ring_put]. *)
Lemma two_segment_store (b data : list Z) (idx n : Z) :
  0 <= idx < Z.of_nat (length b) -> 0 < n <= Z.of_nat (length b) ->
  n <= Z.of_nat (length data) ->
  (if Z.of_nat (length b) - idx >=? n
   then mem_copy b idx data 0 n
   else b1 ← mem_copy b idx data 0 (Z.of_nat (length b) - idx);
        mem_copy b1 0 data (Z.of_nat (length b) - idx) (n - (Z.of_nat (length b) - idx)))
  = Some (ring_put b (Z.to_nat idx) (take (Z.to_nat n) data)).
Proof.
  intros Hi Hn Hd. rewrite Z.geb_leb. unfold mem_copy, ring_put.
  assert (length (take (Z.to_nat n) data) = Z.to_nat n) as HT by (rewrite length_take; lia).
  destruct (Z.leb_spec n (Z.of_nat (length b) - idx)).
  - rewrite mem_read_in by lia. simpl. rewrite ?drop_0.
    rewrite mem_write_in by lia. rewrite decide_True by lia. reflexivity.
  - rewrite decide_False by lia. rewrite !mem_read_in by lia. simpl. rewrite ?drop_0.
    set (m := Z.to_nat (Z.of_nat (length b) - idx)).
    assert (length (take m data) = m) as HTm by (rewrite length_take; lia).
    rewrite mem_write_in by lia. simpl.
    replace (Z.to_nat (n - (Z.of_nat (length b) - idx))) with (Z.to_nat n - m)%nat by lia.
    fold m. rewrite take_drop_commute, take_take.
    replace (length b - Z.to_nat idx)%nat with m by lia.
    replace (Nat.min m (Z.to_nat n)) with m by lia.
    replace (m + (Z.to_nat n - m))%nat with (Z.to_nat n) by lia.
    fold (splice b (Z.to_nat idx) (take m data)).
    assert (length (splice b (Z.to_nat idx) (take m data)) = length b)
      by (apply length_splice; lia).
    assert (length (drop m (take (Z.to_nat n) data)) = Z.to_nat n - m)%nat
      by (rewrite length_drop; lia).
    rewrite mem_write_in by lia. reflexivity.
Qed.

(** Copying a window out of the ring into a large enough destination. *)
Lemma two_segment_load (b out : list Z) (idx n : Z) :
  0 <= idx < Z.of_nat (length b) -> 0 < n <= Z.of_nat (length b) ->
  n <= Z.of_nat (length out) ->
  (if Z.of_nat (length b) - idx >=? n
   then mem_copy out 0 b idx n
   else o1 ← mem_copy out 0 b idx (Z.of_nat (length b) - idx);
        mem_copy o1 (Z.of_nat (length b) - idx) b 0 (n - (Z.of_nat (length b) - idx)))
  = Some (ring_slice b (Z.to_nat idx) (Z.to_nat n) ++ drop (Z.to_nat n) out).
Proof.
  intros Hi Hn Hd. rewrite Z.geb_leb. unfold mem_copy.
  destruct (Z.leb_spec n (Z.of_nat (length b) - idx)).
  - rewrite mem_read_in by lia. simpl. rewrite ring_slice_linear by lia.
    assert (HT : length (take (Z.to_nat n) (drop (Z.to_nat idx) b)) = Z.to_nat n)
      by (rewrite length_take, length_drop; lia).
    rewrite mem_write_in by lia. simpl. by rewrite HT.
  - rewrite !mem_read_in by lia. simpl. rewrite ring_slice_two_segments by lia.
    set (m := Z.to_nat (Z.of_nat (length b) - idx)).
    assert (HD : length (drop (Z.to_nat idx) b) = m) by (rewrite length_drop; lia).
    rewrite (take_ge (drop (Z.to_nat idx) b)) by lia.
    rewrite mem_write_in by lia. simpl. rewrite HD, ?drop_0.
    replace (Z.to_nat (n - (Z.of_nat (length b) - idx))) with (Z.to_nat n - m)%nat by lia.
    replace (length b - Z.to_nat idx)%nat with m by lia.
    assert (HT : length (take (Z.to_nat n - m) b) = (Z.to_nat n - m)%nat)
      by (rewrite length_take; lia).
    rewrite mem_write_in by (rewrite ?length_app, ?length_drop in *; lia).
    fold m. rewrite HT, take_app_length' by done.
    rewrite drop_app_ge by lia. rewrite drop_drop, HD, <- app_assoc.
    do 3 f_equal. f_equal. lia.
Qed.

Lemma fifo_free_len h :
  fifo_wf h ->
  u16 (fifo_size h - u16 (fifo_w_ptr h - fifo_r_ptr h))
    = Z.of_nat (fifo_cap h) - Z.of_nat (length (fifo_contents h)).
Proof.
  intros WF. rewrite (fifo_contents_length h WF). unfold fifo_used, fifo_cap.
  pose proof (fifo_size_bounds h WF). pose proof (wf_used h WF). pose proof (wf_len h WF).
  pose proof (u16_range (fifo_w_ptr h - fifo_r_ptr h)). rewrite u16_small; lia.
Qed.

Lemma fifo_index_small h p :
  fifo_wf h -> u16 (Z.land p (fifo_mask h)) = Z.land p (fifo_mask h) /\
               u16 (fifo_size h - Z.land p (fifo_mask h))
                 = Z.of_nat (length (fifo_buf h)) - Z.land p (fifo_mask h).
Proof.
  intros WF. pose proof (fifo_size_bounds h WF). pose proof (fifo_mask_bounds h WF p).
  pose proof (wf_len h WF). split; rewrite u16_small; lia.
Qed.

Lemma fifo_write_block_full h data len a :
  fifo_wf h -> 0 < len -> length (fifo_contents h) = fifo_cap h ->
  fifo_write_block (Some h) (Some data) len a = Some (BUFF_ERR_FULL, Some h, out_set a 0).
Proof.
  intros WF Hl Hf. unfold fifo_write_block. rewrite fifo_free_len by done.
  destruct (Z.eqb_spec len 0); [lia|].
  destruct (Z.eqb_spec (Z.of_nat (fifo_cap h) - Z.of_nat (length (fifo_contents h))) 0);
    [done|lia].
Qed.

Lemma fifo_write_block_ok h data len a :
  fifo_wf h -> 0 < len -> len <= Z.of_nat (length data) ->
  length (fifo_contents h) ≠ fifo_cap h ->
  let n := Nat.min (Z.to_nat len) (fifo_cap h - length (fifo_contents h)) in
  ∃ h', fifo_write_block (Some h) (Some data) len a
          = Some (BUFF_OK, Some h', out_set (out_set a 0) (Z.of_nat n)) /\
        fifo_wf h' /\ fifo_cap h' = fifo_cap h /\
        fifo_contents h' = fifo_contents h ++ take n data.
Proof.
  intros WF Hl Hd Hne n. unfold fifo_write_block. rewrite fifo_free_len by done.
  pose proof (fifo_used_le h WF).
  assert (Hn : n = Nat.min (Z.to_nat len) (fifo_cap h - fifo_used h))
    by (unfold n; by rewrite (fifo_contents_length h WF)). clearbody n.
  rewrite (fifo_contents_length h WF) in *.
  destruct (Z.eqb_spec len 0); [lia|].
  destruct (Z.eqb_spec (Z.of_nat (fifo_cap h) - Z.of_nat (fifo_used h)) 0); [lia|].
  replace (if len >? _ then _ else len) with (Z.of_nat n)
    by (rewrite Z.gtb_ltb; destruct (Z.ltb_spec (Z.of_nat (fifo_cap h) - Z.of_nat (fifo_used h)) len);
        lia).
  destruct (fifo_index_small h (fifo_w_ptr h) WF) as [-> ->].
  pose proof (fifo_mask_bounds h WF (fifo_w_ptr h)) as Hm. rewrite <- (wf_len h WF) in Hm.
  rewrite two_segment_store by (unfold fifo_cap in *; lia).
  rewrite Nat2Z.id. fold (fifo_pos h (fifo_w_ptr h)). simpl.
  assert (HT : length (take n data) = n) by (rewrite length_take; lia).
  destruct (fifo_append h WF (take n data)) as [WF' HC]; [lia|]. rewrite HT in WF', HC.
  eexists. split; [reflexivity|]. split; [exact WF'|]. split; [|exact HC].
  unfold fifo_cap. simpl. pose proof (fifo_pos_lt h WF (fifo_w_ptr h)).
  apply length_ring_put; unfold fifo_cap in *; lia.
Qed.

Lemma fifo_read_block_empty h out len a :
  fifo_wf h -> 0 < len -> fifo_contents h = [] ->
  fifo_read_block (Some h) (Some out) len a
    = Some (BUFF_ERR_EMPTY, Some h, Some out, out_set a 0).
Proof.
  intros WF Hl E%(fifo_empty_iff h WF). unfold fifo_read_block.
  destruct (Z.eqb_spec len 0); [lia|]. by rewrite E, Z.sub_diag.
Qed.

Lemma fifo_read_block_ok h out len a :
  fifo_wf h -> 0 < len -> len <= Z.of_nat (length out) -> fifo_contents h ≠ [] ->
  let n := Nat.min (Z.to_nat len) (length (fifo_contents h)) in
  ∃ h', fifo_read_block (Some h) (Some out) len a
          = Some (BUFF_OK, Some h', Some (take n (fifo_contents h) ++ drop n out),
                  out_set (out_set a 0) (Z.of_nat n)) /\
        fifo_wf h' /\ fifo_cap h' = fifo_cap h /\
        fifo_contents h' = drop n (fifo_contents h).
Proof.
  intros WF Hl Ho Hne n. unfold fifo_read_block.
  pose proof (fifo_used_le h WF) as Hule.
  assert (Hu : fifo_used h ≠ 0%nat).
  { rewrite <- (fifo_contents_length h WF). by rewrite length_zero_iff_nil. }
  pose proof (u16_range (fifo_w_ptr h - fifo_r_ptr h)).
  assert (Hn : n = Nat.min (Z.to_nat len) (fifo_used h))
    by (unfold n; by rewrite (fifo_contents_length h WF)). clearbody n.
  replace (u16 (fifo_w_ptr h - fifo_r_ptr h)) with (Z.of_nat (fifo_used h))
    by (unfold fifo_used; lia).
  destruct (Z.eqb_spec len 0); [lia|]. destruct (Z.eqb_spec (Z.of_nat (fifo_used h)) 0); [lia|].
  replace (if len >? _ then _ else len) with (Z.of_nat n)
    by (rewrite Z.gtb_ltb; destruct (Z.ltb_spec (Z.of_nat (fifo_used h)) len); lia).
  destruct (fifo_index_small h (fifo_r_ptr h) WF) as [-> ->].
  pose proof (fifo_mask_bounds h WF (fifo_r_ptr h)) as Hm. rewrite <- (wf_len h WF) in Hm.
  rewrite two_segment_load by (unfold fifo_cap in *; lia).
  rewrite Nat2Z.id. fold (fifo_pos h (fifo_r_ptr h)). simpl.
  destruct (fifo_advance h WF n) as [WF' HC]; [lia|].
  assert (HL : length (ring_slice (fifo_buf h) (fifo_pos h (fifo_r_ptr h)) n) = n).
  { apply length_ring_slice; [pose proof (fifo_pos_lt h WF (fifo_r_ptr h))|];
      unfold fifo_cap in *; lia. }
  eexists. split; [|split; [exact WF'|split; [reflexivity|]]].
  - by rewrite HC, take_app_length' by done.
  - by rewrite HC, drop_app_length' by done.
Qed.

(** ** Refinement of a bounded queue by sequences of calls *)

Arguments fifo_write_data : simpl never.
Arguments fifo_write_block : simpl never.
Arguments fifo_read_data : simpl never.
Arguments fifo_read_block : simpl never.

Inductive fifo_op :=
  | OpWrite (x : Z)
  | OpWriteBlock (d : list Z)
  | OpRead
  | OpReadBlock (n : Z)
  | OpCount
  | OpIsEmpty
  | OpIsFull.

(** What a caller observes: the return code and the values handed back. *)
Definition fifo_resp : Type := Z * list Z.

(** The code, called with non-NULL arguments and a destination of the requested size. *)
Definition fifo_exec (h : fifo_spsc) (op : fifo_op) : option (fifo_resp * fifo_spsc) :=
  let same r v := Some ((r, v), h) in
  match op with
  | OpWrite x =>
      '(r, h') ← fifo_write_data (Some h) x; h' ← h'; Some ((r, []), h')
  | OpWriteBlock d =>
      '(r, h', a) ← fifo_write_block (Some h) (Some d) (Z.of_nat (length d)) (Some 0);
      h' ← h'; a ← a; Some ((r, [a]), h')
  | OpRead =>
      '(r, h', o) ← fifo_read_data (Some h) (Some 0);
      h' ← h'; o ← o; Some ((r, if r =? BUFF_OK then [o] else []), h')
  | OpReadBlock n =>
      '(r, h', o, a) ← fifo_read_block (Some h) (Some (replicate (Z.to_nat n) 0)) n (Some 0);
      h' ← h'; o ← o; a ← a; Some ((r, take (Z.to_nat a) o), h')
  | OpCount => let '(r, o) := fifo_get_count (Some h) (Some 0) in
               o ← o; same r [o]
  | OpIsEmpty => let '(r, o) := fifo_isempty (Some h) (Some false) in
                 o ← o; same r [Z.b2z o]
  | OpIsFull => let '(r, o) := fifo_isfull (Some h) (Some false) in
                o ← o; same r [Z.b2z o]
  end.

(** The same calls on the abstract queue of capacity [cap]. *)
Definition queue_exec (cap : nat) (q : list Z) (op : fifo_op) : fifo_resp * list Z :=
  let room := (cap - length q)%nat in
  match op with
  | OpWrite x =>
      if decide (room = 0%nat) then ((BUFF_ERR_FULL, []), q) else ((BUFF_OK, []), q ++ [x])
  | OpWriteBlock d =>
      if decide (d = []) then ((BUFF_ERR_INVAL, [0]), q)
      else if decide (room = 0%nat) then ((BUFF_ERR_FULL, [0]), q)
      else ((BUFF_OK, [Z.of_nat (Nat.min (length d) room)]), q ++ take room d)
  | OpRead =>
      match q with
      | [] => ((BUFF_ERR_EMPTY, []), [])
      | x :: q' => ((BUFF_OK, [x]), q')
      end
  | OpReadBlock n =>
      if decide (n = 0) then ((BUFF_ERR_INVAL, []), q)
      else if decide (q = []) then ((BUFF_ERR_EMPTY, []), q)
      else ((BUFF_OK, take (Z.to_nat n) q), drop (Z.to_nat n) q)
  | OpCount => ((BUFF_OK, [Z.of_nat (length q)]), q)
  | OpIsEmpty => ((BUFF_OK, [Z.b2z (bool_decide (q = []))]), q)
  | OpIsFull => ((BUFF_OK, [Z.b2z (bool_decide (length q = cap))]), q)
  end.

(** Arguments that fit their C types. *)
Definition fifo_op_ok (op : fifo_op) : Prop :=
  match op with
  | OpWriteBlock d => Z.of_nat (length d) < 65536
  | OpReadBlock n => 0 <= n < 65536
  | _ => True
  end.

Fixpoint fifo_run (h : fifo_spsc) (ops : list fifo_op) : option (list fifo_resp * fifo_spsc) :=
  match ops with
  | [] => Some ([], h)
  | op :: ops =>
      '(r, h) ← fifo_exec h op; '(rs, h) ← fifo_run h ops; Some (r :: rs, h)
  end.

Fixpoint queue_run (cap : nat) (q : list Z) (ops : list fifo_op) : list fifo_resp * list Z :=
  match ops with
  | [] => ([], q)
  | op :: ops =>
      let '(r, q) := queue_exec cap q op in
      let '(rs, q) := queue_run cap q ops in (r :: rs, q)
  end.

Lemma fifo_contents_le h : fifo_wf h -> (length (fifo_contents h) ≤ fifo_cap h)%nat.
Proof. intros. rewrite fifo_contents_length by done. auto with ring. Qed.

(** One call: never an out-of-range access, and the observable result is the abstract
    queue's. *)
Lemma fifo_exec_refines h op :
  fifo_wf h -> fifo_op_ok op ->
  ∃ r h', fifo_exec h op = Some (r, h') /\ fifo_wf h' /\ fifo_cap h' = fifo_cap h /\
          queue_exec (fifo_cap h) (fifo_contents h) op = (r, fifo_contents h').
Proof.
  intros WF Hop. pose proof (fifo_contents_le h WF).
  destruct op as [x|d| |n| | |]; simpl in *.
  - destruct (decide (length (fifo_contents h) = fifo_cap h)) as [E|E].
    + rewrite fifo_write_data_full by done. rewrite decide_True by lia. simpl. eauto 6.
    + destruct (fifo_write_data_ok h x WF E) as (h' & -> & WF' & HCap & HC).
      rewrite decide_False by lia. simpl. rewrite <- HC. eauto 6.
  - destruct d as [|x d]; [simpl; eauto 6|]. rewrite decide_False by done.
    destruct (decide (length (fifo_contents h) = fifo_cap h)) as [E|E].
    + rewrite fifo_write_block_full by (done || simpl; lia).
      rewrite decide_True by lia. simpl. eauto 6.
    + destruct (fifo_write_block_ok h (x :: d) (Z.of_nat (length (x :: d))) (Some 0))
        as (h' & -> & WF' & HCap & HC); try done; try (simpl; lia).
      rewrite decide_False by lia. simpl in *. eexists _, h'.
      split; [reflexivity|]. split; [done|]. split; [done|]. rewrite HC.
      rewrite Nat2Z.id. cbn [length]. set (room := (fifo_cap h - length (fifo_contents h))%nat) in *.
      f_equal. f_equal. destruct (decide (room ≤ S (length d))%nat).
      * by rewrite Nat.min_r by lia.
      * rewrite Nat.min_l by lia. by rewrite !take_ge by (simpl; lia).
  - destruct (fifo_contents h) as [|x q] eqn:E.
    + rewrite fifo_read_data_empty by done. simpl. rewrite <- E. eauto 6.
    + destruct (fifo_read_data_ok h 0 x q WF E) as (h' & -> & WF' & HC & <-). simpl. eauto 6.
  - destruct (decide (n = 0)) as [->|Hn]; [simpl; eauto 6|].
    destruct (decide (fifo_contents h = [])) as [E|E].
    + rewrite fifo_read_block_empty by (done || lia). simpl. eauto 6.
    + destruct (fifo_read_block_ok h (replicate (Z.to_nat n) 0) n (Some 0))
        as (h' & -> & WF' & HCap & HC); try done; try lia; [rewrite length_replicate; lia|].
      simpl. eexists _, h'. split; [reflexivity|]. split; [done|]. split; [done|].
      rewrite HC, Nat2Z.id.
      assert (length (take (Nat.min (Z.to_nat n) (length (fifo_contents h))) (fifo_contents h))
              = Nat.min (Z.to_nat n) (length (fifo_contents h))) by (rewrite length_take; lia).
      rewrite take_app_le, take_take, Nat.min_id by lia.
      destruct (decide (Z.to_nat n ≤ length (fifo_contents h))%nat).
      * by rewrite Nat.min_l by lia.
      * rewrite Nat.min_r by lia. by rewrite !take_ge, !drop_ge by lia.
  - eexists _, h. split; [reflexivity|]. split; [done|]. split; [done|].
    rewrite fifo_contents_length by done. unfold fifo_used.
    pose proof (u16_range (fifo_w_ptr h - fifo_r_ptr h)). by rewrite Z2Nat.id by lia.
  - eexists _, h. split; [reflexivity|]. split; [done|]. split; [done|].
    do 4 f_equal. symmetry. destruct (Z.eqb_spec (fifo_r_ptr h) (fifo_w_ptr h)) as [e|e].
    + apply fifo_empty_iff in e; [|done]. by rewrite bool_decide_eq_true_2.
    + rewrite bool_decide_eq_false_2; [done|]. by rewrite <- fifo_empty_iff.
  - eexists _, h. split; [reflexivity|]. split; [done|]. split; [done|].
    by rewrite fifo_full_test.
Qed.

Lemma fifo_run_refines ops : ∀ h,
  fifo_wf h -> Forall fifo_op_ok ops ->
  ∃ rs h', fifo_run h ops = Some (rs, h') /\ fifo_wf h' /\ fifo_cap h' = fifo_cap h /\
           queue_run (fifo_cap h) (fifo_contents h) ops = (rs, fifo_contents h').
Proof.
  induction ops as [|op ops IH]; intros h WF Hok; simpl; [eauto 6|].
  inversion Hok as [|?? Hop Hops]; subst.
  destruct (fifo_exec_refines h op WF Hop) as (r & h1 & -> & WF1 & Hc1 & ->). simpl.
  destruct (IH h1 WF1 Hops) as (rs & h2 & -> & WF2 & Hc2 & E2). simpl.
  rewrite <- Hc1, E2. eexists _, h2. repeat split; (congruence || apply WF2).
Qed.

Lemma fifo_init_wf handle b size h :
  is_u16 size -> Z.of_nat (length b) = size ->
  fifo_init handle (Some b) size = (BUFF_OK, Some h) ->
  fifo_wf h /\ fifo_cap h = Z.to_nat size /\ fifo_contents h = [].
Proof.
  intros Hs Hb. unfold fifo_init. destruct handle as [h0|]; [|done].
  fold (pow2_test size).
  destruct (Z.eqb_spec size 0), (pow2_test size) eqn:E; simpl; try done. intros [= <-].
  apply pow2_test_spec in E as (k & Hk & ->); [|unfold is_u16 in Hs; lia].
  assert (k <= 15).
  { destruct (Z.le_gt_cases k 15); [done|exfalso].
    assert (2 ^ 16 <= 2 ^ k) by (apply Z.pow_le_mono_r; lia). unfold is_u16 in Hs. lia. }
  assert (WF : fifo_wf (mk_fifo b (2 ^ k) (u16 (2 ^ k - 1)) 0 0)).
  { constructor; simpl; try (unfold is_u16; lia); [eauto|..].
    - apply u16_small. unfold is_u16 in Hs. lia.
    - change (u16 (0 - 0)) with 0. lia. }
  split; [done|]. split; [unfold fifo_cap; simpl; lia|].
  apply fifo_empty_iff; done.
Qed.

(** C1: Refinement. From [fifo_init] on an array of [size] words, any sequence of calls
    of the single- and block-wise writes, reads and queries runs without an out-of-range
    access and returns, call by call, exactly the codes, counts and words that a bounded
    first-in first-out queue of capacity [size] returns; the 16-bit counters may wrap
    any number of times. *)
Theorem fifo_refines_queue h0 b size h ops :
  is_u16 size -> Z.of_nat (length b) = size ->
  fifo_init (Some h0) (Some b) size = (BUFF_OK, Some h) ->
  Forall fifo_op_ok ops ->
  ∃ rs h', fifo_run h ops = Some (rs, h') /\
           queue_run (Z.to_nat size) [] ops = (rs, fifo_contents h').
Proof.
  intros Hs Hb Hi Hops. destruct (fifo_init_wf _ _ _ _ Hs Hb Hi) as (WF & <- & HC).
  destruct (fifo_run_refines ops h WF Hops) as (rs & h' & H1 & _ & _ & H2).
  rewrite HC in H2. eauto.
Qed.

Definition fifo_zero : fifo_spsc := mk_fifo [] 0 0 0 0.

Lemma fifo_refines_queue_witness :
  ∃ rs h', fifo_run (mk_fifo [0; 0; 0; 0] 4 3 0 0)
             [OpWriteBlock [1; 2; 3; 4; 5]; OpReadBlock 3; OpWrite 9; OpWrite 8; OpReadBlock 7]
             = Some (rs, h') /\
           queue_run 4 []
             [OpWriteBlock [1; 2; 3; 4; 5]; OpReadBlock 3; OpWrite 9; OpWrite 8; OpReadBlock 7]
             = (rs, fifo_contents h').
Proof.
  apply (fifo_refines_queue fifo_zero [0; 0; 0; 0] 4).
  - unfold is_u16. lia.
  - reflexivity.
  - reflexivity.
  - repeat constructor; simpl; lia.
Defined.

(** [fifo_init] succeeds exactly when both pointers are non-NULL and the capacity is
    a power of two; otherwise it returns BUFF_ERR_INVAL and leaves the handle alone. *)
Theorem fifo_init_accepts handle buf size :
  0 <= size < 65536 ->
  (fifo_init handle buf size).1
    = (if bool_decide (is_Some handle /\ is_Some buf) && (0 <? size) && pow2_test size
       then BUFF_OK else BUFF_ERR_INVAL) /\
  ((fifo_init handle buf size).1 = BUFF_OK -> is_pow2 size) /\
  ((fifo_init handle buf size).1 = BUFF_ERR_INVAL -> (fifo_init handle buf size).2 = handle).
Proof.
  intros Hs. unfold fifo_init. fold (pow2_test size).
  destruct handle as [h|], buf as [b|]; simpl;
    rewrite ?bool_decide_eq_false_2 by (intros [[??] [??]]; done);
    rewrite ?bool_decide_eq_true_2 by (split; eauto); simpl; try done.
  destruct (Z.eqb_spec size 0), (Z.ltb_spec 0 size), (pow2_test size) eqn:E; simpl;
    try lia; repeat split; try done.
  intros _. apply pow2_test_spec; (done || lia).
Qed.

Lemma fifo_init_accepts_witness :
  fifo_init (Some fifo_zero) (Some [0; 0; 0]) 3 = (BUFF_ERR_INVAL, Some fifo_zero) /\
  is_pow2 8.
Proof.
  destruct (fifo_init_accepts (Some fifo_zero) (Some []) 8) as (_ & H & _); [lia|].
  split; [reflexivity|]. apply H. reflexivity.
Defined.

(** ** The queue interface

    What the bottom-half layer (src/interrupt) relies on: a bounded first-in first-out
    queue of words with the BUFF_* return codes.  Its client theorems are proved against
    this class; the FIFO discharges it. *)
Class BoundedQueue (Q : Type) := {
  bq_inv : Q -> Prop;
  bq_contents : Q -> list Z;
  bq_cap : Q -> nat;
  bq_write : Q -> Z -> option (Z * Q);
  bq_read : Q -> option (Z * Z * Q);
  bq_le q : bq_inv q -> (length (bq_contents q) ≤ bq_cap q)%nat;
  bq_write_spec q x :
    bq_inv q ->
    (length (bq_contents q) = bq_cap q /\ bq_write q x = Some (BUFF_ERR_FULL, q)) \/
    (∃ q', bq_write q x = Some (BUFF_OK, q') /\ bq_inv q' /\ bq_cap q' = bq_cap q /\
           length (bq_contents q) ≠ bq_cap q /\ bq_contents q' = bq_contents q ++ [x]);
  bq_read_spec q :
    bq_inv q ->
    (bq_contents q = [] /\ ∃ o, bq_read q = Some (BUFF_ERR_EMPTY, o, q)) \/
    (∃ x q', bq_read q = Some (BUFF_OK, x, q') /\ bq_inv q' /\ bq_cap q' = bq_cap q /\
             bq_contents q = x :: bq_contents q')
}.

Definition fifo_bq_write (h : fifo_spsc) (x : Z) : option (Z * fifo_spsc) :=
  '(r, h') ← fifo_write_data (Some h) x; h' ← h'; Some (r, h').
Definition fifo_bq_read (h : fifo_spsc) : option (Z * Z * fifo_spsc) :=
  '(r, h', o) ← fifo_read_data (Some h) (Some 0); h' ← h'; o ← o; Some (r, o, h').

#[export, refine] Instance fifo_bounded_queue : BoundedQueue fifo_spsc := {|
  bq_inv := fifo_wf; bq_contents := fifo_contents; bq_cap := fifo_cap;
  bq_write := fifo_bq_write; bq_read := fifo_bq_read
|}.
Proof.
  - apply fifo_contents_le.
  - intros q x WF. unfold fifo_bq_write.
    destruct (decide (length (fifo_contents q) = fifo_cap q)) as [E|E].
    + left. split; [done|]. by rewrite fifo_write_data_full.
    + right. destruct (fifo_write_data_ok q x WF E) as (h' & -> & ? & ? & ?). simpl. eauto 8.
  - intros q WF. unfold fifo_bq_read. destruct (fifo_contents q) as [|x l] eqn:E.
    + left. split; [done|]. exists 0. by rewrite fifo_read_data_empty.
    + right. destruct (fifo_read_data_ok q 0 x l WF E) as (h' & -> & ? & ? & <-). simpl. eauto 8.
Defined.
