(* ===== verification/FifoConc.v ===== *)
(** * The SPSC ring FIFO under concurrency

    Models the writes and reads of src/algorithm/buffer/circle_fifo_buffer.c once more, access
    by access: one producer and one consumer interleave at every load, copy of a word and
    store, under the acquire and release order that BUFF_LOAD_ACQUIRE and BUFF_STORE_RELEASE
    of src/algorithm/buffer/buffer.h ask for.  [FifoConc] shows that the words arrive whole and
    in order with no data race; [Fifo] says what the calls return when nothing interferes.

    The memory: the stores of each counter are kept as its history, a time being a place in
    it.  An acquiring load of the counter of the other side may return any store that is not
    older than what that side has seen ([c_vw], [c_vr]); a relaxed load of the own counter
    returns its own last store.  The words are plain memory: every cell remembers how many
    stores its writer, and its reader, had done at its last access, and an access is a data
    race, [None], unless the last access of the other side comes before a store that has been
    acquired. *)

From S2P Require Import Prelude Ring Fifo.
From stdpp Require Import list.

#[local] Open Scope Z_scope.

(** ** State *)

(** Between its steps a call of the producer has still to load the read counter, or has words
    left to copy ([plan]: cell and word) and will then store [next]. *)
Inductive producer :=
  | PIdle
  | PCall (single : bool) (data : list Z)
  | PCopy (data : list Z) (plan : list (Z * Z)) (next : Z).
(** [got]: the words copied so far. *)
Inductive consumer :=
  | CIdle
  | CCall (single : bool) (len : Z)
  | CCopy (cells : list Z) (got : list Z) (next : Z).
(** What a call returns: the code, and the words that went in or came out. *)
Inductive fifo_event :=
  | Wrote (rc : Z) (l : list Z)
  | Got (rc : Z) (l : list Z).

Record spsc := mk_spsc {
  c_size : Z;
  c_mask : Z;
  c_buf : list Z;
  c_wstamp : list nat;
  c_rstamp : list nat;
  c_w : list Z;
  c_r : list Z;
  c_vw : nat;
  c_vr : nat;
  c_prod : producer;
  c_cons : consumer;
  c_log : list fifo_event
}.

(** ** The accesses *)

Definition set_prod (s : spsc) (p : producer) : spsc :=
  mk_spsc (c_size s) (c_mask s) (c_buf s) (c_wstamp s) (c_rstamp s) (c_w s) (c_r s) (c_vw s) (c_vr s) p (c_cons s) (c_log s).
Definition set_cons (s : spsc) (c : consumer) : spsc :=
  mk_spsc (c_size s) (c_mask s) (c_buf s) (c_wstamp s) (c_rstamp s) (c_w s) (c_r s) (c_vw s) (c_vr s) (c_prod s) c (c_log s).
Definition write_returns (s : spsc) (rc : Z) (l : list Z) : spsc :=
  mk_spsc (c_size s) (c_mask s) (c_buf s) (c_wstamp s) (c_rstamp s) (c_w s) (c_r s) (c_vw s) (c_vr s) PIdle (c_cons s) (Wrote rc l :: c_log s).
Definition read_returns (s : spsc) (rc : Z) (l : list Z) : spsc :=
  mk_spsc (c_size s) (c_mask s) (c_buf s) (c_wstamp s) (c_rstamp s) (c_w s) (c_r s) (c_vw s) (c_vr s) (c_prod s) CIdle (Got rc l :: c_log s).

(** BUFF_LOAD_ACQUIRE of the counter of the other side; [t] is the store it returns. *)
Definition acquire_r (s : spsc) (t : nat) : option (Z * spsc) :=
  if decide (t < c_vr s)%nat then None else
  v ← c_r s !! t;
  Some (v, mk_spsc (c_size s) (c_mask s) (c_buf s) (c_wstamp s) (c_rstamp s) (c_w s) (c_r s) (c_vw s) t (c_prod s) (c_cons s) (c_log s)).
Definition acquire_w (s : spsc) (t : nat) : option (Z * spsc) :=
  if decide (t < c_vw s)%nat then None else
  v ← c_w s !! t;
  Some (v, mk_spsc (c_size s) (c_mask s) (c_buf s) (c_wstamp s) (c_rstamp s) (c_w s) (c_r s) t (c_vr s) (c_prod s) (c_cons s) (c_log s)).
(** BUFF_STORE_RELEASE of the own counter. *)
Definition release_w (s : spsc) (v : Z) : spsc :=
  mk_spsc (c_size s) (c_mask s) (c_buf s) (c_wstamp s) (c_rstamp s) (c_w s ++ [v]) (c_r s) (c_vw s) (c_vr s) (c_prod s) (c_cons s) (c_log s).
Definition release_r (s : spsc) (v : Z) : spsc :=
  mk_spsc (c_size s) (c_mask s) (c_buf s) (c_wstamp s) (c_rstamp s) (c_w s) (c_r s ++ [v]) (c_vw s) (c_vr s) (c_prod s) (c_cons s) (c_log s).
(** The words. *)
Definition write_cell (s : spsc) (i x : Z) : option spsc :=
  b ← arr_set (c_buf s) i x;
  r ← arr_get (c_rstamp s) i;
  if decide (c_vr s < r)%nat then None else
  ws ← arr_set (c_wstamp s) i (length (c_w s));
  Some (mk_spsc (c_size s) (c_mask s) b ws (c_rstamp s) (c_w s) (c_r s) (c_vw s) (c_vr s) (c_prod s) (c_cons s) (c_log s)).
Definition read_cell (s : spsc) (i : Z) : option (Z * spsc) :=
  x ← arr_get (c_buf s) i;
  w ← arr_get (c_wstamp s) i;
  if decide (c_vw s < w)%nat then None else
  rs ← arr_set (c_rstamp s) i (length (c_r s));
  Some (x, mk_spsc (c_size s) (c_mask s) (c_buf s) (c_wstamp s) rs (c_w s) (c_r s) (c_vw s) (c_vr s) (c_prod s) (c_cons s) (c_log s)).

(** The cells of one or two memory copies of [len] words from [idx] on. *)
Definition segment_cells (size idx len : Z) : list Z :=
  let space_to_end := u16 (size - idx) in
  if space_to_end >=? len then seqZ idx len else seqZ idx space_to_end ++ seqZ 0 (len - space_to_end).

(** ** The calls *)

(** [fifo_write_data] ([single]) and [fifo_write_block] up to the copy. *)
Definition producer_load (s : spsc) (t : nat) : option spsc :=
  match c_prod s with
  | PCall single data =>
      '(read_ptr, s) ← acquire_r s t;
      write_ptr ← last (c_w s);
      if single then
        if u16 (write_ptr - read_ptr) >=? c_size s then Some (write_returns s BUFF_ERR_FULL [])
        else x ← head data; Some (set_prod s (PCopy [x] [(Z.land write_ptr (c_mask s), x)] (u16 (write_ptr + 1))))
      else
        let free_len := u16 (c_size s - u16 (write_ptr - read_ptr)) in
        if free_len =? 0 then Some (write_returns s BUFF_ERR_FULL []) else
        let len := Z.of_nat (length data) in
        let len := if len >? free_len then free_len else len in
        let w_idx := u16 (Z.land write_ptr (c_mask s)) in
        let data := take (Z.to_nat len) data in
        Some (set_prod s (PCopy data (zip (segment_cells (c_size s) w_idx len) data) (u16 (write_ptr + len))))
  | _ => None
  end.
(** The next word, or after the last one the store of the counter. *)
Definition producer_copy (s : spsc) : option spsc :=
  match c_prod s with
  | PCopy data [] next => Some (write_returns (release_w s next) BUFF_OK data)
  | PCopy data ((i, x) :: plan) next => s ← write_cell s i x; Some (set_prod s (PCopy data plan next))
  | _ => None
  end.

(** [fifo_read_data] ([single]) and [fifo_read_block] up to the copy. *)
Definition consumer_load (s : spsc) (t : nat) : option spsc :=
  match c_cons s with
  | CCall single len =>
      '(write_ptr, s) ← acquire_w s t;
      read_ptr ← last (c_r s);
      if single then
        if read_ptr =? write_ptr then Some (read_returns s BUFF_ERR_EMPTY [])
        else Some (set_cons s (CCopy [Z.land read_ptr (c_mask s)] [] (u16 (read_ptr + 1))))
      else
        let count := u16 (write_ptr - read_ptr) in
        if count =? 0 then Some (read_returns s BUFF_ERR_EMPTY []) else
        let len := if len >? count then count else len in
        let r_idx := u16 (Z.land read_ptr (c_mask s)) in
        Some (set_cons s (CCopy (segment_cells (c_size s) r_idx len) [] (u16 (read_ptr + len))))
  | _ => None
  end.
Definition consumer_copy (s : spsc) : option spsc :=
  match c_cons s with
  | CCopy [] got next => Some (read_returns (release_r s next) BUFF_OK got)
  | CCopy (i :: cells) got next => '(x, s) ← read_cell s i; Some (set_cons s (CCopy cells (got ++ [x]) next))
  | _ => None
  end.

(** ** The machine *)

Inductive fifo_step_op :=
  | SWrite (x : Z)
  | SWriteBlock (data : list Z)
  | SLoadR (t : nat)
  | SPut
  | SRead
  | SReadBlock (len : Z)
  | SLoadW (t : nat)
  | SGet.

Definition fifo_step (s : spsc) (op : fifo_step_op) : option spsc :=
  match op with
  | SWrite x => Some (set_prod s (PCall true [x]))
  | SWriteBlock data => Some (if Z.of_nat (length data) =? 0 then write_returns s BUFF_ERR_INVAL [] else set_prod s (PCall false data))
  | SLoadR t => producer_load s t
  | SPut => producer_copy s
  | SRead => Some (set_cons s (CCall true 1))
  | SReadBlock len => Some (if len =? 0 then read_returns s BUFF_ERR_INVAL [] else set_cons s (CCall false len))
  | SLoadW t => consumer_load s t
  | SGet => consumer_copy s
  end.

(** One call at a time on each side; a load returns a store that is there and not older than
    what its side has seen. *)
Definition fifo_step_ok (s : spsc) (op : fifo_step_op) : Prop :=
  match op with
  | SWrite _ => c_prod s = PIdle
  | SWriteBlock data => c_prod s = PIdle /\ Z.of_nat (length data) < 65536
  | SLoadR t => (c_vr s ≤ t < length (c_r s))%nat /\ match c_prod s with PCall _ _ => True | _ => False end
  | SPut => match c_prod s with PCopy _ _ _ => True | _ => False end
  | SRead => c_cons s = CIdle
  | SReadBlock len => c_cons s = CIdle /\ is_u16 len
  | SLoadW t => (c_vw s ≤ t < length (c_w s))%nat /\ match c_cons s with CCall _ _ => True | _ => False end
  | SGet => match c_cons s with CCopy _ _ _ => True | _ => False end
  end.

Fixpoint fifo_steps (s : spsc) (ops : list fifo_step_op) : option spsc :=
  match ops with [] => Some s | op :: ops => s ← fifo_step s op; fifo_steps s ops end.
Fixpoint fifo_steps_ok (s : spsc) (ops : list fifo_step_op) : Prop :=
  match ops with
  | [] => True
  | op :: ops => fifo_step_ok s op /\ match fifo_step s op with Some s => fifo_steps_ok s ops | None => True end
  end.

(** What [fifo_init] leaves, with nothing accessed yet. *)
Definition spsc_of (h : fifo_spsc) : spsc :=
  mk_spsc (fifo_size h) (fifo_mask h) (fifo_buf h) (replicate (length (fifo_buf h)) 0%nat) (replicate (length (fifo_buf h)) 0%nat)
    [fifo_w_ptr h] [fifo_r_ptr h] 0 0 PIdle CIdle [].

(** The words that went in and came out, oldest first. *)
Fixpoint sent (log : list fifo_event) : list Z :=
  match log with [] => [] | Wrote _ l :: log => sent log ++ l | Got _ _ :: log => sent log end.
Fixpoint received (log : list fifo_event) : list Z :=
  match log with [] => [] | Got _ l :: log => received log ++ l | Wrote _ _ :: log => received log end.

(** ** The invariant

    A position counts all words ever stored or fetched; the counters hold positions modulo
    2^16, the cells are those modulo the size. *)

Definition head_pos (s : spsc) : Z := Z.of_nat (length (sent (c_log s))).
Definition tail_pos (s : spsc) : Z := Z.of_nat (length (received (c_log s))).
Definition cell_list (N p len : Z) : list Z := (λ j, (p + j) mod N) <$> seqZ 0 len.

Definition pending_in (p : producer) : Z := match p with PCopy data _ _ => Z.of_nat (length data) | _ => 0 end.
Definition pending_out (c : consumer) : Z := match c with CCopy cells got _ => Z.of_nat (length cells + length got) | _ => 0 end.
Definition prod_ok (s : spsc) : Prop :=
  match c_prod s with
  | PIdle => True
  | PCall single data => data ≠ [] /\ Z.of_nat (length data) < 65536 /\ (single = true -> length data = 1%nat)
  | PCopy data plan next =>
      let H := head_pos s in let len := Z.of_nat (length data) in
      0 < len /\ next = u16 (H + len) /\
      ∃ j : nat, plan = drop j (zip (cell_list (c_size s) H len) data) /\
        ∀ (i : nat) x, (i < j)%nat -> data !! i = Some x -> arr_get (c_buf s) ((H + Z.of_nat i) mod c_size s) = Some x
  end.
Definition cons_ok (s : spsc) : Prop :=
  match c_cons s with
  | CIdle => True
  | CCall single len => 0 < len < 65536 /\ (single = true -> len = 1)
  | CCopy cells got next =>
      let T := tail_pos s in
      ∃ len, 0 < len /\ next = u16 (T + len) /\ cells = drop (length got) (cell_list (c_size s) T len) /\
        Z.of_nat (length got) <= len /\ got = take (length got) (drop (length (received (c_log s))) (sent (c_log s)))
  end.
Definition sorted (l : list Z) : Prop := ∀ (i j : nat) a b, (i ≤ j)%nat -> l !! i = Some a -> l !! j = Some b -> a <= b.

Record conc_inv (s : spsc) (aw ar : list Z) : Prop := {
  ci_pow2 : ∃ k, 0 <= k <= 15 /\ c_size s = 2 ^ k;
  ci_mask : c_mask s = c_size s - 1;
  ci_buf : Z.of_nat (length (c_buf s)) = c_size s;
  ci_wstamp : length (c_wstamp s) = length (c_buf s);
  ci_rstamp : length (c_rstamp s) = length (c_buf s);
  ci_w : c_w s = u16 <$> aw;
  ci_r : c_r s = u16 <$> ar;
  ci_sorted_w : sorted aw;
  ci_sorted_r : sorted ar;
  ci_head : last aw = Some (head_pos s);
  ci_tail : last ar = Some (tail_pos s);
  ci_views : ∃ VW VR, aw !! c_vw s = Some VW /\ ar !! c_vr s = Some VR /\
    tail_pos s + pending_out (c_cons s) <= VW /\ head_pos s + pending_in (c_prod s) <= VR + c_size s;
  ci_prefix : received (c_log s) = take (length (received (c_log s))) (sent (c_log s));
  ci_data : ∀ p, tail_pos s <= p < head_pos s -> arr_get (c_buf s) (p mod c_size s) = sent (c_log s) !! Z.to_nat p;
  ci_written : ∀ p t a w, tail_pos s <= p < head_pos s -> aw !! t = Some a -> p < a ->
    arr_get (c_wstamp s) (p mod c_size s) = Some w -> (w ≤ t)%nat;
  ci_fetched : ∀ p t a r, head_pos s - c_size s <= p < tail_pos s -> ar !! t = Some a -> p < a ->
    arr_get (c_rstamp s) (p mod c_size s) = Some r -> (r ≤ t)%nat;
  ci_wmax : ∀ i w, arr_get (c_wstamp s) i = Some w -> (w ≤ length (c_w s))%nat;
  ci_rmax : ∀ i r, arr_get (c_rstamp s) i = Some r -> (r ≤ length (c_r s))%nat;
  ci_prod : prod_ok s;
  ci_cons : cons_ok s
}.

(** ** Positions, cells and histories *)

Lemma mod_inj N p q : 0 < N -> p mod N = q mod N -> - N < p - q < N -> p = q.
Proof. intros HN E Hd. pose proof (Z.div_mod p N ltac:(lia)). pose proof (Z.div_mod q N ltac:(lia)). assert (p / N = q / N) by nia. lia. Qed.
Lemma sorted_snoc l x : sorted l -> (∀ y, last l = Some y -> y <= x) -> sorted (l ++ [x]).
Proof.
  intros Hs Hx i j a b Hij Ha Hb. apply lookup_app_Some in Ha, Hb.
  destruct Hb as [Hb|[Hlb Hb]].
  - destruct Ha as [Ha|[Hla _]]; [by eapply Hs|]. apply lookup_lt_Some in Hb. lia.
  - apply list_lookup_singleton_Some in Hb as [_ <-]. destruct Ha as [Ha|[_ Ha]].
    + destruct l as [|y l] using rev_ind; [done|]. rewrite last_snoc in Hx. transitivity y; [|by apply Hx].
      apply (Hs i (length l) a y); [|done|by apply list_lookup_middle]. apply lookup_lt_Some in Ha. rewrite length_app in Ha. simpl in Ha. lia.
    + apply list_lookup_singleton_Some in Ha as [_ <-]. lia.
Qed.
Lemma sorted_last l i a b : sorted l -> l !! i = Some a -> last l = Some b -> a <= b.
Proof.
  intros Hs Ha Hb. rewrite last_lookup in Hb. apply (Hs i (Nat.pred (length l))); [|done|done]. apply lookup_lt_Some in Ha. lia.
Qed.

Section cells.
Context (N k : Z) (HN : 0 <= k <= 15) (EN : N = 2 ^ k).

Lemma size_bounds : 1 <= N <= 32768.
Proof. subst N. change 32768 with (2 ^ 15). change 1 with (2 ^ 0). split; apply Z.pow_le_mono_r; lia. Qed.
Lemma counter_cell p : Z.land (u16 p) (N - 1) = p mod N.
Proof. subst N. rewrite land_pow2_mask by lia. unfold u16. change 65536 with (2 ^ 16). apply mod_pow2_pow2. lia. Qed.
Lemma length_cell_list p len : 0 <= len -> length (cell_list N p len) = Z.to_nat len.
Proof. intros. unfold cell_list. by rewrite length_fmap, length_seqZ. Qed.
Lemma lookup_cell_list p len (j : nat) : Z.of_nat j < len -> cell_list N p len !! j = Some ((p + Z.of_nat j) mod N).
Proof. intros. unfold cell_list. rewrite list_lookup_fmap, lookup_seqZ_lt by lia. simpl. do 2 f_equal. Qed.
Lemma lookup_cell_list_Some p len (j : nat) i : cell_list N p len !! j = Some i -> i = (p + Z.of_nat j) mod N /\ Z.of_nat j < len.
Proof.
  unfold cell_list. rewrite list_lookup_fmap. intros (q & Hq & ->)%fmap_Some. apply lookup_seqZ in Hq as [-> ?]. done.
Qed.
(** The one or two segments of the copy. *)
Lemma segments_are_cells p len : 0 < len <= N -> segment_cells N (u16 (Z.land (u16 p) (N - 1))) len = cell_list N p len.
Proof.
  pose proof size_bounds as Hb. rewrite counter_cell. intros Hl. pose proof (Z.mod_pos_bound p N ltac:(lia)) as Hm.
  rewrite (u16_small (p mod N)) by (unfold is_u16; lia). unfold segment_cells. rewrite u16_small by (unfold is_u16; lia).
  assert (∀ j, 0 <= j < N -> (p + j) mod N = if p mod N + j <? N then p mod N + j else p mod N + j - N) as Hj.
  { intros j Hjb. rewrite <- Zplus_mod_idemp_l. destruct (Z.ltb_spec (p mod N + j) N); [apply Z.mod_small; lia|].
    symmetry. apply (Z.mod_unique _ _ 1); lia. }
  assert (length (if N - p mod N >=? len then seqZ (p mod N) len else seqZ (p mod N) (N - p mod N) ++ seqZ 0 (len - (N - p mod N))) = Z.to_nat len) as HL.
  { destruct (Z.geb_spec (N - p mod N) len); rewrite ?length_app, ?length_seqZ; lia. }
  apply list_eq. intros j. destruct (decide (j < Z.to_nat len)%nat) as [Hlt|Hge].
  2:{ rewrite !lookup_ge_None_2; [done|rewrite length_cell_list; lia|rewrite HL; lia]. }
  rewrite lookup_cell_list by lia. rewrite Hj by lia.
  destruct (Z.geb_spec (N - p mod N) len), (Z.ltb_spec (p mod N + Z.of_nat j) N); try lia.
  - by rewrite lookup_seqZ_lt by lia.
  - rewrite lookup_app_l by (rewrite length_seqZ; lia). by rewrite lookup_seqZ_lt by lia.
  - rewrite lookup_app_r by (rewrite length_seqZ; lia). rewrite length_seqZ, lookup_seqZ_lt by lia. f_equal. lia.
Qed.
Lemma cell_list_one p : [Z.land (u16 p) (N - 1)] = cell_list N p 1.
Proof. rewrite counter_cell. unfold cell_list. simpl. by rewrite Z.add_0_r. Qed.
End cells.

Lemma u16_diff a b : 0 <= a - b < 65536 -> u16 (u16 a - u16 b) = a - b.
Proof. intros H. unfold u16. rewrite <- Zminus_mod. by apply Z.mod_small. Qed.

(** ** The steps *)

Lemma ci_size s aw ar : conc_inv s aw ar -> 1 <= c_size s <= 32768.
Proof. intros Hi. destruct (ci_pow2 _ _ _ Hi) as (k & Hk & E). by eapply size_bounds. Qed.
(** Nobody is ahead of the other side. *)
Lemma ci_order s aw ar VW VR : conc_inv s aw ar -> aw !! c_vw s = Some VW -> ar !! c_vr s = Some VR -> VW <= head_pos s /\ VR <= tail_pos s.
Proof.
  intros Hi HW HR. split; [eapply sorted_last; [apply (ci_sorted_w _ _ _ Hi)|exact HW|apply Hi]|eapply sorted_last; [apply (ci_sorted_r _ _ _ Hi)|exact HR|apply Hi]].
Qed.
Lemma sent_app_Wrote rc l log : head_pos (mk_spsc 0 0 [] [] [] [] [] 0 0 PIdle CIdle (Wrote rc l :: log)) = Z.of_nat (length (sent log)) + Z.of_nat (length l).
Proof. unfold head_pos. simpl. rewrite length_app. lia. Qed.

(** A side changes what it is about to do. *)
Lemma inv_set_prod s aw ar p :
  conc_inv s aw ar -> prod_ok (set_prod s p) -> (∀ VR, ar !! c_vr s = Some VR -> head_pos s + pending_in p <= VR + c_size s) -> conc_inv (set_prod s p) aw ar.
Proof.
  intros Hi Hp Hb. destruct (ci_views _ _ _ Hi) as (VW & VR & HW & HR & H1 & _). destruct Hi. split; try done.
  exists VW, VR. repeat (split; [done|]). by apply Hb.
Qed.
Lemma inv_set_cons s aw ar c :
  conc_inv s aw ar -> cons_ok (set_cons s c) -> (∀ VW, aw !! c_vw s = Some VW -> tail_pos s + pending_out c <= VW) -> conc_inv (set_cons s c) aw ar.
Proof.
  intros Hi Hc Hb. destruct (ci_views _ _ _ Hi) as (VW & VR & HW & HR & _ & H2). destruct Hi. split; try done.
  exists VW, VR. repeat (split; [done|]). split; [by apply Hb|done].
Qed.
(** A call returns with nothing done. *)
Lemma inv_write_fails s aw ar rc : conc_inv s aw ar -> conc_inv (write_returns s rc []) aw ar.
Proof.
  intros Hi. assert (sent (Wrote rc [] :: c_log s) = sent (c_log s)) as E by (simpl; apply app_nil_r).
  destruct (ci_views _ _ _ Hi) as (VW & VR & HW & HR & H1 & H2). pose proof (ci_order _ _ _ _ _ Hi HW HR) as [_ HT].
  assert (0 <= pending_in (c_prod s)) by (destruct (c_prod s); simpl; lia). destruct Hi.
  split; unfold head_pos, tail_pos, cons_ok in *; cbn [write_returns c_log c_size c_mask c_buf c_wstamp c_rstamp c_w c_r c_vw c_vr c_prod c_cons received] in *;
    rewrite ?E; try done.
  exists VW, VR. repeat (split; [done|]). simpl. lia.
Qed.
Lemma inv_read_fails s aw ar rc : conc_inv s aw ar -> conc_inv (read_returns s rc []) aw ar.
Proof.
  intros Hi. assert (received (Got rc [] :: c_log s) = received (c_log s)) as E by (simpl; apply app_nil_r).
  destruct (ci_views _ _ _ Hi) as (VW & VR & HW & HR & H1 & H2).
  assert (0 <= pending_out (c_cons s)) by (destruct (c_cons s); simpl; lia). destruct Hi.
  split; unfold head_pos, tail_pos, prod_ok, pending_out in *; cbn [read_returns c_log c_size c_mask c_buf c_wstamp c_rstamp c_w c_r c_vw c_vr c_prod c_cons sent] in *;
    rewrite ?E; try done.
  exists VW, VR. repeat (split; [done|]). split; [|done]. lia.
Qed.

(** An acquiring load. *)
Lemma inv_acquire_r s aw ar t :
  conc_inv s aw ar -> (c_vr s ≤ t < length (c_r s))%nat -> pending_in (c_prod s) = 0 ->
  ∃ s' V, acquire_r s t = Some (u16 V, s') /\ conc_inv s' aw ar /\ s' = mk_spsc (c_size s) (c_mask s) (c_buf s) (c_wstamp s) (c_rstamp s) (c_w s) (c_r s) (c_vw s) t (c_prod s) (c_cons s) (c_log s) /\
    ar !! t = Some V /\ 0 <= head_pos s - V <= c_size s.
Proof.
  intros Hi Ht Hp. destruct (ci_views _ _ _ Hi) as (VW & VR & HW & HR & H1 & H2). pose proof (ci_order _ _ _ _ _ Hi HW HR) as [Ho1 Ho2].
  assert (0 <= pending_out (c_cons s)) by (destruct (c_cons s); simpl; lia).
  unfold acquire_r. rewrite decide_False by lia. rewrite (ci_r _ _ _ Hi), list_lookup_fmap.
  destruct (ar !! t) as [V|] eqn:HV.
  2:{ apply lookup_ge_None in HV. rewrite (ci_r _ _ _ Hi), length_fmap in Ht. lia. }
  cbn [fmap option_fmap option_map mbind option_bind]. rewrite <- (ci_r _ _ _ Hi).
  assert (VR <= V) as HVR by (eapply (ci_sorted_r _ _ _ Hi); [|exact HR|exact HV]; lia).
  assert (V <= tail_pos s) as HVT by (eapply sorted_last; [apply (ci_sorted_r _ _ _ Hi)|exact HV|apply Hi]).
  eexists _, V. split; [done|]. split; [|split; [done|split; [done|lia]]].
  destruct Hi. split; try done. exists VW, V. repeat (split; [done|]). unfold head_pos in *. simpl in *. lia.
Qed.
Lemma inv_acquire_w s aw ar t :
  conc_inv s aw ar -> (c_vw s ≤ t < length (c_w s))%nat -> pending_out (c_cons s) = 0 ->
  ∃ s' V, acquire_w s t = Some (u16 V, s') /\ conc_inv s' aw ar /\ s' = mk_spsc (c_size s) (c_mask s) (c_buf s) (c_wstamp s) (c_rstamp s) (c_w s) (c_r s) t (c_vr s) (c_prod s) (c_cons s) (c_log s) /\
    aw !! t = Some V /\ tail_pos s <= V <= head_pos s /\ head_pos s <= tail_pos s + c_size s.
Proof.
  intros Hi Ht Hp. destruct (ci_views _ _ _ Hi) as (VW & VR & HW & HR & H1 & H2). pose proof (ci_order _ _ _ _ _ Hi HW HR) as [Ho1 Ho2].
  assert (0 <= pending_in (c_prod s)) by (destruct (c_prod s); simpl; lia).
  unfold acquire_w. rewrite decide_False by lia. rewrite (ci_w _ _ _ Hi), list_lookup_fmap.
  destruct (aw !! t) as [V|] eqn:HV.
  2:{ apply lookup_ge_None in HV. rewrite (ci_w _ _ _ Hi), length_fmap in Ht. lia. }
  cbn [fmap option_fmap option_map mbind option_bind]. rewrite <- (ci_w _ _ _ Hi).
  assert (VW <= V) as HVR by (eapply (ci_sorted_w _ _ _ Hi); [|exact HW|exact HV]; lia).
  assert (V <= head_pos s) as HVT by (eapply sorted_last; [apply (ci_sorted_w _ _ _ Hi)|exact HV|apply Hi]).
  eexists _, V. split; [done|]. split; [|split; [done|split; [done|lia]]].
  destruct Hi. split; try done. exists V, VR. repeat (split; [done|]). split; [|done]. unfold tail_pos in *. simpl in *. lia.
Qed.
Lemma last_counter (l : list Z) a : last l = Some a -> last (u16 <$> l) = Some (u16 a).
Proof. intros H. rewrite fmap_last, H. done. Qed.

Definition goes_on (r : option spsc) : Prop := match r with Some s => ∃ aw ar, conc_inv s aw ar | None => False end.
Lemma producer_load_ok s aw ar t : conc_inv s aw ar -> fifo_step_ok s (SLoadR t) -> goes_on (producer_load s t).
Proof.
  intros Hi [Ht Hpc]. unfold producer_load. pose proof (ci_prod _ _ _ Hi) as Hp. unfold prod_ok in Hp.
  destruct (c_prod s) as [|single data|] eqn:Ep; [done| |done]. destruct Hp as (Hne & Hlen & Hone). pose proof (ci_size _ _ _ Hi) as Hsz.
  destruct (inv_acquire_r s aw ar t Hi Ht) as (s1 & V & -> & Hi1 & Es1 & HV & Hd); [by rewrite Ep|]. cbn [mbind option_bind].
  assert (c_w s1 = c_w s /\ c_size s1 = c_size s /\ c_mask s1 = c_mask s /\ c_log s1 = c_log s /\ c_vr s1 = t) as (E1 & E2 & E3 & E4 & E5) by (by subst s1).
  assert (head_pos s1 = head_pos s) as EH by (unfold head_pos; by rewrite E4).
  rewrite E1, E2, E3, (ci_w _ _ _ Hi), (last_counter _ _ (ci_head _ _ _ Hi)). cbn [mbind option_bind]. rewrite u16_diff by lia.
  destruct (ci_pow2 _ _ _ Hi) as (k & Hk & EN). rewrite (ci_mask _ _ _ Hi).
  assert (∀ V', ar !! c_vr s1 = Some V' -> V' = V) as HV' by (rewrite E5; congruence).
  assert (0 < Z.of_nat (length data)) as Hpos by (destruct data; [done|simpl; lia]).
  destruct single.
  - destruct (Z.geb_spec (head_pos s - V) (c_size s)); [eexists _, _; by apply inv_write_fails|].
    destruct data as [|x [|]]; [done| |by specialize (Hone eq_refl)]. cbn [head mbind option_bind]. exists aw, ar. apply inv_set_prod; [done| |].
    + unfold prod_ok. cbn [set_prod c_prod c_size c_buf]. change (head_pos (set_prod s1 _)) with (head_pos s1). rewrite E2, EH. simpl length. split; [lia|].
      assert (u16 (u16 (head_pos s) + 1) = u16 (head_pos s + Z.of_nat 1)) as -> by (unfold u16; apply Zplus_mod_idemp_l). split; [done|].
      exists 0%nat. split; [|lia]. change (Z.of_nat 1) with 1. rewrite <- (cell_list_one (c_size s) k) by done. done.
    + intros V' ->%HV'. simpl. lia.
  - rewrite (u16_small (c_size s - _)) by (unfold is_u16; lia).
    destruct (Z.eqb_spec (c_size s - (head_pos s - V)) 0); [eexists _, _; by apply inv_write_fails|].
    set (len := if Z.of_nat (length data) >? _ then _ else _). assert (0 < len <= c_size s - (head_pos s - V) /\ len <= Z.of_nat (length data)) as [Hl1 Hl2]
      by (subst len; destruct (Z.gtb_spec (Z.of_nat (length data)) (c_size s - (head_pos s - V))); lia).
    exists aw, ar. assert (Z.of_nat (length (take (Z.to_nat len) data)) = len) as El by (rewrite length_take; lia). apply inv_set_prod; [done| |].
    + unfold prod_ok. cbn [set_prod c_prod c_size c_buf]. change (head_pos (set_prod s1 _)) with (head_pos s1). rewrite E2, EH, El. split; [lia|].
      assert (u16 (u16 (head_pos s) + len) = u16 (head_pos s + len)) as -> by (unfold u16; apply Zplus_mod_idemp_l). split; [done|].
      exists 0%nat. split; [|lia]. rewrite (segments_are_cells (c_size s) k) by (done || lia). done.
    + intros V' ->%HV'. simpl. rewrite El, EH, E2. lia.
Qed.
Lemma consumer_load_ok s aw ar t : conc_inv s aw ar -> fifo_step_ok s (SLoadW t) -> goes_on (consumer_load s t).
Proof.
  intros Hi [Ht Hpc]. unfold consumer_load. pose proof (ci_cons _ _ _ Hi) as Hp. unfold cons_ok in Hp.
  destruct (c_cons s) as [|single len|] eqn:Ep; [done| |done]. destruct Hp as (Hlen & Hone). pose proof (ci_size _ _ _ Hi) as Hsz.
  destruct (inv_acquire_w s aw ar t Hi Ht) as (s1 & V & -> & Hi1 & Es1 & HV & Hd & Hfull); [by rewrite Ep|]. cbn [mbind option_bind].
  assert (c_r s1 = c_r s /\ c_size s1 = c_size s /\ c_mask s1 = c_mask s /\ c_log s1 = c_log s /\ c_vw s1 = t) as (E1 & E2 & E3 & E4 & E5) by (by subst s1).
  assert (tail_pos s1 = tail_pos s) as EH by (unfold tail_pos; by rewrite E4).
  rewrite E1, E2, E3, (ci_r _ _ _ Hi), (last_counter _ _ (ci_tail _ _ _ Hi)). cbn [mbind option_bind].
  destruct (ci_pow2 _ _ _ Hi) as (k & Hk & EN). rewrite (ci_mask _ _ _ Hi).
  assert (∀ V', aw !! c_vw s1 = Some V' -> V' = V) as HV' by (rewrite E5; congruence).
  assert (∀ n, u16 (u16 (tail_pos s) + n) = u16 (tail_pos s + n)) as Eu by (intros n; unfold u16; apply Zplus_mod_idemp_l).
  destruct single.
  - destruct (Z.eqb_spec (u16 (tail_pos s)) (u16 V)) as [|Hne]; [eexists _, _; by apply inv_read_fails|].
    assert (V ≠ tail_pos s) by congruence. exists aw, ar. apply inv_set_cons; [done| |].
    + unfold cons_ok. cbn [set_cons c_cons c_size]. change (tail_pos (set_cons s1 _)) with (tail_pos s1). rewrite E2, EH, Eu. exists 1. simpl length.
      rewrite <- (cell_list_one (c_size s) k) by done. repeat (split; [done || lia|]). done.
    + intros V' ->%HV'. rewrite EH. simpl. lia.
  - rewrite u16_diff by lia.
    destruct (Z.eqb_spec (V - tail_pos s) 0); [eexists _, _; by apply inv_read_fails|].
    set (cnt := if len >? _ then _ else _). assert (0 < cnt <= V - tail_pos s) as Hl1
      by (subst cnt; destruct (Z.gtb_spec len (V - tail_pos s)); lia).
    exists aw, ar. rewrite (segments_are_cells (c_size s) k) by (done || lia). apply inv_set_cons; [done| |].
    + unfold cons_ok. cbn [set_cons c_cons c_size]. change (tail_pos (set_cons s1 _)) with (tail_pos s1). rewrite E2, EH, Eu. exists cnt. simpl length.
      repeat (split; [done || lia|]). done.
    + intros V' ->%HV'. rewrite EH. simpl. rewrite length_cell_list by lia. lia.
Qed.

(** The words that are on their way are where the call put them. *)
Lemma arr_get_set {A} (b b' : list A) i j x : arr_set b i x = Some b' -> arr_get b' j = if decide (j = i) then Some x else arr_get b j.
Proof.
  unfold arr_set, arr_get. destruct (Z.leb_spec 0 i); [|done]. destruct (Z.ltb_spec i (Z.of_nat (length b))); [|done]. cbn [andb]. intros [= <-].
  destruct (decide (j = i)) as [->|Hne].
  - destruct (Z.leb_spec 0 i); [|lia]. apply list_lookup_insert_eq. lia.
  - destruct (Z.leb_spec 0 j); [|done]. apply list_lookup_insert_ne. lia.
Qed.
Lemma arr_get_lt {A} (b : list A) i : 0 <= i < Z.of_nat (length b) -> ∃ x, arr_get b i = Some x.
Proof. intros Hi. unfold arr_get. destruct (Z.leb_spec 0 i); [|lia]. destruct (lookup_lt_is_Some_2 b (Z.to_nat i)) as [x Hx]; [lia|]. eauto. Qed.
Lemma length_arr_set {A} (b b' : list A) i x : arr_set b i x = Some b' -> length b' = length b.
Proof. unfold arr_set. destruct (_ && _); [|done]. intros [= <-]. apply length_insert. Qed.
Lemma plan_head {A} (l l' : list A) j x : x :: l' = drop j l -> l !! j = Some x /\ l' = drop (S j) l.
Proof.
  intros E. assert (l !! j = Some x) as Hx by (rewrite <- (Nat.add_0_r j), <- lookup_drop, <- E; done). split; [done|].
  rewrite (drop_S _ _ _ Hx) in E. congruence.
Qed.

Lemma put_ok s aw ar : conc_inv s aw ar -> fifo_step_ok s SPut -> goes_on (producer_copy s).
Proof.
  intros Hi Hpc. unfold producer_copy. pose proof (ci_prod _ _ _ Hi) as Hp. unfold prod_ok in Hp. cbn [fifo_step_ok] in Hpc.
  destruct (c_prod s) as [| |data plan next] eqn:Ep; [done..|]. clear Hpc. destruct Hp as (Hlen & Hnext & j & Hplan & Hdone).
  destruct (ci_views _ _ _ Hi) as (VW & VR & HW & HR & H1 & H2). rewrite Ep in H2. cbn [pending_in] in H2.
  pose proof (ci_order _ _ _ _ _ Hi HW HR) as [HoW HoR]. pose proof (ci_size _ _ _ Hi) as Hsz.
  assert (0 <= pending_out (c_cons s)) as Hpo by (destruct (c_cons s); simpl; lia).
  set (N := c_size s) in *. set (H := head_pos s) in *. set (T := tail_pos s) in *.
  destruct plan as [|[i x] plan].
  - (* the store of the counter *)
    set (H' := H + Z.of_nat (length data)). exists (aw ++ [H']), ar.
    assert (length data ≤ j)%nat as Hj.
    { destruct (decide (length data ≤ j)%nat) as [|Hn]; [done|exfalso]. assert (length (zip (cell_list N H (Z.of_nat (length data))) data) = length data) as El.
      { rewrite length_zip_with, length_cell_list by lia. lia. }
      assert (length (@nil (Z * Z)) = length (drop j (zip (cell_list N H (Z.of_nat (length data))) data))) as E by (by rewrite <- Hplan).
      rewrite length_drop, El in E. simpl in E. lia. }
    assert (∀ p, H <= p < H' -> arr_get (c_buf s) (p mod N) = data !! Z.to_nat (p - H)) as Hnew.
    { intros p Hp. destruct (lookup_lt_is_Some_2 data (Z.to_nat (p - H))) as [x Hx]; [lia|]. rewrite Hx.
      rewrite <- (Hdone (Z.to_nat (p - H)) x); [|lia|done]. do 2 f_equal. lia. }
    assert (head_pos (write_returns (release_w s next) BUFF_OK data) = H') as EH by (unfold head_pos; simpl; rewrite length_app; unfold H', H, head_pos; lia).
    pose proof (ci_head _ _ _ Hi) as Hl. fold H in Hl. assert (Z.of_nat (length (received (c_log s))) = T /\ Z.of_nat (length (sent (c_log s))) = H) as [ET EH0] by done.
    assert (length (c_w s) = length aw) as Elw by (rewrite (ci_w _ _ _ Hi); apply length_fmap).
    assert (∀ p t a, (aw ++ [H']) !! t = Some a -> p < H -> p < a -> ∃ a', aw !! t = Some a' /\ p < a' \/ t = length aw) as Hold.
    { intros p t a Ha Hp Hpa. apply lookup_app_Some in Ha as [Ha|[Ht Ha]]; [eauto|]. apply list_lookup_singleton_Some in Ha as [Ht' _]. exists 0. right. lia. }
    split; unfold tail_pos; rewrite ?EH; cbn [write_returns release_w c_log c_size c_mask c_buf c_wstamp c_rstamp c_w c_r c_vw c_vr c_prod c_cons received sent]; fold N; rewrite ?ET.
    + apply Hi. + apply Hi. + apply Hi. + apply Hi. + apply Hi.
    + rewrite fmap_app, <- (ci_w _ _ _ Hi), Hnext. done.
    + apply Hi.
    + apply sorted_snoc; [apply Hi|]. intros y Hy. assert (y = H) as -> by congruence. lia.
    + apply Hi.
    + apply last_snoc.
    + apply Hi.
    + exists VW, VR. split; [rewrite lookup_app_l; [done|by eapply lookup_lt_Some]|]. split; [done|]. split; [done|]. simpl. lia.
    + rewrite take_app_le by lia. apply Hi.
    + intros p Hp. destruct (Z.lt_ge_cases p H).
      * rewrite lookup_app_l by lia. apply (ci_data _ _ _ Hi). fold T H. lia.
      * rewrite Hnew by lia. rewrite lookup_app_r by lia. f_equal. lia.
    + intros p t a w Hp Ha Hpa Hw. destruct (Z.lt_ge_cases p H) as [Hlt|Hge].
      * destruct (Hold p t a Ha Hlt Hpa) as (a' & [[Ha' Hpa']| ->]); [apply (ci_written _ _ _ Hi p t a' w); [fold T H; lia|done..]|].
        rewrite <- Elw. by eapply (ci_wmax _ _ _ Hi).
      * apply lookup_app_Some in Ha as [Ha|[Ht Ha]].
        -- assert (a <= H) by (eapply sorted_last; [apply (ci_sorted_w _ _ _ Hi)|exact Ha|exact Hl]). lia.
        -- pose proof (ci_wmax _ _ _ Hi _ _ Hw). lia.
    + intros p t a r Hp. apply (ci_fetched _ _ _ Hi p t a r). fold T H N. lia.
    + intros i w Hw. pose proof (ci_wmax _ _ _ Hi _ _ Hw). rewrite length_app. lia.
    + apply Hi.
    + exact I.
    + pose proof (ci_cons _ _ _ Hi) as Hc. unfold cons_ok in *. cbn [write_returns release_w c_cons c_log c_size sent received].
      destruct (c_cons s) as [| |cells got nx] eqn:Ec; [done..|]. destruct Hc as (len & L1 & L2 & L3 & L4 & L5). exists len.
      repeat (split; [done|]). rewrite L5 at 1. change (tail_pos s) with T in L3. assert (length cells = Z.to_nat len - length got)%nat as El2 by (rewrite L3, length_drop, length_cell_list by lia; lia).
      cbn [pending_out] in H1. rewrite drop_app_le by lia. rewrite take_app_le; [done|]. rewrite length_drop. lia.
  - (* one word *)
    apply plan_head in Hplan as [Hx Hplan]. apply lookup_zip_with_Some in Hx as (i' & x' & [= <- <-] & Hcell & Hx). apply lookup_cell_list_Some in Hcell as [-> Hj].
    set (q := H + Z.of_nat j) in *. pose proof (Z.mod_pos_bound q N ltac:(lia)) as Hm. pose proof (ci_buf _ _ _ Hi) as Hlb. fold N in Hlb.
    pose proof (ci_wstamp _ _ _ Hi) as Hlw. pose proof (ci_rstamp _ _ _ Hi) as Hlr.
    unfold write_cell. rewrite (arr_set_in (c_buf s)) by lia. cbn [mbind option_bind].
    destruct (arr_get_lt (c_rstamp s) (q mod N)) as [r Hr]; [lia|]. rewrite Hr. cbn [mbind option_bind].
    assert (r ≤ c_vr s)%nat as Hrace.
    { apply (ci_fetched _ _ _ Hi (q - N) (c_vr s) VR r); [fold H N T; lia|done|lia|]. fold N. rewrite <- Hr. f_equal.
      replace (q - N) with (q + (-1) * N) by lia. apply Z.mod_add. lia. }
    rewrite decide_False by lia. rewrite (arr_set_in (c_wstamp s)) by lia. cbn [mbind option_bind]. exists aw, ar.
    set (b' := <[Z.to_nat (q mod N) := x]> (c_buf s)). set (ws' := <[Z.to_nat (q mod N) := length (c_w s)]> (c_wstamp s)).
    assert (∀ i, arr_get b' i = if decide (i = q mod N) then Some x else arr_get (c_buf s) i) as Gb by (intros i; apply arr_get_set, arr_set_in; lia).
    assert (∀ i, arr_get ws' i = if decide (i = q mod N) then Some (length (c_w s)) else arr_get (c_wstamp s) i) as Gw by (intros i; apply arr_get_set, arr_set_in; lia).
    assert (∀ p, T <= p < q -> p mod N ≠ q mod N) as Hne by (intros p Hp E; apply mod_inj in E; lia).
    split; unfold head_pos, tail_pos; cbn [set_prod c_log c_size c_mask c_buf c_wstamp c_rstamp c_w c_r c_vw c_vr c_prod c_cons]; fold N; try apply Hi.
    + subst b'. by rewrite length_insert.
    + subst b' ws'. by rewrite !length_insert.
    + subst b'. by rewrite length_insert.
    + exists VW, VR. repeat (split; [done|]). exact H2.
    + intros p Hp. rewrite Gb, decide_False by (apply Hne; unfold T, q, H, tail_pos, head_pos; lia). by apply (ci_data _ _ _ Hi).
    + intros p t a w Hp Ha Hpa. rewrite Gw, decide_False by (apply Hne; unfold T, q, H, tail_pos, head_pos; lia). by apply (ci_written _ _ _ Hi p t a w).
    + intros i w. rewrite Gw. destruct (decide _); [intros [= <-]; lia|]. apply (ci_wmax _ _ _ Hi).
    + unfold prod_ok. cbn [set_prod c_prod c_size c_buf]. fold N. change (head_pos _) with H. split; [done|]. split; [done|]. exists (S j). split; [done|].
      intros i y Hlt Hy. rewrite Gb. destruct (decide (i = j)) as [->|Hn].
      * rewrite decide_True by done. congruence.
      * rewrite decide_False by (apply Hne; lia). apply Hdone; [lia|done].
Qed.

Lemma take_snoc {A} (l : list A) n x : l !! n = Some x -> take n l ++ [x] = take (S n) l.
Proof. intros H. symmetry. by apply take_S_r. Qed.
Lemma get_ok s aw ar : conc_inv s aw ar -> fifo_step_ok s SGet -> goes_on (consumer_copy s).
Proof.
  intros Hi Hpc. unfold consumer_copy. pose proof (ci_cons _ _ _ Hi) as Hc. unfold cons_ok in Hc. cbn [fifo_step_ok] in Hpc.
  destruct (c_cons s) as [| |cells got next] eqn:Ec; [done..|]. clear Hpc. destruct Hc as (len & Hlen & Hnext & Hcells & Hle & Hgot).
  destruct (ci_views _ _ _ Hi) as (VW & VR & HW & HR & H1 & H2). rewrite Ec in H1. cbn [pending_out] in H1.
  pose proof (ci_order _ _ _ _ _ Hi HW HR) as [HoW HoR]. pose proof (ci_size _ _ _ Hi) as Hsz.
  assert (0 <= pending_in (c_prod s)) as Hpi by (destruct (c_prod s); simpl; lia).
  set (N := c_size s) in *. set (H := head_pos s) in *. set (T := tail_pos s) in *.
  assert (length cells = Z.to_nat len - length got)%nat as Elc by (rewrite Hcells, length_drop, length_cell_list by lia; lia).
  assert (Z.of_nat (length (received (c_log s))) = T /\ Z.of_nat (length (sent (c_log s))) = H) as [ET EH] by done.
  destruct cells as [|i cells].
  - (* the store of the counter *)
    simpl in Elc. assert (Z.of_nat (length got) = len) as Elen by lia.
    set (T' := T + len). exists aw, (ar ++ [T']).
    assert (tail_pos (read_returns (release_r s next) BUFF_OK got) = T') as ET' by (unfold tail_pos; simpl; rewrite length_app; unfold T', T, tail_pos; lia).
    assert (length (c_r s) = length ar) as Elr by (rewrite (ci_r _ _ _ Hi); apply length_fmap).
    pose proof (ci_tail _ _ _ Hi) as Hl. fold T in Hl. change (0%nat + length got)%nat with (length got) in H1.
    split; unfold head_pos; rewrite ?ET'; cbn [read_returns release_r c_log c_size c_mask c_buf c_wstamp c_rstamp c_w c_r c_vw c_vr c_prod c_cons received sent]; fold N; rewrite ?EH.
    + apply Hi. + apply Hi. + apply Hi. + apply Hi. + apply Hi. + apply Hi.
    + rewrite fmap_app, <- (ci_r _ _ _ Hi), Hnext. done.
    + apply Hi.
    + apply sorted_snoc; [apply Hi|]. intros y Hy. assert (y = T) as -> by congruence. lia.
    + apply Hi.
    + apply last_snoc.
    + exists VW, VR. split; [done|]. split; [rewrite lookup_app_l; [done|by eapply lookup_lt_Some]|]. split; [simpl; lia|done].
    + rewrite length_app. rewrite (ci_prefix _ _ _ Hi) at 1. rewrite Hgot at 1. by rewrite take_take_drop.
    + intros p Hp. apply (ci_data _ _ _ Hi). fold T H. lia.
    + intros p t a w Hp. apply (ci_written _ _ _ Hi p t a w). fold T H. lia.
    + intros p t a r Hp Ha Hpa Hr. apply lookup_app_Some in Ha as [Ha|[Ht Ha]].
      * assert (a <= T) by (eapply sorted_last; [apply (ci_sorted_r _ _ _ Hi)|exact Ha|exact Hl]).
        apply (ci_fetched _ _ _ Hi p t a r); [fold H N T; lia|done..].
      * pose proof (ci_rmax _ _ _ Hi _ _ Hr). lia.
    + apply Hi.
    + intros i r Hr. pose proof (ci_rmax _ _ _ Hi _ _ Hr). rewrite length_app. lia.
    + exact (ci_prod _ _ _ Hi).
    + exact I.
  - (* one word *)
    apply plan_head in Hcells as [Hx Hcells]. apply lookup_cell_list_Some in Hx as [-> Hj]. simpl in Elc.
    set (q := T + Z.of_nat (length got)) in *. pose proof (Z.mod_pos_bound q N ltac:(lia)) as Hm. pose proof (ci_buf _ _ _ Hi) as Hlb. fold N in Hlb.
    pose proof (ci_wstamp _ _ _ Hi) as Hlw. pose proof (ci_rstamp _ _ _ Hi) as Hlr. simpl length in H1.
    unfold read_cell. destruct (lookup_lt_is_Some_2 (sent (c_log s)) (Z.to_nat q)) as [x Hx]; [lia|].
    rewrite (ci_data _ _ _ Hi) by (fold T H; lia). rewrite Hx. cbn [mbind option_bind].
    destruct (arr_get_lt (c_wstamp s) (q mod N)) as [w Hw]; [lia|]. rewrite Hw. cbn [mbind option_bind].
    assert (w ≤ c_vw s)%nat as Hrace by (apply (ci_written _ _ _ Hi q (c_vw s) VW w); [fold T H; lia|done|lia|done]).
    rewrite decide_False by lia. rewrite (arr_set_in (c_rstamp s)) by lia. cbn [mbind option_bind]. exists aw, ar.
    set (rs' := <[Z.to_nat (q mod N) := length (c_r s)]> (c_rstamp s)).
    assert (∀ i, arr_get rs' i = if decide (i = q mod N) then Some (length (c_r s)) else arr_get (c_rstamp s) i) as Gr by (intros i; apply arr_get_set, arr_set_in; lia).
    split; unfold head_pos, tail_pos; cbn [set_cons c_log c_size c_mask c_buf c_wstamp c_rstamp c_w c_r c_vw c_vr c_prod c_cons]; fold N; try apply Hi.
    + subst rs'. by rewrite length_insert.
    + exists VW, VR. repeat (split; [done|]). split; [|done]. cbn [pending_out]. rewrite length_app. simpl. lia.
    + intros p t a r Hp Ha Hpa. rewrite Gr, decide_False; [by apply (ci_fetched _ _ _ Hi p t a r)|]. intros E. apply mod_inj in E; lia.
    + intros i r. rewrite Gr. destruct (decide _); [intros [= <-]; lia|]. apply (ci_rmax _ _ _ Hi).
    + unfold cons_ok. cbn [set_cons c_cons c_size c_log]. fold N. change (tail_pos _) with T. exists len. split; [done|]. split; [done|].
      rewrite length_app. simpl length. rewrite Nat.add_1_r. split; [done|]. split; [lia|].
      rewrite Hgot at 1. rewrite <- take_snoc with (x := x); [done|]. rewrite lookup_drop. rewrite <- Hx. f_equal. lia.
Qed.

Lemma fifo_step_inv s aw ar op : conc_inv s aw ar -> fifo_step_ok s op -> ∃ s' aw' ar', fifo_step s op = Some s' /\ conc_inv s' aw' ar'.
Proof.
  intros Hi Hok.
  assert (goes_on (fifo_step s op) -> ∃ s' aw' ar', fifo_step s op = Some s' /\ conc_inv s' aw' ar') as Hgo.
  { unfold goes_on. destruct (fifo_step s op) as [s'|]; [|done]. intros (aw' & ar' & H). eauto. }
  apply Hgo. destruct (ci_views _ _ _ Hi) as (VW & VR & HW & HR & H1 & H2).
  destruct op as [x|data|t| | |len|t|]; cbn [fifo_step fifo_step_ok] in *.
  - exists aw, ar. apply inv_set_prod; [done|by cbn|]. intros V HV. rewrite Hok in H2. simpl in *. assert (V = VR) as -> by congruence. lia.
  - destruct Hok as [Hp Hl]. destruct (Z.eqb_spec (Z.of_nat (length data)) 0); exists aw, ar; [by apply inv_write_fails|]. apply inv_set_prod; [done| |].
    + cbn. split; [by intros ->|]. by split.
    + intros V HV. rewrite Hp in H2. simpl in *. assert (V = VR) as -> by congruence. lia.
  - by apply (producer_load_ok s aw ar).
  - by apply (put_ok s aw ar).
  - exists aw, ar. apply inv_set_cons; [done|cbn; by split|]. intros V HV. rewrite Hok in H1. simpl in *. assert (V = VW) as -> by congruence. lia.
  - destruct Hok as [Hp Hl]. destruct (Z.eqb_spec len 0); exists aw, ar; [by apply inv_read_fails|]. apply inv_set_cons; [done| |].
    + cbn. unfold is_u16 in Hl. split; [lia|done].
    + intros V HV. rewrite Hp in H1. simpl in *. assert (V = VW) as -> by congruence. lia.
  - by apply (consumer_load_ok s aw ar).
  - by apply (get_ok s aw ar).
Qed.
Lemma fifo_steps_inv ops : ∀ s aw ar, conc_inv s aw ar -> fifo_steps_ok s ops -> ∃ s' aw' ar', fifo_steps s ops = Some s' /\ conc_inv s' aw' ar'.
Proof.
  induction ops as [|op ops IH]; intros s aw ar Hi; cbn [fifo_steps fifo_steps_ok]; [eauto 6|]. intros [Hop Hops].
  destruct (fifo_step_inv s aw ar op Hi Hop) as (s1 & aw1 & ar1 & E & Hi1). rewrite E in Hops |- *. cbn [mbind option_bind]. by apply (IH s1 aw1 ar1).
Qed.

Lemma spsc_of_inv handle b size h :
  is_u16 size -> Z.of_nat (length b) = size -> fifo_init handle (Some b) size = (BUFF_OK, Some h) -> conc_inv (spsc_of h) [0] [0].
Proof.
  intros Hs Hb E. destruct (fifo_init_wf _ _ _ _ Hs Hb E) as ([] & _ & _).
  assert (fifo_w_ptr h = 0 /\ fifo_r_ptr h = 0) as [Ew Er].
  { unfold fifo_init in E. destruct handle; [|done]. destruct (_ || _); [done|]. by injection E as <-. }
  assert (1 <= fifo_size h) by (destruct wf_pow2 as (k & Hk & ->); pose proof (size_bounds _ k Hk eq_refl); lia).
  assert (∀ n i w, arr_get (replicate n 0%nat) i = Some w -> w = 0%nat) as Hrep.
  { intros n i w. unfold arr_get. destruct (0 <=? i); [|done]. intros [-> _]%lookup_replicate. done. }
  assert (sorted [0]) as Hsort.
  { intros i j x y _ [_ <-]%list_lookup_singleton_Some [_ <-]%list_lookup_singleton_Some. lia. }
  split; cbn [spsc_of c_log c_size c_mask c_buf c_wstamp c_rstamp c_w c_r c_vw c_vr c_prod c_cons]; rewrite ?length_replicate; try done.
  - by rewrite Ew.
  - by rewrite Er.
  - exists 0, 0. repeat (split; [done|]). change (0 <= fifo_size h). lia.
  - intros p Hp. change (0 <= p < 0) in Hp. lia.
  - intros p t a w _ _ _ ->%Hrep. lia.
  - intros p t a w _ _ _ ->%Hrep. lia.
  - intros i w ->%Hrep. lia.
  - intros i w ->%Hrep. lia.
Qed.

(** ** Wait freedom

    What a side still has to do, whatever the other side does. *)

Definition of_producer (op : fifo_step_op) : bool := match op with SLoadR _ | SPut => true | _ => false end.
Definition of_consumer (op : fifo_step_op) : bool := match op with SLoadW _ | SGet => true | _ => false end.
Definition write_starts (op : fifo_step_op) : bool := match op with SWrite _ | SWriteBlock _ => true | _ => false end.
Definition read_starts (op : fifo_step_op) : bool := match op with SRead | SReadBlock _ => true | _ => false end.
Definition steps_of (side : fifo_step_op -> bool) (ops : list fifo_step_op) : nat := length (filter (λ op, side op = true) ops).
Definition producer_left (s : spsc) : nat :=
  match c_prod s with PIdle => 0 | PCall _ data => length data + 2 | PCopy _ plan _ => length plan + 1 end%nat.
Definition consumer_left (s : spsc) : nat :=
  match c_cons s with CIdle => 0 | CCall _ len => Z.to_nat len + 2 | CCopy cells _ _ => length cells + 1 end%nat.

Lemma length_segment_cells size idx len : 0 <= len -> length (segment_cells size idx len) = Z.to_nat len.
Proof.
  intros Hl. unfold segment_cells. pose proof (u16_range (size - idx)) as Hu. unfold is_u16 in Hu.
  destruct (Z.geb_spec (u16 (size - idx)) len); rewrite ?length_app, ?length_seqZ; lia.
Qed.
Lemma acquire_fields s t v s' : acquire_r s t = Some (v, s') \/ acquire_w s t = Some (v, s') -> c_prod s' = c_prod s /\ c_cons s' = c_cons s.
Proof.
  unfold acquire_r, acquire_w. intros [E|E]; destruct (decide _); [done| |done|].
  - destruct (c_r s !! t); [|done]. by injection E as <- <-.
  - destruct (c_w s !! t); [|done]. by injection E as <- <-.
Qed.
Lemma load_r_left s t s' : producer_load s t = Some s' -> (producer_left s' < producer_left s)%nat /\ c_cons s' = c_cons s.
Proof.
  unfold producer_load. destruct (c_prod s) as [|single data|] eqn:Ep; [done| |done]. unfold producer_left. rewrite Ep.
  destruct (acquire_r s t) as [[v s1]|] eqn:Ea; [|done]. cbn [mbind option_bind].
  destruct (acquire_fields s t v s1 (or_introl Ea)) as [_ Ec]. destruct (last (c_w s1)); [|done]. cbn [mbind option_bind]. destruct single.
  - destruct (_ >=? _); [intros [= <-]; cbn; split; [lia|done]|]. destruct data as [|x data]; [done|]. intros [= <-]. cbn. split; [lia|done].
  - destruct (_ =? 0); [intros [= <-]; cbn; split; [lia|done]|]. intros [= <-]. cbn [set_prod c_prod c_cons]. split; [|done].
    rewrite length_zip_with, length_take. lia.
Qed.
Lemma load_w_left s t s' : 0 <= match c_cons s with CCall _ len => len | _ => 0 end -> (match c_cons s with CCall true len => 1 <= len | _ => True end) ->
  consumer_load s t = Some s' -> (consumer_left s' < consumer_left s)%nat /\ c_prod s' = c_prod s.
Proof.
  unfold consumer_load. destruct (c_cons s) as [|single len|] eqn:Ep; [done| |done]. intros Hlen Hone. unfold consumer_left. rewrite Ep.
  destruct (acquire_w s t) as [[v s1]|] eqn:Ea; [|done]. cbn [mbind option_bind].
  destruct (acquire_fields s t v s1 (or_intror Ea)) as [Ec _]. destruct (last (c_r s1)); [|done]. cbn [mbind option_bind]. destruct single.
  - destruct (_ =? _); [intros [= <-]; cbn; split; [lia|done]|]. intros [= <-]. cbn. split; [lia|done].
  - destruct (_ =? 0); [intros [= <-]; cbn; split; [lia|done]|]. intros [= <-]. cbn [set_cons c_prod c_cons]. split; [|done].
    pose proof (u16_range (v - z)) as Hu. unfold is_u16 in Hu. rewrite length_segment_cells; destruct (Z.gtb_spec len (u16 (v - z))); lia.
Qed.

Lemma step_left s aw ar op s' : conc_inv s aw ar -> fifo_step_ok s op -> fifo_step s op = Some s' ->
  (write_starts op = false -> producer_left s' + (if of_producer op then 1 else 0) ≤ producer_left s)%nat /\
  (read_starts op = false -> consumer_left s' + (if of_consumer op then 1 else 0) ≤ consumer_left s)%nat.
Proof.
  intros Hi Hok E. pose proof (ci_cons _ _ _ Hi) as Hc. unfold cons_ok in Hc.
  destruct op as [x|data|t| | |len|t|]; cbn [fifo_step fifo_step_ok write_starts read_starts of_producer of_consumer] in *.
  - injection E as <-. split; [done|]. intros _. unfold consumer_left. simpl. lia.
  - injection E as <-. split; [done|]. intros _. unfold consumer_left. destruct (_ =? 0); simpl; lia.
  - apply load_r_left in E as [E1 E2]. unfold consumer_left. rewrite E2. split; intros _; lia.
  - unfold producer_copy, producer_left, consumer_left in *. destruct (c_prod s) as [| |data [|[i x] plan] next]; try done.
    + injection E as <-. simpl. lia.
    + unfold write_cell in E. destruct (arr_set (c_buf s) i x); [|done]. destruct (arr_get (c_rstamp s) i); [|done]. cbn [mbind option_bind] in E.
      destruct (decide _); [done|]. destruct (arr_set (c_wstamp s) i _); [|done]. injection E as <-. simpl. lia.
  - injection E as <-. split; [|done]. intros _. unfold producer_left. simpl. lia.
  - injection E as <-. split; [|done]. intros _. unfold producer_left. destruct (_ =? 0); simpl; lia.
  - apply load_w_left in E as [E1 E2].
    + unfold producer_left. rewrite E2. split; intros _; lia.
    + destruct (c_cons s); [done|lia|done].
    + destruct (c_cons s) as [|[] ?|]; [done|lia|done..].
  - unfold consumer_copy, producer_left, consumer_left in *. destruct (c_cons s) as [| |[|i cells] got next]; try done.
    + injection E as <-. simpl. lia.
    + unfold read_cell in E. destruct (arr_get (c_buf s) i); [|done]. destruct (arr_get (c_wstamp s) i); [|done]. cbn [mbind option_bind] in E.
      destruct (decide _); [done|]. destruct (arr_set (c_rstamp s) i _); [|done]. injection E as <-. simpl. lia.
Qed.
Lemma steps_left ops : ∀ s aw ar, conc_inv s aw ar -> fifo_steps_ok s ops ->
  (Forall (λ op, write_starts op = false) ops -> steps_of of_producer ops ≤ producer_left s)%nat /\
  (Forall (λ op, read_starts op = false) ops -> steps_of of_consumer ops ≤ consumer_left s)%nat.
Proof.
  induction ops as [|op ops IH]; intros s aw ar Hi; [split; intros; unfold steps_of; simpl; lia|]. cbn [fifo_steps_ok]. intros [Hop Hops].
  destruct (fifo_step_inv s aw ar op Hi Hop) as (s1 & aw1 & ar1 & E & Hi1). rewrite E in Hops. destruct (step_left s aw ar op s1 Hi Hop E) as [L1 L2].
  destruct (IH s1 aw1 ar1 Hi1 Hops) as [I1 I2]. unfold steps_of in *. rewrite !filter_cons.
  split; intros [Hop' Hf]%list.Forall_cons_1; [specialize (L1 Hop'); specialize (I1 Hf)|specialize (L2 Hop'); specialize (I2 Hf)].
  - destruct (of_producer op); [rewrite decide_True by done|rewrite decide_False by done]; simpl; lia.
  - destruct (of_consumer op); [rewrite decide_True by done|rewrite decide_False by done]; simpl; lia.
Qed.

(** ** The theorems *)

(** A load that returns the last store tells exactly whether there is room, or anything. *)
Lemma fresh_load s aw ar : conc_inv s aw ar ->
  (∀ single data, c_prod s = PCall single data -> ∃ s', fifo_step s (SLoadR (pred (length (c_r s)))) = Some s' /\
     (c_prod s' = PIdle <-> head_pos s = tail_pos s + c_size s)) /\
  (∀ single len, c_cons s = CCall single len -> ∃ s', fifo_step s (SLoadW (pred (length (c_w s)))) = Some s' /\
     (c_cons s' = CIdle <-> head_pos s = tail_pos s)).
Proof.
  intros Hi. destruct (ci_views _ _ _ Hi) as (VW & VR & HW & HR & H1 & H2). pose proof (ci_order _ _ _ _ _ Hi HW HR) as [HoW HoR]. pose proof (ci_size _ _ _ Hi) as Hsz.
  assert (0 <= pending_in (c_prod s) /\ 0 <= pending_out (c_cons s)) as [Hpi Hpo] by (destruct (c_prod s), (c_cons s); simpl; lia).
  pose proof (ci_tail _ _ _ Hi) as Hlr. pose proof (ci_head _ _ _ Hi) as Hlw. rewrite last_lookup in Hlr, Hlw.
  assert (length (c_r s) = length ar /\ length (c_w s) = length aw) as [Er Ew] by (by rewrite (ci_r _ _ _ Hi), (ci_w _ _ _ Hi), !length_fmap).
  apply lookup_lt_Some in HW as HltW. apply lookup_lt_Some in HR as HltR. split.
  - intros single data Ep. cbn [fifo_step]. unfold producer_load. rewrite Ep.
    destruct (inv_acquire_r s aw ar (pred (length (c_r s))) Hi) as (s1 & V & -> & Hi1 & Es1 & HV & Hd); [lia|by rewrite Ep|].
    assert (V = tail_pos s) as -> by (rewrite Er in HV; congruence).
    cbn [mbind option_bind]. assert (c_w s1 = c_w s /\ c_size s1 = c_size s) as [-> ->] by (by subst s1).
    rewrite (ci_w _ _ _ Hi), (last_counter _ _ (ci_head _ _ _ Hi)). cbn [mbind option_bind]. rewrite u16_diff by lia. destruct single.
    + pose proof (ci_prod _ _ _ Hi) as Hp. unfold prod_ok in Hp. rewrite Ep in Hp. destruct Hp as (Hne & _).
      destruct (Z.geb_spec (head_pos s - tail_pos s) (c_size s)); [eexists; split; [done|]; split; [lia|done]|].
      destruct data as [|x data]; [done|]. eexists. split; [done|]. split; [done|lia].
    + rewrite (u16_small (c_size s - _)) by (unfold is_u16; lia). destruct (Z.eqb_spec (c_size s - (head_pos s - tail_pos s)) 0); (eexists; split; [done|]); split; try done; lia.
  - intros single len Ep. cbn [fifo_step]. unfold consumer_load. rewrite Ep.
    destruct (inv_acquire_w s aw ar (pred (length (c_w s))) Hi) as (s1 & V & -> & Hi1 & Es1 & HV & Hd & Hf); [lia|by rewrite Ep|].
    assert (V = head_pos s) as -> by (rewrite Ew in HV; congruence).
    cbn [mbind option_bind]. assert (c_r s1 = c_r s) as -> by (by subst s1).
    rewrite (ci_r _ _ _ Hi), (last_counter _ _ (ci_tail _ _ _ Hi)). cbn [mbind option_bind].
    assert (u16 (u16 (head_pos s) - u16 (tail_pos s)) = head_pos s - tail_pos s) as Eu by (apply u16_diff; lia). destruct single.
    + destruct (Z.eqb_spec (u16 (tail_pos s)) (u16 (head_pos s))) as [Ee|Hn]; (eexists; split; [done|]); split; try done.
      * intros _. rewrite Ee, Z.sub_diag in Eu. change (u16 0) with 0 in Eu. lia.
      * intros Ee. by rewrite Ee in Hn.
    + rewrite Eu. destruct (Z.eqb_spec (head_pos s - tail_pos s) 0); (eexists; split; [done|]); split; try done; lia.
Qed.

(** C2: However the loads, the copies of single words and the stores of one producer and one
    consumer interleave, and however old the counters are that their acquiring loads return,
    no access is out of range or a data race; the words that came out are the first of those
    that went in, in order, and at most the size is on its way.  A load of the last store
    makes a call fail exactly when the FIFO is full, or empty. *)
Theorem fifo_race_free h0 b size h ops :
  is_u16 size -> Z.of_nat (length b) = size -> fifo_init (Some h0) (Some b) size = (BUFF_OK, Some h) ->
  fifo_steps_ok (spsc_of h) ops ->
  ∃ s, fifo_steps (spsc_of h) ops = Some s /\
    received (c_log s) `prefix_of` sent (c_log s) /\
    Z.of_nat (length (sent (c_log s))) <= Z.of_nat (length (received (c_log s))) + c_size s /\
    (∀ single data, c_prod s = PCall single data -> ∃ s', fifo_step s (SLoadR (pred (length (c_r s)))) = Some s' /\
       (c_prod s' = PIdle <-> Z.of_nat (length (sent (c_log s))) = Z.of_nat (length (received (c_log s))) + c_size s)) /\
    (∀ single len, c_cons s = CCall single len -> ∃ s', fifo_step s (SLoadW (pred (length (c_w s)))) = Some s' /\
       (c_cons s' = CIdle <-> sent (c_log s) = received (c_log s))).
Proof.
  intros Hs Hb Hinit Hok. destruct (fifo_steps_inv ops _ _ _ (spsc_of_inv _ _ _ _ Hs Hb Hinit) Hok) as (s & aw & ar & E & Hi).
  exists s. split; [done|]. pose proof (ci_prefix _ _ _ Hi) as Hp.
  assert (received (c_log s) `prefix_of` sent (c_log s)) as Hpre by (rewrite Hp; exists (drop (length (received (c_log s))) (sent (c_log s))); by rewrite take_drop).
  split; [done|]. destruct (ci_views _ _ _ Hi) as (VW & VR & HW & HR & H1 & H2). pose proof (ci_order _ _ _ _ _ Hi HW HR) as [HoW HoR].
  assert (0 <= pending_in (c_prod s)) by (destruct (c_prod s); simpl; lia). unfold head_pos, tail_pos in *. split; [lia|].
  destruct (fresh_load s aw ar Hi) as [F1 F2]. split; [exact F1|]. intros single len Ec. destruct (F2 single len Ec) as (s' & E' & Hiff).
  exists s'. split; [done|]. rewrite Hiff. unfold head_pos, tail_pos. split; [|by intros ->].
  intros El. destruct Hpre as [rest Er]. rewrite Er, length_app in El. destruct rest; [by rewrite app_nil_r in Er|simpl in El; lia].
Qed.

(** A block that wraps, cut down to the room there is, is written while its predecessor is
    fetched; both loads are of old stores. *)
Definition two_sides : list fifo_step_op :=
  [SWriteBlock [1; 2; 3]; SLoadR 0; SPut; SPut; SPut; SPut; SReadBlock 2; SLoadW 1; SGet; SWriteBlock [4; 5; 6]; SGet; SLoadR 0; SGet; SPut; SRead; SPut;
   SLoadW 1; SGet; SGet; SWriteBlock [5; 6; 7; 8]; SLoadR 1; SPut; SRead; SLoadW 2; SGet; SPut; SGet; SPut; SReadBlock 9; SLoadW 3; SGet; SGet; SGet].
Lemma fifo_race_free_witness :
  ∃ s, fifo_steps (spsc_of (mk_fifo [0; 0; 0; 0] 4 3 0 0)) two_sides = Some s /\ received (c_log s) `prefix_of` sent (c_log s) /\
       c_log s = [Got BUFF_OK [5; 6]; Wrote BUFF_OK [5; 6]; Got BUFF_OK [4]; Got BUFF_OK [3]; Wrote BUFF_OK [4]; Got BUFF_OK [1; 2]; Wrote BUFF_OK [1; 2; 3]].
Proof.
  destruct (fifo_race_free fifo_zero [0; 0; 0; 0] 4 (mk_fifo [0; 0; 0; 0] 4 3 0 0) two_sides) as (s & E & Hp & _).
  - unfold is_u16. lia.
  - reflexivity.
  - reflexivity.
  - vm_compute. repeat split; try lia; try discriminate.
  - exists s. split; [exact E|]. split; [exact Hp|].
    assert (c_log <$> fifo_steps (spsc_of (mk_fifo [0; 0; 0; 0] 4 3 0 0)) two_sides =
      Some [Got BUFF_OK [5; 6]; Wrote BUFF_OK [5; 6]; Got BUFF_OK [4]; Got BUFF_OK [3]; Wrote BUFF_OK [4]; Got BUFF_OK [1; 2]; Wrote BUFF_OK [1; 2; 3]]) as H
      by (vm_compute; reflexivity).
    rewrite E in H. injection H as H. exact H.
Defined.

(** Without interference the calls are those of [Fifo]. *)
Example alone_like_fifo :
  (s ← fifo_steps (spsc_of (mk_fifo [0; 0; 0; 0] 4 3 0 0)) [SWriteBlock [1; 2; 3]; SLoadR 0; SPut; SPut; SPut; SPut; SReadBlock 2; SLoadW 1; SGet; SGet; SGet;
     SWriteBlock [4; 5; 6; 7]; SLoadR 1; SPut; SPut; SPut; SPut];
   w ← last (c_w s); r ← last (c_r s); Some (mk_fifo (c_buf s) (c_size s) (c_mask s) w r))
  = ('(_, h) ← fifo_run (mk_fifo [0; 0; 0; 0] 4 3 0 0) [OpWriteBlock [1; 2; 3]; OpReadBlock 2; OpWriteBlock [4; 5; 6; 7]]; Some h).
Proof. vm_compute. reflexivity. Qed.
(** The order of the memory matters: a consumer that has not acquired the store of the counter
    races with the word behind it. *)
Example unordered_fetch_races :
  match fifo_steps (spsc_of (mk_fifo [0; 0; 0; 0] 4 3 0 0)) [SWrite 7; SLoadR 0; SPut; SPut] with
  | Some s => last (c_w s) = Some 1 /\ read_cell s 0 = None /\ is_Some (acquire_w s 1 ≫= λ '(_, s), read_cell s 0)
  | None => False
  end.
Proof. vm_compute. repeat split. eexists. reflexivity. Qed.

(** C3: The calls are wait-free: whatever the other side does, or if it stops for ever, a call
    on [n] words can take its next step and returns after at most [n + 2] of them. *)
Theorem fifo_wait_free h0 b size h before s ops :
  is_u16 size -> Z.of_nat (length b) = size -> fifo_init (Some h0) (Some b) size = (BUFF_OK, Some h) ->
  fifo_steps_ok (spsc_of h) before -> fifo_steps (spsc_of h) before = Some s -> fifo_steps_ok s ops ->
  (∀ single data, c_prod s = PCall single data -> Forall (λ op, write_starts op = false) ops -> (steps_of of_producer ops ≤ length data + 2)%nat) /\
  (∀ single len, c_cons s = CCall single len -> Forall (λ op, read_starts op = false) ops -> (steps_of of_consumer ops ≤ Z.to_nat len + 2)%nat) /\
  (c_prod s ≠ PIdle -> ∃ op s', of_producer op = true /\ fifo_step_ok s op /\ fifo_step s op = Some s') /\
  (c_cons s ≠ CIdle -> ∃ op s', of_consumer op = true /\ fifo_step_ok s op /\ fifo_step s op = Some s').
Proof.
  intros Hs Hb Hinit Hok E Hops. destruct (fifo_steps_inv before _ _ _ (spsc_of_inv _ _ _ _ Hs Hb Hinit) Hok) as (s0 & aw & ar & E0 & Hi).
  assert (s0 = s) as -> by congruence. destruct (steps_left ops s aw ar Hi Hops) as [L1 L2]. unfold producer_left, consumer_left in *.
  split; [intros single data Ep Hf; specialize (L1 Hf); by rewrite Ep in L1|].
  split; [intros single len Ep Hf; specialize (L2 Hf); by rewrite Ep in L2|].
  destruct (ci_views _ _ _ Hi) as (VW & VR & HW & HR & _). apply lookup_lt_Some in HW, HR.
  assert (∀ op, fifo_step_ok s op -> ∃ s', fifo_step s op = Some s') as Hgo by (intros op Hop; destruct (fifo_step_inv s aw ar op Hi Hop) as (s' & ? & ? & ? & _); eauto).
  split.
  - intros Hn. assert (∃ op, of_producer op = true /\ fifo_step_ok s op) as (op & Ho & Hop).
    { destruct (c_prod s) eqn:Ep; [done|exists (SLoadR (c_vr s))|exists SPut]; (split; [done|]); cbn [fifo_step_ok]; rewrite Ep; [|done].
      rewrite (ci_r _ _ _ Hi), length_fmap. lia. }
    destruct (Hgo op Hop) as [s' Es]. eauto.
  - intros Hn. assert (∃ op, of_consumer op = true /\ fifo_step_ok s op) as (op & Ho & Hop).
    { destruct (c_cons s) eqn:Ep; [done|exists (SLoadW (c_vw s))|exists SGet]; (split; [done|]); cbn [fifo_step_ok]; rewrite Ep; [|done].
      rewrite (ci_w _ _ _ Hi), length_fmap. lia. }
    destruct (Hgo op Hop) as [s' Es]. eauto.
Qed.

Lemma fifo_wait_free_witness :
  ∃ s, fifo_steps (spsc_of (mk_fifo [0; 0; 0; 0] 4 3 0 0)) [SReadBlock 3; SWriteBlock [1; 2]] = Some s /\
       ∀ ops, fifo_steps_ok s ops -> Forall (λ op, write_starts op = false) ops -> (steps_of of_producer ops ≤ 4)%nat.
Proof.
  assert (∃ s, fifo_steps (spsc_of (mk_fifo [0; 0; 0; 0] 4 3 0 0)) [SReadBlock 3; SWriteBlock [1; 2]] = Some s /\ c_prod s = PCall false [1; 2]) as (s & E & Ep)
    by (eexists; split; vm_compute; reflexivity).
  exists s. split; [exact E|]. intros ops Hok Hf.
  destruct (fifo_wait_free fifo_zero [0; 0; 0; 0] 4 (mk_fifo [0; 0; 0; 0] 4 3 0 0) [SReadBlock 3; SWriteBlock [1; 2]] s ops) as (H & _).
  - unfold is_u16. lia.
  - reflexivity.
  - reflexivity.
  - vm_compute. repeat split; try lia; discriminate.
  - exact E.
  - exact Hok.
  - exact (H false [1; 2] Ep Hf).
Defined.
