(* ===== verification/FifoUni.v ===== *)
(** * The SPSC ring FIFO of fixed-width items

    Models the [fifo_uni_*] half of src/algorithm/buffer/circle_fifo_buffer.c: the same
    counters as [Fifo], counting items of [item_size] bytes over a byte array, block
    transfers, and the zero-copy pairs acquire/commit and peek/release.  A slot pointer
    is its byte offset in the array. *)

From S2P Require Import Prelude Ring Fifo.

#[local] Open Scope Z_scope.

Record fifo_uni_spsc := mk_uni {
  uni_buf : list Z;
  uni_size : Z;
  uni_item_size : Z;
  uni_mask : Z;
  uni_w_ptr : Z;
  uni_r_ptr : Z
}.

Definition uni_set_w (h : fifo_uni_spsc) (b : list Z) (w : Z) : fifo_uni_spsc :=
  mk_uni b (uni_size h) (uni_item_size h) (uni_mask h) w (uni_r_ptr h).
Definition uni_set_r (h : fifo_uni_spsc) (r : Z) : fifo_uni_spsc :=
  mk_uni (uni_buf h) (uni_size h) (uni_item_size h) (uni_mask h) (uni_w_ptr h) r.

Definition fifo_uni_init (handle : option fifo_uni_spsc) (buf : option (list Z))
    (item_size item_count : Z) : Z * option fifo_uni_spsc :=
  match handle, buf with
  | Some _, Some b =>
      if (item_size =? 0) || (item_count =? 0) || negb (Z.land item_count (item_count - 1) =? 0)
      then (BUFF_ERR_INVAL, handle)
      else (BUFF_OK, Some (mk_uni b item_count item_size (u16 (item_count - 1)) 0 0))
  | _, _ => (BUFF_ERR_INVAL, handle)
  end.

Definition fifo_uni_write_block (handle : option fifo_uni_spsc) (p_data : option (list Z))
    (count : Z) (p_actual : option Z) : option (Z * option fifo_uni_spsc * option Z) :=
  let p_actual := out_set p_actual 0 in
  match handle, p_data with
  | Some h, Some data =>
      if count =? 0 then Some (BUFF_ERR_INVAL, handle, p_actual) else
      let read_ptr := uni_r_ptr h in
      let write_ptr := uni_w_ptr h in
      let free_count := u16 (uni_size h - u16 (write_ptr - read_ptr)) in
      if free_count =? 0 then Some (BUFF_ERR_FULL, handle, p_actual) else
      let count := if count >? free_count then free_count else count in
      let bytes := u32 (count * uni_item_size h) in
      let w_off := u32 (Z.land write_ptr (uni_mask h) * uni_item_size h) in
      let space_to_end := u32 (u32 (uni_size h * uni_item_size h) - w_off) in
      b ← (if space_to_end >=? bytes
           then mem_copy (uni_buf h) w_off data 0 bytes
           else b1 ← mem_copy (uni_buf h) w_off data 0 space_to_end;
                mem_copy b1 0 data space_to_end (bytes - space_to_end));
      Some (BUFF_OK, Some (uni_set_w h b (u16 (write_ptr + count))), out_set p_actual count)
  | _, _ => Some (BUFF_ERR_INVAL, handle, p_actual)
  end.

Definition fifo_uni_read_block (handle : option fifo_uni_spsc) (p_data : option (list Z))
    (count : Z) (p_actual : option Z)
    : option (Z * option fifo_uni_spsc * option (list Z) * option Z) :=
  let p_actual := out_set p_actual 0 in
  match handle, p_data with
  | Some h, Some out =>
      if count =? 0 then Some (BUFF_ERR_INVAL, handle, p_data, p_actual) else
      let write_ptr := uni_w_ptr h in
      let read_ptr := uni_r_ptr h in
      let avail := u16 (write_ptr - read_ptr) in
      if avail =? 0 then Some (BUFF_ERR_EMPTY, handle, p_data, p_actual) else
      let count := if count >? avail then avail else count in
      let bytes := u32 (count * uni_item_size h) in
      let r_off := u32 (Z.land read_ptr (uni_mask h) * uni_item_size h) in
      let space_to_end := u32 (u32 (uni_size h * uni_item_size h) - r_off) in
      out' ← (if space_to_end >=? bytes
              then mem_copy out 0 (uni_buf h) r_off bytes
              else o1 ← mem_copy out 0 (uni_buf h) r_off space_to_end;
                   mem_copy o1 space_to_end (uni_buf h) 0 (bytes - space_to_end));
      Some (BUFF_OK, Some (uni_set_r h (u16 (read_ptr + count))), Some out',
            out_set p_actual count)
  | _, _ => Some (BUFF_ERR_INVAL, handle, p_data, p_actual)
  end.

(** [p_slot] is written only on success; the slot is an offset into the array. *)
Definition fifo_uni_write_acquire (handle : option fifo_uni_spsc) (p_slot : option Z)
    : Z * option Z :=
  match handle, p_slot with
  | Some h, Some _ =>
      let read_ptr := uni_r_ptr h in
      let write_ptr := uni_w_ptr h in
      if u16 (write_ptr - read_ptr) >=? uni_size h then (BUFF_ERR_FULL, p_slot)
      else (BUFF_OK, Some (u32 (Z.land write_ptr (uni_mask h) * uni_item_size h)))
  | _, _ => (BUFF_ERR_INVAL, p_slot)
  end.

Definition fifo_uni_write_commit (handle : option fifo_uni_spsc)
    : Z * option fifo_uni_spsc :=
  match handle with
  | None => (BUFF_ERR_INVAL, None)
  | Some h =>
      let write_ptr := uni_w_ptr h in
      (BUFF_OK, Some (uni_set_w h (uni_buf h) (u16 (write_ptr + 1))))
  end.

Definition fifo_uni_read_peek (handle : option fifo_uni_spsc) (p_slot : option Z)
    : Z * option Z :=
  match handle, p_slot with
  | Some h, Some _ =>
      let write_ptr := uni_w_ptr h in
      let read_ptr := uni_r_ptr h in
      if read_ptr =? write_ptr then (BUFF_ERR_EMPTY, p_slot)
      else (BUFF_OK, Some (u32 (Z.land read_ptr (uni_mask h) * uni_item_size h)))
  | _, _ => (BUFF_ERR_INVAL, p_slot)
  end.

Definition fifo_uni_read_release (handle : option fifo_uni_spsc)
    : Z * option fifo_uni_spsc :=
  match handle with
  | None => (BUFF_ERR_INVAL, None)
  | Some h =>
      let read_ptr := uni_r_ptr h in
      (BUFF_OK, Some (uni_set_r h (u16 (read_ptr + 1))))
  end.

Definition fifo_uni_get_count (handle : option fifo_uni_spsc) (p_count : option Z)
    : Z * option Z :=
  match handle, p_count with
  | Some h, Some _ => (BUFF_OK, Some (u16 (uni_w_ptr h - uni_r_ptr h)))
  | _, _ => (BUFF_ERR_INVAL, p_count)
  end.

Definition fifo_uni_isempty (handle : option fifo_uni_spsc) (p_empty : option bool)
    : Z * option bool :=
  match handle, p_empty with
  | Some h, Some _ => (BUFF_OK, Some (uni_r_ptr h =? uni_w_ptr h))
  | _, _ => (BUFF_ERR_INVAL, p_empty)
  end.

Definition fifo_uni_isfull (handle : option fifo_uni_spsc) (p_full : option bool)
    : Z * option bool :=
  match handle, p_full with
  | Some h, Some _ => (BUFF_OK, Some (u16 (uni_w_ptr h - uni_r_ptr h) >=? uni_size h))
  | _, _ => (BUFF_ERR_INVAL, p_full)
  end.

(** ** Invariant and abstraction *)

Record uni_wf (h : fifo_uni_spsc) : Prop := {
  uwf_pow2 : ∃ k, 0 <= k <= 15 /\ uni_size h = 2 ^ k;
  uwf_item : 0 < uni_item_size h < 65536;
  uwf_mask : uni_mask h = uni_size h - 1;
  uwf_len : Z.of_nat (length (uni_buf h)) = uni_size h * uni_item_size h;
  uwf_w : is_u16 (uni_w_ptr h);
  uwf_r : is_u16 (uni_r_ptr h);
  uwf_used : u16 (uni_w_ptr h - uni_r_ptr h) <= uni_size h
}.

Definition uni_item (h : fifo_uni_spsc) : nat := Z.to_nat (uni_item_size h).
Definition uni_cap (h : fifo_uni_spsc) : nat := Z.to_nat (uni_size h).
Definition uni_used (h : fifo_uni_spsc) : nat := Z.to_nat (u16 (uni_w_ptr h - uni_r_ptr h)).
Definition uni_off (h : fifo_uni_spsc) (p : Z) : nat :=
  Z.to_nat (Z.land p (uni_mask h) * uni_item_size h).

(** The bytes of the queued items, oldest first. *)
Definition uni_contents (h : fifo_uni_spsc) : list Z :=
  ring_slice (uni_buf h) (uni_off h (uni_r_ptr h)) (uni_used h * uni_item h).

(** ** Positions, in bytes *)
Section positions.
Context (h : fifo_uni_spsc) (WF : uni_wf h).

Lemma uni_size_bounds : 1 <= uni_size h <= 32768.
Proof.
  destruct (uwf_pow2 h WF) as (k & Hk & ->).
  change 32768 with (2 ^ 15). change 1 with (2 ^ 0).
  split; apply Z.pow_le_mono_r; lia.
Qed.

Lemma uni_bytes_bounds : 0 < uni_size h * uni_item_size h < 4294967296.
Proof. pose proof uni_size_bounds. pose proof (uwf_item h WF). nia. Qed.

Lemma uni_mask_mod p : Z.land p (uni_mask h) = p mod uni_size h.
Proof.
  destruct (uwf_pow2 h WF) as (k & Hk & Es). rewrite (uwf_mask h WF), Es.
  apply land_pow2_mask. lia.
Qed.

Lemma uni_mask_bounds p : 0 <= Z.land p (uni_mask h) < uni_size h.
Proof. rewrite uni_mask_mod. apply Z.mod_pos_bound. pose proof uni_size_bounds. lia. Qed.

Lemma uni_off_bounds p :
  0 <= Z.land p (uni_mask h) * uni_item_size h
    <= uni_size h * uni_item_size h - uni_item_size h.
Proof. pose proof (uni_mask_bounds p). pose proof (uwf_item h WF). nia. Qed.

Lemma uni_off_lt p : (uni_off h p < length (uni_buf h))%nat.
Proof.
  unfold uni_off. pose proof (uni_off_bounds p). pose proof (uwf_item h WF).
  pose proof (uwf_len h WF). lia.
Qed.

(** The byte offset of a counter advanced by [n] items. *)
Lemma uni_off_add p (n : nat) :
  uni_off h (u16 (p + Z.of_nat n))
    = ((uni_off h p + n * uni_item h) `mod` length (uni_buf h))%nat.
Proof.
  pose proof (uwf_item h WF). pose proof uni_size_bounds.
  apply Nat2Z.inj. unfold uni_off, uni_item.
  rewrite Nat2Z.inj_mod, Nat2Z.inj_add, Nat2Z.inj_mul, !Z2Nat.id
    by (try apply uni_off_bounds; lia).
  rewrite (uwf_len h WF), !uni_mask_mod.
  assert (E : u16 (p + Z.of_nat n) mod uni_size h = (p + Z.of_nat n) mod uni_size h).
  { destruct (uwf_pow2 h WF) as (k & Hk & ->). unfold u16. change 65536 with (2 ^ 16).
    apply mod_pow2_pow2. lia. }
  rewrite E, <- Z.mul_add_distr_r, Z.mul_mod_distr_r by lia.
  f_equal. symmetry. apply Zplus_mod_idemp_l.
Qed.

Lemma uni_used_le : (uni_used h ≤ uni_cap h)%nat.
Proof.
  unfold uni_used, uni_cap. pose proof (uwf_used h WF).
  pose proof (u16_range (uni_w_ptr h - uni_r_ptr h)). lia.
Qed.

Lemma uni_len_nat : length (uni_buf h) = (uni_cap h * uni_item h)%nat.
Proof.
  unfold uni_cap, uni_item. pose proof (uwf_len h WF). pose proof (uwf_item h WF).
  pose proof uni_size_bounds. nia.
Qed.

Lemma uni_used_bytes (n : nat) :
  (n ≤ uni_cap h)%nat -> (n * uni_item h ≤ length (uni_buf h))%nat.
Proof. intros. rewrite uni_len_nat. nia. Qed.

Lemma uni_item_pos : (0 < uni_item h)%nat.
Proof. unfold uni_item. pose proof (uwf_item h WF). lia. Qed.

Lemma uni_w_off :
  uni_off h (uni_w_ptr h)
    = ((uni_off h (uni_r_ptr h) + uni_used h * uni_item h) `mod` length (uni_buf h))%nat.
Proof.
  rewrite <- uni_off_add. f_equal. unfold uni_used.
  pose proof (uwf_w h WF). pose proof (uwf_r h WF).
  rewrite Z2Nat.id by (pose proof (u16_range (uni_w_ptr h - uni_r_ptr h)); lia).
  wrap_lia.
Qed.

Lemma uni_contents_length : length (uni_contents h) = (uni_used h * uni_item h)%nat.
Proof.
  apply length_ring_slice; [pose proof (uni_off_lt (uni_r_ptr h)); lia|].
  apply uni_used_bytes, uni_used_le.
Qed.

Lemma uni_empty_iff : uni_r_ptr h = uni_w_ptr h <-> uni_contents h = [].
Proof.
  rewrite <- length_zero_iff_nil, uni_contents_length.
  pose proof uni_item_pos. unfold uni_used.
  pose proof (uwf_w h WF). pose proof (uwf_r h WF).
  split; intros E; [rewrite E, Z.sub_diag; done|].
  assert (Z.to_nat (u16 (uni_w_ptr h - uni_r_ptr h)) = 0%nat) by nia. wrap_lia.
Qed.

(** Storing [n] whole items behind the write position. *)
Lemma uni_append (n : nat) d :
  length d = (n * uni_item h)%nat -> (n + uni_used h ≤ uni_cap h)%nat ->
  let h' := uni_set_w h (ring_put (uni_buf h) (uni_off h (uni_w_ptr h)) d)
              (u16 (uni_w_ptr h + Z.of_nat n)) in
  uni_wf h' /\ uni_contents h' = uni_contents h ++ d.
Proof.
  intros Hd Hn h'. pose proof (uwf_w h WF) as Hw. pose proof (uwf_r h WF) as Hr.
  pose proof uni_size_bounds. pose proof (uwf_len h WF) as HL.
  pose proof (uni_off_lt (uni_w_ptr h)). pose proof uni_used_le.
  pose proof (uni_used_bytes (n + uni_used h) Hn).
  assert (Hput : length (ring_put (uni_buf h) (uni_off h (uni_w_ptr h)) d)
                   = length (uni_buf h)) by (apply length_ring_put; lia).
  assert (Hu : uni_used h' = (uni_used h + n)%nat).
  { unfold h', uni_used, uni_cap in *. simpl. wrap_lia. }
  split.
  - constructor; simpl; try apply WF.
    + rewrite Hput. apply HL.
    + apply u16_range.
    + unfold h', uni_used in Hu. simpl in Hu. unfold uni_used, uni_cap in *.
      pose proof (u16_range (u16 (uni_w_ptr h + Z.of_nat n) - uni_r_ptr h)). lia.
  - unfold uni_contents at 1. rewrite Hu. unfold h'. simpl.
    change (uni_off (uni_set_w h _ _)) with (uni_off h).
    change (uni_item (uni_set_w h _ _)) with (uni_item h).
    rewrite uni_w_off, Nat.mul_add_distr_r, <- Hd.
    apply ring_slice_put; [apply uni_off_lt|lia].
Qed.

Lemma uni_advance (n : nat) :
  (n ≤ uni_used h)%nat ->
  let h' := uni_set_r h (u16 (uni_r_ptr h + Z.of_nat n)) in
  uni_wf h' /\
  uni_contents h = ring_slice (uni_buf h) (uni_off h (uni_r_ptr h)) (n * uni_item h)
                     ++ uni_contents h'.
Proof.
  intros Hn h'. pose proof (uwf_w h WF). pose proof (uwf_r h WF).
  pose proof uni_size_bounds. pose proof uni_used_le as Hule. pose proof (uwf_used h WF).
  assert (Hu : uni_used h = (n + uni_used h')%nat).
  { unfold h', uni_used in *. simpl. wrap_lia. }
  split.
  - constructor; simpl; try apply WF; [apply u16_range|].
    unfold h', uni_used in Hu. simpl in Hu.
    pose proof (u16_range (uni_w_ptr h - u16 (uni_r_ptr h + Z.of_nat n))).
    unfold uni_used, uni_cap in *. lia.
  - unfold uni_contents at 1. pose proof (uni_used_bytes _ Hule).
    rewrite Hu, Nat.mul_add_distr_r in *.
    rewrite ring_slice_split; [|apply uni_off_lt|lia].
    f_equal. rewrite <- uni_off_add. reflexivity.
Qed.

Lemma uni_free_count :
  u16 (uni_size h - u16 (uni_w_ptr h - uni_r_ptr h))
    = Z.of_nat (uni_cap h) - Z.of_nat (uni_used h).
Proof.
  unfold uni_used, uni_cap. pose proof uni_size_bounds. pose proof (uwf_used h WF).
  pose proof (u16_range (uni_w_ptr h - uni_r_ptr h)). rewrite u16_small; lia.
Qed.

Lemma uni_u32_off p :
  u32 (Z.land p (uni_mask h) * uni_item_size h) = Z.of_nat (uni_off h p) /\
  u32 (u32 (uni_size h * uni_item_size h) - Z.of_nat (uni_off h p))
    = Z.of_nat (length (uni_buf h)) - Z.of_nat (uni_off h p).
Proof.
  pose proof (uni_off_bounds p). pose proof uni_bytes_bounds. pose proof (uwf_item h WF).
  pose proof (uwf_len h WF). unfold uni_off. rewrite Z2Nat.id by lia.
  rewrite (u32_small (uni_size h * uni_item_size h)) by lia.
  split; rewrite u32_small; lia.
Qed.

Lemma uni_u32_bytes (n : nat) :
  (n ≤ uni_cap h)%nat -> u32 (Z.of_nat n * uni_item_size h) = Z.of_nat (n * uni_item h).
Proof.
  intros. unfold uni_cap, uni_item in *. pose proof uni_bytes_bounds.
  pose proof (uwf_item h WF). pose proof uni_size_bounds.
  rewrite u32_small by nia. rewrite Nat2Z.inj_mul. lia.
Qed.
End positions.

#[export] Hint Resolve uni_off_lt uni_used_le uni_item_pos : ring.

(** ** The operations *)

Lemma fifo_uni_write_block_full h data n a :
  uni_wf h -> 0 < n -> uni_used h = uni_cap h ->
  fifo_uni_write_block (Some h) (Some data) n a = Some (BUFF_ERR_FULL, Some h, out_set a 0).
Proof.
  intros WF Hl Hf. unfold fifo_uni_write_block. rewrite uni_free_count by done.
  destruct (Z.eqb_spec n 0); [lia|].
  destruct (Z.eqb_spec (Z.of_nat (uni_cap h) - Z.of_nat (uni_used h)) 0); [done|lia].
Qed.

Lemma fifo_uni_write_block_ok h data c a :
  uni_wf h -> 0 < c -> (Z.to_nat c * uni_item h ≤ length data)%nat ->
  uni_used h ≠ uni_cap h ->
  let n := Nat.min (Z.to_nat c) (uni_cap h - uni_used h) in
  ∃ h', fifo_uni_write_block (Some h) (Some data) c a
          = Some (BUFF_OK, Some h', out_set (out_set a 0) (Z.of_nat n)) /\
        uni_wf h' /\ uni_cap h' = uni_cap h /\ uni_item h' = uni_item h /\
        uni_used h' = (uni_used h + n)%nat /\
        uni_contents h' = uni_contents h ++ take (n * uni_item h) data.
Proof.
  intros WF Hc Hd Hne n. unfold fifo_uni_write_block. rewrite uni_free_count by done.
  pose proof (uni_used_le h WF). pose proof (uni_item_pos h WF).
  assert (Hn : n = Nat.min (Z.to_nat c) (uni_cap h - uni_used h)) by done. clearbody n.
  destruct (Z.eqb_spec c 0); [lia|].
  destruct (Z.eqb_spec (Z.of_nat (uni_cap h) - Z.of_nat (uni_used h)) 0); [lia|].
  replace (if c >? _ then _ else c) with (Z.of_nat n)
    by (rewrite Z.gtb_ltb; destruct (Z.ltb_spec (Z.of_nat (uni_cap h) - Z.of_nat (uni_used h)) c);
        lia).
  rewrite uni_u32_bytes by (done || lia).
  destruct (uni_u32_off h WF (uni_w_ptr h)) as [-> ->].
  pose proof (uni_off_lt h WF (uni_w_ptr h)).
  pose proof (uni_used_bytes h WF n ltac:(lia)).
  assert (n * uni_item h ≤ Z.to_nat c * uni_item h)%nat by (apply Nat.mul_le_mono_r; lia).
  rewrite two_segment_store by nia. rewrite !Nat2Z.id. simpl.
  assert (HT : length (take (n * uni_item h) data) = (n * uni_item h)%nat)
    by (rewrite length_take; lia).
  destruct (uni_append h WF n _ HT) as [WF' HC]; [lia|].
  assert (Hu : uni_used (uni_set_w h (ring_put (uni_buf h) (uni_off h (uni_w_ptr h))
                (take (n * uni_item h) data)) (u16 (uni_w_ptr h + Z.of_nat n)))
               = (uni_used h + n)%nat).
  { apply (f_equal length) in HC. rewrite length_app, !uni_contents_length, HT in HC by done.
    change (uni_item (uni_set_w h _ _)) with (uni_item h) in HC.
    rewrite <- Nat.mul_add_distr_r in HC. apply Nat.mul_cancel_r in HC; lia. }
  eexists. split; [reflexivity|]. split; [exact WF'|]. done.
Qed.

Lemma fifo_uni_read_block_empty h out n a :
  uni_wf h -> 0 < n -> uni_used h = 0%nat ->
  fifo_uni_read_block (Some h) (Some out) n a
    = Some (BUFF_ERR_EMPTY, Some h, Some out, out_set a 0).
Proof.
  intros WF Hl E. unfold fifo_uni_read_block. unfold uni_used in E.
  pose proof (u16_range (uni_w_ptr h - uni_r_ptr h)).
  destruct (Z.eqb_spec n 0); [lia|].
  destruct (Z.eqb_spec (u16 (uni_w_ptr h - uni_r_ptr h)) 0); [done|lia].
Qed.

Lemma fifo_uni_read_block_ok h out c a :
  uni_wf h -> 0 < c -> (Z.to_nat c * uni_item h ≤ length out)%nat -> uni_used h ≠ 0%nat ->
  let n := Nat.min (Z.to_nat c) (uni_used h) in
  ∃ h', fifo_uni_read_block (Some h) (Some out) c a
          = Some (BUFF_OK, Some h',
                  Some (take (n * uni_item h) (uni_contents h) ++ drop (n * uni_item h) out),
                  out_set (out_set a 0) (Z.of_nat n)) /\
        uni_wf h' /\ uni_cap h' = uni_cap h /\ uni_item h' = uni_item h /\
        uni_used h' = (uni_used h - n)%nat /\
        uni_contents h' = drop (n * uni_item h) (uni_contents h).
Proof.
  intros WF Hc Ho Hne n. unfold fifo_uni_read_block.
  pose proof (uni_used_le h WF). pose proof (uni_item_pos h WF).
  assert (Hn : n = Nat.min (Z.to_nat c) (uni_used h)) by done. clearbody n.
  pose proof (u16_range (uni_w_ptr h - uni_r_ptr h)).
  replace (u16 (uni_w_ptr h - uni_r_ptr h)) with (Z.of_nat (uni_used h))
    by (unfold uni_used; lia).
  destruct (Z.eqb_spec c 0); [lia|]. destruct (Z.eqb_spec (Z.of_nat (uni_used h)) 0); [lia|].
  replace (if c >? _ then _ else c) with (Z.of_nat n)
    by (rewrite Z.gtb_ltb; destruct (Z.ltb_spec (Z.of_nat (uni_used h)) c); lia).
  rewrite uni_u32_bytes by (done || lia).
  destruct (uni_u32_off h WF (uni_r_ptr h)) as [-> ->].
  pose proof (uni_off_lt h WF (uni_r_ptr h)).
  pose proof (uni_used_bytes h WF n ltac:(lia)).
  assert (n * uni_item h ≤ Z.to_nat c * uni_item h)%nat by (apply Nat.mul_le_mono_r; lia).
  rewrite two_segment_load by nia. rewrite !Nat2Z.id. simpl.
  destruct (uni_advance h WF n) as [WF' HC]; [lia|].
  assert (HL : length (ring_slice (uni_buf h) (uni_off h (uni_r_ptr h)) (n * uni_item h))
               = (n * uni_item h)%nat) by (apply length_ring_slice; lia).
  assert (Hu : uni_used (uni_set_r h (u16 (uni_r_ptr h + Z.of_nat n)))
               = (uni_used h - n)%nat).
  { apply (f_equal length) in HC. rewrite length_app, !uni_contents_length, HL in HC by done.
    change (uni_item (uni_set_r h _)) with (uni_item h) in HC.
    rewrite <- Nat.mul_add_distr_r in HC. apply Nat.mul_cancel_r in HC; lia. }
  eexists. split; [|split; [exact WF'|split; [done|split; [done|split; [exact Hu|]]]]].
  - by rewrite HC, take_app_length' by done.
  - by rewrite HC, drop_app_length' by done.
Qed.

(** *** Zero-copy transfers *)

(** The producer fills the acquired slot, the consumer reads the peeked one. *)
Definition uni_fill_slot (h : fifo_uni_spsc) (slot : Z) (d : list Z) : option fifo_uni_spsc :=
  b ← mem_write (uni_buf h) slot d; Some (uni_set_w h b (uni_w_ptr h)).

Lemma uni_acquire_ok h o :
  uni_wf h -> uni_used h ≠ uni_cap h ->
  fifo_uni_write_acquire (Some h) (Some o) = (BUFF_OK, Some (Z.of_nat (uni_off h (uni_w_ptr h)))).
Proof.
  intros WF Hne. unfold fifo_uni_write_acquire. pose proof (uni_used_le h WF).
  destruct (uni_u32_off h WF (uni_w_ptr h)) as [-> _].
  rewrite Z.geb_leb. destruct (Z.leb_spec (uni_size h) (u16 (uni_w_ptr h - uni_r_ptr h)));
    [|done]. unfold uni_used, uni_cap in *. pose proof (uwf_used h WF). lia.
Qed.

Lemma uni_item_room h p :
  uni_wf h -> (uni_off h p + uni_item h ≤ length (uni_buf h))%nat.
Proof.
  intros WF. unfold uni_off, uni_item. pose proof (uni_off_bounds h WF p).
  pose proof (uwf_len h WF). pose proof (uwf_item h WF). lia.
Qed.

Lemma uni_zero_copy_write h o d :
  uni_wf h -> length d = uni_item h -> uni_used h ≠ uni_cap h ->
  ∃ slot h1 h2,
    fifo_uni_write_acquire (Some h) (Some o) = (BUFF_OK, Some slot) /\
    uni_fill_slot h slot d = Some h1 /\
    fifo_uni_write_commit (Some h1) = (BUFF_OK, Some h2) /\
    uni_wf h2 /\ uni_contents h2 = uni_contents h ++ d.
Proof.
  intros WF Hd Hne. pose proof (uni_item_room h (uni_w_ptr h) WF).
  pose proof (uni_used_le h WF).
  eexists _, _, _. split; [by apply uni_acquire_ok|]. unfold uni_fill_slot.
  rewrite mem_write_in by lia. simpl. split; [reflexivity|]. split; [reflexivity|].
  destruct (uni_append h WF 1 d) as [WF' HC]; [lia..|].
  unfold ring_put in WF', HC. rewrite decide_True in WF', HC by lia.
  rewrite Nat2Z.id. exact (conj WF' HC).
Qed.

Lemma uni_zero_copy_read h o :
  uni_wf h -> uni_contents h ≠ [] ->
  ∃ slot h2,
    fifo_uni_read_peek (Some h) (Some o) = (BUFF_OK, Some slot) /\
    mem_read (uni_buf h) slot (uni_item_size h) = Some (take (uni_item h) (uni_contents h)) /\
    fifo_uni_read_release (Some h) = (BUFF_OK, Some h2) /\
    uni_wf h2 /\ uni_contents h2 = drop (uni_item h) (uni_contents h).
Proof.
  intros WF Hne. pose proof (uni_item_room h (uni_r_ptr h) WF).
  pose proof (uwf_item h WF). unfold fifo_uni_read_peek.
  destruct (Z.eqb_spec (uni_r_ptr h) (uni_w_ptr h)) as [e|_];
    [by apply uni_empty_iff in e|].
  assert (Hu : (1 ≤ uni_used h)%nat).
  { rewrite <- length_zero_iff_nil, uni_contents_length in Hne by done. nia. }
  destruct (uni_u32_off h WF (uni_r_ptr h)) as [-> _].
  eexists _, _. split; [reflexivity|].
  destruct (uni_advance h WF 1 Hu) as [WF' HC]. rewrite Nat.mul_1_l in HC.
  rewrite ring_slice_linear in HC by lia.
  assert (HL : length (take (uni_item h) (drop (uni_off h (uni_r_ptr h)) (uni_buf h)))
               = uni_item h) by (rewrite length_take, length_drop; lia).
  split; [|split; [reflexivity|split; [exact WF'|]]].
  - rewrite mem_read_in by (unfold uni_item in *; lia). rewrite Nat2Z.id.
    fold (uni_item h). by rewrite HC, take_app_length' by done.
  - by rewrite HC, drop_app_length' by done.
Qed.

(** ** Refinement by sequences of calls *)

Inductive uni_op :=
  | UWriteBlock (n : Z) (d : list Z)   (** write_block of [n] items *)
  | UReadBlock (n : Z)                 (** read_block of [n] items *)
  | UPut (d : list Z)                  (** acquire, fill the slot, commit on success *)
  | UGet                               (** peek, read the slot, release on success *)
  | UCount
  | UIsEmpty
  | UIsFull.

Definition uni_exec (h : fifo_uni_spsc) (op : uni_op)
    : option (Z * list Z * fifo_uni_spsc) :=
  match op with
  | UWriteBlock n d =>
      '(r, h', a) ← fifo_uni_write_block (Some h) (Some d) n (Some 0);
      h' ← h'; a ← a; Some (r, [a], h')
  | UReadBlock n =>
      '(r, h', o, a) ← fifo_uni_read_block (Some h)
                        (Some (replicate (Z.to_nat n * uni_item h) 0)) n (Some 0);
      h' ← h'; o ← o; a ← a; Some (r, take (Z.to_nat a * uni_item h) o, h')
  | UPut d =>
      let '(r, s) := fifo_uni_write_acquire (Some h) (Some 0) in
      if r =? BUFF_OK then
        s ← s; h1 ← uni_fill_slot h s d;
        let '(r2, h2) := fifo_uni_write_commit (Some h1) in
        h2 ← h2; Some (r2, [], h2)
      else Some (r, [], h)
  | UGet =>
      let '(r, s) := fifo_uni_read_peek (Some h) (Some 0) in
      if r =? BUFF_OK then
        s ← s; x ← mem_read (uni_buf h) s (uni_item_size h);
        let '(r2, h2) := fifo_uni_read_release (Some h) in
        h2 ← h2; Some (r2, x, h2)
      else Some (r, [], h)
  | UCount => let '(r, o) := fifo_uni_get_count (Some h) (Some 0) in o ← o; Some (r, [o], h)
  | UIsEmpty =>
      let '(r, o) := fifo_uni_isempty (Some h) (Some false) in o ← o; Some (r, [Z.b2z o], h)
  | UIsFull =>
      let '(r, o) := fifo_uni_isfull (Some h) (Some false) in o ← o; Some (r, [Z.b2z o], h)
  end.

(** The abstract queue holds [cnt] items as the concatenation [q] of their bytes. *)
Record item_queue := mk_iq { iq_cnt : nat; iq_bytes : list Z }.

Definition iq_exec (cap item : nat) (q : item_queue) (op : uni_op) : Z * list Z * item_queue :=
  let room := (cap - iq_cnt q)%nat in
  let push n d := mk_iq (iq_cnt q + n) (iq_bytes q ++ take (n * item) d) in
  let pop n := mk_iq (iq_cnt q - n) (drop (n * item) (iq_bytes q)) in
  match op with
  | UWriteBlock n d =>
      if decide (n = 0) then (BUFF_ERR_INVAL, [0], q)
      else if decide (room = 0%nat) then (BUFF_ERR_FULL, [0], q)
      else let m := Nat.min (Z.to_nat n) room in (BUFF_OK, [Z.of_nat m], push m d)
  | UReadBlock n =>
      if decide (n = 0) then (BUFF_ERR_INVAL, [], q)
      else if decide (iq_cnt q = 0%nat) then (BUFF_ERR_EMPTY, [], q)
      else let m := Nat.min (Z.to_nat n) (iq_cnt q) in
           (BUFF_OK, take (m * item) (iq_bytes q), pop m)
  | UPut d =>
      if decide (room = 0%nat) then (BUFF_ERR_FULL, [], q) else (BUFF_OK, [], push 1%nat d)
  | UGet =>
      if decide (iq_cnt q = 0%nat) then (BUFF_ERR_EMPTY, [], q)
      else (BUFF_OK, take item (iq_bytes q), pop 1%nat)
  | UCount => (BUFF_OK, [Z.of_nat (iq_cnt q)], q)
  | UIsEmpty => (BUFF_OK, [Z.b2z (bool_decide (iq_cnt q = 0%nat))], q)
  | UIsFull => (BUFF_OK, [Z.b2z (bool_decide (iq_cnt q = cap))], q)
  end.

Definition uni_op_ok (item : nat) (op : uni_op) : Prop :=
  match op with
  | UWriteBlock n d => 0 <= n < 65536 /\ length d = (Z.to_nat n * item)%nat
  | UReadBlock n => 0 <= n < 65536
  | UPut d => length d = item
  | _ => True
  end.

Definition uni_abs (h : fifo_uni_spsc) : item_queue := mk_iq (uni_used h) (uni_contents h).

Arguments fifo_uni_write_block : simpl never.
Arguments fifo_uni_read_block : simpl never.
Arguments fifo_uni_write_acquire : simpl never.
Arguments fifo_uni_read_peek : simpl never.

Lemma uni_used_of_contents h h' n :
  uni_wf h -> uni_wf h' -> uni_item h' = uni_item h ->
  length (uni_contents h') = (n * uni_item h)%nat -> uni_used h' = n.
Proof.
  intros WF WF' Hi HL. rewrite uni_contents_length, Hi in HL by done.
  apply Nat.mul_cancel_r in HL; [done|]. pose proof (uni_item_pos h WF). lia.
Qed.

Lemma uni_exec_refines h op :
  uni_wf h -> uni_op_ok (uni_item h) op ->
  ∃ r v h', uni_exec h op = Some (r, v, h') /\ uni_wf h' /\
            uni_cap h' = uni_cap h /\ uni_item h' = uni_item h /\
            iq_exec (uni_cap h) (uni_item h) (uni_abs h) op = (r, v, uni_abs h').
Proof.
  intros WF Hop. pose proof (uni_used_le h WF). pose proof (uni_item_pos h WF).
  pose proof (uni_contents_length h WF) as HCL.
  destruct op as [n d|n|d| | | |]; simpl in *.
  - destruct Hop as [Hn Hd]. destruct (decide (n = 0)) as [->|Hn0]; [simpl; eauto 8|].
    destruct (decide (uni_used h = uni_cap h)) as [E|E].
    + rewrite fifo_uni_write_block_full by (done || lia).
      rewrite decide_True by lia. simpl. eauto 8.
    + destruct (fifo_uni_write_block_ok h d n (Some 0))
        as (h' & -> & WF' & Hc & Hi & Hu & HC); try done; try lia.
      rewrite decide_False by lia. simpl. eexists _, _, h'.
      split; [reflexivity|]. unfold uni_abs. rewrite Hu, HC. eauto.
  - destruct (decide (n = 0)) as [->|Hn0]; [simpl; eauto 8|].
    destruct (decide (uni_used h = 0%nat)) as [E|E].
    + rewrite fifo_uni_read_block_empty by (done || lia). simpl. eauto 8.
    + destruct (fifo_uni_read_block_ok h (replicate (Z.to_nat n * uni_item h) 0) n (Some 0))
        as (h' & -> & WF' & Hc & Hi & Hu & HC); try done; try lia;
        [by rewrite length_replicate|].
      simpl. eexists _, _, h'. split; [reflexivity|]. unfold uni_abs. rewrite Hu, HC.
      split; [done|]. split; [done|]. split; [done|]. rewrite Nat2Z.id.
      set (m := Nat.min (Z.to_nat n) (uni_used h)).
      assert (m * uni_item h ≤ uni_used h * uni_item h)%nat by (apply Nat.mul_le_mono_r; lia).
      rewrite take_app_le by (rewrite length_take; lia). by rewrite take_take, Nat.min_id.
  - destruct (decide (uni_used h = uni_cap h)) as [E|E].
    + unfold fifo_uni_write_acquire. rewrite Z.geb_leb.
      destruct (Z.leb_spec (uni_size h) (u16 (uni_w_ptr h - uni_r_ptr h))).
      2: { pose proof (u16_range (uni_w_ptr h - uni_r_ptr h)).
           unfold uni_used, uni_cap in E. lia. }
      rewrite decide_True by lia. simpl. eauto 8.
    + destruct (uni_zero_copy_write h 0 d WF Hop E)
        as (s & h1 & h2 & -> & Hf & Hcm & WF2 & HC).
      rewrite decide_False by lia. simpl. rewrite Hf. simpl in *. injection Hcm as <-.
      simpl. eexists _, _, _. split; [reflexivity|]. split; [exact WF2|].
      unfold uni_fill_slot in Hf.
      destruct (mem_write (uni_buf h) s d) as [b|] eqn:Eb; [|done].
      injection Hf as <-. split; [done|]. split; [done|].
      assert (HU : uni_used (uni_set_w (uni_set_w h b (uni_w_ptr h))
                (uni_buf (uni_set_w h b (uni_w_ptr h)))
                (u16 (uni_w_ptr (uni_set_w h b (uni_w_ptr h)) + 1))) = (uni_used h + 1)%nat).
      { apply (uni_used_of_contents h _ _ WF WF2); [done|].
        rewrite HC, length_app, HCL. lia. }
      unfold uni_abs. by rewrite HU, HC, Nat.add_0_r, (take_ge d) by lia.
  - destruct (decide (uni_used h = 0%nat)) as [E|E].
    + unfold fifo_uni_read_peek. assert (uni_contents h = []) as E0.
      { apply length_zero_iff_nil. rewrite HCL, E. done. }
      apply uni_empty_iff in E0; [|done]. rewrite E0, Z.eqb_refl. simpl. eauto 8.
    + assert (uni_contents h ≠ []) as E0.
      { rewrite <- length_zero_iff_nil, HCL. nia. }
      destruct (uni_zero_copy_read h 0 WF E0) as (s & h2 & -> & Hr & Hrel & WF2 & HC).
      simpl. rewrite Hr. simpl in *. injection Hrel as <-. simpl.
      eexists _, _, _. split; [reflexivity|]. split; [exact WF2|].
      split; [done|]. split; [done|].
      assert (HU : uni_used (uni_set_r h (u16 (uni_r_ptr h + 1))) = (uni_used h - 1)%nat).
      { apply (uni_used_of_contents h _ _ WF WF2); [done|].
        rewrite HC, length_drop, HCL. nia. }
      unfold uni_abs. by rewrite HU, HC, Nat.add_0_r.
  - eexists _, _, h. split; [reflexivity|]. split; [done|]. split; [done|]. split; [done|].
    unfold uni_used. pose proof (u16_range (uni_w_ptr h - uni_r_ptr h)).
    by rewrite Z2Nat.id by lia.
  - eexists _, _, h. split; [reflexivity|]. split; [done|]. split; [done|]. split; [done|].
    do 4 f_equal. symmetry. destruct (Z.eqb_spec (uni_r_ptr h) (uni_w_ptr h)) as [e|e].
    + unfold uni_used. by rewrite e, Z.sub_diag.
    + rewrite bool_decide_eq_false_2; [done|]. intros E. apply e, uni_empty_iff; [done|].
      apply length_zero_iff_nil. by rewrite HCL, E.
  - eexists _, _, h. split; [reflexivity|]. split; [done|]. split; [done|]. split; [done|].
    do 4 f_equal. rewrite Z.geb_leb. pose proof (u16_range (uni_w_ptr h - uni_r_ptr h)).
    pose proof (uwf_used h WF). unfold uni_used, uni_cap.
    destruct (Z.leb_spec (uni_size h) (u16 (uni_w_ptr h - uni_r_ptr h)));
      [rewrite bool_decide_eq_true_2|rewrite bool_decide_eq_false_2]; (done || lia).
Qed.

Fixpoint uni_run (h : fifo_uni_spsc) (ops : list uni_op)
    : option (list (Z * list Z) * fifo_uni_spsc) :=
  match ops with
  | [] => Some ([], h)
  | op :: ops => '(r, v, h1) ← uni_exec h op; '(rs, h2) ← uni_run h1 ops; Some ((r, v) :: rs, h2)
  end.

Fixpoint iq_run (cap item : nat) (q : item_queue) (ops : list uni_op)
    : list (Z * list Z) * item_queue :=
  match ops with
  | [] => ([], q)
  | op :: ops =>
      let '(r, v, q1) := iq_exec cap item q op in
      let '(rs, q2) := iq_run cap item q1 ops in ((r, v) :: rs, q2)
  end.

Lemma uni_run_refines ops : ∀ h,
  uni_wf h -> Forall (uni_op_ok (uni_item h)) ops ->
  ∃ rs h', uni_run h ops = Some (rs, h') /\ uni_wf h' /\
           iq_run (uni_cap h) (uni_item h) (uni_abs h) ops = (rs, uni_abs h').
Proof.
  induction ops as [|op ops IH]; intros h WF Hops; [simpl; eauto|].
  inversion Hops as [|?? Hop Hrest]; subst.
  destruct (uni_exec_refines h op WF Hop) as (r & v & h1 & Hx & WF1 & Hc & Hi & Hq).
  destruct (IH h1 WF1) as (rs & h2 & Hr & WF2 & Hq2); [by rewrite Hi|].
  rewrite Hc, Hi in Hq2.
  exists ((r, v) :: rs), h2. simpl. rewrite Hx. simpl. rewrite Hr, Hq. simpl. by rewrite Hq2.
Qed.

Lemma fifo_uni_init_wf handle b item_size item_count h :
  is_u16 item_size -> is_u16 item_count ->
  Z.of_nat (length b) = item_count * item_size ->
  fifo_uni_init handle (Some b) item_size item_count = (BUFF_OK, Some h) ->
  uni_wf h /\ uni_cap h = Z.to_nat item_count /\ uni_item h = Z.to_nat item_size /\
  uni_abs h = mk_iq 0 [].
Proof.
  intros Hi Hc Hb. unfold fifo_uni_init. destruct handle as [h0|]; [|done].
  fold (pow2_test item_count).
  destruct (Z.eqb_spec item_size 0), (Z.eqb_spec item_count 0), (pow2_test item_count) eqn:E;
    simpl; try done. intros [= <-]. unfold is_u16 in *.
  apply pow2_test_spec in E as (k & Hk & ->); [|lia].
  assert (k <= 15).
  { destruct (Z.le_gt_cases k 15); [done|exfalso].
    assert (2 ^ 16 <= 2 ^ k) by (apply Z.pow_le_mono_r; lia). lia. }
  split; [constructor; simpl; try (unfold is_u16; lia); [eauto|..]|].
  - apply u16_small. lia.
  - change (u16 (0 - 0)) with 0. lia.
  - done.
Qed.

(** From a successful [fifo_uni_init] on an array of [item_count * item_size] bytes,
    every sequence of item operations -- block transfers and the zero-copy
    acquire/fill/commit and peek/read/release protocols mixed freely -- runs without an
    out-of-range access and returns, call by call, what a bounded queue of whole items
    returns: the bytes come out in order and items are never torn. *)
Theorem fifo_uni_refines_queue h0 b item_size item_count h ops :
  is_u16 item_size -> is_u16 item_count ->
  Z.of_nat (length b) = item_count * item_size ->
  fifo_uni_init (Some h0) (Some b) item_size item_count = (BUFF_OK, Some h) ->
  Forall (uni_op_ok (Z.to_nat item_size)) ops ->
  ∃ rs h', uni_run h ops = Some (rs, h') /\
           iq_run (Z.to_nat item_count) (Z.to_nat item_size) (mk_iq 0 []) ops
             = (rs, uni_abs h').
Proof.
  intros Hs Hc Hb Hi Hops.
  destruct (fifo_uni_init_wf _ _ _ _ _ Hs Hc Hb Hi) as (WF & <- & E & <-).
  rewrite <- E in Hops |- *.
  destruct (uni_run_refines ops h WF Hops) as (rs & h' & ? & _ & ?). eauto.
Qed.

Lemma fifo_uni_refines_queue_witness :
  ∃ rs h', uni_run (mk_uni [0; 0; 0; 0; 0; 0; 0; 0] 4 2 3 0 0)
             [UWriteBlock 3 [1; 2; 3; 4; 5; 6]; UGet; UPut [7; 8]; UPut [9; 10]; UPut [0; 0];
              UReadBlock 4; UIsEmpty] = Some (rs, h') /\
           iq_run 4 2 (mk_iq 0 [])
             [UWriteBlock 3 [1; 2; 3; 4; 5; 6]; UGet; UPut [7; 8]; UPut [9; 10]; UPut [0; 0];
              UReadBlock 4; UIsEmpty] = (rs, uni_abs h').
Proof.
  apply (fifo_uni_refines_queue (mk_uni [] 0 0 0 0 0) [0; 0; 0; 0; 0; 0; 0; 0] 2 4).
  - unfold is_u16. lia.
  - unfold is_u16. lia.
  - reflexivity.
  - reflexivity.
  - repeat constructor; simpl; lia.
Defined.
