(* ===== verification/DoubleBuffer.v ===== *)
(** * The swapped double buffer

    Models the [double_buffer_*] half of src/algorithm/buffer/double_buffer.c: a write
    side [buf1] filled linearly up to [size], a read side [buf2] drained linearly, and the
    producer-driven swap of the two when the write side is full and the read side drained.
    The abstract state is the stream of accepted words not yet read. *)

From S2P Require Import Prelude Fifo.

#[local] Open Scope Z_scope.

Record double_buffer_spsc := mk_db {
  db_buf1 : list Z;
  db_buf2 : list Z;
  db_size : Z;
  db_mask : Z;
  db_w_ptr : Z;
  db_r_ptr : Z
}.

Definition db_set_w (h : double_buffer_spsc) (b1 : list Z) (w : Z) : double_buffer_spsc :=
  mk_db b1 (db_buf2 h) (db_size h) (db_mask h) w (db_r_ptr h).
Definition db_set_r (h : double_buffer_spsc) (r : Z) : double_buffer_spsc :=
  mk_db (db_buf1 h) (db_buf2 h) (db_size h) (db_mask h) (db_w_ptr h) r.

Definition double_buffer_swap (h : double_buffer_spsc) : double_buffer_spsc :=
  mk_db (db_buf2 h) (db_buf1 h) (db_size h) (db_mask h) 0 0.

Definition double_buffer_init (handle : option double_buffer_spsc) (buf1 buf2 : option (list Z))
    (size : Z) : Z * option double_buffer_spsc :=
  match handle, buf1, buf2 with
  | Some _, Some b1, Some b2 =>
      if (size =? 0) || negb (Z.land size (size - 1) =? 0) then (BUFF_ERR_INVAL, handle)
      else (BUFF_OK, Some (mk_db b1 b2 size (u16 (size - 1)) 0 size))
  | _, _, _ => (BUFF_ERR_INVAL, handle)
  end.

(** The tail shared by the two writes: full write side and drained read side swap. *)
Definition double_buffer_try_swap (h : double_buffer_spsc) : double_buffer_spsc :=
  if (db_w_ptr h =? db_size h) && (db_r_ptr h =? db_size h) then double_buffer_swap h else h.

Definition double_buffer_write_data (handle : option double_buffer_spsc) (data : Z)
    : option (Z * option double_buffer_spsc) :=
  match handle with
  | None => Some (BUFF_ERR_INVAL, None)
  | Some h =>
      let write_ptr := db_w_ptr h in
      if write_ptr >=? db_size h then Some (BUFF_ERR_FULL, handle) else
      b ← arr_set (db_buf1 h) write_ptr data;
      Some (BUFF_OK, Some (double_buffer_try_swap (db_set_w h b (u16 (write_ptr + 1)))))
  end.

Definition double_buffer_read_data (handle : option double_buffer_spsc) (p_data : option Z)
    : option (Z * option double_buffer_spsc * option Z) :=
  match handle, p_data with
  | Some h, Some _ =>
      let read_ptr := db_r_ptr h in
      if read_ptr >=? db_size h then Some (BUFF_ERR_EMPTY, handle, p_data) else
      x ← arr_get (db_buf2 h) read_ptr;
      Some (BUFF_OK, Some (db_set_r h (u16 (read_ptr + 1))), Some x)
  | _, _ => Some (BUFF_ERR_INVAL, handle, p_data)
  end.

Definition double_buffer_write_block (handle : option double_buffer_spsc)
    (p_data : option (list Z)) (len : Z) (p_actual : option Z)
    : option (Z * option double_buffer_spsc * option Z) :=
  let p_actual := out_set p_actual 0 in
  match handle, p_data with
  | Some h, Some data =>
      if len =? 0 then Some (BUFF_ERR_INVAL, handle, p_actual) else
      let write_ptr := db_w_ptr h in
      let free_len := u16 (db_size h - write_ptr) in
      if free_len =? 0 then Some (BUFF_ERR_FULL, handle, p_actual) else
      let len := if len >? free_len then free_len else len in
      b ← mem_copy (db_buf1 h) write_ptr data 0 len;
      Some (BUFF_OK, Some (double_buffer_try_swap (db_set_w h b (u16 (write_ptr + len)))),
            out_set p_actual len)
  | _, _ => Some (BUFF_ERR_INVAL, handle, p_actual)
  end.

Definition double_buffer_read_block (handle : option double_buffer_spsc)
    (p_data : option (list Z)) (len : Z) (p_actual : option Z)
    : option (Z * option double_buffer_spsc * option (list Z) * option Z) :=
  let p_actual := out_set p_actual 0 in
  match handle, p_data with
  | Some h, Some data =>
      if len =? 0 then Some (BUFF_ERR_INVAL, handle, p_data, p_actual) else
      let read_ptr := db_r_ptr h in
      let avail := u16 (db_size h - read_ptr) in
      if avail =? 0 then Some (BUFF_ERR_EMPTY, handle, p_data, p_actual) else
      let len := if len >? avail then avail else len in
      d ← mem_copy data 0 (db_buf2 h) read_ptr len;
      Some (BUFF_OK, Some (db_set_r h (u16 (read_ptr + len))), Some d, out_set p_actual len)
  | _, _ => Some (BUFF_ERR_INVAL, handle, p_data, p_actual)
  end.

Definition double_buffer_get_count (handle : option double_buffer_spsc) (p_count : option Z)
    : Z * option Z :=
  match handle, p_count with
  | Some h, Some _ => (BUFF_OK, Some (u16 (db_size h - db_r_ptr h)))
  | _, _ => (BUFF_ERR_INVAL, p_count)
  end.

Definition double_buffer_isempty (handle : option double_buffer_spsc) (p_empty : option bool)
    : Z * option bool :=
  match handle, p_empty with
  | Some h, Some _ => (BUFF_OK, Some (db_r_ptr h >=? db_size h))
  | _, _ => (BUFF_ERR_INVAL, p_empty)
  end.

Definition double_buffer_isfull (handle : option double_buffer_spsc) (p_full : option bool)
    : Z * option bool :=
  match handle, p_full with
  | Some h, Some _ => (BUFF_OK, Some (db_w_ptr h >=? db_size h))
  | _, _ => (BUFF_ERR_INVAL, p_full)
  end.

(** ** Well-formed handles and their stream *)

Record db_wf (h : double_buffer_spsc) : Prop := {
  dwf_size : 0 < db_size h < 65536;
  dwf_len1 : Z.of_nat (length (db_buf1 h)) = db_size h;
  dwf_len2 : Z.of_nat (length (db_buf2 h)) = db_size h;
  dwf_w : 0 <= db_w_ptr h <= db_size h;
  dwf_r : 0 <= db_r_ptr h <= db_size h
}.

(** Words handed to the reader (rest of the read side), then words not yet swapped in. *)
Definition db_readable (h : double_buffer_spsc) : list Z := drop (Z.to_nat (db_r_ptr h)) (db_buf2 h).
Definition db_pending (h : double_buffer_spsc) : list Z := take (Z.to_nat (db_w_ptr h)) (db_buf1 h).
Definition db_stream (h : double_buffer_spsc) : list Z := db_readable h ++ db_pending h.

Lemma double_buffer_init_wf handle b1 b2 size h :
  is_u16 size -> Z.of_nat (length b1) = size -> Z.of_nat (length b2) = size ->
  double_buffer_init handle (Some b1) (Some b2) size = (BUFF_OK, Some h) ->
  db_wf h /\ db_size h = size /\ db_stream h = [].
Proof.
  unfold double_buffer_init, is_u16. intros Hs H1 H2. destruct handle; [|done].
  destruct (Z.eqb_spec size 0), (Z.land size (size - 1) =? 0); simpl; try done.
  intros [= <-]. split; [constructor; simpl; lia|]. split; [done|].
  unfold db_stream, db_readable, db_pending. simpl. by rewrite drop_ge by lia.
Qed.

(** The swap keeps the stream: it happens only when the read side is drained. *)
Lemma double_buffer_try_swap_ok h :
  db_wf h ->
  db_wf (double_buffer_try_swap h) /\ db_stream (double_buffer_try_swap h) = db_stream h /\
  db_size (double_buffer_try_swap h) = db_size h.
Proof.
  intros [Hs H1 H2 Hw Hr]. unfold double_buffer_try_swap.
  destruct (Z.eqb_spec (db_w_ptr h) (db_size h)) as [Ew|], (Z.eqb_spec (db_r_ptr h) (db_size h))
    as [Er|]; simpl; try (split; [by constructor|done]).
  split; [constructor; simpl; lia|]. split; [|done].
  unfold db_stream, db_readable, db_pending. simpl.
  rewrite Ew, Er, (drop_ge (db_buf2 h)), (take_ge (db_buf1 h)) by lia. by rewrite app_nil_r.
Qed.

(** Storing [d] at the write pointer appends [d] to the stream. *)
Lemma db_store h d b :
  db_wf h -> db_w_ptr h + Z.of_nat (length d) <= db_size h ->
  mem_write (db_buf1 h) (db_w_ptr h) d = Some b ->
  let h' := db_set_w h b (db_w_ptr h + Z.of_nat (length d)) in
  db_wf h' /\ db_stream h' = db_stream h ++ d.
Proof.
  intros [Hs H1 H2 Hw Hr] Hd Hm. pose proof (mem_write_length _ _ _ _ Hm) as HL.
  rewrite mem_write_in in Hm by lia. injection Hm as <-. simpl.
  split; [constructor; simpl in *; lia|].
  unfold db_stream, db_readable, db_pending. simpl. rewrite <- app_assoc. f_equal.
  rewrite app_assoc, take_app_le by (rewrite length_app, length_take; lia).
  rewrite take_ge by (rewrite length_app, length_take; lia). done.
Qed.

Lemma arr_set_mem_write (b : list Z) i x :
  0 <= i < Z.of_nat (length b) -> arr_set b i x = mem_write b i [x].
Proof.
  intros. rewrite arr_set_in, mem_write_in by (simpl; lia). f_equal.
  rewrite insert_take_drop by lia. simpl. do 3 f_equal. lia.
Qed.

(** ** Every branch of the operations *)

Lemma double_buffer_write_data_ok h x :
  db_wf h -> db_w_ptr h < db_size h ->
  ∃ h', double_buffer_write_data (Some h) x = Some (BUFF_OK, Some h') /\ db_wf h' /\
        db_size h' = db_size h /\ db_stream h' = db_stream h ++ [x].
Proof.
  intros WF Hlt. destruct WF as [Hs H1 H2 Hw Hr] eqn:E. clear E.
  unfold double_buffer_write_data. rewrite Z.geb_leb.
  destruct (Z.leb_spec (db_size h) (db_w_ptr h)); [lia|].
  rewrite arr_set_mem_write by lia.
  destruct (mem_write (db_buf1 h) (db_w_ptr h) [x]) as [b|] eqn:Hm;
    [|rewrite mem_write_in in Hm; simpl in *; (done || lia)].
  rewrite u16_small by lia. simpl.
  destruct (db_store h [x] b WF) as [WF' HS]; [simpl; lia|done|].
  destruct (double_buffer_try_swap_ok _ WF') as (WF2 & HS2 & Hz). eexists.
  split; [done|]. split; [done|]. split; [exact Hz|]. etrans; [exact HS2|exact HS].
Qed.

Lemma double_buffer_write_data_full h x :
  db_wf h -> db_w_ptr h = db_size h ->
  double_buffer_write_data (Some h) x = Some (BUFF_ERR_FULL, Some h).
Proof.
  intros WF E. unfold double_buffer_write_data. rewrite Z.geb_leb, E, Z.leb_refl. done.
Qed.

Lemma double_buffer_read_data_ok h o :
  db_wf h -> db_r_ptr h < db_size h ->
  ∃ x h', double_buffer_read_data (Some h) (Some o) = Some (BUFF_OK, Some h', Some x) /\
          db_wf h' /\ db_size h' = db_size h /\ db_stream h = x :: db_stream h'.
Proof.
  intros [Hs H1 H2 Hw Hr] Hlt. unfold double_buffer_read_data. rewrite Z.geb_leb.
  destruct (Z.leb_spec (db_size h) (db_r_ptr h)); [lia|].
  destruct (arr_get_in (db_buf2 h) (db_r_ptr h)) as [x Hx]; [lia|]. rewrite Hx. simpl.
  rewrite u16_small by lia. eexists x, _. split; [done|].
  split; [constructor; simpl; lia|]. split; [done|].
  apply arr_get_Some in Hx as [_ Hx].
  unfold db_stream, db_readable. simpl. rewrite (drop_S _ _ _ Hx). simpl. do 3 f_equal. lia.
Qed.

Lemma double_buffer_read_data_empty h o :
  db_wf h -> db_r_ptr h = db_size h ->
  double_buffer_read_data (Some h) (Some o) = Some (BUFF_ERR_EMPTY, Some h, Some o).
Proof.
  intros WF E. unfold double_buffer_read_data. by rewrite Z.geb_leb, E, Z.leb_refl.
Qed.

Lemma double_buffer_write_block_ok h d n a :
  db_wf h -> db_w_ptr h < db_size h -> 0 < n < 65536 -> Z.of_nat (length d) = n ->
  ∃ h' m, m = Z.min n (db_size h - db_w_ptr h) /\
    double_buffer_write_block (Some h) (Some d) n (Some a) = Some (BUFF_OK, Some h', Some m) /\
    db_wf h' /\ db_size h' = db_size h /\ db_stream h' = db_stream h ++ take (Z.to_nat m) d.
Proof.
  intros WF Hlt Hn Hd. destruct WF as [Hs H1 H2 Hw Hr] eqn:E. clear E.
  unfold double_buffer_write_block.
  destruct (Z.eqb_spec n 0); [lia|]. rewrite u16_small by lia.
  destruct (Z.eqb_spec (db_size h - db_w_ptr h) 0); [lia|]. rewrite Z.gtb_ltb.
  assert ((if db_size h - db_w_ptr h <? n then db_size h - db_w_ptr h else n)
          = Z.min n (db_size h - db_w_ptr h)) as ->
    by (destruct (Z.ltb_spec (db_size h - db_w_ptr h) n); lia).
  set (m := Z.min n (db_size h - db_w_ptr h)).
  assert (Hm : 0 < m /\ m <= n /\ db_w_ptr h + m <= db_size h) by (unfold m; lia).
  exists (double_buffer_try_swap (db_set_w h
     (take (Z.to_nat (db_w_ptr h)) (db_buf1 h) ++ take (Z.to_nat m) d ++
      drop (Z.to_nat (db_w_ptr h) + length (take (Z.to_nat m) d)) (db_buf1 h))
     (db_w_ptr h + m))), m.
  assert (HL : Z.of_nat (length (take (Z.to_nat m) d)) = m) by (rewrite length_take; lia).
  split; [done|]. unfold mem_copy. rewrite mem_read_in by lia. simpl.
  rewrite drop_0, mem_write_in by lia. simpl. rewrite u16_small by lia.
  split; [done|].
  destruct (db_store h (take (Z.to_nat m) d)
     (take (Z.to_nat (db_w_ptr h)) (db_buf1 h) ++ take (Z.to_nat m) d ++
      drop (Z.to_nat (db_w_ptr h) + length (take (Z.to_nat m) d)) (db_buf1 h)) WF) as [WF' HS];
    [lia|by rewrite mem_write_in by lia|].
  rewrite HL in WF', HS. destruct (double_buffer_try_swap_ok _ WF') as (WF2 & HS2 & Hz).
  split; [done|]. split; [exact Hz|]. by rewrite HS2, HS.
Qed.

Lemma double_buffer_write_block_full h d n a :
  db_wf h -> db_w_ptr h = db_size h -> 0 < n ->
  double_buffer_write_block (Some h) (Some d) n (Some a) = Some (BUFF_ERR_FULL, Some h, Some 0).
Proof.
  intros WF E Hn. unfold double_buffer_write_block. destruct (Z.eqb_spec n 0); [lia|].
  by rewrite E, Z.sub_diag.
Qed.

Lemma double_buffer_read_block_ok h d n a :
  db_wf h -> db_r_ptr h < db_size h -> 0 < n < 65536 -> Z.of_nat (length d) = n ->
  ∃ h' d' m, m = Z.min n (db_size h - db_r_ptr h) /\
    double_buffer_read_block (Some h) (Some d) n (Some a)
      = Some (BUFF_OK, Some h', Some d', Some m) /\
    db_wf h' /\ db_size h' = db_size h /\
    db_stream h = take (Z.to_nat m) d' ++ db_stream h'.
Proof.
  intros [Hs H1 H2 Hw Hr] Hlt Hn Hd. unfold double_buffer_read_block.
  destruct (Z.eqb_spec n 0); [lia|]. rewrite u16_small by lia.
  destruct (Z.eqb_spec (db_size h - db_r_ptr h) 0); [lia|]. rewrite Z.gtb_ltb.
  assert ((if db_size h - db_r_ptr h <? n then db_size h - db_r_ptr h else n)
          = Z.min n (db_size h - db_r_ptr h)) as ->
    by (destruct (Z.ltb_spec (db_size h - db_r_ptr h) n); lia).
  set (m := Z.min n (db_size h - db_r_ptr h)).
  assert (Hm : 0 < m /\ m <= n /\ db_r_ptr h + m <= db_size h) by (unfold m; lia).
  eexists _, _, m. split; [done|]. unfold mem_copy. rewrite mem_read_in by lia. simpl.
  rewrite mem_write_in by (rewrite ?length_take, ?length_drop; lia). simpl.
  rewrite u16_small by lia. split; [done|].
  split; [constructor; simpl; lia|]. split; [done|].
  unfold db_stream, db_readable. simpl.
  rewrite take_app_le by (rewrite length_take, length_drop; lia).
  rewrite take_take, Nat.min_id, app_assoc. f_equal.
  rewrite <- (take_drop (Z.to_nat m) (drop (Z.to_nat (db_r_ptr h)) (db_buf2 h))) at 1.
  rewrite drop_drop. do 2 f_equal. lia.
Qed.

Lemma double_buffer_read_block_empty h d n a :
  db_wf h -> db_r_ptr h = db_size h -> 0 < n ->
  double_buffer_read_block (Some h) (Some d) n (Some a)
    = Some (BUFF_ERR_EMPTY, Some h, Some d, Some 0).
Proof.
  intros WF E Hn. unfold double_buffer_read_block. destruct (Z.eqb_spec n 0); [lia|].
  by rewrite E, Z.sub_diag.
Qed.

Arguments double_buffer_write_data : simpl never.
Arguments double_buffer_read_data : simpl never.
Arguments double_buffer_write_block : simpl never.
Arguments double_buffer_read_block : simpl never.

(** ** Sequences of calls *)

Inductive db_op := DWrite (x : Z) | DWriteBlock (d : list Z) | DRead | DReadBlock (n : Z).

Definition db_op_ok (op : db_op) : Prop :=
  match op with
  | DWriteBlock d => 0 < Z.of_nat (length d) < 65536
  | DReadBlock n => 0 < n < 65536
  | _ => True
  end.

(** Return code, words accepted by the call, words delivered by the call, new state. *)
Definition db_exec (h : double_buffer_spsc) (op : db_op)
    : option (Z * list Z * list Z * double_buffer_spsc) :=
  match op with
  | DWrite x =>
      '(r, h') ← double_buffer_write_data (Some h) x; h' ← h';
      Some (r, if r =? BUFF_OK then [x] else [], [], h')
  | DWriteBlock d =>
      '(r, h', a) ← double_buffer_write_block (Some h) (Some d) (Z.of_nat (length d)) (Some 0);
      h' ← h'; a ← a; Some (r, take (Z.to_nat a) d, [], h')
  | DRead =>
      '(r, h', o) ← double_buffer_read_data (Some h) (Some 0); h' ← h'; o ← o;
      Some (r, [], if r =? BUFF_OK then [o] else [], h')
  | DReadBlock n =>
      '(r, h', d, a) ← double_buffer_read_block (Some h) (Some (replicate (Z.to_nat n) 0)) n
                         (Some 0);
      h' ← h'; d ← d; a ← a; Some (r, [], take (Z.to_nat a) d, h')
  end.

Fixpoint db_run (h : double_buffer_spsc) (ops : list db_op)
    : option (list Z * list Z * double_buffer_spsc) :=
  match ops with
  | [] => Some ([], [], h)
  | op :: ops =>
      '(_, win, rout, h1) ← db_exec h op;
      '(wins, routs, h2) ← db_run h1 ops; Some (win ++ wins, rout ++ routs, h2)
  end.

Lemma db_exec_ok h op :
  db_wf h -> db_op_ok op ->
  ∃ r win rout h', db_exec h op = Some (r, win, rout, h') /\ db_wf h' /\
    db_size h' = db_size h /\ db_stream h ++ win = rout ++ db_stream h'.
Proof.
  intros WF Hop. pose proof (dwf_w h WF). pose proof (dwf_r h WF).
  destruct op as [x|d| |n]; simpl in *.
  - destruct (decide (db_w_ptr h < db_size h)).
    + destruct (double_buffer_write_data_ok h x) as (h' & -> & ? & ? & E); [done..|].
      simpl. eexists _, _, _, _. split; [done|]. simpl. rewrite E. eauto.
    + rewrite double_buffer_write_data_full by (done || lia). simpl. eexists _, _, _, _.
      split; [done|]. rewrite app_nil_r. eauto.
  - destruct (decide (db_w_ptr h < db_size h)).
    + destruct (double_buffer_write_block_ok h d (Z.of_nat (length d)) 0)
        as (h' & m & Hm & -> & ? & ? & E); [done..|]. simpl.
      eexists _, _, _, _. split; [done|]. simpl. rewrite E. eauto.
    + rewrite double_buffer_write_block_full by (done || lia). simpl. eexists _, _, _, _.
      split; [done|]. rewrite app_nil_r. eauto.
  - destruct (decide (db_r_ptr h < db_size h)).
    + destruct (double_buffer_read_data_ok h 0) as (x & h' & -> & ? & ? & ->); [done..|].
      simpl. eexists _, _, _, _. split; [done|]. rewrite app_nil_r. eauto.
    + rewrite double_buffer_read_data_empty by (done || lia). simpl. eexists _, _, _, _.
      split; [done|]. rewrite app_nil_r. eauto.
  - destruct (decide (db_r_ptr h < db_size h)).
    + destruct (double_buffer_read_block_ok h (replicate (Z.to_nat n) 0) n 0)
        as (h' & d' & m & Hm & -> & ? & ? & ->); [done..|rewrite length_replicate; lia|].
      simpl. eexists _, _, _, _. split; [done|]. rewrite app_nil_r. eauto.
    + rewrite double_buffer_read_block_empty by (done || lia). simpl. eexists _, _, _, _.
      split; [done|]. rewrite app_nil_r. eauto.
Qed.

Lemma db_run_ok ops : ∀ h,
  db_wf h -> Forall db_op_ok ops ->
  ∃ win rout h', db_run h ops = Some (win, rout, h') /\ db_wf h' /\
    db_stream h ++ win = rout ++ db_stream h'.
Proof.
  induction ops as [|op ops IH]; intros h WF Hops; simpl.
  - eexists _, _, _. split; [done|]. by rewrite app_nil_r.
  - inversion Hops as [|?? Hop Hrest]; subst.
    destruct (db_exec_ok h op WF Hop) as (r & w1 & r1 & h1 & -> & WF1 & _ & E1).
    destruct (IH h1 WF1 Hrest) as (w2 & r2 & h2 & Hr & WF2 & E2). simpl. rewrite Hr. simpl.
    eexists _, _, _. split; [done|]. split; [done|].
    by rewrite app_assoc, E1, <- !app_assoc, E2.
Qed.

(** From [double_buffer_init], every sequence of single- and block-wise writes and
    reads stays inside the two arrays, and the words delivered to the consumer followed by
    the words still buffered are exactly the accepted words, in the order written: nothing
    is lost, duplicated or reordered across any number of swaps. *)
Theorem double_buffer_stream_order h0 b1 b2 size h ops :
  is_u16 size -> Z.of_nat (length b1) = size -> Z.of_nat (length b2) = size ->
  double_buffer_init (Some h0) (Some b1) (Some b2) size = (BUFF_OK, Some h) ->
  Forall db_op_ok ops ->
  ∃ accepted delivered h', db_run h ops = Some (accepted, delivered, h') /\
    accepted = delivered ++ db_stream h'.
Proof.
  intros Hs H1 H2 Hi Hops.
  destruct (double_buffer_init_wf _ _ _ _ _ Hs H1 H2 Hi) as (WF & _ & E).
  destruct (db_run_ok ops h WF Hops) as (w & r & h' & ? & _ & Es). rewrite E in Es. eauto.
Qed.

Lemma double_buffer_stream_order_witness :
  ∃ accepted delivered h',
    db_run (mk_db [0; 0] [0; 0] 2 1 0 2)
      [DWrite 1; DRead; DWriteBlock [2; 3]; DRead; DReadBlock 5; DWrite 4; DWrite 5; DRead]
      = Some (accepted, delivered, h') /\
    accepted = delivered ++ db_stream h'.
Proof.
  apply (double_buffer_stream_order (mk_db [] [] 0 0 0 0) [0; 0] [0; 0] 2).
  - unfold is_u16. lia.
  - reflexivity.
  - reflexivity.
  - reflexivity.
  - repeat constructor; simpl; lia.
Defined.

(** ** The full write side

    The swap is tried only by a write that has just filled the write side.  A write side
    that filled up while the reader still had words is therefore never swapped in. *)

Lemma db_exec_stalled h op :
  db_wf h -> db_w_ptr h = db_size h -> db_op_ok op ->
  ∃ r rout h', db_exec h op = Some (r, [], rout, h') /\ db_wf h' /\
    db_w_ptr h' = db_size h' /\
    match op with DWrite _ | DWriteBlock _ => r = BUFF_ERR_FULL | _ => True end.
Proof.
  intros WF E Hop. pose proof (dwf_r h WF).
  destruct op as [x|d| |n]; simpl in *.
  - rewrite double_buffer_write_data_full by done. simpl. eauto 8.
  - rewrite double_buffer_write_block_full by (done || lia). simpl. eauto 8.
  - unfold double_buffer_read_data. rewrite Z.geb_leb.
    destruct (Z.leb_spec (db_size h) (db_r_ptr h)); [simpl; eauto 8|].
    destruct (double_buffer_read_data_ok h 0) as (x & h' & Hx & WF' & _); [done..|].
    unfold double_buffer_read_data in Hx. rewrite Z.geb_leb in Hx.
    destruct (Z.leb_spec (db_size h) (db_r_ptr h)); [lia|].
    destruct (arr_get (db_buf2 h) (db_r_ptr h)); [|done]. simpl in *.
    injection Hx as <- <-. simpl. eexists _, _, _. split; [done|]. split; [done|]. done.
  - destruct (decide (db_r_ptr h < db_size h)).
    + destruct (double_buffer_read_block_ok h (replicate (Z.to_nat n) 0) n 0)
        as (h' & d' & m & Hm & Hx & WF' & _); [done..|rewrite length_replicate; lia|].
      rewrite Hx. unfold double_buffer_read_block in Hx.
      destruct (Z.eqb_spec n 0); [lia|]. destruct (u16 _ =? 0); [done|].
      destruct (mem_copy _ _ _ _ _); [|done]. simpl in *. injection Hx as <- <- _.
      simpl. eexists _, _, _. split; [done|]. split; [done|]. done.
    + rewrite double_buffer_read_block_empty by (done || lia). simpl. eauto 8.
Qed.

(** The stall. Once the write side has filled up while the reader was not drained,
    no later write is ever accepted, whatever the reader does in between -- even after it
    has drained the read side; the words of the full write side are never delivered. *)
Theorem double_buffer_full_side_stalls h ops :
  db_wf h -> db_w_ptr h = db_size h -> Forall db_op_ok ops ->
  ∃ delivered h', db_run h ops = Some ([], delivered, h') /\ db_w_ptr h' = db_size h' /\
    db_stream h = delivered ++ db_stream h'.
Proof.
  intros WF E Hops.
  destruct (db_run_ok ops h WF Hops) as (w & r & h' & Hr & _ & Es).
  assert (w = [] /\ db_w_ptr h' = db_size h') as [-> ?].
  { clear Es. revert h WF E w r h' Hr. induction Hops as [|op ops Hop _ IH]; intros h WF E w r h' Hr.
    - simpl in Hr. injection Hr as <- <- <-. done.
    - simpl in Hr. destruct (db_exec_stalled h op WF E Hop) as (c & o & h1 & Hx & WF1 & E1 & _).
      rewrite Hx in Hr. simpl in Hr.
      destruct (db_run h1 ops) as [[[w2 r2] h2]|] eqn:Hr2; [|done]. simpl in Hr.
      injection Hr as <- <- <-. eauto. }
  rewrite app_nil_r in Es. eauto.
Qed.

(** The state of the witness is reachable: two writes swapped in, two more fill the write
    side while the reader still holds both words. *)
Lemma double_buffer_full_side_stalls_witness :
  db_run (mk_db [0; 0] [0; 0] 2 1 0 2) [DWriteBlock [1; 2]; DWriteBlock [3; 4]]
    = Some ([1; 2; 3; 4], [], mk_db [3; 4] [1; 2] 2 1 2 0) /\
  ∃ delivered h',
    db_run (mk_db [3; 4] [1; 2] 2 1 2 0) [DReadBlock 2; DWrite 5; DRead]
      = Some ([], delivered, h') /\ db_w_ptr h' = db_size h' /\
    [1; 2; 3; 4] = delivered ++ db_stream h'.
Proof.
  split; [reflexivity|].
  apply (double_buffer_full_side_stalls (mk_db [3; 4] [1; 2] 2 1 2 0)).
  - constructor; simpl; lia.
  - reflexivity.
  - repeat constructor; simpl; lia.
Defined.
