(* ===== verification/DualBuffer.v ===== *)
(** * The dual buffer with independent pointers

    Models the [dual_buffer_*] half of src/algorithm/buffer/double_buffer.c: two linear
    arrays of fixed-width items, each with its own write and read pointer, and the
    producer's and consumer's active sides.  The block that transfers into (or out of) the
    active side, which the C code writes out twice, is one definition here. *)

From S2P Require Import Prelude Fifo.

#[local] Open Scope Z_scope.

Record dual_buffer_spsc := mk_dual {
  du_buf1 : list Z;
  du_buf2 : list Z;
  du_size : Z;
  du_item_size : Z;
  du_mask : Z;
  du_w1 : Z;
  du_r1 : Z;
  du_w2 : Z;
  du_r2 : Z;
  du_active_w : Z;
  du_active_r : Z
}.

Definition du_buf (h : dual_buffer_spsc) (a : Z) : list Z :=
  if a =? 0 then du_buf1 h else du_buf2 h.
Definition du_w (h : dual_buffer_spsc) (a : Z) : Z := if a =? 0 then du_w1 h else du_w2 h.
Definition du_r (h : dual_buffer_spsc) (a : Z) : Z := if a =? 0 then du_r1 h else du_r2 h.

(** Stores the array and the write pointer of side [a]. *)
Definition du_set_side_w (h : dual_buffer_spsc) (a : Z) (b : list Z) (w : Z)
    : dual_buffer_spsc :=
  if a =? 0
  then mk_dual b (du_buf2 h) (du_size h) (du_item_size h) (du_mask h) w (du_r1 h) (du_w2 h)
         (du_r2 h) (du_active_w h) (du_active_r h)
  else mk_dual (du_buf1 h) b (du_size h) (du_item_size h) (du_mask h) (du_w1 h) (du_r1 h) w
         (du_r2 h) (du_active_w h) (du_active_r h).
Definition du_set_side_r (h : dual_buffer_spsc) (a r : Z) : dual_buffer_spsc :=
  if a =? 0
  then mk_dual (du_buf1 h) (du_buf2 h) (du_size h) (du_item_size h) (du_mask h) (du_w1 h) r
         (du_w2 h) (du_r2 h) (du_active_w h) (du_active_r h)
  else mk_dual (du_buf1 h) (du_buf2 h) (du_size h) (du_item_size h) (du_mask h) (du_w1 h)
         (du_r1 h) (du_w2 h) r (du_active_w h) (du_active_r h).
Definition du_set_active (h : dual_buffer_spsc) (aw ar : Z) : dual_buffer_spsc :=
  mk_dual (du_buf1 h) (du_buf2 h) (du_size h) (du_item_size h) (du_mask h) (du_w1 h) (du_r1 h)
    (du_w2 h) (du_r2 h) aw ar.

Definition dual_buffer_init (handle : option dual_buffer_spsc) (buffer1 buffer2 : option (list Z))
    (item_size item_count : Z) : Z * option dual_buffer_spsc :=
  match handle, buffer1, buffer2 with
  | Some _, Some b1, Some b2 =>
      if (item_size =? 0) || (item_count =? 0) || negb (Z.land item_count (item_count - 1) =? 0)
      then (BUFF_ERR_INVAL, handle)
      else (BUFF_OK, Some (mk_dual b1 b2 item_count item_size (u16 (item_count - 1)) 0 0 0 0 0 0))
  | _, _, _ => (BUFF_ERR_INVAL, handle)
  end.

(** Write up to [count] items of [data] into the active write side: the new handle, the
    number of items written and the side's write pointer. *)
Definition dual_put (h : dual_buffer_spsc) (data : list Z) (count : Z)
    : option (dual_buffer_spsc * Z * Z) :=
  let a := du_active_w h in
  let write_ptr := du_w h a in
  let free_len := u16 (du_size h - write_ptr) in
  let to_write := if count <? free_len then count else free_len in
  if to_write >? 0 then
    b ← mem_copy (du_buf h a) (u32 (write_ptr * du_item_size h)) data 0
          (u32 (to_write * du_item_size h));
    let write_ptr := u16 (write_ptr + to_write) in
    Some (du_set_side_w h a b write_ptr, to_write, write_ptr)
  else Some (h, to_write, write_ptr).

Definition dual_buffer_write_block (handle : option dual_buffer_spsc)
    (p_data : option (list Z)) (count : Z) (p_actual : option Z)
    : option (Z * option dual_buffer_spsc * option Z) :=
  let p_actual := out_set p_actual 0 in
  match handle, p_data with
  | Some h, Some data =>
      if count =? 0 then Some (BUFF_ERR_INVAL, handle, p_actual) else
      '(h1, n1, write_ptr) ← dual_put h data count;
      let count := u16 (count - n1) in
      '(h2, written) ←
        (if (count >? 0) && (write_ptr >=? du_size h1) then
           let h1' := du_set_active h1 (u8 (1 - du_active_w h1)) (du_active_r h1) in
           '(h2, n2, _) ← dual_put h1' (drop (Z.to_nat (u32 (n1 * du_item_size h))) data) count;
           Some (h2, u16 (n1 + n2))
         else Some (h1, n1));
      if written =? 0 then Some (BUFF_ERR_FULL, Some h2, p_actual)
      else Some (BUFF_OK, Some h2, out_set p_actual written)
  | _, _ => Some (BUFF_ERR_INVAL, handle, p_actual)
  end.

(** Read up to [count] items of the active read side into [dst] at byte [off]: the new
    handle, [dst], the number of items read, and the side's read and write pointers. *)
Definition dual_get (h : dual_buffer_spsc) (dst : list Z) (off count : Z)
    : option (dual_buffer_spsc * list Z * Z * Z * Z) :=
  let a := du_active_r h in
  let write_ptr := du_w h a in
  let read_ptr := du_r h a in
  let avail := u16 (write_ptr - read_ptr) in
  let to_read := if count <? avail then count else avail in
  if to_read >? 0 then
    d ← mem_copy dst off (du_buf h a) (u32 (read_ptr * du_item_size h))
          (u32 (to_read * du_item_size h));
    let read_ptr := u16 (read_ptr + to_read) in
    Some (du_set_side_r h a read_ptr, d, to_read, read_ptr, write_ptr)
  else Some (h, dst, to_read, read_ptr, write_ptr).

Definition dual_buffer_read_block (handle : option dual_buffer_spsc)
    (p_data : option (list Z)) (count : Z) (p_actual : option Z)
    : option (Z * option dual_buffer_spsc * option (list Z) * option Z) :=
  let p_actual := out_set p_actual 0 in
  match handle, p_data with
  | Some h, Some dst =>
      if count =? 0 then Some (BUFF_ERR_INVAL, handle, p_data, p_actual) else
      '(h1, d1, n1, read_ptr, write_ptr) ← dual_get h dst 0 count;
      let count := u16 (count - n1) in
      '(h2, d2, read) ←
        (if (count >? 0) && (read_ptr >=? write_ptr) then
           let h1' := du_set_active h1 (du_active_w h1) (u8 (1 - du_active_r h1)) in
           '(h2, d2, n2, _, _) ← dual_get h1' d1 (u32 (n1 * du_item_size h)) count;
           Some (h2, d2, u16 (n1 + n2))
         else Some (h1, d1, n1));
      if read =? 0 then Some (BUFF_ERR_EMPTY, Some h2, Some d2, p_actual)
      else Some (BUFF_OK, Some h2, Some d2, out_set p_actual read)
  | _, _ => Some (BUFF_ERR_INVAL, handle, p_data, p_actual)
  end.

Definition dual_buffer_isfull (handle : option dual_buffer_spsc) (p_full : option bool)
    : Z * option bool :=
  match handle, p_full with
  | Some h, Some _ => (BUFF_OK, Some ((du_w1 h >=? du_size h) && (du_w2 h >=? du_size h)))
  | _, _ => (BUFF_ERR_INVAL, p_full)
  end.

Definition dual_buffer_isempty (handle : option dual_buffer_spsc) (p_empty : option bool)
    : Z * option bool :=
  match handle, p_empty with
  | Some h, Some _ => (BUFF_OK, Some ((du_w1 h =? du_r1 h) && (du_w2 h =? du_r2 h)))
  | _, _ => (BUFF_ERR_INVAL, p_empty)
  end.

Definition dual_buffer_get_count (handle : option dual_buffer_spsc) (p_count : option Z)
    : Z * option Z :=
  match handle, p_count with
  | Some h, Some _ => (BUFF_OK, Some (u16 (u16 (du_w1 h - du_r1 h) + u16 (du_w2 h - du_r2 h))))
  | _, _ => (BUFF_ERR_INVAL, p_count)
  end.

(** ** Invariant and contents *)

Record du_wf (h : dual_buffer_spsc) : Prop := {
  uw_size : 0 < du_size h <= 32768;
  uw_item : 0 < du_item_size h < 65536;
  uw_len a : Z.of_nat (length (du_buf h a)) = du_size h * du_item_size h;
  uw_w a : 0 <= du_w h a <= du_size h;
  uw_r a : 0 <= du_r h a <= du_w h a;
  uw_aw : du_active_w h = 0 \/ du_active_w h = 1;
  uw_ar : du_active_r h = 0 \/ du_active_r h = 1
}.

Definition du_item (h : dual_buffer_spsc) : nat := Z.to_nat (du_item_size h).

(** The unread bytes of side [a]. *)
Definition du_side (h : dual_buffer_spsc) (a : Z) : list Z :=
  take (Z.to_nat (du_w h a - du_r h a) * du_item h)
    (drop (Z.to_nat (du_r h a) * du_item h) (du_buf h a)).

Definition du_queue (h : dual_buffer_spsc) : list Z := du_side h 0 ++ du_side h 1.

Lemma du_bytes h n :
  du_wf h -> 0 <= n <= du_size h ->
  u32 (n * du_item_size h) = n * du_item_size h /\
  Z.to_nat (n * du_item_size h) = (Z.to_nat n * du_item h)%nat /\
  0 <= n * du_item_size h <= du_size h * du_item_size h.
Proof.
  intros [Hs Hi _ _ _ _ _] Hn. unfold du_item.
  assert (0 <= n * du_item_size h <= du_size h * du_item_size h) by nia.
  assert (du_size h * du_item_size h < 4294967296) by nia.
  split; [apply u32_small; lia|]. split; [apply Z2Nat.inj_mul; lia|lia].
Qed.

(** A transfer into the active side appends to that side's contents only. *)
Lemma dual_put_ok h data count :
  du_wf h -> 0 <= count < 65536 -> (Z.to_nat count * du_item h ≤ length data)%nat ->
  let a := du_active_w h in
  let n := Z.min count (du_size h - du_w h a) in
  ∃ h', dual_put h data count = Some (h', n, du_w h a + n) /\ du_wf h' /\
    du_size h' = du_size h /\ du_item_size h' = du_item_size h /\
    du_active_w h' = a /\ du_active_r h' = du_active_r h /\
    du_w h' a = du_w h a + n /\ du_w h' (1 - a) = du_w h (1 - a) /\
    (∀ c, du_r h' c = du_r h c) /\
    du_side h' a = du_side h a ++ take (Z.to_nat n * du_item h) data /\
    du_side h' (1 - a) = du_side h (1 - a).
Proof.
  intros WF Hc Hd a n. pose proof (uw_w h WF a) as Hw. pose proof (uw_r h WF a) as Hr.
  pose proof (uw_len h WF a) as HL. pose proof (uw_size h WF). pose proof (uw_item h WF).
  assert (Hn : 0 <= n <= count /\ du_w h a + n <= du_size h) by (unfold n; lia).
  unfold dual_put. fold a. rewrite (u16_small (du_size h - du_w h a)) by lia.
  assert ((if count <? du_size h - du_w h a then count else du_size h - du_w h a) = n) as ->
    by (unfold n; destruct (Z.ltb_spec count (du_size h - du_w h a)); lia).
  rewrite Z.gtb_ltb. destruct (Z.ltb_spec 0 n) as [Hp|Hp].
  2: { assert (n = 0) as -> by lia. rewrite Z.add_0_r. exists h. simpl.
       rewrite take_0, app_nil_r. repeat (split; [done|]). done. }
  destruct (du_bytes h (du_w h a) WF) as (-> & Ew & Bw); [lia|].
  destruct (du_bytes h n WF) as (-> & En & Bn); [lia|].
  assert (HLd : Z.of_nat (Z.to_nat n * du_item h) <= Z.of_nat (length data)).
  { apply inj_le. etrans; [|exact Hd]. apply Nat.mul_le_mono_r. lia. }
  assert (Bwn : du_w h a * du_item_size h + n * du_item_size h <= du_size h * du_item_size h) by nia.
  unfold mem_copy. rewrite mem_read_in by lia. simpl.
  rewrite Z2Nat.inj_0, drop_0, En.
  assert (HT : length (take (Z.to_nat n * du_item h) data) = (Z.to_nat n * du_item h)%nat)
    by (rewrite length_take; lia).
  rewrite mem_write_in by lia. simpl. rewrite HT, Ew, u16_small by lia.
  set (b := take (Z.to_nat (du_w h a) * du_item h) (du_buf h a) ++ _ ++ _).
  assert (Hb : length b = length (du_buf h a)).
  { unfold b. rewrite !length_app, HT, length_take, length_drop. lia. }
  assert (Hside : take (Z.to_nat (du_w h a + n - du_r h a) * du_item h)
                    (drop (Z.to_nat (du_r h a) * du_item h) b)
                  = du_side h a ++ take (Z.to_nat n * du_item h) data).
  { unfold b, du_side.
    replace (Z.to_nat (du_w h a + n - du_r h a))
      with (Z.to_nat (du_w h a - du_r h a) + Z.to_nat n)%nat by lia.
    rewrite Nat.mul_add_distr_r.
    rewrite <- HT at 1.
    assert (Z.to_nat (du_w h a) * du_item h
            = Z.to_nat (du_r h a) * du_item h + Z.to_nat (du_w h a - du_r h a) * du_item h)%nat
      as E by (rewrite <- Nat.mul_add_distr_r; f_equal; lia).
    rewrite E. apply seg_append. rewrite <- E. lia. }
  exists (du_set_side_w h a b (du_w h a + n)). split; [done|].
  clearbody b n. clear HT HLd Bwn Bn En Ew Bw Hd. destruct WF as [? ? Hl1 Hw1 Hr1 Haw Har].
  pose proof (Hl1 0). pose proof (Hl1 1). pose proof (Hw1 0). pose proof (Hw1 1).
  pose proof (Hr1 0). pose proof (Hr1 1).
  unfold a, du_side, du_set_side_w, du_w, du_r, du_buf, du_item in *.
  destruct Haw as [E|E]; rewrite E in *; simpl in *.
  all: split; [constructor; unfold du_w, du_r, du_buf; simpl; try lia;
               intros c; destruct (c =? 0); lia|].
  all: repeat (split; [done|]); done.
Qed.

(** A transfer out of the active side takes the front of that side's contents only. *)
Lemma dual_get_ok h dst off count :
  du_wf h -> 0 <= count < 65536 -> 0 <= off ->
  off + count * du_item_size h <= Z.of_nat (length dst) ->
  let a := du_active_r h in
  let n := Z.min count (du_w h a - du_r h a) in
  let x := take (Z.to_nat n * du_item h) (du_side h a) in
  ∃ h', dual_get h dst off count
          = Some (h', take (Z.to_nat off) dst ++ x ++ drop (Z.to_nat off + length x) dst,
                  n, du_r h a + n, du_w h a) /\
    du_wf h' /\ du_size h' = du_size h /\ du_item_size h' = du_item_size h /\
    du_active_r h' = a /\ du_active_w h' = du_active_w h /\
    du_r h' a = du_r h a + n /\ du_r h' (1 - a) = du_r h (1 - a) /\
    (∀ c, du_w h' c = du_w h c) /\
    length x = (Z.to_nat n * du_item h)%nat /\
    du_side h a = x ++ du_side h' a /\ du_side h' (1 - a) = du_side h (1 - a).
Proof.
  intros WF Hc Ho Hd a n x. pose proof (uw_w h WF a) as Hw. pose proof (uw_r h WF a) as Hr.
  pose proof (uw_len h WF a) as HL. pose proof (uw_size h WF). pose proof (uw_item h WF).
  assert (Hn : 0 <= n <= count /\ du_r h a + n <= du_w h a) by (unfold n; lia).
  unfold dual_get. fold a. rewrite (u16_small (du_w h a - du_r h a)) by lia.
  assert ((if count <? du_w h a - du_r h a then count else du_w h a - du_r h a) = n) as ->
    by (unfold n; destruct (Z.ltb_spec count (du_w h a - du_r h a)); lia).
  rewrite Z.gtb_ltb. destruct (Z.ltb_spec 0 n) as [Hp|Hp].
  2: { assert (E0 : n = 0) by lia. unfold x. rewrite E0, Z.add_0_r. exists h. simpl.
       rewrite ?take_0, ?Nat.add_0_r, take_drop. repeat (split; [done|]). done. }
  destruct (du_bytes h (du_r h a) WF) as (-> & Er & Br); [lia|].
  destruct (du_bytes h n WF) as (-> & En & Bn); [lia|].
  assert (Bwn : du_r h a * du_item_size h + n * du_item_size h <= du_size h * du_item_size h) by nia.
  assert (n * du_item_size h <= count * du_item_size h) by nia.
  assert (Hx : take (Z.to_nat n * du_item h) (drop (Z.to_nat (du_r h a) * du_item h) (du_buf h a)) = x).
  { unfold x, du_side. rewrite take_take. f_equal. symmetry. apply Nat.min_l.
    apply Nat.mul_le_mono_r. lia. }
  assert (HLx : length x = (Z.to_nat n * du_item h)%nat)
    by (rewrite <- Hx, length_take, length_drop; lia).
  unfold mem_copy. rewrite mem_read_in by lia. simpl. rewrite Er, En, Hx.
  rewrite mem_write_in by lia. simpl. rewrite u16_small by lia.
  exists (du_set_side_r h a (du_r h a + n)). split; [done|].
  assert (Hside : du_side h a = x ++ take (Z.to_nat (du_w h a - (du_r h a + n)) * du_item h)
                    (drop (Z.to_nat (du_r h a + n) * du_item h) (du_buf h a))).
  { unfold du_side at 1. rewrite (seg_split _ _ _ (Z.to_nat n * du_item h)), Hx
      by (apply Nat.mul_le_mono_r; lia).
    rewrite <- Nat.mul_sub_distr_r, <- Nat.mul_add_distr_r. do 4 f_equal; lia. }
  clearbody x n. clear Hx Bwn Bn En Er Br Hd. destruct WF as [? ? Hl1 Hw1 Hr1 Haw Har].
  pose proof (Hl1 0). pose proof (Hl1 1). pose proof (Hw1 0). pose proof (Hw1 1).
  pose proof (Hr1 0). pose proof (Hr1 1).
  unfold a, du_side, du_set_side_r, du_w, du_r, du_buf, du_item in *.
  destruct Har as [E|E]; rewrite E in *; simpl in *.
  all: split; [constructor; unfold du_w, du_r, du_buf; simpl; try lia;
               intros c; destruct (c =? 0); lia|].
  all: repeat (split; [done|]); done.
Qed.

(** The order of use of the two sides, when the consumer never asks for more than is
    there: [buf1] is filled before [buf2] and drained before [buf2]. *)
Record du_ord (h : dual_buffer_spsc) : Prop := {
  uo_wf : du_wf h;
  uo_w0 : du_active_w h = 0 -> du_w2 h = 0 \/ (du_w1 h = du_size h /\ du_w2 h = du_size h);
  uo_w1 : du_active_w h = 1 -> du_w1 h = du_size h;
  uo_r0 : du_active_r h = 0 -> du_r2 h = 0;
  uo_r1 : du_active_r h = 1 -> du_r1 h = du_size h
}.

Definition du_written (h : dual_buffer_spsc) : Z := du_w1 h + du_w2 h.
Definition du_avail (h : dual_buffer_spsc) : Z := (du_w1 h - du_r1 h) + (du_w2 h - du_r2 h).

Lemma du_side_nil h a : du_w h a = du_r h a -> du_side h a = [].
Proof. intros E. unfold du_side. by rewrite E, Z.sub_diag. Qed.

Lemma du_set_active_wf h aw ar :
  du_wf h -> aw = 0 \/ aw = 1 -> ar = 0 \/ ar = 1 -> du_wf (du_set_active h aw ar).
Proof. intros [] ??. by constructor. Qed.

(** Names the pointers of the concrete sides. *)
Ltac du_concrete :=
  change (1 - 0) with 1 in *; change (1 - 1) with 0 in *;
  repeat match goal with
  | _ : context [du_w ?h 0] |- _ => change (du_w h 0) with (du_w1 h) in *
  | _ : context [du_w ?h 1] |- _ => change (du_w h 1) with (du_w2 h) in *
  | _ : context [du_r ?h 0] |- _ => change (du_r h 0) with (du_r1 h) in *
  | _ : context [du_r ?h 1] |- _ => change (du_r h 1) with (du_r2 h) in *
  end.

Arguments dual_put : simpl never.
Arguments dual_get : simpl never.
Arguments du_side : simpl never.
Arguments du_w : simpl never.
Arguments du_r : simpl never.

(** One write block as the two transfers it makes: [m] items in all, [n1] of them into the
    active side and the rest into the other side when the active one is full. *)
Lemma dual_put_twice h data n :
  du_wf h -> 0 < n < 65536 -> length data = (Z.to_nat n * du_item h)%nat ->
  let a := du_active_w h in
  let m := Z.min n (2 * du_size h - du_written h) in
  let m := if (0 <? n - Z.min n (du_size h - du_w h a)) then m
           else Z.min n (du_size h - du_w h a) in
  let n1 := Z.min n (du_size h - du_w h a) in
  ∃ h', dual_buffer_write_block (Some h) (Some data) n (Some 0)
          = Some (if m =? 0 then BUFF_ERR_FULL else BUFF_OK, Some h', Some m) /\
    du_wf h' /\ du_size h' = du_size h /\ du_item_size h' = du_item_size h /\
    du_active_w h' = (if 0 <? n - n1 then 1 - a else a) /\ du_active_r h' = du_active_r h /\
    du_w h' a = du_w h a + n1 /\ du_w h' (1 - a) = du_w h (1 - a) + (m - n1) /\
    (∀ c, du_r h' c = du_r h c) /\
    du_side h' a = du_side h a ++ take (Z.to_nat n1 * du_item h) data /\
    du_side h' (1 - a) = du_side h (1 - a) ++
      take (Z.to_nat (m - n1) * du_item h) (drop (Z.to_nat n1 * du_item h) data).
Proof.
  intros WF Hn Hd a m0 m n1. pose proof (uw_size h WF).
  unfold dual_buffer_write_block. simpl. destruct (Z.eqb_spec n 0); [lia|].
  destruct (dual_put_ok h data n WF) as (h1 & -> & WF1 & Es & Ei & Ea & Ear & Ew & Ew' & Er & Sa & Sb);
    [lia|lia|]. simpl. fold a in Ea, Ew, Ew', Sa, Sb |- *. fold n1 in Ew, Sa |- *.
  pose proof (uw_w h WF a) as Wa. pose proof (uw_w h WF (1 - a)) as Wb.
  assert (Hm0 : m0 = Z.min n (2 * du_size h - du_w h a - du_w h (1 - a))).
  { unfold m0, du_written, du_w. unfold a. destruct (uw_aw h WF) as [->| ->]; simpl; lia. }
  rewrite u16_small by lia. rewrite Z.gtb_ltb, Z.geb_leb, Es.
  assert (Hm : m = if 0 <? n - n1 then m0 else n1) by reflexivity. clearbody m.
  destruct (Z.ltb_spec 0 (n - n1)) as [Hlt|Hge]; simpl; subst m.
  - destruct (Z.leb_spec (du_size h) (du_w h a + n1)); [|lia].
    set (h1' := du_set_active h1 (u8 (1 - du_active_w h1)) (du_active_r h1)).
    assert (Haw : a = 0 \/ a = 1) by apply (uw_aw h WF).
    assert (Ea' : du_active_w h1' = 1 - a)
      by (unfold h1'; simpl; rewrite Ea; destruct Haw as [->| ->]; done).
    assert (WF1' : du_wf h1').
    { apply du_set_active_wf; [done| |apply (uw_ar h1 WF1)].
      rewrite Ea. destruct Haw as [->| ->]; auto. }
    assert (Eitem : du_item h1' = du_item h) by (unfold du_item; simpl; by rewrite Ei).
    destruct (du_bytes h n1 WF) as (Eb & En & _); [lia|]. rewrite Eb, En.
    destruct (dual_put_ok h1' (drop (Z.to_nat n1 * du_item h) data) (n - n1) WF1')
      as (h2 & -> & WF2 & Es2 & Ei2 & Ea2 & Ear2 & Ew2 & Ew2' & Er2 & Sa2 & Sb2); [lia| |].
    { rewrite length_drop, Hd, Eitem, <- Nat.mul_sub_distr_r. apply Nat.mul_le_mono_r. lia. }
    rewrite Ea', Eitem in *. replace (1 - (1 - a)) with a in * by lia.
    assert (En2 : Z.min (n - n1) (du_size h1' - du_w h1' (1 - a)) = m0 - n1).
    { change (du_size h1') with (du_size h1). change (du_w h1' (1 - a)) with (du_w h1 (1 - a)).
      rewrite Es, Ew'. lia. }
    rewrite En2 in *. simpl. replace (n1 + (m0 - n1)) with m0 by lia.
    rewrite u16_small by lia. exists h2.
    split; [destruct (Z.eqb_spec m0 0) as [->|]; done|].
    split; [done|]. split; [by rewrite Es2|]. split; [by rewrite Ei2|]. split; [done|].
    split; [by rewrite Ear2|]. split; [by rewrite Ew2'|]. split; [by rewrite Ew2, <- Ew'|].
    split; [intros c; by rewrite Er2, <- Er|]. split; [by rewrite Sb2|]. by rewrite Sa2, <- Sb.
  - rewrite Z.sub_diag, Z.add_0_r. simpl. rewrite take_0, app_nil_r.
    exists h1. split; [destruct (Z.eqb_spec n1 0) as [->|]; done|].
    repeat (split; [done|]). done.
Qed.

Lemma dual_buffer_write_block_ok h data n :
  du_ord h -> 0 < n < 65536 -> length data = (Z.to_nat n * du_item h)%nat ->
  let m := Z.min n (2 * du_size h - du_written h) in
  ∃ h', dual_buffer_write_block (Some h) (Some data) n (Some 0)
          = Some (if m =? 0 then BUFF_ERR_FULL else BUFF_OK, Some h', Some m) /\
    du_ord h' /\ du_size h' = du_size h /\ du_item_size h' = du_item_size h /\
    du_written h' = du_written h + m /\ du_avail h' = du_avail h + m /\
    du_queue h' = du_queue h ++ take (Z.to_nat m * du_item h) data.
Proof.
  intros [WF Hw0 Hw1 Hr0 Hr1] Hn Hd m. pose proof (uw_size h WF).
  pose proof (uw_w h WF 0) as W0. pose proof (uw_w h WF 1) as W1.
  pose proof (uw_r h WF 0) as R0. pose proof (uw_r h WF 1) as R1.
  destruct (dual_put_twice h data n WF Hn Hd)
    as (h' & -> & WF' & Es & Ei & Ea & Ear & Ew & Ew' & Er & Sa & Sb).
  fold m in Ea, Ew, Ew', Sa, Sb |- *.
  pose proof (Er 0) as Er0. pose proof (Er 1) as Er1.
  destruct (uw_aw h WF) as [E|E]; rewrite E in *; unfold du_written, du_avail, du_queue in *;
    du_concrete.
  all: assert (Hm : m = Z.min n (2 * du_size h - (du_w1 h + du_w2 h))) by done; clearbody m.
  - specialize (Hw0 eq_refl). clear Hw1.
    destruct (Z.ltb_spec 0 (n - Z.min n (du_size h - du_w1 h))) as [Hlt|Hge].
    + exists h'. split; [done|]. split.
      { constructor; rewrite ?Ear, ?Es, ?Ew, ?Ew', ?Er0, ?Er1, ?Ea; try done; lia. }
      split; [done|]. split; [done|]. split; [lia|]. split; [lia|].
      rewrite Sa, Sb. destruct Hw0 as [Hz|[Hf1 Hf2]].
      * rewrite (du_side_nil h 1) by (change (du_w2 h = du_r2 h); lia). rewrite app_nil_r, <- app_assoc. f_equal.
        simpl. rewrite take_take_drop, <- Nat.mul_add_distr_r. do 2 f_equal. lia.
      * replace (Z.min n (du_size h - du_w1 h)) with 0 by lia. replace m with 0 by lia.
        simpl. by rewrite !take_0, !app_nil_r.
    + assert (Em : Z.min n (du_size h - du_w1 h) = m).
      { destruct Hw0; lia. }
      rewrite Em in *.
      exists h'. rewrite Z.sub_diag, Z.add_0_r in *. simpl in Sb. rewrite take_0, app_nil_r in Sb.
      split; [done|]. split.
      { constructor; rewrite ?Ear, ?Es, ?Ew, ?Ew', ?Er0, ?Er1, ?Ea; try done; try lia. }
      split; [done|]. split; [done|]. split; [lia|]. split; [lia|].
      rewrite Sa, Sb. destruct Hw0 as [Hz|[Hf1 Hf2]].
      * rewrite (du_side_nil h 1) by (change (du_w2 h = du_r2 h); lia). by rewrite !app_nil_r.
      * replace m with 0 by lia. simpl. by rewrite !take_0, !app_nil_r.
  - specialize (Hw1 eq_refl).
    destruct (Z.ltb_spec 0 (n - Z.min n (du_size h - du_w2 h))) as [Hlt|Hge].
    + assert (Em : Z.min n (du_size h - du_w2 h) = m) by lia. rewrite Em in *.
      rewrite Z.sub_diag, Z.add_0_r in *. simpl in Sb. rewrite take_0, app_nil_r in Sb.
      exists h'. split; [done|]. split.
      { constructor; rewrite ?Ear, ?Es, ?Ew, ?Ew', ?Er0, ?Er1, ?Ea; try done; lia. }
      split; [done|]. split; [done|]. split; [lia|]. split; [lia|].
      by rewrite Sa, Sb, <- app_assoc.
    + assert (Em : Z.min n (du_size h - du_w2 h) = m) by lia. rewrite Em in *.
      rewrite Z.sub_diag, Z.add_0_r in *. simpl in Sb. rewrite take_0, app_nil_r in Sb.
      exists h'. split; [done|]. split.
      { constructor; rewrite ?Ear, ?Es, ?Ew, ?Ew', ?Er0, ?Er1, ?Ea; try done; try lia. }
      split; [done|]. split; [done|]. split; [lia|]. split; [lia|].
      by rewrite Sa, Sb, <- app_assoc.
Qed.

(** A read of no more than is there delivers the front of the queue. *)
Lemma dual_buffer_read_block_ok h dst n :
  du_ord h -> 0 < n < 65536 -> n <= du_avail h ->
  Z.of_nat (length dst) = n * du_item_size h ->
  ∃ h' x, dual_buffer_read_block (Some h) (Some dst) n (Some 0)
            = Some (BUFF_OK, Some h', Some x, Some n) /\
    du_ord h' /\ du_size h' = du_size h /\ du_item_size h' = du_item_size h /\
    du_written h' = du_written h /\ du_avail h' = du_avail h - n /\
    length x = (Z.to_nat n * du_item h)%nat /\ du_queue h = x ++ du_queue h'.
Proof.
  intros [WF Hw0 Hw1 Hr0 Hr1] Hn Hav Hd. pose proof (uw_size h WF). pose proof (uw_item h WF).
  pose proof (uw_w h WF 0) as W0. pose proof (uw_w h WF 1) as W1.
  pose proof (uw_r h WF 0) as R0. pose proof (uw_r h WF 1) as R1.
  unfold dual_buffer_read_block. simpl. destruct (Z.eqb_spec n 0); [lia|].
  destruct (dual_get_ok h dst 0 n WF)
    as (h1 & -> & WF1 & Es & Ei & Ea & Eaw & Er & Er' & Ew & HL & Sa & Sb); [lia..|]. simpl.
  pose proof (Ew 0) as Ew0. pose proof (Ew 1) as Ew1.
  assert (Hdn : length dst = (Z.to_nat n * du_item h)%nat).
  { unfold du_item. rewrite <- Z2Nat.inj_mul by lia. lia. }
  unfold du_written, du_avail, du_queue in *.
  destruct (uw_ar h WF) as [E|E]; rewrite E in *; du_concrete.
  - set (n1 := Z.min n (du_w1 h - du_r1 h)) in *. specialize (Hr0 eq_refl). clear Hr1.
    set (x1 := take (Z.to_nat n1 * du_item h) (du_side h 0)) in *. clearbody x1.
    rewrite u16_small, Z.gtb_ltb, Z.geb_leb by lia.
    destruct (Z.ltb_spec 0 (n - n1)) as [Hlt|Hge]; simpl.
    + destruct (Z.leb_spec (du_w1 h) (du_r1 h + n1)); [|lia].
      assert (Hfull : du_w1 h = du_size h).
      { destruct (uw_aw h WF) as [Eaw0|Eaw0]; [destruct (Hw0 Eaw0)|apply (Hw1 Eaw0)]; lia. }
      rewrite Ea. change (u8 (1 - 0)) with 1.
      set (h1' := du_set_active h1 (du_active_w h1) 1).
      assert (WF1' : du_wf h1').
      { apply du_set_active_wf; [done|apply (uw_aw h1 WF1)|auto]. }
      destruct (du_bytes h n1 WF) as (Eb & En & _); [lia|]. rewrite Eb.
      destruct (dual_get_ok h1' (x1 ++ drop (length x1) dst) (n1 * du_item_size h) (n - n1) WF1')
        as (h2 & -> & WF2 & Es2 & Ei2 & Ea2 & Eaw2 & Er2 & Er2' & Ew2 & HL2 & Sa2 & Sb2); [lia|lia| |].
      { rewrite length_app, length_drop, HL, Hdn. simpl. rewrite Ei.
        rewrite <- Z.mul_add_distr_r. unfold du_item.
        replace (n1 + (n - n1)) with n by lia. nia. }
      pose proof (Ew2 0) as Ew20. pose proof (Ew2 1) as Ew21.
      change (du_active_r h1') with 1 in *. change (du_active_w h1') with (du_active_w h1) in *.
      change (du_w h1') with (du_w h1) in *. change (du_r h1') with (du_r h1) in *.
      change (du_side h1') with (du_side h1) in *. change (du_size h1') with (du_size h1) in *.
      change (du_item_size h1') with (du_item_size h1) in *.
      assert (Eit : du_item h1' = du_item h) by (unfold du_item; simpl; by rewrite Ei).
      rewrite Eit in *. du_concrete.
      set (n2 := Z.min (n - n1) (du_w2 h1 - du_r2 h1)) in *.
      assert (n2 = n - n1) by lia.
      set (x2 := take (Z.to_nat n2 * du_item h) (du_side h1 1)) in *. clearbody x2.
      simpl. rewrite u16_small by lia. replace (n1 + n2) with n by lia.
      destruct (Z.eqb_spec n 0); [lia|].
      exists h2, (x1 ++ x2). split.
      { rewrite En. rewrite take_app_length' by done.
        rewrite (drop_ge _ (_ + _)%nat), app_nil_r; [done|].
        rewrite length_app, length_drop, HL, HL2, Hdn. nia. }
      split.
      { constructor; rewrite ?Ea2, ?Eaw2, ?Es2, ?Es, ?Ew20, ?Ew21, ?Ew0, ?Ew1, ?Eaw; try done.
        rewrite Er2', Er. lia. }
      split; [congruence|]. split; [congruence|]. split; [lia|]. split; [lia|].
      split.
      { rewrite length_app, HL, HL2, <- Nat.mul_add_distr_r. f_equal. lia. }
      rewrite Sa, <- Sb, Sa2, Sb2.
      rewrite (du_side_nil h1 0) by (change (du_w1 h1 = du_r1 h1); lia).
      by rewrite app_nil_r, <- app_assoc.
    + assert (n1 = n) as Hn1 by lia. rewrite Hn1 in *. destruct (Z.eqb_spec n 0); [lia|].
      exists h1, x1. split.
      { rewrite (drop_ge dst), app_nil_r by lia. done. }
      split.
      { constructor; rewrite ?Ea, ?Eaw, ?Es, ?Ew0, ?Ew1; try done. rewrite Er'; done. }
      split; [done|]. split; [done|]. split; [lia|]. split; [lia|].
      split; [done|]. by rewrite Sa, Sb, <- app_assoc.
  - set (n1 := Z.min n (du_w2 h - du_r2 h)) in *. specialize (Hr1 eq_refl). clear Hr0.
    set (x1 := take (Z.to_nat n1 * du_item h) (du_side h 1)) in *. clearbody x1.
    rewrite u16_small, Z.gtb_ltb, Z.geb_leb by lia.
    assert (n1 = n) as Hn1 by lia. rewrite Hn1 in *. rewrite Z.sub_diag. simpl.
    destruct (Z.eqb_spec n 0); [lia|]. exists h1, x1. split.
    { rewrite (drop_ge dst), app_nil_r by lia. done. }
    split.
    { constructor; rewrite ?Ea, ?Eaw, ?Es, ?Ew0, ?Ew1; try done. rewrite Er'; lia. }
    split; [done|]. split; [done|]. split; [lia|]. split; [lia|].
    split; [done|]. rewrite Sa, Sb. rewrite (du_side_nil h 0) by (change (du_w1 h = du_r1 h); lia). done.
Qed.

Arguments dual_buffer_write_block : simpl never.
Arguments dual_buffer_read_block : simpl never.

(** ** Sequences of calls *)

Inductive du_op :=
  | DuWrite (n : Z) (d : list Z)  (** write_block of [n] items *)
  | DuRead (n : Z)                (** read_block of [n] items *)
  | DuDrain (n : Z).              (** get_count, then read_block of at most that many items *)

Definition du_op_ok (item : nat) (op : du_op) : Prop :=
  match op with
  | DuWrite n d => 0 < n < 65536 /\ length d = (Z.to_nat n * item)%nat
  | DuRead _ => False
  | DuDrain n => 0 < n < 65536
  end.

(** Bytes accepted, bytes delivered, new state. *)
Definition du_exec (h : dual_buffer_spsc) (op : du_op)
    : option (list Z * list Z * dual_buffer_spsc) :=
  let read n :=
    '(_, h', d, a) ← dual_buffer_read_block (Some h)
                       (Some (replicate (Z.to_nat n * du_item h) 0)) n (Some 0);
    h' ← h'; d ← d; a ← a; Some ([], take (Z.to_nat a * du_item h) d, h') in
  match op with
  | DuWrite n d =>
      '(_, h', a) ← dual_buffer_write_block (Some h) (Some d) n (Some 0);
      h' ← h'; a ← a; Some (take (Z.to_nat a * du_item h) d, [], h')
  | DuRead n => read n
  | DuDrain n =>
      let '(_, c) := dual_buffer_get_count (Some h) (Some 0) in
      c ← c; if Z.min n c =? 0 then Some ([], [], h) else read (Z.min n c)
  end.

Fixpoint du_run (h : dual_buffer_spsc) (ops : list du_op)
    : option (list Z * list Z * dual_buffer_spsc) :=
  match ops with
  | [] => Some ([], [], h)
  | op :: ops =>
      '(win, rout, h1) ← du_exec h op;
      '(wins, routs, h2) ← du_run h1 ops; Some (win ++ wins, rout ++ routs, h2)
  end.

Lemma du_exec_ok h op :
  du_ord h -> du_size h <= 16384 -> du_op_ok (du_item h) op ->
  ∃ win rout h', du_exec h op = Some (win, rout, h') /\ du_ord h' /\
    du_size h' = du_size h /\ du_item_size h' = du_item_size h /\
    Z.of_nat (length win) = (du_written h' - du_written h) * du_item_size h /\
    du_queue h ++ win = rout ++ du_queue h'.
Proof.
  intros HO Hs Hop. pose proof (uo_wf h HO) as WF.
  pose proof (uw_w h WF 0) as W0. pose proof (uw_w h WF 1) as W1.
  pose proof (uw_r h WF 0) as R0. pose proof (uw_r h WF 1) as R1. du_concrete.
  pose proof (uw_item h WF).
  destruct op as [n d|n|n]; simpl in *; [|done|].
  - destruct Hop as [Hn Hd].
    destruct (dual_buffer_write_block_ok h d n HO Hn Hd) as (h' & -> & HO' & Es & Ei & Ewr & _ & Q).
    unfold du_written in *.
    simpl. eexists _, _, _. split; [done|]. split; [done|]. split; [done|]. split; [done|].
    split; [|done].
    rewrite length_take, Hd, Nat.min_l by (apply Nat.mul_le_mono_r; lia).
    rewrite Nat2Z.inj_mul. unfold du_item. rewrite !Z2Nat.id by lia. f_equal. lia.
  - rewrite (u16_small (du_w1 h - _)), (u16_small (du_w2 h - _)), u16_small by lia.
    fold (du_avail h). assert (0 <= du_avail h) by (unfold du_avail; lia).
    destruct (Z.eqb_spec (Z.min n (du_avail h)) 0) as [E0|E0].
    + eexists _, _, h. split; [done|]. rewrite app_nil_r. simpl. rewrite Z.sub_diag. done.
    + destruct (dual_buffer_read_block_ok h
                  (replicate (Z.to_nat (Z.min n (du_avail h)) * du_item h) 0)
                  (Z.min n (du_avail h)) HO) as (h' & x & Hx & HO' & Es & Ei & Ewr & _ & HL & Q); [lia|lia| |].
      { rewrite length_replicate, Nat2Z.inj_mul. unfold du_item. rewrite !Z2Nat.id by lia. done. }
      rewrite Hx. simpl. eexists _, _, h'. split; [done|]. split; [done|]. split; [done|].
      split; [done|]. rewrite Ewr, Z.sub_diag, app_nil_r. split; [done|].
      by rewrite take_ge by lia.
Qed.

Lemma du_run_ok ops : ∀ h,
  du_ord h -> du_size h <= 16384 -> Forall (du_op_ok (du_item h)) ops ->
  ∃ win rout h', du_run h ops = Some (win, rout, h') /\ du_ord h' /\
    du_size h' = du_size h /\
    Z.of_nat (length win) = (du_written h' - du_written h) * du_item_size h /\
    du_queue h ++ win = rout ++ du_queue h'.
Proof.
  induction ops as [|op ops IH]; intros h HO Hs Hops; simpl.
  - eexists _, _, _. split; [done|]. rewrite app_nil_r, Z.sub_diag. done.
  - inversion Hops as [|?? Hop Hrest]; subst.
    destruct (du_exec_ok h op HO Hs Hop) as (w1 & r1 & h1 & -> & HO1 & Es & Ei & L1 & E1).
    destruct (IH h1 HO1) as (w2 & r2 & h2 & Hr & HO2 & Es2 & L2 & E2); [lia| |].
    { unfold du_item in *. by rewrite Ei. }
    simpl. rewrite Hr. simpl. eexists _, _, _. split; [done|]. split; [done|].
    split; [congruence|]. split; [rewrite length_app; rewrite Ei in L2; nia|].
    by rewrite app_assoc, E1, <- !app_assoc, E2.
Qed.

Lemma dual_buffer_init_ord handle b1 b2 item_size item_count h :
  is_u16 item_size -> is_u16 item_count ->
  Z.of_nat (length b1) = item_count * item_size ->
  Z.of_nat (length b2) = item_count * item_size ->
  dual_buffer_init handle (Some b1) (Some b2) item_size item_count = (BUFF_OK, Some h) ->
  du_ord h /\ du_size h = item_count /\ du_item_size h = item_size /\
  du_written h = 0 /\ du_queue h = [].
Proof.
  intros Hi Hc H1 H2. unfold dual_buffer_init. destruct handle; [|done].
  fold (pow2_test item_count). unfold is_u16 in *.
  destruct (Z.eqb_spec item_size 0), (Z.eqb_spec item_count 0), (pow2_test item_count) eqn:E;
    simpl; try done. intros [= <-]. apply pow2_test_spec in E as (k & Hk & ->); [|lia].
  assert (2 ^ k <= 32768).
  { change 32768 with (2 ^ 15). apply Z.pow_le_mono_r; [lia|].
    destruct (Z.le_gt_cases k 15); [done|exfalso].
    assert (2 ^ 16 <= 2 ^ k) by (apply Z.pow_le_mono_r; lia). lia. }
  split; [|done]. constructor; simpl; auto; try lia.
  constructor; simpl; auto; try lia; unfold du_buf, du_w, du_r; simpl; intros a;
    destruct (a =? 0); lia.
Qed.

(** A consumer that asks for at most what [dual_buffer_get_count] reports sees a
    first-in first-out byte stream: every accepted byte is delivered once and in order or
    is still buffered, and no access leaves the arrays.  The pointers are linear and never
    reset, so however often the consumer drains the buffers, no more than [2 * item_count]
    items are accepted over the whole life of the handle. *)
Theorem dual_buffer_drained_stream h0 b1 b2 item_size item_count h ops :
  is_u16 item_size -> 0 <= item_count <= 16384 ->
  Z.of_nat (length b1) = item_count * item_size ->
  Z.of_nat (length b2) = item_count * item_size ->
  dual_buffer_init (Some h0) (Some b1) (Some b2) item_size item_count = (BUFF_OK, Some h) ->
  Forall (du_op_ok (Z.to_nat item_size)) ops ->
  ∃ accepted delivered h', du_run h ops = Some (accepted, delivered, h') /\
    accepted = delivered ++ du_queue h' /\
    Z.of_nat (length accepted) <= 2 * item_count * item_size.
Proof.
  intros Hi Hc H1 H2 Hin Hops.
  destruct (dual_buffer_init_ord (Some h0) b1 b2 item_size item_count h)
    as (HO & Es & Ei & Ew & Eq); [done|unfold is_u16; lia|done..|].
  destruct (du_run_ok ops h HO) as (w & r & h' & Hr & HO' & Es' & L & Q);
    [lia|unfold du_item; by rewrite Ei|].
  exists w, r, h'. rewrite Eq in Q. split; [done|]. split; [done|].
  pose proof (uw_w h' (uo_wf h' HO') 0). pose proof (uw_w h' (uo_wf h' HO') 1). du_concrete.
  unfold is_u16 in *. rewrite L, Ew, Ei. unfold du_written. nia.
Qed.

Lemma dual_buffer_drained_stream_witness :
  ∃ accepted delivered h',
    du_run (mk_dual [0; 0] [0; 0] 2 1 1 0 0 0 0 0 0)
      [DuWrite 1 [1]; DuDrain 2; DuWrite 2 [2; 3]; DuDrain 9; DuWrite 2 [4; 5]; DuDrain 1;
       DuWrite 1 [6]] = Some (accepted, delivered, h') /\
    accepted = delivered ++ du_queue h' /\ Z.of_nat (length accepted) <= 4.
Proof.
  apply (dual_buffer_drained_stream (mk_dual [] [] 0 0 0 0 0 0 0 0 0) [0; 0] [0; 0] 1 2).
  - unfold is_u16. lia.
  - lia.
  - reflexivity.
  - reflexivity.
  - reflexivity.
  - repeat constructor; simpl; lia.
Defined.

(** Asking for more than is there reorders the stream. A read that empties the active
    side turns to the other side although the producer is still filling the first one, so
    item 3 is delivered before item 2, and item 2 only when the reader turns back. *)
Theorem dual_buffer_overread_reorders :
  dual_buffer_init (Some (mk_dual [] [] 0 0 0 0 0 0 0 0 0)) (Some [0; 0]) (Some [0; 0]) 1 2
    = (BUFF_OK, Some (mk_dual [0; 0] [0; 0] 2 1 1 0 0 0 0 0 0)) /\
  ∃ h', du_run (mk_dual [0; 0] [0; 0] 2 1 1 0 0 0 0 0 0)
          [DuWrite 1 [1]; DuRead 2; DuWrite 2 [2; 3]; DuRead 1; DuRead 1]
        = Some ([1; 2; 3], [1; 3; 2], h').
Proof. split; [reflexivity|]. eexists. vm_compute. reflexivity. Qed.
