(* ===== verification/Status.v ===== *)
(** * Error codes and error pointers

    Models src/core/include/status.h and src/core/src/status.c: the [MINI_ERR_*] codes, the
    sectors and 32-code slots they are grouped in, the encoding of an error code in a
    pointer, and the diagnostic string table.  [unsigned] and [uintptr_t] are 32 bits wide
    (the MCU targets); the address [ERR_BASE] is chosen by the linker and is a
    parameter ([ERR_SECTION_BASE] is its default). *)

From S2P Require Import Prelude.
From stdpp Require Import strings.

#[local] Open Scope Z_scope.

Definition MINI_OK : Z := 0.
Definition MINI_ERR_INVAL : Z := -1.
Definition MINI_ERR_ISR : Z := -2.
Definition MINI_ERR_NOMEM : Z := -3.
Definition MINI_ERR_IO : Z := -4.
Definition MINI_ERR_BUSY : Z := -5.
Definition MINI_ERR_AGAIN : Z := -6.
Definition MINI_ERR_NOSPC : Z := -7.
Definition MINI_ERR_TIMEOUT : Z := -8.
Definition MINI_ERR_HW_FATAL : Z := -9.
Definition MINI_ERR_DEFER : Z := -10.
Definition MINI_ERR_NODEV : Z := -11.
Definition MINI_ERR_NOTSUPP : Z := -12.
Definition MINI_ERR_STATE : Z := -13.
Definition MINI_ERR_RANGE : Z := -14.
Definition MINI_ERR_NOENT : Z := -15.
Definition MINI_ERR_EXIST : Z := -16.
Definition MINI_ERR_NOTINIT : Z := -17.
Definition MINI_ERR_NODATA : Z := -18.
Definition MINI_ERR_CORRUPT : Z := -19.
Definition MINI_ERR_CRC : Z := -20.
Definition MINI_ERR_PARITY : Z := -21.
Definition MINI_ERR_OVERFLOW : Z := -22.
Definition MINI_ERR_NOTREADY : Z := -23.
Definition MINI_ERR_CANCELED : Z := -24.
Definition MINI_ERR_PERM : Z := -25.
Definition MINI_ERR_PROTO : Z := -26.
Definition MINI_ERR_AUTH : Z := -27.

Definition MINI_ERR_MAX : Z := 511.
Definition MINI_ERR_SECTOR_COMMON_LAST : Z := 63.
Definition MINI_ERR_SECTOR_SUBSYS_FIRST : Z := 64.
Definition MINI_ERR_SECTOR_SUBSYS_LAST : Z := MINI_ERR_MAX.
Definition MINI_ERR_SUBSYS_SLOT_SIZE : Z := 32.
Definition MINI_ERR_SUBSYS_SLOT_COUNT : Z := 14.
Definition MINI_ERR_SUBSYS_SLOT_BASE (slot : Z) : Z :=
  u32 (MINI_ERR_SECTOR_SUBSYS_FIRST + slot * MINI_ERR_SUBSYS_SLOT_SIZE).
Definition MINI_ERR_SUBSYS_SLOT_LAST (slot : Z) : Z :=
  u32 (MINI_ERR_SUBSYS_SLOT_BASE slot + MINI_ERR_SUBSYS_SLOT_SIZE - 1).
Definition MINI_ERR_SUBSYS_DRIVER_SLOT : Z := 5.
Definition MINI_ERR_SECTOR_DRIVER_FIRST : Z :=
  MINI_ERR_SUBSYS_SLOT_BASE MINI_ERR_SUBSYS_DRIVER_SLOT.
Definition MINI_ERR_SECTOR_DRIVER_LAST : Z :=
  MINI_ERR_SUBSYS_SLOT_LAST MINI_ERR_SUBSYS_DRIVER_SLOT.

(** [(-(int)((base) + (unsigned)(idx)))]. *)
Definition MINI_ERR_SUBSYS (base idx : Z) : Z := - s32 (base + idx).

(** [((unsigned)0 - (unsigned)(err))]. *)
Definition MINI_ERR_MAGNITUDE (err : Z) : Z := u32 (0 - u32 err).

Inductive mt_err_sector :=
  | MINI_ERR_SECTOR_INVALID
  | MINI_ERR_SECTOR_COMMON
  | MINI_ERR_SECTOR_SUBSYS
  | MINI_ERR_SECTOR_DRIVER.

#[export] Instance mt_err_sector_eq_dec : EqDecision mt_err_sector.
Proof. solve_decision. Defined.

Definition MINI_ERR_SECTOR_OF (err : Z) : mt_err_sector :=
  if err >=? 0 then MINI_ERR_SECTOR_INVALID else
  let mag := MINI_ERR_MAGNITUDE err in
  if mag >? MINI_ERR_MAX then MINI_ERR_SECTOR_INVALID else
  if mag <=? MINI_ERR_SECTOR_COMMON_LAST then MINI_ERR_SECTOR_COMMON else
  if (mag >=? MINI_ERR_SECTOR_DRIVER_FIRST) && (mag <=? MINI_ERR_SECTOR_DRIVER_LAST)
  then MINI_ERR_SECTOR_DRIVER else MINI_ERR_SECTOR_SUBSYS.

Definition MINI_ERR_IS_COMMON (err : Z) : bool :=
  bool_decide (MINI_ERR_SECTOR_OF err = MINI_ERR_SECTOR_COMMON).
Definition MINI_ERR_IS_SUBSYS (err : Z) : bool :=
  bool_decide (MINI_ERR_SECTOR_OF err = MINI_ERR_SECTOR_SUBSYS).
Definition MINI_ERR_IS_DRIVER (err : Z) : bool :=
  bool_decide (MINI_ERR_SECTOR_OF err = MINI_ERR_SECTOR_DRIVER).

Definition MINI_ERR_SUBSYS_SLOT_OF (err : Z) : Z :=
  if err >=? 0 then MINI_ERR_SUBSYS_SLOT_COUNT else
  let mag := MINI_ERR_MAGNITUDE err in
  if (mag <? MINI_ERR_SECTOR_SUBSYS_FIRST) || (mag >? MINI_ERR_SECTOR_SUBSYS_LAST)
  then MINI_ERR_SUBSYS_SLOT_COUNT
  else (mag - MINI_ERR_SECTOR_SUBSYS_FIRST) / MINI_ERR_SUBSYS_SLOT_SIZE.

Definition MINI_ERR_TO_STR (err : Z) : string :=
  match err with
  | 0 => "MINI_OK"
  | -1 => "MINI_ERR_INVAL"
  | -2 => "MINI_ERR_ISR"
  | -3 => "MINI_ERR_NOMEM"
  | -4 => "MINI_ERR_IO"
  | -5 => "MINI_ERR_BUSY"
  | -6 => "MINI_ERR_AGAIN"
  | -7 => "MINI_ERR_NOSPC"
  | -8 => "MINI_ERR_TIMEOUT"
  | -9 => "MINI_ERR_HW_FATAL"
  | -10 => "MINI_ERR_DEFER"
  | -11 => "MINI_ERR_NODEV"
  | -12 => "MINI_ERR_NOTSUPP"
  | -13 => "MINI_ERR_STATE"
  | -14 => "MINI_ERR_RANGE"
  | -15 => "MINI_ERR_NOENT"
  | -16 => "MINI_ERR_EXIST"
  | -17 => "MINI_ERR_NOTINIT"
  | -18 => "MINI_ERR_NODATA"
  | -19 => "MINI_ERR_CORRUPT"
  | -20 => "MINI_ERR_CRC"
  | -21 => "MINI_ERR_PARITY"
  | -22 => "MINI_ERR_OVERFLOW"
  | -23 => "MINI_ERR_NOTREADY"
  | -24 => "MINI_ERR_CANCELED"
  | -25 => "MINI_ERR_PERM"
  | -26 => "MINI_ERR_PROTO"
  | -27 => "MINI_ERR_AUTH"
  | _ => "MINI_ERR_UNKNOWN"
  end.

(** ** Error pointers *)

(** The value error_symbols.ld provides unless the target's linker script overrides it. *)
Definition ERR_SECTION_BASE : Z := 4294963200.

Section error_pointers.
Context (ERR_BASE : Z).

Definition ERR_PTR (err : Z) : Z :=
  let mag := MINI_ERR_MAGNITUDE err in
  let mag := if mag >? MINI_ERR_MAX then MINI_ERR_MAGNITUDE MINI_ERR_INVAL else mag in
  u32 (ERR_BASE + mag).

Definition PTR_ERR (PTR : Z) : Z := - s32 (u32 (PTR - ERR_BASE)).

Definition IS_ERR (ptr : Z) : bool := ptr >=? ERR_BASE.

Definition IS_ERR_OR_NULL (ptr : Z) : bool := (ptr =? 0) || IS_ERR ptr.
End error_pointers.

Definition is_s32 (x : Z) : Prop := -2147483648 <= x < 2147483648.

Lemma MINI_ERR_MAGNITUDE_neg err : is_s32 err -> err <= 0 -> MINI_ERR_MAGNITUDE err = - err.
Proof. unfold is_s32, MINI_ERR_MAGNITUDE. intros. wrap_lia. Qed.

Lemma MINI_ERR_MAGNITUDE_pos err :
  is_s32 err -> 0 < err -> MINI_ERR_MAGNITUDE err = 4294967296 - err.
Proof. unfold is_s32, MINI_ERR_MAGNITUDE. intros. wrap_lia. Qed.

Lemma s32_small x : 0 <= x < 2147483648 -> s32 x = x.
Proof.
  intros. unfold s32. rewrite u32_small by lia.
  destruct (Z.ltb_spec x 2147483648); lia.
Qed.

(** The pointer an error code is encoded as. *)
Lemma ERR_PTR_eq base err :
  is_s32 err -> 0 <= base -> base + MINI_ERR_MAX < 4294967296 ->
  ERR_PTR base err = base + (if (-511 <=? err) && (err <=? 0) then - err else 1).
Proof.
  intros He Hb Hm. unfold ERR_PTR, MINI_ERR_MAX in *. rewrite Z.gtb_ltb.
  destruct (Z.leb_spec (-511) err), (Z.leb_spec err 0); simpl.
  - rewrite MINI_ERR_MAGNITUDE_neg by done. destruct (Z.ltb_spec 511 (- err)); [lia|].
    apply u32_small. lia.
  - rewrite MINI_ERR_MAGNITUDE_pos by done.
    destruct (Z.ltb_spec 511 (4294967296 - err)); [|unfold is_s32 in *; lia].
    change (MINI_ERR_MAGNITUDE MINI_ERR_INVAL) with 1. apply u32_small. lia.
  - rewrite MINI_ERR_MAGNITUDE_neg by done. destruct (Z.ltb_spec 511 (- err)); [|lia].
    change (MINI_ERR_MAGNITUDE MINI_ERR_INVAL) with 1. apply u32_small. lia.
  - lia.
Qed.

(** Error pointers. For every [int] code, encoding it as a pointer and decoding it gives
    the code back when it is MINI_OK or one of the 511 codes, and MINI_ERR_INVAL otherwise;
    the pointer is recognised by [IS_ERR], while every address below the error section is
    not, so a live object is never mistaken for an error. *)
Theorem ERR_PTR_round_trip base err p :
  is_s32 err -> 0 < base -> base + MINI_ERR_MAX < 4294967296 -> 0 < p < base ->
  PTR_ERR base (ERR_PTR base err)
    = (if (-511 <=? err) && (err <=? 0) then err else MINI_ERR_INVAL) /\
  IS_ERR base (ERR_PTR base err) = true /\
  IS_ERR_OR_NULL base (ERR_PTR base err) = true /\ IS_ERR_OR_NULL base p = false.
Proof.
  intros He Hb Hm Hp. rewrite ERR_PTR_eq by (done || lia).
  unfold PTR_ERR, IS_ERR_OR_NULL, IS_ERR. rewrite !Z.geb_leb.
  set (m := if _ && _ then - err else 1).
  assert (Hr : 0 <= m <= 511).
  { unfold m. destruct (Z.leb_spec (-511) err), (Z.leb_spec err 0); simpl; lia. }
  replace (base + m - base) with m by lia. rewrite u32_small, s32_small by lia.
  split.
  { unfold m. destruct (Z.leb_spec (-511) err), (Z.leb_spec err 0); simpl;
      unfold MINI_ERR_INVAL; lia. }
  destruct (Z.leb_spec base (base + m)), (Z.eqb_spec p 0), (Z.leb_spec base p); try lia;
    by rewrite ?orb_true_r.
Qed.

Lemma ERR_PTR_round_trip_witness :
  PTR_ERR ERR_SECTION_BASE (ERR_PTR ERR_SECTION_BASE MINI_ERR_NODEV) = MINI_ERR_NODEV /\
  IS_ERR_OR_NULL ERR_SECTION_BASE 536870912 = false.
Proof.
  destruct (ERR_PTR_round_trip ERR_SECTION_BASE MINI_ERR_NODEV 536870912) as (H1 & _ & _ & H2).
  - unfold is_s32, MINI_ERR_NODEV. lia.
  - reflexivity.
  - reflexivity.
  - unfold ERR_SECTION_BASE. lia.
  - split; [exact H1|exact H2].
Defined.

Lemma MINI_ERR_SECTOR_OF_eq err :
  is_s32 err ->
  MINI_ERR_SECTOR_OF err =
    if (err >=? 0) || (err <? -511) then MINI_ERR_SECTOR_INVALID
    else if -63 <=? err then MINI_ERR_SECTOR_COMMON
    else if (-255 <=? err) && (err <=? -224) then MINI_ERR_SECTOR_DRIVER
    else MINI_ERR_SECTOR_SUBSYS.
Proof.
  intros He. unfold MINI_ERR_SECTOR_OF. rewrite !Z.geb_leb.
  destruct (Z.leb_spec 0 err); [done|]. rewrite MINI_ERR_MAGNITUDE_neg by (done || lia).
  change MINI_ERR_SECTOR_DRIVER_FIRST with 224. change MINI_ERR_SECTOR_DRIVER_LAST with 255.
  change MINI_ERR_MAX with 511. change MINI_ERR_SECTOR_COMMON_LAST with 63.
  rewrite Z.gtb_ltb.
  destruct (Z.ltb_spec 511 (- err)), (Z.ltb_spec err (-511)); try lia; [done|].
  destruct (Z.leb_spec (- err) 63), (Z.leb_spec (-63) err); try lia; [done|].
  destruct (Z.leb_spec 224 (- err)), (Z.leb_spec (-255) err), (Z.leb_spec (- err) 255),
    (Z.leb_spec err (-224)); simpl; (done || lia).
Qed.

Lemma MINI_ERR_SUBSYS_SLOT_OF_eq err :
  is_s32 err ->
  MINI_ERR_SUBSYS_SLOT_OF err
    = if (-511 <=? err) && (err <=? -64) then (- err - 64) / 32 else 14.
Proof.
  intros He. unfold MINI_ERR_SUBSYS_SLOT_OF. rewrite !Z.geb_leb.
  change MINI_ERR_SECTOR_SUBSYS_FIRST with 64. change MINI_ERR_SECTOR_SUBSYS_LAST with 511.
  change MINI_ERR_SUBSYS_SLOT_SIZE with 32. change MINI_ERR_SUBSYS_SLOT_COUNT with 14.
  destruct (Z.leb_spec 0 err).
  - destruct (Z.leb_spec (-511) err), (Z.leb_spec err (-64)); simpl; (done || lia).
  - rewrite MINI_ERR_MAGNITUDE_neg, Z.gtb_ltb by (done || lia).
    destruct (Z.ltb_spec (- err) 64), (Z.ltb_spec 511 (- err)), (Z.leb_spec (-511) err),
      (Z.leb_spec err (-64)); simpl; (done || lia).
Qed.

(** The error-code layout. Every one of the 14 subsystem slots holds 32 codes of its
    own: a private code built from a slot's base and an index below 32 is classified back
    to exactly that slot, lies in the driver sector iff the slot is the driver's and in the
    subsystem sector otherwise, never in the common one; private codes of different slots
    or indices differ. *)
Theorem MINI_ERR_SUBSYS_slots slot idx slot' idx' :
  0 <= slot < MINI_ERR_SUBSYS_SLOT_COUNT -> 0 <= idx < MINI_ERR_SUBSYS_SLOT_SIZE ->
  0 <= slot' < MINI_ERR_SUBSYS_SLOT_COUNT -> 0 <= idx' < MINI_ERR_SUBSYS_SLOT_SIZE ->
  let e := MINI_ERR_SUBSYS (MINI_ERR_SUBSYS_SLOT_BASE slot) idx in
  MINI_ERR_SUBSYS_SLOT_OF e = slot /\
  MINI_ERR_SECTOR_OF e = (if slot =? MINI_ERR_SUBSYS_DRIVER_SLOT
                          then MINI_ERR_SECTOR_DRIVER else MINI_ERR_SECTOR_SUBSYS) /\
  (e = MINI_ERR_SUBSYS (MINI_ERR_SUBSYS_SLOT_BASE slot') idx' -> slot = slot' /\ idx = idx').
Proof.
  unfold MINI_ERR_SUBSYS_SLOT_COUNT, MINI_ERR_SUBSYS_SLOT_SIZE. intros Hs Hi Hs' Hi'.
  assert (Hb : ∀ s i, 0 <= s < 14 -> 0 <= i < 32 ->
               MINI_ERR_SUBSYS (MINI_ERR_SUBSYS_SLOT_BASE s) i = - (64 + s * 32 + i)).
  { intros. unfold MINI_ERR_SUBSYS, MINI_ERR_SUBSYS_SLOT_BASE, MINI_ERR_SUBSYS_SLOT_SIZE,
      MINI_ERR_SECTOR_SUBSYS_FIRST. rewrite u32_small, s32_small by lia. done. }
  simpl. rewrite !Hb by done. clear Hb.
  rewrite MINI_ERR_SUBSYS_SLOT_OF_eq, MINI_ERR_SECTOR_OF_eq by (unfold is_s32; lia).
  rewrite Z.geb_leb. unfold MINI_ERR_SUBSYS_DRIVER_SLOT.
  destruct (Z.leb_spec (-511) (- (64 + slot * 32 + idx))); [|lia].
  destruct (Z.leb_spec (- (64 + slot * 32 + idx)) (-64)); [|lia].
  destruct (Z.leb_spec 0 (- (64 + slot * 32 + idx))); [lia|].
  destruct (Z.ltb_spec (- (64 + slot * 32 + idx)) (-511)); [lia|].
  destruct (Z.leb_spec (-63) (- (64 + slot * 32 + idx))); [lia|]. simpl.
  split; [Z.to_euclidean_division_equations; lia|]. split; [|lia].
  destruct (Z.leb_spec (-255) (- (64 + slot * 32 + idx))),
    (Z.leb_spec (- (64 + slot * 32 + idx)) (-224)), (Z.eqb_spec slot 5); simpl; (done || lia).
Qed.

Lemma MINI_ERR_SUBSYS_slots_witness :
  MINI_ERR_SUBSYS_SLOT_OF (MINI_ERR_SUBSYS (MINI_ERR_SUBSYS_SLOT_BASE 3) 6) = 3 /\
  MINI_ERR_SECTOR_OF (MINI_ERR_SUBSYS (MINI_ERR_SUBSYS_SLOT_BASE 3) 6) = MINI_ERR_SECTOR_SUBSYS.
Proof.
  destruct (MINI_ERR_SUBSYS_slots 3 6 5 0) as (H1 & H2 & _);
    unfold MINI_ERR_SUBSYS_SLOT_COUNT, MINI_ERR_SUBSYS_SLOT_SIZE; [lia..|].
  split; [exact H1|exact H2].
Defined.

(** The string table names each of the 28 codes differently. *)
Lemma MINI_ERR_TO_STR_distinct :
  NoDup (map (fun n => MINI_ERR_TO_STR (- Z.of_nat n)) (seq 0 29)).
Proof. apply (bool_decide_unpack (NoDup _)). vm_compute. exact I. Qed.
