(* ===== verification/Slot.v ===== *)
(** * The slot pool

    Models the index allocator of src/core/src/mini_slot.c: a byte map of used slots, claimed
    lowest index first.  Claim and release run with interrupts masked (or under the ESP
    spinlock), so each call is one atomic step. *)

From S2P Require Import Prelude Status.
From stdpp Require Import sets gmap.

#[local] Open Scope Z_scope.

Record mini_slot := mk_slot { used_slots : option (list Z); slot_count : Z }.

(** The clearing loop over [used_slots[0..slot_count)]. *)
Fixpoint slot_clear (used : list Z) (i : Z) (n : nat) : option (list Z) :=
  match n with
  | O => Some used
  | S n => used' ← arr_set used i 0; slot_clear used' (i + 1) n
  end.

Definition mini_slot_init (pool : option mini_slot) (used : option (list Z)) (count : Z)
    : option (Z * option mini_slot) :=
  match pool, used with
  | Some _, Some u =>
      if count =? 0 then Some (MINI_ERR_INVAL, pool) else
      u' ← slot_clear u 0 (Z.to_nat count);
      Some (MINI_OK, Some (mk_slot (Some u') count))
  | _, _ => Some (MINI_ERR_INVAL, pool)
  end.

(** The claim loop from index [i] over the remaining [n] slots. *)
Fixpoint slot_scan (used : list Z) (i : Z) (n : nat) : option (Z * list Z) :=
  match n with
  | O => Some (-1, used)
  | S n =>
      x ← arr_get used i;
      if x =? 0 then used' ← arr_set used i 1; Some (i, used')
      else slot_scan used (i + 1) n
  end.

Definition mini_slot_claim (pool : option mini_slot) : option (Z * option mini_slot) :=
  match pool with
  | Some (mk_slot (Some u) count) =>
      if count =? 0 then Some (MINI_ERR_INVAL, pool) else
      '(idx, u') ← slot_scan u 0 (Z.to_nat count);
      Some (idx, Some (mk_slot (Some u') count))
  | _ => Some (MINI_ERR_INVAL, pool)
  end.

Definition mini_slot_release (pool : option mini_slot) (slot_index : Z)
    : option (Z * option mini_slot) :=
  match pool with
  | Some (mk_slot (Some u) count) =>
      if (slot_index <? 0) || (slot_index >=? count) then Some (MINI_ERR_INVAL, pool) else
      u' ← arr_set u slot_index 0;
      Some (MINI_OK, Some (mk_slot (Some u') count))
  | _ => Some (MINI_ERR_INVAL, pool)
  end.

Definition mini_slot_is_used (pool : option mini_slot) (slot_index : Z) : option bool :=
  match pool with
  | Some (mk_slot (Some u) count) =>
      if (slot_index <? 0) || (slot_index >=? count) then Some false else
      x ← arr_get u slot_index; Some (negb (x =? 0))
  | _ => Some false
  end.

Arguments mini_slot_claim : simpl never.
Arguments mini_slot_release : simpl never.

(** ** The set of claimed indices *)

Definition slot_wf (u : list Z) (count : Z) : Prop :=
  0 < count /\ count <= Z.of_nat (length u).

(** [S] is the set of indices the pool has handed out. *)
Definition slot_rep (u : list Z) (count : Z) (S : gset Z) : Prop :=
  ∀ i, i ∈ S <-> 0 <= i < count /\ ∃ x, u !! Z.to_nat i = Some x /\ x ≠ 0.

Lemma slot_clear_spec n : ∀ u i,
  0 <= i -> i + Z.of_nat n <= Z.of_nat (length u) ->
  ∃ u', slot_clear u i n = Some u' /\ length u' = length u /\
    (∀ j, (Z.to_nat i ≤ j < Z.to_nat i + n)%nat -> u' !! j = Some 0) /\
    (∀ j, (j < Z.to_nat i)%nat -> u' !! j = u !! j).
Proof.
  induction n as [|n IH]; intros u i Hi Hn; simpl.
  - exists u. split; [done|]. split; [done|]. split; [intros; lia|done].
  - rewrite arr_set_in by lia. simpl.
    destruct (IH (<[Z.to_nat i:=0]> u) (i + 1)) as (u' & -> & HL & H1 & H2);
      [lia|rewrite length_insert; lia|].
    exists u'. rewrite length_insert in HL. split; [done|]. split; [done|]. split.
    + intros j Hj. destruct (decide (j = Z.to_nat i)) as [->|].
      * rewrite H2 by lia. apply list_lookup_insert_eq. lia.
      * apply H1. lia.
    + intros j Hj. rewrite H2 by lia. apply list_lookup_insert_ne. lia.
Qed.

Lemma slot_scan_spec n : ∀ u i,
  0 <= i -> i + Z.of_nat n <= Z.of_nat (length u) ->
  (slot_scan u i n = Some (-1, u) /\
     ∀ j, i <= j < i + Z.of_nat n -> ∃ x, u !! Z.to_nat j = Some x /\ x ≠ 0) \/
  (∃ k, i <= k < i + Z.of_nat n /\ u !! Z.to_nat k = Some 0 /\
     slot_scan u i n = Some (k, <[Z.to_nat k := 1]> u) /\
     ∀ j, i <= j < k -> ∃ x, u !! Z.to_nat j = Some x /\ x ≠ 0).
Proof.
  induction n as [|n IH]; intros u i Hi Hn; simpl.
  - left. split; [done|]. intros. lia.
  - destruct (arr_get_in u i) as [x Hx]; [lia|]. rewrite Hx. simpl.
    apply arr_get_Some in Hx as [_ Hx]. destruct (Z.eqb_spec x 0) as [->|Hne].
    + right. exists i. rewrite arr_set_in by lia. simpl. repeat split; (done || lia).
    + destruct (IH u (i + 1)) as [[-> H]|(k & Hk & Hu & -> & H)]; [lia|lia| |].
      * left. split; [done|]. intros j Hj. destruct (decide (j = i)) as [->|]; [eauto|].
        apply H. lia.
      * right. exists k. repeat split; try done; try lia.
        intros j Hj. destruct (decide (j = i)) as [->|]; [eauto|]. apply H. lia.
Qed.

Section steps.
Context (u : list Z) (count : Z) (S : gset Z) (WF : slot_wf u count) (R : slot_rep u count S).

Lemma slot_claim_step :
  ∃ i u', mini_slot_claim (Some (mk_slot (Some u) count))
            = Some (i, Some (mk_slot (Some u') count)) /\ slot_wf u' count /\
    ((i = -1 /\ u' = u /\ (∀ j, 0 <= j < count -> j ∈ S)) \/
     (0 <= i < count /\ ¬ (i ∈ S) /\ (∀ j, 0 <= j < i -> j ∈ S) /\ slot_rep u' count ({[i]} ∪ S))).
Proof using WF R.
  destruct WF as [Hc Hl]. unfold mini_slot_claim. destruct (Z.eqb_spec count 0); [lia|].
  destruct (slot_scan_spec (Z.to_nat count) u 0) as [[-> H]|(k & Hk & Hu & -> & H)]; [lia|lia| |];
    simpl.
  - exists (-1), u. split; [done|]. split; [done|]. left. split; [done|]. split; [done|].
    intros j Hj. apply R. split; [lia|]. apply H. lia.
  - exists k, (<[Z.to_nat k:=1]> u). split; [done|].
    split; [split; [done|rewrite length_insert; lia]|]. right. split; [lia|].
    split; [|split].
    + intros [_ (x & Hx & ?)]%R. congruence.
    + intros j Hj. apply R. split; [lia|]. apply H. lia.
    + intros i. rewrite elem_of_union, elem_of_singleton. split.
      * intros [->|[Hr (x & Hx & Hne)]%R].
        -- split; [lia|]. exists 1. split; [|lia]. apply list_lookup_insert_eq. lia.
        -- split; [done|]. exists x. split; [|done]. rewrite list_lookup_insert_ne; [done|].
           intros E. assert (k = i) by lia. subst. congruence.
      * intros [Hr (x & Hx & Hne)]. destruct (decide (i = k)) as [|Hd]; [auto|]. right.
        apply R. split; [done|]. exists x. split; [|done].
        rewrite list_lookup_insert_ne in Hx by lia. done.
Qed.

Lemma slot_release_step i :
  0 <= i < count ->
  ∃ u', mini_slot_release (Some (mk_slot (Some u) count)) i
          = Some (MINI_OK, Some (mk_slot (Some u') count)) /\ slot_wf u' count /\
        slot_rep u' count (S ∖ {[i]}).
Proof using WF R.
  intros Hi. destruct WF as [Hc Hl]. unfold mini_slot_release. rewrite Z.geb_leb.
  destruct (Z.ltb_spec i 0), (Z.leb_spec count i); try lia. simpl.
  rewrite arr_set_in by lia. simpl. eexists. split; [done|].
  split; [split; [done|rewrite length_insert; lia]|].
  intros j. rewrite elem_of_difference, elem_of_singleton. split.
  - intros [[Hr (x & Hx & ?)]%R Hne]. split; [done|]. exists x. split; [|done].
    rewrite list_lookup_insert_ne by lia. done.
  - intros [Hr (x & Hx & Hne)]. destruct (decide (j = i)) as [->|].
    + rewrite list_lookup_insert_eq in Hx by lia. congruence.
    + rewrite list_lookup_insert_ne in Hx by lia. split; [|done]. apply R. eauto.
Qed.
End steps.

(** ** Sequences of claims and releases by the pool's users *)

Inductive slot_op := SClaim | SRelease (i : Z).

(** The abstract allocator: the set of owned indices; a claim hands out the lowest free one. *)
Definition slot_abs (count : Z) (S : gset Z) (op : slot_op) (r : Z) (S' : gset Z) : Prop :=
  match op with
  | SClaim =>
      (r = -1 /\ S' = S /\ (∀ j, 0 <= j < count -> j ∈ S)) \/
      (0 <= r < count /\ ¬ (r ∈ S) /\ (∀ j, 0 <= j < r -> j ∈ S) /\ S' = {[r]} ∪ S)
  | SRelease i =>
      if (0 <=? i) && (i <? count) then r = MINI_OK /\ S' = S ∖ {[i]}
      else r = MINI_ERR_INVAL /\ S' = S
  end.

Definition slot_exec (p : option mini_slot) (op : slot_op) : option (Z * option mini_slot) :=
  match op with
  | SClaim => mini_slot_claim p
  | SRelease i => mini_slot_release p i
  end.

Fixpoint slot_run (p : option mini_slot) (ops : list slot_op)
    : option (list Z * option mini_slot) :=
  match ops with
  | [] => Some ([], p)
  | op :: ops =>
      '(r, p1) ← slot_exec p op; '(rs, p2) ← slot_run p1 ops; Some (r :: rs, p2)
  end.

Inductive slot_trace (count : Z) : gset Z -> list slot_op -> list Z -> gset Z -> Prop :=
  | slot_trace_nil S : slot_trace count S [] [] S
  | slot_trace_cons S op r S1 ops rs S2 :
      slot_abs count S op r S1 -> slot_trace count S1 ops rs S2 ->
      slot_trace count S (op :: ops) (r :: rs) S2.

Lemma slot_exec_refines u count S op :
  slot_wf u count -> slot_rep u count S ->
  ∃ r u' S', slot_exec (Some (mk_slot (Some u) count)) op
               = Some (r, Some (mk_slot (Some u') count)) /\
    slot_wf u' count /\ slot_rep u' count S' /\ slot_abs count S op r S'.
Proof.
  intros WF R. destruct op as [|i]; simpl.
  - destruct (slot_claim_step u count S WF R) as (r & u' & -> & WF' & [(-> & -> & H)|(H1 & H2 & H3 & R')]).
    + exists (-1), u, S. auto 10.
    + exists r, u', ({[r]} ∪ S). auto 10.
  - destruct (Z.leb_spec 0 i), (Z.ltb_spec i count); simpl.
    1: { destruct (slot_release_step u count S WF R i) as (u' & -> & WF' & R'); [lia|].
         eexists _, u', _. eauto 10. }
    all: exists MINI_ERR_INVAL, u, S; unfold mini_slot_release; rewrite Z.geb_leb;
      destruct (Z.ltb_spec i 0), (Z.leb_spec count i); try lia; simpl; auto.
Qed.

Lemma slot_run_refines ops : ∀ u count S,
  slot_wf u count -> slot_rep u count S ->
  ∃ rs u' S', slot_run (Some (mk_slot (Some u) count)) ops
                = Some (rs, Some (mk_slot (Some u') count)) /\
    slot_rep u' count S' /\ slot_trace count S ops rs S'.
Proof.
  induction ops as [|op ops IH]; intros u count S WF R; simpl.
  - exists [], u, S. repeat split; try apply R; try done. constructor.
  - destruct (slot_exec_refines u count S op WF R) as (r & u1 & S1 & -> & WF1 & R1 & A).
    destruct (IH u1 count S1 WF1 R1) as (rs & u2 & S2 & Hr & R2 & T). simpl. rewrite Hr.
    exists (r :: rs), u2, S2. split; [done|]. split; [done|]. by econstructor.
Qed.

(** The slot pool is an index allocator. After [mini_slot_init], every sequence of
    claims and releases (release indices arbitrary, also out of range) stays inside the
    map and returns what the abstract allocator allows: a claim hands out the lowest index
    nobody owns, and -1 exactly when all [count] slots are owned; a release in range makes
    precisely that index free again.  So no index is ever owned twice. *)
Theorem mini_slot_allocates p0 u count ops :
  0 < count -> count <= Z.of_nat (length u) ->
  ∃ p rs p' u' S', mini_slot_init (Some p0) (Some u) count = Some (MINI_OK, p) /\
    slot_run p ops = Some (rs, p') /\ p' = Some (mk_slot (Some u') count) /\
    slot_rep u' count S' /\ slot_trace count ∅ ops rs S'.
Proof.
  intros Hc Hl. unfold mini_slot_init. destruct (Z.eqb_spec count 0); [lia|].
  destruct (slot_clear_spec (Z.to_nat count) u 0) as (u1 & -> & HL & H1 & _); [lia|lia|].
  destruct (slot_run_refines ops u1 count ∅) as (rs & u2 & S2 & Hr & R & T).
  { split; lia. }
  { intros i. split; [set_solver|]. intros [Hi (x & Hx & Hne)].
    rewrite H1 in Hx by lia. congruence. }
  eexists _, rs, _, u2, S2. split; [reflexivity|]. eauto.
Qed.

Lemma mini_slot_allocates_witness :
  ∃ p rs p' u' S',
    mini_slot_init (Some (mk_slot None 0)) (Some [7; 7; 7]) 2 = Some (MINI_OK, p) /\
    slot_run p [SClaim; SClaim; SClaim; SRelease 0; SRelease 5; SClaim] = Some (rs, p') /\
    p' = Some (mk_slot (Some u') 2) /\ slot_rep u' 2 S' /\
    slot_trace 2 ∅ [SClaim; SClaim; SClaim; SRelease 0; SRelease 5; SClaim] rs S'.
Proof. apply (mini_slot_allocates (mk_slot None 0) [7; 7; 7] 2); simpl; lia. Defined.
