(* ===== verification/Lifecycle.v ===== *)
(** * The device I/O lifecycle

    Models src/board/src/dev_lifecycle.c: the lock-free counters of open handles and active
    I/O with the -1 sentinel of a torn-down device.  [Lifecycle] has each function as a
    sequential definition (a compare-and-swap loop run without interference succeeds in its
    first round; [dev_lc_remove_drain] keeps its polling loops, with what the other tasks
    and the clock do during each delay as a parameter); the file LifecycleConc has the
    same functions cut at their atomic accesses, run by any number of tasks. *)

From S2P Require Import Prelude Status.

#[local] Open Scope Z_scope.

Inductive dev_lc_state_t := DEV_LC_UNINITIALIZED | DEV_LC_LIVE | DEV_LC_REMOVING | DEV_LC_DEAD.

#[export] Instance dev_lc_state_t_eq_dec : EqDecision dev_lc_state_t.
Proof. solve_decision. Defined.

Record dev_lifecycle := mk_lc { lc_opens : Z; lc_io_active : Z; lc_state : dev_lc_state_t }.

Definition DEV_LC_LOCKED : Z := -1.
Definition MINI_WAIT_FOREVER : Z := 4294967295.

Definition lc_set_opens (lc : dev_lifecycle) (v : Z) := mk_lc v (lc_io_active lc) (lc_state lc).
Definition lc_set_io (lc : dev_lifecycle) (v : Z) := mk_lc (lc_opens lc) v (lc_state lc).
Definition lc_set_state (lc : dev_lifecycle) (s : dev_lc_state_t) :=
  mk_lc (lc_opens lc) (lc_io_active lc) s.

Definition dev_lc_init (lc : option dev_lifecycle) : option dev_lifecycle :=
  match lc with None => None | Some _ => Some (mk_lc 0 0 DEV_LC_LIVE) end.

Definition dev_lc_reset (lc : option dev_lifecycle) : option dev_lifecycle :=
  match lc with None => None | Some _ => Some (mk_lc 0 0 DEV_LC_UNINITIALIZED) end.

Definition dev_lc_state (lc : option dev_lifecycle) : dev_lc_state_t :=
  match lc with Some l => lc_state l | None => DEV_LC_UNINITIALIZED end.

Definition dev_lc_opens (lc : option dev_lifecycle) : Z :=
  let value := match lc with Some l => lc_opens l | None => 0 end in
  if value <? 0 then 0 else value.

Definition dev_lc_io_active_count (lc : option dev_lifecycle) : Z :=
  let value := match lc with Some l => lc_io_active l | None => 0 end in
  if value <? 0 then 0 else value.

Definition dev_lc_open_begin (lc : option dev_lifecycle) : Z * option dev_lifecycle :=
  match lc with
  | None => (MINI_ERR_INVAL, None)
  | Some l =>
      let old := lc_opens l in
      if old <? 0 then (MINI_ERR_NODEV, lc)
      else if decide (lc_state l ≠ DEV_LC_LIVE) then (MINI_ERR_NODEV, lc)
      else (if old + 1 =? 1 then 1 else 0, Some (lc_set_opens l (old + 1)))
  end.

Definition dev_lc_open_end (lc : option dev_lifecycle) : option dev_lifecycle := lc.

Definition dev_lc_open_abort (lc : option dev_lifecycle) : option dev_lifecycle :=
  match lc with None => None | Some l => Some (lc_set_opens l (lc_opens l - 1)) end.

Definition dev_lc_close_begin (lc : option dev_lifecycle) : Z * option dev_lifecycle :=
  match lc with
  | None => (MINI_ERR_INVAL, None)
  | Some l =>
      let old := lc_opens l in
      if old <=? 0 then (MINI_ERR_IO, lc)
      else (if old - 1 =? 0 then 1 else 0, Some (lc_set_opens l (old - 1)))
  end.

Definition dev_lc_close_end (lc : option dev_lifecycle) : option dev_lifecycle := lc.

Definition dev_lc_io_begin (lc : option dev_lifecycle) : Z * option dev_lifecycle :=
  match lc with
  | None => (MINI_ERR_INVAL, None)
  | Some l =>
      let old := lc_io_active l in
      if old <? 0 then (MINI_ERR_NODEV, lc)
      else if decide (lc_state l ≠ DEV_LC_LIVE) then (MINI_ERR_NODEV, lc)
      else (MINI_OK, Some (lc_set_io l (old + 1)))
  end.

Definition dev_lc_io_end (lc : option dev_lifecycle) : option dev_lifecycle :=
  match lc with None => None | Some l => Some (lc_set_io l (lc_io_active l - 1)) end.

Definition dev_lc_remove_start (lc : option dev_lifecycle) : option dev_lifecycle :=
  match lc with None => None | Some l => Some (lc_set_state l DEV_LC_REMOVING) end.

Definition dev_lc_remove_finish (lc : option dev_lifecycle) : option dev_lifecycle :=
  match lc with None => None | Some _ => dev_lc_reset lc end.

(** ** Draining *)
Section drain.
(** What the other tasks do to the lifecycle, and the clock, during one [mini_delay_ms(1)]. *)
Context (delay : dev_lifecycle * Z -> dev_lifecycle * Z).
Context (timeout_ms start_ms : Z).

Definition drain_expired (now : Z) : bool :=
  negb (timeout_ms =? MINI_WAIT_FOREVER) && (u32 (now - start_ms) >=? timeout_ms).

(** The inner loop: [opens] is locked, wait for [io_active] to reach 0 and lock it. *)
Fixpoint drain_io (fuel : nat) (w : dev_lifecycle * Z) : option (Z * (dev_lifecycle * Z)) :=
  match fuel with
  | O => None
  | S fuel =>
      let '(lc, now) := w in
      if lc_io_active lc =? 0 then Some (MINI_OK, (lc_set_io lc DEV_LC_LOCKED, now))
      else if drain_expired now then Some (MINI_ERR_TIMEOUT, w)
      else drain_io fuel (delay w)
  end.

(** The outer loop: wait for [opens] to reach 0 and lock it. *)
Fixpoint drain_opens (fuel : nat) (w : dev_lifecycle * Z) : option (Z * (dev_lifecycle * Z)) :=
  match fuel with
  | O => None
  | S fuel =>
      let '(lc, now) := w in
      if lc_opens lc =? 0 then drain_io (S fuel) (lc_set_opens lc DEV_LC_LOCKED, now)
      else if drain_expired now then Some (MINI_ERR_TIMEOUT, w)
      else drain_opens fuel (delay w)
  end.
End drain.

(** [None] stands for a drain that is still polling after [fuel] rounds. *)
Definition dev_lc_remove_drain (delay : dev_lifecycle * Z -> dev_lifecycle * Z) (fuel : nat)
    (lc : option dev_lifecycle) (now : Z) (timeout_ms : Z)
    : option (Z * option dev_lifecycle * Z) :=
  match lc with
  | None => Some (MINI_ERR_INVAL, None, now)
  | Some l =>
      if decide (lc_state l ≠ DEV_LC_REMOVING) then Some (MINI_ERR_BUSY, lc, now) else
      '(r, (l', now')) ← drain_opens delay timeout_ms now fuel (l, now);
      Some (r, Some l', now')
  end.

(** *** The drain returns *)

(** The clock moves by 1 to [bound] milliseconds per delay and wraps at 32 bits. *)
Definition clock_moves (bound : Z) (delay : dev_lifecycle * Z -> dev_lifecycle * Z) : Prop :=
  ∀ w, ∃ d, 1 <= d <= bound /\ (delay w).2 = u32 (w.2 + d).

Section drain_returns.
Context (delay : dev_lifecycle * Z -> dev_lifecycle * Z) (bound timeout start : Z).
Context (Hclk : clock_moves bound delay) (Hb : 1 <= bound).
Context (Ht : 0 <= timeout) (Htb : timeout + bound < MINI_WAIT_FOREVER).

(** Rounds left before the timeout, when [e] milliseconds have elapsed. *)
Lemma drain_elapsed_step w :
  u32 (w.2 - start) < timeout ->
  u32 (w.2 - start) + 1 <= u32 ((delay w).2 - start) <= u32 (w.2 - start) + bound.
Proof using Hclk Hb Htb.
  intros He. destruct (Hclk w) as (d & Hd & ->). unfold MINI_WAIT_FOREVER in *.
  assert (Ee : u32 (u32 (w.2 + d) - start) = u32 (w.2 - start) + d).
  { assert (u32 (u32 (w.2 + d) - start) = u32 (u32 (w.2 - start) + d)) as -> by wrap_lia.
    pose proof (u32_range (w.2 - start)). apply u32_small. lia. }
  rewrite Ee. lia.
Qed.

Lemma drain_expired_eq now :
  drain_expired timeout start now = (timeout <=? u32 (now - start)).
Proof using Ht Htb Hb.
  unfold drain_expired. rewrite Z.geb_leb. unfold MINI_WAIT_FOREVER in *.
  destruct (Z.eqb_spec timeout 4294967295); [lia|done].
Qed.

(** The other tasks leave a locked [opens] alone: every client operation refuses -1. *)
Context (Hlock : ∀ w, lc_opens w.1 = DEV_LC_LOCKED -> lc_opens (delay w).1 = DEV_LC_LOCKED).

Definition drain_post (r : Z) (w : dev_lifecycle * Z) : Prop :=
  (r = MINI_OK /\ lc_opens w.1 = DEV_LC_LOCKED /\ lc_io_active w.1 = DEV_LC_LOCKED) \/
  (r = MINI_ERR_TIMEOUT /\ timeout <= u32 (w.2 - start)).

Lemma drain_io_returns fuel : ∀ w,
  (0 < fuel)%nat -> timeout < u32 (w.2 - start) + Z.of_nat fuel ->
  lc_opens w.1 = DEV_LC_LOCKED ->
  ∃ r w', drain_io delay timeout start fuel w = Some (r, w') /\ drain_post r w'.
Proof using Hclk Hb Ht Htb Hlock.
  induction fuel as [|fuel IH]; intros [lc now] Hf He Hl; [lia|]. simpl in *.
  destruct (Z.eqb_spec (lc_io_active lc) 0).
  - eexists _, _. split; [done|]. left. done.
  - rewrite drain_expired_eq. destruct (Z.leb_spec timeout (u32 (now - start))) as [Hx|Hx].
    + eexists _, _. split; [done|]. right. done.
    + pose proof (drain_elapsed_step (lc, now) Hx) as Hs. simpl in Hs.
      apply IH; [lia|lia|]. apply (Hlock (lc, now)). done.
Qed.

Lemma drain_opens_returns fuel : ∀ w,
  (0 < fuel)%nat -> timeout < u32 (w.2 - start) + Z.of_nat fuel ->
  ∃ r w', drain_opens delay timeout start fuel w = Some (r, w') /\ drain_post r w'.
Proof using Hclk Hb Ht Htb Hlock.
  induction fuel as [|fuel IH]; intros [lc now] Hf He; [lia|]. cbn [drain_opens].
  destruct (Z.eqb_spec (lc_opens lc) 0).
  - by apply drain_io_returns.
  - rewrite drain_expired_eq. destruct (Z.leb_spec timeout (u32 (now - start))) as [Hx|Hx].
    + eexists _, _. split; [done|]. right. done.
    + pose proof (drain_elapsed_step (lc, now) Hx) as Hs. simpl in Hs, He. apply IH; lia.
Qed.

(** A locked [opens] never compares equal to 0, so the outer loop runs into the timeout. *)
Lemma drain_opens_locked fuel : ∀ w,
  lc_opens w.1 = DEV_LC_LOCKED ->
  (0 < fuel)%nat -> timeout < u32 (w.2 - start) + Z.of_nat fuel ->
  ∃ w', drain_opens delay timeout start fuel w = Some (MINI_ERR_TIMEOUT, w').
Proof using Hclk Hb Ht Htb Hlock.
  induction fuel as [|fuel IH]; intros [lc now] Hl Hf He; [lia|]. cbn [drain_opens].
  simpl in Hl, He. rewrite Hl. simpl. rewrite drain_expired_eq.
  destruct (Z.leb_spec timeout (u32 (now - start))) as [Hx|Hx]; [eauto|].
  pose proof (drain_elapsed_step (lc, now) Hx) as Hs. simpl in Hs.
  apply IH; [|lia|lia]. apply (Hlock (lc, now)). done.
Qed.
End drain_returns.

(** [dev_lc_remove_drain] with a finite timeout returns within [timeout_ms + 1] polls,
    across the 32-bit wrap of the clock: MINI_OK with both counters locked, or
    MINI_ERR_TIMEOUT after at least [timeout_ms] milliseconds.  (The clock advances by 1 to
    [bound] ms in each delay and the other tasks leave a locked [opens] alone.) *)
Theorem dev_lc_remove_drain_returns delay bound l now timeout :
  clock_moves bound delay -> 1 <= bound -> 0 <= timeout ->
  timeout + bound < MINI_WAIT_FOREVER ->
  (∀ w, lc_opens w.1 = DEV_LC_LOCKED -> lc_opens (delay w).1 = DEV_LC_LOCKED) ->
  lc_state l = DEV_LC_REMOVING ->
  ∃ r l' now', dev_lc_remove_drain delay (S (Z.to_nat timeout)) (Some l) now timeout
                 = Some (r, Some l', now') /\
    ((r = MINI_OK /\ lc_opens l' = DEV_LC_LOCKED /\ lc_io_active l' = DEV_LC_LOCKED) \/
     (r = MINI_ERR_TIMEOUT /\ timeout <= u32 (now' - now))).
Proof.
  intros Hc Hb Ht Htb Hl Hs. unfold dev_lc_remove_drain. rewrite decide_False by auto.
  destruct (drain_opens_returns delay bound timeout now Hc Hb Ht Htb Hl (S (Z.to_nat timeout))
              (l, now)) as (r & [l' now'] & -> & Hp); [lia|simpl; rewrite Z.sub_diag; simpl|].
  { change (u32 0) with 0. lia. }
  simpl. eauto.
Qed.

(** One I/O finishes during each delay; the clock ticks by one. *)
Definition delay_one_io (w : dev_lifecycle * Z) : dev_lifecycle * Z :=
  (lc_set_io w.1 (if 0 <? lc_io_active w.1 then lc_io_active w.1 - 1 else lc_io_active w.1),
   u32 (w.2 + 1)).

Lemma delay_one_io_clock : clock_moves 1 delay_one_io.
Proof. intros w. exists 1. simpl. lia. Qed.

Lemma dev_lc_remove_drain_returns_witness :
  ∃ r l' now',
    dev_lc_remove_drain delay_one_io 6 (Some (mk_lc 0 2 DEV_LC_REMOVING)) 4294967295 5
      = Some (r, Some l', now') /\
    ((r = MINI_OK /\ lc_opens l' = DEV_LC_LOCKED /\ lc_io_active l' = DEV_LC_LOCKED) \/
     (r = MINI_ERR_TIMEOUT /\ 5 <= u32 (now' - 4294967295))).
Proof.
  apply (dev_lc_remove_drain_returns delay_one_io 1).
  - exact delay_one_io_clock.
  - lia.
  - lia.
  - reflexivity.
  - intros w H. exact H.
  - reflexivity.
Defined.

(** A drain that timed out waiting for I/O cannot be repeated. It leaves [opens] at -1,
    and a later [dev_lc_remove_drain] waits for [opens] to be 0: it returns
    MINI_ERR_TIMEOUT even when no I/O is left. *)
Theorem dev_lc_remove_drain_retry_fails delay bound l now timeout :
  clock_moves bound delay -> 1 <= bound -> 0 <= timeout ->
  timeout + bound < MINI_WAIT_FOREVER ->
  (∀ w, lc_opens w.1 = DEV_LC_LOCKED -> lc_opens (delay w).1 = DEV_LC_LOCKED) ->
  lc_state l = DEV_LC_REMOVING -> lc_opens l = DEV_LC_LOCKED ->
  ∃ l' now', dev_lc_remove_drain delay (S (Z.to_nat timeout)) (Some l) now timeout
               = Some (MINI_ERR_TIMEOUT, Some l', now').
Proof.
  intros Hc Hb Ht Htb Hl Hs Ho. unfold dev_lc_remove_drain. rewrite decide_False by auto.
  destruct (drain_opens_locked delay bound timeout now Hc Hb Ht Htb Hl (S (Z.to_nat timeout))
              (l, now)) as ([l' now'] & ->); [done|lia|simpl; rewrite Z.sub_diag|].
  { change (u32 0) with 0. lia. }
  simpl. eauto.
Qed.

(** The first drain times out with one I/O running; when that I/O has ended the second
    drain still times out. *)
Lemma dev_lc_remove_drain_retry_fails_witness :
  dev_lc_remove_drain (fun w => (w.1, u32 (w.2 + 1))) 4
    (Some (mk_lc 0 1 DEV_LC_REMOVING)) 100 3
    = Some (MINI_ERR_TIMEOUT, Some (mk_lc (-1) 1 DEV_LC_REMOVING), 103) /\
  dev_lc_io_end (Some (mk_lc (-1) 1 DEV_LC_REMOVING)) = Some (mk_lc (-1) 0 DEV_LC_REMOVING) /\
  ∃ l' now', dev_lc_remove_drain delay_one_io 4 (Some (mk_lc (-1) 0 DEV_LC_REMOVING)) 200 3
               = Some (MINI_ERR_TIMEOUT, Some l', now').
Proof.
  split; [reflexivity|]. split; [reflexivity|].
  apply (dev_lc_remove_drain_retry_fails delay_one_io 1).
  - exact delay_one_io_clock.
  - lia.
  - lia.
  - reflexivity.
  - intros w H. exact H.
  - reflexivity.
  - reflexivity.
Defined.
