(* ===== verification/LifecycleConc.v ===== *)
(** * The device lifecycle under interleaving

    The functions of src/board/src/dev_lifecycle.c cut at their atomic loads, stores and
    compare-and-swaps, run by any number of client tasks and one remover.  A client that
    opens a device and does I/O on it is two of the model's tasks; the theorems are about
    all interleavings. *)

From S2P Require Import Prelude Status Lifecycle.
From stdpp Require Import relations.

#[local] Open Scope Z_scope.

(** Where a client task stands; the argument is the value [old] it has loaded. *)
Inductive client_pc :=
  | CIdle
  | COpenStart              (** in dev_lc_open_begin, before the load of [opens] *)
  | COpenLoaded (old : Z)   (** before the test of [old] and [state] *)
  | COpenChecked (old : Z)  (** before the compare-and-swap *)
  | COpen                   (** open_begin succeeded: holds an open *)
  | CCloseStart             (** in dev_lc_close_begin, before the load *)
  | CCloseLoaded (old : Z)  (** before the test and the compare-and-swap *)
  | CIoStart                (** in dev_lc_io_begin *)
  | CIoLoaded (old : Z)
  | CIoChecked (old : Z)
  | CIo.                    (** between io_begin and io_end *)

Inductive client_step : dev_lifecycle * client_pc -> dev_lifecycle * client_pc -> Prop :=
  | cs_open lc : client_step (lc, CIdle) (lc, COpenStart)
  | cs_open_load lc : client_step (lc, COpenStart) (lc, COpenLoaded (lc_opens lc))
  | cs_open_locked lc old : old < 0 -> client_step (lc, COpenLoaded old) (lc, CIdle)
  | cs_open_not_live lc old :
      0 <= old -> lc_state lc ≠ DEV_LC_LIVE -> client_step (lc, COpenLoaded old) (lc, CIdle)
  | cs_open_live lc old :
      0 <= old -> lc_state lc = DEV_LC_LIVE ->
      client_step (lc, COpenLoaded old) (lc, COpenChecked old)
  | cs_open_cas lc old :
      lc_opens lc = old ->
      client_step (lc, COpenChecked old) (lc_set_opens lc (old + 1), COpen)
  | cs_open_retry lc old :
      lc_opens lc ≠ old -> client_step (lc, COpenChecked old) (lc, COpenStart)
  | cs_abort lc : client_step (lc, COpen) (lc_set_opens lc (lc_opens lc - 1), CIdle)
  | cs_close lc : client_step (lc, COpen) (lc, CCloseStart)
  | cs_close_load lc : client_step (lc, CCloseStart) (lc, CCloseLoaded (lc_opens lc))
  | cs_close_io lc old : old <= 0 -> client_step (lc, CCloseLoaded old) (lc, COpen)
  | cs_close_cas lc old :
      0 < old -> lc_opens lc = old ->
      client_step (lc, CCloseLoaded old) (lc_set_opens lc (old - 1), CIdle)
  | cs_close_retry lc old :
      0 < old -> lc_opens lc ≠ old -> client_step (lc, CCloseLoaded old) (lc, CCloseStart)
  | cs_io lc : client_step (lc, CIdle) (lc, CIoStart)
  | cs_io_load lc : client_step (lc, CIoStart) (lc, CIoLoaded (lc_io_active lc))
  | cs_io_locked lc old : old < 0 -> client_step (lc, CIoLoaded old) (lc, CIdle)
  | cs_io_not_live lc old :
      0 <= old -> lc_state lc ≠ DEV_LC_LIVE -> client_step (lc, CIoLoaded old) (lc, CIdle)
  | cs_io_live lc old :
      0 <= old -> lc_state lc = DEV_LC_LIVE ->
      client_step (lc, CIoLoaded old) (lc, CIoChecked old)
  | cs_io_cas lc old :
      lc_io_active lc = old -> client_step (lc, CIoChecked old) (lc_set_io lc (old + 1), CIo)
  | cs_io_retry lc old :
      lc_io_active lc ≠ old -> client_step (lc, CIoChecked old) (lc, CIoStart)
  | cs_io_end lc : client_step (lc, CIo) (lc_set_io lc (lc_io_active lc - 1), CIdle).

Inductive remover_pc :=
  | RIdle
  | RStarted      (** dev_lc_remove_start has stored REMOVING *)
  | RWaitOpens    (** in the outer loop of dev_lc_remove_drain *)
  | RWaitIo       (** [opens] locked, in the inner loop *)
  | RDrained      (** dev_lc_remove_drain has returned MINI_OK *)
  | RTimedOut.    (** dev_lc_remove_drain has returned MINI_ERR_TIMEOUT from the inner loop *)

Inductive remover_step : dev_lifecycle * remover_pc -> dev_lifecycle * remover_pc -> Prop :=
  | rs_start lc : remover_step (lc, RIdle) (lc_set_state lc DEV_LC_REMOVING, RStarted)
  | rs_enter lc : lc_state lc = DEV_LC_REMOVING -> remover_step (lc, RStarted) (lc, RWaitOpens)
  | rs_opens_cas lc :
      lc_opens lc = 0 -> remover_step (lc, RWaitOpens) (lc_set_opens lc DEV_LC_LOCKED, RWaitIo)
  | rs_opens_timeout lc : lc_opens lc ≠ 0 -> remover_step (lc, RWaitOpens) (lc, RStarted)
  | rs_io_cas lc :
      lc_io_active lc = 0 -> remover_step (lc, RWaitIo) (lc_set_io lc DEV_LC_LOCKED, RDrained)
  | rs_io_timeout lc : lc_io_active lc ≠ 0 -> remover_step (lc, RWaitIo) (lc, RTimedOut).

Record lc_system := mk_sys { sys_lc : dev_lifecycle; sys_clients : list client_pc; sys_rem : remover_pc }.

Inductive lc_step : lc_system -> lc_system -> Prop :=
  | step_client lc lc' cs i pc pc' r :
      cs !! i = Some pc -> client_step (lc, pc) (lc', pc') ->
      lc_step (mk_sys lc cs r) (mk_sys lc' (<[i := pc']> cs) r)
  | step_remover lc lc' cs r r' :
      remover_step (lc, r) (lc', r') -> lc_step (mk_sys lc cs r) (mk_sys lc' cs r').

(** [dev_lc_remove_finish] after a successful drain: three separate stores. *)
Inductive finish_step : lc_system -> lc_system -> Prop :=
  | finish_opens lc cs : finish_step (mk_sys lc cs RDrained) (mk_sys (lc_set_opens lc 0) cs RDrained)
  | finish_io lc cs : finish_step (mk_sys lc cs RDrained) (mk_sys (lc_set_io lc 0) cs RDrained)
  | finish_state lc cs :
      finish_step (mk_sys lc cs RDrained) (mk_sys (lc_set_state lc DEV_LC_UNINITIALIZED) cs RIdle).

Definition lc_full_step (s s' : lc_system) : Prop := lc_step s s' \/ finish_step s s'.

Definition lc_initial (n : nat) : lc_system := mk_sys (mk_lc 0 0 DEV_LC_LIVE) (replicate n CIdle) RIdle.

(** ** Counting holders *)

Definition holds_open (pc : client_pc) : bool :=
  match pc with COpen | CCloseStart | CCloseLoaded _ => true | _ => false end.
Definition in_io (pc : client_pc) : bool := match pc with CIo => true | _ => false end.

Definition count (f : client_pc -> bool) (cs : list client_pc) : Z :=
  foldr (fun pc n => Z.b2z (f pc) + n) 0 cs.

Lemma count_insert f cs i pc pc' :
  cs !! i = Some pc -> count f (<[i := pc']> cs) = count f cs - Z.b2z (f pc) + Z.b2z (f pc').
Proof.
  revert i. induction cs as [|c cs IH]; intros [|i] H; simpl in *; try done.
  - injection H as ->. lia.
  - rewrite (IH i) by done. lia.
Qed.

Lemma count_nonneg f cs : 0 <= count f cs.
Proof. induction cs as [|c cs IH]; simpl; [lia|]. destruct (f c); simpl; lia. Qed.

Lemma count_zero f cs i pc : count f cs = 0 -> cs !! i = Some pc -> f pc = false.
Proof.
  revert i. induction cs as [|c cs IH]; intros [|i] H E; simpl in *; try done;
    pose proof (count_nonneg f cs); destruct (f c) eqn:Hf; simpl in *; try lia.
  - by injection E as ->.
  - eapply IH; [lia|done].
Qed.

Lemma count_replicate f n : f CIdle = false -> count f (replicate n CIdle) = 0.
Proof. intros H. induction n as [|n IH]; simpl; [done|]. by rewrite H, IH. Qed.

(** ** The invariant *)

Definition opens_locked (r : remover_pc) : bool :=
  match r with RWaitIo | RDrained | RTimedOut => true | _ => false end.
Definition io_locked (r : remover_pc) : bool := match r with RDrained => true | _ => false end.

Definition counter_inv (v n : Z) (locked : bool) : Prop :=
  if locked then v = DEV_LC_LOCKED /\ n = 0 else v = n.

Definition pc_ok (pc : client_pc) : Prop :=
  match pc with COpenChecked old | CIoChecked old => 0 <= old | _ => True end.

Record lc_inv (s : lc_system) : Prop := {
  li_opens : counter_inv (lc_opens (sys_lc s)) (count holds_open (sys_clients s))
               (opens_locked (sys_rem s));
  li_io : counter_inv (lc_io_active (sys_lc s)) (count in_io (sys_clients s))
            (io_locked (sys_rem s));
  li_pcs : Forall pc_ok (sys_clients s)
}.

Lemma lc_initial_inv n : lc_inv (lc_initial n).
Proof.
  constructor; simpl; rewrite ?count_replicate by done; try done.
  by apply Forall_replicate.
Qed.

Lemma client_step_inv lc pc lc' pc' cs i r :
  cs !! i = Some pc -> client_step (lc, pc) (lc', pc') ->
  lc_inv (mk_sys lc cs r) -> lc_inv (mk_sys lc' (<[i := pc']> cs) r).
Proof.
  intros Hi Hs [Ho Hio Hp]. simpl in *.
  pose proof (count_nonneg holds_open cs). pose proof (count_nonneg in_io cs).
  pose proof (count_zero holds_open cs i pc) as Zo. pose proof (count_zero in_io cs i pc) as Zi.
  pose proof (Forall_lookup_1 _ _ _ _ Hp Hi) as Hpc.
  constructor; simpl; [rewrite (count_insert _ _ _ _ _ Hi)..|apply Forall_insert; [done|]];
    unfold counter_inv, DEV_LC_LOCKED in *;
    inversion Hs; subst; simpl in *; try done; try lia;
    destruct (opens_locked r), (io_locked r); simpl in *; try lia;
    try (specialize (Zo (proj2 Ho) Hi); done); try (specialize (Zi (proj2 Hio) Hi); done).
Qed.

Lemma lc_step_inv s s' : lc_step s s' -> lc_inv s -> lc_inv s'.
Proof.
  intros Hs I. destruct Hs as [lc lc' cs i pc pc' r Hi Hc|lc lc' cs r r' Hr].
  - by eapply client_step_inv.
  - destruct I as [Ho Hio Hp]. simpl in *.
    inversion Hr; subst; constructor; simpl in *; unfold counter_inv, DEV_LC_LOCKED in *;
      simpl in *; try done; lia.
Qed.

Lemma lc_reachable_inv n s : rtc lc_step (lc_initial n) s -> lc_inv s.
Proof.
  intros H. assert (∀ s0, rtc lc_step s0 s -> lc_inv s0 -> lc_inv s) as HH.
  { clear H. intros s0 H. induction H; eauto using lc_step_inv. }
  eauto using lc_initial_inv.
Qed.

(** C4: Teardown safety. In every state that any number of clients and the remover can
    reach by interleaving their atomic steps, once [dev_lc_remove_drain] has returned
    MINI_OK no client holds an open and none is inside an I/O operation, both counters read
    -1, and no step of a client gives it an open or an I/O again until
    [dev_lc_remove_finish]. *)
Theorem drained_no_users n s :
  rtc lc_step (lc_initial n) s -> sys_rem s = RDrained ->
  lc_opens (sys_lc s) = DEV_LC_LOCKED /\ lc_io_active (sys_lc s) = DEV_LC_LOCKED /\
  (∀ i pc, sys_clients s !! i = Some pc -> holds_open pc = false /\ in_io pc = false) /\
  (∀ s', lc_step s s' -> ∀ i pc, sys_clients s' !! i = Some pc ->
     holds_open pc = false /\ in_io pc = false).
Proof.
  intros Hr Hd. pose proof (lc_reachable_inv n s Hr) as I.
  assert (Hno : ∀ s, lc_inv s -> sys_rem s = RDrained ->
            ∀ i pc, sys_clients s !! i = Some pc -> holds_open pc = false /\ in_io pc = false).
  { clear. intros s [Ho Hio _] Hd i pc Hi. rewrite Hd in *. simpl in *.
    split; [apply (count_zero _ (sys_clients s) i)|apply (count_zero _ (sys_clients s) i)];
      try done; [apply Ho|apply Hio]. }
  pose proof (li_opens s I) as Ho. pose proof (li_io s I) as Hio. rewrite Hd in Ho, Hio.
  split; [apply Ho|]. split; [apply Hio|]. split; [by apply Hno|].
  intros s' Hs'. apply Hno; [by eapply lc_step_inv|].
  inversion Hs' as [|lc lc' cs r r' Hrem]; subst; simpl in *; [done|]. subst r. inversion Hrem.
Qed.

(** One step of a concrete interleaving: task [i] by the rule [c], or the remover by [c]. *)
Ltac client i c :=
  eapply rtc_l; [try apply or_introl; eapply (step_client _ _ _ i); [reflexivity|apply c; (done || lia)]|simpl].
Ltac remover c := eapply rtc_l; [try apply or_introl; eapply step_remover, c; done|simpl].
Ltac finish c := eapply rtc_l; [apply or_intror, c|simpl].

(** Two clients: one opens and closes, the other is refused after the drain has begun. *)
Definition drained_example : lc_system :=
  mk_sys (mk_lc (-1) (-1) DEV_LC_REMOVING) [CIdle; COpenLoaded (-1)] RDrained.

Lemma drained_example_reachable : rtc lc_step (lc_initial 2) drained_example.
Proof.
  unfold lc_initial. simpl.
  client 0%nat cs_open.
  client 0%nat cs_open_load.
  client 0%nat cs_open_live.
  remover rs_start.
  client 0%nat cs_open_cas.
  remover rs_enter.
  client 0%nat cs_close.
  client 0%nat cs_close_load.
  client 0%nat cs_close_cas.
  remover rs_opens_cas.
  client 1%nat cs_open.
  client 1%nat cs_open_load.
  remover rs_io_cas.
  apply rtc_refl.
Qed.

Lemma drained_no_users_witness :
  lc_opens (sys_lc drained_example) = DEV_LC_LOCKED /\
  holds_open (COpenLoaded (-1)) = false /\ in_io (COpenLoaded (-1)) = false.
Proof.
  destruct (drained_no_users 2 drained_example) as (Ho & _ & H & _);
    [exact drained_example_reachable|reflexivity|].
  split; [exact Ho|]. exact (H 1%nat _ eq_refl).
Defined.

(** The guarantee ends with [dev_lc_remove_finish], which stores 0 into the counters: a
    client that loaded [opens = 0] and saw LIVE before the removal began completes its
    compare-and-swap afterwards and holds an open on an UNINITIALIZED device. *)
Theorem open_after_finish_reachable :
  rtc lc_full_step (lc_initial 1) (mk_sys (mk_lc 1 0 DEV_LC_UNINITIALIZED) [COpen] RIdle).
Proof.
  unfold lc_initial. simpl.
  client 0%nat cs_open.
  client 0%nat cs_open_load.
  client 0%nat cs_open_live.
  remover rs_start.
  remover rs_enter.
  remover rs_opens_cas.
  remover rs_io_cas.
  finish finish_opens.
  finish finish_io.
  finish finish_state.
  client 0%nat cs_open_cas.
  apply rtc_refl.
Qed.
