(* ===== verification/Interrupt.v ===== *)
(** * Virtual interrupts and bottom halves

    Models src/interrupt/interrupt.c and interrupt.h: the VIRQ table, the bottom-half work
    items with their pending/executing/rerun flags, and the poller of the bare-metal main
    loop.  A work item is addressed by its pointer, an integer, NULL being 0; the work
    items are a memory from pointers to records.  The queue is any [BoundedQueue] (the SPSC
    FIFO is one).  An interrupt runs to completion between two instructions of the main
    loop and no other interrupt that submits preempts it, so the consumer
    [bottom_half_run_pending], with the queue write of a rerun inside it, is cut at its atomic
    accesses and the interrupt's submit is one step.  (A queue read of the consumer is one
    step too: what it shares with the interrupts is one load or one store of a counter.) *)

From S2P Require Import Prelude Status Ring Fifo.
From stdpp Require Import relations.

#[local] Open Scope Z_scope.

Record bottom_half_work := mk_work {
  bw_fn : option Z;        (** the handler, None for NULL *)
  bw_arg : Z;
  bw_pending : bool;
  bw_executing : bool;
  bw_rerun : bool
}.

Definition set_pending (b : bool) (w : bottom_half_work) :=
  mk_work (bw_fn w) (bw_arg w) b (bw_executing w) (bw_rerun w).
Definition set_executing (b : bool) (w : bottom_half_work) :=
  mk_work (bw_fn w) (bw_arg w) (bw_pending w) b (bw_rerun w).
Definition set_rerun (b : bool) (w : bottom_half_work) :=
  mk_work (bw_fn w) (bw_arg w) (bw_pending w) (bw_executing w) b.

Definition BOTTOM_HALF_WORK_INIT (work_fn : option Z) (work_arg : Z) : bottom_half_work :=
  mk_work work_fn work_arg false false false.

Definition BOTTOM_HALF_QUEUE_DEPTH : Z := 32.

(** The memory of work items and its update at a pointer. *)
Definition work_mem := Z -> bottom_half_work.
Definition mem_upd (m : work_mem) (p : Z) (f : bottom_half_work -> bottom_half_work) : work_mem :=
  fun q => if decide (q = p) then f (m q) else m q.

Lemma mem_upd_eq m p f : mem_upd m p f p = f (m p).
Proof. unfold mem_upd. by rewrite decide_True. Qed.
Lemma mem_upd_ne m p f q : q ≠ p -> mem_upd m p f q = m q.
Proof. intros. unfold mem_upd. by rewrite decide_False. Qed.

(** Case analysis on whether a pointer is the updated one. *)
Ltac upd_case w v :=
  destruct (decide (w = v)) as [->|?];
  [rewrite ?mem_upd_eq|rewrite ?(mem_upd_ne _ v _ w) by done].

(** The write of a queue cut at its accesses: the loads of the pointers with the test for
    room, the store of the element, the store of the write pointer.  Undisturbed, the three
    are [bq_write]. *)
Class SplitQueue (Q : Type) `{BoundedQueue Q} := {
  bq_begin : Q -> option Z;          (** the write pointer, None when full *)
  bq_fill : Q -> Z -> Z -> option Q;
  bq_publish : Q -> Z -> Q;
  bq_split_spec q x :
    bq_inv q ->
    (length (bq_contents q) = bq_cap q /\ bq_begin q = None) \/
    (∃ t q1, bq_begin q = Some t /\ bq_fill q t x = Some q1 /\ bq_inv q1 /\
       bq_contents q1 = bq_contents q /\ bq_cap q1 = bq_cap q /\
       bq_inv (bq_publish q1 t) /\ bq_cap (bq_publish q1 t) = bq_cap q /\
       bq_contents (bq_publish q1 t) = bq_contents q ++ [x])
}.

Section bottom_half.
Context {Q : Type} `{SplitQueue Q}.

Definition bottom_half_submit_from_isr (fifo : option Q) (m : work_mem) (work : Z)
    : option (Z * option Q * work_mem) :=
  match fifo with
  | None => Some (MINI_ERR_INVAL, None, m)
  | Some q =>
      if (work =? 0) || bool_decide (bw_fn (m work) = None)
      then Some (MINI_ERR_INVAL, fifo, m) else
      if bw_pending (m work) then
        Some (MINI_OK, fifo,
              if bw_executing (m work) then mem_upd m work (set_rerun true) else m)
      else
        let m1 := mem_upd m work (set_pending true) in
        '(r, q1) ← bq_write q work;
        if negb (r =? BUFF_OK)
        then Some (MINI_ERR_NOSPC, Some q1, mem_upd m1 work (set_pending false))
        else Some (MINI_OK, Some q1, m1)
  end.

(** ** The poller *)

(** Where the main loop stands in [bottom_half_poller_run] and [bottom_half_run_pending]. *)
Inductive consumer_pc :=
  | PIdle                 (** outside bottom_half_poller_run *)
  | PRead                 (** before fifo_read_data *)
  | PSetExec (w : Z)      (** before executing = true *)
  | PCall (w : Z)         (** before work->fn(work->arg) *)
  | PClrExec (w : Z)      (** fn running or returned, before executing = false *)
  | PClrPending (w : Z)   (** before pending = false *)
  | PXchg (w : Z)         (** before the exchange of rerun *)
  | PRerun (w : Z)        (** before the exchange of pending in bottom_half_submit_rerun *)
  | PLoad (w : Z)         (** in its fifo_write_data, before the loads of the pointers *)
  | PFill (w t : Z)       (** the write pointer was [t]; before the store of the element *)
  | PPublish (w t : Z)    (** before the store of the write pointer *)
  | PUnpend (w : Z)       (** the queue was full; before pending = false *)
  | PSetExec2 (w : Z)     (** run fn again directly *)
  | PCall2 (w : Z)
  | PClrExec2 (w : Z).

#[export] Instance consumer_pc_eq_dec : EqDecision consumer_pc.
Proof. solve_decision. Defined.

Record bottom_half_poller := mk_poller {
  p_fifo : Q;
  p_pending_drain : bool;
  p_mem : work_mem;
  p_pc : consumer_pc;
  p_log : list Z           (** the works whose fn has been started, oldest first *)
}.

Definition goto (s : bottom_half_poller) (pc : consumer_pc) : bottom_half_poller :=
  mk_poller (p_fifo s) (p_pending_drain s) (p_mem s) pc (p_log s).
Definition goto_mem (s : bottom_half_poller) (m : work_mem) (pc : consumer_pc) :=
  mk_poller (p_fifo s) (p_pending_drain s) m pc (p_log s).
Definition goto_queue (s : bottom_half_poller) (q : Q) (pc : consumer_pc) :=
  mk_poller q (p_pending_drain s) (p_mem s) pc (p_log s).
Definition goto_call (s : bottom_half_poller) (w : Z) (pc : consumer_pc) :=
  mk_poller (p_fifo s) (p_pending_drain s) (p_mem s) pc (p_log s ++ [w]).

Definition bottom_half_poller_submit (s : bottom_half_poller) (work : Z)
    : option (Z * bottom_half_poller) :=
  '(ret, q, m) ← bottom_half_submit_from_isr (Some (p_fifo s)) (p_mem s) work;
  q ← q;
  Some (ret, mk_poller q (if ret =? MINI_OK then true else p_pending_drain s) m (p_pc s)
               (p_log s)).

(** [bottom_half_submit_rerun], one access at a time.  It returns MINI_OK where the next
    stand is [PRead], for the caller then leaves the inner loop. *)
Definition bottom_half_submit_rerun (s : bottom_half_poller) : option bottom_half_poller :=
  match p_pc s with
  | PRerun w =>
      if bw_pending (p_mem s w) then Some (goto s PRead)
      else Some (goto_mem s (mem_upd (p_mem s) w (set_pending true)) (PLoad w))
  | PLoad w =>
      match bq_begin (p_fifo s) with
      | Some t => Some (goto s (PFill w t))
      | None => Some (goto s (PUnpend w))
      end
  | PFill w t => q ← bq_fill (p_fifo s) t w; Some (goto_queue s q (PPublish w t))
  | PPublish w t => Some (goto_queue s (bq_publish (p_fifo s) t) PRead)
  | PUnpend w => Some (goto_mem s (mem_upd (p_mem s) w (set_pending false)) (PSetExec2 w))
  | _ => Some s
  end.

(** The loop of [bottom_half_run_pending], one atomic access (or one handler) at a time. *)
Definition bottom_half_run_pending_step (s : bottom_half_poller) : option bottom_half_poller :=
  match p_pc s with
  | PIdle => Some s
  | PRead =>
      '(r, elem, q) ← bq_read (p_fifo s);
      Some (mk_poller q (p_pending_drain s) (p_mem s)
              (if r =? BUFF_OK then PSetExec elem else PIdle) (p_log s))
  | PSetExec w => Some (goto_mem s (mem_upd (p_mem s) w (set_executing true)) (PCall w))
  | PCall w => Some (goto_call s w (PClrExec w))
  | PClrExec w => Some (goto_mem s (mem_upd (p_mem s) w (set_executing false)) (PClrPending w))
  | PClrPending w => Some (goto_mem s (mem_upd (p_mem s) w (set_pending false)) (PXchg w))
  | PXchg w =>
      if bw_rerun (p_mem s w)
      then Some (goto_mem s (mem_upd (p_mem s) w (set_rerun false)) (PRerun w))
      else Some (goto s PRead)
  | PRerun _ | PLoad _ | PFill _ _ | PPublish _ _ | PUnpend _ => bottom_half_submit_rerun s
  | PSetExec2 w => Some (goto_mem s (mem_upd (p_mem s) w (set_executing true)) (PCall2 w))
  | PCall2 w => Some (goto_call s w (PClrExec2 w))
  | PClrExec2 w => Some (goto_mem s (mem_upd (p_mem s) w (set_executing false)) (PXchg w))
  end.

(** [bottom_half_poller_run]: return unless work was submitted, else clear the flag and
    start draining. *)
Definition bottom_half_poller_run (s : bottom_half_poller) : option bottom_half_poller :=
  match p_pc s with
  | PIdle =>
      if p_pending_drain s then Some (mk_poller (p_fifo s) false (p_mem s) PRead (p_log s))
      else Some s
  | _ => bottom_half_run_pending_step s
  end.

(** Between the load and the store of the write pointer by a rerun. *)
Definition in_rerun_write (pc : consumer_pc) : bool :=
  match pc with PFill _ _ | PPublish _ _ => true | _ => false end.

(** A submit of [w] that, when it falls into the queue write of a rerun, does not write the
    queue itself, because [w] is pending already. *)
Definition calm (s : bottom_half_poller) (w : Z) : Prop :=
  in_rerun_write (p_pc s) = true -> bw_pending (p_mem s w) = true.

(** The main loop advances, or an interrupt submits a work item. *)
Inductive bh_step : bottom_half_poller -> bottom_half_poller -> Prop :=
  | bh_main s s' : bottom_half_poller_run s = Some s' -> bh_step s s'
  | bh_isr s w r s' : calm s w -> bottom_half_poller_submit s w = Some (r, s') -> bh_step s s'.

(** ** The invariant *)

(** The main loop keeps [pending] of [w] set without [w] being queued. *)
Definition runs_before_clear (pc : consumer_pc) (w : Z) : bool :=
  match pc with
  | PSetExec v | PCall v | PClrExec v | PClrPending v
  | PLoad v | PFill v _ | PPublish v _ | PUnpend v => bool_decide (v = w)
  | _ => false
  end.
Definition runs_executing (pc : consumer_pc) (w : Z) : bool :=
  match pc with PCall v | PClrExec v | PCall2 v | PClrExec2 v => bool_decide (v = w) | _ => false end.

(** The write of a rerun under way started from the queue there is. *)
Definition ticket_ok (q : Q) (pc : consumer_pc) : Prop :=
  match pc with
  | PFill _ t => bq_begin q = Some t
  | PPublish w t => ∃ q0, bq_inv q0 /\ bq_begin q0 = Some t /\ bq_fill q0 t w = Some q
  | _ => True
  end.

Record bh_inv (s : bottom_half_poller) : Prop := {
  bi_q : bq_inv (p_fifo s);
  bi_ticket : ticket_ok (p_fifo s) (p_pc s);
  bi_nodup : NoDup (bq_contents (p_fifo s));
  bi_queued w : w ∈ bq_contents (p_fifo s) ->
                bw_pending (p_mem s w) = true /\ runs_before_clear (p_pc s) w = false;
  bi_pending w : bw_pending (p_mem s w) = true ->
                 w ∈ bq_contents (p_fifo s) \/ runs_before_clear (p_pc s) w = true;
  bi_running w : runs_before_clear (p_pc s) w = true -> bw_pending (p_mem s w) = true;
  bi_exec w : bw_executing (p_mem s w) = runs_executing (p_pc s) w;
  bi_drain : p_pc s = PIdle -> bq_contents (p_fifo s) ≠ [] -> p_pending_drain s = true
}.

(** A run of [w] is due: it is queued, about to start, or recorded for a rerun that the
    consumer is still going to look at. *)
Definition owed (s : bottom_half_poller) (w : Z) : Prop :=
  w ∈ bq_contents (p_fifo s) \/
  match p_pc s with
  | PSetExec v | PCall v | PRerun v | PLoad v | PFill v _ | PPublish v _ | PUnpend v
  | PSetExec2 v | PCall2 v => v = w
  | PClrExec v | PClrPending v | PXchg v | PClrExec2 v => v = w /\ bw_rerun (p_mem s w) = true
  | _ => False
  end.

Lemma runs_before_clear_true pc w :
  runs_before_clear pc w = true ->
  pc = PSetExec w \/ pc = PCall w \/ pc = PClrExec w \/ pc = PClrPending w \/
  pc = PLoad w \/ (∃ t, pc = PFill w t) \/ (∃ t, pc = PPublish w t) \/ pc = PUnpend w.
Proof. destruct pc; simpl; rewrite ?bool_decide_eq_true; naive_solver. Qed.

(** A step that only changes flags and the program counter keeps the invariant when the
    flags stay in line with the program counter. *)
Lemma bh_inv_flags s m pc log :
  bh_inv s ->
  (∀ w, bw_pending (m w) = bw_pending (p_mem s w) \/
        (bw_pending (m w) = false /\ runs_before_clear (p_pc s) w = true /\
         runs_before_clear pc w = false)) ->
  (∀ w, runs_before_clear pc w = true -> runs_before_clear (p_pc s) w = true) ->
  (∀ w, runs_before_clear (p_pc s) w = true -> runs_before_clear pc w = true \/
        bw_pending (m w) = false) ->
  (∀ w, bw_executing (m w) = runs_executing pc w) -> pc ≠ PIdle ->
  ticket_ok (p_fifo s) pc ->
  bh_inv (mk_poller (p_fifo s) (p_pending_drain s) m pc log).
Proof.
  intros [Iq It In Iqd Ip Ir Ie Id] Hp Hr Hr' He Hi Ht. constructor; simpl; try done.
  - intros w Hw. destruct (Iqd w Hw) as [Hpw Hrw]. destruct (Hp w) as [->|(_ & E & _)];
      [|congruence]. split; [done|]. destruct (runs_before_clear pc w) eqn:E; [|done].
    rewrite (Hr w E) in Hrw. done.
  - intros w Hw. destruct (Hp w) as [E|(E & _)]; [|congruence]. rewrite E in Hw.
    destruct (Ip w Hw) as [|Hrw]; [auto|]. destruct (Hr' w Hrw) as [|E']; [auto|congruence].
  - intros w Hw. destruct (Hp w) as [->|(_ & _ & E)]; [|congruence]. auto.
Qed.

(** The rerun sets [pending] of the work that nothing else holds. *)
Lemma rerun_claims s v :
  bh_inv s -> p_pc s = PRerun v -> bw_pending (p_mem s v) = false ->
  bh_inv (goto_mem s (mem_upd (p_mem s) v (set_pending true)) (PLoad v)).
Proof.
  intros [Iq It In Iqd Ip Ir Ie Id] Epc Ep. rewrite Epc in *. simpl in *.
  constructor; simpl; try done.
  - intros w Hw. destruct (Iqd w Hw) as [Hp _]. upd_case w v; simpl; [congruence|].
    split; [done|]. by apply bool_decide_eq_false.
  - intros w. upd_case w v; simpl; [right; by apply bool_decide_eq_true|].
    intros Hw. destruct (Ip w Hw); [auto|done].
  - intros w ->%bool_decide_eq_true. by rewrite mem_upd_eq.
  - intros w. upd_case w v; simpl; apply Ie.
Qed.

(** The queue with the element stored, its pointer not yet. *)
Lemma rerun_fills s v t s' :
  bh_inv s -> p_pc s = PFill v t ->
  (q ← bq_fill (p_fifo s) t v; Some (goto_queue s q (PPublish v t))) = Some s' ->
  bh_inv s' /\ bq_contents (p_fifo s') = bq_contents (p_fifo s).
Proof.
  intros [Iq It In Iqd Ip Ir Ie Id] Epc Hs. rewrite Epc in *. simpl in *.
  destruct (bq_split_spec (p_fifo s) v Iq) as [[_ E]|(t' & q1 & E & Ef & Iq1 & Ec & _)]; [congruence|].
  rewrite E in It. injection It as ->. rewrite Ef in Hs. injection Hs as <-.
  split; [|done]. constructor; simpl; rewrite ?Ec; try done. by exists (p_fifo s).
Qed.

(** The store of the pointer queues the work, whose [pending] is set already. *)
Lemma rerun_publishes s v t :
  bh_inv s -> p_pc s = PPublish v t ->
  bh_inv (goto_queue s (bq_publish (p_fifo s) t) PRead) /\
  bq_contents (bq_publish (p_fifo s) t) = bq_contents (p_fifo s) ++ [v].
Proof.
  intros [Iq It In Iqd Ip Ir Ie Id] Epc. rewrite Epc in *. simpl in *.
  destruct It as (q0 & Iq0 & Eb & Ef).
  destruct (bq_split_spec q0 v Iq0) as [[_ E]|(t' & q1 & E & Ef' & _ & Ec & _ & Ip' & _ & E')];
    [congruence|]. rewrite E in Eb. injection Eb as ->. rewrite Ef in Ef'. injection Ef' as <-.
  rewrite <- Ec in E'. split; [|done].
  assert (Hv : ¬ v ∈ bq_contents (p_fifo s)).
  { intros Hv. destruct (Iqd v Hv) as [_ Hf]. by apply bool_decide_eq_false in Hf. }
  constructor; simpl; rewrite ?E'; try done.
  - apply NoDup_app. split; [done|]. split; [|apply NoDup_singleton].
    intros x Hx ->%list_elem_of_singleton. done.
  - intros w. rewrite elem_of_app, list_elem_of_singleton. intros [Hw| ->].
    + split; [by apply Iqd|done].
    + split; [|done]. apply Ir. by apply bool_decide_eq_true.
  - intros w Hw. rewrite elem_of_app, list_elem_of_singleton. left.
    destruct (Ip w Hw) as [|Hr]; [auto|]. apply bool_decide_eq_true in Hr. by right.
Qed.

Lemma bh_main_inv s s' : bottom_half_poller_run s = Some s' -> bh_inv s -> bh_inv s'.
Proof.
  intros Hs I. pose proof (bi_exec s I) as He.
  unfold bottom_half_poller_run, bottom_half_run_pending_step in Hs.
  destruct (p_pc s) as [| |v|v|v|v|v|v|v|v t|v t|v|v|v|v] eqn:Epc; simpl in He.
  - destruct (p_pending_drain s) eqn:Ed; injection Hs as <-; [|done].
    destruct I as [Iq It In Iqd Ip Ir Ie Id]. rewrite Epc in *. constructor; simpl; done.
  - destruct I as [Iq It In Iqd Ip Ir Ie Id]. rewrite Epc in *. simpl in *.
    destruct (bq_read_spec (p_fifo s) Iq) as [[E (o & Hr)]|(x & q' & Hr & Iq' & _ & E)];
      rewrite Hr in Hs; simpl in Hs; injection Hs as <-.
    + constructor; simpl; done.
    + rewrite E in *. apply NoDup_cons in In as [Hx In]. constructor; simpl; try done.
      * intros w Hw. destruct (Iqd w) as [Hp _]; [by right|]. split; [done|].
        apply bool_decide_eq_false. by intros <-.
      * intros w Hw. rewrite bool_decide_eq_true.
        destruct (Ip w Hw) as [[->|?]%elem_of_cons|?]; [auto..|done].
      * intros w ->%bool_decide_eq_true. apply Iqd. by left.
  - injection Hs as <-. apply bh_inv_flags; try done; rewrite ?Epc; simpl; auto.
    + intros w. upd_case w v; auto.
    + intros w. upd_case w v; simpl; [by rewrite bool_decide_true|].
      rewrite He, bool_decide_false; congruence.
  - injection Hs as <-. apply bh_inv_flags; try done; rewrite ?Epc; simpl; auto.
  - injection Hs as <-. apply bh_inv_flags; try done; rewrite ?Epc; simpl; auto.
    + intros w. upd_case w v; auto.
    + intros w. upd_case w v; simpl; [done|]. rewrite He. by apply bool_decide_false.
  - injection Hs as <-. apply bh_inv_flags; try done; rewrite ?Epc; simpl; auto.
    + intros w. upd_case w v; simpl; [|auto]. right. by rewrite bool_decide_true.
    + intros w ->%bool_decide_eq_true. right. by rewrite mem_upd_eq.
    + intros w. upd_case w v; simpl; apply He.
  - destruct (bw_rerun (p_mem s v)); injection Hs as <-; apply bh_inv_flags; try done;
      rewrite ?Epc; simpl; auto; intros w; upd_case w v; simpl; auto; apply He.
  - unfold bottom_half_submit_rerun in Hs. rewrite Epc in Hs.
    destruct (bw_pending (p_mem s v)) eqn:Ep; injection Hs as <-.
    { apply bh_inv_flags; try done; rewrite ?Epc; simpl; auto. }
    by apply rerun_claims.
  - unfold bottom_half_submit_rerun in Hs. rewrite Epc in Hs.
    destruct (bq_begin (p_fifo s)) as [t|] eqn:Eb; injection Hs as <-;
      apply bh_inv_flags; try done; rewrite ?Epc; simpl; auto.
  - unfold bottom_half_submit_rerun in Hs. rewrite Epc in Hs. by apply (rerun_fills s v t s' I Epc).
  - unfold bottom_half_submit_rerun in Hs. rewrite Epc in Hs. injection Hs as <-.
    by apply (rerun_publishes s v t I Epc).
  - unfold bottom_half_submit_rerun in Hs. rewrite Epc in Hs. injection Hs as <-.
    apply bh_inv_flags; try done; rewrite ?Epc; simpl; auto.
    + intros w. upd_case w v; simpl; [|auto]. right. by rewrite bool_decide_true.
    + intros w ->%bool_decide_eq_true. right. by rewrite mem_upd_eq.
    + intros w. upd_case w v; simpl; apply He.
  - injection Hs as <-. apply bh_inv_flags; try done; rewrite ?Epc; simpl; auto.
    + intros w. upd_case w v; auto.
    + intros w. upd_case w v; simpl; [by rewrite bool_decide_true|].
      rewrite He, bool_decide_false; congruence.
  - injection Hs as <-. apply bh_inv_flags; try done; rewrite ?Epc; simpl; auto.
  - injection Hs as <-. apply bh_inv_flags; try done; rewrite ?Epc; simpl; auto.
    + intros w. upd_case w v; auto.
    + intros w. upd_case w v; simpl; [done|]. rewrite He. by apply bool_decide_false.
Qed.

(** What a submit does to the poller, branch by branch. *)
Lemma poller_submit_cases s w r s' :
  bh_inv s -> bottom_half_poller_submit s w = Some (r, s') ->
  p_pc s' = p_pc s /\ p_log s' = p_log s /\
  ((r = MINI_ERR_INVAL /\ s' = s) \/
   (r = MINI_OK /\ bw_pending (p_mem s w) = true /\ p_fifo s' = p_fifo s /\
    p_pending_drain s' = true /\
    p_mem s' = (if bw_executing (p_mem s w) then mem_upd (p_mem s) w (set_rerun true)
                else p_mem s)) \/
   (r = MINI_ERR_NOSPC /\ bw_pending (p_mem s w) = false /\ p_fifo s' = p_fifo s /\
    length (bq_contents (p_fifo s)) = bq_cap (p_fifo s) /\
    p_pending_drain s' = p_pending_drain s /\
    p_mem s' = mem_upd (mem_upd (p_mem s) w (set_pending true)) w (set_pending false)) \/
   (r = MINI_OK /\ bw_pending (p_mem s w) = false /\ p_pending_drain s' = true /\
    bq_inv (p_fifo s') /\ bq_contents (p_fifo s') = bq_contents (p_fifo s) ++ [w] /\
    bq_cap (p_fifo s') = bq_cap (p_fifo s) /\
    p_mem s' = mem_upd (p_mem s) w (set_pending true))).
Proof.
  intros I. unfold bottom_half_poller_submit, bottom_half_submit_from_isr.
  destruct ((w =? 0) || _).
  { simpl. intros [= <- <-]. destruct s. simpl. auto. }
  destruct (bw_pending (p_mem s w)) eqn:Ep; simpl.
  { intros [= <- <-]. simpl. split; [done|]. split; [done|]. right. left. done. }
  destruct (bq_write_spec (p_fifo s) w (bi_q s I)) as [[Hf ->]|(q' & -> & Iq' & Hc & _ & E)]; simpl;
    intros [= <- <-]; simpl; (split; [done|]); (split; [done|]); right; right;
    [left|right]; auto 10.
Qed.

Lemma bh_isr_inv s w r s' :
  calm s w -> bottom_half_poller_submit s w = Some (r, s') -> bh_inv s -> bh_inv s'.
Proof.
  intros Hk Hs I. destruct (poller_submit_cases s w r s' I Hs) as (Epc & _ & Hc).
  destruct I as [Iq It In Iqd Ip Ir Ie Id].
  destruct Hc as [[_ ->]|[(_ & Hp & Ef & Ed & Em)|[(_ & Hp & Ef & _ & Ed & Em)
                 |(_ & Hp & Ed & Iq' & E & _ & Em)]]]; [by constructor|..].
  - constructor; rewrite ?Epc, ?Ef, ?Ed, ?Em; try done; intros u;
      destruct (bw_executing (p_mem s w)); auto; upd_case u w; simpl in *; auto.
  - constructor; rewrite ?Epc, ?Ef, ?Ed, ?Em; try done.
    + intros u Hu. upd_case u w; simpl; [destruct (Iqd w Hu); congruence|auto].
    + intros u. upd_case u w; simpl; [done|auto].
    + intros u Hu. upd_case u w; simpl; [pose proof (Ir w Hu); congruence|auto].
    + intros u. upd_case u w; simpl; apply Ie.
  - assert (Hw : ¬ w ∈ bq_contents (p_fifo s)) by (intros Hw; destruct (Iqd w Hw); congruence).
    assert (Hr : runs_before_clear (p_pc s) w = false).
    { destruct (runs_before_clear (p_pc s) w) eqn:Er; [|done]. pose proof (Ir w Er). congruence. }
    constructor; rewrite ?Epc, ?E, ?Ed, ?Em; try done.
    + unfold calm in Hk. destruct (p_pc s); try done; simpl in Hk; by rewrite Hk in Hp.
    + apply NoDup_app. split; [done|]. split; [|apply NoDup_singleton].
      intros x Hx ->%list_elem_of_singleton. done.
    + intros u. rewrite elem_of_app, list_elem_of_singleton. intros Hu.
      upd_case u w; simpl; [done|]. destruct Hu as [Hu|?]; [auto|done].
    + intros u. rewrite elem_of_app, list_elem_of_singleton. upd_case u w; simpl; [auto|].
      intros Hu. destruct (Ip u Hu); auto.
    + intros u Hu. upd_case u w; simpl; auto.
    + intros u. upd_case u w; simpl; apply Ie.
Qed.

Lemma bh_step_inv s s' : bh_step s s' -> bh_inv s -> bh_inv s'.
Proof. intros []; eauto using bh_main_inv, bh_isr_inv. Qed.

Lemma bh_steps_inv s s' : rtc bh_step s s' -> bh_inv s -> bh_inv s'.
Proof. induction 1; eauto using bh_step_inv. Qed.

(** ** Due runs are not lost *)

Lemma owed_main s s' w :
  bh_inv s -> bottom_half_poller_run s = Some s' -> owed s w ->
  owed s' w \/ p_log s' = p_log s ++ [w].
Proof.
  intros I Hs Ho. unfold bottom_half_poller_run, bottom_half_run_pending_step in Hs.
  unfold owed in *.
  destruct (p_pc s) as [| |v|v|v|v|v|v|v|v t|v t|v|v|v|v] eqn:Epc.
  - destruct (p_pending_drain s); injection Hs as <-; simpl; rewrite ?Epc; auto.
  - destruct (bq_read_spec (p_fifo s) (bi_q s I)) as [[E (o & Hr)]|(x & q' & Hr & _ & _ & E)];
      rewrite Hr in Hs; simpl in Hs; injection Hs as <-; simpl.
    + rewrite E in Ho. destruct Ho as [Ho|[]]. by apply elem_of_nil in Ho.
    + rewrite E in Ho. destruct Ho as [[->|?]%elem_of_cons|[]]; auto.
  - injection Hs as <-. simpl. auto.
  - injection Hs as <-. simpl. destruct Ho as [?| ->]; auto.
  - injection Hs as <-. simpl. destruct Ho as [?|[-> ?]]; [auto|].
    left. right. by rewrite mem_upd_eq.
  - injection Hs as <-. simpl. destruct Ho as [?|[-> ?]]; [auto|].
    left. right. by rewrite mem_upd_eq.
  - destruct (bw_rerun (p_mem s v)) eqn:Er; injection Hs as <-; simpl;
      destruct Ho as [?|[-> ?]]; auto. congruence.
  - unfold bottom_half_submit_rerun in Hs. rewrite Epc in Hs.
    destruct (bw_pending (p_mem s v)) eqn:Ep; injection Hs as <-; simpl; [|auto].
    destruct Ho as [?| ->]; [auto|]. left. left.
    destruct (bi_pending s I w Ep) as [|Hr]; [done|]. rewrite Epc in Hr. done.
  - unfold bottom_half_submit_rerun in Hs. rewrite Epc in Hs.
    destruct (bq_begin (p_fifo s)); injection Hs as <-; simpl; auto.
  - unfold bottom_half_submit_rerun in Hs. rewrite Epc in Hs.
    destruct (rerun_fills s v t s' I Epc Hs) as [_ E].
    apply bind_Some in Hs as (q & _ & [= <-]). simpl in *. rewrite E. auto.
  - unfold bottom_half_submit_rerun in Hs. rewrite Epc in Hs. injection Hs as <-. simpl.
    destruct (rerun_publishes s v t I Epc) as [_ ->].
    rewrite elem_of_app, list_elem_of_singleton. destruct Ho as [?| ->]; auto.
  - unfold bottom_half_submit_rerun in Hs. rewrite Epc in Hs. injection Hs as <-. simpl. auto.
  - injection Hs as <-. simpl. auto.
  - injection Hs as <-. simpl. destruct Ho as [?| ->]; auto.
  - injection Hs as <-. simpl. destruct Ho as [?|[-> ?]]; [auto|].
    left. right. by rewrite mem_upd_eq.
Qed.

Lemma owed_isr s v r s' w :
  bh_inv s -> bottom_half_poller_submit s v = Some (r, s') -> owed s w -> owed s' w.
Proof.
  intros I Hs Ho. destruct (poller_submit_cases s v r s' I Hs) as (Epc & _ & Hc).
  unfold owed in *. rewrite Epc.
  assert (Hq : w ∈ bq_contents (p_fifo s) -> w ∈ bq_contents (p_fifo s')).
  { destruct Hc as [[_ ->]|[(_ & _ & -> & _)|[(_ & _ & -> & _)|(_ & _ & _ & _ & -> & _)]]];
      [done..|]. intros. apply elem_of_app. auto. }
  assert (Hr : bw_rerun (p_mem s w) = true -> bw_rerun (p_mem s' w) = true).
  { destruct Hc as [[_ ->]|[(_ & _ & _ & _ & ->)|[(_ & _ & _ & _ & _ & ->)
                   |(_ & _ & _ & _ & _ & _ & ->)]]]; [done|..];
      try destruct (bw_executing (p_mem s v)); intros; upd_case w v; simpl; auto. }
  destruct Ho as [|Ho]; [auto|]. right. destruct (p_pc s); try done; naive_solver.
Qed.

Lemma bh_log_step s s' : bh_inv s -> bh_step s s' -> ∃ new, p_log s' = p_log s ++ new.
Proof.
  intros I Hst. revert I. destruct Hst as [s1 s2 Hs|s1 v r s2 _ Hs]; intros I.
  - unfold bottom_half_poller_run, bottom_half_run_pending_step in Hs.
    assert (Hnil : ∃ new, p_log s1 = p_log s1 ++ new) by (exists []; by rewrite app_nil_r).
    unfold bottom_half_submit_rerun in Hs.
    destruct (p_pc s1) as [| |v|v|v|v|v|v|v|v t|v t|v|v|v|v];
      try (injection Hs as <-; simpl; first [exact Hnil|by eexists]).
    + destruct (p_pending_drain s1); injection Hs as <-; done.
    + apply bind_Some in Hs as ([[??]?] & _ & [= <-]). done.
    + destruct (bw_rerun (p_mem s1 v)); injection Hs as <-; done.
    + destruct (bw_pending (p_mem s1 v)); injection Hs as <-; done.
    + destruct (bq_begin (p_fifo s1)); injection Hs as <-; done.
    + apply bind_Some in Hs as (? & _ & [= <-]). done.
  - destruct (poller_submit_cases s1 v r s2 I Hs) as (_ & -> & _). exists [].
    by rewrite app_nil_r.
Qed.

Lemma owed_steps s s' w :
  bh_inv s -> rtc bh_step s s' -> owed s w ->
  ∃ new, p_log s' = p_log s ++ new /\ (w ∈ new \/ owed s' w).
Proof.
  intros I Hs. induction Hs as [s|s1 s2 s3 H12 H23 IH]; intros Ho.
  { exists []. rewrite app_nil_r. auto. }
  pose proof (bh_step_inv _ _ H12 I) as I2.
  assert (Hlog : ∀ s s', bh_inv s -> rtc bh_step s s' -> ∃ new, p_log s' = p_log s ++ new).
  { clear. intros s s' I Hs. induction Hs as [s|s1 s2 s3 H12 H23 IH].
    - exists []. by rewrite app_nil_r.
    - destruct (bh_log_step s1 s2 I H12) as [n1 E1].
      destruct (IH (bh_step_inv _ _ H12 I)) as [n2 E2]. exists (n1 ++ n2).
      by rewrite E2, E1, app_assoc. }
  assert (Hn : owed s2 w \/ p_log s2 = p_log s1 ++ [w]).
  { revert I Ho. destruct H12 as [sa sb Hm|sa v r sb _ Hm]; intros I Ho;
      [by eapply owed_main|left; by eapply owed_isr]. }
  destruct Hn as [Ho2|E].
  - destruct (bh_log_step s1 s2 I H12) as [n1 E1]. destruct (IH I2 Ho2) as (n2 & E2 & Hn2).
    exists (n1 ++ n2). rewrite E2, E1, app_assoc. split; [done|]. rewrite elem_of_app. naive_solver.
  - destruct (Hlog s2 s3 I2 H23) as [n2 E2]. exists ([w] ++ n2).
    rewrite E2, E, app_assoc. split; [done|]. left. rewrite elem_of_app, list_elem_of_singleton. auto.
Qed.

(** A successful submit makes a run due, unless the consumer is between clearing
    [executing] and clearing [pending] of this very work. *)
Lemma submit_owed s w s' :
  bh_inv s -> bottom_half_poller_submit s w = Some (MINI_OK, s') ->
  p_pc s ≠ PClrPending w -> owed s' w.
Proof.
  intros I Hs Hpc. destruct (poller_submit_cases s w MINI_OK s' I Hs) as (Epc & _ & Hc).
  unfold owed. rewrite Epc.
  destruct Hc as [[? _]|[(_ & Hp & -> & _ & ->)|[(? & _)|(_ & _ & _ & _ & -> & _)]]]; try done.
  - destruct (bi_pending s I w Hp) as [|Hr]; [auto|]. right.
    pose proof (bi_exec s I w) as He.
    apply runs_before_clear_true in Hr as [E|[E|[E|[E|[E|[[t E]|[[t E]|E]]]]]]];
      rewrite E in *; simpl in He |- *; try done.
    rewrite bool_decide_true in He by done. rewrite He, mem_upd_eq. done.
  - left. rewrite elem_of_app, list_elem_of_singleton. auto.
Qed.

Definition poller_initial (q : Q) (m : work_mem) : bottom_half_poller :=
  mk_poller q false m PIdle [].

Lemma poller_initial_inv q m :
  bq_inv q -> bq_contents q = [] ->
  (∀ w, bw_pending (m w) = false /\ bw_executing (m w) = false) ->
  bh_inv (poller_initial q m).
Proof.
  intros Iq E Hm. constructor; simpl; rewrite ?E; try done.
  - apply NoDup_nil_2.
  - by intros w ?%elem_of_nil.
  - intros w Hw. destruct (Hm w). congruence.
  - intros w. apply Hm.
Qed.

(** C5: No trigger is lost, outside two windows. From an empty poller, under every
    interleaving of the accesses of the main loop with interrupts that submit, one at a time,
    and do not write the queue while the main loop is between the load and the store of the
    write pointer for a rerun (the first window): if a submit of [w] returns MINI_OK and the
    consumer is not between clearing [executing] and clearing [pending] of [w] (the second),
    then in every later state the handler of [w] has been started since, or a run of it is
    still due; and when the main loop is idle with nothing flagged, it has been started.
    Submits of work items that are pending already may fall into the first window; what
    others do there shows [trigger_lost_in_rerun_write]. *)
Theorem submit_not_lost q m s w s1 s2 :
  bq_inv q -> bq_contents q = [] ->
  (∀ w, bw_pending (m w) = false /\ bw_executing (m w) = false) ->
  rtc bh_step (poller_initial q m) s ->
  bottom_half_poller_submit s w = Some (MINI_OK, s1) -> p_pc s ≠ PClrPending w -> calm s w ->
  rtc bh_step s1 s2 ->
  ∃ new, p_log s2 = p_log s1 ++ new /\ (w ∈ new \/ owed s2 w) /\
         (p_pc s2 = PIdle -> p_pending_drain s2 = false -> w ∈ new).
Proof.
  intros Iq Eq Hm Hr Hs Hpc Hk H12.
  pose proof (bh_steps_inv _ _ Hr (poller_initial_inv q m Iq Eq Hm)) as I.
  pose proof (bh_isr_inv _ _ _ _ Hk Hs I) as I1.
  destruct (owed_steps s1 s2 w I1 H12 (submit_owed s w s1 I Hs Hpc)) as (new & E & Hn).
  exists new. split; [done|]. split; [done|]. intros Hi Hd. destruct Hn as [|Ho]; [done|].
  pose proof (bh_steps_inv _ _ H12 I1) as I2. unfold owed in Ho. rewrite Hi in Ho.
  destruct Ho as [Ho|[]]. exfalso.
  assert (bq_contents (p_fifo s2) ≠ []) as Hne by (intros E0; rewrite E0 in Ho; by apply elem_of_nil in Ho).
  pose proof (bi_drain s2 I2 Hi Hne). congruence.
Qed.

(** A work item is never queued twice, so a queue as deep as the number of work items
    in use never overflows: when the queued items and [w] are among [ws] and
    [length ws <= capacity], a submit of [w] cannot return MINI_ERR_NOSPC. *)
Theorem submit_never_full q m s w ws r s' :
  bq_inv q -> bq_contents q = [] ->
  (∀ w, bw_pending (m w) = false /\ bw_executing (m w) = false) ->
  rtc bh_step (poller_initial q m) s ->
  (∀ v, v ∈ bq_contents (p_fifo s) -> v ∈ ws) -> w ∈ ws ->
  (length ws ≤ bq_cap (p_fifo s))%nat ->
  bottom_half_poller_submit s w = Some (r, s') -> r ≠ MINI_ERR_NOSPC.
Proof.
  intros Iq Eq Hm Hr Hws Hw Hl Hs ->.
  pose proof (bh_steps_inv _ _ Hr (poller_initial_inv q m Iq Eq Hm)) as I.
  destruct (poller_submit_cases s w _ s' I Hs) as (_ & _ & Hc).
  destruct Hc as [[? _]|[(? & _)|[(_ & Hp & _ & Hf & _)|(? & _)]]]; try done.
  assert (Hn : NoDup (w :: bq_contents (p_fifo s))).
  { apply NoDup_cons. split; [|apply (bi_nodup s I)].
    intros Hq. destruct (bi_queued s I w Hq). congruence. }
  assert (w :: bq_contents (p_fifo s) ⊆+ ws) as Hsub.
  { apply NoDup_submseteq; [done|]. intros x [->|Hx]%elem_of_cons; auto. }
  apply submseteq_length in Hsub. simpl in Hsub. lia.
Qed.
End bottom_half.

Arguments bottom_half_poller : clear implicits.

(** ** The poller over the SPSC FIFO *)

(** [fifo_write_data] at its accesses. *)
Definition fifo_begin (h : fifo_spsc) : option Z :=
  if u16 (fifo_w_ptr h - fifo_r_ptr h) >=? fifo_size h then None else Some (fifo_w_ptr h).
Definition fifo_fill (h : fifo_spsc) (write_ptr data : Z) : option fifo_spsc :=
  b ← arr_set (fifo_buf h) (Z.land write_ptr (fifo_mask h)) data;
  Some (fifo_set_w h b (fifo_w_ptr h)).
Definition fifo_publish (h : fifo_spsc) (write_ptr : Z) : fifo_spsc :=
  fifo_set_w h (fifo_buf h) (u16 (write_ptr + 1)).

#[export, refine] Instance fifo_split_queue : SplitQueue fifo_spsc := {|
  bq_begin := fifo_begin; bq_fill := fifo_fill; bq_publish := fifo_publish
|}.
Proof.
  intros h x WF. unfold fifo_begin. rewrite fifo_full_test by done.
  destruct (decide (length (fifo_contents h) = fifo_cap h)) as [E|E].
  { left. by rewrite bool_decide_eq_true_2. }
  right. rewrite bool_decide_eq_false_2 by done.
  destruct (fifo_write_data_ok h x WF E) as (h' & Hw & WF' & Hc & Hs).
  unfold fifo_write_data in Hw. rewrite fifo_full_test, bool_decide_eq_false_2 in Hw by done.
  unfold fifo_fill. destruct (arr_set (fifo_buf h) _ x) as [b|] eqn:Eb; [|done].
  simpl in Hw. injection Hw as Hw. eexists _, _. split; [done|]. split; [by rewrite Eb|].
  unfold fifo_publish. simpl. assert (fifo_set_w (fifo_set_w h b (fifo_w_ptr h)) b
    (u16 (fifo_w_ptr h + 1)) = h') as -> by exact Hw.
  assert (length b = length (fifo_buf h)) as Hl.
  { unfold arr_set in Eb. destruct (_ && _); [|done]. injection Eb as <-. apply length_insert. }
  assert (fifo_wf (fifo_set_w h b (fifo_w_ptr h))) as WF1.
  { destruct WF. constructor; simpl; try done. by rewrite Hl. }
  split; [exact WF1|]. split; [|unfold fifo_cap in *; simpl; by rewrite Hl].
  rewrite fifo_contents_length in E by done. pose proof (fifo_used_le h WF).
  rewrite <- (take_app_length (fifo_contents h) [x]), <- Hs, fifo_contents_length by done.
  assert (fifo_used h' = S (fifo_used h)) as Hu.
  { rewrite <- (fifo_contents_length h'), Hs, length_app, fifo_contents_length by done. simpl. lia. }
  unfold fifo_contents. rewrite Hu, <- Hw. simpl.
  rewrite ring_slice_take by lia. f_equal.
Defined.

Definition zero_fifo : fifo_spsc := mk_fifo [] 0 0 0 0.

Definition bottom_half_poller_init (depth : Z) (m : work_mem)
    (poller : option (bottom_half_poller fifo_spsc)) : option (bottom_half_poller fifo_spsc) :=
  match poller with
  | None => None
  | Some p =>
      match fifo_init (Some (p_fifo p)) (Some (replicate (Z.to_nat depth) 0)) depth with
      | (_, Some q) => Some (mk_poller q false m (p_pc p) (p_log p))
      | (_, None) => None
      end
  end.

Definition interrupt_bottom_half_init (m : work_mem) (global_poller : bottom_half_poller fifo_spsc)
    : option (bottom_half_poller fifo_spsc) :=
  bottom_half_poller_init BOTTOM_HALF_QUEUE_DEPTH m (Some global_poller).
Definition interrupt_bottom_half_poll (global_poller : bottom_half_poller fifo_spsc)
    : option (bottom_half_poller fifo_spsc) := bottom_half_poller_run global_poller.

(** [n] steps of the main loop, no interrupt in between. *)
Fixpoint main_steps (n : nat) (s : bottom_half_poller fifo_spsc)
    : option (bottom_half_poller fifo_spsc) :=
  match n with O => Some s | S n => s' ← bottom_half_poller_run s; main_steps n s' end.

Lemma main_steps_rtc n : ∀ s s', main_steps n s = Some s' -> rtc bh_step s s'.
Proof.
  induction n as [|n IH]; intros s s' H; simpl in H.
  - injection H as ->. apply rtc_refl.
  - apply bind_Some in H as (s1 & H1 & H2). eapply rtc_l; [by apply bh_main|]. by apply IH.
Qed.

Definition two_works : work_mem := fun p => BOTTOM_HALF_WORK_INIT (Some p) p.
Definition small_poller : bottom_half_poller fifo_spsc :=
  poller_initial (mk_fifo [0; 0; 0; 0] 4 3 0 0) two_works.

Lemma small_poller_wf : fifo_wf (mk_fifo [0; 0; 0; 0] 4 3 0 0) /\
  fifo_contents (mk_fifo [0; 0; 0; 0] 4 3 0 0) = [].
Proof.
  destruct (fifo_init_wf (Some zero_fifo) [0; 0; 0; 0] 4 (mk_fifo [0; 0; 0; 0] 4 3 0 0))
    as (WF & _ & E); [unfold is_u16; lia|reflexivity|reflexivity|]. done.
Qed.

Lemma submit_not_lost_witness :
  ∃ s1 s2, bottom_half_poller_submit small_poller 100 = Some (MINI_OK, s1) /\
    main_steps 8 s1 = Some s2 /\ 100 ∈ p_log s2.
Proof.
  eexists _, _. split; [vm_compute; reflexivity|]. split; [vm_compute; reflexivity|].
  destruct (submit_not_lost (mk_fifo [0; 0; 0; 0] 4 3 0 0) two_works small_poller 100
              (mk_poller (mk_fifo [100; 0; 0; 0] 4 3 1 0) true
                 (mem_upd two_works 100 (set_pending true)) PIdle [])
              (mk_poller (mk_fifo [100; 0; 0; 0] 4 3 1 1) false
                 (mem_upd (mem_upd (mem_upd (mem_upd two_works 100 (set_pending true)) 100
                   (set_executing true)) 100 (set_executing false)) 100 (set_pending false))
                 PIdle [100]))
    as (new & E & _ & Hn).
  - apply small_poller_wf.
  - apply small_poller_wf.
  - intros w. split; reflexivity.
  - apply rtc_refl.
  - reflexivity.
  - discriminate.
  - discriminate.
  - apply (main_steps_rtc 8). reflexivity.
  - simpl in E |- *. subst new. apply Hn; reflexivity.
Defined.

Lemma submit_never_full_witness :
  ∃ s', bottom_half_poller_submit small_poller 100 = Some (MINI_OK, s') /\ MINI_OK ≠ MINI_ERR_NOSPC.
Proof.
  eexists. split; [reflexivity|].
  eapply (submit_never_full (mk_fifo [0; 0; 0; 0] 4 3 0 0) two_works small_poller 100
            [100; 101; 102; 103] MINI_OK).
  - apply small_poller_wf.
  - apply small_poller_wf.
  - intros w. split; reflexivity.
  - apply rtc_refl.
  - intros v Hv. replace (bq_contents (p_fifo small_poller)) with (@nil Z) in Hv;
      [by apply elem_of_nil in Hv|]. symmetry. apply small_poller_wf.
  - by left.
  - simpl. unfold fifo_cap. simpl. lia.
  - reflexivity.
Defined.

(** The window. A trigger that arrives after the consumer cleared [executing] and before
    it clears [pending] is acknowledged with MINI_OK and lost: no flag records it, the main
    loop goes idle, and the handler has run only once, for the first trigger. *)
Theorem trigger_lost_in_window :
  ∃ s1 s2 s3 s4,
    bottom_half_poller_submit small_poller 100 = Some (MINI_OK, s1) /\
    main_steps 5 s1 = Some s2 /\ p_pc s2 = PClrPending 100 /\ p_log s2 = [100] /\
    bottom_half_poller_submit s2 100 = Some (MINI_OK, s3) /\
    main_steps 20 s3 = Some s4 /\ p_pc s4 = PIdle /\ p_pending_drain s4 = false /\
    p_log s4 = [100].
Proof.
  eexists _, _, _, _. split; [vm_compute; reflexivity|].
  repeat (split; [vm_compute; reflexivity|]). vm_compute. reflexivity.
Qed.

(** ** Rerun and interrupts write the same FIFO

    [bottom_half_submit_rerun] runs in the main loop and writes the queue that interrupts
    write too.  The rest of a [fifo_write_data] that was interrupted after it had loaded
    the write pointer [wp]: *)
Definition fifo_write_resume (h : fifo_spsc) (wp data : Z) : option fifo_spsc :=
  b ← arr_set (fifo_buf h) (Z.land wp (fifo_mask h)) data;
  Some (fifo_set_w h b (u16 (wp + 1))).

(** Two producers. When an interrupt submits [y] while the main loop is inside the write
    of a rerun [x], after the load of the write pointer, the queue ends as if [y] had never
    been written although its submit returned MINI_OK; its [pending] flag stays set. *)
Theorem rerun_write_overwrites_isr h x y h1 h2 :
  fifo_wf h ->
  fifo_write_data (Some h) y = Some (BUFF_OK, Some h1) ->
  fifo_write_resume h1 (fifo_w_ptr h) x = Some h2 ->
  fifo_write_data (Some h) x = Some (BUFF_OK, Some h2) /\
  fifo_contents h2 = fifo_contents h ++ [x].
Proof.
  intros WF Hy Hr.
  assert (Hx : fifo_write_data (Some h) x = Some (BUFF_OK, Some h2)).
  { unfold fifo_write_data in *. destruct (u16 _ >=? _); [done|].
    unfold fifo_write_resume, arr_set in *.
    destruct ((0 <=? Z.land (fifo_w_ptr h) (fifo_mask h)) && _) eqn:E; [|done].
    simpl in Hy. injection Hy as <-. simpl in Hr. rewrite length_insert, E in Hr.
    simpl in Hr. injection Hr as <-. simpl. by rewrite list_insert_insert_eq. }
  split; [done|].
  destruct (decide (length (fifo_contents h) = fifo_cap h)) as [Ef|Ef].
  - rewrite fifo_write_data_full in Hx by done. done.
  - destruct (fifo_write_data_ok h x WF Ef) as (h' & Hx' & _ & _ & E). congruence.
Qed.

Lemma rerun_write_overwrites_isr_witness :
  fifo_contents (mk_fifo [7; 0; 0; 0] 4 3 1 0) = [7] /\
  ∃ h2, fifo_write_resume (mk_fifo [9; 0; 0; 0] 4 3 1 0) 0 7 = Some h2 /\
        fifo_contents h2 = [] ++ [7].
Proof.
  split; [reflexivity|]. eexists. split; [reflexivity|].
  apply (rerun_write_overwrites_isr (mk_fifo [0; 0; 0; 0] 4 3 0 0) 7 9
           (mk_fifo [9; 0; 0; 0] 4 3 1 0)).
  - apply small_poller_wf.
  - reflexivity.
  - reflexivity.
Defined.

(** The first window in a whole run.  The handler of 100 is submitted again while it runs, so
    it is queued anew by the main loop; an interrupt submits 101 when the main loop has loaded
    the write pointer ([early]) or also stored the element.  Every submit is answered MINI_OK.
    In the first case 101 never runs; in the second the main loop takes 101 for its own 100,
    and 100 is not run again.  The pending flag of what was lost stays set. *)
Definition rerun_race (early : bool)
    : option (Z * Z * Z * list Z * consumer_pc * bool * (bool * bool)) :=
  '(r1, s) ← bottom_half_poller_submit small_poller 100;
  s ← main_steps 4 s;
  '(r2, s) ← bottom_half_poller_submit s 100;
  s ← main_steps (if early then 5 else 6) s;
  '(r3, s) ← bottom_half_poller_submit s 101;
  s ← main_steps 40 s;
  Some (r1, r2, r3, p_log s, p_pc s, p_pending_drain s,
        (bw_pending (p_mem s 100), bw_pending (p_mem s 101))).

Theorem trigger_lost_in_rerun_write :
  rerun_race true = Some (MINI_OK, MINI_OK, MINI_OK, [100; 100], PIdle, false, (false, true)) /\
  rerun_race false = Some (MINI_OK, MINI_OK, MINI_OK, [100; 101], PIdle, false, (true, false)).
Proof. split; vm_compute; reflexivity. Qed.

(** ** The VIRQ table *)

Definition VIRTUAL_IRQ_BLOCK_SIZE : Z := 8.
Definition VIRTUAL_BLOCK_COUNT : Z := 9.
Definition VIRTUAL_IRQ_MAX_BASE : Z := VIRTUAL_BLOCK_COUNT * VIRTUAL_IRQ_BLOCK_SIZE.
Definition VIRQ (block idx : Z) : Z := block * VIRTUAL_IRQ_BLOCK_SIZE + idx.

Record virq_table := mk_virq {
  vt_top_half : list (option Z);   (** top-half handlers, None for NULL *)
  vt_work : list Z;                (** bottom-half works, 0 for NULL *)
  vt_arg : list Z
}.

Definition virq_zero : virq_table :=
  mk_virq (replicate (Z.to_nat VIRTUAL_IRQ_MAX_BASE) None)
    (replicate (Z.to_nat VIRTUAL_IRQ_MAX_BASE) 0) (replicate (Z.to_nat VIRTUAL_IRQ_MAX_BASE) 0).

Definition interrupt_virtual_register (t : virq_table) (virq_num : Z) (top_half : option Z)
    (work arg : Z) : option virq_table :=
  if virq_num >=? VIRTUAL_IRQ_MAX_BASE then Some t else
  a ← arr_set (vt_top_half t) virq_num top_half;
  b ← arr_set (vt_work t) virq_num work;
  c ← arr_set (vt_arg t) virq_num arg;
  Some (mk_virq a b c).

Section dispatch.
Context {Q : Type} `{SplitQueue Q}.
(** The top-half handlers of the board: handler, argument and VIRQ number to the result. *)
Context (top_call : Z -> Z -> Z -> Z).

Definition interrupt_bottom_half_submit (s : bottom_half_poller Q) (work : Z) :=
  bottom_half_poller_submit s work.

Definition interrupt_virtual_dispatch (t : virq_table) (s : bottom_half_poller Q) (virq_num : Z)
    : option (bottom_half_poller Q) :=
  if virq_num >=? VIRTUAL_IRQ_MAX_BASE then Some s else
  top ← arr_get (vt_top_half t) virq_num;
  work ← arr_get (vt_work t) virq_num;
  arg ← arr_get (vt_arg t) virq_num;
  match top with
  | Some f =>
      if negb (top_call f arg virq_num =? 0) && negb (work =? 0)
      then '(_, s') ← interrupt_bottom_half_submit s work; Some s'
      else Some s
  | None =>
      if negb (work =? 0)
      then '(_, s') ← interrupt_bottom_half_submit s work; Some s' else Some s
  end.

Definition virq_wf (t : virq_table) : Prop :=
  length (vt_top_half t) = Z.to_nat VIRTUAL_IRQ_MAX_BASE /\
  length (vt_work t) = Z.to_nat VIRTUAL_IRQ_MAX_BASE /\
  length (vt_arg t) = Z.to_nat VIRTUAL_IRQ_MAX_BASE.

(** Registering never fails, fills exactly one entry and keeps the table's size. *)
Lemma interrupt_virtual_register_ok t n top work arg :
  virq_wf t -> is_u16 n ->
  ∃ t', interrupt_virtual_register t n top work arg = Some t' /\ virq_wf t' /\
    (n < VIRTUAL_IRQ_MAX_BASE ->
       vt_top_half t' !! Z.to_nat n = Some top /\ vt_work t' !! Z.to_nat n = Some work /\
       vt_arg t' !! Z.to_nat n = Some arg) /\
    (∀ k, k ≠ Z.to_nat n ->
       vt_top_half t' !! k = vt_top_half t !! k /\ vt_work t' !! k = vt_work t !! k /\
       vt_arg t' !! k = vt_arg t !! k).
Proof.
  intros (H1 & H2 & H3) Hn. unfold interrupt_virtual_register, is_u16 in *.
  rewrite Z.geb_leb. destruct (Z.leb_spec VIRTUAL_IRQ_MAX_BASE n).
  - exists t. split; [done|]. split; [done|]. split; [lia|done].
  - rewrite !arr_set_in by lia. simpl. eexists. split; [done|]. simpl.
    split; [unfold virq_wf; simpl; by rewrite !length_insert|]. split.
    + intros _. rewrite !list_lookup_insert_eq by lia. done.
    + intros k Hk. by rewrite !list_lookup_insert_ne by done.
Qed.

(** A dispatched virtual interrupt goes to what was registered for its number: after
    [interrupt_virtual_register], [interrupt_virtual_dispatch] of that number submits the
    registered work exactly when there is one and its top half (if any) returned non-zero,
    and never reads outside the table; numbers past the table do nothing. *)
Theorem interrupt_virtual_dispatch_registered t n top work arg t' s :
  virq_wf t -> is_u16 n -> bh_inv s ->
  interrupt_virtual_register t n top work arg = Some t' ->
  ∃ s', interrupt_virtual_dispatch t' s n = Some s' /\
    if (n <? VIRTUAL_IRQ_MAX_BASE) && negb (work =? 0) &&
       (match top with Some f => negb (top_call f arg n =? 0) | None => true end)
    then ∃ r, interrupt_bottom_half_submit s work = Some (r, s') else s' = s.
Proof.
  intros WF Hn I Hreg.
  destruct (interrupt_virtual_register_ok t n top work arg WF Hn) as (t1 & E & _ & Hl & _).
  rewrite E in Hreg. injection Hreg as <-. unfold interrupt_virtual_dispatch.
  rewrite Z.geb_leb. unfold is_u16 in Hn.
  destruct (Z.leb_spec VIRTUAL_IRQ_MAX_BASE n), (Z.ltb_spec n VIRTUAL_IRQ_MAX_BASE); try lia;
    [simpl; eauto|].
  destruct Hl as (L1 & L2 & L3); [done|].
  assert (Hget : ∀ A (l : list A) x, l !! Z.to_nat n = Some x -> arr_get l n = Some x)
    by (intros; apply arr_get_Some; auto with lia).
  rewrite (Hget _ _ _ L1), (Hget _ _ _ L2), (Hget _ _ _ L3). simpl.
  assert (Hsub : ∃ r s', interrupt_bottom_half_submit s work = Some (r, s')).
  { unfold interrupt_bottom_half_submit, bottom_half_poller_submit, bottom_half_submit_from_isr.
    destruct (_ || _); [simpl; eauto|]. destruct (bw_pending _); [simpl; eauto|].
    destruct (bq_write_spec (p_fifo s) work (bi_q s I)) as [[_ ->]|(q' & -> & _)]; simpl; eauto. }
  destruct Hsub as (r & s' & Hs). rewrite Hs. destruct top as [f|]; simpl.
  - rewrite andb_comm. destruct (negb (work =? 0) && negb (top_call f arg n =? 0)); simpl; eauto.
  - rewrite andb_true_r. destruct (negb (work =? 0)); simpl; eauto.
Qed.
End dispatch.

Lemma interrupt_virtual_dispatch_registered_witness :
  ∃ t s', interrupt_virtual_register virq_zero (VIRQ 4 2) (Some 55) 100 9 = Some t /\
    interrupt_virtual_dispatch (fun f a n => if f =? 55 then a + n - 42 else 0) t small_poller 34
      = Some s' /\ ∃ r, interrupt_bottom_half_submit small_poller 100 = Some (r, s').
Proof.
  destruct (interrupt_virtual_dispatch_registered
              (fun f a n => if f =? 55 then a + n - 42 else 0) virq_zero 34 (Some 55) 100 9
              (match interrupt_virtual_register virq_zero 34 (Some 55) 100 9 with
               | Some t => t | None => virq_zero end) small_poller)
    as (s' & E & Hs).
  - by repeat split.
  - unfold is_u16. lia.
  - apply poller_initial_inv; [apply small_poller_wf|apply small_poller_wf|by intros].
  - reflexivity.
  - eexists _, s'. split; [reflexivity|]. split; [exact E|]. exact Hs.
Defined.
