(* ===== verification/EventBus.v ===== *)
(** * The event bus

    Models src/core/src/event_bus.c: the subscriber table, the seal, posting from tasks and
    interrupts, and the dispatch task.  The queue of the OS backend is a bounded
    first-in first-out queue of events whose send fails when it is full; whether the
    subscriber lock is obtained in time, whether the caller is in an interrupt and whether
    the backend's allocations succeed are inputs of each call.  One round of the dispatch
    task returns the callbacks it makes: they run after the lock is released, on a snapshot,
    so what a callback does to the bus comes after the round. *)

From S2P Require Import Prelude Status.

#[local] Open Scope Z_scope.

Definition EVENT_SYS_BOOT : Z := 0.
Definition EVENT_SYS_READY : Z := 1.
Definition EVENT_SYS_FAULT : Z := 2.
Definition EVENT_SYS_DEVICE_REMOVED : Z := 3.
Definition EVENT_USER_BASE : Z := 4096.

Record event := mk_event { ev_id : Z; ev_arg : Z }.

Record subscriber := mk_sub {
  sub_id_min : Z;
  sub_id_max : Z;
  sub_callback : option Z;   (** None for NULL *)
  sub_user_data : Z
}.

#[export] Instance event_eq_dec : EqDecision event.
Proof. solve_decision. Defined.
#[export] Instance subscriber_eq_dec : EqDecision subscriber.
Proof. solve_decision. Defined.

Record event_bus := mk_bus {
  eb_subscribers : list subscriber;
  eb_count : Z;
  eb_inited : bool;
  eb_is_sealed : bool;
  eb_queue : option (list event);   (** None for NULL *)
  eb_task : option Z;
  eb_dropped : Z;
  eb_sub_lock : bool                (** the mutex exists *)
}.

(** A call of a subscriber's callback with an event. *)
Record eb_call := mk_call { call_fn : Z; call_event : event; call_data : Z }.

Section event_bus.
(** CONFIG_EVENT_BUS_QUEUE_LEN and CONFIG_EVENT_BUS_MAX_SUBSCRIBERS. *)
Context (K_QUEUE_LEN K_MAX_SUBSCRIBERS : nat).

Definition eb_zero : event_bus :=
  mk_bus (replicate K_MAX_SUBSCRIBERS (mk_sub 0 0 None 0)) 0 false false None None 0 false.

(** [mini_queue_send] without waiting, and its interrupt variant. *)
Definition mini_queue_send (q : list event) (e : event) : bool * list event :=
  if decide (length q < K_QUEUE_LEN)%nat then (true, q ++ [e]) else (false, q).

Definition event_bus_init (queue_ok mutex_ok : bool) (b : event_bus) : Z * event_bus :=
  if eb_inited b then (MINI_OK, b) else
  if negb queue_ok then
    (MINI_ERR_NOMEM, mk_bus (eb_subscribers b) (eb_count b) (eb_inited b) (eb_is_sealed b) None
                       (eb_task b) (eb_dropped b) (eb_sub_lock b))
  else if negb mutex_ok then
    (MINI_ERR_NOMEM, mk_bus (eb_subscribers b) (eb_count b) (eb_inited b) (eb_is_sealed b) None
                       (eb_task b) (eb_dropped b) (eb_sub_lock b))
  else
    (MINI_OK, mk_bus (eb_subscribers b) (eb_count b) true (eb_is_sealed b) (Some []) (eb_task b)
                (eb_dropped b) true).

(** [None]: an access outside the subscriber table. *)
Definition event_bus_subscribe (in_isr lock_ok : bool) (id_min id_max : Z)
    (callback : option Z) (user_data : Z) (b : event_bus) : option (Z * event_bus) :=
  if in_isr then Some (MINI_ERR_ISR, b) else
  if eb_is_sealed b then Some (MINI_ERR_NOTSUPP, b) else
  match callback with
  | None => Some (MINI_ERR_INVAL, b)
  | Some cb =>
      if negb (eb_sub_lock b) then Some (MINI_ERR_INVAL, b) else
      if id_min >? id_max then Some (MINI_ERR_INVAL, b) else
      if negb lock_ok then Some (MINI_ERR_TIMEOUT, b) else
      if eb_count b <? Z.of_nat K_MAX_SUBSCRIBERS then
        subs ← arr_set (eb_subscribers b) (eb_count b) (mk_sub id_min id_max (Some cb) user_data);
        Some (MINI_OK, mk_bus subs (eb_count b + 1) (eb_inited b) (eb_is_sealed b) (eb_queue b)
                         (eb_task b) (eb_dropped b) (eb_sub_lock b))
      else Some (MINI_ERR_NOSPC, b)
  end.

Definition event_bus_post_internal (os_initialized : bool) (id arg : Z) (b : event_bus)
    : Z * event_bus :=
  match eb_queue b with
  | None => (MINI_ERR_AGAIN, b)
  | Some q =>
      if negb (eb_inited b) then (MINI_ERR_AGAIN, b) else
      if negb os_initialized then (MINI_ERR_AGAIN, b) else
      let '(ok, q') := mini_queue_send q (mk_event id arg) in
      if ok then
        (MINI_OK, mk_bus (eb_subscribers b) (eb_count b) (eb_inited b) (eb_is_sealed b)
                    (Some q') (eb_task b) (eb_dropped b) (eb_sub_lock b))
      else
        (MINI_ERR_NOSPC, mk_bus (eb_subscribers b) (eb_count b) (eb_inited b) (eb_is_sealed b)
                           (Some q') (eb_task b) (u32 (eb_dropped b + 1)) (eb_sub_lock b))
  end.

Definition event_bus_post (in_isr os_initialized : bool) (id arg : Z) (b : event_bus)
    : Z * event_bus :=
  if in_isr then (MINI_ERR_ISR, b) else event_bus_post_internal os_initialized id arg b.

Definition event_bus_post_from_isr (os_initialized : bool) (id arg : Z) (b : event_bus)
    : Z * event_bus := event_bus_post_internal os_initialized id arg b.

Definition event_bus_dropped_count (b : event_bus) : Z := eb_dropped b.

(** [create]: the handle the backend returns for the dispatch task, or a failure. *)
Definition event_bus_start (create : option Z) (b : event_bus) : event_bus :=
  match eb_task b, eb_queue b with
  | None, Some q =>
      mk_bus (eb_subscribers b) (eb_count b) (eb_inited b) (eb_is_sealed b) (Some q) create
        (eb_dropped b) (eb_sub_lock b)
  | _, _ => b
  end.

(** The stop sequence: the dispatch task is woken by a dummy event, waited for (or deleted
    by force), then the queue is destroyed. *)
Definition event_bus_stop (b : event_bus) : event_bus :=
  match eb_task b with
  | None => b
  | Some _ =>
      mk_bus (eb_subscribers b) (eb_count b) false (eb_is_sealed b) None None (eb_dropped b)
        (eb_sub_lock b)
  end.

Definition event_bus_seal (b : event_bus) : event_bus :=
  mk_bus (eb_subscribers b) (eb_count b) (eb_inited b) true (eb_queue b) (eb_task b)
    (eb_dropped b) (eb_sub_lock b).

(** The copy loop [snapshot[index] = bus.subscribers[index]]. *)
Fixpoint eb_snapshot (subs : list subscriber) (index : Z) (n : nat) : option (list subscriber) :=
  match n with
  | O => Some []
  | S n => s ← arr_get subs index; rest ← eb_snapshot subs (index + 1) n; Some (s :: rest)
  end.

(** The callback loop over the snapshot. *)
Fixpoint eb_deliver (e : event) (snapshot : list subscriber) : list eb_call :=
  match snapshot with
  | [] => []
  | s :: rest =>
      match sub_callback s with
      | Some cb =>
          if (ev_id e >=? sub_id_min s) && (ev_id e <=? sub_id_max s)
          then mk_call cb e (sub_user_data s) :: eb_deliver e rest else eb_deliver e rest
      | None => eb_deliver e rest
      end
  end.

Inductive dispatch_result :=
  | DispBlocked                      (** waiting in mini_queue_receive *)
  | DispExit                         (** the loop ended: no queue, or the task was stopped *)
  | DispSafeState                    (** lock timeout: enter_safe_state, loop ended *)
  | DispCalls (calls : list eb_call).

(** One round of [event_bus_dispatch_task]. *)
Definition event_bus_dispatch_task (lock_ok : bool) (b : event_bus)
    : option (dispatch_result * event_bus) :=
  match eb_queue b with
  | None => Some (DispExit, b)
  | Some [] => Some (DispBlocked, b)
  | Some (e :: q) =>
      let b1 := mk_bus (eb_subscribers b) (eb_count b) (eb_inited b) (eb_is_sealed b) (Some q)
                  (eb_task b) (eb_dropped b) (eb_sub_lock b) in
      match eb_task b with
      | None => Some (DispExit, b1)
      | Some _ =>
          if eb_sub_lock b && negb lock_ok then Some (DispSafeState, b1) else
          snapshot ← eb_snapshot (eb_subscribers b1) 0 (Z.to_nat (eb_count b1));
          Some (DispCalls (eb_deliver e snapshot), b1)
      end
  end.

(** ** Invariant and abstract bus *)

Record eb_inv (b : event_bus) : Prop := {
  ei_len : length (eb_subscribers b) = K_MAX_SUBSCRIBERS;
  ei_count : 0 <= eb_count b <= Z.of_nat K_MAX_SUBSCRIBERS;
  ei_queue q : eb_queue b = Some q -> (length q ≤ K_QUEUE_LEN)%nat;
  ei_subs : Forall (fun s => is_Some (sub_callback s) /\ sub_id_min s <= sub_id_max s)
              (take (Z.to_nat (eb_count b)) (eb_subscribers b))
}.

Definition eb_subs (b : event_bus) : list subscriber :=
  take (Z.to_nat (eb_count b)) (eb_subscribers b).

Lemma eb_snapshot_take subs n : ∀ i,
  (i + n ≤ length subs)%nat -> eb_snapshot subs (Z.of_nat i) n = Some (take n (drop i subs)).
Proof.
  induction n as [|n IH]; intros i Hl; simpl; [by rewrite take_0|].
  destruct (lookup_lt_is_Some_2 subs i) as [s Hs]; [lia|].
  assert (arr_get subs (Z.of_nat i) = Some s) as ->
    by (apply arr_get_Some; rewrite Nat2Z.id; auto with lia).
  simpl. replace (Z.of_nat i + 1) with (Z.of_nat (S i)) by lia.
  rewrite (IH (S i)) by lia. simpl. by rewrite (drop_S _ _ _ Hs).
Qed.

Lemma eb_deliver_spec e l :
  eb_deliver e l = omap (fun s => cb ← sub_callback s;
                                  if (sub_id_min s <=? ev_id e) && (ev_id e <=? sub_id_max s)
                                  then Some (mk_call cb e (sub_user_data s)) else None) l.
Proof.
  induction l as [|s l IH]; [done|]. simpl. rewrite Z.geb_leb.
  destruct (sub_callback s) as [cb|]; simpl; [|done].
  destruct (_ && _); simpl; by rewrite IH.
Qed.

Lemma eb_zero_inv : eb_inv eb_zero.
Proof.
  constructor; simpl; try done; [by rewrite length_replicate|lia].
Qed.

(** The abstract bus: the subscriptions in order, the queue, the seal. *)
Record abs_bus := mk_abs { ab_subs : list subscriber; ab_queue : list event; ab_sealed : bool;
                           ab_dropped : Z }.

Definition eb_abs (b : event_bus) : abs_bus :=
  mk_abs (eb_subs b) (default [] (eb_queue b)) (eb_is_sealed b) (eb_dropped b).

(** A running bus: initialised, with its dispatch task. *)
Definition eb_running (b : event_bus) : Prop :=
  eb_inited b = true /\ is_Some (eb_queue b) /\ is_Some (eb_task b) /\ eb_sub_lock b = true.

Inductive eb_op :=
  | ESubscribe (in_isr lock_ok : bool) (id_min id_max : Z) (cb : option Z) (data : Z)
  | EPost (in_isr : bool) (id arg : Z)
  | EPostIsr (id arg : Z)
  | EDispatch
  | ESeal.

(** What a call returns: its code, and for a dispatch round the callbacks made. *)
Inductive eb_ret := RCode (r : Z) | RCalls (l : list eb_call) | RBlocked | RNone.

Definition eb_exec (b : event_bus) (op : eb_op) : option (eb_ret * event_bus) :=
  match op with
  | ESubscribe isr lk lo hi cb d =>
      '(r, b') ← event_bus_subscribe isr lk lo hi cb d b; Some (RCode r, b')
  | EPost isr id arg => let '(r, b') := event_bus_post isr true id arg b in Some (RCode r, b')
  | EPostIsr id arg => let '(r, b') := event_bus_post_from_isr true id arg b in Some (RCode r, b')
  | EDispatch =>
      '(r, b') ← event_bus_dispatch_task true b;
      match r with
      | DispCalls l => Some (RCalls l, b')
      | DispBlocked => Some (RBlocked, b')
      | DispExit | DispSafeState => None
      end
  | ESeal => Some (RNone, event_bus_seal b)
  end.

Definition abs_post (a : abs_bus) (e : event) : eb_ret * abs_bus :=
  if decide (length (ab_queue a) < K_QUEUE_LEN)%nat
  then (RCode MINI_OK, mk_abs (ab_subs a) (ab_queue a ++ [e]) (ab_sealed a) (ab_dropped a))
  else (RCode MINI_ERR_NOSPC,
        mk_abs (ab_subs a) (ab_queue a) (ab_sealed a) (u32 (ab_dropped a + 1))).

Definition abs_exec (a : abs_bus) (op : eb_op) : eb_ret * abs_bus :=
  match op with
  | ESubscribe isr lk lo hi cb d =>
      if isr then (RCode MINI_ERR_ISR, a) else
      if ab_sealed a then (RCode MINI_ERR_NOTSUPP, a) else
      if bool_decide (cb = None) || (hi <? lo) then (RCode MINI_ERR_INVAL, a) else
      if negb lk then (RCode MINI_ERR_TIMEOUT, a) else
      if decide (length (ab_subs a) < K_MAX_SUBSCRIBERS)%nat
      then (RCode MINI_OK, mk_abs (ab_subs a ++ [mk_sub lo hi cb d]) (ab_queue a) (ab_sealed a)
                             (ab_dropped a))
      else (RCode MINI_ERR_NOSPC, a)
  | EPost isr id arg => if isr then (RCode MINI_ERR_ISR, a) else abs_post a (mk_event id arg)
  | EPostIsr id arg => abs_post a (mk_event id arg)
  | EDispatch =>
      match ab_queue a with
      | [] => (RBlocked, a)
      | e :: q =>
          (RCalls (omap (fun s => cb ← sub_callback s;
                           if (sub_id_min s <=? ev_id e) && (ev_id e <=? sub_id_max s)
                           then Some (mk_call cb e (sub_user_data s)) else None) (ab_subs a)),
           mk_abs (ab_subs a) q (ab_sealed a) (ab_dropped a))
      end
  | ESeal => (RNone, mk_abs (ab_subs a) (ab_queue a) true (ab_dropped a))
  end.

Fixpoint eb_run (b : event_bus) (ops : list eb_op) : option (list eb_ret * event_bus) :=
  match ops with
  | [] => Some ([], b)
  | op :: ops => '(r, b1) ← eb_exec b op; '(rs, b2) ← eb_run b1 ops; Some (r :: rs, b2)
  end.

Fixpoint abs_run (a : abs_bus) (ops : list eb_op) : list eb_ret * abs_bus :=
  match ops with
  | [] => ([], a)
  | op :: ops => let '(r, a1) := abs_exec a op in let '(rs, a2) := abs_run a1 ops in (r :: rs, a2)
  end.

Lemma event_bus_post_internal_refines b id arg :
  eb_inv b -> eb_running b ->
  ∃ r b', event_bus_post_internal true id arg b = (r, b') /\ eb_inv b' /\ eb_running b' /\
          abs_post (eb_abs b) (mk_event id arg) = (RCode r, eb_abs b').
Proof.
  intros [Hl Hc Hq Hs] (Hi & [q Eq] & Ht & Hlk).
  unfold event_bus_post_internal, mini_queue_send, abs_post, eb_abs. rewrite Eq, Hi. simpl.
  destruct (decide (length q < K_QUEUE_LEN)%nat); eexists _, _; (split; [done|]);
    (split; [constructor; simpl; try done; intros ? [= <-]; rewrite ?length_app; simpl;
             (lia || by apply Hq)|]); (split; [by repeat split|done]).
Qed.

Lemma event_bus_subscribe_refines b isr lk lo hi cb d :
  eb_inv b -> eb_running b ->
  ∃ r b', event_bus_subscribe isr lk lo hi cb d b = Some (r, b') /\ eb_inv b' /\
          eb_running b' /\
          abs_exec (eb_abs b) (ESubscribe isr lk lo hi cb d) = (RCode r, eb_abs b').
Proof.
  intros I (Hi & [q Eq] & Ht & Hlk). pose proof I as [Hl Hc Hq Hs].
  unfold event_bus_subscribe. simpl. rewrite Hlk, Z.gtb_ltb. simpl.
  assert (R : eb_running b) by (repeat split; eauto).
  destruct isr; [eauto 8|]. destruct (eb_is_sealed b) eqn:Es; [eauto 8|].
  destruct cb as [cb|]; [|eauto 8]. simpl. rewrite ?bool_decide_false by done. simpl.
  destruct (Z.ltb_spec hi lo); [eauto 8|]. destruct lk; [|eauto 8]. simpl.
  assert (Hlen : length (eb_subs b) = Z.to_nat (eb_count b))
    by (unfold eb_subs; rewrite length_take; lia).
  destruct (Z.ltb_spec (eb_count b) (Z.of_nat K_MAX_SUBSCRIBERS)).
  - rewrite arr_set_in by lia. simpl. eexists _, _. split; [done|].
    assert (Et : take (Z.to_nat (eb_count b + 1))
              (<[Z.to_nat (eb_count b):=mk_sub lo hi (Some cb) d]> (eb_subscribers b))
            = eb_subs b ++ [mk_sub lo hi (Some cb) d]).
    { replace (Z.to_nat (eb_count b + 1)) with (S (Z.to_nat (eb_count b))) by lia.
      rewrite (take_S_r _ _ (mk_sub lo hi (Some cb) d))
        by (apply list_lookup_insert_eq; lia).
      by rewrite take_insert_ge by lia. }
    split; [|split; [by repeat split|]].
    + constructor; simpl; [by rewrite length_insert|lia|done|]. rewrite Et.
      apply Forall_app. split; [done|]. apply Forall_singleton. simpl. eauto.
    + rewrite decide_True by lia. unfold eb_abs, eb_subs at 2. simpl. by rewrite Et, ?Es, ?Eq.
  - rewrite decide_False by lia. eauto 8.
Qed.

Lemma event_bus_dispatch_refines b :
  eb_inv b -> eb_running b ->
  ∃ r b', eb_exec b EDispatch = Some (r, b') /\ eb_inv b' /\ eb_running b' /\
          abs_exec (eb_abs b) EDispatch = (r, eb_abs b').
Proof.
  intros I (Hi & [q Eq] & [t Et] & Hlk). pose proof I as [Hl Hc Hq Hs].
  simpl. unfold event_bus_dispatch_task. rewrite Eq. destruct q as [|e q].
  - simpl. eexists _, b. split; [done|]. split; [done|].
    split; [by repeat split; eauto|]. done.
  - rewrite Et, Hlk. simpl.
    rewrite (eb_snapshot_take _ _ 0) by lia. simpl. eexists _, _. split; [done|].
    split; [constructor; simpl; try done; intros ? [= <-]; specialize (Hq _ Eq); simpl in Hq; lia|].
    split; [by repeat split; eauto|].
    by rewrite eb_deliver_spec.
Qed.

Lemma eb_run_refines ops : ∀ b,
  eb_inv b -> eb_running b ->
  ∃ rs b', eb_run b ops = Some (rs, b') /\ eb_inv b' /\ abs_run (eb_abs b) ops = (rs, eb_abs b').
Proof.
  induction ops as [|op ops IH]; intros b I R; [simpl; eauto|].
  assert (∃ r b1, eb_exec b op = Some (r, b1) /\ eb_inv b1 /\ eb_running b1 /\
                  abs_exec (eb_abs b) op = (r, eb_abs b1)) as (r & b1 & Hx & I1 & R1 & Ha).
  { destruct op as [isr lk lo hi cb d|isr id arg|id arg| |].
    - destruct (event_bus_subscribe_refines b isr lk lo hi cb d I R) as (r & b1 & Hx & H).
      simpl in *. rewrite Hx. simpl. eauto.
    - simpl. unfold event_bus_post. destruct isr; [eauto 8|].
      destruct (event_bus_post_internal_refines b id arg I R) as (r & b1 & -> & H). eauto.
    - simpl. unfold event_bus_post_from_isr.
      destruct (event_bus_post_internal_refines b id arg I R) as (r & b1 & -> & H). eauto.
    - by apply event_bus_dispatch_refines.
    - eexists _, _. split; [done|]. destruct I as [Hl Hc Hq Hs].
      split; [by constructor|]. split; [by destruct R as (? & ? & ? & ?)|]. done. }
  destruct (IH b1 I1 R1) as (rs & b2 & Hr & I2 & Ha2).
  cbn [eb_run abs_run]. rewrite Hx, Ha. simpl. rewrite Hr, Ha2. simpl. eauto.
Qed.

(** C29: The event bus refines its abstract specification. From a bus that was initialised
    and started, every sequence of subscribes, posts (task or interrupt), dispatch rounds
    and seals stays inside the subscriber table and returns exactly what the abstract bus
    returns: posted events are dispatched once and in order, each to the matching
    subscribers in subscription order with their own data; the full table, the full queue,
    the seal and every argument error give their codes and change nothing else. *)
Theorem event_bus_refines t b ops :
  event_bus_init true true eb_zero = (MINI_OK, b) ->
  ∃ rs b', eb_run (event_bus_start (Some t) b) ops = Some (rs, b') /\
           abs_run (mk_abs [] [] false 0) ops = (rs, eb_abs b') /\
           (length (default [] (eb_queue b')) ≤ K_QUEUE_LEN)%nat /\
           (length (eb_subs b') ≤ K_MAX_SUBSCRIBERS)%nat.
Proof.
  intros Hi. injection Hi as <-.
  destruct (eb_run_refines ops (event_bus_start (Some t) (mk_bus
     (replicate K_MAX_SUBSCRIBERS (mk_sub 0 0 None 0)) 0 true false (Some []) None 0 true)))
    as (rs & b' & Hr & I & Ha).
  - destruct eb_zero_inv as [Hl Hc Hq Hs]. constructor; try done. intros ? [= <-]. simpl. lia.
  - by repeat split; eauto.
  - exists rs, b'. split; [done|]. split; [done|]. split.
    + destruct (eb_queue b') as [q|] eqn:E; simpl; [by apply (ei_queue b' I)|lia].
    + unfold eb_subs. rewrite length_take, (ei_len b' I). lia.
Qed.

(** Before initialisation, after a stop, or while the OS is not up, posts are refused. *)
Lemma event_bus_post_not_ready b os id arg :
  eb_queue b = None \/ eb_inited b = false \/ os = false ->
  event_bus_post_internal os id arg b = (MINI_ERR_AGAIN, b).
Proof.
  intros Hc. unfold event_bus_post_internal. destruct (eb_queue b); [|done].
  destruct (eb_inited b), os; simpl; naive_solver.
Qed.
End event_bus.

Lemma event_bus_refines_witness :
  ∃ rs b', eb_run 2 2 (event_bus_start (Some 7) (mk_bus
      [mk_sub 0 0 None 0; mk_sub 0 0 None 0] 0 true false (Some []) None 0 true))
      [ESubscribe false true 0 4095 (Some 11) 1; ESubscribe false true 2 2 (Some 12) 2;
       EPost false 2 5; EPost false 4096 6; EPost false 0 7; EDispatch; EDispatch; ESeal;
       ESubscribe false true 0 1 (Some 13) 3] = Some (rs, b') /\
    abs_run 2 2 (mk_abs [] [] false 0)
      [ESubscribe false true 0 4095 (Some 11) 1; ESubscribe false true 2 2 (Some 12) 2;
       EPost false 2 5; EPost false 4096 6; EPost false 0 7; EDispatch; EDispatch; ESeal;
       ESubscribe false true 0 1 (Some 13) 3] = (rs, eb_abs b') /\
    (length (default [] (eb_queue b')) ≤ 2)%nat /\ (length (eb_subs b') ≤ 2)%nat.
Proof. apply (event_bus_refines 2 2 7). reflexivity. Defined.
