(* ===== verification/IntParse.v ===== *)
(** * Integer properties of device-tree nodes

    Models [safe_parse_int32] and the token loop of [device_get_prop_int_array] in
    src/board/src/board_device.c.  A C string is the list of its character codes up to the
    terminating NUL (so no element is 0).  Negating [INT_MIN] is undefined in C and is a
    result of its own. *)

From S2P Require Import Prelude Status.

#[local] Open Scope Z_scope.

Definition cstring := list Z.

Inductive parse_result :=
  | ParseErr                (** returned -1 *)
  | ParseOk (v : Z)         (** returned 0 and stored [v] *)
  | ParseUB.                (** negated INT_MIN *)

Definition char_digit (c : Z) : option Z :=
  if (48 <=? c) && (c <=? 57) then Some (c - 48)
  else if (97 <=? c) && (c <=? 102) then Some (c - 97 + 10)
  else if (65 <=? c) && (c <=? 70) then Some (c - 65 + 10)
  else None.

(** The digit loop from accumulated value [val]; [None] is the error return. *)
Fixpoint parse_digits (base limit val : Z) (cursor : cstring) : option Z :=
  match cursor with
  | [] => Some val
  | c :: rest =>
      if c =? 32 then Some val else
      match char_digit c with
      | None => None
      | Some digit =>
          if digit >=? base then None
          else if val >? u32 (limit - digit) / base then None
          else parse_digits base limit (u32 (val * base + digit)) rest
      end
  end.

(** Base prefix: the base, the rest of the text, or an early result. *)
Definition parse_prefix (cursor : cstring) : parse_result + (Z * cstring) :=
  match cursor with
  | 48 :: rest =>
      match rest with
      | 120 :: r | 88 :: r => inr (16, r)
      | [] => inl (ParseOk 0)
      | _ => inr (8, rest)
      end
  | _ => inr (10, cursor)
  end.

Definition neg_int (v : Z) : parse_result :=
  if v =? -2147483648 then ParseUB else ParseOk (- v).

Definition parse_sign (s : cstring) : Z * cstring :=
  match s with
  | 45 :: r => (-1, r)
  | 43 :: r => (1, r)
  | _ => (1, s)
  end.

Definition safe_parse_int32 (str : option cstring) : parse_result :=
  match str with
  | None | Some [] => ParseErr
  | Some s =>
      let '(sign, cursor) := parse_sign s in
      match parse_prefix cursor with
      | inl r => r
      | inr (base, []) => ParseErr
      | inr (base, cursor) =>
          let limit := if sign >? 0 then 2147483647 else 2147483648 in
          match parse_digits base limit 0 cursor with
          | None => ParseErr
          | Some val => if sign >? 0 then ParseOk (s32 val) else neg_int (s32 val)
          end
      end
  end.

(** The inner loops: skip spaces; a token up to the next space. *)
Fixpoint skip_spaces (cursor : cstring) : cstring :=
  match cursor with 32 :: rest => skip_spaces rest | _ => cursor end.
Fixpoint take_token (cursor : cstring) : cstring * cstring :=
  match cursor with
  | [] => ([], [])
  | c :: rest =>
      if c =? 32 then ([], cursor) else let '(t, r) := take_token rest in (c :: t, r)
  end.

(** The token loop; [room] elements of [out_arr] are left.  Each round consumes at least one
    character, so the length of the text is enough fuel.  The result is the code and the
    elements stored so far. *)
Fixpoint parse_array (fuel : nat) (cursor : cstring) (room : nat) (acc : list Z)
    : option (Z * list Z) :=
  match fuel with
  | O => None
  | S fuel =>
      match cursor, room with
      | [], _ | _, O => Some (Z.of_nat (length acc), acc)
      | _, S room =>
          match skip_spaces cursor with
          | [] => Some (Z.of_nat (length acc), acc)
          | cursor =>
              let '(token, rest) := take_token cursor in
              if Z.of_nat (length token) >=? 64 then Some (MINI_ERR_INVAL, acc) else
              match safe_parse_int32 (Some token) with
              | ParseErr => Some (MINI_ERR_INVAL, acc)
              | ParseOk v => parse_array fuel rest room (acc ++ [v])
              | ParseUB => None
              end
          end
      end
  end.

(** ** The value of a digit string *)

Fixpoint horner (base val : Z) (ds : list Z) : Z :=
  match ds with [] => val | d :: ds => horner base (val * base + d) ds end.

(** The text up to the first space, as digits of the base. *)
Fixpoint digits_of (base : Z) (cursor : cstring) : option (list Z) :=
  match cursor with
  | [] => Some []
  | c :: rest =>
      if c =? 32 then Some [] else
      d ← char_digit c; if d <? base then ds ← digits_of base rest; Some (d :: ds) else None
  end.

Lemma char_digit_range c d : char_digit c = Some d -> 0 <= d < 16.
Proof.
  unfold char_digit.
  destruct (Z.leb_spec 48 c), (Z.leb_spec c 57), (Z.leb_spec 97 c), (Z.leb_spec c 102),
    (Z.leb_spec 65 c), (Z.leb_spec c 70); simpl; intros [= <-]; lia.
Qed.

Lemma horner_ge base val ds :
  1 <= base -> 0 <= val -> Forall (fun d => 0 <= d) ds -> val <= horner base val ds.
Proof.
  intros Hb Hv H. revert val Hv. induction H as [|d ds Hd _ IH]; intros val Hv; simpl; [lia|].
  specialize (IH (val * base + d)). nia.
Qed.

Lemma digits_of_nonneg base cs ds : digits_of base cs = Some ds -> Forall (fun d => 0 <= d) ds.
Proof.
  revert ds. induction cs as [|c cs IH]; intros ds; simpl; [intros [= <-]; constructor|].
  destruct (c =? 32); [intros [= <-]; constructor|].
  destruct (char_digit c) as [d|] eqn:Ec; [|done]. simpl.
  destruct (d <? base); [|done]. destruct (digits_of base cs) as [ds'|]; [|done].
  intros [= <-]. apply char_digit_range in Ec. constructor; [lia|eauto].
Qed.

(** The overflow test is exact: the loop computes the value when it fits [limit] and fails
    otherwise; no intermediate 32-bit operation wraps. *)
Lemma parse_digits_spec base limit cs : ∀ val,
  2 <= base <= 16 -> 0 <= val <= limit -> 16 <= limit <= 2147483648 ->
  parse_digits base limit val cs
    = ds ← digits_of base cs;
      if horner base val ds <=? limit then Some (horner base val ds) else None.
Proof.
  induction cs as [|c cs IH]; intros val Hb Hv Hl; simpl.
  - destruct (Z.leb_spec val limit); (done || lia).
  - destruct (c =? 32); simpl; [destruct (Z.leb_spec val limit); (done || lia)|].
    destruct (char_digit c) as [d|] eqn:Ec; simpl; [|done].
    pose proof (char_digit_range c d Ec). rewrite Z.geb_leb, Z.gtb_ltb.
    destruct (Z.leb_spec base d), (Z.ltb_spec d base); try lia; simpl; [done|].
    rewrite (u32_small (limit - d)) by lia.
    destruct (Z.ltb_spec ((limit - d) / base) val) as [Ho|Ho].
    + destruct (digits_of base cs) as [ds|] eqn:Ed; simpl; [|done].
      assert (limit < val * base + d).
      { Z.to_euclidean_division_equations. nia. }
      pose proof (horner_ge base (val * base + d) ds ltac:(lia) ltac:(nia)
                    (digits_of_nonneg _ _ _ Ed)).
      destruct (Z.leb_spec (horner base (val * base + d) ds) limit); (done || lia).
    + assert (val * base + d <= limit).
      { Z.to_euclidean_division_equations. nia. }
      rewrite u32_small by nia. rewrite IH by nia.
      destruct (digits_of base cs) as [ds|]; done.
Qed.

(** The signed value a text denotes, of any size: sign, base prefix, digits up to a space. *)
Definition text_magnitude (cursor : cstring) : option Z :=
  match parse_prefix cursor with
  | inl _ => Some 0
  | inr (base, []) => None
  | inr (base, r) => horner base 0 <$> digits_of base r
  end.
Definition text_value (s : cstring) : option Z :=
  match s with
  | [] => None
  | _ =>
      let '(sign, r) := parse_sign s in
      if sign >? 0 then text_magnitude r else Z.opp <$> text_magnitude r
  end.

(** The two halves of the parser after the sign. *)
Definition parse_signed (sign : Z) (cursor : cstring) : parse_result :=
  match parse_prefix cursor with
  | inl r => r
  | inr (base, []) => ParseErr
  | inr (base, cursor) =>
      let limit := if sign >? 0 then 2147483647 else 2147483648 in
      match parse_digits base limit 0 cursor with
      | None => ParseErr
      | Some val => if sign >? 0 then ParseOk (s32 val) else neg_int (s32 val)
      end
  end.

Lemma parse_prefix_cases cursor :
  parse_prefix cursor = inl (ParseOk 0) \/
  ∃ base r, parse_prefix cursor = inr (base, r) /\ 2 <= base <= 16.
Proof.
  unfold parse_prefix.
  repeat match goal with
  | |- context [match ?x with _ => _ end] => destruct x
  end; eauto; right; eexists _, _; (split; [reflexivity|lia]).
Qed.

Definition classify (v : option Z) : parse_result :=
  match v with
  | None => ParseErr
  | Some v =>
      if (-2147483648 <? v) && (v <=? 2147483647) then ParseOk v
      else if v =? -2147483648 then ParseUB else ParseErr
  end.

Lemma text_magnitude_nonneg cursor v : text_magnitude cursor = Some v -> 0 <= v.
Proof.
  unfold text_magnitude. destruct (parse_prefix_cases cursor) as [->|(b & r & -> & Hb)];
    [intros [= <-]; lia|]. destruct r as [|c r]; [done|].
  destruct (digits_of b (c :: r)) as [ds|] eqn:E; [|done]. simpl. intros [= <-].
  apply (horner_ge b 0 ds); [lia..|]. by eapply digits_of_nonneg.
Qed.

Lemma s32_big : s32 2147483648 = -2147483648.
Proof. reflexivity. Qed.

Lemma parse_signed_spec sign cursor :
  sign = 1 \/ sign = -1 ->
  parse_signed sign cursor
    = classify (if sign >? 0 then text_magnitude cursor else Z.opp <$> text_magnitude cursor).
Proof.
  intros Hs. pose proof (text_magnitude_nonneg cursor) as Hnn.
  unfold parse_signed, text_magnitude in *.
  destruct (parse_prefix_cases cursor) as [->|(b & r & E & Hb)].
  { destruct Hs as [-> | ->]; reflexivity. }
  rewrite E in *. destruct r as [|c r]; [by destruct Hs as [-> | ->]|].
  destruct Hs as [-> | ->]; cbn [Z.gtb Z.compare]; rewrite parse_digits_spec by lia;
    destruct (digits_of b (c :: r)) as [ds|]; cbn [mbind option_bind fmap option_fmap option_map] in *;
    try done; specialize (Hnn _ eq_refl); set (v := horner b 0 ds) in *; unfold classify, neg_int.
  - destruct (Z.leb_spec v 2147483647), (Z.ltb_spec (-2147483648) v); try lia; simpl.
    + by rewrite s32_small by lia.
    + destruct (Z.eqb_spec v (-2147483648)); (done || lia).
  - destruct (Z.leb_spec v 2147483648), (Z.ltb_spec (-2147483648) (- v)),
      (Z.leb_spec (- v) 2147483647), (Z.eqb_spec (- v) (-2147483648)); try lia; simpl; try done.
    + rewrite s32_small by lia. destruct (Z.eqb_spec v (-2147483648)); (done || lia).
    + assert (v = 2147483648) as -> by lia. done.
Qed.

Lemma parse_sign_cases s : (parse_sign s).1 = 1 \/ (parse_sign s).1 = -1.
Proof.
  unfold parse_sign.
  repeat match goal with |- context [match ?x with _ => _ end] => destruct x end; auto.
Qed.

Lemma safe_parse_int32_classify s : safe_parse_int32 (Some s) = classify (text_value s).
Proof.
  destruct s as [|c s]; [done|]. unfold safe_parse_int32, text_value.
  pose proof (parse_sign_cases (c :: s)) as Hs. destruct (parse_sign (c :: s)) as [sign r].
  by apply (parse_signed_spec sign r).
Qed.

(** [safe_parse_int32] is exact. On every text it returns the signed value the text
    denotes (decimal, 0-octal or 0x-hexadecimal, up to a space) when that value lies above
    -2^31 and at most 2^31 - 1, and an error when there is none or it lies outside the
    [int] range; the overflow test never wraps.  The one value -2^31 makes the code negate
    INT_MIN, which C leaves undefined. *)
Theorem safe_parse_int32_exact s :
  safe_parse_int32 (Some s) =
    match text_value s with
    | None => ParseErr
    | Some v =>
        if (-2147483648 <? v) && (v <=? 2147483647) then ParseOk v
        else if v =? -2147483648 then ParseUB else ParseErr
    end.
Proof. apply safe_parse_int32_classify. Qed.

Arguments parse_prefix : simpl never.
Arguments parse_sign : simpl never.

(** ** Printing and parsing back *)

(** Decimal digits, most significant first. *)
Fixpoint dec_digits (fuel : nat) (n : Z) : list Z :=
  match fuel with
  | O => []
  | S fuel => if n <? 10 then [n] else dec_digits fuel (n / 10) ++ [n mod 10]
  end.
Definition print_nat (n : Z) : cstring := map (fun d => d + 48) (dec_digits 10 n).
Definition print_int (n : Z) : cstring := if n <? 0 then 45 :: print_nat (- n) else print_nat n.

Lemma horner_app base val l1 l2 : horner base val (l1 ++ l2) = horner base (horner base val l1) l2.
Proof. revert val. induction l1 as [|d l1 IH]; intros val; simpl; [done|apply IH]. Qed.

Lemma dec_digits_spec fuel : ∀ n,
  0 <= n < 10 ^ Z.of_nat fuel -> (0 < fuel)%nat ->
  Forall (fun d => 0 <= d <= 9) (dec_digits fuel n) /\ horner 10 0 (dec_digits fuel n) = n /\
  ∃ d l, dec_digits fuel n = d :: l /\ (0 < n -> 0 < d) /\ (n = 0 -> l = []).
Proof.
  induction fuel as [|fuel IH]; intros n Hn Hf; [lia|]. simpl.
  destruct (Z.ltb_spec n 10).
  - split; [constructor; [lia|constructor]|]. split; [simpl; lia|]. eexists _, _.
    split; [done|]. split; [lia|done].
  - assert (0 < fuel)%nat.
    { destruct fuel; [|lia]. change (10 ^ Z.of_nat 1) with 10 in Hn. lia. }
    assert (0 <= n / 10 < 10 ^ Z.of_nat fuel).
    { rewrite Nat2Z.inj_succ, Z.pow_succ_r in Hn by lia.
      split; [apply Z.div_pos; lia|apply Z.div_lt_upper_bound; lia]. }
    destruct (IH (n / 10)) as (IHd & IHv & d & l & E & Hd & _); [done..|].
    split; [apply Forall_app; split; [done|constructor; [|constructor]];
            pose proof (Z.mod_pos_bound n 10); lia|].
    split.
    { rewrite horner_app, IHv. simpl. pose proof (Z.div_mod n 10). lia. }
    rewrite E. exists d, (l ++ [n mod 10]). split; [done|]. split; [|lia].
    intros _. apply Hd. apply Z.div_str_pos. lia.
Qed.

Lemma digits_of_printed ds rest :
  Forall (fun d => 0 <= d <= 9) ds -> (rest = [] \/ ∃ r, rest = 32 :: r) ->
  digits_of 10 (map (fun d => d + 48) ds ++ rest) = Some ds.
Proof.
  intros H Hr. induction H as [|d ds Hd _ IH]; simpl.
  - destruct Hr as [->|[r ->]]; done.
  - destruct (Z.eqb_spec (d + 48) 32); [lia|]. unfold char_digit at 1.
    destruct (Z.leb_spec 48 (d + 48)), (Z.leb_spec (d + 48) 57); try lia. simpl.
    replace (d + 48 - 48) with d by lia. destruct (Z.ltb_spec d 10); [|lia].
    by rewrite IH.
Qed.

Lemma parse_prefix_decimal c r : 49 <= c <= 57 -> parse_prefix (c :: r) = inr (10, c :: r).
Proof.
  intros H. assert (c = 49 \/ c = 50 \/ c = 51 \/ c = 52 \/ c = 53 \/ c = 54 \/ c = 55 \/ c = 56 \/ c = 57)
    as Hc by lia.
  repeat (destruct Hc as [->|Hc]; [reflexivity|]). by subst.
Qed.

Lemma text_magnitude_print n rest :
  0 <= n < 10 ^ 10 -> (rest = [] \/ ∃ r, rest = 32 :: r) ->
  text_magnitude (print_nat n ++ rest) = Some n.
Proof.
  intros Hn Hr. destruct (dec_digits_spec 10 n) as (Hd & Hv & d & l & E & Hd0 & Hl);
    [exact Hn|lia|]. unfold print_nat, text_magnitude.
  destruct (decide (n = 0)) as [->|Hne].
  - simpl. destruct Hr as [->|[r ->]]; done.
  - assert (0 < d <= 9).
    { rewrite E in Hd. apply Forall_cons_1 in Hd as [? _]. lia. }
    pose proof (digits_of_printed (dec_digits 10 n) rest Hd Hr) as Hp.
    rewrite E in *. cbn [map app] in *. rewrite parse_prefix_decimal by lia.
    rewrite Hp. simpl. f_equal. exact Hv.
Qed.

Lemma parse_sign_digit c r : 48 <= c <= 57 -> parse_sign (c :: r) = (1, c :: r).
Proof.
  intros H. assert (c = 48 \/ (49 <= c <= 57)) as [->|Hc] by lia; [reflexivity|].
  assert (c = 49 \/ c = 50 \/ c = 51 \/ c = 52 \/ c = 53 \/ c = 54 \/ c = 55 \/ c = 56 \/ c = 57)
    as Hc' by lia.
  repeat (destruct Hc' as [->|Hc']; [reflexivity|]). by subst.
Qed.

Lemma print_nat_cons n : 0 <= n < 10 ^ 10 -> ∃ c r, print_nat n = c :: r /\ 48 <= c <= 57.
Proof.
  intros Hn. destruct (dec_digits_spec 10 n) as (Hd & _ & d & l & E & _); [exact Hn|lia|].
  unfold print_nat. rewrite E in *. apply Forall_cons_1 in Hd as [? _]. simpl.
  eexists _, _. split; [done|]. lia.
Qed.

Lemma text_value_print n rest :
  -10 ^ 10 < n < 10 ^ 10 -> (rest = [] \/ ∃ r, rest = 32 :: r) ->
  text_value (print_int n ++ rest) = Some n.
Proof.
  intros Hn Hr. unfold print_int. destruct (Z.ltb_spec n 0).
  - simpl. rewrite text_magnitude_print by (done || lia). simpl. f_equal. lia.
  - destruct (print_nat_cons n) as (c & r & E & Hc); [lia|].
    pose proof (text_magnitude_print n rest ltac:(lia) Hr) as Hm.
    rewrite E in *. simpl in *. rewrite parse_sign_digit by done. done.
Qed.

(** Round trip: printing an [int] above INT_MIN in decimal and parsing it back, alone or
    followed by a space and more text, gives the number. *)
Theorem safe_parse_int32_print n rest :
  -2147483648 < n <= 2147483647 ->
  safe_parse_int32 (Some (print_int n)) = ParseOk n /\
  safe_parse_int32 (Some (print_int n ++ 32 :: rest)) = ParseOk n.
Proof.
  intros Hn. rewrite !safe_parse_int32_classify.
  rewrite <- (app_nil_r (print_int n)) at 1.
  rewrite !text_value_print by (eauto || lia). unfold classify.
  destruct (Z.ltb_spec (-2147483648) n), (Z.leb_spec n 2147483647); (done || lia).
Qed.

Lemma safe_parse_int32_print_witness :
  safe_parse_int32 (Some [45; 49; 48; 50; 52]) = ParseOk (-1024) /\
  safe_parse_int32 (Some ([45; 49; 48; 50; 52] ++ 32 :: [55])) = ParseOk (-1024).
Proof. apply (safe_parse_int32_print (-1024) [55]). lia. Defined.

(** *** Integer arrays *)

Fixpoint join_ints (xs : list Z) : cstring :=
  match xs with
  | [] => []
  | [n] => print_int n
  | n :: xs => print_int n ++ 32 :: join_ints xs
  end.

Lemma dec_digits_length fuel n : (length (dec_digits fuel n) ≤ fuel)%nat.
Proof.
  revert n. induction fuel as [|fuel IH]; intros n; simpl; [lia|].
  destruct (n <? 10); simpl; [lia|]. rewrite length_app. simpl. specialize (IH (n / 10)). lia.
Qed.

Lemma print_int_chars n :
  -10 ^ 10 < n < 10 ^ 10 ->
  Forall (fun c => c ≠ 32) (print_int n) /\ print_int n ≠ [] /\
  (length (print_int n) ≤ 11)%nat.
Proof.
  intros Hn.
  assert (H : ∀ m, 0 <= m < 10 ^ 10 ->
            Forall (fun c => c ≠ 32) (print_nat m) /\ print_nat m ≠ [] /\
            (length (print_nat m) ≤ 10)%nat).
  { intros m Hm. destruct (print_nat_cons m Hm) as (c & r & E & _). split; [|split].
    - unfold print_nat. apply Forall_fmap.
      destruct (dec_digits_spec 10 m) as (Hd & _); [exact Hm|lia|].
      eapply Forall_impl; [|exact Hd]. simpl. lia.
    - by rewrite E.
    - unfold print_nat. rewrite length_map. apply dec_digits_length. }
  unfold print_int. destruct (Z.ltb_spec n 0).
  - destruct (H (- n)) as (Hc & _ & Hl); [lia|]. split; [constructor; [lia|done]|].
    split; [done|]. simpl. lia.
  - destruct (H n) as (Hc & Hne & Hl); [lia|]. repeat split; try done. lia.
Qed.

Lemma take_token_app t rest :
  Forall (fun c => c ≠ 32) t -> (rest = [] \/ ∃ r, rest = 32 :: r) ->
  take_token (t ++ rest) = (t, rest).
Proof.
  intros H Hr. induction H as [|c t Hc _ IH]; simpl.
  - destruct Hr as [->|[r ->]]; done.
  - destruct (Z.eqb_spec c 32); [done|]. by rewrite IH.
Qed.

Lemma skip_spaces_id t : (∀ c r, t = c :: r -> c ≠ 32) -> skip_spaces t = t.
Proof.
  intros H. destruct t as [|c r]; [done|]. specialize (H c r eq_refl). simpl.
  repeat match goal with |- context [match ?x with _ => _ end] => destruct x; try done end.
Qed.

Lemma parse_array_token fuel cursor room acc n rest :
  -2147483648 < n <= 2147483647 -> (rest = [] \/ ∃ r, rest = 32 :: r) ->
  cursor ≠ [] -> skip_spaces cursor = print_int n ++ rest ->
  parse_array (S fuel) cursor (S room) acc = parse_array fuel rest room (acc ++ [n]).
Proof.
  intros Hn Hr Hc Hs. destruct (print_int_chars n) as (Hch & Hne & Hl); [lia|].
  cbn [parse_array]. destruct cursor as [|c cursor]; [done|]. rewrite Hs.
  destruct (print_int n ++ rest) as [|c' r'] eqn:E.
  { apply app_eq_nil in E as [E _]. done. }
  rewrite <- E, take_token_app by done. rewrite Z.geb_leb.
  destruct (Z.leb_spec 64 (Z.of_nat (length (print_int n)))); [lia|].
  rewrite safe_parse_int32_classify, <- (app_nil_r (print_int n)), text_value_print by (auto || lia).
  unfold classify. destruct (Z.ltb_spec (-2147483648) n), (Z.leb_spec n 2147483647); (done || lia).
Qed.

Lemma join_ints_skip n xs :
  -2147483648 < n <= 2147483647 -> skip_spaces (join_ints (n :: xs)) = join_ints (n :: xs).
Proof.
  intros Hn. destruct (print_int_chars n) as (Hch & Hne & _); [lia|].
  apply skip_spaces_id. intros c r E. destruct (print_int n) as [|c' r'] eqn:Ep; [done|].
  apply Forall_cons_1 in Hch as [Hc _].
  destruct xs as [|m xs]; simpl in E; rewrite Ep in E; by injection E as <- _.
Qed.

(** The text of [xs] and the same text after a space parse alike. *)
Lemma parse_array_join xs : ∀ fuel room acc lead,
  Forall (fun n => -2147483648 < n <= 2147483647) xs ->
  (length xs < fuel)%nat -> (length xs ≤ room)%nat -> lead = [] \/ (lead = [32] /\ xs ≠ []) ->
  parse_array fuel (lead ++ join_ints xs) room acc
    = Some (Z.of_nat (length (acc ++ xs)), acc ++ xs).
Proof.
  induction xs as [|n xs IH]; intros fuel room acc lead Hx Hf Hr Hl.
  - destruct fuel; [simpl in Hf; lia|]. destruct Hl as [->|[_ ?]]; [|done].
    rewrite !app_nil_r. by destruct room.
  - apply Forall_cons_1 in Hx as [Hn Hx]. simpl in Hf, Hr.
    destruct fuel as [|fuel]; [lia|]. destruct room as [|room]; [lia|].
    assert (Hsk : skip_spaces (lead ++ join_ints (n :: xs)) = join_ints (n :: xs)).
    { destruct Hl as [->|[-> _]]; simpl app; [|cbn [skip_spaces]]; by apply join_ints_skip. }
    assert (Hne : lead ++ join_ints (n :: xs) ≠ []).
    { destruct (print_int_chars n) as (_ & Hp & _); [lia|]. intros [_ E]%app_eq_nil.
      destruct xs; simpl in E; [done|]. by apply app_eq_nil in E as [? _]. }
    destruct xs as [|m xs].
    + rewrite (parse_array_token fuel _ room acc n []); [|done|auto|done|by rewrite app_nil_r].
      specialize (IH fuel room (acc ++ [n]) [] Hx ltac:(simpl; lia) ltac:(simpl; lia) ltac:(auto)).
      simpl in IH. by rewrite app_nil_r in IH.
    + rewrite (parse_array_token fuel _ room acc n (32 :: join_ints (m :: xs)));
        [|done|eauto|done|done].
      specialize (IH fuel room (acc ++ [n]) [32] Hx ltac:(lia) ltac:(lia) ltac:(auto)).
      by rewrite <- app_assoc in IH.
Qed.

(** An integer array property round-trips: the decimal texts of [xs], separated by
    spaces, are read back as exactly [xs] into an array with room for them, and the number
    of elements is returned. *)
Theorem parse_array_print xs room :
  Forall (fun n => -2147483648 < n <= 2147483647) xs -> (length xs ≤ room)%nat ->
  parse_array (S (length xs)) (join_ints xs) room [] = Some (Z.of_nat (length xs), xs).
Proof. intros Hx Hr. apply (parse_array_join xs _ room [] []); auto. Qed.

Lemma parse_array_print_witness :
  parse_array 4 [49; 48; 55; 51; 32; 45; 55; 32; 48] 3 [] = Some (3, [1073; -7; 0]).
Proof. apply (parse_array_print [1073; -7; 0] 3); [repeat constructor; lia|simpl; lia]. Defined.
