(* ===== verification/Device.v ===== *)
(** * Devices

    Models src/board/src/board_device.c: the table of device instances built from the
    device-tree nodes, the lookups and property getters, the status machine and the VFS
    entry points that check the status under the device lock and call the driver.  The node
    table and the name lookups are generated from the device tree and are parameters, as are
    the drivers' handlers; whether the lock is obtained in time is an input of each call.  A
    device pointer is NULL, an error pointer or an index of the table. *)

From S2P Require Import Prelude Status Lifecycle IntParse.

#[local] Open Scope Z_scope.

Record device_property := mk_prop { prop_key : cstring; prop_value : cstring }.

Inductive device_criticality := DEVICE_CRIT_IGNORE | DEVICE_CRIT_WARNING | DEVICE_CRIT_FATAL.

Inductive device_status :=
  | DEVICE_STATUS_DISABLED
  | DEVICE_STATUS_UNINIT
  | DEVICE_STATUS_READY
  | DEVICE_STATUS_PROBED
  | DEVICE_STATUS_RUNNING
  | DEVICE_STATUS_SUSPENDED
  | DEVICE_STATUS_ERROR
  | DEVICE_STATUS_REMOVED.

#[export] Instance device_status_eq_dec : EqDecision device_status.
Proof. solve_decision. Defined.
#[export] Instance device_criticality_eq_dec : EqDecision device_criticality.
Proof. solve_decision. Defined.

Record device_reg := mk_reg { reg_addr : list Z; reg_size : option (list Z) }.
Record device_irq := mk_irq { irq_irq : Z; irq_type : Z; irq_flags : Z }.

Record device_node := mk_node {
  nd_name : option cstring;
  nd_label : option cstring;
  nd_compatible : option cstring;
  nd_path : option cstring;
  nd_props : list device_property;       (** the [prop_count] entries *)
  nd_deps : option (list Z);             (** None for NULL; [dep_count] is its length *)
  nd_regs : option (list device_reg);
  nd_reg_count : Z;
  nd_irqs : option (list device_irq);
  nd_irq_count : Z;
  nd_status : device_status;
  nd_criticality : device_criticality;
  nd_flags : Z
}.

Definition DEVICE_FLAG_DIRECT : Z := 1.

(** The operation table: which entries are non-NULL, each a handler of the driver. *)
Record file_operations := mk_fops {
  fo_init : option Z; fo_open : option Z; fo_close : option Z; fo_write : option Z;
  fo_read : option Z; fo_ioctl : option Z; fo_suspend : option Z; fo_resume : option Z
}.

Record device := mk_dev {
  dv_node : option device_node;
  dv_status : device_status;
  dv_priv_data : Z;                      (** 0 for NULL *)
  dv_ops : option file_operations;
  dv_lock : bool;                        (** the mutex exists *)
  dv_lc : dev_lifecycle;
  dv_platform_data : Z;
  dv_magic : option cstring
}.

Definition dv_set_status (d : device) (s : device_status) : device :=
  mk_dev (dv_node d) s (dv_priv_data d) (dv_ops d) (dv_lock d) (dv_lc d) (dv_platform_data d)
    (dv_magic d).
Definition dv_set_priv (d : device) (p : Z) : device :=
  mk_dev (dv_node d) (dv_status d) p (dv_ops d) (dv_lock d) (dv_lc d) (dv_platform_data d)
    (dv_magic d).
Definition dv_set_ops (d : device) (o : option file_operations) : device :=
  mk_dev (dv_node d) (dv_status d) (dv_priv_data d) o (dv_lock d) (dv_lc d)
    (dv_platform_data d) (dv_magic d).

Inductive devptr := PNull | PErr (code : Z) | PDev (i : Z).

#[export] Instance devptr_eq_dec : EqDecision devptr.
Proof. solve_decision. Defined.

(** ** The status machine *)

Definition device_status_can_transit (from to : device_status) : bool :=
  if decide (from = to) then true else
  let goes s := bool_decide (to = s) in
  match from with
  | DEVICE_STATUS_DISABLED => goes DEVICE_STATUS_READY || goes DEVICE_STATUS_UNINIT
  | DEVICE_STATUS_UNINIT =>
      goes DEVICE_STATUS_READY || goes DEVICE_STATUS_ERROR || goes DEVICE_STATUS_DISABLED
  | DEVICE_STATUS_READY =>
      goes DEVICE_STATUS_PROBED || goes DEVICE_STATUS_DISABLED || goes DEVICE_STATUS_ERROR
  | DEVICE_STATUS_PROBED =>
      goes DEVICE_STATUS_RUNNING || goes DEVICE_STATUS_SUSPENDED || goes DEVICE_STATUS_READY ||
      goes DEVICE_STATUS_REMOVED || goes DEVICE_STATUS_ERROR
  | DEVICE_STATUS_RUNNING =>
      goes DEVICE_STATUS_SUSPENDED || goes DEVICE_STATUS_READY || goes DEVICE_STATUS_REMOVED ||
      goes DEVICE_STATUS_ERROR || goes DEVICE_STATUS_PROBED
  | DEVICE_STATUS_SUSPENDED =>
      goes DEVICE_STATUS_RUNNING || goes DEVICE_STATUS_READY || goes DEVICE_STATUS_REMOVED ||
      goes DEVICE_STATUS_ERROR
  | DEVICE_STATUS_ERROR => goes DEVICE_STATUS_REMOVED
  | DEVICE_STATUS_REMOVED => goes DEVICE_STATUS_READY || goes DEVICE_STATUS_DISABLED
  end.

(** [lock_ok]: the mutex is obtained within the timeout. *)
Definition device_set_status (lock_ok : bool) (pdev : option device) (status : device_status)
    : Z * option device :=
  match pdev with
  | None => (MINI_ERR_INVAL, None)
  | Some d =>
      if dv_lock d && negb lock_ok then (MINI_ERR_BUSY, pdev) else
      if negb (device_status_can_transit (dv_status d) status) then (MINI_ERR_INVAL, pdev)
      else (MINI_OK, Some (dv_set_status d status))
  end.

Definition device_set_priv (pdev : option device) (priv : Z) : Z * option device :=
  match pdev with
  | None => (MINI_ERR_INVAL, None)
  | Some d => (MINI_OK, Some (dv_set_priv d priv))
  end.

(** The result is the pointer, or the code of an error pointer. *)
Definition device_get_priv (pdev : option device) : Z + Z :=
  match pdev with
  | None => inr MINI_ERR_INVAL
  | Some d => if dv_priv_data d =? 0 then inr MINI_ERR_NODEV else inl (dv_priv_data d)
  end.

Definition device_get_status (pdev : option device) : device_status :=
  match pdev with None => DEVICE_STATUS_DISABLED | Some d => dv_status d end.

Definition device_get_name (pdev : option device) : option cstring :=
  d ← pdev; n ← dv_node d; nd_name n.

Definition device_get_compatible (pdev : option device) : option cstring :=
  d ← pdev; n ← dv_node d; nd_compatible n.

Definition device_get_criticality (pdev : option device) : device_criticality :=
  match d ← pdev; dv_node d with
  | None => DEVICE_CRIT_WARNING
  | Some n => nd_criticality n
  end.

(** [MINI_OK] means the mutex is held. *)
Definition device_lock (lock_ok : bool) (pdev : option device) : Z :=
  match pdev with
  | None => MINI_ERR_INVAL
  | Some d => if negb (dv_lock d) then MINI_ERR_BUSY
              else if lock_ok then MINI_OK else MINI_ERR_BUSY
  end.

Definition device_unlock (unlock_ok : bool) (pdev : option device) : Z :=
  match pdev with
  | None => MINI_ERR_INVAL
  | Some d => if negb (dv_lock d) then MINI_ERR_INVAL
              else if unlock_ok then MINI_OK else MINI_ERR_IO
  end.

(** ** The VFS entry points *)
Section vfs.
(** A driver's handler: its code on the device, and its return value. *)
Context (call : Z -> device -> Z * device).

(** What an entry point did: the handler it called, if any. *)
Inductive vfs_event :=
  | EvOpen (ret : Z) | EvClose (ret : Z) | EvSuspend (ret : Z) | EvResume (ret : Z)
  | EvIo (ret : Z) | EvRemoved.

Definition device_open (lock_ok : bool) (pdev : option device)
    : Z * option device * list vfs_event :=
  match pdev with
  | None => (MINI_ERR_INVAL, None, [])
  | Some d =>
      if negb (device_lock lock_ok pdev =? MINI_OK) then (MINI_ERR_BUSY, pdev, []) else
      match o ← dv_ops d; (match fo_open o with Some h => Some h | None => fo_init o end) with
      | None => (MINI_ERR_IO, pdev, [])
      | Some h =>
          if decide (dv_status d = DEVICE_STATUS_RUNNING) then (MINI_OK, pdev, []) else
          if decide (dv_status d ≠ DEVICE_STATUS_PROBED) then (MINI_ERR_IO, pdev, []) else
          let '(ret, d1) := call h d in
          let d2 := if ret =? MINI_OK
                    then (device_set_status true (Some d1) DEVICE_STATUS_RUNNING).2
                    else Some d1 in
          (ret, d2, [EvOpen ret])
      end
  end.

Definition device_close (lock_ok : bool) (pdev : option device)
    : Z * option device * list vfs_event :=
  match pdev with
  | None => (MINI_ERR_INVAL, None, [])
  | Some d =>
      if negb (device_lock lock_ok pdev =? MINI_OK) then (MINI_ERR_BUSY, pdev, []) else
      match o ← dv_ops d; fo_close o with
      | None => (MINI_ERR_IO, pdev, [])
      | Some h =>
          if decide (dv_status d ≠ DEVICE_STATUS_RUNNING /\ dv_status d ≠ DEVICE_STATUS_SUSPENDED)
          then (MINI_ERR_IO, pdev, []) else
          let '(ret, d1) := call h d in
          let d2 := if ret =? MINI_OK
                    then (device_set_status true (Some d1) DEVICE_STATUS_PROBED).2
                    else Some d1 in
          (ret, d2, [EvClose ret])
      end
  end.

(** The common body of [device_write], [device_read] and [device_ioctl]; [sel] selects the
    operation. *)
Definition device_io (sel : file_operations -> option Z) (lock_ok : bool)
    (pdev : option device) : Z * option device * list vfs_event :=
  match pdev with
  | None => (MINI_ERR_INVAL, None, [])
  | Some d =>
      if negb (device_lock lock_ok pdev =? MINI_OK) then (MINI_ERR_BUSY, pdev, []) else
      match o ← dv_ops d; sel o with
      | None => (MINI_ERR_IO, pdev, [])
      | Some h =>
          if decide (dv_status d ≠ DEVICE_STATUS_RUNNING) then (MINI_ERR_IO, pdev, []) else
          let '(ret, d1) := call h d in (ret, Some d1, [EvIo ret])
      end
  end.
Definition device_write := device_io fo_write.
Definition device_read := device_io fo_read.
Definition device_ioctl := device_io fo_ioctl.

Definition device_suspend (lock_ok : bool) (pdev : option device)
    : Z * option device * list vfs_event :=
  match pdev with
  | None => (MINI_ERR_INVAL, None, [])
  | Some d =>
      if negb (device_lock lock_ok pdev =? MINI_OK) then (MINI_ERR_BUSY, pdev, []) else
      if decide (dv_status d ≠ DEVICE_STATUS_RUNNING) then (MINI_ERR_IO, pdev, []) else
      let '(ret, d1) := match o ← dv_ops d; fo_suspend o with
                        | Some h => call h d | None => (MINI_OK, d) end in
      if negb (ret =? MINI_OK) then (ret, Some d1, [EvSuspend ret]) else
      (MINI_OK, (device_set_status true (Some d1) DEVICE_STATUS_SUSPENDED).2, [EvSuspend ret])
  end.

Definition device_resume (lock_ok : bool) (pdev : option device)
    : Z * option device * list vfs_event :=
  match pdev with
  | None => (MINI_ERR_INVAL, None, [])
  | Some d =>
      if negb (device_lock lock_ok pdev =? MINI_OK) then (MINI_ERR_BUSY, pdev, []) else
      if decide (dv_status d ≠ DEVICE_STATUS_SUSPENDED) then (MINI_ERR_IO, pdev, []) else
      let '(ret, d1) := match o ← dv_ops d; fo_resume o with
                        | Some h => call h d | None => (MINI_OK, d) end in
      if negb (ret =? MINI_OK) then (ret, Some d1, [EvResume ret]) else
      (MINI_OK, (device_set_status true (Some d1) DEVICE_STATUS_RUNNING).2, [EvResume ret])
  end.

(** [lock2_ok]: the second acquisition, after the removal has been broadcast.  The result
    says whether [EVENT_SYS_DEVICE_REMOVED] was posted. *)
Definition device_ops_unregister (lock_ok lock2_ok : bool) (pdev : option device)
    : option device * list vfs_event :=
  match pdev with
  | None => (None, [])
  | Some d =>
      if negb (device_lock lock_ok pdev =? MINI_OK) then (pdev, []) else
      match (device_set_status true pdev DEVICE_STATUS_REMOVED).2 with
      | None => (None, [])
      | Some d1 =>
          if negb (device_lock lock2_ok (Some d1) =? MINI_OK) then (Some d1, [EvRemoved]) else
          (Some (dv_set_ops (dv_set_priv d1 0) None), [EvRemoved])
      end
  end.
End vfs.

(** ** Properties *)

(** The search loop of the getters: the first property with this key. *)
Fixpoint find_prop (props : list device_property) (key : cstring) : option cstring :=
  match props with
  | [] => None
  | p :: rest => if decide (prop_key p = key) then Some (prop_value p) else find_prop rest key
  end.

(** The code and the value stored through [val]; [ParseUB] is undefined behaviour (None). *)
Definition device_get_prop_int (pdev : option device) (key : option cstring) (val : option Z)
    : option (Z * option Z) :=
  match d ← pdev; dv_node d, key, val with
  | Some n, Some k, Some _ =>
      match find_prop (nd_props n) k with
      | None => Some (MINI_ERR_INVAL, val)
      | Some v =>
          match safe_parse_int32 (Some v) with
          | ParseErr => Some (MINI_ERR_INVAL, val)
          | ParseOk x => Some (MINI_OK, Some x)
          | ParseUB => None
          end
      end
  | _, _, _ => Some (MINI_ERR_INVAL, val)
  end.

Definition device_get_prop_bool := device_get_prop_int.

(** The code or count, and the elements stored from the front of [out_arr]. *)
Definition device_get_prop_int_array (pdev : option device) (key : option cstring)
    (max_len : Z) : option (Z * list Z) :=
  match d ← pdev; dv_node d, key with
  | Some n, Some k =>
      if max_len <=? 0 then Some (MINI_ERR_INVAL, []) else
      match find_prop (nd_props n) k with
      | None => Some (MINI_ERR_INVAL, [])
      | Some value => parse_array (S (length value)) value (Z.to_nat max_len) []
      end
  | _, _ => Some (MINI_ERR_INVAL, [])
  end.

Definition device_get_prop_str (pdev : option device) (key : option cstring)
    : Z * option cstring :=
  match d ← pdev; dv_node d, key with
  | Some n, Some k =>
      match find_prop (nd_props n) k with
      | None => (MINI_ERR_INVAL, None)
      | Some v => (MINI_OK, Some v)
      end
  | _, _ => (MINI_ERR_INVAL, None)
  end.

(** Outer None: an index outside the table. *)
Definition device_get_reg (pdev : option device) (idx : Z) : option (Z * option device_reg) :=
  match d ← pdev; dv_node d with
  | None => Some (MINI_ERR_INVAL, None)
  | Some n =>
      if (idx <? 0) || (idx >=? nd_reg_count n) then Some (MINI_ERR_INVAL, None) else
      match nd_regs n with
      | None => Some (MINI_ERR_INVAL, None)
      | Some regs => r ← arr_get regs idx; Some (MINI_OK, Some r)
      end
  end.

Definition device_get_irq (pdev : option device) (idx : Z) : option (Z * option device_irq) :=
  match d ← pdev; dv_node d with
  | None => Some (MINI_ERR_INVAL, None)
  | Some n =>
      if (idx <? 0) || (idx >=? nd_irq_count n) then Some (MINI_ERR_INVAL, None) else
      match nd_irqs n with
      | None => Some (MINI_ERR_INVAL, None)
      | Some irqs => r ← arr_get irqs idx; Some (MINI_OK, Some r)
      end
  end.

Definition device_magic_check (pdev : option device) (magic : cstring) : Z :=
  match pdev with
  | None => MINI_ERR_INVAL
  | Some d =>
      match dv_magic d with
      | None => MINI_ERR_NOTINIT
      | Some m => if decide (m = magic) then MINI_OK else MINI_ERR_INVAL
      end
  end.

(** ** The device table *)
Section table.
(** The generated node table: entry [i] is the node of device id [i]. *)
Context (nodes : list (option device_node)).
(** The generated lookups: an id, or a negative value. *)
Context (board_dev_find board_dev_find_by_label board_dev_find_by_compat : cstring -> Z).
(** The number of devices with an instance. *)
Context (board_dev_count : Z).

Definition DEV_ID_COUNT : Z := Z.of_nat (length nodes).
Definition board_node_get (i : Z) : option device_node := mjoin (nodes !! Z.to_nat i).

(** One round of [device_tree_init]; [None] is the halt after a failed mutex creation. *)
Definition device_init_one (mutex_ok : bool) (old : device) (node : option device_node)
    : option device :=
  let status := match node with Some n => nd_status n | None => DEVICE_STATUS_DISABLED end in
  let d := mk_dev node status 0 None false (mk_lc 0 0 DEV_LC_UNINITIALIZED) 0 (dv_magic old) in
  match node with
  | Some n =>
      if bool_decide (status ≠ DEVICE_STATUS_DISABLED) && (Z.land (nd_flags n) DEVICE_FLAG_DIRECT =? 0)
      then if mutex_ok
           then Some (mk_dev node status 0 None true (mk_lc 0 0 DEV_LC_LIVE) 0 (dv_magic old))
           else None
      else Some d
  | None => Some d
  end.

(** The loop over the table, [mutexes] being the outcomes of the mutex creations. *)
Fixpoint device_tree_loop (mutexes : nat -> bool) (index : nat) (old : list device)
    : option (list device) :=
  match old with
  | [] => Some []
  | o :: rest =>
      d ← device_init_one (mutexes index) o (board_node_get (Z.of_nat index));
      ds ← device_tree_loop mutexes (S index) rest; Some (d :: ds)
  end.

Definition device_tree_init (mutexes : nat -> bool) (old : list device)
    : option (Z * list device) :=
  ds ← device_tree_loop mutexes 0 old;
  Some (if board_dev_count >? 0 then MINI_OK else MINI_ERR_IO, ds).

Definition board_dev_get (id : Z) : devptr :=
  if (id <? 0) || (id >=? DEV_ID_COUNT) then PErr MINI_ERR_INVAL else PDev id.

Definition device_find_by_id (id : Z) : devptr := board_dev_get id.

Definition find_with (lookup : cstring -> Z) (s : option cstring) : devptr :=
  match s with
  | None => PErr MINI_ERR_INVAL
  | Some s => let id := lookup s in if id <? 0 then PErr MINI_ERR_NODEV else board_dev_get id
  end.
Definition device_find := find_with board_dev_find.
Definition device_find_by_label := find_with board_dev_find_by_label.
Definition device_find_by_compatible := find_with board_dev_find_by_compat.

Definition device_get_phandle_dev (pdev : option device) (key : option cstring) : devptr :=
  match pdev, key with
  | Some _, Some _ =>
      match device_get_prop_str pdev key with
      | (0, val) => device_find_by_label val
      | _ => PErr MINI_ERR_INVAL
      end
  | _, _ => PErr MINI_ERR_INVAL
  end.

(** The search of [device_find_by_path] from index [i]. *)
Fixpoint find_path (l : list (option device_node)) (i : Z) (path : cstring) : devptr :=
  match l with
  | [] => PErr MINI_ERR_NODEV
  | n :: rest =>
      if decide ((n ≫= nd_path) = Some path) then board_dev_get i else find_path rest (i + 1) path
  end.

Definition device_find_by_path (path : option cstring) : devptr :=
  match path with None => PErr MINI_ERR_INVAL | Some p => find_path nodes 0 p end.

Definition device_get_parent (pdev : option device) : devptr :=
  match d ← pdev; dv_node d with
  | None => PErr MINI_ERR_INVAL
  | Some n =>
      match nd_deps n with
      | None | Some [] => PErr MINI_ERR_NODEV
      | Some (d :: _) => board_dev_get d
      end
  end.

Definition device_get_first : devptr :=
  if board_dev_count <=? 0 then PErr MINI_ERR_NODEV else board_dev_get 0.

(** The search loop of [device_get_next] from index [i], [n] rounds left. *)
Fixpoint next_from (n : nat) (i : Z) (prev : devptr) : devptr :=
  match n with
  | O => PErr MINI_ERR_INVAL
  | S n =>
      if decide (board_dev_get i = prev) then
        let next := i + 1 in
        if next >=? board_dev_count then PErr MINI_ERR_NODEV else board_dev_get next
      else next_from n (i + 1) prev
  end.

Definition device_get_next (prev : devptr) : devptr :=
  match prev with
  | PNull | PErr _ => PErr MINI_ERR_INVAL
  | PDev _ => next_from (Z.to_nat board_dev_count) 0 prev
  end.

Definition device_get_count : Z := board_dev_count.

(** ** Enumeration *)

Lemma board_dev_get_in i : 0 <= i < DEV_ID_COUNT -> board_dev_get i = PDev i.
Proof.
  intros H. unfold board_dev_get. rewrite Z.geb_leb.
  destruct (Z.ltb_spec i 0), (Z.leb_spec DEV_ID_COUNT i); (done || lia).
Qed.

Lemma next_from_spec n : ∀ i j,
  0 <= i -> i <= j -> j < i + Z.of_nat n -> j < DEV_ID_COUNT ->
  next_from n i (PDev j)
    = if j + 1 >=? board_dev_count then PErr MINI_ERR_NODEV else board_dev_get (j + 1).
Proof.
  induction n as [|n IH]; intros i j Hi Hij Hj Hc; [lia|]. cbn [next_from].
  rewrite board_dev_get_in by lia. destruct (decide (i = j)) as [->|Hne].
  - by rewrite decide_True.
  - rewrite decide_False by congruence. apply IH; lia.
Qed.

(** The pointers [device_get_first], [device_get_next], ... visit. *)
Fixpoint walk (fuel : nat) (p : devptr) : list devptr :=
  match fuel, p with
  | S fuel, PDev i => PDev i :: walk fuel (device_get_next p)
  | _, _ => []
  end.

Lemma walk_from n : ∀ i,
  0 <= i -> i + Z.of_nat n = board_dev_count -> board_dev_count <= DEV_ID_COUNT ->
  walk (S n) (if i <? board_dev_count then board_dev_get i else PErr MINI_ERR_NODEV)
    = map (fun k => PDev (i + Z.of_nat k)) (seq 0 n).
Proof.
  induction n as [|n IH]; intros i Hi Hn Hc.
  - destruct (Z.ltb_spec i board_dev_count); [lia|done].
  - destruct (Z.ltb_spec i board_dev_count); [|lia]. rewrite board_dev_get_in by lia.
    change (walk (S (S n)) (PDev i)) with (PDev i :: walk (S n) (device_get_next (PDev i))).
    unfold device_get_next.
    rewrite next_from_spec by lia. cbn [seq map]. rewrite Z.add_0_r. f_equal.
    rewrite <- seq_shift, map_map.
    specialize (IH (i + 1) ltac:(lia) ltac:(lia) Hc).
    rewrite Z.geb_leb.
    replace (if board_dev_count <=? i + 1 then PErr MINI_ERR_NODEV else board_dev_get (i + 1))
      with (if i + 1 <? board_dev_count then board_dev_get (i + 1) else PErr MINI_ERR_NODEV)
      by (destruct (Z.ltb_spec (i + 1) board_dev_count), (Z.leb_spec board_dev_count (i + 1)); (done || lia)).
    rewrite IH. apply map_ext. intros k. f_equal. lia.
Qed.

(** Walking the devices with [device_get_first] and [device_get_next] visits every
    device instance exactly once, in table order, and then ends with an error pointer;
    the walk needs [board_dev_count] steps. *)
Theorem device_walk_complete :
  0 <= board_dev_count <= DEV_ID_COUNT ->
  walk (S (Z.to_nat board_dev_count)) device_get_first
    = map (fun k => PDev (Z.of_nat k)) (seq 0 (Z.to_nat board_dev_count)).
Proof.
  intros Hc. pose proof (walk_from (Z.to_nat board_dev_count) 0 ltac:(lia) ltac:(lia) ltac:(lia)) as H.
  unfold device_get_first.
  destruct (Z.leb_spec board_dev_count 0), (Z.ltb_spec 0 board_dev_count); try lia; exact H.
Qed.

(** Looking a device up by its path finds the first node with that path. *)
Lemma device_find_by_path_spec path :
  (∃ i n, nodes !! i = Some (Some n) /\ nd_path n = Some path /\
          (∀ j m, (j < i)%nat -> nodes !! j = Some (Some m) -> nd_path m ≠ Some path) /\
          device_find_by_path (Some path) = PDev (Z.of_nat i)) \/
  ((∀ i n, nodes !! i = Some (Some n) -> nd_path n ≠ Some path) /\
   device_find_by_path (Some path) = PErr MINI_ERR_NODEV).
Proof.
  assert (H : ∀ l k, (∀ i, l !! i = nodes !! (k + i)%nat) -> (k + length l ≤ length nodes)%nat ->
    (∃ i n, l !! i = Some (Some n) /\ nd_path n = Some path /\
          (∀ j m, (j < i)%nat -> l !! j = Some (Some m) -> nd_path m ≠ Some path) /\
          find_path l (Z.of_nat k) path = PDev (Z.of_nat (k + i))) \/
    ((∀ i n, l !! i = Some (Some n) -> nd_path n ≠ Some path) /\
     find_path l (Z.of_nat k) path = PErr MINI_ERR_NODEV)).
  { induction l as [|x l IH]; intros k Hl Hk; simpl.
    - right. split; [|done]. intros i n Hn. by rewrite lookup_nil in Hn.
    - simpl in Hk. destruct (decide ((x ≫= nd_path) = Some path)) as [E|E].
      + left. destruct x as [n|]; [|done]. exists 0%nat, n. split; [done|]. split; [done|].
        split; [lia|]. rewrite board_dev_get_in, Nat.add_0_r; [done|].
        unfold DEV_ID_COUNT. lia.
      + replace (Z.of_nat k + 1) with (Z.of_nat (S k)) by lia.
        destruct (IH (S k)) as [(i & n & H1 & H2 & H3 & H4)|[H1 H2]].
        * intros i. specialize (Hl (S i)). simpl in Hl. rewrite Hl. f_equal. lia.
        * lia.
        * left. exists (S i), n. split; [done|]. split; [done|]. split.
          { intros [|j] m Hj Hm; simpl in Hm.
            - injection Hm as ->. done.
            - apply (H3 j); [lia|done]. }
          rewrite H4. f_equal. lia.
        * right. split; [|done]. intros [|i] n Hn; simpl in Hn.
          { injection Hn as ->. done. }
          by apply (H1 i). }
  apply (H nodes 0%nat); [done|lia].
Qed.
End table.

Lemma device_walk_complete_witness :
  walk [None; None; None] 3 4 (device_get_first [None; None; None] 3) = [PDev 0; PDev 1; PDev 2].
Proof. apply (device_walk_complete [None; None; None] 3). unfold DEV_ID_COUNT. simpl. lia. Defined.

(** ** Sequences of VFS calls *)
Section vfs_runs.
Context (call : Z -> device -> Z * device).
(** Drivers change the status of their device only through the framework. *)
Context (Hcall : ∀ h d, dv_status (call h d).2 = dv_status d /\ dv_lock (call h d).2 = dv_lock d).

Inductive vfs_op :=
  | VOpen (lock_ok : bool) | VClose (lock_ok : bool) | VWrite (lock_ok : bool)
  | VRead (lock_ok : bool) | VIoctl (lock_ok : bool) | VSuspend (lock_ok : bool)
  | VResume (lock_ok : bool) | VUnregister (lock_ok lock2_ok : bool).

Definition vfs_exec (d : option device) (op : vfs_op) : option device * list vfs_event :=
  match op with
  | VOpen l => let '(_, d', e) := device_open call l d in (d', e)
  | VClose l => let '(_, d', e) := device_close call l d in (d', e)
  | VWrite l => let '(_, d', e) := device_write call l d in (d', e)
  | VRead l => let '(_, d', e) := device_read call l d in (d', e)
  | VIoctl l => let '(_, d', e) := device_ioctl call l d in (d', e)
  | VSuspend l => let '(_, d', e) := device_suspend call l d in (d', e)
  | VResume l => let '(_, d', e) := device_resume call l d in (d', e)
  | VUnregister l l2 => device_ops_unregister l l2 d
  end.

Fixpoint vfs_run (d : option device) (ops : list vfs_op) : option device * list vfs_event :=
  match ops with
  | [] => (d, [])
  | op :: ops =>
      let '(d1, e1) := vfs_exec d op in let '(d2, e2) := vfs_run d1 ops in (d2, e1 ++ e2)
  end.

(** The contract of a driver: what the framework may call in each state of the device as
    the driver sees it. *)
Inductive drv_state := DrvClosed | DrvRunning | DrvSuspended | DrvGone.

Definition drv_step (s : drv_state) (e : vfs_event) : option drv_state :=
  match s, e with
  | DrvClosed, EvOpen r => Some (if r =? MINI_OK then DrvRunning else DrvClosed)
  | DrvRunning, EvIo _ => Some DrvRunning
  | DrvRunning, EvSuspend r => Some (if r =? MINI_OK then DrvSuspended else DrvRunning)
  | DrvSuspended, EvResume r => Some (if r =? MINI_OK then DrvRunning else DrvSuspended)
  | (DrvRunning | DrvSuspended), EvClose r => Some (if r =? MINI_OK then DrvClosed else s)
  | _, EvRemoved => Some DrvGone
  | _, _ => None
  end.

Fixpoint drv_steps (s : drv_state) (es : list vfs_event) : option drv_state :=
  match es with [] => Some s | e :: es => s' ← drv_step s e; drv_steps s' es end.

(** The status the framework keeps, as the driver's state. *)
Definition drv_of (d : device) : drv_state :=
  match dv_status d with
  | DEVICE_STATUS_RUNNING => DrvRunning
  | DEVICE_STATUS_SUSPENDED => DrvSuspended
  | DEVICE_STATUS_PROBED => DrvClosed
  | _ => DrvGone
  end.

Definition vfs_status (d : device) : Prop :=
  match dv_status d with
  | DEVICE_STATUS_PROBED | DEVICE_STATUS_RUNNING | DEVICE_STATUS_SUSPENDED
  | DEVICE_STATUS_REMOVED => True
  | _ => False
  end.

(** Setting the status from one the call has established is always a legal transition. *)
Lemma set_status_ok d s :
  device_status_can_transit (dv_status d) s = true ->
  (device_set_status true (Some d) s).2 = Some (dv_set_status d s).
Proof. intros H. unfold device_set_status. rewrite andb_false_r, H. done. Qed.

Arguments device_set_status : simpl never.

Lemma device_open_ok l d :
  vfs_status d ->
  let '(_, d', e) := device_open call l (Some d) in
  ∃ d1, d' = Some d1 /\ vfs_status d1 /\ drv_steps (drv_of d) e = Some (drv_of d1).
Proof using Hcall.
  intros Hd. unfold device_open.
  destruct (negb (device_lock l (Some d) =? MINI_OK)); [eauto|].
  destruct (dv_ops d ≫= _) as [h|]; [|eauto].
  destruct (decide (dv_status d = DEVICE_STATUS_RUNNING)); [eauto|].
  destruct (decide (dv_status d ≠ DEVICE_STATUS_PROBED)) as [|Hp]; [eauto|].
  assert (Es : dv_status d = DEVICE_STATUS_PROBED)
    by (destruct (decide (dv_status d = DEVICE_STATUS_PROBED)); [done|exfalso; auto]).
  pose proof (Hcall h d) as [Hs _]. destruct (call h d) as [ret d1]. simpl in Hs.
  unfold vfs_status, drv_of in *. destruct (Z.eqb_spec ret MINI_OK) as [->|Hr].
  - rewrite set_status_ok by (by rewrite Hs, Es). eexists. split; [done|]. simpl.
    split; [done|]. by rewrite Es.
  - eexists. split; [done|]. rewrite Hs, Es in *. split; [done|]. simpl.
    by destruct (Z.eqb_spec ret MINI_OK).
Qed.

Lemma device_close_ok l d :
  vfs_status d -> dv_status d ≠ DEVICE_STATUS_SUSPENDED ->
  let '(_, d', e) := device_close call l (Some d) in
  ∃ d1, d' = Some d1 /\ vfs_status d1 /\ drv_steps (drv_of d) e = Some (drv_of d1).
Proof using Hcall.
  intros Hd Hns. unfold device_close.
  destruct (negb (device_lock l (Some d) =? MINI_OK)); [eauto|].
  destruct (dv_ops d ≫= _) as [h|]; [|eauto].
  destruct (decide (dv_status d ≠ DEVICE_STATUS_RUNNING /\ dv_status d ≠ DEVICE_STATUS_SUSPENDED))
    as [|Hp]; [eauto|].
  assert (Es : dv_status d = DEVICE_STATUS_RUNNING)
    by (destruct (dv_status d); auto; exfalso; by apply Hp).
  pose proof (Hcall h d) as [Hs _]. destruct (call h d) as [ret d1]. simpl in Hs.
  unfold vfs_status, drv_of in *. destruct (Z.eqb_spec ret MINI_OK) as [->|Hr].
  - rewrite set_status_ok by (by rewrite Hs, Es). eexists. split; [done|]. simpl.
    by rewrite Es.
  - eexists. split; [done|]. rewrite Hs, Es in *. split; [done|]. simpl.
    by destruct (Z.eqb_spec ret MINI_OK).
Qed.

(** The transition table has no edge from SUSPENDED to PROBED. *)
Lemma device_close_suspended_eq l d h d1 :
  dv_status d = DEVICE_STATUS_SUSPENDED -> device_lock l (Some d) = MINI_OK ->
  (o ← dv_ops d; fo_close o) = Some h -> call h d = (MINI_OK, d1) ->
  device_close call l (Some d) = (MINI_OK, Some d1, [EvClose MINI_OK]).
Proof using Hcall.
  intros Es Hl Ho Hc. unfold device_close. rewrite Hl, Ho. simpl.
  rewrite decide_False by (rewrite Es; naive_solver). rewrite Hc. simpl.
  pose proof (Hcall h d) as [Hs _]. rewrite Hc in Hs. simpl in Hs.
  unfold device_set_status. by rewrite andb_false_r, Hs, Es.
Qed.

Lemma device_io_ok sel l d :
  vfs_status d ->
  let '(_, d', e) := device_io call sel l (Some d) in
  ∃ d1, d' = Some d1 /\ vfs_status d1 /\ drv_steps (drv_of d) e = Some (drv_of d1).
Proof using Hcall.
  intros Hd. unfold device_io.
  destruct (negb (device_lock l (Some d) =? MINI_OK)); [eauto|].
  destruct (dv_ops d ≫= _) as [h|]; [|eauto].
  destruct (decide (dv_status d ≠ DEVICE_STATUS_RUNNING)) as [|Hp]; [eauto|].
  assert (Es : dv_status d = DEVICE_STATUS_RUNNING) by (destruct (dv_status d); auto; by exfalso; apply Hp).
  pose proof (Hcall h d) as [Hs _]. destruct (call h d) as [ret d1]. simpl in Hs.
  exists d1. split; [done|]. unfold vfs_status, drv_of in *. rewrite Hs, Es. done.
Qed.

Lemma device_suspend_ok l d :
  vfs_status d ->
  let '(_, d', e) := device_suspend call l (Some d) in
  ∃ d1, d' = Some d1 /\ vfs_status d1 /\ drv_steps (drv_of d) e = Some (drv_of d1).
Proof using Hcall.
  intros Hd. unfold device_suspend.
  destruct (negb (device_lock l (Some d) =? MINI_OK)); [eauto|].
  destruct (decide (dv_status d ≠ DEVICE_STATUS_RUNNING)) as [|Hp]; [eauto|].
  assert (Es : dv_status d = DEVICE_STATUS_RUNNING) by (destruct (dv_status d); auto; by exfalso; apply Hp).
  destruct (match dv_ops d ≫= _ with Some h => _ | None => _ end) as [ret d1] eqn:Ec.
  assert (Hs : dv_status d1 = dv_status d).
  { destruct (dv_ops d ≫= fo_suspend) as [h|]; [|by injection Ec as _ <-].
    pose proof (Hcall h d) as [Hs _]. by rewrite Ec in Hs. }
  unfold vfs_status, drv_of in *. rewrite Es in *.
  destruct (Z.eqb_spec ret MINI_OK) as [->|Hr]; simpl.
  - rewrite set_status_ok by (by rewrite Hs). eexists. split; [done|]. done.
  - eexists. split; [done|]. rewrite Hs. split; [done|]. by destruct (Z.eqb_spec ret MINI_OK).
Qed.

Lemma device_resume_ok l d :
  vfs_status d ->
  let '(_, d', e) := device_resume call l (Some d) in
  ∃ d1, d' = Some d1 /\ vfs_status d1 /\ drv_steps (drv_of d) e = Some (drv_of d1).
Proof using Hcall.
  intros Hd. unfold device_resume.
  destruct (negb (device_lock l (Some d) =? MINI_OK)); [eauto|].
  destruct (decide (dv_status d ≠ DEVICE_STATUS_SUSPENDED)) as [|Hp]; [eauto|].
  assert (Es : dv_status d = DEVICE_STATUS_SUSPENDED) by (destruct (dv_status d); auto; by exfalso; apply Hp).
  destruct (match dv_ops d ≫= _ with Some h => _ | None => _ end) as [ret d1] eqn:Ec.
  assert (Hs : dv_status d1 = dv_status d).
  { destruct (dv_ops d ≫= fo_resume) as [h|]; [|by injection Ec as _ <-].
    pose proof (Hcall h d) as [Hs _]. by rewrite Ec in Hs. }
  unfold vfs_status, drv_of in *. rewrite Es in *.
  destruct (Z.eqb_spec ret MINI_OK) as [->|Hr]; simpl.
  - rewrite set_status_ok by (by rewrite Hs). eexists. split; [done|]. done.
  - eexists. split; [done|]. rewrite Hs. split; [done|]. by destruct (Z.eqb_spec ret MINI_OK).
Qed.

Lemma device_ops_unregister_ok l l2 d :
  vfs_status d ->
  let '(d', e) := device_ops_unregister l l2 (Some d) in
  ∃ d1, d' = Some d1 /\ vfs_status d1 /\ drv_steps (drv_of d) e = Some (drv_of d1).
Proof.
  intros Hd. unfold device_ops_unregister.
  destruct (negb (device_lock l (Some d) =? MINI_OK)); [eauto|].
  unfold vfs_status, drv_of in *.
  rewrite set_status_ok by (by destruct (dv_status d)).
  destruct (negb (device_lock l2 _ =? MINI_OK)); eexists; (split; [done|]); simpl;
    by destruct (dv_status d).
Qed.

(** A close of a suspended device. *)
Definition closes_suspended (d : device) (op : vfs_op) : Prop :=
  match op with VClose _ => dv_status d = DEVICE_STATUS_SUSPENDED | _ => False end.

Lemma vfs_exec_ok d op :
  vfs_status d -> ¬ closes_suspended d op ->
  ∃ d1 e, vfs_exec (Some d) op = (Some d1, e) /\ vfs_status d1 /\
          drv_steps (drv_of d) e = Some (drv_of d1).
Proof using Hcall.
  intros Hd Hop. destruct op as [l|l|l|l|l|l|l|l l2]; cbn [vfs_exec closes_suspended] in *.
  - pose proof (device_open_ok l d Hd) as H.
    destruct (device_open call l (Some d)) as [[r d'] e], H as (d1 & -> & ? & ?). eauto.
  - pose proof (device_close_ok l d Hd Hop) as H.
    destruct (device_close call l (Some d)) as [[r d'] e], H as (d1 & -> & ? & ?). eauto.
  - pose proof (device_io_ok fo_write l d Hd) as H. unfold device_write.
    destruct (device_io call fo_write l (Some d)) as [[r d'] e], H as (d1 & -> & ? & ?). eauto.
  - pose proof (device_io_ok fo_read l d Hd) as H. unfold device_read.
    destruct (device_io call fo_read l (Some d)) as [[r d'] e], H as (d1 & -> & ? & ?). eauto.
  - pose proof (device_io_ok fo_ioctl l d Hd) as H. unfold device_ioctl.
    destruct (device_io call fo_ioctl l (Some d)) as [[r d'] e], H as (d1 & -> & ? & ?). eauto.
  - pose proof (device_suspend_ok l d Hd) as H.
    destruct (device_suspend call l (Some d)) as [[r d'] e], H as (d1 & -> & ? & ?). eauto.
  - pose proof (device_resume_ok l d Hd) as H.
    destruct (device_resume call l (Some d)) as [[r d'] e], H as (d1 & -> & ? & ?). eauto.
  - pose proof (device_ops_unregister_ok l l2 d Hd) as H.
    destruct (device_ops_unregister l l2 (Some d)) as [d' e], H as (d1 & -> & ? & ?). eauto.
Qed.

Lemma drv_steps_app es1 es2 s : drv_steps s (es1 ++ es2) = s' ← drv_steps s es1; drv_steps s' es2.
Proof.
  revert s. induction es1 as [|e es1 IH]; intros s; simpl; [done|].
  destruct (drv_step s e); simpl; [apply IH|done].
Qed.

(** The run closes no suspended device. *)
Fixpoint no_close_suspended (d : option device) (ops : list vfs_op) : Prop :=
  match ops with
  | [] => True
  | op :: ops =>
      match d with Some d => ¬ closes_suspended d op | None => True end /\
      no_close_suspended (vfs_exec d op).1 ops
  end.

Lemma vfs_run_ok ops : ∀ d,
  vfs_status d -> no_close_suspended (Some d) ops ->
  ∃ d1 e, vfs_run (Some d) ops = (Some d1, e) /\ vfs_status d1 /\
          drv_steps (drv_of d) e = Some (drv_of d1).
Proof using Hcall.
  induction ops as [|op ops IH]; intros d Hd Hn; simpl in *; [eauto|].
  destruct Hn as [Hop Hn].
  destruct (vfs_exec_ok d op Hd Hop) as (d1 & e1 & E & Hd1 & H1). rewrite E in *.
  destruct (IH d1 Hd1 Hn) as (d2 & e2 & -> & Hd2 & H2).
  eexists _, _. split; [done|]. split; [done|]. by rewrite drv_steps_app, H1.
Qed.

(** C35: The VFS layer keeps the drivers' contract. For a probed device, whatever sequence of
    open, close, write, read, ioctl, suspend, resume and unregister calls arrives and
    whatever the handlers return, as long as no suspended device is closed, the handlers are
    called in an order the contract allows: I/O only between a successful open (or resume)
    and the next successful close, suspend or removal, resume only while suspended, open
    only while closed, and nothing after the removal; the stored status follows the
    driver's state. *)
Theorem vfs_keeps_driver_contract d ops :
  dv_status d = DEVICE_STATUS_PROBED -> no_close_suspended (Some d) ops ->
  ∃ d1 e, vfs_run (Some d) ops = (Some d1, e) /\
          drv_steps DrvClosed e = Some (drv_of d1).
Proof using Hcall.
  intros Hd Hn. destruct (vfs_run_ok ops d) as (d1 & e & Hr & _ & Hs).
  - unfold vfs_status. by rewrite Hd.
  - done.
  - unfold drv_of in Hs at 1. rewrite Hd in Hs. eauto.
Qed.

(** Closing a suspended device. When the driver's close succeeds, [device_close] returns
    MINI_OK and the driver is closed, but the status machine refuses SUSPENDED to PROBED and
    the refusal is ignored: the device stays SUSPENDED, cannot be opened again, and a resume
    is passed to the closed driver, outside its contract. *)
Theorem device_close_suspended_stuck l d h d1 :
  dv_status d = DEVICE_STATUS_SUSPENDED -> device_lock l (Some d) = MINI_OK ->
  (o ← dv_ops d; fo_close o) = Some h -> call h d = (MINI_OK, d1) ->
  device_close call l (Some d) = (MINI_OK, Some d1, [EvClose MINI_OK]) /\
  dv_status d1 = DEVICE_STATUS_SUSPENDED /\
  (∀ r d2 e, device_open call true (Some d1) = (r, d2, e) -> r ≠ MINI_OK) /\
  (∀ r, drv_steps DrvSuspended [EvClose MINI_OK; EvResume r] = None).
Proof using Hcall.
  intros Es Hl Ho Hc. split; [by eapply device_close_suspended_eq|].
  pose proof (Hcall h d) as [Hs _]. rewrite Hc, Es in Hs. simpl in Hs.
  split; [done|]. split; [|done]. intros r d2 e. unfold device_open.
  intros Hx ->. destruct (negb _); [by inversion Hx|].
  destruct (dv_ops d1 ≫= _); [|by inversion Hx].
  rewrite decide_False, decide_True in Hx by (rewrite Hs; done). by inversion Hx.
Qed.
End vfs_runs.

Definition demo_device : device :=
  mk_dev None DEVICE_STATUS_PROBED 1
    (Some (mk_fops None (Some 1) (Some 2) (Some 3) None None (Some 4) (Some 5))) true
    (mk_lc 0 0 DEV_LC_LIVE) 0 None.

(** Handler 3 (write) fails; the others succeed. *)
Definition demo_call (h : Z) (d : device) : Z * device := (if h =? 3 then MINI_ERR_IO else MINI_OK, d).

Lemma vfs_keeps_driver_contract_witness :
  ∃ d1 e, vfs_run demo_call (Some demo_device)
            [VWrite true; VOpen true; VWrite true; VSuspend true; VWrite true; VResume true;
             VRead true; VClose true; VOpen false; VUnregister true true; VOpen true] = (Some d1, e) /\
          drv_steps DrvClosed e = Some (drv_of d1).
Proof.
  apply vfs_keeps_driver_contract.
  - intros h d. split; reflexivity.
  - reflexivity.
  - repeat split; discriminate || exact (fun x => x).
Defined.

Lemma device_close_suspended_stuck_witness :
  device_close demo_call true (Some (dv_set_status demo_device DEVICE_STATUS_SUSPENDED))
    = (MINI_OK, Some (dv_set_status demo_device DEVICE_STATUS_SUSPENDED), [EvClose MINI_OK]).
Proof.
  destruct (device_close_suspended_stuck demo_call (fun h d => conj eq_refl eq_refl) true
              (dv_set_status demo_device DEVICE_STATUS_SUSPENDED) 2
              (dv_set_status demo_device DEVICE_STATUS_SUSPENDED)) as [H _];
    [reflexivity..|exact H].
Defined.
