(* ===== verification/Driver.v ===== *)
(** * Driver probing and removal

    Models src/board/src/board_driver.c: the safety pins and shutdown callbacks, the
    dependency tests, the three-pass deferred probe of all devices and the reverse-order
    removal.  Probe order, probe and remove functions and the cascade lists are generated
    from the device tree and are parameters; probing runs before the scheduler starts, so
    device locks are free.  [MINI_PANIC] does not return: [None] is a halted system. *)

From S2P Require Import Prelude Status Lifecycle IntParse Device.

#[local] Open Scope Z_scope.

(** ** Safety shutdown *)

Definition BOARD_MAX_SAFETY_PINS : Z := 8.
Definition BOARD_SAFETY_MAX_CALLBACKS : Z := 4.

Record safety_pin := mk_pin { sp_pin : Z; sp_safe_level : Z }.

Record safety_state := mk_safety {
  ss_pins : list safety_pin;      (** the first [safety_pin_count] entries *)
  ss_cbs : list Z;                (** the first [safety_cb_count] entries *)
  ss_shutdown_entered : bool
}.

Definition board_safety_add_pin (pin safe_level : Z) (s : safety_state) : safety_state :=
  if Z.of_nat (length (ss_pins s)) <? BOARD_MAX_SAFETY_PINS
  then mk_safety (ss_pins s ++ [mk_pin pin safe_level]) (ss_cbs s) (ss_shutdown_entered s) else s.

Definition board_safety_register_shutdown (fn : option Z) (s : safety_state) : safety_state :=
  match fn with
  | Some f =>
      if Z.of_nat (length (ss_cbs s)) <? BOARD_SAFETY_MAX_CALLBACKS
      then mk_safety (ss_pins s) (ss_cbs s ++ [f]) (ss_shutdown_entered s) else s
  | None => s
  end.

Definition board_safety_hw_remove (s : safety_state) : Z * safety_state :=
  (MINI_OK, mk_safety [] [] (ss_shutdown_entered s)).

(** The property names "pin_<idx>" and "safe_level_<idx>". *)
Definition pin_prop (idx : Z) : cstring := [112; 105; 110; 95] ++ print_nat idx.
Definition level_prop (idx : Z) : cstring :=
  [115; 97; 102; 101; 95; 108; 101; 118; 101; 108; 95] ++ print_nat idx.

(** The probe loop from index [idx]; [safe_level] keeps its value when a level is missing.
    [None]: undefined behaviour in the parser. *)
Fixpoint safety_probe_loop (n : nat) (idx safe_level : Z) (pdev : option device)
    (s : safety_state) : option safety_state :=
  match n with
  | O => Some s
  | S n =>
      '(r, pin) ← device_get_prop_int pdev (Some (pin_prop idx)) (Some 0);
      if negb (r =? MINI_OK) then Some s else
      pin ← pin;
      '(_, lvl) ← device_get_prop_int pdev (Some (level_prop idx)) (Some safe_level);
      lvl ← lvl;
      safety_probe_loop n (idx + 1) lvl pdev (board_safety_add_pin pin lvl s)
  end.

Definition board_safety_hw_probe (pdev : option device) (s : safety_state)
    : option (Z * safety_state) :=
  s' ← safety_probe_loop (Z.to_nat BOARD_MAX_SAFETY_PINS) 0 0 pdev s; Some (MINI_OK, s').

(** What the shutdown does, in order. *)
Inductive shutdown_action :=
  | SdCallback (f : Z) | SdPwmStop | SdPin (pin level : Z) | SdStopCores.

Definition system_safety_hardware_shutdown (in_isr : bool) (fault_led : Z) (s : safety_state)
    : list shutdown_action * safety_state :=
  if ss_shutdown_entered s then ([], s) else
  ((if in_isr then [] else map SdCallback (ss_cbs s)) ++ [SdPwmStop] ++
   map (fun p => SdPin (sp_pin p) (sp_safe_level p)) (ss_pins s) ++ [SdPin fault_led 1; SdStopCores],
   mk_safety (ss_pins s) (ss_cbs s) true).

(** ** Dependencies *)

Definition dev_get (devs : list device) (id : Z) : option device :=
  if (id <? 0) || (id >=? Z.of_nat (length devs)) then None else devs !! Z.to_nat id.

Definition is_direct (d : device) : bool :=
  match dv_node d with Some n => negb (Z.land (nd_flags n) DEVICE_FLAG_DIRECT =? 0) | None => false end.

(** The loop over the dependencies: 1 at the first one that [bad] rejects. *)
Fixpoint any_dep (devs : list device) (bad : device_status -> bool) (deps : list Z) : bool :=
  match deps with
  | [] => false
  | id :: rest =>
      match dev_get devs id with
      | None => true
      | Some dep =>
          if is_direct dep then any_dep devs bad rest
          else if bad (dv_status dep) then true else any_dep devs bad rest
      end
  end.

Definition deps_of (d : device) : list Z :=
  match dv_node d with Some n => default [] (nd_deps n) | None => [] end.

Definition device_dependency_not_ready (devs : list device) (d : device) : bool :=
  any_dep devs (fun s => bool_decide (s = DEVICE_STATUS_ERROR \/ s = DEVICE_STATUS_REMOVED)) (deps_of d).

Definition device_dependency_pending (devs : list device) (d : device) : bool :=
  any_dep devs (fun s => bool_decide (s ≠ DEVICE_STATUS_PROBED /\ s ≠ DEVICE_STATUS_RUNNING /\
                                      s ≠ DEVICE_STATUS_SUSPENDED)) (deps_of d).

Section probing.
(** Generated tables and the drivers. *)
Context (order : list Z) (board_dev_count : Z).
Context (probe_fn remove_fn : Z -> option (list device -> Z * list device)).
Context (cascade : Z -> list Z).
Context (call : Z -> device -> Z * device).

Definition set_status_at (devs : list device) (id : Z) (s : device_status) : list device :=
  match dev_get devs id with
  | Some d => match (device_set_status true (Some d) s).2 with
              | Some d' => <[Z.to_nat id := d']> devs
              | None => devs
              end
  | None => devs
  end.

(** [true]: the failure is fatal and the system halts. *)
Definition handle_probe_failure (d : device) : bool :=
  bool_decide (device_get_criticality (Some d) = DEVICE_CRIT_FATAL).

Fixpoint disable_list (devs : list device) (l : list Z) : list device :=
  match l with
  | [] => devs
  | id :: rest =>
      match dev_get devs id with
      | None => disable_list devs rest
      | Some child =>
          if decide (dv_status child = DEVICE_STATUS_DISABLED \/ dv_status child = DEVICE_STATUS_REMOVED)
          then disable_list devs rest
          else disable_list (set_status_at devs id DEVICE_STATUS_DISABLED) rest
      end
  end.
Definition disable_dependents (devs : list device) (failed_id : Z) : list device :=
  disable_list devs (cascade failed_id).

(** The state of a pass: devices, ok and fail counters (uint8_t), deferred devices. *)
Record probe_st := mk_ps { ps_devs : list device; ps_ok : Z; ps_fail : Z; ps_deferred : Z }.

(** A failed device: panic when it is fatal, else disable its dependents and count it. *)
Definition probe_failed (st : probe_st) (devs : list device) (id : Z) (d : device)
    : option probe_st :=
  if handle_probe_failure d then None else
  Some (mk_ps (disable_dependents devs id) (ps_ok st) (u8 (ps_fail st + 1)) (ps_deferred st)).

(** The body of the inner loop for one id of the order. *)
Definition probe_one (st : probe_st) (id : Z) : option probe_st :=
  let devs := ps_devs st in
  if (id <? 0) || (id >=? board_dev_count) then Some st else
  match dev_get devs id with
  | None => Some st
  | Some d =>
      if decide (dv_status d = DEVICE_STATUS_DISABLED) then Some st else
      if is_direct d then Some st else
      if decide (dv_status d = DEVICE_STATUS_PROBED \/ dv_status d = DEVICE_STATUS_RUNNING)
      then Some st else
      if device_dependency_not_ready devs d then
        if device_dependency_pending devs d
        then Some (mk_ps devs (ps_ok st) (ps_fail st) (ps_deferred st + 1))
        else Some (mk_ps (set_status_at devs id DEVICE_STATUS_DISABLED) (ps_ok st)
                     (u8 (ps_fail st + 1)) (ps_deferred st))
      else
      match probe_fn id with
      | None =>
          let devs1 := set_status_at devs id DEVICE_STATUS_DISABLED in
          match device_get_name (Some d) with
          | None | Some [] => Some (mk_ps devs1 (ps_ok st) (ps_fail st) (ps_deferred st))
          | Some _ => probe_failed st devs1 id d
          end
      | Some probe =>
          let '(ret, devs1) := probe devs in
          if ret =? MINI_OK then
            let devs2 := set_status_at devs1 id DEVICE_STATUS_PROBED in
            d2 ← dev_get devs2 id;
            let '(open_ret, devs3) :=
              match o ← dv_ops d2; (match fo_open o with Some h => Some h | None => fo_init o end) with
              | Some _ =>
                  let '(r, d3, _) := device_open call true (Some d2) in
                  (r, match d3 with Some d3 => <[Z.to_nat id := d3]> devs2 | None => devs2 end)
              | None => (MINI_OK, devs2)
              end in
            if negb (open_ret =? MINI_OK)
            then probe_failed st (set_status_at devs3 id DEVICE_STATUS_ERROR) id d2
            else Some (mk_ps devs3 (u8 (ps_ok st + 1)) (ps_fail st) (ps_deferred st))
          else if ret =? MINI_ERR_DEFER
          then Some (mk_ps devs1 (ps_ok st) (ps_fail st) (ps_deferred st + 1))
          else probe_failed st (set_status_at devs1 id DEVICE_STATUS_ERROR) id d
      end
  end.

Fixpoint probe_pass (st : probe_st) (l : list Z) : option probe_st :=
  match l with [] => Some st | id :: rest => st' ← probe_one st id; probe_pass st' rest end.

(** The sweep after a stall: disable what is still pending. *)
Fixpoint stall_sweep (st : probe_st) (l : list Z) : probe_st :=
  match l with
  | [] => st
  | id :: rest =>
      match dev_get (ps_devs st) id with
      | Some d =>
          if decide (dv_status d ≠ DEVICE_STATUS_PROBED /\ dv_status d ≠ DEVICE_STATUS_RUNNING)
          then if device_dependency_pending (ps_devs st) d
               then stall_sweep (mk_ps (set_status_at (ps_devs st) id DEVICE_STATUS_DISABLED)
                                   (ps_ok st) (u8 (ps_fail st + 1)) (ps_deferred st)) rest
               else stall_sweep st rest
          else stall_sweep st rest
      | None => stall_sweep st rest
      end
  end.

(** The passes; [passes] are left. *)
Fixpoint probe_passes (passes : nat) (deferred_prev : Z) (st : probe_st) : option probe_st :=
  match passes with
  | O => Some st
  | S passes =>
      st1 ← probe_pass (mk_ps (ps_devs st) (ps_ok st) (ps_fail st) 0) order;
      if ps_deferred st1 =? 0 then Some st1
      else if ps_deferred st1 =? deferred_prev then Some (stall_sweep st1 order)
      else probe_passes passes (ps_deferred st1) st1
  end.

Definition board_driver_probe_all (devs : list device) : option (Z * list device) :=
  st ← probe_passes 3 0 (mk_ps devs 0 0 0); Some (ps_fail st, ps_devs st).

(** The loop of the removal, last probed first. *)
Fixpoint remove_loop (devs : list device) (l : list Z) : list device :=
  match l with
  | [] => devs
  | id :: rest =>
      match dev_get devs id with
      | None => remove_loop devs rest
      | Some d =>
          if decide (dv_status d ≠ DEVICE_STATUS_PROBED /\ dv_status d ≠ DEVICE_STATUS_RUNNING /\
                     dv_status d ≠ DEVICE_STATUS_SUSPENDED)
          then remove_loop devs rest else
          match remove_fn id with
          | Some f =>
              let '(ret, devs1) := f devs in
              if negb (ret =? MINI_OK)
              then remove_loop (set_status_at devs1 id DEVICE_STATUS_ERROR) rest
              else remove_loop (set_status_at devs1 id DEVICE_STATUS_READY) rest
          | None => remove_loop (set_status_at devs id DEVICE_STATUS_READY) rest
          end
      end
  end.

Definition board_driver_remove_all (devs : list device) : Z * list device :=
  (MINI_OK, remove_loop devs (rev order)).
End probing.

Arguments device_open : simpl never.
Arguments device_set_status : simpl never.

(** ** Shared lemmas *)

Lemma dev_get_Some devs id d :
  dev_get devs id = Some d <-> 0 <= id /\ devs !! Z.to_nat id = Some d.
Proof.
  unfold dev_get. rewrite Z.geb_leb.
  destruct (Z.ltb_spec id 0), (Z.leb_spec (Z.of_nat (length devs)) id); simpl; split; try done;
    try (intros [??]; lia); try (intros; split; [lia|done]); try naive_solver.
  intros [_ Hl]. apply lookup_lt_Some in Hl. lia.
Qed.

Lemma dev_get_insert_eq devs id d d' :
  dev_get devs id = Some d -> dev_get (<[Z.to_nat id := d']> devs) id = Some d'.
Proof.
  rewrite !dev_get_Some. intros [Hi Hl]. split; [done|].
  apply list_lookup_insert_eq. by eapply lookup_lt_Some.
Qed.

Lemma dev_get_insert_ne devs id j d' :
  0 <= id -> j ≠ id -> dev_get (<[Z.to_nat id := d']> devs) j = dev_get devs j.
Proof.
  intros Hi Hne. unfold dev_get. rewrite length_insert.
  destruct (Z.ltb_spec j 0); simpl; [done|]. destruct (j >=? _); [done|].
  apply list_lookup_insert_ne. lia.
Qed.

(** The status after [device_set_status]: the new one when the transition is allowed. *)
Definition next_status (from to : device_status) : device_status :=
  if device_status_can_transit from to then to else from.

Lemma set_status_at_eq devs id s d :
  dev_get devs id = Some d ->
  dev_get (set_status_at devs id s) id = Some (dv_set_status d (next_status (dv_status d) s)).
Proof.
  intros H. unfold set_status_at, device_set_status, next_status. rewrite H, andb_false_r.
  destruct (device_status_can_transit (dv_status d) s); simpl.
  - by eapply dev_get_insert_eq.
  - rewrite (dev_get_insert_eq _ _ _ _ H). by destruct d.
Qed.

Lemma set_status_at_ne devs id s j :
  j ≠ id -> dev_get (set_status_at devs id s) j = dev_get devs j.
Proof.
  intros Hne. unfold set_status_at. destruct (dev_get devs id) as [d|] eqn:E; [|done].
  apply dev_get_Some in E as [Hi _].
  destruct (device_set_status true (Some d) s) as [? [d'|]]; simpl; [|done].
  by apply dev_get_insert_ne.
Qed.

Lemma set_status_at_length devs id s : length (set_status_at devs id s) = length devs.
Proof.
  unfold set_status_at. destruct (dev_get devs id); [|done].
  destruct (_.2); [|done]. apply length_insert.
Qed.

(** A missing or failed dependency is always pending too: wherever
    [device_dependency_not_ready] holds, [device_dependency_pending] holds.  So in
    [board_driver_probe_all] a device with a permanently unavailable dependency is deferred
    in every pass, never taken to the branch that disables it at once. *)
Theorem not_ready_is_pending devs d :
  device_dependency_not_ready devs d = true -> device_dependency_pending devs d = true.
Proof.
  unfold device_dependency_not_ready, device_dependency_pending.
  induction (deps_of d) as [|id deps IH]; simpl; [done|].
  destruct (dev_get devs id) as [dep|]; [|done]. destruct (is_direct dep); [done|].
  case_bool_decide as H1; intros H; case_bool_decide as H2; auto.
  exfalso. apply H2. destruct H1 as [-> | ->]; done.
Qed.

Definition demo_node (deps : list Z) (name : cstring) (crit : device_criticality) : device_node :=
  mk_node (Some name) None None None [] (Some deps) None 0 None 0 DEVICE_STATUS_READY crit 0.
Definition demo_dev (deps : list Z) (s : device_status) : device :=
  mk_dev (Some (demo_node deps [65] DEVICE_CRIT_WARNING)) s 0 None true (mk_lc 0 0 DEV_LC_LIVE) 0 None.

Lemma not_ready_is_pending_witness :
  device_dependency_pending [demo_dev [] DEVICE_STATUS_ERROR; demo_dev [0] DEVICE_STATUS_READY]
    (demo_dev [0] DEVICE_STATUS_READY) = true.
Proof. apply not_ready_is_pending. reflexivity. Defined.

(** ** Removal *)

Definition active (s : device_status) : bool :=
  match s with
  | DEVICE_STATUS_PROBED | DEVICE_STATUS_RUNNING | DEVICE_STATUS_SUSPENDED => true
  | _ => false
  end.

Definition inactive_at (devs : list device) (id : Z) : Prop :=
  ∀ d, dev_get devs id = Some d -> active (dv_status d) = false.

Section removal.
Context (remove_fn : Z -> option (list device -> Z * list device)).
(** A driver's remove function changes its own device only. *)
Context (Hown : ∀ id f devs j, remove_fn id = Some f -> j ≠ id ->
                 dev_get (f devs).2 j = dev_get devs j).

Lemma set_status_inactive devs id s :
  s = DEVICE_STATUS_READY \/ s = DEVICE_STATUS_ERROR -> inactive_at (set_status_at devs id s) id.
Proof.
  intros Hs d Hd. destruct (dev_get devs id) as [d0|] eqn:E.
  - rewrite (set_status_at_eq _ _ _ _ E) in Hd. injection Hd as <-. simpl. unfold next_status.
    destruct Hs as [-> | ->]; by destruct (dv_status d0).
  - unfold set_status_at in Hd. rewrite E in Hd. congruence.
Qed.

Lemma remove_loop_inactive l : ∀ devs id,
  id ∈ l \/ inactive_at devs id -> inactive_at (remove_loop remove_fn devs l) id.
Proof using Hown.
  induction l as [|x l IH]; intros devs id Hin; simpl.
  { destruct Hin as [Hin|]; [by apply elem_of_nil in Hin|done]. }
  assert (Hstep : ∀ devs', (∀ j, j ≠ x -> dev_get devs' j = dev_get devs j) ->
            inactive_at devs' x -> inactive_at (remove_loop remove_fn devs' l) id).
  { intros devs' Hne Hx. apply IH. destruct (decide (id = x)) as [->|Hd]; [auto|].
    destruct Hin as [[->|?]%elem_of_cons|Hi]; [done|auto|right].
    intros d. rewrite Hne by done. apply Hi. }
  destruct (dev_get devs x) as [d|] eqn:E.
  - destruct (decide _) as [Hd|Hd].
    { apply Hstep; [done|]. intros d' Hd'. rewrite E in Hd'. injection Hd' as <-.
      destruct (dv_status d); naive_solver. }
    destruct (remove_fn x) as [f|] eqn:Ef.
    + pose proof (λ j, Hown x f devs j Ef) as Ho. destruct (f devs) as [ret devs1].
      simpl in Ho. destruct (negb (ret =? MINI_OK)); apply Hstep;
        try (intros j Hj; rewrite set_status_at_ne by done; by apply Ho);
        apply set_status_inactive; auto.
    + apply Hstep; [intros j Hj; by apply set_status_at_ne|]. apply set_status_inactive. auto.
  - apply Hstep; [done|]. intros d Hd. congruence.
Qed.
End removal.

(** After [board_driver_remove_all] no device of the probe order is PROBED, RUNNING or
    SUSPENDED, whatever the remove functions return (each changing only its own device). *)
Theorem remove_all_inactive order remove_fn devs r devs' id :
  (∀ i f ds j, remove_fn i = Some f -> j ≠ i -> dev_get (f ds).2 j = dev_get ds j) ->
  board_driver_remove_all order remove_fn devs = (r, devs') -> id ∈ order ->
  r = MINI_OK /\ inactive_at devs' id.
Proof.
  intros Hown [= <- <-] Hin. split; [done|]. apply remove_loop_inactive; [done|]. left.
  apply list_elem_of_In, in_rev. rewrite rev_involutive. by apply list_elem_of_In.
Qed.

Lemma remove_all_inactive_witness :
  MINI_OK = MINI_OK /\
  inactive_at (board_driver_remove_all [0; 1] (fun i => if i =? 1 then Some (fun ds => (MINI_ERR_IO, ds)) else None)
     [demo_dev [] DEVICE_STATUS_RUNNING; demo_dev [0] DEVICE_STATUS_RUNNING]).2 1.
Proof.
  apply (remove_all_inactive [0; 1]
           (fun i => if i =? 1 then Some (fun ds => (MINI_ERR_IO, ds)) else None)
           [demo_dev [] DEVICE_STATUS_RUNNING; demo_dev [0] DEVICE_STATUS_RUNNING]).
  - intros i f ds j Hf _. destruct (i =? 1); [|done]. by injection Hf as <-.
  - reflexivity.
  - apply list_elem_of_In. simpl. auto.
Defined.

(** ** A boot without failures *)
Section boot.
Context (order : list Z) (count : Z).
Context (probe_fn : Z -> option (list device -> Z * list device)) (cascade : Z -> list Z).
Context (call : Z -> device -> Z * device).

(** Probe functions succeed, change their own device only, and may install operations. *)
Definition probes_ok : Prop :=
  ∀ id, id ∈ order -> ∃ p, probe_fn id = Some p /\
    ∀ ds d, dev_get ds id = Some d -> dv_status d = DEVICE_STATUS_READY ->
      ∃ d1, p ds = (MINI_OK, <[Z.to_nat id := d1]> ds) /\
            dv_status d1 = DEVICE_STATUS_READY /\ dv_lock d1 = true /\ dv_node d1 = dv_node d.
(** Open and init handlers succeed and leave the framework's fields alone. *)
Definition calls_ok : Prop :=
  ∀ h d, (call h d).1 = MINI_OK /\ dv_status (call h d).2 = dv_status d /\
         dv_lock (call h d).2 = dv_lock d /\ dv_node (call h d).2 = dv_node d.

(** No device has failed and every dependency names a device. *)
Definition healthy (devs : list device) : Prop :=
  ∀ j d, dev_get devs j = Some d ->
    dv_status d ≠ DEVICE_STATUS_ERROR /\ dv_status d ≠ DEVICE_STATUS_REMOVED /\
    ∀ dep, dep ∈ deps_of d -> 0 <= dep < Z.of_nat (length devs).

Context (Hp : probes_ok) (Hc : calls_ok).

Lemma healthy_ready devs j d :
  healthy devs -> dev_get devs j = Some d -> device_dependency_not_ready devs d = false.
Proof.
  intros Hh Hd. destruct (Hh j d Hd) as (_ & _ & Hdeps). unfold device_dependency_not_ready.
  induction (deps_of d) as [|id deps IH]; simpl; [done|].
  assert (∃ dep, dev_get devs id = Some dep) as [dep E].
  { destruct (lookup_lt_is_Some_2 devs (Z.to_nat id)) as [dep E].
    - specialize (Hdeps id ltac:(by left)). lia.
    - exists dep. apply dev_get_Some. split; [|done]. apply (Hdeps id). by left. }
  rewrite E. destruct (Hh id dep E) as (H1 & H2 & _). rewrite bool_decide_false by naive_solver.
  rewrite IH; [by destruct (is_direct dep)|]. intros x Hx. apply Hdeps. by right.
Qed.

Lemma healthy_insert devs id d d' :
  healthy devs -> dev_get devs id = Some d -> dv_node d' = dv_node d ->
  dv_status d' ≠ DEVICE_STATUS_ERROR -> dv_status d' ≠ DEVICE_STATUS_REMOVED ->
  healthy (<[Z.to_nat id := d']> devs).
Proof.
  intros Hh Hd Hn H1 H2 j dj Hj. rewrite length_insert.
  destruct (decide (j = id)) as [->|Hne].
  - rewrite (dev_get_insert_eq _ _ _ _ Hd) in Hj. injection Hj as <-.
    destruct (Hh id d Hd) as (_ & _ & Hdeps). split; [done|]. split; [done|].
    unfold deps_of in *. by rewrite Hn.
  - pose proof (proj1 (dev_get_Some _ _ _) Hd) as [Hi _].
    rewrite dev_get_insert_ne in Hj by done. by apply (Hh j).
Qed.

Lemma device_open_probed d h d3 :
  dv_status d = DEVICE_STATUS_PROBED -> dv_lock d = true ->
  (o ← dv_ops d; (match fo_open o with Some h => Some h | None => fo_init o end)) = Some h ->
  call h d = (MINI_OK, d3) -> dv_status d3 = DEVICE_STATUS_PROBED ->
  device_open call true (Some d)
    = (MINI_OK, Some (dv_set_status d3 DEVICE_STATUS_RUNNING), [EvOpen MINI_OK]).
Proof.
  intros Hs Hl Ho Hca Hs3. unfold device_open, device_lock. rewrite Hl. simpl. rewrite Ho.
  rewrite decide_False, decide_False by (rewrite Hs; auto). rewrite Hca. simpl.
  unfold device_set_status. by rewrite andb_false_r, Hs3.
Qed.

Definition open_handler (d : device) : option Z :=
  o ← dv_ops d; match fo_open o with Some h => Some h | None => fo_init o end.
(** What becomes of a device that its probe function left as [d1]. *)
Definition opened (d1 : device) : device :=
  let d2 := dv_set_status d1 DEVICE_STATUS_PROBED in
  match open_handler d1 with
  | Some h => dv_set_status (call h d2).2 DEVICE_STATUS_RUNNING
  | None => d2
  end.

(** One device of the order is probed and opened. *)
Lemma probe_one_boots st id d :
  id ∈ order -> 0 <= id < count -> healthy (ps_devs st) ->
  dev_get (ps_devs st) id = Some d -> dv_status d = DEVICE_STATUS_READY ->
  is_direct d = false ->
  ∃ p d1, probe_fn id = Some p /\ p (ps_devs st) = (MINI_OK, <[Z.to_nat id := d1]> (ps_devs st)) /\
    probe_one count probe_fn cascade call st id
      = Some (mk_ps (<[Z.to_nat id := opened d1]> (ps_devs st)) (u8 (ps_ok st + 1)) (ps_fail st)
                (ps_deferred st)) /\
    healthy (<[Z.to_nat id := opened d1]> (ps_devs st)).
Proof using Hp Hc.
  intros Hin Hid Hh Hd Hs Hdir. unfold probe_one. rewrite Z.geb_leb.
  destruct (Z.ltb_spec id 0), (Z.leb_spec count id); try lia. simpl. rewrite Hd.
  rewrite decide_False by (by rewrite Hs). rewrite Hdir.
  rewrite decide_False by (rewrite Hs; naive_solver).
  rewrite (healthy_ready _ id) by done.
  destruct (Hp id Hin) as (p & Ep & Hpp).
  destruct (Hpp (ps_devs st) d Hd Hs) as (d1 & E1 & Hs1 & Hl1 & Hn1).
  exists p, d1. split; [done|]. split; [done|]. rewrite Ep, E1. simpl.
  pose proof (dev_get_insert_eq _ _ _ d1 Hd) as Hd1.
  rewrite (set_status_at_eq _ _ _ _ Hd1). unfold next_status. rewrite Hs1.
  change (if device_status_can_transit DEVICE_STATUS_READY DEVICE_STATUS_PROBED
          then DEVICE_STATUS_PROBED else DEVICE_STATUS_READY) with DEVICE_STATUS_PROBED.
  cbn [mbind option_bind].
  set (d2 := dv_set_status d1 DEVICE_STATUS_PROBED).
  change (dv_ops d1) with (dv_ops d2).
  assert (E2 : set_status_at (<[Z.to_nat id:=d1]> (ps_devs st)) id DEVICE_STATUS_PROBED
               = <[Z.to_nat id:=d2]> (ps_devs st)).
  { unfold set_status_at. rewrite Hd1. unfold device_set_status.
    rewrite andb_false_r, Hs1. simpl. by rewrite list_insert_insert_eq. }
  rewrite E2. unfold opened, open_handler. fold d2. change (dv_ops d1) with (dv_ops d2).
  destruct (dv_ops d2 ≫= _) as [h|] eqn:Eo.
  - destruct (Hc h d2) as (Hr & Hst & Hlk & Hnd). destruct (call h d2) as [r d3] eqn:Eca.
    simpl in Hr, Hst, Hlk, Hnd. subst r.
    rewrite (device_open_probed d2 h d3) by done. simpl. rewrite list_insert_insert_eq.
    split; [done|]. eapply healthy_insert; try done; simpl; congruence.
  - simpl. split; [done|]. eapply healthy_insert; try done; simpl; congruence.
Qed.

Definition ready_at (devs : list device) (id : Z) : Prop :=
  0 <= id < count /\ ∃ d, dev_get devs id = Some d /\ dv_status d = DEVICE_STATUS_READY /\
                         is_direct d = false.
Definition up_at (devs : list device) (id : Z) : Prop :=
  ∃ d, dev_get devs id = Some d /\ active (dv_status d) = true.
(** The device is what its probe function has made of it, with the status PROBED, and when that
    left an open handler (or, without one, an init handler), then as this handler has left
    it, with the status RUNNING. *)
Definition booted_at (devs devs' : list device) (id : Z) : Prop :=
  ∃ p ds d1, probe_fn id = Some p /\ dev_get ds id = dev_get devs id /\
    p ds = (MINI_OK, <[Z.to_nat id := d1]> ds) /\ dev_get devs' id = Some (opened d1).

Lemma booted_up devs devs' id : booted_at devs devs' id -> up_at devs' id.
Proof. intros (p & ds & d1 & _ & _ & _ & Hd). eexists. split; [exact Hd|]. unfold opened. by destruct (open_handler d1). Qed.

Lemma probe_pass_boots l : ∀ st,
  NoDup l -> (∀ id, id ∈ l -> id ∈ order) -> healthy (ps_devs st) ->
  (∀ id, id ∈ l -> ready_at (ps_devs st) id) -> is_u8 (ps_ok st) ->
  ∃ devs', probe_pass count probe_fn cascade call st l
             = Some (mk_ps devs' (u8 (ps_ok st + Z.of_nat (length l))) (ps_fail st) (ps_deferred st)) /\
    (∀ id, id ∈ l -> booted_at (ps_devs st) devs' id) /\
    (∀ id, ¬ id ∈ l -> dev_get devs' id = dev_get (ps_devs st) id).
Proof using Hp Hc.
  induction l as [|x l IH]; intros st Hnd Hsub Hh Hr Hok; simpl.
  - exists (ps_devs st). unfold u8. rewrite Z.add_0_r, Z.mod_small by done. destruct st. split; [done|]. split; [|done].
    by intros id ?%elem_of_nil.
  - inversion Hnd as [|?? Hx Hnd']; subst.
    destruct (Hr x) as (Hid & d & Hd & Hs & Hdir); [by left|].
    destruct (probe_one_boots st x d) as (p & d1 & Ep & E1 & -> & Hh'); try done; [by apply Hsub; left|].
    simpl.
    destruct (IH (mk_ps (<[Z.to_nat x:=opened d1]> (ps_devs st)) (u8 (ps_ok st + 1)) (ps_fail st)
                    (ps_deferred st))) as (devs' & -> & Hup & Hrest); try done.
    + intros id Hin. apply Hsub. by right.
    + intros id Hin. destruct (Hr id) as (Hid' & dd & Hdd & ?); [by right|].
      split; [done|]. exists dd. simpl. rewrite dev_get_insert_ne; [done|lia|].
      intros ->. done.
    + apply u8_range.
    + exists devs'. simpl in Hrest, Hup |- *. split.
      { do 2 f_equal. unfold u8. rewrite Z.add_mod_idemp_l by lia. f_equal. lia. }
      split.
      * intros id [->|Hin]%elem_of_cons.
        { exists p, (ps_devs st), d1. split; [done|]. split; [done|]. split; [done|]. rewrite Hrest by done.
          by eapply dev_get_insert_eq. }
        destruct (Hup id Hin) as (q & ds & d2 & Eq & Hds & E2 & Hd2). exists q, ds, d2. split; [done|]. split; [|done].
        rewrite Hds. apply dev_get_insert_ne; [lia|]. by intros ->.
      * intros id Hin. rewrite Hrest by (intros ?; apply Hin; by right).
        apply dev_get_insert_ne; [lia|]. intros ->. apply Hin. by left.
Qed.

(** C32: A boot without failures. When every device of the probe order starts READY with
    valid dependencies, every probe function succeeds on its device and every open handler
    succeeds, one pass of [board_driver_probe_all] probes and opens all of them, with
    nothing deferred, and it returns 0: each device of the order is as its probe function
    has left it and, when it has an open or init handler then, as this handler has left
    it; it is RUNNING when there was a handler and PROBED when there was none.  As many
    are counted as the order has, in a uint8_t; devices outside the order are untouched. *)
Theorem probe_all_boots devs :
  NoDup order -> healthy devs -> (∀ id, id ∈ order -> ready_at devs id) ->
  ∃ devs', probe_pass count probe_fn cascade call (mk_ps devs 0 0 0) order
             = Some (mk_ps devs' (u8 (Z.of_nat (length order))) 0 0) /\
    board_driver_probe_all order count probe_fn cascade call devs = Some (0, devs') /\
    (∀ id, id ∈ order -> booted_at devs devs' id) /\
    (∀ id, ¬ id ∈ order -> dev_get devs' id = dev_get devs id).
Proof using Hp Hc.
  intros Hnd Hh Hr. unfold board_driver_probe_all. cbn [probe_passes ps_devs ps_ok ps_fail].
  destruct (probe_pass_boots order (mk_ps devs 0 0 0)) as (devs' & -> & Hup & Hrest); try done.
  simpl. eauto.
Qed.
End boot.

Definition demo_probe (id : Z) : option (list device -> Z * list device) :=
  Some (fun ds =>
    match dev_get ds id with
    | Some d => (MINI_OK, <[Z.to_nat id :=
        mk_dev (dv_node d) (dv_status d) 1 (Some (mk_fops None (Some 1) None None None None None None))
          true (dv_lc d) 0 None]> ds)
    | None => (MINI_ERR_INVAL, ds)
    end).

Lemma demo_probe_ok : probes_ok [0; 1] demo_probe.
Proof.
  intros id _. eexists. split; [reflexivity|]. intros ds d Hd Hs. simpl. rewrite Hd.
  eexists. split; [reflexivity|]. done.
Qed.

Lemma demo_calls_ok : calls_ok (fun h d => (MINI_OK, d)).
Proof. by intros h d. Qed.

(** The open handler leaves 7 in the private data. *)
Definition demo_open (h : Z) (d : device) : Z * device := (MINI_OK, dv_set_priv d 7).
Lemma demo_open_ok : calls_ok demo_open.
Proof. by intros h d. Qed.

Lemma probe_all_boots_witness :
  ∃ devs', board_driver_probe_all [0; 1] 2 demo_probe (fun _ => []) demo_open
             [demo_dev [] DEVICE_STATUS_READY; demo_dev [0] DEVICE_STATUS_READY] = Some (0, devs') /\
    ((λ d, (dv_status d, dv_priv_data d)) <$> dev_get devs' 1) = Some (DEVICE_STATUS_RUNNING, 7).
Proof.
  destruct (probe_all_boots [0; 1] 2 demo_probe (fun _ => []) demo_open
     demo_probe_ok demo_open_ok
     [demo_dev [] DEVICE_STATUS_READY; demo_dev [0] DEVICE_STATUS_READY])
    as (devs' & _ & E & Hup & _).
  - apply (bool_decide_unpack (NoDup [0; 1])). reflexivity.
  - intros j d [_ Hj]%dev_get_Some. destruct (Z.to_nat j) as [|[|k]]; simpl in Hj;
      [injection Hj as <-|injection Hj as <-|done]; (split; [done|]); (split; [done|]);
      intros dep Hdep; apply list_elem_of_In in Hdep; simpl in Hdep; simpl; lia.
  - intros id Hid. apply list_elem_of_In in Hid. simpl in Hid.
    destruct Hid as [<-|[<-|[]]]; (split; [lia|]); eexists; split; reflexivity || (split; reflexivity).
  - exists devs'. split; [exact E|]. destruct (Hup 1) as (p & ds & d1 & [= <-] & Hds & E1 & ->); [apply list_elem_of_In; simpl; auto|].
    change (dev_get ds 1 = Some (demo_dev [0] DEVICE_STATUS_READY)) in Hds. rewrite Hds in E1. injection E1 as E1.
    apply dev_get_Some in Hds as [_ Hl]. apply (f_equal (λ l, l !! 1%nat)) in E1.
    change (Z.to_nat 1) with 1%nat in E1, Hl. apply lookup_lt_Some in Hl. rewrite !list_lookup_insert_eq in E1 by lia. injection E1 as <-. reflexivity.
Defined.

(** The failure count is kept in a uint8_t. With 256 devices that all lack a driver,
    [board_driver_probe_all] disables every one of them and returns 0, the code of a
    complete success. *)
Theorem probe_all_count_wraps :
  ∃ devs', board_driver_probe_all (map Z.of_nat (seq 0 256)) 256 (fun _ => None) (fun _ => [])
             (fun h d => (MINI_OK, d)) (replicate 256 (demo_dev [] DEVICE_STATUS_READY))
           = Some (0, devs') /\
    Forall (fun d => dv_status d = DEVICE_STATUS_DISABLED) devs'.
Proof.
  eexists. split; [vm_compute; reflexivity|]. repeat constructor.
Qed.
