(* ===== verification/BusCore.v ===== *)
(** * The bus core

    Models src/board/src/bus.c: the table of bus controllers indexed by device id, the
    lookup of a client's controller through its parent, and the pool of bridges for
    asynchronous completions.  The lookup of a device id by name is generated from the
    device tree and is a parameter (-1 when there is none). *)

From S2P Require Import Prelude Status Lifecycle IntParse Device.
From stdpp Require Import gmap.

#[local] Open Scope Z_scope.

Record bus_controller := mk_ctlr { bc_type : Z; bc_ctlr_ops : Z; bc_hw_ctx : Z }.

Definition ctlr_zero : bus_controller := mk_ctlr 0 0 0.

Record bus_table := mk_bt { bt_controllers : list bus_controller; bt_used : list Z }.

Section bus.
Context (board_dev_find : option cstring -> Z) (nodes : list (option device_node)).

Definition BUS_COUNT : Z := DEV_ID_COUNT nodes.

Definition device_to_id (pdev : option device) : Z :=
  match d ← pdev; dv_node d with
  | None => -1
  | Some _ => board_dev_find (device_get_name pdev)
  end.

Definition bad_id (id : Z) : bool := (id =? -1) || (id >=? BUS_COUNT).

Definition bus_controller_bind_full (pdev : option device) (type ctlr_ops hw_ctx : Z)
    (t : bus_table) : option (Z * bus_table) :=
  match pdev with
  | None => Some (MINI_ERR_INVAL, t)
  | Some _ =>
      if type =? 0 then Some (MINI_ERR_INVAL, t) else
      let id := device_to_id pdev in
      if bad_id id then Some (MINI_ERR_INVAL, t) else
      c ← arr_set (bt_controllers t) id (mk_ctlr type ctlr_ops hw_ctx);
      u ← arr_set (bt_used t) id 1;
      Some (MINI_OK, mk_bt c u)
  end.

(** The result pointer is the id of the table entry; [out] is a valid pointer (the code returns
    MINI_ERR_INVAL for NULL). *)
Definition lookup_controller (id : Z) (t : bus_table) : option (Z * option Z) :=
  if bad_id id then Some (MINI_ERR_NODEV, None) else
  u ← arr_get (bt_used t) id;
  if u =? 0 then Some (MINI_ERR_NODEV, None) else Some (MINI_OK, Some id).

Definition bus_controller_get (pdev : option device) (t : bus_table) : option (Z * option Z) :=
  match pdev with
  | None => Some (MINI_ERR_INVAL, None)
  | Some _ => lookup_controller (device_to_id pdev) t
  end.

(** [devs]: the device instances, for the parent. *)
Definition bus_controller_of (devs : list device) (pdev : option device) (t : bus_table)
    : option (Z * option Z) :=
  match pdev with
  | None => Some (MINI_ERR_INVAL, None)
  | Some _ =>
      match device_get_parent nodes pdev with
      | PErr code => Some (code, None)
      | PNull => lookup_controller (device_to_id None) t
      | PDev i => lookup_controller (device_to_id (devs !! Z.to_nat i)) t
      end
  end.

Definition bus_controller_unbind (pdev : option device) (t : bus_table) : option bus_table :=
  match pdev with
  | None => Some t
  | Some _ =>
      let id := device_to_id pdev in
      if bad_id id then Some t else
      u ← arr_set (bt_used t) id 0;
      c ← arr_set (bt_controllers t) id ctlr_zero;
      Some (mk_bt c u)
  end.

(** ** The table is a map from device ids to controllers *)

Definition bt_wf (t : bus_table) : Prop :=
  Z.of_nat (length (bt_controllers t)) = BUS_COUNT /\ Z.of_nat (length (bt_used t)) = BUS_COUNT.

Definition bt_map (t : bus_table) (id : Z) : option bus_controller :=
  if bad_id id || (id <? 0) then None else
  u ← bt_used t !! Z.to_nat id; if u =? 0 then None else bt_controllers t !! Z.to_nat id.

Inductive bus_op :=
  | BBind (d : device) (type ops ctx : Z) | BUnbind (d : device) | BGet (d : device).

(** What a call returns: its code and, for a lookup, the controller found. *)
Definition bus_exec (t : bus_table) (op : bus_op)
    : option (Z * option bus_controller * bus_table) :=
  match op with
  | BBind d ty o c => '(r, t') ← bus_controller_bind_full (Some d) ty o c t; Some (r, None, t')
  | BUnbind d => t' ← bus_controller_unbind (Some d) t; Some (MINI_OK, None, t')
  | BGet d =>
      '(r, p) ← bus_controller_get (Some d) t;
      match p with
      | None => Some (r, None, t)
      | Some id => c ← arr_get (bt_controllers t) id; Some (r, Some c, t)
      end
  end.

Fixpoint bus_run (t : bus_table) (ops : list bus_op)
    : option (list (Z * option bus_controller) * bus_table) :=
  match ops with
  | [] => Some ([], t)
  | op :: ops =>
      '(r, c, t1) ← bus_exec t op; '(rs, t2) ← bus_run t1 ops; Some ((r, c) :: rs, t2)
  end.

(** The abstract registry. *)
Definition reg_exec (m : gmap Z bus_controller) (op : bus_op)
    : Z * option bus_controller * gmap Z bus_controller :=
  match op with
  | BBind d ty o c =>
      let id := device_to_id (Some d) in
      if (ty =? 0) || bad_id id then (MINI_ERR_INVAL, None, m)
      else (MINI_OK, None, <[id := mk_ctlr ty o c]> m)
  | BUnbind d => (MINI_OK, None, delete (device_to_id (Some d)) m)
  | BGet d => match m !! device_to_id (Some d) with
              | Some c => (MINI_OK, Some c, m)
              | None => (MINI_ERR_NODEV, None, m)
              end
  end.

Fixpoint reg_run (m : gmap Z bus_controller) (ops : list bus_op)
    : list (Z * option bus_controller) * gmap Z bus_controller :=
  match ops with
  | [] => ([], m)
  | op :: ops =>
      let '(r, c, m1) := reg_exec m op in let '(rs, m2) := reg_run m1 ops in ((r, c) :: rs, m2)
  end.

(** The table represents the registry. *)
Definition bt_rep (t : bus_table) (m : gmap Z bus_controller) : Prop :=
  bt_wf t /\ ∀ id, m !! id = bt_map t id.

(** The generated lookup returns an id or -1. *)
Context (Hfind : ∀ s, -1 <= board_dev_find s).

Lemma device_to_id_ge pdev : -1 <= device_to_id pdev.
Proof using Hfind. unfold device_to_id. destruct (pdev ≫= _); [apply Hfind|lia]. Qed.

Lemma bad_id_false id : -1 <= id -> bad_id id = false -> 0 <= id < BUS_COUNT.
Proof.
  unfold bad_id. rewrite Z.geb_leb. intros H E. apply orb_false_iff in E as [E1 E2].
  apply Z.eqb_neq in E1. apply Z.leb_gt in E2. lia.
Qed.

Lemma bt_map_update t id id' c u :
  bt_wf t -> 0 <= id < BUS_COUNT ->
  bt_map (mk_bt (<[Z.to_nat id := c]> (bt_controllers t)) (<[Z.to_nat id := u]> (bt_used t))) id'
    = if decide (id' = id) then (if u =? 0 then None else Some c) else bt_map t id'.
Proof.
  intros [H1 H2] Hid. unfold bt_map. simpl. destruct (decide (id' = id)) as [->|Hne].
  - assert (bad_id id || (id <? 0) = false) as ->.
    { unfold bad_id. rewrite Z.geb_leb. destruct (Z.eqb_spec id (-1)), (Z.leb_spec BUS_COUNT id),
        (Z.ltb_spec id 0); (done || lia). }
    rewrite !list_lookup_insert_eq by lia. simpl. by destruct (u =? 0).
  - destruct (bad_id id' || (id' <? 0)) eqn:E; [done|].
    apply orb_false_iff in E as [_ E]. apply Z.ltb_ge in E.
    by rewrite !list_lookup_insert_ne by lia.
Qed.

Lemma bus_exec_refines t m op :
  bt_rep t m ->
  ∃ r c t' m', bus_exec t op = Some (r, c, t') /\ reg_exec m op = (r, c, m') /\ bt_rep t' m'.
Proof using Hfind.
  intros [WF R]. pose proof WF as [H1 H2].
  destruct op as [d ty o c|d|d]; simpl; pose proof (device_to_id_ge (Some d)) as Hge;
    set (id := device_to_id (Some d)) in *.
  - destruct (ty =? 0); simpl; [eexists _, _, _, _; by split|].
    destruct (bad_id id) eqn:Eb; simpl; [eexists _, _, _, _; by split|].
    pose proof (bad_id_false id Hge Eb). rewrite !arr_set_in by lia. simpl.
    eexists _, _, _, _. split; [done|]. split; [done|].
    split; [split; simpl; rewrite length_insert; lia|]. intros id'.
    rewrite bt_map_update by done. destruct (decide (id' = id)) as [->|].
    + by rewrite lookup_insert_eq.
    + rewrite lookup_insert_ne by done. apply R.
  - destruct (bad_id id) eqn:Eb; simpl.
    + eexists _, _, _, _. split; [done|]. split; [done|]. split; [done|]. intros id'.
      destruct (decide (id' = id)) as [->|].
      * rewrite lookup_delete_eq. unfold bt_map. by rewrite Eb.
      * rewrite lookup_delete_ne by done. apply R.
    + pose proof (bad_id_false id Hge Eb). rewrite !arr_set_in by lia. simpl.
      eexists _, _, _, _. split; [done|]. split; [done|].
      split; [split; simpl; rewrite length_insert; lia|]. intros id'.
      rewrite bt_map_update by done. destruct (decide (id' = id)) as [->|].
      * by rewrite lookup_delete_eq.
      * rewrite lookup_delete_ne by done. apply R.
  - fold id. rewrite R. unfold lookup_controller, bt_map.
    destruct (bad_id id) eqn:Eb; simpl; [eexists _, _, _, _; by split|].
    pose proof (bad_id_false id Hge Eb). destruct (Z.ltb_spec id 0); [lia|].
    destruct (arr_get_in (bt_used t) id) as [u Hu]; [lia|]. rewrite Hu.
    apply arr_get_Some in Hu as [_ ->]. simpl.
    destruct (u =? 0); simpl; [eexists _, _, _, _; by split|].
    destruct (arr_get_in (bt_controllers t) id) as [c Hc]; [lia|]. rewrite Hc.
    apply arr_get_Some in Hc as [_ ->]. simpl. eexists _, _, _, _. by split.
Qed.

Lemma bus_run_refines ops : ∀ t m,
  bt_rep t m -> ∃ rs t' m', bus_run t ops = Some (rs, t') /\ reg_run m ops = (rs, m') /\ bt_rep t' m'.
Proof using Hfind.
  induction ops as [|op ops IH]; intros t m R; [simpl; eauto 6|].
  destruct (bus_exec_refines t m op R) as (r & c & t1 & m1 & Hx & Ha & R1).
  destruct (IH t1 m1 R1) as (rs & t2 & m2 & Hr & Hm & R2).
  cbn [bus_run reg_run]. rewrite Hx, Ha. simpl. rewrite Hr, Hm. eauto 6.
Qed.

(** C33: The controller table is a registry. From the zeroed table, every sequence of binds,
    unbinds and lookups stays inside the table and returns what a finite map from device
    ids returns: a lookup gives the descriptor of the last bind of that device unless it
    was unbound since, and MINI_ERR_NODEV otherwise. *)
Theorem bus_registry_refines ops :
  ∃ rs t' m', bus_run (mk_bt (replicate (length nodes) ctlr_zero) (replicate (length nodes) 0)) ops
                = Some (rs, t') /\
    reg_run ∅ ops = (rs, m') /\ bt_rep t' m'.
Proof using Hfind.
  apply bus_run_refines. split.
  - split; simpl; rewrite length_replicate; done.
  - intros id. rewrite lookup_empty. unfold bt_map. destruct (_ || _); [done|]. simpl.
    destruct (replicate (length nodes) 0 !! Z.to_nat id) as [u|] eqn:E; [|done].
    by apply lookup_replicate in E as [-> _].
Qed.
End bus.

Lemma bus_registry_refines_witness :
  ∃ rs t' m', bus_run (fun _ => 1) [None; None]
      (mk_bt (replicate 2 ctlr_zero) (replicate 2 0))
      [BGet demo_device; BBind (mk_dev (Some (mk_node None None None None [] None None 0 None 0
         DEVICE_STATUS_READY DEVICE_CRIT_WARNING 0)) DEVICE_STATUS_READY 0 None true
         (mk_lc 0 0 DEV_LC_LIVE) 0 None) 1 2 3] = Some (rs, t') /\
    reg_run (fun _ => 1) [None; None] ∅
      [BGet demo_device; BBind (mk_dev (Some (mk_node None None None None [] None None 0 None 0
         DEVICE_STATUS_READY DEVICE_CRIT_WARNING 0)) DEVICE_STATUS_READY 0 None true
         (mk_lc 0 0 DEV_LC_LIVE) 0 None) 1 2 3] = (rs, m') /\
    bt_rep [None; None] t' m'.
Proof. apply (bus_registry_refines (fun _ => 1) [None; None]). intros s. lia. Defined.

(** ** The asynchronous bridge pool *)

Record bus_async_bridge := mk_bridge {
  br_pdev : Z; br_cb : option Z; br_userdata : Z; br_in_use : Z
}.

(** The claim loop from index [i]; the result is the index of the slot. *)
Fixpoint bridge_scan (slots : list bus_async_bridge) (i : nat)
    : option (nat * list bus_async_bridge) :=
  match slots with
  | [] => None
  | s :: rest =>
      if br_in_use s =? 0
      then Some (i, mk_bridge (br_pdev s) (br_cb s) (br_userdata s) 1 :: rest)
      else '(k, rest') ← bridge_scan rest (S i); Some (k, s :: rest')
  end.

Definition bus_async_bridge_claim (slots : option (list bus_async_bridge))
    : option (nat * list bus_async_bridge) :=
  match slots with None => None | Some l => bridge_scan l 0 end.

Definition bus_async_bridge_bind (bridge : option bus_async_bridge) (pdev : Z) (cb : option Z)
    (userdata : Z) : option bus_async_bridge :=
  match bridge with
  | None => None
  | Some b => Some (mk_bridge pdev cb userdata (br_in_use b))
  end.

Definition bus_async_bridge_release (bridge : option bus_async_bridge) : option bus_async_bridge :=
  match bridge with None => None | Some _ => Some (mk_bridge 0 None 0 0) end.

(** The callback made, if any, with its device and user data. *)
Definition bus_async_bridge_complete (bridge : option bus_async_bridge)
    : option bus_async_bridge * option (Z * Z * Z) :=
  match bridge with
  | None => (None, None)
  | Some b =>
      (Some (mk_bridge (br_pdev b) (br_cb b) (br_userdata b) 0),
       cb ← br_cb b; Some (cb, br_pdev b, br_userdata b))
  end.

(** A claim takes the lowest free bridge and marks it; it fails only when all are in use. *)
Lemma bus_async_bridge_claim_spec l :
  match bus_async_bridge_claim (Some l) with
  | Some (k, l') =>
      ∃ b, l !! k = Some b /\ br_in_use b = 0 /\
           l' = <[k := mk_bridge (br_pdev b) (br_cb b) (br_userdata b) 1]> l /\
           ∀ j c, (j < k)%nat -> l !! j = Some c -> br_in_use c ≠ 0
  | None => Forall (fun b => br_in_use b ≠ 0) l
  end.
Proof.
  assert (H : ∀ i, match bridge_scan l i with
    | Some (k, l') =>
        ∃ n b, k = (i + n)%nat /\ l !! n = Some b /\ br_in_use b = 0 /\
           l' = <[n := mk_bridge (br_pdev b) (br_cb b) (br_userdata b) 1]> l /\
           ∀ j c, (j < n)%nat -> l !! j = Some c -> br_in_use c ≠ 0
    | None => Forall (fun b => br_in_use b ≠ 0) l
    end).
  { induction l as [|s l IH]; intros i; simpl; [constructor|].
    destruct (Z.eqb_spec (br_in_use s) 0).
    - exists 0%nat, s. repeat split; try done; lia.
    - specialize (IH (S i)). destruct (bridge_scan l (S i)) as [[k l']|]; simpl; [|by constructor].
      destruct IH as (m & b & -> & Hl & Hu & -> & Hj). exists (S m), b.
      repeat split; try done; [lia|]. intros [|j] c Hlt Hc; simpl in Hc; [congruence|].
      apply (Hj j); [lia|done]. }
  specialize (H 0%nat). simpl. destruct (bridge_scan l 0) as [[k l']|]; [|done].
  destruct H as (n & b & -> & H). eauto.
Qed.
