(* ===== verification/SpiBus.v ===== *)
(** * The SPI bus

    Models src/bus/spi/spi_bus.c over the bus core: the pool of hosts with their reference
    counts, the clients by device id, opening, and which function of the HAL a transfer is handed
    to; and the one function of src/bus/can/can_bus.c that differs in a way that matters.  A
    device pointer is the index of the device ([None] for NULL), a host pointer an address in
    the array [spi_hosts]; the bus keeps host pointers in the controller table as its context.
    What the HAL answers is an input of each call. *)

From S2P Require Import Prelude Status Lifecycle Slot IntParse Device BusCore.
From stdpp Require Import gmap.

#[local] Open Scope Z_scope.

Definition BUS_TYPE_SPI : Z := 1.
Definition SPI_BUS_ROLE_SLAVE : Z := 0.
Definition SPI_BUS_ROLE_MASTER : Z := 1.
Definition HAL_SPI_MAX_ASYNC : nat := 4.

(** [sh_role]: the role in the configuration that the HAL keeps in [hal_host]. *)
Record spi_bus_host := mk_host { sh_pdev : option Z; sh_role : Z; sh_ref_count : Z }.
(** [sc_host]: a pointer, 0 for NULL. *)
Record spi_bus_client := mk_client { sc_pdev : option Z; sc_host : Z; sc_hw_open : Z }.

Record spi_state := mk_spi {
  spi_hosts : list spi_bus_host;
  spi_host_pool_ctrl : mini_slot;
  spi_clients : list spi_bus_client;
  spi_bridge_pool : list (list bus_async_bridge);
  spi_table : bus_table                 (** the table of the bus core *)
}.

Definition host_zero : spi_bus_host := mk_host None 0 0.
Definition client_zero : spi_bus_client := mk_client None 0 0.

(** Where a transfer goes: a refusal, or the HAL with a client. *)
Inductive spi_target := ToCaller (err : Z) | ToSlave (id : Z) | ToMaster (id : Z).

Definition with_hosts (s : spi_state) (v : list spi_bus_host) : spi_state :=
  mk_spi v (spi_host_pool_ctrl s) (spi_clients s) (spi_bridge_pool s) (spi_table s).
Definition with_ctrl (s : spi_state) (v : mini_slot) : spi_state :=
  mk_spi (spi_hosts s) v (spi_clients s) (spi_bridge_pool s) (spi_table s).
Definition with_clients (s : spi_state) (v : list spi_bus_client) : spi_state :=
  mk_spi (spi_hosts s) (spi_host_pool_ctrl s) v (spi_bridge_pool s) (spi_table s).
Definition with_bridges (s : spi_state) (v : list (list bus_async_bridge)) : spi_state :=
  mk_spi (spi_hosts s) (spi_host_pool_ctrl s) (spi_clients s) v (spi_table s).
Definition with_table (s : spi_state) (v : bus_table) : spi_state :=
  mk_spi (spi_hosts s) (spi_host_pool_ctrl s) (spi_clients s) (spi_bridge_pool s) v.

Section spi.
Context (board_dev_find : option cstring -> Z) (nodes : list (option device_node)).
(** The devices (the part of them the bus reads, the node, does not change). *)
Context (devs : list device).
(** The host array: its length, address and element size; the address of the operations. *)
Context (SPI_BUS_HOST_MAX hosts_at sizeof_host spi_controller_ops : Z).

Definition dev (pdev : option Z) : option device := i ← pdev; devs !! Z.to_nat i.
Definition client_id (pdev : option Z) : Z := board_dev_find (device_get_name (dev pdev)).

Definition host_ptr (i : Z) : Z := hosts_at + i * sizeof_host.
(** The host a pointer refers to; [None] for one that is not of the array. *)
Definition host_index (p : Z) : option Z :=
  let i := (p - hosts_at) / sizeof_host in
  if (0 <=? i) && (i <? SPI_BUS_HOST_MAX) && (p =? host_ptr i) then Some i else None.

Definition spi_bus_pool_init (s : spi_state) : option spi_state :=
  '(_, c) ← mini_slot_init (Some (spi_host_pool_ctrl s))
              (Some (replicate (Z.to_nat SPI_BUS_HOST_MAX) 0)) SPI_BUS_HOST_MAX;
  c ← c; Some (with_ctrl s c).

(** ** Lookups *)

Fixpoint host_scan (s : spi_state) (pdev : option Z) (i : Z) (n : nat) : option (option Z) :=
  match n with
  | O => Some None
  | S n =>
      used ← mini_slot_is_used (Some (spi_host_pool_ctrl s)) i;
      if used : bool then
        h ← arr_get (spi_hosts s) i;
        if bool_decide (sh_pdev h = pdev) then Some (Some i) else host_scan s pdev (i + 1) n
      else host_scan s pdev (i + 1) n
  end.
Definition spi_host_from_device (s : spi_state) (pdev : option Z) : option (option Z) :=
  host_scan s pdev 0 (Z.to_nat SPI_BUS_HOST_MAX).

Definition spi_client_from_device (s : spi_state) (pdev : option Z) : option (option Z) :=
  let id := client_id pdev in
  if (id <? 0) || (id >=? DEV_ID_COUNT nodes) then Some None else
  c ← arr_get (spi_clients s) id;
  Some (if bool_decide (sc_pdev c = None) then None else Some id).

(** ** Hosts *)

Definition host_clear (s : spi_state) (idx : Z) : option spi_state :=
  hs ← arr_set (spi_hosts s) idx host_zero;
  '(_, c) ← mini_slot_release (Some (spi_host_pool_ctrl s)) idx; c ← c;
  Some (with_ctrl (with_hosts s hs) c).

(** [hal]: the code of the HAL's initialisation and the role it stores. *)
Definition spi_host_init_impl (s : spi_state) (pdev : option Z) (cfg : bool) (hal : Z * Z)
    : option (Z * spi_state) :=
  if bool_decide (pdev = None) || negb cfg then Some (MINI_ERR_INVAL, s) else
  h ← spi_host_from_device s pdev;
  if bool_decide (is_Some h) then Some (MINI_OK, s) else
  '(idx, c) ← mini_slot_claim (Some (spi_host_pool_ctrl s)); c ← c;
  let s := with_ctrl s c in
  if idx <? 0 then Some (MINI_ERR_NOMEM, s) else
  let '(ret, role) := hal in
  hs ← arr_set (spi_hosts s) idx (mk_host pdev role 0);
  let s := with_hosts s hs in
  if negb (ret =? MINI_OK) then s ← host_clear s idx; Some (ret, s) else
  '(ret, t) ← bus_controller_bind_full board_dev_find nodes (dev pdev) BUS_TYPE_SPI
                spi_controller_ops (host_ptr idx) (spi_table s);
  let s := with_table s t in
  if negb (ret =? MINI_OK) then s ← host_clear s idx; Some (ret, s) else
  Some (MINI_OK, s).
Definition spi_bus_host_init := spi_host_init_impl.

Definition spi_host_deinit_impl (s : spi_state) (pdev : option Z) (hal_ret : Z)
    : option (Z * spi_state) :=
  if bool_decide (pdev = None) then Some (MINI_ERR_INVAL, s) else
  h ← spi_host_from_device s pdev;
  match h with
  | None => Some (MINI_ERR_NODEV, s)
  | Some idx =>
      host ← arr_get (spi_hosts s) idx;
      if sh_ref_count host >? 0 then Some (MINI_ERR_BUSY, s) else
      t ← bus_controller_unbind board_dev_find nodes (dev pdev) (spi_table s);
      let s := with_table s t in
      if hal_ret =? MINI_OK then s ← host_clear s idx; Some (hal_ret, s) else Some (hal_ret, s)
  end.
Definition spi_bus_host_deinit := spi_host_deinit_impl.

Definition spi_host_role_impl (s : spi_state) (pdev : option Z) : option Z :=
  if bool_decide (pdev = None) then Some (-1) else
  '(r, c) ← bus_controller_get board_dev_find nodes (dev pdev) (spi_table s);
  '(r, c) ← (if r =? MINI_OK then Some (r, c)
             else bus_controller_of board_dev_find nodes devs (dev pdev) (spi_table s));
  if negb (r =? MINI_OK) then Some (-1) else
  match c with
  | None => Some (-1)
  | Some id =>
      ctlr ← arr_get (bt_controllers (spi_table s)) id;
      if negb (bc_type ctlr =? BUS_TYPE_SPI) then Some (-1) else
      if bc_hw_ctx ctlr =? 0 then Some (-1) else
      i ← host_index (bc_hw_ctx ctlr); h ← arr_get (spi_hosts s) i;
      Some (if sh_role h =? SPI_BUS_ROLE_MASTER then SPI_BUS_ROLE_MASTER else SPI_BUS_ROLE_SLAVE)
  end.
Definition spi_bus_host_role := spi_host_role_impl.

(** ** Clients *)

(** [MINI_ATOMIC_FETCH_ADD(&host->ref_count, d)]. *)
Definition ref_add (s : spi_state) (p d : Z) : option spi_state :=
  i ← host_index p; h ← arr_get (spi_hosts s) i;
  hs ← arr_set (spi_hosts s) i (mk_host (sh_pdev h) (sh_role h) (s32 (sh_ref_count h + d)));
  Some (with_hosts s hs).

(** The code, the client put out, the state.  [checked]: the type of the controller is
    compared with BUS_TYPE_SPI. *)
Definition client_register (checked : bool) (s : spi_state) (pdev : option Z)
    : option (Z * option Z * spi_state) :=
  '(r, c) ← bus_controller_of board_dev_find nodes devs (dev pdev) (spi_table s);
  match c with
  | None => Some (MINI_ERR_NODEV, None, s)
  | Some cid =>
      if negb (r =? MINI_OK) then Some (MINI_ERR_NODEV, None, s) else
      ctlr ← arr_get (bt_controllers (spi_table s)) cid;
      if checked && negb (bc_type ctlr =? BUS_TYPE_SPI) then Some (MINI_ERR_NODEV, None, s) else
      let host := bc_hw_ctx ctlr in
      if host =? 0 then Some (MINI_ERR_IO, None, s) else
      let id := client_id pdev in
      if (id <? 0) || (id >=? DEV_ID_COUNT nodes) then Some (MINI_ERR_INVAL, None, s) else
      client ← arr_get (spi_clients s) id;
      match sc_pdev client with
      | Some p =>
          if negb (bool_decide (Some p = pdev)) then Some (MINI_ERR_BUSY, None, s)
          else Some (MINI_OK, Some id, s)
      | None =>
          cs ← arr_set (spi_clients s) id (mk_client pdev host 0);
          s ← ref_add (with_clients s cs) host 1;
          Some (MINI_OK, Some id, s)
      end
  end.
Definition spi_client_register_impl (s : spi_state) (pdev : option Z) (cfg out : bool)
    : option (Z * option Z * spi_state) :=
  if bool_decide (pdev = None) || negb cfg || negb out then Some (MINI_ERR_INVAL, None, s)
  else client_register true s pdev.
Definition spi_bus_client_register := spi_client_register_impl.

Definition set_open (s : spi_state) (id : Z) (v : Z) : option spi_state :=
  c ← arr_get (spi_clients s) id;
  cs ← arr_set (spi_clients s) id (mk_client (sc_pdev c) (sc_host c) v);
  Some (with_clients s cs).

(** The client's host pointer is handed to the HAL. *)
Definition spi_bus_open (s : spi_state) (pdev : option Z) (hal_ret : Z) : option (Z * spi_state) :=
  c ← spi_client_from_device s pdev;
  match c with
  | None => Some (MINI_ERR_NODEV, s)
  | Some id =>
      client ← arr_get (spi_clients s) id;
      if negb (sc_hw_open client =? 0) then Some (MINI_OK, s) else
      _ ← host_index (sc_host client);
      if negb (hal_ret =? MINI_OK) then Some (hal_ret, s) else
      s ← set_open s id 1; Some (MINI_OK, s)
  end.

Definition spi_bus_close (s : spi_state) (pdev : option Z) : option (Z * spi_state) :=
  c ← spi_client_from_device s pdev;
  match c with
  | None => Some (MINI_ERR_NODEV, s)
  | Some id =>
      client ← arr_get (spi_clients s) id;
      if negb (sc_hw_open client =? 0) then s ← set_open s id 0; Some (MINI_OK, s)
      else Some (MINI_OK, s)
  end.

Definition spi_client_unregister_impl (s : spi_state) (pdev : option Z) : option spi_state :=
  c ← spi_client_from_device s pdev;
  match c with
  | None => Some s
  | Some id =>
      client ← arr_get (spi_clients s) id;
      s ← (if negb (sc_hw_open client =? 0) then
             '(_, s) ← spi_bus_close s pdev; set_open s id 0
           else Some s);
      s ← (if negb (sc_host client =? 0) then ref_add s (sc_host client) (-1) else Some s);
      cs ← arr_set (spi_clients s) id client_zero;
      Some (with_clients s cs)
  end.
Definition spi_bus_client_unregister := spi_client_unregister_impl.

(** ** Transfers *)

(** The client, if there is one that is open. *)
Definition open_client (s : spi_state) (pdev : option Z) : option (option Z) :=
  c ← spi_client_from_device s pdev;
  match c with
  | None => Some None
  | Some id => client ← arr_get (spi_clients s) id;
               Some (if sc_hw_open client =? 0 then None else Some id)
  end.

Definition spi_bus_transfer (s : spi_state) (pdev : option Z) (len : Z) : option spi_target :=
  if bool_decide (pdev = None) || (len =? 0) then Some (ToCaller MINI_ERR_INVAL) else
  c ← open_client s pdev;
  match c with
  | None => Some (ToCaller MINI_ERR_NODEV)
  | Some id =>
      role ← spi_bus_host_role s pdev;
      Some (if role =? SPI_BUS_ROLE_SLAVE then ToSlave id
            else if role =? SPI_BUS_ROLE_MASTER then ToMaster id
            else ToCaller MINI_ERR_NODEV)
  end.

(** The calls for one role only. *)
Definition role_call (s : spi_state) (pdev : option Z) (bad : bool) (role : Z) : option spi_target :=
  if bool_decide (pdev = None) || bad then Some (ToCaller MINI_ERR_INVAL) else
  c ← open_client s pdev;
  match c with
  | None => Some (ToCaller MINI_ERR_NODEV)
  | Some id =>
      r ← spi_bus_host_role s pdev;
      Some (if negb (r =? role) then ToCaller MINI_ERR_INVAL
            else if role =? SPI_BUS_ROLE_SLAVE then ToSlave id else ToMaster id)
  end.
Definition spi_bus_transfer_poll (s : spi_state) (pdev : option Z) : option spi_target :=
  role_call s pdev false SPI_BUS_ROLE_MASTER.
Definition spi_bus_slave_sync (s : spi_state) (pdev : option Z) (tx rx : bool) (len : Z)
    : option spi_target :=
  role_call s pdev ((len =? 0) || (negb tx && negb rx)) SPI_BUS_ROLE_SLAVE.
Definition spi_bus_slave_queue_tx (s : spi_state) (pdev : option Z) (data : bool) (len : Z)
    : option spi_target :=
  role_call s pdev (negb data || (len =? 0)) SPI_BUS_ROLE_SLAVE.
Definition spi_bus_slave_get_trans_result (s : spi_state) (pdev : option Z) : option spi_target :=
  role_call s pdev false SPI_BUS_ROLE_SLAVE.

Definition set_bridge (s : spi_state) (id : Z) (k : nat) (b : option bus_async_bridge)
    : option spi_state :=
  row ← arr_get (spi_bridge_pool s) id; b ← b;
  bs ← arr_set (spi_bridge_pool s) id (<[k := b]> row);
  Some (with_bridges s bs).

(** The code, the bridge the HAL was given (its row and place), the state. *)
Definition spi_bus_transfer_async (s : spi_state) (pdev : option Z) (len : Z) (cb : option Z)
    (userdata hal_ret : Z) : option (Z * option (Z * nat) * spi_state) :=
  t ← role_call s pdev (len =? 0) SPI_BUS_ROLE_MASTER;
  match t, pdev with
  | ToMaster id, Some p =>
      if bool_decide (cb = None) then Some (hal_ret, None, s) else
      row ← arr_get (spi_bridge_pool s) id;
      match bus_async_bridge_claim (Some row) with
      | None => Some (MINI_ERR_BUSY, None, s)
      | Some (k, row) =>
          bs ← arr_set (spi_bridge_pool s) id row;
          s ← set_bridge (with_bridges s bs) id k (bus_async_bridge_bind (row !! k) p cb userdata);
          if negb (hal_ret =? MINI_OK) then
            row ← arr_get (spi_bridge_pool s) id;
            s ← set_bridge s id k (bus_async_bridge_release (row !! k)); Some (hal_ret, None, s)
          else Some (hal_ret, Some (id, k), s)
      end
  | ToCaller err, _ => Some (err, None, s)
  | _, _ => None
  end.

(** The HAL completes a transfer: the callback made, with its device and user data. *)
Definition spi_async_hal_cb (s : spi_state) (id : Z) (k : nat)
    : option (option (Z * Z * Z) * spi_state) :=
  row ← arr_get (spi_bridge_pool s) id;
  let '(b, call) := bus_async_bridge_complete (row !! k) in
  s ← set_bridge s id k b; Some (call, s).

(** The CAN bus, over its own arrays of the same shape, registers its clients without looking
    at the type of the controller. *)
Definition can_client_register_impl (s : spi_state) (pdev : option Z) (out : bool)
    : option (Z * option Z * spi_state) :=
  if bool_decide (pdev = None) || negb out then Some (MINI_ERR_INVAL, None, s)
  else client_register false s pdev.

(** ** The calls in any order, among other users of the bus core *)

Inductive spi_op :=
  | OInit (pdev : option Z) (cfg : bool) (hal : Z * Z)
  | ODeinit (pdev : option Z) (hal_ret : Z)
  | ORegister (pdev : option Z) (cfg out : bool)
  | OUnregister (pdev : option Z)
  | OOpen (pdev : option Z) (hal_ret : Z)
  | OClose (pdev : option Z)
  | OTransfer (pdev : option Z) (len : Z)
  | OAsync (pdev : option Z) (len : Z) (cb : option Z) (userdata hal_ret : Z)
  | ODone (id : Z) (k : nat)
  | OOtherBind (pdev : option Z) (type ops ctx : Z)
  | OOtherUnbind (pdev : option Z).

Definition spi_step (s : spi_state) (op : spi_op) : option spi_state :=
  match op with
  | OInit d cfg hal => snd <$> spi_bus_host_init s d cfg hal
  | ODeinit d r => snd <$> spi_bus_host_deinit s d r
  | ORegister d cfg out => snd <$> spi_bus_client_register s d cfg out
  | OUnregister d => spi_bus_client_unregister s d
  | OOpen d r => snd <$> spi_bus_open s d r
  | OClose d => snd <$> spi_bus_close s d
  | OTransfer d len => _ ← spi_bus_transfer s d len; Some s
  | OAsync d len cb u r => snd <$> spi_bus_transfer_async s d len cb u r
  | ODone id k => snd <$> spi_async_hal_cb s id k
  | OOtherBind d ty o c =>
      '(_, t) ← bus_controller_bind_full board_dev_find nodes (dev d) ty o c (spi_table s);
      Some (with_table s t)
  | OOtherUnbind d =>
      t ← bus_controller_unbind board_dev_find nodes (dev d) (spi_table s); Some (with_table s t)
  end.

(** Other buses bind controllers of other types; completions name a bridge of the pool. *)
Definition spi_op_ok (op : spi_op) : Prop :=
  match op with
  | ODone id k => 0 <= id < DEV_ID_COUNT nodes /\ (k < HAL_SPI_MAX_ASYNC)%nat
  | OOtherBind _ ty _ _ => ty ≠ BUS_TYPE_SPI
  | _ => True
  end.

Fixpoint spi_run (s : spi_state) (ops : list spi_op) : option spi_state :=
  match ops with [] => Some s | op :: ops => s ← spi_step s op; spi_run s ops end.

(** Everything zero, as at start. *)
Definition spi_zero : spi_state :=
  mk_spi (replicate (Z.to_nat SPI_BUS_HOST_MAX) host_zero) (mk_slot None 0)
    (replicate (length nodes) client_zero)
    (replicate (length nodes) (replicate HAL_SPI_MAX_ASYNC (mk_bridge 0 None 0 0)))
    (mk_bt (replicate (length nodes) ctlr_zero) (replicate (length nodes) 0)).

(** The registered clients of a host. *)
Definition client_of (p : Z) (c : spi_bus_client) : Z :=
  if bool_decide (sc_pdev c = None) then 0 else if sc_host c =? p then 1 else 0.
Fixpoint clients_of (p : Z) (cs : list spi_bus_client) : Z :=
  match cs with [] => 0 | c :: cs => client_of p c + clients_of p cs end.

(** [T]: the hosts in use. *)
Definition pool_owns (s : spi_state) (T : gset Z) : Prop :=
  ∃ u, spi_host_pool_ctrl s = mk_slot (Some u) SPI_BUS_HOST_MAX /\
       slot_wf u SPI_BUS_HOST_MAX /\ slot_rep u SPI_BUS_HOST_MAX T.

Record spi_body (s : spi_state) (T : gset Z) : Prop := {
  si_range : ∀ i, i ∈ T -> 0 <= i < SPI_BUS_HOST_MAX;
  si_hosts : Z.of_nat (length (spi_hosts s)) = SPI_BUS_HOST_MAX;
  si_clients : Z.of_nat (length (spi_clients s)) = DEV_ID_COUNT nodes;
  si_bridges : Z.of_nat (length (spi_bridge_pool s)) = DEV_ID_COUNT nodes /\
               Forall (fun row => length row = HAL_SPI_MAX_ASYNC) (spi_bridge_pool s);
  si_table : bt_wf nodes (spi_table s);
  si_ref : ∀ i h, i ∈ T -> arr_get (spi_hosts s) i = Some h ->
             sh_ref_count h = clients_of (host_ptr i) (spi_clients s);
  si_client : ∀ n c, spi_clients s !! n = Some c -> sc_pdev c ≠ None ->
             ∃ i, i ∈ T /\ sc_host c = host_ptr i;
  si_entry : ∀ id ct, bt_map nodes (spi_table s) id = Some ct -> bc_type ct = BUS_TYPE_SPI ->
             ∃ i h, i ∈ T /\ arr_get (spi_hosts s) i = Some h /\ bc_hw_ctx ct = host_ptr i /\
                    device_to_id board_dev_find (dev (sh_pdev h)) = id
}.

Definition spi_inv (s : spi_state) (T : gset Z) : Prop := pool_owns s T /\ spi_body s T.

(** ** Pointers and counts *)
Section laws.
Context (Hfind : ∀ n, -1 <= board_dev_find n) (Hmax : 0 < SPI_BUS_HOST_MAX).
Context (Hat : 0 < hosts_at) (Hsz : 0 < sizeof_host) (Hcount : DEV_ID_COUNT nodes < 2 ^ 31).

Lemma host_index_ptr i : 0 <= i < SPI_BUS_HOST_MAX -> host_index (host_ptr i) = Some i.
Proof.
  intros Hi. unfold host_index, host_ptr. rewrite Z.add_simpl_l, Z.div_mul by lia.
  rewrite (proj2 (Z.leb_le 0 i)), (proj2 (Z.ltb_lt _ _)), Z.eqb_refl by lia. done.
Qed.

Lemma host_ptr_inj i j : host_ptr i = host_ptr j -> i = j.
Proof. unfold host_ptr. nia. Qed.

Lemma host_ptr_pos i : 0 <= i -> host_ptr i ≠ 0.
Proof. unfold host_ptr. nia. Qed.

Lemma clients_of_insert p cs : ∀ n c c',
  cs !! n = Some c ->
  clients_of p (<[n := c']> cs) = clients_of p cs - client_of p c + client_of p c'.
Proof.
  induction cs as [|x cs IH]; intros [|n] c c'; simpl; try done.
  - intros [= ->]. lia.
  - intros H. rewrite (IH n c c' H). lia.
Qed.

Lemma clients_of_range p cs : 0 <= clients_of p cs <= Z.of_nat (length cs).
Proof.
  induction cs as [|x cs IH]; simpl; [lia|]. unfold client_of.
  destruct (bool_decide _); [lia|]. destruct (_ =? _); lia.
Qed.

Lemma clients_of_none p cs :
  (∀ n c, cs !! n = Some c -> sc_pdev c ≠ None -> sc_host c ≠ p) -> clients_of p cs = 0.
Proof.
  induction cs as [|x cs IH]; intros H; [done|]. simpl.
  rewrite IH by (intros n c Hc; apply (H (S n) c Hc)). unfold client_of.
  case_bool_decide as E; [done|]. destruct (Z.eqb_spec (sc_host x) p) as [Ep|]; [|done].
  by destruct (H 0%nat x eq_refl E).
Qed.

Lemma used_host s T i : spi_body s T -> i ∈ T -> ∃ h, arr_get (spi_hosts s) i = Some h.
Proof.
  intros I Hi. pose proof (si_range _ _ I i Hi). pose proof (si_hosts _ _ I).
  destruct (arr_get_in (spi_hosts s) i) as [h Hh]; [lia|eauto].
Qed.

Lemma arr_get_insert {A} (l : list A) i j x :
  0 <= i < Z.of_nat (length l) ->
  arr_get (<[Z.to_nat i := x]> l) j = if decide (j = i) then Some x else arr_get l j.
Proof.
  intros Hi. unfold arr_get. destruct (decide (j = i)) as [->|Hne].
  - rewrite (proj2 (Z.leb_le 0 i)) by lia. apply list_lookup_insert_eq. lia.
  - destruct (Z.leb_spec 0 j); [|done]. by rewrite list_lookup_insert_ne by lia.
Qed.

(** ** Lookups *)

#[local] Arguments mini_slot_is_used : simpl never.
#[local] Arguments bus_controller_bind_full : simpl never.
#[local] Arguments bus_controller_unbind : simpl never.

Lemma is_used_spec s T i :
  pool_owns s T -> 0 <= i < SPI_BUS_HOST_MAX ->
  mini_slot_is_used (Some (spi_host_pool_ctrl s)) i = Some (bool_decide (i ∈ T)).
Proof.
  intros (u & Ec & [_ Hl] & R) Hi. rewrite Ec. unfold mini_slot_is_used. rewrite Z.geb_leb.
  rewrite (proj2 (Z.ltb_ge i 0)), (proj2 (Z.leb_gt _ _)) by lia. simpl.
  destruct (arr_get_in u i) as [x Hx]; [lia|]. rewrite Hx. simpl.
  apply arr_get_Some in Hx as [_ Hx]. f_equal. apply eq_bool_prop_intro.
  rewrite bool_decide_spec, negb_True, Is_true_true, Z.eqb_eq, (R i). naive_solver.
Qed.

Lemma host_scan_spec s T pdev n : ∀ i,
  spi_inv s T -> 0 <= i -> i + Z.of_nat n <= SPI_BUS_HOST_MAX ->
  ∃ r, host_scan s pdev i n = Some r /\
    match r with
    | Some j => j ∈ T /\ ∃ h, arr_get (spi_hosts s) j = Some h /\ sh_pdev h = pdev
    | None => True
    end.
Proof.
  induction n as [|n IH]; intros i I Hi Hn; [by exists None|]. simpl.
  rewrite (is_used_spec s T i (proj1 I)) by lia. simpl.
  destruct (IH (i + 1) I) as (r & Hr & Hj); [lia|lia|].
  case_bool_decide as Hu; [|by exists r].
  destruct (used_host s T i (proj2 I) Hu) as [h Hh]. rewrite Hh. simpl.
  case_bool_decide; [|by exists r]. exists (Some i). eauto.
Qed.

Lemma host_from_device_spec s T pdev :
  spi_inv s T ->
  ∃ r, spi_host_from_device s pdev = Some r /\
    match r with
    | Some j => j ∈ T /\ ∃ h, arr_get (spi_hosts s) j = Some h /\ sh_pdev h = pdev
    | None => True
    end.
Proof. intros I. apply (host_scan_spec s T); [done|lia|lia]. Qed.

Lemma client_from_device_spec s T pdev :
  spi_body s T ->
  spi_client_from_device s pdev = Some None \/
  (∃ c, spi_client_from_device s pdev = Some (Some (client_id pdev)) /\
     0 <= client_id pdev < DEV_ID_COUNT nodes /\
     arr_get (spi_clients s) (client_id pdev) = Some c /\ sc_pdev c ≠ None).
Proof.
  intros I. unfold spi_client_from_device. rewrite Z.geb_leb. pose proof (si_clients _ _ I).
  destruct (Z.ltb_spec (client_id pdev) 0), (Z.leb_spec (DEV_ID_COUNT nodes) (client_id pdev));
    simpl; auto.
  destruct (arr_get_in (spi_clients s) (client_id pdev)) as [c Hc]; [lia|]. rewrite Hc. simpl.
  case_bool_decide; [auto|]. right. by exists c.
Qed.

Lemma lookup_entry s T id :
  spi_body s T -> -1 <= id ->
  ∃ r c, lookup_controller nodes id (spi_table s) = Some (r, c) /\
    match c with
    | Some id' => r = MINI_OK /\ ∃ ct, arr_get (bt_controllers (spi_table s)) id' = Some ct /\
                  bt_map nodes (spi_table s) id' = Some ct
    | None => r = MINI_ERR_NODEV
    end.
Proof.
  intros I Hid. unfold lookup_controller. destruct (bad_id nodes id) eqn:Eb; [by eexists _, None|].
  pose proof (bad_id_false nodes id Hid Eb). destruct (si_table _ _ I) as [H1 H2].
  destruct (arr_get_in (bt_used (spi_table s)) id) as [u Hu]; [lia|]. rewrite Hu. simpl.
  destruct (u =? 0) eqn:E0; [by eexists _, None|]. eexists _, (Some id). split; [done|].
  split; [done|]. destruct (arr_get_in (bt_controllers (spi_table s)) id) as [ct Hct]; [lia|].
  exists ct. split; [done|]. apply arr_get_Some in Hct as [_ Hct]. apply arr_get_Some in Hu as [_ Hu].
  unfold bt_map. rewrite Eb, (proj2 (Z.ltb_ge id 0)) by lia. simpl. rewrite Hu. simpl. by rewrite E0.
Qed.

Lemma get_entry s T pdev :
  spi_body s T ->
  ∃ r c, bus_controller_get board_dev_find nodes (dev pdev) (spi_table s) = Some (r, c) /\
    match c with
    | Some id => r = MINI_OK /\ ∃ ct, arr_get (bt_controllers (spi_table s)) id = Some ct /\
                  bt_map nodes (spi_table s) id = Some ct
    | None => r ≠ MINI_OK
    end.
Proof.
  intros I. unfold bus_controller_get. destruct (dev pdev) as [d|]; [|by eexists _, None].
  destruct (lookup_entry s T (device_to_id board_dev_find (Some d)) I) as (r & c & -> & H);
    [by apply device_to_id_ge|]. eexists _, _. split; [done|]. destruct c; [done|by rewrite H].
Qed.

Lemma of_entry s T pdev :
  spi_body s T ->
  ∃ r c, bus_controller_of board_dev_find nodes devs (dev pdev) (spi_table s) = Some (r, c) /\
    match c with
    | Some id => r = MINI_OK /\ ∃ ct, arr_get (bt_controllers (spi_table s)) id = Some ct /\
                  bt_map nodes (spi_table s) id = Some ct
    | None => True
    end.
Proof.
  intros I. unfold bus_controller_of. destruct (dev pdev) as [d|]; [|by eexists _, None].
  assert (H : ∀ id, -1 <= id -> ∃ r c, lookup_controller nodes id (spi_table s) = Some (r, c) /\
    match c with
    | Some id => r = MINI_OK /\ ∃ ct, arr_get (bt_controllers (spi_table s)) id = Some ct /\
                  bt_map nodes (spi_table s) id = Some ct
    | None => True
    end).
  { intros id Hid. destruct (lookup_entry s T id I Hid) as (r & c & -> & H).
    eexists _, _. split; [done|]. by destruct c. }
  destruct (device_get_parent nodes (Some d)) as [|code|i]; [apply H|by eexists _, None|apply H].
  - by apply device_to_id_ge.
  - by apply device_to_id_ge.
Qed.

(** The role of a host is found without a wild pointer. *)
Lemma role_spec s T pdev : spi_body s T -> ∃ r, spi_host_role_impl s pdev = Some r.
Proof.
  intros I. unfold spi_host_role_impl. case_bool_decide; [by eexists|].
  destruct (get_entry s T pdev I) as (r & c & -> & H1). cbn [mbind option_bind].
  assert (∃ r' c', (if r =? MINI_OK then Some (r, c)
             else bus_controller_of board_dev_find nodes devs (dev pdev) (spi_table s)) = Some (r', c') /\
     match c' with
     | Some id => ∃ ct, arr_get (bt_controllers (spi_table s)) id = Some ct /\
                  bt_map nodes (spi_table s) id = Some ct
     | None => True end) as (r' & c' & -> & H2).
  { destruct (r =? MINI_OK); [eexists r, c; split; [done|]; destruct c; [apply H1|done]|].
    destruct (of_entry s T pdev I) as (r2 & c2 & -> & H2). eexists _, _. split; [done|].
    destruct c2; [apply H2|done]. }
  cbn [mbind option_bind]. destruct (negb (r' =? MINI_OK)); [by eexists|].
  destruct c' as [id|]; [|by eexists]. destruct H2 as (ct & -> & Hm). cbn [mbind option_bind].
  destruct (bc_type ct =? BUS_TYPE_SPI) eqn:Et; simpl; [|by eexists]. apply Z.eqb_eq in Et.
  destruct (bc_hw_ctx ct =? 0); [by eexists|].
  destruct (si_entry _ _ I id ct Hm Et) as (i & h & Hi & Hh & -> & _).
  rewrite host_index_ptr by (by apply (si_range _ _ I)). simpl. rewrite Hh. simpl. by eexists.
Qed.
(** ** The table *)

Lemma bind_spec t pdev ty ops ctx :
  bt_wf nodes t ->
  ∃ r t', bus_controller_bind_full board_dev_find nodes (dev pdev) ty ops ctx t = Some (r, t') /\
    bt_wf nodes t' /\
    ((r ≠ MINI_OK /\ t' = t) \/
     (r = MINI_OK /\ ∀ id, bt_map nodes t' id =
        if decide (id = device_to_id board_dev_find (dev pdev)) then Some (mk_ctlr ty ops ctx)
        else bt_map nodes t id)).
Proof.
  intros WF. pose proof WF as [H1 H2]. unfold bus_controller_bind_full.
  destruct (dev pdev) as [d|]; [|eexists _, _; eauto].
  destruct (ty =? 0); [eexists _, _; eauto|].
  destruct (bad_id nodes (device_to_id board_dev_find (Some d))) eqn:Eb; [eexists _, _; eauto|].
  pose proof (bad_id_false nodes _ (device_to_id_ge board_dev_find Hfind (Some d)) Eb).
  rewrite !arr_set_in by lia. simpl. eexists _, _. split; [done|].
  split; [split; simpl; rewrite length_insert; lia|]. right. split; [done|].
  intros id. by rewrite bt_map_update.
Qed.

Lemma unbind_spec t pdev :
  bt_wf nodes t ->
  ∃ t', bus_controller_unbind board_dev_find nodes (dev pdev) t = Some t' /\ bt_wf nodes t' /\
    ∀ id, bt_map nodes t' id =
      if decide (id = device_to_id board_dev_find (dev pdev)) then None else bt_map nodes t id.
Proof.
  intros WF. pose proof WF as [H1 H2]. unfold bus_controller_unbind.
  assert (Hbad : ∀ id, bad_id nodes id = true -> bt_map nodes t id = None)
    by (intros id E; unfold bt_map; by rewrite E).
  destruct (dev pdev) as [d|].
  2: { exists t. split; [done|]. split; [done|]. intros id. case_decide as E; [|done].
       subst id. by apply Hbad. }
  destruct (bad_id nodes (device_to_id board_dev_find (Some d))) eqn:Eb.
  { exists t. split; [done|]. split; [done|]. intros id. case_decide as E; [|done].
    subst id. by apply Hbad. }
  pose proof (bad_id_false nodes _ (device_to_id_ge board_dev_find Hfind (Some d)) Eb).
  rewrite !arr_set_in by lia. simpl. eexists _. split; [done|].
  split; [split; simpl; rewrite length_insert; lia|]. intros id. by rewrite bt_map_update.
Qed.

(** ** Changes of the parts *)

Lemma body_ctrl s T c : spi_body s T -> spi_body (with_ctrl s c) T.
Proof. by intros []; constructor. Qed.

Lemma body_host s T i h hs :
  spi_body s T -> 0 <= i -> arr_set (spi_hosts s) i h = Some hs ->
  (∀ o, i ∈ T -> arr_get (spi_hosts s) i = Some o ->
     sh_pdev h = sh_pdev o /\ sh_ref_count h = clients_of (host_ptr i) (spi_clients s)) ->
  spi_body (with_hosts s hs) T.
Proof.
  intros I Hi Hs Hh. unfold arr_set in Hs.
  destruct ((0 <=? i) && (i <? Z.of_nat (length (spi_hosts s)))) eqn:E; [|done]. bool_to_prop.
  injection Hs as <-. split; try apply I; simpl.
  - rewrite length_insert. apply I.
  - intros j h' Hj. rewrite arr_get_insert by lia. case_decide as Ej; [|by apply I].
    subst j. intros [= <-]. destruct (used_host s T i I Hj) as [o Ho]. by apply (Hh o).
  - intros id ct Hm Ht. destruct (si_entry _ _ I id ct Hm Ht) as (j & o & Hj & Ho & Hc & Hd).
    exists j. rewrite arr_get_insert by lia. case_decide as Ej; [|by exists o].
    subst j. exists h. destruct (Hh o Hj Ho) as [-> _]. done.
Qed.

Lemma body_table s T t :
  spi_body s T -> bt_wf nodes t ->
  (∀ id ct, bt_map nodes t id = Some ct -> bc_type ct = BUS_TYPE_SPI ->
     bt_map nodes (spi_table s) id = Some ct \/
     ∃ i h, i ∈ T /\ arr_get (spi_hosts s) i = Some h /\ bc_hw_ctx ct = host_ptr i /\
            device_to_id board_dev_find (dev (sh_pdev h)) = id) ->
  spi_body (with_table s t) T.
Proof.
  intros I WF H. split; try apply I; simpl; [done|]. intros id ct Hm Ht.
  destruct (H id ct Hm Ht) as [Hm'|H']; [by eapply I|done].
Qed.

Lemma body_add s T i h :
  spi_body s T -> 0 <= i < SPI_BUS_HOST_MAX -> i ∉ T ->
  arr_get (spi_hosts s) i = Some h -> sh_ref_count h = 0 -> spi_body s ({[i]} ∪ T).
Proof.
  intros I Hi Hn Hh Hr. split; try apply I.
  - intros j [->%elem_of_singleton|Hj]%elem_of_union; [done|by apply I].
  - intros j hj [->%elem_of_singleton|Hj]%elem_of_union Hg; [|by apply I].
    rewrite Hh in Hg. injection Hg as <-. rewrite Hr, clients_of_none; [done|].
    intros n c Hc Hp Hs. destruct (si_client _ _ I n c Hc Hp) as (k & Hk & Hs').
    rewrite Hs in Hs'. apply host_ptr_inj in Hs'. by subst.
  - intros n c Hc Hp. destruct (si_client _ _ I n c Hc Hp) as (k & Hk & ?). exists k. set_solver.
  - intros id ct Hm Ht. destruct (si_entry _ _ I id ct Hm Ht) as (k & o & Hk & ?).
    exists k, o. set_solver.
Qed.

Lemma clients_of_zero p cs n c :
  clients_of p cs = 0 -> cs !! n = Some c -> sc_pdev c ≠ None -> sc_host c ≠ p.
Proof.
  intros H0 Hc Hp Hs. subst p. pose proof (clients_of_insert (sc_host c) cs n c client_zero Hc) as H.
  unfold client_of in H. rewrite bool_decide_eq_false_2 in H by done.
  rewrite Z.eqb_refl, bool_decide_eq_true_2 in H by done.
  pose proof (clients_of_range (sc_host c) (<[n:=client_zero]> cs)). lia.
Qed.

Lemma body_remove s T i :
  spi_body s T -> clients_of (host_ptr i) (spi_clients s) = 0 ->
  (∀ id ct, bt_map nodes (spi_table s) id = Some ct -> bc_type ct = BUS_TYPE_SPI ->
     bc_hw_ctx ct ≠ host_ptr i) ->
  spi_body s (T ∖ {[i]}).
Proof.
  intros I Hz He. split; try apply I.
  - intros j Hj. apply I. set_solver.
  - intros j h Hj. apply I. set_solver.
  - intros n c Hc Hp. destruct (si_client _ _ I n c Hc Hp) as (k & Hk & Hs). exists k.
    split; [|done]. pose proof (clients_of_zero _ _ n c Hz Hc Hp). set_solver.
  - intros id ct Hm Ht. destruct (si_entry _ _ I id ct Hm Ht) as (k & o & Hk & Ho & Hc & Hd).
    exists k, o. specialize (He id ct Hm Ht). set_solver.
Qed.

Lemma host_clear_inv s T i :
  pool_owns s ({[i]} ∪ T) -> i ∉ T -> spi_body s T -> 0 <= i < SPI_BUS_HOST_MAX ->
  ∃ s', host_clear s i = Some s' /\ spi_inv s' T.
Proof.
  intros (u & Ec & WF & R) Hn I Hi. unfold host_clear.
  destruct (arr_set (spi_hosts s) i host_zero) as [hs|] eqn:Es.
  2: { pose proof (si_hosts _ _ I). rewrite arr_set_in in Es by lia. done. }
  simpl. rewrite Ec. destruct (slot_release_step u _ _ WF R i Hi) as (u' & -> & WF' & R'). simpl.
  eexists. split; [done|]. split.
  - exists u'. split; [done|]. split; [done|].
    replace (({[i]} ∪ T) ∖ {[i]}) with T in R' by set_solver. done.
  - apply body_ctrl. apply (body_host s T i host_zero); [done|lia|done|]. by intros o Hi'.
Qed.
(** ** The calls *)

Lemma init_inv s T pdev cfg hal :
  spi_inv s T -> ∃ r s' T', spi_host_init_impl s pdev cfg hal = Some (r, s') /\ spi_inv s' T'.
Proof.
  intros Hinv. pose proof Hinv as [Ho I]. unfold spi_host_init_impl.
  destruct (_ || _); [by eexists _, _, _|].
  destruct (host_from_device_spec s T pdev Hinv) as (r & -> & _). cbn [mbind option_bind].
  case_bool_decide; [by eexists _, _, _|]. destruct Ho as (u & Ec & WF & R). rewrite Ec.
  destruct (slot_claim_step u _ T WF R) as (i & u' & -> & WF' & [(-> & -> & _)|(Hi & Hn & _ & R')]);
    cbn [mbind option_bind].
  { eexists _, _, T. split; [done|]. split; [by exists u|by apply body_ctrl]. }
  rewrite (proj2 (Z.ltb_ge i 0)) by lia. destruct hal as [ret role]. simpl.
  destruct (arr_set (spi_hosts s) i (mk_host pdev role 0)) as [hs|] eqn:Es.
  2: { pose proof (si_hosts _ _ I). rewrite arr_set_in in Es by lia. done. }
  simpl. set (s1 := with_hosts _ hs).
  assert (I1 : spi_body s1 T).
  { apply (body_host _ T i (mk_host pdev role 0)); [by apply body_ctrl|lia|done|done]. }
  assert (Ho1 : pool_owns s1 ({[i]} ∪ T)) by (by exists u').
  assert (Hg : arr_get (spi_hosts s1) i = Some (mk_host pdev role 0)).
  { pose proof (si_hosts _ _ I). rewrite arr_set_in in Es by lia. injection Es as <-. simpl.
    rewrite arr_get_insert by lia. by rewrite decide_True. }
  destruct (negb (ret =? MINI_OK)).
  { destruct (host_clear_inv s1 T i Ho1 Hn I1 Hi) as (s2 & -> & I2). by eexists _, _, T. }
  change (spi_table s) with (spi_table s1).
  destruct (bind_spec (spi_table s1) pdev BUS_TYPE_SPI spi_controller_ops (host_ptr i))
    as (r2 & t & -> & Ht & Hb); [apply I1|]. cbn [mbind option_bind].
  destruct Hb as [[Hr ->]|[-> Hm]].
  - rewrite (proj2 (Z.eqb_neq _ _) Hr). cbn [negb].
    destruct (host_clear_inv (with_table s1 (spi_table s1)) T i) as (s2 & -> & I2); [done..|]. by eexists _, _, T.
  - eexists _, _, ({[i]} ∪ T). split; [done|]. split; [done|]. apply body_table; [|done|].
    + by eapply body_add.
    + intros id ct Hid Hty. rewrite Hm in Hid. case_decide as Ed; [|by left]. right.
      injection Hid as <-. exists i, (mk_host pdev role 0). split; [set_solver|]. by rewrite Ed.
Qed.

Lemma deinit_inv s T pdev hal_ret :
  spi_inv s T -> ∃ r s' T', spi_host_deinit_impl s pdev hal_ret = Some (r, s') /\ spi_inv s' T'.
Proof.
  intros Hinv. pose proof Hinv as [Ho I]. unfold spi_host_deinit_impl.
  case_bool_decide; [by eexists _, _, _|].
  destruct (host_from_device_spec s T pdev Hinv) as (r & -> & Hr). cbn [mbind option_bind].
  destruct r as [i|]; [|by eexists _, _, _]. destruct Hr as (Hi & h & Hh & Hp). rewrite Hh.
  cbn [mbind option_bind]. rewrite Z.gtb_ltb.
  destruct (Z.ltb_spec 0 (sh_ref_count h)) as [|Hle]; [by eexists _, _, _|].
  destruct (unbind_spec (spi_table s) pdev (si_table _ _ I)) as (t & -> & Ht & Hm).
  cbn [mbind option_bind].
  assert (I1 : spi_body (with_table s t) T).
  { apply body_table; [done|done|]. intros id ct Hid _. rewrite Hm in Hid.
    case_decide; [done|by left]. }
  destruct (hal_ret =? MINI_OK); [|by eexists _, _, T].
  pose proof (si_range _ _ I i Hi) as Hri.
  assert (Hset : {[i]} ∪ (T ∖ {[i]}) = T).
  { apply set_eq. intros j. rewrite elem_of_union, elem_of_difference, elem_of_singleton.
    destruct (decide (j = i)) as [->|]; naive_solver. }
  destruct (host_clear_inv (with_table s t) (T ∖ {[i]}) i) as (s2 & -> & I2).
  - by rewrite Hset.
  - set_solver.
  - apply body_remove; [done| |].
    + pose proof (si_ref _ _ I i h Hi Hh) as E. simpl.
      pose proof (clients_of_range (host_ptr i) (spi_clients s)). lia.
    + simpl. intros id ct Hid Hty Hc. rewrite Hm in Hid. case_decide as Ed; [done|].
      destruct (si_entry _ _ I id ct Hid Hty) as (j & o & Hj & Hoj & Hcj & Hd).
      rewrite Hc in Hcj. apply host_ptr_inj in Hcj. subst j. rewrite Hh in Hoj.
      injection Hoj as <-. by rewrite Hp in Hd.
  - done.
  - by eexists _, _, _.
Qed.

(** A change of one client together with the count of a host that makes up for it. *)
Lemma body_client s T id c c' cs hs i h v :
  spi_body s T -> i ∈ T -> arr_get (spi_clients s) id = Some c ->
  arr_set (spi_clients s) id c' = Some cs ->
  (sc_pdev c' ≠ None -> ∃ k, k ∈ T /\ sc_host c' = host_ptr k) ->
  arr_get (spi_hosts s) i = Some h ->
  arr_set (spi_hosts s) i (mk_host (sh_pdev h) (sh_role h) v) = Some hs ->
  v = clients_of (host_ptr i) cs ->
  (∀ k, k ∈ T -> k ≠ i -> client_of (host_ptr k) c = client_of (host_ptr k) c') ->
  spi_body (with_hosts (with_clients s cs) hs) T.
Proof.
  intros I Hi Hc Hcs Hc' Hh Hhs Hv Hoth. pose proof (si_hosts _ _ I) as HL.
  pose proof (si_clients _ _ I) as HC. pose proof (si_range _ _ I i Hi) as Hri.
  assert (Hid : 0 <= id < Z.of_nat (length (spi_clients s))).
  { apply arr_get_Some in Hc as [? Hc]. apply lookup_lt_Some in Hc. lia. }
  rewrite arr_set_in in Hcs by lia. injection Hcs as <-.
  rewrite arr_set_in in Hhs by lia. injection Hhs as <-.
  apply arr_get_Some in Hc as [_ Hc]. split; try apply I; simpl.
  - by rewrite length_insert.
  - by rewrite length_insert.
  - intros k hk Hk. rewrite arr_get_insert by lia. case_decide as Ek.
    + subst k. by intros [= <-].
    + intros Hg. rewrite (si_ref _ _ I k hk Hk Hg), (clients_of_insert _ _ _ _ _ Hc).
      rewrite (Hoth k Hk Ek). lia.
  - intros n x Hx. destruct (decide (n = Z.to_nat id)) as [->|Hne].
    + rewrite list_lookup_insert_eq in Hx by lia. by injection Hx as <-.
    + rewrite list_lookup_insert_ne in Hx by done. by eapply I.
  - intros e ct Hm Ht. destruct (si_entry _ _ I e ct Hm Ht) as (k & o & Hk & Ho & Hcx & Hd).
    exists k. rewrite arr_get_insert by lia. case_decide as Ek; [|by exists o].
    subst k. eexists. split; [done|]. split; [done|]. split; [done|]. simpl.
    rewrite Hh in Ho. by injection Ho as <-.
Qed.

Lemma ref_add_inv s T id c c' cs i d :
  spi_inv s T -> i ∈ T -> arr_get (spi_clients s) id = Some c ->
  arr_set (spi_clients s) id c' = Some cs ->
  (sc_pdev c' ≠ None -> ∃ k, k ∈ T /\ sc_host c' = host_ptr k) ->
  d = client_of (host_ptr i) c' - client_of (host_ptr i) c ->
  (∀ k, k ∈ T -> k ≠ i -> client_of (host_ptr k) c = client_of (host_ptr k) c') ->
  ∃ s', ref_add (with_clients s cs) (host_ptr i) d = Some s' /\ spi_inv s' T /\
        spi_clients s' = cs.
Proof.
  intros [Ho I] Hi Hc Hcs Hc' Hd Hoth. unfold ref_add.
  rewrite host_index_ptr by (by apply (si_range _ _ I)). simpl.
  destruct (used_host s T i I Hi) as [h Hh]. rewrite Hh. simpl.
  pose proof (si_hosts _ _ I). pose proof (si_range _ _ I i Hi). pose proof (si_clients _ _ I).
  destruct (arr_set (spi_hosts s) i _) as [hs|] eqn:Es; [|rewrite arr_set_in in Es by lia; done].
  simpl. eexists. split; [done|]. split; [|done]. split; [done|].
  assert (Hid : 0 <= id < Z.of_nat (length (spi_clients s)) /\
                cs = <[Z.to_nat id := c']> (spi_clients s)).
  { apply arr_get_Some in Hc as [? Hc]. pose proof (lookup_lt_Some _ _ _ Hc).
    rewrite arr_set_in in Hcs by lia. split; [lia|congruence]. }
  destruct Hid as [Hid Ecs].
  eapply body_client; [done|exact Hi|exact Hc|exact Hcs|exact Hc'|exact Hh|exact Es| |exact Hoth].
  pose proof (clients_of_range (host_ptr i) cs) as Hr.
  assert (HLc : length cs = length (spi_clients s)) by (rewrite Ecs; apply length_insert).
  assert (E : sh_ref_count h + d = clients_of (host_ptr i) cs).
  { rewrite (si_ref _ _ I i h Hi Hh), Ecs. apply arr_get_Some in Hc as [_ Hc].
    rewrite (clients_of_insert _ _ _ _ _ Hc). lia. }
  rewrite E. unfold s32. rewrite u32_small by lia.
  destruct (Z.ltb_spec (clients_of (host_ptr i) cs) 2147483648); lia.
Qed.

Lemma client_of_set d p k : d ≠ None -> client_of p (mk_client d k 0) = if k =? p then 1 else 0.
Proof. intros H. unfold client_of. simpl. by rewrite bool_decide_eq_false_2. Qed.

Lemma register_inv s T pdev cfg out :
  spi_inv s T ->
  ∃ r c s', spi_client_register_impl s pdev cfg out = Some (r, c, s') /\ spi_inv s' T.
Proof.
  intros Hinv. pose proof Hinv as [Ho I]. unfold spi_client_register_impl.
  case_bool_decide as Hd; [by eexists _, _, _|]. simpl.
  destruct (negb cfg || negb out); [by eexists _, _, _|]. unfold client_register.
  destruct (of_entry s T pdev I) as (r & c & -> & H). cbn [mbind option_bind].
  destruct c as [id|]; [|by eexists _, _, _]. destruct H as (-> & ct & Hct & Hm).
  change (negb (MINI_OK =? MINI_OK)) with false. cbv iota. rewrite Hct. cbn [mbind option_bind].
  destruct (bc_type ct =? BUS_TYPE_SPI) eqn:Et; [|by eexists _, _, _]. apply Z.eqb_eq in Et. simpl.
  destruct (bc_hw_ctx ct =? 0); [by eexists _, _, _|].
  destruct (si_entry _ _ I id ct Hm Et) as (i & h & Hi & Hh & -> & _).
  pose proof (si_clients _ _ I). rewrite Z.geb_leb.
  destruct (Z.ltb_spec (client_id pdev) 0), (Z.leb_spec (DEV_ID_COUNT nodes) (client_id pdev));
    try by eexists _, _, _. simpl.
  destruct (arr_get_in (spi_clients s) (client_id pdev)) as [c Hc]; [lia|]. rewrite Hc. simpl.
  destruct (sc_pdev c) as [p|] eqn:Ep.
  { destruct (negb _); by eexists _, _, _. }
  destruct (arr_set (spi_clients s) (client_id pdev) _) as [cs|] eqn:Es;
    [|rewrite arr_set_in in Es by lia; done]. simpl.
  destruct (ref_add_inv s T (client_id pdev) c _ cs i 1 Hinv Hi Hc Es) as (s' & -> & I' & _).
  - intros _. by exists i.
  - rewrite client_of_set, Z.eqb_refl by done. unfold client_of. by rewrite Ep.
  - intros k Hk Hne. rewrite client_of_set by done. unfold client_of. rewrite Ep. simpl.
    destruct (Z.eqb_spec (host_ptr i) (host_ptr k)) as [E|]; [|done].
    by apply host_ptr_inj in E.
  - simpl. by eexists _, _, _.
Qed.
Lemma ref_add_clients s cs p d :
  ref_add (with_clients s cs) p d = (fun s' => with_clients s' cs) <$> ref_add s p d.
Proof.
  unfold ref_add. destruct (host_index p) as [i|]; [|done]. simpl.
  destruct (arr_get (spi_hosts s) i); [|done]. simpl. by destruct (arr_set _ _ _).
Qed.

Lemma ref_add_same s p d s' : ref_add s p d = Some s' -> spi_clients s' = spi_clients s.
Proof.
  unfold ref_add. destruct (host_index p) as [i|]; [|done]. simpl.
  destruct (arr_get (spi_hosts s) i) as [h|]; [|done]. simpl.
  destruct (arr_set (spi_hosts s) i _) as [hs|]; [|done]. by intros [= <-].
Qed.

Lemma set_open_inv s T id c v :
  spi_inv s T -> arr_get (spi_clients s) id = Some c ->
  ∃ s', set_open s id v = Some s' /\ spi_inv s' T /\
        arr_get (spi_clients s') id = Some (mk_client (sc_pdev c) (sc_host c) v).
Proof.
  intros [Ho I] Hc. unfold set_open. rewrite Hc. simpl. pose proof (si_clients _ _ I).
  assert (Hid : 0 <= id < Z.of_nat (length (spi_clients s))).
  { apply arr_get_Some in Hc as [? Hc]. apply lookup_lt_Some in Hc. lia. }
  rewrite arr_set_in by done. simpl. eexists. split; [done|]. apply arr_get_Some in Hc as [_ Hc].
  split; [split; [done|]|].
  - split; try apply I; simpl.
    + by rewrite length_insert.
    + intros i h Hi Hh. rewrite (clients_of_insert _ _ _ _ _ Hc), (si_ref _ _ I i h Hi Hh).
      unfold client_of. simpl. lia.
    + intros n x Hx. destruct (decide (n = Z.to_nat id)) as [->|Hne].
      * rewrite list_lookup_insert_eq in Hx by lia. injection Hx as <-. by apply (si_client _ _ I _ c Hc).
      * rewrite list_lookup_insert_ne in Hx by done. by eapply I.
  - simpl. rewrite arr_get_insert by done. by rewrite decide_True.
Qed.

Lemma open_inv s T pdev r0 :
  spi_inv s T -> ∃ r s', spi_bus_open s pdev r0 = Some (r, s') /\ spi_inv s' T.
Proof.
  intros Hinv. pose proof Hinv as [Ho I]. unfold spi_bus_open.
  destruct (client_from_device_spec s T pdev I) as [->|(c & -> & Hid & Hc & Hp)]; cbn [mbind option_bind];
    [by eexists _, _|]. rewrite Hc. cbn [mbind option_bind].
  destruct (negb (sc_hw_open c =? 0)); [by eexists _, _|].
  apply arr_get_Some in Hc as Hc'. destruct Hc' as [_ Hc'].
  destruct (si_client _ _ I _ c Hc' Hp) as (i & Hi & ->).
  rewrite host_index_ptr by (by apply (si_range _ _ I)). cbn [mbind option_bind].
  destruct (negb (r0 =? MINI_OK)); [by eexists _, _|].
  destruct (set_open_inv s T _ c 1 Hinv Hc) as (s' & -> & I' & _). by eexists _, _.
Qed.

Lemma close_inv s T pdev :
  spi_inv s T -> ∃ r s', spi_bus_close s pdev = Some (r, s') /\ spi_inv s' T /\
    ∀ c, arr_get (spi_clients s) (client_id pdev) = Some c ->
      ∃ v, arr_get (spi_clients s') (client_id pdev) = Some (mk_client (sc_pdev c) (sc_host c) v).
Proof.
  intros Hinv. pose proof Hinv as [Ho I]. unfold spi_bus_close.
  assert (Hsame : ∀ c, arr_get (spi_clients s) (client_id pdev) = Some c ->
      ∃ v, arr_get (spi_clients s) (client_id pdev) = Some (mk_client (sc_pdev c) (sc_host c) v)).
  { intros [p h v] ->. by exists v. }
  destruct (client_from_device_spec s T pdev I) as [->|(c & -> & Hid & Hc & Hp)]; cbn [mbind option_bind];
    [by eexists _, _|]. rewrite Hc. cbn [mbind option_bind].
  destruct (negb (sc_hw_open c =? 0)); [|eexists _, _; split; [done|]; split; [done|]; by rewrite <- Hc].
  destruct (set_open_inv s T _ c 0 Hinv Hc) as (s' & -> & I' & Hs'). eexists _, _.
  split; [done|]. split; [done|]. intros x [= <-]. eauto.
Qed.

Lemma unregister_inv s T pdev :
  spi_inv s T -> ∃ s', spi_client_unregister_impl s pdev = Some s' /\ spi_inv s' T.
Proof.
  intros Hinv. pose proof Hinv as [Ho I]. unfold spi_client_unregister_impl.
  destruct (client_from_device_spec s T pdev I) as [->|(c & -> & Hid & Hc & Hp)]; cbn [mbind option_bind];
    [by eexists|]. rewrite Hc. cbn [mbind option_bind].
  assert (∃ s1 v, (if negb (sc_hw_open c =? 0)
            then '(_, s) ← spi_bus_close s pdev; set_open s (client_id pdev) 0 else Some s) = Some s1 /\
          spi_inv s1 T /\
          arr_get (spi_clients s1) (client_id pdev) = Some (mk_client (sc_pdev c) (sc_host c) v))
    as (s1 & v & -> & I1 & Hc1).
  { destruct (negb (sc_hw_open c =? 0)).
    - destruct (close_inv s T pdev Hinv) as (r & s1 & -> & I1 & H1). cbn [mbind option_bind].
      destruct (H1 c Hc) as (v & Hv).
      destruct (set_open_inv s1 T _ _ 0 I1 Hv) as (s2 & -> & I2 & H2). by exists s2, 0.
    - exists s. destruct c as [p h v]. by exists v. }
  cbn [mbind option_bind]. apply arr_get_Some in Hc as [_ Hc].
  destruct (si_client _ _ I _ c Hc Hp) as (i & Hi & Eh). rewrite Eh in *.
  pose proof (si_range _ _ I i Hi).
  rewrite (proj2 (Z.eqb_neq _ _)) by (apply host_ptr_pos; lia). cbn [negb].
  pose proof (si_clients _ _ (proj2 I1)).
  destruct (arr_set (spi_clients s1) (client_id pdev) client_zero) as [cs|] eqn:Es;
    [|rewrite arr_set_in in Es by lia; done].
  destruct (ref_add_inv s1 T _ _ client_zero cs i (-1) I1 Hi Hc1 Es) as (s2 & Hr & I2 & _).
  - done.
  - unfold client_of. simpl. rewrite bool_decide_eq_false_2 by done. by rewrite Z.eqb_refl.
  - intros k Hk Hne. unfold client_of. simpl. rewrite bool_decide_eq_false_2 by done.
    destruct (Z.eqb_spec (host_ptr i) (host_ptr k)) as [E|]; [|done].
    by apply host_ptr_inj in E.
  - rewrite ref_add_clients in Hr. destruct (ref_add s1 (host_ptr i) (-1)) as [s3|] eqn:E3; [|done].
    simpl in Hr. injection Hr as <-. cbn [mbind option_bind].
    rewrite (ref_add_same _ _ _ _ E3).
    rewrite Es. by eexists.
Qed.

(** *** Transfers *)

Lemma open_client_spec s T pdev :
  spi_body s T -> ∃ r, open_client s pdev = Some r /\
    match r with Some id => id = client_id pdev /\ 0 <= id < DEV_ID_COUNT nodes | None => True end.
Proof.
  intros I. unfold open_client.
  destruct (client_from_device_spec s T pdev I) as [->|(c & -> & Hid & Hc & Hp)]; cbn [mbind option_bind];
    [by exists None|]. rewrite Hc. simpl. destruct (sc_hw_open c =? 0); [by exists None|by eexists].
Qed.

Lemma transfer_ok s T pdev len : spi_body s T -> ∃ t, spi_bus_transfer s pdev len = Some t.
Proof.
  intros I. unfold spi_bus_transfer. destruct (_ || _); [by eexists|].
  destruct (open_client_spec s T pdev I) as ([id|] & -> & _); simpl; [|by eexists].
  destruct (role_spec s T pdev I) as (r & Hr). unfold spi_bus_host_role. rewrite Hr. by eexists.
Qed.

(** The master's calls reach the HAL as a master only. *)
Lemma role_call_spec s T pdev bad role :
  spi_body s T -> ∃ t, role_call s pdev bad role = Some t /\
    match t with
    | ToCaller _ => True
    | ToSlave id => role = SPI_BUS_ROLE_SLAVE
    | ToMaster id => role ≠ SPI_BUS_ROLE_SLAVE /\ pdev ≠ None /\ 0 <= id < DEV_ID_COUNT nodes
    end.
Proof.
  intros I. unfold role_call. case_bool_decide; simpl; [by eexists|]. destruct bad; [by eexists|].
  destruct (open_client_spec s T pdev I) as ([id|] & -> & Hid); simpl; [|by eexists].
  destruct (role_spec s T pdev I) as (r & Hr). unfold spi_bus_host_role. rewrite Hr. simpl.
  eexists. split; [done|]. destruct (negb (r =? role)); [done|].
  destruct (Z.eqb_spec role SPI_BUS_ROLE_SLAVE) as [->|Hne]; [done|]. by destruct Hid as [-> Hid].
Qed.

Lemma set_bridge_inv s T id k row b :
  spi_inv s T -> arr_get (spi_bridge_pool s) id = Some row ->
  ∃ s', set_bridge s id k (Some b) = Some s' /\ spi_inv s' T /\
        arr_get (spi_bridge_pool s') id = Some (<[k := b]> row).
Proof.
  intros [Ho I] Hr. unfold set_bridge. rewrite Hr. simpl. destruct (si_bridges _ _ I) as [HL HF].
  assert (Hid : 0 <= id < Z.of_nat (length (spi_bridge_pool s))).
  { apply arr_get_Some in Hr as [? Hr]. apply lookup_lt_Some in Hr. lia. }
  rewrite arr_set_in by done. simpl. eexists. split; [done|]. split.
  - split; [done|]. split; try apply I. simpl. split; [by rewrite length_insert|].
    apply Forall_insert; [done|]. rewrite length_insert. apply arr_get_Some in Hr as [_ Hr].
    by eapply Forall_lookup_1 in HF.
  - simpl. rewrite arr_get_insert by done. by rewrite decide_True.
Qed.

Lemma bridge_row s T id :
  spi_body s T -> 0 <= id < DEV_ID_COUNT nodes ->
  ∃ row, arr_get (spi_bridge_pool s) id = Some row /\ length row = HAL_SPI_MAX_ASYNC.
Proof.
  intros I Hid. destruct (si_bridges _ _ I) as [HL HF].
  destruct (arr_get_in (spi_bridge_pool s) id) as [row Hr]; [lia|]. exists row. split; [done|].
  apply arr_get_Some in Hr as [_ Hr]. by eapply Forall_lookup_1 in HF.
Qed.

Lemma body_bridges s T bs :
  spi_inv s T -> Z.of_nat (length bs) = DEV_ID_COUNT nodes ->
  Forall (fun row => length row = HAL_SPI_MAX_ASYNC) bs -> spi_inv (with_bridges s bs) T.
Proof. intros [Ho I] H1 H2. split; [done|]. split; try apply I. done. Qed.

Lemma async_inv s T pdev len cb u r0 :
  spi_inv s T -> ∃ r b s', spi_bus_transfer_async s pdev len cb u r0 = Some (r, b, s') /\ spi_inv s' T.
Proof.
  intros Hinv. pose proof Hinv as [Ho I]. unfold spi_bus_transfer_async.
  destruct (role_call_spec s T pdev (len =? 0) SPI_BUS_ROLE_MASTER I) as (t & -> & Ht).
  cbn [mbind option_bind]. destruct t as [err|id|id]; [by eexists _, _, _|by exfalso|].
  destruct Ht as (_ & Hp & Hid). destruct pdev as [p|]; [|done].
  case_bool_decide; [by eexists _, _, _|].
  destruct (bridge_row s T id I Hid) as (row & Hr & HL). rewrite Hr. cbn [mbind option_bind].
  pose proof (bus_async_bridge_claim_spec row) as Hclaim.
  destruct (bus_async_bridge_claim (Some row)) as [[k row']|]; [|by eexists _, _, _].
  destruct Hclaim as (b & Hb & _ & -> & _). pose proof (lookup_lt_Some _ _ _ Hb) as Hk.
  destruct (si_bridges _ _ I) as [HLb HFb]. rewrite arr_set_in by lia. cbn [mbind option_bind].
  rewrite list_lookup_insert_eq by done. unfold bus_async_bridge_bind.
  set (row1 := <[k := _]> row). set (s1 := with_bridges s (<[Z.to_nat id := row1]> (spi_bridge_pool s))).
  assert (HL1 : length row1 = HAL_SPI_MAX_ASYNC) by (unfold row1; by rewrite length_insert).
  assert (I1 : spi_inv s1 T).
  { apply body_bridges; [done|by rewrite length_insert|]. by apply Forall_insert. }
  assert (Hr1 : arr_get (spi_bridge_pool s1) id = Some row1).
  { simpl. rewrite arr_get_insert by lia. by rewrite decide_True. }
  match goal with |- context [set_bridge s1 id k (Some ?b2)] =>
    destruct (set_bridge_inv s1 T id k row1 b2 I1 Hr1) as (s2 & -> & I2 & Hr2) end.
  cbn [mbind option_bind]. destruct (negb (r0 =? MINI_OK)); [|by eexists _, _, _].
  rewrite Hr2. cbn [mbind option_bind]. rewrite list_lookup_insert_eq by lia.
  unfold bus_async_bridge_release. edestruct (set_bridge_inv s2 T id k) as (s3 & -> & I3 & _); [done..|].
  by eexists _, _, _.
Qed.

Lemma done_inv s T id k :
  spi_inv s T -> 0 <= id < DEV_ID_COUNT nodes -> (k < HAL_SPI_MAX_ASYNC)%nat ->
  ∃ c s', spi_async_hal_cb s id k = Some (c, s') /\ spi_inv s' T.
Proof.
  intros Hinv Hid Hk. unfold spi_async_hal_cb.
  destruct (bridge_row s T id (proj2 Hinv) Hid) as (row & Hr & HL). rewrite Hr. cbn [mbind option_bind].
  destruct (lookup_lt_is_Some_2 row k) as [b Hb]; [lia|]. rewrite Hb. cbn [bus_async_bridge_complete].
  edestruct (set_bridge_inv s T id k) as (s' & -> & I' & _); [done|done|]. by eexists _, _.
Qed.

Lemma step_inv s T op :
  spi_inv s T -> spi_op_ok op -> ∃ s' T', spi_step s op = Some s' /\ spi_inv s' T'.
Proof.
  intros Hinv Hok. pose proof Hinv as [Ho I]. destruct op; simpl.
  - edestruct init_inv as (r & s' & T' & Hs & I'); [done|]. unfold spi_bus_host_init.
    rewrite Hs. by eexists _, _.
  - edestruct deinit_inv as (r & s' & T' & Hs & I'); [done|]. unfold spi_bus_host_deinit.
    rewrite Hs. by eexists _, _.
  - edestruct register_inv as (r & c & s' & Hs & I'); [done|]. unfold spi_bus_client_register.
    rewrite Hs. by eexists _, _.
  - edestruct unregister_inv as (s' & Hs & I'); [done|]. unfold spi_bus_client_unregister.
    rewrite Hs. by eexists _, _.
  - edestruct open_inv as (r & s' & -> & I'); [done|]. by eexists _, _.
  - edestruct close_inv as (r & s' & -> & I' & _); [done|]. by eexists _, _.
  - edestruct transfer_ok as (t & ->); [done|]. by eexists _, _.
  - edestruct async_inv as (r & b & s' & -> & I'); [done|]. by eexists _, _.
  - destruct Hok. edestruct done_inv as (c & s' & -> & I'); [done..|]. by eexists _, _.
  - edestruct (bind_spec (spi_table s)) as (r & t & -> & Ht & Hb); [apply I|]. simpl.
    eexists _, T. split; [done|]. split; [done|]. apply body_table; [done|done|].
    intros id ct Hid Hty. destruct Hb as [[_ ->]|[_ Hm]]; [by left|]. rewrite Hm in Hid.
    case_decide; [|by left]. by injection Hid as <-.
  - destruct (unbind_spec (spi_table s) pdev) as (t & -> & Ht & Hm); [apply I|]. simpl.
    eexists _, T. split; [done|]. split; [done|]. apply body_table; [done|done|].
    intros id ct Hid _. rewrite Hm in Hid. case_decide; [done|by left].
Qed.

Lemma run_inv ops : ∀ s T,
  spi_inv s T -> Forall spi_op_ok ops -> ∃ s' T', spi_run s ops = Some s' /\ spi_inv s' T'.
Proof.
  induction ops as [|op ops IH]; intros s T I Hok; [by eexists _, _|].
  apply Forall_cons_1 in Hok as [Hop Hops]. simpl.
  destruct (step_inv s T op I Hop) as (s1 & T1 & -> & I1). simpl. by eapply IH.
Qed.

Lemma spi_init_inv : ∃ s, spi_bus_pool_init spi_zero = Some s /\ spi_inv s ∅.
Proof.
  unfold spi_bus_pool_init, mini_slot_init. simpl.
  rewrite (proj2 (Z.eqb_neq SPI_BUS_HOST_MAX 0)) by lia.
  destruct (slot_clear_spec (Z.to_nat SPI_BUS_HOST_MAX) (replicate (Z.to_nat SPI_BUS_HOST_MAX) 0) 0)
    as (u & -> & HL & H1 & _); rewrite ?length_replicate in *; [lia|lia|]. simpl.
  eexists. split; [done|]. split; [exists u; split; [done|split; [split; lia|]]|].
  - intros i. split; [set_solver|]. intros [Hi (x & Hx & Hne)]. rewrite H1 in Hx by lia. congruence.
  - split; simpl; rewrite ?length_replicate; try done; try lia.
    + split; [done|]. by apply Forall_replicate.
    + split; simpl; by rewrite length_replicate.
    + intros n c [-> _]%lookup_replicate. done.
    + intros id ct. unfold bt_map. destruct (_ || _); [done|]. simpl.
      destruct (replicate (length nodes) 0 !! Z.to_nat id) as [x|] eqn:E; [|done].
      by apply lookup_replicate in E as [-> _].
Qed.
(** C39: Safety. From boot, whatever calls of the SPI bus are made in whatever order, whatever
    the HAL answers, and whatever other buses do in the controller table, no call goes wrong
    (no access out of range, no pointer that is not of the host array), and at any time: the
    reference count of a host in use is the number of registered clients that point to it; a
    registered client points to a host in use, which therefore is not deinitialised under it;
    a controller of type SPI in the table leads to a host in use. *)
Theorem spi_hosts_referenced ops :
  Forall spi_op_ok ops ->
  ∃ s0 s, spi_bus_pool_init spi_zero = Some s0 /\ spi_run s0 ops = Some s /\
    let in_use i := mini_slot_is_used (Some (spi_host_pool_ctrl s)) i = Some true in
    (∀ i h, in_use i -> arr_get (spi_hosts s) i = Some h ->
       sh_ref_count h = clients_of (host_ptr i) (spi_clients s)) /\
    (∀ n c, spi_clients s !! n = Some c -> sc_pdev c ≠ None ->
       ∃ i h, in_use i /\ sc_host c = host_ptr i /\ arr_get (spi_hosts s) i = Some h /\
              0 < sh_ref_count h) /\
    (∀ id ct, bt_map nodes (spi_table s) id = Some ct -> bc_type ct = BUS_TYPE_SPI ->
       ∃ i, in_use i /\ bc_hw_ctx ct = host_ptr i).
Proof.
  intros Hok. destruct spi_init_inv as (s0 & H0 & I0).
  destruct (run_inv ops s0 ∅ I0 Hok) as (s & T & Hr & [Ho I]).
  exists s0, s. split; [done|]. split; [done|].
  assert (Hu : ∀ i, i ∈ T -> mini_slot_is_used (Some (spi_host_pool_ctrl s)) i = Some true).
  { intros i Hi. rewrite (is_used_spec s T i Ho) by (by apply (si_range _ _ I)).
    by rewrite bool_decide_eq_true_2. }
  assert (Hu' : ∀ i, mini_slot_is_used (Some (spi_host_pool_ctrl s)) i = Some true -> i ∈ T).
  { intros i. pose proof Ho as (u & Ec & WF & R). destruct (decide (0 <= i < SPI_BUS_HOST_MAX)) as [Hi|Hi].
    - rewrite (is_used_spec s T i Ho Hi). by case_bool_decide.
    - rewrite Ec. unfold mini_slot_is_used. rewrite Z.geb_leb.
      destruct (Z.ltb_spec i 0), (Z.leb_spec SPI_BUS_HOST_MAX i); simpl; (done || lia). }
  split; [|split].
  - intros i h Hi. apply I. by apply Hu'.
  - intros n c Hn Hp. destruct (si_client _ _ I n c Hn Hp) as (i & Hi & Hh).
    destruct (used_host s T i I Hi) as [h Hg]. exists i, h. split; [auto|]. split; [done|].
    split; [done|]. rewrite (si_ref _ _ I i h Hi Hg).
    pose proof (clients_of_range (host_ptr i) (spi_clients s)).
    destruct (decide (clients_of (host_ptr i) (spi_clients s) = 0)) as [E|]; [|lia].
    by destruct (clients_of_zero _ _ n c E Hn Hp).
  - intros id ct Hid Ht. destruct (si_entry _ _ I id ct Hid Ht) as (i & h & Hi & _ & Hcx & _). eauto.
Qed.
End laws.
End spi.

(** ** A small tree: device 1 under the controller, device 0 *)

Definition tree_node (name : Z) (deps : option (list Z)) : option device_node :=
  Some (mk_node (Some [name]) None None None [] deps None 0 None 0 DEVICE_STATUS_READY
          DEVICE_CRIT_WARNING 0).
Definition tree_nodes : list (option device_node) := [tree_node 48 None; tree_node 49 (Some [0])].
Definition tree_devs : list device :=
  (fun n => mk_dev n DEVICE_STATUS_READY 0 None true (mk_lc 0 0 DEV_LC_LIVE) 0 None) <$> tree_nodes.
Definition tree_find (name : option cstring) : Z :=
  match name with
  | Some (c :: _) => if c =? 48 then 0 else if c =? 49 then 1 else -1
  | _ => -1
  end.

Definition tree_step := spi_step tree_find tree_nodes tree_devs 1 4096 32 7.
Definition tree_run := spi_run tree_find tree_nodes tree_devs 1 4096 32 7.
Definition tree_boot : option spi_state := spi_bus_pool_init 1 (spi_zero tree_nodes 1).

Definition tree_ops : list spi_op :=
  [OInit (Some 0) true (MINI_OK, SPI_BUS_ROLE_MASTER); ORegister (Some 1) true true;
   OOpen (Some 1) MINI_OK; OTransfer (Some 1) 4; OAsync (Some 1) 4 (Some 9) 5 MINI_OK; ODone 1 0;
   ODeinit (Some 0) MINI_OK; OOtherBind (Some 1) 2 3 99; OUnregister (Some 1);
   ODeinit (Some 0) MINI_OK].

Lemma spi_hosts_referenced_witness :
  ∃ s0 s, tree_boot = Some s0 /\ tree_run s0 tree_ops = Some s /\
    (∀ n c, spi_clients s !! n = Some c -> sc_pdev c ≠ None ->
       ∃ i h, mini_slot_is_used (Some (spi_host_pool_ctrl s)) i = Some true /\
              sc_host c = 4096 + i * 32 /\ arr_get (spi_hosts s) i = Some h /\ 0 < sh_ref_count h).
Proof.
  destruct (spi_hosts_referenced tree_find tree_nodes tree_devs 1 4096 32 7) with (ops := tree_ops)
    as (s0 & s & H0 & H1 & _ & H2 & _).
  - intros [[|c n]|]; simpl; try lia. destruct (c =? 48); [lia|]. destruct (c =? 49); lia.
  - lia.
  - lia.
  - lia.
  - vm_compute. reflexivity.
  - repeat constructor; unfold HAL_SPI_MAX_ASYNC; try lia; try (vm_compute; done).
  - by exists s0, s.
Defined.

(** When the HAL refuses to shut a host down, the controller is unbound all the same and the
    host stays in use: it is initialised for ever, and no client finds it again. *)
Example deinit_refused_strands :
  match
    s ← tree_boot; s ← tree_run s [OInit (Some 0) true (MINI_OK, SPI_BUS_ROLE_MASTER)];
    '(r1, s) ← spi_host_deinit_impl tree_find tree_nodes tree_devs 1 s (Some 0) MINI_ERR_IO;
    '(r2, s) ← spi_host_init_impl tree_find tree_nodes tree_devs 1 4096 32 7 s (Some 0) true
                 (MINI_OK, SPI_BUS_ROLE_MASTER);
    '(r3, _, _) ← spi_client_register_impl tree_find tree_nodes tree_devs 1 4096 32 s (Some 1) true true;
    Some (r1, r2, r3)
  with
  | Some r => r = (MINI_ERR_IO, MINI_OK, MINI_ERR_NODEV)
  | None => False
  end.
Proof. vm_compute. reflexivity. Qed.

(** A CAN client under a controller of another bus (here SPI, its hosts at 4096, the CAN hosts
    at 8192) takes that bus's host for its own and counts a reference in it. *)
Example can_client_wrong_bus :
  match
    s ← tree_boot; s ← tree_run s [OInit (Some 0) true (MINI_OK, SPI_BUS_ROLE_MASTER)];
    Some (bool_decide (can_client_register_impl tree_find tree_nodes tree_devs 1 8192 32 s (Some 1) true = None))
  with
  | Some r => r = true
  | None => False
  end.
Proof. vm_compute. reflexivity. Qed.
