(* ===== verification/Crc.v ===== *)
(** * CRC engines

    Models src/mini-log/src/crc.c: the bit-serial engine, the table engine with its cached
    table, and the segmented interface.  Registers are [uint32_t]; a buffer is the list of
    its bytes. *)

From S2P Require Import Prelude.

#[local] Open Scope Z_scope.

(** ** The code *)

Fixpoint reflect_loop (n : nat) (value result : Z) : Z :=
  match n with
  | O => result
  | S n => reflect_loop n (Z.shiftr value 1) (Z.lor (u32 (Z.shiftl result 1)) (Z.land value 1))
  end.
Definition reflect (value width : Z) : Z := reflect_loop (Z.to_nat width) value 0.

(** [(width >= 32) ? 0xFFFFFFFFu : ((1u << width) - 1u)]. *)
Definition crc_mask (width : Z) : Z :=
  if width >=? 32 then 4294967295 else u32 (Z.shiftl 1 width) - 1.

(** One round of the inner loops: right-shifting (reflected input) and left-shifting. *)
Definition bit_right (poly reg : Z) : Z :=
  if negb (Z.land reg 1 =? 0) then Z.lxor (Z.shiftr reg 1) poly else Z.shiftr reg 1.
Definition bit_left (poly top_bit reg : Z) : Z :=
  if negb (Z.land reg top_bit =? 0) then Z.lxor (u32 (Z.shiftl reg 1)) poly
  else u32 (Z.shiftl reg 1).

Definition byte_right (poly width mask reg byte : Z) : Z :=
  if width >=? 8 then Nat.iter 8 (fun r => Z.land (bit_right poly r) mask) (Z.lxor reg byte)
  else foldl (fun r i => Z.land (bit_right poly (Z.lxor r (Z.land (Z.shiftr byte i) 1))) mask)
         reg [0; 1; 2; 3; 4; 5; 6; 7].

Definition byte_left (poly width mask reg byte : Z) : Z :=
  let top_bit := Z.shiftl 1 (width - 1) in
  if width >=? 8
  then Nat.iter 8 (fun r => Z.land (bit_left poly top_bit r) mask)
         (Z.lxor reg (u32 (Z.shiftl byte (width - 8))))
  else foldl (fun r i => Z.land (bit_left poly top_bit
                (Z.lxor r (Z.shiftl (Z.land (Z.shiftr byte i) 1) (width - 1)))) mask)
         reg [7; 6; 5; 4; 3; 2; 1; 0].

Definition crc_bitwise_engine (data : list Z) (reg : Z) (refin : bool) (poly width mask : Z) : Z :=
  if refin then foldl (byte_right poly width mask) reg data
  else foldl (byte_left poly width mask) reg data.

(** The static table and the parameters it was built for. *)
Record crc_cache := mk_cache {
  crc_table : list Z; table_poly : Z; table_width : Z; table_refin : bool; table_ready : bool
}.

Definition table_entry (poly width : Z) (refin : bool) (i : Z) : Z :=
  let mask := crc_mask width in
  let top_bit := Z.shiftl 1 (width - 1) in
  let r := if refin then Nat.iter 8 (bit_right poly) i
           else Nat.iter 8 (fun r => Z.land (bit_left poly top_bit r) mask)
                  (u32 (Z.shiftl i (width - 8))) in
  Z.land r mask.

Definition crc_table_build (poly width : Z) (refin : bool) : crc_cache :=
  mk_cache (map (fun i => table_entry poly width refin (Z.of_nat i)) (seq 0 256))
    poly width refin true.

Definition table_right (table : list Z) (reg : option Z) (byte : Z) : option Z :=
  reg ← reg; t ← arr_get table (Z.land (Z.lxor reg byte) 255);
  Some (Z.lxor (Z.shiftr reg 8) t).

Definition table_left (table : list Z) (width mask : Z) (reg : option Z) (byte : Z) : option Z :=
  reg ← reg; t ← arr_get table (u8 (Z.lxor (Z.shiftr reg (width - 8)) byte));
  Some (Z.lxor (Z.land (u32 (Z.shiftl reg 8)) mask) t).

(** [None] is a read outside the table. *)
Definition crc_table_engine (data : list Z) (reg : Z) (refin : bool) (poly width mask : Z)
    (c : crc_cache) : option (Z * crc_cache) :=
  if width <? 8 then Some (crc_bitwise_engine data reg refin poly width mask, c) else
  let c := if negb (table_ready c) || negb (table_width c =? width)
              || negb (eqb (table_refin c) refin) || negb (table_poly c =? poly)
           then crc_table_build poly width refin else c in
  reg ← (if refin then foldl (table_right (crc_table c)) (Some reg) data
         else foldl (table_left (crc_table c) width mask) (Some reg) data);
  Some (reg, c).

Definition crc_finalize (reg width : Z) (refin refout : bool) (xor_out mask : Z) : Z :=
  let reg := if negb (eqb refin refout) then reflect reg width else reg in
  Z.land (Z.lxor reg xor_out) mask.

Record crc_stream := mk_stream {
  st_reg : Z; st_poly : Z; st_xor_out : Z; st_width : Z; st_refin : bool; st_refout : bool
}.

(** [None]: [init_state] is NULL and its [width] is stored through it all the same. *)
Definition crc_stream_start (init_state : option crc_stream) (init : Z) (refin refout : bool)
    (xor_out poly width : Z) : option crc_stream :=
  match init_state with
  | None => None
  | Some s =>
      if (width =? 0) || (width >? 32)
      then Some (mk_stream (st_reg s) (st_poly s) (st_xor_out s) 0 (st_refin s) (st_refout s))
      else
        let mask := crc_mask width in
        Some (if refin
              then mk_stream (Z.land (reflect init width) mask) (Z.land (reflect poly width) mask)
                     xor_out width refin refout
              else mk_stream (Z.land init mask) (Z.land poly mask) xor_out width refin refout)
  end.

Definition stream_off (s : crc_stream) : bool := (st_width s =? 0) || (st_width s >? 32).

Definition set_reg (s : crc_stream) (reg : Z) : crc_stream :=
  mk_stream reg (st_poly s) (st_xor_out s) (st_width s) (st_refin s) (st_refout s).

(** [CRC_MODE] selects the engine at build time. *)
Definition crc_stream_feed (CRC_MODE : bool) (s : option crc_stream) (data : list Z)
    (c : crc_cache) : option (option crc_stream * crc_cache) :=
  match s with
  | None => Some (None, c)
  | Some s =>
      if stream_off s then Some (Some s, c) else
      let mask := crc_mask (st_width s) in
      if CRC_MODE then
        '(reg, c) ← crc_table_engine data (st_reg s) (st_refin s) (st_poly s) (st_width s) mask c;
        Some (Some (set_reg s reg), c)
      else
        Some (Some (set_reg s
          (crc_bitwise_engine data (st_reg s) (st_refin s) (st_poly s) (st_width s) mask)), c)
  end.

Definition crc_stream_finish (s : option crc_stream) : Z :=
  match s with
  | None => 0
  | Some s =>
      if stream_off s then 0 else
      crc_finalize (st_reg s) (st_width s) (st_refin s) (st_refout s) (st_xor_out s)
        (crc_mask (st_width s))
  end.

(** ** Shift registers as linear maps *)

Lemma crc_mask_ones width : 0 <= width <= 32 -> crc_mask width = Z.ones width.
Proof.
  intros H. unfold crc_mask. rewrite Z.geb_leb. destruct (Z.leb_spec 32 width).
  - by replace width with 32 by lia.
  - rewrite Z.shiftl_mul_pow2, Z.mul_1_l, Z.ones_equiv by lia.
    rewrite u32_small; [lia|]. split; [apply Z.pow_nonneg; lia|].
    change 4294967296 with (2 ^ 32). apply Z.pow_lt_mono_r; lia.
Qed.

(** [x] has no bit at [w] or above. *)
Definition fits (w x : Z) : Prop := 0 <= x /\ ∀ n, w <= n -> Z.testbit x n = false.

Lemma fits_lt w x : 0 <= w -> 0 <= x < 2 ^ w -> fits w x.
Proof.
  intros Hw H. split; [lia|]. intros n Hn. destruct (Z.eq_dec x 0) as [->|]; [apply Z.bits_0|].
  apply Z.bits_above_log2; [lia|]. apply Z.log2_lt_pow2; [lia|].
  eapply Z.lt_le_trans; [apply H|]. apply Z.pow_le_mono_r; lia.
Qed.

Lemma fits_range w x : 0 <= w -> fits w x -> 0 <= x < 2 ^ w.
Proof.
  intros Hw [H0 H]. split; [done|]. assert (x = x mod 2 ^ w) as ->.
  { rewrite <- Z.land_ones by done. apply Z.bits_inj'. intros n Hn.
    rewrite Z.land_spec. destruct (Z.ltb_spec n w).
    - rewrite Z.ones_spec_low by lia. by rewrite andb_true_r.
    - rewrite H by lia. done. }
  apply Z.mod_pos_bound. by apply pow2_pos.
Qed.

Lemma fits_lxor w x y : fits w x -> fits w y -> fits w (Z.lxor x y).
Proof.
  intros [H1 H2] [H3 H4]. split; [by apply Z.lxor_nonneg|].
  intros n Hn. by rewrite Z.lxor_spec, H2, H4.
Qed.

Lemma fits_shiftr w x k : 0 <= k -> fits w x -> fits w (Z.shiftr x k).
Proof.
  intros Hk [H1 H2]. split; [by apply Z.shiftr_nonneg|].
  intros n Hn. destruct (Z.ltb_spec n 0); [by rewrite Z.testbit_neg_r|].
  rewrite Z.shiftr_spec by lia. apply H2. lia.
Qed.

Lemma fits_land_ones w x : 0 <= w -> fits w (Z.land x (Z.ones w)).
Proof.
  intros Hw. apply fits_lt; [done|]. rewrite Z.land_ones by done.
  apply Z.mod_pos_bound. by apply pow2_pos.
Qed.

Lemma fits_weaken v w x : v <= w -> fits v x -> fits w x.
Proof. intros Hv [H1 H2]. split; [done|]. intros n Hn. apply H2. lia. Qed.

Lemma land_fits w x : 0 <= w -> fits w x -> Z.land x (Z.ones w) = x.
Proof.
  intros Hw H. rewrite Z.land_ones by done. apply Z.mod_small. by apply fits_range.
Qed.

#[local] Hint Resolve fits_lxor fits_shiftr fits_land_ones : core.

(** One bit of each shift direction, as a linear map. *)
Definition rstep (poly x : Z) : Z := Z.lxor (Z.shiftr x 1) (if Z.testbit x 0 then poly else 0).
Definition lstep (poly w x : Z) : Z :=
  Z.lxor (Z.land (Z.shiftl x 1) (Z.ones w)) (if Z.testbit x (w - 1) then poly else 0).

Lemma cond_lxor (b c : bool) p :
  (if xorb b c then p else 0) = Z.lxor (if b then p else 0) (if c then p else 0).
Proof. destruct b, c; simpl; by rewrite ?Z.lxor_nilpotent, ?Z.lxor_0_r. Qed.

Lemma lxor_swap a b c d : Z.lxor (Z.lxor a b) (Z.lxor c d) = Z.lxor (Z.lxor a c) (Z.lxor b d).
Proof. apply Z.bits_inj'. intros n _. rewrite !Z.lxor_spec. by destruct (Z.testbit a n),
  (Z.testbit b n), (Z.testbit c n), (Z.testbit d n). Qed.

Lemma land_lxor_distr a b c : Z.land (Z.lxor a b) c = Z.lxor (Z.land a c) (Z.land b c).
Proof. apply Z.bits_inj'. intros n _. rewrite !Z.lxor_spec, !Z.land_spec, Z.lxor_spec.
  by destruct (Z.testbit a n), (Z.testbit b n), (Z.testbit c n). Qed.

Lemma rstep_linear p x y : rstep p (Z.lxor x y) = Z.lxor (rstep p x) (rstep p y).
Proof. unfold rstep. rewrite Z.shiftr_lxor, Z.lxor_spec, cond_lxor. apply lxor_swap. Qed.

Lemma lstep_linear p w x y : lstep p w (Z.lxor x y) = Z.lxor (lstep p w x) (lstep p w y).
Proof.
  unfold lstep. rewrite Z.shiftl_lxor, Z.lxor_spec, cond_lxor, land_lxor_distr. apply lxor_swap.
Qed.

Lemma iter_linear (f : Z -> Z) n x y :
  (∀ a b, f (Z.lxor a b) = Z.lxor (f a) (f b)) ->
  Nat.iter n f (Z.lxor x y) = Z.lxor (Nat.iter n f x) (Nat.iter n f y).
Proof. intros Hf. induction n as [|n IH]; simpl; [done|]. by rewrite IH, Hf. Qed.

Lemma iter_fits (f : Z -> Z) w n x :
  (∀ a, fits w a -> fits w (f a)) -> fits w x -> fits w (Nat.iter n f x).
Proof. intros Hf Hx. induction n as [|n IH]; simpl; auto. Qed.

Lemma iter_ext_fits (f g : Z -> Z) w n x :
  (∀ a, fits w a -> f a = g a) -> (∀ a, fits w a -> fits w (g a)) -> fits w x ->
  Nat.iter n f x = Nat.iter n g x.
Proof.
  intros Hfg Hg Hx. induction n as [|n IH]; simpl; [done|]. rewrite IH. apply Hfg.
  by apply iter_fits.
Qed.

Lemma fits_cond w (b : bool) p : fits w p -> fits w (if b then p else 0).
Proof. intros H. destruct b; [done|]. split; [lia|]. intros. apply Z.bits_0. Qed.
#[local] Hint Resolve fits_cond : core.

Lemma rstep_fits p w x : fits w p -> fits w x -> fits w (rstep p x).
Proof. intros. unfold rstep. apply fits_lxor; auto. apply fits_shiftr; [lia|done]. Qed.

Lemma lstep_fits p w x : 0 <= w -> fits w p -> fits w (lstep p w x).
Proof. intros. unfold lstep. auto. Qed.

(** A register whose low [n] bits are zero shifts right [n] times without feedback. *)
Lemma iter_rstep_high p n x :
  (∀ k, 0 <= k < Z.of_nat n -> Z.testbit x k = false) ->
  Nat.iter n (rstep p) x = Z.shiftr x (Z.of_nat n).
Proof.
  induction n as [|n IH]; intros H; [by rewrite Z.shiftr_0_r|].
  cbn [Nat.iter nat_rect]. change (nat_rect _ x (fun _ => rstep p) n) with (Nat.iter n (rstep p) x).
  rewrite IH by (intros; apply H; lia). unfold rstep.
  rewrite Z.shiftr_spec by lia. rewrite H by lia.
  rewrite Z.lxor_0_r, Z.shiftr_shiftr by lia. f_equal. lia.
Qed.

(** A register whose top [n] bits are zero shifts left [n] times without feedback. *)
Lemma iter_lstep_low p w n x :
  Z.of_nat n <= w -> fits (w - Z.of_nat n) x ->
  Nat.iter n (lstep p w) x = Z.shiftl x (Z.of_nat n).
Proof.
  induction n as [|n IH]; intros Hn Hx; [by rewrite Z.shiftl_0_r|].
  cbn [Nat.iter nat_rect]. change (nat_rect _ x (fun _ => lstep p w) n) with (Nat.iter n (lstep p w) x).
  rewrite IH; [|lia|eapply fits_weaken; [|done]; lia]. unfold lstep.
  rewrite Z.shiftl_spec by lia. rewrite (proj2 Hx) by lia.
  rewrite Z.lxor_0_r, Z.shiftl_shiftl by lia. replace (Z.of_nat n + 1) with (Z.of_nat (S n)) by lia.
  apply land_fits; [lia|]. split; [apply Z.shiftl_nonneg; apply Hx|]. intros m Hm.
  rewrite Z.shiftl_spec by lia. apply Hx. lia.
Qed.

(** ** The loops compute the linear maps *)

Lemma land_single_bit x k : 0 <= k -> negb (Z.land x (Z.shiftl 1 k) =? 0) = Z.testbit x k.
Proof.
  intros Hk. destruct (Z.testbit x k) eqn:E.
  - apply negb_true_iff, Z.eqb_neq. intros H0.
    assert (Z.testbit (Z.land x (Z.shiftl 1 k)) k = true) as Ht.
    { rewrite Z.land_spec, E, Z.shiftl_spec by lia. by rewrite Z.sub_diag. }
    by rewrite H0, Z.bits_0 in Ht.
  - apply negb_false_iff, Z.eqb_eq, Z.bits_inj'. intros n Hn.
    rewrite Z.bits_0, Z.land_spec. destruct (Z.eq_dec n k) as [->|Hne]; [by rewrite E|].
    rewrite Z.shiftl_mul_pow2, Z.mul_1_l by lia. rewrite Z.pow2_bits_false by lia.
    apply andb_false_r.
Qed.

Lemma bit_right_rstep p r : bit_right p r = rstep p r.
Proof.
  unfold bit_right, rstep. change 1 with (Z.shiftl 1 0) at 1. rewrite land_single_bit by lia.
  destruct (Z.testbit r 0); [done|]. by rewrite Z.lxor_0_r.
Qed.

Lemma u32_land_ones w x : 0 <= w <= 32 -> Z.land (u32 x) (Z.ones w) = Z.land x (Z.ones w).
Proof.
  intros H. rewrite !Z.land_ones by lia. unfold u32. change 4294967296 with (2 ^ 32).
  apply mod_pow2_pow2. lia.
Qed.

Lemma bit_left_lstep p w r :
  1 <= w <= 32 -> fits w p -> Z.land (bit_left p (Z.shiftl 1 (w - 1)) r) (Z.ones w) = lstep p w r.
Proof.
  intros Hw Hp. unfold bit_left, lstep. rewrite land_single_bit by lia.
  destruct (Z.testbit r (w - 1)).
  - rewrite land_lxor_distr, u32_land_ones, (land_fits w p) by (done || lia). done.
  - by rewrite u32_land_ones, Z.lxor_0_r by lia.
Qed.

Lemma byte_fits w b : 8 <= w -> is_u8 b -> fits w b.
Proof.
  intros Hw Hb. apply (fits_weaken 8); [lia|]. apply fits_lt; [lia|exact Hb].
Qed.

Lemma fits_shiftl w b k : 0 <= k -> fits (w - k) b -> fits w (Z.shiftl b k).
Proof.
  intros Hk [H1 H2]. split; [by apply Z.shiftl_nonneg|]. intros n Hn.
  destruct (Z.ltb_spec n 0); [by rewrite Z.testbit_neg_r|].
  rewrite Z.shiftl_spec by lia. apply H2. lia.
Qed.

Lemma fits_u32 w x : 0 <= w <= 32 -> fits w x -> u32 x = x.
Proof.
  intros Hw Hx. apply u32_small. apply fits_range in Hx; [|lia].
  pose proof (Z.pow_le_mono_r 2 w 32). lia.
Qed.

Section width.
Context (w p : Z) (Hw : 8 <= w <= 32) (Hp : fits w p).

Lemma byte_right_rstep r b :
  fits w r -> is_u8 b ->
  byte_right p w (Z.ones w) r b = Nat.iter 8 (rstep p) (Z.lxor r b).
Proof using Hw Hp.
  intros Hr Hb. unfold byte_right. rewrite Z.geb_leb. destruct (Z.leb_spec 8 w); [|lia].
  apply (iter_ext_fits _ _ w); [|auto using rstep_fits|apply fits_lxor; auto; apply byte_fits; auto; lia].
  intros a Ha. rewrite bit_right_rstep. apply land_fits; [lia|]. by apply rstep_fits.
Qed.

Lemma byte_left_lstep r b :
  fits w r -> is_u8 b ->
  byte_left p w (Z.ones w) r b = Nat.iter 8 (lstep p w) (Z.lxor r (Z.shiftl b (w - 8))).
Proof using Hw Hp.
  intros Hr Hb. unfold byte_left. rewrite Z.geb_leb. destruct (Z.leb_spec 8 w); [|lia].
  assert (fits w (Z.shiftl b (w - 8))) as Hs.
  { apply fits_shiftl; [lia|]. apply byte_fits; [lia|done]. }
  rewrite (fits_u32 w _) by (done || lia).
  apply (iter_ext_fits _ _ w); [|intros; apply lstep_fits; (done || lia)|by apply fits_lxor].
  intros a Ha. apply bit_left_lstep; [lia|done].
Qed.

Lemma table_entry_right i : is_u8 i -> table_entry p w true i = Nat.iter 8 (rstep p) i.
Proof using Hw Hp.
  intros Hi. unfold table_entry. rewrite crc_mask_ones by lia.
  rewrite (iter_ext_fits _ (rstep p) w); [|intros; apply bit_right_rstep|auto using rstep_fits
    |apply byte_fits; auto; lia].
  apply land_fits; [lia|]. apply iter_fits; [auto using rstep_fits|]. apply byte_fits; auto; lia.
Qed.

Lemma table_entry_left i :
  is_u8 i -> table_entry p w false i = Nat.iter 8 (lstep p w) (Z.shiftl i (w - 8)).
Proof using Hw Hp.
  intros Hi. unfold table_entry. rewrite crc_mask_ones by lia.
  assert (fits w (Z.shiftl i (w - 8))) as Hs.
  { apply fits_shiftl; [lia|]. apply byte_fits; [lia|done]. }
  rewrite (fits_u32 w _) by (done || lia).
  rewrite (iter_ext_fits _ (lstep p w) w); [|intros; apply bit_left_lstep; (done || lia)
    |intros; apply lstep_fits; (done || lia)|done].
  apply land_fits; [lia|]. apply iter_fits; [|done]. intros. apply lstep_fits; (done || lia).
Qed.

(** Eight rounds: the table entry of the byte that leaves, plus the shifted rest. *)
Lemma rstep_table x :
  Nat.iter 8 (rstep p) x = Z.lxor (Z.shiftr x 8) (Nat.iter 8 (rstep p) (Z.land x 255)).
Proof.
  assert (x = Z.lxor (Z.shiftl (Z.shiftr x 8) 8) (Z.land x 255)) as E.
  { apply Z.bits_inj'. intros n Hn. change 255 with (Z.ones 8).
    rewrite Z.lxor_spec, Z.land_spec, Z.shiftl_spec by lia. destruct (Z.ltb_spec n 8).
    - rewrite Z.ones_spec_low, (Z.testbit_neg_r _ (n - 8)) by lia. by rewrite andb_true_r, xorb_false_l.
    - rewrite Z.ones_spec_high, Z.shiftr_spec by lia. rewrite andb_false_r, xorb_false_r.
      f_equal. lia. }
  rewrite E at 1. rewrite iter_linear by apply rstep_linear. f_equal.
  rewrite iter_rstep_high.
  - rewrite Z.shiftr_shiftl_l by lia. by rewrite Z.shiftl_0_r.
  - intros k Hk. apply Z.shiftl_spec_low. lia.
Qed.

Lemma lstep_table x :
  fits w x ->
  Nat.iter 8 (lstep p w) x
    = Z.lxor (Z.land (Z.shiftl x 8) (Z.ones w))
             (Nat.iter 8 (lstep p w) (Z.shiftl (Z.shiftr x (w - 8)) (w - 8))).
Proof using Hw.
  intros Hx. assert (x = Z.lxor (Z.land x (Z.ones (w - 8))) (Z.shiftl (Z.shiftr x (w - 8)) (w - 8))) as E.
  { apply Z.bits_inj'. intros n Hn.
    rewrite Z.lxor_spec, Z.land_spec, Z.shiftl_spec by lia. destruct (Z.ltb_spec n (w - 8)).
    - rewrite Z.ones_spec_low, (Z.testbit_neg_r _ (n - _)) by lia. by rewrite andb_true_r, xorb_false_r.
    - rewrite Z.ones_spec_high, Z.shiftr_spec by lia. rewrite andb_false_r, xorb_false_l.
      f_equal. lia. }
  rewrite E at 1. rewrite iter_linear by apply lstep_linear. f_equal.
  rewrite iter_lstep_low by (try lia; apply fits_land_ones; lia). change (Z.of_nat 8) with 8.
  apply Z.bits_inj'. intros n Hn. rewrite Z.land_spec, !Z.shiftl_spec, Z.land_spec by lia.
  destruct (Z.ltb_spec n 8); [by rewrite !(Z.testbit_neg_r _ (n - 8)) by lia|].
  destruct (Z.ltb_spec n w).
  - by rewrite !Z.ones_spec_low by lia.
  - by rewrite !Z.ones_spec_high by lia.
Qed.
End width.

(** ** The table engine is the bit-serial engine *)

Lemma crc_table_get p w refin i :
  is_u8 i -> arr_get (crc_table (crc_table_build p w refin)) i = Some (table_entry p w refin i).
Proof.
  intros Hi. apply arr_get_Some. split; [apply Hi|]. cbn [crc_table_build crc_table].
  rewrite list_lookup_fmap, lookup_seq_lt by (unfold is_u8 in Hi; lia).
  cbn [fmap option_fmap option_map]. do 2 f_equal. unfold is_u8 in Hi. lia.
Qed.

Lemma fits_u8 x : fits 8 x <-> is_u8 x.
Proof.
  split; [intros H; by apply (fits_range 8)|]. intros H. apply fits_lt; [lia|exact H].
Qed.

Lemma land_255_u8 x : is_u8 (Z.land x 255).
Proof. apply fits_u8. change 255 with (Z.ones 8). by apply fits_land_ones. Qed.

Section engines.
Context (w p : Z) (Hw : 8 <= w <= 32) (Hp : fits w p).

Lemma table_right_step r b :
  fits w r -> is_u8 b ->
  table_right (crc_table (crc_table_build p w true)) (Some r) b
    = Some (byte_right p w (Z.ones w) r b) /\ fits w (byte_right p w (Z.ones w) r b).
Proof using Hw Hp.
  intros Hr Hb. rewrite byte_right_rstep by done. split.
  - unfold table_right. cbn [mbind option_bind].
    rewrite crc_table_get by apply land_255_u8. cbn [mbind option_bind].
    rewrite table_entry_right by (done || apply land_255_u8).
    rewrite (rstep_table p (Z.lxor r b)), Z.shiftr_lxor, (Z.shiftr_div_pow2 b) by lia.
    change (2 ^ 8) with 256. rewrite (Z.div_small b) by apply Hb. by rewrite Z.lxor_0_r.
  - apply iter_fits; [auto using rstep_fits|]. apply fits_lxor; [done|]. apply byte_fits; (done || lia).
Qed.

Lemma table_left_step r b :
  fits w r -> is_u8 b ->
  table_left (crc_table (crc_table_build p w false)) w (Z.ones w) (Some r) b
    = Some (byte_left p w (Z.ones w) r b) /\ fits w (byte_left p w (Z.ones w) r b).
Proof using Hw Hp.
  intros Hr Hb. rewrite byte_left_lstep by done.
  assert (fits w (Z.shiftl b (w - 8))) as Hs.
  { apply fits_shiftl; [lia|]. apply byte_fits; [lia|done]. }
  split; [|apply iter_fits; [intros; apply lstep_fits; (done || lia)|by apply fits_lxor]].
  set (x := Z.lxor r (Z.shiftl b (w - 8))) in *.
  assert (fits w x) as Hx by (by apply fits_lxor).
  assert (Z.lxor (Z.shiftr r (w - 8)) b = Z.shiftr x (w - 8)) as Ei.
  { unfold x. rewrite Z.shiftr_lxor, Z.shiftr_shiftl_l, Z.sub_diag, Z.shiftl_0_r by lia. done. }
  assert (fits 8 (Z.shiftr x (w - 8))) as H8.
  { split; [apply Z.shiftr_nonneg, Hx|]. intros n Hn. rewrite Z.shiftr_spec by lia. apply Hx. lia. }
  unfold table_left. cbn [mbind option_bind]. rewrite Ei.
  assert (u8 (Z.shiftr x (w - 8)) = Z.shiftr x (w - 8)) as ->.
  { apply Z.mod_small. by apply fits_u8 in H8. }
  rewrite crc_table_get by (by apply fits_u8). cbn [mbind option_bind].
  rewrite table_entry_left by (done || by apply fits_u8).
  rewrite (lstep_table w p Hw x) by done. do 2 f_equal. rewrite u32_land_ones by lia.
  unfold x. rewrite Z.shiftl_lxor, land_lxor_distr, (Z.shiftl_shiftl b) by lia.
  replace (w - 8 + 8) with w by lia.
  rewrite (Z.land_ones (Z.shiftl b w)), (Z.shiftl_mul_pow2 b) by lia.
  rewrite Z.mod_mul, Z.lxor_0_r; [done|]. pose proof (pow2_pos w). lia.
Qed.

Lemma engine_fold step bstep data :
  (∀ r b, fits w r -> is_u8 b -> step (Some r) b = Some (bstep r b) /\ fits w (bstep r b)) ->
  Forall is_u8 data -> ∀ r, fits w r ->
  foldl step (Some r) data = Some (foldl bstep r data) /\ fits w (foldl bstep r data).
Proof.
  intros Hs H. induction H as [|b data Hb _ IH]; intros r Hr; simpl; [done|].
  destruct (Hs r b Hr Hb) as [-> Hf]. by apply IH.
Qed.

Lemma bitwise_engine_fits refin data r :
  Forall is_u8 data -> fits w r ->
  fits w (crc_bitwise_engine data r refin p w (crc_mask w)).
Proof using Hw Hp.
  intros Hd Hr. rewrite crc_mask_ones by lia. destruct refin; unfold crc_bitwise_engine.
  - by apply (engine_fold _ _ data table_right_step).
  - by apply (engine_fold _ _ data table_left_step).
Qed.
End engines.

(** What the cached table holds. *)
Definition cache_ok (c : crc_cache) : Prop :=
  table_ready c = true -> c = crc_table_build (table_poly c) (table_width c) (table_refin c).

Definition cache_zero : crc_cache := mk_cache (replicate 256 0) 0 0 false false.

Lemma cache_zero_ok : cache_ok cache_zero.
Proof. by intros. Qed.

Lemma crc_table_build_ok p w refin : cache_ok (crc_table_build p w refin).
Proof. intros _. reflexivity. Qed.

Lemma crc_table_engine_bitwise w p refin data r c :
  1 <= w <= 32 -> fits w p -> fits w r -> Forall is_u8 data -> cache_ok c ->
  ∃ c', crc_table_engine data r refin p w (crc_mask w) c
          = Some (crc_bitwise_engine data r refin p w (crc_mask w), c') /\ cache_ok c'.
Proof.
  intros Hw Hp Hr Hd Hc. unfold crc_table_engine. destruct (Z.ltb_spec w 8); [by eauto|].
  match goal with |- context [if ?b then _ else _] => destruct b eqn:Eb end;
    [|assert (c = crc_table_build p w refin) as -> by
      (bool_to_prop; rewrite Hc by done; f_equal; (done || by apply eqb_prop))];
    (eexists; split; [|apply crc_table_build_ok]); rewrite crc_mask_ones by lia;
    unfold crc_bitwise_engine; destruct refin;
    [rewrite (proj1 (engine_fold w _ _ data (table_right_step w p ltac:(lia) Hp) Hd r Hr))
    |rewrite (proj1 (engine_fold w _ _ data (table_left_step w p ltac:(lia) Hp) Hd r Hr))
    |rewrite (proj1 (engine_fold w _ _ data (table_right_step w p ltac:(lia) Hp) Hd r Hr))
    |rewrite (proj1 (engine_fold w _ _ data (table_left_step w p ltac:(lia) Hp) Hd r Hr))]; done.
Qed.

(** ** Segments *)

Definition stream_wf (s : crc_stream) : Prop :=
  1 <= st_width s <= 32 /\ fits (st_width s) (st_reg s) /\ fits (st_width s) (st_poly s).

Fixpoint crc_stream_feeds (mode : bool) (s : option crc_stream) (segs : list (list Z))
    (c : crc_cache) : option (option crc_stream * crc_cache) :=
  match segs with
  | [] => Some (s, c)
  | seg :: segs => '(s, c) ← crc_stream_feed mode s seg c; crc_stream_feeds mode s segs c
  end.

Lemma stream_wf_on s : stream_wf s -> stream_off s = false.
Proof.
  intros [H _]. unfold stream_off. rewrite Z.gtb_ltb.
  destruct (Z.eqb_spec (st_width s) 0), (Z.ltb_spec 32 (st_width s)); (done || lia).
Qed.

Lemma crc_stream_start_wf s0 init refin refout xor_out poly width :
  1 <= width <= 32 ->
  ∃ s, crc_stream_start (Some s0) init refin refout xor_out poly width = Some s /\ stream_wf s.
Proof.
  intros H. unfold crc_stream_start. rewrite Z.gtb_ltb.
  destruct (Z.eqb_spec width 0), (Z.ltb_spec 32 width); try lia. cbn [orb].
  rewrite crc_mask_ones by lia. eexists. split; [done|].
  destruct refin; (split; [cbn; lia|]); split; cbn; apply fits_land_ones; lia.
Qed.

(** The bit-serial engine over some bytes, as a stream. *)
Definition fed (s : crc_stream) (data : list Z) : crc_stream :=
  set_reg s (crc_bitwise_engine data (st_reg s) (st_refin s) (st_poly s) (st_width s)
               (crc_mask (st_width s))).

Lemma narrow_fold_fits w step (data : list Z) r :
  (∀ r b, fits w (step r b)) -> fits w r -> fits w (foldl step r data).
Proof. intros Hs. revert r. induction data; intros r Hr; simpl; auto. Qed.

Lemma fed_wf s data : Forall is_u8 data -> stream_wf s -> stream_wf (fed s data).
Proof.
  intros Hd (Hw & Hr & Hp). split; [done|]. split; [|done]. cbn.
  destruct (Z.ltb_spec (st_width s) 8).
  - unfold crc_bitwise_engine. destruct (st_refin s); apply narrow_fold_fits; try done;
      intros r b; rewrite crc_mask_ones by lia; unfold byte_right, byte_left; rewrite Z.geb_leb;
      (destruct (Z.leb_spec 8 (st_width s)); [lia|]); simpl; apply fits_land_ones; lia.
  - apply bitwise_engine_fits; (done || lia).
Qed.

Lemma fed_app s d1 d2 : fed (fed s d1) d2 = fed s (d1 ++ d2).
Proof.
  unfold fed. cbn. unfold crc_bitwise_engine, set_reg. cbn.
  destruct (st_refin s); by rewrite foldl_app.
Qed.

Lemma crc_stream_feed_fed mode s data c :
  Forall is_u8 data -> stream_wf s -> cache_ok c ->
  ∃ c', crc_stream_feed mode (Some s) data c = Some (Some (fed s data), c') /\ cache_ok c'.
Proof.
  intros Hd Hs Hc. unfold crc_stream_feed. rewrite stream_wf_on by done.
  destruct mode; [|by eauto]. destruct Hs as (Hw & Hr & Hp).
  destruct (crc_table_engine_bitwise (st_width s) (st_poly s) (st_refin s) data (st_reg s) c)
    as (c' & -> & Hc'); [done..|]. exists c'. by split.
Qed.

Lemma crc_stream_feeds_fed mode segs : ∀ s c,
  Forall (Forall is_u8) segs -> stream_wf s -> cache_ok c ->
  ∃ c', crc_stream_feeds mode (Some s) segs c = Some (Some (fed s (concat segs)), c') /\ cache_ok c'.
Proof.
  induction segs as [|seg segs IH]; intros s c Hd Hs Hc; cbn [crc_stream_feeds concat].
  - exists c. split; [|done]. destruct s as [? ? ? ? [] ?]; reflexivity.
  - apply Forall_cons_1 in Hd as [Hd Hds].
    destruct (crc_stream_feed_fed mode s seg c) as (c1 & -> & Hc1); [done..|].
    destruct (IH (fed s seg) c1) as (c2 & H2 & Hc2); [done|by apply fed_wf|done|].
    exists c2. split; [|done]. cbn [mbind option_bind]. by rewrite H2, fed_app.
Qed.

(** C34: The table engine and segmentation are transparent. For every width from 1 to 32, every
    polynomial, initial value and reflection, and whatever table is cached, a stream
    started and fed in any segments, with either engine, never reads outside the table and
    finishes with the value of the bit-serial engine over the concatenated bytes. *)
Theorem crc_stream_transparent mode s0 init refin refout xor_out poly width segs c :
  1 <= width <= 32 -> Forall (Forall is_u8) segs -> cache_ok c ->
  ∃ s s' c',
    crc_stream_start (Some s0) init refin refout xor_out poly width = Some s /\
    crc_stream_feeds mode (Some s) segs c = Some (Some s', c') /\ cache_ok c' /\
    crc_stream_finish (Some s')
      = crc_finalize (crc_bitwise_engine (concat segs) (st_reg s) refin (st_poly s) width
                        (crc_mask width)) width refin refout xor_out (crc_mask width).
Proof.
  intros Hw Hd Hc.
  destruct (crc_stream_start_wf s0 init refin refout xor_out poly width Hw) as (s & Hs & Hwf).
  destruct (crc_stream_feeds_fed mode segs s c) as (c' & Hf & Hc'); [done..|].
  exists s, (fed s (concat segs)), c'. repeat (split; [done|]).
  unfold crc_stream_finish.
  rewrite (stream_wf_on (fed s (concat segs))) by (apply fed_wf; [by apply Forall_concat|done]).
  unfold crc_stream_start in Hs. rewrite Z.gtb_ltb in Hs.
  destruct (Z.eqb_spec width 0), (Z.ltb_spec 32 width); try lia.
  injection Hs as <-. by destruct refin.
Qed.

Definition stream_zero : crc_stream := mk_stream 0 0 0 0 false false.

Lemma crc_stream_transparent_witness :
  ∃ s s' c',
    crc_stream_start (Some stream_zero) 65535 false false 0 4129 16 = Some s /\
    crc_stream_feeds true (Some s) [[49; 50]; [51]] cache_zero = Some (Some s', c') /\
    cache_ok c' /\
    crc_stream_finish (Some s')
      = crc_finalize (crc_bitwise_engine (concat [[49; 50]; [51]]) (st_reg s) false (st_poly s) 16
                        (crc_mask 16)) 16 false false 0 (crc_mask 16).
Proof.
  apply (crc_stream_transparent true stream_zero 65535 false false 0 4129 16 [[49; 50]; [51]]
           cache_zero).
  - lia.
  - repeat constructor; lia.
  - exact cache_zero_ok.
Defined.

(** The default model of crc_config.h is CRC-32: its check value over 123456789, in two
    segments through the table engine. *)
Example crc32_check_value :
  (s ← crc_stream_start (Some stream_zero) 4294967295 true true 4294967295 79764919 32;
   '(s, _) ← crc_stream_feeds true (Some s) [[49; 50; 51; 52]; [53; 54; 55; 56; 57]] cache_zero;
   Some (crc_stream_finish s)) = Some 3421780262.
Proof. vm_compute. reflexivity. Qed.
