(* ===== verification/ConfigBlob.v ===== *)
(** * Configuration entries and their blob

    Models the first half of src/board/src/config_store.c: the entry table, the CRC-32 of the
    stored blob, and the binary form of the table.  A C string is the list of its characters
    up to the terminating NUL; the union of an entry is the member its type tag selects, a
    [float] being its 32-bit pattern. *)

From S2P Require Import Prelude Status IntParse Crc.

#[local] Open Scope Z_scope.

Definition MAX_ENTRIES : Z := 8.
Definition BLOB_MAX : Z := 4096.

Definition CS_TYPE_INT : Z := 0.
Definition CS_TYPE_FLOAT : Z := 1.
Definition CS_TYPE_BOOL : Z := 2.
Definition CS_TYPE_STRING : Z := 3.

Inductive cs_value :=
  | VInt (i : Z)
  | VFloat (bits : Z)
  | VBool (b : bool)
  | VString (s : cstring)
  | VOther (type : Z).        (** a tag outside the enum, read from a blob *)

#[export] Instance cs_value_eq_dec : EqDecision cs_value.
Proof. solve_decision. Defined.

Definition cs_type (v : cs_value) : Z :=
  match v with
  | VInt _ => CS_TYPE_INT
  | VFloat _ => CS_TYPE_FLOAT
  | VBool _ => CS_TYPE_BOOL
  | VString _ => CS_TYPE_STRING
  | VOther t => t
  end.

(** The zeroed union under a tag. *)
Definition zero_value (type : Z) : cs_value :=
  if type =? CS_TYPE_INT then VInt 0
  else if type =? CS_TYPE_FLOAT then VFloat 0
  else if type =? CS_TYPE_BOOL then VBool false
  else if type =? CS_TYPE_STRING then VString []
  else VOther type.

Record cs_entry := mk_ce { ce_key : cstring; ce_value : cs_value; ce_dirty : bool }.

(** ** The entry table: the first [entry_count] elements of [entries]

    A pointer to an entry is its index. *)

Fixpoint find_entry_from (i : nat) (es : list cs_entry) (key : cstring) : option nat :=
  match es with
  | [] => None
  | e :: es => if decide (ce_key e = key) then Some i else find_entry_from (S i) es key
  end.
Definition find_entry (es : list cs_entry) (key : cstring) : option nat := find_entry_from 0 es key.

(** [strncpy] to 31 characters and a NUL. *)
Definition add_entry (es : list cs_entry) (key : cstring) (type : Z)
    : option (nat * list cs_entry) :=
  if Z.of_nat (length es) >=? MAX_ENTRIES then None
  else Some (length es, es ++ [mk_ce (take 31 key) (zero_value type) false]).

(** Stores through the entry pointer. *)
Definition put_value (es : list cs_entry) (i : nat) (v : cs_value) : list cs_entry :=
  alter (fun e => mk_ce (ce_key e) v (ce_dirty e)) i es.
Definition put_dirty (es : list cs_entry) (i : nat) (d : bool) : list cs_entry :=
  alter (fun e => mk_ce (ce_key e) (ce_value e) d) i es.

(** ** CRC-32 *)

Definition crc32_table : list Z := [
   0x00000000; 0x77073096; 0xEE0E612C; 0x990951BA; 0x076DC419; 0x706AF48F; 0xE963A535; 0x9E6495A3;
   0x0EDB8832; 0x79DCB8A4; 0xE0D5E91E; 0x97D2D988; 0x09B64C2B; 0x7EB17CBD; 0xE7B82D07; 0x90BF1D91;
   0x1DB71064; 0x6AB020F2; 0xF3B97148; 0x84BE41DE; 0x1ADAD47D; 0x6DDDE4EB; 0xF4D4B551; 0x83D385C7;
   0x136C9856; 0x646BA8C0; 0xFD62F97A; 0x8A65C9EC; 0x14015C4F; 0x63066CD9; 0xFA0F3D63; 0x8D080DF5;
   0x3B6E20C8; 0x4C69105E; 0xD56041E4; 0xA2677172; 0x3C03E4D1; 0x4B04D447; 0xD20D85FD; 0xA50AB56B;
   0x35B5A8FA; 0x42B2986C; 0xDBBBC9D6; 0xACBCF940; 0x32D86CE3; 0x45DF5C75; 0xDCD60DCF; 0xABD13D59;
   0x26D930AC; 0x51DE003A; 0xC8D75180; 0xBFD06116; 0x21B4F4B5; 0x56B3C423; 0xCFBA9599; 0xB8BDA50F;
   0x2802B89E; 0x5F058808; 0xC60CD9B2; 0xB10BE924; 0x2F6F7C87; 0x58684C11; 0xC1611DAB; 0xB6662D3D;
   0x76DC4190; 0x01DB7106; 0x98D220BC; 0xEFD5102A; 0x71B18589; 0x06B6B51F; 0x9FBFE4A5; 0xE8B8D433;
   0x7807C9A2; 0x0F00F934; 0x9609A88E; 0xE10E9818; 0x7F6A0DBB; 0x086D3D2D; 0x91646C97; 0xE6635C01;
   0x6B6B51F4; 0x1C6C6162; 0x856530D8; 0xF262004E; 0x6C0695ED; 0x1B01A57B; 0x8208F4C1; 0xF50FC457;
   0x65B0D9C6; 0x12B7E950; 0x8BBEB8EA; 0xFCB9887C; 0x62DD1DDF; 0x15DA2D49; 0x8CD37CF3; 0xFBD44C65;
   0x4DB26158; 0x3AB551CE; 0xA3BC0074; 0xD4BB30E2; 0x4ADFA541; 0x3DD895D7; 0xA4D1C46D; 0xD3D6F4FB;
   0x4369E96A; 0x346ED9FC; 0xAD678846; 0xDA60B8D0; 0x44042D73; 0x33031DE5; 0xAA0A4C5F; 0xDD0D7CC9;
   0x5005713C; 0x270241AA; 0xBE0B1010; 0xC90C2086; 0x5768B525; 0x206F85B3; 0xB966D409; 0xCE61E49F;
   0x5EDEF90E; 0x29D9C998; 0xB0D09822; 0xC7D7A8B4; 0x59B33D17; 0x2EB40D81; 0xB7BD5C3B; 0xC0BA6CAD;
   0xEDB88320; 0x9ABFB3B6; 0x03B6E20C; 0x74B1D29A; 0xEAD54739; 0x9DD277AF; 0x04DB2615; 0x73DC1683;
   0xE3630B12; 0x94643B84; 0x0D6D6A3E; 0x7A6A5AA8; 0xE40ECF0B; 0x9309FF9D; 0x0A00AE27; 0x7D079EB1;
   0xF00F9344; 0x8708A3D2; 0x1E01F268; 0x6906C2FE; 0xF762575D; 0x806567CB; 0x196C3671; 0x6E6B06E7;
   0xFED41B76; 0x89D32BE0; 0x10DA7A5A; 0x67DD4ACC; 0xF9B9DF6F; 0x8EBEEFF9; 0x17B7BE43; 0x60B08ED5;
   0xD6D6A3E8; 0xA1D1937E; 0x38D8C2C4; 0x4FDFF252; 0xD1BB67F1; 0xA6BC5767; 0x3FB506DD; 0x48B2364B;
   0xD80D2BDA; 0xAF0A1B4C; 0x36034AF6; 0x41047A60; 0xDF60EFC3; 0xA867DF55; 0x316E8EEF; 0x4669BE79;
   0xCB61B38C; 0xBC66831A; 0x256FD2A0; 0x5268E236; 0xCC0C7795; 0xBB0B4703; 0x220216B9; 0x5505262F;
   0xC5BA3BBE; 0xB2BD0B28; 0x2BB45A92; 0x5CB36A04; 0xC2D7FFA7; 0xB5D0CF31; 0x2CD99E8B; 0x5BDEAE1D;
   0x9B64C2B0; 0xEC63F226; 0x756AA39C; 0x026D930A; 0x9C0906A9; 0xEB0E363F; 0x72076785; 0x05005713;
   0x95BF4A82; 0xE2B87A14; 0x7BB12BAE; 0x0CB61B38; 0x92D28E9B; 0xE5D5BE0D; 0x7CDCEFB7; 0x0BDBDF21;
   0x86D3D2D4; 0xF1D4E242; 0x68DDB3F8; 0x1FDA836E; 0x81BE16CD; 0xF6B9265B; 0x6FB077E1; 0x18B74777;
   0x88085AE6; 0xFF0F6A70; 0x66063BCA; 0x11010B5C; 0x8F659EFF; 0xF862AE69; 0x616BFFD3; 0x166CCF45;
   0xA00AE278; 0xD70DD2EE; 0x4E048354; 0x3903B3C2; 0xA7672661; 0xD06016F7; 0x4969474D; 0x3E6E77DB;
   0xAED16A4A; 0xD9D65ADC; 0x40DF0B66; 0x37D83BF0; 0xA9BCAE53; 0xDEBB9EC5; 0x47B2CF7F; 0x30B5FFE9;
   0xBDBDF21C; 0xCABAC28A; 0x53B39330; 0x24B4A3A6; 0xBAD03605; 0xCDD70693; 0x54DE5729; 0x23D967BF;
   0xB3667A2E; 0xC4614AB8; 0x5D681B02; 0x2A6F2B94; 0xB40BBE37; 0xC30C8EA1; 0x5A05DF1B; 0x2D02EF8D].

Definition crc32_byte (crc byte : Z) : Z :=
  Z.lxor (default 0 (crc32_table !! Z.to_nat (Z.land (Z.lxor crc byte) 255))) (Z.shiftr crc 8).

Definition crc32_le (crc : Z) (buf : list Z) : Z := foldl crc32_byte crc buf.

(** ** The blob *)

Definition le16 (n : Z) : list Z := [Z.land n 255; Z.land (Z.shiftr n 8) 255].
Definition le32 (n : Z) : list Z :=
  [Z.land n 255; Z.land (Z.shiftr n 8) 255; Z.land (Z.shiftr n 16) 255; Z.land (Z.shiftr n 24) 255].

Definition of_le16 (b0 b1 : Z) : Z := Z.lor b0 (Z.shiftl b1 8).
Definition of_le32 (b0 b1 b2 b3 : Z) : Z :=
  Z.lor (Z.lor (Z.lor b0 (Z.shiftl b1 8)) (Z.shiftl b2 16)) (Z.shiftl b3 24).

Definition ser_value (v : cs_value) : list Z :=
  match v with
  | VInt i => le32 i
  | VFloat bits => le32 bits
  | VBool b => [if b then 1 else 0]
  | VString s => le16 (u16 (Z.of_nat (length s))) ++ s
  | VOther _ => []
  end.

Inductive ser_result :=
  | SerFalse                (** returned false *)
  | SerOverrun              (** wrote past the buffer *)
  | SerOk (buf : list Z).   (** returned true; the bytes written *)

(** The loop: [acc] has been written so far.  The guard reserves 8 bytes for a value. *)
Fixpoint ser_entries (buf_size : Z) (acc : list Z) (es : list cs_entry) : ser_result :=
  match es with
  | [] => SerOk acc
  | e :: es =>
      let key_len := u8 (Z.of_nat (length (ce_key e))) in
      if Z.of_nat (length acc) + 1 + key_len + 1 + 8 >? buf_size then SerFalse else
      let acc := acc ++ [key_len] ++ take (Z.to_nat key_len) (ce_key e)
                 ++ [u8 (cs_type (ce_value e))] ++ ser_value (ce_value e) in
      if Z.of_nat (length acc) >? buf_size then SerOverrun else ser_entries buf_size acc es
  end.

Definition blob_serialize (es : list cs_entry) (buf_size : Z) : ser_result :=
  if 2 >? buf_size then SerFalse else
  let entry_count := Z.of_nat (length es) in
  ser_entries buf_size [Z.land entry_count 255; Z.land (Z.shiftr entry_count 8) 255] es.

(** The characters of a copied buffer up to its first NUL. *)
Fixpoint cstr (l : list Z) : cstring :=
  match l with [] => [] | c :: l => if c =? 0 then [] else c :: cstr l end.

(** The [switch] on the type: the value and the rest of the blob; [None] returns false. *)
Definition de_value (type : Z) (buf : list Z) : option (cs_value * list Z) :=
  if type =? CS_TYPE_INT then
    match buf with
    | b0 :: b1 :: b2 :: b3 :: rest => Some (VInt (s32 (of_le32 b0 b1 b2 b3)), rest)
    | _ => None
    end
  else if type =? CS_TYPE_FLOAT then
    match buf with
    | b0 :: b1 :: b2 :: b3 :: rest => Some (VFloat (of_le32 b0 b1 b2 b3), rest)
    | _ => None
    end
  else if type =? CS_TYPE_BOOL then
    match buf with b0 :: rest => Some (VBool (negb (b0 =? 0)), rest) | _ => None end
  else if type =? CS_TYPE_STRING then
    match buf with
    | b0 :: b1 :: rest =>
        let slen := of_le16 b0 b1 in
        if slen >? Z.of_nat (length rest) then None else
        let slen := if slen >=? 64 then 63 else slen in
        Some (VString (cstr (take (Z.to_nat slen) rest)), drop (Z.to_nat slen) rest)
    | _ => None
    end
  else Some (VOther type, buf).

(** The loop: [count] entries left, [buf] the unread bytes.  A full table skips an entry
    without reading its value.  Entries added before a failure stay. *)
Fixpoint de_entries (count : nat) (buf : list Z) (es : list cs_entry) : bool * list cs_entry :=
  match count with
  | O => (true, es)
  | S count =>
      match buf with
      | [] => (false, es)
      | key_len :: buf =>
          if (key_len >? Z.of_nat (length buf)) || (key_len >=? 32) then (false, es) else
          let key := cstr (take (Z.to_nat key_len) buf) in
          match drop (Z.to_nat key_len) buf with
          | [] => (false, es)
          | type :: buf =>
              match add_entry es key type with
              | None => de_entries count buf es
              | Some (i, es) =>
                  match de_value type buf with
                  | None => (false, es)
                  | Some (v, buf) => de_entries count buf (put_value es i v)
                  end
              end
          end
      end
  end.

Definition blob_deserialize (buf : list Z) (es : list cs_entry) : bool * list cs_entry :=
  match buf with
  | b0 :: b1 :: rest => de_entries (Z.to_nat (of_le16 b0 b1)) rest es
  | _ => (false, es)
  end.

(** ** The table is that of the reflected polynomial 0xEDB88320 *)

Definition CRC32_POLY : Z := 0xEDB88320.

Lemma CRC32_POLY_fits : fits 32 CRC32_POLY.
Proof. apply fits_lt; [lia|]. unfold CRC32_POLY. lia. Qed.

Lemma crc32_table_built : crc32_table = crc_table (crc_table_build CRC32_POLY 32 true).
Proof. vm_compute. reflexivity. Qed.

Lemma crc32_byte_right crc b :
  fits 32 crc -> is_u8 b ->
  crc32_byte crc b = byte_right CRC32_POLY 32 (Z.ones 32) crc b /\ fits 32 (crc32_byte crc b).
Proof.
  intros Hc Hb.
  destruct (table_right_step 32 CRC32_POLY ltac:(lia) CRC32_POLY_fits crc b Hc Hb) as [E F].
  enough (crc32_byte crc b = byte_right CRC32_POLY 32 (Z.ones 32) crc b) as H by (by rewrite H).
  unfold table_right in E. cbn [mbind option_bind] in E. rewrite <- crc32_table_built in E.
  unfold crc32_byte. destruct (arr_get crc32_table _) as [t|] eqn:Et; [|done].
  apply arr_get_Some in Et as [_ ->]. cbn [default mbind option_bind] in *.
  injection E as <-. apply Z.lxor_comm.
Qed.

Lemma crc32_byte_rstep crc b :
  fits 32 crc -> is_u8 b -> crc32_byte crc b = Nat.iter 8 (rstep CRC32_POLY) (Z.lxor crc b).
Proof.
  intros Hc Hb. rewrite (proj1 (crc32_byte_right crc b Hc Hb)).
  apply byte_right_rstep; (done || lia || apply CRC32_POLY_fits).
Qed.

Lemma crc32_le_fits crc buf : fits 32 crc -> Forall is_u8 buf -> fits 32 (crc32_le crc buf).
Proof.
  intros Hc H. revert crc Hc. induction H as [|b buf Hb _ IH]; intros crc Hc; simpl; [done|].
  apply IH. by apply crc32_byte_right.
Qed.

(** The literal 256-entry table of the configuration store is right: [crc32_le] is the
    bit-serial reflected CRC with polynomial 0xEDB88320, from every register value and on
    every byte string. *)
Theorem crc32_le_bitwise crc buf :
  is_u32 crc -> Forall is_u8 buf ->
  crc32_le crc buf = crc_bitwise_engine buf crc true CRC32_POLY 32 (crc_mask 32).
Proof.
  intros Hc H. assert (fits 32 crc) as Hf by (apply fits_lt; [lia|exact Hc]). clear Hc.
  unfold crc_bitwise_engine. rewrite crc_mask_ones by lia.
  revert crc Hf. induction H as [|b buf Hb _ IH]; intros crc Hf; [done|].
  destruct (crc32_byte_right crc b Hf Hb) as [E F]. cbn [crc32_le foldl].
  rewrite <- E. by apply IH.
Qed.

Lemma crc32_le_bitwise_witness :
  crc32_le 0 [49; 50; 51] = crc_bitwise_engine [49; 50; 51] 0 true CRC32_POLY 32 (crc_mask 32).
Proof. apply (crc32_le_bitwise 0 [49; 50; 51]); [unfold is_u32; lia|repeat constructor; lia]. Defined.

(** ** Error detection *)

Lemma lxor_cancel_r a b c : Z.lxor a c = Z.lxor b c -> a = b.
Proof.
  intros H. apply (f_equal (fun x => Z.lxor x c)) in H.
  by rewrite !Z.lxor_assoc, !Z.lxor_nilpotent, !Z.lxor_0_r in H.
Qed.

Lemma lxor_cancel_l a b c : Z.lxor c a = Z.lxor c b -> a = b.
Proof. rewrite !(Z.lxor_comm c). apply lxor_cancel_r. Qed.

(** One shift loses nothing: the bit that leaves is the top bit of the result. *)
Lemma rstep_inj w p x y :
  1 <= w -> Z.testbit p (w - 1) = true -> fits w x -> fits w y -> rstep p x = rstep p y -> x = y.
Proof.
  intros Hw Hp [_ Hx] [_ Hy] H.
  assert (Z.testbit x 0 = Z.testbit y 0) as H0.
  { apply (f_equal (fun z => Z.testbit z (w - 1))) in H. unfold rstep in H.
    rewrite !Z.lxor_spec, !Z.shiftr_spec in H by lia.
    rewrite Hx, Hy, !xorb_false_l in H by lia.
    destruct (Z.testbit x 0), (Z.testbit y 0); rewrite ?Hp, ?Z.bits_0 in H; done. }
  unfold rstep in H. rewrite H0 in H. apply lxor_cancel_r in H.
  apply Z.bits_inj'. intros n Hn. destruct (Z.eq_dec n 0) as [->|]; [done|].
  apply (f_equal (fun z => Z.testbit z (n - 1))) in H.
  rewrite !Z.shiftr_spec in H by lia. by replace (n - 1 + 1) with n in H by lia.
Qed.

Lemma iter_rstep_inj n x y :
  fits 32 x -> fits 32 y ->
  Nat.iter n (rstep CRC32_POLY) x = Nat.iter n (rstep CRC32_POLY) y -> x = y.
Proof.
  intros Hx Hy. induction n as [|n IH]; [done|]. cbn [Nat.iter nat_rect]. intros H. apply IH.
  pose proof CRC32_POLY_fits. apply (rstep_inj 32 CRC32_POLY); try done;
    apply (iter_fits _ 32); auto using rstep_fits.
Qed.

(** A run of bytes as a little-endian number. *)
Fixpoint le_num (l : list Z) : Z :=
  match l with [] => 0 | b :: l => Z.lxor b (Z.shiftl (le_num l) 8) end.

Lemma le_num_fits l : Forall is_u8 l -> fits (8 * Z.of_nat (length l)) (le_num l).
Proof.
  induction 1 as [|b l Hb _ IH]; simpl; [split; [lia|intros; apply Z.bits_0]|].
  apply fits_lxor; [apply byte_fits; [lia|done]|]. apply fits_shiftl; [lia|].
  eapply fits_weaken; [|exact IH]. lia.
Qed.

Lemma le_num_low b l : is_u8 b -> Z.land (le_num (b :: l)) 255 = b /\
  Z.shiftr (le_num (b :: l)) 8 = le_num l.
Proof.
  intros Hb. cbn [le_num]. split.
  - rewrite land_lxor_distr. change 255 with (Z.ones 8).
    rewrite (land_fits 8 b) by (done || by apply fits_u8).
    rewrite Z.land_ones, Z.shiftl_mul_pow2, Z.mod_mul by (done || lia). apply Z.lxor_0_r.
  - rewrite Z.shiftr_lxor, Z.shiftr_shiftl_l, Z.sub_diag, Z.shiftl_0_r by lia.
    rewrite Z.shiftr_div_pow2 by lia. change (2 ^ 8) with 256. rewrite Z.div_small by apply Hb.
    apply Z.lxor_0_l.
Qed.

Lemma le_num_inj l l' :
  Forall is_u8 l -> Forall is_u8 l' -> length l = length l' -> le_num l = le_num l' -> l = l'.
Proof.
  intros H. revert l'. induction H as [|b l Hb _ IH]; intros [|b' l'] H' Hl E; try done.
  apply Forall_cons_1 in H' as [Hb' H'].
  destruct (le_num_low b l Hb) as [E1 E2], (le_num_low b' l' Hb') as [E1' E2'].
  rewrite <- E in E1', E2'. f_equal; [congruence|]. apply IH; [done|by injection Hl|congruence].
Qed.

Lemma iter_add (f : Z -> Z) m n x : Nat.iter m f (Nat.iter n f x) = Nat.iter (m + n) f x.
Proof. induction m as [|m IH]; simpl; [done|by rewrite IH]. Qed.

(** Feeding a run of bytes shifts the register xor the run. *)
Lemma crc32_le_run l crc :
  Forall is_u8 l -> fits 32 crc ->
  crc32_le crc l = Nat.iter (8 * length l) (rstep CRC32_POLY) (Z.lxor crc (le_num l)).
Proof.
  intros H. revert crc. induction H as [|b l Hb _ IH]; intros crc Hc; [by rewrite Z.lxor_0_r|].
  cbn [crc32_le foldl length].
  change (foldl crc32_byte (crc32_byte crc b) l) with (crc32_le (crc32_byte crc b) l).
  rewrite IH by (by apply crc32_byte_right). rewrite crc32_byte_rstep by done.
  replace (8 * S (length l))%nat with (8 * length l + 8)%nat by lia. rewrite <- iter_add. f_equal.
  cbn [le_num]. rewrite <- Z.lxor_assoc, (iter_linear _ 8 (Z.lxor crc b)) by apply rstep_linear.
  f_equal. rewrite iter_rstep_high.
  - rewrite Z.shiftr_shiftl_l by lia. change (8 - Z.of_nat 8) with 0. by rewrite Z.shiftl_0_r.
  - intros k Hk. apply Z.shiftl_spec_low. lia.
Qed.

(** The register after a common suffix tells the registers before it apart. *)
Lemma crc32_le_suffix_inj l c1 c2 :
  Forall is_u8 l -> fits 32 c1 -> fits 32 c2 -> crc32_le c1 l = crc32_le c2 l -> c1 = c2.
Proof.
  intros H. revert c1 c2. induction H as [|b l Hb _ IH]; intros c1 c2 H1 H2 E; [done|].
  cbn [crc32_le foldl] in E. apply IH in E; [|by apply crc32_byte_right..].
  rewrite !crc32_byte_rstep in E by done.
  assert (fits 32 b) by (apply byte_fits; [lia|done]).
  apply iter_rstep_inj in E; [|by apply fits_lxor..]. by apply lxor_cancel_r in E.
Qed.

(** The blob CRC detects every burst of damage of up to four consecutive bytes: two
    buffers that differ only in one run of at most 4 bytes have different checksums. *)
Theorem crc32_detects_burst crc pre mid mid' post :
  is_u32 crc -> Forall is_u8 (pre ++ mid ++ post) -> Forall is_u8 mid' ->
  length mid' = length mid -> (length mid ≤ 4)%nat -> mid ≠ mid' ->
  crc32_le crc (pre ++ mid ++ post) ≠ crc32_le crc (pre ++ mid' ++ post).
Proof.
  intros Hc H Hm' Hl H4 Hne E. apply Forall_app in H as [Hpre H].
  apply Forall_app in H as [Hm Hpost].
  assert (fits 32 crc) as Hf by (apply fits_lt; [lia|exact Hc]).
  assert (∀ m, crc32_le crc (pre ++ m ++ post) = crc32_le (crc32_le (crc32_le crc pre) m) post) as Ea.
  { intros m. unfold crc32_le. by rewrite !foldl_app. }
  rewrite !Ea in E. apply (crc32_le_fits _ pre) in Hf; [|done].
  apply crc32_le_suffix_inj in E; [|done|by apply crc32_le_fits..].
  rewrite (crc32_le_run mid), (crc32_le_run mid'), Hl in E by done.
  assert (∀ m, Forall is_u8 m -> (length m ≤ 4)%nat -> fits 32 (Z.lxor (crc32_le crc pre) (le_num m))) as Hfit.
  { intros m H1 H2. apply fits_lxor; [done|]. eapply fits_weaken; [|by apply le_num_fits]. lia. }
  apply iter_rstep_inj in E; [|apply Hfit; (done || lia)..]. apply lxor_cancel_l in E.
  apply Hne. by apply le_num_inj.
Qed.

Lemma crc32_detects_burst_witness :
  crc32_le 0 ([1; 2] ++ [3; 4] ++ [5]) ≠ crc32_le 0 ([1; 2] ++ [4; 3] ++ [5]).
Proof.
  apply (crc32_detects_burst 0 [1; 2] [3; 4] [4; 3] [5]);
    [unfold is_u32; lia|repeat constructor; lia|repeat constructor; lia|reflexivity|simpl; lia|].
  intros H. discriminate H.
Defined.

(** The register starts at 0 and is not inverted, so leading zero bytes are invisible and an
    all-zero buffer has checksum 0. *)
Lemma crc32_le_zeros n : crc32_le 0 (replicate n 0) = 0.
Proof. induction n as [|n IH]; [done|]. exact IH. Qed.

(** ** The blob round trip *)

Definition is_char (c : Z) : Prop := 0 < c < 256.

Definition value_wf (v : cs_value) : Prop :=
  match v with
  | VInt i => -2147483648 <= i < 2147483648
  | VFloat bits => is_u32 bits
  | VBool _ => True
  | VString s => Forall is_char s /\ (length s ≤ 63)%nat
  | VOther t => 3 < t < 256
  end.

Definition entry_wf (e : cs_entry) : Prop :=
  Forall is_char (ce_key e) /\ (length (ce_key e) ≤ 31)%nat /\ value_wf (ce_value e).

Definition table_wf (es : list cs_entry) : Prop :=
  Forall entry_wf es /\ Z.of_nat (length es) <= MAX_ENTRIES.

(** The entry as a blob stores it. *)
Definition clean (e : cs_entry) : cs_entry := mk_ce (ce_key e) (ce_value e) false.

Definition ser_entry (e : cs_entry) : list Z :=
  [Z.of_nat (length (ce_key e))] ++ ce_key e ++ [cs_type (ce_value e)] ++ ser_value (ce_value e).

Lemma cs_type_u8 v : value_wf v -> u8 (cs_type v) = cs_type v.
Proof. destruct v; simpl; intros; (reflexivity || apply Z.mod_small; lia). Qed.

Lemma ser_value_length v : value_wf v -> (length (ser_value v) ≤ 65)%nat.
Proof. destruct v; simpl; lia. Qed.

Lemma ser_entry_length e : entry_wf e -> (length (ser_entry e) ≤ 98)%nat.
Proof.
  intros (_ & Hk & Hv). apply ser_value_length in Hv. unfold ser_entry. rewrite !length_app.
  simpl. lia.
Qed.

Lemma ser_entries_ok buf_size es : ∀ acc,
  Forall entry_wf es -> Z.of_nat (length acc) + 98 * Z.of_nat (length es) <= buf_size ->
  ser_entries buf_size acc es = SerOk (acc ++ concat (map ser_entry es)).
Proof.
  induction es as [|e es IH]; intros acc H Hs; [by rewrite app_nil_r|].
  apply Forall_cons_1 in H as [He H]. pose proof He as (Hk & Hl & Hv).
  pose proof (ser_entry_length e He) as Hlen.
  cbn [ser_entries map concat length] in *. rewrite !Z.gtb_ltb.
  assert (u8 (Z.of_nat (length (ce_key e))) = Z.of_nat (length (ce_key e))) as ->
    by (apply Z.mod_small; lia).
  rewrite Nat2Z.id, firstn_all, cs_type_u8 by done.
  match goal with |- context [acc ++ ?l] => change l with (ser_entry e) end.
  destruct (Z.ltb_spec buf_size (Z.of_nat (length acc) + 1 + Z.of_nat (length (ce_key e)) + 1 + 8));
    [lia|].
  destruct (Z.ltb_spec buf_size (Z.of_nat (length (acc ++ ser_entry e)))) as [Ho|Ho];
    rewrite length_app in Ho; [lia|].
  rewrite IH, <- app_assoc; [done|done|rewrite length_app; lia].
Qed.

Lemma blob_serialize_ok es buf_size :
  table_wf es -> 786 <= buf_size ->
  blob_serialize es buf_size
    = SerOk ([Z.of_nat (length es); 0] ++ concat (map ser_entry es)).
Proof.
  intros [H Hm] Hb. unfold blob_serialize, MAX_ENTRIES in *. rewrite Z.gtb_ltb.
  destruct (Z.ltb_spec buf_size 2); [lia|].
  rewrite ser_entries_ok; [|done|simpl; lia].
  change 255 with (Z.ones 8). rewrite !Z.land_ones, Z.shiftr_div_pow2 by lia.
  rewrite Z.mod_small by lia. rewrite (Z.div_small _ (2 ^ 8)) by lia. done.
Qed.

(** Reassembled bytes. *)
Lemma of_le32_spec n :
  of_le32 (Z.land n 255) (Z.land (Z.shiftr n 8) 255) (Z.land (Z.shiftr n 16) 255)
    (Z.land (Z.shiftr n 24) 255) = u32 n.
Proof.
  unfold u32, of_le32. change 4294967296 with (2 ^ 32). change 255 with (Z.ones 8).
  rewrite <- Z.land_ones by lia. apply Z.bits_inj'. intros k Hk.
  rewrite !Z.lor_spec, !Z.shiftl_spec by lia.
  assert (∀ j, 0 <= j -> Z.testbit (Z.land (Z.shiftr n j) (Z.ones 8)) (k - j)
            = ((j <=? k) && (k <? j + 8) && Z.testbit n k)) as Hb.
  { intros j Hj. destruct (Z.leb_spec j k); simpl.
    - rewrite Z.land_spec, Z.shiftr_spec by lia. replace (k - j + j) with k by lia.
      destruct (Z.ltb_spec k (j + 8)).
      + rewrite Z.ones_spec_low by lia. by rewrite andb_true_r.
      + rewrite Z.ones_spec_high by lia. by rewrite andb_false_r.
    - apply Z.testbit_neg_r. lia. }
  rewrite !Hb, !Z.land_spec by lia.
  assert (∀ w, 0 <= w -> Z.testbit (Z.ones w) k = (k <? w)) as Ho.
  { intros w Hw. destruct (Z.ltb_spec k w);
      [rewrite Z.ones_spec_low by lia|rewrite Z.ones_spec_high by lia]; done. }
  rewrite !Ho by lia.
  destruct (Z.testbit n k); simpl; rewrite ?andb_false_r, ?andb_true_r; [|done].
  destruct (Z.ltb_spec k 8), (Z.leb_spec 8 k), (Z.ltb_spec k (8 + 8)), (Z.leb_spec 16 k),
    (Z.ltb_spec k (16 + 8)), (Z.leb_spec 24 k), (Z.ltb_spec k (24 + 8)), (Z.ltb_spec k 32);
    simpl; (done || lia).
Qed.

Lemma of_le16_small n : 0 <= n < 256 -> of_le16 (Z.land n 255) (Z.land (Z.shiftr n 8) 255) = n.
Proof.
  intros Hn. unfold of_le16. change 255 with (Z.ones 8).
  rewrite !Z.land_ones, Z.shiftr_div_pow2 by lia. change (2 ^ 8) with 256.
  rewrite (Z.div_small n), (Z.mod_small n) by lia. apply Z.lor_0_r.
Qed.

Lemma cstr_chars s : Forall is_char s -> cstr s = s.
Proof.
  induction 1 as [|c s Hc _ IH]; simpl; [done|].
  destruct (Z.eqb_spec c 0) as [->|]; [unfold is_char in Hc; lia|by rewrite IH].
Qed.

Lemma s32_u32_id i : -2147483648 <= i < 2147483648 -> s32 (u32 i) = i.
Proof.
  intros H. unfold s32, u32. rewrite Z.mod_mod by lia. destruct (Z.ltb_spec (i mod 4294967296) 2147483648);
    Z.to_euclidean_division_equations; lia.
Qed.

Lemma de_value_ser v rest :
  value_wf v -> de_value (cs_type v) (ser_value v ++ rest) = Some (v, rest).
Proof.
  destruct v as [i|bits|[]|s|t]; intros H; simpl in H.
  - change (de_value (cs_type (VInt i)) (ser_value (VInt i) ++ rest))
      with (Some (VInt (s32 (of_le32 (Z.land i 255) (Z.land (Z.shiftr i 8) 255)
              (Z.land (Z.shiftr i 16) 255) (Z.land (Z.shiftr i 24) 255))), rest)).
    by rewrite of_le32_spec, s32_u32_id by done.
  - change (de_value (cs_type (VFloat bits)) (ser_value (VFloat bits) ++ rest))
      with (Some (VFloat (of_le32 (Z.land bits 255) (Z.land (Z.shiftr bits 8) 255)
              (Z.land (Z.shiftr bits 16) 255) (Z.land (Z.shiftr bits 24) 255)), rest)).
    by rewrite of_le32_spec, u32_small by apply H.
  - done.
  - done.
  - destruct H as [Hc Hl]. unfold ser_value, le16. rewrite u16_small by lia.
    unfold de_value. cbn [cs_type app Z.eqb CS_TYPE_STRING CS_TYPE_INT CS_TYPE_FLOAT CS_TYPE_BOOL
      Pos.eqb]. rewrite of_le16_small by lia. rewrite Z.gtb_ltb, Z.geb_leb.
    destruct (Z.ltb_spec (Z.of_nat (length (s ++ rest))) (Z.of_nat (length s))) as [Ho|_];
      [rewrite length_app in Ho; lia|].
    destruct (Z.leb_spec 64 (Z.of_nat (length s))); [lia|].
    by rewrite Nat2Z.id, take_app_length, drop_app_length, cstr_chars by done.
  - unfold de_value, cs_type, CS_TYPE_INT, CS_TYPE_FLOAT, CS_TYPE_BOOL, CS_TYPE_STRING.
    destruct (Z.eqb_spec t 0), (Z.eqb_spec t 1), (Z.eqb_spec t 2), (Z.eqb_spec t 3); (done || lia).
Qed.

Lemma put_value_last es e v :
  put_value (es ++ [e]) (length es) v = es ++ [mk_ce (ce_key e) v (ce_dirty e)].
Proof.
  unfold put_value. rewrite alter_app_r_alt by lia. by rewrite Nat.sub_diag.
Qed.

Lemma de_entries_ser es : ∀ es0 rest,
  Forall entry_wf es -> Z.of_nat (length es0 + length es) <= MAX_ENTRIES ->
  de_entries (length es) (concat (map ser_entry es) ++ rest) es0 = (true, es0 ++ map clean es).
Proof.
  induction es as [|e es IH]; intros es0 rest H Hm; [by rewrite app_nil_r|].
  apply Forall_cons_1 in H as [(Hk & Hl & Hv) H].
  cbn [length map concat]. unfold ser_entry at 1. rewrite <- !app_assoc.
  cbn [de_entries app]. rewrite Z.gtb_ltb, Z.geb_leb, Nat2Z.id, take_app_length, drop_app_length.
  match goal with |- context [Z.of_nat (length (ce_key e ++ ?r)) <? _] =>
    destruct (Z.ltb_spec (Z.of_nat (length (ce_key e ++ r))) (Z.of_nat (length (ce_key e)))) as [Ho|_];
      [rewrite length_app in Ho; lia|] end.
  destruct (Z.leb_spec 32 (Z.of_nat (length (ce_key e)))); [lia|]. cbn [orb].
  rewrite cstr_chars by done. unfold add_entry. rewrite Z.geb_leb. simpl in Hm.
  destruct (Z.leb_spec MAX_ENTRIES (Z.of_nat (length es0))); [lia|].
  rewrite de_value_ser, put_value_last, take_ge by (done || lia).
  rewrite IH; [|done|rewrite length_app; simpl; lia]. by rewrite <- app_assoc.
Qed.

Lemma blob_round_trip_gen es es0 buf_size :
  table_wf es -> 786 <= buf_size -> Z.of_nat (length es0 + length es) <= MAX_ENTRIES ->
  ∃ buf, blob_serialize es buf_size = SerOk buf /\
         Z.of_nat (length buf) <= 786 /\
         blob_deserialize buf es0 = (true, es0 ++ map clean es).
Proof.
  intros Hw Hb Hm. eexists. split; [by apply blob_serialize_ok|]. destruct Hw as [Hw Hc]. split.
  - rewrite length_app. cbn [length]. unfold MAX_ENTRIES in Hc.
    assert (length (concat (map ser_entry es)) ≤ 98 * length es)%nat; [|lia].
    clear -Hw. induction Hw as [|e es He _ IH]; cbn [map concat length]; [lia|]. rewrite length_app.
    apply ser_entry_length in He. lia.
  - cbn [app blob_deserialize]. unfold of_le16, MAX_ENTRIES in *. rewrite Z.shiftl_0_l, Z.lor_0_r, Nat2Z.id.
    rewrite <- (app_nil_r (concat _)). by apply de_entries_ser.
Qed.

(** The blob round trip. A table of up to MAX_ENTRIES well-formed entries serialises
    without failure or overrun into any buffer of at least 786 bytes, and deserialising the
    blob appends exactly those entries, not dirty, to any table with room for them. *)
Theorem blob_round_trip es es0 buf_size :
  table_wf es -> 786 <= buf_size -> Z.of_nat (length es0 + length es) <= MAX_ENTRIES ->
  ∃ buf, blob_serialize es buf_size = SerOk buf /\
         Z.of_nat (length buf) <= 786 /\
         blob_deserialize buf es0 = (true, es0 ++ map clean es).
Proof. apply blob_round_trip_gen. Qed.

Lemma blob_round_trip_witness :
  ∃ buf, blob_serialize [mk_ce [107] (VInt (-5)) true; mk_ce [115] (VString [104; 105]) false] 4092
           = SerOk buf /\
         Z.of_nat (length buf) <= 786 /\
         blob_deserialize buf [mk_ce [98] (VBool true) false]
           = (true, [mk_ce [98] (VBool true) false] ++
                    map clean [mk_ce [107] (VInt (-5)) true; mk_ce [115] (VString [104; 105]) false]).
Proof.
  apply (blob_round_trip [mk_ce [107] (VInt (-5)) true; mk_ce [115] (VString [104; 105]) false]
           [mk_ce [98] (VBool true) false] 4092).
  - split; [|unfold MAX_ENTRIES; simpl; lia].
    repeat constructor; simpl; unfold is_char; lia.
  - lia.
  - unfold MAX_ENTRIES. simpl. lia.
Defined.
