(* ===== verification/ConfigStore.v ===== *)
(** * The configuration store

    Models the second half of src/board/src/config_store.c: the scanner of the factory
    defaults, the typed getters and setters, the A/B slots in storage and commit.  The bound
    JSON text is a C string (a NUL follows its last element).  Storage is the interface of
    src/hal/storage/hal_storage.h, which a board implements: the class [HalStorage], with
    its documented behaviour in [HalStorageLaws].  [atof] and the result of [atoi] outside
    the range of [int] (undefined in C) are parameters. *)

From S2P Require Import Prelude Status IntParse Crc ConfigBlob.

#[local] Open Scope Z_scope.

(** ** The C string functions used *)

Fixpoint strchr (s : cstring) (c : Z) : option cstring :=
  match s with
  | [] => None
  | x :: r => if x =? c then Some s else strchr r c
  end.

Fixpoint starts_with (pat s : cstring) : bool :=
  match pat, s with
  | [], _ => true
  | p :: pat, x :: s => (p =? x) && starts_with pat s
  | _, [] => false
  end.

Fixpoint strstr (s pat : cstring) : option cstring :=
  if starts_with pat s then Some s
  else match s with [] => None | _ :: r => strstr r pat end.

Definition isspace (c : Z) : bool := (c =? 32) || ((9 <=? c) && (c <=? 13)).

Fixpoint skip_isspace (s : cstring) : cstring :=
  match s with c :: r => if isspace c then skip_isspace r else s | [] => [] end.

Fixpoint dec_prefix (val : Z) (s : cstring) : Z :=
  match s with
  | c :: r => if (48 <=? c) && (c <=? 57) then dec_prefix (val * 10 + (c - 48)) r else val
  | [] => val
  end.

(** ** State *)

Record config := mk_config {
  cf_json : option cstring;           (** [json_buffer] *)
  cf_json_size : Z;                   (** [json_size] *)
  cf_entries : list cs_entry;         (** [entries], [entry_count] *)
  cf_health : Z;                      (** [health] *)
  cf_ready : bool;                    (** [storage_ready] *)
  cf_hook : option (list Z -> Z)      (** [write_hook] *)
}.

Definition with_entries (c : config) (es : list cs_entry) : config :=
  mk_config (cf_json c) (cf_json_size c) es (cf_health c) (cf_ready c) (cf_hook c).
Definition with_health (c : config) (h : Z) : config :=
  mk_config (cf_json c) (cf_json_size c) (cf_entries c) h (cf_ready c) (cf_hook c).
Definition with_ready (c : config) (r : bool) : config :=
  mk_config (cf_json c) (cf_json_size c) (cf_entries c) (cf_health c) r (cf_hook c).

Definition config_store_bind_source (buffer : option cstring) (size : Z) (c : config) : config :=
  mk_config buffer size (cf_entries c) (cf_health c) (cf_ready c) (cf_hook c).

Definition config_store_register_write_hook (hook : option (list Z -> Z)) (c : config) : config :=
  mk_config (cf_json c) (cf_json_size c) (cf_entries c) (cf_health c) (cf_ready c) hook.

Definition config_store_health (c : config) : Z := cf_health c.

(** ** Storage *)

(** A call returns its code, its output and the new state of the medium. *)
Class HalStorage (St : Type) := {
  hal_storage_init : St -> Z * St;
  hal_storage_read_flag : St -> Z * option Z * St;
  hal_storage_write_flag : Z -> St -> Z * St;
  hal_storage_read_blob : Z -> Z -> St -> Z * list Z * St;
  hal_storage_write_blob : Z -> list Z -> St -> Z * St;
  hal_storage_erase_all : St -> Z * St
}.

(** What the interface documents: the flag and the blobs read back as last written, a write
    touches what it names only, and initialisation loses nothing.  A write may fail, and then
    leaves anything in its own place. *)
Class HalStorageLaws (St : Type) `{HalStorage St} := {
  slot_flag : St -> Z;
  slot_blob : St -> Z -> option (list Z);
  init_law st r st' : hal_storage_init st = (r, st') ->
    slot_flag st' = slot_flag st /\ ∀ s, slot_blob st' s = slot_blob st s;
  read_flag_law st : hal_storage_read_flag st = (MINI_OK, Some (slot_flag st), st);
  read_blob_law slot cap st b :
    slot_blob st slot = Some b -> Z.of_nat (length b) <= cap ->
    hal_storage_read_blob slot cap st = (MINI_OK, b, st);
  read_blob_keeps slot cap st r b st' :
    hal_storage_read_blob slot cap st = (r, b, st') -> slot_flag st' = slot_flag st;
  write_flag_law f st r st' : hal_storage_write_flag f st = (r, st') ->
    (r = MINI_OK -> slot_flag st' = f) /\ ∀ s, slot_blob st' s = slot_blob st s;
  write_blob_law slot b st r st' : hal_storage_write_blob slot b st = (r, st') ->
    (r = MINI_OK -> slot_blob st' slot = Some b) /\ slot_flag st' = slot_flag st /\
    ∀ s, s ≠ slot -> slot_blob st' s = slot_blob st s
}.

Definition FLAG_A_VALID : Z := 0xA0.
Definition FLAG_B_VALID : Z := 0x0B.

Section store.
Context (atoi_overflow : Z -> Z) (atof : cstring -> Z).

Definition atoi (s : cstring) : Z :=
  let '(sign, r) := parse_sign (skip_isspace s) in
  let v := sign * dec_prefix 0 r in
  if (-2147483648 <=? v) && (v <? 2147483648) then v else atoi_overflow v.

(** The text after [key] in quotes and a colon. *)
Definition find_json_value (c : config) (key : cstring) : option cstring :=
  json ← cf_json c;
  if Z.of_nat (length key) + 3 >? 63 then None else
  found ← strstr json ([34] ++ key ++ [34; 58]);
  Some (drop (length key + 3) found).

(** ** Factory defaults *)

Fixpoint skip_json_ws (s : cstring) : cstring :=
  match s with
  | c :: r => if (c =? 32) || (c =? 9) || (c =? 10) || (c =? 13) then skip_json_ws r else s
  | [] => []
  end.

Definition json_type (val_start : cstring) : Z :=
  match val_start with
  | 34 :: _ => CS_TYPE_STRING
  | 116 :: _ | 102 :: _ => CS_TYPE_BOOL
  | _ => match strchr val_start 46 with Some _ => CS_TYPE_FLOAT | None => CS_TYPE_INT end
  end.

(** The characters before the first [c]; [None] when there is no [c]. *)
Definition upto (s : cstring) (c : Z) : option cstring :=
  r ← strchr s c; Some (take (length s - length r) s).

Definition json_value (type : Z) (val_start : cstring) : cs_value :=
  if type =? CS_TYPE_BOOL then VBool (starts_with [116; 114; 117; 101] val_start)
  else if type =? CS_TYPE_INT then VInt (atoi val_start)
  else if type =? CS_TYPE_FLOAT then VFloat (atof val_start)
  else match q1 ← strchr val_start 34; upto (tail q1) 34 with
       | Some s => VString (take 63 s)
       | None => VString []
       end.

Definition load_entry (es : list cs_entry) (key val_start : cstring) : list cs_entry :=
  let type := json_type val_start in
  match add_entry es key type with
  | None => es
  | Some (i, es) => put_value es i (json_value type val_start)
  end.

(** The scan loop.  [cursor] is the text from the cursor on, or [None] just after the NUL;
    [None] as a result is a read after the NUL.  Each round moves the cursor forward, so
    [size + 1] is enough fuel. *)
Fixpoint load_loop (fuel : nat) (json_len size : Z) (cursor : option cstring)
    (es : list cs_entry) : option (list cs_entry) :=
  match fuel with
  | O => None
  | S fuel =>
      match cursor with
      | None => if json_len + 1 <? size then None else Some es
      | Some cursor =>
          if negb (json_len - Z.of_nat (length cursor) <? size) then Some es else
          match strchr cursor 34 with
          | None => Some es
          | Some quote =>
              let key_start := tail quote in
              match strchr key_start 34 with
              | None => Some es
              | Some key_end =>
                  let key := take (length key_start - length key_end) key_start in
                  if Z.of_nat (length key) >=? 32
                  then load_loop fuel json_len size (Some (tail key_end)) es else
                  match strchr key_end 58 with
                  | None => load_loop fuel json_len size (Some (tail key_end)) es
                  | Some colon =>
                      let val_start := skip_json_ws (tail colon) in
                      load_loop fuel json_len size
                        (match val_start with [] => None | _ :: r => Some r end)
                        (load_entry es key val_start)
                  end
              end
          end
      end
  end.

Definition load_factory_defaults (c : config) : option (bool * config) :=
  match cf_json c with
  | None => Some (false, c)
  | Some json =>
      if cf_json_size c =? 0 then Some (false, c) else
      es ← load_loop (S (Z.to_nat (cf_json_size c))) (Z.of_nat (length json)) (cf_json_size c)
             (Some json) [];
      Some (true, with_entries c es)
  end.

(** ** Getters *)

Definition lookup_entry (c : config) (key : cstring) : option cs_value :=
  i ← find_entry (cf_entries c) key; e ← cf_entries c !! i; Some (ce_value e).

Definition config_store_get_bool (c : config) (key : cstring) (default_value : bool) : bool :=
  match lookup_entry c key with
  | Some (VBool b) => b
  | _ =>
      match find_json_value c key with
      | None => default_value
      | Some value =>
          if starts_with [116; 114; 117; 101] value || starts_with [32; 116; 114; 117; 101] value
          then true
          else if starts_with [102; 97; 108; 115; 101] value
                  || starts_with [32; 102; 97; 108; 115; 101] value
          then false else default_value
      end
  end.

Definition config_store_get_int (c : config) (key : cstring) (default_value : Z) : Z :=
  match lookup_entry c key with
  | Some (VInt i) => i
  | _ => match find_json_value c key with Some value => atoi value | None => default_value end
  end.

Definition config_store_get_float (c : config) (key : cstring) (default_value : Z) : Z :=
  match lookup_entry c key with
  | Some (VFloat f) => f
  | _ => match find_json_value c key with Some value => atof value | None => default_value end
  end.

(** From the JSON source the result runs to the end of the source, not to the closing quote. *)
Definition config_store_get_string (c : config) (key default_value : cstring) : cstring :=
  match lookup_entry c key with
  | Some (VString s) => s
  | _ =>
      match find_json_value c key with
      | None => default_value
      | Some value =>
          match strchr value 34 with Some q => tail q | None => default_value end
      end
  end.

(** ** Setters *)

(** The common body: find or add, then type, value and dirty flag. *)
Definition set_entry (c : config) (key : cstring) (v : cs_value) : Z * config :=
  match (match find_entry (cf_entries c) key with
         | Some i => Some (i, cf_entries c)
         | None => add_entry (cf_entries c) key (cs_type v)
         end) with
  | None => (MINI_ERR_INVAL, c)
  | Some (i, es) => (MINI_OK, with_entries c (put_dirty (put_value es i v) i true))
  end.

Definition config_store_set_bool (c : config) (key : cstring) (value : bool) : Z * config :=
  set_entry c key (VBool value).
Definition config_store_set_int (c : config) (key : cstring) (value : Z) : Z * config :=
  set_entry c key (VInt value).
Definition config_store_set_float (c : config) (key : cstring) (value : Z) : Z * config :=
  set_entry c key (VFloat value).
Definition config_store_set_string (c : config) (key value : cstring) : Z * config :=
  set_entry c key (VString (take 63 value)).

(** ** Slots *)

Context {St : Type} `{HalStorage St}.

Definition read_slot_flag (c : config) (st : St) : Z * St :=
  if negb (cf_ready c) then (0xFF, st) else
  let '(_, flag, st) := hal_storage_read_flag st in (default 0xFF flag, st).

Definition write_slot_flag (c : config) (flag : Z) (st : St) : bool * St :=
  if negb (cf_ready c) then (false, st) else
  let '(r, st) := hal_storage_write_flag flag st in (r =? MINI_OK, st).

(** The CRC at the head of a stored blob, and the test of the rest against it. *)
Definition stored_crc (buf : list Z) : Z :=
  match buf with b0 :: b1 :: b2 :: b3 :: _ => of_le32 b0 b1 b2 b3 | _ => 0 end.
Definition crc_matches (buf : list Z) : bool := stored_crc buf =? crc32_le 0 (drop 4 buf).

Definition crc_fallback (c : config) (st : St) : option (bool * config * St) :=
  '(_, c) ← load_factory_defaults (with_health c (-1)); Some (true, c, st).

(** The function calls itself on the other slot; with a flag that reads back the same this
    happens once, so fuel 2 is enough. *)
Fixpoint load_from_storage (fuel : nat) (slot : Z) (c : config) (st : St)
    : option (bool * config * St) :=
  match fuel with
  | O => None
  | S fuel =>
      let '(r, buf, st) := hal_storage_read_blob slot BLOB_MAX st in
      if negb (r =? MINI_OK) then Some (false, c, st) else
      if Z.of_nat (length buf) <? 6 then Some (false, c, st) else
      if negb (crc_matches buf) then
        let alt_slot := if slot =? 0 then 1 else 0 in
        let alt_flag := if alt_slot =? 0 then FLAG_A_VALID else FLAG_B_VALID in
        let '(flag, st) := read_slot_flag c st in
        if negb (flag =? alt_flag) then
          '(ok, c, st) ← load_from_storage fuel alt_slot c st;
          if ok : bool then
            let '(_, st) := write_slot_flag c alt_flag st in
            Some (true, with_health c 1, st)
          else crc_fallback c st
        else crc_fallback c st
      else
        let '(ok, es) := blob_deserialize (drop 4 buf) (cf_entries c) in
        Some (ok, with_entries c es, st)
  end.

(** [None] is a write past the local buffer. *)
Definition save_to_storage (slot : Z) (c : config) (st : St) : option (bool * St) :=
  match blob_serialize (cf_entries c) (BLOB_MAX - 4) with
  | SerOverrun => None
  | SerFalse => Some (false, st)
  | SerOk blob =>
      let buf := le32 (crc32_le 0 blob) ++ blob in
      let '(r, st) := hal_storage_write_blob slot buf st in
      if negb (r =? MINI_OK) then Some (false, st) else
      let '(r, verify, st) := hal_storage_read_blob slot BLOB_MAX st in
      if negb (r =? MINI_OK) then Some (false, st) else
      if negb (Z.of_nat (length verify) =? Z.of_nat (length buf)) then Some (false, st) else
      if negb (bool_decide (buf = verify)) then Some (false, st) else
      Some (true, st)
  end.

Definition config_store_init (c : config) (st : St) : option (Z * config * St) :=
  let '(r, st) := hal_storage_init st in
  let c := with_ready c (r =? MINI_OK) in
  '(ok, c) ← load_factory_defaults c;
  if negb ok then Some (MINI_ERR_INVAL, c, st) else
  if cf_ready c then
    let '(flag, st) := read_slot_flag c st in
    if flag =? FLAG_A_VALID then
      '(_, c, st) ← load_from_storage 2 0 c st; Some (MINI_OK, c, st)
    else if flag =? FLAG_B_VALID then
      '(_, c, st) ← load_from_storage 2 1 c st; Some (MINI_OK, c, st)
    else Some (MINI_OK, c, st)
  else Some (MINI_OK, c, st).

Definition clear_dirty (c : config) : config := with_entries c (map clean (cf_entries c)).

Definition config_store_commit (c : config) (st : St) : option (Z * config * St) :=
  match blob_serialize (cf_entries c) BLOB_MAX with
  | SerOverrun => None
  | SerFalse => Some (MINI_ERR_NOSPC, c, st)
  | SerOk buf =>
      match cf_hook c with
      | Some hook =>
          let ret := hook buf in
          Some (ret, if ret =? MINI_OK then clear_dirty c else c, st)
      | None =>
          if negb (cf_ready c) then Some (MINI_ERR_AGAIN, c, st) else
          let '(current, st) := read_slot_flag c st in
          let target := if current =? FLAG_A_VALID then 1 else 0 in
          '(ok, st) ← save_to_storage target c st;
          if negb ok then Some (MINI_ERR_IO, c, st) else
          let new_flag := if target =? 0 then FLAG_A_VALID else FLAG_B_VALID in
          let '(ok, st) := write_slot_flag c new_flag st in
          if negb ok then Some (MINI_ERR_IO, c, st) else
          Some (MINI_OK, clear_dirty c, st)
      end
  end.

Definition config_store_factory_reset (c : config) (st : St) : option (Z * config * St) :=
  if negb (cf_ready c) then
    '(ok, c) ← load_factory_defaults (with_entries c []);
    Some (if ok : bool then MINI_OK else MINI_ERR_INVAL, c, st)
  else
    let '(_, st) := hal_storage_erase_all st in
    '(ok, c) ← load_factory_defaults (with_health (with_entries c []) 0);
    if negb ok then Some (MINI_ERR_INVAL, c, st) else
    '(ok, st) ← save_to_storage 0 c st;
    if negb ok then Some (MINI_ERR_IO, c, st) else
    let '(ok, st) := write_slot_flag c FLAG_A_VALID st in
    if negb ok then Some (MINI_ERR_IO, c, st) else Some (MINI_OK, c, st).

(** ** The scan terminates inside the text *)

Lemma strchr_length s c r : strchr s c = Some r -> (0 < length r ≤ length s)%nat.
Proof.
  induction s as [|x s IH]; simpl; [done|]. destruct (x =? c).
  - intros [= <-]. simpl. lia.
  - intros H1. apply IH in H1. lia.
Qed.

Lemma skip_json_ws_length s : (length (skip_json_ws s) ≤ length s)%nat.
Proof. induction s as [|x s IH]; simpl; [lia|]. bool_case; simpl; lia. Qed.

Lemma length_tail' (s : cstring) : length (tail s) = (length s - 1)%nat.
Proof. destruct s; simpl; lia. Qed.

(** Distance of the cursor from the end of the text; the place after the NUL is -1. *)
Definition left (cursor : option cstring) : Z :=
  match cursor with Some s => Z.of_nat (length s) | None => -1 end.

Lemma load_loop_total json_len size fuel : ∀ cursor es,
  size <= json_len + 1 -> size - (json_len - left cursor) < Z.of_nat fuel -> (0 < fuel)%nat ->
  is_Some (load_loop fuel json_len size cursor es).
Proof.
  induction fuel as [|fuel IH]; intros cursor es Hs Hf H0; [lia|]. cbn [load_loop].
  destruct cursor as [cur|]; cbn [left] in Hf.
  2: { destruct (Z.ltb_spec (json_len + 1) size); [lia|done]. }
  destruct (Z.ltb_spec (json_len - Z.of_nat (length cur)) size); [|done]. cbn [negb].
  destruct (strchr cur 34) as [quote|] eqn:Eq; [|done].
  apply strchr_length in Eq.
  destruct (strchr (tail quote) 34) as [key_end|] eqn:Ee; [|done].
  apply strchr_length in Ee. rewrite length_tail' in Ee.
  assert (length (tail key_end) < length cur)%nat by (rewrite length_tail'; lia).
  destruct (Z.of_nat (length (take _ _)) >=? 32); [apply IH; simpl; lia|].
  destruct (strchr key_end 58) as [colon|] eqn:Ec; [|apply IH; simpl; lia].
  apply strchr_length in Ec. pose proof (skip_json_ws_length (tail colon)) as Hw.
  rewrite length_tail' in Hw.
  destruct (skip_json_ws (tail colon)) as [|x r] eqn:Ev; apply IH; simpl in *; lia.
Qed.

Lemma load_factory_defaults_total c :
  (∀ json, cf_json c = Some json -> 0 <= cf_json_size c <= Z.of_nat (length json) + 1) ->
  is_Some (load_factory_defaults c).
Proof.
  intros Hj. unfold load_factory_defaults. destruct (cf_json c) as [json|] eqn:E; [|done].
  specialize (Hj json eq_refl). destruct (cf_json_size c =? 0); [done|].
  destruct (load_loop_total (Z.of_nat (length json)) (cf_json_size c)
    (S (Z.to_nat (cf_json_size c))) (Some json) []) as [es ->]; [simpl; lia..|done].
Qed.

(** ** Entries of the table *)

Lemma find_entry_from_spec es key i :
  match find_entry_from i es key with
  | Some k => ∃ n e, k = (i + n)%nat /\ es !! n = Some e /\ ce_key e = key /\
                ∀ m e', (m < n)%nat -> es !! m = Some e' -> ce_key e' ≠ key
  | None => ∀ e, e ∈ es -> ce_key e ≠ key
  end.
Proof.
  revert i. induction es as [|e es IH]; intros i; simpl; [intros e He; by apply not_elem_of_nil in He|].
  destruct (decide (ce_key e = key)) as [Hk|Hk].
  - exists 0%nat, e. repeat split; try done; lia.
  - specialize (IH (S i)). destruct (find_entry_from (S i) es key) as [k|].
    + destruct IH as (n & e' & -> & Hl & Hk' & Hm). exists (S n), e'.
      repeat split; try done; [lia|]. intros [|m] e'' Hlt Hl'; simpl in Hl'; [congruence|].
      apply (Hm m); [lia|done].
    + intros e' He. apply elem_of_cons in He as [->|He]; auto.
Qed.

Lemma find_entry_Some es key i :
  find_entry es key = Some i ->
  ∃ e, es !! i = Some e /\ ce_key e = key /\
       ∀ m e', (m < i)%nat -> es !! m = Some e' -> ce_key e' ≠ key.
Proof.
  intros E. pose proof (find_entry_from_spec es key 0) as Hs. unfold find_entry in E.
  rewrite E in Hs. destruct Hs as (n & e & -> & Hs). eauto.
Qed.

Lemma find_entry_None es key e : find_entry es key = None -> e ∈ es -> ce_key e ≠ key.
Proof.
  intros E. pose proof (find_entry_from_spec es key 0) as Hs. unfold find_entry in E.
  rewrite E in Hs. apply Hs.
Qed.

Lemma find_entry_unique es key i e :
  es !! i = Some e -> ce_key e = key ->
  (∀ m e', (m < i)%nat -> es !! m = Some e' -> ce_key e' ≠ key) -> find_entry es key = Some i.
Proof.
  intros Hl Hk Hm. destruct (find_entry es key) as [k|] eqn:E.
  - apply find_entry_Some in E as (e' & Hl' & Hk' & Hm'). f_equal.
    destruct (Nat.lt_trichotomy k i) as [Hlt|[?|Hlt]]; [|done|].
    + by apply (Hm k e') in Hlt.
    + by apply (Hm' i e) in Hlt.
  - exfalso. eapply find_entry_None; [exact E| |exact Hk]. by eapply list_elem_of_lookup_2.
Qed.

Lemma lookup_entry_prefix c c' key v :
  cf_entries c `prefix_of` cf_entries c' -> lookup_entry c key = Some v -> lookup_entry c' key = Some v.
Proof.
  intros [l E] Hv. unfold lookup_entry in *.
  destruct (find_entry (cf_entries c) key) as [i|] eqn:Ef; [|done].
  apply find_entry_Some in Ef as (e & Hl & Hk & Hm). cbn [mbind option_bind] in *. rewrite Hl in Hv.
  assert (∀ m e', (m ≤ i)%nat -> cf_entries c' !! m = Some e' -> cf_entries c !! m = Some e') as Hp.
  { intros m e' Hle Hl'. rewrite E in Hl'. apply lookup_lt_Some in Hl.
    by rewrite lookup_app_l in Hl' by lia. }
  assert (cf_entries c' !! i = Some e) as Hl' by (rewrite E; by apply lookup_app_l_Some).
  rewrite (find_entry_unique _ key i e); [|done|done|].
  - cbn [mbind option_bind]. by rewrite Hl'.
  - intros m e' Hlt He. apply (Hm m e'); [done|]. apply Hp; [lia|done].
Qed.

(** ** Setting and getting *)

Lemma find_entry_keys es es' key : map ce_key es = map ce_key es' -> find_entry es key = find_entry es' key.
Proof.
  unfold find_entry. generalize 0%nat as i. revert es'.
  induction es as [|e es IH]; intros [|e' es'] i E; try done.
  cbn [map] in E. injection E as E1 E2. simpl. rewrite E1. by destruct (decide _); [|apply IH].
Qed.

Lemma put_keys es i v d : map ce_key (put_dirty (put_value es i v) i d) = map ce_key es.
Proof.
  revert i. induction es as [|e es IH]; intros [|i]; simpl; [done..|]. f_equal. apply IH.
Qed.

Lemma put_lookup_eq es i v d e :
  es !! i = Some e -> put_dirty (put_value es i v) i d !! i = Some (mk_ce (ce_key e) v d).
Proof. intros E. unfold put_dirty, put_value. by rewrite !list_lookup_alter_eq, E. Qed.

Lemma put_lookup_ne es i j v d : i ≠ j -> put_dirty (put_value es i v) i d !! j = es !! j.
Proof. intros E. unfold put_dirty, put_value. by rewrite !list_lookup_alter_ne. Qed.

Lemma add_entry_put es key type i es' v :
  add_entry es key type = Some (i, es') ->
  put_dirty (put_value es' i v) i true = es ++ [mk_ce (take 31 key) v true].
Proof.
  unfold add_entry. destruct (_ >=? _); [done|]. intros [= <- <-]. rewrite put_value_last.
  unfold put_dirty. rewrite alter_app_r_alt by lia. by rewrite Nat.sub_diag.
Qed.

(** The table after a set: the key has the value, the other keys are as before. *)
Lemma set_entry_spec c key v r c' :
  (length key ≤ 31)%nat -> set_entry c key v = (r, c') ->
  (r = MINI_OK /\ cf_json c' = cf_json c /\ lookup_entry c' key = Some v /\
     ∀ k, k ≠ key -> lookup_entry c' k = lookup_entry c k) \/
  (r = MINI_ERR_INVAL /\ c' = c /\ lookup_entry c key = None /\
     MAX_ENTRIES <= Z.of_nat (length (cf_entries c))).
Proof.
  intros Hk. unfold set_entry. destruct (find_entry (cf_entries c) key) as [i|] eqn:Ef.
  - intros [= <- <-]. left. split; [done|]. split; [done|].
    pose proof (find_entry_Some _ _ _ Ef) as (e & Hl & He & _).
    unfold lookup_entry. cbn [with_entries cf_entries]. split.
    + rewrite (find_entry_keys _ (cf_entries c)) by apply put_keys. rewrite Ef.
      cbn [mbind option_bind]. by rewrite (put_lookup_eq _ _ _ _ e).
    + intros k Hne. rewrite (find_entry_keys _ (cf_entries c)) by apply put_keys.
      destruct (find_entry (cf_entries c) k) as [j|] eqn:Ej; [|done]. cbn [mbind option_bind].
      apply find_entry_Some in Ej as (e' & Hl' & He' & _).
      rewrite put_lookup_ne; [done|]. intros ->. congruence.
  - destruct (add_entry (cf_entries c) key (cs_type v)) as [[i es]|] eqn:Ea.
    + intros [= <- <-]. left. split; [done|]. split; [done|].
      rewrite (add_entry_put _ _ _ _ _ _ Ea), take_ge by done. split.
      * unfold lookup_entry. cbn [with_entries cf_entries].
        rewrite (find_entry_unique _ key (length (cf_entries c)) (mk_ce key v true)).
        -- cbn [mbind option_bind]. by rewrite lookup_app_r, Nat.sub_diag by lia.
        -- by rewrite lookup_app_r, Nat.sub_diag by lia.
        -- done.
        -- intros m e Hm Hl. rewrite lookup_app_l in Hl by done.
           eapply find_entry_None; [exact Ef|]. by eapply list_elem_of_lookup_2.
      * intros k Hne. destruct (lookup_entry c k) as [w|] eqn:Ew.
        -- eapply lookup_entry_prefix; [|exact Ew]. by eexists.
        -- unfold lookup_entry in *. cbn [with_entries cf_entries].
           destruct (find_entry (_ ++ _) k) as [j|] eqn:Ej; [|done]. exfalso.
           apply find_entry_Some in Ej as (e & Hl & He & _).
           apply list_elem_of_lookup_2 in Hl. apply elem_of_app in Hl as [Hl|Hl].
           ++ destruct (find_entry (cf_entries c) k) as [j'|] eqn:Ej'.
              ** apply find_entry_Some in Ej' as (e' & Hl' & _). cbn [mbind option_bind] in Ew.
                 by rewrite Hl' in Ew.
              ** by eapply find_entry_None.
           ++ apply list_elem_of_singleton in Hl as ->. simpl in He. congruence.
    + intros [= <- <-]. right. split; [done|]. split; [done|]. split.
      * unfold lookup_entry. by rewrite Ef.
      * unfold add_entry in Ea. rewrite Z.geb_leb in Ea.
        destruct (Z.leb_spec MAX_ENTRIES (Z.of_nat (length (cf_entries c)))); done.
Qed.

Inductive setting := SetBool (b : bool) | SetInt (i : Z) | SetFloat (f : Z) | SetString (s : cstring).

Definition do_set (c : config) (key : cstring) (v : setting) : Z * config :=
  match v with
  | SetBool b => config_store_set_bool c key b
  | SetInt i => config_store_set_int c key i
  | SetFloat f => config_store_set_float c key f
  | SetString s => config_store_set_string c key s
  end.

(** What the getter of the setting's type returns. *)
Definition reads_back (c : config) (key : cstring) (v : setting) : Prop :=
  match v with
  | SetBool b => ∀ d, config_store_get_bool c key d = b
  | SetInt i => ∀ d, config_store_get_int c key d = i
  | SetFloat f => ∀ d, config_store_get_float c key d = f
  | SetString s => ∀ d, config_store_get_string c key d = take 63 s
  end.

Definition same_gets (c c' : config) (k : cstring) : Prop :=
  (∀ d, config_store_get_bool c' k d = config_store_get_bool c k d) /\
  (∀ d, config_store_get_int c' k d = config_store_get_int c k d) /\
  (∀ d, config_store_get_float c' k d = config_store_get_float c k d) /\
  (∀ d, config_store_get_string c' k d = config_store_get_string c k d).

(** Setting then getting. For a key of at most 31 characters every setter either returns
    MINI_OK, after which the getter of its type returns the value set (a string cut to 63
    characters) whatever type the key had before, and no getter of another key changes; or
    it returns MINI_ERR_INVAL with nothing changed, and then the key was absent and the table
    full. *)
Theorem config_set_get c key v r c' :
  (length key ≤ 31)%nat -> do_set c key v = (r, c') ->
  (r = MINI_OK /\ reads_back c' key v /\ ∀ k, k ≠ key -> same_gets c c' k) \/
  (r = MINI_ERR_INVAL /\ c' = c /\ lookup_entry c key = None /\
     MAX_ENTRIES <= Z.of_nat (length (cf_entries c))).
Proof.
  intros Hk Hs.
  assert (∃ w, set_entry c key w = (r, c') /\
            (lookup_entry c' key = Some w -> reads_back c' key v)) as (w & Hw & Hr).
  { destruct v; (eexists; split; [exact Hs|]); intros E d; cbn;
      unfold config_store_get_bool, config_store_get_int, config_store_get_float,
        config_store_get_string; by rewrite E. }
  apply set_entry_spec in Hw as [(-> & Hj & Hv & Hf)|Hw]; [left|by right|done].
  split; [done|]. split; [by apply Hr|]. intros k Hne. specialize (Hf k Hne).
  unfold same_gets, config_store_get_bool, config_store_get_int, config_store_get_float,
    config_store_get_string, find_json_value. by rewrite Hf, Hj.
Qed.

(** ** Loading persisted entries *)

Lemma de_entries_appends count : ∀ buf es, es `prefix_of` (de_entries count buf es).2.
Proof.
  induction count as [|count IH]; intros buf es; simpl; [done|].
  destruct buf as [|key_len buf]; [done|]. destruct (_ || _); [done|].
  destruct (drop _ buf) as [|type rest]; [done|].
  unfold add_entry. destruct (_ >=? MAX_ENTRIES); [apply IH|].
  destruct (de_value type rest) as [[v rest']|]; [|by eexists].
  rewrite put_value_last. etrans; [|apply IH]. by eexists.
Qed.

Lemma blob_deserialize_appends buf es : es `prefix_of` (blob_deserialize buf es).2.
Proof. destruct buf as [|b0 [|b1 buf]]; simpl; [done..|]. apply de_entries_appends. Qed.

(** The factory entries depend on the bound source only. *)
Definition same_source (c c' : config) : Prop :=
  cf_json c' = cf_json c /\ cf_json_size c' = cf_json_size c.

Lemma load_factory_source c c' ok c1 :
  same_source c c' -> load_factory_defaults c = Some (ok, c1) ->
  ∃ c2, load_factory_defaults c' = Some (ok, c2) /\ same_source c c2 /\
        (ok = true -> cf_entries c2 = cf_entries c1).
Proof.
  intros [E1 E2]. unfold load_factory_defaults. rewrite E1, E2.
  destruct (cf_json c) as [json|] eqn:Ej; [|intros [= <- <-]; eexists; repeat split; congruence].
  destruct (cf_json_size c =? 0); [intros [= <- <-]; eexists; repeat split; congruence|].
  destruct (load_loop _ _ _ _ _) as [es|]; [|done]. cbn [mbind option_bind].
  intros [= <- <-]. eexists. repeat split; cbn; congruence.
Qed.

Lemma load_factory_ready c ok c' :
  load_factory_defaults c = Some (ok, c') -> cf_ready c' = cf_ready c.
Proof.
  unfold load_factory_defaults. destruct (cf_json c); [|by intros [= <- <-]].
  destruct (_ =? 0); [by intros [= <- <-]|]. destruct (load_loop _ _ _ _ _); [|done].
  cbn [mbind option_bind]. by intros [= <- <-].
Qed.

(** The factory entries stay at the front of the table. *)
Definition defaults_first (c0 c : config) : Prop :=
  same_source c0 c /\ cf_entries c0 `prefix_of` cf_entries c.

Lemma load_from_storage_defaults c0 c00 fuel : ∀ slot c st ok c' st',
  load_factory_defaults c00 = Some (true, c0) -> defaults_first c0 c ->
  load_from_storage fuel slot c st = Some (ok, c', st') -> defaults_first c0 c'.
Proof.
  intros slot c st ok c' st' H0.
  assert (load_factory_defaults c0 = Some (true, c0)) as Hself.
  { unfold load_factory_defaults in *. destruct (cf_json c00) as [json|] eqn:Ej; [|done].
    destruct (cf_json_size c00 =? 0) eqn:Es; [done|].
    destruct (load_loop _ _ _ _ _) as [es|] eqn:El; [|done]. cbn [mbind option_bind] in H0.
    injection H0 as <-. cbn [with_entries cf_json cf_json_size]. by rewrite Ej, Es, El. }
  assert (∀ c st ok c' st', same_source c0 c -> crc_fallback c st = Some (ok, c', st') ->
            defaults_first c0 c') as Hfb.
  { intros d sd okd d' sd' Hd. unfold crc_fallback.
    destruct (load_factory_source c0 (with_health d (-1)) true c0) as (c2 & -> & Hs & He); [done..|].
    cbn [mbind option_bind]. intros [= <- <- <-]. split; [done|]. by rewrite He. }
  revert slot c st ok c' st'.
  induction fuel as [|fuel IH]; intros slot c st ok c' st' [Hs Hp]; [done|].
  cbn [load_from_storage]. destruct (hal_storage_read_blob slot BLOB_MAX st) as [[r buf] st1].
  destruct (negb _); [intros [= <- <- <-]; by split|].
  destruct (_ <? 6); [intros [= <- <- <-]; by split|].
  destruct (negb (crc_matches buf)).
  - destruct (read_slot_flag c st1) as [flag st2]. destruct (negb _); [|by apply Hfb].
    destruct (load_from_storage fuel _ c st2) as [[[ok1 c1] st3]|] eqn:El; [|done].
    cbn [mbind option_bind]. apply IH in El; [|by split]. destruct El as [Hs1 Hp1].
    destruct ok1; [|by apply Hfb]. destruct (write_slot_flag c1 _ st3).
    intros [= <- <- <-]. by split.
  - destruct (blob_deserialize (drop 4 buf) (cf_entries c)) as [ok1 es] eqn:Ed.
    intros [= <- <- <-]. split; [done|]. cbn [with_entries cf_entries].
    etrans; [exact Hp|]. pose proof (blob_deserialize_appends (drop 4 buf) (cf_entries c)) as Ha.
    by rewrite Ed in Ha.
Qed.

Lemma config_store_init_defaults c c0 st r c' st' :
  load_factory_defaults c = Some (true, c0) ->
  config_store_init c st = Some (r, c', st') -> cf_entries c0 `prefix_of` cf_entries c'.
Proof.
  intros H0. unfold config_store_init. destruct (hal_storage_init st) as [r0 st0].
  destruct (load_factory_source c (with_ready c (r0 =? MINI_OK)) true c0) as (c1 & E1 & Hs & He);
    [done..|]. rewrite E1. cbn [mbind option_bind negb].
  assert (defaults_first c1 c1) as Hd by done. specialize (He eq_refl).
  destruct (cf_ready c1); [|intros [= <- <- <-]; by rewrite He].
  destruct (read_slot_flag c1 st0) as [flag st1].
  destruct (flag =? FLAG_A_VALID); [|destruct (flag =? FLAG_B_VALID)].
  3: intros [= <- <- <-]; by rewrite He.
  all: destruct (load_from_storage 2 _ c1 st1) as [[[ok c2] st2]|] eqn:El; [|done];
    cbn [mbind option_bind]; intros [= <- <- <-];
    eapply load_from_storage_defaults in El; [|exact E1|done]; rewrite <- He; apply El.
Qed.

(** Factory defaults shadow persisted values. Whatever the storage holds and however it
    behaves, after [config_store_init] every key of the factory defaults still has its
    factory value: a persisted entry is appended after it and the lookup stops at the first
    match, so a committed change to such a key is lost at the next start. *)
Theorem init_defaults_shadow c c0 st r c' st' key v :
  load_factory_defaults c = Some (true, c0) ->
  config_store_init c st = Some (r, c', st') ->
  lookup_entry c0 key = Some v -> lookup_entry c' key = Some v.
Proof.
  intros H0 Hi. apply lookup_entry_prefix. by eapply config_store_init_defaults.
Qed.

(** ** Commit *)

Lemma char_u8 s : Forall is_char s -> Forall is_u8 s.
Proof. intros Hs. eapply Forall_impl; [|exact Hs]. intros c. unfold is_char, is_u8. lia. Qed.

Lemma ser_value_u8 v : value_wf v -> Forall is_u8 (ser_value v).
Proof.
  destruct v as [i|f|[]|s|t]; simpl; intros Hv; repeat constructor; try apply land_255_u8; try lia.
  apply char_u8, Hv.
Qed.

Lemma ser_entry_u8 e : entry_wf e -> Forall is_u8 (ser_entry e).
Proof.
  intros (Hk & Hl & Hv). unfold ser_entry. cbn [app]. constructor; [unfold is_u8; lia|].
  apply Forall_app. split; [by apply char_u8|]. constructor; [|by apply ser_value_u8].
  unfold is_u8. destruct (ce_value e); simpl in *; unfold CS_TYPE_INT, CS_TYPE_FLOAT, CS_TYPE_BOOL,
    CS_TYPE_STRING; lia.
Qed.

Lemma table_blob_u8 es :
  table_wf es -> Forall is_u8 ([Z.of_nat (length es); 0] ++ concat (map ser_entry es)).
Proof.
  intros [Hw Hm]. unfold MAX_ENTRIES in Hm. repeat (constructor; [unfold is_u8; lia|]).
  apply Forall_concat. apply Forall_map. eapply Forall_impl; [|exact Hw]. apply ser_entry_u8.
Qed.

Lemma crc_matches_stored blob :
  Forall is_u8 blob -> crc_matches (le32 (crc32_le 0 blob) ++ blob) = true.
Proof.
  intros Hb. unfold crc_matches. apply Z.eqb_eq.
  change (stored_crc (le32 ?x ++ blob)) with
    (of_le32 (Z.land x 255) (Z.land (Z.shiftr x 8) 255) (Z.land (Z.shiftr x 16) 255)
       (Z.land (Z.shiftr x 24) 255)).
  rewrite of_le32_spec. cbn [le32 app drop].
  apply (fits_u32 32); [lia|]. apply crc32_le_fits; [|done]. apply fits_lt; lia.
Qed.

Context `{!HalStorageLaws St}.

(** The slot a flag names, as commit reads it. *)
Definition slot_of_flag (flag : Z) : Z := if flag =? FLAG_A_VALID then 0 else 1.

Lemma read_slot_flag_law c st : cf_ready c = true -> read_slot_flag c st = (slot_flag st, st).
Proof. intros E. unfold read_slot_flag. by rewrite E, read_flag_law. Qed.

Lemma read_blob_bytes slot st b :
  slot_blob st slot = Some b -> Z.of_nat (length b) <= BLOB_MAX ->
  hal_storage_read_blob slot BLOB_MAX st = (MINI_OK, b, st).
Proof. apply read_blob_law. Qed.

(** The slot holds a checked blob of the table. *)
Definition stored_blob (es : list cs_entry) : list Z :=
  [Z.of_nat (length es); 0] ++ concat (map ser_entry es).
Definition slot_holds (st : St) (slot : Z) (es : list cs_entry) : Prop :=
  slot_blob st slot = Some (le32 (crc32_le 0 (stored_blob es)) ++ stored_blob es).

Lemma stored_blob_spec es es0 :
  table_wf es -> Z.of_nat (length es0 + length es) <= MAX_ENTRIES ->
  Forall is_u8 (stored_blob es) /\ 2 <= Z.of_nat (length (stored_blob es)) <= 786 /\
  (∀ size, 786 <= size -> blob_serialize es size = SerOk (stored_blob es)) /\
  blob_deserialize (stored_blob es) es0 = (true, es0 ++ map clean es).
Proof.
  intros Hw Hm. destruct (blob_round_trip_gen es es0 786 Hw ltac:(lia) Hm) as (b & Es & Hl & Hd).
  rewrite blob_serialize_ok in Es by (done || lia). injection Es as <-.
  split; [by apply table_blob_u8|]. split; [|split; [|done]].
  - split; [|exact Hl]. unfold stored_blob. rewrite length_app. cbn [length]. lia.
  - intros size Hs. by apply blob_serialize_ok.
Qed.

Lemma load_slot_holds st slot es c :
  table_wf es -> Z.of_nat (length (cf_entries c) + length es) <= MAX_ENTRIES ->
  slot_holds st slot es -> ∀ fuel,
  load_from_storage (S fuel) slot c st
    = Some (true, with_entries c (cf_entries c ++ map clean es), st).
Proof.
  intros Hw Hm Hh fuel. destruct (stored_blob_spec es (cf_entries c) Hw Hm) as (Hu & Hl & _ & Hd).
  unfold slot_holds in Hh. cbn [load_from_storage].
  assert (Z.of_nat (length (le32 (crc32_le 0 (stored_blob es)) ++ stored_blob es))
            = 4 + Z.of_nat (length (stored_blob es))) as Hbl by (rewrite length_app; simpl; lia).
  rewrite (read_blob_bytes _ _ _ Hh) by (unfold BLOB_MAX; lia). cbn [Z.eqb MINI_OK negb].
  rewrite Hbl. destruct (Z.ltb_spec (4 + Z.of_nat (length (stored_blob es))) 6); [lia|].
  rewrite crc_matches_stored by done. cbn [negb].
  change (drop 4 (le32 ?x ++ ?b)) with b. by rewrite Hd.
Qed.

(** Saving a well-formed table: it never overruns, writes the named slot only, and on success
    the slot holds the table. *)
Lemma save_to_storage_spec slot c st :
  table_wf (cf_entries c) ->
  ∃ ok st', save_to_storage slot c st = Some (ok, st') /\
    slot_flag st' = slot_flag st /\ (∀ s, s ≠ slot -> slot_blob st' s = slot_blob st s) /\
    (ok = true -> slot_holds st' slot (cf_entries c)).
Proof.
  intros Hw. unfold save_to_storage. unfold BLOB_MAX at 1.
  destruct (stored_blob_spec (cf_entries c) [] Hw) as (Hu & Hl & Hs & _); [apply Hw|].
  rewrite Hs by lia. set (buf := le32 _ ++ _).
  assert (Z.of_nat (length buf) = 4 + Z.of_nat (length (stored_blob (cf_entries c)))) as Hbl
    by (unfold buf; rewrite length_app; simpl; lia).
  destruct (hal_storage_write_blob slot buf st) as [r st1] eqn:Ewr.
  apply write_blob_law in Ewr as (Hok & Hf & Ho).
  destruct (Z.eqb_spec r MINI_OK) as [->|]; cbn [negb]; [|by eexists _, _].
  specialize (Hok eq_refl). rewrite (read_blob_bytes _ _ _ Hok) by (unfold BLOB_MAX; lia).
  rewrite !Z.eqb_refl, bool_decide_eq_true_2 by done. cbn [negb]. by eexists _, _.
Qed.

(** C31: Commit is safe and durable. On storage that keeps its contract (writes may fail), with
    a well-formed table, commit always returns.  With a hook, the hook gets the serialised
    table, which reads back as the table, its answer is the result, and the storage is left
    alone.  Without one, MINI_ERR_AGAIN while the medium is not ready, with nothing written;
    otherwise MINI_OK or MINI_ERR_IO: the slot that is current is never written, so it still
    loads after any failure, and after MINI_OK the slot the flag names loads, into an empty
    table, exactly the committed entries.  The entries lose their dirty marks on MINI_OK and
    on no other result, and nothing else of them changes. *)
Theorem commit_reload c st :
  table_wf (cf_entries c) ->
  ∃ r c' st', config_store_commit c st = Some (r, c', st') /\
    c' = (if r =? MINI_OK then with_entries c (map clean (cf_entries c)) else c) /\
    match cf_hook c with
    | Some hook => ∃ buf, blob_deserialize buf [] = (true, map clean (cf_entries c)) /\ r = hook buf /\ st' = st
    | None =>
        if cf_ready c then
          (r = MINI_OK \/ r = MINI_ERR_IO) /\
          slot_blob st' (slot_of_flag (slot_flag st)) = slot_blob st (slot_of_flag (slot_flag st)) /\
          (r = MINI_OK ->
             slot_of_flag (slot_flag st') ≠ slot_of_flag (slot_flag st) /\
             ∀ c1, cf_entries c1 = [] ->
               load_from_storage 1 (slot_of_flag (slot_flag st')) c1 st'
                 = Some (true, with_entries c1 (map clean (cf_entries c)), st'))
        else r = MINI_ERR_AGAIN /\ st' = st
    end.
Proof.
  intros Hw. unfold config_store_commit. destruct (stored_blob_spec (cf_entries c) [] Hw) as (_ & _ & Hser & Hde); [apply Hw|].
  rewrite Hser by (unfold BLOB_MAX; lia). destruct (cf_hook c) as [hook|].
  { eexists _, _, _. split; [done|]. split; [done|]. by exists (stored_blob (cf_entries c)). }
  destruct (cf_ready c) eqn:Hr; cbn [negb]; [|by eexists _, _, _].
  rewrite read_slot_flag_law by done.
  set (target := if slot_flag st =? FLAG_A_VALID then 1 else 0).
  assert (slot_of_flag (slot_flag st) ≠ target) as Hne
    by (unfold slot_of_flag, target; by destruct (_ =? _)).
  destruct (save_to_storage_spec target c st Hw) as (ok & st1 & -> & Hf & Ho & Hs).
  cbn [mbind option_bind].
  destruct ok; cbn [negb]; [|eexists _, _, _; split; [done|]; split; [done|]; split; [by right|]; split; [by apply Ho|done]].
  unfold write_slot_flag. rewrite Hr. cbn [negb].
  set (nf := if target =? 0 then FLAG_A_VALID else FLAG_B_VALID).
  destruct (hal_storage_write_flag nf st1) as [r st2] eqn:Ewf.
  apply write_flag_law in Ewf as [Hnf Hb].
  destruct (Z.eqb_spec r MINI_OK) as [->|]; cbn [negb]; eexists _, _, _; (split; [done|]); (split; [done|]).
  2: { split; [by right|]. split; [rewrite Hb; by apply Ho|done]. }
  split; [by left|]. split; [rewrite Hb; by apply Ho|]. intros _.
  assert (slot_of_flag (slot_flag st2) = target) as Ht.
  { rewrite Hnf by done. unfold nf, target, slot_of_flag. by destruct (slot_flag st =? FLAG_A_VALID). }
  rewrite Ht. split; [done|]. intros c1 Hc1. pose proof (Hs eq_refl) as Hold.
  rewrite (load_slot_holds st2 target (cf_entries c)); [by rewrite Hc1|done|rewrite Hc1; apply Hw|].
  unfold slot_holds. by rewrite Hb.
Qed.

(** ** Start-up returns *)

Definition source_ok (c : config) : Prop :=
  ∀ json, cf_json c = Some json -> 0 <= cf_json_size c <= Z.of_nat (length json) + 1.

Lemma crc_fallback_total c st : source_ok c -> is_Some (crc_fallback c st).
Proof.
  intros Hs. unfold crc_fallback.
  destruct (load_factory_defaults_total (with_health c (-1)) Hs) as [[ok c'] ->]. by eexists.
Qed.

(** The other slot: the flag that reads back the same stops the recursion. *)
Lemma load_alternate_total fuel slot c st :
  cf_ready c = true -> source_ok c ->
  slot_flag st = (if slot =? 0 then FLAG_B_VALID else FLAG_A_VALID) -> (slot = 0 \/ slot = 1) ->
  ∃ ok c' st', load_from_storage (S fuel) slot c st = Some (ok, c', st').
Proof.
  intros Hr Hs Hf Hslot. cbn [load_from_storage].
  destruct (hal_storage_read_blob slot BLOB_MAX st) as [[r buf] st1] eqn:Eb.
  apply read_blob_keeps in Eb. destruct (negb _); [by eauto|]. destruct (_ <? 6); [by eauto|].
  destruct (negb (crc_matches buf));
    [|destruct (blob_deserialize (drop 4 buf) (cf_entries c)); by eauto].
  rewrite read_slot_flag_law, Eb, Hf by done.
  destruct (crc_fallback_total c st1 Hs) as [[[ok c'] st'] E].
  destruct Hslot as [-> | ->]; cbn -[crc_fallback]; rewrite E; by eauto.
Qed.

(** [same_source] through a load, so the fallback after it still has its text. *)
Lemma load_from_storage_source fuel : ∀ slot c st ok c' st',
  load_from_storage fuel slot c st = Some (ok, c', st') -> same_source c c'.
Proof.
  assert (∀ c st ok c' st', crc_fallback c st = Some (ok, c', st') -> same_source c c') as Hfb.
  { intros c st ok c' st'. unfold crc_fallback, load_factory_defaults. cbn [with_health cf_json cf_json_size].
    destruct (cf_json c); [|by intros [= <- <- <-]]. destruct (_ =? 0); [by intros [= <- <- <-]|].
    destruct (load_loop _ _ _ _ _); [|done]. cbn [mbind option_bind]. by intros [= <- <- <-]. }
  induction fuel as [|fuel IH]; intros slot c st ok c' st'; [done|]. cbn [load_from_storage].
  destruct (hal_storage_read_blob slot BLOB_MAX st) as [[r buf] st1].
  destruct (negb _); [by intros [= <- <- <-]|]. destruct (_ <? 6); [by intros [= <- <- <-]|].
  destruct (negb (crc_matches buf));
    [|destruct (blob_deserialize (drop 4 buf) (cf_entries c)); by intros [= <- <- <-]].
  destruct (read_slot_flag c st1) as [flag st2]. destruct (negb _); [|apply Hfb].
  destruct (load_from_storage fuel _ c st2) as [[[ok1 c1] st3]|] eqn:El; [|done].
  cbn [mbind option_bind]. apply IH in El as [E1 E2]. destruct ok1.
  - destruct (write_slot_flag c1 _ st3). intros [= <- <- <-]. by split.
  - intros Hf. apply Hfb in Hf as [F1 F2]. split; congruence.
Qed.

(** Fuel 2 is enough for every content of the slots. *)
Lemma load_from_storage_total slot c st :
  cf_ready c = true -> source_ok c ->
  slot_flag st = (if slot =? 0 then FLAG_A_VALID else FLAG_B_VALID) -> (slot = 0 \/ slot = 1) ->
  ∃ ok c' st', load_from_storage 2 slot c st = Some (ok, c', st').
Proof.
  intros Hr Hs Hf Hslot. remember 1%nat as one eqn:E1. cbn [load_from_storage].
  destruct (hal_storage_read_blob slot BLOB_MAX st) as [[r buf] st1] eqn:Eb.
  apply read_blob_keeps in Eb. destruct (negb _); [by eauto|]. destruct (_ <? 6); [by eauto|].
  destruct (negb (crc_matches buf));
    [|destruct (blob_deserialize (drop 4 buf) (cf_entries c)); by eauto].
  rewrite read_slot_flag_law, Eb, Hf by done. destruct (negb _);
    [|destruct (crc_fallback_total c st1 Hs) as [[[ok c'] st'] ->]; by eauto].
  destruct (load_alternate_total 0 (if slot =? 0 then 1 else 0) c st1) as (ok & c' & st' & E);
    [done|done|rewrite Eb, Hf; by destruct Hslot as [-> | ->]|destruct Hslot as [-> | ->]; auto|].
  rewrite E1, E. cbn [mbind option_bind]. apply load_from_storage_source in E as [F1 F2].
  destruct ok; [destruct (write_slot_flag c' _ st'); by eauto|].
  assert (source_ok c') as Hs' by (intros j; rewrite F1, F2; apply Hs).
  destruct (crc_fallback_total c' st' Hs') as [[[ok c''] st''] ->]. by eauto.
Qed.

(** ** What start-up takes from the slots *)

(** What a look at a slot shows, for a table with the entries [es0]: nothing that can be read,
    a wrong CRC, or a blob that the parser accepts or refuses with these entries. *)
Inductive slot_content := Unreadable | Corrupt | Loads (es : list cs_entry) | Refused (es : list cs_entry).
Definition slot_look (slot : Z) (es0 : list cs_entry) (st : St) : slot_content * St :=
  let '(r, buf, st) := hal_storage_read_blob slot BLOB_MAX st in
  (if negb (r =? MINI_OK) || (Z.of_nat (length buf) <? 6) then Unreadable
   else if negb (crc_matches buf) then Corrupt
   else let '(ok, es) := blob_deserialize (drop 4 buf) es0 in if ok : bool then Loads es else Refused es, st).
Definition other_slot (slot : Z) : Z := if slot =? 0 then 1 else 0.
Definition flag_of_slot (slot : Z) : Z := if slot =? 0 then FLAG_A_VALID else FLAG_B_VALID.

Lemma look_keeps slot es0 st k st' : slot_look slot es0 st = (k, st') -> slot_flag st' = slot_flag st.
Proof.
  unfold slot_look. destruct (hal_storage_read_blob slot BLOB_MAX st) as [[r buf] st1] eqn:E. intros [= _ <-].
  by eapply read_blob_keeps.
Qed.
Lemma look_holds slot es0 st es :
  slot_holds st slot es -> table_wf es -> Z.of_nat (length es0 + length es) <= MAX_ENTRIES ->
  slot_look slot es0 st = (Loads (es0 ++ map clean es), st).
Proof.
  intros Hh Hw Hm. destruct (stored_blob_spec es es0 Hw Hm) as (Hu & Hl & _ & Hd). unfold slot_look.
  assert (Z.of_nat (length (le32 (crc32_le 0 (stored_blob es)) ++ stored_blob es))
            = 4 + Z.of_nat (length (stored_blob es))) as Hbl by (rewrite length_app; simpl; lia).
  rewrite (read_blob_bytes _ _ _ Hh) by (unfold BLOB_MAX; lia). rewrite Hbl.
  destruct (Z.ltb_spec (4 + Z.of_nat (length (stored_blob es))) 6); [lia|]. cbn [orb negb MINI_OK Z.eqb].
  rewrite crc_matches_stored by done. cbn [negb]. change (drop 4 (le32 ?x ++ ?b)) with b. by rewrite Hd.
Qed.
(** The load by what it sees. *)
Lemma load_look fuel slot c st :
  load_from_storage (S fuel) slot c st =
  match slot_look slot (cf_entries c) st with
  | (Unreadable, st) => Some (false, c, st)
  | (Loads es, st) => Some (true, with_entries c es, st)
  | (Refused es, st) => Some (false, with_entries c es, st)
  | (Corrupt, st) =>
      let '(flag, st) := read_slot_flag c st in
      if negb (flag =? flag_of_slot (other_slot slot)) then
        '(ok, c, st) ← load_from_storage fuel (other_slot slot) c st;
        if ok : bool then
          let '(_, st) := write_slot_flag c (flag_of_slot (other_slot slot)) st in Some (true, with_health c 1, st)
        else crc_fallback c st
      else crc_fallback c st
  end.
Proof.
  unfold slot_look. cbn [load_from_storage]. destruct (hal_storage_read_blob slot BLOB_MAX st) as [[r buf] st1].
  destruct (r =? MINI_OK); cbn [negb orb]; [|done]. destruct (_ <? 6); [done|]. destruct (crc_matches buf); cbn [negb]; [|done].
  by destruct (blob_deserialize (drop 4 buf) (cf_entries c)) as [[] es].
Qed.
Lemma crc_fallback_defaults c c0 c1 st :
  load_factory_defaults c = Some (true, c0) -> same_source c c1 ->
  ∃ c2, crc_fallback c1 st = Some (true, c2, st) /\ cf_entries c2 = cf_entries c0 /\ cf_health c2 = -1.
Proof.
  intros H0 Hs. unfold crc_fallback. destruct (load_factory_source c (with_health c1 (-1)) true c0) as (c2 & E & _ & He); [done..|].
  rewrite E. exists c2. split; [done|]. split; [by apply He|]. revert E. unfold load_factory_defaults.
  destruct (cf_json (with_health c1 (-1))); [|done]. destruct (_ =? 0); [done|].
  destruct (load_loop _ _ _ _ _); [|done]. by intros [= <-].
Qed.

(** Of a start with the slot [slot] current: the entries, and the health when it is documented. *)
Definition started (c c0 c' : config) (slot : Z) (st : St) : Prop :=
  let '(look, st1) := slot_look slot (cf_entries c0) st in
  match look with
  | Loads es | Refused es => cf_entries c' = es /\ config_store_health c' = cf_health c
  | Unreadable => cf_entries c' = cf_entries c0 /\ config_store_health c' = cf_health c
  | Corrupt =>
      match (slot_look (other_slot slot) (cf_entries c0) st1).1 with
      | Loads es => cf_entries c' = es /\ config_store_health c' = 1
      | Refused _ | Unreadable => cf_entries c' = cf_entries c0 /\ config_store_health c' = -1
      | Corrupt => cf_entries c' = cf_entries c0
      end
  end.
Lemma load_starts c c0 c1 slot st :
  load_factory_defaults c = Some (true, c0) -> same_source c c1 -> cf_entries c1 = cf_entries c0 -> cf_ready c1 = true ->
  slot = 0 \/ slot = 1 -> slot_flag st = flag_of_slot slot ->
  ∃ ok c' st', load_from_storage 2 slot c1 st = Some (ok, c', st') /\ started c1 c0 c' slot st.
Proof.
  intros H0 Hs He Hr Hsl Hf. unfold started. rewrite load_look, He. destruct (slot_look slot (cf_entries c0) st) as [look st1] eqn:El.
  pose proof (look_keeps _ _ _ _ _ El) as Hk. destruct look as [| |es|es]; try by eexists _, _, _.
  rewrite read_slot_flag_law, Hk, Hf by done.
  assert (flag_of_slot slot =? flag_of_slot (other_slot slot) = false) as -> by (by destruct Hsl as [-> | ->]). cbn [negb].
  rewrite load_look, He. destruct (slot_look (other_slot slot) (cf_entries c0) st1) as [look2 st2] eqn:El2. cbn [fst].
  pose proof (look_keeps _ _ _ _ _ El2) as Hk2. destruct look2 as [| |es|es]; cbn [mbind option_bind].
  - destruct (crc_fallback_defaults c c0 c1 st2 H0 Hs) as (c2 & -> & ? & ?). by eexists _, _, _.
  - rewrite read_slot_flag_law, Hk2, Hk, Hf by done.
    assert (flag_of_slot slot =? flag_of_slot (other_slot (other_slot slot)) = true) as -> by (by destruct Hsl as [-> | ->]). cbn [negb].
    destruct (crc_fallback_defaults c c0 c1 st2 H0 Hs) as (c2 & -> & ? & ?). cbn [mbind option_bind].
    destruct (write_slot_flag c2 _ st2). by eexists _, _, _.
  - destruct (write_slot_flag _ _ st2). by eexists _, _, _.
  - destruct (crc_fallback_defaults c c0 (with_entries c1 es) st2 H0 Hs) as (c2 & -> & ? & ?). by eexists _, _, _.
Qed.

(** C36: What start-up makes of the two slots. With factory defaults that load and a medium that
    keeps its contract and comes up, whichever slot the flag names, start-up returns
    MINI_OK.  If the current slot is readable with a correct CRC, its entries come after
    the factory defaults; if it cannot be read, there are the defaults only; the health is
    left alone in both cases.  If its CRC is wrong, the other slot decides: if that one
    loads, its entries come after the defaults and the health is 1 (recovered); if it
    cannot be read or its blob is refused, there are the defaults only and the health is
    -1 (fallen back); if its CRC is wrong too, there are the defaults only (the health
    then contradicts the documentation, [total_loss_reported_as_recovery]).  A slot that
    holds a table with room for it beside the defaults loads with exactly its entries. *)
Theorem start_up_from_slots c c0 st st0 slot :
  load_factory_defaults c = Some (true, c0) -> hal_storage_init st = (MINI_OK, st0) ->
  slot = 0 \/ slot = 1 -> slot_flag st = flag_of_slot slot ->
  (∃ c' st', config_store_init c st = Some (MINI_OK, c', st') /\ started c c0 c' slot st0) /\
  ∀ s es, slot_holds st0 s es -> table_wf es -> Z.of_nat (length (cf_entries c0) + length es) <= MAX_ENTRIES ->
    slot_look s (cf_entries c0) st0 = (Loads (cf_entries c0 ++ map clean es), st0).
Proof.
  intros H0 Hi Hsl Hf. split; [|intros s es Hh Hw Hm; by apply look_holds]. pose proof (init_law _ _ _ Hi) as [Hf0 _].
  destruct (load_factory_source c (with_ready c true) true c0) as (c1 & El & Hs & He); [done..|].
  assert (cf_ready c1 = true /\ cf_health c1 = cf_health c) as [Hr Hh].
  { split; [by apply load_factory_ready in El|]. revert El. unfold load_factory_defaults. destruct (cf_json (with_ready c true)); [|done].
    destruct (_ =? 0); [done|]. destruct (load_loop _ _ _ _ _); [|done]. by intros [= <-]. }
  destruct (load_starts c c0 c1 slot st0) as (ok & c' & st' & E & Hst); [done..|by apply He|done|done|congruence|].
  exists c', st'. unfold started in Hst |- *. rewrite Hh in Hst. split; [|exact Hst].
  unfold config_store_init. rewrite Hi. cbn [Z.eqb MINI_OK]. rewrite El. cbn [mbind option_bind negb].
  rewrite Hr, read_slot_flag_law, Hf0, Hf by done. destruct Hsl as [-> | ->].
  - change (flag_of_slot 0 =? FLAG_A_VALID) with true. cbn iota. by rewrite E.
  - change (flag_of_slot 1 =? FLAG_A_VALID) with false. change (flag_of_slot 1 =? FLAG_B_VALID) with true. cbn iota. by rewrite E.
Qed.

(** ** Factory defaults of a flat document *)

Inductive jval := JInt (z : Z) | JBool (b : bool).

Definition jtext (v : jval) : cstring :=
  match v with
  | JInt z => print_int z
  | JBool true => [116; 114; 117; 101]
  | JBool false => [102; 97; 108; 115; 101]
  end.

(** The members of an object and its closing brace. *)
Fixpoint render (kvs : list (cstring * jval)) : cstring :=
  match kvs with
  | [] => [125]
  | (k, v) :: r =>
      [34] ++ k ++ [34; 58] ++ jtext v ++ (match r with [] => [] | _ => [44] end) ++ render r
  end.

Definition jentry (kv : cstring * jval) : cs_entry :=
  mk_ce kv.1 (match kv.2 with JInt z => VInt z | JBool b => VBool b end) false.

Definition member_wf (kv : cstring * jval) : Prop :=
  Forall (fun c => c ≠ 34 /\ c ≠ 46) kv.1 /\ (length kv.1 ≤ 31)%nat /\
  match kv.2 with JInt z => -2147483648 <= z < 2147483648 | JBool _ => True end.

Lemma strchr_skip pre c s : Forall (fun x => x ≠ c) pre -> strchr (pre ++ s) c = strchr s c.
Proof.
  induction 1 as [|x pre Hx _ IH]; simpl; [done|]. by destruct (Z.eqb_spec x c).
Qed.

Lemma strchr_none s c : Forall (fun x => x ≠ c) s -> strchr s c = None.
Proof. intros Hs. rewrite <- (app_nil_r s). by rewrite strchr_skip. Qed.

Definition plain (c : Z) : Prop := c = 44 \/ c = 45 \/ 48 <= c <= 57 \/ 97 <= c <= 125.

Lemma print_int_plain z : -10 ^ 10 < z < 10 ^ 10 -> Forall plain (print_int z).
Proof.
  assert (∀ n, 0 <= n < 10 ^ 10 -> Forall plain (print_nat n)) as Hn.
  { intros n Hn. destruct (dec_digits_spec 10 n) as (Hd & _); [exact Hn|lia|].
    unfold print_nat. apply Forall_map. eapply Forall_impl; [|exact Hd].
    intros d Hd'. unfold plain. simpl in *. lia. }
  intros Hz. unfold print_int. destruct (Z.ltb_spec z 0); [constructor; [unfold plain; lia|]|];
    apply Hn; lia.
Qed.

Lemma jtext_plain k v : member_wf (k, v) -> Forall plain (jtext v).
Proof.
  intros (_ & _ & Hv). destruct v as [z|[]]; simpl in *.
  - apply print_int_plain. lia.
  - repeat constructor; unfold plain; lia.
  - repeat constructor; unfold plain; lia.
Qed.

Lemma plain_not c s : c = 34 \/ c = 46 -> Forall plain s -> Forall (fun x => x ≠ c) s.
Proof. intros Hc. apply Forall_impl. intros x. unfold plain. lia. Qed.

Lemma render_no_dot kvs : Forall member_wf kvs -> Forall (fun x => x ≠ 46) (render kvs).
Proof.
  induction 1 as [|[k v] kvs Hm _ IH]; cbn [render]; [by repeat constructor|].
  pose proof (jtext_plain k v Hm) as Hp. destruct Hm as (Hk & _ & _).
  rewrite !Forall_app. split; [by repeat constructor|]. split; [|split; [by repeat constructor|]];
    [|split; [|split]].
  - eapply Forall_impl; [|exact Hk]. simpl. tauto.
  - by apply plain_not; [right|].
  - destruct kvs; by repeat constructor.
  - done.
Qed.

(** What may follow a number. *)
Definition nondigit_head (s : cstring) : Prop :=
  match s with [] => True | c :: _ => c = 44 \/ c = 125 end.

Lemma dec_prefix_digits ds tl : ∀ val,
  Forall (fun d => 0 <= d <= 9) ds -> nondigit_head tl ->
  dec_prefix val (map (fun d => d + 48) ds ++ tl) = horner 10 val ds.
Proof.
  induction ds as [|d ds IH]; intros val Hd Ht; simpl.
  - destruct tl as [|c tl]; [done|]. simpl in *.
    destruct (Z.leb_spec 48 c), (Z.leb_spec c 57); simpl; (done || lia).
  - apply Forall_cons_1 in Hd as [Hd Hds].
    destruct (Z.leb_spec 48 (d + 48)), (Z.leb_spec (d + 48) 57); try lia. simpl.
    replace (d + 48 - 48) with d by lia. by apply IH.
Qed.

Lemma atoi_print z tl :
  -2147483648 <= z < 2147483648 -> nondigit_head tl -> atoi (print_int z ++ tl) = z.
Proof.
  intros Hz Ht. unfold atoi.
  assert (∀ n, 0 <= n < 10 ^ 10 -> dec_prefix 0 (print_nat n ++ tl) = n) as Hp.
  { intros n Hn. destruct (dec_digits_spec 10 n) as (Hd & Hv & _); [exact Hn|lia|].
    unfold print_nat. by rewrite dec_prefix_digits. }
  enough (parse_sign (skip_isspace (print_int z ++ tl))
            = (if z <? 0 then -1 else 1, print_nat (Z.abs z) ++ tl)) as ->.
  { rewrite Hp by lia.
    destruct (Z.ltb_spec z 0), (Z.leb_spec (-2147483648) (-1 * Z.abs z)),
      (Z.ltb_spec (-1 * Z.abs z) 2147483648), (Z.leb_spec (-2147483648) (1 * Z.abs z)),
      (Z.ltb_spec (1 * Z.abs z) 2147483648); simpl; lia. }
  unfold print_int. destruct (Z.ltb_spec z 0).
  - rewrite Z.abs_neq by lia. reflexivity.
  - rewrite Z.abs_eq by lia. destruct (print_nat_cons z) as (c & r & E & Hc); [lia|].
    rewrite E. cbn [app skip_isspace]. unfold isspace.
    destruct (Z.eqb_spec c 32), (Z.leb_spec 9 c), (Z.leb_spec c 13); try lia. cbn [orb andb].
    by apply parse_sign_digit.
Qed.

Lemma jtext_head k v tl :
  member_wf (k, v) -> nondigit_head tl -> Forall (fun x => x ≠ 46) tl ->
  ∃ x r, jtext v = x :: r /\ skip_json_ws (jtext v ++ tl) = jtext v ++ tl /\
    json_value (json_type (jtext v ++ tl)) (jtext v ++ tl) = ce_value (jentry (k, v)).
Proof.
  intros Hm Ht Hd. pose proof (jtext_plain k v Hm) as Hp. destruct Hm as (_ & _ & Hv).
  destruct v as [z|[]]; [|by eexists _, _..].
  cbn [jtext snd] in *.
  assert (∃ x r, print_int z = x :: r /\ (x = 45 \/ 48 <= x <= 57)) as (x & r & E & Hx).
  { unfold print_int. destruct (Z.ltb_spec z 0); [by eauto|].
    destruct (print_nat_cons z) as (x & r & E & Hx); [lia|]. eauto. }
  exists x, r. split; [done|]. split.
  - rewrite E. cbn [app skip_json_ws].
    destruct (Z.eqb_spec x 32), (Z.eqb_spec x 9), (Z.eqb_spec x 10), (Z.eqb_spec x 13); (done || lia).
  - assert (json_type (print_int z ++ tl) = CS_TYPE_INT) as ->.
    { assert (strchr (print_int z ++ tl) 46 = None) as En.
      { rewrite strchr_skip by (by apply plain_not; [right|]). by apply strchr_none. }
      rewrite E in *. cbn [app] in *. unfold json_type.
      repeat match goal with |- context [match ?y with _ => _ end] =>
        first [is_var y; destruct y; try lia] end; by rewrite ?En. }
    change (json_value CS_TYPE_INT ?s) with (VInt (atoi s)). cbn [jentry ce_value snd].
    f_equal. by apply atoi_print.
Qed.

Lemma render_cons kvs : ∃ c s, render kvs = c :: s /\ (kvs = [] -> c = 125).
Proof. destruct kvs as [|[k v] kvs]; cbn [render app]; by eexists _, _. Qed.

Lemma load_entry_append es k val v :
  Z.of_nat (length es) < MAX_ENTRIES -> (length k ≤ 31)%nat -> json_value (json_type val) val = v ->
  load_entry es k val = es ++ [mk_ce k v false].
Proof.
  intros Hl Hk <-. unfold load_entry, add_entry. rewrite Z.geb_leb.
  destruct (Z.leb_spec MAX_ENTRIES (Z.of_nat (length es))); [lia|].
  by rewrite put_value_last, take_ge by done.
Qed.

Lemma load_loop_render json_len size kvs : ∀ fuel pre es,
  Forall member_wf kvs -> Forall (fun x => x ≠ 34) pre ->
  Z.of_nat (length es + length kvs) <= MAX_ENTRIES -> json_len <= size ->
  (length kvs < fuel)%nat ->
  load_loop fuel json_len size (Some (pre ++ render kvs)) es = Some (es ++ map jentry kvs).
Proof.
  induction kvs as [|[k v] kvs IH]; intros [|fuel] pre es Hw Hpre Hm Hs Hf; simpl in Hf; try lia;
    cbn [load_loop]; rewrite length_app.
  - destruct (Z.ltb_spec (json_len - Z.of_nat (length pre + length (render []))) size) as [_|Hlt];
      [|cbn [render length] in Hlt; lia].
    rewrite strchr_skip by done. cbn [negb map]. by rewrite app_nil_r.
  - destruct (render_cons ((k, v) :: kvs)) as (x & s & Er & _).
    destruct (Z.ltb_spec (json_len - Z.of_nat (length pre + length (render ((k, v) :: kvs)))) size)
      as [_|Hlt]; [|rewrite Er in Hlt; cbn [length] in Hlt; lia]. clear Er x s.
    apply Forall_cons_1 in Hw as [Hkv Hw]. pose proof Hkv as (Hk & Hl & Hv). cbn [fst] in *.
    rewrite strchr_skip by done. cbn [negb render].
    set (sep := match kvs with [] => [] | _ => [44] end).
    cbn [app strchr]. rewrite Z.eqb_refl. cbn [tail].
    assert (Forall (fun c => c ≠ 34) k) as Hq by (eapply Forall_impl; [|exact Hk]; simpl; tauto).
    rewrite strchr_skip by done. cbn [strchr]. rewrite Z.eqb_refl.
    rewrite length_app, Nat.add_sub, take_app_length.
    rewrite Z.geb_leb. destruct (Z.leb_spec 32 (Z.of_nat (length k))); [lia|].
    cbn [strchr]. rewrite Z.eqb_refl. change (34 =? 58) with false. cbn [tail].
    assert (nondigit_head (sep ++ render kvs)) as Hn.
    { unfold sep. destruct (render_cons kvs) as (c & s & E & Hc). rewrite E.
      destruct kvs; simpl; [right; by apply Hc|by left]. }
    assert (Forall (fun x => x ≠ 46) (sep ++ render kvs)) as Hd.
    { apply Forall_app. split; [unfold sep; destruct kvs; by repeat constructor|by apply render_no_dot]. }
    destruct (jtext_head k v _ Hkv Hn Hd) as (x & r & Ex & Ew & Ej). rewrite Ew.
    rewrite (load_entry_append es k _ _ ltac:(simpl in Hm; lia) Hl Ej).
    pose proof (jtext_plain k v Hkv) as Hp. rewrite Ex in *. cbn [app] in *.
    rewrite app_assoc. rewrite IH; [by rewrite <- app_assoc|done| |rewrite length_app; simpl in *; lia
      |done|lia].
    apply Forall_cons_1 in Hp as [_ Hp]. apply Forall_app. split; [by apply plain_not; [left|]|].
    unfold sep. destruct kvs; by repeat constructor.
Qed.

Definition document (kvs : list (cstring * jval)) : cstring := 123 :: render kvs.

(** Factory defaults of a flat JSON object of integers and booleans load exactly: up to
    MAX_ENTRIES members, with keys of at most 31 characters without quotes or dots, give one
    entry per member, in order, with the value written.  The size bound with the source may
    or may not count the terminating NUL. *)
Theorem factory_defaults_exact c kvs :
  Forall member_wf kvs -> Z.of_nat (length kvs) <= MAX_ENTRIES ->
  cf_json c = Some (document kvs) ->
  (cf_json_size c = Z.of_nat (length (document kvs)) \/
   cf_json_size c = Z.of_nat (length (document kvs)) + 1) ->
  load_factory_defaults c = Some (true, with_entries c (map jentry kvs)).
Proof.
  intros Hw Hm Hj Hs. unfold load_factory_defaults. rewrite Hj.
  assert (length (render kvs) ≥ length kvs)%nat as Hlen.
  { clear. induction kvs as [|[k v] kvs IH]; cbn [render]; rewrite ?length_app; simpl; lia. }
  assert (length (document kvs) = S (length (render kvs))) as Hl by done.
  destruct (Z.eqb_spec (cf_json_size c) 0); [lia|].
  change (Some (document kvs)) with (Some ([123] ++ render kvs)).
  rewrite (load_loop_render _ _ kvs); [done|done|by repeat constructor|simpl; lia|lia|lia].
Qed.
End store.

(** ** The weak stubs of src/hal/storage/hal_storage.c

    Without a board implementation every call fails and stores nothing. *)

Definition weak_HalStorage : HalStorage unit := {|
  hal_storage_init st := (MINI_ERR_NOTSUPP, st);
  hal_storage_read_flag st := (MINI_ERR_NOTSUPP, None, st);
  hal_storage_write_flag _ st := (MINI_ERR_NOTSUPP, st);
  hal_storage_read_blob _ _ st := (MINI_ERR_NOTSUPP, [], st);
  hal_storage_write_blob _ _ st := (MINI_ERR_NOTSUPP, st);
  hal_storage_erase_all st := (MINI_ERR_NOTSUPP, st)
|}.

(** On the stubs start-up loads the factory defaults and commit returns MINI_ERR_AGAIN. *)
Lemma weak_storage_start atoi_overflow atof c c0 :
  load_factory_defaults atoi_overflow atof c = Some (true, c0) ->
  ∃ c1, config_store_init (H := weak_HalStorage) atoi_overflow atof c () = Some (MINI_OK, c1, ()) /\
        cf_entries c1 = cf_entries c0 /\ cf_ready c1 = false.
Proof.
  intros H0.
  destruct (load_factory_source atoi_overflow atof c (with_ready c false) true c0)
    as (c1 & E & _ & He); [done..|]. exists c1.
  assert (cf_ready c1 = false) as Hr by (apply load_factory_ready in E; by rewrite E).
  unfold config_store_init. cbn [hal_storage_init weak_HalStorage].
  change (MINI_ERR_NOTSUPP =? MINI_OK) with false. rewrite E. cbn [mbind option_bind negb].
  rewrite Hr. split; [done|]. split; [by apply He|done].
Qed.

(** ** A medium in memory

    Two slots, a flag, and a schedule of faults: a write takes the next element and, when it
    is [true], fails leaving half of its data. *)

Record ram_store := mk_ram {
  ram_flag : Z; ram_a : option (list Z); ram_b : option (list Z); ram_faults : list bool
}.

Definition ram_slot (st : ram_store) (slot : Z) : option (list Z) :=
  if slot =? 0 then ram_a st else if slot =? 1 then ram_b st else None.

Definition ram_put (st : ram_store) (slot : Z) (b : list Z) (faults : list bool) : ram_store :=
  if slot =? 0 then mk_ram (ram_flag st) (Some b) (ram_b st) faults
  else if slot =? 1 then mk_ram (ram_flag st) (ram_a st) (Some b) faults
  else st.

#[export] Instance ram_HalStorage : HalStorage ram_store := {
  hal_storage_init st := (MINI_OK, st);
  hal_storage_read_flag st := (MINI_OK, Some (ram_flag st), st);
  hal_storage_write_flag f st :=
    match ram_faults st with
    | true :: fs => (MINI_ERR_IO, mk_ram 0 (ram_a st) (ram_b st) fs)
    | fs => (MINI_OK, mk_ram f (ram_a st) (ram_b st) (tail fs))
    end;
  hal_storage_read_blob slot cap st :=
    match ram_slot st slot with
    | Some b => if Z.of_nat (length b) <=? cap then (MINI_OK, b, st) else (MINI_ERR_NOSPC, [], st)
    | None => (MINI_ERR_NOENT, [], st)
    end;
  hal_storage_write_blob slot b st :=
    if negb ((slot =? 0) || (slot =? 1)) then (MINI_ERR_INVAL, st) else
    match ram_faults st with
    | true :: fs => (MINI_ERR_IO, ram_put st slot (take (length b / 2) b) fs)
    | fs => (MINI_OK, ram_put st slot b (tail fs))
    end;
  hal_storage_erase_all st := (MINI_OK, mk_ram 255 None None (ram_faults st))
}.

Lemma ram_put_slot st slot b fs s :
  slot = 0 \/ slot = 1 ->
  ram_slot (ram_put st slot b fs) s = if s =? slot then Some b else ram_slot st s.
Proof.
  intros [-> | ->]; unfold ram_slot, ram_put; cbn [Z.eqb]; destruct (Z.eqb_spec s 0) as [->|];
    try done; by destruct (Z.eqb_spec s 1) as [->|].
Qed.

Lemma ram_put_flag st slot b fs : ram_flag (ram_put st slot b fs) = ram_flag st.
Proof. unfold ram_put. destruct (slot =? 0), (slot =? 1); done. Qed.

Lemma ram_write_blob_law slot b st r st' :
  hal_storage_write_blob slot b st = (r, st') ->
  (r = MINI_OK -> ram_slot st' slot = Some b) /\ ram_flag st' = ram_flag st /\
  ∀ s, s ≠ slot -> ram_slot st' s = ram_slot st s.
Proof.
  cbn. destruct (Z.eqb_spec slot 0) as [Hs|Hs0]; [|destruct (Z.eqb_spec slot 1) as [Hs|Hs1]].
  3: { intros [= <- <-]. by repeat split. }
  all: assert (slot = 0 \/ slot = 1) as Hslot by tauto; clear Hs; cbn [negb orb];
    destruct (ram_faults st) as [|[] fs]; intros [= <- <-]; rewrite ram_put_flag;
    (split; [intros E; (discriminate E || rewrite ram_put_slot by done; by rewrite Z.eqb_refl)|]);
    (split; [done|]); intros s Hne; rewrite ram_put_slot by done;
    destruct (Z.eqb_spec s slot); done.
Qed.

#[export] Instance ram_HalStorageLaws : HalStorageLaws ram_store.
Proof.
  refine {| slot_flag := ram_flag; slot_blob := ram_slot |}.
  - intros st r st' [= <- <-]. done.
  - done.
  - intros slot cap st b E Hl. cbn. rewrite E. destruct (Z.leb_spec (Z.of_nat (length b)) cap); [done|lia].
  - intros slot cap st r b st'. cbn. destruct (ram_slot st slot) as [b'|]; [destruct (_ <=? cap)|];
      intros [= <- <- <-]; done.
  - intros f st r st'. cbn. destruct (ram_faults st) as [|[] fs]; intros [= <- <-]; by split.
  - apply ram_write_blob_law.
Defined.

(** ** Instances *)

(** [{"k":1}] bound to an empty store; [atoi] and [atof] of no consequence. *)
Definition demo_json : cstring := [123; 34; 107; 34; 58; 49; 125].
Definition demo_config : config := mk_config (Some demo_json) 7 [] 0 false None.
Definition demo_store : ram_store := mk_ram 255 None None [].

Lemma factory_defaults_exact_witness :
  load_factory_defaults id (fun _ => 0) demo_config
    = Some (true, with_entries demo_config (map jentry [([107], JInt 1)])).
Proof.
  apply (factory_defaults_exact id (fun _ => 0) demo_config [([107], JInt 1)]).
  - repeat constructor; simpl; lia.
  - unfold MAX_ENTRIES. simpl. lia.
  - reflexivity.
  - left. reflexivity.
Defined.

Lemma config_set_get_witness :
  (MINI_OK = MINI_OK /\
   reads_back id (fun _ => 0) (with_entries demo_config [mk_ce [107] (VInt 7) true]) [107] (SetInt 7) /\
   (∀ k, k ≠ [107] ->
      same_gets id (fun _ => 0) demo_config
        (with_entries demo_config [mk_ce [107] (VInt 7) true]) k)) \/
  (MINI_OK = MINI_ERR_INVAL /\
   with_entries demo_config [mk_ce [107] (VInt 7) true] = demo_config /\
   lookup_entry demo_config [107] = None /\
   MAX_ENTRIES <= Z.of_nat (length (cf_entries demo_config))).
Proof.
  apply (config_set_get id (fun _ => 0) demo_config [107] (SetInt 7) MINI_OK
           (with_entries demo_config [mk_ce [107] (VInt 7) true])).
  - simpl. lia.
  - reflexivity.
Defined.

(** The store after a first start, [config_store_set_int] of 7 and a commit. *)
Definition demo_committed : option (config * ram_store) :=
  '(_, c, st) ← config_store_init id (fun _ => 0) demo_config demo_store;
  let '(_, c) := config_store_set_int c [107] 7 in
  '(r, c, st) ← config_store_commit c st;
  if r =? MINI_OK then Some (c, st) else None.

Definition demo_medium : ram_store :=
  match demo_committed with Some (_, st) => st | None => demo_store end.

(** The committed 7 is on the medium, and the next start reads 1. *)
Example committed_value_lost :
  (match load_from_storage id (fun _ => 0) 1 0 (mk_config None 0 [] 0 true None) demo_medium with
   | Some (true, c, _) => config_store_get_int id c [107] 0
   | _ => -1
   end = 7) /\
  (match config_store_init id (fun _ => 0) demo_config demo_medium with
   | Some (_, c, _) => config_store_get_int id c [107] 0
   | _ => -1
   end = 1).
Proof. vm_compute. split; reflexivity. Qed.

Definition demo_started : config :=
  match config_store_init id (fun _ => 0) demo_config demo_medium with
  | Some (_, c, _) => c
  | None => demo_config
  end.

Lemma init_defaults_shadow_witness : lookup_entry demo_started [107] = Some (VInt 1).
Proof.
  apply (init_defaults_shadow id (fun _ => 0) demo_config
           (with_entries demo_config [mk_ce [107] (VInt 1) false]) demo_medium MINI_OK
           demo_started demo_medium [107] (VInt 1)); vm_compute; reflexivity.
Defined.

Definition demo_full : config :=
  mk_config (Some demo_json) 7 [mk_ce [107] (VInt 7) true; mk_ce [109] (VBool true) false] 0 true None.

Lemma commit_reload_witness :
  ∃ r c' st', config_store_commit demo_full demo_medium = Some (r, c', st') /\
    (r = MINI_OK \/ r = MINI_ERR_IO) /\
    slot_blob st' (slot_of_flag (slot_flag demo_medium))
      = slot_blob demo_medium (slot_of_flag (slot_flag demo_medium)) /\
    (r = MINI_OK ->
       cf_entries c' = map clean (cf_entries demo_full) /\
       slot_of_flag (slot_flag st') ≠ slot_of_flag (slot_flag demo_medium) /\
       ∀ c1, cf_entries c1 = [] ->
         load_from_storage id (fun _ => 0) 1 (slot_of_flag (slot_flag st')) c1 st'
           = Some (true, with_entries c1 (map clean (cf_entries demo_full)), st')).
Proof.
  destruct (commit_reload id (fun _ => 0) demo_full demo_medium) as (r & c' & st' & E & Hc & H1 & H2 & H3).
  - split; [|unfold MAX_ENTRIES; simpl; lia]. repeat constructor; simpl; unfold is_char; lia.
  - exists r, c', st'. split; [exact E|]. split; [exact H1|]. split; [exact H2|]. intros Hr. destruct (H3 Hr) as [H4 H5].
    split; [rewrite Hc, Hr; reflexivity|]. split; [exact H4|exact H5].
Defined.

(** The slot that is current damaged, the other one with a table. *)
Definition bad_blob : list Z := [1; 0; 0; 0; 0; 0].
Definition half_medium : ram_store := mk_ram FLAG_B_VALID (ram_a demo_medium) (Some bad_blob) [].
Lemma start_up_from_slots_witness :
  ∃ c' st', config_store_init id (fun _ => 0) demo_config half_medium = Some (MINI_OK, c', st') /\
    cf_entries c' = [mk_ce [107] (VInt 1) false; mk_ce [107] (VInt 7) false] /\ cf_health c' = 1.
Proof.
  destruct (start_up_from_slots id (fun _ => 0) demo_config
    (with_entries demo_config [mk_ce [107] (VInt 1) false]) half_medium half_medium 1) as [(c' & st' & E & H) _].
  - reflexivity.
  - reflexivity.
  - right. reflexivity.
  - reflexivity.
  - vm_compute in H. exists c', st'. split; [exact E|exact H].
Defined.

(** Both slots damaged: the documented health is -1. *)
Definition bad_medium : ram_store := mk_ram FLAG_A_VALID (Some bad_blob) (Some bad_blob) [].
Example total_loss_reported_as_recovery :
  match config_store_init id (fun _ => 0) demo_config bad_medium with
  | Some (r, c', st') => (r, cf_entries c', config_store_health c', slot_flag st')
  | None => (0, [], 0, 0)
  end = (MINI_OK, [mk_ce [107] (VInt 1) false], 1, FLAG_B_VALID).
Proof. vm_compute. reflexivity. Qed.

(** ** Documents the scanner misreads *)

(** [{"s":"x","b":2}]: after a string value the scan resumes inside it, so the next key is
    taken between the quotes that surround the comma; b is not entered. *)
Example string_value_derails :
  load_factory_defaults id (fun _ => 0)
    (mk_config (Some [123; 34; 115; 34; 58; 34; 120; 34; 44; 34; 98; 34; 58; 50; 125]) 15 [] 0 false None)
  = Some (true, mk_config (Some [123; 34; 115; 34; 58; 34; 120; 34; 44; 34; 98; 34; 58; 50; 125]) 15
      [mk_ce [115] (VString [120]) false; mk_ce [44] (VInt 2) false] 0 false None).
Proof. vm_compute. reflexivity. Qed.

(** [{"a":1,"b":2.5}]: a dot anywhere later in the document makes an integer a float. *)
Example later_dot_makes_float :
  (cs_type ∘ ce_value) <$>
    (match load_factory_defaults id (fun _ => 0)
       (mk_config (Some [123; 34; 97; 34; 58; 49; 44; 34; 98; 34; 58; 50; 46; 53; 125]) 15 [] 0 false None)
     with Some (_, c) => cf_entries c | None => [] end)
  = [CS_TYPE_FLOAT; CS_TYPE_FLOAT].
Proof. vm_compute. reflexivity. Qed.

(** A key of 32 characters is cut when stored and never found again: the set succeeds, the
    get returns the default. *)
Example long_key_lost :
  let '(r, c) := config_store_set_int demo_config (replicate 32 97) 7 in
  r = MINI_OK /\ config_store_get_int id c (replicate 32 97) 0 = 0.
Proof. vm_compute. split; reflexivity. Qed.

(** A full table skips an entry without its value, and reads the value as the next key. *)
Example full_table_misreads :
  let full := replicate 8 (mk_ce [97] (VBool true) false) in
  (blob_deserialize ([2; 0] ++ ser_entry (mk_ce [98] (VInt 40) false)
                            ++ ser_entry (mk_ce [99] (VInt 1) false)) full).1 = false.
Proof. vm_compute. reflexivity. Qed.
