(* ===== verification/IList.v ===== *)
(** * Intrusive lists

    Models the circular doubly linked list of src/time_slice/task/xtask.h at pointer level: a
    heap maps the address of a node to its two links, and each function is its sequence of
    loads and stores ([None] is an access to a node that does not exist).  The theorems show
    that the functions implement the operations on lists the schedulers rely on. *)

From S2P Require Import Prelude Status.
From stdpp Require Import gmap.

#[local] Open Scope Z_scope.

Record list_node := mk_ln { ln_next : Z; ln_prev : Z }.

Definition set_next (h : gmap Z list_node) (node v : Z) : option (gmap Z list_node) :=
  n ← h !! node; Some (<[node := mk_ln v (ln_prev n)]> h).
Definition set_prev (h : gmap Z list_node) (node v : Z) : option (gmap Z list_node) :=
  n ← h !! node; Some (<[node := mk_ln (ln_next n) v]> h).
Definition get_next (h : gmap Z list_node) (node : Z) : option Z := ln_next <$> h !! node.
Definition get_prev (h : gmap Z list_node) (node : Z) : option Z := ln_prev <$> h !! node.

Definition list_init (h : gmap Z list_node) (node : Z) : option (gmap Z list_node) :=
  h ← set_next h node node; set_prev h node node.

Definition list_add (h : gmap Z list_node) (new_node next prev : Z) : option (gmap Z list_node) :=
  h ← set_prev h next new_node;
  h ← set_prev h new_node prev;
  h ← set_next h new_node next;
  set_next h prev new_node.

Definition list_add_tail (h : gmap Z list_node) (new_node head : Z) : option (gmap Z list_node) :=
  prev ← get_prev h head; list_add h new_node head prev.

Definition list_del (h : gmap Z list_node) (node : Z) : option (gmap Z list_node) :=
  prev ← get_prev h node; next ← get_next h node;
  h ← set_next h prev next;
  next ← get_next h node; prev ← get_prev h node;
  h ← set_prev h next prev;
  h ← set_next h node node;
  set_prev h node node.

Definition list_empty (h : gmap Z list_node) (head : Z) : option bool :=
  next ← get_next h head; Some (next =? head).

(** ** The list a heap holds *)

(** Consecutive nodes point at each other. *)
Fixpoint path (h : gmap Z list_node) (l : list Z) : Prop :=
  match l with
  | a :: (b :: _) as r => get_next h a = Some b /\ get_prev h b = Some a /\ path h r
  | _ => True
  end.

Definition dlist (h : gmap Z list_node) (head : Z) (l : list Z) : Prop :=
  path h (head :: l ++ [head]) /\ NoDup (head :: l).

Lemma path_cons h a b r :
  path h (a :: b :: r) <-> get_next h a = Some b /\ get_prev h b = Some a /\ path h (b :: r).
Proof. reflexivity. Qed.

Lemma path_app h xs m ys : path h (xs ++ m :: ys) <-> path h (xs ++ [m]) /\ path h (m :: ys).
Proof.
  induction xs as [|x xs IH]; [simpl; tauto|].
  destruct xs as [|y xs]; cbn [app path] in *; [simpl; tauto|]. rewrite IH. tauto.
Qed.

(** A path sees the forward links of all its nodes but the last and the backward links of
    all but the first. *)
Lemma path_ext h h' l :
  (∀ x, x ∈ removelast l -> get_next h' x = get_next h x) ->
  (∀ x, x ∈ tail l -> get_prev h' x = get_prev h x) ->
  path h l -> path h' l.
Proof.
  induction l as [|a l IH]; [done|]. destruct l as [|b l]; [done|]. cbn [path tail].
  intros Hn Hp (E1 & E2 & Hl). split; [|split].
  - rewrite Hn; [done|]. simpl. left.
  - rewrite Hp; [done|]. left.
  - apply IH; [|simpl; intros x Hx; apply Hp; by right|done].
    intros x Hx. apply Hn. simpl in *. by right.
Qed.

Lemma get_next_dom h x y : get_next h x = Some y -> x ∈ dom h.
Proof. unfold get_next. intros E. apply elem_of_dom. destruct (h !! x); [by eexists|done]. Qed.
Lemma get_prev_dom h x y : get_prev h x = Some y -> x ∈ dom h.
Proof. unfold get_prev. intros E. apply elem_of_dom. destruct (h !! x); [by eexists|done]. Qed.

(** Stores seen as updates of the two link functions. *)
Definition upd (f : Z -> option Z) (x v y : Z) : option Z := if decide (y = x) then Some v else f y.

Lemma set_next_upd h x v : x ∈ dom h ->
  ∃ h', set_next h x v = Some h' /\ dom h' = dom h /\
    (∀ y, get_next h' y = upd (get_next h) x v y) /\ (∀ y, get_prev h' y = get_prev h y).
Proof.
  intros Hx. apply elem_of_dom in Hx as [n E]. unfold set_next. rewrite E.
  eexists. split; [done|]. split; [apply dom_insert_lookup_L; by eexists|].
  unfold get_next, get_prev, upd. split; intros y; destruct (decide (y = x)) as [->|];
    by rewrite ?lookup_insert_eq, ?lookup_insert_ne, ?E.
Qed.

Lemma set_prev_upd h x v : x ∈ dom h ->
  ∃ h', set_prev h x v = Some h' /\ dom h' = dom h /\
    (∀ y, get_prev h' y = upd (get_prev h) x v y) /\ (∀ y, get_next h' y = get_next h y).
Proof.
  intros Hx. apply elem_of_dom in Hx as [n E]. unfold set_prev. rewrite E.
  eexists. split; [done|]. split; [apply dom_insert_lookup_L; by eexists|].
  unfold get_next, get_prev, upd. split; intros y; destruct (decide (y = x)) as [->|];
    by rewrite ?lookup_insert_eq, ?lookup_insert_ne, ?E.
Qed.

Lemma upd_eq f x v : upd f x v x = Some v.
Proof. unfold upd. by rewrite decide_True. Qed.
Lemma upd_ne f x v y : y ≠ x -> upd f x v y = f y.
Proof. intros. unfold upd. by rewrite decide_False. Qed.

(** The links after an insertion between [p] and [q]. *)
Lemma list_add_links h new q p :
  new ∈ dom h -> p ∈ dom h -> q ∈ dom h ->
  ∃ h', list_add h new q p = Some h' /\ dom h' = dom h /\
    (∀ y, get_next h' y = upd (upd (get_next h) new q) p new y) /\
    (∀ y, get_prev h' y = upd (upd (get_prev h) q new) new p y).
Proof.
  intros Hn Hp Hq. unfold list_add.
  destruct (set_prev_upd h q new Hq) as (h1 & -> & D1 & P1 & N1).
  destruct (set_prev_upd h1 new p) as (h2 & E2 & D2 & P2 & N2); [by rewrite D1|].
  destruct (set_next_upd h2 new q) as (h3 & E3 & D3 & N3 & P3); [by rewrite D2, D1|].
  destruct (set_next_upd h3 p new) as (h4 & E4 & D4 & N4 & P4); [by rewrite D3, D2, D1|].
  exists h4. cbn [mbind option_bind]. rewrite E2. cbn [mbind option_bind]. rewrite E3.
  cbn [mbind option_bind]. split; [done|]. split; [congruence|]. split; intros y.
  - rewrite N4. unfold upd. rewrite N3. unfold upd. by rewrite N2, N1.
  - rewrite P4, P3, P2. unfold upd. by rewrite P1.
Qed.

(** The links after a removal of [x] between [p] and [q]. *)
Lemma list_del_links h x p q :
  get_prev h x = Some p -> get_next h x = Some q -> x ≠ p -> p ∈ dom h -> q ∈ dom h ->
  ∃ h', list_del h x = Some h' /\ dom h' = dom h /\
    (∀ y, get_next h' y = upd (upd (get_next h) p q) x x y) /\
    (∀ y, get_prev h' y = upd (upd (get_prev h) q p) x x y).
Proof.
  intros Ep Eq Hne Hp Hq. pose proof (get_prev_dom _ _ _ Ep) as Hx. unfold list_del.
  rewrite Ep, Eq. cbn [mbind option_bind].
  destruct (set_next_upd h p q Hp) as (h1 & -> & D1 & N1 & P1). cbn [mbind option_bind].
  rewrite N1, upd_ne, P1, Eq, Ep by done. cbn [mbind option_bind].
  destruct (set_prev_upd h1 q p) as (h2 & -> & D2 & P2 & N2); [by rewrite D1|].
  destruct (set_next_upd h2 x x) as (h3 & E3 & D3 & N3 & P3); [by rewrite D2, D1|].
  destruct (set_prev_upd h3 x x) as (h4 & E4 & D4 & P4 & N4); [by rewrite D3, D2, D1|].
  exists h4. cbn [mbind option_bind]. rewrite E3. cbn [mbind option_bind].
  split; [done|]. split; [congruence|]. split; intros y.
  - rewrite N4, N3. unfold upd. by rewrite N2, N1.
  - rewrite P4. unfold upd. rewrite P3, P2. unfold upd. by rewrite P1.
Qed.

Lemma removelast_mid (xs ys : list Z) p q :
  removelast (xs ++ p :: q :: ys) = xs ++ p :: removelast (q :: ys).
Proof. rewrite removelast_app by done. done. Qed.

Lemma tail_mid (xs : list Z) p (r : list Z) : tail (xs ++ p :: r) = tail (xs ++ [p]) ++ r.
Proof. destruct xs; simpl; [done|]. by rewrite <- app_assoc. Qed.

(** No node but the two ends occurs twice on the cycle. *)
Definition cycle (c : list Z) : Prop := NoDup (removelast c) /\ NoDup (tail c).

Lemma cycle_mid xs p q ys :
  cycle (xs ++ p :: q :: ys) ->
  (p ∉ xs) /\ (p ∉ removelast (q :: ys)) /\ (q ∉ tail (xs ++ [p])) /\ (q ∉ ys).
Proof.
  intros [H1 H2]. rewrite removelast_mid in H1. rewrite tail_mid in H2.
  apply NoDup_app in H1 as (_ & H1 & H1'). apply NoDup_app in H2 as (_ & H2 & H2').
  apply NoDup_cons in H1' as [H3 _]. apply NoDup_cons in H2' as [H4 _].
  split; [intros Hp; apply (H1 p Hp); left|]. split; [done|].
  split; [intros Hq; apply (H2 q Hq); left|done].
Qed.

Lemma removelast_in (x : Z) l : x ∈ removelast l -> x ∈ l.
Proof.
  induction l as [|a l IH]; [done|]. destruct l as [|b l]; [intros H; by apply not_elem_of_nil in H|].
  intros H. apply elem_of_cons in H as [->|H]; [left|right; by apply IH].
Qed.

Lemma tail_in (x : Z) l : x ∈ tail l -> x ∈ l.
Proof. destruct l; [done|]. by right. Qed.

Lemma path_add h new xs p q ys :
  path h (xs ++ p :: q :: ys) -> cycle (xs ++ p :: q :: ys) -> new ∉ xs ++ p :: q :: ys ->
  new ∈ dom h ->
  ∃ h', list_add h new q p = Some h' /\ dom h' = dom h /\ path h' (xs ++ p :: new :: q :: ys).
Proof.
  intros Hpath Hc Hnew Hd. destruct (cycle_mid _ _ _ _ Hc) as (C1 & C2 & C3 & C4).
  rewrite path_app in Hpath. destruct Hpath as [Ha (Epq & Eqp & Hb)].
  destruct (list_add_links h new q p Hd (get_next_dom _ _ _ Epq) (get_prev_dom _ _ _ Eqp))
    as (h' & E & D & N & P). exists h'. split; [done|]. split; [done|].
  assert (∀ y, y ∈ xs ++ p :: q :: ys -> y ≠ new) as Hne by (intros y Hy ->; done).
  apply path_app. split; [|apply path_cons; split; [|split; [|apply path_cons; split; [|split]]]].
  - apply (path_ext h); [| |done]; intros y Hy.
    + rewrite removelast_last in Hy. rewrite N, upd_ne, upd_ne; [done| |].
      * apply Hne. apply elem_of_app. by left.
      * intros ->. done.
    + rewrite P, upd_ne, upd_ne; [done| |].
      * intros ->. done.
      * apply Hne. apply tail_in in Hy. apply elem_of_app in Hy as [Hy|Hy]; apply elem_of_app;
          [by left|right]. apply list_elem_of_singleton in Hy as ->. left.
  - by rewrite N, upd_eq.
  - by rewrite P, upd_eq.
  - rewrite N, upd_ne, upd_eq; [done|]. intros ->. apply Hnew, elem_of_app. right. left.
  - rewrite P, upd_ne, upd_eq; [done|]. apply Hne, elem_of_app. right. right. left.
  - apply (path_ext h); [| |done]; intros y Hy.
    + rewrite N, upd_ne, upd_ne; [done| |].
      * apply Hne, elem_of_app. right. right. by apply removelast_in.
      * intros ->. done.
    + simpl in Hy. rewrite P, upd_ne, upd_ne; [done| |].
      * intros ->. done.
      * apply Hne, elem_of_app. right. right. by right.
Qed.

Lemma path_del h x xs p q ys :
  path h (xs ++ p :: x :: q :: ys) -> cycle (xs ++ p :: q :: ys) -> x ∉ xs ++ p :: q :: ys ->
  ∃ h', list_del h x = Some h' /\ dom h' = dom h /\ path h' (xs ++ p :: q :: ys) /\
        get_next h' x = Some x /\ get_prev h' x = Some x.
Proof.
  intros Hpath Hc Hnew. destruct (cycle_mid _ _ _ _ Hc) as (C1 & C2 & C3 & C4).
  rewrite path_app in Hpath. destruct Hpath as [Ha (Epx & Exp & Exq & Eqx & Hb)].
  assert (∀ y, y ∈ xs ++ p :: q :: ys -> y ≠ x) as Hne by (intros y Hy ->; done).
  assert (p ∈ xs ++ p :: q :: ys) as Hpin by (apply elem_of_app; right; left).
  assert (q ∈ xs ++ p :: q :: ys) as Hqin by (apply elem_of_app; right; right; left).
  destruct (list_del_links h x p q Exp Exq) as (h' & E & D & N & P);
    [intros ->; by apply (Hne p)|by eapply get_next_dom|by eapply get_prev_dom|].
  exists h'. split; [done|]. split; [done|]. split; [|by rewrite N, P, !upd_eq].
  apply path_app. split; [|apply path_cons; split; [|split]].
  - apply (path_ext h); [| |done]; intros y Hy.
    + rewrite removelast_last in Hy. rewrite N, upd_ne, upd_ne; [done| |].
      * intros ->. done.
      * apply Hne. apply elem_of_app. by left.
    + rewrite P, upd_ne, upd_ne; [done| |].
      * intros ->. done.
      * apply Hne. apply tail_in in Hy. apply elem_of_app in Hy as [Hy|Hy]; apply elem_of_app;
          [by left|right]. apply list_elem_of_singleton in Hy as ->. left.
  - by rewrite N, upd_ne, upd_eq by auto.
  - by rewrite P, upd_ne, upd_eq by auto.
  - apply (path_ext h); [| |done]; intros y Hy.
    + rewrite N, upd_ne, upd_ne; [done| |].
      * intros ->. done.
      * apply Hne, elem_of_app. right. right. by apply removelast_in.
    + simpl in Hy. rewrite P, upd_ne, upd_ne; [done| |].
      * intros ->. done.
      * apply Hne, elem_of_app. right. right. by right.
Qed.

(** ** The operations on a list *)

Lemma dlist_cycle head l : NoDup (head :: l) -> cycle (head :: l ++ [head]).
Proof.
  intros H. split.
  - by rewrite app_comm_cons, removelast_last.
  - simpl. by rewrite Permutation_app_comm.
Qed.

(** The two neighbours of a gap. *)
Lemma gap (head : Z) (l1 l2 : list Z) :
  ∃ xs p q ys, head :: l1 = xs ++ [p] /\ l2 ++ [head] = q :: ys /\
    head :: (l1 ++ l2) ++ [head] = xs ++ p :: q :: ys.
Proof.
  destruct (exists_last (l := head :: l1)) as (xs & p & E1); [done|].
  destruct (l2 ++ [head]) as [|q ys] eqn:E2; [by destruct l2|].
  exists xs, p, q, ys. split; [done|]. split; [done|].
  rewrite <- app_assoc, app_comm_cons, E1, E2, <- app_assoc. done.
Qed.

Lemma dlist_next_head h head l : dlist h head l -> get_next h head = Some (hd head l).
Proof. intros [Hp _]. destruct l; cbn [app path] in Hp; apply Hp. Qed.

(** Insertion in front of [q], the first node of [l2] or the head. *)
Lemma dlist_insert h head l1 l2 new p :
  dlist h head (l1 ++ l2) -> new ∉ head :: l1 ++ l2 -> new ∈ dom h ->
  get_prev h (hd head l2) = Some p ->
  ∃ h', list_add h new (hd head l2) p = Some h' /\ dom h' = dom h /\ dlist h' head (l1 ++ new :: l2).
Proof.
  intros [Hpath Hnd] Hnew Hd Hprev. destruct (gap head l1 l2) as (xs & p' & q & ys & E1 & E2 & E3).
  rewrite E3 in Hpath. pose proof (dlist_cycle head _ Hnd) as Hc. rewrite E3 in Hc.
  assert (hd head l2 = q) as Eq by (destruct l2; by injection E2).
  assert (p' = p) as ->.
  { rewrite path_app in Hpath. destruct Hpath as [_ Hpath]. apply path_cons in Hpath as (_ & Ep & _).
    rewrite Eq in Hprev. congruence. }
  destruct (path_add h new xs p q ys) as (h' & Ea & D & P); [done..| |done|].
  { rewrite <- E3. intros Hin. apply Hnew. set_solver. }
  exists h'. rewrite Eq. split; [done|]. split; [done|]. split.
  - replace (head :: (l1 ++ new :: l2) ++ [head]) with (xs ++ p :: new :: q :: ys); [done|].
    rewrite <- app_assoc. cbn [app]. rewrite app_comm_cons, E1, E2, <- app_assoc. done.
  - rewrite app_comm_cons, <- Permutation_middle. constructor; [exact Hnew|exact Hnd].
Qed.

Lemma dlist_prev h head l1 l2 : dlist h head (l1 ++ l2) -> ∃ p, get_prev h (hd head l2) = Some p.
Proof.
  intros [Hpath _]. destruct (gap head l1 l2) as (xs & p & q & ys & _ & E2 & E3).
  rewrite E3, path_app in Hpath. destruct Hpath as [_ Hpath].
  apply path_cons in Hpath as (_ & Ep & _). exists p. destruct l2; by injection E2 as -> _.
Qed.

Lemma dlist_remove h head l1 l2 x :
  dlist h head (l1 ++ x :: l2) ->
  ∃ h', list_del h x = Some h' /\ dom h' = dom h /\ dlist h' head (l1 ++ l2) /\ dlist h' x [].
Proof.
  intros [Hpath Hnd]. destruct (gap head l1 l2) as (xs & p & q & ys & E1 & E2 & E3).
  rewrite app_comm_cons, <- Permutation_middle in Hnd. apply NoDup_cons in Hnd as [Hx Hnd].
  pose proof (dlist_cycle head (l1 ++ l2) Hnd) as Hc. rewrite E3 in Hc.
  assert (head :: (l1 ++ x :: l2) ++ [head] = xs ++ p :: x :: q :: ys) as E4.
  { rewrite <- app_assoc. cbn [app]. rewrite app_comm_cons, E1, E2, <- app_assoc. done. }
  rewrite E4 in Hpath. destruct (path_del h x xs p q ys) as (h' & Ed & D & P & Sn & Sp); [done..| |].
  { rewrite <- E3. intros Hin. apply Hx. cbn [app]. set_solver. }
  exists h'. split; [done|]. split; [done|]. split; split; rewrite ?E3; try done.
  apply NoDup_singleton.
Qed.

Lemma list_empty_spec h head l : dlist h head l -> list_empty h head = Some (bool_decide (l = [])).
Proof.
  intros H. unfold list_empty. rewrite (dlist_next_head h head l H). cbn [mbind option_bind].
  f_equal. destruct H as [_ Hnd]. destruct l as [|x l]; simpl; [by rewrite Z.eqb_refl|].
  apply NoDup_cons in Hnd as [Hnd _]. destruct (Z.eqb_spec x head) as [->|]; [|done].
  exfalso. apply Hnd. left.
Qed.

Lemma list_init_spec h node : node ∈ dom h ->
  ∃ h', list_init h node = Some h' /\ dom h' = dom h /\ dlist h' node [].
Proof.
  intros Hd. unfold list_init. destruct (set_next_upd h node node Hd) as (h1 & -> & D1 & N1 & P1).
  destruct (set_prev_upd h1 node node) as (h2 & E2 & D2 & P2 & N2); [by rewrite D1|].
  exists h2. cbn [mbind option_bind]. split; [done|]. split; [congruence|].
  split; [|apply NoDup_singleton]. cbn. by rewrite N2, N1, P2, !upd_eq.
Qed.

(** ** Sequences of operations *)

Inductive list_op :=
  | LAddTail (n : Z)
  | LAddBefore (n pos : Z)   (** list_add(n, pos, pos->prev) *)
  | LDel (n : Z).

Definition list_exec (h : gmap Z list_node) (head : Z) (op : list_op) : option (gmap Z list_node) :=
  match op with
  | LAddTail n => list_add_tail h n head
  | LAddBefore n pos => p ← get_prev h pos; list_add h n pos p
  | LDel n => list_del h n
  end.

Fixpoint insert_before (n pos : Z) (l : list Z) : list Z :=
  match l with
  | [] => [n]
  | x :: r => if x =? pos then n :: l else x :: insert_before n pos r
  end.

Definition abs_exec (l : list Z) (op : list_op) : list Z :=
  match op with
  | LAddTail n => l ++ [n]
  | LAddBefore n pos => insert_before n pos l
  | LDel n => filter (fun x => x ≠ n) l
  end.

(** The callers' discipline: a node is added once, a removed node is on the list, and the
    position is a node of the list or its head. *)
Definition op_ok (nodes : gset Z) (head : Z) (l : list Z) (op : list_op) : Prop :=
  match op with
  | LAddTail n => n ∈ nodes /\ n ∉ head :: l
  | LAddBefore n pos => n ∈ nodes /\ (n ∉ head :: l) /\ pos ∈ head :: l
  | LDel n => n ∈ l
  end.

Fixpoint ops_ok (nodes : gset Z) (head : Z) (l : list Z) (ops : list list_op) : Prop :=
  match ops with
  | [] => True
  | op :: ops => op_ok nodes head l op /\ ops_ok nodes head (abs_exec l op) ops
  end.

Fixpoint list_run (h : gmap Z list_node) (head : Z) (ops : list list_op) : option (gmap Z list_node) :=
  match ops with
  | [] => Some h
  | op :: ops => h ← list_exec h head op; list_run h head ops
  end.

Lemma insert_before_split n pos l :
  NoDup l -> pos ∈ l -> ∃ l1 l2, l = l1 ++ pos :: l2 /\ insert_before n pos l = l1 ++ n :: pos :: l2.
Proof.
  induction l as [|x l IH]; intros Hnd Hin; [by apply not_elem_of_nil in Hin|]. simpl.
  apply NoDup_cons in Hnd as [Hx Hnd]. destruct (Z.eqb_spec x pos) as [->|Hne]; [by exists [], l|].
  apply elem_of_cons in Hin as [->|Hin]; [done|].
  destruct (IH Hnd Hin) as (l1 & l2 & E1 & E2). exists (x :: l1), l2. simpl. by rewrite E1, <- E1, E2.
Qed.

Lemma insert_before_absent n pos l : pos ∉ l -> insert_before n pos l = l ++ [n].
Proof.
  induction l as [|x l IH]; intros H; simpl; [done|].
  apply not_elem_of_cons in H as [Hne H]. destruct (Z.eqb_spec x pos); [done|by rewrite IH].
Qed.

Lemma filter_absent (n : Z) (l : list Z) : n ∉ l -> filter (fun x => x ≠ n) l = l.
Proof.
  induction l as [|x l IH]; intros H; [done|]. apply not_elem_of_cons in H as [Hne H].
  rewrite filter_cons, IH by done. by destruct (decide (x ≠ n)).
Qed.

Lemma list_exec_refines h head l op :
  dlist h head l -> op_ok (dom h) head l op ->
  ∃ h', list_exec h head op = Some h' /\ dom h' = dom h /\ dlist h' head (abs_exec l op).
Proof.
  intros Hl Hok.
  assert (∀ n, n ∈ dom h -> n ∉ head :: l -> ∃ h', list_add_tail h n head = Some h' /\
            dom h' = dom h /\ dlist h' head (l ++ [n])) as Htail.
  { intros n Hd Hn. rewrite <- (app_nil_r l) in Hl, Hn. destruct (dlist_prev h head l [] Hl) as [p Ep].
    unfold list_add_tail. cbn [hd] in Ep. rewrite Ep. cbn [mbind option_bind].
    by apply (dlist_insert h head l [] n p). }
  destruct op as [n|n pos|n]; cbn [op_ok list_exec abs_exec] in *.
  - destruct Hok. by apply Htail.
  - destruct Hok as (Hd & Hn & Hpos). pose proof Hl as [_ Hnd]. apply NoDup_cons in Hnd as [Hh Hnd].
    apply elem_of_cons in Hpos as [->|Hpos]; [rewrite insert_before_absent by done; by apply Htail|].
    destruct (insert_before_split n pos l Hnd Hpos) as (l1 & l2 & -> & ->).
    destruct (dlist_prev h head l1 (pos :: l2) Hl) as [p Ep]. cbn [hd] in Ep. rewrite Ep.
    cbn [mbind option_bind]. by apply (dlist_insert h head l1 (pos :: l2) n p).
  - apply list_elem_of_split in Hok as (l1 & l2 & ->).
    destruct (dlist_remove h head l1 l2 n Hl) as (h' & E & D & Hl' & _). exists h'.
    split; [done|]. split; [done|]. destruct Hl as [_ Hnd].
    rewrite app_comm_cons, <- Permutation_middle in Hnd. apply NoDup_cons in Hnd as [Hx _].
    rewrite filter_app, filter_cons. rewrite decide_False by (intros H; by apply H).
    by rewrite !filter_absent by set_solver.
Qed.

(** The intrusive list implements a list. From a list head, every sequence of tail
    insertions, insertions before a node and removals that respects the discipline (a node is
    not added while it is on the list, only nodes of the list are removed or used as
    positions) runs without touching a missing node, and leaves a well-formed circular list
    holding exactly the nodes, in the order, of the abstract list; [list_empty] tells
    whether it is empty. *)
Theorem ilist_refines h head l ops :
  dlist h head l -> ops_ok (dom h) head l ops ->
  ∃ h', list_run h head ops = Some h' /\ dlist h' head (foldl abs_exec l ops) /\
        list_empty h' head = Some (bool_decide (foldl abs_exec l ops = [])).
Proof.
  revert h l. induction ops as [|op ops IH]; intros h l Hl Hok; cbn [list_run foldl].
  - exists h. split; [done|]. split; [done|]. by apply list_empty_spec.
  - destruct Hok as [Hop Hok]. destruct (list_exec_refines h head l op Hl Hop) as (h1 & -> & D & Hl1).
    cbn [mbind option_bind]. apply IH; [done|by rewrite D].
Qed.

Definition demo_heap : gmap Z list_node :=
  <[1 := mk_ln 1 1]> (<[2 := mk_ln 0 0]> (<[3 := mk_ln 0 0]> ∅)).

Lemma ilist_refines_witness :
  ∃ h', list_run demo_heap 1 [LAddTail 2; LAddBefore 3 2; LDel 2] = Some h' /\
        dlist h' 1 (foldl abs_exec [] [LAddTail 2; LAddBefore 3 2; LDel 2]) /\
        list_empty h' 1
          = Some (bool_decide (foldl abs_exec [] [LAddTail 2; LAddBefore 3 2; LDel 2] = [])).
Proof.
  apply (ilist_refines demo_heap 1 [] [LAddTail 2; LAddBefore 3 2; LDel 2]).
  - split; [vm_compute; tauto|apply NoDup_singleton].
  - unfold demo_heap. repeat split; try set_solver.
Defined.
