(* ===== verification/XtaskPreempt.v ===== *)
(** * The preemptive scheduler

    Models src/time_slice/task/xtask_preempt.c (without CONFIG_XTASK_COROUTINE) and [MINI_CLZ]
    of src/core/include/compiler_compat.h.  The intrusive lists are lists of pool indices,
    justified by the list refinement of IList; the critical sections make the list operations
    of [x_task_run_preempt] and of the creation atomic against the tick interrupt.  [idle_wfi],
    which runs when no task is ready, has none: it is cut at its accesses, down to the
    [x_scheduler_tick] it calls from the main loop.  A run is a sequence of steps in which
    ticks come anywhere.  Timer and device calls are inputs. *)

From S2P Require Import Prelude Status.
From Stdlib Require Import Sorted.

#[local] Open Scope Z_scope.

(** ** Count of leading zeros: the loop used on Cortex-M0 *)

Definition clz_round (acc : Z * Z) (shift : Z) : Z * Z :=
  let '(x, count) := acc in
  let val := Z.shiftr x shift in
  if val =? 0 then (x, count) else (val, count - shift).

Definition MINI_CLZ (x : Z) : Z :=
  if x =? 0 then 32 else (foldl clz_round (x, 31) [16; 8; 4; 2; 1]).2.

(** ** State *)

Definition X_PREEMPT_PRIO_LEVELS : Z := 32.
Definition X_PREEMPT_PRIO_PER_GROUP : Z := 8.
Definition X_PREEMPT_PRIO_GROUP : Z := X_PREEMPT_PRIO_LEVELS / X_PREEMPT_PRIO_PER_GROUP.
Definition MAX_TASKS : nat := 8.

(** A pool slot; [pt_name] is the test [name != NULL]. *)
Record x_preempt_task := mk_pt {
  pt_name : bool; pt_period : Z; pt_next_running : Z; pt_priority : Z
}.

Definition task_zero : x_preempt_task := mk_pt false 0 0 0.

Record x_preempt_priv := mk_pp {
  pp_tick_count : Z;
  pp_group_bitmap : Z;
  pp_ready : list (list nat);    (** ready_head[group] *)
  pp_sleep : list nat;           (** sleep_head *)
  pp_tim : Z;                    (** 0 is NULL *)
  pp_tick_period : Z;
  pp_tick_delay : Z;
  pp_oneshot_ticks : Z;
  pp_systick_active : bool;
  pp_task : list x_preempt_task
}.

Definition with_queues (s : x_preempt_priv) (bitmap : Z) (ready : list (list nat)) (sleep : list nat)
    : x_preempt_priv :=
  mk_pp (pp_tick_count s) bitmap ready sleep (pp_tim s) (pp_tick_period s) (pp_tick_delay s)
    (pp_oneshot_ticks s) (pp_systick_active s) (pp_task s).
Definition with_tick (s : x_preempt_priv) (t : Z) : x_preempt_priv :=
  mk_pp t (pp_group_bitmap s) (pp_ready s) (pp_sleep s) (pp_tim s) (pp_tick_period s)
    (pp_tick_delay s) (pp_oneshot_ticks s) (pp_systick_active s) (pp_task s).
Definition with_pool (s : x_preempt_priv) (pool : list x_preempt_task) : x_preempt_priv :=
  mk_pp (pp_tick_count s) (pp_group_bitmap s) (pp_ready s) (pp_sleep s) (pp_tim s)
    (pp_tick_period s) (pp_tick_delay s) (pp_oneshot_ticks s) (pp_systick_active s) pool.
Definition with_oneshot (s : x_preempt_priv) (n : Z) : x_preempt_priv :=
  mk_pp (pp_tick_count s) (pp_group_bitmap s) (pp_ready s) (pp_sleep s) (pp_tim s)
    (pp_tick_period s) (pp_tick_delay s) n (pp_systick_active s) (pp_task s).

Definition priority_of (pool : list x_preempt_task) (t : nat) : Z :=
  pt_priority (default task_zero (pool !! t)).
Definition deadline_of (pool : list x_preempt_task) (t : nat) : Z :=
  pt_next_running (default task_zero (pool !! t)).

(** ** Queues *)

Definition prio_group (priority : Z) : Z := priority / X_PREEMPT_PRIO_PER_GROUP.

(** The list walk of both insertions: before the first node that satisfies [stop]. *)
Fixpoint insert_at (stop : nat -> bool) (t : nat) (q : list nat) : list nat :=
  match q with
  | [] => [t]
  | cur :: r => if stop cur then t :: q else cur :: insert_at stop t r
  end.

Definition insert_ready (pool : list x_preempt_task) (t : nat) (q : list nat) : list nat :=
  insert_at (fun cur => priority_of pool cur <=? priority_of pool t) t q.

Definition ready_insert (s : x_preempt_priv) (t : nat) : option x_preempt_priv :=
  let group := prio_group (priority_of (pp_task s) t) in
  q ← arr_get (pp_ready s) group;
  ready ← arr_set (pp_ready s) group (insert_ready (pp_task s) t q);
  Some (with_queues s (Z.lor (pp_group_bitmap s) (Z.shiftl 1 group)) ready (pp_sleep s)).

Definition ready_remove (s : x_preempt_priv) (t : nat) : option x_preempt_priv :=
  let group := prio_group (priority_of (pp_task s) t) in
  q ← arr_get (pp_ready s) group;
  let q := filter (fun x => x ≠ t) q in
  ready ← arr_set (pp_ready s) group q;
  Some (with_queues s
    (match q with
     | [] => Z.land (pp_group_bitmap s) (Z.lnot (Z.shiftl 1 group))
     | _ => pp_group_bitmap s
     end) ready (pp_sleep s)).

(** The deadlines are compared as unsigned numbers. *)
Definition insert_sleep (pool : list x_preempt_task) (t : nat) (q : list nat) : list nat :=
  insert_at (fun cur => deadline_of pool cur >? deadline_of pool t) t q.

Definition sleep_insert (s : x_preempt_priv) (t : nat) : x_preempt_priv :=
  with_queues s (pp_group_bitmap s) (pp_ready s) (insert_sleep (pp_task s) t (pp_sleep s)).

(** The highest-priority ready task; the outer [option] is the array access. *)
Definition ready_highest (s : x_preempt_priv) : option (option nat) :=
  if pp_group_bitmap s =? 0 then Some None else
  q ← arr_get (pp_ready s) (u32 (31 - MINI_CLZ (pp_group_bitmap s)));
  Some (head q).

(** [(int32_t)(next_running - tick_count) > 0]. *)
Definition not_due (deadline tick : Z) : bool := s32 (deadline - tick) >? 0.

(** The loop of [wakeup_due] over the sleep list [l]. *)
Fixpoint wakeup_loop (s : x_preempt_priv) (l : list nat) : option x_preempt_priv :=
  match l with
  | [] => Some (with_queues s (pp_group_bitmap s) (pp_ready s) [])
  | t :: r =>
      if not_due (deadline_of (pp_task s) t) (pp_tick_count s)
      then Some (with_queues s (pp_group_bitmap s) (pp_ready s) l)
      else s ← ready_insert s t; wakeup_loop s r
  end.

Definition wakeup_due (s : x_preempt_priv) : option x_preempt_priv := wakeup_loop s (pp_sleep s).

Definition x_scheduler_tick (s : x_preempt_priv) (ms : Z) : option x_preempt_priv :=
  wakeup_due (with_tick s (u32 (pp_tick_count s + ms))).

(** ** Interface *)

Definition xscheduler_early_init (pool : list x_preempt_task) : x_preempt_priv :=
  mk_pp 0 0 (replicate (Z.to_nat X_PREEMPT_PRIO_GROUP) []) [] 0 0 1 1 false pool.

Fixpoint free_slot (i : nat) (pool : list x_preempt_task) : option nat :=
  match pool with
  | [] => None
  | t :: r => if pt_name t then free_slot (S i) r else Some i
  end.

(** The handle is the pool index; [None] is the handle 0. *)
Definition x_scheduler_task_create (s : x_preempt_priv) (name cb : bool) (period_ms priority : Z)
    : option nat * x_preempt_priv :=
  if negb cb || negb name || (priority >=? X_PREEMPT_PRIO_LEVELS) then (None, s) else
  match free_slot 0 (pp_task s) with
  | None => (None, s)
  | Some i =>
      let t := mk_pt true period_ms (u32 (pp_tick_count s + period_ms)) (u8 priority) in
      (Some i, sleep_insert (with_pool s (<[i := t]> (pp_task s))) i)
  end.

(** [x_task_run_preempt] in its three parts: take the highest task, store its next deadline
    after the callback, put it to sleep. *)
Definition run_pick (s : x_preempt_priv) : option (option nat * x_preempt_priv) :=
  t ← ready_highest s;
  match t with
  | None => Some (None, s)
  | Some t => s ← ready_remove s t; Some (Some t, s)
  end.

Definition run_store (s : x_preempt_priv) (t : nat) : x_preempt_priv :=
  with_pool s (alter (fun p => mk_pt (pt_name p) (pt_period p)
                        (u32 (pp_tick_count s + pt_period p)) (pt_priority p)) t (pp_task s)).

Definition run_sleep (s : x_preempt_priv) (t : nat) : x_preempt_priv := sleep_insert s t.

(** What the main loop is doing between its atomic steps.  From [WfiEnter] on it is inside
    [idle_wfi], from [WfiTick] to [WfiReady] inside the [x_scheduler_tick] called there. *)
Inductive phase :=
  | Idle | InCallback (t : nat) | Stored (t : nat)
  | WfiEnter
  | WfiHead (deadline : Z)    (** with the deadline of the first sleeping task *)
  | WfiSleep                  (** the timer is armed *)
  | WfiTick (elapsed : Z)     (** before the load of tick_count *)
  | WfiCount (count : Z)      (** before its store *)
  | WfiNext                   (** in [wakeup_due], before the read of the list head *)
  | WfiDue (t : nat)          (** the head is [t]; before the test of its deadline *)
  | WfiUnlink (t : nat)       (** before list_del *)
  | WfiReady (t : nat)        (** before ready_insert *)
  | WfiRestore.

Inductive event :=
  | ETick (ms : Z)                                  (** the tick interrupt *)
  | ECreate (name cb : bool) (period priority : Z)  (** by the main loop or a callback *)
  | EPick | EStore | ESleep
  | EIdle (counter : option Z).  (** a step of [idle_wfi], with the timer's counter if it can be read *)

Definition machine : Type := x_preempt_priv * phase.

(** *** [idle_wfi] *)

(** The time to sleep until [deadline], at most what 16 bits of the timer hold. *)
Definition idle_remaining (s : x_preempt_priv) (deadline : Z) : Z :=
  let remaining := u32 (deadline - pp_tick_count s) in
  let max_sleep := 65535 / pp_tick_period s in
  if remaining >? max_sleep then max_sleep else remaining.

(** The value written to the auto-reload register; at 0 the function returns. *)
Definition idle_arr (s : x_preempt_priv) (deadline : Z) : Z :=
  u32 (pp_tick_period s * idle_remaining s deadline).

Definition idle_wfi (s : x_preempt_priv) (p : phase) (counter : option Z) : option machine :=
  match p with
  | WfiEnter =>
      Some (s, if pp_systick_active s then Idle else
               match pp_sleep s with
               | [] => Idle
               | next :: _ =>
                   if (pp_tim s =? 0) || (pp_tick_period s =? 0) then Idle
                   else WfiHead (deadline_of (pp_task s) next)
               end)
  | WfiHead d =>
      Some (if idle_arr s d =? 0 then (s, Idle) else (with_oneshot s (idle_remaining s d), WfiSleep))
  | WfiSleep =>
      Some match counter with
           | Some v =>
               let elapsed := v / pp_tick_period s in
               if (v =? 0) || negb (elapsed >? 0) then (s, WfiRestore)
               else (with_oneshot s (u32 (pp_oneshot_ticks s - elapsed)), WfiTick elapsed)
           | None => (s, WfiRestore)
           end
  | WfiTick ms => Some (s, WfiCount (u32 (pp_tick_count s + ms)))
  | WfiCount c => Some (with_tick s c, WfiNext)
  | WfiNext => Some (s, match pp_sleep s with [] => WfiRestore | t :: _ => WfiDue t end)
  | WfiDue t =>
      Some (s, if not_due (deadline_of (pp_task s) t) (pp_tick_count s) then WfiRestore else WfiUnlink t)
  | WfiUnlink t =>
      Some (with_queues s (pp_group_bitmap s) (pp_ready s) (filter (fun x => x ≠ t) (pp_sleep s)), WfiReady t)
  | WfiReady t => s ← ready_insert s t; Some (s, WfiNext)
  | WfiRestore => Some (with_oneshot s (u32 (pp_tick_delay s)), Idle)
  | _ => Some (s, p)
  end.

(** *** Runs *)

(** An event that the phase does not allow changes nothing. *)
Definition m_exec (m : machine) (e : event) : option machine :=
  let '(s, p) := m in
  match e, p with
  | ETick ms, _ => s ← x_scheduler_tick s ms; Some (s, p)
  | ECreate n c per pr, (Idle | InCallback _) => Some ((x_scheduler_task_create s n c per pr).2, p)
  | EPick, Idle =>
      '(t, s) ← run_pick s;
      Some (s, match t with Some t => InCallback t | None => WfiEnter end)
  | EStore, InCallback t => Some (run_store s t, Stored t)
  | ESleep, Stored t => Some (run_sleep s t, Idle)
  | EIdle counter, _ => idle_wfi s p counter
  | _, _ => Some m
  end.

Fixpoint m_run (m : machine) (es : list event) : option machine :=
  match es with [] => Some m | e :: es => m ← m_exec m e; m_run m es end.

(** [x_task_run_preempt] as a whole: [during] happens in the callback, [between] between the
    store and the critical section; with no task ready, [idle] are the steps of [idle_wfi]
    and the ticks among them. *)
Definition x_task_run_preempt (s : x_preempt_priv) (during between idle : list event)
    : option machine :=
  '(t, s) ← run_pick s;
  match t with
  | None => m_run (s, WfiEnter) idle
  | Some t =>
      m ← m_run (s, InCallback t) during;
      m ← m_run (run_store m.1 t, Stored t) between;
      Some (run_sleep m.1 t, Idle)
  end.

(** ** Timer *)

Definition scheduler_tim_isr_top (s : x_preempt_priv) (cleared : bool) : option x_preempt_priv :=
  if cleared then x_scheduler_tick s (pp_oneshot_ticks s) else Some s.

Definition hal_systick_irq_handler (s : x_preempt_priv) : option x_preempt_priv :=
  x_scheduler_tick s (u32 (pp_tick_delay s)).

(** The inputs of [xscheduler_start]: the timer of the chosen device once opened (0 when none),
    its auto-reload value when it can be read, its tick_delay property, whether SysTick
    starts, and the configured tick rate. *)
Record start_env := mk_env {
  en_tim : Z; en_autoreload : option Z; en_tick_delay : option Z; en_systick : bool; en_rate : Z
}.

Definition xscheduler_start (env : start_env) (s : x_preempt_priv) : x_preempt_priv :=
  if negb (en_tim env =? 0) then
    let period := match en_autoreload env with
                  | Some v => if v =? 0 then pp_tick_period s else v
                  | None => pp_tick_period s
                  end in
    let oneshot := u32 (pp_tick_delay s) in
    let delay := default (pp_tick_delay s) (en_tick_delay env) in
    mk_pp (pp_tick_count s) (pp_group_bitmap s) (pp_ready s) (pp_sleep s) (en_tim env) period
      delay oneshot (pp_systick_active s) (pp_task s)
  else if en_systick env then
    let delay := 1000 / en_rate env in
    mk_pp (pp_tick_count s) (pp_group_bitmap s) (pp_ready s) (pp_sleep s) 0 (pp_tick_period s)
      (if delay >=? 1 then delay else 1) (pp_oneshot_ticks s) true (pp_task s)
  else mk_pp (pp_tick_count s) (pp_group_bitmap s) (pp_ready s) (pp_sleep s) (en_tim env)
         (pp_tick_period s) (pp_tick_delay s) (pp_oneshot_ticks s) (pp_systick_active s) (pp_task s).

(** ** Leading zeros *)

Lemma clz_round_spec x count shift :
  0 < x < 2 ^ (2 * shift) -> 0 < shift ->
  let '(x', count') := clz_round (x, count) shift in
  0 < x' < 2 ^ shift /\ count' - Z.log2 x' = count - Z.log2 x.
Proof.
  intros Hx Hs. unfold clz_round. rewrite Z.shiftr_div_pow2 by lia.
  pose proof (pow2_pos shift) as Hp. replace (2 * shift) with (shift + shift) in Hx by lia.
  rewrite Z.pow_add_r in Hx by lia.
  destruct (Z.eqb_spec (x / 2 ^ shift) 0) as [E|E].
  - split; [|done]. apply Z.div_small_iff in E; lia.
  - assert (0 < x / 2 ^ shift) by (pose proof (Z.div_pos x (2 ^ shift)); lia).
    split; [split; [done|apply Z.div_lt_upper_bound; lia]|].
    assert (2 ^ shift <= x) by (destruct (Z.ltb_spec x (2 ^ shift)); [rewrite Z.div_small in *; lia|done]).
    assert (Z.log2 x = Z.log2 (x / 2 ^ shift) + shift); [|lia].
    rewrite <- Z.shiftr_div_pow2 by lia.
    rewrite Z.log2_shiftr by lia. pose proof (Z.log2_le_mono (2 ^ shift) x).
    rewrite Z.log2_pow2 in * by lia. lia.
Qed.

Lemma MINI_CLZ_log2 x : 0 < x < 2 ^ 32 -> MINI_CLZ x = 31 - Z.log2 x.
Proof.
  intros Hx. unfold MINI_CLZ. destruct (Z.eqb_spec x 0); [lia|]. cbn [foldl].
  pose proof (clz_round_spec x 31 16 Hx ltac:(lia)) as H.
  destruct (clz_round (x, 31) 16) as [x1 c1]. destruct H as [H1 E1].
  pose proof (clz_round_spec x1 c1 8 H1 ltac:(lia)) as H.
  destruct (clz_round (x1, c1) 8) as [x2 c2]. destruct H as [H2 E2].
  pose proof (clz_round_spec x2 c2 4 H2 ltac:(lia)) as H.
  destruct (clz_round (x2, c2) 4) as [x3 c3]. destruct H as [H3 E3].
  pose proof (clz_round_spec x3 c3 2 H3 ltac:(lia)) as H.
  destruct (clz_round (x3, c3) 2) as [x4 c4]. destruct H as [H4 E4].
  pose proof (clz_round_spec x4 c4 1 H4 ltac:(lia)) as H.
  destruct (clz_round (x4, c4) 1) as [x5 c5]. destruct H as [H5 E5].
  change (2 ^ 1) with 2 in H5. assert (x5 = 1) as -> by lia. change (Z.log2 1) with 0 in E5.
  cbn [snd]. lia.
Qed.

(** ** Queues *)

Section insertion.
Context (R : nat -> nat -> Prop) `{!Transitive R} (stop : nat -> bool) (t : nat).
Context (Hstop : ∀ c, stop c = true -> R t c) (Hgo : ∀ c, stop c = false -> R c t).

Lemma insert_at_perm q : insert_at stop t q ≡ₚ t :: q.
Proof.
  induction q as [|c q IH]; simpl; [done|]. destruct (stop c); [done|]. rewrite IH. apply perm_swap.
Qed.

Lemma insert_at_sorted q : StronglySorted R q -> StronglySorted R (insert_at stop t q).
Proof using All.
  induction 1 as [|c q Hs IH Hc]; simpl; [repeat constructor|]. destruct (stop c) eqn:E.
  - constructor; [by constructor|]. apply Hstop in E. constructor; [done|].
    eapply Forall_impl; [|exact Hc]. intros x Hx. by transitivity c.
  - constructor; [done|]. rewrite insert_at_perm. constructor; [by apply Hgo|done].
Qed.
End insertion.

Lemma concat_insert (l : list (list nat)) i q q' :
  l !! i = Some q -> ∃ rest, concat l ≡ₚ q ++ rest /\ concat (<[i := q']> l) ≡ₚ q' ++ rest.
Proof.
  revert i. induction l as [|x l IH]; intros [|i] E; simpl in *; try done.
  - injection E as ->. by exists (concat l).
  - destruct (IH i E) as (rest & H1 & H2). exists (x ++ rest). rewrite H1, H2.
    split; apply Permutation_app_swap_app.
Qed.

Definition higher (pool : list x_preempt_task) (a b : nat) : Prop :=
  priority_of pool b <= priority_of pool a.
Definition earlier (pool : list x_preempt_task) (a b : nat) : Prop :=
  deadline_of pool a <= deadline_of pool b.

#[local] Instance higher_trans pool : Transitive (higher pool).
Proof. intros a b c. unfold higher. lia. Qed.
#[local] Instance earlier_trans pool : Transitive (earlier pool).
Proof. intros a b c. unfold earlier. lia. Qed.

(** Group [g] holds the tasks of its priorities, in descending order. *)
Definition queue_ok (pool : list x_preempt_task) (g : Z) (q : list nat) : Prop :=
  Forall (fun t => prio_group (priority_of pool t) = g) q /\ StronglySorted (higher pool) q.

Definition nonempty (ready : list (list nat)) (g : Z) : bool :=
  match ready !! Z.to_nat g with Some (_ :: _) => true | _ => false end.

(** The four queues and their bitmap. *)
Record queues_ok (pool : list x_preempt_task) (ready : list (list nat)) (bitmap : Z) : Prop := {
  q_len : length ready = 4%nat;
  q_each : ∀ g q, ready !! g = Some q -> queue_ok pool (Z.of_nat g) q;
  q_nonneg : 0 <= bitmap;
  q_bits : ∀ g, 0 <= g -> Z.testbit bitmap g = nonempty ready g
}.

Lemma queues_ok_ext pool pool' ready bitmap :
  (∀ t, t ∈ concat ready -> priority_of pool' t = priority_of pool t) ->
  queues_ok pool ready bitmap -> queues_ok pool' ready bitmap.
Proof.
  intros He [H1 H2 H3 H4]. split; try done. intros g q E. destruct (H2 g q E) as [Hg Hs].
  assert (∀ t, t ∈ q -> priority_of pool' t = priority_of pool t) as Heq.
  { intros t Ht. apply He. apply list_elem_of_In, in_concat. exists q.
    split; apply list_elem_of_In; [by eapply list_elem_of_lookup_2|done]. }
  clear E H2 He. split.
  - rewrite list.Forall_forall in *. intros t Ht. rewrite Heq by done. by apply Hg.
  - clear Hg. induction Hs as [|t q Hs IH Hf]; constructor.
    + apply IH. intros x Hx. apply Heq. by right.
    + rewrite list.Forall_forall in *. intros x Hx. unfold higher in *.
      rewrite (Heq x) by (by right). rewrite (Heq t) by left. by apply Hf.
Qed.

Lemma prio_group_range p : 0 <= p < 32 -> 0 <= prio_group p < 4.
Proof.
  intros H. unfold prio_group, X_PREEMPT_PRIO_PER_GROUP. split; [apply Z.div_pos; lia|].
  apply Z.div_lt_upper_bound; lia.
Qed.

Lemma nonempty_insert ready g q h :
  0 <= g < Z.of_nat (length ready) -> 0 <= h ->
  nonempty (<[Z.to_nat g := q]> ready) h
    = if h =? g then match q with [] => false | _ => true end else nonempty ready h.
Proof.
  intros Hg Hh. unfold nonempty. destruct (Z.eqb_spec h g) as [->|].
  - rewrite list_lookup_insert_eq by lia. by destruct q.
  - by rewrite list_lookup_insert_ne by lia.
Qed.

Lemma testbit_one g h : 0 <= g -> 0 <= h -> Z.testbit (Z.shiftl 1 g) h = (h =? g).
Proof.
  intros Hg Hh. rewrite Z.shiftl_mul_pow2, Z.mul_1_l by lia. destruct (Z.eqb_spec h g) as [->|].
  - by apply Z.pow2_bits_true.
  - apply Z.pow2_bits_false. lia.
Qed.

Lemma arr_get_lookup {A} (l : list A) i :
  0 <= i < Z.of_nat (length l) -> ∃ x, arr_get l i = Some x /\ l !! Z.to_nat i = Some x.
Proof.
  intros Hi. destruct (arr_get_in l i Hi) as [x E]. exists x. split; [done|].
  apply arr_get_Some in E. apply E.
Qed.

(** Making a task ready. *)
Lemma ready_insert_spec s t :
  queues_ok (pp_task s) (pp_ready s) (pp_group_bitmap s) ->
  0 <= priority_of (pp_task s) t < 32 ->
  ∃ ready bitmap, ready_insert s t = Some (with_queues s bitmap ready (pp_sleep s)) /\
    queues_ok (pp_task s) ready bitmap /\ concat ready ≡ₚ t :: concat (pp_ready s).
Proof.
  intros [H1 H2 H3 H4] Hp. pose proof (prio_group_range _ Hp) as Hg. unfold ready_insert.
  set (g := prio_group (priority_of (pp_task s) t)) in *.
  destruct (arr_get_lookup (pp_ready s) g) as (q & -> & Eq); [lia|]. cbn [mbind option_bind].
  rewrite arr_set_in by lia. cbn [mbind option_bind]. eexists _, _. split; [done|].
  set (q' := insert_ready (pp_task s) t q).
  assert (q' ≡ₚ t :: q) as Hq' by apply insert_at_perm.
  destruct (concat_insert _ _ _ q' Eq) as (rest & Hc & Hc').
  split; [|by rewrite Hc', Hq', Hc]. destruct (H2 _ _ Eq) as [Hgq Hsq]. split.
  - by rewrite length_insert.
  - intros h qh Eh. apply list_lookup_insert_Some in Eh as [(<- & <- & _)|[Hne Eh]]; [|by apply H2].
    rewrite Z2Nat.id in * by lia. split; [rewrite Hq'; by constructor|].
    apply (insert_at_sorted (higher (pp_task s))); [| |done]; intros c Hc0; unfold higher.
    + by apply Z.leb_le.
    + apply Z.leb_gt in Hc0. lia.
  - apply Z.lor_nonneg. split; [done|]. apply Z.shiftl_nonneg. lia.
  - intros h Hh. rewrite Z.lor_spec, testbit_one, H4, nonempty_insert by lia.
    destruct (Z.eqb_spec h g) as [->|]; [|by rewrite orb_false_r].
    rewrite orb_true_r. destruct q' as [|x q'']; [|done]. by apply Permutation_nil_cons in Hq'.
Qed.

(** Taking the head of its queue. *)
Lemma ready_remove_spec s t q g :
  queues_ok (pp_task s) (pp_ready s) (pp_group_bitmap s) -> NoDup (concat (pp_ready s)) ->
  pp_ready s !! g = Some (t :: q) ->
  ∃ ready bitmap, ready_remove s t = Some (with_queues s bitmap ready (pp_sleep s)) /\
    queues_ok (pp_task s) ready bitmap /\ concat (pp_ready s) ≡ₚ t :: concat ready.
Proof.
  intros [H1 H2 H3 H4] Hnd Eq. destruct (H2 _ _ Eq) as [Hgq Hsq].
  pose proof (lookup_lt_Some _ _ _ Eq) as Hlt. unfold ready_remove.
  apply Forall_cons_1 in Hgq as [-> Hgq]. apply StronglySorted_inv in Hsq as [Hsq _].
  destruct (arr_get_lookup (pp_ready s) (Z.of_nat g)) as (q0 & -> & Eq0); [lia|].
  rewrite Nat2Z.id, Eq in Eq0. injection Eq0 as <-. cbn [mbind option_bind].
  destruct (concat_insert _ _ _ q Eq) as (rest & Hc & Hc').
  assert (filter (fun x => x ≠ t) (t :: q) = q) as ->.
  { rewrite Hc in Hnd. cbn [app] in Hnd. apply list.NoDup_cons in Hnd as [Hnt _].
    rewrite filter_cons, decide_False by (intros Hn; by apply Hn).
    assert (t ∉ q) as Htq by (intros Hin; apply Hnt, elem_of_app; by left). clear -Htq.
    induction q as [|x q IH]; [done|]. apply not_elem_of_cons in Htq as [Hne Htq].
    rewrite filter_cons, decide_True, IH by done. done. }
  rewrite arr_set_in by lia. rewrite Nat2Z.id. cbn [mbind option_bind].
  eexists _, _. split; [done|]. split; [|by rewrite Hc', Hc].
  assert (∀ h, 0 <= h -> nonempty (<[g := q]> (pp_ready s)) h
     = if h =? Z.of_nat g then match q with [] => false | _ => true end
       else Z.testbit (pp_group_bitmap s) h) as Hne.
  { intros h Hh. rewrite H4 by done. rewrite <- (Nat2Z.id g) at 1. apply nonempty_insert; lia. }
  split.
  - by rewrite length_insert.
  - intros h qh Eh. apply list_lookup_insert_Some in Eh as [(<- & <- & _)|[_ Eh]]; [|by apply H2].
    by split.
  - destruct q; [|done]. apply Z.land_nonneg. by left.
  - intros h Hh. rewrite Hne by done. destruct q as [|x q].
    + rewrite Z.land_spec, Z.lnot_spec, testbit_one by lia. destruct (h =? Z.of_nat g); simpl;
        [apply andb_false_r|apply andb_true_r].
    + destruct (Z.eqb_spec h (Z.of_nat g)) as [->|]; [|done]. rewrite H4 by lia. unfold nonempty.
      by rewrite Nat2Z.id, Eq.
Qed.

Lemma with_queues_with_queues s b r l b' r' l' :
  with_queues (with_queues s b r l) b' r' l' = with_queues s b' r' l'.
Proof. done. Qed.

Definition due (s : x_preempt_priv) (t : nat) : Prop :=
  not_due (deadline_of (pp_task s) t) (pp_tick_count s) = false.

(** [wakeup_due] wakes the longest prefix of due tasks. *)
Lemma wakeup_loop_spec l : ∀ s,
  queues_ok (pp_task s) (pp_ready s) (pp_group_bitmap s) ->
  Forall (fun t => 0 <= priority_of (pp_task s) t < 32) l ->
  ∃ ready bitmap woken rest, wakeup_loop s l = Some (with_queues s bitmap ready rest) /\
    l = woken ++ rest /\ queues_ok (pp_task s) ready bitmap /\
    concat ready ≡ₚ woken ++ concat (pp_ready s) /\ Forall (due s) woken /\
    match rest with [] => True | t :: _ => ~ due s t end.
Proof.
  induction l as [|t l IH]; intros s Hq Hp; cbn [wakeup_loop].
  - by eexists _, _, [], [].
  - apply Forall_cons_1 in Hp as [Ht Hp].
    destruct (not_due (deadline_of (pp_task s) t) (pp_tick_count s)) eqn:Ed.
    + eexists _, _, [], (t :: l). repeat (split; [done|]). unfold due. by rewrite Ed.
    + destruct (ready_insert_spec s t Hq Ht) as (r1 & b1 & -> & Hq1 & Hc1). cbn [mbind option_bind].
      destruct (IH (with_queues s b1 r1 (pp_sleep s))) as (r2 & b2 & woken & rest & E & -> & Hq2 & Hc2 & Hd & Hr);
        [done..|]. rewrite E, with_queues_with_queues.
      exists r2, b2, (t :: woken), rest. split; [done|]. split; [done|]. split; [done|].
      split; [|split; [by constructor|done]]. rewrite Hc2. cbn [with_queues pp_ready].
      rewrite Hc1. symmetry. apply Permutation_middle.
Qed.

(** ** Choosing the task to run *)

Lemma nonempty_range ready g : length ready = 4%nat -> 0 <= g -> nonempty ready g = true -> g < 4.
Proof.
  intros Hl Hg. unfold nonempty. destruct (ready !! Z.to_nat g) as [q|] eqn:E; [|done].
  apply lookup_lt_Some in E. lia.
Qed.

Lemma concat_elem (l : list (list nat)) t : t ∈ concat l <-> ∃ g q, l !! g = Some q /\ t ∈ q.
Proof.
  rewrite list_elem_of_In, in_concat. split.
  - intros (q & Hq & Ht). apply list_elem_of_In, list_elem_of_lookup in Hq as [g E].
    exists g, q. by rewrite list_elem_of_In.
  - intros (g & q & E & Ht). exists q. rewrite <- !list_elem_of_In.
    split; [by eapply list_elem_of_lookup_2|done].
Qed.

Lemma ready_highest_spec s :
  queues_ok (pp_task s) (pp_ready s) (pp_group_bitmap s) ->
  match ready_highest s with
  | None => False
  | Some None => concat (pp_ready s) = []
  | Some (Some t) =>
      (∃ g q, pp_ready s !! g = Some (t :: q)) /\
      ∀ t', t' ∈ concat (pp_ready s) -> priority_of (pp_task s) t' <= priority_of (pp_task s) t
  end.
Proof.
  intros [H1 H2 H3 H4]. unfold ready_highest. set (b := pp_group_bitmap s) in *.
  destruct (Z.eqb_spec b 0) as [E0|Hb].
  - destruct (concat (pp_ready s)) as [|t l] eqn:Ec; [done|].
    assert (t ∈ concat (pp_ready s)) as Ht by (rewrite Ec; left).
    apply concat_elem in Ht as (g & q & Eg & Ht). specialize (H4 (Z.of_nat g) ltac:(lia)).
    unfold nonempty in H4. rewrite E0, Z.bits_0, Nat2Z.id, Eg in H4.
    destruct q; [by apply not_elem_of_nil in Ht|done].
  - assert (0 < b) as Hpos by lia. pose proof (Z.log2_nonneg b) as Hlog.
    pose proof (Z.bit_log2 b Hpos) as Htop. rewrite H4 in Htop by done.
    pose proof (nonempty_range _ _ H1 Hlog Htop) as Hlog4.
    assert (b < 2 ^ 32).
    { apply Z.log2_lt_pow2; lia. }
    rewrite MINI_CLZ_log2 by lia. replace (31 - (31 - Z.log2 b)) with (Z.log2 b) by lia.
    rewrite u32_small by lia.
    destruct (arr_get_lookup (pp_ready s) (Z.log2 b)) as (q & -> & Eq); [lia|].
    cbn [mbind option_bind]. unfold nonempty in Htop. rewrite Eq in Htop.
    destruct q as [|t q]; [done|]. cbn [head]. split; [by eauto|].
    intros t' Ht'. apply concat_elem in Ht' as (g & q' & Eg & Ht').
    destruct (H2 _ _ Eq) as [Hg Hs]. destruct (H2 _ _ Eg) as [Hg' _].
    rewrite Z2Nat.id in Hg by lia. apply Forall_cons_1 in Hg as [Hg _].
    rewrite list.Forall_forall in Hg'. specialize (Hg' t' Ht').
    destruct (Z.lt_trichotomy (Z.of_nat g) (Z.log2 b)) as [Hlt|[He|Hgt]].
    + unfold prio_group, X_PREEMPT_PRIO_PER_GROUP in *. Z.to_euclidean_division_equations. lia.
    + assert (Z.to_nat (Z.log2 b) = g) as El by lia. rewrite El, Eg in Eq. injection Eq as ->.
      apply elem_of_cons in Ht' as [->|Ht']; [lia|]. apply StronglySorted_inv in Hs as [_ Hs].
      rewrite list.Forall_forall in Hs. by apply Hs.
    + exfalso. specialize (H4 (Z.of_nat g) ltac:(lia)). unfold nonempty in H4.
      rewrite Nat2Z.id, Eg in H4. rewrite (Z.bits_above_log2 b) in H4 by lia.
      destruct q'; [by apply not_elem_of_nil in Ht'|done].
Qed.

(** ** The invariant *)

Definition running (p : phase) : list nat :=
  match p with InCallback t | Stored t | WfiReady t => [t] | _ => [] end.

(** The main loop holds the head of the sleep list in its hand. *)
Definition wake_window (p : phase) : bool :=
  match p with WfiDue _ | WfiUnlink _ | WfiReady _ => true | _ => false end.
Definition head_held (s : x_preempt_priv) (p : phase) : Prop :=
  match p with WfiDue t | WfiUnlink t => head (pp_sleep s) = Some t | _ => True end.

Definition placed (m : machine) : list nat :=
  concat (pp_ready m.1) ++ pp_sleep m.1 ++ running m.2.

Definition created (pool : list x_preempt_task) (i : nat) : Prop :=
  ∃ t, pool !! i = Some t /\ pt_name t = true.

Record sched_inv (m : machine) : Prop := {
  i_prio : ∀ i t, pp_task m.1 !! i = Some t -> pt_name t = true -> 0 <= pt_priority t < 32;
  i_nodup : NoDup (placed m);
  i_placed : ∀ i, i ∈ placed m <-> created (pp_task m.1) i;
  i_queues : queues_ok (pp_task m.1) (pp_ready m.1) (pp_group_bitmap m.1);
  i_sleep : StronglySorted (earlier (pp_task m.1)) (pp_sleep m.1);
  i_held : head_held m.1 m.2
}.

Lemma inv_priority m t : sched_inv m -> t ∈ placed m -> 0 <= priority_of (pp_task m.1) t < 32.
Proof.
  intros I Ht. apply (i_placed m I) in Ht as (x & E & Hn). unfold priority_of. rewrite E.
  by apply (i_prio m I t x).
Qed.

(** A rearrangement of the tasks that keeps the queues in order. *)
Lemma sched_inv_move m m' :
  sched_inv m -> pp_task m'.1 = pp_task m.1 -> placed m' ≡ₚ placed m ->
  queues_ok (pp_task m.1) (pp_ready m'.1) (pp_group_bitmap m'.1) ->
  StronglySorted (earlier (pp_task m.1)) (pp_sleep m'.1) -> head_held m'.1 m'.2 -> sched_inv m'.
Proof.
  intros I Ep Hp Hq Hs Hh. split; rewrite ?Ep; try done.
  - apply I.
  - rewrite Hp. apply I.
  - intros i. rewrite Hp. apply (i_placed m I).
Qed.

Lemma StronglySorted_suffix {A} (R : A -> A -> Prop) l1 l2 :
  StronglySorted R (l1 ++ l2) -> StronglySorted R l2.
Proof. induction l1; [done|]. intros H. apply StronglySorted_inv in H as [H _]. auto. Qed.

Lemma held_outside s p : wake_window p = false -> head_held s p.
Proof. by destruct p. Qed.

Lemma tick_inv s p ms :
  wake_window p = false -> sched_inv (s, p) ->
  ∃ ready bitmap woken rest,
    x_scheduler_tick s ms
      = Some (with_queues (with_tick s (u32 (pp_tick_count s + ms))) bitmap ready rest) /\
    pp_sleep s = woken ++ rest /\ concat ready ≡ₚ woken ++ concat (pp_ready s) /\
    Forall (due (with_tick s (u32 (pp_tick_count s + ms)))) woken /\
    match rest with
    | [] => True
    | t :: _ => ~ due (with_tick s (u32 (pp_tick_count s + ms))) t
    end /\
    sched_inv (with_queues (with_tick s (u32 (pp_tick_count s + ms))) bitmap ready rest, p).
Proof.
  intros Hwin I. unfold x_scheduler_tick, wakeup_due. set (s1 := with_tick s _).
  destruct (wakeup_loop_spec (pp_sleep s1) s1) as (r & b & woken & rest & E & Es & Hq & Hc & Hd & Hr).
  { apply (i_queues _ I). }
  { apply list.Forall_forall. intros t Ht. apply (inv_priority _ t I).
    apply elem_of_app. right. apply elem_of_app. by left. }
  exists r, b, woken, rest. repeat (split; [done|]).
  change (pp_sleep s1) with (pp_sleep s) in Es.
  apply (sched_inv_move (s, p)); [done|done| |done| |by apply held_outside].
  - unfold placed. cbn [fst snd with_queues pp_ready pp_sleep]. rewrite Hc, Es.
    change (pp_ready s1) with (pp_ready s). rewrite <- !app_assoc. apply Permutation_app_swap_app.
  - cbn [fst with_queues pp_sleep]. apply (StronglySorted_suffix _ woken). rewrite <- Es.
    apply (i_sleep _ I).
Qed.

Lemma insert_sleep_sorted pool t q :
  StronglySorted (earlier pool) q -> StronglySorted (earlier pool) (insert_sleep pool t q).
Proof.
  apply (insert_at_sorted (earlier pool)); intros c Hc; unfold earlier; rewrite Z.gtb_ltb in Hc.
  - apply Z.ltb_lt in Hc. lia.
  - apply Z.ltb_ge in Hc. lia.
Qed.

Lemma earlier_ext pool pool' q :
  (∀ t, t ∈ q -> deadline_of pool' t = deadline_of pool t) ->
  StronglySorted (earlier pool) q -> StronglySorted (earlier pool') q.
Proof.
  intros He Hs. induction Hs as [|t q Hs IH Hf]; constructor.
  - apply IH. intros x Hx. apply He. by right.
  - rewrite list.Forall_forall in *. intros x Hx. unfold earlier in *.
    rewrite (He x) by (by right). rewrite (He t) by left. by apply Hf.
Qed.

Lemma free_slot_spec pool k i :
  free_slot k pool = Some i -> ∃ n t, i = (k + n)%nat /\ pool !! n = Some t /\ pt_name t = false.
Proof.
  revert k. induction pool as [|t pool IH]; intros k; simpl; [done|]. destruct (pt_name t) eqn:En.
  - intros E. apply IH in E as (n & t' & -> & El & Hn). exists (S n), t'. split; [lia|done].
  - intros [= <-]. exists 0%nat, t. split; [lia|done].
Qed.

Lemma create_inv s p name cb period priority :
  0 <= priority -> wake_window p = false -> sched_inv (s, p) ->
  sched_inv ((x_scheduler_task_create s name cb period priority).2, p).
Proof.
  intros Hp Hwin I. unfold x_scheduler_task_create. rewrite Z.geb_leb.
  destruct (_ || _ || _) eqn:Eg; [done|].
  apply orb_false_iff in Eg as [_ Eg]. apply Z.leb_gt in Eg. unfold X_PREEMPT_PRIO_LEVELS in Eg.
  destruct (free_slot 0 (pp_task s)) as [i|] eqn:Ef; [|done].
  apply free_slot_spec in Ef as (n & t0 & -> & El & Hn). rewrite Nat.add_0_l.
  set (t := mk_pt true period _ _). set (pool := <[n := t]> (pp_task s)).
  pose proof (lookup_lt_Some _ _ _ El) as Hlt.
  assert (n ∉ placed (s, p)) as Hnot.
  { intros Hin. apply (i_placed _ I) in Hin as (t' & El' & Hn'). simpl in El'. congruence. }
  assert (∀ j, j ≠ n -> pool !! j = pp_task s !! j) as Hne.
  { intros j Hj. unfold pool. by rewrite list_lookup_insert_ne. }
  assert (pool !! n = Some t) as Hself by (unfold pool; by apply list_lookup_insert_eq).
  assert (placed (sleep_insert (with_pool s pool) n, p) ≡ₚ n :: placed (s, p)) as Hperm.
  { unfold placed. cbn [fst snd sleep_insert with_queues with_pool pp_ready pp_sleep pp_task].
    unfold insert_sleep. rewrite insert_at_perm. cbn [app]. by rewrite <- Permutation_middle. }
  cbn [snd]. split.
  - intros j t' Ej Hn'. cbn [fst sleep_insert with_queues with_pool pp_task] in Ej.
    destruct (decide (j = n)) as [->|Hj].
    + rewrite Hself in Ej. injection Ej as <-. cbn [t pt_priority]. unfold u8.
      rewrite Z.mod_small by lia. lia.
    + rewrite Hne in Ej by done. by apply (i_prio _ I j t').
  - rewrite Hperm. constructor; [done|apply I].
  - intros j. rewrite Hperm, elem_of_cons, (i_placed _ I). unfold created.
    cbn [fst sleep_insert with_queues with_pool pp_task]. destruct (decide (j = n)) as [->|Hj].
    + split; [intros _; by exists t|by left].
    + rewrite Hne by done. split; [intros [?|?]; done|by right].
  - cbn [fst sleep_insert with_queues with_pool pp_task pp_ready pp_group_bitmap].
    apply (queues_ok_ext (pp_task s)); [|apply (i_queues _ I)]. intros j Hj. unfold priority_of.
    rewrite Hne; [done|]. intros ->. apply Hnot. unfold placed. apply elem_of_app. by left.
  - cbn [fst sleep_insert with_queues with_pool pp_task pp_sleep]. apply insert_sleep_sorted.
    apply (earlier_ext (pp_task s)); [|apply (i_sleep _ I)]. intros j Hj. unfold deadline_of.
    rewrite Hne; [done|]. intros ->. apply Hnot. unfold placed. apply elem_of_app. right.
    apply elem_of_app. by left.
  - by apply held_outside.
Qed.

Lemma created_fmap pool i : created pool i <-> pt_name <$> pool !! i = Some true.
Proof.
  unfold created. split.
  - intros (t & -> & E). simpl. by rewrite E.
  - destruct (pool !! i) as [t|]; [|done]. simpl. intros [= E]. by exists t.
Qed.

Lemma store_inv s t : sched_inv (s, InCallback t) -> sched_inv (run_store s t, Stored t).
Proof.
  intros I. unfold run_store. set (f := fun p => _). set (pool := alter f t (pp_task s)).
  assert (∀ j, j ≠ t -> pool !! j = pp_task s !! j) as Hne
    by (intros j Hj; unfold pool; by rewrite list_lookup_alter_ne).
  assert (pool !! t = f <$> pp_task s !! t) as Hself by apply list_lookup_alter_eq.
  assert (∀ j, pt_name <$> pool !! j = pt_name <$> pp_task s !! j) as Hname.
  { intros j. destruct (decide (j = t)) as [->|]; [|by rewrite Hne]. rewrite Hself.
    by destruct (pp_task s !! t). }
  pose proof (i_nodup _ I) as Hnd. unfold placed in Hnd. cbn [fst snd running] in Hnd.
  assert (t ∉ concat (pp_ready s) ++ pp_sleep s) as Hnot.
  { rewrite app_assoc in Hnd. apply list.NoDup_app in Hnd as (_ & Hnd & _). intros Hin.
    apply (Hnd t Hin). left. }
  split.
  - intros j x Ej Hx. cbn [fst with_pool pp_task] in Ej. destruct (decide (j = t)) as [->|Hj].
    + rewrite Hself in Ej. destruct (pp_task s !! t) as [y|] eqn:Ey; [|done].
      injection Ej as <-. by apply (i_prio _ I t y).
    + rewrite Hne in Ej by done. by apply (i_prio _ I j x).
  - exact Hnd.
  - intros j. etrans; [apply (i_placed _ I)|]. cbn [fst with_pool pp_task].
    by rewrite !created_fmap, Hname.
  - cbn [fst with_pool pp_task pp_ready pp_group_bitmap].
    apply (queues_ok_ext (pp_task s)); [|apply (i_queues _ I)]. intros j Hj. unfold priority_of.
    rewrite Hne; [done|]. intros ->. apply Hnot, elem_of_app. by left.
  - cbn [fst with_pool pp_task pp_sleep]. apply (earlier_ext (pp_task s)); [|apply (i_sleep _ I)].
    intros j Hj. unfold deadline_of. rewrite Hne; [done|]. intros ->. apply Hnot, elem_of_app. by right.
  - done.
Qed.

Lemma sleep_inv s t : sched_inv (s, Stored t) -> sched_inv (run_sleep s t, Idle).
Proof.
  intros I. apply (sched_inv_move (s, Stored t)); [done|done| |apply I| |done].
  - unfold placed. cbn [fst snd run_sleep sleep_insert with_queues pp_ready pp_sleep running].
    unfold insert_sleep. rewrite insert_at_perm, app_nil_r. apply Permutation_app_head.
    apply Permutation_cons_append.
  - apply insert_sleep_sorted, (i_sleep _ I).
Qed.

Lemma pick_inv s :
  sched_inv (s, Idle) ->
  ∃ o s', run_pick s = Some (o, s') /\ pp_task s' = pp_task s /\ pp_sleep s' = pp_sleep s /\
    match o with
    | None => s' = s /\ concat (pp_ready s) = []
    | Some t =>
        sched_inv (s', InCallback t) /\ concat (pp_ready s) ≡ₚ t :: concat (pp_ready s') /\
        ∀ t', t' ∈ concat (pp_ready s) -> priority_of (pp_task s) t' <= priority_of (pp_task s) t
    end.
Proof.
  intros I. unfold run_pick. pose proof (ready_highest_spec s (i_queues _ I)) as Hh.
  destruct (ready_highest s) as [[t|]|]; [| |done]; cbn [mbind option_bind].
  - destruct Hh as [(g & q & Eg) Hmax].
    assert (NoDup (concat (pp_ready s))) as Hnd.
    { pose proof (i_nodup _ I) as Hnd. unfold placed in Hnd. by apply list.NoDup_app in Hnd as (? & _). }
    destruct (ready_remove_spec s t q g (i_queues _ I) Hnd Eg) as (r & b & -> & Hq & Hc).
    cbn [mbind option_bind]. eexists _, _. split; [done|]. split; [done|]. split; [done|].
    split; [|done]. apply (sched_inv_move (s, Idle)); [done|done| |done|apply (i_sleep _ I)|done].
    unfold placed. cbn [fst snd with_queues pp_ready pp_sleep running]. rewrite Hc, app_nil_r.
    rewrite app_assoc. cbn [app]. symmetry. apply Permutation_cons_append.
  - by eexists _, _.
Qed.

(** ** Runs *)

(** No tick interrupt while the main loop moves a task it found at the head of the sleep list
    by itself, and priorities are unsigned. *)
Definition event_ok (m : machine) (e : event) : Prop :=
  match e with
  | ECreate _ _ _ priority => 0 <= priority
  | ETick _ => wake_window m.2 = false
  | _ => True
  end.

Fixpoint events_ok (m : machine) (es : list event) : Prop :=
  match es with
  | [] => True
  | e :: es => event_ok m e /\ match m_exec m e with Some m => events_ok m es | None => False end
  end.

(** The steps of [idle_wfi] move no task except through the sleep list's head. *)
Lemma idle_inv s p counter :
  sched_inv (s, p) -> ∃ m, idle_wfi s p counter = Some m /\ sched_inv m.
Proof.
  intros I. assert (∀ s' p', pp_task s' = pp_task s -> pp_ready s' = pp_ready s ->
    pp_group_bitmap s' = pp_group_bitmap s -> pp_sleep s' = pp_sleep s -> running p' = running p ->
    head_held s' p' -> sched_inv (s', p')) as Hsame.
  { intros s' p' Et Er Eb Es Ep Hh. apply (sched_inv_move (s, p)); simpl; try done.
    - unfold placed. simpl. by rewrite Er, Es, Ep.
    - rewrite Er, Eb. apply (i_queues _ I).
    - rewrite Es. apply (i_sleep _ I). }
  destruct p as [|t|t| |d| |ms|c| |t|t|t|]; cbn [idle_wfi];
    try (eexists; split; [done|]; repeat case_match; by apply Hsame).
  - eexists. split; [done|]. destruct (pp_sleep s) as [|t l] eqn:E; apply Hsame; simpl; by rewrite ?E.
  - eexists. split; [done|]. pose proof (i_held _ I) as Hh. destruct (not_due _ _); by apply Hsame.
  - eexists. split; [done|]. pose proof (i_held _ I) as Hh. simpl in Hh.
    destruct (pp_sleep s) as [|x l] eqn:Es; [done|]. injection Hh as ->.
    pose proof (i_nodup _ I) as Hnd. unfold placed in Hnd. cbn [fst snd running] in Hnd.
    rewrite Es, app_nil_r in Hnd. apply list.NoDup_app in Hnd as (_ & _ & Hnd).
    apply list.NoDup_cons in Hnd as [Hnt _].
    assert (filter (fun x => x ≠ t) (t :: l) = l) as El.
    { rewrite filter_cons, decide_False by (intros Hn; by apply Hn). clear -Hnt.
      induction l as [|x l IH]; [done|]. apply not_elem_of_cons in Hnt as [Hne Hnt].
      rewrite filter_cons, decide_True, IH by done. done. }
    rewrite El. apply (sched_inv_move (s, WfiUnlink t)); simpl; try done; [|apply (i_queues _ I)|].
    + unfold placed. simpl. rewrite Es, app_nil_r. apply Permutation_app_head.
      symmetry. apply Permutation_cons_append.
    + pose proof (i_sleep _ I) as Hs. simpl in Hs. rewrite Es in Hs.
      by apply StronglySorted_inv in Hs as [Hs _].
  - destruct (ready_insert_spec s t) as (r & b & -> & Hq & Hc).
    { apply (i_queues _ I). }
    { apply (inv_priority _ t I). unfold placed. simpl. rewrite !elem_of_app. do 2 right. by left. }
    eexists. split; [done|]. apply (sched_inv_move (s, WfiReady t)); simpl; try done; [|apply (i_sleep _ I)].
    unfold placed. simpl. rewrite Hc, app_nil_r, app_assoc. cbn [app].
    apply Permutation_cons_append.
Qed.

Lemma m_exec_inv m e : event_ok m e -> sched_inv m -> ∃ m', m_exec m e = Some m' /\ sched_inv m'.
Proof.
  destruct m as [s p]. intros He I. destruct e as [ms|name cb per pr| | | |counter].
  - destruct (tick_inv _ _ ms He I) as (r & b & w & rest & E & _ & _ & _ & _ & I').
    cbn [m_exec]. rewrite E. by eexists.
  - destruct p; cbn [m_exec]; eexists; (split; [done|]); try done; by apply create_inv.
  - destruct p; cbn [m_exec]; try (by eexists).
    destruct (pick_inv s I) as (o & s' & -> & _ & _ & Ho). cbn [mbind option_bind].
    eexists. split; [done|]. destruct o as [t|]; [apply Ho|]. destruct Ho as [-> _].
    apply (sched_inv_move (s, Idle)); try done; apply I.
  - destruct p; cbn [m_exec]; eexists; (split; [done|]); try done. by apply store_inv.
  - destruct p; cbn [m_exec]; eexists; (split; [done|]); try done. by apply sleep_inv.
  - destruct p; cbn [m_exec]; by apply idle_inv.
Qed.

Lemma m_run_inv es : ∀ m, events_ok m es -> sched_inv m ->
  ∃ m', m_run m es = Some m' /\ sched_inv m'.
Proof.
  induction es as [|e es IH]; intros m He I; [by eexists|]. destruct He as [He Hes].
  destruct (m_exec_inv m e He I) as (m1 & E1 & I1). cbn [m_run]. rewrite E1 in *. by apply IH.
Qed.

(** The zeroed pool. *)
Definition m_init : machine := (xscheduler_early_init (replicate MAX_TASKS task_zero), Idle).

Lemma m_init_inv : sched_inv m_init.
Proof.
  split.
  - intros i t E Hn. apply lookup_replicate in E as [-> _]. done.
  - apply NoDup_nil_2.
  - intros i. split; [intros H; by apply not_elem_of_nil in H|].
    intros (t & E & Hn). apply lookup_replicate in E as [-> _]. done.
  - split; [done| |done|].
    + intros g q E. apply (lookup_replicate 4 []) in E as [-> _]. by split; constructor.
    + intros g Hg. cbn. rewrite Z.bits_0. unfold nonempty.
      destruct (replicate _ _ !! _) as [q|] eqn:E; [|done]. by apply (lookup_replicate 4 []) in E as [-> _].
  - constructor.
  - done.
Qed.

(** C15: No task is lost or duplicated. Take any sequence of task creations, steps of the
    scheduler, single accesses of [idle_wfi] and of the [x_scheduler_tick] it calls, and tick
    interrupts between any of them - except while the main loop itself moves a task from the
    head of the sleep list to its ready queue, from the read of the head on.  From the initial
    state the run stays inside the queue array and leaves every created task in exactly one
    place (a ready queue, the sleep list, or the hands of the main loop), the ready queues
    ordered by priority within their groups, the group bitmap exact, and the sleep list ordered
    by deadline.  What a tick does in the excepted window shows [tick_inside_idle_tick]. *)
Theorem sched_no_task_lost es :
  events_ok m_init es -> ∃ m, m_run m_init es = Some m /\ sched_inv m.
Proof. intros H. apply m_run_inv; [done|apply m_init_inv]. Qed.

Definition demo_events : list event :=
  [ECreate true true 10 3; ECreate true true 20 20; ETick 25; EPick; ETick 5; EStore; ESleep].

(** Nothing is ready, so the scheduler looks at the timer; a tick comes meanwhile. *)
Definition demo_idle : list event :=
  [ECreate true true 10 3; EPick; ETick 4; EIdle None; ETick 7; EPick; EStore; ESleep].

Lemma sched_no_task_lost_witness :
  (∃ m, m_run m_init demo_events = Some m /\ sched_inv m) /\
  (∃ m, m_run m_init demo_idle = Some m /\ sched_inv m).
Proof.
  split; [apply (sched_no_task_lost demo_events)|apply (sched_no_task_lost demo_idle)];
    vm_compute; repeat split; congruence.
Defined.

(** The scheduler runs the highest priority. In every reachable idle state the scheduler
    finds nothing to run only when no task is ready, and otherwise takes a ready task of
    which no ready task has a higher priority; the bitmap and leading-zero search is exact. *)
Theorem highest_priority_runs es s :
  events_ok m_init es -> m_run m_init es = Some (s, Idle) ->
  ∃ o s', run_pick s = Some (o, s') /\
    match o with
    | None => concat (pp_ready s) = []
    | Some t =>
        concat (pp_ready s) ≡ₚ t :: concat (pp_ready s') /\
        ∀ t', t' ∈ concat (pp_ready s) -> priority_of (pp_task s) t' <= priority_of (pp_task s) t
    end.
Proof.
  intros He Hr. destruct (m_run_inv es m_init He m_init_inv) as (m & Em & I).
  rewrite Hr in Em. injection Em as <-. destruct (pick_inv s I) as (o & s' & E & _ & _ & Ho).
  exists o, s'. split; [done|]. destruct o; apply Ho.
Qed.

Definition demo_ready : x_preempt_priv :=
  match m_run m_init (take 3 demo_events) with Some (s, _) => s | None => m_init.1 end.

Lemma highest_priority_runs_witness :
  ∃ o s', run_pick demo_ready = Some (o, s') /\
    match o with
    | None => concat (pp_ready demo_ready) = []
    | Some t =>
        concat (pp_ready demo_ready) ≡ₚ t :: concat (pp_ready s') /\
        ∀ t', t' ∈ concat (pp_ready demo_ready) ->
          priority_of (pp_task demo_ready) t' <= priority_of (pp_task demo_ready) t
    end.
Proof.
  apply (highest_priority_runs (take 3 demo_events) demo_ready);
    [vm_compute; repeat split; congruence|vm_compute; reflexivity].
Defined.

Lemma not_due_window d tick :
  -2147483648 <= d - tick < 2147483648 -> not_due d tick = (tick <? d).
Proof.
  intros H. unfold not_due. rewrite Z.gtb_ltb.
  assert (s32 (d - tick) = d - tick) as ->.
  { unfold s32, u32. destruct (Z.ltb_spec ((d - tick) mod 4294967296) 2147483648);
      Z.to_euclidean_division_equations; lia. }
  destruct (Z.ltb_spec 0 (d - tick)), (Z.ltb_spec tick d); (done || lia).
Qed.

(** A tick wakes exactly the due tasks, as long as the counter does not wrap: in every
    reachable state whose sleeping deadlines lie, as plain numbers, within 2^31 of the new
    tick count, a sleeping task becomes ready when its deadline is reached and stays asleep
    otherwise. *)
Theorem tick_wakes_due es s p ms :
  events_ok m_init es -> m_run m_init es = Some (s, p) -> wake_window p = false ->
  (∀ t, t ∈ pp_sleep s ->
     -2147483648 <= deadline_of (pp_task s) t - u32 (pp_tick_count s + ms) < 2147483648) ->
  ∃ s', x_scheduler_tick s ms = Some s' /\
    ∀ t, t ∈ pp_sleep s ->
      (t ∈ concat (pp_ready s') <-> deadline_of (pp_task s) t <= u32 (pp_tick_count s + ms)) /\
      (t ∈ pp_sleep s' <-> u32 (pp_tick_count s + ms) < deadline_of (pp_task s) t).
Proof.
  intros He Hr Hp Hwin. destruct (m_run_inv es m_init He m_init_inv) as (m & Em & I).
  rewrite Hr in Em. injection Em as <-. set (now := u32 (pp_tick_count s + ms)) in *.
  destruct (tick_inv s p ms Hp I) as (r & b & woken & rest & E & Es & Hc & Hd & Hh & I').
  fold now in E, Hd, Hh, I'. eexists. split; [exact E|].
  cbn [with_queues pp_ready pp_sleep].
  assert (∀ t, t ∈ woken -> deadline_of (pp_task s) t <= now) as Hw.
  { intros t Ht. rewrite list.Forall_forall in Hd. specialize (Hd t Ht). unfold due in Hd.
    cbn [with_tick pp_task pp_tick_count] in Hd. rewrite not_due_window in Hd.
    - apply Z.ltb_ge in Hd. done.
    - apply Hwin. rewrite Es. apply elem_of_app. by left. }
  assert (∀ t, t ∈ rest -> now < deadline_of (pp_task s) t) as Hrest.
  { intros t Ht. destruct rest as [|x rest]; [by apply not_elem_of_nil in Ht|].
    assert (now < deadline_of (pp_task s) x) as Hx.
    { unfold due in Hh. cbn [with_tick pp_task pp_tick_count] in Hh.
      rewrite not_due_window in Hh by (apply Hwin; rewrite Es; apply elem_of_app; right; left).
      apply not_false_is_true in Hh. by apply Z.ltb_lt in Hh. }
    pose proof (i_sleep _ I) as Hs. cbn [fst] in Hs. rewrite Es in Hs.
    apply StronglySorted_suffix, StronglySorted_inv in Hs as [_ Hs].
    apply elem_of_cons in Ht as [->|Ht]; [done|]. rewrite list.Forall_forall in Hs.
    specialize (Hs t Ht). unfold earlier in Hs. lia. }
  assert (∀ t, t ∈ pp_sleep s -> t ∉ concat (pp_ready s)) as Hdis.
  { intros t Ht Hin. pose proof (i_nodup _ I) as Hnd. unfold placed in Hnd. cbn [fst snd] in Hnd.
    apply list.NoDup_app in Hnd as (_ & Hnd & _). apply (Hnd t Hin), elem_of_app. by left. }
  intros t Ht. pose proof Ht as Ht'. rewrite Es in Ht'. rewrite Hc, elem_of_app.
  apply elem_of_app in Ht' as [Ht'|Ht']; [pose proof (Hw t Ht')|pose proof (Hrest t Ht')].
  - split; split; try done; [by left|intros Hx; apply Hrest in Hx; lia|lia].
  - split; split; try done; [|lia]. intros [Hx|Hx]; [by apply Hw|by apply Hdis in Hx].
Qed.

Definition demo_asleep : x_preempt_priv :=
  match m_run m_init (take 2 demo_events) with Some (s, _) => s | None => m_init.1 end.

Lemma tick_wakes_due_witness :
  ∃ s', x_scheduler_tick demo_asleep 15 = Some s' /\
    ∀ t, t ∈ pp_sleep demo_asleep ->
      (t ∈ concat (pp_ready s') <->
         deadline_of (pp_task demo_asleep) t <= u32 (pp_tick_count demo_asleep + 15)) /\
      (t ∈ pp_sleep s' <-> u32 (pp_tick_count demo_asleep + 15) < deadline_of (pp_task demo_asleep) t).
Proof.
  apply (tick_wakes_due (take 2 demo_events) demo_asleep Idle 15).
  - vm_compute. repeat split; congruence.
  - vm_compute. reflexivity.
  - done.
  - intros t Ht. change (pp_sleep demo_asleep) with [0%nat; 1%nat] in Ht.
    apply elem_of_cons in Ht as [->|Ht]; [vm_compute; split; congruence|].
    apply list_elem_of_singleton in Ht as ->. vm_compute. split; congruence.
Defined.

(** ** [x_task_run_preempt] is its steps *)

Lemma m_run_app m es es' : m_run m (es ++ es') = m ← m_run m es; m_run m es'.
Proof.
  revert m. induction es as [|e es IH]; intros m; [done|]. cbn [app m_run].
  destruct (m_exec m e) as [m1|]; [|done]. apply IH.
Qed.

(** What can happen in a callback, and in between the two critical sections. *)
Definition outside (e : event) : Prop :=
  match e with ETick _ | ECreate _ _ _ _ => True | _ => False end.

Lemma m_run_phase es : ∀ s p m, Forall outside es -> m_run (s, p) es = Some m -> m.2 = p.
Proof.
  induction es as [|e es IH]; intros s p m He Hr; [by injection Hr as <-|].
  apply Forall_cons_1 in He as [He Hes]. cbn [m_run] in Hr.
  destruct e as [ms|name cb per pr| | | |counter]; try done; cbn [m_exec] in Hr.
  - destruct (x_scheduler_tick s ms) as [s1|]; [|done]. exact (IH _ _ _ Hes Hr).
  - destruct p; cbn [mbind option_bind] in Hr; exact (IH _ _ _ Hes Hr).
Qed.

Lemma x_task_run_preempt_steps s t s1 during between idle :
  run_pick s = Some (Some t, s1) -> Forall outside during -> Forall outside between ->
  x_task_run_preempt s during between idle
    = m_run (s, Idle) ([EPick] ++ during ++ [EStore] ++ between ++ [ESleep]).
Proof.
  intros Ep Hd Hb. unfold x_task_run_preempt. rewrite Ep. cbn [mbind option_bind].
  rewrite m_run_app. cbn [m_run m_exec]. rewrite Ep. cbn [mbind option_bind].
  rewrite m_run_app. destruct (m_run (s1, InCallback t) during) as [[s2 p2]|] eqn:E2; [|done].
  apply m_run_phase in E2; [|done]. simpl in E2. subst p2. cbn [mbind option_bind fst].
  rewrite m_run_app. cbn [m_run m_exec mbind option_bind]. rewrite m_run_app.
  destruct (m_run (run_store s2 t, Stored t) between) as [[s3 p3]|] eqn:E3; [|done].
  apply m_run_phase in E3; [|done]. simpl in E3. by subst p3.
Qed.

(** ** The wrap-around of the tick counter *)

(** The tick count stands 20 before its wrap; task 0 has period 10 and task 1 a period of
    2^31 - 1, which wraps, so task 1 is sorted in front of task 0. *)
Definition wrap_events : list event :=
  [ETick 4294967276; ECreate true true 10 31; ECreate true true 2147483647 0].

Definition wrap_state : x_preempt_priv :=
  match m_run m_init (wrap_events ++ [ETick 2147483646]) with Some (s, _) => s | None => m_init.1 end.

(** Near the wrap of the tick counter a due task can be held back. The sleep list is
    ordered by unsigned comparison of deadlines while dueness is a signed difference, so a
    task whose deadline has wrapped stands in front of one due before the wrap and stops the
    wake-up loop: here a task with a period of 10 ticks, of the highest priority, is still
    asleep 2147483646 ticks after its creation, when only the other task sleeps longer. *)
Theorem wrap_blocks_due_task :
  ∃ s, m_run m_init (wrap_events ++ [ETick 2147483646]) = Some (s, Idle) /\
    pp_sleep s = [1%nat; 0%nat] /\ concat (pp_ready s) = [] /\
    pt_period (default task_zero (pp_task s !! 0%nat)) = 10 /\
    s32 (pp_tick_count s - deadline_of (pp_task s) 0) = 2147483636.
Proof. exists wrap_state. split; [vm_compute; reflexivity|]. repeat split; vm_compute; reflexivity. Qed.

(** ** Timer *)

(** With no task ready it is a run of [idle_wfi]. *)
Lemma x_task_run_preempt_idle s s1 during between idle :
  run_pick s = Some (None, s1) ->
  x_task_run_preempt s during between idle = m_run (s, Idle) ([EPick] ++ idle).
Proof.
  intros Ep. unfold x_task_run_preempt. cbn [app m_run m_exec]. rewrite Ep. done.
Qed.

(** A one-shot sleep fits a 16-bit counter and does not pass the deadline it is armed for. *)
Lemma idle_arm_bound s d :
  0 < pp_tick_period s -> idle_arr s d ≠ 0 ->
  0 < idle_arr s d <= 65535 /\ idle_arr s d = pp_tick_period s * idle_remaining s d /\
  idle_remaining s d <= u32 (d - pp_tick_count s).
Proof.
  intros Hp. unfold idle_arr, idle_remaining. set (rem := u32 (_ - _)).
  set (mx := 65535 / pp_tick_period s). set (n := if rem >? mx then mx else rem).
  assert (0 <= n <= mx /\ n <= rem) as [Hn Hr].
  { pose proof (u32_range (d - pp_tick_count s)) as Hu.
    fold rem in Hu. assert (0 <= mx) by (apply Z.div_pos; lia). unfold n. rewrite Z.gtb_ltb.
    destruct (Z.ltb_spec mx rem); lia. }
  assert (0 <= pp_tick_period s * n <= 65535) as Hm.
  { pose proof (Z.mul_div_le 65535 (pp_tick_period s) Hp) as Hle. fold mx in Hle. nia. }
  rewrite u32_small by lia. intros Hne. lia.
Qed.

(** The tick of [idle_wfi] is not protected from the tick interrupt. A timer of period 1000
    (at 1000 per tick) was armed for a task that sleeps 10 ticks; another interrupt ends the
    wait late, at 10 elapsed ticks, and the main loop catches up.  When the tick interrupt comes
    after the main loop found the task due, both make it ready: it stands twice in its queue. *)
Definition timer_machine : option machine :=
  '(s, p) ← m_run m_init [ECreate true true 10 3];
  Some (xscheduler_start (mk_env 1 (Some 1000) None false 1000) s, p).

Example tick_inside_idle_tick :
  (m ← timer_machine;
   m ← m_run m ([EPick; EIdle None; EIdle None; EIdle (Some 10000)] ++ replicate 4 (EIdle None) ++
                [ETick 1] ++ replicate 4 (EIdle None));
   Some (pp_ready m.1, pp_sleep m.1, m.2))
  = Some ([[0%nat; 0%nat]; []; []; []], [], Idle).
Proof. vm_compute. reflexivity. Qed.

(** Nor are the test for a ready task and the wait one step: a tick between them makes task 0
    ready, and the main loop arms the timer for the other task, here for the 65 ticks that 16
    bits hold, and waits. *)
Example sleeps_over_ready_task :
  (m ← timer_machine;
   m ← m_run m [ECreate true true 1000 3; EPick; ETick 11; EIdle None; EIdle None];
   Some (pp_ready m.1, m.2, pp_oneshot_ticks m.1))
  = Some ([[0%nat]; []; []; []], WfiSleep, 65).
Proof. vm_compute. reflexivity. Qed.

(** The one-shot count is taken before the device's tick_delay property is read, so the first
    timer interrupts add the default of 1 instead of the configured delay. *)
Example start_accounts_default :
  let s := xscheduler_start (mk_env 1 (Some 1000) (Some 10) true 1000)
             (xscheduler_early_init (replicate MAX_TASKS task_zero)) in
  pp_tick_delay s = 10 /\ (pp_tick_count <$> scheduler_tim_isr_top s true) = Some 1.
Proof. vm_compute. split; reflexivity. Qed.
