(* ===== verification/XtaskCoop.v ===== *)
(** * The cooperative scheduler

    Models src/time_slice/task/xtask_coop.c (without CONFIG_XTASK_COROUTINE).  The task list is
    the list of control blocks in insertion order (IList justifies this view); a callback is
    a function on the scheduler's state, which it may change by creating tasks or while
    ticks come in. *)

From S2P Require Import Prelude Status.

#[local] Open Scope Z_scope.

Record x_task := mk_xt { xt_period : Z; xt_next_running : Z; xt_is_running : bool }.

(** [co_ran] records the callbacks made. *)
Record x_scheduler := mk_co { co_tick_count : Z; co_tasks : list x_task; co_ran : list nat }.

Definition x_scheduler_init : x_scheduler := mk_co 0 [] [].

(** The arguments [task], [cb] and [name] are the tests for NULL; the result is the handle: the
    position of the task plus one stands for its address. *)
Definition xscheduler_task_create (s : x_scheduler) (task name cb : bool) (period_ms : Z)
    : Z * x_scheduler :=
  if negb task || negb cb || negb name then (u32 MINI_ERR_INVAL, s) else
  (Z.of_nat (S (length (co_tasks s))),
   mk_co (co_tick_count s)
     (co_tasks s ++ [mk_xt period_ms (u32 (co_tick_count s + period_ms)) false]) (co_ran s)).

Definition coop_tick (s : x_scheduler) (ms : Z) : x_scheduler :=
  mk_co (u32 (co_tick_count s + ms)) (co_tasks s) (co_ran s).

(** The tick source: the timer (0 is NULL) and the increment of each interrupt. *)
Record x_coop_priv := mk_cp { cp_tim : Z; cp_tick_delay : Z }.

Definition coop_early_init : x_scheduler * x_coop_priv := (x_scheduler_init, mk_cp 0 1).

(** [tim]: the timer of the chosen device once opened, 0 when there is none; [delay_prop]: its
    tick_delay property; [systick]: whether SysTick starts; [rate]: the tick rate. *)
Definition coop_start (tim : Z) (delay_prop : option Z) (systick : bool) (rate : Z) (p : x_coop_priv)
    : x_coop_priv :=
  if negb (tim =? 0) then mk_cp tim (default (cp_tick_delay p) delay_prop)
  else if systick then
    let delay := 1000 / rate in mk_cp 0 (if delay >=? 1 then delay else 1)
  else mk_cp tim (cp_tick_delay p).

Definition coop_systick_handler (p : x_coop_priv) (s : x_scheduler) : x_scheduler :=
  coop_tick s (u32 (cp_tick_delay p)).

(** [cleared]: whether the update flag was cleared. *)
Definition coop_isr_top (p : option x_coop_priv) (cleared : bool) (s : x_scheduler) : x_scheduler :=
  match p with
  | None => s
  | Some p => if cleared then coop_tick s (u32 (cp_tick_delay p)) else s
  end.

(** A tick source that starts adds at least the milliseconds of its rate at each interrupt. *)
Lemma coop_systick_advances rate p s :
  0 < rate <= 1000 -> 0 <= co_tick_count s < 4294967296 - 1000 ->
  co_tick_count (coop_systick_handler (coop_start 0 None true rate p) s)
    = co_tick_count s + 1000 / rate.
Proof.
  intros Hr Hs. unfold coop_systick_handler, coop_start, coop_tick. cbn [negb Z.eqb cp_tick_delay co_tick_count].
  assert (1 <= 1000 / rate <= 1000) as Hd.
  { split; [apply Z.div_le_lower_bound; lia|apply Z.div_le_upper_bound; lia]. }
  rewrite Z.geb_leb. destruct (Z.leb_spec 1 (1000 / rate)); [|lia].
  rewrite (u32_small (1000 / rate)), u32_small; lia.
Qed.

Definition set_task (s : x_scheduler) (i : nat) (f : x_task -> x_task) : x_scheduler :=
  mk_co (co_tick_count s) (alter f i (co_tasks s)) (co_ran s).

Definition set_running (b : bool) (t : x_task) : x_task :=
  mk_xt (xt_period t) (xt_next_running t) b.
Definition set_next (n : Z) (t : x_task) : x_task := mk_xt (xt_period t) n (xt_is_running t).

Section run.
Context (xTask_cb : nat -> x_scheduler -> x_scheduler).

Definition call_cb (s : x_scheduler) (i : nat) : x_scheduler :=
  let s := xTask_cb i s in mk_co (co_tick_count s) (co_tasks s) (co_ran s ++ [i]).

(** The body of the loop for the task at position [i]. *)
Definition run_task (s : x_scheduler) (i : nat) : option x_scheduler :=
  t ← co_tasks s !! i;
  if xt_is_running t then Some s else
  let s := set_task s i (set_running true) in
  let now := co_tick_count s in
  let next_run := xt_next_running t in
  s ← (if s32 (now - next_run) >=? 0 then
         let s := call_cb s i in
         t ← co_tasks s !! i;
         Some (set_task s i (set_next (u32 (now + xt_period t))))
       else Some s);
  Some (set_task s i (set_running false)).

(** [current] is [None] at the list head; the next node is read before the body.  The list may
    grow under the loop, hence the fuel. *)
Fixpoint run_loop (fuel : nat) (s : x_scheduler) (current : option nat) : option x_scheduler :=
  match current with
  | None => Some s
  | Some i =>
      match fuel with
      | O => None
      | S fuel =>
          let next := if (S i <? length (co_tasks s))%nat then Some (S i) else None in
          s ← run_task s i; run_loop fuel s next
      end
  end.

Definition x_task_run (fuel : nat) (sched : option x_scheduler) : option (Z * option x_scheduler) :=
  match sched with
  | None => Some (MINI_ERR_INVAL, None)
  | Some s =>
      s ← run_loop fuel s (match co_tasks s with [] => None | _ => Some 0%nat end);
      Some (MINI_OK, Some s)
  end.

(** ** One round *)

Definition task_due (now : Z) (t : x_task) : bool := s32 (now - xt_next_running t) >=? 0.

Definition after_round (now : Z) (t : x_task) : x_task :=
  if xt_is_running t then t
  else if task_due now t then set_next (u32 (now + xt_period t)) t else t.

(** The positions, from [i] on, of the tasks that run. *)
Fixpoint due_from (now : Z) (i : nat) (ts : list x_task) : list nat :=
  match ts with
  | [] => []
  | t :: r =>
      (if negb (xt_is_running t) && task_due now t then [i] else []) ++ due_from now (S i) r
  end.

(** Callbacks that do not touch the scheduler. *)
Context (Hcb : ∀ i s, xTask_cb i s = s).

Lemma alter_mid {A} (f : A -> A) l1 x l2 : alter f (length l1) (l1 ++ x :: l2) = l1 ++ f x :: l2.
Proof. rewrite alter_app_r_alt by lia. by rewrite Nat.sub_diag. Qed.

Lemma run_task_spec tick done t rest ran :
  run_task (mk_co tick (done ++ t :: rest) ran) (length done)
    = Some (mk_co tick (done ++ after_round tick t :: rest)
              (ran ++ if negb (xt_is_running t) && task_due tick t then [length done] else [])).
Proof using Hcb.
  unfold run_task, after_round, task_due. cbn [co_tasks]. rewrite list_lookup_middle by done.
  cbn [mbind option_bind]. destruct t as [per nxt r]. cbn [xt_is_running xt_next_running].
  destruct r; cbn [negb andb]; [by rewrite app_nil_r|].
  unfold call_cb, set_task. rewrite Hcb. cbn [co_tick_count co_tasks co_ran]. rewrite alter_mid.
  destruct (s32 (tick - nxt) >=? 0); cbn [mbind option_bind co_tick_count co_tasks co_ran].
  - rewrite list_lookup_middle by done. cbn [mbind option_bind co_tick_count co_tasks co_ran].
    by rewrite !alter_mid.
  - by rewrite alter_mid, app_nil_r.
Qed.

Lemma run_loop_spec tick rest : ∀ fuel done ran,
  (length rest ≤ fuel)%nat ->
  run_loop fuel (mk_co tick (done ++ rest) ran)
    (match rest with [] => None | _ => Some (length done) end)
    = Some (mk_co tick (done ++ map (after_round tick) rest) (ran ++ due_from tick (length done) rest)).
Proof using Hcb.
  induction rest as [|t rest IH]; intros fuel done ran Hf.
  - destruct fuel; by rewrite !app_nil_r.
  - destruct fuel as [|fuel]; simpl in Hf; [lia|]. cbn [run_loop co_tasks].
    rewrite run_task_spec. cbn [mbind option_bind].
    assert ((if (S (length done) <? length (done ++ t :: rest))%nat then Some (S (length done)) else None)
              = match rest with [] => None | _ => Some (length (done ++ [after_round tick t])) end) as ->.
    { rewrite !length_app. destruct rest; simpl.
      - destruct (Nat.ltb_spec (S (length done)) (length done + 1)); (done || lia).
      - destruct (Nat.ltb_spec (S (length done)) (length done + S (S (length rest)))); [|lia].
        f_equal. lia. }
    rewrite (cons_middle _ done), (app_assoc done [after_round tick t] rest).
    rewrite IH by lia. cbn [map due_from]. rewrite length_app. simpl.
    rewrite <- !app_assoc. by replace (length done + 1)%nat with (S (length done)) by lia.
Qed.

(** One round of the cooperative scheduler. With callbacks that leave the scheduler alone,
    [x_task_run] returns after as many rounds as there are tasks; every task that is due and
    not marked running has its callback called exactly once, in list order, and its next
    deadline set one period after the round's tick; every other task is unchanged and no
    task is left marked running by the round. *)
Theorem coop_round s fuel :
  (length (co_tasks s) ≤ fuel)%nat ->
  x_task_run fuel (Some s)
    = Some (MINI_OK, Some (mk_co (co_tick_count s) (map (after_round (co_tick_count s)) (co_tasks s))
                             (co_ran s ++ due_from (co_tick_count s) 0 (co_tasks s)))).
Proof using Hcb.
  intros Hf. destruct s as [tick ts ran]. cbn [co_tasks co_tick_count co_ran] in *.
  unfold x_task_run. cbn [co_tasks].
  pose proof (run_loop_spec tick ts fuel [] ran Hf) as E. cbn [app length] in E. rewrite E. done.
Qed.
End run.

Lemma coop_round_witness :
  x_task_run (fun _ s => s) 2
    (Some (mk_co 5 [mk_xt 10 5 false; mk_xt 10 6 false] []))
  = Some (MINI_OK, Some (mk_co 5 (map (after_round 5) [mk_xt 10 5 false; mk_xt 10 6 false])
                           ([] ++ due_from 5 0 [mk_xt 10 5 false; mk_xt 10 6 false]))).
Proof.
  apply (coop_round (fun _ s => s) (fun _ _ => eq_refl)
           (mk_co 5 [mk_xt 10 5 false; mk_xt 10 6 false] []) 2).
  simpl. lia.
Defined.

(** A rejected creation returns the error code as a handle, not 0. *)
Example rejected_create_handle :
  (xscheduler_task_create x_scheduler_init false true true 10).1 = 4294967295.
Proof. reflexivity. Qed.
