(* ===== verification/MiniList.v ===== *)
(** * Lists of the mini-os kernel

    Models src/lib/mini-os/inc/list.h at pointer level: the circular doubly linked list that
    carries the free list, the ready queues and the wait queues of the kernel, and the singly
    linked list of the slab allocator; and the kernel-private error codes of
    src/lib/mini-os/inc/minierr.h.  The heap of doubly linked nodes is that of [IList].  NULL
    is the address 0; [None] is an access to a node that does not exist.  The doubly linked
    functions make the same stores as those of xtask.h in another order; the theorems show
    that they have the same effect and implement the operations on lists. *)

From S2P Require Import Prelude Status IList.
From stdpp Require Import gmap.

#[local] Open Scope Z_scope.

Definition MINI_OS_ERR_DEAD : Z := -256.
Definition MINI_OS_ERR_NOTREADY : Z := -257.
Definition MINI_OS_ERR_RANGE : Z := -258.
Definition MINI_OS_ERR_DESTROYED : Z := -259.
Definition MINI_OS_ERR_OVERFLOW : Z := -260.
Definition MINI_OS_ERR_CORRUPT : Z := -261.
Definition MINI_OS_ERR_PERM : Z := -262.
Definition MINI_OS_ERR_NOT_STARTED : Z := -263.
Definition MINI_OS_ERR_REJECT : Z := -264.

Abbreviation heap := (gmap Z list_node).

(** ** The doubly linked list *)

Definition mini_os_list_init (h : heap) (list_node : Z) : option (Z * heap) :=
  if list_node =? 0 then Some (MINI_ERR_INVAL, h) else
  h ← set_next h list_node list_node;
  h ← set_prev h list_node list_node;
  Some (MINI_OK, h).

Definition mini_os_list_add (h : heap) (next prev node : Z) : option (Z * heap) :=
  if (next =? 0) || (prev =? 0) || (node =? 0) then Some (MINI_ERR_INVAL, h) else
  h ← set_next h node next;
  h ← set_prev h node prev;
  h ← set_prev h next node;
  h ← set_next h prev node;
  Some (MINI_OK, h).

Definition mini_os_list_tail (h : heap) (new_node head : Z) : option (Z * heap) :=
  if (new_node =? 0) || (head =? 0) then Some (MINI_ERR_INVAL, h) else
  prev ← get_prev h head; mini_os_list_add h head prev new_node.

Definition mini_os_list_head (h : heap) (new_node head : Z) : option (Z * heap) :=
  if (new_node =? 0) || (head =? 0) then Some (MINI_ERR_INVAL, h) else
  next ← get_next h head; mini_os_list_add h next head new_node.

Definition mini_os_list_remove (h : heap) (node : Z) : option (Z * heap) :=
  if node =? 0 then Some (MINI_ERR_INVAL, h) else
  next ← get_next h node; prev ← get_prev h node;
  h ← set_prev h next prev;
  prev ← get_prev h node; next ← get_next h node;
  h ← set_next h prev next;
  h ← set_next h node node;
  h ← set_prev h node node;
  Some (MINI_OK, h).

Definition mini_os_list_is_empty (h : heap) (list_node : Z) : option bool :=
  if list_node =? 0 then Some false else
  next ← get_next h list_node; Some (next =? list_node).

(** ** The singly linked list *)

Abbreviation sheap := (gmap Z Z).

Definition snext_set (h : sheap) (node v : Z) : option sheap :=
  _ ← h !! node; Some (<[node := v]> h).

Definition mini_os_single_list_init (h : sheap) (node : Z) : option (Z * sheap) :=
  if node =? 0 then Some (MINI_ERR_INVAL, h) else
  h ← snext_set h node node; Some (MINI_OK, h).

Definition mini_os_single_list_add (h : sheap) (next prev node : Z) : option (Z * sheap) :=
  if (next =? 0) || (prev =? 0) || (node =? 0) then Some (MINI_ERR_INVAL, h) else
  h ← snext_set h node next;
  h ← snext_set h prev node;
  Some (MINI_OK, h).

Definition mini_os_single_list_add_after (h : sheap) (prev node : Z) : option (Z * sheap) :=
  next ← h !! prev; mini_os_single_list_add h next prev node.

Definition mini_os_single_list_push_heap (h : sheap) (head node : Z) : option (Z * sheap) :=
  mini_os_single_list_add_after h head node.

Definition mini_os_single_list_remove (h : sheap) (node prev : Z) : option (Z * sheap) :=
  if (node =? 0) || (prev =? 0) then Some (MINI_ERR_INVAL, h) else
  next ← h !! node;
  h ← snext_set h prev next;
  h ← snext_set h node node;
  Some (MINI_OK, h).

Definition mini_os_single_list_is_empty (h : sheap) (node : Z) : option bool :=
  if node =? 0 then Some false else
  next ← h !! node; Some (next =? node).

(** ** Agreement of the doubly linked functions with those of xtask.h *)

Lemma heap_links_eq (h h' : heap) :
  (∀ y, get_next h y = get_next h' y) -> (∀ y, get_prev h y = get_prev h' y) -> h = h'.
Proof.
  intros N P. apply map_eq. intros y. specialize (N y). specialize (P y).
  unfold get_next, get_prev in *. destruct (h !! y) as [[]|], (h' !! y) as [[]|]; simpl in *; congruence.
Qed.

(** The stores of [mini_os_list_add] leave the heap that [list_add] leaves. *)
Lemma mini_os_list_add_eq h next prev node :
  next ≠ 0 -> prev ≠ 0 -> node ≠ 0 -> node ≠ next ->
  node ∈ dom h -> prev ∈ dom h -> next ∈ dom h ->
  ∃ h', mini_os_list_add h next prev node = Some (MINI_OK, h') /\ list_add h node next prev = Some h'.
Proof.
  intros Hn Hp Hz Hne Dz Dp Dn. destruct (list_add_links h node next prev Dz Dp Dn) as (h' & E & D & N & P).
  exists h'. split; [|done]. unfold mini_os_list_add.
  rewrite (proj2 (Z.eqb_neq next 0)), (proj2 (Z.eqb_neq prev 0)), (proj2 (Z.eqb_neq node 0)) by done.
  cbn [orb].
  destruct (set_next_upd h node next Dz) as (h1 & E1 & D1 & N1 & P1). rewrite E1. cbn [mbind option_bind].
  destruct (set_prev_upd h1 node prev) as (h2 & E2 & D2 & P2 & N2); [by rewrite D1|].
  rewrite E2. cbn [mbind option_bind].
  destruct (set_prev_upd h2 next node) as (h3 & E3 & D3 & P3 & N3); [by rewrite D2, D1|].
  rewrite E3. cbn [mbind option_bind].
  destruct (set_next_upd h3 prev node) as (h4 & E4 & D4 & N4 & P4); [by rewrite D3, D2, D1|].
  rewrite E4. cbn [mbind option_bind]. f_equal. f_equal. apply heap_links_eq; intros y.
  - rewrite N4, N. unfold upd. by rewrite N3, N2, N1.
  - rewrite P4, P3, P. unfold upd. rewrite P2. unfold upd. rewrite P1. repeat case_decide; congruence.
Qed.

(** The stores of [mini_os_list_remove] leave the heap that [list_del] leaves. *)
Lemma mini_os_list_remove_eq h x p q :
  x ≠ 0 -> get_prev h x = Some p -> get_next h x = Some q -> x ≠ p -> x ≠ q -> p ∈ dom h -> q ∈ dom h ->
  ∃ h', mini_os_list_remove h x = Some (MINI_OK, h') /\ list_del h x = Some h'.
Proof.
  intros Hx Ep Eq Hne Hne' Hp Hq. pose proof (get_prev_dom _ _ _ Ep) as Dx.
  destruct (list_del_links h x p q Ep Eq Hne Hp Hq) as (h' & E & D & N & P).
  exists h'. split; [|done]. unfold mini_os_list_remove. rewrite (proj2 (Z.eqb_neq x 0)) by done.
  rewrite Ep, Eq. cbn [mbind option_bind].
  destruct (set_prev_upd h q p Hq) as (h1 & E1 & D1 & P1 & N1). rewrite E1. cbn [mbind option_bind].
  rewrite P1, upd_ne, N1, Ep, Eq by done. cbn [mbind option_bind].
  destruct (set_next_upd h1 p q) as (h2 & E2 & D2 & N2 & P2); [by rewrite D1|].
  rewrite E2. cbn [mbind option_bind].
  destruct (set_next_upd h2 x x) as (h3 & E3 & D3 & N3 & P3); [by rewrite D2, D1|].
  rewrite E3. cbn [mbind option_bind].
  destruct (set_prev_upd h3 x x) as (h4 & E4 & D4 & P4 & N4); [by rewrite D3, D2, D1|].
  rewrite E4. cbn [mbind option_bind]. f_equal. f_equal. apply heap_links_eq; intros y.
  - rewrite N4, N3, N. unfold upd. rewrite N2. unfold upd. by rewrite N1.
  - rewrite P4, P. unfold upd. rewrite P3, P2, P1. unfold upd. done.
Qed.

(** ** The operations on a list *)

Section dlist_ops.
Context (h : heap) (head : Z) (l : list Z).
Context (Hl : dlist h head l) (Hhead : head ≠ 0) (Hnz : 0 ∉ l).

Lemma dlist_dom x : x ∈ head :: l -> x ∈ dom h.
Proof.
  intros Hx. destruct Hl as [Hp _]. revert Hp Hx. rewrite <- (app_nil_r l) at 2.
  assert (∀ l a, path h (a :: l ++ [head]) -> ∀ x, x ∈ a :: l -> x ∈ dom h) as H.
  { clear. intros l. induction l as [|b l IH]; intros a Hp x Hx; cbn [app path] in Hp.
    - apply list_elem_of_singleton in Hx as ->. by eapply get_next_dom, Hp.
    - apply elem_of_cons in Hx as [->|Hx]; [by eapply get_next_dom, Hp|].
      eapply IH; [|done]. apply Hp. }
  rewrite app_nil_r. intros Hp. by apply H.
Qed.

Lemma mini_os_list_head_spec n :
  n ≠ 0 -> n ∈ dom h -> n ∉ head :: l ->
  ∃ h', mini_os_list_head h n head = Some (MINI_OK, h') /\ dom h' = dom h /\ dlist h' head (n :: l).
Proof.
  intros Hn Hd Hnew. unfold mini_os_list_head.
  rewrite (proj2 (Z.eqb_neq n 0)), (proj2 (Z.eqb_neq head 0)) by done. cbn [orb].
  rewrite (dlist_next_head h head l Hl). cbn [mbind option_bind].
  assert (hd head l ∈ head :: l) as Hin by (destruct l; set_solver).
  destruct (mini_os_list_add_eq h (hd head l) head n) as (h' & -> & E); try done;
    [intros Z0; apply elem_of_cons in Hin as [?|?]; congruence|set_solver|by apply dlist_dom; left|by apply dlist_dom|].
  assert (get_prev h (hd head l) = Some head) as Ep.
  { destruct Hl as [Hp _]. destruct l; cbn [app path hd] in *; apply Hp. }
  destruct (dlist_insert h head [] l n head Hl Hnew Hd Ep) as (h'' & E' & D & R).
  assert (h'' = h') as -> by congruence. exists h'. by split.
Qed.

Lemma mini_os_list_tail_spec n :
  n ≠ 0 -> n ∈ dom h -> n ∉ head :: l ->
  ∃ h', mini_os_list_tail h n head = Some (MINI_OK, h') /\ dom h' = dom h /\ dlist h' head (l ++ [n]).
Proof.
  intros Hn Hd Hnew. unfold mini_os_list_tail.
  rewrite (proj2 (Z.eqb_neq n 0)), (proj2 (Z.eqb_neq head 0)) by done. cbn [orb].
  pose proof Hl as Hl'. rewrite <- (app_nil_r l) in Hl'.
  destruct (dlist_prev h head l [] Hl') as [p Ep]. cbn [hd] in Ep. rewrite Ep. cbn [mbind option_bind].
  destruct (list_exec_refines h head l (LAddTail n) Hl (conj Hd Hnew)) as (h' & E & D & R).
  cbn in E. unfold list_add_tail in E. rewrite Ep in E. cbn [mbind option_bind] in E.
  assert (p ∈ head :: l) as Hin.
  { destruct (gap head l []) as (xs & p' & q & ys & E1 & E2 & E3).
    destruct Hl' as [Hp _]. rewrite E3, path_app in Hp. destruct Hp as [_ Hp].
    apply path_cons in Hp as (_ & Ep' & _). injection E2 as <- _. rewrite Ep in Ep'. injection Ep' as <-.
    rewrite E1. set_solver. }
  destruct (mini_os_list_add_eq h head p n) as (h'' & -> & E''); try done;
    [intros Z0; apply elem_of_cons in Hin as [?|?]; congruence|set_solver|by apply dlist_dom|by apply dlist_dom; left|].
  assert (h'' = h') as -> by congruence. exists h'. by split.
Qed.

Lemma mini_os_list_remove_spec n :
  n ∈ l ->
  ∃ h', mini_os_list_remove h n = Some (MINI_OK, h') /\ dom h' = dom h /\
        dlist h' head (filter (fun x => x ≠ n) l) /\ dlist h' n [].
Proof.
  intros Hn. destruct (list_exec_refines h head l (LDel n) Hl Hn) as (h' & E & D & R). cbn in E, R.
  apply list_elem_of_split in Hn as (l1 & l2 & El).
  pose proof Hl as Hl'. rewrite El in Hl'.
  destruct (dlist_remove h head l1 l2 n Hl') as (h1 & E1 & _ & _ & S1).
  assert (h1 = h') as -> by congruence.
  destruct (gap head l1 l2) as (xs & p & q & ys & G1 & G2 & G3).
  assert (head :: (l1 ++ n :: l2) ++ [head] = xs ++ p :: n :: q :: ys) as G4.
  { rewrite <- app_assoc. cbn [app]. rewrite app_comm_cons, G1, G2, <- app_assoc. done. }
  destruct Hl' as [Hp Hnd]. rewrite app_comm_cons, <- Permutation_middle in Hnd.
  apply NoDup_cons in Hnd as [Hnin _].
  assert (p ∈ (head :: l1) ++ l2) as Pin by (rewrite G1; set_solver).
  assert (q ∈ (head :: l1) ++ l2) as Qin.
  { assert (q ∈ l2 ++ [head]) as Q by (rewrite G2; left). set_solver. }
  rewrite G4, path_app in Hp. destruct Hp as [_ Hp]. apply path_cons in Hp as (_ & Np & Hp).
  apply path_cons in Hp as (Nq & _ & _).
  assert (∀ y, y ∈ (head :: l1) ++ l2 -> y ∈ dom h) as Hdom
    by (intros y Hy; apply dlist_dom; rewrite El; set_solver).
  destruct (mini_os_list_remove_eq h n p q) as (h2 & -> & E2); try done;
    [intros ->; apply Hnz; rewrite El; set_solver|set_solver|set_solver|by apply Hdom|by apply Hdom|].
  assert (h2 = h') as -> by congruence. exists h'. by split.
Qed.

Lemma mini_os_list_is_empty_spec : mini_os_list_is_empty h head = Some (bool_decide (l = [])).
Proof.
  unfold mini_os_list_is_empty. rewrite (proj2 (Z.eqb_neq head 0)) by done.
  apply (list_empty_spec h head l Hl).
Qed.
End dlist_ops.

(** ** The singly linked list a heap holds

    The last node points back at the head. *)
Fixpoint spath (h : sheap) (l : list Z) : Prop :=
  match l with
  | a :: (b :: _) as r => h !! a = Some b /\ spath h r
  | _ => True
  end.

Definition slist (h : sheap) (head : Z) (l : list Z) : Prop :=
  spath h (head :: l ++ [head]) /\ NoDup (head :: l) /\ 0 ∉ head :: l.

Lemma spath_ext h h' l : (∀ x, x ∈ removelast l -> h' !! x = h !! x) -> spath h l -> spath h' l.
Proof.
  induction l as [|a l IH]; [done|]. destruct l as [|b l]; [done|]. cbn [spath].
  intros H [E Hl]. split; [rewrite H; [done|left]|]. apply IH; [|done].
  intros x Hx. apply H. by right.
Qed.

Lemma slist_ext h h' head l : (∀ x, x ∈ head :: l -> h' !! x = h !! x) -> slist h head l -> slist h' head l.
Proof.
  intros H (Hp & Hnd & Hz). split; [|done]. eapply spath_ext; [|done].
  intros x Hx. apply H. by rewrite app_comm_cons, removelast_last in Hx.
Qed.

Lemma slist_next h head l : slist h head l -> h !! head = Some (hd head l).
Proof. intros (Hp & _). destruct l; cbn [app spath hd] in *; apply Hp. Qed.

Lemma snext_set_ne h node v h' x : snext_set h node v = Some h' -> x ≠ node -> h' !! x = h !! x.
Proof. unfold snext_set. destruct (h !! node); [|done]. intros [= <-] Hne. by rewrite lookup_insert_ne. Qed.

Lemma snext_set_dom h node v : is_Some (h !! node) -> snext_set h node v = Some (<[node := v]> h).
Proof. intros [y E]. unfold snext_set. by rewrite E. Qed.

Lemma slist_is_empty h head l :
  slist h head l -> mini_os_single_list_is_empty h head = Some (bool_decide (l = [])).
Proof.
  intros Hl. unfold mini_os_single_list_is_empty. rewrite (slist_next h head l Hl).
  destruct Hl as (_ & Hnd & Hz). rewrite (proj2 (Z.eqb_neq head 0)) by (intros ->; apply Hz; left).
  cbn [mbind option_bind]. f_equal. destruct l as [|x l]; simpl; [by rewrite Z.eqb_refl|].
  apply NoDup_cons in Hnd as [Hnd _]. destruct (Z.eqb_spec x head) as [->|]; [|done].
  exfalso. apply Hnd. left.
Qed.

Lemma slist_init h head : head ≠ 0 -> is_Some (h !! head) ->
  mini_os_single_list_init h head = Some (MINI_OK, <[head := head]> h) /\ slist (<[head := head]> h) head [].
Proof.
  intros Hz Hd. unfold mini_os_single_list_init. rewrite (proj2 (Z.eqb_neq head 0)) by done.
  rewrite snext_set_dom by done. split; [done|]. split; [cbn; by rewrite lookup_insert_eq|].
  split; [apply NoDup_singleton|]. set_solver.
Qed.

(** Pushing a fresh slot. *)
Lemma slist_push h head l n :
  slist h head l -> n ∉ head :: l -> n ≠ 0 -> is_Some (h !! n) ->
  ∃ h', mini_os_single_list_push_heap h head n = Some (MINI_OK, h') /\ slist h' head (n :: l) /\
    (∀ x, x ≠ n -> x ≠ head -> h' !! x = h !! x) /\ dom h' = dom h.
Proof.
  intros Hl Hn Hz Hd. pose proof (slist_next h head l Hl) as Eh. destruct Hl as (Hp & Hnd & H0).
  unfold mini_os_single_list_push_heap, mini_os_single_list_add_after, mini_os_single_list_add.
  rewrite Eh. cbn [mbind option_bind].
  assert (hd head l ≠ 0) as Hh0 by (destruct l; simpl; set_solver).
  rewrite (proj2 (Z.eqb_neq n 0)), (proj2 (Z.eqb_neq (hd head l) 0)), (proj2 (Z.eqb_neq head 0))
    by (try done; intros ->; apply H0; left). cbn [orb].
  assert (head ≠ n) as Hne by set_solver.
  rewrite snext_set_dom by done. cbn [mbind option_bind].
  rewrite snext_set_dom by (rewrite lookup_insert_ne by done; by eexists). cbn [mbind option_bind].
  eexists. split; [done|]. split; [|split].
  - split; [|split; [rewrite Permutation_swap; by constructor|set_solver]].
    assert (Hn' : n ∉ removelast (l ++ [head])) by (rewrite removelast_last; set_solver).
    cbn [app spath]. split; [by rewrite lookup_insert_eq|].
    assert (spath h (l ++ [head]) /\ l ++ [head] = hd head l :: tail (l ++ [head])) as [Hs El].
    { destruct l; cbn [app spath hd tail] in *; [done|]. by destruct Hp. }
    rewrite El. split; [by rewrite lookup_insert_ne, lookup_insert_eq by done|]. rewrite <- El.
    eapply spath_ext; [|exact Hs]. intros x Hx. rewrite removelast_last in Hx.
    rewrite !lookup_insert_ne; [done| |]; [set_solver|]. apply NoDup_cons in Hnd as [Hnd _]. set_solver.
  - intros x H1 H2. by rewrite !lookup_insert_ne.
  - rewrite dom_insert_lookup_L; [by rewrite dom_insert_lookup_L|].
    rewrite lookup_insert_ne by done. by eexists.
Qed.

(** Popping the first slot. *)
Lemma slist_pop h head n l :
  slist h head (n :: l) ->
  ∃ h', mini_os_single_list_remove h n head = Some (MINI_OK, h') /\ slist h' head l /\
    (∀ x, x ≠ n -> x ≠ head -> h' !! x = h !! x) /\ dom h' = dom h.
Proof.
  intros (Hp & Hnd & H0). unfold mini_os_single_list_remove.
  rewrite (proj2 (Z.eqb_neq n 0)), (proj2 (Z.eqb_neq head 0)) by (intros ->; apply H0; set_solver).
  cbn [orb]. cbn [app spath] in Hp. destruct Hp as [Eh Hp].
  assert (h !! n = Some (hd head l) /\ spath h (l ++ [head])) as [En Hs]
    by (destruct l; cbn [app spath hd] in *; tauto).
  rewrite En. cbn [mbind option_bind].
  assert (head ≠ n) as Hne by (apply NoDup_cons in Hnd as [Hnd _]; set_solver).
  rewrite snext_set_dom by (by eexists). cbn [mbind option_bind].
  rewrite snext_set_dom by (rewrite lookup_insert_ne by done; by eexists). cbn [mbind option_bind].
  eexists. split; [done|]. apply NoDup_cons in Hnd as [Hh Hnd]. pose proof Hnd as Hnd'.
  apply NoDup_cons in Hnd' as [Hnl Hl]. split; [|split].
  - split; [|split; [constructor; [set_solver|done]|set_solver]].
    assert (l ++ [head] = hd head l :: tail (l ++ [head])) as El by (by destruct l).
    rewrite El. split; [by rewrite lookup_insert_ne, lookup_insert_eq by done|]. rewrite <- El.
    eapply spath_ext; [|exact Hs]. intros x Hx. rewrite removelast_last in Hx.
    rewrite !lookup_insert_ne; [done| |]; set_solver.
  - intros x H1 H2. by rewrite !lookup_insert_ne.
  - rewrite dom_insert_lookup_L; [by rewrite dom_insert_lookup_L; [|by eexists]|].
    rewrite lookup_insert_ne by done. by eexists.
Qed.

(** ** Sequences of operations *)

Inductive mlist_op := MHead (n : Z) | MTail (n : Z) | MRemove (n : Z).

Definition mlist_exec (h : heap) (head : Z) (op : mlist_op) : option (Z * heap) :=
  match op with
  | MHead n => mini_os_list_head h n head
  | MTail n => mini_os_list_tail h n head
  | MRemove n => mini_os_list_remove h n
  end.

Fixpoint mlist_run (h : heap) (head : Z) (ops : list mlist_op) : option heap :=
  match ops with
  | [] => Some h
  | op :: ops => '(_, h) ← mlist_exec h head op; mlist_run h head ops
  end.

Definition mlist_abs (l : list Z) (op : mlist_op) : list Z :=
  match op with
  | MHead n => n :: l
  | MTail n => l ++ [n]
  | MRemove n => filter (fun x => x ≠ n) l
  end.

(** A node is queued once and only a queued node is removed. *)
Definition mlist_ok (nodes : gset Z) (head : Z) (l : list Z) (op : mlist_op) : Prop :=
  match op with
  | MHead n | MTail n => n ≠ 0 /\ n ∈ nodes /\ n ∉ head :: l
  | MRemove n => n ∈ l
  end.

Fixpoint mlist_ops_ok (nodes : gset Z) (head : Z) (l : list Z) (ops : list mlist_op) : Prop :=
  match ops with
  | [] => True
  | op :: ops => mlist_ok nodes head l op /\ mlist_ops_ok nodes head (mlist_abs l op) ops
  end.

Lemma mlist_exec_refines h head l op :
  dlist h head l -> head ≠ 0 -> 0 ∉ l -> mlist_ok (dom h) head l op ->
  ∃ h', mlist_exec h head op = Some (MINI_OK, h') /\ dom h' = dom h /\
        dlist h' head (mlist_abs l op) /\ 0 ∉ mlist_abs l op.
Proof.
  intros Hl Hh Hz Hok. destruct op as [n|n|n]; cbn [mlist_exec mlist_abs mlist_ok] in *.
  - destruct Hok as (? & ? & ?).
    destruct (mini_os_list_head_spec h head l Hl Hh Hz n) as (h' & ? & ? & ?); [done..|].
    exists h'. do 3 (split; [done|]). set_solver.
  - destruct Hok as (? & ? & ?).
    destruct (mini_os_list_tail_spec h head l Hl Hh Hz n) as (h' & ? & ? & ?); [done..|].
    exists h'. do 3 (split; [done|]). set_solver.
  - destruct (mini_os_list_remove_spec h head l Hl Hh Hz n Hok) as (h' & ? & ? & ? & _).
    exists h'. do 3 (split; [done|]). rewrite list_elem_of_filter. tauto.
Qed.

(** The kernel's doubly linked list implements a list at pointer level.  From a
    well-formed list, every sequence of insertions at the head, insertions at the tail and
    removals in which a node is queued at most once and only queued nodes are removed succeeds
    without touching a missing node, and leaves a well-formed circular list holding exactly the
    nodes, in the order, of the abstract list; [mini_os_list_is_empty] tells whether it is
    empty. *)
Theorem mini_os_list_refines h head l ops :
  dlist h head l -> head ≠ 0 -> 0 ∉ l -> mlist_ops_ok (dom h) head l ops ->
  ∃ h', mlist_run h head ops = Some h' /\ dlist h' head (foldl mlist_abs l ops) /\
        mini_os_list_is_empty h' head = Some (bool_decide (foldl mlist_abs l ops = [])).
Proof.
  revert h l. induction ops as [|op ops IH]; intros h l Hl Hh Hz Hok; cbn [mlist_run foldl].
  - exists h. split; [done|]. split; [done|]. by apply mini_os_list_is_empty_spec.
  - destruct Hok as [Hop Hok].
    destruct (mlist_exec_refines h head l op Hl Hh Hz Hop) as (h1 & -> & D & Hl1 & Hz1).
    cbn [mbind option_bind]. apply IH; try done. by rewrite D.
Qed.

Definition three_nodes : heap :=
  <[8 := mk_ln 8 8]> (<[16 := mk_ln 0 0]> (<[24 := mk_ln 0 0]> (<[32 := mk_ln 0 0]> ∅))).

Lemma mini_os_list_refines_witness :
  ∃ h', mlist_run three_nodes 8 [MTail 16; MHead 24; MTail 32; MRemove 16] = Some h' /\
        dlist h' 8 [24; 32] /\ mini_os_list_is_empty h' 8 = Some false.
Proof.
  apply (mini_os_list_refines three_nodes 8 [] [MTail 16; MHead 24; MTail 32; MRemove 16]).
  - split; [split; [reflexivity|split; [reflexivity|exact I]]|apply NoDup_singleton].
  - lia.
  - set_solver.
  - unfold three_nodes. cbn. rewrite !dom_insert_L. set_solver by lia.
Defined.
