(* ===== verification/MiniSlab.v ===== *)
(** * Slab size classes

    Models the slab part of src/lib/mini-os/src/memory.c that the CONFIG_OPEN_SLAB and
    CONFIG_MINI_OS_SLAB_STATIC builds share, with the default configuration of
    src/lib/mini-os/inc/mem_heap.h: pages of 2048 bytes, classes of 16, 32, 64, 128 and 256
    bytes, page [i] serving class [i mod 5].  The free slots of a class are on a singly linked
    list whose nodes are the slots themselves, so the functions run on the pointer heap of
    [MiniList]; [fl] is the address of the array of sentinels, whose elements are 4 bytes
    (32-bit pointers).  The theorems show that no slot is lost or handed out twice, that a slot
    fits the request and overlaps no other, and what a double free does. *)

From S2P Require Import Prelude Status IList MiniList.
From stdpp Require Import gmap.

#[local] Open Scope Z_scope.

Definition MINI_OS_SLAB_PAGE_SIZE : Z := 2048.
Definition MINI_OS_SLAB_MINI_BYTES : Z := 16.
Definition MINI_OS_SLAB_CLASS_COUNT : Z := 5.
Definition MINI_OS_SLAB_MAX_BYTES : Z :=
  Z.shiftl MINI_OS_SLAB_MINI_BYTES (MINI_OS_SLAB_CLASS_COUNT - 1).

(** [MINI_OS_SLAB_MINI_BYTES << cls] *)
Definition class_bytes (cls : Z) : Z := Z.shiftl MINI_OS_SLAB_MINI_BYTES cls.

(** The while loop of [mini_os_slab_class_of]. *)
Fixpoint class_loop (fuel : nat) (size cls : Z) : Z :=
  match fuel with
  | O => cls
  | S fuel =>
      if (cls + 1 <? MINI_OS_SLAB_CLASS_COUNT) && (size >? class_bytes cls)
      then class_loop fuel size (cls + 1) else cls
  end.

Definition mini_os_slab_class_of (size : Z) : Z :=
  let cls := class_loop (Z.to_nat MINI_OS_SLAB_CLASS_COUNT) size 0 in
  if size >? class_bytes cls then MINI_OS_SLAB_CLASS_COUNT else cls.

(** [&free_list[cls]] *)
Definition sentinel (fl cls : Z) : Z := fl + 4 * cls.

(** The inner loop of [mini_os_slab_zone_link]: [n] slots left, the next one is number [j]. *)
Fixpoint link_slots (h : sheap) (fl cls page slot_size : Z) (n : nat) (j : Z) : option sheap :=
  match n with
  | O => Some h
  | S n =>
      let slot := page + j * slot_size in
      '(_, h) ← mini_os_single_list_init h slot;
      '(_, h) ← mini_os_single_list_push_heap h (sentinel fl cls) slot;
      link_slots h fl cls page slot_size n (j + 1)
  end.

(** The outer loop: [n] pages left, the next one is page [i]. *)
Fixpoint link_pages (h : sheap) (base fl : Z) (n : nat) (i : Z) : option sheap :=
  match n with
  | O => Some h
  | S n =>
      let cls := i mod MINI_OS_SLAB_CLASS_COUNT in
      let slot_size := class_bytes cls in
      let slot_total := MINI_OS_SLAB_PAGE_SIZE / slot_size in
      h ← link_slots h fl cls (base + i * MINI_OS_SLAB_PAGE_SIZE) slot_size (Z.to_nat slot_total) 0;
      link_pages h base fl n (i + 1)
  end.

Definition mini_os_slab_zone_link (h : sheap) (base zone_size fl : Z) : option sheap :=
  link_pages h base fl (Z.to_nat (zone_size / MINI_OS_SLAB_PAGE_SIZE)) 0.

(** The loop that empties the class lists. *)
Fixpoint init_classes (h : sheap) (fl : Z) (n : nat) (cls : Z) : option sheap :=
  match n with
  | O => Some h
  | S n => '(_, h) ← mini_os_single_list_init h (sentinel fl cls); init_classes h fl n (cls + 1)
  end.

(** The slot, or 0 for NULL when the class is exhausted. *)
Definition mini_os_slab_class_alloc (h : sheap) (fl cls : Z) : option (Z * sheap) :=
  empty ← mini_os_single_list_is_empty h (sentinel fl cls);
  if (empty : bool) then Some (0, h) else
  slot ← h !! sentinel fl cls;
  '(_, h) ← mini_os_single_list_remove h slot (sentinel fl cls);
  Some (slot, h).

(** 1 freed, 0 not in the zone, -1 not on a slot boundary. *)
Definition mini_os_slab_zone_free (h : sheap) (base zone_size fl ptr : Z) : option (Z * sheap) :=
  if (zone_size =? 0) || (ptr <? base) || (ptr >=? base + zone_size) then Some (0, h) else
  let offset := ptr - base in
  let cls := (offset / MINI_OS_SLAB_PAGE_SIZE) mod MINI_OS_SLAB_CLASS_COUNT in
  let slot_size := class_bytes cls in
  if negb (offset mod slot_size =? 0) then Some (-1, h) else
  '(_, h) ← mini_os_single_list_init h ptr;
  '(_, h) ← mini_os_single_list_push_heap h (sentinel fl cls) ptr;
  Some (1, h).

(** ** Size classes *)

Lemma class_bytes_eq cls : 0 <= cls -> class_bytes cls = 16 * 2 ^ cls.
Proof. intros. unfold class_bytes. rewrite Z.shiftl_mul_pow2 by lia. done. Qed.

(** The five classes, case by case. *)
Lemma class_cases (P : Z -> Prop) : P 0 -> P 1 -> P 2 -> P 3 -> P 4 -> ∀ c, 0 <= c < 5 -> P c.
Proof.
  intros. assert (c = 0 \/ c = 1 \/ c = 2 \/ c = 3 \/ c = 4) as [->|[->|[->|[->| ->]]]] by lia; done.
Qed.

Lemma class_of_eq size :
  mini_os_slab_class_of size =
    if size >? 16 then if size >? 32 then if size >? 64 then if size >? 128 then
      if size >? 256 then 5 else 4 else 3 else 2 else 1 else 0.
Proof.
  unfold mini_os_slab_class_of. change (Z.to_nat MINI_OS_SLAB_CLASS_COUNT) with 5%nat.
  unfold class_loop, MINI_OS_SLAB_CLASS_COUNT.
  change (0 + 1) with 1. change (1 + 1) with 2. change (2 + 1) with 3. change (3 + 1) with 4.
  change (4 + 1) with 5.
  change (class_bytes 0) with 16. change (class_bytes 1) with 32. change (class_bytes 2) with 64.
  change (class_bytes 3) with 128. cbn [Z.ltb Z.compare Pos.compare Pos.compare_cont andb].
  destruct (size >? 16) eqn:E0; [|change (class_bytes 0) with 16; by rewrite E0].
  destruct (size >? 32) eqn:E1; [|change (class_bytes 1) with 32; by rewrite E1].
  destruct (size >? 64) eqn:E2; [|change (class_bytes 2) with 64; by rewrite E2].
  destruct (size >? 128) eqn:E3; [|change (class_bytes 3) with 128; by rewrite E3].
  change (class_bytes 4) with 256. done.
Qed.

(** The class of a request is the smallest class whose slots hold it; a request over 256
    bytes has none. *)
Lemma class_of_spec size :
  let c := mini_os_slab_class_of size in
  (c = MINI_OS_SLAB_CLASS_COUNT /\ MINI_OS_SLAB_MAX_BYTES < size) \/
  (0 <= c < MINI_OS_SLAB_CLASS_COUNT /\ size <= class_bytes c /\ ∀ c', 0 <= c' < c -> class_bytes c' < size).
Proof.
  cbv zeta. rewrite class_of_eq, !Z.gtb_ltb. change MINI_OS_SLAB_CLASS_COUNT with 5.
  change MINI_OS_SLAB_MAX_BYTES with 256.
  assert (∀ c c', c < 5 -> 0 <= c' < c -> c' = 0 /\ 0 < c \/ c' = 1 /\ 1 < c \/ c' = 2 /\ 2 < c \/ c' = 3 /\ 3 < c)
    as Hc by lia.
  repeat (match goal with |- context [?a <? size] => destruct (Z.ltb_spec a size) end);
    first [left; lia | right]; (split; [lia|]; split; [rewrite class_bytes_eq; lia|]);
    intros c' Hc'; apply Hc in Hc' as [[-> ?]|[[-> ?]|[[-> ?]|[-> ?]]]]; rewrite ?class_bytes_eq; lia.
Qed.

Lemma class_of_class c : 0 <= c < 5 -> mini_os_slab_class_of (class_bytes c) = c.
Proof. revert c. apply class_cases; reflexivity. Qed.

(** ** The lists of free slots *)

Definition sentinels (fl : Z) (n : nat) : list Z := (fun c => sentinel fl (Z.of_nat c)) <$> seq 0 n.

(** The free slots [ls !! c] of each class [c] are on its list, and no address is used twice. *)
Definition slab (h : sheap) (fl : Z) (ls : list (list Z)) : Prop :=
  (∀ c l, ls !! c = Some l -> slist h (sentinel fl (Z.of_nat c)) l) /\
  NoDup (sentinels fl (length ls) ++ concat ls).

Lemma sentinel_inj fl c c' : sentinel fl (Z.of_nat c) = sentinel fl (Z.of_nat c') -> c = c'.
Proof. unfold sentinel. lia. Qed.

Lemma elem_of_sentinels fl n x : x ∈ sentinels fl n <-> ∃ c, (c < n)%nat /\ x = sentinel fl (Z.of_nat c).
Proof.
  unfold sentinels. rewrite list_elem_of_fmap. split; intros (c & H1 & H2).
  - apply elem_of_seq in H2. exists c. split; [lia|done].
  - exists c. split; [done|]. apply elem_of_seq. lia.
Qed.

Lemma sentinels_NoDup fl n : NoDup (sentinels fl n).
Proof. unfold sentinels. apply NoDup_fmap_2; [intros x y; apply sentinel_inj|apply NoDup_seq]. Qed.

Lemma elem_of_concat_lookup (ls : list (list Z)) x : x ∈ concat ls <-> ∃ c l, ls !! c = Some l /\ x ∈ l.
Proof.
  induction ls as [|a ls IH]; simpl.
  - split; [intros H; by apply not_elem_of_nil in H|intros (c & l & H & _); by rewrite lookup_nil in H].
  - rewrite elem_of_app, IH. split.
    + intros [H|(c & l & H)]; [by exists O, a|by exists (S c), l].
    + intros ([|c] & l & H & Hx); [left; by injection H as ->|right; by exists c, l].
Qed.

Lemma concat_insert_perm (ls : list (list Z)) c l l' :
  ls !! c = Some l -> ∃ rest, concat ls ≡ₚ l ++ rest /\ concat (<[c := l']> ls) ≡ₚ l' ++ rest.
Proof.
  intros H. exists (concat (take c ls) ++ concat (drop (S c) ls)).
  rewrite insert_take_drop by (by eapply lookup_lt_Some).
  rewrite <- (take_drop_middle ls c l H) at 1. rewrite !concat_app. cbn [concat].
  split; by rewrite Permutation_app_swap_app.
Qed.

Lemma classes_apart fl ls c c' l l' x :
  NoDup (sentinels fl (length ls) ++ concat ls) -> ls !! c = Some l -> ls !! c' = Some l' -> c' ≠ c ->
  x ∈ sentinel fl (Z.of_nat c) :: l -> x ∉ sentinel fl (Z.of_nat c') :: l'.
Proof.
  intros Hnd Hl Hl' Hne Hx Hx'. apply NoDup_app in Hnd as (_ & Hsep & Hnd).
  assert (∀ k k' m m', ls !! k = Some m -> ls !! k' = Some m' -> sentinel fl (Z.of_nat k) ∉ m') as Hs.
  { intros k k' m m' Hk Hk' Hin. eapply (Hsep (sentinel fl (Z.of_nat k))).
    - apply elem_of_sentinels. exists k. split; [by eapply lookup_lt_Some|done].
    - apply elem_of_concat_lookup. eauto. }
  apply elem_of_cons in Hx as [Hx|Hx]; apply elem_of_cons in Hx' as [Hx'|Hx'].
  - apply Hne, (sentinel_inj fl). congruence.
  - subst x. by eapply Hs in Hx'.
  - subst x. by eapply Hs in Hx.
  - destruct (concat_insert_perm ls c l [] Hl) as (rest & E1 & E2). rewrite E1 in Hnd.
    apply NoDup_app in Hnd as (_ & Hd & _). eapply (Hd x Hx). rewrite app_nil_l in E2. rewrite <- E2.
    apply elem_of_concat_lookup. exists c', l'. split; [|done]. by rewrite list_lookup_insert_ne.
Qed.

(** A change to one class list leaves the others. *)
Lemma slab_update h h' fl ls c l l' :
  slab h fl ls -> ls !! c = Some l -> slist h' (sentinel fl (Z.of_nat c)) l' ->
  (∀ x, (x ∉ sentinel fl (Z.of_nat c) :: l') -> (x ∉ l) -> h' !! x = h !! x) ->
  NoDup (sentinels fl (length ls) ++ concat (<[c := l']> ls)) -> slab h' fl (<[c := l']> ls).
Proof.
  intros [Hs Hold] Hl Hl' Hx Hnd. assert (c < length ls)%nat as Hc by (by eapply lookup_lt_Some).
  rewrite <- (length_insert ls c l') in Hnd. split; [|done].
  intros k m Hk. destruct (decide (k = c)) as [->|Hne].
  - rewrite list_lookup_insert_eq in Hk by done. by injection Hk as <-.
  - pose proof Hk as Hk'. rewrite list_lookup_insert_ne in Hk by done.
    eapply slist_ext; [|by apply Hs]. intros x Hin. apply Hx.
    + eapply (classes_apart fl _ k c m l'); [done..| |done|done]. by apply list_lookup_insert_eq.
    + intros Hxl. eapply (classes_apart fl ls k c m l); [done..|right; exact Hxl].
Qed.

Lemma slab_push h fl ls c l n :
  slab h fl ls -> ls !! c = Some l -> n ∉ sentinels fl (length ls) ++ concat ls -> n ≠ 0 ->
  is_Some (h !! n) ->
  ∃ h', (mini_os_single_list_init h n ≫= fun '(_, h) =>
           mini_os_single_list_push_heap h (sentinel fl (Z.of_nat c)) n) = Some (MINI_OK, h') /\
    slab h' fl (<[c := n :: l]> ls) /\ dom h' = dom h.
Proof.
  intros Hs Hl Hn Hz Hd. assert (c < length ls)%nat as Hc by (by eapply lookup_lt_Some).
  unfold mini_os_single_list_init. rewrite (proj2 (Z.eqb_neq n 0)) by done.
  rewrite snext_set_dom by done. cbn [mbind option_bind].
  assert (n ∉ sentinel fl (Z.of_nat c) :: l) as Hnl.
  { intros Hin. apply Hn, elem_of_app. apply elem_of_cons in Hin as [->|Hin].
    - left. apply elem_of_sentinels. by exists c.
    - right. apply elem_of_concat_lookup. eauto. }
  destruct (slist_push (<[n := n]> h) (sentinel fl (Z.of_nat c)) l n) as (h' & E & Hl' & Hx & D).
  - eapply slist_ext; [|by apply Hs]. intros x Hin. rewrite lookup_insert_ne; [done|]. by intros ->.
  - done.
  - done.
  - rewrite lookup_insert_eq. by eexists.
  - exists h'. split; [done|]. split.
    + apply (slab_update h h' fl ls c l (n :: l)); try done.
      * intros x H1 H2. rewrite Hx by set_solver. rewrite lookup_insert_ne; [done|]. set_solver.
      * destruct (concat_insert_perm ls c l (n :: l) Hl) as (rest & E1 & E2). rewrite E2.
        destruct Hs as [_ Hnd]. cbn [app]. rewrite <- E1, <- Permutation_middle. by constructor.
    + rewrite D. by apply dom_insert_lookup_L.
Qed.

Lemma slab_pop h fl ls c n l :
  slab h fl ls -> ls !! c = Some (n :: l) ->
  ∃ h', mini_os_slab_class_alloc h fl (Z.of_nat c) = Some (n, h') /\ slab h' fl (<[c := l]> ls) /\ dom h' = dom h.
Proof.
  intros Hs Hl. pose proof (proj1 Hs c (n :: l) Hl) as Hsl.
  unfold mini_os_slab_class_alloc. rewrite (slist_is_empty _ _ _ Hsl). cbn [mbind option_bind].
  rewrite bool_decide_eq_false_2 by done. rewrite (slist_next _ _ _ Hsl). cbn [mbind option_bind hd].
  destruct (slist_pop _ _ _ _ Hsl) as (h' & -> & Hl' & Hx & D). cbn [mbind option_bind].
  exists h'. split; [done|]. split; [|done].
  apply (slab_update h h' fl ls c (n :: l) l); try done.
  - intros x H1 H2. apply Hx; set_solver.
  - destruct (concat_insert_perm ls c (n :: l) l Hl) as (rest & E1 & E2). rewrite E2.
    destruct Hs as [_ Hnd]. rewrite E1 in Hnd. cbn [app] in Hnd.
    rewrite <- Permutation_middle in Hnd. by apply NoDup_cons in Hnd as [_ ?].
Qed.

Lemma slab_pop_empty h fl ls c :
  slab h fl ls -> ls !! c = Some [] -> mini_os_slab_class_alloc h fl (Z.of_nat c) = Some (0, h).
Proof.
  intros Hs Hl. pose proof (proj1 Hs c [] Hl) as Hsl.
  unfold mini_os_slab_class_alloc. by rewrite (slist_is_empty _ _ _ Hsl).
Qed.

(** ** Geometry of the zone *)

Fixpoint slots_from (page slot_size : Z) (n : nat) (j : Z) : list Z :=
  match n with
  | O => []
  | S n => page + j * slot_size :: slots_from page slot_size n (j + 1)
  end.

Fixpoint pages_slots (base : Z) (n : nat) (i : Z) : list Z :=
  match n with
  | O => []
  | S n =>
      let ss := class_bytes (i mod 5) in
      slots_from (base + i * 2048) ss (Z.to_nat (2048 / ss)) 0 ++ pages_slots base n (i + 1)
  end.

(** Every slot of a zone. *)
Definition zone_slots (base zone_size : Z) : list Z := pages_slots base (Z.to_nat (zone_size / 2048)) 0.

(** The class of the page an address is in, and the size of its slots. *)
Definition slot_class (base x : Z) : Z := ((x - base) / 2048) mod 5.
Definition slot_bytes (base x : Z) : Z := class_bytes (slot_class base x).

Lemma elem_of_slots_from page ss n j x :
  x ∈ slots_from page ss n j <-> ∃ k, j <= k < j + Z.of_nat n /\ x = page + k * ss.
Proof.
  revert j. induction n as [|n IH]; intros j; cbn [slots_from].
  - split; [intros H; by apply not_elem_of_nil in H|intros (k & H & _); lia].
  - rewrite elem_of_cons, IH. split.
    + intros [->|(k & H & ->)]; [exists j; split; [lia|done]|exists k; split; [lia|done]].
    + intros (k & H & ->). destruct (decide (k = j)) as [->|]; [by left|right].
      exists k. split; [lia|done].
Qed.

Lemma elem_of_pages_slots base n i x :
  x ∈ pages_slots base n i <->
  ∃ p k, i <= p < i + Z.of_nat n /\ 0 <= k < 2048 / class_bytes (p mod 5) /\
         x = base + p * 2048 + k * class_bytes (p mod 5).
Proof.
  revert i. induction n as [|n IH]; intros i; cbn [pages_slots].
  - split; [intros H; by apply not_elem_of_nil in H|intros (p & k & H & _); lia].
  - rewrite elem_of_app, elem_of_slots_from, IH. split.
    + intros [(k & H & ->)|(p & k & H & Hk & ->)]; [exists i, k|exists p, k]; repeat split; try lia; done.
    + intros (p & k & H & Hk & ->). destruct (decide (p = i)) as [->|].
      * left. exists k. split; [lia|done].
      * right. exists p, k. repeat split; try lia; done.
Qed.

Lemma class_bytes_range c : 0 <= c < 5 -> 16 <= class_bytes c <= 256 /\ 2048 mod class_bytes c = 0 /\
  class_bytes c * (2048 / class_bytes c) = 2048.
Proof.
  revert c. apply class_cases; (split; [|split]); try (vm_compute; done); vm_compute; split; done.
Qed.

Lemma mod5_range p : 0 <= p mod 5 < 5.
Proof. apply Z.mod_pos_bound. lia. Qed.

(** The page and the slot number of a slot are read back from its address. *)
Lemma slot_at base p k (ss := class_bytes (p mod 5)) (x := base + p * 2048 + k * ss) :
  0 <= k < 2048 / ss ->
  (x - base) / 2048 = p /\ slot_class base x = p mod 5 /\ (x - base) mod ss = 0 /\
  base + p * 2048 <= x /\ x + ss <= base + (p + 1) * 2048.
Proof.
  intros Hk. destruct (class_bytes_range (p mod 5) (mod5_range p)) as (Hr & Hm & Hq). fold ss in Hr, Hm, Hq.
  assert (0 <= k * ss /\ k * ss + ss <= 2048) as [H1 H2] by nia.
  assert ((x - base) / 2048 = p) as Hp.
  { replace (x - base) with (k * ss + p * 2048) by (unfold x; lia). rewrite Z.div_add by lia.
    rewrite Z.div_small by lia. lia. }
  split; [done|]. split; [unfold slot_class; by rewrite Hp|]. split; [|unfold x; lia].
  replace (x - base) with (0 + (k + p * (2048 / ss)) * ss); [by rewrite Z.mod_add, Z.mod_0_l by lia|].
  unfold x. transitivity (k * ss + p * (ss * (2048 / ss))); [lia|rewrite Hq; lia].
Qed.

Lemma slots_from_NoDup page ss n j : 0 < ss -> NoDup (slots_from page ss n j).
Proof.
  intros Hss. revert j. induction n as [|n IH]; intros j; cbn [slots_from]; constructor; [|done].
  rewrite elem_of_slots_from. intros (k & H & E). assert ((k - j) * ss = 0) by lia. nia.
Qed.

Lemma pages_slots_NoDup base n i : NoDup (pages_slots base n i).
Proof.
  revert i. induction n as [|n IH]; intros i; cbn [pages_slots]; [constructor|].
  destruct (class_bytes_range (i mod 5) (mod5_range i)) as (Hr & Hm & Hq).
  apply NoDup_app. split; [apply slots_from_NoDup; lia|]. split; [|done].
  intros x Hx Hx'. apply elem_of_slots_from in Hx as (k & Hk & ->).
  apply elem_of_pages_slots in Hx' as (p & k' & Hp & Hk' & E).
  destruct (slot_at base i k) as (A & _); [lia|]. destruct (slot_at base p k' Hk') as (B & _).
  rewrite <- E in B. rewrite A in B. lia.
Qed.

(** Two slots of a zone do not overlap. *)
Lemma slots_disjoint base zone x y :
  x ∈ zone_slots base zone -> y ∈ zone_slots base zone -> x ≠ y ->
  x + slot_bytes base x <= y \/ y + slot_bytes base y <= x.
Proof.
  intros Hx Hy Hne. apply elem_of_pages_slots in Hx as (p & k & Hp & Hk & ->).
  apply elem_of_pages_slots in Hy as (p' & k' & Hp' & Hk' & ->).
  unfold slot_bytes. destruct (slot_at base p k Hk) as (_ & -> & _ & L & U).
  destruct (slot_at base p' k' Hk') as (_ & -> & _ & L' & U').
  destruct (Z.lt_trichotomy p p') as [H|[->|H]]; [nia| |nia].
  destruct (class_bytes_range (p' mod 5) (mod5_range p')) as (Hr & _).
  destruct (Z.lt_trichotomy k k') as [H|[->|H]]; [left; nia|done|right; nia].
Qed.

Lemma zone_slots_in base zone x :
  0 <= zone -> x ∈ zone_slots base zone -> base <= x /\ x + slot_bytes base x <= base + zone.
Proof.
  intros Hz Hx. apply elem_of_pages_slots in Hx as (p & k & Hp & Hk & ->). unfold slot_bytes.
  destruct (slot_at base p k Hk) as (_ & -> & _ & L & U).
  assert (0 <= zone / 2048) by (apply Z.div_pos; lia). pose proof (Z.mul_div_le zone 2048). lia.
Qed.

(** Every free slot is on the list of its own class. *)
Definition classed (base : Z) (ls : list (list Z)) : Prop :=
  ∀ c l x, ls !! c = Some l -> x ∈ l -> slot_class base x = Z.of_nat c.

Lemma classed_insert base ls c l l' :
  classed base ls -> ls !! c = Some l -> (∀ x, x ∈ l' -> slot_class base x = Z.of_nat c) ->
  classed base (<[c := l']> ls).
Proof.
  intros H Hl Hl' k m x Hk Hx. destruct (decide (k = c)) as [->|].
  - rewrite list_lookup_insert_eq in Hk by (by eapply lookup_lt_Some). injection Hk as <-. by apply Hl'.
  - rewrite list_lookup_insert_ne in Hk by done. by eapply H.
Qed.

(** ** The static zone and the entry points of a zone *)

(** [mini_os_memory_slab_alloc] and [mini_os_slab_static_alloc]. *)
Definition mini_os_slab_static_alloc (h : sheap) (fl size : Z) : option (Z * sheap) :=
  let cls := mini_os_slab_class_of size in
  if cls >=? MINI_OS_SLAB_CLASS_COUNT then Some (0, h) else mini_os_slab_class_alloc h fl cls.

Definition mini_os_slab_static_free (h : sheap) (mem static_size fl ptr : Z) : option (Z * sheap) :=
  mini_os_slab_zone_free h mem static_size fl ptr.

(** The heap when the zone is ready. *)
Definition mini_os_slab_static_zone_setup (h : sheap) (mem static_size fl : Z) : option sheap :=
  h ← init_classes h fl (Z.to_nat MINI_OS_SLAB_CLASS_COUNT) 0;
  mini_os_slab_zone_link h mem static_size fl.

Section zone.
Context (base zone fl : Z).

(** The memory of the zone: the sentinels and the slots exist, none is NULL, and the
    sentinels lie outside the zone. *)
Definition zone_memory (h : sheap) : Prop :=
  (∀ x, x ∈ sentinels fl 5 ++ zone_slots base zone -> is_Some (h !! x) /\ x ≠ 0) /\
  (∀ x, x ∈ sentinels fl 5 -> x ∉ zone_slots base zone) /\ 0 <= zone.

(** [live] are the slots handed out. *)
Record slab_inv (h : sheap) (ls : list (list Z)) (live : list Z) : Prop := {
  si_slab : slab h fl ls;
  si_len : length ls = 5%nat;
  si_class : classed base ls;
  si_slots : concat ls ++ live ≡ₚ zone_slots base zone;
  si_mem : zone_memory h;
}.

Lemma link_slots_spec page ss n j h ls c l :
  slab h fl ls -> ls !! c = Some l -> length ls = 5%nat -> 0 < ss ->
  (∀ x, x ∈ slots_from page ss n j -> is_Some (h !! x) /\ x ≠ 0 /\ x ∉ sentinels fl 5 ++ concat ls) ->
  ∃ h' l', link_slots h fl (Z.of_nat c) page ss n j = Some h' /\ slab h' fl (<[c := l']> ls) /\
    l' ≡ₚ slots_from page ss n j ++ l /\ dom h' = dom h.
Proof.
  intros Hs Hl Hlen Hss. revert h ls l j Hs Hl Hlen. induction n as [|n IH]; intros h ls l j Hs Hl Hlen Hx;
    cbn [link_slots slots_from app].
  - exists h, l. split; [done|]. by rewrite list_insert_id.
  - destruct (Hx (page + j * ss)) as (Hd & Hz & Hfr); [left|].
    destruct (slab_push h fl ls c l (page + j * ss)) as (h1 & E & Hs1 & D1); try done; [by rewrite Hlen|].
    revert E. destruct (mini_os_single_list_init h (page + j * ss)) as [[e1 h0]|]; [|done].
    cbn [mbind option_bind]. intros ->. cbn [mbind option_bind].
    assert (c < length ls)%nat as Hc by (by eapply lookup_lt_Some).
    destruct (IH h1 (<[c := page + j * ss :: l]> ls) (page + j * ss :: l) (j + 1)) as (h2 & l2 & -> & Hs2 & P & D2).
    + done.
    + by apply list_lookup_insert_eq.
    + by rewrite length_insert.
    + intros x Hin. destruct (Hx x) as (A & B & C); [by right|].
      split; [apply elem_of_dom; rewrite D1; by apply elem_of_dom|]. split; [done|].
      destruct (concat_insert_perm ls c l (page + j * ss :: l) Hl) as (rest & E1 & E2).
      rewrite E2. rewrite E1 in C. pose proof (slots_from_NoDup page ss (S n) j Hss) as Hnd.
      cbn [slots_from] in Hnd. apply NoDup_cons in Hnd as [Hnd _]. set_solver.
    + exists h2, l2. rewrite list_insert_insert_eq in Hs2. split; [done|]. split; [done|].
      split; [|by rewrite D2]. rewrite P. by rewrite <- Permutation_middle.
Qed.

Lemma link_pages_spec n i h ls :
  slab h fl ls -> length ls = 5%nat -> classed base ls -> 0 <= i ->
  (∀ x, x ∈ pages_slots base n i -> is_Some (h !! x) /\ x ≠ 0 /\ x ∉ sentinels fl 5 ++ concat ls) ->
  ∃ h' ls', link_pages h base fl n i = Some h' /\ slab h' fl ls' /\ length ls' = 5%nat /\ classed base ls' /\
    concat ls' ≡ₚ pages_slots base n i ++ concat ls /\ dom h' = dom h.
Proof.
  revert h ls i. induction n as [|n IH]; intros h ls i Hs Hlen Hcl Hi Hx; cbn [link_pages pages_slots app].
  { by exists h, ls. }
  pose proof (mod5_range i) as Hm. destruct (class_bytes_range (i mod 5) Hm) as (Hr & _).
  change MINI_OS_SLAB_CLASS_COUNT with 5. change MINI_OS_SLAB_PAGE_SIZE with 2048.
  destruct (lookup_lt_is_Some_2 ls (Z.to_nat (i mod 5))) as [l Hl]; [lia|].
  destruct (link_slots_spec (base + i * 2048) (class_bytes (i mod 5)) (Z.to_nat (2048 / class_bytes (i mod 5))) 0
    h ls (Z.to_nat (i mod 5)) l) as (h1 & l1 & E & Hs1 & P1 & D1); try done; [lia| |].
  { intros x Hin. apply Hx. cbn [pages_slots]. apply elem_of_app. by left. }
  rewrite Z2Nat.id in E by lia. cbv zeta. rewrite E. cbn [mbind option_bind].
  destruct (concat_insert_perm ls _ l l1 Hl) as (rest & E1 & E2).
  assert (concat (<[Z.to_nat (i mod 5) := l1]> ls) ≡ₚ
    slots_from (base + i * 2048) (class_bytes (i mod 5)) (Z.to_nat (2048 / class_bytes (i mod 5))) 0 ++ concat ls) as E3
    by (rewrite E2, P1, <- app_assoc, <- E1; done).
  destruct (IH h1 (<[Z.to_nat (i mod 5) := l1]> ls) (i + 1)) as (h2 & ls2 & -> & Hs2 & L2 & C2 & P2 & D2); try done.
  - by rewrite length_insert.
  - apply (classed_insert base ls _ l); [done..|]. intros x Hin. rewrite P1 in Hin.
    apply elem_of_app in Hin as [Hin|Hin]; [|by eapply Hcl].
    apply elem_of_slots_from in Hin as (k & Hk & ->).
    destruct (slot_at base i k) as (_ & -> & _); [lia|]. by rewrite Z2Nat.id by lia.
  - lia.
  - intros x Hin. destruct (Hx x) as (A & B & C); [cbn [pages_slots]; apply elem_of_app; by right|].
    split; [apply elem_of_dom; rewrite D1; by apply elem_of_dom|]. split; [done|].
    rewrite E3. pose proof (pages_slots_NoDup base (S n) i) as Hnd. cbn [pages_slots] in Hnd.
    apply NoDup_app in Hnd as (_ & Hd & _). intros Hbad. apply elem_of_app in Hbad as [Hb|Hb]; [apply C, elem_of_app; by left|].
    apply elem_of_app in Hb as [Hb|Hb]; [by apply (Hd x Hb)|apply C, elem_of_app; by right].
  - exists h2, ls2. split; [done|]. split; [done|]. split; [done|]. split; [done|].
    split; [|by rewrite D2]. rewrite P2, E3, !app_assoc. f_equiv. by rewrite Permutation_app_comm.
Qed.

Lemma init_classes_spec n c h :
  (∀ k, (c <= k < c + n)%nat -> is_Some (h !! sentinel fl (Z.of_nat k)) /\ sentinel fl (Z.of_nat k) ≠ 0) ->
  ∃ h', init_classes h fl n (Z.of_nat c) = Some h' /\ dom h' = dom h /\
    (∀ k, (c <= k < c + n)%nat -> slist h' (sentinel fl (Z.of_nat k)) []) /\
    (∀ k, (k < c)%nat -> h' !! sentinel fl (Z.of_nat k) = h !! sentinel fl (Z.of_nat k)).
Proof.
  revert c h. induction n as [|n IH]; intros c h Hk; cbn [init_classes].
  - exists h. split; [done|]. split; [done|]. split; [lia|done].
  - destruct (Hk c) as [Hd Hz]; [lia|]. destruct (slist_init h _ Hz Hd) as [-> Hl]. cbn [mbind option_bind].
    replace (Z.of_nat c + 1) with (Z.of_nat (S c)) by lia.
    destruct (IH (S c) (<[sentinel fl (Z.of_nat c) := sentinel fl (Z.of_nat c)]> h)) as (h' & -> & D & L & O).
    + intros k Hk'. destruct (Hk k) as [A B]; [lia|]. split; [|done].
      rewrite lookup_insert_ne by (intros H; apply sentinel_inj in H; lia). done.
    + exists h'. split; [done|]. split; [rewrite D; by apply dom_insert_lookup_L|]. split.
      * intros k Hk'. destruct (decide (k = c)) as [->|]; [|apply L; lia].
        eapply slist_ext; [|exact Hl]. intros x Hx. apply list_elem_of_singleton in Hx as ->. apply O. lia.
      * intros k Hk'. rewrite O by lia. apply lookup_insert_ne. intros H. apply sentinel_inj in H. lia.
Qed.

Lemma concat_replicate_nil (n : nat) : concat (replicate n ([] : list Z)) = [].
Proof. by induction n. Qed.

Lemma zone_memory_dom h h' : dom h' = dom h -> zone_memory h -> zone_memory h'.
Proof.
  intros D (H1 & H2). split; [|done]. intros x Hx. destruct (H1 x Hx). split; [|done].
  apply elem_of_dom. rewrite D. by apply elem_of_dom.
Qed.

(** Setting up the zone frees every slot. *)
Lemma zone_setup_inv h : zone_memory h ->
  ∃ h' ls, mini_os_slab_static_zone_setup h base zone fl = Some h' /\ slab_inv h' ls [].
Proof.
  intros Hm. pose proof Hm as (H1 & H2 & Hz). unfold mini_os_slab_static_zone_setup, mini_os_slab_zone_link.
  destruct (init_classes_spec 5 0 h) as (h1 & E1 & D1 & L1 & _).
  { intros k Hk. apply H1, elem_of_app. left. apply elem_of_sentinels. exists k. split; [lia|done]. }
  change (Z.to_nat MINI_OS_SLAB_CLASS_COUNT) with 5%nat. change (Z.of_nat 0) with 0 in E1. rewrite E1.
  cbn [mbind option_bind].
  destruct (link_pages_spec (Z.to_nat (zone / 2048)) 0 h1 (replicate 5 [])) as (h2 & ls & E2 & S2 & Len & C2 & P2 & D2).
  - split.
    + intros c l Hc. apply lookup_replicate in Hc as [-> Hc]. apply L1. lia.
    + rewrite concat_replicate_nil, app_nil_r. apply sentinels_NoDup.
  - done.
  - intros c l x Hc Hx. apply lookup_replicate in Hc as [-> _]. by apply not_elem_of_nil in Hx.
  - lia.
  - intros x Hx. destruct (H1 x) as [A B]; [apply elem_of_app; by right|].
    split; [apply elem_of_dom; rewrite D1; by apply elem_of_dom|]. split; [done|].
    rewrite concat_replicate_nil, app_nil_r. intros Hs. by apply (H2 x Hs).
  - exists h2, ls. split; [exact E2|]. split; try done.
    + by rewrite P2, concat_replicate_nil, !app_nil_r.
    + eapply zone_memory_dom; [|exact Hm]. congruence.
Qed.

(** An allocation: a fitting slot that was free, or NULL when there is none. *)
Lemma slab_alloc_inv h ls live size :
  slab_inv h ls live ->
  (∃ p h' ls', mini_os_slab_static_alloc h fl size = Some (p, h') /\ slab_inv h' ls' (p :: live) /\
     p ≠ 0 /\ size <= slot_bytes base p) \/
  (mini_os_slab_static_alloc h fl size = Some (0, h) /\
     (MINI_OS_SLAB_MAX_BYTES < size \/
      ∃ c, Z.of_nat c = mini_os_slab_class_of size /\ ls !! c = Some [])).
Proof.
  intros [Hs Hlen Hcl Hsl Hm]. unfold mini_os_slab_static_alloc.
  destruct (class_of_spec size) as [[-> Hbig]|(Hc & Hfit & _)]; [right; split; [done|by left]|].
  rewrite Z.geb_leb. destruct (Z.leb_spec MINI_OS_SLAB_CLASS_COUNT (mini_os_slab_class_of size)); [lia|].
  unfold MINI_OS_SLAB_CLASS_COUNT in *.
  destruct (lookup_lt_is_Some_2 ls (Z.to_nat (mini_os_slab_class_of size))) as [l Hl]; [lia|].
  pose proof (Z2Nat.id (mini_os_slab_class_of size)) as Hid.
  destruct l as [|n l].
  - right. pose proof (slab_pop_empty h fl ls _ Hs Hl) as E. rewrite Hid in E by lia. split; [done|]. right.
    eexists. split; [by apply Hid; lia|done].
  - left. destruct (slab_pop h fl ls _ n l Hs Hl) as (h' & E & Hs' & D). rewrite Hid in E by lia.
    destruct (concat_insert_perm ls _ (n :: l) l Hl) as (rest & P1 & P2).
    exists n, h', (<[Z.to_nat (mini_os_slab_class_of size) := l]> ls).
    assert (n ∈ zone_slots base zone) as Hin.
    { rewrite <- Hsl, P1. cbn [app]. left. }
    split; [done|]. split; [split|split].
    + done.
    + by rewrite length_insert.
    + eapply classed_insert; [done..|]. intros x Hx. eapply Hcl; [done|]. by right.
    + rewrite <- Hsl, P1, P2. cbn [app]. by rewrite <- Permutation_middle.
    + by eapply zone_memory_dom.
    + apply Hm, elem_of_app. by right.
    + unfold slot_bytes. rewrite (Hcl _ _ n Hl) by left. by rewrite Hid by lia.
Qed.

(** A slot of the zone passes the checks of [mini_os_slab_zone_free]. *)
Lemma zone_free_slot h p :
  0 <= zone -> p ∈ zone_slots base zone ->
  mini_os_slab_zone_free h base zone fl p =
    ('(_, h) ← mini_os_single_list_init h p;
     '(_, h) ← mini_os_single_list_push_heap h (sentinel fl (slot_class base p)) p;
     Some (1, h)).
Proof.
  intros H0 Hin. pose proof (zone_slots_in base zone p H0 Hin) as [Hlo Hhi].
  assert (0 < slot_bytes base p /\ (p - base) mod slot_bytes base p = 0) as [Hpos Hal].
  { apply elem_of_pages_slots in Hin as (i & k & Hi & Hk & E).
    destruct (slot_at base i k Hk) as (_ & Hc & Hmod & _). rewrite <- E in Hc, Hmod.
    unfold slot_bytes. rewrite Hc. split; [|done].
    destruct (class_bytes_range (i mod 5) (mod5_range i)). lia. }
  unfold mini_os_slab_zone_free. rewrite Z.geb_leb.
  rewrite (proj2 (Z.eqb_neq zone 0)), (proj2 (Z.ltb_ge p base)), (proj2 (Z.leb_gt (base + zone) p)) by lia.
  cbn [orb]. fold (slot_class base p). change (class_bytes _) with (slot_bytes base p).
  rewrite Hal. reflexivity.
Qed.

(** A pointer outside the zone is left to the caller. *)
Lemma zone_free_outside h p :
  ~ base <= p < base + zone -> mini_os_slab_zone_free h base zone fl p = Some (0, h).
Proof.
  intros Hp. unfold mini_os_slab_zone_free. rewrite Z.geb_leb.
  destruct (Z.ltb_spec p base), (Z.leb_spec (base + zone) p); rewrite ?orb_true_r; try done. lia.
Qed.

(** Freeing a slot that was handed out puts it in front of its class. *)
Lemma slab_free_inv h ls live p rest :
  slab_inv h ls live -> live ≡ₚ p :: rest ->
  ∃ h' ls', mini_os_slab_static_free h base zone fl p = Some (1, h') /\ slab_inv h' ls' rest /\
    ∃ l, ls' !! Z.to_nat (slot_class base p) = Some (p :: l).
Proof.
  intros [Hs Hlen Hcl Hsl Hm] Hp. rewrite Hp in Hsl.
  assert (p ∈ zone_slots base zone) as Hin by (rewrite <- Hsl; apply elem_of_app; right; left).
  unfold mini_os_slab_static_free. rewrite (zone_free_slot h p (proj2 (proj2 Hm)) Hin).
  assert (0 <= slot_class base p < 5) as Hc by apply mod5_range.
  destruct (lookup_lt_is_Some_2 ls (Z.to_nat (slot_class base p))) as [l Hl]; [lia|].
  assert (p ∉ sentinels fl (length ls) ++ concat ls) as Hfresh.
  { rewrite Hlen. intros Hbad. apply elem_of_app in Hbad as [Hb|Hb]; [by apply (proj1 (proj2 Hm) p Hb)|].
    pose proof (pages_slots_NoDup base (Z.to_nat (zone / 2048)) 0) as Hnd. fold (zone_slots base zone) in Hnd.
    rewrite <- Hsl in Hnd. apply NoDup_app in Hnd as (_ & Hd & _). apply (Hd p Hb). left. }
  destruct (proj1 Hm p) as [Hd Hz]; [apply elem_of_app; by right|].
  destruct (slab_push h fl ls _ l p Hs Hl Hfresh Hz Hd) as (h' & E & Hs' & D).
  revert E. destruct (mini_os_single_list_init h p) as [[e h0]|]; [|done]. cbn [mbind option_bind].
  rewrite Z2Nat.id by lia. intros ->. cbn [mbind option_bind].
  destruct (concat_insert_perm ls _ l (p :: l) Hl) as (r & P1 & P2).
  exists h', (<[Z.to_nat (slot_class base p) := p :: l]> ls). split; [done|]. split; [split|].
  - done.
  - by rewrite length_insert.
  - eapply classed_insert; [done..|]. intros x Hx. apply elem_of_cons in Hx as [->|Hx]; [lia|by eapply Hcl].
  - rewrite <- Hsl, P2, P1. cbn [app]. by rewrite <- Permutation_middle.
  - by eapply zone_memory_dom.
  - exists l. apply list_lookup_insert_eq. lia.
Qed.

(** ** A client of the zone *)

Inductive slab_op := SAlloc (size : Z) | SFree (p : Z).

Definition slab_exec (h : sheap) (op : slab_op) : option (Z * sheap) :=
  match op with
  | SAlloc size => mini_os_slab_static_alloc h fl size
  | SFree p => mini_os_slab_static_free h base zone fl p
  end.

(** The pointers the client holds, with the sizes it asked for. *)
Definition next_live (live : list (Z * Z)) (op : slab_op) (r : Z) : list (Z * Z) :=
  match op with
  | SAlloc size => if r =? 0 then live else (r, size) :: live
  | SFree p => filter (fun q => q.1 ≠ p) live
  end.

Fixpoint slab_run (h : sheap) (live : list (Z * Z)) (ops : list slab_op) : option (sheap * list (Z * Z)) :=
  match ops with
  | [] => Some (h, live)
  | op :: ops => '(r, h) ← slab_exec h op; slab_run h (next_live live op r) ops
  end.

(** The client frees only pointers it holds. *)
Fixpoint disciplined (h : sheap) (live : list (Z * Z)) (ops : list slab_op) : Prop :=
  match ops with
  | [] => True
  | op :: ops =>
      match op with SFree p => p ∈ live.*1 | SAlloc _ => True end /\
      ∀ r h', slab_exec h op = Some (r, h') -> disciplined h' (next_live live op r) ops
  end.

Lemma live_remove (live : list (Z * Z)) p :
  NoDup live.*1 -> p ∈ live.*1 -> live.*1 ≡ₚ p :: (filter (fun q => q.1 ≠ p) live).*1.
Proof.
  induction live as [|[q s] live IH]; cbn [fmap list_fmap fst]; intros Hnd Hin; [by apply not_elem_of_nil in Hin|].
  apply NoDup_cons in Hnd as [Hq Hnd]. rewrite filter_cons. cbn [fst].
  apply elem_of_cons in Hin as [->|Hin].
  - rewrite decide_False by (intros H; by apply H). f_equiv.
    clear IH Hnd. induction live as [|[q' s'] live IH]; [done|]. cbn [fmap list_fmap fst] in *.
    apply not_elem_of_cons in Hq as [Hne Hq]. rewrite filter_cons. cbn [fst].
    rewrite decide_True by done. cbn [fmap list_fmap fst]. f_equiv. by apply IH.
  - rewrite decide_True by (intros ->; done). cbn [fmap list_fmap fst].
    rewrite (IH Hnd Hin) at 1. by rewrite Permutation_swap.
Qed.

Lemma slab_inv_NoDup h ls live : slab_inv h ls live -> NoDup live /\ ∀ p, p ∈ live -> p ∈ zone_slots base zone.
Proof.
  intros [_ _ _ Hsl _]. pose proof (pages_slots_NoDup base (Z.to_nat (zone / 2048)) 0) as Hnd.
  fold (zone_slots base zone) in Hnd. rewrite <- Hsl in Hnd. split; [by apply NoDup_app in Hnd as (_ & _ & ?)|].
  intros p Hp. rewrite <- Hsl. apply elem_of_app. by right.
Qed.

Definition fits (live : list (Z * Z)) : Prop := ∀ p s, (p, s) ∈ live -> s <= slot_bytes base p.

Lemma slab_run_inv ops h ls live :
  slab_inv h ls live.*1 -> fits live -> disciplined h live ops ->
  ∃ h' ls' live', slab_run h live ops = Some (h', live') /\ slab_inv h' ls' live'.*1 /\ fits live'.
Proof.
  revert h ls live. induction ops as [|op ops IH]; intros h ls live Hi Hf Hd; cbn [slab_run].
  { by exists h, ls, live. }
  destruct Hd as [Hop Hd]. destruct op as [size|p]; cbn [slab_exec] in *.
  - destruct (slab_alloc_inv h ls live.*1 size Hi) as [(p & h' & ls' & E & Hi' & Hz & Hs)|[E _]];
      rewrite E; cbn [mbind option_bind].
    + specialize (Hd p h' E). cbn [next_live] in *. rewrite (proj2 (Z.eqb_neq p 0)) in * by done.
      eapply IH; [exact Hi'| |exact Hd]. intros q s Hq. apply elem_of_cons in Hq as [[= -> ->]|Hq]; [done|by apply Hf].
    + specialize (Hd 0 h E). cbn [next_live Z.eqb] in *. by eapply IH.
  - destruct (slab_inv_NoDup h ls _ Hi) as [Hnd _].
    destruct (slab_free_inv h ls live.*1 p _ Hi (live_remove live p Hnd Hop)) as (h' & ls' & E & Hi' & _).
    rewrite E. cbn [mbind option_bind]. eapply IH; [exact Hi'| |exact (Hd 1 h' E)].
    intros q s Hq. apply list_elem_of_filter in Hq as [_ Hq]. by apply Hf.
Qed.
End zone.

(** The slab allocator loses no slot and hands none out twice.  Once the zone is set up,
    every sequence of allocations and frees in which the client frees only pointers it holds
    runs to the end at pointer level, and at the end the free slots and the held ones are
    together exactly the slots of the zone; each held slot is inside the zone and has room for
    the request it serves, and two held slots do not overlap. *)
Theorem slab_conserves_slots base zone fl h ops :
  zone_memory base zone fl h ->
  ∃ h0, mini_os_slab_static_zone_setup h base zone fl = Some h0 /\
    (disciplined base zone fl h0 [] ops ->
     ∃ h' live ls, slab_run base zone fl h0 [] ops = Some (h', live) /\ slab h' fl ls /\
       concat ls ++ live.*1 ≡ₚ zone_slots base zone /\
       (∀ p s, (p, s) ∈ live -> base <= p /\ p + s <= base + zone) /\
       (∀ p s q t, (p, s) ∈ live -> (q, t) ∈ live -> p ≠ q -> p + s <= q \/ q + t <= p)).
Proof.
  intros Hm. destruct (zone_setup_inv base zone fl h Hm) as (h0 & ls0 & E0 & Hi). exists h0. split; [done|].
  intros Hd. destruct (slab_run_inv base zone fl ops h0 ls0 [] Hi) as (h' & ls & live & E & Hi' & Hf);
    [intros p s Hp; by apply not_elem_of_nil in Hp|done|].
  destruct (slab_inv_NoDup _ _ _ _ _ _ Hi') as [_ Hin].
  assert (∀ p s, (p, s) ∈ live -> p ∈ zone_slots base zone) as Hz.
  { intros p s Hp. apply Hin, list_elem_of_fmap. by exists (p, s). }
  exists h', live, ls. split; [done|]. split; [apply Hi'|]. split; [apply Hi'|]. split.
  - intros p s Hp. pose proof (zone_slots_in base zone p (proj2 (proj2 Hm)) (Hz p s Hp)).
    specialize (Hf p s Hp). lia.
  - intros p s q t Hp Hq Hne.
    pose proof (slots_disjoint base zone p q (Hz p s Hp) (Hz q t Hq) Hne).
    pose proof (Hf p s Hp). pose proof (Hf q t Hq). lia.
Qed.

(** One page of the 16-byte class at 4096, sentinels at 16. *)
Definition one_page : sheap :=
  list_to_map ((fun x => (x, 0)) <$> (sentinels 16 5 ++ zone_slots 4096 2048)).

Lemma one_page_memory : zone_memory 4096 2048 16 one_page.
Proof.
  split; [|split; [|lia]].
  - assert (Forall (fun x => is_Some (one_page !! x) /\ x ≠ 0) (sentinels 16 5 ++ zone_slots 4096 2048)) as H.
    { apply (bool_decide_unpack _). vm_compute. exact I. }
    by rewrite list.Forall_forall in H.
  - assert (Forall (fun x => x ∉ zone_slots 4096 2048) (sentinels 16 5)) as H.
    { apply (bool_decide_unpack _). vm_compute. exact I. }
    by rewrite list.Forall_forall in H.
Qed.

Lemma slab_conserves_slots_witness :
  ∃ h0, mini_os_slab_static_zone_setup one_page 4096 2048 16 = Some h0 /\
    (disciplined 4096 2048 16 h0 [] [SAlloc 10; SAlloc 100] ->
     ∃ h' live ls, slab_run 4096 2048 16 h0 [] [SAlloc 10; SAlloc 100] = Some (h', live) /\ slab h' 16 ls /\
       concat ls ++ live.*1 ≡ₚ zone_slots 4096 2048 /\
       (∀ p s, (p, s) ∈ live -> 4096 <= p /\ p + s <= 4096 + 2048) /\
       (∀ p s q t, (p, s) ∈ live -> (q, t) ∈ live -> p ≠ q -> p + s <= q \/ q + t <= p)).
Proof. apply (slab_conserves_slots 4096 2048 16 one_page [SAlloc 10; SAlloc 100] one_page_memory). Defined.

Example one_page_runs :
  (mini_os_slab_static_zone_setup one_page 4096 2048 16 ≫= fun h =>
     slab_run 4096 2048 16 h [] [SAlloc 10; SAlloc 100; SAlloc 16; SFree 6128; SAlloc 1]) ≫= (fun r => Some r.2)
  = Some [(6128, 1); (6112, 16)].
Proof. vm_compute. reflexivity. Qed.

(** ** Double free *)

(** Freeing the slot in front of its class again leaves a class of which it is the only slot,
    pointing at itself; the heap does not change any more under allocations. *)
Lemma double_push h fl c p l :
  slist h (sentinel fl c) (p :: l) ->
  ∃ h', (mini_os_single_list_init h p ≫= fun '(_, h) =>
           mini_os_single_list_push_heap h (sentinel fl c) p) = Some (MINI_OK, h') /\
    mini_os_slab_class_alloc h' fl c = Some (p, h').
Proof.
  intros Hl. pose proof (slist_next _ _ _ Hl) as Eh. cbn [hd] in Eh. destruct Hl as (Hp & Hnd & H0).
  assert (p ≠ 0 /\ sentinel fl c ≠ 0 /\ p ≠ sentinel fl c) as (Hpz & Hsz & Hne).
  { apply not_elem_of_cons in H0 as [? H0]. apply not_elem_of_cons in H0 as [? _].
    apply NoDup_cons in Hnd as [Hnd _]. apply not_elem_of_cons in Hnd as [? _]. auto. }
  assert (is_Some (h !! p)) as Hd.
  { cbn [app spath] in Hp. destruct Hp as [_ Hp]. destruct l; cbn [app spath] in Hp; eexists; apply Hp. }
  unfold mini_os_single_list_init. rewrite (proj2 (Z.eqb_neq p 0)) by done.
  rewrite snext_set_dom by done. cbn [mbind option_bind].
  unfold mini_os_single_list_push_heap, mini_os_single_list_add_after, mini_os_single_list_add.
  rewrite lookup_insert_ne, Eh by done. cbn [mbind option_bind].
  rewrite (proj2 (Z.eqb_neq p 0)), (proj2 (Z.eqb_neq (sentinel fl c) 0)) by done. cbn [orb].
  rewrite snext_set_dom by (rewrite lookup_insert_eq; by eexists). cbn [mbind option_bind].
  rewrite snext_set_dom by (rewrite !lookup_insert_ne by done; by eexists). cbn [mbind option_bind].
  rewrite insert_insert_eq. eexists. split; [done|]. set (h' := <[sentinel fl c := p]> _).
  assert (h' !! sentinel fl c = Some p /\ h' !! p = Some p) as [E1 E2].
  { unfold h'. split; [by rewrite lookup_insert_eq|]. by rewrite lookup_insert_ne, lookup_insert_eq by done. }
  unfold mini_os_slab_class_alloc, mini_os_single_list_is_empty, mini_os_single_list_remove.
  rewrite (proj2 (Z.eqb_neq (sentinel fl c) 0)), E1 by done. cbn [mbind option_bind].
  rewrite (proj2 (Z.eqb_neq p (sentinel fl c))), (proj2 (Z.eqb_neq p 0)) by done. cbn [orb]. rewrite E2. cbn [mbind option_bind].
  rewrite snext_set_dom by (by eexists). cbn [mbind option_bind]. rewrite (insert_id h') by done.
  rewrite snext_set_dom by (by eexists). cbn [mbind option_bind]. by rewrite (insert_id h') by done.
Qed.

(** The slab does not detect a double free.  When a held slot is freed twice in a row the
    second free is accepted too, and it makes the slot point at itself: from then on every
    allocation of that class returns this same slot and changes nothing, so any two requests
    get the same memory and the rest of the class is unreachable. *)
Theorem slab_double_free_aliases base zone fl h ls live p :
  slab_inv base zone fl h ls live -> p ∈ live ->
  ∃ h1 h2, mini_os_slab_static_free h base zone fl p = Some (1, h1) /\
    mini_os_slab_static_free h1 base zone fl p = Some (1, h2) /\
    mini_os_slab_static_alloc h2 fl (slot_bytes base p) = Some (p, h2).
Proof.
  intros Hi Hp. apply elem_of_Permutation in Hp as [rest Hrest].
  destruct (slab_inv_NoDup _ _ _ _ _ _ Hi) as [_ Hin].
  assert (p ∈ zone_slots base zone) as Hz by (apply Hin; rewrite Hrest; left).
  destruct (slab_free_inv base zone fl h ls live p rest Hi Hrest) as (h1 & ls1 & E1 & Hi1 & l & Hl).
  assert (0 <= slot_class base p < 5) as Hc by apply mod5_range.
  pose proof (proj1 (si_slab _ _ _ _ _ _ Hi1) _ _ Hl) as Hs. rewrite Z2Nat.id in Hs by lia.
  destruct (double_push h1 fl _ p l Hs) as (h2 & E2 & Ea). exists h1, h2. split; [done|]. split.
  - unfold mini_os_slab_static_free. rewrite zone_free_slot; [|apply (si_mem _ _ _ _ _ _ Hi1)|done].
    revert E2. destruct (mini_os_single_list_init h1 p) as [[]|]; [|done]. cbn [mbind option_bind].
    by intros ->.
  - unfold mini_os_slab_static_alloc. unfold slot_bytes.
    rewrite (class_of_class (slot_class base p) Hc). rewrite Z.geb_leb.
    by rewrite (proj2 (Z.leb_gt MINI_OS_SLAB_CLASS_COUNT _)) by (unfold MINI_OS_SLAB_CLASS_COUNT; lia).
Qed.

Lemma slab_double_free_aliases_witness :
  ∃ h0 p h, mini_os_slab_static_zone_setup one_page 4096 2048 16 = Some h0 /\
    mini_os_slab_static_alloc h0 16 10 = Some (p, h) /\
  ∃ h1 h2, mini_os_slab_static_free h 4096 2048 16 p = Some (1, h1) /\
    mini_os_slab_static_free h1 4096 2048 16 p = Some (1, h2) /\
    mini_os_slab_static_alloc h2 16 (slot_bytes 4096 p) = Some (p, h2).
Proof.
  destruct (zone_setup_inv 4096 2048 16 one_page one_page_memory) as (h0 & ls0 & E0 & Hi0).
  destruct (slab_alloc_inv 4096 2048 16 h0 ls0 [] 10 Hi0) as [(p & h & ls & E & Hi & _)|[E H]].
  - exists h0, p, h. split; [exact E0|]. split; [exact E|].
    apply (slab_double_free_aliases 4096 2048 16 h ls [p] p Hi). left.
  - exfalso. assert (match mini_os_slab_static_zone_setup one_page 4096 2048 16 with
      | Some h => match mini_os_slab_static_alloc h 16 10 with Some (p, _) => p | None => 0 end
      | None => 0 end = 6128) as Hp by (vm_compute; reflexivity).
    rewrite E0, E in Hp. discriminate.
Defined.
