(* ===== verification/MiniFree.v ===== *)
(** * The free list of the mini-os memory manager

    Models the free-list part of src/lib/mini-os/src/memory.c: the block headers, first-fit
    allocation with splitting, and release with coalescing.

    The header of a block is embedded in pool memory: [blk_size] and [blk_magic] are the words
    found at the address of a header, stale ones included, and reading a word that no code
    wrote is [None].  The free list is the list of the addresses of its blocks, which
    [MiniList] shows to be what the pointer structure holds.  Pointers and [size_t] are 32 bits
    wide; NULL is 0.  The lemmas show that the blocks always tile the memory they were given,
    that free blocks are coalesced, and that allocated blocks are never touched. *)

From S2P Require Import Prelude Status IList MiniList.
From stdpp Require Import gmap.

#[local] Open Scope Z_scope.

Definition MINI_OS_MEMORY_ALIGN_SIZE : Z := 8.
Definition MINI_OS_MEMORY_MIN_BLOCK : Z := 16.
Definition MINI_OS_MEMORY_MAGIC_ALLOC : Z := 0xA5A5A5A5.
Definition MINI_OS_MEMORY_MAGIC_FREE : Z := 0x5A5A5A5A.

Definition MINI_OS_MEMORY_ALIGN_UP (x a : Z) : Z :=
  Z.land (u32 (u32 x + u32 (a - 1))) (u32 (Z.lnot (u32 (a - 1)))).

(** size, two list pointers and magic, 4 bytes each. *)
Definition sizeof_header : Z := 16.
Definition MINI_OS_MEMORY_HDR_SIZE : Z := MINI_OS_MEMORY_ALIGN_UP sizeof_header MINI_OS_MEMORY_ALIGN_SIZE.

(** ** The free list *)

Record freelist := mk_fl {
  blk_size : gmap Z Z;
  blk_magic : gmap Z Z;
  free_list : list Z;
  free_size : Z;
}.

Definition set_blk_size (f : freelist) (blk v : Z) : freelist :=
  mk_fl (<[blk := v]> (blk_size f)) (blk_magic f) (free_list f) (free_size f).
Definition set_blk_magic (f : freelist) (blk v : Z) : freelist :=
  mk_fl (blk_size f) (<[blk := v]> (blk_magic f)) (free_list f) (free_size f).
Definition set_free_list (f : freelist) (l : list Z) : freelist :=
  mk_fl (blk_size f) (blk_magic f) l (free_size f).
Definition set_free_size (f : freelist) (v : Z) : freelist :=
  mk_fl (blk_size f) (blk_magic f) (free_list f) (u32 v).

(** [mini_os_list_remove(&it->node)] *)
Definition list_take (f : freelist) (it : Z) : freelist :=
  set_free_list f (filter (fun x => x ≠ it) (free_list f)).

Definition mini_os_memory_freelist_push (f : freelist) (blk : Z) : option freelist :=
  let f := set_blk_magic f blk MINI_OS_MEMORY_MAGIC_FREE in
  size ← blk_size f !! blk;
  let f := set_free_size f (free_size f + u32 (MINI_OS_MEMORY_HDR_SIZE + size)) in
  Some (set_free_list f (blk :: free_list f)).

(** The walk of [mini_os_memory_freelist_merge]: [nodes] is what is left of the list the walk
    started on, since the successor is read before a node is removed. *)
Fixpoint merge_loop (f : freelist) (blk : Z) (nodes : list Z) : option (freelist * Z) :=
  match nodes with
  | [] => Some (f, blk)
  | it :: nodes =>
      it_size ← blk_size f !! it;
      size ← blk_size f !! blk;
      let it_end := u32 (it + MINI_OS_MEMORY_HDR_SIZE + it_size) in
      let blk_end := u32 (blk + MINI_OS_MEMORY_HDR_SIZE + size) in
      if it_end =? blk then
        let f := set_free_size f (free_size f - u32 (MINI_OS_MEMORY_HDR_SIZE + it_size)) in
        let f := set_blk_size f it (u32 (it_size + u32 (MINI_OS_MEMORY_HDR_SIZE + size))) in
        let f := list_take f it in
        merge_loop f it nodes
      else if blk_end =? it then
        let f := set_free_size f (free_size f - u32 (MINI_OS_MEMORY_HDR_SIZE + it_size)) in
        let f := set_blk_size f blk (u32 (size + u32 (MINI_OS_MEMORY_HDR_SIZE + it_size))) in
        let f := list_take f it in
        merge_loop f blk nodes
      else merge_loop f blk nodes
  end.

Definition mini_os_memory_freelist_merge (f : freelist) (blk : Z) : option freelist :=
  '(f, blk) ← merge_loop f blk (free_list f);
  mini_os_memory_freelist_push f blk.

(** The first-fit walk; [size] is already aligned.  0 is NULL. *)
Fixpoint alloc_loop (f : freelist) (size : Z) (nodes : list Z) : option (Z * freelist) :=
  match nodes with
  | [] => Some (0, f)
  | it :: nodes =>
      it_size ← blk_size f !! it;
      if it_size <? size then alloc_loop f size nodes else
      let remain := u32 (it_size - size) in
      let f := set_free_size f (free_size f - u32 (MINI_OS_MEMORY_HDR_SIZE + it_size)) in
      let f := list_take f it in
      f ← (if remain >=? MINI_OS_MEMORY_HDR_SIZE + MINI_OS_MEMORY_MIN_BLOCK then
             let split := u32 (it + MINI_OS_MEMORY_HDR_SIZE + size) in
             let f := set_blk_size f split (u32 (remain - MINI_OS_MEMORY_HDR_SIZE)) in
             f ← mini_os_memory_freelist_push f split;
             Some (set_blk_size f it size)
           else Some f);
      Some (it, set_blk_magic f it MINI_OS_MEMORY_MAGIC_ALLOC)
  end.

Definition mini_os_memory_freelist_alloc (f : freelist) (size : Z) : option (Z * freelist) :=
  let size := MINI_OS_MEMORY_ALIGN_UP size MINI_OS_MEMORY_ALIGN_SIZE in
  alloc_loop f size (free_list f).

Definition mini_os_memory_freelist_free (f : freelist) (ptr : Z) : option freelist :=
  let blk := u32 (ptr - MINI_OS_MEMORY_HDR_SIZE) in
  magic ← blk_magic f !! blk;
  if negb (magic =? MINI_OS_MEMORY_MAGIC_ALLOC) then Some f else
  size ← blk_size f !! blk;
  if negb (Z.land size (MINI_OS_MEMORY_ALIGN_SIZE - 1) =? 0) then Some f else
  let f := set_blk_magic f blk MINI_OS_MEMORY_MAGIC_FREE in
  mini_os_memory_freelist_merge f blk.

(** ** Blocks as cells of memory

    [cells sz L] are the addresses of all bytes of the blocks at [L], headers included.  The
    blocks of a pool tile its segments: their cells are a permutation of the segments' bytes. *)

Definition bsz (sz : gmap Z Z) (a : Z) : Z := default 0 (sz !! a).
Definition bend (sz : gmap Z Z) (a : Z) : Z := a + 16 + bsz sz a.
Definition cells (sz : gmap Z Z) (L : list Z) : list Z := L ≫= fun a => seqZ a (16 + bsz sz a).

Definition block_ok (sz : gmap Z Z) (a : Z) : Prop :=
  is_Some (sz !! a) /\ 0 <= bsz sz a /\ a mod 8 = 0 /\ bsz sz a mod 8 = 0.

Definition tiled (sz : gmap Z Z) (C L : list Z) : Prop :=
  cells sz L ≡ₚ C /\ ∀ a, a ∈ L -> block_ok sz a.

(** The bytes of a pool: distinct addresses, none NULL, with a representable end. *)
Definition region (C : list Z) : Prop := NoDup C /\ ∀ x, x ∈ C -> 0 < x < 4294967295.

Lemma HDR_16 : MINI_OS_MEMORY_HDR_SIZE = 16.
Proof. reflexivity. Qed.

Lemma align_up_eq x : 0 <= x <= 4294967288 -> MINI_OS_MEMORY_ALIGN_UP x 8 = (x + 7) / 8 * 8.
Proof.
  intros Hx. unfold MINI_OS_MEMORY_ALIGN_UP. change (u32 (8 - 1)) with 7.
  change (u32 (Z.lnot 7)) with (Z.ldiff (Z.ones 32) 7).
  rewrite (u32_small x), u32_small by lia.
  assert (Z.land (x + 7) (Z.ldiff (Z.ones 32) 7) = Z.ldiff (x + 7) 7) as ->.
  { rewrite !Z.ldiff_land, Z.land_assoc, Z.land_ones by lia. by rewrite Z.mod_small by lia. }
  change 7 with (Z.ones 3) at 2. rewrite Z.ldiff_ones_r by lia.
  rewrite Z.shiftl_mul_pow2, Z.shiftr_div_pow2 by lia. done.
Qed.

Lemma align_up_bounds x : 0 <= x <= 4294967288 ->
  x <= MINI_OS_MEMORY_ALIGN_UP x 8 < x + 8 /\ MINI_OS_MEMORY_ALIGN_UP x 8 mod 8 = 0.
Proof. intros Hx. rewrite align_up_eq by done. split; [|apply Z.mod_mul; lia]. wrap_lia. Qed.

Lemma align_up_aligned x : 0 <= x <= 4294967288 -> x mod 8 = 0 -> MINI_OS_MEMORY_ALIGN_UP x 8 = x.
Proof. intros Hx Hm. rewrite align_up_eq by done. Z.to_euclidean_division_equations; lia. Qed.

Lemma bsz_eq sz a s : sz !! a = Some s -> bsz sz a = s.
Proof. unfold bsz. by intros ->. Qed.

Lemma bsz_insert sz a v : bsz (<[a := v]> sz) a = v.
Proof. unfold bsz. by rewrite lookup_insert_eq. Qed.
Lemma bsz_insert_ne sz a b v : b ≠ a -> bsz (<[a := v]> sz) b = bsz sz b.
Proof. intros. unfold bsz. by rewrite lookup_insert_ne. Qed.

Lemma cells_cons sz a L : cells sz (a :: L) = seqZ a (16 + bsz sz a) ++ cells sz L.
Proof. done. Qed.

#[global] Instance cells_proper sz : Proper (Permutation ==> Permutation) (cells sz).
Proof. intros L L' H. unfold cells. by rewrite H. Qed.

#[global] Instance tiled_proper sz : Proper (Permutation ==> Permutation ==> iff) (tiled sz).
Proof.
  intros C C' HC L L' HL. unfold tiled. rewrite HC, HL. split; intros [H1 H2]; split; try done;
    intros a Ha; apply H2; by rewrite ?HL, <- ?HL in *.
Qed.

Lemma elem_of_cells sz L x : x ∈ cells sz L <-> ∃ a, a ∈ L /\ a <= x < bend sz a.
Proof.
  unfold cells. rewrite list_elem_of_bind. unfold bend. split; intros (a & H1 & H2); exists a.
  - apply elem_of_seqZ in H1. split; [done|lia].
  - split; [apply elem_of_seqZ; lia|done].
Qed.

(** Two lists of sizes that agree on the blocks have the same cells. *)
Lemma cells_ext sz sz' L : (∀ a, a ∈ L -> sz' !! a = sz !! a) -> cells sz' L = cells sz L.
Proof.
  induction L as [|a L IH]; intros H; [done|]. rewrite !cells_cons. unfold bsz at 1.
  rewrite H by left. fold (bsz sz a). rewrite IH; [done|]. intros b Hb. apply H. by right.
Qed.

Lemma block_ok_ext sz sz' a : sz' !! a = sz !! a -> block_ok sz a -> block_ok sz' a.
Proof. intros E. unfold block_ok, bsz. by rewrite E. Qed.

Lemma tiled_ext sz sz' C L : (∀ a, a ∈ L -> sz' !! a = sz !! a) -> tiled sz C L -> tiled sz' C L.
Proof.
  intros H [H1 H2]. split; [by rewrite (cells_ext sz sz')|].
  intros a Ha. apply (block_ok_ext sz); auto.
Qed.

Section tiling.
Context (sz : gmap Z Z) (C : list Z) (HC : region C).

(** The blocks of a tiling do not overlap. *)
Lemma tiled_disjoint a b L : tiled sz C (a :: b :: L) -> bend sz a <= b \/ bend sz b <= a.
Proof.
  intros [HP Hok]. destruct HC as [Hnd _]. rewrite <- HP in Hnd. rewrite !cells_cons in Hnd.
  apply NoDup_app in Hnd as (_ & Hd & _).
  destruct (Hok a) as (_ & Ha & _); [left|]. destruct (Hok b) as (_ & Hb & _); [right; left|].
  destruct (Z.le_gt_cases (bend sz a) b) as [?|H1]; [by left|]. destruct (Z.le_gt_cases (bend sz b) a) as [?|H2]; [by right|].
  exfalso. apply (Hd (Z.max a b)); unfold bend in *; [|apply elem_of_app; left]; apply elem_of_seqZ; lia.
Qed.

Lemma tiled_bounds a L : tiled sz C L -> a ∈ L -> 0 < a /\ 0 <= bsz sz a /\ bend sz a <= 4294967295.
Proof.
  intros [HP Hok] Ha. destruct HC as [_ Hr]. destruct (Hok a Ha) as (_ & Hb & _).
  assert (a ∈ C /\ bend sz a - 1 ∈ C) as [H1 H2].
  { rewrite <- HP. split; apply elem_of_cells; exists a; unfold bend; (split; [done|lia]). }
  apply Hr in H1, H2. lia.
Qed.

Lemma tiled_notin a L : tiled sz C (a :: L) -> a ∉ L.
Proof.
  intros Ht Hin. apply elem_of_Permutation in Hin as [L' E]. rewrite E in Ht.
  pose proof (tiled_disjoint _ _ _ Ht). destruct Ht as [_ Hok]. destruct (Hok a) as (_ & Hb & _); [left|].
  unfold bend in *. lia.
Qed.

Lemma tiled_NoDup L : tiled sz C L -> NoDup L.
Proof.
  assert (∀ L1 L2, tiled sz C (L1 ++ L2) -> NoDup L1) as H.
  { induction L1 as [|a L1 IH]; intros L2 Ht; constructor.
    - apply tiled_notin in Ht. intros Hin. apply Ht, elem_of_app. by left.
    - apply (IH (a :: L2)). by rewrite <- Permutation_middle. }
  intros Ht. apply (H L []). by rewrite app_nil_r.
Qed.

(** Two adjacent blocks become one. *)
Lemma tiled_join a b L :
  tiled sz C (a :: b :: L) -> bend sz a = b ->
  tiled (<[a := bsz sz a + (16 + bsz sz b)]> sz) C (a :: L).
Proof.
  intros Ht Eb. pose proof (tiled_notin a (b :: L) Ht) as Hn. destruct Ht as [HP Hok].
  destruct (Hok a) as (Ha1 & Ha2 & Ha3 & Ha4); [left|]. destruct (Hok b) as (Hb1 & Hb2 & Hb3 & Hb4); [right; left|].
  split.
  - rewrite <- HP, !cells_cons, bsz_insert. rewrite cells_ext with (sz := sz).
    + rewrite app_assoc. f_equiv.
      replace (16 + (bsz sz a + (16 + bsz sz b))) with ((16 + bsz sz a) + (16 + bsz sz b)) by lia.
      rewrite seqZ_app by lia. by replace (a + (16 + bsz sz a)) with b by (unfold bend in Eb; lia).
    + intros c Hc. apply lookup_insert_ne. intros ->. apply Hn. by right.
  - intros c Hc. apply elem_of_cons in Hc as [->|Hc].
    + unfold block_ok. rewrite bsz_insert, lookup_insert_eq. split; [by eexists|]. split; [lia|]. split; [done|].
      rewrite Z.add_mod by lia. rewrite Ha4, (Z.add_mod 16) by lia. rewrite Hb4. done.
    + apply (block_ok_ext sz); [|apply Hok; by do 2 right]. apply lookup_insert_ne. intros ->. apply Hn. by right.
Qed.

(** A block is cut in two. *)
Lemma tiled_split a L s :
  tiled sz C (a :: L) -> 0 <= s -> s mod 8 = 0 -> s + 16 <= bsz sz a ->
  tiled (<[a := s]> (<[a + 16 + s := bsz sz a - s - 16]> sz)) C (a :: a + 16 + s :: L) /\ a + 16 + s ∉ L.
Proof.
  intros Ht Hs Hm Hle. pose proof (tiled_notin a L Ht) as Hn.
  assert (a + 16 + s ∉ L) as Hn2.
  { intros Hin. apply elem_of_Permutation in Hin as [L' E]. rewrite E in Ht.
    pose proof (tiled_disjoint _ _ _ Ht) as Hd. destruct Ht as [_ Hok].
    destruct (Hok (a + 16 + s)) as (_ & Hb & _); [right; left|]. unfold bend in *. lia. }
  split; [|done]. destruct Ht as [HP Hok]. destruct (Hok a) as (Ha1 & Ha2 & Ha3 & Ha4); [left|].
  assert (∀ c, c ∈ L -> <[a := s]> (<[a + 16 + s := bsz sz a - s - 16]> sz) !! c = sz !! c) as Hext.
  { intros c Hc. rewrite !lookup_insert_ne; [done| |]; by intros <-. }
  split.
  - rewrite <- HP, !cells_cons, bsz_insert. rewrite bsz_insert_ne, bsz_insert by lia.
    rewrite (cells_ext sz _ L Hext), app_assoc. f_equiv.
    replace (16 + bsz sz a) with ((16 + s) + (16 + (bsz sz a - s - 16))) by lia.
    rewrite (seqZ_app a (16 + s) (16 + (bsz sz a - s - 16))) by lia.
    by replace (a + (16 + s)) with (a + 16 + s) by lia.
  - intros c Hc. apply elem_of_cons in Hc as [->|Hc]; [|apply elem_of_cons in Hc as [->|Hc]].
    + unfold block_ok. rewrite bsz_insert, lookup_insert_eq. split; [by eexists|]. auto.
    + unfold block_ok. rewrite bsz_insert_ne, bsz_insert by lia. rewrite lookup_insert_ne, lookup_insert_eq by lia.
      split; [by eexists|]. split; [lia|]. clear -Ha3 Ha4 Hm. split; Z.to_euclidean_division_equations; lia.
    + apply (block_ok_ext sz); [by apply Hext|]. apply Hok. by right.
Qed.
End tiling.

(** ** The invariant of the free list

    [live] are the addresses of the allocated blocks. *)

Definition block_bytes (sz : gmap Z Z) (L : list Z) : Z := Z.of_nat (length (cells sz L)).

(** No free block ends where another begins: free blocks are coalesced. *)
Definition coalesced (sz : gmap Z Z) (L : list Z) : Prop := ∀ a b, a ∈ L -> b ∈ L -> bend sz a ≠ b.

Record fl_inv (C : list Z) (f : freelist) (live : list Z) : Prop := {
  fi_tiled : tiled (blk_size f) C (free_list f ++ live);
  fi_free : ∀ a, a ∈ free_list f -> blk_magic f !! a = Some MINI_OS_MEMORY_MAGIC_FREE;
  fi_live : ∀ a, a ∈ live -> blk_magic f !! a = Some MINI_OS_MEMORY_MAGIC_ALLOC;
  fi_coal : coalesced (blk_size f) (free_list f);
  fi_bytes : free_size f = block_bytes (blk_size f) (free_list f);
}.

Lemma block_bytes_cons sz a L : 0 <= bsz sz a -> block_bytes sz (a :: L) = 16 + bsz sz a + block_bytes sz L.
Proof. intros H. unfold block_bytes. rewrite cells_cons, length_app, length_seqZ. lia. Qed.

Lemma block_bytes_app sz L L' : block_bytes sz (L ++ L') = block_bytes sz L + block_bytes sz L'.
Proof. unfold block_bytes, cells. rewrite bind_app, length_app. lia. Qed.

#[global] Instance block_bytes_proper sz : Proper (Permutation ==> eq) (block_bytes sz).
Proof. intros L L' H. unfold block_bytes. by rewrite H. Qed.

Lemma region_length C : region C -> Z.of_nat (length C) <= 4294967294.
Proof.
  intros [Hnd Hr]. assert (C ⊆+ seqZ 1 4294967294) as H.
  { apply NoDup_submseteq; [done|]. intros x Hx. apply elem_of_seqZ. specialize (Hr x Hx). lia. }
  apply submseteq_length in H. rewrite length_seqZ in H. lia.
Qed.

Lemma tiled_bytes sz C L L' : region C -> tiled sz C (L ++ L') -> 0 <= block_bytes sz L < 4294967295.
Proof.
  intros HC [HP _]. pose proof (region_length C HC) as Hl. rewrite <- HP in Hl.
  unfold block_bytes. unfold cells in Hl. rewrite bind_app, length_app in Hl. unfold cells. lia.
Qed.

Lemma filter_out (it : Z) (l1 l2 : list Z) :
  it ∉ l1 -> it ∉ l2 -> filter (fun x => x ≠ it) (l1 ++ it :: l2) = l1 ++ l2.
Proof.
  intros H1 H2. rewrite filter_app, filter_cons, decide_False by (intros H; by apply H).
  by rewrite !filter_absent.
Qed.

Lemma coalesced_ext sz sz' L : (∀ a, a ∈ L -> sz' !! a = sz !! a) -> coalesced sz L -> coalesced sz' L.
Proof. intros H Hc a b Ha Hb. unfold bend, bsz. rewrite H by done. by apply Hc. Qed.

(** The state of the walk of the merge: [kept] are the nodes passed, [blk] is the floating
    block, which touches none of them. *)
Record merge_inv (C : list Z) (f : freelist) (live : list Z) (blk : Z) (kept rest : list Z) : Prop := {
  mi_list : free_list f = kept ++ rest;
  mi_tiled : tiled (blk_size f) C (blk :: (kept ++ rest) ++ live);
  mi_free : ∀ a, a ∈ kept ++ rest -> blk_magic f !! a = Some MINI_OS_MEMORY_MAGIC_FREE;
  mi_live : ∀ a, a ∈ live -> blk_magic f !! a = Some MINI_OS_MEMORY_MAGIC_ALLOC;
  mi_coal : coalesced (blk_size f) (kept ++ rest);
  mi_apart : ∀ a, a ∈ kept -> bend (blk_size f) a ≠ blk /\ bend (blk_size f) blk ≠ a;
  mi_bytes : free_size f = block_bytes (blk_size f) (kept ++ rest);
}.

Section merge.
Context (C : list Z) (HC : region C).

(** Changing the size of a block leaves what is said of the others. *)
Lemma merge_frame (sz : gmap Z Z) (a v : Z) (L : list Z) : a ∉ L ->
  (∀ b, b ∈ L -> <[a := v]> sz !! b = sz !! b).
Proof. intros H b Hb. apply lookup_insert_ne. by intros ->. Qed.

Lemma block_bytes_ext sz sz' L : (∀ a, a ∈ L -> sz' !! a = sz !! a) -> block_bytes sz' L = block_bytes sz L.
Proof. intros H. unfold block_bytes. by rewrite (cells_ext sz sz'). Qed.

(** A node that ends at the floating block absorbs it and floats in its place, or is absorbed
    by it: either way the free list loses the node [it], and the float is the joined block. *)
Lemma merge_absorb f live blk it lo hi kept rest :
  merge_inv C f live blk kept (it :: rest) ->
  (lo = it /\ hi = blk) \/ (lo = blk /\ hi = it) ->
  bend (blk_size f) lo = hi ->
  let sz := blk_size f in
  merge_inv C (list_take (set_blk_size (set_free_size f (free_size f - u32 (16 + bsz sz it))) lo
                            (u32 (bsz sz lo + u32 (16 + bsz sz hi)))) it) live lo kept rest.
Proof.
  intros [Hl Ht Hf Hv Hco Hap Hby] Hlh Hend sz. fold sz in Hl, Ht, Hco, Hap, Hby, Hend.
  assert ((blk :: (kept ++ it :: rest) ++ live) ≡ₚ lo :: hi :: (kept ++ rest) ++ live) as HP.
  { rewrite <- Permutation_middle. cbn [app].
    destruct Hlh as [[-> ->]|[-> ->]]; [apply Permutation_swap|done]. }
  rewrite HP in Ht. pose proof (tiled_NoDup sz C HC _ Ht) as Hnd.
  apply NoDup_cons in Hnd as [Hlo Hnd]. apply NoDup_cons in Hnd as [Hhi Hnd].
  destruct (tiled_bounds sz C HC lo _ Ht) as (B1 & B2 & B3); [left|].
  destruct (tiled_bounds sz C HC hi _ Ht) as (B4 & B5 & B6); [right; left|].
  assert (lo ∉ (kept ++ rest) ++ live) as Hlo' by (intros H; apply Hlo; by right).
  assert (it ∉ (kept ++ rest) ++ live) as Hit by (destruct Hlh as [[<- ->]|[-> <-]]; done).
  assert ((it ∉ kept) /\ (it ∉ rest)) as [Hik Hir] by (rewrite !elem_of_app in Hit; tauto).
  assert (lo ∉ kept ++ rest) as Hlo'' by (rewrite elem_of_app in Hlo'; tauto).
  assert (u32 (bsz sz lo + u32 (16 + bsz sz hi)) = bsz sz lo + (16 + bsz sz hi)) as Hu.
  { unfold bend in *. rewrite (u32_small (16 + bsz sz hi)), u32_small by lia. done. }
  rewrite Hu. clear Hu.
  assert (∀ a, a ∈ kept ++ rest -> bend (<[lo := bsz sz lo + (16 + bsz sz hi)]> sz) a = bend sz a) as Hbend.
  { intros a Ha. unfold bend. rewrite bsz_insert_ne; [done|]. by intros ->. }
  assert (bend (<[lo := bsz sz lo + (16 + bsz sz hi)]> sz) lo = bend sz hi) as Hbl.
  { unfold bend at 1. rewrite bsz_insert. unfold bend in *. lia. }
  assert (∀ a, a ∈ kept -> a ∈ kept ++ it :: rest) as Hsub by (intros; apply elem_of_app; by left).
  assert (it ∈ kept ++ it :: rest) as Hitin by (apply elem_of_app; right; left).
  split; cbn [list_take set_free_list set_blk_size set_free_size free_list blk_size blk_magic free_size]; fold sz.
  - rewrite Hl. by apply filter_out.
  - apply tiled_join; done.
  - intros a Ha. apply Hf. rewrite elem_of_app, elem_of_cons. apply elem_of_app in Ha. tauto.
  - done.
  - eapply coalesced_ext; [by apply merge_frame|]. intros a b Ha Hb. apply Hco; rewrite elem_of_app, elem_of_cons.
    + apply elem_of_app in Ha. tauto.
    + apply elem_of_app in Hb. tauto.
  - intros a Ha. rewrite Hbend by (apply elem_of_app; by left). rewrite Hbl.
    destruct Hlh as [[-> ->]|[-> ->]]; split.
    + by apply Hco; [apply Hsub|].
    + by apply Hap.
    + by apply Hap.
    + apply Hco; [done|by apply Hsub].
  - rewrite (block_bytes_ext sz) by (by apply merge_frame). rewrite Hby.
    rewrite <- Permutation_middle. rewrite block_bytes_cons by (destruct Hlh as [[<- _]|[_ <-]]; lia).
    assert (0 <= block_bytes sz (kept ++ rest) < 4294967295) as Hb.
    { apply (tiled_bytes sz C (kept ++ rest) (lo :: hi :: live) HC).
      by rewrite <- !Permutation_middle. }
    rewrite (u32_small (16 + _)) by (unfold bend in *; destruct Hlh as [[<- <-]|[<- <-]]; lia).
    rewrite u32_small by lia. lia.
Qed.

Lemma merge_loop_inv rest f live blk kept :
  merge_inv C f live blk kept rest ->
  ∃ f' blk' kept', merge_loop f blk rest = Some (f', blk') /\ merge_inv C f' live blk' kept' [] /\
    (∀ a, a ∈ live -> blk_size f' !! a = blk_size f !! a).
Proof.
  revert f blk kept. induction rest as [|it rest IH]; intros f blk kept Hi; cbn [merge_loop].
  { by exists f, blk, kept. }
  pose proof Hi as [Hl Ht Hf Hv Hco Hap Hby].
  assert (it ∈ blk :: (kept ++ it :: rest) ++ live) as Hitin
    by (right; apply elem_of_app; left; apply elem_of_app; right; left).
  assert (blk ∈ blk :: (kept ++ it :: rest) ++ live) as Hbin by left.
  destruct (proj2 Ht it Hitin) as ((sit & Eit) & _). destruct (proj2 Ht blk Hbin) as ((sb & Eb) & _).
  destruct (tiled_bounds _ C HC it _ Ht Hitin) as (B1 & B2 & B3).
  destruct (tiled_bounds _ C HC blk _ Ht Hbin) as (B4 & B5 & B6).
  rewrite Eit, Eb. cbn [mbind option_bind]. rewrite !HDR_16.
  unfold bend in B3, B6. rewrite (bsz_eq _ _ _ Eit) in B2, B3. rewrite (bsz_eq _ _ _ Eb) in B5, B6.
  rewrite (u32_small (it + 16 + sit)), (u32_small (blk + 16 + sb)) by lia.
  assert (∀ lo, lo = it \/ lo = blk -> lo ∉ live) as Hnl.
  { pose proof (tiled_NoDup _ C HC _ Ht) as Hnd. intros lo Hlo Hin.
    apply NoDup_cons in Hnd as [H1 H2]. apply NoDup_app in H2 as (_ & H2 & _).
    destruct Hlo as [->| ->]; [apply (H2 it); [apply elem_of_app; right; left|done]|].
    apply H1, elem_of_app. by right. }
  destruct (Z.eqb_spec (it + 16 + sit) blk) as [E1|N1]; [|destruct (Z.eqb_spec (blk + 16 + sb) it) as [E2|N2]].
  - pose proof (merge_absorb f live blk it it blk kept rest Hi (or_introl (conj eq_refl eq_refl))) as Hi'.
    cbv zeta in Hi'. unfold bend in Hi'. rewrite !(bsz_eq _ _ _ Eit), !(bsz_eq _ _ _ Eb) in Hi'.
    destruct (IH _ _ _ (Hi' E1)) as (f' & b' & k' & E & Hm & Hs). exists f', b', k'. split; [done|]. split; [done|].
    intros a Ha. rewrite Hs by done. cbn. apply lookup_insert_ne. intros ->. apply (Hnl a); [by left|done].
  - pose proof (merge_absorb f live blk it blk it kept rest Hi (or_intror (conj eq_refl eq_refl))) as Hi'.
    cbv zeta in Hi'. unfold bend in Hi'. rewrite !(bsz_eq _ _ _ Eit), !(bsz_eq _ _ _ Eb) in Hi'.
    destruct (IH _ _ _ (Hi' E2)) as (f' & b' & k' & E & Hm & Hs). exists f', b', k'. split; [done|]. split; [done|].
    intros a Ha. rewrite Hs by done. cbn. apply lookup_insert_ne. intros ->. apply (Hnl a); [by right|done].
  - apply (IH f blk (kept ++ [it])).
    split; rewrite <- ?(app_assoc kept [it] rest); cbn [app]; try done.
    intros a Ha. apply elem_of_app in Ha as [Ha|Ha]; [by apply Hap|]. apply list_elem_of_singleton in Ha as ->.
    unfold bend. by rewrite (bsz_eq _ _ _ Eit), (bsz_eq _ _ _ Eb).
Qed.

(** The merge puts the floating block on the free list, coalesced. *)
Lemma freelist_merge_inv f live blk :
  merge_inv C f live blk [] (free_list f) ->
  ∃ f', mini_os_memory_freelist_merge f blk = Some f' /\ fl_inv C f' live /\
    (∀ a, a ∈ live -> blk_size f' !! a = blk_size f !! a).
Proof.
  intros Hi. destruct (merge_loop_inv _ _ _ _ _ Hi) as (f1 & b & kept & E & Hm & Hs).
  unfold mini_os_memory_freelist_merge. rewrite E. cbn [mbind option_bind].
  destruct Hm as [Hl Ht Hf Hv Hco Hap Hby]. rewrite app_nil_r in *. unfold mini_os_memory_freelist_push.
  pose proof (tiled_notin _ C HC _ _ Ht) as Hn.
  destruct (proj2 Ht b) as ((s & Es) & _); [left|]. cbn [set_blk_magic blk_size]. rewrite Es. cbn [mbind option_bind].
  eexists. split; [done|]. split; [|done]. rewrite HDR_16.
  destruct (tiled_bounds _ C HC b _ Ht) as (B1 & B2 & B3); [left|]. unfold bend in B3. rewrite (bsz_eq _ _ _ Es) in B2, B3.
  split; cbn [set_free_list set_free_size set_blk_magic free_list blk_size blk_magic free_size]; rewrite ?Hl.
  - done.
  - intros a Ha. apply elem_of_cons in Ha as [->|Ha]; [by rewrite lookup_insert_eq|].
    rewrite lookup_insert_ne; [by apply Hf|]. intros ->. apply Hn, elem_of_app. by left.
  - intros a Ha. rewrite lookup_insert_ne; [by apply Hv|]. intros ->. apply Hn, elem_of_app. by right.
  - intros x y Hx Hy. apply elem_of_cons in Hx as [->|Hx]; apply elem_of_cons in Hy as [->|Hy].
    + unfold bend. rewrite (bsz_eq _ _ _ Es). lia.
    + by apply Hap.
    + by apply Hap.
    + by apply Hco.
  - rewrite Hby, block_bytes_cons by (rewrite (bsz_eq _ _ _ Es); lia). rewrite (bsz_eq _ _ _ Es).
    pose proof (tiled_bytes _ C (b :: kept) live HC Ht) as Hb. rewrite block_bytes_cons in Hb by (rewrite (bsz_eq _ _ _ Es); lia).
    rewrite (bsz_eq _ _ _ Es) in Hb. pose proof (tiled_bytes (blk_size f1) C kept (b :: live) HC) as Hb'.
    rewrite <- Permutation_middle in Hb'. specialize (Hb' Ht).
    rewrite (u32_small (16 + s)), u32_small by lia. lia.
Qed.
End merge.

Section freelist_ops.
Context (C : list Z) (HC : region C).

Lemma fl_inv_perm f live live' : live ≡ₚ live' -> fl_inv C f live -> fl_inv C f live'.
Proof.
  intros HP [H1 H2 H3 H4 H5]. split; try done.
  - by rewrite <- HP.
  - intros a Ha. apply H3. by rewrite HP.
Qed.

(** Freeing an allocated block. *)
Lemma freelist_free_inv f live blk rest :
  fl_inv C f live -> live ≡ₚ blk :: rest ->
  ∃ f', mini_os_memory_freelist_free f (blk + 16) = Some f' /\ fl_inv C f' rest /\
    (∀ a, a ∈ rest -> blk_size f' !! a = blk_size f !! a).
Proof.
  intros Hi HP. apply (fl_inv_perm _ _ _ HP) in Hi. destruct Hi as [Ht Hf Hv Hco Hby].
  rewrite <- Permutation_middle in Ht. pose proof (tiled_notin _ C HC _ _ Ht) as Hn.
  assert (blk ∈ blk :: free_list f ++ rest) as Hin by left.
  destruct (tiled_bounds _ C HC blk _ Ht Hin) as (B1 & B2 & B3).
  destruct (proj2 Ht blk Hin) as ((s & Es) & _ & _ & Hal). rewrite (bsz_eq _ _ _ Es) in Hal.
  unfold mini_os_memory_freelist_free. rewrite HDR_16.
  replace (blk + 16 - 16) with blk by lia. unfold bend in B3. rewrite u32_small by lia.
  rewrite Hv by left. cbn [mbind option_bind]. rewrite Z.eqb_refl. cbn [negb].
  rewrite Es. cbn [mbind option_bind]. change (MINI_OS_MEMORY_ALIGN_SIZE - 1) with (2 ^ 3 - 1).
  rewrite land_pow2_mask by lia. change (2 ^ 3) with 8. rewrite Hal. cbn [negb Z.eqb].
  apply (freelist_merge_inv C HC (set_blk_magic f blk MINI_OS_MEMORY_MAGIC_FREE) rest blk).
  split; cbn [set_blk_magic free_list blk_size blk_magic free_size app]; try done.
  - intros a Ha. rewrite lookup_insert_ne; [by apply Hf|]. intros ->. apply Hn, elem_of_app. by left.
  - intros a Ha. rewrite lookup_insert_ne; [apply Hv; by right|]. intros ->. apply Hn, elem_of_app. by right.
  - intros a Ha. by apply not_elem_of_nil in Ha.
Qed.

(** A block leaves the free list whole. *)
Lemma take_whole f live pre it post :
  fl_inv C f live -> free_list f = pre ++ it :: post ->
  fl_inv C (set_blk_magic (list_take (set_free_size f (free_size f - u32 (16 + bsz (blk_size f) it))) it)
              it MINI_OS_MEMORY_MAGIC_ALLOC) (it :: live).
Proof.
  intros [Ht Hf Hv Hco Hby] Hl. rewrite Hl in *.
  assert ((pre ++ it :: post) ++ live ≡ₚ it :: (pre ++ post) ++ live) as HP by (by rewrite <- Permutation_middle).
  pose proof Ht as Ht'. rewrite HP in Ht'. pose proof (tiled_notin _ C HC _ _ Ht') as Hn.
  assert ((it ∉ pre) /\ (it ∉ post) /\ (it ∉ live)) as (Hn1 & Hn2 & Hn3) by (rewrite !elem_of_app in Hn; tauto).
  destruct (tiled_bounds _ C HC it _ Ht') as (B1 & B2 & B3); [left|].
  assert (∀ a, a ∈ pre ++ post -> a ∈ pre ++ it :: post) as Hsub
    by (intros a Ha; rewrite elem_of_app, elem_of_cons; apply elem_of_app in Ha; tauto).
  split; cbn [set_blk_magic list_take set_free_list set_free_size free_list blk_size blk_magic free_size];
    rewrite ?Hl, ?filter_out by done.
  - by rewrite <- Permutation_middle.
  - intros a Ha. rewrite lookup_insert_ne; [by apply Hf, Hsub|]. intros ->.
    apply elem_of_app in Ha as [?|?]; done.
  - intros a Ha. apply elem_of_cons in Ha as [->|Ha]; [by rewrite lookup_insert_eq|].
    rewrite lookup_insert_ne; [by apply Hv|]. by intros ->.
  - intros a b Ha Hb. apply Hco; by apply Hsub.
  - rewrite Hby, <- Permutation_middle, block_bytes_cons by done.
    pose proof (tiled_bytes _ C (it :: pre ++ post) live HC Ht') as Hb. rewrite block_bytes_cons in Hb by done.
    pose proof (tiled_bytes (blk_size f) C (pre ++ post) (it :: live) HC) as Hb'.
    rewrite <- Permutation_middle in Hb'. specialize (Hb' Ht').
    rewrite (u32_small (16 + _)), u32_small by lia. lia.
Qed.

(** A block leaves the free list and its tail comes back as a block of its own. *)
Lemma take_split f live pre it post size :
  fl_inv C f live -> free_list f = pre ++ it :: post -> 0 <= size -> size mod 8 = 0 ->
  size + 32 <= bsz (blk_size f) it ->
  let sp := it + 16 + size in
  let f1 := set_blk_size (list_take (set_free_size f (free_size f - u32 (16 + bsz (blk_size f) it))) it)
              sp (bsz (blk_size f) it - size - 16) in
  ∃ f2, mini_os_memory_freelist_push f1 sp = Some f2 /\
    fl_inv C (set_blk_magic (set_blk_size f2 it size) it MINI_OS_MEMORY_MAGIC_ALLOC) (it :: live) /\
    (∀ a, a ∈ live -> blk_size f2 !! a = blk_size f !! a).
Proof.
  intros [Ht Hf Hv Hco Hby] Hl Hs Hm Hle sp f1. rewrite Hl in *.
  assert ((pre ++ it :: post) ++ live ≡ₚ it :: (pre ++ post) ++ live) as HP by (by rewrite <- Permutation_middle).
  pose proof Ht as Ht'. rewrite HP in Ht'. pose proof (tiled_notin _ C HC _ _ Ht') as Hn.
  assert ((it ∉ pre) /\ (it ∉ post) /\ (it ∉ live)) as (Hn1 & Hn2 & Hn3) by (rewrite !elem_of_app in Hn; tauto).
  destruct (tiled_bounds _ C HC it _ Ht') as (B1 & B2 & B3); [left|].
  destruct (tiled_split _ C HC it _ size Ht' Hs Hm ltac:(lia)) as [Hts Hsp]. fold sp in Hts, Hsp.
  assert ((sp ∉ pre ++ post) /\ (sp ∉ live)) as (Hsp1 & Hsp2) by (rewrite elem_of_app in Hsp; tauto).
  assert (it ≠ sp) as Hne by (unfold sp; lia).
  assert (∀ a, a ∈ pre ++ post -> a ∈ pre ++ it :: post) as Hsub
    by (intros a Ha; rewrite elem_of_app, elem_of_cons; apply elem_of_app in Ha; tauto).
  unfold mini_os_memory_freelist_push, f1.
  cbn [set_blk_magic set_blk_size list_take set_free_list set_free_size blk_size].
  rewrite lookup_insert_eq. cbn [mbind option_bind]. eexists. split; [done|]. rewrite HDR_16.
  split; [|intros a Ha; cbn; apply lookup_insert_ne; by intros ->].
  split; cbn [set_blk_magic set_blk_size list_take set_free_list set_free_size free_list blk_size blk_magic free_size];
    rewrite ?Hl, ?filter_out by done.
  - cbn [app]. rewrite <- Permutation_middle, Permutation_swap. exact Hts.
  - intros a Ha. apply elem_of_cons in Ha as [->|Ha].
    + by rewrite lookup_insert_ne, lookup_insert_eq by done.
    + rewrite !lookup_insert_ne; [by apply Hf, Hsub|by intros <-|].
      intros <-. apply elem_of_app in Ha as [?|?]; done.
  - intros a Ha. apply elem_of_cons in Ha as [->|Ha]; [by rewrite lookup_insert_eq|].
    rewrite !lookup_insert_ne; [by apply Hv| |]; by intros <-.
  - assert (∀ a, a ∈ pre ++ post -> bend (<[it:=size]> (<[sp:=bsz (blk_size f) it - size - 16]> (blk_size f))) a
              = bend (blk_size f) a) as Hb1.
    { intros a Ha. unfold bend. rewrite !bsz_insert_ne; [done|by intros ->|].
      intros ->. apply elem_of_app in Ha as [?|?]; done. }
    assert (bend (<[it:=size]> (<[sp:=bsz (blk_size f) it - size - 16]> (blk_size f))) sp = bend (blk_size f) it) as Hb2.
    { unfold bend. rewrite bsz_insert_ne, bsz_insert by done. unfold sp. lia. }
    intros a b Ha Hb. apply elem_of_cons in Ha as [->|Ha]; apply elem_of_cons in Hb as [->|Hb].
    + rewrite Hb2. unfold bend, sp. lia.
    + rewrite Hb2. apply Hco; [apply elem_of_app; right; left|by apply Hsub].
    + rewrite Hb1 by done. pose proof Ha as Ha'. apply elem_of_Permutation in Ha' as [r Er].
      rewrite Er in Ht'. cbn [app] in Ht'. pose proof (tiled_disjoint _ C HC _ _ _ Ht') as Hd.
      destruct (proj2 Ht' a) as (_ & Hnn & _); [right; left|]. unfold bend, sp in *. lia.
    + rewrite Hb1 by done. apply Hco; by apply Hsub.
  - rewrite Hby.
    assert (block_bytes (<[it:=size]> (<[sp:=bsz (blk_size f) it - size - 16]> (blk_size f))) (pre ++ post)
              = block_bytes (blk_size f) (pre ++ post)) as Hb1.
    { apply block_bytes_ext. intros a Ha. rewrite !lookup_insert_ne; [done|by intros <-|].
      intros <-. apply elem_of_app in Ha as [?|?]; done. }
    rewrite block_bytes_cons, Hb1; rewrite bsz_insert_ne, bsz_insert by done; [|lia].
    pose proof (tiled_bytes _ C (it :: pre ++ post) live HC Ht') as Hb. rewrite block_bytes_cons in Hb by done.
    pose proof (tiled_bytes (blk_size f) C (pre ++ post) (it :: live) HC) as Hb'.
    rewrite <- Permutation_middle in Hb'. specialize (Hb' Ht').
    rewrite <- Permutation_middle, block_bytes_cons by done.
    rewrite (u32_small (16 + bsz (blk_size f) it)), (u32_small (16 + (_ - _ - 16))), (u32_small (_ - _)), u32_small by lia. lia.
Qed.

(** First fit: NULL when no free block has room, otherwise a free block with room. *)
Lemma alloc_loop_inv f live size nodes pre :
  fl_inv C f live -> free_list f = pre ++ nodes -> 0 <= size < 4294967296 -> size mod 8 = 0 ->
  (alloc_loop f size nodes = Some (0, f) /\ ∀ a, a ∈ nodes -> bsz (blk_size f) a < size) \/
  (∃ it f', alloc_loop f size nodes = Some (it, f') /\ it ∈ nodes /\ fl_inv C f' (it :: live) /\
     size <= bsz (blk_size f') it /\ (∀ a, a ∈ live -> blk_size f' !! a = blk_size f !! a)).
Proof.
  intros Hi Hl Hs Hm. revert pre Hl. induction nodes as [|it nodes IH]; intros pre Hl; cbn [alloc_loop].
  { left. split; [done|]. intros a Ha. by apply not_elem_of_nil in Ha. }
  pose proof Hi as [Ht _ _ _ _].
  assert (it ∈ free_list f ++ live) as Hin by (rewrite Hl; apply elem_of_app; left; apply elem_of_app; right; left).
  destruct (proj2 Ht it Hin) as ((s & Es) & Hs0 & _). destruct (tiled_bounds _ C HC it _ Ht Hin) as (B1 & B2 & B3).
  rewrite Es. cbn [mbind option_bind]. pose proof (bsz_eq _ _ _ Es) as Eb.
  destruct (Z.ltb_spec s size) as [Hlt|Hge].
  - destruct (IH (pre ++ [it])) as [[E Hall]|(it' & f' & E & Hin' & R)]; [by rewrite <- app_assoc| |].
    + left. split; [done|]. intros a Ha. apply elem_of_cons in Ha as [->|Ha]; [lia|by apply Hall].
    + right. exists it', f'. split; [done|]. split; [by right|done].
  - right. exists it. unfold bend in B3. rewrite !HDR_16. change (16 + MINI_OS_MEMORY_MIN_BLOCK) with 32.
    rewrite (u32_small (s - size)) by lia. rewrite Z.geb_leb. destruct (Z.leb_spec 32 (s - size)) as [Hsplit|Hwhole].
    + destruct (take_split f live pre it nodes size Hi Hl (proj1 Hs) Hm ltac:(lia)) as (f2 & E & Hi' & Hsz).
      rewrite (u32_small (it + 16 + size)), (u32_small (s - size - 16)) by lia.
      rewrite Eb in E. rewrite E. cbn [mbind option_bind].
      eexists. split; [done|]. split; [left|]. split; [exact Hi'|]. split.
      * cbn. rewrite bsz_insert. lia.
      * intros a Ha. cbn. rewrite lookup_insert_ne; [by apply Hsz|]. intros <-.
        pose proof (tiled_NoDup _ C HC _ Ht) as Hnd. apply NoDup_app in Hnd as (_ & Hnd & _).
        apply (Hnd it); [|done]. rewrite Hl. apply elem_of_app. right. left.
    + cbn [mbind option_bind]. eexists. split; [done|]. split; [left|]. rewrite <- Eb.
      split; [by apply (take_whole f live pre it nodes)|]. split; [cbn; lia|done].
Qed.

Lemma freelist_alloc_inv f live size :
  fl_inv C f live -> 0 <= size <= 4294967288 ->
  (mini_os_memory_freelist_alloc f size = Some (0, f) /\
     ∀ a, a ∈ free_list f -> bsz (blk_size f) a < MINI_OS_MEMORY_ALIGN_UP size 8) \/
  (∃ it f', mini_os_memory_freelist_alloc f size = Some (it, f') /\ it ∈ free_list f /\ fl_inv C f' (it :: live) /\
     size <= bsz (blk_size f') it /\ (∀ a, a ∈ live -> blk_size f' !! a = blk_size f !! a)).
Proof.
  intros Hi Hs. unfold mini_os_memory_freelist_alloc, MINI_OS_MEMORY_ALIGN_SIZE.
  destruct (align_up_bounds size Hs) as [Hb Hm].
  assert (0 <= MINI_OS_MEMORY_ALIGN_UP size 8 < 4294967296) as Hr.
  { rewrite align_up_eq by done. wrap_lia. }
  destruct (alloc_loop_inv f live _ (free_list f) [] Hi eq_refl Hr Hm) as [[E H]|(it & f' & E & Hin & Hi' & Hle & Hsz)].
  - by left.
  - right. exists it, f'. split; [done|]. split; [done|]. split; [done|]. split; [lia|done].
Qed.
End freelist_ops.
