(* ===== verification/MiniMem.v ===== *)
(** * The mini-os memory manager

    Models the pools of src/lib/mini-os/src/memory.c: the segment table and the pool API over
    the free list of [MiniFree], with the slab classes of [MiniSlab] in front of the free list
    in the CONFIG_OPEN_SLAB build ([open_slab]).  The API runs with interrupts masked, so each
    call is one step.  The theorems show that every client that respects the contract gets
    aligned, disjoint memory inside the pool and that all memory is recovered when it is
    freed, and what happens to requests, pools and segments the contract leaves out. *)

From S2P Require Import Prelude Status IList MiniList MiniSlab MiniFree.
From stdpp Require Import gmap.

#[local] Open Scope Z_scope.

Definition MINI_OS_MEMORY_MAX_SEGS : Z := 4.
Definition MINI_OS_MEMORY_NAME_LEN : Z := 16.

(** ** Pools *)

Record mini_os_memory := mk_pool {
  name : list Z;                 (** the bytes before the NUL *)
  pool_base : Z;
  pool_size : Z;
  total_size : Z;
  fl : freelist;
  segs : list (Z * Z);           (** the first [seg_count] entries: base, len *)
  used_count : Z;
  peak : Z;
  slab_base : Z;
  slab_size : Z;
  slab_free : Z;                 (** address of the array of sentinels *)
  slab_page_count : Z;
  slab_heap : sheap;             (** the links of the slots and the sentinels *)
}.

Definition set_fl (p : mini_os_memory) (f : freelist) : mini_os_memory :=
  mk_pool (name p) (pool_base p) (pool_size p) (total_size p) f (segs p) (used_count p) (peak p)
    (slab_base p) (slab_size p) (slab_free p) (slab_page_count p) (slab_heap p).
Definition set_segs (p : mini_os_memory) (s : list (Z * Z)) : mini_os_memory :=
  mk_pool (name p) (pool_base p) (pool_size p) (total_size p) (fl p) s (used_count p) (peak p)
    (slab_base p) (slab_size p) (slab_free p) (slab_page_count p) (slab_heap p).
Definition set_total (p : mini_os_memory) (v : Z) : mini_os_memory :=
  mk_pool (name p) (pool_base p) (pool_size p) (u32 v) (fl p) (segs p) (used_count p) (peak p)
    (slab_base p) (slab_size p) (slab_free p) (slab_page_count p) (slab_heap p).
Definition set_counts (p : mini_os_memory) (used pk : Z) : mini_os_memory :=
  mk_pool (name p) (pool_base p) (pool_size p) (total_size p) (fl p) (segs p) used pk
    (slab_base p) (slab_size p) (slab_free p) (slab_page_count p) (slab_heap p).
Definition set_slab_heap (p : mini_os_memory) (h : sheap) : mini_os_memory :=
  mk_pool (name p) (pool_base p) (pool_size p) (total_size p) (fl p) (segs p) (used_count p) (peak p)
    (slab_base p) (slab_size p) (slab_free p) (slab_page_count p) h.
Definition set_slab (p : mini_os_memory) (base size pages : Z) (h : sheap) : mini_os_memory :=
  mk_pool (name p) (pool_base p) (pool_size p) (total_size p) (fl p) (segs p) (used_count p) (peak p)
    base size (slab_free p) pages h.

(** The two loops of [mini_os_memory_seg_add]: the first entry longer than [len] and all after
    it move up. *)
Fixpoint seg_insert (base len : Z) (s : list (Z * Z)) : list (Z * Z) :=
  match s with
  | [] => [(base, len)]
  | e :: s => if len <? e.2 then (base, len) :: e :: s else e :: seg_insert base len s
  end.

Definition mini_os_memory_seg_add (p : mini_os_memory) (base len : Z) : Z * mini_os_memory :=
  if Z.of_nat (length (segs p)) >=? MINI_OS_MEMORY_MAX_SEGS then (-1, p)
  else (0, set_segs p (seg_insert base len (segs p))).

Definition mini_os_memory_ptr_in_segments (p : mini_os_memory) (ptr : Z) : bool :=
  existsb (fun e => (ptr >=? e.1 + MINI_OS_MEMORY_HDR_SIZE) && (ptr <=? e.1 + e.2)) (segs p).

(** The bounded copy of the debug name. *)
Fixpoint copy_name (n : nat) (s : list Z) : list Z :=
  match n, s with
  | S n, c :: s => if c =? 0 then [] else c :: copy_name n s
  | _, _ => []
  end.

Record mini_os_memory_config := mk_cfg {
  cfg_name : option (list Z);
  static_mem : Z;
  static_len : Z;
}.

Definition MINI_OS_SLAB_PAGE_MAX : Z := 4.
Definition MINI_OS_SLAB_PROPORTION : Z := 4.

Definition mini_os_memory_slab_zone_setup (p : mini_os_memory) (base len : Z) : option (Z * mini_os_memory) :=
  let pages := MINI_OS_SLAB_PAGE_MAX in
  let pages := if pages * MINI_OS_SLAB_PAGE_SIZE >? len / MINI_OS_SLAB_PROPORTION
               then len / MINI_OS_SLAB_PROPORTION / MINI_OS_SLAB_PAGE_SIZE else pages in
  if pages =? 0 then Some (MINI_ERR_NOMEM, p) else
  h ← init_classes (slab_heap p) (slab_free p) (Z.to_nat MINI_OS_SLAB_CLASS_COUNT) 0;
  h ← mini_os_slab_zone_link h base (pages * MINI_OS_SLAB_PAGE_SIZE) (slab_free p);
  Some (MINI_OK, set_slab p base (pages * MINI_OS_SLAB_PAGE_SIZE) pages h).

Definition mini_os_memory_slab_alloc (p : mini_os_memory) (size : Z) : option (Z * mini_os_memory) :=
  let cls := mini_os_slab_class_of size in
  if cls >=? MINI_OS_SLAB_CLASS_COUNT then Some (0, p) else
  '(r, h) ← mini_os_slab_class_alloc (slab_heap p) (slab_free p) cls;
  Some (r, set_slab_heap p h).

Definition mini_os_memory_slab_free (p : mini_os_memory) (ptr : Z) : option (Z * mini_os_memory) :=
  '(r, h) ← mini_os_slab_zone_free (slab_heap p) (slab_base p) (slab_size p) (slab_free p) ptr;
  Some (r, set_slab_heap p h).

Definition mini_os_memory_count_alloc (p : mini_os_memory) : mini_os_memory :=
  let used := u32 (used_count p + 1) in
  set_counts p used (if used >? peak p then used else peak p).

Section pool_api.
Context (open_slab : bool).

(** A pool pointer is [None] when NULL.  The descriptor before the call supplies the
    sentinels' address and the memory of the slab zone. *)
Definition mini_os_memory_init (pool : option mini_os_memory) (config : option mini_os_memory_config)
    : option (Z * option mini_os_memory) :=
  match pool, config with
  | Some p, Some config =>
      if static_mem config =? 0 then Some (MINI_ERR_INVAL, pool) else
      if static_len config <? MINI_OS_MEMORY_HDR_SIZE + MINI_OS_MEMORY_MIN_BLOCK
      then Some (MINI_ERR_INVAL, pool) else
      let nm := match cfg_name config with
                | Some s => copy_name (Z.to_nat (MINI_OS_MEMORY_NAME_LEN - 1)) s
                | None => [] end in
      let f := mk_fl (blk_size (fl p)) (blk_magic (fl p)) [] 0 in
      let p := mk_pool nm (static_mem config) (static_len config) (static_len config) f [] 0 0
                 (slab_base p) (slab_size p) (slab_free p) (slab_page_count p) (slab_heap p) in
      p ← (if open_slab then
             h ← init_classes (slab_heap p) (slab_free p) (Z.to_nat MINI_OS_SLAB_CLASS_COUNT) 0;
             Some (set_slab p 0 0 0 h)
           else Some p);
      '(r, p) ← (if open_slab then mini_os_memory_slab_zone_setup p (pool_base p) (static_len config)
                 else Some (MINI_OK, p));
      if negb (r =? MINI_OK) then Some (MINI_ERR_NOMEM, Some p) else
      let free_base := if open_slab then u32 (pool_base p + slab_size p) else pool_base p in
      let free_len := if open_slab then u32 (static_len config - slab_size p) else static_len config in
      let '(r, p) := mini_os_memory_seg_add p free_base free_len in
      if negb (r =? 0) then Some (MINI_ERR_NOSPC, Some p) else
      let f := set_blk_size (fl p) free_base (u32 (free_len - MINI_OS_MEMORY_HDR_SIZE)) in
      f ← mini_os_memory_freelist_push f free_base;
      Some (MINI_OK, Some (set_fl p f))
  | _, _ => Some (MINI_ERR_INVAL, pool)
  end.

Definition mini_os_memory_deinit (pool : option mini_os_memory) : option (Z * option mini_os_memory) :=
  match pool with
  | None => Some (MINI_ERR_INVAL, pool)
  | Some p =>
      let f := mk_fl (blk_size (fl p)) (blk_magic (fl p)) [] 0 in
      let p := mk_pool (name p) 0 0 0 f [] 0 0
                 (slab_base p) (slab_size p) (slab_free p) (slab_page_count p) (slab_heap p) in
      if open_slab then
        h ← init_classes (slab_heap p) (slab_free p) (Z.to_nat MINI_OS_SLAB_CLASS_COUNT) 0;
        Some (MINI_OK, Some (set_slab p 0 0 0 h))
      else Some (MINI_OK, Some p)
  end.

Definition mini_os_memory_alloc (pool : option mini_os_memory) (size : Z) : option (Z * option mini_os_memory) :=
  match pool with
  | None => Some (0, pool)
  | Some p =>
      if size =? 0 then Some (0, pool) else
      '(ptr, p) ← (if open_slab && (size <=? MINI_OS_SLAB_MAX_BYTES)
                   then mini_os_memory_slab_alloc p size else Some (0, p));
      '(ptr, p) ← (if ptr =? 0 then
                     '(blk, f) ← mini_os_memory_freelist_alloc (fl p) size;
                     Some (if blk =? 0 then ptr else u32 (blk + MINI_OS_MEMORY_HDR_SIZE), set_fl p f)
                   else Some (ptr, p));
      Some (ptr, Some (if ptr =? 0 then p else mini_os_memory_count_alloc p))
  end.

Definition mini_os_memory_free (pool : option mini_os_memory) (ptr : Z) : option (Z * option mini_os_memory) :=
  match pool with
  | None => Some (MINI_ERR_INVAL, pool)
  | Some p =>
      if ptr =? 0 then Some (MINI_ERR_INVAL, pool) else
      '(slab_ret, p) ← (if open_slab then mini_os_memory_slab_free p ptr else Some (0, p));
      let freed := slab_ret >? 0 in
      '(freed, p) ← (if negb freed && (slab_ret =? 0) && mini_os_memory_ptr_in_segments p ptr then
                       f ← mini_os_memory_freelist_free (fl p) ptr;
                       Some (true, set_fl p f)
                     else Some (freed, p));
      let p := if (freed : bool) && (used_count p >? 0) then set_counts p (used_count p - 1) (peak p) else p in
      Some (if freed then MINI_OK else MINI_ERR_INVAL, Some p)
  end.

Definition mini_os_memory_expand (pool : option mini_os_memory) (mem len : Z) : option (Z * option mini_os_memory) :=
  match pool with
  | None => Some (MINI_ERR_INVAL, pool)
  | Some p =>
      if (mem =? 0) || (len <? MINI_OS_MEMORY_HDR_SIZE + MINI_OS_MEMORY_MIN_BLOCK)
      then Some (MINI_ERR_INVAL, pool) else
      let '(r, p) := mini_os_memory_seg_add p mem len in
      if negb (r =? 0) then Some (MINI_ERR_NOSPC, Some p) else
      let f := set_blk_size (fl p) mem (u32 (len - MINI_OS_MEMORY_HDR_SIZE)) in
      f ← mini_os_memory_freelist_merge f mem;
      Some (MINI_OK, Some (set_total (set_fl p f) (total_size p + len)))
  end.

Definition mini_os_memory_alloc_isr := mini_os_memory_alloc.
Definition mini_os_memory_free_isr := mini_os_memory_free.
End pool_api.

Definition mini_os_memory_size (pool : option mini_os_memory) : Z :=
  match pool with None => 0 | Some p => total_size p end.
Definition mini_os_memory_free_space (pool : option mini_os_memory) : Z :=
  match pool with None => 0 | Some p => if pool_base p =? 0 then 0 else free_size (fl p) end.
Definition mini_os_memory_used (pool : option mini_os_memory) : Z :=
  match pool with None => 0 | Some p => used_count p end.
Definition mini_os_memory_peak (pool : option mini_os_memory) : Z :=
  match pool with None => 0 | Some p => peak p end.
Definition mini_os_memory_reset_peak (pool : option mini_os_memory) : Z * option mini_os_memory :=
  match pool with
  | None => (MINI_ERR_INVAL, pool)
  | Some p => (MINI_OK, Some (set_counts p (used_count p) (used_count p)))
  end.

(** ** The invariant of a pool *)

Definition seg_cells (s : list (Z * Z)) : list Z := s ≫= fun e => seqZ e.1 e.2.

(** [lf] are the blocks and [ls] the slab slots handed out. *)
Record pool_core (open_slab : bool) (p : mini_os_memory) (lf ls : list Z) : Prop := {
  pc_region : region (seg_cells (segs p));
  pc_fl : fl_inv (seg_cells (segs p)) (fl p) lf;
  pc_gap : ∀ e e', e ∈ segs p -> e' ∈ segs p -> e.1 + e.2 ≠ e'.1;
  pc_slab : if open_slab then (slab_size p <= 8192 /\ slab_base p mod 8 = 0) /\
                (∃ l, slab_inv (slab_base p) (slab_size p) (slab_free p) (slab_heap p) l ls) /\
                (∀ x, x ∈ seg_cells (segs p) -> ~ slab_base p <= x < slab_base p + slab_size p)
            else ls = [];
  pc_base : pool_base p ≠ 0;
  pc_pos : ∀ a, a ∈ lf -> 0 < bsz (blk_size (fl p)) a;
}.

Record pool_inv (open_slab : bool) (p : mini_os_memory) (lf ls : list Z) : Prop := {
  pi_core : pool_core open_slab p lf ls;
  pi_used : used_count p = Z.of_nat (length lf + length ls);
  pi_peak : used_count p <= peak p;
}.

Lemma elem_of_seg_cells s x : x ∈ seg_cells s <-> ∃ e, e ∈ s /\ e.1 <= x < e.1 + e.2.
Proof.
  unfold seg_cells. rewrite list_elem_of_bind. split; intros (e & H1 & H2); exists e.
  - apply elem_of_seqZ in H1. split; [done|lia].
  - split; [apply elem_of_seqZ; lia|done].
Qed.

#[global] Instance seg_cells_proper : Proper (Permutation ==> Permutation) seg_cells.
Proof. intros L L' H. unfold seg_cells. by rewrite H. Qed.

Lemma seg_insert_perm b l s : seg_insert b l s ≡ₚ (b, l) :: s.
Proof.
  induction s as [|e s IH]; cbn [seg_insert]; [done|]. destruct (l <? e.2); [done|].
  rewrite IH. apply Permutation_swap.
Qed.

(** The segment table stays sorted by length. *)
Lemma seg_insert_hd b l s e : e ∈ seg_insert b l s -> e = (b, l) \/ e ∈ s.
Proof. rewrite seg_insert_perm. intros H. by apply elem_of_cons in H. Qed.

(** Segments with gaps between them: a block lies in one of them. *)
Lemma block_in_segment s a z :
  NoDup (seg_cells s) -> (∀ e e', e ∈ s -> e' ∈ s -> e.1 + e.2 ≠ e'.1) ->
  a < z -> (∀ x, a <= x < z -> x ∈ seg_cells s) -> ∃ e, e ∈ s /\ e.1 <= a /\ z <= e.1 + e.2.
Proof.
  intros Hnd Hgap Haz Hin. destruct (proj1 (elem_of_seg_cells s a) (Hin a ltac:(lia))) as (e & He & Ha).
  exists e. split; [done|]. split; [lia|]. destruct (Z.le_gt_cases z (e.1 + e.2)) as [|Hgt]; [done|exfalso].
  destruct (proj1 (elem_of_seg_cells s (e.1 + e.2)) (Hin (e.1 + e.2) ltac:(lia))) as (e' & He' & Hx).
  pose proof (Hgap e e' He He') as Hne. apply elem_of_Permutation in He as [r Hr].
  rewrite Hr in Hnd, He'. apply elem_of_cons in He' as [->|He']; [lia|].
  change (seg_cells (e :: r)) with (seqZ e.1 e.2 ++ seg_cells r) in Hnd. apply NoDup_app in Hnd as (_ & Hd & _).
  apply (Hd (e.1 + e.2 - 1)); [apply elem_of_seqZ; lia|]. apply elem_of_seg_cells. exists e'. split; [done|lia].
Qed.

Section pool.
Context (open_slab : bool).

Lemma live_in_segment p lf ls a : pool_core open_slab p lf ls -> a ∈ lf ->
  ∃ e, e ∈ segs p /\ e.1 <= a /\ bend (blk_size (fl p)) a <= e.1 + e.2.
Proof.
  intros Hp Ha. pose proof (pc_fl _ _ _ _ Hp) as [Ht _ _ _ _].
  assert (a ∈ free_list (fl p) ++ lf) as Hin by (apply elem_of_app; by right).
  destruct (tiled_bounds _ _ (pc_region _ _ _ _ Hp) a _ Ht Hin) as (B1 & B2 & B3).
  apply block_in_segment; [apply (pc_region _ _ _ _ Hp)|apply (pc_gap _ _ _ _ Hp)|unfold bend; lia|].
  intros x Hx. rewrite <- (proj1 Ht). apply elem_of_cells. by exists a.
Qed.

(** A held block passes the segment check. *)
Lemma live_ptr_in_segments p lf ls a : pool_core open_slab p lf ls -> a ∈ lf ->
  mini_os_memory_ptr_in_segments p (a + 16) = true.
Proof.
  intros Hp Ha. destruct (live_in_segment p lf ls a Hp Ha) as (e & He & H1 & H2).
  pose proof (pc_fl _ _ _ _ Hp) as [Ht _ _ _ _].
  assert (a ∈ free_list (fl p) ++ lf) as Hin by (apply elem_of_app; by right).
  destruct (tiled_bounds _ _ (pc_region _ _ _ _ Hp) a _ Ht Hin) as (B1 & B2 & B3). unfold bend in *.
  apply existsb_exists. exists e. split; [by apply list_elem_of_In|]. rewrite HDR_16, Z.geb_leb.
  apply andb_true_intro. split; apply Z.leb_le; lia.
Qed.

Lemma block_bytes_length sz L : (∀ a, a ∈ L -> 0 <= bsz sz a) -> 16 * Z.of_nat (length L) <= block_bytes sz L.
Proof.
  induction L as [|a L IH]; intros H; [done|]. rewrite block_bytes_cons by (apply H; left).
  cbn [length]. assert (0 <= bsz sz a) by (apply H; left).
  assert (16 * Z.of_nat (length L) <= block_bytes sz L) by (apply IH; intros b Hb; apply H; by right). lia.
Qed.

Lemma pages_slots_length base n i : Z.of_nat (length (pages_slots base n i)) <= 128 * Z.of_nat n.
Proof.
  revert i. induction n as [|n IH]; intros i; cbn [pages_slots]; [done|]. rewrite length_app.
  assert (∀ page ss m j, length (slots_from page ss m j) = m) as ->.
  { intros page ss m. induction m as [|m IHm]; intros j; cbn; [done|]. by rewrite IHm. }
  specialize (IH (i + 1)). destruct (class_bytes_range (i mod 5) (mod5_range i)) as (Hr & _ & Hq).
  assert (2048 / class_bytes (i mod 5) <= 128) by (apply Z.div_le_upper_bound; lia). lia.
Qed.

Lemma slab_live_length p lf ls : pool_core open_slab p lf ls -> Z.of_nat (length ls) <= 512.
Proof.
  intros Hp. pose proof (pc_slab _ _ _ _ Hp) as Hs. destruct open_slab; [|subst; simpl; lia].
  destruct Hs as (Hz & (l & Hi) & _). pose proof (si_slots _ _ _ _ _ _ Hi) as HP.
  apply Permutation_length in HP. rewrite length_app in HP.
  pose proof (pages_slots_length (slab_base p) (Z.to_nat (slab_size p / 2048)) 0) as Hl.
  fold (zone_slots (slab_base p) (slab_size p)) in Hl.
  assert (slab_size p / 2048 <= 4) by (apply Z.div_le_upper_bound; lia). lia.
Qed.

Lemma pool_live_length p lf ls : pool_core open_slab p lf ls -> Z.of_nat (length lf + length ls) < 4294967295.
Proof.
  intros Hp. pose proof (slab_live_length p lf ls Hp). pose proof (pc_fl _ _ _ _ Hp) as [Ht _ _ _ _].
  assert (tiled (blk_size (fl p)) (seg_cells (segs p)) (lf ++ free_list (fl p))) as Ht' by (by rewrite Permutation_app_comm).
  pose proof (tiled_bytes _ _ _ _ (pc_region _ _ _ _ Hp) Ht') as Hb.
  pose proof (block_bytes_length (blk_size (fl p)) lf) as Hl.
  assert (16 * Z.of_nat (length lf) <= block_bytes (blk_size (fl p)) lf); [|lia].
  apply Hl. intros a Ha. apply Ht. apply elem_of_app. by right.
Qed.

Lemma set_fl_id p : set_fl p (fl p) = p.
Proof. by destruct p. Qed.
Lemma set_slab_heap_id p : set_slab_heap p (slab_heap p) = p.
Proof. by destruct p. Qed.

Lemma slab_alloc_static p size :
  mini_os_memory_slab_alloc p size =
    ('(r, h) ← mini_os_slab_static_alloc (slab_heap p) (slab_free p) size; Some (r, set_slab_heap p h)).
Proof.
  unfold mini_os_memory_slab_alloc, mini_os_slab_static_alloc.
  destruct (_ >=? _); [cbn; by rewrite set_slab_heap_id|done].
Qed.

(** The outcomes of an allocation. *)
Inductive alloc_outcome (p p' : mini_os_memory) (lf ls : list Z) (size : Z) : Z -> list Z -> list Z -> Prop :=
  | alloc_null : p' = p -> (∀ a, a ∈ free_list (fl p) -> bsz (blk_size (fl p)) a < MINI_OS_MEMORY_ALIGN_UP size 8) ->
      alloc_outcome p p' lf ls size 0 lf ls
  | alloc_block a : a ∈ free_list (fl p) -> size <= bsz (blk_size (fl p')) a ->
      (∀ b, b ∈ lf -> blk_size (fl p') !! b = blk_size (fl p) !! b) ->
      alloc_outcome p p' lf ls size (a + 16) (a :: lf) ls
  | alloc_slot r : open_slab = true -> size <= slot_bytes (slab_base p) r -> r ≠ 0 -> fl p' = fl p ->
      alloc_outcome p p' lf ls size r lf (r :: ls).

Lemma core_set_counts p u k lf ls : pool_core open_slab p lf ls -> pool_core open_slab (set_counts p u k) lf ls.
Proof. intros [? ? ? ? ? ?]. by split. Qed.

Lemma count_alloc_inv p lf ls lf' ls' :
  pool_inv open_slab p lf ls -> (length lf' + length ls' = S (length lf + length ls))%nat ->
  ∀ p', pool_core open_slab p' lf' ls' -> used_count p' = used_count p -> peak p' = peak p ->
  pool_inv open_slab (mini_os_memory_count_alloc p') lf' ls'.
Proof.
  intros [Hc Hu Hk] Hl p' Hp' Eu Ek. pose proof (pool_live_length _ _ _ Hc) as Hb.
  unfold mini_os_memory_count_alloc. rewrite u32_small by lia.
  split; [by apply core_set_counts|cbn; lia|]. cbn. rewrite Z.gtb_ltb.
  destruct (Z.ltb_spec (peak p') (used_count p' + 1)); lia.
Qed.

(** The free-list part of an allocation. *)
Lemma pool_alloc_fallback p lf ls size :
  pool_inv open_slab p lf ls -> 0 < size <= 4294967288 ->
  ∃ r p' lf', ('(ptr, p) ← ('(blk, f) ← mini_os_memory_freelist_alloc (fl p) size;
                   Some (if blk =? 0 then 0 else u32 (blk + MINI_OS_MEMORY_HDR_SIZE), set_fl p f));
               Some (ptr, Some (if ptr =? 0 then p else mini_os_memory_count_alloc p))) = Some (r, Some p') /\
    alloc_outcome p p' lf ls size r lf' ls /\ pool_inv open_slab p' lf' ls /\
    segs p' = segs p /\ slab_base p' = slab_base p /\ slab_size p' = slab_size p.
Proof.
  intros Hp Hs. pose proof Hp as [[Hr Hf Hg Hsl Hb Hpos] Hu Hk].
  destruct (freelist_alloc_inv _ Hr (fl p) lf size Hf ltac:(lia)) as [[E Hall]|(a & f & E & Ha & Hi & Hle & Hsz)];
    rewrite E; cbn [mbind option_bind].
  - cbn [Z.eqb]. rewrite set_fl_id. exists 0, p, lf. split; [done|]. split; [by apply alloc_null|done].
  - assert (a ∈ free_list (fl p) ++ lf) as Hin by (apply elem_of_app; by left).
    destruct (tiled_bounds _ _ Hr a _ (fi_tiled _ _ _ Hf) Hin) as (B1 & B2 & B3). unfold bend in B3.
    rewrite (proj2 (Z.eqb_neq a 0)) by lia. rewrite HDR_16, u32_small by lia.
    rewrite (proj2 (Z.eqb_neq (a + 16) 0)) by lia.
    eexists (a + 16), _, (a :: lf). split; [done|]. split; [by apply alloc_block|]. split; [|done].
    eapply (count_alloc_inv p lf ls); [done|cbn; lia| |done|done]. split; try done.
    intros b Hb'. apply elem_of_cons in Hb' as [->|Hb']; cbn; [lia|].
    unfold bsz. rewrite Hsz by done. by apply Hpos.
Qed.

Lemma pool_alloc_inv p lf ls size :
  pool_inv open_slab p lf ls -> 0 < size <= 4294967288 ->
  ∃ r p' lf' ls', mini_os_memory_alloc open_slab (Some p) size = Some (r, Some p') /\
    alloc_outcome p p' lf ls size r lf' ls' /\ pool_inv open_slab p' lf' ls' /\
    segs p' = segs p /\ slab_base p' = slab_base p /\ slab_size p' = slab_size p.
Proof.
  intros Hp Hs. destruct (pool_alloc_fallback p lf ls size Hp Hs) as (r & p' & lf' & E & Ho).
  unfold mini_os_memory_alloc. rewrite (proj2 (Z.eqb_neq size 0)) by lia.
  destruct (open_slab && (size <=? MINI_OS_SLAB_MAX_BYTES)) eqn:Eb.
  - apply andb_prop in Eb as [Eos Hsm]. pose proof Hp as [[Hr Hf Hg Hsl Hb Hpos] Hu Hk]. rewrite Eos in Hsl.
    destruct Hsl as (Hz & (l & Hsi) & Hx). rewrite slab_alloc_static.
    destruct (slab_alloc_inv _ _ _ _ _ _ size Hsi) as [(q & h & l' & Eq & Hi' & Hq & Hfit)|[Eq _]];
      rewrite Eq; cbn [mbind option_bind].
    + rewrite (proj2 (Z.eqb_neq q 0)) by done. cbn [mbind option_bind]. rewrite (proj2 (Z.eqb_neq q 0)) by done.
      eexists q, _, lf, (q :: ls). split; [done|]. split; [by apply alloc_slot|]. split; [|done].
      eapply (count_alloc_inv p lf ls); [done|cbn; lia| |done|done]. split; try done. cbn. rewrite Eos.
      split; [done|]. split; [by exists l'|done].
    + rewrite set_slab_heap_id. cbn [Z.eqb]. exists r, p', lf', ls. by split.
  - cbn [mbind option_bind Z.eqb]. exists r, p', lf', ls. by split.
Qed.

(** Freeing a held block. *)
Lemma pool_free_block_inv p lf ls a rest :
  pool_inv open_slab p lf ls -> lf ≡ₚ a :: rest ->
  ∃ p', mini_os_memory_free open_slab (Some p) (a + 16) = Some (MINI_OK, Some p') /\
    pool_inv open_slab p' rest ls /\ segs p' = segs p /\ slab_base p' = slab_base p /\ slab_size p' = slab_size p /\
    (∀ b, b ∈ rest -> blk_size (fl p') !! b = blk_size (fl p) !! b).
Proof.
  intros Hp HP. pose proof Hp as [Hc Hu Hk]. pose proof Hc as [Hr Hf Hg Hsl Hb Hpos].
  assert (a ∈ lf) as Ha by (rewrite HP; left).
  pose proof (live_ptr_in_segments p lf ls a Hc Ha) as Hseg.
  destruct (live_in_segment p lf ls a Hc Ha) as (e & He & He1 & He2). specialize (Hpos a Ha) as Hpa.
  assert (a ∈ free_list (fl p) ++ lf) as Hin by (apply elem_of_app; by right).
  destruct (tiled_bounds _ _ Hr a _ (fi_tiled _ _ _ Hf) Hin) as (B1 & B2 & B3). unfold bend in B3, He2.
  destruct (freelist_free_inv _ Hr (fl p) lf a rest Hf HP) as (f & Ef & Hi & Hsz).
  unfold mini_os_memory_free. rewrite (proj2 (Z.eqb_neq (a + 16) 0)) by lia.
  assert ((if open_slab then mini_os_memory_slab_free p (a + 16) else Some (0, p)) = Some (0, p)) as ->.
  { destruct open_slab; [|done]. destruct Hsl as (Hz & _ & Hx).
    unfold mini_os_memory_slab_free. rewrite zone_free_outside; [cbn; by rewrite set_slab_heap_id|].
    apply Hx, elem_of_seg_cells. exists e. split; [done|lia]. }
  cbn [mbind option_bind Z.gtb Z.compare negb andb Z.eqb]. rewrite Hseg, Ef. cbn [mbind option_bind andb].
  pose proof (Permutation_length HP) as Hlen. cbn [length] in Hlen. cbn [used_count set_fl].
  rewrite Z.gtb_ltb, (proj2 (Z.ltb_lt 0 (used_count p))) by lia.
  eexists. split; [done|]. split; [|done]. split; [|cbn; lia|cbn; lia].
  apply core_set_counts. split; try done.
  intros b Hb'. cbn. unfold bsz. rewrite Hsz by done. apply Hpos. rewrite HP. by right.
Qed.

(** Freeing a held slot. *)
Lemma pool_free_slot_inv p lf ls q rest :
  pool_inv open_slab p lf ls -> ls ≡ₚ q :: rest ->
  ∃ p', mini_os_memory_free open_slab (Some p) q = Some (MINI_OK, Some p') /\
    pool_inv open_slab p' lf rest /\ segs p' = segs p /\ slab_base p' = slab_base p /\ slab_size p' = slab_size p /\
    fl p' = fl p.
Proof.
  intros Hp HP. pose proof Hp as [Hc Hu Hk]. pose proof Hc as [Hr Hf Hg Hsl Hb Hpos].
  destruct open_slab eqn:Eos; [|subst; by apply Permutation_nil_cons in HP].
  destruct Hsl as (Hz & (l & Hsi) & Hx).
  destruct (slab_free_inv _ _ _ _ _ _ q rest Hsi HP) as (h & l' & E & Hi & _).
  destruct (proj1 (si_mem _ _ _ _ _ _ Hsi) q) as [_ Hq].
  { apply elem_of_app. right. apply (slab_inv_NoDup _ _ _ _ _ _ Hsi). rewrite HP. left. }
  unfold mini_os_memory_free. rewrite (proj2 (Z.eqb_neq q 0)) by done.
  unfold mini_os_memory_slab_free. unfold mini_os_slab_static_free in E. rewrite E.
  cbn [mbind option_bind Z.gtb Z.compare negb andb used_count set_slab_heap].
  pose proof (Permutation_length HP) as Hlen. cbn [length] in Hlen.
  rewrite Z.gtb_ltb, (proj2 (Z.ltb_lt 0 (used_count p))) by lia.
  eexists. split; [done|]. split; [|done]. split; [|cbn; lia|cbn; lia].
  split; try done. cbn. split; [done|]. split; [by exists l'|done].
Qed.

(** A segment that may be added: aligned, large enough, fresh, and separated from the others
    by a gap. *)
Definition fresh_segment (p : mini_os_memory) (mem len : Z) : Prop :=
  mem mod 8 = 0 /\ len mod 8 = 0 /\ 32 <= len /\ region (seqZ mem len ++ seg_cells (segs p)) /\
  (∀ e, e ∈ segs p -> e.1 + e.2 ≠ mem /\ mem + len ≠ e.1) /\
  (open_slab = true -> ∀ x, mem <= x < mem + len -> ~ slab_base p <= x < slab_base p + slab_size p).

Lemma region_cons_lookup mem len C x : region (seqZ mem len ++ C) -> mem <= x < mem + len -> x ∉ C.
Proof.
  intros [Hnd _] Hx Hin. apply NoDup_app in Hnd as (_ & Hd & _). apply (Hd x); [|done]. apply elem_of_seqZ. lia.
Qed.

Lemma pool_expand_inv p lf ls mem len :
  pool_inv open_slab p lf ls -> fresh_segment p mem len ->
  ∃ r p', mini_os_memory_expand (Some p) mem len = Some (r, Some p') /\ pool_inv open_slab p' lf ls /\
    slab_base p' = slab_base p /\ slab_size p' = slab_size p /\
    (∀ b, b ∈ lf -> blk_size (fl p') !! b = blk_size (fl p) !! b) /\
    ((r = MINI_ERR_NOSPC /\ p' = p) \/
     (r = MINI_OK /\ seg_cells (segs p') ≡ₚ seqZ mem len ++ seg_cells (segs p))).
Proof.
  intros Hp (Hal & Hlal & Hlen & Hreg & Hgap & Hslab). pose proof Hp as [Hc Hu Hk].
  pose proof Hc as [Hr Hf Hg Hsl Hb Hpos]. pose proof Hf as [Ht Hfr Hlv Hco Hby].
  assert (0 < mem /\ mem + len <= 4294967295) as [Hm0 Hm1].
  { destruct Hreg as [_ Hrg]. pose proof (Hrg mem) as H1. pose proof (Hrg (mem + len - 1)) as H2.
    rewrite !elem_of_app, !elem_of_seqZ in H1, H2. split; [apply H1; left; lia|].
    assert (mem + len - 1 < 4294967295) by (apply H2; left; lia). lia. }
  unfold mini_os_memory_expand. rewrite (proj2 (Z.eqb_neq mem 0)) by lia.
  change (MINI_OS_MEMORY_HDR_SIZE + MINI_OS_MEMORY_MIN_BLOCK) with 32. rewrite (proj2 (Z.ltb_ge len 32)) by lia.
  cbn [orb]. unfold mini_os_memory_seg_add. destruct (_ >=? _); cbn [negb Z.eqb].
  { exists MINI_ERR_NOSPC, p. do 5 (split; [done|]). by left. }
  rewrite HDR_16, u32_small by lia. cbn [fl set_segs].
  assert (seg_cells (seg_insert mem len (segs p)) ≡ₚ seqZ mem len ++ seg_cells (segs p)) as HP
    by (by rewrite seg_insert_perm).
  assert (region (seg_cells (seg_insert mem len (segs p)))) as Hreg'.
  { destruct Hreg as [Hnd Hrg]. split; [by rewrite HP|]. intros x Hx. apply Hrg. by rewrite <- HP. }
  assert (mem ∉ free_list (fl p) ++ lf) as Hn.
  { intros Hin. apply (region_cons_lookup mem len _ mem Hreg); [lia|]. rewrite <- (proj1 Ht).
    apply elem_of_cells. exists mem. split; [done|]. destruct (proj2 Ht mem Hin) as (_ & H0 & _). unfold bend. lia. }
  assert (∀ b, b ∈ free_list (fl p) ++ lf -> <[mem := len - 16]> (blk_size (fl p)) !! b = blk_size (fl p) !! b) as Hext.
  { intros b Hb'. apply lookup_insert_ne. by intros <-. }
  destruct (freelist_merge_inv _ Hreg' (set_blk_size (fl p) mem (len - 16)) lf mem) as (f & Ef & Hi & Hsz).
  { split; cbn [set_blk_size free_list blk_size blk_magic free_size app]; try done.
    - rewrite HP. split.
      + rewrite cells_cons, bsz_insert, (cells_ext (blk_size (fl p))), (proj1 Ht) by done.
        by replace (16 + (len - 16)) with len by lia.
      + intros a Ha. apply elem_of_cons in Ha as [->|Ha]; [|apply (block_ok_ext (blk_size (fl p))); [by apply Hext|by apply Ht]].
        unfold block_ok. rewrite bsz_insert, lookup_insert_eq. split; [by eexists|]. split; [lia|]. split; [done|].
        clear -Hlal. Z.to_euclidean_division_equations; lia.
    - eapply coalesced_ext; [|exact Hco]. intros b Hb'. apply Hext, elem_of_app. by left.
    - intros a Ha. by apply not_elem_of_nil in Ha.
    - rewrite Hby. symmetry. apply block_bytes_ext. intros b Hb'. apply Hext, elem_of_app. by left. }
  rewrite Ef. cbn [mbind option_bind]. eexists _, _. split; [done|].
  assert (∀ b, b ∈ lf -> blk_size f !! b = blk_size (fl p) !! b) as Hsz'.
  { intros b Hb'. rewrite Hsz by done. cbn. apply Hext, elem_of_app. by right. }
  split; [|do 3 (split; [done|]); by right]. split; [split|done|done]; cbn; try done.
  - intros e e' He He'. apply seg_insert_hd in He, He'.
    destruct He as [->|He], He' as [->|He']; cbn; [lia|by apply Hgap|by apply Hgap|by apply Hg].
  - destruct open_slab; [|done]. destruct Hsl as (Hz & Hex & Hx). split; [done|]. split; [done|].
    intros x Hin. rewrite HP in Hin. apply elem_of_app in Hin as [Hin|Hin]; [|by apply Hx].
    apply elem_of_seqZ in Hin. apply Hslab; [done|lia].
  - intros a Ha. unfold bsz. rewrite Hsz' by done. by apply Hpos.
Qed.
End pool.

(** ** Initialisation *)

(** The bytes the slab takes from the head of the pool. *)
Definition slab_bytes (open_slab : bool) (len : Z) : Z :=
  if open_slab then Z.min 4 (len / 4 / 2048) * 2048 else 0.

(** What the configuration must provide: an aligned base and length, memory that ends below
    the top of the address space, room for a block, and with the slab one page and the words of
    its slots and sentinels. *)
Definition init_ok (open_slab : bool) (p : mini_os_memory) (cfg : mini_os_memory_config) : Prop :=
  static_mem cfg mod 8 = 0 /\ static_len cfg mod 8 = 0 /\ 32 <= static_len cfg /\
  0 < static_mem cfg /\ static_mem cfg + static_len cfg <= 4294967295 /\
  (open_slab = true -> 8192 <= static_len cfg /\
     zone_memory (static_mem cfg) (slab_bytes true (static_len cfg)) (slab_free p) (slab_heap p)).

Lemma init_block_inv f b l :
  b mod 8 = 0 -> l mod 8 = 0 -> 16 <= l -> 0 < b -> b + l <= 4294967295 ->
  free_list f = [] -> free_size f = 0 ->
  ∃ f', mini_os_memory_freelist_push (set_blk_size f b (u32 (l - MINI_OS_MEMORY_HDR_SIZE))) b = Some f' /\
    fl_inv (seg_cells [(b, l)]) f' [] /\ free_list f' = [b] /\ blk_size f' !! b = Some (l - 16).
Proof.
  intros Hb Hl H16 H0 Hend Hnil Hz. rewrite HDR_16, u32_small by lia.
  unfold mini_os_memory_freelist_push. cbn [set_blk_magic set_blk_size blk_size].
  rewrite lookup_insert_eq. cbn [mbind option_bind]. eexists. split; [done|]. rewrite HDR_16.
  split; [|cbn; rewrite Hnil; by rewrite lookup_insert_eq].
  split; cbn [set_free_list set_free_size set_blk_magic set_blk_size free_list blk_size blk_magic free_size]; rewrite ?Hnil.
  - cbn [app]. unfold seg_cells. cbn. rewrite !app_nil_r. split.
    + unfold cells. cbn. rewrite app_nil_r, bsz_insert. by replace (16 + (l - 16)) with l by lia.
    + intros a Ha. apply list_elem_of_singleton in Ha as ->. unfold block_ok. rewrite bsz_insert, lookup_insert_eq.
      split; [by eexists|]. split; [lia|]. split; [done|]. clear -Hl. Z.to_euclidean_division_equations; lia.
  - intros a Ha. apply list_elem_of_singleton in Ha as ->. by rewrite lookup_insert_eq.
  - intros a Ha. by apply not_elem_of_nil in Ha.
  - intros x y Hx Hy. apply list_elem_of_singleton in Hx as ->. apply list_elem_of_singleton in Hy as ->.
    unfold bend. rewrite bsz_insert. lia.
  - rewrite Hz, block_bytes_cons by (rewrite bsz_insert; lia). rewrite bsz_insert. change (block_bytes _ []) with 0.
    rewrite (u32_small (16 + (l - 16))), u32_small by lia. lia.
Qed.

Lemma segment_region b l : 0 < b -> 0 <= l -> b + l <= 4294967295 -> region (seg_cells [(b, l)]).
Proof.
  intros. unfold seg_cells. cbn. rewrite app_nil_r. split; [apply NoDup_seqZ|].
  intros x Hx. apply elem_of_seqZ in Hx. lia.
Qed.

(** A pool is ready after [mini_os_memory_init]: one free block over everything the slab left. *)
Lemma pool_init_inv open_slab p cfg :
  init_ok open_slab p cfg ->
  ∃ p', mini_os_memory_init open_slab (Some p) (Some cfg) = Some (MINI_OK, Some p') /\ pool_inv open_slab p' [] [] /\
    total_size p' = static_len cfg /\ slab_size p' = (if open_slab then slab_bytes true (static_len cfg) else slab_size p) /\
    segs p' = [(static_mem cfg + slab_bytes open_slab (static_len cfg), static_len cfg - slab_bytes open_slab (static_len cfg))].
Proof.
  intros (Hb & Hl & H32 & H0 & Hend & Hslab). unfold mini_os_memory_init.
  rewrite (proj2 (Z.eqb_neq (static_mem cfg) 0)) by lia.
  change (MINI_OS_MEMORY_HDR_SIZE + MINI_OS_MEMORY_MIN_BLOCK) with 32. rewrite (proj2 (Z.ltb_ge _ 32)) by lia.
  cbv zeta. set (nm := match cfg_name cfg with Some _ => _ | None => _ end). clearbody nm.
  set (b := static_mem cfg) in *. set (l := static_len cfg) in *. clearbody b l.
  destruct open_slab.
  - destruct (Hslab eq_refl) as [Hl8 Hzm]. clear Hslab. cbn [slab_heap slab_free].
    assert (1 <= l / 4 / 2048 /\ slab_bytes true l mod 8 = 0) as [Hpg Hz8].
    { split; [rewrite Z.div_div by lia; apply Z.div_le_lower_bound; lia|]. unfold slab_bytes.
      rewrite <- (Z.mul_assoc _ 256 8) || replace (Z.min 4 (l / 4 / 2048) * 2048) with (Z.min 4 (l / 4 / 2048) * 256 * 8) by lia.
      apply Z.mod_mul. lia. }
    assert (2048 <= slab_bytes true l <= 8192 /\ slab_bytes true l <= l / 4) as [Hz1 Hz2].
    { unfold slab_bytes. pose proof (Z.mul_div_le (l / 4) 2048). lia. }
    pose proof (Z.mul_div_le l 4 ltac:(lia)) as Hl4.
    destruct (init_classes_spec (slab_free p) 5 0 (slab_heap p)) as (h1 & E1 & D1 & _ & _).
    { intros k Hk. apply Hzm, elem_of_app. left. apply elem_of_sentinels. exists k. split; [lia|done]. }
    change (Z.of_nat 0) with 0 in E1. change (Z.to_nat MINI_OS_SLAB_CLASS_COUNT) with 5%nat. rewrite E1.
    cbn [mbind option_bind].
    destruct (zone_setup_inv b (slab_bytes true l) (slab_free p) h1) as (h2 & ls & E2 & Hi); [by eapply zone_memory_dom|].
    unfold mini_os_slab_static_zone_setup in E2. change (Z.to_nat MINI_OS_SLAB_CLASS_COUNT) with 5%nat in E2.
    unfold mini_os_memory_slab_zone_setup. change (Z.to_nat MINI_OS_SLAB_CLASS_COUNT) with 5%nat.
    cbn [set_slab slab_heap slab_free pool_base].
    set (pages := if _ >? _ then _ else _).
    assert (pages * MINI_OS_SLAB_PAGE_SIZE = slab_bytes true l /\ pages ≠ 0) as [Epg Hne].
    { unfold pages, slab_bytes, MINI_OS_SLAB_PAGE_MAX, MINI_OS_SLAB_PAGE_SIZE, MINI_OS_SLAB_PROPORTION.
      rewrite Z.gtb_ltb. destruct (Z.ltb_spec (l / 4) (4 * 2048)) as [Hlt|Hge].
      - assert (l / 4 / 2048 < 4) by (apply Z.div_lt_upper_bound; lia). lia.
      - assert (4 <= l / 4 / 2048) by (apply Z.div_le_lower_bound; lia). lia. }
    rewrite (proj2 (Z.eqb_neq pages 0)) by done. revert E2.
    destruct (init_classes h1 (slab_free p) 5 0) as [h1'|]; [|done]. cbn [mbind option_bind]. rewrite Epg. intros ->.
    cbn [mbind option_bind]. change (negb (MINI_OK =? MINI_OK)) with false. cbv iota.
    cbn [set_slab pool_base slab_size]. rewrite !u32_small by lia.
    unfold mini_os_memory_seg_add. cbn [segs set_slab length]. change (Z.of_nat 0 >=? MINI_OS_MEMORY_MAX_SEGS) with false.
    cbv iota. change (negb (0 =? 0)) with false. cbv iota. cbn [seg_insert fl set_segs set_slab].
    destruct (init_block_inv (mk_fl (blk_size (fl p)) (blk_magic (fl p)) [] 0) (b + slab_bytes true l) (l - slab_bytes true l))
      as (f & Ef & Hf & _); try done; [| |lia|lia|lia|].
    { clear -Hb Hz8. Z.to_euclidean_division_equations; lia. }
    { clear -Hl Hz8. Z.to_euclidean_division_equations; lia. }
    clearbody pages. set (zone := slab_bytes true l) in *. clearbody zone. rewrite Ef. cbn [mbind option_bind]. eexists. split; [done|]. split; [|done]. split; [split|done|done]; cbn; try done.
    + apply (segment_region (b + zone) (l - zone)); lia.
    + intros e e' He He'. apply list_elem_of_singleton in He as ->. apply list_elem_of_singleton in He' as ->. cbn. lia.
    + split; [by split; [lia|]|]. split; [by exists ls|]. intros x Hx. unfold seg_cells in Hx. cbn in Hx. rewrite app_nil_r in Hx.
      apply elem_of_seqZ in Hx. lia.
    + lia.
    + intros a Ha. by apply not_elem_of_nil in Ha.
  - cbn [mbind option_bind]. change (negb (MINI_OK =? MINI_OK)) with false. cbv iota.
    unfold mini_os_memory_seg_add. cbn [segs length pool_base]. change (Z.of_nat 0 >=? MINI_OS_MEMORY_MAX_SEGS) with false.
    cbv iota. change (negb (0 =? 0)) with false. cbv iota. cbn [seg_insert fl set_segs].
    destruct (init_block_inv (mk_fl (blk_size (fl p)) (blk_magic (fl p)) [] 0) b l) as (f & Ef & Hf & _); try done; [lia|].
    rewrite Ef. cbn [mbind option_bind]. eexists. split; [done|]. unfold slab_bytes. rewrite Z.add_0_r, Z.sub_0_r.
    split; [|done]. split; [split|done|done]; cbn; try done.
    + apply (segment_region b l); lia.
    + intros e e' He He'. apply list_elem_of_singleton in He as ->. apply list_elem_of_singleton in He' as ->. cbn. lia.
    + lia.
    + intros a Ha. by apply not_elem_of_nil in Ha.
Qed.

(** ** A client of a pool *)

Inductive mem_op :=
  | MAlloc (size : Z)
  | MFree (ptr : Z)
  | MExpand (mem len : Z)
  | MWrite (ptr w size magic : Z).   (** the client stores into memory it holds *)

(** A store into held memory can leave anything where a header might be looked for, and in a
    slab slot it overwrites the link. *)
Definition client_write (p : mini_os_memory) (ptr w size magic : Z) : mini_os_memory :=
  if (slab_base p <=? ptr) && (ptr <? slab_base p + slab_size p)
  then set_slab_heap p (alter (fun _ => size) ptr (slab_heap p))
  else set_fl p (mk_fl (<[w := size]> (blk_size (fl p))) (<[w := magic]> (blk_magic (fl p)))
                   (free_list (fl p)) (free_size (fl p))).

Section client.
Context (open_slab : bool).

Definition mem_exec (p : mini_os_memory) (op : mem_op) : option (Z * option mini_os_memory) :=
  match op with
  | MAlloc size => mini_os_memory_alloc open_slab (Some p) size
  | MFree ptr => mini_os_memory_free open_slab (Some p) ptr
  | MExpand mem len => mini_os_memory_expand (Some p) mem len
  | MWrite ptr w size magic => Some (MINI_OK, Some (client_write p ptr w size magic))
  end.

(** The pointers the client holds, with the sizes it asked for. *)
Definition mem_held (held : list (Z * Z)) (op : mem_op) (r : Z) : list (Z * Z) :=
  match op with
  | MAlloc size => if r =? 0 then held else (r, size) :: held
  | MFree ptr => filter (fun q => q.1 ≠ ptr) held
  | _ => held
  end.

Fixpoint mem_run (p : mini_os_memory) (held : list (Z * Z)) (ops : list mem_op)
    : option (mini_os_memory * list (Z * Z)) :=
  match ops with
  | [] => Some (p, held)
  | op :: ops =>
      '(r, p') ← mem_exec p op;
      match p' with Some p' => mem_run p' (mem_held held op r) ops | None => None end
  end.

(** The contract of the client: it frees and writes only what it holds, expands the pool with
    fresh segments, and asks for a positive size that rounding up does not wrap. *)
Definition mem_ok (p : mini_os_memory) (held : list (Z * Z)) (op : mem_op) : Prop :=
  match op with
  | MAlloc size => 0 < size <= 4294967288
  | MFree ptr => ptr ∈ held.*1
  | MExpand mem len => fresh_segment open_slab p mem len
  | MWrite ptr w _ _ => ∃ n, (ptr, n) ∈ held /\ ptr <= w < ptr + n
  end.

Fixpoint mem_disciplined (p : mini_os_memory) (held : list (Z * Z)) (ops : list mem_op) : Prop :=
  match ops with
  | [] => True
  | op :: ops =>
      mem_ok p held op /\
      ∀ r p', mem_exec p op = Some (r, Some p') -> mem_disciplined p' (mem_held held op r) ops
  end.

(** What the client holds is what the pool handed out, with room for each request. *)
Record client_inv (p : mini_os_memory) (held : list (Z * Z)) (lf ls : list Z) : Prop := {
  ci_pool : pool_inv open_slab p lf ls;
  ci_held : held.*1 ≡ₚ ((fun a => a + 16) <$> lf) ++ ls;
  ci_fit : ∀ q n, (q, n) ∈ held -> (q - 16 ∈ lf /\ n <= bsz (blk_size (fl p)) (q - 16)) \/
                                   (q ∈ ls /\ n <= slot_bytes (slab_base p) q);
}.

Lemma held_NoDup p held lf ls : client_inv p held lf ls -> NoDup held.*1.
Proof.
  intros [Hp HP _]. rewrite HP. pose proof (pi_core _ _ _ _ Hp) as Hc. pose proof Hc as [Hr Hf Hg Hsl Hb Hpos].
  pose proof (tiled_NoDup _ _ Hr _ (fi_tiled _ _ _ Hf)) as Hnd. apply NoDup_app in Hnd as (_ & _ & Hnd).
  apply NoDup_app. split; [apply NoDup_fmap_2; [intros x y; lia|done]|].
  destruct open_slab eqn:Eos; [|subst ls; split; [intros x _ Hx; by apply not_elem_of_nil in Hx|constructor]].
  destruct Hsl as (_ & (l & Hsi) & Hx). destruct (slab_inv_NoDup _ _ _ _ _ _ Hsi) as [Hn Hin]. split; [|done].
  intros x Hx1 Hx2. apply list_elem_of_fmap in Hx1 as (a & -> & Ha).
  destruct (live_in_segment true p lf ls a Hc Ha) as (e & He & E1 & E2). specialize (Hpos a Ha). unfold bend in E2.
  pose proof (zone_slots_in _ _ _ (proj2 (proj2 (si_mem _ _ _ _ _ _ Hsi))) (Hin _ Hx2)) as Hz.
  assert (0 < slot_bytes (slab_base p) (a + 16)).
  { unfold slot_bytes. destruct (class_bytes_range (slot_class (slab_base p) (a + 16)) (mod5_range _)). lia. }
  apply (Hx (a + 16)); [|lia]. apply elem_of_seg_cells. exists e. split; [done|lia].
Qed.

(** What is held is either a block or a slot. *)
Lemma held_cases p held lf ls q : client_inv p held lf ls -> q ∈ held.*1 ->
  (∃ rest, lf ≡ₚ (q - 16) :: rest) \/ (∃ rest, ls ≡ₚ q :: rest).
Proof.
  intros [_ HP _] Hq. rewrite HP in Hq. apply elem_of_app in Hq as [Hq|Hq].
  - left. apply list_elem_of_fmap in Hq as (a & -> & Ha). replace (a + 16 - 16) with a by lia.
    by apply elem_of_Permutation.
  - right. by apply elem_of_Permutation.
Qed.

Lemma alloc_step p held lf ls size :
  client_inv p held lf ls -> 0 < size <= 4294967288 ->
  ∃ r p' lf' ls', mini_os_memory_alloc open_slab (Some p) size = Some (r, Some p') /\
    client_inv p' (mem_held held (MAlloc size) r) lf' ls'.
Proof.
  intros [Hp HP Hfit] Hs. destruct (pool_alloc_inv open_slab p lf ls size Hp Hs)
    as (r & p' & lf' & ls' & E & Ho & Hp' & Es & Eb & Ez).
  exists r, p', lf', ls'. split; [done|]. cbn [mem_held].
  destruct Ho as [Epp _|a Ha Hle Hsz|r Eos Hle Hr Efl].
  - subst p'. by split.
  - assert (0 < a) as Ha0.
    { apply (tiled_bounds _ _ (pc_region _ _ _ _ (pi_core _ _ _ _ Hp)) a _ (fi_tiled _ _ _ (pc_fl _ _ _ _ (pi_core _ _ _ _ Hp)))).
      apply elem_of_app. by left. }
    rewrite (proj2 (Z.eqb_neq (a + 16) 0)) by lia. split; [done|cbn; by rewrite HP|].
    intros q n Hq. apply elem_of_cons in Hq as [[= -> ->]|Hq].
    + left. replace (a + 16 - 16) with a by lia. split; [left|done].
    + destruct (Hfit q n Hq) as [[H1 H2]|[H1 H2]]; [left|right; split; [done|by rewrite Eb]].
      split; [by right|]. unfold bsz. by rewrite Hsz.
  - rewrite (proj2 (Z.eqb_neq r 0)) by done. split; [done|cbn; rewrite HP; by rewrite <- Permutation_middle|].
    intros q n Hq. apply elem_of_cons in Hq as [[= -> ->]|Hq].
    + right. split; [left|by rewrite Eb].
    + destruct (Hfit q n Hq) as [[H1 H2]|[H1 H2]]; [left; by rewrite Efl|right; split; [by right|by rewrite Eb]].
Qed.

Lemma held_filter (held : list (Z * Z)) q n : (q, n) ∈ filter (fun e => e.1 ≠ q) held -> False.
Proof. intros H. apply list_elem_of_filter in H as [H _]. by apply H. Qed.

Lemma free_step p held lf ls ptr :
  client_inv p held lf ls -> ptr ∈ held.*1 ->
  ∃ p' lf' ls', mini_os_memory_free open_slab (Some p) ptr = Some (MINI_OK, Some p') /\
    client_inv p' (mem_held held (MFree ptr) MINI_OK) lf' ls'.
Proof.
  intros Hi Hin. pose proof (live_remove held ptr (held_NoDup _ _ _ _ Hi) Hin) as Hrm.
  assert (∀ q n, (q, n) ∈ filter (fun e => e.1 ≠ ptr) held -> q ≠ ptr /\ (q, n) ∈ held) as Hflt.
  { intros q n Hq. by apply list_elem_of_filter in Hq. }
  pose proof Hi as [Hp HP Hfit]. rewrite Hrm in HP.
  destruct (held_cases p held lf ls ptr Hi Hin) as [[rest Hr]|[rest Hr]].
  - destruct (pool_free_block_inv open_slab p lf ls (ptr - 16) rest Hp Hr) as (p' & E & Hp' & Es & Eb & Ez & Hsz).
    replace (ptr - 16 + 16) with ptr in E by lia. exists p', rest, ls. split; [done|]. split; [done| |].
    + apply (Permutation_cons_inv (a := ptr)). cbn [mem_held]. rewrite HP, Hr. cbn.
      by replace (ptr - 16 + 16) with ptr by lia.
    + intros q n Hq. destruct (Hflt q n Hq) as [Hne Hq'].
      destruct (Hfit q n Hq') as [[H1 H2]|[H1 H2]]; [left|right; split; [done|by rewrite Eb]].
      rewrite Hr in H1. apply elem_of_cons in H1 as [H1|H1]; [lia|]. split; [done|]. unfold bsz. by rewrite Hsz.
  - destruct (pool_free_slot_inv open_slab p lf ls ptr rest Hp Hr) as (p' & E & Hp' & Es & Eb & Ez & Efl).
    exists p', lf, rest. split; [done|]. split; [done| |].
    + apply (Permutation_cons_inv (a := ptr)). cbn [mem_held]. rewrite HP, Hr. by rewrite Permutation_middle.
    + intros q n Hq. destruct (Hflt q n Hq) as [Hne Hq'].
      destruct (Hfit q n Hq') as [[H1 H2]|[H1 H2]]; [left; by rewrite Efl|right].
      rewrite Hr in H1. apply elem_of_cons in H1 as [H1|H1]; [done|]. split; [done|by rewrite Eb].
Qed.

Lemma expand_step p held lf ls mem len :
  client_inv p held lf ls -> fresh_segment open_slab p mem len ->
  ∃ r p', mini_os_memory_expand (Some p) mem len = Some (r, Some p') /\ client_inv p' held lf ls.
Proof.
  intros [Hp HP Hfit] Hs. destruct (pool_expand_inv open_slab p lf ls mem len Hp Hs)
    as (r & p' & E & Hp' & Eb & Ez & Hsz & _).
  exists r, p'. split; [done|]. split; [done|done|]. intros q n Hq.
  destruct (Hfit q n Hq) as [[H1 H2]|[H1 H2]]; [left|right; by rewrite Eb].
  split; [done|]. unfold bsz. by rewrite Hsz.
Qed.

(** A store into a held slot touches no link in use. *)
Lemma write_slot_step p held lf ls ptr n size :
  client_inv p held lf ls -> (ptr, n) ∈ held -> slab_base p <= ptr < slab_base p + slab_size p ->
  client_inv (set_slab_heap p (alter (fun _ => size) ptr (slab_heap p))) held lf ls.
Proof.
  intros [Hp HP Hfit] Hin [Z1 Z2]. pose proof Hp as [Hc Hu Hk]. pose proof Hc as [Hr Hf Hg Hsl Hb Hpos].
  assert (dom (alter (fun _ => size) ptr (slab_heap p)) = dom (slab_heap p)) as D by apply dom_alter_L.
  assert (open_slab = true -> ptr ∈ ls) as Hls.
  { intros Eos. rewrite Eos in *. destruct (Hfit ptr n Hin) as [[H1 H2]|[H1 _]]; [|done]. exfalso.
    destruct Hsl as (_ & _ & Hx). destruct (live_in_segment true p lf ls _ Hc H1) as (e & He & E1 & E2).
    specialize (Hpos _ H1). unfold bend in E2.
    apply (Hx ptr); [apply elem_of_seg_cells; exists e; split; [done|lia]|lia]. }
  split; [|done|done]. split; [split|done|done]; cbn; try done. destruct open_slab; [|done].
  destruct Hsl as (Hz & (l & [Hs Hlen Hcl Hslots Hm]) & Hx). split; [done|]. split; [|done]. exists l.
  split; try done; [|by eapply zone_memory_dom]. destruct Hs as [Hs Hnd]. split; [|done].
  intros c m Hcm. eapply slist_ext; [|by apply Hs]. intros x Hxin. apply lookup_alter_ne. intros <-.
  specialize (Hls eq_refl). pose proof (pages_slots_NoDup (slab_base p) (Z.to_nat (slab_size p / 2048)) 0) as Hnz.
  fold (zone_slots (slab_base p) (slab_size p)) in Hnz. rewrite <- Hslots in Hnz. apply NoDup_app in Hnz as (_ & Hd & _).
  apply elem_of_cons in Hxin as [Ex|Hxin].
  - apply (proj1 (proj2 Hm) ptr).
    + apply elem_of_sentinels. exists c. split; [rewrite <- Hlen; by eapply lookup_lt_Some|done].
    + rewrite <- Hslots. apply elem_of_app. by right.
  - apply (Hd ptr); [|done]. apply elem_of_concat_lookup. eauto.
Qed.

(** A store into a held block touches no header in use. *)
Lemma write_block_step p held lf ls ptr n w size magic :
  client_inv p held lf ls -> (ptr, n) ∈ held -> ptr <= w < ptr + n ->
  ~ slab_base p <= ptr < slab_base p + slab_size p ->
  client_inv (set_fl p (mk_fl (<[w := size]> (blk_size (fl p))) (<[w := magic]> (blk_magic (fl p)))
                          (free_list (fl p)) (free_size (fl p)))) held lf ls.
Proof.
  intros [Hp HP Hfit] Hin Hw Ez. pose proof Hp as [Hc Hu Hk]. pose proof Hc as [Hr Hf Hg Hsl Hb Hpos].
  assert (ptr - 16 ∈ lf /\ n <= bsz (blk_size (fl p)) (ptr - 16)) as [H1 H2].
  { destruct (Hfit ptr n Hin) as [?|[H1 _]]; [done|exfalso]. destruct open_slab; [|subst; by apply not_elem_of_nil in H1].
    destruct Hsl as (_ & (l & Hsi) & _). destruct (slab_inv_NoDup _ _ _ _ _ _ Hsi) as [_ Hzi].
    pose proof (zone_slots_in _ _ _ (proj2 (proj2 (si_mem _ _ _ _ _ _ Hsi))) (Hzi _ H1)) as Hz.
    assert (0 < slot_bytes (slab_base p) ptr).
    { unfold slot_bytes. destruct (class_bytes_range (slot_class (slab_base p) ptr) (mod5_range _)). lia. }
    lia. }
  assert (w ∉ free_list (fl p) ++ lf) as Hn.
  { intros Hbad. pose proof (fi_tiled _ _ _ Hf) as Ht. destruct (decide (w = ptr - 16)) as [|Hne]; [lia|].
    assert (∃ r, free_list (fl p) ++ lf ≡ₚ ptr - 16 :: w :: r) as [r Er].
    { assert (ptr - 16 ∈ free_list (fl p) ++ lf) as H3 by (apply elem_of_app; by right).
      apply elem_of_Permutation in H3 as [r Er]. rewrite Er in Hbad. apply elem_of_cons in Hbad as [?|Hbad]; [done|].
      apply elem_of_Permutation in Hbad as [r' Er']. exists r'. by rewrite Er, Er'. }
    rewrite Er in Ht. pose proof (tiled_disjoint _ _ Hr _ _ _ Ht) as Hd.
    destruct (proj2 Ht w) as (_ & Hw0 & _); [right; left|]. unfold bend in Hd. lia. }
  assert (∀ b, b ∈ free_list (fl p) ++ lf -> w ≠ b) as Hne by (intros b Hb' ->; done).
  assert (∀ b, b ∈ free_list (fl p) -> w ≠ b) as HneF by (intros b Hb'; apply Hne, elem_of_app; by left).
  assert (∀ b, b ∈ lf -> w ≠ b) as HneL by (intros b Hb'; apply Hne, elem_of_app; by right).
  split; [split; [split|done|done]| |]; cbn; try done.
  - destruct Hf as [Ht Hfr Hlv Hco Hby]. split; cbn.
    + eapply tiled_ext; [|done]. intros b Hb'. rewrite lookup_insert_ne by auto. done.
    + intros b Hb'. rewrite lookup_insert_ne by auto. by apply Hfr.
    + intros b Hb'. rewrite lookup_insert_ne by auto. by apply Hlv.
    + eapply coalesced_ext; [|exact Hco]. intros b Hb'. rewrite lookup_insert_ne by auto. done.
    + rewrite Hby. symmetry. apply block_bytes_ext. intros b Hb'. rewrite lookup_insert_ne by auto. done.
  - intros a Ha. rewrite bsz_insert_ne by (intros ->; by apply (HneL w)). by apply Hpos.
  - intros q m Hq. destruct (Hfit q m Hq) as [[H3 H4]|?]; [left|by right]. split; [done|].
    rewrite bsz_insert_ne; [done|]. intros E. by apply (HneL (q - 16)).
Qed.

Lemma write_step p held lf ls ptr n w size magic :
  client_inv p held lf ls -> (ptr, n) ∈ held -> ptr <= w < ptr + n ->
  client_inv (client_write p ptr w size magic) held lf ls.
Proof.
  intros Hi Hin Hw. unfold client_write.
  destruct (Z.leb_spec (slab_base p) ptr), (Z.ltb_spec ptr (slab_base p + slab_size p)); cbn [andb];
    first [by eapply write_slot_step | eapply write_block_step; [done..|lia]].
Qed.

Lemma client_run_inv ops p held lf ls :
  client_inv p held lf ls -> mem_disciplined p held ops ->
  ∃ p' held' lf' ls', mem_run p held ops = Some (p', held') /\ client_inv p' held' lf' ls'.
Proof.
  revert p held lf ls. induction ops as [|op ops IH]; intros p held lf ls Hi Hd; cbn [mem_run].
  { by exists p, held, lf, ls. }
  destruct Hd as [Hop Hd].
  assert (∃ r p' lf' ls', mem_exec p op = Some (r, Some p') /\ client_inv p' (mem_held held op r) lf' ls')
    as (r & p' & lf' & ls' & E & Hi').
  { destruct op as [size|ptr|mem len|ptr w size magic]; cbn [mem_exec mem_ok] in *.
    - by apply (alloc_step p held lf ls).
    - destruct (free_step p held lf ls ptr Hi Hop) as (p' & lf' & ls' & E & Hi'). by exists MINI_OK, p', lf', ls'.
    - destruct (expand_step p held lf ls mem len Hi Hop) as (r & p' & E & Hi'). by exists r, p', lf, ls.
    - destruct Hop as (n & Hin & Hw). eexists MINI_OK, _, lf, ls. split; [done|]. by eapply write_step. }
  rewrite E. cbn [mbind option_bind]. eapply IH; [exact Hi'|]. by apply Hd.
Qed.
End client.

(** ** Theorems *)

(** The bytes a pool manages. *)
Definition in_pool (open_slab : bool) (p : mini_os_memory) (x : Z) : Prop :=
  x ∈ seg_cells (segs p) \/ (open_slab = true /\ slab_base p <= x < slab_base p + slab_size p).

Lemma class_bytes_mod8 c : 0 <= c < 5 -> class_bytes c mod 8 = 0.
Proof. revert c. apply class_cases; reflexivity. Qed.

Lemma held_place open_slab p held lf ls q n :
  client_inv open_slab p held lf ls -> (q, n) ∈ held ->
  q mod 8 = 0 /\ ∀ x, q <= x < q + n -> in_pool open_slab p x.
Proof.
  intros [Hp HP Hfit] Hq. pose proof (pi_core _ _ _ _ Hp) as Hc. pose proof Hc as [Hr Hf Hg Hsl Hb Hpos].
  destruct (Hfit q n Hq) as [[H1 H2]|[H1 H2]].
  - destruct (live_in_segment open_slab p lf ls _ Hc H1) as (e & He & E1 & E2). unfold bend in E2.
    destruct (proj2 (fi_tiled _ _ _ Hf) (q - 16)) as (_ & _ & Hal & _); [apply elem_of_app; by right|].
    split; [clear -Hal; Z.to_euclidean_division_equations; lia|].
    intros x Hx. left. apply elem_of_seg_cells. exists e. split; [done|lia].
  - destruct open_slab; [|subst; by apply not_elem_of_nil in H1].
    destruct Hsl as ((_ & Hal) & (l & Hsi) & _). destruct (slab_inv_NoDup _ _ _ _ _ _ Hsi) as [_ Hz].
    pose proof (zone_slots_in _ _ _ (proj2 (proj2 (si_mem _ _ _ _ _ _ Hsi))) (Hz _ H1)) as Hin.
    split; [|intros x Hx; right; split; [done|lia]].
    specialize (Hz q H1). apply elem_of_pages_slots in Hz as (i & k & _ & _ & ->).
    pose proof (class_bytes_mod8 (i mod 5) (mod5_range i)) as Hc8.
    rewrite <- Z.add_assoc, Z.add_mod, Hal by lia. rewrite Z.add_0_l, Z.mod_mod by lia.
    rewrite Z.add_mod by lia. rewrite (Z.mul_mod i) by lia. change (2048 mod 8) with 0. rewrite Z.mul_0_r, Z.mod_0_l by lia.
    rewrite (Z.mul_mod k), Hc8 by lia. by rewrite Z.mul_0_r.
Qed.

(** Two different held pointers have disjoint memory. *)
Lemma held_disjoint open_slab p held lf ls q n q' n' :
  client_inv open_slab p held lf ls -> (q, n) ∈ held -> (q', n') ∈ held -> q ≠ q' -> q + n <= q' \/ q' + n' <= q.
Proof.
  intros [Hp HP Hfit] Hq Hq' Hne. pose proof (pi_core _ _ _ _ Hp) as Hc. pose proof Hc as [Hr Hf Hg Hsl Hb Hpos].
  assert (∀ a s z m, a ∈ lf -> s <= bsz (blk_size (fl p)) a -> z ∈ ls -> m <= slot_bytes (slab_base p) z ->
            a + 16 + s <= z \/ z + m <= a + 16) as Hmix.
  { intros a s z m Ha Hs Hz Hm. destruct open_slab; [|subst; by apply not_elem_of_nil in Hz].
    destruct Hsl as (_ & (l & Hsi) & Hx). destruct (slab_inv_NoDup _ _ _ _ _ _ Hsi) as [_ Hzi].
    pose proof (zone_slots_in _ _ _ (proj2 (proj2 (si_mem _ _ _ _ _ _ Hsi))) (Hzi _ Hz)) as Hin.
    destruct (live_in_segment true p lf ls a Hc Ha) as (e & He & E1 & E2). specialize (Hpos a Ha). unfold bend in E2.
    assert (∀ x, e.1 <= x < e.1 + e.2 -> ~ slab_base p <= x < slab_base p + slab_size p) as Hxe.
    { intros x Hx'. apply Hx, elem_of_seg_cells. by exists e. }
    assert (0 < slot_bytes (slab_base p) z).
    { unfold slot_bytes. destruct (class_bytes_range (slot_class (slab_base p) z) (mod5_range _)). lia. }
    pose proof (Hxe e.1 ltac:(lia)). assert (~ e.1 <= slab_base p < e.1 + e.2) by (intros H'; apply (Hxe _ H'); lia).
    lia. }
  destruct (Hfit q n Hq) as [[H1 H2]|[H1 H2]], (Hfit q' n' Hq') as [[H3 H4]|[H3 H4]].
  - assert (∃ r, free_list (fl p) ++ lf ≡ₚ q - 16 :: q' - 16 :: r) as [r Er].
    { apply elem_of_Permutation in H1 as [r Hr1]. rewrite Hr1 in H3. apply elem_of_cons in H3 as [?|H3]; [lia|].
      apply elem_of_Permutation in H3 as [r2 Hr2]. exists (free_list (fl p) ++ r2). rewrite Hr1, Hr2.
      by rewrite <- !Permutation_middle. }
    pose proof (fi_tiled _ _ _ Hf) as Ht. rewrite Er in Ht. pose proof (tiled_disjoint _ _ Hr _ _ _ Ht) as Hd.
    unfold bend in Hd. lia.
  - pose proof (Hmix _ _ _ _ H1 H2 H3 H4). lia.
  - pose proof (Hmix _ _ _ _ H3 H4 H1 H2). lia.
  - destruct open_slab; [|subst; by apply not_elem_of_nil in H1].
    destruct Hsl as (_ & (l & Hsi) & _). destruct (slab_inv_NoDup _ _ _ _ _ _ Hsi) as [_ Hzi].
    pose proof (slots_disjoint _ _ _ _ (Hzi _ H1) (Hzi _ H3) Hne). lia.
Qed.

(** C6: The memory manager is safe for every client, in the build without slab and in the
    build with it.  After [mini_os_memory_init], any sequence of allocations, frees, expansions
    and stores into held memory in which the client frees and writes only what it holds runs
    without reading an unwritten header; every held pointer is 8-byte aligned and all the bytes
    asked for belong to the pool; two held pointers never overlap; and the used counter is the
    number of held pointers and never above the peak. *)
Theorem memory_client_safe open_slab p cfg ops :
  init_ok open_slab p cfg ->
  ∃ p0, mini_os_memory_init open_slab (Some p) (Some cfg) = Some (MINI_OK, Some p0) /\
    (mem_disciplined open_slab p0 [] ops ->
     ∃ p' held, mem_run open_slab p0 [] ops = Some (p', held) /\
       mini_os_memory_used (Some p') = Z.of_nat (length held) /\
       mini_os_memory_used (Some p') <= mini_os_memory_peak (Some p') /\
       (∀ q n, (q, n) ∈ held -> q mod 8 = 0 /\ ∀ x, q <= x < q + n -> in_pool open_slab p' x) /\
       (∀ q n q' n', (q, n) ∈ held -> (q', n') ∈ held -> q ≠ q' -> q + n <= q' \/ q' + n' <= q)).
Proof.
  intros Hok. destruct (pool_init_inv open_slab p cfg Hok) as (p0 & E0 & Hp0 & _). exists p0. split; [done|].
  intros Hd. destruct (client_run_inv open_slab ops p0 [] [] []) as (p' & held & lf & ls & E & Hi); [|done|].
  { split; [done|done|]. intros q n Hq. by apply not_elem_of_nil in Hq. }
  exists p', held. pose proof Hi as [[Hc Hu Hk] HP _]. split; [done|]. split; [|split; [done|split]].
  - cbn. rewrite Hu. f_equal. apply Permutation_length in HP. rewrite length_app, !length_fmap in HP. lia.
  - intros q n. by apply (held_place open_slab p' held lf ls).
  - intros q n q' n'. by apply (held_disjoint open_slab p' held lf ls).
Qed.

(** When nothing is handed out, each segment is one free block. *)
Lemma whole_segment open_slab p b l :
  pool_inv open_slab p [] [] -> (b, l) ∈ segs p -> 0 < l ->
  b ∈ free_list (fl p) /\ blk_size (fl p) !! b = Some (l - 16).
Proof.
  intros Hp Hbl Hl. pose proof Hp as [[Hr Hf Hg _ _ _] _ _]. destruct Hf as [Ht _ _ Hco _]. rewrite app_nil_r in Ht.
  assert (∀ x, x ∈ seg_cells (segs p) -> ∃ a, a ∈ free_list (fl p) /\ a <= x < bend (blk_size (fl p)) a) as Hcov.
  { intros x Hx. rewrite <- (proj1 Ht) in Hx. by apply elem_of_cells in Hx. }
  assert (∀ a, a ∈ free_list (fl p) -> ∃ e, e ∈ segs p /\ e.1 <= a /\ bend (blk_size (fl p)) a <= e.1 + e.2) as Hseg.
  { intros a Ha. destruct (tiled_bounds _ _ Hr a _ Ht Ha) as (B1 & B2 & B3).
    apply block_in_segment; [apply Hr|done|unfold bend; lia|].
    intros x Hx. rewrite <- (proj1 Ht). apply elem_of_cells. by exists a. }
  assert (∀ a c, a ∈ free_list (fl p) -> c ∈ free_list (fl p) -> a ≠ c ->
            bend (blk_size (fl p)) a < c \/ bend (blk_size (fl p)) c < a) as Hdis.
  { intros a c Ha Hc' Hne. pose proof (Hco a c Ha Hc'). pose proof (Hco c a Hc' Ha).
    apply elem_of_Permutation in Ha as [r Er]. rewrite Er in Hc'. apply elem_of_cons in Hc' as [?|Hc']; [done|].
    apply elem_of_Permutation in Hc' as [r' Er']. rewrite Er, Er' in Ht.
    pose proof (tiled_disjoint _ _ Hr _ _ _ Ht). lia. }
  destruct (Hcov b) as (a & Ha & Hba); [apply elem_of_seg_cells; exists (b, l); cbn; split; [done|lia]|].
  destruct (Hseg a Ha) as (e & He & E1 & E2).
  assert (e = (b, l)) as ->.
  { destruct (decide (e = (b, l))) as [|Hne]; [done|exfalso]. apply elem_of_Permutation in He as [r Er].
    rewrite Er in Hbl. apply elem_of_cons in Hbl as [?|Hbl]; [done|].
    pose proof (proj1 Hr) as Hnd. rewrite Er in Hnd. change (seg_cells (e :: r)) with (seqZ e.1 e.2 ++ seg_cells r) in Hnd.
    apply NoDup_app in Hnd as (_ & Hd & _). apply (Hd b); [apply elem_of_seqZ; lia|].
    apply elem_of_seg_cells. exists (b, l). cbn. split; [done|lia]. }
  cbn in E1, E2. assert (a = b) as -> by lia.
  assert (bend (blk_size (fl p)) b = b + l) as Hend.
  { destruct (Z.eq_dec (bend (blk_size (fl p)) b) (b + l)) as [|Hne]; [done|exfalso].
    destruct (Hcov (bend (blk_size (fl p)) b)) as (c & Hc' & Hx); [apply elem_of_seg_cells; exists (b, l); cbn; split; [done|lia]|].
    destruct (decide (b = c)) as [->|Hbc]; [lia|]. destruct (Hdis b c Ha Hc' Hbc) as [H1|H1]; lia. }
  split; [done|]. destruct (proj2 Ht b Ha) as ((s & Es) & _). rewrite Es. f_equal.
  unfold bend in Hend. rewrite (bsz_eq _ _ _ Es) in Hend. lia.
Qed.

(** Freed memory is recovered in full.  Whatever a client did, once it holds nothing any
    more every segment of the pool is again one free block over its whole length, the free
    space is the sum of the segments, and a request for all the data bytes of a segment
    succeeds: there is neither a leak nor lasting fragmentation. *)
Theorem memory_recovers_all open_slab p cfg p0 ops p' :
  init_ok open_slab p cfg ->
  mini_os_memory_init open_slab (Some p) (Some cfg) = Some (MINI_OK, Some p0) ->
  mem_disciplined open_slab p0 [] ops -> mem_run open_slab p0 [] ops = Some (p', []) ->
  mini_os_memory_free_space (Some p') = Z.of_nat (length (seg_cells (segs p'))) /\
  (∀ b l, (b, l) ∈ segs p' -> 0 < l -> b ∈ free_list (fl p') /\ blk_size (fl p') !! b = Some (l - 16)) /\
  (∀ b l, (b, l) ∈ segs p' -> 16 < l -> l mod 8 = 0 ->
     ∃ r p2, mini_os_memory_alloc open_slab (Some p') (l - 16) = Some (r, p2) /\ r ≠ 0).
Proof.
  intros Hok E0 Hd E. destruct (pool_init_inv open_slab p cfg Hok) as (p1 & E1 & Hp1 & _).
  assert (p1 = p0) as -> by congruence.
  destruct (client_run_inv open_slab ops p0 [] [] []) as (p2 & held & lf & ls & E2 & Hi); [|done|].
  { split; [done|done|]. intros q n Hq. by apply not_elem_of_nil in Hq. }
  assert (p2 = p' /\ held = []) as [-> ->] by (rewrite E in E2; by injection E2).
  destruct Hi as [Hp HP _]. apply Permutation_nil in HP. apply app_eq_nil in HP as [HP ->]. apply fmap_nil_inv in HP as ->.
  assert (∀ b l, (b, l) ∈ segs p' -> 0 < l -> b ∈ free_list (fl p') /\ blk_size (fl p') !! b = Some (l - 16)) as Hw.
  { intros b l. by apply (whole_segment open_slab). }
  pose proof Hp as [[Hr Hf _ _ Hb _] _ _]. split; [|split; [done|]].
  - cbn. rewrite (proj2 (Z.eqb_neq _ 0)) by done. destruct Hf as [[HP _] _ _ _ ->]. rewrite app_nil_r in HP.
    unfold block_bytes. by rewrite HP.
  - intros b l Hin Hl Hm. destruct (Hw b l Hin ltac:(lia)) as [Hfree Hsz].
    assert (bend (blk_size (fl p')) b <= 4294967295 /\ 0 < b) as [Hbd Hb0].
    { destruct (tiled_bounds _ _ Hr b _ (fi_tiled _ _ _ Hf)) as (? & _ & ?); [apply elem_of_app; by left|done]. }
    unfold bend in Hbd. rewrite (bsz_eq _ _ _ Hsz) in Hbd.
    destruct (pool_alloc_inv open_slab p' [] [] (l - 16) Hp ltac:(lia)) as (r & p2 & lf' & ls' & Ea & Ho & _).
    exists r, (Some p2). split; [done|]. destruct Ho as [_ Hall|a Ha _ _|r _ _ Hr0 _].
    + specialize (Hall b Hfree). rewrite (bsz_eq _ _ _ Hsz), align_up_aligned in Hall; [lia|lia|].
      clear -Hm. Z.to_euclidean_division_equations; lia.
    + assert (0 < a); [|lia]. apply (tiled_bounds _ _ Hr a _ (fi_tiled _ _ _ Hf)). apply elem_of_app. by left.
    + done.
Qed.

(** A descriptor in static storage, before its initialisation. *)
Definition raw_pool : mini_os_memory := mk_pool [] 0 0 0 (mk_fl ∅ ∅ [] 0) [] 0 0 0 0 16 0 ∅.
Definition cfg_at (base len : Z) : mini_os_memory_config := mk_cfg None base len.

Lemma raw_init_ok base len :
  base mod 8 = 0 -> len mod 8 = 0 -> 32 <= len -> 0 < base -> base + len <= 4294967295 ->
  init_ok false raw_pool (cfg_at base len).
Proof. intros. unfold init_ok. cbn. repeat split; try done. all: discriminate. Qed.

Lemma memory_client_safe_witness :
  ∃ p0, mini_os_memory_init false (Some raw_pool) (Some (cfg_at 4096 256)) = Some (MINI_OK, Some p0) /\
    (mem_disciplined false p0 [] [MAlloc 20; MAlloc 3; MFree 4112] ->
     ∃ p' held, mem_run false p0 [] [MAlloc 20; MAlloc 3; MFree 4112] = Some (p', held) /\
       mini_os_memory_used (Some p') = Z.of_nat (length held) /\
       mini_os_memory_used (Some p') <= mini_os_memory_peak (Some p') /\
       (∀ q n, (q, n) ∈ held -> q mod 8 = 0 /\ ∀ x, q <= x < q + n -> in_pool false p' x) /\
       (∀ q n q' n', (q, n) ∈ held -> (q', n') ∈ held -> q ≠ q' -> q + n <= q' \/ q' + n' <= q)).
Proof.
  apply (memory_client_safe false raw_pool (cfg_at 4096 256) [MAlloc 20; MAlloc 3; MFree 4112]).
  apply raw_init_ok; reflexivity || lia.
Defined.

(** The state of a pool after a list of calls, and what they returned. *)
Fixpoint mem_results (open_slab : bool) (p : mini_os_memory) (ops : list mem_op) : option (list Z * mini_os_memory) :=
  match ops with
  | [] => Some ([], p)
  | op :: ops =>
      '(r, p') ← mem_exec open_slab p op;
      match p' with
      | Some p' => '(rs, p') ← mem_results open_slab p' ops; Some (r :: rs, p')
      | None => None
      end
  end.

Definition ready_pool (base len : Z) : mini_os_memory :=
  match mini_os_memory_init false (Some raw_pool) (Some (cfg_at base len)) with
  | Some (_, Some p) => p
  | _ => raw_pool
  end.

(** The client's contract is checked by running the calls. *)
Fixpoint ops_checked (p : mini_os_memory) (held : list (Z * Z)) (ops : list mem_op) : bool :=
  match ops with
  | [] => true
  | op :: ops =>
      match op with
      | MAlloc size => (0 <? size) && (size <=? 4294967288)
      | MFree ptr => bool_decide (ptr ∈ held.*1)
      | _ => false
      end &&
      match mem_exec false p op with
      | Some (r, Some p') => ops_checked p' (mem_held held op r) ops
      | _ => true
      end
  end.

Lemma ops_checked_ok ops p held : ops_checked p held ops = true -> mem_disciplined false p held ops.
Proof.
  revert p held. induction ops as [|op ops IH]; intros p held H; cbn [ops_checked mem_disciplined] in *; [done|].
  apply andb_prop in H as [H1 H2]. split.
  - destruct op; cbn [mem_ok]; try done; [bool_to_prop; lia|by apply bool_decide_eq_true in H1].
  - intros r p' E. rewrite E in H2. by apply IH.
Qed.

Lemma memory_recovers_all_witness :
  let p' := match mem_run false (ready_pool 4096 256) [] [MAlloc 20; MAlloc 50; MFree 4112; MAlloc 8; MFree 4152; MFree 4112] with
            | Some (p', _) => p' | None => raw_pool end in
  mini_os_memory_free_space (Some p') = Z.of_nat (length (seg_cells (segs p'))) /\
  (∀ b l, (b, l) ∈ segs p' -> 0 < l -> b ∈ free_list (fl p') /\ blk_size (fl p') !! b = Some (l - 16)) /\
  (∀ b l, (b, l) ∈ segs p' -> 16 < l -> l mod 8 = 0 ->
     ∃ r p2, mini_os_memory_alloc false (Some p') (l - 16) = Some (r, p2) /\ r ≠ 0).
Proof.
  apply (memory_recovers_all false raw_pool (cfg_at 4096 256) (ready_pool 4096 256)
           [MAlloc 20; MAlloc 50; MFree 4112; MAlloc 8; MFree 4152; MFree 4112]).
  - apply raw_init_ok; reflexivity || lia.
  - vm_compute. reflexivity.
  - apply ops_checked_ok. vm_compute. reflexivity.
  - vm_compute. reflexivity.
Defined.

(** The size check of an allocation does not survive rounding.  A request within seven
    bytes of 2^32 is rounded up to zero, so a pool with any free block answers it with a
    pointer, to a block of fewer than 32 bytes. *)
Theorem alloc_size_wraps p lf size :
  pool_inv false p lf [] -> free_list (fl p) ≠ [] -> 4294967288 < size < 4294967296 ->
  ∃ r p', mini_os_memory_alloc false (Some p) size = Some (r, Some p') /\ r ≠ 0 /\
    bsz (blk_size (fl p')) (r - 16) < 32.
Proof.
  intros [[Hr Hf _ _ _ _] _ _] Hne Hs. unfold mini_os_memory_alloc. rewrite (proj2 (Z.eqb_neq size 0)) by lia.
  cbn [andb mbind option_bind Z.eqb]. unfold mini_os_memory_freelist_alloc.
  assert (MINI_OS_MEMORY_ALIGN_UP size MINI_OS_MEMORY_ALIGN_SIZE = 0) as ->.
  { assert (size = 4294967289 \/ size = 4294967290 \/ size = 4294967291 \/ size = 4294967292 \/ size = 4294967293
      \/ size = 4294967294 \/ size = 4294967295) as H by lia.
    destruct H as [->|[->|[->|[->|[->|[->| ->]]]]]]; reflexivity. }
  destruct (free_list (fl p)) as [|it post] eqn:El; [done|]. cbn [alloc_loop].
  pose proof (fi_tiled _ _ _ Hf) as Ht. rewrite El in Ht.
  assert (it ∈ (it :: post) ++ lf) as Hin by (left).
  destruct (proj2 Ht it Hin) as ((s & Es) & Hs0 & _). destruct (tiled_bounds _ _ Hr it _ Ht Hin) as (B1 & B2 & B3).
  unfold bend in B3. rewrite (bsz_eq _ _ _ Es) in Hs0, B3. rewrite Es. cbn [mbind option_bind].
  rewrite (proj2 (Z.ltb_ge s 0)) by lia. rewrite !HDR_16. change (16 + MINI_OS_MEMORY_MIN_BLOCK) with 32.
  rewrite Z.sub_0_r, (u32_small s) by lia. rewrite Z.geb_leb. destruct (Z.leb_spec 32 s) as [Hsp|Hsp].
  - destruct (take_split _ Hr (fl p) lf [] it post 0 Hf El) as (f2 & E & _); [lia|done|rewrite (bsz_eq _ _ _ Es); lia|].
    rewrite (bsz_eq _ _ _ Es), Z.sub_0_r in E. rewrite (u32_small (it + 16 + 0)), (u32_small (s - 16)) by lia. rewrite E.
    cbn [mbind option_bind]. rewrite (proj2 (Z.eqb_neq it 0)) by lia. rewrite u32_small by lia.
    rewrite (proj2 (Z.eqb_neq (it + 16) 0)) by lia. eexists _, _. split; [done|]. split; [lia|].
    cbn. replace (it + 16 - 16) with it by lia. rewrite bsz_insert. lia.
  - cbn [mbind option_bind]. rewrite (proj2 (Z.eqb_neq it 0)) by lia. rewrite u32_small by lia.
    rewrite (proj2 (Z.eqb_neq (it + 16) 0)) by lia. eexists _, _. split; [done|]. split; [lia|].
    cbn. replace (it + 16 - 16) with it by lia. by rewrite (bsz_eq _ _ _ Es).
Qed.

Lemma alloc_size_wraps_witness :
  ∃ p lf, pool_inv false p lf [] /\
  ∃ r p', mini_os_memory_alloc false (Some p) 4294967295 = Some (r, Some p') /\ r ≠ 0 /\
    bsz (blk_size (fl p')) (r - 16) < 32.
Proof.
  destruct (pool_init_inv false raw_pool (cfg_at 4096 256)) as (p & E & Hp & _ & _ & Hs);
    [apply raw_init_ok; reflexivity || lia|].
  exists p, []. split; [exact Hp|]. apply (alloc_size_wraps p [] 4294967295 Hp); [|lia].
  intros Hnil. assert ((4096, 256) ∈ segs p) as Hin by (rewrite Hs; left).
  destruct (whole_segment false p 4096 256 Hp Hin) as [Hb _]; [lia|]. rewrite Hnil in Hb. by apply not_elem_of_nil in Hb.
Defined.

(** A block whose header straddles two adjacent segments is refused by [mini_os_memory_free]:
    here the second segment starts where the first ends, the two coalesce, and the pointer
    8 bytes into the second segment, just handed out, is answered with MINI_ERR_INVAL. *)
Theorem adjacent_segments_leak :
  ∃ p', mem_results false (ready_pool 4096 64) [MExpand 4160 64; MAlloc 40; MAlloc 8; MFree 4168]
    = Some ([MINI_OK; 4112; 4168; MINI_ERR_INVAL], p') /\ mini_os_memory_used (Some p') = 2.
Proof. eexists. split; [vm_compute; reflexivity|reflexivity]. Qed.

(** A pool whose length is not a multiple of 8 can hand out a block of unaligned size, which
    [mini_os_memory_free] acknowledges without returning it: the block is lost although the
    used counter is back at zero, and the next request fails. *)
Theorem unaligned_pool_leaks :
  ∃ p', mem_results false (ready_pool 4096 100) [MAlloc 80; MFree 4112; MAlloc 1]
    = Some ([4112; MINI_OK; 0], p') /\ mini_os_memory_used (Some p') = 0 /\
      mini_os_memory_free_space (Some p') = 0.
Proof. eexists. split; [vm_compute; reflexivity|split; reflexivity]. Qed.

(** A double free is detected by the free list, but [mini_os_memory_free] reports success and
    decrements the used counter all the same: here it reads 0 while a block is held. *)
Theorem double_free_miscounts :
  ∃ p', mem_results false (ready_pool 4096 256) [MAlloc 16; MAlloc 16; MFree 4112; MFree 4112]
    = Some ([4112; 4144; MINI_OK; MINI_OK], p') /\ mini_os_memory_used (Some p') = 0 /\
      blk_magic (fl p') !! 4128 = Some MINI_OS_MEMORY_MAGIC_ALLOC.
Proof. eexists. split; [vm_compute; reflexivity|split; reflexivity]. Qed.
