(* ===== verification/MiniHeap.v ===== *)
(** * The global heap of mini-os

    Models the end of src/lib/mini-os/src/memory.c: the global pool over the linker script's
    heap zone, the static slab zone in front of it, the start-up constructors and
    [mini_os_malloc], [mini_os_free], [mini_os_calloc].  The two slab builds are the booleans
    [open_slab] and [slab_static], which the code makes exclusive; the linker symbols, the
    addresses of the static arrays and the size of the static zone are parameters. *)

From S2P Require Import Prelude Status IList MiniList MiniSlab MiniFree MiniMem.
From stdpp Require Import gmap.

#[local] Open Scope Z_scope.

Record heap_state := mk_heap {
  s_mini_os_heap_pool : mini_os_memory;
  s_mini_os_heap_ready : bool;
  s_mini_os_slab_static_heap : sheap;     (** links of the static slots and sentinels *)
  s_mini_os_slab_static_ready : bool;
}.

Definition with_pool (s : heap_state) (p : mini_os_memory) : heap_state :=
  mk_heap p (s_mini_os_heap_ready s) (s_mini_os_slab_static_heap s) (s_mini_os_slab_static_ready s).
Definition with_static (s : heap_state) (h : sheap) : heap_state :=
  mk_heap (s_mini_os_heap_pool s) (s_mini_os_heap_ready s) h (s_mini_os_slab_static_ready s).

Section heap.
Context (open_slab slab_static : bool).
Context (heap_start heap_end : Z).                       (** linker symbols *)
Context (static_mem MINI_OS_SLAB_STATIC_SIZE static_free : Z).

Definition MINI_OS_HEAP_SIZE : Z := u32 (heap_end - heap_start).

Definition mini_os_heap_validate : Z :=
  if MINI_OS_HEAP_SIZE <? MINI_OS_SLAB_PAGE_SIZE * MINI_OS_SLAB_PROPORTION then MINI_ERR_NOMEM else MINI_OK.

Definition mini_os_heap_init_ctor (s : heap_state) : option heap_state :=
  s ← (if slab_static then
         h ← mini_os_slab_static_zone_setup (s_mini_os_slab_static_heap s) static_mem
               MINI_OS_SLAB_STATIC_SIZE static_free;
         Some (mk_heap (s_mini_os_heap_pool s) (s_mini_os_heap_ready s) h true)
       else Some s);
  if heap_end - heap_start <=? 0 then Some s else
  let cfg := mk_cfg (Some [104; 101; 97; 112]) heap_start MINI_OS_HEAP_SIZE in
  '(r, p) ← mini_os_memory_init open_slab (Some (s_mini_os_heap_pool s)) (Some cfg);
  let s := match p with Some p => with_pool s p | None => s end in
  Some (if r =? MINI_OK
        then mk_heap (s_mini_os_heap_pool s) true (s_mini_os_slab_static_heap s) (s_mini_os_slab_static_ready s)
        else s).

Definition mini_os_malloc (s : heap_state) (size : Z) : option (Z * heap_state) :=
  if size =? 0 then Some (0, s) else
  '(ptr, s) ← (if slab_static && (size <=? MINI_OS_SLAB_MAX_BYTES) && s_mini_os_slab_static_ready s then
                 '(ptr, h) ← mini_os_slab_static_alloc (s_mini_os_slab_static_heap s) static_free size;
                 Some (ptr, with_static s h)
               else Some (0, s));
  if negb (ptr =? 0) then Some (ptr, s) else
  if negb (s_mini_os_heap_ready s) then Some (0, s) else
  '(ptr, p) ← mini_os_memory_alloc open_slab (Some (s_mini_os_heap_pool s)) size;
  Some (ptr, match p with Some p => with_pool s p | None => s end).

Definition heap_pool_free (s : heap_state) (ptr : Z) : option (Z * heap_state) :=
  if negb (s_mini_os_heap_ready s) then Some (MINI_ERR_DEFER, s) else
  '(r, p) ← mini_os_memory_free open_slab (Some (s_mini_os_heap_pool s)) ptr;
  Some (r, match p with Some p => with_pool s p | None => s end).

Definition mini_os_free (s : heap_state) (ptr : Z) : option (Z * heap_state) :=
  if slab_static then
    if ptr =? 0 then Some (MINI_ERR_INVAL, s) else
    '(result, h) ← mini_os_slab_static_free (s_mini_os_slab_static_heap s) static_mem
                     MINI_OS_SLAB_STATIC_SIZE static_free ptr;
    let s := with_static s h in
    if result =? 1 then Some (MINI_OK, s) else
    if result <? 0 then Some (MINI_ERR_INVAL, s) else
    heap_pool_free s ptr
  else heap_pool_free s ptr.

(** The pointer, the state, and the range [MINI_OS_MEMSET] zeroes, if any. *)
Definition mini_os_calloc (s : heap_state) (count size : Z) : option (Z * heap_state * option (Z * Z)) :=
  if (count =? 0) || (size =? 0) then Some (0, s, None) else
  if count >? 4294967295 / size then Some (0, s, None) else
  let total := u32 (count * size) in
  '(ptr, s) ← mini_os_malloc s total;
  Some (ptr, s, if negb (ptr =? 0) then Some (ptr, total) else None).

Definition mini_os_heap_free_space (s : heap_state) : Z :=
  if negb (s_mini_os_heap_ready s) then 0 else mini_os_memory_free_space (Some (s_mini_os_heap_pool s)).

(** ** The heap invariant

    [lf] and [ls] are the blocks and pool slots, [lt] the static slots handed out.  The static
    zone, its sentinels and the heap do not overlap. *)
Record heap_inv (s : heap_state) (lf ls lt : list Z) : Prop := {
  hi_pool : if s_mini_os_heap_ready s then pool_inv open_slab (s_mini_os_heap_pool s) lf ls
            else lf = [] /\ ls = [];
  hi_static : if slab_static then s_mini_os_slab_static_ready s = true /\
                  ∃ l, slab_inv static_mem MINI_OS_SLAB_STATIC_SIZE static_free (s_mini_os_slab_static_heap s) l lt
              else lt = [];
  hi_excl : open_slab && slab_static = false;
  hi_apart : slab_static = true -> s_mini_os_heap_ready s = true ->
             ∀ x, in_pool open_slab (s_mini_os_heap_pool s) x ->
                  ~ static_mem <= x < static_mem + MINI_OS_SLAB_STATIC_SIZE;
}.

(** Start-up leaves a heap that satisfies the invariant. *)
Lemma heap_init_inv s :
  heap_start < heap_end -> heap_end <= 4294967295 ->
  init_ok open_slab (s_mini_os_heap_pool s) (mk_cfg (Some [104; 101; 97; 112]) heap_start MINI_OS_HEAP_SIZE) ->
  open_slab && slab_static = false ->
  (slab_static = true -> zone_memory static_mem MINI_OS_SLAB_STATIC_SIZE static_free (s_mini_os_slab_static_heap s) /\
     ∀ x, heap_start <= x < heap_end -> ~ static_mem <= x < static_mem + MINI_OS_SLAB_STATIC_SIZE) ->
  ∃ s', mini_os_heap_init_ctor s = Some s' /\ s_mini_os_heap_ready s' = true /\ heap_inv s' [] [] [].
Proof.
  intros Hlt Htop Hok Hex Hst. unfold mini_os_heap_init_ctor. rewrite (proj2 (Z.leb_gt _ 0)) by lia.
  assert (MINI_OS_HEAP_SIZE = heap_end - heap_start) as Esz.
  { unfold MINI_OS_HEAP_SIZE. apply u32_small. destruct Hok as (_ & _ & _ & H0 & _). cbn in H0. lia. }
  destruct (pool_init_inv open_slab _ _ Hok) as (p & E & Hp & _ & Ez & Es). cbn [MiniMem.static_mem static_len] in Es, Ez.
  rewrite Esz in Es.
  assert (slab_static = true -> ∀ x, in_pool open_slab p x -> heap_start <= x < heap_end) as Hin.
  { intros Hs x Hx. rewrite Hs, andb_true_r in Hex. rewrite Hex in *. destruct Hx as [Hx|[? _]]; [|done].
    rewrite Es in Hx. unfold seg_cells in Hx. cbn in Hx. rewrite app_nil_r in Hx. apply elem_of_seqZ in Hx. lia. }
  assert (∀ s1, s_mini_os_heap_pool s1 = s_mini_os_heap_pool s ->
    (if slab_static then s_mini_os_slab_static_ready s1 = true /\
       ∃ l, slab_inv static_mem MINI_OS_SLAB_STATIC_SIZE static_free (s_mini_os_slab_static_heap s1) l []
     else True) ->
    ∃ s', ('(r, p) ← mini_os_memory_init open_slab (Some (s_mini_os_heap_pool s1))
                       (Some (mk_cfg (Some [104; 101; 97; 112]) heap_start MINI_OS_HEAP_SIZE));
           let s := match p with Some p => with_pool s1 p | None => s1 end in
           Some (if r =? MINI_OK
                 then mk_heap (s_mini_os_heap_pool s) true (s_mini_os_slab_static_heap s) (s_mini_os_slab_static_ready s)
                 else s)) = Some s' /\ s_mini_os_heap_ready s' = true /\ heap_inv s' [] [] []) as Hrest.
  { intros s1 -> Hs1. rewrite E. cbn. eexists. split; [done|]. split; [done|]. split; cbn; [done| |done|].
    - by destruct slab_static.
    - intros Hs _ x Hx. destruct (Hst Hs) as [_ Hap]. by apply Hap, Hin. }
  destruct slab_static eqn:Ess; [|by apply Hrest].
  destruct (Hst eq_refl) as [Hzm _]. destruct (zone_setup_inv _ _ _ _ Hzm) as (h & l & Eh & Hi). rewrite Eh.
  cbn [mbind option_bind]. apply Hrest; [done|]. cbn. split; [done|]. by exists l.
Qed.

(** One more pointer is out: a block, a slot of the pool, or a static slot. *)
Inductive malloc_outcome (lf ls lt : list Z) : Z -> list Z -> list Z -> list Z -> Prop :=
  | malloc_null : malloc_outcome lf ls lt 0 lf ls lt
  | malloc_block a : 0 < a -> malloc_outcome lf ls lt (a + 16) (a :: lf) ls lt
  | malloc_slot q : q ≠ 0 -> malloc_outcome lf ls lt q lf (q :: ls) lt
  | malloc_static q : q ≠ 0 -> malloc_outcome lf ls lt q lf ls (q :: lt).

Lemma in_pool_same p p' x :
  segs p' = segs p -> slab_base p' = slab_base p -> slab_size p' = slab_size p ->
  in_pool open_slab p' x -> in_pool open_slab p x.
Proof. intros E1 E2 E3. unfold in_pool. by rewrite E1, E2, E3. Qed.

Lemma heap_pool_malloc s lf ls lt size :
  heap_inv s lf ls lt -> 0 < size <= 4294967288 ->
  ∃ r s' lf' ls', (if negb (s_mini_os_heap_ready s) then Some (0, s) else
      '(ptr, p) ← mini_os_memory_alloc open_slab (Some (s_mini_os_heap_pool s)) size;
      Some (ptr, match p with Some p => with_pool s p | None => s end)) = Some (r, s') /\
    malloc_outcome lf ls lt r lf' ls' lt /\ heap_inv s' lf' ls' lt.
Proof.
  intros [Hp Hs Hex Hap] Hsz. destruct (s_mini_os_heap_ready s) eqn:Er; cbn [negb].
  - destruct (pool_alloc_inv open_slab _ lf ls size Hp Hsz) as (r & p' & lf' & ls' & E & Ho & Hp' & E1 & E2 & E3).
    rewrite E. cbn [mbind option_bind]. exists r, (with_pool s p'), lf', ls'. split; [done|]. split.
    + destruct Ho as [_ _|a Ha _ _|q _ _ Hq _]; [constructor| |by constructor]. constructor.
      pose proof (pi_core _ _ _ _ Hp) as [Hr Hf _ _ _ _].
      apply (tiled_bounds _ _ Hr a _ (fi_tiled _ _ _ Hf)). apply elem_of_app. by left.
    + split; cbn; rewrite ?Er; try done. intros H1 _ x Hx. apply (Hap H1 eq_refl).
      by apply (in_pool_same (s_mini_os_heap_pool s) p').
  - exists 0, s, lf, ls. split; [done|]. split; [constructor|]. split; rewrite ?Er; done.
Qed.

(** [mini_os_malloc] hands out at most one pointer and keeps the invariant. *)
Lemma malloc_inv s lf ls lt size :
  heap_inv s lf ls lt -> 0 < size <= 4294967288 ->
  ∃ r s' lf' ls' lt', mini_os_malloc s size = Some (r, s') /\ malloc_outcome lf ls lt r lf' ls' lt' /\
    heap_inv s' lf' ls' lt'.
Proof.
  intros Hi Hsz. destruct (heap_pool_malloc s lf ls lt size Hi Hsz) as (r & s' & lf' & ls' & E & Ho & Hi').
  unfold mini_os_malloc. rewrite (proj2 (Z.eqb_neq size 0)) by lia.
  destruct (slab_static && (size <=? MINI_OS_SLAB_MAX_BYTES) && s_mini_os_slab_static_ready s) eqn:Eb.
  - apply andb_prop in Eb as [Eb _]. apply andb_prop in Eb as [Ess _].
    pose proof Hi as [Hp Hs Hex Hap]. rewrite Ess in Hs. destruct Hs as (Hr & l & Hsi).
    destruct (slab_alloc_inv _ _ _ _ _ _ size Hsi) as [(q & h & l' & Eq & Hi2 & Hq & _)|[Eq _]]; rewrite Eq;
      cbn [mbind option_bind].
    + rewrite (proj2 (Z.eqb_neq q 0)) by done. cbn [negb]. exists q, (with_static s h), lf, ls, (q :: lt).
      split; [done|]. split; [by constructor|]. split; cbn; try done. rewrite Ess. split; [done|]. by exists l'.
    + assert (with_static s (s_mini_os_slab_static_heap s) = s) as -> by (by destruct s).
      change (negb (0 =? 0)) with false. cbv iota. by exists r, s', lf', ls', lt.
  - cbn [mbind option_bind]. change (negb (0 =? 0)) with false. cbv iota. by exists r, s', lf', ls', lt.
Qed.

(** The pool part of a free of a pointer the pool handed out. *)
Lemma heap_pool_free_block s a lf ls lt :
  heap_inv s (a :: lf) ls lt ->
  ∃ s', heap_pool_free s (a + 16) = Some (MINI_OK, s') /\ heap_inv s' lf ls lt.
Proof.
  intros [Hp Hs Hex Hap]. unfold heap_pool_free.
  destruct (s_mini_os_heap_ready s) eqn:Er; cbn [negb]; [|by destruct Hp].
  destruct (pool_free_block_inv open_slab _ _ _ a lf Hp) as (p' & E & Hp' & E1 & E2 & E3 & _); [done|].
  rewrite E. cbn. eexists. split; [done|]. split; cbn; rewrite ?Er; try done.
  intros H1 _ x Hx. apply (Hap H1 eq_refl). by apply (in_pool_same (s_mini_os_heap_pool s) p').
Qed.

Lemma heap_pool_free_slot s q lf ls lt :
  heap_inv s lf (q :: ls) lt ->
  ∃ s', heap_pool_free s q = Some (MINI_OK, s') /\ heap_inv s' lf ls lt.
Proof.
  intros [Hp Hs Hex Hap]. unfold heap_pool_free.
  destruct (s_mini_os_heap_ready s) eqn:Er; cbn [negb]; [|by destruct Hp].
  destruct (pool_free_slot_inv open_slab _ _ _ q ls Hp) as (p' & E & Hp' & E1 & E2 & E3 & _); [done|].
  rewrite E. cbn. eexists. split; [done|]. split; cbn; rewrite ?Er; try done.
  intros H1 _ x Hx. apply (Hap H1 eq_refl). by apply (in_pool_same (s_mini_os_heap_pool s) p').
Qed.

(** The first byte of a block's data is the pool's. *)
Lemma heap_block_in_pool s a lf ls lt :
  heap_inv s (a :: lf) ls lt -> s_mini_os_heap_ready s = true /\ in_pool open_slab (s_mini_os_heap_pool s) (a + 16).
Proof.
  intros [Hp _ _ _]. destruct (s_mini_os_heap_ready s); [|by destruct Hp]. split; [done|].
  pose proof (pi_core _ _ _ _ Hp) as Hc. assert (a ∈ a :: lf) as Ha by left.
  destruct (live_in_segment open_slab _ _ _ a Hc Ha) as (e & He & E1 & E2).
  pose proof (pc_pos _ _ _ _ Hc a Ha). unfold bend in E2. left. apply elem_of_seg_cells. exists e. split; [done|lia].
Qed.

(** Every pointer [mini_os_malloc] hands out is taken back by [mini_os_free], in all three
    builds.  From a heap that satisfies the invariant, a request that succeeds and the free of
    its pointer leave the invariant with exactly the pointers handed out before, whichever of
    the free list, the pool's slab or the static slab served the request. *)
Theorem malloc_free_balance s lf ls lt size r s1 :
  heap_inv s lf ls lt -> 0 < size <= 4294967288 -> mini_os_malloc s size = Some (r, s1) -> r ≠ 0 ->
  ∃ s2, mini_os_free s1 r = Some (MINI_OK, s2) /\ heap_inv s2 lf ls lt.
Proof.
  intros Hi Hsz E Hr. destruct (malloc_inv s lf ls lt size Hi Hsz) as (r' & s' & lf' & ls' & lt' & E' & Ho & Hi').
  rewrite E in E'. injection E' as <- <-. unfold mini_os_free. destruct Ho as [|a Ha|q Hq|q Hq]; [done| | |].
  - destruct (heap_block_in_pool s1 a lf ls lt Hi') as [Hrd Hin].
    destruct slab_static eqn:Ess; [|by apply heap_pool_free_block]. rewrite (proj2 (Z.eqb_neq (a + 16) 0)) by lia.
    unfold mini_os_slab_static_free. rewrite zone_free_outside by (by apply (hi_apart _ _ _ _ Hi')).
    cbn [mbind option_bind Z.eqb Z.ltb Z.compare]. assert (with_static s1 (s_mini_os_slab_static_heap s1) = s1) as ->
      by (by destruct s1). by apply heap_pool_free_block.
  - pose proof (hi_excl _ _ _ _ Hi') as Hex. destruct slab_static; [|by apply heap_pool_free_slot].
    rewrite andb_true_r in Hex. exfalso. pose proof (hi_pool _ _ _ _ Hi') as Hp.
    destruct (s_mini_os_heap_ready s1); [|by destruct Hp]. pose proof (pc_slab _ _ _ _ (pi_core _ _ _ _ Hp)) as Hsl.
    by rewrite Hex in Hsl.
  - pose proof Hi' as [Hp Hs Hex Hap]. destruct slab_static eqn:Ess; [|done]. destruct Hs as (Hrd & l & Hsi).
    rewrite (proj2 (Z.eqb_neq q 0)) by done.
    destruct (slab_free_inv _ _ _ _ _ _ q lt Hsi) as (h & l' & Ef & Hf & _); [done|]. rewrite Ef.
    cbn. eexists. split; [done|]. split; cbn; rewrite ?Ess; try done. split; [done|]. by exists l'.
Qed.

(** [mini_os_calloc] never allocates a short buffer.  For arguments of type [size_t], a
    pointer is returned only when the product fits in 32 bits; it is then the pointer
    [mini_os_malloc] gives for exactly [count * size] bytes, and exactly those bytes are
    zeroed. *)
Theorem calloc_exact s count size ptr s' zeroed :
  is_u32 count -> is_u32 size -> mini_os_calloc s count size = Some (ptr, s', zeroed) -> ptr ≠ 0 ->
  count * size < 4294967296 /\ mini_os_malloc s (count * size) = Some (ptr, s') /\
  zeroed = Some (ptr, count * size).
Proof.
  unfold is_u32, mini_os_calloc. intros Hc Hs. destruct (Z.eqb_spec count 0); [by intros [= <- <- <-]|].
  destruct (Z.eqb_spec size 0); [by intros [= <- <- <-]|]. cbn [orb]. rewrite Z.gtb_ltb.
  destruct (Z.ltb_spec (4294967295 / size) count) as [|Hle]; [by intros [= <- <- <-]|].
  assert (count * size <= 4294967295) as Hm.
  { pose proof (Z.mul_div_le 4294967295 size ltac:(lia)). nia. }
  rewrite u32_small by nia. destruct (mini_os_malloc s (count * size)) as [[r s2]|] eqn:E; [|done].
  cbn [mbind option_bind]. intros [= <- <- <-] Hp. rewrite (proj2 (Z.eqb_neq r 0)) by done.
  split; [lia|]. done.
Qed.

End heap.

(** A heap of 256 bytes at 4096 in the default build. *)
Definition boot_heap : heap_state := mk_heap raw_pool false ∅ false.
Definition small_heap : heap_state :=
  default boot_heap (mini_os_heap_init_ctor false false 4096 4352 0 0 0 boot_heap).

Lemma small_heap_inv : heap_inv false false 0 0 0 small_heap [] [] [].
Proof.
  destruct (heap_init_inv false false 4096 4352 0 0 0 boot_heap) as (s & E & _ & Hi); try done.
  unfold small_heap. by rewrite E.
Qed.

Lemma malloc_free_balance_witness :
  ∃ r s1 s2, mini_os_malloc false false 0 small_heap 100 = Some (r, s1) /\ r ≠ 0 /\
    mini_os_free false false 0 0 0 s1 r = Some (MINI_OK, s2) /\ heap_inv false false 0 0 0 s2 [] [] [].
Proof.
  destruct (mini_os_malloc false false 0 small_heap 100) as [[r s1]|] eqn:E; [|vm_compute in E; discriminate].
  assert (r = 4112) as Hr by (assert (fst <$> mini_os_malloc false false 0 small_heap 100 = Some 4112) as H
    by (vm_compute; reflexivity); rewrite E in H; by injection H).
  destruct (malloc_free_balance false false 0 0 0 small_heap [] [] [] 100 r s1 small_heap_inv) as (s2 & H1 & H2);
    [lia|exact E|lia|]. exists r, s1, s2. split; [reflexivity|]. split; [lia|]. split; assumption.
Defined.

Lemma calloc_exact_witness :
  ∃ ptr s' z, mini_os_calloc false false 0 small_heap 6 7 = Some (ptr, s', z) /\ ptr ≠ 0 /\
    z = Some (ptr, 42).
Proof.
  destruct (mini_os_calloc false false 0 small_heap 6 7) as [[[ptr s'] z]|] eqn:E; [|vm_compute in E; discriminate].
  assert (ptr = 4112) as Hr.
  { assert ((fun r => r.1.1) <$> mini_os_calloc false false 0 small_heap 6 7 = Some 4112) as H by (vm_compute; reflexivity).
    rewrite E in H. by injection H. }
  exists ptr, s', z. split; [reflexivity|]. split; [lia|].
  apply (calloc_exact false false 0 small_heap 6 7 ptr s' z); [split; lia|split; lia|exact E|lia].
Defined.
