(* ===== verification/MiniSched.v ===== *)
(** * The mini-os scheduler

    Models src/lib/mini-os/src/schedule.c, the inline functions of inc/schedule.h and the
    parts of src/thread.c that create, delay and re-prioritise threads, in the default
    configuration (no EDF and no deadline class; time slices and the long tick counter are
    parameters).  A thread control block is a record at an address; its [list_node] is in at
    most one of the ready lists and the slots of the time wheel, its [wait_node] in at most
    one wait list.  Lists are sequences of threads, as [MiniList] shows the pointer lists
    implement them; [None] is an access to a block or a wait list that does not exist, the
    linking of a node that is linked already, or the use of a list head as a thread.  Each
    critical section is one step; a call that parks its thread is split where it yields.

    The lemmas here give each operation under the invariant [wf]; the theorems about
    sequences of operations are in [MiniKernel]. *)

From S2P Require Import Prelude Status MiniList.
From stdpp Require Import gmap functions.

#[local] Open Scope Z_scope.

Definition MINI_OS_PRIORITY : Z := 32.
Definition MINI_OS_TICK_WHEEL : Z := 32.
Definition MINI_OS_TICK_WHEEL_MASK : Z := MINI_OS_TICK_WHEEL - 1.
Definition MINI_OS_THREAD_WAIT_REF_MAX : Z := 2.
Definition MINI_OS_THREAD_MIN_STACK_SIZE : Z := 256.
Definition MINI_OS_WAIT_FOREVER : Z := -1.

(** [mini_os_ctz_fallback], which the builtin agrees with. *)
Fixpoint ctz_loop (fuel : nat) (x n : Z) : Z :=
  match fuel with
  | O => n
  | S fuel => if Z.land x 1 =? 0 then ctz_loop fuel (Z.shiftr x 1) (n + 1) else n
  end.
Definition MINI_OS_CTZ (x : Z) : Z := if x =? 0 then 32 else ctz_loop 32 x 0.

Inductive thread_state :=
  | THREAD_INIT | THREAD_RUNNING | THREAD_READY | THREAD_SUSPENDED | THREAD_BLOCKED
  | THREAD_INVALID | THREAD_TERMINATED.
#[export] Instance thread_state_eq_dec : EqDecision thread_state.
Proof. solve_decision. Defined.

(** The fields of [struct mini_os_thread] that scheduling uses. *)
Record thread := mk_thread {
  th_state : thread_state;
  th_priority : Z;
  th_base_priority : Z;
  th_round : Z;
  th_wheel_slot : Z;
  th_resume_time : Z;
  th_wait_list : option Z;
  th_wait_status : bool;
  th_wait_mask : Z;
  th_wait_refs : list Z;
  th_wait_mutex : option Z;
  th_init_tick_num : Z;
  th_remain_tick : Z
}.

Definition th_set_state (t : thread) (v : thread_state) : thread :=
  mk_thread v (th_priority t) (th_base_priority t) (th_round t) (th_wheel_slot t) (th_resume_time t)
    (th_wait_list t) (th_wait_status t) (th_wait_mask t) (th_wait_refs t) (th_wait_mutex t)
    (th_init_tick_num t) (th_remain_tick t).
Definition th_set_priority (t : thread) (v : Z) : thread :=
  mk_thread (th_state t) v (th_base_priority t) (th_round t) (th_wheel_slot t) (th_resume_time t)
    (th_wait_list t) (th_wait_status t) (th_wait_mask t) (th_wait_refs t) (th_wait_mutex t)
    (th_init_tick_num t) (th_remain_tick t).
Definition th_set_base_priority (t : thread) (v : Z) : thread :=
  mk_thread (th_state t) (th_priority t) v (th_round t) (th_wheel_slot t) (th_resume_time t)
    (th_wait_list t) (th_wait_status t) (th_wait_mask t) (th_wait_refs t) (th_wait_mutex t)
    (th_init_tick_num t) (th_remain_tick t).
Definition th_set_round (t : thread) (v : Z) : thread :=
  mk_thread (th_state t) (th_priority t) (th_base_priority t) v (th_wheel_slot t) (th_resume_time t)
    (th_wait_list t) (th_wait_status t) (th_wait_mask t) (th_wait_refs t) (th_wait_mutex t)
    (th_init_tick_num t) (th_remain_tick t).
Definition th_set_wheel_slot (t : thread) (v : Z) : thread :=
  mk_thread (th_state t) (th_priority t) (th_base_priority t) (th_round t) v (th_resume_time t)
    (th_wait_list t) (th_wait_status t) (th_wait_mask t) (th_wait_refs t) (th_wait_mutex t)
    (th_init_tick_num t) (th_remain_tick t).
Definition th_set_resume_time (t : thread) (v : Z) : thread :=
  mk_thread (th_state t) (th_priority t) (th_base_priority t) (th_round t) (th_wheel_slot t) v
    (th_wait_list t) (th_wait_status t) (th_wait_mask t) (th_wait_refs t) (th_wait_mutex t)
    (th_init_tick_num t) (th_remain_tick t).
Definition th_set_wait_list (t : thread) (v : option Z) : thread :=
  mk_thread (th_state t) (th_priority t) (th_base_priority t) (th_round t) (th_wheel_slot t) (th_resume_time t)
    v (th_wait_status t) (th_wait_mask t) (th_wait_refs t) (th_wait_mutex t)
    (th_init_tick_num t) (th_remain_tick t).
Definition th_set_wait_status (t : thread) (v : bool) : thread :=
  mk_thread (th_state t) (th_priority t) (th_base_priority t) (th_round t) (th_wheel_slot t) (th_resume_time t)
    (th_wait_list t) v (th_wait_mask t) (th_wait_refs t) (th_wait_mutex t)
    (th_init_tick_num t) (th_remain_tick t).
Definition th_set_wait_mask (t : thread) (v : Z) : thread :=
  mk_thread (th_state t) (th_priority t) (th_base_priority t) (th_round t) (th_wheel_slot t) (th_resume_time t)
    (th_wait_list t) (th_wait_status t) v (th_wait_refs t) (th_wait_mutex t)
    (th_init_tick_num t) (th_remain_tick t).
Definition th_set_wait_refs (t : thread) (v : list Z) : thread :=
  mk_thread (th_state t) (th_priority t) (th_base_priority t) (th_round t) (th_wheel_slot t) (th_resume_time t)
    (th_wait_list t) (th_wait_status t) (th_wait_mask t) v (th_wait_mutex t)
    (th_init_tick_num t) (th_remain_tick t).
Definition th_set_wait_mutex (t : thread) (v : option Z) : thread :=
  mk_thread (th_state t) (th_priority t) (th_base_priority t) (th_round t) (th_wheel_slot t) (th_resume_time t)
    (th_wait_list t) (th_wait_status t) (th_wait_mask t) (th_wait_refs t) v
    (th_init_tick_num t) (th_remain_tick t).
Definition th_set_remain_tick (t : thread) (v : Z) : thread :=
  mk_thread (th_state t) (th_priority t) (th_base_priority t) (th_round t) (th_wheel_slot t) (th_resume_time t)
    (th_wait_list t) (th_wait_status t) (th_wait_mask t) (th_wait_refs t) (th_wait_mutex t)
    (th_init_tick_num t) v.

(** The heads of the lists a [list_node] can be in: [g_ready_running_list] and [s_wheel]. *)
Inductive list_head := ReadyHead (p : Z) | WheelHead (s : Z).
#[export] Instance list_head_eq_dec : EqDecision list_head.
Proof. solve_decision. Defined.
(** What a [next] pointer of such a list refers to. *)
Inductive sched_node := ThreadNode (t : Z) | HeadNode (h : list_head).
#[export] Instance sched_node_eq_dec : EqDecision sched_node.
Proof. solve_decision. Defined.

(** The variables of schedule.c, the control blocks, the wait lists of the synchronisation
    objects, and the pending context switch. *)
Record kernel := mk_kernel {
  threads : gmap Z thread;
  linked : list_head -> list Z;
  wait_lists : gmap Z (list Z);
  g_priority : Z;
  s_current_priority : Z;
  s_current_slot : Z;
  g_global_tick : Z;
  g_global_tick_overflow : Z;
  current_thread : option Z;
  pendsv : bool
}.

Definition k_set_threads (k : kernel) (v : gmap Z thread) : kernel :=
  mk_kernel v (linked k) (wait_lists k) (g_priority k) (s_current_priority k) (s_current_slot k)
    (g_global_tick k) (g_global_tick_overflow k) (current_thread k) (pendsv k).
Definition k_set_linked (k : kernel) (v : list_head -> list Z) : kernel :=
  mk_kernel (threads k) v (wait_lists k) (g_priority k) (s_current_priority k) (s_current_slot k)
    (g_global_tick k) (g_global_tick_overflow k) (current_thread k) (pendsv k).
Definition k_set_wait_lists (k : kernel) (v : gmap Z (list Z)) : kernel :=
  mk_kernel (threads k) (linked k) v (g_priority k) (s_current_priority k) (s_current_slot k)
    (g_global_tick k) (g_global_tick_overflow k) (current_thread k) (pendsv k).
Definition k_set_g_priority (k : kernel) (v : Z) : kernel :=
  mk_kernel (threads k) (linked k) (wait_lists k) v (s_current_priority k) (s_current_slot k)
    (g_global_tick k) (g_global_tick_overflow k) (current_thread k) (pendsv k).
Definition k_set_current_priority (k : kernel) (v : Z) : kernel :=
  mk_kernel (threads k) (linked k) (wait_lists k) (g_priority k) v (s_current_slot k)
    (g_global_tick k) (g_global_tick_overflow k) (current_thread k) (pendsv k).
Definition k_set_current_slot (k : kernel) (v : Z) : kernel :=
  mk_kernel (threads k) (linked k) (wait_lists k) (g_priority k) (s_current_priority k) v
    (g_global_tick k) (g_global_tick_overflow k) (current_thread k) (pendsv k).
Definition k_set_tick (k : kernel) (v o : Z) : kernel :=
  mk_kernel (threads k) (linked k) (wait_lists k) (g_priority k) (s_current_priority k) (s_current_slot k)
    v o (current_thread k) (pendsv k).
Definition k_set_current (k : kernel) (v : option Z) : kernel :=
  mk_kernel (threads k) (linked k) (wait_lists k) (g_priority k) (s_current_priority k) (s_current_slot k)
    (g_global_tick k) (g_global_tick_overflow k) v (pendsv k).
Definition k_set_pendsv (k : kernel) (v : bool) : kernel :=
  mk_kernel (threads k) (linked k) (wait_lists k) (g_priority k) (s_current_priority k) (s_current_slot k)
    (g_global_tick k) (g_global_tick_overflow k) (current_thread k) v.
Definition set_thread (k : kernel) (t : Z) (th : thread) : kernel :=
  k_set_threads k (<[t := th]> (threads k)).

(** ** Lists *)

Definition heads : list list_head :=
  (ReadyHead <$> seqZ 0 MINI_OS_PRIORITY) ++ (WheelHead <$> seqZ 0 MINI_OS_TICK_WHEEL).

(** The list the node of [t] is in; a node in no list points to itself. *)
Definition home (k : kernel) (t : Z) : option list_head :=
  snd <$> list_find (λ h, t ∈ linked k h) heads.

(** What follows [t]. *)
Fixpoint after (t : Z) (l : list Z) : list Z :=
  match l with [] => [] | x :: l => if x =? t then l else after t l end.

Definition node_next (k : kernel) (n : sched_node) : sched_node :=
  match n with
  | HeadNode h => match linked k h with [] => HeadNode h | t :: _ => ThreadNode t end
  | ThreadNode t =>
      match home k t with
      | None => ThreadNode t
      | Some h => match after t (linked k h) with [] => HeadNode h | t' :: _ => ThreadNode t' end
      end
  end.
(** [mini_os_container_of]: only a thread's node has a thread around it. *)
Definition thread_of (n : sched_node) : option Z := match n with ThreadNode t => Some t | HeadNode _ => None end.

Definition upd_list (f : list_head -> list Z) (h : list_head) (l : list Z) : list_head -> list Z :=
  λ h', if decide (h' = h) then l else f h'.
(** [mini_os_list_tail] and [mini_os_list_remove] on [list_node]. *)
Definition link_tail (k : kernel) (h : list_head) (t : Z) : option kernel :=
  match home k t with
  | Some _ => None
  | None => Some (k_set_linked k (upd_list (linked k) h (linked k h ++ [t])))
  end.
Definition unlink (k : kernel) (t : Z) : kernel :=
  k_set_linked k (λ h, filter (λ x, x ≠ t) (linked k h)).
(** The same on [wait_node]. *)
Definition wait_link (k : kernel) (w t : Z) : option kernel :=
  l ← wait_lists k !! w;
  if bool_decide (map_Exists (λ _ l, t ∈ l) (wait_lists k)) then None else
  Some (k_set_wait_lists k (<[w := l ++ [t]]> (wait_lists k))).
Definition wait_unlink (k : kernel) (t : Z) : kernel :=
  k_set_wait_lists k (filter (λ x, x ≠ t) <$> wait_lists k).

(** ** The ready lists *)

Definition is_ready (s : thread_state) : bool :=
  match s with THREAD_READY | THREAD_RUNNING => true | _ => false end.

Definition mini_os_get_highest_priority (k : kernel) : Z :=
  if g_priority k =? 0 then MINI_OS_PRIORITY else u8 (MINI_OS_CTZ (g_priority k)).

Definition mini_os_add_thread_to_ready_running_list (k : kernel) (thread : option Z) : option (Z * kernel) :=
  match thread with
  | None => Some (MINI_ERR_INVAL, k)
  | Some t =>
      th ← threads k !! t;
      if is_ready (th_state th) || (th_priority th >=? MINI_OS_PRIORITY) then Some (MINI_ERR_INVAL, k) else
      let k := set_thread k t (th_set_state th THREAD_READY) in
      k ← link_tail k (ReadyHead (th_priority th)) t;
      Some (MINI_OK, k_set_g_priority k (Z.lor (g_priority k) (Z.shiftl 1 (th_priority th))))
  end.

Definition mini_os_remove_thread_from_ready_running_list (k : kernel) (thread : option Z) : option (Z * kernel) :=
  match thread with
  | None => Some (MINI_ERR_INVAL, k)
  | Some t =>
      th ← threads k !! t;
      if negb (is_ready (th_state th)) || (th_priority th >=? MINI_OS_PRIORITY) then Some (MINI_ERR_INVAL, k) else
      let k := unlink k t in
      let k := match linked k (ReadyHead (th_priority th)) with
               | [] => k_set_g_priority k (Z.land (g_priority k) (u32 (Z.lnot (Z.shiftl 1 (th_priority th)))))
               | _ => k
               end in
      Some (MINI_OK, k)
  end.

(** ** Switching *)

Definition mini_os_yield_trigger (k : kernel) : kernel := k_set_pendsv k true.
Definition mini_os_schedule_yield (k : kernel) : Z * kernel := (MINI_OK, mini_os_yield_trigger k).
Definition mini_os_thread_yield (k : kernel) : Z * kernel := (MINI_OK, mini_os_yield_trigger k).
Definition mini_os_schedule_start (k : kernel) : Z * kernel := (MINI_OK, mini_os_yield_trigger k).

Definition empty_list (h : list_head) : list Z := [].
(** Control blocks and wait lists are not the scheduler's. *)
Definition mini_os_schedule_init (k : kernel) : Z * kernel :=
  (MINI_OK, k_set_current_slot (k_set_linked (k_set_g_priority k 0) empty_list) 0).

(** The running thread becomes a ready one. *)
Definition demote (k : kernel) : option kernel :=
  match current_thread k with
  | None => Some k
  | Some c =>
      th ← threads k !! c;
      Some (if bool_decide (th_state th = THREAD_RUNNING) then set_thread k c (th_set_state th THREAD_READY) else k)
  end.
(** The current thread takes part in the rotation. *)
Definition rotates (k : kernel) (c : Z) : option bool :=
  th ← threads k !! c;
  Some (bool_decide (th_state th = THREAD_READY) && bool_decide (node_next k (ThreadNode c) ≠ ThreadNode c)).

Definition mini_os_schedule_switch (k : kernel) : option (Z * kernel) :=
  k ← demote k;
  let old_priority := s_current_priority k in
  let next_priority := mini_os_get_highest_priority k in
  if next_priority >=? MINI_OS_PRIORITY then Some (MINI_ERR_NODEV, k) else
  let k := k_set_current_priority k next_priority in
  let head := HeadNode (ReadyHead next_priority) in
  let next_node := node_next k head in
  next_node ← match current_thread k with
              | None => Some next_node
              | Some c =>
                  r ← rotates k c;
                  Some (if (next_priority =? old_priority) && (r : bool) then
                          let n := node_next k (ThreadNode c) in
                          if bool_decide (n = head) then node_next k n else n
                        else next_node)
              end;
  next_thread ← thread_of next_node;
  th ← threads k !! next_thread;
  Some (MINI_OK, k_set_current (set_thread k next_thread (th_set_state th THREAD_RUNNING)) (Some next_thread)).

(** The PendSV handler of the port takes the request and switches. *)
Definition pendsv_handler (k : kernel) : option (Z * kernel) := mini_os_schedule_switch (k_set_pendsv k false).

Definition mini_os_schedule_yield_isr (k : kernel) : option (Z * kernel) :=
  match current_thread k with
  | None => Some (MINI_OK, k)
  | Some c =>
      th ← threads k !! c;
      Some (MINI_OK, if mini_os_get_highest_priority k <? th_priority th then mini_os_yield_trigger k else k)
  end.

(** ** The time wheel *)

Definition mini_os_wheel_insert (k : kernel) (thread : option Z) (ticks : Z) : option (Z * kernel) :=
  match thread with
  | None => Some (MINI_ERR_INVAL, k)
  | Some t =>
      if ticks =? 0 then Some (MINI_ERR_INVAL, k) else
      let slot := Z.land (u32 (s_current_slot k + ticks)) MINI_OS_TICK_WHEEL_MASK in
      let round := Z.shiftr (u32 (ticks - 1)) (MINI_OS_CTZ MINI_OS_TICK_WHEEL) in
      th ← threads k !! t;
      let k := set_thread k t (th_set_state (th_set_wheel_slot (th_set_round th round) (u8 slot)) THREAD_BLOCKED) in
      k ← link_tail k (WheelHead slot) t;
      Some (MINI_OK, k)
  end.

Definition mini_os_wheel_remove (k : kernel) (thread : option Z) : option (Z * kernel) :=
  match thread with
  | None => Some (MINI_ERR_INVAL, k)
  | Some t =>
      th ← threads k !! t;
      if negb (bool_decide (th_state th = THREAD_BLOCKED)) then Some (MINI_ERR_INVAL, k) else
      let k := unlink k t in
      Some (MINI_OK, set_thread k t (th_set_wheel_slot (th_set_round th 0) MINI_OS_TICK_WHEEL))
  end.

Definition mini_os_wheel_remain (k : kernel) (thread : option Z) : option Z :=
  match thread with
  | None => Some 0
  | Some t =>
      th ← threads k !! t;
      if th_wheel_slot th >=? MINI_OS_TICK_WHEEL then Some 0 else
      let remain := Z.land (u32 (th_wheel_slot th - s_current_slot k)) MINI_OS_TICK_WHEEL_MASK in
      let remain := if remain =? 0 then MINI_OS_TICK_WHEEL else remain in
      Some (u32 (remain + th_round th * MINI_OS_TICK_WHEEL))
  end.

Definition mini_os_tick_until (k : kernel) (deadline : Z) : Z :=
  if s32 (deadline - g_global_tick k) <=? 0 then 0 else u32 (deadline - g_global_tick k).

Definition mini_os_schedule_delay (k : kernel) (ticks : Z) : option kernel :=
  match current_thread k with
  | None => Some k
  | Some c =>
      if ticks =? 0 then Some k else
      '(_, k) ← mini_os_remove_thread_from_ready_running_list k (Some c);
      '(_, k) ← mini_os_wheel_insert k (Some c) ticks;
      Some (mini_os_schedule_yield k).2
  end.
Definition mini_os_thread_delay_tick (k : kernel) (ticks : Z) : option (Z * kernel) :=
  if ticks =? 0 then Some (MINI_OK, k) else
  k ← mini_os_schedule_delay k ticks; Some (MINI_OK, k).
Definition MINI_OS_DEFAULT_SYSTICK : Z := 1000.
Definition MINI_OS_MS_TO_TICK (ms : Z) : Z := u32 (ms * MINI_OS_DEFAULT_SYSTICK) / 1000.
Definition MINI_OS_TICK_TO_MS (ticks : Z) : Z := u32 (ticks * 1000) / MINI_OS_DEFAULT_SYSTICK.
Definition mini_os_thread_delay_ms (k : kernel) (ms : Z) : option (Z * kernel) :=
  if ms =? 0 then Some (MINI_OK, k) else
  k ← mini_os_schedule_delay k (MINI_OS_MS_TO_TICK ms); Some (MINI_OK, k).
Definition mini_os_thread_delay_tick_until (k : kernel) (ticks : Z) : option (Z * kernel) :=
  if ticks =? 0 then Some (MINI_OK, k) else
  match current_thread k with
  | None => Some (MINI_ERR_INVAL, k)
  | Some _ =>
      let remain := mini_os_tick_until k ticks in
      if remain =? 0 then Some (MINI_OK, k) else
      k ← mini_os_schedule_delay k remain; Some (MINI_OK, k)
  end.

(** ** Waiting on synchronisation objects *)

Definition mini_os_sync_wait_ref_push (th : thread) (obj : Z) : thread :=
  if Z.of_nat (length (th_wait_refs th)) >=? MINI_OS_THREAD_WAIT_REF_MAX then th
  else th_set_wait_refs th (obj :: th_wait_refs th).
Definition mini_os_sync_wait_ref_pop (th : thread) : thread := th_set_wait_refs th (tail (th_wait_refs th)).

(** [mini_os_sync_wait_park] up to its yield: [inl] is a return, [inr] a parked thread. *)
Definition mini_os_sync_wait_park (k : kernel) (wait_list : option Z) (wait_mask timeout_tick wait_obj : Z)
    : option (Z * kernel + kernel) :=
  match wait_list, current_thread k with
  | Some w, Some c =>
      if timeout_tick =? 0 then Some (inl (MINI_ERR_INVAL, k)) else
      '(_, k) ← mini_os_remove_thread_from_ready_running_list k (Some c);
      th ← threads k !! c;
      let th := th_set_wait_list (th_set_state th THREAD_BLOCKED) (Some w) in
      let th := th_set_wait_status (th_set_wait_mask th wait_mask) false in
      let k := set_thread k c (mini_os_sync_wait_ref_push th wait_obj) in
      k ← wait_link k w c;
      k ← (if negb (timeout_tick =? MINI_OS_WAIT_FOREVER) then
             '(_, k) ← mini_os_wheel_insert k (Some c) (u32 timeout_tick); Some k
           else Some k);
      Some (inr (mini_os_schedule_yield k).2)
  | _, _ => Some (inl (MINI_ERR_INVAL, k))
  end.
(** The rest of it, when the thread [c] runs again. *)
Definition sync_wait_resume (k : kernel) (c : Z) : option (Z * kernel) :=
  th ← threads k !! c;
  let done := th_wait_status th in
  let k := set_thread k c (mini_os_sync_wait_ref_pop (th_set_wait_status th true)) in
  Some (if done then MINI_OK else MINI_ERR_TIMEOUT, k).

Definition mini_os_sync_wake_thread (k : kernel) (t : Z) (succeeded : bool) : option kernel :=
  let k := wait_unlink k t in
  th ← threads k !! t;
  let th := th_set_wait_status (th_set_wait_list th None) succeeded in
  let k := set_thread k t th in
  '(_, k) ← (if th_wheel_slot th <? MINI_OS_TICK_WHEEL then mini_os_wheel_remove k (Some t) else Some (MINI_OK, k));
  '(_, k) ← mini_os_add_thread_to_ready_running_list k (Some t);
  Some k.

Fixpoint wake_loop (k : kernel) (nodes : list Z) (succeeded : bool) : option kernel :=
  match nodes with
  | [] => Some k
  | t :: nodes => k ← mini_os_sync_wake_thread k t succeeded; wake_loop k nodes succeeded
  end.
Definition mini_os_sync_wake_all (k : kernel) (w : Z) (succeeded : bool) : option (bool * kernel) :=
  l ← wait_lists k !! w;
  k ← wake_loop k l succeeded;
  Some (match l with [] => false | _ => true end, k).

(** ** The tick *)

(** The walk over the slot that came up, whose successor pointers are read before each node
    is handled. *)
Fixpoint tick_loop (k : kernel) (nodes : list Z) : option kernel :=
  match nodes with
  | [] => Some k
  | t :: nodes =>
      th ← threads k !! t;
      if th_round th >? 0 then tick_loop (set_thread k t (th_set_round th (th_round th - 1))) nodes else
      let k := unlink k t in
      let k := set_thread k t (th_set_wheel_slot th MINI_OS_TICK_WHEEL) in
      k ← match th_wait_list th with
          | Some _ => mini_os_sync_wake_thread k t false
          | None => '(_, k) ← mini_os_add_thread_to_ready_running_list k (Some t); Some k
          end;
      tick_loop k nodes
  end.
Definition mini_os_tick_decrement (k : kernel) : option kernel :=
  let k := k_set_current_slot k (Z.land (u32 (s_current_slot k + 1)) MINI_OS_TICK_WHEEL_MASK) in
  tick_loop k (linked k (WheelHead (s_current_slot k))).

Definition mini_os_tick_slice_decrement (k : kernel) : option kernel :=
  match current_thread k with
  | None => Some k
  | Some c =>
      th ← threads k !! c;
      if th_init_tick_num th =? 0 then Some k else
      let th := if th_remain_tick th >? 0 then th_set_remain_tick th (th_remain_tick th - 1) else th in
      Some (if th_remain_tick th =? 0 then
              (mini_os_schedule_yield (set_thread k c (th_set_remain_tick th (th_init_tick_num th)))).2
            else set_thread k c th)
  end.

Section config.
Context (time_slice long_time : bool).

(** The handler up to the timers. *)
Definition systick_count (k : kernel) : option kernel :=
  k ← mini_os_tick_decrement k;
  k ← (if time_slice then mini_os_tick_slice_decrement k else Some k);
  let tick := u32 (g_global_tick k + 1) in
  let overflow := if long_time && (tick =? 0) then u32 (g_global_tick_overflow k + 1) else g_global_tick_overflow k in
  Some (k_set_tick k tick overflow).
Definition mini_os_systick_handler (k : kernel) : option kernel :=
  k ← systick_count k; '(_, k) ← mini_os_schedule_yield_isr k; Some k.
End config.

(** ** Creating threads and changing priorities *)

Definition new_thread (priority : Z) : thread :=
  mk_thread THREAD_INIT priority priority 0 MINI_OS_TICK_WHEEL 0 None true 0 [] None 0 0.

(** The address of the control block, whether there is an entry function, the stack. *)
Definition mini_os_thread_init (k : kernel) (thread : option Z) (entry : bool) (priority stack_size stack_buffer : Z)
    : Z * kernel :=
  match thread with
  | None => (MINI_ERR_INVAL, k)
  | Some t =>
      if negb entry || (priority >=? MINI_OS_PRIORITY) || (stack_size <? MINI_OS_THREAD_MIN_STACK_SIZE)
         || negb (Z.land stack_size 7 =? 0) || (stack_buffer =? 0) || negb (Z.land stack_buffer 7 =? 0)
      then (MINI_ERR_INVAL, k) else (MINI_OK, set_thread k t (new_thread priority))
  end.

(** [thread] and [stack] are what the allocator returns, [None] and 0 for NULL. *)
Definition mini_os_thread_create (k : kernel) (name entry : bool) (stack_size priority : Z) (thread : option Z) (stack : Z)
    : option (option Z * kernel) :=
  if negb name || (stack_size =? 0) || (priority >=? MINI_OS_PRIORITY) || negb entry then Some (None, k) else
  match thread with
  | None => Some (None, k)
  | Some t =>
      if stack =? 0 then Some (None, k) else
      let '(rc, k) := mini_os_thread_init k thread entry priority stack_size stack in
      if negb (rc =? MINI_OK) then Some (None, k) else
      '(rc, k) ← mini_os_add_thread_to_ready_running_list k (Some t);
      Some (if negb (rc =? MINI_OK) then None else Some t, k)
  end.

Definition MINI_OS_STACK_ALIGN_SIZE : Z := 8.
Definition MINI_OS_STACK_ALIGN_UP (x : Z) : Z :=
  Z.land (u32 (x + (MINI_OS_STACK_ALIGN_SIZE - 1))) (u32 (Z.lnot (MINI_OS_STACK_ALIGN_SIZE - 1))).
(** The stack and its size; [heap] is what [mini_os_calloc] returns. *)
Definition mini_os_stack_create (size stack heap : Z) : Z * Z :=
  if size =? 0 then (0, 0) else
  let aligned := MINI_OS_STACK_ALIGN_UP size in
  if stack =? 0 then (heap, aligned) else
  if negb (Z.land stack (MINI_OS_STACK_ALIGN_SIZE - 1) =? 0) then (0, 0) else (stack, aligned).
Definition mini_os_thread_create_static (k : kernel) (name entry : bool) (stack_size priority stack_buffer : Z) (task_buffer : option Z)
    : option (option Z * kernel) :=
  if negb name || (stack_size =? 0) || (priority >=? MINI_OS_PRIORITY) || negb entry || (stack_buffer =? 0)
     || bool_decide (task_buffer = None) then Some (None, k) else
  if (mini_os_stack_create stack_size stack_buffer 0).1 =? 0 then Some (None, k) else
  let '(rc, k) := mini_os_thread_init k task_buffer entry priority stack_size stack_buffer in
  if negb (rc =? MINI_OK) then Some (None, k) else
  '(rc, k) ← mini_os_add_thread_to_ready_running_list k task_buffer;
  Some (if negb (rc =? MINI_OK) then None else task_buffer, k).

Definition mini_os_thread_priority_apply (k : kernel) (thread : option Z) (priority : Z) : option (Z * kernel) :=
  match thread with
  | None => Some (MINI_ERR_INVAL, k)
  | Some t =>
      if priority >=? MINI_OS_PRIORITY then Some (MINI_ERR_INVAL, k) else
      th ← threads k !! t;
      let state := th_state th in
      if priority =? th_priority th then Some (MINI_OK, k) else
      if is_ready state then
        '(_, k) ← mini_os_remove_thread_from_ready_running_list k (Some t);
        let k := set_thread k t (th_set_state (th_set_priority th priority) THREAD_SUSPENDED) in
        '(_, k) ← mini_os_add_thread_to_ready_running_list k (Some t);
        th ← threads k !! t;
        Some (MINI_OK, if bool_decide (state = THREAD_RUNNING) then set_thread k t (th_set_state th THREAD_RUNNING) else k)
      else Some (MINI_OK, set_thread k t (th_set_priority th priority))
  end.

#[global] Arguments mini_os_add_thread_to_ready_running_list : simpl never.
#[global] Arguments mini_os_remove_thread_from_ready_running_list : simpl never.
#[global] Arguments mini_os_wheel_insert : simpl never.
#[global] Arguments mini_os_wheel_remove : simpl never.
#[global] Arguments mini_os_thread_priority_apply : simpl never.
#[global] Arguments mini_os_sync_wait_park : simpl never.

(** ** The lists *)

Lemma upd_list_same f h l : upd_list f h l h = l.
Proof. unfold upd_list. by rewrite decide_True. Qed.
Lemma upd_list_ne f h h' l : h' ≠ h -> upd_list f h l h' = f h'.
Proof. unfold upd_list. intros. by rewrite decide_False. Qed.

Lemma elem_of_heads h :
  h ∈ heads <-> match h with ReadyHead p => 0 <= p < MINI_OS_PRIORITY | WheelHead s => 0 <= s < MINI_OS_TICK_WHEEL end.
Proof.
  unfold heads. rewrite elem_of_app, !list_elem_of_fmap. setoid_rewrite elem_of_seqZ.
  unfold MINI_OS_PRIORITY, MINI_OS_TICK_WHEEL. split.
  - intros [(p & -> & ?)|(s & -> & ?)]; lia.
  - destruct h as [p|s]; [left; exists p|right; exists s]; split; [done|lia|done|lia].
Qed.

Lemma after_spec t l1 l2 : t ∉ l1 -> after t (l1 ++ t :: l2) = l2.
Proof.
  induction l1 as [|x l1 IH]; simpl; [by rewrite Z.eqb_refl|].
  rewrite not_elem_of_cons. intros [? ?]. destruct (Z.eqb_spec x t); [congruence|auto].
Qed.
Lemma elem_of_after t x l : x ∈ after t l -> x ∈ l.
Proof.
  induction l as [|y l IH]; simpl; [done|]. destruct (y =? t); rewrite elem_of_cons; auto.
Qed.
Lemma after_not_self t l : NoDup l -> t ∉ after t l.
Proof.
  induction 1 as [|y l Hy Hnd IH]; simpl; [apply not_elem_of_nil|].
  destruct (Z.eqb_spec y t) as [->|]; auto.
Qed.

(** [lists k pl]: each thread is in the list [pl] says, once, and in no other. *)
Record placed (k : kernel) (pl : Z -> option list_head) : Prop := {
  pl_in : ∀ t h, t ∈ linked k h <-> pl t = Some h;
  pl_nodup : ∀ h, NoDup (linked k h);
  pl_heads : ∀ t h, pl t = Some h -> h ∈ heads
}.

Lemma placed_ext k pl pl' : (∀ t, pl t = pl' t) -> placed k pl -> placed k pl'.
Proof. intros He [H1 H2 H3]. split; [intros; by rewrite H1, He|done|intros t h; rewrite <- He; eauto]. Qed.
Lemma placed_linked k k' pl : linked k' = linked k -> placed k pl -> placed k' pl.
Proof. intros He [H1 H2 H3]. split; rewrite ?He; done. Qed.

Lemma home_spec k pl t : placed k pl -> home k t = pl t.
Proof.
  intros [H1 H2 H3]. unfold home. destruct (list_find _ heads) as [[i h]|] eqn:E; simpl.
  - apply list_find_Some in E as (_ & Hin & _). symmetry. by apply H1.
  - apply list_find_None in E. destruct (pl t) as [h|] eqn:Eh; [|done]. exfalso.
    rewrite list.Forall_forall in E. apply (E h); [eauto|]. by apply H1.
Qed.

Lemma link_tail_spec k pl h t :
  placed k pl -> pl t = None -> h ∈ heads ->
  ∃ k', link_tail k h t = Some k' /\ k' = k_set_linked k (upd_list (linked k) h (linked k h ++ [t])) /\
        placed k' (<[t := Some h]> pl).
Proof.
  intros Hp Ht Hh. unfold link_tail. rewrite (home_spec _ _ _ Hp), Ht. eexists. split; [done|]. split; [done|].
  destruct Hp as [H1 H2 H3]. split; simpl.
  - intros t' h'. destruct (decide (h' = h)) as [->|Hne].
    + rewrite upd_list_same, elem_of_app, list_elem_of_singleton, H1.
      destruct (decide (t' = t)) as [->|]; [rewrite fn_lookup_insert; naive_solver|].
      rewrite fn_lookup_insert_ne by done. naive_solver.
    + rewrite upd_list_ne, H1 by done.
      destruct (decide (t' = t)) as [->|]; [rewrite fn_lookup_insert, Ht; naive_solver|].
      by rewrite fn_lookup_insert_ne by done.
  - intros h'. destruct (decide (h' = h)) as [->|]; [rewrite upd_list_same|by rewrite upd_list_ne].
    apply list.NoDup_app. split; [done|]. split; [|apply NoDup_singleton].
    intros x Hx. rewrite list_elem_of_singleton. intros ->. apply H1 in Hx. congruence.
  - intros t' h'. destruct (decide (t' = t)) as [->|]; [rewrite fn_lookup_insert; naive_solver|].
    rewrite fn_lookup_insert_ne by done. eauto.
Qed.

Lemma unlink_spec k pl t : placed k pl -> placed (unlink k t) (<[t := None]> pl).
Proof.
  intros [H1 H2 H3]. split; simpl.
  - intros t' h. rewrite list_elem_of_filter, H1.
    destruct (decide (t' = t)) as [->|]; [rewrite fn_lookup_insert; naive_solver|].
    rewrite fn_lookup_insert_ne by done. naive_solver.
  - intros h. by apply list.NoDup_filter.
  - intros t' h. destruct (decide (t' = t)) as [->|]; [rewrite fn_lookup_insert; naive_solver|].
    rewrite fn_lookup_insert_ne by done. eauto.
Qed.

(** [waiting k wl]: the same for the wait lists. *)
Record waiting (k : kernel) (wl : Z -> option Z) : Prop := {
  wl_in : ∀ t w, (∃ l, wait_lists k !! w = Some l /\ t ∈ l) <-> wl t = Some w;
  wl_nodup : ∀ w l, wait_lists k !! w = Some l -> NoDup l
}.
Lemma waiting_ext k wl wl' : (∀ t, wl t = wl' t) -> waiting k wl -> waiting k wl'.
Proof. intros He [H1 H2]. split; [intros; by rewrite H1, He|done]. Qed.
Lemma waiting_lists k k' wl : wait_lists k' = wait_lists k -> waiting k wl -> waiting k' wl.
Proof. intros He [H1 H2]. split; rewrite ?He; done. Qed.

Lemma wait_link_spec k wl w t l :
  waiting k wl -> wl t = None -> wait_lists k !! w = Some l ->
  ∃ k', wait_link k w t = Some k' /\ k' = k_set_wait_lists k (<[w := l ++ [t]]> (wait_lists k)) /\
        waiting k' (<[t := Some w]> wl).
Proof.
  intros [H1 H2] Ht Hl. unfold wait_link. rewrite Hl. simpl. rewrite bool_decide_false.
  2: { intros (w' & l' & Hl' & Hin). assert (wl t = Some w') by (apply H1; eauto). congruence. }
  eexists. split; [done|]. split; [done|]. split; simpl.
  - intros t' w'. destruct (decide (w' = w)) as [->|Hne].
    + rewrite lookup_insert_eq. destruct (decide (t' = t)) as [->|].
      * rewrite fn_lookup_insert. split; [done|]. intros _. eexists. split; [done|]. set_solver.
      * rewrite fn_lookup_insert_ne, <- H1 by done. split.
        -- intros (? & [= <-] & Hin). exists l. split; [done|]. set_solver.
        -- intros (? & ? & ?). simplify_eq. eexists. split; [done|]. set_solver.
    + rewrite lookup_insert_ne, H1 by done.
      destruct (decide (t' = t)) as [->|]; [rewrite fn_lookup_insert, Ht; naive_solver|].
      by rewrite fn_lookup_insert_ne by done.
  - intros w' l'. destruct (decide (w' = w)) as [->|]; [|rewrite lookup_insert_ne by done; eauto].
    rewrite lookup_insert_eq. intros [= <-]. apply list.NoDup_app. split; [eauto|]. split; [|apply NoDup_singleton].
    intros x Hx. rewrite list_elem_of_singleton. intros ->.
    assert (wl t = Some w) by (apply H1; eauto). congruence.
Qed.

Lemma wait_unlink_spec k wl t : waiting k wl -> waiting (wait_unlink k t) (<[t := None]> wl).
Proof.
  intros [H1 H2]. split; simpl.
  - intros t' w. setoid_rewrite lookup_fmap. destruct (decide (t' = t)) as [->|].
    + rewrite fn_lookup_insert. split; [|done]. intros (l & Hl & Hin).
      destruct (wait_lists k !! w); simplify_eq/=. rewrite list_elem_of_filter in Hin. naive_solver.
    + rewrite fn_lookup_insert_ne, <- H1 by done. split.
      * intros (l & Hl & Hin). destruct (wait_lists k !! w) as [l0|]; simplify_eq/=.
        rewrite list_elem_of_filter in Hin. naive_solver.
      * intros (l & -> & Hin). simpl. eexists. split; [done|]. by rewrite list_elem_of_filter.
  - intros w l. rewrite lookup_fmap. destruct (wait_lists k !! w) as [l0|] eqn:E; simpl; [|done].
    intros [= <-]. apply list.NoDup_filter. eauto.
Qed.

(** ** The bitmap *)

Definition bitmap_ok (k : kernel) : Prop :=
  is_u32 (g_priority k) /\ ∀ p, 0 <= p < MINI_OS_PRIORITY -> Z.testbit (g_priority k) p = true <-> linked k (ReadyHead p) ≠ [].

Lemma is_u32_bits x : 0 <= x -> (∀ i, 32 <= i -> Z.testbit x i = false) -> is_u32 x.
Proof.
  intros H0 H. split; [done|]. destruct (Z.eq_dec x 0) as [->|]; [lia|].
  assert (Z.log2 x < 32).
  { destruct (Z.lt_ge_cases (Z.log2 x) 32) as [|Hge]; [done|]. specialize (H _ Hge).
    rewrite Z.bit_log2 in H by lia. done. }
  change 4294967296 with (2 ^ 32). apply Z.log2_lt_pow2; lia.
Qed.
Lemma u32_bits_high x i : is_u32 x -> 32 <= i -> Z.testbit x i = false.
Proof.
  intros [??] ?. destruct (Z.eq_dec x 0) as [->|]; [apply Z.bits_0|].
  apply Z.bits_above_log2; [lia|]. apply Z.lt_le_trans with 32; [|lia].
  apply Z.log2_lt_pow2; [lia|]. change (2 ^ 32) with 4294967296. lia.
Qed.

Lemma set_bit_spec g p i :
  0 <= p < 32 -> is_u32 g ->
  is_u32 (Z.lor g (Z.shiftl 1 p)) /\ (0 <= i -> Z.testbit (Z.lor g (Z.shiftl 1 p)) i = Z.testbit g i || (p =? i)).
Proof.
  intros Hp Hg. assert (∀ j, Z.testbit (Z.lor g (Z.shiftl 1 p)) j = Z.testbit g j || (p =? j)) as Hb.
  { intros j. rewrite Z.lor_spec, Z.shiftl_1_l, Z.pow2_bits_eqb by lia. done. }
  split; [|auto]. apply is_u32_bits.
  - apply Z.lor_nonneg. split; [apply Hg|]. rewrite Z.shiftl_1_l. apply Z.pow_nonneg. lia.
  - intros j Hj. rewrite Hb, (u32_bits_high g) by done. simpl. apply Z.eqb_neq. lia.
Qed.
Lemma clear_bit_spec g p i :
  0 <= p < 32 -> is_u32 g ->
  is_u32 (Z.land g (u32 (Z.lnot (Z.shiftl 1 p)))) /\
  (0 <= i < 32 -> Z.testbit (Z.land g (u32 (Z.lnot (Z.shiftl 1 p)))) i = Z.testbit g i && negb (p =? i)).
Proof.
  intros Hp Hg. split.
  - apply is_u32_bits; [apply Z.land_nonneg; left; apply Hg|].
    intros j Hj. by rewrite Z.land_spec, (u32_bits_high g).
  - intros Hi. unfold u32. change 4294967296 with (2 ^ 32).
    rewrite Z.land_spec, Z.mod_pow2_bits_low, Z.lnot_spec, Z.shiftl_1_l, Z.pow2_bits_eqb by lia. done.
Qed.

Lemma ctz_loop_spec fuel x n :
  0 < x < 2 ^ Z.of_nat fuel ->
  ∃ i, ctz_loop fuel x n = n + i /\ 0 <= i < Z.of_nat fuel /\ Z.testbit x i = true /\
       ∀ j, 0 <= j < i -> Z.testbit x j = false.
Proof.
  revert x n. induction fuel as [|fuel IH]; intros x n Hx; [simpl in Hx; lia|].
  cbn [ctz_loop]. rewrite Z.land_comm. change 1 with (Z.ones 1) at 1.
  rewrite Z.land_comm, Z.land_ones by lia. change (2 ^ 1) with 2.
  rewrite Nat2Z.inj_succ, Z.pow_succ_r in Hx by lia.
  pose proof (Z.div_mod x 2). pose proof (Z.mod_pos_bound x 2).
  destruct (Z.eqb_spec (x mod 2) 0) as [E|E].
  - rewrite Z.shiftr_div_pow2 by lia. change (2 ^ 1) with 2.
    destruct (IH (x / 2) (n + 1)) as (i & -> & Hi & Hb & Hlow); [lia|].
    exists (i + 1). split; [lia|]. split; [lia|]. split.
    + rewrite Z.add_1_r, <- Z.div2_bits by lia. done.
    + intros j Hj. destruct (Z.eq_dec j 0) as [->|].
      * rewrite Z.bit0_odd. rewrite Zmod_odd in E. by destruct (Z.odd x).
      * replace j with (Z.succ (j - 1)) by lia. rewrite <- (Z.div2_bits x) by lia.
        apply Hlow. lia.
  - exists 0. rewrite Z.add_0_r. split; [done|]. split; [lia|]. split; [|lia].
    rewrite Z.bit0_odd. rewrite Zmod_odd in E. by destruct (Z.odd x).
Qed.

Lemma highest_spec k :
  bitmap_ok k ->
  (mini_os_get_highest_priority k = MINI_OS_PRIORITY /\ ∀ q, 0 <= q < MINI_OS_PRIORITY -> linked k (ReadyHead q) = []) \/
  (0 <= mini_os_get_highest_priority k < MINI_OS_PRIORITY /\
   linked k (ReadyHead (mini_os_get_highest_priority k)) ≠ [] /\
   ∀ q, 0 <= q < mini_os_get_highest_priority k -> linked k (ReadyHead q) = []).
Proof.
  intros [Hg Hb]. unfold mini_os_get_highest_priority, MINI_OS_CTZ.
  assert (∀ q, 0 <= q < MINI_OS_PRIORITY -> Z.testbit (g_priority k) q = false -> linked k (ReadyHead q) = []) as Hn.
  { intros q Hq E. destruct (linked k (ReadyHead q)) eqn:El; [done|].
    assert (Z.testbit (g_priority k) q = true) by (apply Hb; [done|]; by rewrite El). congruence. }
  destruct (Z.eqb_spec (g_priority k) 0) as [E|E].
  - left. split; [done|]. intros q Hq. apply Hn; [done|]. by rewrite E, Z.bits_0.
  - right. destruct (ctz_loop_spec 32 (g_priority k) 0) as (i & -> & Hi & Ht & Hlow); [destruct Hg; simpl; lia|].
    change (Z.of_nat 32) with 32 in Hi. unfold u8. rewrite Z.add_0_l, Z.mod_small by lia.
    split; [done|]. split; [by apply Hb|]. intros q Hq. apply Hn; [unfold MINI_OS_PRIORITY; lia|]. auto.
Qed.

(** ** The invariant *)

(** Where the two nodes of a thread are. *)
Definition place (th : thread) : option list_head :=
  if is_ready (th_state th) then Some (ReadyHead (th_priority th))
  else if th_wheel_slot th <? MINI_OS_TICK_WHEEL then Some (WheelHead (th_wheel_slot th)) else None.
Definition place_of (k : kernel) (t : Z) : option list_head := th ← threads k !! t; place th.
Definition wait_of (k : kernel) (t : Z) : option Z := th ← threads k !! t; th_wait_list th.

(** A blocked thread is in the wheel or waits; only a blocked one does; the thread that is
    running is the current one. *)
Record thread_ok (current : option Z) (t : Z) (th : thread) : Prop := {
  to_priority : 0 <= th_priority th < MINI_OS_PRIORITY;
  to_slot : 0 <= th_wheel_slot th <= MINI_OS_TICK_WHEEL;
  to_round : 0 <= th_round th < 134217728;
  to_running : th_state th = THREAD_RUNNING -> current = Some t;
  to_wait : th_wait_list th ≠ None -> th_state th = THREAD_BLOCKED;
  to_wheel : th_wheel_slot th < MINI_OS_TICK_WHEEL -> th_state th = THREAD_BLOCKED;
  to_blocked : th_state th = THREAD_BLOCKED -> th_wheel_slot th < MINI_OS_TICK_WHEEL \/ th_wait_list th ≠ None
}.

(** The invariant with the nodes of the thread [t] at [a] and [b], wherever its block says
    they are: the state inside an operation on [t]. *)
Record wf_at (k : kernel) (t : Z) (a : option list_head) (b : option Z) : Prop := {
  wa_placed : placed k (<[t := a]> (place_of k));
  wa_waiting : waiting k (<[t := b]> (wait_of k));
  wa_bitmap : bitmap_ok k;
  wa_slot : 0 <= s_current_slot k < MINI_OS_TICK_WHEEL;
  wa_threads : ∀ t' th, t' ≠ t -> threads k !! t' = Some th -> thread_ok (current_thread k) t' th;
  wa_current : ∀ c, current_thread k = Some c -> is_Some (threads k !! c)
}.
Record wf (k : kernel) : Prop := {
  wf_placed : placed k (place_of k);
  wf_waiting : waiting k (wait_of k);
  wf_bitmap : bitmap_ok k;
  wf_slot : 0 <= s_current_slot k < MINI_OS_TICK_WHEEL;
  wf_threads : ∀ t th, threads k !! t = Some th -> thread_ok (current_thread k) t th;
  wf_current : ∀ c, current_thread k = Some c -> is_Some (threads k !! c)
}.

(** [k'] differs from [k] in the block of [t], the lists, the bitmap and the request. *)
Record frame (k k' : kernel) (t : Z) (th : thread) : Prop := {
  fr_threads : threads k' = <[t := th]> (threads k);
  fr_current : current_thread k' = current_thread k;
  fr_cur_prio : s_current_priority k' = s_current_priority k;
  fr_slot : s_current_slot k' = s_current_slot k;
  fr_tick : g_global_tick k' = g_global_tick k;
  fr_waits : dom (wait_lists k') = dom (wait_lists k)
}.

Ltac fn_case t :=
  let x := fresh "x" in
  intros x; destruct (decide (x = t)) as [->|];
  [rewrite ?fn_lookup_insert|rewrite ?fn_lookup_insert_ne by done].

Lemma wf_at_of_wf k t th :
  wf k -> threads k !! t = Some th -> wf_at k t (place th) (th_wait_list th).
Proof.
  intros [H1 H2 H3 H4 H5 H6] Ht. split; try done.
  - eapply placed_ext; [|exact H1]. fn_case t; [|done]. unfold place_of. by rewrite Ht.
  - eapply waiting_ext; [|exact H2]. fn_case t; [|done]. unfold wait_of. by rewrite Ht.
  - eauto.
Qed.
Lemma wf_of_wf_at k t a b th :
  wf_at k t a b -> threads k !! t = Some th -> place th = a -> th_wait_list th = b ->
  thread_ok (current_thread k) t th -> wf k.
Proof.
  intros [H1 H2 H3 H4 H5 H6] Ht Ha Hb Hok. split; try done.
  - eapply placed_ext; [|exact H1]. fn_case t; [|done]. unfold place_of. by rewrite Ht.
  - eapply waiting_ext; [|exact H2]. fn_case t; [|done]. unfold wait_of. by rewrite Ht.
  - intros t' th' Ht'. destruct (decide (t' = t)) as [->|]; [|eauto]. by simplify_eq.
Qed.

Lemma place_of_set k t th t' : t' ≠ t -> place_of (set_thread k t th) t' = place_of k t'.
Proof. intros. unfold place_of. simpl. by rewrite lookup_insert_ne. Qed.
Lemma wait_of_set k t th t' : t' ≠ t -> wait_of (set_thread k t th) t' = wait_of k t'.
Proof. intros. unfold wait_of. simpl. by rewrite lookup_insert_ne. Qed.

Lemma wf_at_set k t a b th : wf_at k t a b -> wf_at (set_thread k t th) t a b.
Proof.
  intros [H1 H2 H3 H4 H5 H6]. split; try done.
  - eapply placed_linked; [|eapply placed_ext; [|exact H1]]; [done|]. fn_case t; [done|]. by rewrite place_of_set.
  - eapply waiting_lists; [|eapply waiting_ext; [|exact H2]]; [done|]. fn_case t; [done|]. by rewrite wait_of_set.
  - simpl. intros t' th' ?. rewrite lookup_insert_ne by done. eauto.
  - simpl. intros c Hc. destruct (decide (c = t)) as [->|]; [rewrite lookup_insert_eq; eauto|].
    rewrite lookup_insert_ne by done. eauto.
Qed.
Lemma wf_at_pendsv k t a b v : wf_at k t a b -> wf_at (k_set_pendsv k v) t a b.
Proof. intros [[] [] H3 H4 H5 H6]. by split. Qed.

Lemma wf_at_wait_unlink k t a b : wf_at k t a b -> wf_at (wait_unlink k t) t a None.
Proof.
  intros [H1 H2 H3 H4 H5 H6]. split; try done; [by destruct H1|].
  eapply waiting_ext; [|apply wait_unlink_spec, H2]. by fn_case t.
Qed.
Lemma filter_ne_not_in (t : Z) (l : list Z) : t ∉ l -> filter (λ x, x ≠ t) l = l.
Proof.
  induction l as [|x l IH]; [done|]. rewrite not_elem_of_cons. intros [? ?].
  rewrite filter_cons_True by congruence. f_equal. auto.
Qed.
(** Unlinking from a slot of the wheel. *)
Lemma wf_at_unlink k t a b :
  wf_at k t a b -> (∀ p, a ≠ Some (ReadyHead p)) -> wf_at (unlink k t) t None b.
Proof.
  intros [H1 H2 H3 H4 H5 H6] Ha. split; try done.
  - eapply placed_ext; [|apply unlink_spec, H1]. by fn_case t.
  - by destruct H2.
  - destruct H3 as [Hg Hb]. split; [done|]. intros p Hp. simpl. rewrite filter_ne_not_in; [by apply Hb|].
    rewrite (pl_in _ _ H1), fn_lookup_insert. auto.
Qed.

(** The operations on [t] under the invariant. *)
Lemma add_spec k t b th :
  wf_at k t None b -> threads k !! t = Some th -> is_ready (th_state th) = false ->
  0 <= th_priority th < MINI_OS_PRIORITY ->
  ∃ k', mini_os_add_thread_to_ready_running_list k (Some t) = Some (MINI_OK, k') /\
        wf_at k' t (Some (ReadyHead (th_priority th))) b /\ frame k k' t (th_set_state th THREAD_READY) /\
        wait_lists k' = wait_lists k /\ pendsv k' = pendsv k /\
        linked k' = upd_list (linked k) (ReadyHead (th_priority th)) (linked k (ReadyHead (th_priority th)) ++ [t]).
Proof.
  intros Hw Ht Hr Hp. unfold mini_os_add_thread_to_ready_running_list. rewrite Ht. simpl. rewrite Hr.
  destruct (Z.geb_spec (th_priority th) MINI_OS_PRIORITY); [lia|]. simpl.
  pose proof (wf_at_set _ _ _ _ (th_set_state th THREAD_READY) Hw) as [H1 H2 [Hg Hb] H4 H5 H6].
  destruct (link_tail_spec _ _ (ReadyHead (th_priority th)) t H1) as (k' & -> & Hk' & Hpl);
    [by rewrite fn_lookup_insert|by apply elem_of_heads|]. simpl.
  destruct (set_bit_spec (g_priority k) (th_priority th) 0 Hp Hg) as [Hg' _].
  eexists. split; [done|]. split; [|subst k'; repeat split; done]. split; subst k'; try done.
  - eapply placed_linked; [|eapply placed_ext; [|exact Hpl]]; [done|]. by fn_case t.
  - by destruct H2.
  - split; [exact Hg'|]. intros p Hpr. cbn [g_priority linked k_set_g_priority k_set_linked set_thread k_set_threads].
    cbn [g_priority linked set_thread k_set_threads] in Hb.
    destruct (set_bit_spec (g_priority k) (th_priority th) p Hp Hg) as [_ ->]; [|lia].
    destruct (Z.eqb_spec (th_priority th) p) as [->|Hne].
    + rewrite upd_list_same, orb_true_r. split; [|done]. intros _ E. by apply app_nil in E as [_ ?].
    + rewrite upd_list_ne, orb_false_r by congruence. by apply Hb.
Qed.

Lemma remove_spec k t b th :
  wf_at k t (Some (ReadyHead (th_priority th))) b -> threads k !! t = Some th -> is_ready (th_state th) = true ->
  0 <= th_priority th < MINI_OS_PRIORITY ->
  ∃ k', mini_os_remove_thread_from_ready_running_list k (Some t) = Some (MINI_OK, k') /\
        wf_at k' t None b /\ frame k k' t th /\ wait_lists k' = wait_lists k /\ pendsv k' = pendsv k /\
        linked k' = linked (unlink k t).
Proof.
  intros [H1 H2 [Hg Hb] H4 H5 H6] Ht Hr Hp. unfold mini_os_remove_thread_from_ready_running_list. rewrite Ht. simpl.
  rewrite Hr. destruct (Z.geb_spec (th_priority th) MINI_OS_PRIORITY); [lia|]. simpl.
  assert (∀ q, q ≠ th_priority th -> filter (λ x, x ≠ t) (linked k (ReadyHead q)) = linked k (ReadyHead q)) as Hq.
  { intros q Hq. apply filter_ne_not_in. rewrite (pl_in _ _ H1), fn_lookup_insert. congruence. }
  assert (∃ g, match filter (λ x, x ≠ t) (linked k (ReadyHead (th_priority th))) with
               | [] => k_set_g_priority (unlink k t) (Z.land (g_priority k) (u32 (Z.lnot (Z.shiftl 1 (th_priority th)))))
               | _ :: _ => unlink k t
               end = k_set_g_priority (unlink k t) g /\ bitmap_ok (k_set_g_priority (unlink k t) g)) as (g & -> & Hbm).
  { destruct (filter _ (linked k (ReadyHead (th_priority th)))) as [|x l] eqn:E.
    - eexists. split; [done|]. split; simpl; [by destruct (clear_bit_spec (g_priority k) (th_priority th) 0 Hp Hg)|].
      intros p Hpr. destruct (clear_bit_spec (g_priority k) (th_priority th) p Hp Hg) as [_ ->]; [|done].
      destruct (Z.eqb_spec (th_priority th) p) as [<-|Hne]; [by rewrite E, andb_false_r|].
      rewrite andb_true_r, Hq by done. by apply Hb.
    - exists (g_priority k). split; [done|]. split; [done|]. intros p Hpr. simpl.
      destruct (Z.eq_dec p (th_priority th)) as [->|Hne]; [|rewrite Hq by done; by apply Hb].
      rewrite E, Hb by done. split; [done|]. intros _ E0. by rewrite E0 in E. }
  eexists. split; [done|]. split; [|repeat split; simpl; try done; by rewrite insert_id].
  split; try done; [|by destruct H2].
  eapply placed_linked; [|eapply placed_ext; [|exact (unlink_spec _ _ t H1)]]; [done|]. by fn_case t.
Qed.

Lemma wheel_mask x : Z.land x MINI_OS_TICK_WHEEL_MASK = x mod 32.
Proof. change MINI_OS_TICK_WHEEL_MASK with (2 ^ 5 - 1). by rewrite land_pow2_mask. Qed.
Lemma u32_mod32 x : u32 x mod 32 = x mod 32.
Proof. unfold u32. change 4294967296 with (2 ^ 32). change 32 with (2 ^ 5) at 2 3. by apply mod_pow2_pow2. Qed.

Lemma wf_at_wait_link k t a w l :
  wf_at k t a None -> wait_lists k !! w = Some l ->
  ∃ k', wait_link k w t = Some k' /\ k' = k_set_wait_lists k (<[w := l ++ [t]]> (wait_lists k)) /\ wf_at k' t a (Some w).
Proof.
  intros [H1 H2 H3 H4 H5 H6] Hl.
  destruct (wait_link_spec _ _ _ t _ H2 ltac:(by rewrite fn_lookup_insert) Hl) as (k' & -> & -> & Hw).
  eexists. split; [done|]. split; [done|]. split; try done; [by destruct H1|].
  eapply waiting_ext; [|exact Hw]. by fn_case t.
Qed.

(** The block of a thread parked for [ticks]. *)
Definition parked (k : kernel) (th : thread) (ticks : Z) : thread :=
  th_set_state (th_set_wheel_slot (th_set_round th ((ticks - 1) / 32)) ((s_current_slot k + ticks) mod 32)) THREAD_BLOCKED.

Lemma wheel_insert_spec k t b th ticks :
  wf_at k t None b -> threads k !! t = Some th -> 0 < ticks < 4294967296 ->
  ∃ k', mini_os_wheel_insert k (Some t) ticks = Some (MINI_OK, k') /\
        wf_at k' t (Some (WheelHead ((s_current_slot k + ticks) mod 32))) b /\ frame k k' t (parked k th ticks) /\
        wait_lists k' = wait_lists k /\ pendsv k' = pendsv k /\
        (∀ p, linked k' (ReadyHead p) = linked k (ReadyHead p)).
Proof.
  intros Hw Ht Hn. unfold mini_os_wheel_insert. destruct (Z.eqb_spec ticks 0); [lia|].
  rewrite Ht, wheel_mask, u32_mod32. change (MINI_OS_CTZ MINI_OS_TICK_WHEEL) with 5. simpl.
  rewrite Z.shiftr_div_pow2 by lia. change (2 ^ 5) with 32. rewrite u32_small by lia.
  pose proof (Z.mod_pos_bound (s_current_slot k + ticks) 32 ltac:(lia)) as Hs.
  replace (u8 ((s_current_slot k + ticks) mod 32)) with ((s_current_slot k + ticks) mod 32)
    by (unfold u8; symmetry; apply Z.mod_small; lia).
  fold (parked k th ticks).
  pose proof (wf_at_set _ _ _ _ (parked k th ticks) Hw) as [H1 H2 [Hg Hb] H4 H5 H6].
  destruct (link_tail_spec _ _ (WheelHead ((s_current_slot k + ticks) mod 32)) t H1) as (k' & -> & Hk' & Hpl);
    [by rewrite fn_lookup_insert|by apply elem_of_heads|].
  simpl. eexists. split; [done|]. split; [|by subst k'; repeat split]. split; subst k'; try done.
  - eapply placed_linked; [|eapply placed_ext; [|exact Hpl]]; [done|]. by fn_case t.
  - by destruct H2.
Qed.

(** The wake-up of a waiting thread, which may also be in the wheel. *)
Definition woken (th : thread) (succeeded : bool) : thread :=
  th_set_state (th_set_wait_status (th_set_wait_list
    (if th_wheel_slot th <? MINI_OS_TICK_WHEEL then th_set_wheel_slot (th_set_round th 0) MINI_OS_TICK_WHEEL else th)
    None) succeeded) THREAD_READY.
Lemma wake_spec k t a w th succeeded :
  wf_at k t a (Some w) -> threads k !! t = Some th -> th_state th = THREAD_BLOCKED ->
  0 <= th_priority th < MINI_OS_PRIORITY -> 0 <= th_wheel_slot th <= MINI_OS_TICK_WHEEL ->
  0 <= th_round th < 134217728 ->
  a = (if th_wheel_slot th <? MINI_OS_TICK_WHEEL then Some (WheelHead (th_wheel_slot th)) else None) ->
  ∃ k', mini_os_sync_wake_thread k t succeeded = Some k' /\ wf k' /\
        frame k k' t (woken th succeeded) /\
        wait_lists k' = filter (λ x, x ≠ t) <$> wait_lists k /\ pendsv k' = pendsv k /\
        (∀ p, p ≠ th_priority th -> linked k' (ReadyHead p) = linked k (ReadyHead p)) /\
        linked k' (ReadyHead (th_priority th)) = linked k (ReadyHead (th_priority th)) ++ [t].
Proof.
  intros Hw Ht Hst Hp Hs Hr Ha. unfold mini_os_sync_wake_thread.
  pose proof (wf_at_wait_unlink _ _ _ _ Hw) as Hw1. change (threads (wait_unlink k t)) with (threads k). rewrite Ht.
  simpl. set (th1 := th_set_wait_status (th_set_wait_list th None) succeeded).
  pose proof (wf_at_set _ _ _ _ th1 Hw1) as Hw2.
  assert (∀ p, t ∉ linked k (ReadyHead p)) as Hnr.
  { intros p. rewrite (pl_in _ _ (wa_placed _ _ _ _ Hw)), fn_lookup_insert. subst a. by destruct (_ <? _). }
  assert (∃ k2 th2, (if th_wheel_slot th <? MINI_OS_TICK_WHEEL then mini_os_wheel_remove (set_thread (wait_unlink k t) t th1) (Some t)
             else Some (MINI_OK, set_thread (wait_unlink k t) t th1)) = Some (MINI_OK, k2) /\
             wf_at k2 t None None /\ frame k k2 t th2 /\ woken th succeeded = th_set_state th2 THREAD_READY /\ th_state th2 = THREAD_BLOCKED /\
             th_priority th2 = th_priority th /\ th_wait_list th2 = None /\ th_wait_status th2 = succeeded /\
             th_wheel_slot th2 = MINI_OS_TICK_WHEEL /\ 0 <= th_round th2 < 134217728 /\
             wait_lists k2 = filter (λ x, x ≠ t) <$> wait_lists k /\ pendsv k2 = pendsv k /\
             (∀ p, linked k2 (ReadyHead p) = linked k (ReadyHead p)))
    as (k2 & th2 & -> & Hw3 & Hf & E0 & E1 & E2 & E3 & E4 & E5 & E6 & E7 & E8 & E9).
  { unfold woken. destruct (Z.ltb_spec (th_wheel_slot th) MINI_OS_TICK_WHEEL).
    - unfold mini_os_wheel_remove. simpl. rewrite lookup_insert_eq. simpl. rewrite Hst. simpl.
      eexists _, _. split; [done|]. split; [apply wf_at_set, wf_at_unlink with (a := a); [done|by subst a]|].
      split; [split; simpl; try done; [by rewrite insert_insert_eq|by rewrite dom_fmap_L]|].
      split; [by destruct th|]. repeat (split; [done|]). intros p. exact (filter_ne_not_in t _ (Hnr p)).
    - exists (set_thread (wait_unlink k t) t th1), th1. split; [done|]. subst a. split; [done|].
      split; [split; simpl; try done; by rewrite dom_fmap_L|].
      split; [by destruct th|]. repeat (split; [done|]). split; [simpl; lia|]. by repeat (split; [done|]). }
  simpl. assert (threads k2 !! t = Some th2) as Ht2 by (rewrite (fr_threads _ _ _ _ Hf); apply lookup_insert_eq).
  destruct (add_spec _ _ _ _ Hw3 Ht2) as (k3 & -> & Hw4 & Hf' & F1 & F2 & F3); [by rewrite E1|lia|].
  simpl. eexists. split; [done|].
  assert (frame k k3 t (th_set_state th2 THREAD_READY)) as Hf3.
  { destruct Hf, Hf'. split; try congruence. rewrite fr_threads1, fr_threads0. by rewrite insert_insert_eq. }
  assert (threads k3 !! t = Some (th_set_state th2 THREAD_READY)) as Ht3
    by (rewrite (fr_threads _ _ _ _ Hf3); apply lookup_insert_eq).
  split; [|split; [by rewrite E0|]].
  - eapply wf_of_wf_at; [exact Hw4|exact Ht3|done|done|]. split; simpl; try done; try lia.
  - rewrite F1, F2, F3, E2. split; [done|]. split; [done|]. split.
    + intros p Hpn. rewrite upd_list_ne by congruence. auto.
    + by rewrite upd_list_same, E9.
Qed.

(** ** The wheel counts down *)

Lemma remain_eq k t th :
  threads k !! t = Some th -> 0 <= th_wheel_slot th < MINI_OS_TICK_WHEEL -> 0 <= s_current_slot k < MINI_OS_TICK_WHEEL ->
  0 <= th_round th < 134217728 ->
  mini_os_wheel_remain k (Some t) = Some (u32 ((th_wheel_slot th - s_current_slot k - 1) mod 32 + 1 + 32 * th_round th)).
Proof.
  intros Ht Hs Hc Hr. unfold mini_os_wheel_remain. rewrite Ht. simpl.
  unfold MINI_OS_TICK_WHEEL in *. destruct (Z.geb_spec (th_wheel_slot th) 32); [lia|].
  rewrite wheel_mask, u32_mod32. f_equal. f_equal.
  destruct (Z.eqb_spec ((th_wheel_slot th - s_current_slot k) mod 32) 0); Z.to_euclidean_division_equations; lia.
Qed.

(** What a tick that brings up the slot [cur] makes of a thread. *)
Definition ticked (cur : Z) (th : thread) : thread :=
  if negb (th_wheel_slot th =? cur) then th else
  if th_round th >? 0 then th_set_round th (th_round th - 1) else
  match th_wait_list th with
  | Some _ => woken (th_set_wheel_slot th MINI_OS_TICK_WHEEL) false
  | None => th_set_state (th_set_wheel_slot th MINI_OS_TICK_WHEEL) THREAD_READY
  end.

(** The state apart from the threads, the lists, the bitmap and the request. *)
Record same_vars (k k' : kernel) : Prop := {
  sv_current : current_thread k' = current_thread k;
  sv_cur_prio : s_current_priority k' = s_current_priority k;
  sv_slot : s_current_slot k' = s_current_slot k;
  sv_tick : g_global_tick k' = g_global_tick k;
  sv_waits : dom (wait_lists k') = dom (wait_lists k)
}.
#[export] Instance same_vars_preorder : PreOrder same_vars.
Proof. split; [intros ?; by split|]. intros ??? [] []. split; congruence. Qed.
Lemma frame_same k k' t th : frame k k' t th -> same_vars k k'.
Proof. intros []. by split. Qed.

Lemma wf_set_thread k t th th' :
  wf k -> threads k !! t = Some th -> place th' = place th -> th_wait_list th' = th_wait_list th ->
  thread_ok (current_thread k) t th' -> wf (set_thread k t th').
Proof.
  intros Hw Ht Hp Hl Hok. eapply wf_of_wf_at; [apply wf_at_set, (wf_at_of_wf _ _ _ Hw Ht)|apply lookup_insert_eq|done..].
Qed.

Lemma tick_one k t th cur :
  wf k -> threads k !! t = Some th -> th_wheel_slot th = cur -> cur < MINI_OS_TICK_WHEEL -> th_round th = 0 ->
  ∃ k', (let k := unlink k t in
         let k := set_thread k t (th_set_wheel_slot th MINI_OS_TICK_WHEEL) in
         match th_wait_list th with
         | Some _ => mini_os_sync_wake_thread k t false
         | None => '(_, k) ← mini_os_add_thread_to_ready_running_list k (Some t); Some k
         end) = Some k' /\ wf k' /\ frame k k' t (ticked cur th).
Proof.
  intros Hw Ht Hs Hc Hr. pose proof (wf_threads _ Hw _ _ Ht) as Hok.
  pose proof (to_wheel _ _ _ Hok ltac:(lia)) as Hst.
  pose proof (wf_at_of_wf _ _ _ Hw Ht) as Hw1. apply wf_at_unlink in Hw1.
  2: { intros p. unfold place. rewrite Hst. simpl. by destruct (_ <? _). }
  apply (wf_at_set _ _ _ _ (th_set_wheel_slot th MINI_OS_TICK_WHEEL)) in Hw1.
  assert (threads (set_thread (unlink k t) t (th_set_wheel_slot th MINI_OS_TICK_WHEEL)) !! t =
    Some (th_set_wheel_slot th MINI_OS_TICK_WHEEL)) as Ht1 by apply lookup_insert_eq.
  unfold ticked. rewrite Hs, Z.eqb_refl, Hr. simpl negb. cbn [Z.gtb Z.compare]. cbv zeta.
  destruct (th_wait_list th) as [w|] eqn:El.
  - destruct (wake_spec _ _ _ _ _ false Hw1 Ht1) as (k' & -> & Hwf & Hf & _); try (done || apply Hok).
    exists k'. split; [done|]. split; [done|]. destruct Hf. split; try done.
    rewrite fr_threads0. simpl. by rewrite insert_insert_eq.
  - destruct (add_spec _ _ _ _ Hw1 Ht1) as (k' & -> & Hwf & Hf & _); [by simpl; rewrite Hst|apply Hok|]. simpl.
    exists k'. split; [done|].
    assert (threads k' !! t = Some (th_set_state (th_set_wheel_slot th MINI_OS_TICK_WHEEL) THREAD_READY)) as Ht2
      by (rewrite (fr_threads _ _ _ _ Hf); apply lookup_insert_eq).
    split; [eapply wf_of_wf_at; [exact Hwf|exact Ht2|done|done|]|].
    + destruct Hok. split; simpl; try done; rewrite ?El in *; try done; lia.
    + destruct Hf. split; try done. rewrite fr_threads0. simpl. by rewrite insert_insert_eq.
Qed.

Lemma tick_loop_spec cur nodes k :
  wf k -> NoDup nodes -> 0 <= cur < MINI_OS_TICK_WHEEL ->
  (∀ t, t ∈ nodes -> ∃ th, threads k !! t = Some th /\ th_wheel_slot th = cur) ->
  ∃ k', tick_loop k nodes = Some k' /\ wf k' /\ same_vars k k' /\
        ∀ t, threads k' !! t = if decide (t ∈ nodes) then ticked cur <$> threads k !! t else threads k !! t.
Proof.
  intros Hw Hnd Hc. revert k Hw. induction Hnd as [|t nodes Hnin Hnd IH]; intros k Hw Hin.
  { exists k. split; [done|]. split; [done|]. split; [done|]. intros t. rewrite decide_False; [done|]. apply not_elem_of_nil. }
  destruct (Hin t) as (th & Ht & Hs); [set_solver|]. pose proof (wf_threads _ Hw _ _ Ht) as Hok.
  assert (∃ k1, wf k1 /\ frame k k1 t (ticked cur th) /\ tick_loop k (t :: nodes) = tick_loop k1 nodes)
    as (k1 & Hw1 & Hf & ->).
  { cbn [tick_loop]. rewrite Ht. cbn [mbind option_bind].
    destruct (th_round th >? 0) eqn:Er; bool_to_prop.
    - exists (set_thread k t (ticked cur th)). unfold ticked. rewrite Hs, Z.eqb_refl.
      destruct (Z.gtb_spec (th_round th) 0); [|lia]. simpl. split; [|by repeat split].
      eapply wf_set_thread; [done..|]. destruct Hok. split; simpl; try done; lia.
    - destruct (tick_one k t th cur) as (k' & E & ? & ?); [done..|lia|pose proof (to_round _ _ _ Hok); lia|].
      cbv zeta in E. exists k'. split; [done|]. split; [done|].
      destruct (th_wait_list th); rewrite E; done. }
  destruct (IH k1 Hw1) as (k' & E & Hw' & Hv & Hthr).
  { intros t' Ht'. rewrite (fr_threads _ _ _ _ Hf), lookup_insert_ne by set_solver. apply Hin. set_solver. }
  exists k'. split; [done|]. split; [done|]. split; [by etrans; [eapply frame_same|]|].
  intros t'. rewrite Hthr, (fr_threads _ _ _ _ Hf). destruct (decide (t' = t)) as [->|].
  - rewrite decide_False, decide_True, lookup_insert_eq, Ht by (done || apply elem_of_cons; auto). done.
  - rewrite lookup_insert_ne by done. destruct (decide (t' ∈ nodes)); 
      [rewrite decide_True by (apply elem_of_cons; auto)|rewrite decide_False by (rewrite not_elem_of_cons; auto)]; done.
Qed.

(** Where [t] is, from the invariant. *)
Lemma in_wheel k t s : wf k -> t ∈ linked k (WheelHead s) ->
  ∃ th, threads k !! t = Some th /\ th_wheel_slot th = s /\ s < MINI_OS_TICK_WHEEL.
Proof.
  intros Hw Hin. apply (pl_in _ _ (wf_placed _ Hw)) in Hin. unfold place_of in Hin.
  destruct (threads k !! t) as [th|]; [|done]. exists th. split; [done|]. simpl in Hin. unfold place in Hin.
  destruct (is_ready _); [done|]. destruct (Z.ltb_spec (th_wheel_slot th) MINI_OS_TICK_WHEEL); [|done]. simplify_eq. done.
Qed.
Lemma in_ready k t p : wf k ->
  t ∈ linked k (ReadyHead p) <-> ∃ th, threads k !! t = Some th /\ is_ready (th_state th) = true /\ th_priority th = p.
Proof.
  intros Hw. rewrite (pl_in _ _ (wf_placed _ Hw)). unfold place_of. destruct (threads k !! t) as [th|]; simpl.
  - unfold place. destruct (is_ready _) eqn:E; [naive_solver|].
    split; [by destruct (th_wheel_slot th <? _)|intros (? & ? & ? & ?); congruence].
  - naive_solver.
Qed.
Lemma wheel_linked k t th : wf k -> threads k !! t = Some th -> th_wheel_slot th < MINI_OS_TICK_WHEEL ->
  t ∈ linked k (WheelHead (th_wheel_slot th)).
Proof.
  intros Hw Ht Hs. apply (pl_in _ _ (wf_placed _ Hw)). unfold place_of. rewrite Ht. simpl. unfold place.
  rewrite (to_wheel _ _ _ (wf_threads _ Hw _ _ Ht) Hs). simpl. by rewrite (proj2 (Z.ltb_lt _ _) Hs).
Qed.

Lemma wf_slot_set k s : wf k -> 0 <= s < MINI_OS_TICK_WHEEL -> wf (k_set_current_slot k s).
Proof. intros [[] [] H3 H4 H5 H6] Hs. by split. Qed.

Lemma tick_decrement_spec k :
  wf k -> ∃ k', mini_os_tick_decrement k = Some k' /\ wf k' /\
    same_vars (k_set_current_slot k ((s_current_slot k + 1) mod 32)) k' /\
    ∀ t, threads k' !! t = ticked ((s_current_slot k + 1) mod 32) <$> threads k !! t.
Proof.
  intros Hw. unfold mini_os_tick_decrement. rewrite wheel_mask, u32_mod32.
  set (cur := (s_current_slot k + 1) mod 32).
  assert (0 <= cur < MINI_OS_TICK_WHEEL) as Hc by (by apply Z.mod_pos_bound).
  pose proof (wf_slot_set _ cur Hw Hc) as Hw1.
  destruct (tick_loop_spec cur (linked k (WheelHead cur)) _ Hw1) as (k' & E & Hw' & Hv & Ht);
    [apply (pl_nodup _ _ (wf_placed _ Hw))|done|
     intros t Hin; destruct (in_wheel _ _ _ Hw Hin) as (th & ? & ? & ?); eauto|].
  exists k'. split; [exact E|]. split; [done|]. split; [done|]. intros t. rewrite Ht.
  change (threads (k_set_current_slot k cur)) with (threads k). destruct (decide _) as [|Hn]; [done|].
  destruct (threads k !! t) as [th|] eqn:Eth; [|done]. simpl. unfold ticked.
  destruct (Z.eqb_spec (th_wheel_slot th) cur) as [Es|]; [|done]. exfalso. apply Hn. rewrite <- Es.
  apply wheel_linked; [done|done|lia].
Qed.

(** ** The tick handler *)

Lemma thread_ok_remain c t th n : thread_ok c t th -> thread_ok c t (th_set_remain_tick th n).
Proof. intros []. by split. Qed.
Lemma wf_set_remain k t th n : wf k -> threads k !! t = Some th -> wf (set_thread k t (th_set_remain_tick th n)).
Proof. intros Hw Ht. eapply wf_set_thread; [done..|]. apply thread_ok_remain, (wf_threads _ Hw _ _ Ht). Qed.
Lemma wf_pendsv k v : wf k -> wf (k_set_pendsv k v).
Proof. intros [[] [] H3 H4 H5 H6]. by split. Qed.
Lemma wf_tick k v o : wf k -> wf (k_set_tick k v o).
Proof. intros [[] [] H3 H4 H5 H6]. by split. Qed.

(** A block without its time slice. *)
Definition core (th : thread) : thread := th_set_remain_tick th 0.

Lemma core_fields th th' :
  core th = core th' -> th_state th = th_state th' /\ th_priority th = th_priority th' /\ th_round th = th_round th' /\
  th_wheel_slot th = th_wheel_slot th' /\ th_wait_list th = th_wait_list th' /\ th_wait_status th = th_wait_status th'.
Proof. destruct th, th'. unfold core, th_set_remain_tick. simpl. intros [=]; subst. by repeat split. Qed.

Lemma slice_spec k :
  wf k -> ∃ k', mini_os_tick_slice_decrement k = Some k' /\ wf k' /\ same_vars k k' /\
    ∀ t, core <$> threads k' !! t = core <$> threads k !! t.
Proof.
  intros Hw. unfold mini_os_tick_slice_decrement.
  destruct (current_thread k) as [c|] eqn:Ec; [|by exists k].
  destruct (wf_current _ Hw _ Ec) as [th Ht]. rewrite Ht. simpl.
  destruct (th_init_tick_num th =? 0); [by exists k|].
  set (th1 := if th_remain_tick th >? 0 then th_set_remain_tick th (th_remain_tick th - 1) else th).
  assert (∃ n, th1 = th_set_remain_tick th n) as [n ->].
  { subst th1. destruct (_ >? 0); [by eexists|]. exists (th_remain_tick th). by destruct th. }
  assert (∀ m t, core <$> <[c:=th_set_remain_tick th m]> (threads k) !! t = core <$> threads k !! t) as Hcore.
  { intros m t. destruct (decide (t = c)) as [->|]; [rewrite lookup_insert_eq, Ht|rewrite lookup_insert_ne by done]; done. }
  pose proof (wf_set_remain _ _ _ n Hw Ht).
  destruct (_ =? 0); eexists; (split; [done|]).
  - split; [|split; [by split|]].
    + apply wf_pendsv. exact (wf_set_remain _ _ _ (th_init_tick_num th) Hw Ht).
    + exact (Hcore _).
  - split; [done|]. split; [by split|]. exact (Hcore _).
Qed.

Lemma yield_isr_spec k :
  wf k -> ∃ v, mini_os_schedule_yield_isr k = Some (MINI_OK, k_set_pendsv k v).
Proof.
  intros Hw. unfold mini_os_schedule_yield_isr.
  destruct (current_thread k) as [c|] eqn:Ec; [|exists (pendsv k); by destruct k].
  destruct (wf_current _ Hw _ Ec) as [th ->]. simpl.
  destruct (_ <? _); [by exists true|]. exists (pendsv k). by destruct k.
Qed.

Lemma systick_spec ts lt k :
  wf k -> ∃ k', mini_os_systick_handler ts lt k = Some k' /\ wf k' /\
    current_thread k' = current_thread k /\ s_current_priority k' = s_current_priority k /\
    s_current_slot k' = (s_current_slot k + 1) mod 32 /\ g_global_tick k' = u32 (g_global_tick k + 1) /\
    dom (wait_lists k') = dom (wait_lists k) /\
    ∀ t, core <$> threads k' !! t = (core ∘ ticked ((s_current_slot k + 1) mod 32)) <$> threads k !! t.
Proof.
  intros Hw. unfold mini_os_systick_handler, systick_count.
  destruct (tick_decrement_spec k Hw) as (k1 & -> & Hw1 & Hv1 & Ht1). simpl.
  assert (∃ k2, (if ts then mini_os_tick_slice_decrement k1 else Some k1) = Some k2 /\ wf k2 /\ same_vars k1 k2 /\
    ∀ t, core <$> threads k2 !! t = core <$> threads k1 !! t) as (k2 & -> & Hw2 & Hv2 & Ht2).
  { destruct ts; [by apply slice_spec|by exists k1]. }
  simpl. set (k3 := k_set_tick k2 _ _).
  assert (wf k3) as Hw3 by by apply wf_tick.
  destruct (yield_isr_spec k3 Hw3) as [v ->]. simpl. eexists. split; [done|].
  pose proof (transitivity Hv1 Hv2) as [V1 V2 V3 V4 V5]. simpl in *.
  split; [by apply wf_pendsv|]. split; [done|]. split; [done|]. split; [done|].
  split; [by rewrite V4|]. split; [done|]. intros t. rewrite Ht2, Ht1. by destruct (threads k !! t).
Qed.

(** ** Switching *)

(** The current thread belongs to the level of the last switch. *)
Definition current_level (k : kernel) : Prop :=
  ∀ c th, current_thread k = Some c -> threads k !! c = Some th -> th_priority th = s_current_priority k.

(** The thread that follows [c] in the rotation of its level, or the first one. *)
Definition next_of (l : list Z) (c : option Z) : option Z :=
  match c with
  | Some c => if bool_decide (c ∈ l) then head (after c l ++ l) else head l
  | None => head l
  end.

Lemma demote_spec k :
  wf k -> ∃ k', demote k = Some k' /\ wf k' /\ linked k' = linked k /\ g_priority k' = g_priority k /\ same_vars k k' /\
    wait_lists k' = wait_lists k /\ pendsv k' = pendsv k /\
    (∀ t, threads k' !! t = (λ th, if bool_decide (th_state th = THREAD_RUNNING) then th_set_state th THREAD_READY else th)
                            <$> threads k !! t).
Proof.
  intros Hw. unfold demote.
  assert (∀ t th, threads k !! t = Some th -> current_thread k ≠ Some t -> th_state th ≠ THREAD_RUNNING) as Hnr.
  { intros t th Ht Hc E. apply Hc, (to_running _ _ _ (wf_threads _ Hw _ _ Ht) E). }
  destruct (current_thread k) as [c|] eqn:Ec.
  - destruct (wf_current _ Hw _ Ec) as [th Ht]. rewrite Ht. simpl.
    destruct (bool_decide_reflect (th_state th = THREAD_RUNNING)) as [Er|Er].
    + eexists. split; [done|]. split.
      { eapply wf_set_thread; [done..|by unfold place; simpl; rewrite Er|done|].
        destruct (wf_threads _ Hw _ _ Ht). split; simpl; rewrite ?Er in *; try done; naive_solver. }
      repeat (split; [done|]).
      intros t. simpl. destruct (decide (t = c)) as [->|].
      * rewrite lookup_insert_eq, Ht. simpl. by rewrite bool_decide_true.
      * rewrite lookup_insert_ne by done. destruct (threads k !! t) eqn:E; simpl; [|done].
        rewrite bool_decide_false; [done|]. eapply Hnr; [done|]. congruence.
    + exists k. repeat (split; [done|]). intros t. destruct (threads k !! t) as [th'|] eqn:E; simpl; [|done].
      rewrite bool_decide_false; [done|]. destruct (decide (t = c)) as [->|]; [by simplify_eq|].
      eapply Hnr; [done|]. congruence.
  - exists k. repeat (split; [done|]). intros t. destruct (threads k !! t) as [th'|] eqn:E; simpl; [|done].
    rewrite bool_decide_false; [done|]. eapply Hnr; done.
Qed.

Lemma node_next_head k h : node_next k (HeadNode h) = match linked k h with [] => HeadNode h | t :: _ => ThreadNode t end.
Proof. done. Qed.
Lemma node_next_thread k t h : wf k -> t ∈ linked k h ->
  node_next k (ThreadNode t) = match after t (linked k h) with [] => HeadNode h | t' :: _ => ThreadNode t' end.
Proof.
  intros Hw Hin. unfold node_next. rewrite (home_spec _ _ _ (wf_placed _ Hw)).
  by rewrite (proj1 (pl_in _ _ (wf_placed _ Hw) t h) Hin).
Qed.

(** The selection, on the state after the demotion. *)
Lemma select_spec k p l c :
  wf k -> linked k (ReadyHead p) = l -> l ≠ [] -> current_thread k = Some c ->
  (∀ th, threads k !! c = Some th -> th_state th ≠ THREAD_RUNNING) -> (p = s_current_priority k -> current_level k) ->
  ∃ n, (r ← rotates k c;
        Some (if (p =? s_current_priority k) && (r : bool) then
                let n := node_next k (ThreadNode c) in
                if bool_decide (n = HeadNode (ReadyHead p)) then node_next k n else n
              else node_next k (HeadNode (ReadyHead p)))) = Some (ThreadNode n) /\
       (current_level k -> next_of l (Some c) = Some n) /\ n ∈ l.
Proof.
  intros Hw Hl Hne Hc Hnr Hlev. destruct (wf_current _ Hw _ Hc) as [th Ht].
  destruct l as [|x l]; [done|]. unfold rotates. rewrite Ht. cbn [mbind option_bind].
  rewrite (node_next_head k (ReadyHead p)), Hl. unfold next_of.
  destruct (Z.eqb_spec p (s_current_priority k)) as [Ep|Ep].
  2:{ exists x. split; [done|]. split; [|set_solver]. intros Hlv. rewrite bool_decide_false; [done|]. intros Hin. apply Ep.
      assert (c ∈ linked k (ReadyHead p)) as Hin' by by rewrite Hl.
      pose proof (proj1 (in_ready _ _ _ Hw) Hin') as (th' & Ht' & _ & <-). by apply (Hlv c). }
  specialize (Hlev Ep). destruct (bool_decide_reflect (c ∈ x :: l)) as [Hin|Hnin].
  - assert (c ∈ linked k (ReadyHead p)) as Hin' by by rewrite Hl.
    pose proof (proj1 (in_ready _ _ _ Hw) Hin') as (th' & Ht' & Hr & Hp). rewrite Ht in Ht'. injection Ht' as <-.
    assert (th_state th = THREAD_READY) as Est.
    { specialize (Hnr _ Ht). destruct (th_state th); done. }
    rewrite (bool_decide_true (th_state th = THREAD_READY)) by done.
    rewrite (node_next_thread _ _ _ Hw Hin'), Hl.
    pose proof (after_not_self c (x :: l)) as Hns. specialize (Hns ltac:(rewrite <- Hl; apply (pl_nodup _ _ (wf_placed _ Hw)))).
    pose proof (λ y, elem_of_after c y (x :: l)) as Haf.
    destruct (after c (x :: l)) as [|y m].
    + rewrite !bool_decide_true by done. cbn [andb node_next]. rewrite Hl. exists x. split; [done|]. split; [done|]. set_solver.
    + rewrite bool_decide_true by (intros [= ->]; apply Hns; set_solver). cbn [andb]. rewrite bool_decide_false by done.
      exists y. split; [done|]. split; [done|]. apply Haf. set_solver.
  - exists x. split; [|split; [done|set_solver]]. simpl.
    rewrite (bool_decide_false (th_state th = THREAD_READY)); [done|]. intros Est. apply Hnin. rewrite <- Hl.
    apply (in_ready _ _ _ Hw). exists th. rewrite Est, Ep. split; [done|]. split; [done|]. by apply (Hlev c).
Qed.

(** What a switch to [n] makes of the thread [t]. *)
Definition demoted (th : thread) : thread :=
  if bool_decide (th_state th = THREAD_RUNNING) then th_set_state th THREAD_READY else th.
Definition switched (n t : Z) (th : thread) : thread :=
  if t =? n then th_set_state th THREAD_RUNNING else demoted th.

Lemma demoted_fields th :
  is_ready (th_state (demoted th)) = is_ready (th_state th) /\ th_priority (demoted th) = th_priority th /\
  th_state (demoted th) ≠ THREAD_RUNNING.
Proof.
  unfold demoted. destruct (bool_decide_reflect (th_state th = THREAD_RUNNING)) as [->|]; [|done].
  split; [done|]. split; [done|]. done.
Qed.

Lemma wf_set_running k n th :
  wf k -> threads k !! n = Some th -> is_ready (th_state th) = true ->
  (∀ t th, threads k !! t = Some th -> th_state th ≠ THREAD_RUNNING) ->
  wf (k_set_current (set_thread k n (th_set_state th THREAD_RUNNING)) (Some n)).
Proof.
  intros Hw Hn Hr Hnr. pose proof (wf_at_of_wf _ _ _ Hw Hn) as Ha.
  apply (wf_at_set _ _ _ _ (th_set_state th THREAD_RUNNING)) in Ha. destruct Ha as [H1 H2 H3 H4 H5 H6].
  assert (place (th_set_state th THREAD_RUNNING) = place th) as Hpl by (unfold place; simpl; by rewrite Hr).
  apply (wf_of_wf_at _ n (place th) (th_wait_list th) (th_set_state th THREAD_RUNNING)).
  - split; [by destruct H1|by destruct H2|done|done| |].
    + intros t' th' Hne Ht'. specialize (H5 _ _ Hne Ht'). destruct H5. split; try done.
      intros E. exfalso. simpl in Ht'. rewrite lookup_insert_ne in Ht' by done. by apply (Hnr _ _ Ht').
    + simpl. intros c [= <-]. by rewrite lookup_insert_eq.
  - apply lookup_insert_eq.
  - done.
  - done.
  - pose proof (wf_threads _ Hw _ _ Hn) as Hok. destruct Hok. split; simpl; try done.
    + intros E. apply to_wait0 in E. by rewrite E in Hr.
    + intros E. apply to_wheel0 in E. by rewrite E in Hr.
Qed.

(** The switch goes well unless the current thread was moved off the level of the last
    switch and a thread is left there. *)
Definition switch_safe (k : kernel) : Prop :=
  mini_os_get_highest_priority k = s_current_priority k -> current_level k.

Lemma switch_gen k :
  wf k -> switch_safe k ->
  ∃ rc k', mini_os_schedule_switch k = Some (rc, k') /\ wf k' /\ (rc = MINI_OK \/ current_level k -> current_level k') /\
    s_current_slot k' = s_current_slot k /\ g_global_tick k' = g_global_tick k /\ wait_lists k' = wait_lists k /\
    linked k' = linked k /\ g_priority k' = g_priority k /\
    if mini_os_get_highest_priority k =? MINI_OS_PRIORITY
    then rc = MINI_ERR_NODEV /\ ∀ t, threads k' !! t = demoted <$> threads k !! t
    else rc = MINI_OK /\ s_current_priority k' = mini_os_get_highest_priority k /\
         ∃ n, (current_level k ->
               next_of (linked k (ReadyHead (mini_os_get_highest_priority k))) (current_thread k) = Some n) /\
              n ∈ linked k (ReadyHead (mini_os_get_highest_priority k)) /\
              current_thread k' = Some n /\ ∀ t, threads k' !! t = switched n t <$> threads k !! t.
Proof.
  intros Hw Hlev. destruct (demote_spec k Hw) as (k1 & E1 & Hw1 & L1 & G1 & [V1 V2 V3 V4 V5] & W1 & P1 & T1).
  change (∀ t, threads k1 !! t = demoted <$> threads k !! t) in T1.
  unfold mini_os_schedule_switch. rewrite E1. cbn [mbind option_bind].
  assert (mini_os_get_highest_priority k1 = mini_os_get_highest_priority k) as ->
    by (unfold mini_os_get_highest_priority; by rewrite G1).
  assert (∀ t th, threads k1 !! t = Some th -> th_state th ≠ THREAD_RUNNING) as Hnr.
  { intros t th. rewrite T1. destruct (threads k !! t) as [th0|]; intros [= <-]. apply demoted_fields. }
  assert (current_level k -> current_level k1) as Hlev1.
  { intros Hlv c th Hc. rewrite V1 in Hc. rewrite T1, V2. destruct (threads k !! c) as [th0|] eqn:E; intros [= <-].
    destruct (demoted_fields th0) as (_ & -> & _). by apply Hlv with c. }
  rewrite <- L1. destruct (highest_spec k (wf_bitmap _ Hw)) as [[Eh _]|(Hh & Hne & _)].
  { rewrite Eh. cbn. eexists _, _. split; [done|]. split; [done|]. split; [|by repeat (split; [done|])].
    intros [Hrc|Hlv]; [done|auto]. }
  rewrite <- L1 in Hne. set (p := mini_os_get_highest_priority k) in *.
  destruct (Z.geb_spec p MINI_OS_PRIORITY); [lia|]. destruct (Z.eqb_spec p MINI_OS_PRIORITY) as [|_]; [lia|].
  set (k2 := k_set_current_priority k1 p).
  assert (wf k2) as Hw2. { destruct Hw1 as [[] [] ? ? ? ?]. by split. }
  change (current_thread k2) with (current_thread k1). rewrite <- V1.
  match goal with |- context [x ← ?e; thread_of x ≫= ?f] => assert (∃ n, e = Some (ThreadNode n) /\
    (current_level k -> next_of (linked k1 (ReadyHead p)) (current_thread k1) = Some n) /\ n ∈ linked k1 (ReadyHead p))
    as (n & -> & Hn & Hin) end.
  { destruct (current_thread k1) as [c|] eqn:Ec.
    - destruct (select_spec k1 p _ c Hw1 eq_refl Hne Ec) as (n & E & Hn & Hin);
        [intros; by eapply Hnr|rewrite V2; intros Ep; apply Hlev1, Hlev, Ep|]. exists n. auto.
    - rewrite (node_next_head k2 (ReadyHead p)). change (linked k2) with (linked k1).
      destruct (linked k1 (ReadyHead p)) as [|x l]; [done|]. exists x. set_solver. }
  destruct (proj1 (in_ready _ _ _ Hw1) Hin) as (th & Ht & Hr & Hp).
  cbn [mbind option_bind thread_of]. change (threads k2) with (threads k1). rewrite Ht. cbn [mbind option_bind].
  eexists _, _. split; [done|].
  split; [by apply wf_set_running|]. split.
  { intros _ c th' [= <-] Hc. simpl in Hc. rewrite lookup_insert_eq in Hc. injection Hc as <-. done. }
  repeat (split; [done|]). exists n. repeat (split; [done|]). intros t. simpl. unfold switched.
  destruct (Z.eqb_spec t n) as [->|]; [|rewrite lookup_insert_ne by done; apply T1].
  rewrite lookup_insert_eq. rewrite T1 in Ht. destruct (threads k !! n) as [th0|]; [|done]. injection Ht as <-. simpl.
  unfold demoted. by destruct (bool_decide _).
Qed.

Lemma switch_spec k :
  wf k -> current_level k ->
  ∃ rc k', mini_os_schedule_switch k = Some (rc, k') /\ wf k' /\ current_level k' /\
    s_current_slot k' = s_current_slot k /\ g_global_tick k' = g_global_tick k /\ wait_lists k' = wait_lists k /\
    linked k' = linked k /\ g_priority k' = g_priority k /\
    if mini_os_get_highest_priority k =? MINI_OS_PRIORITY
    then rc = MINI_ERR_NODEV /\ ∀ t, threads k' !! t = demoted <$> threads k !! t
    else rc = MINI_OK /\ s_current_priority k' = mini_os_get_highest_priority k /\
         ∃ n, next_of (linked k (ReadyHead (mini_os_get_highest_priority k))) (current_thread k) = Some n /\
              n ∈ linked k (ReadyHead (mini_os_get_highest_priority k)) /\
              current_thread k' = Some n /\ ∀ t, threads k' !! t = switched n t <$> threads k !! t.
Proof.
  intros Hw Hl. destruct (switch_gen k Hw (λ _, Hl)) as (rc & k' & E & Hw' & Hl' & ? & ? & ? & ? & ? & Hr).
  exists rc, k'. split; [done|]. split; [done|]. split; [auto|]. repeat (split; [done|]). destruct (_ =? _); [done|].
  destruct Hr as (-> & ? & n & Hn & ? & ? & ?). split; [done|]. split; [done|]. exists n. auto.
Qed.
