(* ===== verification/MiniKernel.v ===== *)
(** * The mini-os kernel in motion

    The operations of [MiniSched] as steps of one machine: threads are created, delay
    themselves, wait on objects and are woken, ticks and context switches come at any time.
    The theorems: under every such sequence no step goes wrong and no thread is lost; a
    switch runs a thread of the highest priority and rotates among equals; delays and time
    limits are exact in ticks; and a switch after the running thread was moved to another
    priority takes a list head for a thread, or runs a thread of a lower priority. *)

From S2P Require Import Prelude Status MiniList MiniSched.
From stdpp Require Import gmap functions.

#[local] Open Scope Z_scope.

(** ** Every step goes well *)

(** A thread call comes from a thread that runs. *)
Definition may_call (k : kernel) : Prop :=
  match c ← current_thread k; threads k !! c with Some th => th_state th = THREAD_RUNNING | None => True end.
Lemma caller_runs k c th :
  may_call k -> current_thread k = Some c -> threads k !! c = Some th -> th_state th = THREAD_RUNNING.
Proof. unfold may_call. intros Hm Hc Ht. rewrite Hc in Hm. simpl in Hm. by rewrite Ht in Hm. Qed.

(** The wake-up of the thread that waits longest, as every object does it. *)
Definition wake_oldest (k : kernel) (w : Z) (succeeded : bool) : option (bool * kernel) :=
  l ← wait_lists k !! w;
  match l with
  | [] => Some (false, k)
  | t :: _ => k ← mini_os_sync_wake_thread k t succeeded; Some (true, k)
  end.
(** [mini_os_list_init] on the wait list of a new object, and the end of an object. *)
Definition wait_list_init (k : kernel) (w : Z) : kernel := k_set_wait_lists k (<[w := []]> (wait_lists k)).
Definition wait_list_drop (k : kernel) (w : Z) : kernel := k_set_wait_lists k (delete w (wait_lists k)).

Inductive kernel_op :=
  | KCreate (t priority stack_size stack : Z)
  | KObject (w : Z)
  | KObjectEnd (w : Z)
  | KTick
  | KSwitch
  | KYield
  | KDelay (ticks : Z)
  | KPark (w mask timeout_tick obj : Z)
  | KUnpark
  | KWake (w : Z) (succeeded : bool)
  | KWakeAll (w : Z) (succeeded : bool)
  | KPriority (t priority : Z).

Section steps.
Context (time_slice long_time : bool).

Definition kernel_step (k : kernel) (op : kernel_op) : option kernel :=
  match op with
  | KCreate t priority stack_size stack => snd <$> mini_os_thread_create k true true stack_size priority (Some t) stack
  | KObject w => Some (wait_list_init k w)
  | KObjectEnd w => Some (wait_list_drop k w)
  | KTick => mini_os_systick_handler time_slice long_time k
  | KSwitch => snd <$> pendsv_handler k
  | KYield => Some (mini_os_schedule_yield k).2
  | KDelay ticks => snd <$> mini_os_thread_delay_tick k ticks
  | KPark w mask timeout_tick obj =>
      r ← mini_os_sync_wait_park k (Some w) mask timeout_tick obj;
      Some match r with inl (_, k) => k | inr k => k end
  | KUnpark => match current_thread k with Some c => snd <$> sync_wait_resume k c | None => Some k end
  | KWake w succeeded => snd <$> wake_oldest k w succeeded
  | KWakeAll w succeeded => snd <$> mini_os_sync_wake_all k w succeeded
  | KPriority t priority => snd <$> mini_os_thread_priority_apply k (Some t) priority
  end.

(** What the callers keep to: control blocks and objects are new and alive, calls that park
    come from a running thread, and the running thread's priority is left alone. *)
Definition op_ok (k : kernel) (op : kernel_op) : Prop :=
  match op with
  | KCreate t priority _ _ => threads k !! t = None /\ 0 <= priority
  | KObject w => wait_lists k !! w = None
  | KObjectEnd w => wait_lists k !! w = Some []
  | KDelay ticks => may_call k /\ is_u32 ticks
  | KPark w _ timeout_tick _ => may_call k /\ is_Some (wait_lists k !! w) /\ -2147483648 <= timeout_tick < 2147483648
  | KUnpark => may_call k
  | KWake w _ | KWakeAll w _ => is_Some (wait_lists k !! w)
  | KPriority t priority => is_Some (threads k !! t) /\ 0 <= priority /\ current_thread k ≠ Some t
  | KTick | KSwitch | KYield => True
  end.

Fixpoint run_ops (k : kernel) (ops : list kernel_op) : option kernel :=
  match ops with [] => Some k | op :: ops => k ← kernel_step k op; run_ops k ops end.
Fixpoint ops_ok (k : kernel) (ops : list kernel_op) : Prop :=
  match ops with
  | [] => True
  | op :: ops => op_ok k op /\ match kernel_step k op with Some k' => ops_ok k' ops | None => True end
  end.
End steps.

(** The kernel after [mini_os_schedule_init]: no thread, no object. *)
Definition boot_kernel : kernel := (mini_os_schedule_init (mk_kernel ∅ empty_list ∅ 0 0 0 0 0 None false)).2.

Lemma wf_at_fresh k t : wf k -> threads k !! t = None -> wf_at k t None None.
Proof.
  intros [H1 H2 H3 H4 H5 H6] Ht. split; try done.
  - eapply placed_ext; [|exact H1]. fn_case t; [|done]. unfold place_of. by rewrite Ht.
  - eapply waiting_ext; [|exact H2]. fn_case t; [|done]. unfold wait_of. by rewrite Ht.
  - eauto.
Qed.

Lemma frame_lookup k k' t th : frame k k' t th -> threads k' !! t = Some th.
Proof. intros [-> _ _ _ _ _]. apply lookup_insert_eq. Qed.
Lemma frame_trans k k1 k2 t a b : frame k k1 t a -> frame k1 k2 t b -> frame k k2 t b.
Proof.
  intros [A1 A2 A3 A4 A5 A6] [B1 B2 B3 B4 B5 B6]. split; try congruence. rewrite B1, A1. apply insert_insert_eq.
Qed.
Lemma frame_set k t th : frame k (set_thread k t th) t th.
Proof. by split. Qed.

Lemma level_frame k k' t th th' :
  current_level k -> frame k k' t th' -> (threads k !! t = Some th /\ th_priority th' = th_priority th \/ current_thread k ≠ Some t) ->
  current_level k'.
Proof.
  intros Hl [F1 F2 F3 _ _ _] Ht c thc. rewrite F1, F2, F3. intros Hc. destruct (decide (c = t)) as [->|].
  - rewrite lookup_insert_eq. intros [= <-]. destruct Ht as [[Ht ->]|]; [|done]. by apply (Hl t).
  - rewrite lookup_insert_ne by done. by apply Hl.
Qed.
Lemma level_threads k k' :
  current_level k -> current_thread k' = current_thread k -> s_current_priority k' = s_current_priority k ->
  (∀ t th', threads k' !! t = Some th' -> ∃ th, threads k !! t = Some th /\ th_priority th' = th_priority th) ->
  current_level k'.
Proof.
  intros Hl Hc Hp Ht c th. rewrite Hc, Hp. intros Ec E. destruct (Ht _ _ E) as (th0 & E0 & ->). by apply (Hl c).
Qed.

(** The running thread leaves its ready list. *)
Lemma detach_spec k c th :
  wf k -> threads k !! c = Some th -> is_ready (th_state th) = true ->
  ∃ k', mini_os_remove_thread_from_ready_running_list k (Some c) = Some (MINI_OK, k') /\
        wf_at k' c None None /\ frame k k' c th /\ wait_lists k' = wait_lists k /\ pendsv k' = pendsv k /\
        linked k' = linked (unlink k c).
Proof.
  intros Hw Ht Hr. pose proof (wf_threads _ Hw _ _ Ht) as Hok. pose proof (wf_at_of_wf _ _ _ Hw Ht) as Ha.
  unfold place in Ha. rewrite Hr in Ha.
  assert (th_wait_list th = None) as El.
  { destruct (th_wait_list th) eqn:El; [|done]. exfalso.
    assert (th_state th = THREAD_BLOCKED) as E by (apply (to_wait _ _ _ Hok); by rewrite El). by rewrite E in Hr. }
  rewrite El in Ha. apply (remove_spec _ _ _ _ Ha Ht Hr), Hok.
Qed.

(** A new control block becomes ready. *)
Lemma admit_ok k t priority :
  wf k -> threads k !! t = None -> 0 <= priority < MINI_OS_PRIORITY ->
  ∃ k', mini_os_add_thread_to_ready_running_list (set_thread k t (new_thread priority)) (Some t) = Some (MINI_OK, k') /\ wf k' /\
    (current_level k -> current_level k') /\
    ∃ th, frame k k' t th /\ th_wait_list th = None /\ 0 <= th_base_priority th < MINI_OS_PRIORITY.
Proof.
  intros Hw Ht Hp. pose proof (wf_at_set _ _ _ _ (new_thread priority) (wf_at_fresh _ _ Hw Ht)) as Ha.
  destruct (add_spec _ _ _ (new_thread priority) Ha (lookup_insert_eq (threads k) t _)) as (k' & -> & Ha' & Hf & _); [done|simpl; lia|].
  eexists. split; [done|].
  split; [|split; [|eexists; split; [eapply frame_trans; [apply frame_set|exact Hf]|simpl; split; [done|lia]]]].
  - eapply wf_of_wf_at; [exact Ha'|by eapply frame_lookup|done|done|].
    split; simpl; try done; unfold MINI_OS_PRIORITY, MINI_OS_TICK_WHEEL in *; lia.
  - intros Hl. eapply (level_frame _ _ _ (new_thread priority)); [exact Hl|eapply frame_trans; [apply frame_set|exact Hf]|right].
    intros Hc. destruct (wf_current _ Hw _ Hc). congruence.
Qed.
Lemma create_ok k name entry t priority stack_size stack :
  wf k -> threads k !! t = None -> 0 <= priority ->
  ∃ r k', mini_os_thread_create k name entry stack_size priority (Some t) stack = Some (r, k') /\ wf k' /\
    (current_level k -> current_level k') /\
    (k' = k \/ ∃ th, frame k k' t th /\ th_wait_list th = None /\ 0 <= th_base_priority th < MINI_OS_PRIORITY).
Proof.
  intros Hw Ht Hp. unfold mini_os_thread_create. destruct (_ || _ || _ || _) eqn:E0; [by exists None, k; auto|].
  destruct (stack =? 0); [by exists None, k; auto|]. unfold mini_os_thread_init. bool_to_prop.
  destruct (_ || _ || _ || _ || _ || _); [by exists None, k; auto|]. simpl.
  destruct (admit_ok k t priority) as (k' & -> & Hw' & Hl & Hf); [done|done|lia|]. simpl. eexists _, _. split; [done|]. auto.
Qed.

Lemma delay_ok k ticks :
  wf k -> may_call k -> 0 < ticks < 4294967296 ->
  ∃ k', mini_os_schedule_delay k ticks = Some k' /\ wf k' /\ (current_level k -> current_level k') /\
    match current_thread k with
    | None => k' = k
    | Some c => ∃ th, threads k !! c = Some th /\ frame k k' c (parked k th ticks)
    end.
Proof.
  intros Hw Hm Hn. unfold mini_os_schedule_delay.
  destruct (current_thread k) as [c|] eqn:Ec; [|by exists k].
  destruct (Z.eqb_spec ticks 0); [lia|]. destruct (wf_current _ Hw _ Ec) as [th Ht].
  pose proof (caller_runs _ _ _ Hm Ec Ht) as Hst. pose proof (wf_threads _ Hw _ _ Ht) as Hok.
  destruct (detach_spec _ _ _ Hw Ht) as (k1 & -> & Ha & Hf & _); [by rewrite Hst|]. cbn [mbind option_bind].
  destruct (wheel_insert_spec _ _ _ _ ticks Ha (frame_lookup _ _ _ _ Hf) Hn) as (k2 & -> & Ha2 & Hf2 & _). simpl.
  assert (parked k1 th ticks = parked k th ticks) as Ep by (unfold parked; by rewrite (fr_slot _ _ _ _ Hf)).
  rewrite Ep in Hf2. pose proof (frame_trans _ _ _ _ _ _ Hf Hf2) as Hf3.
  assert (wf k2) as Hw2.
  { pose proof (wf_slot _ Hw). pose proof (Z.mod_pos_bound (s_current_slot k + ticks) 32 ltac:(lia)) as Hs.
    assert ((s_current_slot k + ticks) mod 32 <? MINI_OS_TICK_WHEEL = true) as Hs' by (apply Z.ltb_lt; unfold MINI_OS_TICK_WHEEL; lia).
    eapply wf_of_wf_at; [exact Ha2|by eapply frame_lookup|unfold place; simpl|simpl|].
    - by rewrite Hs', (fr_slot _ _ _ _ Hf).
    - destruct (th_wait_list th) eqn:El; [|done]. exfalso.
      assert (th_state th = THREAD_BLOCKED) as E by (apply (to_wait _ _ _ Hok); by rewrite El). by rewrite E in Hst.
    - destruct Hok. split; simpl; try done.
      + unfold MINI_OS_TICK_WHEEL; lia.
      + Z.to_euclidean_division_equations; lia.
      + intros _. left. by apply Z.ltb_lt. }
  eexists. split; [done|]. split; [by apply wf_pendsv|]. split.
  - intros Hl. assert (current_level k2) as Hl2 by (eapply level_frame; [exact Hl|exact Hf3|left; done]). exact Hl2.
  - exists th. split; [done|]. destruct Hf3. by split.
Qed.

(** The block of a thread that waits on [w]. *)
Definition waiting_on (th : thread) (w mask obj : Z) : thread :=
  mini_os_sync_wait_ref_push
    (th_set_wait_status (th_set_wait_mask (th_set_wait_list (th_set_state th THREAD_BLOCKED) (Some w)) mask) false) obj.
Lemma waiting_on_fields th w mask obj :
  th_state (waiting_on th w mask obj) = THREAD_BLOCKED /\ th_priority (waiting_on th w mask obj) = th_priority th /\
  th_wait_list (waiting_on th w mask obj) = Some w /\ th_wait_status (waiting_on th w mask obj) = false /\
  th_wheel_slot (waiting_on th w mask obj) = th_wheel_slot th /\ th_round (waiting_on th w mask obj) = th_round th.
Proof. unfold waiting_on, mini_os_sync_wait_ref_push. by destruct (_ >=? _). Qed.

Lemma running_slot k t th : wf k -> threads k !! t = Some th -> is_ready (th_state th) = true -> th_wheel_slot th = MINI_OS_TICK_WHEEL.
Proof.
  intros Hw Ht Hr. destruct (wf_threads _ Hw _ _ Ht). destruct (Z.lt_ge_cases (th_wheel_slot th) MINI_OS_TICK_WHEEL) as [E|]; [|lia].
  apply to_wheel in E. by rewrite E in Hr.
Qed.
Lemma u32_pos x : x ≠ 0 -> -2147483648 <= x < 2147483648 -> 0 < u32 x < 4294967296.
Proof. intros. unfold u32. Z.to_euclidean_division_equations; lia. Qed.

Lemma park_ok k w mask timeout obj :
  wf k -> may_call k -> is_Some (wait_lists k !! w) -> -2147483648 <= timeout < 2147483648 ->
  (mini_os_sync_wait_park k (Some w) mask timeout obj = Some (inl (MINI_ERR_INVAL, k)) /\
   (timeout = 0 \/ current_thread k = None)) \/
  ∃ c th k', current_thread k = Some c /\ timeout ≠ 0 /\ threads k !! c = Some th /\
    mini_os_sync_wait_park k (Some w) mask timeout obj = Some (inr k') /\ wf k' /\ (current_level k -> current_level k') /\
    frame k k' c (if timeout =? MINI_OS_WAIT_FOREVER then waiting_on th w mask obj
                  else parked k (waiting_on th w mask obj) (u32 timeout)) /\
    wait_lists k' = <[w := default [] (wait_lists k !! w) ++ [c]]> (wait_lists k).
Proof.
  intros Hw Hm [l Hwl] Ht. unfold mini_os_sync_wait_park.
  destruct (current_thread k) as [c|] eqn:Ec; [|left; auto].
  destruct (Z.eqb_spec timeout 0) as [->|Hn0]; [left; auto|]. right.
  destruct (wf_current _ Hw _ Ec) as [th Hth]. pose proof (caller_runs _ _ _ Hm Ec Hth) as Hst.
  assert (is_ready (th_state th) = true) as Hr by by rewrite Hst.
  pose proof (running_slot _ _ _ Hw Hth Hr) as Hslot. pose proof (wf_threads _ Hw _ _ Hth) as Hok.
  exists c, th. destruct (detach_spec _ _ _ Hw Hth Hr) as (k1 & -> & Ha & Hf & W1 & _). cbn [mbind option_bind].
  pose proof (frame_lookup _ _ _ _ Hf) as Ht1. rewrite Ht1. cbn [mbind option_bind]. fold (waiting_on th w mask obj).
  set (th2 := waiting_on th w mask obj). destruct (waiting_on_fields th w mask obj) as (F1 & F2 & F3 & F4 & F5 & F6).
  fold th2 in F1, F2, F3, F4, F5, F6.
  destruct (wf_at_wait_link _ _ _ w l (wf_at_set _ _ _ _ th2 Ha)) as (k2 & -> & Hk2 & Ha2); [simpl; by rewrite W1|].
  cbn [mbind option_bind].
  assert (frame k k2 c th2) as Hf2.
  { eapply frame_trans; [exact Hf|]. subst k2. split; try done. simpl. rewrite dom_insert_L, W1.
    assert (w ∈ dom (wait_lists k)) by (by apply elem_of_dom). set_solver. }
  assert (wait_lists k2 = <[w := l ++ [c]]> (wait_lists k)) as W2 by (subst k2; simpl; by rewrite W1).
  assert (∃ k3, (if negb (timeout =? MINI_OS_WAIT_FOREVER)
                 then '(_, k) ← mini_os_wheel_insert k2 (Some c) (u32 timeout); Some k else Some k2) = Some k3 /\ wf k3 /\
    frame k k3 c (if timeout =? MINI_OS_WAIT_FOREVER then th2 else parked k th2 (u32 timeout)) /\
    wait_lists k3 = wait_lists k2) as (k3 & -> & Hw3 & Hf3 & W3).
  { destruct (timeout =? MINI_OS_WAIT_FOREVER); cbn [negb].
    - exists k2. split; [done|]. split; [|done].
      eapply wf_of_wf_at; [exact Ha2|by eapply frame_lookup| |done|].
      + unfold place. rewrite F1, F5, Hslot. done.
      + rewrite (fr_current _ _ _ _ Hf2). destruct Hok. split; rewrite ?F1, ?F2, ?F3, ?F5, ?F6; try done.
        intros _. by right.
    - pose proof (u32_pos _ Hn0 Ht) as Hu.
      destruct (wheel_insert_spec _ _ _ _ _ Ha2 (frame_lookup _ _ _ _ Hf2) Hu) as (k3 & -> & Ha3 & Hf3 & W3 & _).
      exists k3. split; [done|].
      assert (parked k2 th2 (u32 timeout) = parked k th2 (u32 timeout)) as Ep
        by (unfold parked; by rewrite (fr_slot _ _ _ _ Hf2)).
      rewrite Ep in Hf3. pose proof (frame_trans _ _ _ _ _ _ Hf2 Hf3) as Hf4. split; [|done].
      pose proof (Z.mod_pos_bound (s_current_slot k + u32 timeout) 32 ltac:(lia)) as Hs.
      eapply wf_of_wf_at; [exact Ha3|by eapply frame_lookup| |exact F3|].
      + unfold place. simpl. rewrite (fr_slot _ _ _ _ Hf2). by assert ((s_current_slot k + u32 timeout) mod 32 <? MINI_OS_TICK_WHEEL = true) as -> by (apply Z.ltb_lt, Hs).
      + rewrite (fr_current _ _ _ _ Hf4). destruct Hok.
        split; simpl; rewrite ?F2, ?F3; try done; unfold MINI_OS_TICK_WHEEL in *; try lia.
        Z.to_euclidean_division_equations; lia. }
  cbn [mbind option_bind]. eexists. split; [done|]. split; [done|]. split; [done|]. split; [done|].
  split; [by apply wf_pendsv|]. split.
  - intros Hl. assert (current_level k3) as Hl3; [|exact Hl3]. eapply level_frame; [exact Hl|exact Hf3|left].
    split; [done|]. by destruct (timeout =? _).
  - split; [destruct Hf3; by split|]. simpl. by rewrite W3, W2, Hwl.
Qed.

Lemma waiter_spec k w l t : wf k -> wait_lists k !! w = Some l -> t ∈ l ->
  ∃ th, threads k !! t = Some th /\ th_wait_list th = Some w /\ th_state th = THREAD_BLOCKED.
Proof.
  intros Hw Hl Hin. assert (wait_of k t = Some w) as E by (apply (wl_in _ _ (wf_waiting _ Hw)); eauto).
  unfold wait_of in E. destruct (threads k !! t) as [th|] eqn:Et; [|done]. exists th. simpl in E.
  split; [done|]. split; [done|]. apply (to_wait _ _ _ (wf_threads _ Hw _ _ Et)). by rewrite E.
Qed.

Lemma wake_ok k w l t succeeded :
  wf k -> wait_lists k !! w = Some l -> t ∈ l ->
  ∃ k' th, mini_os_sync_wake_thread k t succeeded = Some k' /\ wf k' /\ threads k !! t = Some th /\
    th_wait_list th = Some w /\ frame k k' t (woken th succeeded) /\ wait_lists k' = filter (λ x, x ≠ t) <$> wait_lists k /\
    (∀ p, p ≠ th_priority th -> linked k' (ReadyHead p) = linked k (ReadyHead p)) /\
    linked k' (ReadyHead (th_priority th)) = linked k (ReadyHead (th_priority th)) ++ [t].
Proof.
  intros Hw Hl Hin. destruct (waiter_spec _ _ _ _ Hw Hl Hin) as (th & Ht & Hwl & Hst).
  pose proof (wf_at_of_wf _ _ _ Hw Ht) as Ha. rewrite Hwl in Ha.
  pose proof (wf_threads _ Hw _ _ Ht) as [].
  destruct (wake_spec _ _ _ _ _ succeeded Ha Ht) as (k' & ? & ? & ? & ? & ? & ? & ?); [done..|unfold place; by rewrite Hst|].
  exists k', th. by repeat (split; [done|]).
Qed.

Lemma wake_loop_ok w succeeded nodes k l :
  wf k -> wait_lists k !! w = Some l -> NoDup nodes -> (∀ t, t ∈ nodes -> t ∈ l) ->
  ∃ k', wake_loop k nodes succeeded = Some k' /\ wf k' /\ same_vars k k' /\
    wait_lists k' !! w = Some (filter (λ x, x ∉ nodes) l) /\
    ∀ t, threads k' !! t = if decide (t ∈ nodes) then (λ th, woken th succeeded) <$> threads k !! t else threads k !! t.
Proof.
  intros Hw Hl Hnd. revert k l Hw Hl. induction Hnd as [|t nodes Hnin Hnd IH]; intros k l Hw Hl Hin; cbn [wake_loop].
  { exists k. split; [done|]. split; [done|]. split; [done|]. split; [|intros t; rewrite decide_False; [done|apply not_elem_of_nil]].
    rewrite Hl. f_equal. clear. induction l as [|x l IH]; [done|].
    rewrite filter_cons_True by apply not_elem_of_nil. by f_equal. }
  destruct (wake_ok k w l t succeeded Hw Hl) as (k1 & th & -> & Hw1 & Ht & _ & Hf & W1 & _); [apply Hin, elem_of_cons; auto|].
  cbn [mbind option_bind].
  destruct (IH k1 (filter (λ x, x ≠ t) l) Hw1) as (k' & -> & Hw' & Hv & Hl' & Hthr).
  { by rewrite W1, lookup_fmap, Hl. }
  { intros t' Ht'. rewrite list_elem_of_filter. split; [congruence|]. apply Hin, elem_of_cons; auto. }
  exists k'. split; [done|]. split; [done|]. split; [by etrans; [eapply frame_same|]|]. split.
  - rewrite Hl'. f_equal. clear. induction l as [|x l IH]; [done|].
    destruct (decide (x = t)) as [->|Hx].
    + rewrite (filter_cons_False _ t) by auto. rewrite (filter_cons_False _ t) by (rewrite not_elem_of_cons; naive_solver). done.
    + rewrite (filter_cons_True (λ x, x ≠ t)) by done. destruct (decide (x ∈ nodes)).
      * rewrite !filter_cons_False by (rewrite ?not_elem_of_cons; naive_solver). done.
      * rewrite !filter_cons_True by (rewrite ?not_elem_of_cons; naive_solver). by f_equal.
  - intros t'. rewrite Hthr, (fr_threads _ _ _ _ Hf). destruct (decide (t' = t)) as [->|].
    + rewrite decide_False, decide_True, lookup_insert_eq, Ht by (done || apply elem_of_cons; auto). done.
    + rewrite lookup_insert_ne by done. destruct (decide (t' ∈ nodes));
        [rewrite decide_True by (apply elem_of_cons; auto)|rewrite decide_False by (rewrite not_elem_of_cons; auto)]; done.
Qed.

Lemma woken_priority th s : th_priority (woken th s) = th_priority th.
Proof. unfold woken. by destruct (_ <? _). Qed.

Lemma priority_ok k t p :
  wf k -> is_Some (threads k !! t) -> 0 <= p ->
  ∃ rc k', mini_os_thread_priority_apply k (Some t) p = Some (rc, k') /\ wf k' /\
    (current_thread k ≠ Some t -> current_level k -> current_level k') /\
    (k' = k /\ (MINI_OS_PRIORITY <= p \/ th_priority <$> threads k !! t = Some p) \/
     ∃ th, threads k !! t = Some th /\ frame k k' t (th_set_priority th p) /\ wait_lists k' = wait_lists k).
Proof.
  intros Hw [th Ht] Hp. unfold mini_os_thread_priority_apply.
  destruct (Z.geb_spec p MINI_OS_PRIORITY); [by eexists _, k; auto 10|]. rewrite Ht. simpl.
  destruct (Z.eqb_spec p (th_priority th)) as [->|]; [by eexists _, k; auto 10|].
  pose proof (wf_threads _ Hw _ _ Ht) as Hok.
  assert (∀ k', frame k k' t (th_set_priority th p) -> current_thread k ≠ Some t -> current_level k -> current_level k') as Hlev.
  { intros k' Hf Hc Hl. eapply (level_frame _ _ _ th); [exact Hl|exact Hf|by right]. }
  destruct (is_ready (th_state th)) eqn:Hr.
  - destruct (detach_spec _ _ _ Hw Ht Hr) as (k1 & -> & Ha & Hf & Hwl1 & _). cbn [mbind option_bind].
    destruct (add_spec _ _ _ _ (wf_at_set _ _ _ _ (th_set_state (th_set_priority th p) THREAD_SUSPENDED) Ha)
      (lookup_insert_eq (threads k1) t _)) as (k2 & -> & Ha2 & Hf2 & Hwl2 & _); [done|simpl; lia|]. cbn [mbind option_bind].
    rewrite (frame_lookup _ _ _ _ Hf2). cbn [mbind option_bind].
    pose proof (running_slot _ _ _ Hw Ht Hr) as Hslot.
    set (k3 := if bool_decide _ then _ else _).
    assert (frame k k3 t (th_set_priority th p)) as Hf3.
    { pose proof (frame_trans _ _ _ _ _ _ Hf (frame_trans _ _ _ _ _ _ (frame_set _ _ _) Hf2)) as Hf3. subst k3.
      destruct (bool_decide_reflect (th_state th = THREAD_RUNNING)) as [Er|Er].
      - destruct Hf3 as [F1 F2 F3 F4 F5 F6]. split; try done. simpl. rewrite F1, insert_insert_eq. f_equal.
        unfold th_set_priority, th_set_state. simpl. by rewrite Er.
      - assert (th_state th = THREAD_READY) as Er' by by destruct (th_state th).
        assert (th_set_priority th p = th_set_state (th_set_state (th_set_priority th p) THREAD_SUSPENDED) THREAD_READY) as ->;
          [|exact Hf3]. unfold th_set_priority, th_set_state. simpl. by rewrite Er'. }
    assert (wf_at k3 t (Some (ReadyHead p)) (th_wait_list th)) as Ha3.
    { subst k3. assert (th_wait_list th = None) as ->.
      { destruct (th_wait_list th) eqn:El; [|done].
        assert (th_state th = THREAD_BLOCKED) as E by (apply (to_wait _ _ _ Hok); by rewrite El). by rewrite E in Hr. }
      destruct (bool_decide _); [by apply wf_at_set|exact Ha2]. }
    eexists _, _. split; [done|]. split; [|split].
    + eapply wf_of_wf_at; [exact Ha3|by eapply frame_lookup|unfold place; simpl; by rewrite Hr|done|].
      rewrite (fr_current _ _ _ _ Hf3). destruct Hok. by split.
    + by apply Hlev.
    + right. exists th. split; [done|]. split; [done|]. subst k3. destruct (bool_decide _); simpl; by rewrite Hwl2.
  - eexists _, _. split; [done|]. split; [|split].
    + eapply wf_set_thread; [done..|unfold place; simpl; by rewrite Hr|done|]. destruct Hok. by split.
    + apply Hlev, frame_set.
    + right. exists th. split; [done|]. split; [apply frame_set|done].
Qed.

Lemma wf_wait_list_init k w : wf k -> wait_lists k !! w = None -> wf (wait_list_init k w).
Proof.
  intros [H1 [H2 H2'] H3 H4 H5 H6] Hn. split; try done; [by destruct H1|]. split; simpl.
  - intros t w'. change (wait_of _ t) with (wait_of k t). rewrite <- H2. destruct (decide (w' = w)) as [->|]; [|by setoid_rewrite lookup_insert_ne].
    rewrite lookup_insert_eq, Hn. split; [intros (? & [= <-] & H); by apply not_elem_of_nil in H|naive_solver].
  - intros w' l. destruct (decide (w' = w)) as [->|]; [|rewrite lookup_insert_ne by done; apply H2'].
    rewrite lookup_insert_eq. intros [= <-]. constructor.
Qed.
Lemma wf_wait_list_drop k w : wf k -> wait_lists k !! w = Some [] -> wf (wait_list_drop k w).
Proof.
  intros [H1 [H2 H2'] H3 H4 H5 H6] Hn. split; try done; [by destruct H1|]. split; simpl.
  - intros t w'. change (wait_of _ t) with (wait_of k t). rewrite <- H2. destruct (decide (w' = w)) as [->|]; [|by setoid_rewrite lookup_delete_ne].
    rewrite lookup_delete_eq, Hn. split; [naive_solver|]. intros (? & [= <-] & H). by apply not_elem_of_nil in H.
  - intros w' l. destruct (decide (w' = w)) as [->|]; [by rewrite lookup_delete_eq|rewrite lookup_delete_ne by done; apply H2'].
Qed.

Section total.
Context (time_slice long_time : bool).

Lemma kernel_step_ok k op :
  wf k -> current_level k -> op_ok k op ->
  ∃ k', kernel_step time_slice long_time k op = Some k' /\ wf k' /\ current_level k'.
Proof.
  intros Hw Hl Hok. destruct op as [t p ss st|w|w| | | |n|w m tm o| |w s|w s|t p]; cbn [kernel_step op_ok] in *.
  - destruct Hok. destruct (create_ok k true true t p ss st) as (r & k' & -> & ? & ? & _); [done..|]. simpl. eauto 10.
  - eexists. split; [done|]. split; [by apply wf_wait_list_init|exact Hl].
  - eexists. split; [done|]. split; [by apply wf_wait_list_drop|exact Hl].
  - destruct (systick_spec time_slice long_time k Hw) as (k' & -> & Hw' & Hc & Hp & _ & _ & _ & Ht). eexists. split; [done|].
    split; [done|]. eapply level_threads; [exact Hl|done|done|]. intros t th' E. specialize (Ht t). rewrite E in Ht.
    destruct (threads k !! t) as [th|]; [|done]. apply (inj Some) in Ht. exists th. split; [done|].
    apply (core_fields th' (ticked ((s_current_slot k + 1) mod 32) th)) in Ht as (_ & -> & _). unfold ticked.
    repeat case_match; rewrite ?woken_priority; done.
  - destruct (switch_spec (k_set_pendsv k false)) as (rc & k' & E & ? & ? & _); [by apply wf_pendsv|exact Hl|].
    unfold pendsv_handler. rewrite E. simpl. eauto.
  - eexists. split; [done|]. split; [by apply wf_pendsv|exact Hl].
  - destruct Hok as [Hm Hn]. unfold mini_os_thread_delay_tick. destruct (Z.eqb_spec n 0); [simpl; eauto|].
    destruct (delay_ok k n Hw Hm) as (k' & -> & ? & ? & _); [unfold is_u32 in Hn; lia|]. simpl. eauto 10.
  - destruct Hok as (Hm & Hs & Ht).
    destruct (park_ok k w m tm o Hw Hm Hs Ht) as [[-> _]|(c & th & k' & _ & _ & _ & -> & ? & ? & _)]; simpl; eauto 10.
  - destruct (current_thread k) as [c|] eqn:Ec; [|eauto]. unfold sync_wait_resume.
    destruct (wf_current _ Hw _ Ec) as [th Ht]. rewrite Ht. simpl. eexists. split; [done|].
    split; [|eapply level_frame; [exact Hl|apply frame_set|by left]].
    eapply wf_set_thread; [done..|]. destruct (wf_threads _ Hw _ _ Ht). by split.
  - destruct Hok as [l El]. unfold wake_oldest. rewrite El. simpl. destruct l as [|t l]; [simpl; eauto|].
    destruct (wake_ok k w (t :: l) t s Hw El) as (k' & th & -> & ? & Ht & _ & Hf & _); [apply elem_of_cons; auto|].
    simpl. eexists. split; [done|]. split; [done|]. eapply level_frame; [done..|left]. by rewrite woken_priority.
  - destruct Hok as [l El]. unfold mini_os_sync_wake_all. rewrite El. simpl.
    destruct (wake_loop_ok w s l k l Hw El) as (k' & -> & ? & [Hc Hp _ _ _] & _ & Ht);
      [apply (wl_nodup _ _ (wf_waiting _ Hw) _ _ El)|done|].
    simpl. eexists. split; [done|]. split; [done|]. eapply level_threads; [exact Hl|done..|].
    intros t th' E. rewrite Ht in E. destruct (decide (t ∈ l)); [|eauto].
    destruct (threads k !! t) as [th|]; [|done]. injection E as <-. exists th. by rewrite woken_priority.
  - destruct Hok as (? & ? & ?). destruct (priority_ok k t p) as (rc & k' & -> & ? & ? & _); [done..|]. simpl. eauto 10.
Qed.

Lemma run_ops_ok k ops :
  wf k -> current_level k -> ops_ok time_slice long_time k ops ->
  ∃ k', run_ops time_slice long_time k ops = Some k' /\ wf k' /\ current_level k'.
Proof.
  revert k. induction ops as [|op ops IH]; intros k Hw Hl; simpl; [eauto|]. intros [Hop Hops].
  destruct (kernel_step_ok k op Hw Hl Hop) as (k1 & E & Hw1 & Hl1). rewrite E in Hops |- *. simpl. eauto.
Qed.

Lemma boot_wf : wf boot_kernel.
Proof.
  split; try done.
  - split; [|constructor|done]. intros t h. split; [|done]. intros H. by apply not_elem_of_nil in H.
  - split; [|done]. intros t w. split; [|done]. by intros (? & ? & _).
  - split; [split; simpl; lia|]. intros. simpl. by rewrite Z.bits_0.
Qed.
End total.

(** ** Parked threads *)

(** The operation wakes no thread that waits on [wl]. *)
Definition quiet (wl : option Z) (op : kernel_op) : Prop :=
  match op, wl with KWake w _, Some w' | KWakeAll w _, Some w' => w ≠ w' | _, _ => True end.

Record same_wait (th th' : thread) : Prop := {
  sw_state : th_state th' = th_state th;
  sw_round : th_round th' = th_round th;
  sw_slot : th_wheel_slot th' = th_wheel_slot th;
  sw_list : th_wait_list th' = th_wait_list th;
  sw_status : th_wait_status th' = th_wait_status th;
  sw_mask : th_wait_mask th' = th_wait_mask th
}.

(** The clock stands still. *)
Definition same_clock (k k' : kernel) : Prop := s_current_slot k' = s_current_slot k /\ g_global_tick k' = g_global_tick k.
Lemma untouched_frame k k' t th' c th :
  frame k k' t th' -> t ≠ c -> threads k !! c = Some th ->
  ∃ th', threads k' !! c = Some th' /\ same_wait th th' /\ same_clock k k'.
Proof.
  intros [F1 _ _ F4 F5 _] Hne Ht. exists th. rewrite F1, lookup_insert_ne by done. by repeat split.
Qed.

Section parked.
Context (time_slice long_time : bool).

Lemma step_untouched k op k' c th :
  wf k -> current_level k -> op_ok k op -> op ≠ KTick -> threads k !! c = Some th -> th_state th = THREAD_BLOCKED ->
  quiet (th_wait_list th) op -> kernel_step time_slice long_time k op = Some k' ->
  ∃ th', threads k' !! c = Some th' /\ same_wait th th' /\ same_clock k k'.
Proof.
  intros Hw Hl Hok Hnt Ht Hst Hq E.
  assert (threads k' !! c = Some th -> same_clock k k' ->
    ∃ th', threads k' !! c = Some th' /\ same_wait th th' /\ same_clock k k') as Hsame.
  { intros ? ?. exists th. split; [done|]. split; [by split|done]. }
  assert (same_clock k k) as Hrefl by done.
  assert (may_call k -> current_thread k ≠ Some c) as Hcur.
  { intros Hm Hc. pose proof (caller_runs _ _ _ Hm Hc Ht). congruence. }
  destruct op as [t p ss st|w|w| | | |n|w m tm o| |w s|w s|t p]; cbn [kernel_step op_ok quiet] in *.
  - destruct Hok as [Hf Hp]. destruct (create_ok k true true t p ss st) as (r & k1 & Ec & _ & _ & Hfr); [done..|].
    rewrite Ec in E. injection E as <-. destruct Hfr as [->|(th' & Hfr & _)]; [auto|].
    eapply untouched_frame; [exact Hfr|congruence|done].
  - injection E as <-. by apply Hsame.
  - injection E as <-. by apply Hsame.
  - done.
  - destruct (switch_spec (k_set_pendsv k false)) as (rc & k1 & Es & _ & _ & Hs & Hs' & _ & _ & _ & Hr); [by apply wf_pendsv|exact Hl|].
    unfold pendsv_handler in E. rewrite Es in E. injection E as <-. apply Hsame; [|by split].
    assert (demoted th = th) as Hd by (unfold demoted; by rewrite Hst).
    destruct (_ =? _).
    + destruct Hr as [_ ->]. change (threads (k_set_pendsv k false)) with (threads k). rewrite Ht. simpl. by rewrite Hd.
    + destruct Hr as (_ & _ & n & _ & Hin & _ & ->). change (threads (k_set_pendsv k false)) with (threads k). rewrite Ht.
      simpl. unfold switched. destruct (Z.eqb_spec c n) as [->|]; [|by rewrite Hd].
      apply (in_ready k) in Hin as (th' & Ht' & Hr' & _); [|done]. simplify_eq. by rewrite Hst in Hr'.
  - injection E as <-. by apply Hsame.
  - destruct Hok as [Hm Hn]. unfold mini_os_thread_delay_tick in E. destruct (Z.eqb_spec n 0); [injection E as <-; auto|].
    destruct (delay_ok k n Hw Hm) as (k1 & Ed & _ & _ & Hfr); [unfold is_u32 in Hn; lia|].
    rewrite Ed in E. injection E as <-. specialize (Hcur Hm).
    destruct (current_thread k) as [c'|]; [|subst; auto]. destruct Hfr as (th' & _ & Hfr).
    eapply untouched_frame; [exact Hfr|congruence|done].
  - destruct Hok as (Hm & Hs & Htm). specialize (Hcur Hm).
    destruct (park_ok k w m tm o Hw Hm Hs Htm) as [[Ep _]|(c' & th' & k1 & Hc' & _ & _ & Ep & _ & _ & Hfr & _)];
      rewrite Ep in E; injection E as <-; [auto|].
    eapply untouched_frame; [exact Hfr|congruence|done].
  - specialize (Hcur Hok). destruct (current_thread k) as [c'|] eqn:Ec; [|injection E as <-; auto].
    destruct (wf_current _ Hw _ Ec) as [th' Ht']. unfold sync_wait_resume in E. rewrite Ht' in E. injection E as <-.
    eapply untouched_frame; [apply frame_set|congruence|done].
  - destruct Hok as [l El]. unfold wake_oldest in E. rewrite El in E. simpl in E.
    destruct l as [|t l]; [injection E as <-; auto|].
    destruct (wake_ok k w (t :: l) t s Hw El) as (k1 & th' & Ew & _ & Ht' & Hwl & Hfr & _); [apply elem_of_cons; auto|].
    rewrite Ew in E. injection E as <-. eapply untouched_frame; [exact Hfr| |done].
    intros ->. simplify_eq. by rewrite Hwl in Hq.
  - destruct Hok as [l El]. unfold mini_os_sync_wake_all in E. rewrite El in E. simpl in E.
    destruct (wake_loop_ok w s l k l Hw El) as (k1 & Ew & _ & Hv & _ & Hthr);
      [apply (wl_nodup _ _ (wf_waiting _ Hw) _ _ El)|done|].
    rewrite Ew in E. injection E as <-. apply Hsame; [|split; apply Hv]. rewrite Hthr, decide_False; [done|].
    intros Hin. destruct (waiter_spec _ _ _ _ Hw El Hin) as (th' & Ht' & Hwl & _). simplify_eq. by rewrite Hwl in Hq.
  - destruct Hok as (Hs & Hp & Hc). destruct (priority_ok k t p) as (rc & k1 & Ep & _ & _ & Hfr); [done..|].
    rewrite Ep in E. injection E as <-. destruct Hfr as [[-> _]|(th0 & Ht0 & Hfr & _)]; [auto|].
    destruct (decide (t = c)) as [->|]; [|by eapply untouched_frame]. assert (th0 = th) as -> by congruence.
    exists (th_set_priority th p). split; [by eapply frame_lookup|]. split; [by split|]. split; apply Hfr.
Qed.

(** [c] is parked for [m] more ticks and waits on [wl]. *)
Definition parked_for (k : kernel) (c m : Z) (wl : option Z) : Prop :=
  ∃ th, threads k !! c = Some th /\ th_state th = THREAD_BLOCKED /\ th_wait_list th = wl /\
        th_wheel_slot th < MINI_OS_TICK_WHEEL /\
        (th_wheel_slot th - s_current_slot k - 1) mod 32 + 1 + 32 * th_round th = m.

Lemma tick_parked k k' c m wl :
  wf k -> parked_for k c m wl -> mini_os_systick_handler time_slice long_time k = Some k' ->
  if m =? 1
  then ∃ th, threads k' !! c = Some th /\ th_state th = THREAD_READY /\ th_wait_list th = None /\
             (wl ≠ None -> th_wait_status th = false)
  else parked_for k' c (m - 1) wl.
Proof.
  intros Hw (th & Ht & Hst & Hwl & Hs & Hm) E.
  destruct (systick_spec time_slice long_time k Hw) as (k1 & E1 & Hw1 & _ & _ & Hslot & _ & _ & Hthr).
  rewrite E in E1. injection E1 as <-. specialize (Hthr c). rewrite Ht in Hthr.
  destruct (threads k' !! c) as [th'|] eqn:Ht'; [|done]. apply (inj Some) in Hthr.
  apply (core_fields th' (ticked ((s_current_slot k + 1) mod 32) th)) in Hthr as (F1 & _ & F2 & F3 & F4 & F5).
  pose proof (wf_threads _ Hw _ _ Ht) as [_ Hs' Hr' _ _ _ _]. pose proof (wf_slot _ Hw) as Hc.
  unfold MINI_OS_TICK_WHEEL in *. unfold ticked in *.
  destruct (Z.eqb_spec (th_wheel_slot th) ((s_current_slot k + 1) mod 32)) as [Ec|Ec]; cbn [negb] in *.
  - destruct (Z.gtb_spec (th_round th) 0).
    + destruct (Z.eqb_spec m 1); [exfalso; Z.to_euclidean_division_equations; lia|].
      exists th'. rewrite Ht', F1, F2, F3, F4, Hslot. simpl. repeat (split; [done|]).
      Z.to_euclidean_division_equations; lia.
    + destruct (Z.eqb_spec m 1); [|exfalso; Z.to_euclidean_division_equations; lia].
      exists th'. split; [done|]. rewrite F1, F4, F5, <- Hwl. destruct (th_wait_list th) eqn:El; by repeat split.
  - destruct (Z.eqb_spec m 1); [exfalso; Z.to_euclidean_division_equations; lia|].
    exists th'. rewrite Ht', F1, F2, F3, F4, Hslot. repeat (split; [done|]).
    Z.to_euclidean_division_equations; lia.
Qed.

Fixpoint ticks (ops : list kernel_op) : Z :=
  match ops with [] => 0 | KTick :: ops => 1 + ticks ops | _ :: ops => ticks ops end.
Lemma ticks_nonneg ops : 0 <= ticks ops.
Proof. induction ops as [|[] ops IH]; simpl; lia. Qed.

Lemma parked_run k c m wl ops k' :
  wf k -> current_level k -> ops_ok time_slice long_time k ops -> Forall (quiet wl) ops ->
  parked_for k c m wl -> ticks ops < m -> run_ops time_slice long_time k ops = Some k' ->
  wf k' /\ parked_for k' c (m - ticks ops) wl.
Proof.
  revert k m. induction ops as [|op ops IH]; intros k m Hw Hl; simpl.
  { intros _ _ Hp _ [= <-]. by rewrite Z.sub_0_r. }
  intros [Hop Hops] Hq Hp Hm E. apply Forall_cons_1 in Hq as [Hq1 Hq].
  destruct (kernel_step_ok time_slice long_time k op Hw Hl Hop) as (k1 & E1 & Hw1 & Hl1).
  rewrite E1 in E, Hops. simpl in E. pose proof (ticks_nonneg ops).
  assert ({op = KTick} + {op ≠ KTick}) as [->|Hne] by (destruct op; auto; right; done).
  - pose proof (tick_parked _ _ _ _ _ Hw Hp E1) as Hp1. destruct (Z.eqb_spec m 1); [lia|].
    destruct (IH k1 (m - 1)) as [? Hp']; [done..|lia|done|]. split; [done|].
    by replace (m - (1 + ticks ops)) with (m - 1 - ticks ops) by lia.
  - destruct Hp as (th & Ht & Hst & Hwl & Hs & Hrem).
    destruct (step_untouched _ _ _ _ _ Hw Hl Hop Hne Ht Hst ltac:(by rewrite Hwl) E1) as (th' & Ht' & [S1 S2 S3 S4 S5 _] & Hslot & _).
    assert (ticks ops < m /\ m - ticks ops = m - match op with KTick => 1 + ticks ops | _ => ticks ops end) as [Hm' <-]
      by (by destruct op).
    apply (IH k1 m); [done..| |done|done]. exists th'. by rewrite S1, S2, S3, S4, Hslot.
Qed.

(** When the wheel wakes a thread. *)
Definition due (k : kernel) (th : thread) : option Z :=
  if th_wheel_slot th <? MINI_OS_TICK_WHEEL
  then Some (u32 (g_global_tick k + ((th_wheel_slot th - s_current_slot k - 1) mod 32 + 1 + 32 * th_round th))) else None.
(** A thread that goes on waiting does so for the same, and is woken at the same time. *)
Definition keeps_due (k k' : kernel) : Prop :=
  ∀ t th th', threads k !! t = Some th -> threads k' !! t = Some th' -> th_wait_list th ≠ None ->
    th_wait_list th' = th_wait_list th -> due k' th' = due k th /\ th_wait_mask th' = th_wait_mask th.

Lemma due_same k k' th th' : same_clock k k' -> same_wait th th' -> due k' th' = due k th.
Proof. intros [E1 E2] [_ E3 E4 _ _ _]. unfold due. by rewrite E1, E2, E3, E4. Qed.
Lemma step_due k op k' :
  wf k -> current_level k -> op_ok k op -> (∀ wl, quiet wl op) -> kernel_step time_slice long_time k op = Some k' ->
  keeps_due k k'.
Proof.
  intros Hw Hl Hok Hq E t th th' Ht Ht' Hwl Hsame.
  pose proof (to_wait _ _ _ (wf_threads _ Hw _ _ Ht) Hwl) as Hst.
  assert ({op = KTick} + {op ≠ KTick}) as [->|Hne] by (destruct op; auto; right; done).
  2:{ destruct (step_untouched _ _ _ _ _ Hw Hl Hok Hne Ht Hst (Hq _) E) as (th2 & Ht2 & Hs & Hc).
      assert (th2 = th') as -> by congruence. split; [by apply due_same|apply Hs]. }
  destruct (systick_spec time_slice long_time k Hw) as (k1 & E1 & _ & _ & _ & Hslot & Htick & _ & Hthr).
  cbn [kernel_step] in E. assert (k1 = k') as -> by congruence. split.
  2:{ specialize (Hthr t). rewrite Ht, Ht' in Hthr. apply (inj Some), (f_equal th_wait_mask) in Hthr. simpl in Hthr. rewrite Hthr.
      unfold ticked, woken. by repeat case_match. }
  unfold due at 2.
  destruct (Z.ltb_spec (th_wheel_slot th) MINI_OS_TICK_WHEEL) as [Hlt|Hge].
  - assert (parked_for k t ((th_wheel_slot th - s_current_slot k - 1) mod 32 + 1 + 32 * th_round th) (th_wait_list th)) as Hp
      by by exists th.
    apply (tick_parked _ k') in Hp; [|done..]. destruct (_ =? 1).
    { destruct Hp as (th2 & Ht2 & _ & Hn & _). congruence. }
    destruct Hp as (th2 & Ht2 & _ & _ & Hlt2 & Hm). assert (th2 = th') as -> by congruence.
    unfold due. destruct (Z.ltb_spec (th_wheel_slot th') MINI_OS_TICK_WHEEL); [|lia]. rewrite Hm, Htick.
    f_equal. unfold u32. rewrite Zplus_mod_idemp_l. f_equal. lia.
  - specialize (Hthr t). rewrite Ht, Ht' in Hthr. apply (inj Some) in Hthr.
    apply (core_fields th' (ticked ((s_current_slot k + 1) mod 32) th)) in Hthr as (_ & _ & _ & F3 & _).
    pose proof (Z.mod_pos_bound (s_current_slot k + 1) 32 ltac:(lia)). unfold MINI_OS_TICK_WHEEL in *.
    unfold due, ticked in *. destruct (Z.eqb_spec (th_wheel_slot th) ((s_current_slot k + 1) mod 32)); [lia|]. cbn [negb] in F3.
    rewrite F3. unfold MINI_OS_TICK_WHEEL. destruct (Z.ltb_spec (th_wheel_slot th) 32); [lia|done].
Qed.
End parked.

Lemma parked_start k k1 c th n wl :
  wf k -> frame k k1 c (parked k th n) -> th_wait_list th = wl -> 0 < n -> parked_for k1 c n wl.
Proof.
  intros Hw Hf Hwl Hn. pose proof (wf_slot _ Hw). exists (parked k th n). rewrite (fr_slot _ _ _ _ Hf).
  split; [by eapply frame_lookup|]. split; [done|]. split; [done|]. unfold parked, MINI_OS_TICK_WHEEL in *. simpl.
  split; Z.to_euclidean_division_equations; lia.
Qed.

(** Repeated switches with nothing in between, and the threads they run. *)
Fixpoint switches (n : nat) (k : kernel) : option (list Z * kernel) :=
  match n with
  | O => Some ([], k)
  | S n =>
      '(_, k) ← pendsv_handler k; c ← current_thread k;
      '(l, k) ← switches n k; Some (c :: l, k)
  end.

Lemma next_of_split l1 x l2 :
  NoDup (l1 ++ x :: l2) -> next_of (l1 ++ x :: l2) (Some x) = head (l2 ++ l1 ++ x :: l2).
Proof.
  intros Hnd. unfold next_of. rewrite bool_decide_true by (apply elem_of_app; right; apply elem_of_cons; auto).
  rewrite after_spec; [done|]. apply list.NoDup_app in Hnd as (_ & H & _). intros Hin. apply (H x Hin), elem_of_cons. auto.
Qed.
(** The rotation is at some point of the level. *)
Lemma next_of_point l c : l ≠ [] -> NoDup l -> ∃ l1 l2, l = l1 ++ l2 /\ l2 ≠ [] /\ next_of l c = head l2.
Proof.
  intros Hne Hnd. destruct c as [c|]; [|by exists [], l].
  destruct (decide (c ∈ l)) as [Hin|Hnin].
  - apply list_elem_of_split in Hin as (l1 & l2 & ->). rewrite next_of_split by done. destruct l2 as [|y l2].
    + exists [], (l1 ++ [c]). split; [done|]. split; [|done]. by destruct l1.
    + exists (l1 ++ [c]), (y :: l2). by rewrite <- app_assoc.
  - exists [], l. split; [done|]. split; [done|]. unfold next_of. by rewrite bool_decide_false.
Qed.

Lemma switch_one k l :
  wf k -> current_level k -> mini_os_get_highest_priority k < MINI_OS_PRIORITY ->
  linked k (ReadyHead (mini_os_get_highest_priority k)) = l ->
  ∃ k' n, pendsv_handler k = Some (MINI_OK, k') /\ next_of l (current_thread k) = Some n /\ current_thread k' = Some n /\
    wf k' /\ current_level k' /\ mini_os_get_highest_priority k' = mini_os_get_highest_priority k /\
    linked k' = linked k /\ n ∈ l /\ ∀ t, threads k' !! t = switched n t <$> threads k !! t.
Proof.
  intros Hw Hl Hp El. unfold pendsv_handler.
  destruct (switch_spec (k_set_pendsv k false)) as (rc & k' & -> & Hw' & Hl' & _ & _ & _ & L & G & Hr); [by apply wf_pendsv|exact Hl|].
  change (mini_os_get_highest_priority (k_set_pendsv k false)) with (mini_os_get_highest_priority k) in Hr.
  destruct (Z.eqb_spec (mini_os_get_highest_priority k) MINI_OS_PRIORITY); [lia|].
  destruct Hr as (-> & _ & n' & Hn & Hin & Hc & Ht). exists k', n'. split; [done|].
  change (linked (k_set_pendsv k false)) with (linked k) in *. rewrite El in Hn, Hin.
  repeat (split; [done|]). split; [unfold mini_os_get_highest_priority; by rewrite G|]. by repeat (split; [done|]).
Qed.

Lemma switches_run l l1 l2 l3 k :
  wf k -> current_level k -> mini_os_get_highest_priority k < MINI_OS_PRIORITY ->
  linked k (ReadyHead (mini_os_get_highest_priority k)) = l -> l = l1 ++ l2 ++ l3 ->
  (l2 ≠ [] -> next_of l (current_thread k) = head l2) ->
  ∃ k', switches (length l2) k = Some (l2, k') /\ wf k' /\ current_level k' /\
    mini_os_get_highest_priority k' = mini_os_get_highest_priority k /\ linked k' = linked k /\
    (l2 ≠ [] -> next_of l (current_thread k') = head (l3 ++ l)).
Proof.
  revert k l1. induction l2 as [|x l2 IH]; intros k l1 Hw Hl Hp El Hsplit Hn; [by exists k|].
  destruct (switch_one k l Hw Hl Hp El) as (k1 & n & E & Hn' & Hc & Hw1 & Hl1 & Hp1 & L1 & _).
  rewrite Hn in Hn' by done. injection Hn' as <-.
  assert (NoDup l) as Hnd by (rewrite <- El; apply (pl_nodup _ _ (wf_placed _ Hw))).
  assert (next_of l (current_thread k1) = head ((l2 ++ l3) ++ l)) as Hnext.
  { rewrite Hc, Hsplit. rewrite Hsplit in Hnd. exact (next_of_split l1 x (l2 ++ l3) Hnd). }
  destruct (IH k1 (l1 ++ [x])) as (k' & E' & Hw' & Hl' & Hp' & L' & Hn').
  - done. - done. - by rewrite Hp1. - by rewrite Hp1, L1. - by rewrite <- app_assoc.
  - intros Hne. rewrite Hnext. by destruct l2.
  - exists k'. cbn [length switches]. rewrite E. cbn [mbind option_bind]. rewrite Hc. cbn [mbind option_bind].
    rewrite E'. split; [done|]. split; [done|]. split; [done|]. split; [congruence|]. split; [congruence|]. intros _.
    destruct l2 as [|y l2]; [|by apply Hn']. simpl in E'. injection E' as <-. exact Hnext.
Qed.

Lemma switches_app m n k l k1 l' k2 :
  switches m k = Some (l, k1) -> switches n k1 = Some (l', k2) -> switches (m + n) k = Some (l ++ l', k2).
Proof.
  revert k l. induction m as [|m IH]; simpl; intros k l; [by intros [= <- <-]|].
  destruct (pendsv_handler k) as [[rc k0]|]; [|done]. simpl. destruct (current_thread k0) as [c|]; [|done]. simpl.
  destruct (switches m k0) as [[l0 k3]|] eqn:E; [|done]. simpl. intros [= <- <-] E2. by rewrite (IH _ _ E E2).
Qed.

(** ** The theorems *)

(** C9: Under every sequence of ticks, context switches, thread creations, delays, waits
    with and without time limit, wake-ups and priority changes of other threads, every step
    of the kernel succeeds, the lists, the bitmap and the control blocks agree, and no thread
    is lost: one that can run is in the ready list of its priority, a blocked one is in the
    time wheel or in a wait list, and every other is in no list. *)
Theorem kernel_no_thread_lost time_slice long_time ops :
  ops_ok time_slice long_time boot_kernel ops ->
  ∃ k, run_ops time_slice long_time boot_kernel ops = Some k /\ wf k /\ current_level k /\
    ∀ t th, threads k !! t = Some th ->
      match th_state th with
      | THREAD_READY => t ∈ linked k (ReadyHead (th_priority th))
      | THREAD_RUNNING => t ∈ linked k (ReadyHead (th_priority th)) /\ current_thread k = Some t
      | THREAD_BLOCKED => (∃ s, t ∈ linked k (WheelHead s)) \/ ∃ w l, wait_lists k !! w = Some l /\ t ∈ l
      | _ => ∀ h, t ∉ linked k h
      end.
Proof.
  intros Hok. destruct (run_ops_ok time_slice long_time boot_kernel ops boot_wf) as (k & E & Hw & Hl); [done|done|].
  exists k. split; [done|]. split; [done|]. split; [done|]. intros t th Ht.
  pose proof (wf_threads _ Hw _ _ Ht) as Hto.
  assert (is_ready (th_state th) = true -> t ∈ linked k (ReadyHead (th_priority th))) as Hready
    by (intros Hr; apply (in_ready _ _ _ Hw); eauto).
  assert (is_ready (th_state th) = false -> th_state th ≠ THREAD_BLOCKED -> ∀ h, t ∉ linked k h) as Hnone.
  { intros Hr Hb h Hin. apply (pl_in _ _ (wf_placed _ Hw)) in Hin. unfold place_of in Hin. rewrite Ht in Hin. simpl in Hin.
    unfold place in Hin. rewrite Hr in Hin. destruct (Z.ltb_spec (th_wheel_slot th) MINI_OS_TICK_WHEEL); [|done].
    by apply Hb, (to_wheel _ _ _ Hto). }
  destruct (th_state th) eqn:Est; try (by apply Hready); try (by apply Hnone).
  - split; [by apply Hready|by apply (to_running _ _ _ Hto)].
  - destruct (to_blocked _ _ _ Hto Est) as [Hs|Hwl].
    + left. eexists. by apply (wheel_linked _ _ _ Hw Ht).
    + right. destruct (th_wait_list th) as [w|] eqn:El; [|done]. exists w. apply (wl_in _ _ (wf_waiting _ Hw)).
      unfold wait_of. by rewrite Ht.
Qed.

Definition sample_ops : list kernel_op :=
  [KObject 100; KCreate 1 5 512 4096; KCreate 2 5 512 8192; KCreate 3 31 512 16384; KSwitch; KTick; KYield; KSwitch;
   KPark 100 0 40 7; KSwitch; KDelay 2; KSwitch; KTick; KTick; KSwitch; KWake 100 true; KPriority 3 30; KSwitch; KTick].

Lemma kernel_no_thread_lost_witness :
  ∃ k, run_ops true true boot_kernel sample_ops = Some k /\ current_thread k = Some 2.
Proof.
  destruct (kernel_no_thread_lost true true sample_ops) as (k & E & _).
  - unfold sample_ops. vm_compute. repeat split; try discriminate; try (eexists; reflexivity).
  - exists k. split; [exact E|]. vm_compute in E. injection E as <-. reflexivity.
Defined.

(** A context switch runs a thread of the highest priority there is, and no other thread
    is running then; as many switches as that level has threads run each of them once, in the
    order of the level from where the rotation stands. *)
Theorem round_robin k :
  wf k -> current_level k -> mini_os_get_highest_priority k < MINI_OS_PRIORITY ->
  let level := linked k (ReadyHead (mini_os_get_highest_priority k)) in
  (∃ k' n th, pendsv_handler k = Some (MINI_OK, k') /\ next_of level (current_thread k) = Some n /\
     current_thread k' = Some n /\ threads k' !! n = Some th /\ th_state th = THREAD_RUNNING /\
     ∀ t' th', threads k' !! t' = Some th' ->
       (th_state th' = THREAD_RUNNING -> t' = n) /\ (is_ready (th_state th') = true -> th_priority th <= th_priority th')) /\
  ∃ l1 l2 k', level = l1 ++ l2 /\ switches (length level) k = Some (l2 ++ l1, k') /\ wf k' /\ linked k' = linked k.
Proof.
  intros Hw Hl Hp level. assert (level ≠ []) as Hne.
  { destruct (highest_spec k (wf_bitmap _ Hw)) as [[E _]|(_ & Hne & _)]; [lia|done]. }
  assert (NoDup level) as Hnd by apply (pl_nodup _ _ (wf_placed _ Hw)). split.
  - destruct (switch_one k level Hw Hl Hp eq_refl) as (k' & n & E & Hn & Hc & Hw' & _ & Hp' & L & Hin & Ht).
    destruct (proj1 (in_ready _ _ _ Hw) Hin) as (th & Hth & Hr & Hpr).
    exists k', n, (th_set_state th THREAD_RUNNING). split; [done|]. split; [done|]. split; [done|].
    split; [rewrite Ht, Hth; simpl; unfold switched; by rewrite Z.eqb_refl|]. split; [done|].
    intros t' th' Ht'. pose proof (wf_threads _ Hw' _ _ Ht') as Hok. split.
    + intros Er. pose proof (to_running _ _ _ Hok Er) as Ec. congruence.
    + intros Er. destruct (highest_spec k' (wf_bitmap _ Hw')) as [[E' _]|(_ & _ & Hlow)]; [lia|].
      simpl. rewrite Hpr, <- Hp'. apply Z.nlt_ge. intros Hlt.
      assert (t' ∈ linked k' (ReadyHead (th_priority th'))) as Hin' by (apply (in_ready _ _ _ Hw'); eauto).
      rewrite Hlow in Hin' by (pose proof (to_priority _ _ _ Hok); lia). by apply not_elem_of_nil in Hin'.
  - destruct (next_of_point level (current_thread k) Hne Hnd) as (l1 & l2 & El & Hne2 & Hn).
    destruct (switches_run level l1 l2 [] k Hw Hl Hp eq_refl) as (k1 & E1 & Hw1 & Hl1 & Hp1 & L1 & Hn1);
      [by rewrite app_nil_r|done|].
    destruct (switches_run level [] l1 l2 k1 Hw1 Hl1) as (k2 & E2 & Hw2 & _ & _ & L2 & _);
      [by rewrite Hp1|by rewrite Hp1, L1|done|intros; rewrite Hn1 by done; rewrite El; by destruct l1|].
    exists l1, l2, k2. split; [done|]. split; [|split; [done|congruence]].
    rewrite El, length_app, Nat.add_comm. by apply switches_app with k1.
Qed.

(** Three threads of one level and a fourth below, the second of the three running. *)
Definition level_ops : list kernel_op :=
  [KCreate 1 5 512 4096; KCreate 2 5 512 8192; KCreate 3 5 512 12288; KCreate 4 31 512 16384; KSwitch; KSwitch].

Lemma round_robin_witness :
  ∃ k, run_ops true true boot_kernel level_ops = Some k /\ current_thread k = Some 2 /\
       linked k (ReadyHead (mini_os_get_highest_priority k)) = [1; 2; 3] /\
       ∃ l1 l2 k', [1; 2; 3] = l1 ++ l2 /\ switches 3 k = Some (l2 ++ l1, k').
Proof.
  destruct (run_ops_ok true true boot_kernel level_ops boot_wf) as (k & E & Hw & Hl).
  - intros c th H. discriminate.
  - unfold level_ops. vm_compute. repeat split; discriminate.
  - exists k. split; [exact E|].
    assert (mini_os_get_highest_priority k = 5 /\ current_thread k = Some 2 /\ linked k (ReadyHead 5) = [1; 2; 3])
      as (Hp & Hc & Hlev) by (vm_compute in E; injection E as <-; vm_compute; repeat split).
    rewrite Hp. split; [exact Hc|]. split; [exact Hlev|].
    destruct (round_robin k Hw Hl) as (_ & l1 & l2 & k' & El & Es & _); [rewrite Hp; reflexivity|].
    rewrite Hp, Hlev in El, Es. exists l1, l2, k'. split; [exact El|exact Es].
Defined.

(** C24: A thread that delays itself by [n] ticks, or waits on an object with a limit of [n]
    ticks and is not woken, stays blocked until the [n]-th tick and is ready after it, with
    the wait marked as failed, whatever happens in between. *)
Theorem delays_exact time_slice long_time k c op n wl k1 ops k' :
  wf k -> current_level k -> may_call k -> current_thread k = Some c -> 0 < n < 2147483648 ->
  (op = KDelay n /\ wl = None \/
   ∃ w mask obj, op = KPark w mask n obj /\ is_Some (wait_lists k !! w) /\ wl = Some w) ->
  kernel_step time_slice long_time k op = Some k1 ->
  ops_ok time_slice long_time k1 ops -> Forall (quiet wl) ops ->
  run_ops time_slice long_time k1 ops = Some k' -> ticks ops < n ->
  (∃ th, threads k' !! c = Some th /\ th_state th = THREAD_BLOCKED) /\
  mini_os_wheel_remain k' (Some c) = Some (n - ticks ops) /\
  (ticks ops = n - 1 ->
   ∃ k'' th, kernel_step time_slice long_time k' KTick = Some k'' /\ threads k'' !! c = Some th /\
             th_state th = THREAD_READY /\ (wl ≠ None -> th_wait_status th = false)).
Proof.
  intros Hw Hl Hm Hc Hn Hop E Hops Hq Erun Hticks.
  assert (wf k1 /\ current_level k1 /\ parked_for k1 c n wl) as (Hw1 & Hl1 & Hp1).
  { destruct Hop as [[-> ->]|(w & mask & obj & -> & Hs & ->)]; cbn [kernel_step] in E.
    - unfold mini_os_thread_delay_tick in E. destruct (Z.eqb_spec n 0); [lia|].
      destruct (delay_ok k n Hw Hm) as (k0 & E0 & Hw0 & Hl0 & Hf); [lia|]. rewrite E0 in E. injection E as <-.
      rewrite Hc in Hf. destruct Hf as (th & Ht & Hf). split; [done|]. split; [auto|].
      apply (parked_start k k0 c th n None Hw Hf); [|lia].
      pose proof (caller_runs _ _ _ Hm Hc Ht) as Hr. destruct (th_wait_list th) eqn:El; [|done].
      assert (th_state th = THREAD_BLOCKED) by (apply (to_wait _ _ _ (wf_threads _ Hw _ _ Ht)); by rewrite El). congruence.
    - destruct (park_ok k w mask n obj Hw Hm Hs) as [[_ [?|?]]|(c' & th & k0 & Hc' & _ & Ht & Ep & Hw0 & Hl0 & Hf & _)];
        [lia|lia|congruence|].
      rewrite Ep in E. injection E as <-. split; [done|]. split; [auto|]. assert (c' = c) as -> by congruence.
      destruct (Z.eqb_spec n MINI_OS_WAIT_FOREVER) as [->|_]; [unfold MINI_OS_WAIT_FOREVER in Hn; lia|].
      rewrite u32_small in Hf by lia. apply (parked_start k k0 c _ n _ Hw Hf); [|lia]. apply waiting_on_fields. }
  destruct (parked_run time_slice long_time k1 c n wl ops k' Hw1 Hl1 Hops Hq Hp1 Hticks Erun) as [Hw' Hp'].
  split; [destruct Hp' as (th & ? & ? & _); eauto|]. split.
  - destruct Hp' as (th & Ht & _ & _ & Hs & Hrem). pose proof (wf_threads _ Hw' _ _ Ht) as [].
    rewrite (remain_eq _ _ _ Ht); [|lia|apply (wf_slot _ Hw')|done]. rewrite Hrem. f_equal.
    pose proof (ticks_nonneg ops). apply u32_small. lia.
  - intros Ee. destruct (systick_spec time_slice long_time k' Hw') as (k'' & Es & _).
    pose proof (tick_parked time_slice long_time k' k'' c _ wl Hw' Hp' Es) as Ht.
    rewrite Ee in Ht. replace (n - (n - 1) =? 1) with true in Ht by (symmetry; apply Z.eqb_eq; lia).
    destruct Ht as (th & ? & ? & _ & ?). exists k'', th. done.
Qed.

Lemma delays_exact_witness :
  ∃ k k1 k' k'' th,
    run_ops true true boot_kernel (KObject 100 :: level_ops) = Some k /\ kernel_step true true k (KPark 100 0 2 7) = Some k1 /\
       run_ops true true k1 [KSwitch; KTick; KSwitch; KYield] = Some k' /\ kernel_step true true k' KTick = Some k'' /\
       threads k'' !! 2 = Some th /\ th_state th = THREAD_READY /\ th_wait_status th = false.
Proof.
  destruct (run_ops_ok true true boot_kernel (KObject 100 :: level_ops) boot_wf) as (k & E & Hw & Hl).
  - intros c th H. discriminate.
  - unfold level_ops. vm_compute. repeat split; discriminate.
  - assert (match run_ops true true boot_kernel (KObject 100 :: level_ops) with
            | Some k => may_call k /\ current_thread k = Some 2 /\ is_Some (wait_lists k !! 100) /\
                match kernel_step true true k (KPark 100 0 2 7) with
                | Some k1 => ops_ok true true k1 [KSwitch; KTick; KSwitch; KYield] /\
                             is_Some (run_ops true true k1 [KSwitch; KTick; KSwitch; KYield] ≫= λ _, Some tt)
                | None => False
                end
            | None => False
            end) as H by (vm_compute; repeat split; eexists; reflexivity).
    rewrite E in H. destruct H as (Hm & Hc & Hs & H).
    destruct (kernel_step true true k (KPark 100 0 2 7)) as [k1|] eqn:E1; [|contradiction]. destruct H as [Hok Hrun].
    destruct (run_ops true true k1 [KSwitch; KTick; KSwitch; KYield]) as [k'|] eqn:E2; [|destruct Hrun; discriminate].
    destruct (delays_exact true true k 2 (KPark 100 0 2 7) 2 (Some 100) k1 [KSwitch; KTick; KSwitch; KYield] k' Hw Hl Hm Hc)
      as (_ & _ & H); [lia| |exact E1|exact Hok|repeat constructor|exact E2|reflexivity|].
    { right. exists 100, 0, 7. split; [reflexivity|]. split; [exact Hs|reflexivity]. }
    destruct H as (k'' & th & ? & ? & ? & Hst); [reflexivity|]. exists k, k1, k', k'', th.
    do 6 (split; [assumption|]). apply Hst. discriminate.
Defined.

(** A running thread whose priority is lowered below another ready one of its old level: the
    next switch follows its node in the new list.  With no thread behind it there, the list
    head is taken for a thread; otherwise a thread of the lower priority runs. *)
Theorem lowered_thread_derails :
  (k ← run_ops false false boot_kernel [KCreate 1 5 512 4096; KCreate 2 5 512 8192; KSwitch];
   '(rc, k1) ← mini_os_thread_priority_apply k (Some 1) 7;
   Some (current_thread k, rc, linked k1 (ReadyHead 5), bool_decide (pendsv_handler k1 ≫= (λ _, Some tt) = None)))
  = Some (Some 1, MINI_OK, [2], true).
Proof. vm_compute. reflexivity. Qed.
Theorem lowered_thread_inverts :
  (k ← run_ops false false boot_kernel [KCreate 1 5 512 4096; KCreate 2 5 512 8192; KSwitch];
   '(rc, k1) ← mini_os_thread_priority_apply k (Some 1) 7;
   k2 ← run_ops false false k1 [KCreate 3 7 512 12288; KSwitch];
   Some (current_thread k, rc, linked k1 (ReadyHead 5), current_thread k2))
  = Some (Some 1, MINI_OK, [2], Some 3).
Proof. vm_compute. reflexivity. Qed.
