(* ===== verification/MiniSem.v ===== *)
(** * mini-os objects and semaphores

    Models src/lib/mini-os/inc/obj.h (ownership and in-flight users of a kernel object) and
    src/lib/mini-os/src/semaphore.c, without the registry by name (off by default).  A
    semaphore and its wait list have the same address; releasing its storage ends both.
    [mini_os_semaphore_take] is split where it parks the caller: [inl] is a return,
    [inr] a parked thread, whose call goes on with [sem_take_resume].  It has three critical
    sections, [sem_take_enter], [sem_take_turn] and [sem_release]; the operations [SEnter],
    [STurn], [SWoken] and [SLeave] of the machine run one of them each, with anything between
    them, and [STake] and [SResume] run them through.

    Over every sequence of creations, conversions, takes, gives, deletions, ticks and switches
    ([semaphore_accounts], [semaphore_outlives_calls]): the units of each semaphore are
    accounted for, a take that had to wait reports success exactly when a unit was handed to
    it, and the storage is not reclaimed under a call.  A deletion between the first two
    sections of a take leaves its thread parked on the deleted semaphore
    ([parks_on_deleted_semaphore]). *)

From S2P Require Import Prelude Status MiniList MiniSched MiniKernel.
From stdpp Require Import gmap functions.

#[local] Open Scope Z_scope.

(** ** Kernel objects *)

Definition MINI_OS_OBJ_FLAG_HEAP_OWNED : Z := 1.
Definition MINI_OS_OBJ_FLAG_DESTROY : Z := 2.
Definition MINI_OS_OBJ_FLAG_KILL : Z := 4.
Definition MINI_OS_OBJ_FLAG_TIMEOUT : Z := 8.

(** [mini_os_obj_t]. *)
Record obj := mk_obj { obj_ref : Z; obj_flags : Z }.

Definition mini_os_obj_init (heap_owned : bool) : obj :=
  mk_obj 1 (if heap_owned then MINI_OS_OBJ_FLAG_HEAP_OWNED else 0).
Definition flag_set (o : obj) (f : Z) : bool := negb (Z.land (obj_flags o) f =? 0).
Definition mini_os_obj_is_heap_owned (o : obj) : bool := flag_set o MINI_OS_OBJ_FLAG_HEAP_OWNED.
Definition mini_os_obj_is_static (o : obj) : bool := negb (mini_os_obj_is_heap_owned o).
Definition mini_os_obj_is_destroyed (o : obj) : bool := flag_set o MINI_OS_OBJ_FLAG_DESTROY.
Definition mini_os_obj_is_kill_enabled (o : obj) : bool := flag_set o MINI_OS_OBJ_FLAG_KILL.
Definition mini_os_obj_kill_reports_timeout (o : obj) : bool := flag_set o MINI_OS_OBJ_FLAG_TIMEOUT.
Definition mini_os_obj_kill_error (o : obj) : Z :=
  if mini_os_obj_kill_reports_timeout o then MINI_ERR_TIMEOUT else MINI_OS_ERR_DEAD.
Definition mini_os_obj_user_count (o : obj) : Z := obj_ref o.
Definition mini_os_obj_enable_kill (o : obj) : obj := mk_obj (obj_ref o) (Z.lor (obj_flags o) MINI_OS_OBJ_FLAG_KILL).
Definition mini_os_obj_enable_kill_reports_timeout (o : obj) : obj :=
  mk_obj (obj_ref o) (Z.lor (obj_flags o) (Z.lor MINI_OS_OBJ_FLAG_KILL MINI_OS_OBJ_FLAG_TIMEOUT)).

Definition mini_os_obj_acquire (o : obj) : Z * obj :=
  if mini_os_obj_is_destroyed o then (MINI_OS_ERR_REJECT, o)
  else (MINI_OK, mk_obj (u8 (obj_ref o + 1)) (obj_flags o)).
(** The flag says that the storage is to be reclaimed. *)
Definition mini_os_obj_release (o : obj) : bool * obj :=
  let o := if obj_ref o >? 0 then mk_obj (u8 (obj_ref o - 1)) (obj_flags o) else o in
  ((obj_ref o =? 0) && mini_os_obj_is_destroyed o, o).
Definition mini_os_obj_request_destroy (o : obj) : Z * bool * obj :=
  let o := mk_obj (obj_ref o) (Z.lor (obj_flags o) MINI_OS_OBJ_FLAG_DESTROY) in
  let o := if obj_ref o >? 0 then mk_obj (u8 (obj_ref o - 1)) (obj_flags o) else o in
  if obj_ref o >? 0 then (MINI_OS_ERR_REJECT, false, o) else (MINI_OK, true, o).

(** ** Semaphores *)

Record semaphore := mk_sem { sem_count : Z; sem_max_count : Z; sem_obj : obj }.
Definition sem_set_count (s : semaphore) (v : Z) : semaphore := mk_sem v (sem_max_count s) (sem_obj s).
Definition sem_set_obj (s : semaphore) (v : obj) : semaphore := mk_sem (sem_count s) (sem_max_count s) v.

(** The kernel and the semaphores. *)
Record sync := mk_sync { kern : kernel; sems : gmap Z semaphore }.
Definition set_kern (y : sync) (k : kernel) : sync := mk_sync k (sems y).
Definition set_sem (y : sync) (s : Z) (sm : semaphore) : sync := mk_sync (kern y) (<[s := sm]> (sems y)).
(** [mini_os_obj_free_storage] of a semaphore: freed or cleared, it is gone. *)
Definition sem_free_storage (y : sync) (s : Z) : sync := mk_sync (wait_list_drop (kern y) s) (delete s (sems y)).
Definition sem_release (y : sync) (s : Z) : option sync :=
  sm ← sems y !! s;
  let '(reclaim, o) := mini_os_obj_release (sem_obj sm) in
  Some (if reclaim then sem_free_storage y s else set_sem y s (sem_set_obj sm o)).

Definition mini_os_semaphore_wake_one (k : kernel) (s : Z) : option (bool * kernel) := wake_oldest k s true.
Definition mini_os_semaphore_kill_waiters (k : kernel) (s : Z) (o : obj) : option (bool * kernel) :=
  mini_os_sync_wake_all k s (mini_os_obj_kill_error o =? MINI_OS_ERR_DEAD).

Definition mini_os_semaphore_init (y : sync) (semaphore : option Z) (max_count count : Z) (heap_owned : bool) : Z * sync :=
  match semaphore with
  | None => (MINI_ERR_INVAL, y)
  | Some s =>
      if (max_count =? 0) || (count >? max_count) then (MINI_ERR_INVAL, y) else
      (MINI_OK, set_sem (set_kern y (wait_list_init (kern y) s)) s
                  (mk_sem count max_count (mini_os_obj_init heap_owned)))
  end.

(** [mem] is what [mini_os_malloc] returns. *)
Definition mini_os_semaphore_create (y : sync) (mem : option Z) (max_count count : Z) : option Z * sync :=
  match mem with
  | None => (None, y)
  | Some _ =>
      let '(rc, y) := mini_os_semaphore_init y mem max_count count true in
      (if negb (rc =? MINI_OK) then None else mem, y)
  end.
Definition mini_os_binary_semaphore_create (y : sync) (mem : option Z) : option Z * sync :=
  mini_os_semaphore_create y mem 1 1.
Definition mini_os_semaphore_create_static (y : sync) (semaphore : option Z) (max_count count : Z) : option Z * sync :=
  match semaphore with
  | None => (None, y)
  | Some _ =>
      let '(rc, y) := mini_os_semaphore_init y semaphore max_count count false in
      (if negb (rc =? MINI_OK) then None else semaphore, y)
  end.
Definition mini_os_binary_semaphore_create_static (y : sync) (semaphore : option Z) : option Z * sync :=
  mini_os_semaphore_create_static y semaphore 1 1.

Definition mini_os_semaphore_to_binary (y : sync) (semaphore : option Z) : option (Z * sync) :=
  match semaphore with
  | None => Some (MINI_ERR_INVAL, y)
  | Some s =>
      sm ← sems y !! s; l ← wait_lists (kern y) !! s;
      Some (if negb (sem_count sm =? sem_max_count sm) || negb (bool_decide (l = [])) then (MINI_ERR_BUSY, y)
            else (MINI_OK, set_sem y s (mk_sem 1 1 (sem_obj sm))))
  end.
Definition mini_os_semaphore_to_counting (y : sync) (semaphore : option Z) (max_count : Z) : option (Z * sync) :=
  match semaphore with
  | None => Some (MINI_ERR_INVAL, y)
  | Some s =>
      if max_count <? 2 then Some (MINI_ERR_INVAL, y) else
      sm ← sems y !! s;
      Some (if negb (sem_max_count sm =? 1) then (MINI_ERR_NOTSUPP, y)
            else (MINI_OK, set_sem y s (mk_sem (sem_count sm) max_count (sem_obj sm))))
  end.

Definition mini_os_semaphore_delete_common (y : sync) (semaphore : option Z) (is_static : bool) : option (Z * sync) :=
  match semaphore with
  | None => Some (MINI_ERR_INVAL, y)
  | Some s =>
      sm ← sems y !! s;
      if negb (eqb (mini_os_obj_is_static (sem_obj sm)) is_static) then Some (MINI_ERR_NOTSUPP, y) else
      if (mini_os_obj_user_count (sem_obj sm) >? 1) && negb (mini_os_obj_is_kill_enabled (sem_obj sm))
      then Some (MINI_OS_ERR_REJECT, y) else
      l ← wait_lists (kern y) !! s;
      if negb (bool_decide (l = [])) && negb (mini_os_obj_is_kill_enabled (sem_obj sm))
      then Some (MINI_OS_ERR_REJECT, y) else
      '(killed, k) ← (if negb (bool_decide (l = [])) then mini_os_semaphore_kill_waiters (kern y) s (sem_obj sm)
                      else Some (false, kern y));
      let '(_, reclaim, o) := mini_os_obj_request_destroy (sem_obj sm) in
      let y := set_sem (set_kern y k) s (sem_set_obj sm o) in
      let y := if reclaim then sem_free_storage y s else y in
      Some (MINI_OK, if killed : bool then set_kern y (mini_os_schedule_yield (kern y)).2 else y)
  end.
Definition mini_os_semaphore_delete (y : sync) (semaphore : option Z) := mini_os_semaphore_delete_common y semaphore false.
Definition mini_os_semaphore_delete_static (y : sync) (semaphore : option Z) := mini_os_semaphore_delete_common y semaphore true.

Definition mini_os_semaphore_enable_kill (y : sync) (semaphore : option Z) : option (Z * sync) :=
  match semaphore with
  | None => Some (MINI_ERR_INVAL, y)
  | Some s =>
      sm ← sems y !! s;
      Some (MINI_OK, set_sem y s (sem_set_obj sm (mini_os_obj_enable_kill_reports_timeout (sem_obj sm))))
  end.
Definition mini_os_semaphore_get_count (y : sync) (semaphore : option Z) : option (Z * option Z) :=
  match semaphore with
  | None => Some (MINI_ERR_INVAL, None)
  | Some s => sm ← sems y !! s; Some (MINI_OK, Some (sem_count sm))
  end.

(** The three critical sections of a take: the reference, the count or the park, and (in
    [sem_release]) the reference again. *)
Definition sem_take_enter (y : sync) (s : Z) : option (Z * sync) :=
  sm ← sems y !! s;
  let '(err, o) := mini_os_obj_acquire (sem_obj sm) in
  Some (err, if negb (err =? MINI_OK) then y else set_sem y s (sem_set_obj sm o)).
Definition sem_take_turn (y : sync) (s timeout_tick : Z) : option (Z * sync + sync) :=
  sm ← sems y !! s;
  if sem_count sm >? 0 then Some (inl (MINI_OK, set_sem y s (sem_set_count sm (sem_count sm - 1))))
  else if timeout_tick =? 0 then Some (inl (MINI_ERR_AGAIN, y))
  else if bool_decide (current_thread (kern y) = None) then Some (inl (MINI_ERR_INVAL, y))
  else
    r ← mini_os_sync_wait_park (kern y) (Some s) 0 timeout_tick s;
    Some match r with inl (err, k) => inl (err, set_kern y k) | inr k => inr (set_kern y k) end.
Definition mini_os_semaphore_take (y : sync) (semaphore : option Z) (timeout_tick : Z) : option (Z * sync + sync) :=
  match semaphore with
  | None => Some (inl (MINI_ERR_INVAL, y))
  | Some s =>
      '(err, y) ← sem_take_enter y s;
      if negb (err =? MINI_OK) then Some (inl (err, y)) else
      r ← sem_take_turn y s timeout_tick;
      match r with
      | inl (err, y) => y ← sem_release y s; Some (inl (err, y))
      | inr y => Some (inr y)
      end
  end.
Definition mini_os_semaphore_try_take (y : sync) (semaphore : option Z) := mini_os_semaphore_take y semaphore 0.
(** The parked call of the thread [c] on the semaphore [s] goes on. *)
Definition sem_take_resume (y : sync) (s c : Z) : option (Z * sync) :=
  '(parked, k) ← sync_wait_resume (kern y) c;
  y ← sem_release (set_kern y k) s;
  Some (parked, y).

(** [yields] is false in [mini_os_semaphore_give_isr]. *)
Definition give_common (y : sync) (semaphore : option Z) (yields : bool) : option (Z * sync) :=
  match semaphore with
  | None => Some (MINI_ERR_INVAL, y)
  | Some s =>
      '(woken, k) ← mini_os_semaphore_wake_one (kern y) s;
      if woken : bool then Some (MINI_OK, set_kern y (if yields then (mini_os_schedule_yield k).2 else k)) else
      sm ← sems y !! s;
      if sem_count sm >=? sem_max_count sm then Some (MINI_ERR_BUSY, set_kern y k) else
      Some (MINI_OK, set_sem (set_kern y k) s (sem_set_count sm (u16 (sem_count sm + 1))))
  end.
Definition mini_os_semaphore_give (y : sync) (semaphore : option Z) := give_common y semaphore true.
Definition mini_os_semaphore_give_isr (y : sync) (semaphore : option Z) := give_common y semaphore false.

(** ** Accounts *)

(** What happens to a semaphore and a thread: the number of units it is created or converted
    with, a unit given, a unit received (at once or from a give), the start and the end of a
    wait. *)
Inductive sem_event :=
  | Stocked (s n : Z)
  | Given (s : Z)
  | Received (s : Z) (t : option Z)
  | Parked (s t : Z)
  | Returned (s t rc : Z).

(** The units there should be, by a log with the last event first. *)
Fixpoint units (log : list sem_event) (s : Z) : Z :=
  match log with
  | [] => 0
  | Stocked s' n :: log => if s' =? s then n else units log s
  | Given s' :: log => if s' =? s then units log s + 1 else units log s
  | Received s' _ :: log => if s' =? s then units log s - 1 else units log s
  | _ :: log => units log s
  end.
(** [t] has received a unit since it parked. *)
Fixpoint received (log : list sem_event) (t : Z) : bool :=
  match log with
  | [] => false
  | Received _ t' :: log => if bool_decide (t' = Some t) then true else received log t
  | Parked _ t' :: log => if t' =? t then false else received log t
  | _ :: log => received log t
  end.
(** Every wait ended with success if the thread had received a unit and with a timeout if not. *)
Fixpoint returns_ok (log : list sem_event) : Prop :=
  match log with
  | [] => True
  | Returned _ t rc :: log => rc = (if received log t then MINI_OK else MINI_ERR_TIMEOUT) /\ returns_ok log
  | _ :: log => returns_ok log
  end.

(** Where a thread is inside a take that is not parked: before the section with the count, with
    this limit, or before the end, with this result. *)
Inductive take_pc := TkCount (timeout_tick : Z) | TkLeave (rc : Z).
(** The system, the threads inside a take that parked, those inside one elsewhere, and the log. *)
Record machine := mk_machine { m_sync : sync; m_taking : gmap Z Z; m_inside : gmap Z (Z * take_pc); m_log : list sem_event }.

(** [STake] and [SResume] are a take, and its end after the park, that run through;
    [SEnter], [STurn], [SWoken] and [SLeave] are their parts, between which anything may
    come. *)
Inductive sem_op :=
  | SKernel (op : kernel_op)
  | SCreate (s max_count count : Z) (static : bool)
  | SDelete (s : Z) (static : bool)
  | SEnableKill (s : Z)
  | SToBinary (s : Z)
  | SToCounting (s max_count : Z)
  | STake (s timeout_tick : Z)
  | SResume
  | SEnter (s timeout_tick : Z)
  | STurn
  | SWoken
  | SLeave
  | SGive (s : Z) (isr : bool).

Section machine.
Context (time_slice long_time : bool).

Definition sem_step (m : machine) (op : sem_op) : option machine :=
  let y := m_sync m in
  match op with
  | SKernel op =>
      k ← kernel_step time_slice long_time (kern y) op;
      Some (mk_machine (set_kern y k) (m_taking m) (m_inside m) (m_log m))
  | SCreate s max_count count static =>
      let '(r, y) := if static then mini_os_semaphore_create_static y (Some s) max_count count
                     else mini_os_semaphore_create y (Some s) max_count count in
      Some (mk_machine y (m_taking m) (m_inside m) (if bool_decide (r = None) then m_log m else Stocked s count :: m_log m))
  | SDelete s static =>
      '(_, y) ← (if static then mini_os_semaphore_delete_static y (Some s) else mini_os_semaphore_delete y (Some s));
      Some (mk_machine y (m_taking m) (m_inside m) (m_log m))
  | SEnableKill s =>
      '(_, y) ← mini_os_semaphore_enable_kill y (Some s); Some (mk_machine y (m_taking m) (m_inside m) (m_log m))
  | SToBinary s =>
      '(rc, y) ← mini_os_semaphore_to_binary y (Some s);
      Some (mk_machine y (m_taking m) (m_inside m) (if rc =? MINI_OK then Stocked s 1 :: m_log m else m_log m))
  | SToCounting s max_count =>
      '(_, y) ← mini_os_semaphore_to_counting y (Some s) max_count; Some (mk_machine y (m_taking m) (m_inside m) (m_log m))
  | STake s timeout_tick =>
      r ← mini_os_semaphore_take y (Some s) timeout_tick;
      match r, current_thread (kern y) with
      | inl (rc, y), c => Some (mk_machine y (m_taking m) (m_inside m) (if rc =? MINI_OK then Received s c :: m_log m else m_log m))
      | inr y, Some c => Some (mk_machine y (<[c := s]> (m_taking m)) (m_inside m) (Parked s c :: m_log m))
      | inr _, None => None
      end
  | SResume =>
      c ← current_thread (kern y); s ← m_taking m !! c;
      '(rc, y) ← sem_take_resume y s c;
      Some (mk_machine y (delete c (m_taking m)) (m_inside m) (Returned s c rc :: m_log m))
  | SEnter s timeout_tick =>
      c ← current_thread (kern y);
      '(err, y) ← sem_take_enter y s;
      Some (mk_machine y (m_taking m) (if err =? MINI_OK then <[c := (s, TkCount timeout_tick)]> (m_inside m) else m_inside m) (m_log m))
  | STurn =>
      c ← current_thread (kern y); '(s, pc) ← m_inside m !! c;
      match pc with
      | TkCount timeout_tick =>
          r ← sem_take_turn y s timeout_tick;
          Some match r with
               | inl (rc, y) => mk_machine y (m_taking m) (<[c := (s, TkLeave rc)]> (m_inside m))
                                  (if rc =? MINI_OK then Received s (Some c) :: m_log m else m_log m)
               | inr y => mk_machine y (<[c := s]> (m_taking m)) (delete c (m_inside m)) (Parked s c :: m_log m)
               end
      | TkLeave _ => None
      end
  | SWoken =>
      c ← current_thread (kern y); s ← m_taking m !! c;
      '(rc, k) ← sync_wait_resume (kern y) c;
      Some (mk_machine (set_kern y k) (delete c (m_taking m)) (<[c := (s, TkLeave rc)]> (m_inside m)) (Returned s c rc :: m_log m))
  | SLeave =>
      c ← current_thread (kern y); '(s, pc) ← m_inside m !! c;
      match pc with
      | TkLeave _ => y ← sem_release y s; Some (mk_machine y (m_taking m) (delete c (m_inside m)) (m_log m))
      | TkCount _ => None
      end
  | SGive s isr =>
      l ← wait_lists (kern y) !! s;
      '(rc, y) ← (if isr then mini_os_semaphore_give_isr y (Some s) else mini_os_semaphore_give y (Some s));
      Some (mk_machine y (m_taking m) (m_inside m)
              (match l with
               | t :: _ => Received s (Some t) :: Given s :: m_log m
               | [] => if rc =? MINI_OK then Given s :: m_log m else m_log m
               end))
  end.

(** The current thread is not inside a take. *)
Definition free_call (m : machine) : Prop :=
  match current_thread (kern (m_sync m)) with Some c => m_taking m !! c = None /\ m_inside m !! c = None | None => True end.
Definition plain_op (op : kernel_op) : Prop :=
  match op with KCreate _ _ _ _ | KTick | KSwitch | KYield | KDelay _ | KPriority _ _ => True | _ => False end.

(** What the callers keep to: the storage they name is there, it is deleted once, fewer than
    255 calls are inside one semaphore, and calls that park come from a running thread. *)
Definition sem_op_ok (m : machine) (op : sem_op) : Prop :=
  let k := kern (m_sync m) in
  match op with
  | SKernel op => plain_op op /\ op_ok k op
  | SCreate s max_count count _ =>
      sems (m_sync m) !! s = None /\ wait_lists k !! s = None /\ is_u16 max_count /\ is_u16 count
  | SDelete s _ => match sems (m_sync m) !! s with Some sm => mini_os_obj_is_destroyed (sem_obj sm) = false | None => False end
  | SEnableKill s | SToBinary s | SGive s _ => is_Some (sems (m_sync m) !! s)
  | SToCounting s max_count => is_Some (sems (m_sync m) !! s) /\ is_u16 max_count
  | STake s timeout_tick =>
      match sems (m_sync m) !! s with Some sm => obj_ref (sem_obj sm) < 255 | None => False end /\
      may_call k /\ free_call m /\ -2147483648 <= timeout_tick < 2147483648
  | SResume | SWoken => may_call k /\ match c ← current_thread k; m_taking m !! c with Some _ => True | None => False end
  | SEnter s timeout_tick =>
      match sems (m_sync m) !! s with Some sm => obj_ref (sem_obj sm) < 255 | None => False end /\
      may_call k /\ current_thread k ≠ None /\ free_call m /\ -2147483648 <= timeout_tick < 2147483648
  | STurn => may_call k /\ match c ← current_thread k; m_inside m !! c with Some (_, TkCount _) => True | _ => False end
  | SLeave => may_call k /\ match c ← current_thread k; m_inside m !! c with Some (_, TkLeave _) => True | _ => False end
  end.

Fixpoint sem_run (m : machine) (ops : list sem_op) : option machine :=
  match ops with [] => Some m | op :: ops => m ← sem_step m op; sem_run m ops end.
Fixpoint sem_ops_ok (m : machine) (ops : list sem_op) : Prop :=
  match ops with
  | [] => True
  | op :: ops => sem_op_ok m op /\ match sem_step m op with Some m => sem_ops_ok m ops | None => True end
  end.
End machine.


(** No thread was handed a unit from [k] to [k']: each wait goes on or has failed. *)
Record no_grant (k k' : kernel) : Prop := {
  ng_lists : dom (wait_lists k') = dom (wait_lists k);
  ng_threads : ∀ t th, threads k !! t = Some th -> ∃ th', threads k' !! t = Some th' /\
     (th_wait_list th' = th_wait_list th /\ th_wait_status th' = th_wait_status th \/
      th_wait_list th ≠ None /\ th_wait_list th' = None /\ th_wait_status th' = false);
  ng_new : ∀ t th', threads k' !! t = Some th' -> th_wait_list th' ≠ None -> is_Some (threads k !! t)
}.
Lemma no_grant_refl k : no_grant k k.
Proof. split; eauto. Qed.
Lemma no_grant_frame k k' t0 th0 :
  frame k k' t0 th0 ->
  (∀ th, threads k !! t0 = Some th -> th_wait_list th0 = th_wait_list th /\ th_wait_status th0 = th_wait_status th) ->
  (threads k !! t0 = None -> th_wait_list th0 = None) -> no_grant k k'.
Proof.
  intros [F1 _ _ _ _ F6] Hs Hn. split; [done|rewrite F1..].
  - intros t th Ht. destruct (decide (t = t0)) as [->|].
    + rewrite lookup_insert_eq. exists th0. split; [done|]. left. by apply Hs.
    + rewrite lookup_insert_ne by done. eauto.
  - intros t th'. destruct (decide (t = t0)) as [->|]; [|rewrite lookup_insert_ne by done; eauto].
    rewrite lookup_insert_eq. intros [= <-] Hne. destruct (threads k !! t0) eqn:E0; [eauto|]. by destruct Hne, Hn.
Qed.

Definition bases_ok (k : kernel) : Prop :=
  ∀ t th, threads k !! t = Some th -> 0 <= th_base_priority th < MINI_OS_PRIORITY.
Lemma bases_frame k k' t th th' :
  frame k k' t th' -> threads k !! t = Some th -> th_base_priority th' = th_base_priority th -> bases_ok k -> bases_ok k'.
Proof.
  intros Hf Ht E Hb t' tht. rewrite (fr_threads _ _ _ _ Hf). destruct (decide (t' = t)) as [->|].
  - rewrite lookup_insert_eq. intros [= <-]. rewrite E. by apply (Hb t).
  - rewrite lookup_insert_ne by done. apply Hb.
Qed.
Lemma bases_map k k' (f : Z -> thread -> thread) :
  (∀ t, threads k' !! t = f t <$> threads k !! t) -> (∀ t th, th_base_priority (f t th) = th_base_priority th) ->
  bases_ok k -> bases_ok k'.
Proof.
  intros Hf E Hb t th. rewrite Hf. destruct (threads k !! t) as [th0|] eqn:E0; [|done]. simpl. intros [= <-]. rewrite E. by apply (Hb t).
Qed.

(** What an operation of the kernel alone does to the waits. *)
Lemma plain_step ts lt k op :
  wf k -> (op = KSwitch -> switch_safe k) -> plain_op op -> op_ok k op ->
  ∃ k', kernel_step ts lt k op = Some k' /\ wf k' /\ no_grant k k' /\ (bases_ok k -> bases_ok k').
Proof.
  intros Hw Hsafe Hpl Hok.
  destruct op as [t p ss st|w|w| | | |n|w m tm o| |w s|w s|t p]; try done; cbn [kernel_step op_ok] in *.
  - destruct Hok as [Hf Hp]. destruct (create_ok k true true t p ss st) as (r & k1 & Ec & Hw1 & _ & Hfr); [done..|].
    rewrite Ec. simpl. exists k1. split; [done|]. split; [done|].
    destruct Hfr as [->|(th & Hfr & Hwl & Hb)]; [by split; [apply no_grant_refl|]|]. split.
    + apply (no_grant_frame _ _ _ _ Hfr); [congruence|done].
    + intros Hbs t' th'. rewrite (fr_threads _ _ _ _ Hfr). destruct (decide (t' = t)) as [->|].
      * rewrite lookup_insert_eq. by intros [= <-].
      * rewrite lookup_insert_ne by done. apply Hbs.
  - destruct (systick_spec ts lt k Hw) as (k1 & E1 & Hw1 & _ & _ & _ & _ & Hd & Ht). exists k1. split; [done|]. split; [done|].
    split; [split; [done| |]|].
    + intros t th Et. specialize (Ht t). rewrite Et in Ht. destruct (threads k1 !! t) as [th'|]; [|done].
      exists th'. split; [done|]. apply (inj Some) in Ht.
      apply (core_fields th' (ticked ((s_current_slot k + 1) mod 32) th)) in Ht as (_ & _ & _ & _ & -> & ->).
      unfold ticked. destruct (negb _); [by left|]. destruct (_ >? 0); [by left|].
      destruct (th_wait_list th) eqn:El; [right; done|left]. simpl. by rewrite El.
    + intros t th' Et _. specialize (Ht t). rewrite Et in Ht. by destruct (threads k !! t).
    + intros Hb t th' Et. specialize (Ht t). rewrite Et in Ht. destruct (threads k !! t) as [th|] eqn:E0; [|done].
      apply (inj Some) in Ht. replace (th_base_priority th') with (th_base_priority (core th')) by done. simpl in Ht. rewrite Ht.
      unfold ticked, woken. repeat case_match; apply (Hb t th E0).
  - destruct (switch_gen (k_set_pendsv k false)) as (rc & k1 & Es & Hw1 & _ & _ & _ & W & _ & _ & Hr);
      [by apply wf_pendsv|by apply Hsafe|].
    unfold pendsv_handler. rewrite Es. exists k1. split; [done|]. split; [done|]. simpl in W.
    assert (∀ th, th_wait_list (demoted th) = th_wait_list th /\ th_wait_status (demoted th) = th_wait_status th /\
                  th_base_priority (demoted th) = th_base_priority th) as Hdm
      by (intros th; unfold demoted; by destruct (bool_decide _)).
    assert (∃ f, (∀ t, threads k1 !! t = f t <$> threads k !! t) /\
      ∀ t th, th_wait_list (f t th) = th_wait_list th /\ th_wait_status (f t th) = th_wait_status th /\
              th_base_priority (f t th) = th_base_priority th) as (f & Hf & Hff).
    { destruct (_ =? _); [exists (λ _, demoted); split; [apply Hr|done]|].
      destruct Hr as (_ & _ & n & _ & _ & _ & Ht). exists (switched n). split; [apply Ht|].
      intros t th. unfold switched. by destruct (_ =? _). }
    split; [split; [by rewrite W| |]|].
    + intros t th Et. rewrite Hf, Et. eexists. split; [done|]. left. by destruct (Hff t th) as (? & ? & _).
    + intros t th'. rewrite Hf. destruct (threads k !! t); [eauto|done].
    + apply (bases_map k k1 f Hf). intros t th. apply Hff.
  - eexists. split; [done|]. split; [by apply wf_pendsv|]. split; [split; eauto|done].
  - destruct Hok as [Hm Hn]. unfold mini_os_thread_delay_tick.
    destruct (Z.eqb_spec n 0); [exists k; split; [done|]; split; [done|]; split; [apply no_grant_refl|done]|].
    destruct (delay_ok k n Hw Hm) as (k1 & Ed & Hw1 & _ & Hfr); [unfold is_u32 in Hn; lia|].
    rewrite Ed. exists k1. split; [done|]. split; [done|].
    destruct (current_thread k) as [c|]; [|subst; split; [apply no_grant_refl|done]].
    destruct Hfr as (th & Ht & Hfr). split; [|by apply (bases_frame _ _ _ th _ Hfr)].
    apply (no_grant_frame _ _ _ _ Hfr); [|congruence]. intros th0 Ht0. simplify_eq. done.
  - destruct Hok as (Hs & Hp & Hc). destruct (priority_ok k t p) as (rc & k1 & Ep & Hw1 & _ & Hfr); [done..|].
    rewrite Ep. exists k1. split; [done|]. split; [done|].
    destruct Hfr as [[-> _]|(th & Ht & Hfr & _)]; [split; [apply no_grant_refl|done]|].
    split; [|by apply (bases_frame _ _ _ th _ Hfr)].
    apply (no_grant_frame _ _ _ _ Hfr); [|congruence]. intros th0 Ht0. simplify_eq. done.
Qed.

(** ** The invariant *)

(** The calls inside the semaphore [s]. *)
Definition users (taking : gmap Z Z) (s : Z) : Z := Z.of_nat (size (filter (λ p : Z * Z, p.2 = s) taking)).

Lemma users_insert taking c s s' :
  taking !! c = None -> users (<[c := s]> taking) s' = users taking s' + (if decide (s' = s) then 1 else 0).
Proof.
  intros Hc. unfold users. destruct (decide (s' = s)) as [->|].
  - rewrite map_filter_insert_True by done. rewrite map_size_insert_None; [lia|].
    apply map_lookup_filter_None. by left.
  - rewrite map_filter_insert_False by (simpl; congruence). rewrite delete_id by done. lia.
Qed.
Lemma users_delete taking c s s' :
  taking !! c = Some s -> users (delete c taking) s' = users taking s' - (if decide (s' = s) then 1 else 0).
Proof.
  intros Hc. rewrite <- (insert_delete_id taking c s Hc) at 2. rewrite users_insert by apply lookup_delete_eq. lia.
Qed.
Lemma users_zero taking s t : users taking s = 0 -> taking !! t ≠ Some s.
Proof.
  unfold users. intros H Ht. assert (filter (λ p : Z * Z, p.2 = s) taking = ∅) as E by (apply map_size_empty_inv; lia).
  assert (filter (λ p : Z * Z, p.2 = s) taking !! t = Some s) as E' by (by apply map_lookup_filter_Some).
  by rewrite E, lookup_empty in E'.
Qed.

Lemma users_none taking s : (∀ t, taking !! t ≠ Some s) -> users taking s = 0.
Proof.
  intros H. unfold users. assert (filter (λ p : Z * Z, p.2 = s) taking = ∅) as ->; [|done].
  apply map_empty. intros t. apply map_lookup_filter_None. right. simpl. intros s' Hs' ->. by apply (H t).
Qed.
Lemma users_nonneg taking s : 0 <= users taking s.
Proof. unfold users. lia. Qed.
Lemma users_some taking s t : taking !! t = Some s -> 0 < users taking s.
Proof. intros H. pose proof (users_nonneg taking s). destruct (decide (users taking s = 0)) as [E|]; [|lia]. by apply (users_zero _ _ t) in E. Qed.
(** The threads inside a take that is not parked. *)
Definition places (inside : gmap Z (Z * take_pc)) : gmap Z Z := fst <$> inside.
Lemma places_insert inside c s pc s' :
  inside !! c = None -> users (places (<[c := (s, pc)]> inside)) s' = users (places inside) s' + (if decide (s' = s) then 1 else 0).
Proof. intros H. unfold places. rewrite fmap_insert. apply users_insert. by rewrite lookup_fmap, H. Qed.
Lemma places_delete inside c s pc s' :
  inside !! c = Some (s, pc) -> users (places (delete c inside)) s' = users (places inside) s' - (if decide (s' = s) then 1 else 0).
Proof. intros H. unfold places. rewrite fmap_delete. apply users_delete. by rewrite lookup_fmap, H. Qed.
Lemma places_some inside s t pc : inside !! t = Some (s, pc) -> 0 < users (places inside) s.
Proof. intros H. apply (users_some _ _ t). unfold places. by rewrite lookup_fmap, H. Qed.
Lemma places_update inside c s pc pc' : inside !! c = Some (s, pc) -> places (<[c := (s, pc')]> inside) = places inside.
Proof. intros H. unfold places. rewrite fmap_insert. apply insert_id. by rewrite lookup_fmap, H. Qed.

(** A semaphore has the units of the log, and one reference for its creator until it is
    deleted and one for each call inside. *)
Record sem_ok (k : kernel) (taking : gmap Z Z) (inside : gmap Z (Z * take_pc)) (log : list sem_event) (s : Z) (sm : semaphore) : Prop := {
  so_list : is_Some (wait_lists k !! s);
  so_kill : mini_os_obj_is_kill_enabled (sem_obj sm) = mini_os_obj_kill_reports_timeout (sem_obj sm);
  so_count : 0 <= sem_count sm <= sem_max_count sm;
  so_max : 0 < sem_max_count sm < 65536;
  so_units : sem_count sm = units log s;
  so_users : obj_ref (sem_obj sm) = (if mini_os_obj_is_destroyed (sem_obj sm) then 0 else 1) + users taking s + users (places inside) s;
  so_byte : obj_ref (sem_obj sm) < 256
}.
Record minv (m : machine) : Prop := {
  mi_wf : wf (kern (m_sync m));
  mi_level : current_level (kern (m_sync m));
  mi_sem : ∀ s sm, sems (m_sync m) !! s = Some sm -> sem_ok (kern (m_sync m)) (m_taking m) (m_inside m) (m_log m) s sm;
  mi_wait : ∀ t th s, threads (kern (m_sync m)) !! t = Some th -> th_wait_list th = Some s ->
    m_taking m !! t = Some s /\ ∃ sm, sems (m_sync m) !! s = Some sm /\ sem_count sm = 0;
  mi_taking : ∀ t s, m_taking m !! t = Some s -> is_Some (sems (m_sync m) !! s) /\
    ∃ th, threads (kern (m_sync m)) !! t = Some th /\
      (th_wait_list th = Some s /\ received (m_log m) t = false \/
       th_wait_list th = None /\ th_wait_status th = received (m_log m) t);
  mi_inside : ∀ t s pc, m_inside m !! t = Some (s, pc) -> is_Some (sems (m_sync m) !! s) /\ m_taking m !! t = None /\
    (∀ timeout, pc = TkCount timeout -> -2147483648 <= timeout < 2147483648);
  mi_returns : returns_ok (m_log m)
}.

Section invariant.
Context (time_slice long_time : bool).
#[local] Notation sem_step := (sem_step time_slice long_time).

(** A step that touches at most the semaphore [s0] and grants nothing to a parked thread. *)
Lemma minv_change m y' log' s0 :
  minv m -> wf (kern y') -> current_level (kern y') ->
  (∀ t th, threads (kern (m_sync m)) !! t = Some th -> ∃ th', threads (kern y') !! t = Some th' /\
     (th_wait_list th' = th_wait_list th /\ th_wait_status th' = th_wait_status th \/
      th_wait_list th ≠ None /\ th_wait_list th' = None /\ th_wait_status th' = false)) ->
  (∀ t th', threads (kern y') !! t = Some th' -> th_wait_list th' ≠ None -> is_Some (threads (kern (m_sync m)) !! t)) ->
  (∀ s, s ≠ s0 -> sems y' !! s = sems (m_sync m) !! s) ->
  (∀ s, s ≠ s0 -> is_Some (wait_lists (kern (m_sync m)) !! s) -> is_Some (wait_lists (kern y') !! s)) ->
  (∀ s, s ≠ s0 -> units log' s = units (m_log m) s) ->
  (∀ t s, m_taking m !! t = Some s -> received log' t = received (m_log m) t) -> returns_ok log' ->
  (∀ sm, sems y' !! s0 = Some sm -> sem_ok (kern y') (m_taking m) (m_inside m) log' s0 sm) ->
  (0 < users (m_taking m) s0 + users (places (m_inside m)) s0 -> is_Some (sems y' !! s0)) ->
  (∀ t th, threads (kern y') !! t = Some th -> th_wait_list th = Some s0 ->
     ∃ sm, sems y' !! s0 = Some sm /\ sem_count sm = 0) ->
  minv (mk_machine y' (m_taking m) (m_inside m) log').
Proof.
  intros [I1 I2 I3 I4 I5 I7 I6] Hw Hl Hold Hnew Hsems Hlists Hunits Hrec Hret Hs0 Hin Hwait. split; simpl; try done.
  - intros s sm Hs. destruct (decide (s = s0)) as [->|Hne]; [by apply Hs0|]. rewrite Hsems in Hs by done.
    destruct (I3 _ _ Hs). split; try done; [by apply Hlists|by rewrite Hunits].
  - intros t th' s Ht' Hs. destruct (Hnew t th') as [th Ht]; [done|congruence|].
    destruct (Hold _ _ Ht) as (th2 & Ht2 & Hd). assert (th2 = th') as -> by congruence.
    destruct Hd as [[Hd _]|(_ & Hd & _)]; [|congruence]. rewrite Hd in Hs. destruct (I4 _ _ _ Ht Hs) as [Htk Hz].
    split; [done|]. destruct (decide (s = s0)) as [->|Hne]; [apply (Hwait t th'); congruence|by rewrite Hsems].
  - intros t s Ht. destruct (I5 _ _ Ht) as (Hs & th & Hth & Hd). split.
    + destruct (decide (s = s0)) as [->|Hne]; [apply Hin|by rewrite Hsems]. apply users_some in Ht. pose proof (users_nonneg (places (m_inside m)) s0). lia.
    + destruct (Hold _ _ Hth) as (th' & Ht' & Hd'). exists th'. split; [done|]. rewrite (Hrec t s Ht).
      destruct Hd' as [[-> ->]|(Hn & -> & ->)]; [done|]. right. split; [done|]. destruct Hd as [[_ ->]|[? _]]; done.
  - intros t s pc Ht. destruct (I7 _ _ _ Ht) as (Hs & Hn & Hpc). split; [|done].
    destruct (decide (s = s0)) as [->|Hne]; [apply Hin|by rewrite Hsems]. apply places_some in Ht. pose proof (users_nonneg (m_taking m) s0). lia.
Qed.

(** A semaphore with calls inside is there. *)
Lemma in_use m s : minv m -> 0 < users (m_taking m) s + users (places (m_inside m)) s -> is_Some (sems (m_sync m) !! s).
Proof.
  intros Hi Hu. destruct (sems (m_sync m) !! s) eqn:E; [eauto|]. exfalso.
  rewrite (users_none (m_taking m)), (users_none (places (m_inside m))) in Hu; [lia| |].
  - intros t Ht. unfold places in Ht. rewrite lookup_fmap in Ht. destruct (m_inside m !! t) as [[s' pc]|] eqn:E'; [|done].
    injection Ht as ->. destruct (mi_inside _ Hi _ _ _ E') as ([? ?] & _). congruence.
  - intros t Ht. destruct (mi_taking _ Hi _ _ Ht) as [[? ?] _]. congruence.
Qed.
Lemma minv_kernel m k' :
  minv m -> wf k' -> current_level k' -> no_grant (kern (m_sync m)) k' ->
  minv (mk_machine (set_kern (m_sync m) k') (m_taking m) (m_inside m) (m_log m)).
Proof.
  intros Hi Hw Hl [G1 G2 G3]. pose proof Hi as [I1 I2 I3 I4 I5 I7 I6].
  assert (∀ s, is_Some (wait_lists (kern (m_sync m)) !! s) -> is_Some (wait_lists k' !! s)) as Hlists.
  { intros s. by rewrite <- !elem_of_dom, G1. }
  apply (minv_change m (set_kern (m_sync m) k') _ 0); try done; auto; simpl.
  - intros sm Hs. destruct (I3 _ _ Hs). split; auto.
  - by apply in_use.
  - intros t th' Ht' Hs. destruct (G3 t th') as [th Ht]; [done|congruence|].
    destruct (G2 _ _ Ht) as (th2 & Ht2 & Hd). assert (th2 = th') as -> by congruence.
    destruct Hd as [[Hd _]|(_ & Hd & _)]; [|congruence]. apply (I4 t th); congruence.
Qed.

(** The same for a step that leaves the kernel alone. *)
Lemma minv_sem m s sm sm' log' :
  minv m -> sems (m_sync m) !! s = Some sm ->
  (∀ s', s' ≠ s -> units log' s' = units (m_log m) s') ->
  (∀ t s, m_taking m !! t = Some s -> received log' t = received (m_log m) t) -> returns_ok log' ->
  sem_ok (kern (m_sync m)) (m_taking m) (m_inside m) log' s sm' ->
  (sem_count sm = 0 -> (∃ t th, threads (kern (m_sync m)) !! t = Some th /\ th_wait_list th = Some s) -> sem_count sm' = 0) ->
  minv (mk_machine (set_sem (m_sync m) s sm') (m_taking m) (m_inside m) log').
Proof.
  intros Hi Hs Hu Hr Hret Hok Hw. pose proof Hi as [I1 I2 I3 I4 I5 I7 I6].
  apply (minv_change m _ _ s); simpl; try done; eauto.
  - intros s' Hne. by rewrite lookup_insert_ne.
  - intros sm0. rewrite lookup_insert_eq. by intros [= <-].
  - intros _. rewrite lookup_insert_eq. eauto.
  - intros t th Ht Hs'. rewrite lookup_insert_eq. exists sm'. split; [done|].
    destruct (I4 _ _ _ Ht Hs') as [_ (sm0 & Hs0 & Hc)]. assert (sm0 = sm) as -> by congruence. apply Hw; eauto.
Qed.

Lemma machine_eta m : mk_machine (m_sync m) (m_taking m) (m_inside m) (m_log m) = m.
Proof. by destruct m. Qed.

(** A destroyed semaphore has no waiter. *)
Lemma no_waiter m s l :
  minv m -> wait_lists (kern (m_sync m)) !! s = Some l ->
  (∀ t th, threads (kern (m_sync m)) !! t = Some th -> th_wait_list th ≠ Some s) -> l = [].
Proof.
  intros Hi Hl Hn. destruct l as [|t l]; [done|].
  destruct (waiter_spec _ _ _ t (mi_wf _ Hi) Hl) as (th & Ht & Hs & _); [apply elem_of_cons; auto|]. by destruct (Hn t th).
Qed.

Lemma release_acquired y s sm c :
  mini_os_obj_is_destroyed (sem_obj sm) = false -> 0 <= obj_ref (sem_obj sm) < 255 ->
  sem_release (set_sem y s (sem_set_count (sem_set_obj sm (mk_obj (obj_ref (sem_obj sm) + 1) (obj_flags (sem_obj sm)))) c)) s
  = Some (set_sem y s (sem_set_count sm c)).
Proof.
  intros Hd Hr. unfold sem_release, set_sem. simpl. rewrite lookup_insert_eq. simpl. unfold mini_os_obj_release. simpl.
  destruct (Z.gtb_spec (obj_ref (sem_obj sm) + 1) 0); [|lia]. rewrite Z.add_simpl_r. unfold u8. rewrite Z.mod_small by lia.
  unfold mini_os_obj_is_destroyed, flag_set in *. simpl. rewrite Hd, andb_false_r. simpl.
  rewrite insert_insert_eq. destruct sm as [? ? []]. done.
Qed.
Lemma acquire_ok o :
  mini_os_obj_is_destroyed o = false -> 0 <= obj_ref o < 255 ->
  mini_os_obj_acquire o = (MINI_OK, mk_obj (obj_ref o + 1) (obj_flags o)).
Proof. intros Hd Hr. unfold mini_os_obj_acquire. rewrite Hd. unfold u8. by rewrite Z.mod_small by lia. Qed.
Lemma so_ref_nonneg k taking inside log s sm : sem_ok k taking inside log s sm -> 0 <= obj_ref (sem_obj sm).
Proof. intros []. pose proof (users_nonneg taking s). pose proof (users_nonneg (places inside) s). destruct (mini_os_obj_is_destroyed _); lia. Qed.

Lemma set_sem_same y s sm : sems y !! s = Some sm -> set_sem y s sm = y.
Proof. intros H. destruct y. unfold set_sem. simpl in *. by rewrite insert_id. Qed.

Lemma set_sem_twice y s sm sm' : set_sem (set_sem y s sm) s sm' = set_sem y s sm'.
Proof. unfold set_sem. simpl. by rewrite insert_insert_eq. Qed.

(** The take with the reference of the calls that return at once settled. *)
Lemma take_eq y s sm timeout :
  sems y !! s = Some sm -> 0 <= obj_ref (sem_obj sm) < 255 ->
  mini_os_semaphore_take y (Some s) timeout =
    if mini_os_obj_is_destroyed (sem_obj sm) then Some (inl (MINI_OS_ERR_REJECT, y)) else
    if sem_count sm >? 0 then Some (inl (MINI_OK, set_sem y s (sem_set_count sm (sem_count sm - 1)))) else
    if timeout =? 0 then Some (inl (MINI_ERR_AGAIN, y)) else
    if bool_decide (current_thread (kern y) = None) then Some (inl (MINI_ERR_INVAL, y)) else
    let y1 := set_sem y s (sem_set_obj sm (mk_obj (obj_ref (sem_obj sm) + 1) (obj_flags (sem_obj sm)))) in
    r ← mini_os_sync_wait_park (kern y) (Some s) 0 timeout s;
    match r with
    | inl (err, k) => y ← sem_release (set_kern y1 k) s; Some (inl (err, y))
    | inr k => Some (inr (set_kern y1 k))
    end.
Proof.
  intros Es Hr. unfold mini_os_semaphore_take, sem_take_enter. rewrite Es. cbn [mbind option_bind].
  destruct (mini_os_obj_is_destroyed (sem_obj sm)) eqn:Ed; [unfold mini_os_obj_acquire; by rewrite Ed|].
  rewrite acquire_ok by done. cbn [mbind option_bind negb MINI_OK Z.eqb]. unfold sem_take_turn. cbn [set_sem sems kern]. rewrite lookup_insert_eq.
  cbn [mbind option_bind sem_set_obj sem_count].
  assert (sem_release (set_sem y s (sem_set_obj sm (mk_obj (obj_ref (sem_obj sm) + 1) (obj_flags (sem_obj sm))))) s = Some y) as Hra.
  { pose proof (release_acquired y s sm (sem_count sm) Ed Hr) as Hra.
    assert (sem_set_count sm (sem_count sm) = sm) as E by by destruct sm.
    rewrite E, (set_sem_same y s sm Es) in Hra. exact Hra. }
  destruct (sem_count sm >? 0); [cbn [mbind option_bind]; by rewrite set_sem_twice, release_acquired|].
  destruct (timeout =? 0); [cbn [mbind option_bind]; by rewrite Hra|].
  destruct (bool_decide _); [cbn [mbind option_bind]; by rewrite Hra|].
  destruct (mini_os_sync_wait_park (kern y) (Some s) 0 timeout s) as [[[err k]|k]|]; done.
Qed.

Lemma kernel_part_step m op :
  minv m -> sem_op_ok m (SKernel op) -> ∃ m', sem_step m (SKernel op) = Some m' /\ minv m'.
Proof.
  intros Hi [Hp Hok]. destruct (kernel_step_ok time_slice long_time _ op (mi_wf _ Hi) (mi_level _ Hi) Hok) as (k' & E & Hw & Hl).
  destruct (plain_step time_slice long_time _ op (mi_wf _ Hi) (λ _ _, mi_level _ Hi) Hp Hok) as (k1 & E1 & _ & Hg & _).
  unfold sem_step. rewrite E. simpl. eexists. split; [done|]. apply minv_kernel; try done. congruence.
Qed.

Lemma new_obj_flags b :
  mini_os_obj_is_destroyed (mini_os_obj_init b) = false /\
  mini_os_obj_is_kill_enabled (mini_os_obj_init b) = mini_os_obj_kill_reports_timeout (mini_os_obj_init b).
Proof. by destruct b. Qed.

Lemma create_step m s max_count count static :
  minv m -> sem_op_ok m (SCreate s max_count count static) ->
  ∃ m', sem_step m (SCreate s max_count count static) = Some m' /\ minv m'.
Proof.
  intros Hi (Hs & Hwl & Hm & Hc). pose proof Hi as [I1 I2 I3 I4 I5 I7 I6].
  assert (∃ r y', (if static then mini_os_semaphore_create_static (m_sync m) (Some s) max_count count
                   else mini_os_semaphore_create (m_sync m) (Some s) max_count count) = (r, y') /\
    (r = None /\ y' = m_sync m \/
     r = Some s /\ 0 < max_count /\ count <= max_count /\
     y' = set_sem (set_kern (m_sync m) (wait_list_init (kern (m_sync m)) s)) s (mk_sem count max_count (mini_os_obj_init (negb static)))))
    as (r & y' & E & Hy).
  { unfold mini_os_semaphore_create_static, mini_os_semaphore_create, mini_os_semaphore_init.
    destruct (Z.eqb_spec max_count 0), (Z.gtb_spec count max_count); simpl; destruct static; eexists _, _;
      (split; [reflexivity|]); auto; right; unfold is_u16 in *; by repeat split; try lia. }
  unfold sem_step. rewrite E. eexists. split; [done|]. destruct Hy as [[-> ->]|(-> & Hm0 & Hcm & ->)].
  { rewrite bool_decide_true by done. by rewrite machine_eta. }
  rewrite bool_decide_false by done.
  destruct (kernel_step_ok false false _ (KObject s) I1 I2 Hwl) as (k' & [= <-] & Hw & Hl).
  assert (∀ t, m_taking m !! t ≠ Some s) as Hno.
  { intros t Ht. destruct (I5 _ _ Ht) as [[? ?] _]. congruence. }
  assert (∀ t, places (m_inside m) !! t ≠ Some s) as Hno'.
  { intros t Ht. destruct (Z.lt_irrefl 0). rewrite <- (users_none (m_taking m) s) at 2 by done.
    destruct (in_use m s Hi) as [? ?]; [|congruence]. apply users_some in Ht. pose proof (users_nonneg (m_taking m) s). lia. }
  apply (minv_change m _ _ s); simpl; try done; eauto.
  - intros s' Hne. by rewrite lookup_insert_ne.
  - intros s' Hne. by rewrite lookup_insert_ne.
  - intros s' Hne. by destruct (Z.eqb_spec s s') as [->|].
  - intros sm. rewrite lookup_insert_eq. intros [= <-]. destruct (new_obj_flags (negb static)) as [Hd Hk].
    unfold is_u16 in *. split; cbn [sem_obj sem_count sem_max_count]; try done; try lia.
    + simpl. rewrite lookup_insert_eq. eauto.
    + simpl. by rewrite Z.eqb_refl.
    + rewrite Hd, users_none, users_none by done. done.
  - rewrite users_none, users_none by done. lia.
  - intros t th Ht Hth. destruct (I4 _ _ _ Ht Hth) as [Ht' _]. by destruct (Hno t).
Qed.

(** Operations on the record alone. *)
Lemma enable_kill_step m s :
  minv m -> sem_op_ok m (SEnableKill s) -> ∃ m', sem_step m (SEnableKill s) = Some m' /\ minv m'.
Proof.
  intros Hi [sm Hs]. pose proof (mi_sem _ Hi _ _ Hs) as []. unfold sem_step, mini_os_semaphore_enable_kill. rewrite Hs. simpl.
  eexists. split; [done|].
  set (o := mini_os_obj_enable_kill_reports_timeout (sem_obj sm)).
  assert (mini_os_obj_is_destroyed o = mini_os_obj_is_destroyed (sem_obj sm) /\
          mini_os_obj_is_kill_enabled o = mini_os_obj_kill_reports_timeout o) as [Hd Hk].
  { subst o. unfold mini_os_obj_is_destroyed, mini_os_obj_is_kill_enabled, mini_os_obj_kill_reports_timeout, flag_set,
      MINI_OS_OBJ_FLAG_DESTROY, MINI_OS_OBJ_FLAG_KILL, MINI_OS_OBJ_FLAG_TIMEOUT. simpl.
    rewrite !Z.land_lor_distr_l. change (Z.land 12 2) with 0. change (Z.land 12 4) with 4. change (Z.land 12 8) with 8.
    rewrite Z.lor_0_r. split; [done|].
    assert (∀ x y, y ≠ 0 -> Z.lor x y =? 0 = false) as H.
    { intros x y Hy. apply Z.eqb_neq. intros E. apply Z.lor_eq_0_iff in E. tauto. }
    by rewrite !H. }
  apply (minv_sem m s sm); try done; try apply mi_returns; auto.
  split; cbn [sem_set_obj sem_obj sem_count sem_max_count]; try done. by rewrite Hd.
Qed.

Lemma to_binary_step m s :
  minv m -> sem_op_ok m (SToBinary s) -> ∃ m', sem_step m (SToBinary s) = Some m' /\ minv m'.
Proof.
  intros Hi [sm Hs]. pose proof (mi_sem _ Hi _ _ Hs) as []. destruct so_list0 as [l Hl].
  unfold sem_step, mini_os_semaphore_to_binary. rewrite Hs. simpl. rewrite Hl. simpl.
  destruct (Z.eqb_spec (sem_count sm) (sem_max_count sm)), (bool_decide_reflect (l = [])); simpl;
    (eexists; split; [done|try by rewrite machine_eta]).
  apply (minv_sem m s sm); simpl; try done; try apply mi_returns; auto; try lia.
  - intros s' Hne. by destruct (Z.eqb_spec s s') as [->|].
  - split; simpl; rewrite ?Z.eqb_refl; try done; eauto; lia.
Qed.

Lemma to_counting_step m s max_count :
  minv m -> sem_op_ok m (SToCounting s max_count) -> ∃ m', sem_step m (SToCounting s max_count) = Some m' /\ minv m'.
Proof.
  intros Hi [[sm Hs] Hm]. pose proof (mi_sem _ Hi _ _ Hs) as []. unfold sem_step, mini_os_semaphore_to_counting. rewrite Hs.
  destruct (Z.ltb_spec max_count 2); [eexists; split; [done|]; by rewrite machine_eta|]. simpl.
  destruct (Z.eqb_spec (sem_max_count sm) 1); (eexists; split; [done|try by rewrite machine_eta]).
  simpl. unfold is_u16 in *.
  apply (minv_sem m s sm); simpl; try done; try apply mi_returns; auto. split; simpl; try done; lia.
Qed.

(** A kernel that yields is the same but for the pending switch. *)
Lemma yield_minv m k l ins log :
  minv (mk_machine (set_kern (m_sync m) k) l ins log) -> minv (mk_machine (set_kern (m_sync m) (mini_os_schedule_yield k).2) l ins log).
Proof.
  intros Hi. pose proof (minv_kernel _ (mini_os_schedule_yield k).2 Hi) as H. simpl in H. apply H.
  - apply wf_pendsv, (mi_wf _ Hi).
  - exact (mi_level _ Hi).
  - split; eauto.
Qed.

Lemma waits_in_list k t th s l :
  wf k -> threads k !! t = Some th -> th_wait_list th = Some s -> wait_lists k !! s = Some l -> t ∈ l.
Proof.
  intros Hw Ht Hs Hl. assert (wait_of k t = Some s) as E by (unfold wait_of; by rewrite Ht).
  apply (wl_in _ _ (wf_waiting _ Hw)) in E as (l' & Hl' & Hin). congruence.
Qed.

Lemma wake_step_minv m s l t k' th :
  minv m -> wait_lists (kern (m_sync m)) !! s = Some l -> t ∈ l ->
  wf k' -> threads (kern (m_sync m)) !! t = Some th -> th_wait_list th = Some s ->
  frame (kern (m_sync m)) k' t (woken th true) ->
  minv (mk_machine (set_kern (m_sync m) k') (m_taking m) (m_inside m) (Received s (Some t) :: Given s :: m_log m)).
Proof.
  intros Hi Hl Hin Hw' Ht Hs Hf. pose proof Hi as [I1 I2 I3 I4 I5 I7 I6]. pose proof Hf as [F1 _ _ _ _ F6].
  destruct (I4 _ _ _ Ht Hs) as [Htk _].
  assert (th_wait_list (woken th true) = None /\ th_wait_status (woken th true) = true) as [W1 W2]
    by (unfold woken; by destruct (_ <? _)).
  split; simpl; try done.
  - eapply level_frame; [exact I2|exact Hf|left]. by rewrite woken_priority.
  - intros s' sm Hs'. destruct (I3 _ _ Hs'). split; try done.
    + rewrite <- elem_of_dom, F6. by apply elem_of_dom.
    + rewrite so_units0. simpl. destruct (Z.eqb_spec s s'); lia.
  - intros t' th' s'. rewrite F1. destruct (decide (t' = t)) as [->|Hne].
    + rewrite lookup_insert_eq. intros [= <-]. by rewrite W1.
    + rewrite lookup_insert_ne by done. apply I4.
  - intros t' s' Ht'. destruct (I5 _ _ Ht') as [? (th' & Hth' & Hd)]. split; [done|]. rewrite F1.
    destruct (decide (t' = t)) as [->|Hne].
    + rewrite lookup_insert_eq. eexists. split; [done|]. right. split; [done|]. by rewrite bool_decide_true.
    + rewrite lookup_insert_ne, bool_decide_false by congruence. eauto.
Qed.

Lemma give_step m s isr :
  minv m -> sem_op_ok m (SGive s isr) -> ∃ m', sem_step m (SGive s isr) = Some m' /\ minv m'.
Proof.
  intros Hi [sm Hs]. pose proof (mi_sem _ Hi _ _ Hs) as Hok. destruct (so_list _ _ _ _ _ _ Hok) as [l Hl].
  unfold sem_step. rewrite Hl. cbn [mbind option_bind].
  replace (if isr then _ else _) with (give_common (m_sync m) (Some s) (negb isr)) by by destruct isr.
  unfold give_common, mini_os_semaphore_wake_one, wake_oldest. rewrite Hl. cbn [mbind option_bind].
  destruct l as [|t l].
  - cbn [mbind option_bind]. rewrite Hs. cbn [mbind option_bind]. change (set_kern (m_sync m) (kern (m_sync m))) with (mk_sync (kern (m_sync m)) (sems (m_sync m))).
    destruct (Z.geb_spec (sem_count sm) (sem_max_count sm)).
    { eexists. split; [done|]. simpl. destruct m as [[? ?] ? ?]. done. }
    eexists. split; [done|]. simpl. destruct Hok. unfold u16. rewrite Z.mod_small by lia.
    apply (minv_sem m s sm); try done; simpl; try apply mi_returns; auto.
    + intros s' Hne. by destruct (Z.eqb_spec s s') as [->|].
    + split; simpl; rewrite ?Z.eqb_refl; try done; lia.
    + intros _ (t & th & Ht & Hth). pose proof (waits_in_list _ _ _ _ _ (mi_wf _ Hi) Ht Hth Hl) as Hin. by apply not_elem_of_nil in Hin.
  - destruct (wake_ok (kern (m_sync m)) s (t :: l) t true (mi_wf _ Hi) Hl) as (k' & th & -> & Hw' & Ht & Hth & Hf & _);
      [apply elem_of_cons; auto|]. cbn [mbind option_bind]. eexists. split; [done|].
    assert (minv (mk_machine (set_kern (m_sync m) k') (m_taking m) (m_inside m) (Received s (Some t) :: Given s :: m_log m))) as Hm.
    { eapply wake_step_minv; try done. apply elem_of_cons. auto. }
    destruct isr; simpl; [exact Hm|]. apply (yield_minv m k' _ _ _ Hm).
Qed.

(** The last reference to a deleted semaphore is gone. *)
Lemma free_minv m s sm :
  minv m -> sems (m_sync m) !! s = Some sm -> mini_os_obj_is_destroyed (sem_obj sm) = true -> obj_ref (sem_obj sm) = 0 ->
  minv (mk_machine (sem_free_storage (m_sync m) s) (m_taking m) (m_inside m) (m_log m)).
Proof.
  intros Hi Hs Hd Hr. pose proof (users_nonneg (m_taking m) s) as Hu1. pose proof (users_nonneg (places (m_inside m)) s) as Hu2. pose proof Hi as [I1 I2 I3 I4 I5 I7 I6]. pose proof (I3 _ _ Hs) as [[l Hl] _ _ _ _ Hu _].
  rewrite Hd, Hr in Hu. assert (∀ t, m_taking m !! t ≠ Some s) as Hno by (intros t; apply users_zero; lia).
  assert (∀ t th, threads (kern (m_sync m)) !! t = Some th -> th_wait_list th ≠ Some s) as Hnw.
  { intros t th Ht Hth. destruct (I4 _ _ _ Ht Hth) as [Ht' _]. by destruct (Hno t). }
  assert (l = []) as -> by by eapply no_waiter.
  destruct (kernel_step_ok false false _ (KObjectEnd s) I1 I2 Hl) as (k' & [= <-] & Hw & Hlev).
  apply (minv_change m _ _ s); simpl; try done; eauto.
  - intros s' Hne. by rewrite lookup_delete_ne.
  - intros s' Hne. by rewrite lookup_delete_ne.
  - intros sm'. by rewrite lookup_delete_eq.
  - lia.
  - intros t th Ht Hth. by destruct (Hnw t th).
Qed.

(** What a release leaves of a semaphore. *)
Definition released (sm : semaphore) : semaphore := sem_set_obj sm (mk_obj (obj_ref (sem_obj sm) - 1) (obj_flags (sem_obj sm))).
Lemma release_spec y s sm :
  sems y !! s = Some sm -> 0 < obj_ref (sem_obj sm) < 256 ->
  sem_release y s = Some (if (obj_ref (sem_obj (released sm)) =? 0) && mini_os_obj_is_destroyed (sem_obj (released sm))
                          then sem_free_storage (set_sem y s (released sm)) s else set_sem y s (released sm)).
Proof.
  intros Hs Hr. unfold sem_release. rewrite Hs. simpl. unfold mini_os_obj_release.
  destruct (Z.gtb_spec (obj_ref (sem_obj sm)) 0); [|lia]. simpl. unfold u8. rewrite Z.mod_small by lia.
  unfold sem_free_storage. simpl. by rewrite delete_insert_eq.
Qed.
(** A release keeps the invariant if the reference less does. *)
Lemma release_minv y s sm taking inside log :
  sems y !! s = Some sm -> minv (mk_machine (set_sem y s (released sm)) taking inside log) -> 0 < obj_ref (sem_obj sm) < 256 ->
  ∃ y', sem_release y s = Some y' /\ minv (mk_machine y' taking inside log).
Proof.
  intros Hs Hi Hr. rewrite (release_spec _ _ sm) by done. eexists. split; [done|].
  destruct (Z.eqb_spec (obj_ref (sem_obj (released sm))) 0); [|exact Hi].
  destruct (mini_os_obj_is_destroyed (sem_obj (released sm))) eqn:Ed; [|exact Hi].
  apply (free_minv _ s (released sm) Hi); [apply lookup_insert_eq|done|done].
Qed.

(** ** The parts of a take *)

(** The thread [c], not parked, goes on inside or out of a take of [s]. *)
Lemma minv_move m s sm' c inside' log' :
  minv m -> is_Some (sems (m_sync m) !! s) -> m_taking m !! c = None ->
  (∀ t, t ≠ c -> inside' !! t = m_inside m !! t) ->
  (∀ s' pc, inside' !! c = Some (s', pc) -> s' = s /\ ∀ timeout, pc = TkCount timeout -> -2147483648 <= timeout < 2147483648) ->
  (∀ s', s' ≠ s -> users (places inside') s' = users (places (m_inside m)) s') ->
  (∀ s', s' ≠ s -> units log' s' = units (m_log m) s') ->
  (∀ t s, m_taking m !! t = Some s -> received log' t = received (m_log m) t) -> returns_ok log' ->
  sem_ok (kern (m_sync m)) (m_taking m) inside' log' s sm' ->
  ((∃ t th, threads (kern (m_sync m)) !! t = Some th /\ th_wait_list th = Some s) -> sem_count sm' = 0) ->
  minv (mk_machine (set_sem (m_sync m) s sm') (m_taking m) inside' log').
Proof.
  intros [I1 I2 I3 I4 I5 I7 I6] Hs Hc Hne Hcc Hpl Hu Hr Hret Hok Hw.
  assert (∀ s', is_Some (sems (m_sync m) !! s') -> is_Some (sems (set_sem (m_sync m) s sm') !! s')) as Hsome.
  { intros s' Hs'. simpl. destruct (decide (s' = s)) as [->|]; [rewrite lookup_insert_eq; eauto|by rewrite lookup_insert_ne]. }
  split; cbn [m_sync m_taking m_inside m_log]; try done.
  - intros s' sm1. simpl. destruct (decide (s' = s)) as [->|Hn]; [rewrite lookup_insert_eq; by intros [= <-]|].
    rewrite lookup_insert_ne by done. intros Hs'. destruct (I3 _ _ Hs'). split; try done; [by rewrite Hu|by rewrite Hpl].
  - intros t th s' Ht Hs'. destruct (I4 _ _ _ Ht Hs') as [? (sm1 & Hs1 & Hz)]. split; [done|]. simpl.
    destruct (decide (s' = s)) as [->|Hn]; [rewrite lookup_insert_eq; eauto 10|rewrite lookup_insert_ne by done; eauto].
  - intros t s' Ht. destruct (I5 _ _ Ht) as (Hs' & th & Hth & Hd). split; [auto|]. exists th. split; [done|]. by rewrite (Hr t s' Ht).
  - intros t s' pc Ht. destruct (decide (t = c)) as [->|Hn].
    + destruct (Hcc _ _ Ht) as [-> Hpc]. auto.
    + rewrite Hne in Ht by done. destruct (I7 _ _ _ Ht) as (? & ? & ?). auto.
Qed.

Definition acquired (sm : semaphore) : semaphore := sem_set_obj sm (mk_obj (obj_ref (sem_obj sm) + 1) (obj_flags (sem_obj sm))).
Lemma enter_eq y s sm :
  sems y !! s = Some sm -> 0 <= obj_ref (sem_obj sm) < 255 ->
  sem_take_enter y s = Some (if mini_os_obj_is_destroyed (sem_obj sm) then (MINI_OS_ERR_REJECT, y) else (MINI_OK, set_sem y s (acquired sm))).
Proof.
  intros Hs Hr. unfold sem_take_enter. rewrite Hs. cbn [mbind option_bind].
  destruct (mini_os_obj_is_destroyed (sem_obj sm)) eqn:Ed; [unfold mini_os_obj_acquire; by rewrite Ed|by rewrite acquire_ok].
Qed.
Lemma enter_minv m c s sm timeout :
  minv m -> sems (m_sync m) !! s = Some sm -> obj_ref (sem_obj sm) < 255 -> m_taking m !! c = None -> m_inside m !! c = None ->
  -2147483648 <= timeout < 2147483648 ->
  minv (mk_machine (set_sem (m_sync m) s (acquired sm)) (m_taking m) (<[c := (s, TkCount timeout)]> (m_inside m)) (m_log m)).
Proof.
  intros Hi Hs Hr Hc Hn Ht. pose proof (mi_sem _ Hi _ _ Hs) as Hok. apply (minv_move m s _ c); try done; eauto using mi_returns.
  - intros t Hne. by rewrite lookup_insert_ne.
  - intros s' pc. rewrite lookup_insert_eq. intros [= <- <-]. split; [done|]. by intros ? [= <-].
  - intros s' Hne. rewrite places_insert, decide_False by done. lia.
  - destruct Hok. split; simpl; try done; [|lia]. rewrite places_insert, decide_True by done.
    unfold mini_os_obj_is_destroyed, flag_set in *. simpl. lia.
  - intros (t & th & Ht' & Hth). destruct (mi_wait _ Hi _ _ _ Ht' Hth) as [_ (sm1 & ? & ?)]. simplify_eq. done.
Qed.

Lemma leave_minv m c s rc :
  minv m -> m_inside m !! c = Some (s, TkLeave rc) ->
  ∃ y, sem_release (m_sync m) s = Some y /\ minv (mk_machine y (m_taking m) (delete c (m_inside m)) (m_log m)).
Proof.
  intros Hi Hc. destruct (mi_inside _ Hi _ _ _ Hc) as ([sm Hs] & Hn & _). pose proof (mi_sem _ Hi _ _ Hs) as Hok.
  pose proof (places_some _ _ _ _ Hc) as Hp. pose proof (users_nonneg (m_taking m) s) as Hu.
  assert (0 < obj_ref (sem_obj sm) < 256) as Hr by (destruct Hok; destruct (mini_os_obj_is_destroyed _); lia).
  apply (release_minv _ _ sm); [done| |done]. apply (minv_move m s _ c); try done; eauto using mi_returns.
  - intros t Hne. by rewrite lookup_delete_ne.
  - intros s' pc. by rewrite lookup_delete_eq.
  - intros s' Hne. rewrite (places_delete _ _ _ _ _ Hc), decide_False by done. lia.
  - destruct Hok. split; simpl; try done; [|lia]. rewrite (places_delete _ _ _ _ _ Hc), decide_True by done.
    unfold mini_os_obj_is_destroyed, flag_set in *. simpl. lia.
  - intros (t & th & Ht' & Hth). destruct (mi_wait _ Hi _ _ _ Ht' Hth) as [_ (sm1 & ? & ?)]. simplify_eq. done.
Qed.

(** The thread [c] is handed to the wait of [s]. *)
Lemma park_minv m c s sm timeout k' (th' : thread) :
  minv m -> current_thread (kern (m_sync m)) = Some c -> m_inside m !! c = Some (s, TkCount timeout) ->
  sems (m_sync m) !! s = Some sm -> sem_count sm = 0 -> wf k' -> current_level k' ->
  frame (kern (m_sync m)) k' c th' -> th_wait_list th' = Some s ->
  minv (mk_machine (set_kern (m_sync m) k') (<[c := s]> (m_taking m)) (delete c (m_inside m)) (Parked s c :: m_log m)).
Proof.
  intros Hi Ec Hc Hs Hz Hw' Hl' Hf Hth1. pose proof Hi as [I1 I2 I3 I4 I5 I7 I6]. destruct (I7 _ _ _ Hc) as (_ & Hcn & _).
  pose proof Hf as [F1 _ _ _ _ F6]. split; simpl; try done.
  - intros s' sm' Hs'. destruct (I3 _ _ Hs') as []. split; simpl; try done.
    + rewrite <- elem_of_dom, F6. by apply elem_of_dom.
    + rewrite users_insert, (places_delete _ _ _ _ _ Hc) by done. destruct (decide (s' = s)); lia.
  - intros t thx s'. rewrite F1. destruct (decide (t = c)) as [->|Hne].
    + rewrite !lookup_insert_eq. intros [= <-] Hs'. assert (s' = s) as -> by congruence. eauto.
    + rewrite !(lookup_insert_ne _ c) by done. apply I4.
  - intros t s'. rewrite F1. destruct (decide (t = c)) as [->|Hne].
    + rewrite !lookup_insert_eq. intros [= <-]. split; [eauto|]. exists th'. split; [done|]. left. by rewrite Z.eqb_refl.
    + rewrite !(lookup_insert_ne _ c) by done. intros Ht'. destruct (I5 _ _ Ht') as [Hs' Hx]. split; [done|].
      by destruct (Z.eqb_spec c t); [congruence|].
  - intros t s' pc. destruct (decide (t = c)) as [->|Hne]; [by rewrite lookup_delete_eq|].
    rewrite lookup_delete_ne by done. intros Ht'. destruct (I7 _ _ _ Ht') as (? & ? & ?). by rewrite lookup_insert_ne.
Qed.

(** The section with the count. *)
Lemma turn_minv m c s timeout :
  minv m -> may_call (kern (m_sync m)) -> current_thread (kern (m_sync m)) = Some c -> m_inside m !! c = Some (s, TkCount timeout) ->
  (∃ rc y, sem_take_turn (m_sync m) s timeout = Some (inl (rc, y)) /\
     minv (mk_machine y (m_taking m) (<[c := (s, TkLeave rc)]> (m_inside m)) (if rc =? MINI_OK then Received s (Some c) :: m_log m else m_log m))) \/
  (∃ y, sem_take_turn (m_sync m) s timeout = Some (inr y) /\
     minv (mk_machine y (<[c := s]> (m_taking m)) (delete c (m_inside m)) (Parked s c :: m_log m))).
Proof.
  intros Hi Hmay Ec Hc. destruct (mi_inside _ Hi _ _ _ Hc) as ([sm Hs] & Hn & Hto). specialize (Hto _ eq_refl).
  pose proof (mi_sem _ Hi _ _ Hs) as Hok. unfold sem_take_turn. rewrite Hs. cbn [mbind option_bind].
  assert (∀ rc log' sm', sem_ok (kern (m_sync m)) (m_taking m) (m_inside m) log' s sm' ->
    (∀ s', s' ≠ s -> units log' s' = units (m_log m) s') -> (∀ t s, m_taking m !! t = Some s -> received log' t = received (m_log m) t) ->
    returns_ok log' -> ((∃ t th, threads (kern (m_sync m)) !! t = Some th /\ th_wait_list th = Some s) -> sem_count sm' = 0) ->
    minv (mk_machine (set_sem (m_sync m) s sm') (m_taking m) (<[c := (s, TkLeave rc)]> (m_inside m)) log')) as Hgo.
  { intros rc log' sm' Hok' Hu Hr Hret Hw. apply (minv_move m s _ c); try done; eauto.
    - intros t Hne. by rewrite lookup_insert_ne.
    - intros s' pc. rewrite lookup_insert_eq. by intros [= <- <-].
    - intros s' _. by rewrite (places_update _ _ _ _ _ Hc).
    - destruct Hok'. split; try done. by rewrite (places_update _ _ _ _ _ Hc). }
  assert ((∃ t th, threads (kern (m_sync m)) !! t = Some th /\ th_wait_list th = Some s) -> sem_count sm = 0) as Hwz.
  { intros (t & th & Ht' & Hth). destruct (mi_wait _ Hi _ _ _ Ht' Hth) as [_ (sm1 & ? & ?)]. simplify_eq. done. }
  destruct (Z.gtb_spec (sem_count sm) 0) as [Hp|Hp].
  { left. eexists _, _. split; [done|]. rewrite Z.eqb_refl. apply Hgo.
    - destruct Hok. split; simpl; try done; [lia|]. rewrite Z.eqb_refl. lia.
    - intros s' Hne. simpl. by destruct (Z.eqb_spec s s') as [->|].
    - intros t s' Ht'. simpl. rewrite bool_decide_false by congruence. done.
    - apply (mi_returns _ Hi).
    - intros H. specialize (Hwz H). lia. }
  assert (∀ rc, rc ≠ MINI_OK -> minv (mk_machine (m_sync m) (m_taking m) (<[c := (s, TkLeave rc)]> (m_inside m)) (if rc =? MINI_OK then Received s (Some c) :: m_log m else m_log m))) as Hno.
  { intros rc Hrc. destruct (Z.eqb_spec rc MINI_OK); [done|]. rewrite <- (set_sem_same _ _ _ Hs). apply Hgo; try done; apply (mi_returns _ Hi). }
  destruct (Z.eqb_spec timeout 0) as [|Hn0]; [left; eexists _, _; split; [done|]; by apply Hno|].
  rewrite bool_decide_false by congruence. right.
  destruct (park_ok (kern (m_sync m)) s 0 timeout s (mi_wf _ Hi) Hmay (so_list _ _ _ _ _ _ Hok) Hto)
    as [[_ [?|?]]|(c' & th & k' & Ec' & _ & Hth & -> & Hw' & Hl' & Hf & Hwl)]; [done|congruence|].
  assert (c' = c) as -> by congruence. cbn [mbind option_bind]. eexists. split; [done|].
  eapply (park_minv m c s sm timeout); try done; [destruct Hok; lia|apply Hl', Hi|].
  destruct (waiting_on_fields th s 0 s) as (? & ? & ? & ? & _). by destruct (timeout =? _).
Qed.

(** The thread comes back from its park. *)
Lemma woken_minv m c s :
  minv m -> may_call (kern (m_sync m)) -> current_thread (kern (m_sync m)) = Some c -> m_taking m !! c = Some s ->
  ∃ rc k, sync_wait_resume (kern (m_sync m)) c = Some (rc, k) /\
    minv (mk_machine (set_kern (m_sync m) k) (delete c (m_taking m)) (<[c := (s, TkLeave rc)]> (m_inside m)) (Returned s c rc :: m_log m)).
Proof.
  intros Hi Hmay Ec Etk. pose proof Hi as [I1 I2 I3 I4 I5 I7 I6].
  destruct (I5 _ _ Etk) as [Hs (th & Hth & Hd)].
  destruct Hd as [[Hwl _]|[Hwl Hst]].
  { exfalso. pose proof (caller_runs _ _ _ Hmay Ec Hth) as Hr.
    assert (th_state th = THREAD_BLOCKED) by (apply (to_wait _ _ _ (wf_threads _ I1 _ _ Hth)); by rewrite Hwl). congruence. }
  assert (m_inside m !! c = None) as Hin.
  { destruct (m_inside m !! c) as [[s' pc]|] eqn:E; [|done]. destruct (I7 _ _ _ E) as (_ & ? & _). congruence. }
  unfold sync_wait_resume. rewrite Hth. cbn [mbind option_bind]. eexists _, _. split; [done|].
  set (th' := mini_os_sync_wait_ref_pop (th_set_wait_status th true)). rewrite Hst. split; simpl; try done.
  - eapply wf_set_thread; [exact I1|exact Hth|done|done|]. destruct (wf_threads _ I1 _ _ Hth). by split.
  - eapply level_frame; [exact I2|apply frame_set|by left].
  - intros s' sm' Hs'. destruct (I3 _ _ Hs'). split; try done.
    rewrite (users_delete _ _ _ _ Etk), places_insert by done. destruct (decide (s' = s)); lia.
  - intros t thx s'. destruct (decide (t = c)) as [->|Hne].
    + rewrite lookup_insert_eq. intros [= <-]. simpl. congruence.
    + rewrite lookup_insert_ne, lookup_delete_ne by done. apply I4.
  - intros t s'. destruct (decide (t = c)) as [->|Hne]; [by rewrite lookup_delete_eq|].
    rewrite lookup_delete_ne, (lookup_insert_ne _ c) by done. apply I5.
  - intros t s' pc. destruct (decide (t = c)) as [->|Hne].
    + rewrite lookup_insert_eq, lookup_delete_eq. intros [= <- <-]. by split.
    + rewrite lookup_insert_ne by done. intros Ht'. destruct (I7 _ _ _ Ht') as (? & ? & ?). by rewrite lookup_delete_ne.
Qed.

(** ** The steps of a take *)

Lemma enter_step m s timeout :
  minv m -> sem_op_ok m (SEnter s timeout) -> ∃ m', sem_step m (SEnter s timeout) = Some m' /\ minv m'.
Proof.
  intros Hi (Hr & Hmay & Hcur & Hfree & Ht). unfold sem_step. destruct (sems (m_sync m) !! s) as [sm|] eqn:Hs; [|done].
  unfold free_call in Hfree. destruct (current_thread (kern (m_sync m))) as [c|]; [|done]. destruct Hfree as [Hc Hn]. cbn [mbind option_bind].
  pose proof (so_ref_nonneg _ _ _ _ _ _ (mi_sem _ Hi _ _ Hs)). rewrite (enter_eq _ _ _ Hs) by lia. cbn [mbind option_bind].
  destruct (mini_os_obj_is_destroyed (sem_obj sm)); eexists; (split; [done|]); simpl; [by rewrite machine_eta|by eapply enter_minv].
Qed.
Lemma turn_step m : minv m -> sem_op_ok m STurn -> ∃ m', sem_step m STurn = Some m' /\ minv m'.
Proof.
  intros Hi [Hmay Hc]. unfold sem_step. destruct (current_thread (kern (m_sync m))) as [c|] eqn:Ec; [|done]. cbn [mbind option_bind] in Hc |- *.
  destruct (m_inside m !! c) as [[s [timeout|]]|] eqn:Hin; [|done..]. cbn [mbind option_bind].
  destruct (turn_minv m c s timeout Hi Hmay Ec Hin) as [(rc & y & -> & Hm)|(y & -> & Hm)]; cbn [mbind option_bind]; eauto.
Qed.
Lemma woken_step m : minv m -> sem_op_ok m SWoken -> ∃ m', sem_step m SWoken = Some m' /\ minv m'.
Proof.
  intros Hi [Hmay Hc]. unfold sem_step. destruct (current_thread (kern (m_sync m))) as [c|] eqn:Ec; [|done]. cbn [mbind option_bind] in Hc |- *.
  destruct (m_taking m !! c) as [s|] eqn:Htk; [|done]. cbn [mbind option_bind].
  destruct (woken_minv m c s Hi Hmay Ec Htk) as (rc & k & -> & Hm). cbn [mbind option_bind]. eauto.
Qed.
Lemma leave_step m : minv m -> sem_op_ok m SLeave -> ∃ m', sem_step m SLeave = Some m' /\ minv m'.
Proof.
  intros Hi [Hmay Hc]. unfold sem_step. destruct (current_thread (kern (m_sync m))) as [c|] eqn:Ec; [|done]. cbn [mbind option_bind] in Hc |- *.
  destruct (m_inside m !! c) as [[s [|rc]]|] eqn:Hin; [done| |done]. cbn [mbind option_bind].
  destruct (leave_minv m c s rc Hi Hin) as (y & -> & Hm). cbn [mbind option_bind]. eauto.
Qed.

(** A take that runs through: in a thread it is its three parts. *)
Lemma take_step m s timeout :
  minv m -> sem_op_ok m (STake s timeout) -> ∃ m', sem_step m (STake s timeout) = Some m' /\ minv m'.
Proof.
  intros Hi (Hr & Hmay & Hfree & Ht). unfold sem_step. destruct (sems (m_sync m) !! s) as [sm|] eqn:Hs; [|done].
  pose proof (mi_sem _ Hi _ _ Hs) as Hok. pose proof (so_ref_nonneg _ _ _ _ _ _ Hok). unfold free_call in Hfree.
  destruct (current_thread (kern (m_sync m))) as [c|] eqn:Ec.
  - destruct Hfree as [Hc Hn]. unfold mini_os_semaphore_take. rewrite (enter_eq _ _ _ Hs) by lia. cbn [mbind option_bind].
    destruct (mini_os_obj_is_destroyed (sem_obj sm)); [eexists; split; [done|]; by rewrite machine_eta|].
    change (negb (MINI_OK =? MINI_OK)) with false. cbn iota.
    pose proof (enter_minv m c s sm timeout Hi Hs Hr Hc Hn Ht) as Hm. set (m1 := mk_machine _ _ _ _) in Hm.
    destruct (turn_minv m1 c s timeout Hm Hmay Ec (lookup_insert_eq _ _ _)) as [(rc & y & E & Hm2)|(y & E & Hm2)];
      change (m_sync m1) with (set_sem (m_sync m) s (acquired sm)) in E; rewrite E; cbn [mbind option_bind].
    + destruct (leave_minv _ c s rc Hm2 (lookup_insert_eq _ _ _)) as (y' & E' & Hm3). change (m_sync (mk_machine y _ _ _)) with y in E'.
      rewrite E'. cbn [mbind option_bind]. eexists. split; [done|]. simpl in Hm3. by rewrite insert_insert_eq, delete_insert_id in Hm3.
    + eexists. split; [done|]. simpl in Hm2. by rewrite delete_insert_id in Hm2.
  - rewrite (take_eq _ _ _ _ Hs) by lia. rewrite Ec. rewrite (bool_decide_true (None = None)) by done.
    destruct (mini_os_obj_is_destroyed (sem_obj sm)); [eexists; split; [done|]; by rewrite machine_eta|].
    destruct (Z.gtb_spec (sem_count sm) 0); [|destruct (timeout =? 0); (eexists; split; [done|]; by rewrite machine_eta)].
    eexists. split; [done|]. simpl. apply (minv_sem m s sm); try done; simpl; try apply mi_returns; try done; try lia.
    + intros s' Hne. by destruct (Z.eqb_spec s s') as [->|].
    + destruct Hok. split; simpl; try done; try lia. rewrite Z.eqb_refl. lia.
Qed.
Lemma resume_step m : minv m -> sem_op_ok m SResume -> ∃ m', sem_step m SResume = Some m' /\ minv m'.
Proof.
  intros Hi [Hmay Hc]. unfold sem_step. destruct (current_thread (kern (m_sync m))) as [c|] eqn:Ec; [|done]. cbn [mbind option_bind] in Hc |- *.
  destruct (m_taking m !! c) as [s|] eqn:Htk; [|done]. cbn [mbind option_bind]. unfold sem_take_resume.
  destruct (woken_minv m c s Hi Hmay Ec Htk) as (rc & k & -> & Hm). cbn [mbind option_bind].
  destruct (leave_minv _ c s rc Hm (lookup_insert_eq _ _ _)) as (y & E & Hm2). simpl in E, Hm2. rewrite E. cbn [mbind option_bind].
  eexists. split; [done|]. rewrite delete_insert_id in Hm2; [done|].
  destruct (m_inside m !! c) as [[s' pc]|] eqn:E'; [|done]. destruct (mi_inside _ Hi _ _ _ E') as (_ & ? & _). congruence.
Qed.

(** The waiters a deletion puts out. *)
Lemma drained k s l o :
  wf k -> current_level k -> wait_lists k !! s = Some l ->
  mini_os_obj_is_kill_enabled o = mini_os_obj_kill_reports_timeout o -> (l = [] \/ mini_os_obj_is_kill_enabled o = true) ->
  ∃ killed k', (if negb (bool_decide (l = [])) then mini_os_semaphore_kill_waiters k s o else Some (false, k)) = Some (killed, k') /\
    wf k' /\ current_level k' /\ no_grant k k' /\ ∀ t th, threads k' !! t = Some th -> th_wait_list th ≠ Some s.
Proof.
  intros Hw Hlev Hl Hk Hd. destruct (bool_decide_reflect (l = [])) as [->|Hne].
  - exists false, k. repeat (split; [done|]). split; [apply no_grant_refl|]. intros t th Ht Hs.
    pose proof (waits_in_list _ _ _ _ _ Hw Ht Hs Hl) as Hin. by apply not_elem_of_nil in Hin.
  - destruct Hd as [|Hd]; [done|]. simpl. unfold mini_os_semaphore_kill_waiters, mini_os_obj_kill_error. rewrite <- Hk, Hd.
    change (MINI_ERR_TIMEOUT =? MINI_OS_ERR_DEAD) with false. unfold mini_os_sync_wake_all. rewrite Hl. simpl.
    destruct (wake_loop_ok s false l k l Hw Hl) as (k' & -> & Hw' & [V1 V2 V3 V4 V5] & _ & Ht');
      [apply (wl_nodup _ _ (wf_waiting _ Hw) _ _ Hl)|done|].
    simpl. eexists _, _. split; [done|]. split; [done|]. split; [|split].
    + eapply level_threads; [exact Hlev|done..|]. intros t th' E. rewrite Ht' in E. destruct (decide (t ∈ l)); [|eauto].
      destruct (threads k !! t) as [th|]; [|done]. injection E as <-. exists th. by rewrite woken_priority.
    + assert (∀ th, th_wait_list (woken th false) = None /\ th_wait_status (woken th false) = false) as Hwk
        by (intros th; unfold woken; by destruct (_ <? _)).
      split; [done| |].
      * intros t th Ht. rewrite Ht', Ht. destruct (decide (t ∈ l)) as [Hin|]; [|eauto]. simpl. eexists. split; [done|]. right.
        destruct (waiter_spec _ _ _ _ Hw Hl Hin) as (th0 & Ht0 & Hs & _). assert (th0 = th) as -> by congruence. rewrite Hs.
        destruct (Hwk th). done.
      * intros t th'. rewrite Ht'. destruct (decide (t ∈ l)); [|eauto]. by destruct (threads k !! t).
    + intros t th. rewrite Ht'. destruct (decide (t ∈ l)) as [Hin|Hn].
      * destruct (threads k !! t) as [th0|]; [|done]. intros [= <-]. unfold woken. by destruct (_ <? _).
      * intros Ht Hs. by apply Hn, (waits_in_list _ _ _ _ _ Hw Ht Hs Hl).
Qed.

(** The record after a destroy request that leaves users. *)
Definition doomed (sm : semaphore) : semaphore :=
  sem_set_obj sm (mk_obj (obj_ref (sem_obj sm) - 1) (Z.lor (obj_flags (sem_obj sm)) MINI_OS_OBJ_FLAG_DESTROY)).
Lemma doomed_flags sm :
  mini_os_obj_is_destroyed (sem_obj (doomed sm)) = true /\
  mini_os_obj_is_kill_enabled (sem_obj (doomed sm)) = mini_os_obj_is_kill_enabled (sem_obj sm) /\
  mini_os_obj_kill_reports_timeout (sem_obj (doomed sm)) = mini_os_obj_kill_reports_timeout (sem_obj sm).
Proof.
  unfold mini_os_obj_is_destroyed, mini_os_obj_is_kill_enabled, mini_os_obj_kill_reports_timeout, flag_set,
    MINI_OS_OBJ_FLAG_DESTROY, MINI_OS_OBJ_FLAG_KILL, MINI_OS_OBJ_FLAG_TIMEOUT. simpl. rewrite !Z.land_lor_distr_l.
  change (Z.land MINI_OS_OBJ_FLAG_DESTROY 2) with 2. change (Z.land MINI_OS_OBJ_FLAG_DESTROY 4) with 0.
  change (Z.land MINI_OS_OBJ_FLAG_DESTROY 8) with 0. rewrite !Z.lor_0_r. split; [|done].
  destruct (Z.eqb_spec (Z.lor (Z.land (obj_flags (sem_obj sm)) 2) 2) 0) as [E|]; [|done].
  apply Z.lor_eq_0_iff in E as [_ ?]. done.
Qed.

Lemma doom_minv m s sm k :
  minv m -> sems (m_sync m) !! s = Some sm -> mini_os_obj_is_destroyed (sem_obj sm) = false ->
  wf k -> current_level k -> no_grant (kern (m_sync m)) k ->
  (∀ t th, threads k !! t = Some th -> th_wait_list th ≠ Some s) ->
  minv (mk_machine (set_sem (set_kern (m_sync m) k) s (doomed sm)) (m_taking m) (m_inside m) (m_log m)).
Proof.
  intros Hi Hs Hd Hw Hl Hg Hn. pose proof (minv_kernel m k Hi Hw Hl Hg) as Hk. destruct (doomed_flags sm) as (F1 & F2 & F3).
  apply (minv_sem _ s sm (doomed sm) (m_log m) Hk); try done; [apply (mi_returns _ Hi)|].
  destruct (mi_sem _ Hk _ _ Hs) as []. split; try done.
  - by rewrite F2, F3.
  - rewrite F1. simpl in *. rewrite Hd in so_users0. lia.
  - simpl in *. lia.
Qed.

Lemma delete_step m s static :
  minv m -> sem_op_ok m (SDelete s static) -> ∃ m', sem_step m (SDelete s static) = Some m' /\ minv m'.
Proof.
  intros Hi Hok. simpl in Hok. destruct (sems (m_sync m) !! s) as [sm|] eqn:Hs; [|done].
  pose proof (mi_sem _ Hi _ _ Hs) as [[l Hl] O2 O3 O4 O5 O6 O7]. pose proof (users_nonneg (m_taking m) s) as Hu.
  pose proof (users_nonneg (places (m_inside m)) s) as Hu'.
  rewrite Hok in O6. unfold sem_step.
  replace (if static then _ else _) with (mini_os_semaphore_delete_common (m_sync m) (Some s) static) by by destruct static.
  unfold mini_os_semaphore_delete_common. rewrite Hs. cbn [mbind option_bind].
  destruct (negb (eqb _ static)); [eexists; split; [done|]; by rewrite machine_eta|].
  destruct (_ && _) eqn:E1; [eexists; split; [done|]; by rewrite machine_eta|].
  rewrite Hl. cbn [mbind option_bind].
  destruct (negb (bool_decide (l = [])) && _) eqn:E2; [eexists; split; [done|]; by rewrite machine_eta|].
  destruct (drained (kern (m_sync m)) s l (sem_obj sm) (mi_wf _ Hi) (mi_level _ Hi) Hl O2) as (killed & k' & -> & Hw & Hlev & Hg & Hn).
  { destruct (bool_decide_reflect (l = [])); [auto|]. right. by destruct (mini_os_obj_is_kill_enabled (sem_obj sm)). }
  cbn [mbind option_bind]. pose proof (doom_minv m s sm k' Hi Hs Hok Hw Hlev Hg Hn) as Hm.
  assert (∃ ref reclaim, mini_os_obj_request_destroy (sem_obj sm) = (ref, reclaim, sem_obj (doomed sm)) /\
    (reclaim = true -> obj_ref (sem_obj (doomed sm)) = 0)) as (ref & reclaim & -> & Hrec).
  { unfold mini_os_obj_request_destroy. simpl. destruct (Z.gtb_spec (obj_ref (sem_obj sm)) 0); [|lia].
    unfold u8. simpl. rewrite Z.mod_small by lia.
    destruct (Z.gtb_spec (obj_ref (sem_obj sm) - 1) 0); eexists _, _; (split; [reflexivity|]); [done|]. intros _. lia. }
  change (sem_set_obj sm (sem_obj (doomed sm))) with (doomed sm). cbn [mbind option_bind].
  set (y' := if reclaim then _ else _).
  assert (minv (mk_machine y' (m_taking m) (m_inside m) (m_log m))) as Hm'.
  { subst y'. destruct reclaim; [|exact Hm].
    apply (free_minv _ s (doomed sm) Hm); [apply lookup_insert_eq|apply doomed_flags|auto]. }
  eexists. split; [done|]. destruct killed; [|exact Hm'].
  apply (minv_kernel _ (mini_os_schedule_yield (kern y')).2 Hm'); simpl.
  - apply wf_pendsv, (mi_wf _ Hm').
  - exact (mi_level _ Hm').
  - split; eauto.
Qed.

Lemma sem_step_ok m op : minv m -> sem_op_ok m op -> ∃ m', sem_step m op = Some m' /\ minv m'.
Proof.
  destruct op.
  - apply kernel_part_step.
  - apply create_step.
  - apply delete_step.
  - apply enable_kill_step.
  - apply to_binary_step.
  - apply to_counting_step.
  - apply take_step.
  - apply resume_step.
  - apply enter_step.
  - apply turn_step.
  - apply woken_step.
  - apply leave_step.
  - apply give_step.
Qed.
Lemma sem_run_ok m ops :
  minv m -> sem_ops_ok time_slice long_time m ops -> ∃ m', sem_run time_slice long_time m ops = Some m' /\ minv m'.
Proof.
  revert m. induction ops as [|op ops IH]; intros m Hi; simpl; [eauto|]. intros [Hop Hops].
  destruct (sem_step_ok m op Hi Hop) as (m1 & E & Hi1). rewrite E in Hops |- *. simpl. eauto.
Qed.
End invariant.

Definition boot_machine : machine := mk_machine (mk_sync boot_kernel ∅) ∅ ∅ [].
Lemma boot_minv : minv boot_machine.
Proof.
  split; simpl; try done. apply boot_wf.
Qed.

(** ** Calls on a semaphore that is not deleted *)

Lemma release_alive o :
  mini_os_obj_is_destroyed o = false ->
  ∃ o', mini_os_obj_release o = (false, o') /\ mini_os_obj_is_destroyed o' = false.
Proof.
  intros Hd. unfold mini_os_obj_release.
  destruct (obj_ref o >? 0); [exists (mk_obj (u8 (obj_ref o - 1)) (obj_flags o))|exists o]; simpl; (split; [|exact Hd]).
  - unfold mini_os_obj_is_destroyed, flag_set in *. simpl. by rewrite Hd, andb_false_r.
  - by rewrite Hd, andb_false_r.
Qed.
Lemma acquire_alive o :
  mini_os_obj_is_destroyed o = false ->
  ∃ o', mini_os_obj_acquire o = (MINI_OK, o') /\ mini_os_obj_is_destroyed o' = false.
Proof. intros Hd. unfold mini_os_obj_acquire. rewrite Hd. eexists. by split. Qed.

Lemma sem_release_alive y s sm :
  sems y !! s = Some sm -> mini_os_obj_is_destroyed (sem_obj sm) = false ->
  ∃ o', sem_release y s = Some (set_sem y s (sem_set_obj sm o')) /\ mini_os_obj_is_destroyed o' = false.
Proof.
  intros Hs Hd. unfold sem_release. rewrite Hs. cbn [mbind option_bind]. destruct (release_alive _ Hd) as (o' & -> & Hd'). eauto.
Qed.

(** The take of a semaphore that is not deleted, up to its reference count. *)
Lemma take_alive y s sm timeout :
  sems y !! s = Some sm -> mini_os_obj_is_destroyed (sem_obj sm) = false ->
  ∃ o o1, mini_os_obj_is_destroyed o = false /\ mini_os_obj_is_destroyed o1 = false /\
  mini_os_semaphore_take y (Some s) timeout =
    let y1 := set_sem y s (sem_set_obj sm o1) in
    if sem_count sm >? 0 then Some (inl (MINI_OK, set_sem y s (mk_sem (sem_count sm - 1) (sem_max_count sm) o))) else
    if timeout =? 0 then Some (inl (MINI_ERR_AGAIN, set_sem y s (sem_set_obj sm o))) else
    if bool_decide (current_thread (kern y) = None) then Some (inl (MINI_ERR_INVAL, set_sem y s (sem_set_obj sm o))) else
    r ← mini_os_sync_wait_park (kern y) (Some s) 0 timeout s;
    match r with
    | inl (err, k) => y ← sem_release (set_kern y1 k) s; Some (inl (err, y))
    | inr k => Some (inr (set_kern y1 k))
    end.
Proof.
  intros Hs Hd. unfold mini_os_semaphore_take, sem_take_enter. rewrite Hs. cbn [mbind option_bind].
  destruct (acquire_alive _ Hd) as (o1 & -> & Hd1). rewrite Z.eqb_refl. cbn [mbind option_bind negb]. rewrite Z.eqb_refl. cbn [negb].
  destruct (release_alive _ Hd1) as (o & E & Ho). exists o, o1. split; [done|]. split; [done|]. cbv zeta.
  assert (∀ c, sem_release (set_sem y s (mk_sem c (sem_max_count sm) o1)) s = Some (set_sem y s (mk_sem c (sem_max_count sm) o))) as Hrel.
  { intros c. unfold sem_release. cbn [set_sem sems]. rewrite lookup_insert_eq. cbn [mbind option_bind sem_obj]. rewrite E. by rewrite set_sem_twice. }
  unfold sem_take_turn. cbn [set_sem sems kern]. rewrite lookup_insert_eq. cbn [mbind option_bind sem_set_obj sem_count].
  destruct (sem_count sm >? 0); [cbn [mbind option_bind]; unfold sem_set_count; simpl sem_max_count; simpl sem_obj; by rewrite set_sem_twice, Hrel|].
  destruct (timeout =? 0); [cbn [mbind option_bind]; unfold sem_set_obj; by rewrite Hrel|].
  destruct (bool_decide _); [cbn [mbind option_bind]; unfold sem_set_obj; by rewrite Hrel|].
  by destruct (mini_os_sync_wait_park (kern y) (Some s) 0 timeout s) as [[[err k]|k]|].
Qed.

(** ** The theorems *)

(** C10: Under every sequence of creations, conversions, takes with any time limit, gives from
    threads and interrupts, deletions, ticks and switches, also between the three critical
    sections of a take, the count of a semaphore is the units it was stocked with plus those
    given less those received, between zero and its capacity; nobody waits while a unit is
    there; and a take that had to wait returns success exactly when a unit was handed to it,
    and otherwise a timeout.  The callers keep to [sem_op_ok]: a semaphore that is named is
    there and is deleted once, and fewer than 255 calls are inside it. *)
Theorem semaphore_accounts time_slice long_time ops :
  sem_ops_ok time_slice long_time boot_machine ops ->
  ∃ m, sem_run time_slice long_time boot_machine ops = Some m /\
    (∀ s sm, sems (m_sync m) !! s = Some sm ->
       sem_count sm = units (m_log m) s /\ 0 <= sem_count sm <= sem_max_count sm /\
       (∀ l, wait_lists (kern (m_sync m)) !! s = Some l -> sem_count sm = 0 \/ l = [])) /\
    returns_ok (m_log m).
Proof.
  intros Hok. destruct (sem_run_ok time_slice long_time _ ops boot_minv Hok) as (m & E & Hi). exists m. split; [done|].
  split; [|apply (mi_returns _ Hi)]. intros s sm Hs. destruct (mi_sem _ Hi _ _ Hs) as []. split; [done|]. split; [done|].
  intros l Hl. destruct l as [|t l]; [auto|]. left.
  destruct (waiter_spec _ _ _ t (mi_wf _ Hi) Hl) as (th & Ht & Hth & _); [apply elem_of_cons; auto|].
  destruct (mi_wait _ Hi _ _ _ Ht Hth) as [_ (sm' & ? & ?)]. congruence.
Qed.

(** Two threads and a semaphore: a take at once, a wait that is served, a wait that runs out of
    time, a wait that a deletion ends. *)
Definition sem_ops : list sem_op :=
  [SKernel (KCreate 1 5 512 4096); SKernel (KCreate 2 6 512 8192); SCreate 100 2 1 false; SKernel KSwitch;
   STake 100 0; STake 100 10; SKernel KSwitch; SGive 100 false; SKernel KSwitch; SResume;
   STake 100 1; SKernel KTick; SKernel KSwitch; SResume; SEnableKill 100;
   SEnter 100 (-1); SKernel KTick; STurn; SKernel KSwitch; SGive 100 true; SKernel KSwitch; SResume; STake 100 (-1); SKernel KSwitch; SDelete 100 false].

Lemma semaphore_accounts_witness :
  ∃ m, sem_run true true boot_machine (sem_ops ++ [SKernel KSwitch; SResume]) = Some m /\
       hd_error (m_log m) = Some (Returned 100 1 MINI_ERR_TIMEOUT) /\ returns_ok (m_log m).
Proof.
  destruct (semaphore_accounts true true (sem_ops ++ [SKernel KSwitch; SResume])) as (m & E & _ & Hr).
  - unfold sem_ops. vm_compute. repeat split; try discriminate; eexists; reflexivity.
  - exists m. split; [exact E|]. split; [|exact Hr].
    assert (match sem_run true true boot_machine (sem_ops ++ [SKernel KSwitch; SResume]) with
            | Some m => hd_error (m_log m) = Some (Returned 100 1 MINI_ERR_TIMEOUT) | None => False end) as H
      by (vm_compute; reflexivity).
    rewrite E in H. exact H.
Defined.

(** The storage of a semaphore outlives every call inside it: it is there as long as a
    thread is in a take of it, and the reference count is that of the calls and the creator;
    no step touches storage that is gone. *)
Theorem semaphore_outlives_calls time_slice long_time ops :
  sem_ops_ok time_slice long_time boot_machine ops ->
  ∃ m, sem_run time_slice long_time boot_machine ops = Some m /\
    ∀ t s, m_taking m !! t = Some s \/ (∃ pc, m_inside m !! t = Some (s, pc)) ->
      ∃ sm, sems (m_sync m) !! s = Some sm /\ is_Some (wait_lists (kern (m_sync m)) !! s) /\
        obj_ref (sem_obj sm) = (if mini_os_obj_is_destroyed (sem_obj sm) then 0 else 1) + users (m_taking m) s + users (places (m_inside m)) s.
Proof.
  intros Hok. destruct (sem_run_ok time_slice long_time _ ops boot_minv Hok) as (m & E & Hi). exists m. split; [done|].
  intros t s Ht. assert (is_Some (sems (m_sync m) !! s)) as [sm Hs].
  { destruct Ht as [Ht|[pc Ht]]; [by destruct (mi_taking _ Hi _ _ Ht)|by destruct (mi_inside _ Hi _ _ _ Ht)]. }
  exists sm. destruct (mi_sem _ Hi _ _ Hs) as []. done.
Qed.

Lemma semaphore_outlives_calls_witness :
  ∃ m sm, sem_run true true boot_machine sem_ops = Some m /\ m_taking m !! 1 = Some 100 /\
          sems (m_sync m) !! 100 = Some sm /\ mini_os_obj_is_destroyed (sem_obj sm) = true.
Proof.
  destruct (semaphore_outlives_calls true true sem_ops) as (m & E & H).
  - unfold sem_ops. vm_compute. repeat split; try discriminate; eexists; reflexivity.
  - assert (match sem_run true true boot_machine sem_ops with
            | Some m => m_taking m !! 1 = Some 100 /\ mini_os_obj_is_destroyed <$> (sem_obj <$> sems (m_sync m) !! 100) = Some true
            | None => False end) as Hm by (vm_compute; split; reflexivity).
    rewrite E in Hm. destruct Hm as [Ht Hd]. destruct (H 1 100 (or_introl Ht)) as (sm & Hs & _). exists m, sm.
    rewrite Hs in Hd. injection Hd as Hd. exact (conj E (conj Ht (conj Hs Hd))).
Defined.

(** A deletion between the first two sections of a take: thread 1 preempts thread 2 there and
    deletes the semaphore, which has the kill flag and nobody in its wait list; the take of
    thread 2 then parks on the deleted semaphore, without a limit. *)
Theorem parks_on_deleted_semaphore :
  (m ← sem_run true true boot_machine
         [SKernel (KCreate 1 5 512 4096); SKernel (KCreate 2 6 512 8192); SCreate 100 1 0 false; SEnableKill 100; SKernel KSwitch;
          SKernel (KDelay 1); SKernel KSwitch; SEnter 100 (-1); SKernel KTick; SKernel KSwitch; SDelete 100 false;
          SKernel (KDelay 5); SKernel KSwitch; STurn];
   sm ← sems (m_sync m) !! 100; l ← wait_lists (kern (m_sync m)) !! 100;
   Some (mini_os_obj_is_destroyed (sem_obj sm), l, m_taking m !! 2)) = Some (true, [2], Some 100).
Proof. vm_compute. reflexivity. Qed.
