(* ===== verification/MiniMutex.v ===== *)
(** * mini-os mutexes

    Models src/lib/mini-os/src/mutex.c, in the default configuration (no deadline
    inheritance, no registry by name), and [mini_os_thread_set_priority] of src/thread.c.  A
    mutex begins with the semaphore it embeds, so its address is the one of that semaphore
    and of the wait list; [hold_lists] are the hold lists of the control blocks.  [None] is
    an access to storage that is gone or the linking of a node that is linked already.

    A lock that has to wait is four steps, as in the code: the entry, which lends the caller's
    priority to the owner; the take of the semaphore; the end of the take, when the caller
    runs again; and the end, which takes the ownership.  Between them anything may happen.
    An unlock is two steps, the release and the give.  The reference count of the mutex is
    settled in the first and the last of them.

    What holds of it is in [MiniMutexInv]. *)

From S2P Require Import Prelude Status MiniList MiniSched MiniKernel MiniSem.
From stdpp Require Import gmap functions.

#[local] Open Scope Z_scope.

Definition MINI_OS_MUTEX_PI_CHAIN_MAX : Z := 8.
Definition MINI_OS_UINT8_MAX : Z := 255.

(** [mini_os_mutex_t] without the semaphore and the node. *)
Record mutex := mk_mutex { mx_depth : Z; mx_is_recursive : bool; mx_owner : option Z; mx_obj : obj }.
Definition mx_set_depth (m : mutex) (v : Z) : mutex := mk_mutex v (mx_is_recursive m) (mx_owner m) (mx_obj m).
Definition mx_set_owner (m : mutex) (v : option Z) : mutex := mk_mutex (mx_depth m) (mx_is_recursive m) v (mx_obj m).
Definition mx_set_obj (m : mutex) (v : obj) : mutex := mk_mutex (mx_depth m) (mx_is_recursive m) (mx_owner m) v.

Record world := mk_world { w_sync : sync; mutexes : gmap Z mutex; hold_lists : gmap Z (list Z) }.
Definition w_kern (w : world) : kernel := kern (w_sync w).
Definition w_set_sync (w : world) (y : sync) : world := mk_world y (mutexes w) (hold_lists w).
Definition w_set_kern (w : world) (k : kernel) : world := w_set_sync w (set_kern (w_sync w) k).
Definition w_set_mutex (w : world) (m : Z) (mx : mutex) : world := mk_world (w_sync w) (<[m := mx]> (mutexes w)) (hold_lists w).
Definition w_set_sem (w : world) (m : Z) (sm : semaphore) : world := w_set_sync w (set_sem (w_sync w) m sm).

(** [mini_os_list_tail] and [mini_os_list_remove] on [hold_node]. *)
Definition held_by (w : world) (t : Z) : list Z := default [] (hold_lists w !! t).
Definition hold_link (w : world) (t m : Z) : option world :=
  if bool_decide (map_Exists (λ _ l, m ∈ l) (hold_lists w)) then None
  else Some (mk_world (w_sync w) (mutexes w) (<[t := held_by w t ++ [m]]> (hold_lists w))).
Definition hold_unlink (w : world) (m : Z) : world :=
  mk_world (w_sync w) (mutexes w) (filter (λ x, x ≠ m) <$> hold_lists w).

(** ** Priority inheritance *)

Fixpoint waiter_loop (k : kernel) (nodes : list Z) (highest : Z) : option Z :=
  match nodes with
  | [] => Some highest
  | t :: nodes =>
      th ← threads k !! t;
      waiter_loop k nodes (if th_priority th <? highest then th_priority th else highest)
  end.
Definition mini_os_mutex_highest_waiter (k : kernel) (m : Z) : option Z :=
  l ← wait_lists k !! m; waiter_loop k l MINI_OS_PRIORITY.
Fixpoint held_loop (k : kernel) (held : list Z) (required : Z) : option Z :=
  match held with
  | [] => Some required
  | m :: held =>
      waiter ← mini_os_mutex_highest_waiter k m;
      held_loop k held (if waiter <? required then waiter else required)
  end.
Definition mini_os_mutex_required_priority (w : world) (t : Z) : option Z :=
  th ← threads (w_kern w) !! t; held_loop (w_kern w) (held_by w t) (th_base_priority th).

Fixpoint propagate_loop (fuel : nat) (w : world) (thread : option Z) (extra : Z) : option world :=
  match fuel, thread with
  | S fuel, Some t =>
      required ← mini_os_mutex_required_priority w t;
      let required := if extra <? required then extra else required in
      th ← threads (w_kern w) !! t;
      w ← (if required =? th_priority th then Some w
           else '(_, k) ← mini_os_thread_priority_apply (w_kern w) (Some t) required; Some (w_set_kern w k));
      th ← threads (w_kern w) !! t;
      match th_wait_mutex th with
      | None => Some w
      | Some m =>
          if negb (bool_decide (th_wait_list th = Some m)) then Some w else
          mx ← mutexes w !! m;
          propagate_loop fuel w (mx_owner mx) required
      end
  | _, _ => Some w
  end.
Definition mini_os_mutex_propagate (w : world) (thread : option Z) (extra depth : Z) : option world :=
  propagate_loop (Z.to_nat (MINI_OS_MUTEX_PI_CHAIN_MAX - depth)) w thread extra.

Definition mini_os_mutex_priority_recompute (w : world) (thread : option Z) : option (Z * world) :=
  match thread with
  | None => Some (MINI_ERR_INVAL, w)
  | Some _ => w ← mini_os_mutex_propagate w thread MINI_OS_PRIORITY 0; Some (MINI_OK, w)
  end.
Definition mini_os_thread_set_priority (w : world) (thread : option Z) (priority : Z) : option (Z * world) :=
  match thread with
  | None => Some (MINI_ERR_INVAL, w)
  | Some t =>
      if priority >=? MINI_OS_PRIORITY then Some (MINI_ERR_INVAL, w) else
      th ← threads (w_kern w) !! t;
      mini_os_mutex_priority_recompute
        (w_set_kern w (set_thread (w_kern w) t (th_set_base_priority th priority))) thread
  end.

(** ** Creation *)

Definition mini_os_mutex_init (w : world) (mutex : option Z) (is_recursive heap_owned : bool) : Z * world :=
  match mutex with
  | None => (MINI_ERR_INVAL, w)
  | Some m =>
      let y := set_sem (set_kern (w_sync w) (wait_list_init (w_kern w) m)) m (mk_sem 1 1 (mini_os_obj_init false)) in
      (MINI_OK, w_set_mutex (w_set_sync w y) m (mk_mutex 0 is_recursive None (mini_os_obj_init heap_owned)))
  end.
(** [mem] is what [mini_os_malloc] returns, or the caller's storage. *)
Definition mutex_create_with (w : world) (mem : option Z) (is_recursive heap_owned : bool) : option Z * world :=
  match mem with
  | None => (None, w)
  | Some _ =>
      let '(rc, w) := mini_os_mutex_init w mem is_recursive heap_owned in
      (if negb (rc =? MINI_OK) then None else mem, w)
  end.
Definition mini_os_mutex_create (w : world) (mem : option Z) := mutex_create_with w mem false true.
Definition mini_os_mutex_recursive_create (w : world) (mem : option Z) := mutex_create_with w mem true true.
Definition mini_os_mutex_create_static (w : world) (mem : option Z) := mutex_create_with w mem false false.
Definition mini_os_mutex_recursive_create_static (w : world) (mem : option Z) := mutex_create_with w mem true false.

(** [mini_os_obj_free_storage] of a mutex. *)
Definition mutex_free_storage (w : world) (m : Z) : world :=
  mk_world (sem_free_storage (w_sync w) m) (delete m (mutexes w)) (hold_lists w).
Definition mutex_release (w : world) (m : Z) : option world :=
  mx ← mutexes w !! m;
  let '(reclaim, o) := mini_os_obj_release (mx_obj mx) in
  Some (if reclaim then mutex_free_storage w m else w_set_mutex w m (mx_set_obj mx o)).

(** ** Locking *)

(** The caller becomes the owner. *)
Definition mutex_own (w : world) (m c : Z) : option world :=
  mx ← mutexes w !! m;
  hold_link (w_set_mutex w m (mx_set_depth (mx_set_owner mx (Some c)) 1)) c m.
(** The header of the mutex, which is not at the address of the semaphore. *)
Definition mutex_header (m : Z) : Z := m + 1.

(** The entry of a lock: [inl] is a return, [inr] goes on to the semaphore. *)
Definition mutex_lock_enter (w : world) (mutex : option Z) (timeout_tick : Z) : option (Z * world + world) :=
  match mutex with
  | None => Some (inl (MINI_ERR_INVAL, w))
  | Some m =>
      mx ← mutexes w !! m;
      let '(ret, o) := mini_os_obj_acquire (mx_obj mx) in
      if negb (ret =? MINI_OK) then Some (inl (ret, w)) else
      let mx := mx_set_obj mx o in
      let w := w_set_mutex w m mx in
      let return_ rc w := w ← mutex_release w m; Some (inl (rc, w)) in
      match current_thread (w_kern w) with
      | None => return_ MINI_ERR_INVAL w
      | Some c =>
          sm ← sems (w_sync w) !! m;
          if sem_count sm >? 0 then
            w ← mutex_own (w_set_sem w m (sem_set_count sm (sem_count sm - 1))) m c;
            return_ MINI_OK w
          else if bool_decide (mx_owner mx = Some c) then
            if negb (mx_is_recursive mx) then return_ MINI_ERR_BUSY w
            else if mx_depth mx =? MINI_OS_UINT8_MAX then return_ MINI_ERR_BUSY w
            else return_ MINI_OK (w_set_mutex w m (mx_set_depth mx (mx_depth mx + 1)))
          else if timeout_tick =? 0 then return_ MINI_ERR_AGAIN w
          else
            w ← match mx_owner mx with
                | None => Some w
                | Some o =>
                    th ← threads (w_kern w) !! c;
                    let w := w_set_kern w (set_thread (w_kern w) c (th_set_wait_mutex th (Some m))) in
                    mini_os_mutex_propagate w (Some o) (th_priority th) 0
                end;
            th ← threads (w_kern w) !! c;
            Some (inr (w_set_kern w (set_thread (w_kern w) c (mini_os_sync_wait_ref_push th (mutex_header m)))))
      end
  end.

(** The end, with the result of the take. *)
Definition mutex_lock_finish (w : world) (m c ret : Z) : option (Z * world) :=
  th ← threads (w_kern w) !! c;
  let parked_on := th_wait_mutex th in
  let w := w_set_kern w (set_thread (w_kern w) c (th_set_wait_mutex (mini_os_sync_wait_ref_pop th) None)) in
  w ← (if ret =? MINI_OK then
         w ← mutex_own w m c;
         mini_os_mutex_propagate w (Some c) MINI_OS_PRIORITY 0
       else if (ret =? MINI_ERR_TIMEOUT) && bool_decide (parked_on = Some m) then
         mx ← mutexes w !! m;
         match mx_owner mx with
         | Some o => mini_os_mutex_propagate w (Some o) MINI_OS_PRIORITY 0
         | None => Some w
         end
       else Some w);
  w ← mutex_release w m;
  Some (ret, w).

(** The release: [inl] is a return, [inr] goes on to the give. *)
Definition mutex_unlock_enter (w : world) (mutex : option Z) : option (Z * world + world) :=
  match mutex with
  | None => Some (inl (MINI_ERR_INVAL, w))
  | Some m =>
      mx ← mutexes w !! m;
      match current_thread (w_kern w) with
      | None => Some (inl (MINI_ERR_INVAL, w))
      | Some c =>
          if negb (bool_decide (mx_owner mx = Some c)) then Some (inl (MINI_ERR_INVAL, w)) else
          let mx := mx_set_depth mx (u8 (mx_depth mx - 1)) in
          let w := w_set_mutex w m mx in
          if mx_depth mx >? 0 then Some (inl (MINI_OK, w)) else
          let w := w_set_mutex (hold_unlink w m) m (mx_set_owner mx None) in
          w ← mini_os_mutex_propagate w (Some c) MINI_OS_PRIORITY 0;
          Some (inr w)
      end
  end.
Definition mutex_give (w : world) (m : Z) (yields : bool) : option (Z * world) :=
  '(rc, y) ← give_common (w_sync w) (Some m) yields; Some (rc, w_set_sync w y).

(** An interrupt is not interrupted by threads: one step each. *)
Definition mini_os_mutex_lock_isr (w : world) (mutex : option Z) : option (Z * world) :=
  match mutex with
  | None => Some (MINI_ERR_INVAL, w)
  | Some m =>
      match current_thread (w_kern w) with
      | None => Some (MINI_ERR_INVAL, w)
      | Some c =>
          sm ← sems (w_sync w) !! m; mx ← mutexes w !! m;
          if sem_count sm >? 0 then
            w ← mutex_own (w_set_sem w m (sem_set_count sm (sem_count sm - 1))) m c;
            Some (MINI_OK, w)
          else if bool_decide (mx_owner mx = Some c) then
            if negb (mx_is_recursive mx) || (mx_depth mx =? MINI_OS_UINT8_MAX) then Some (MINI_ERR_BUSY, w)
            else Some (MINI_OK, w_set_mutex w m (mx_set_depth mx (mx_depth mx + 1)))
          else Some (MINI_ERR_AGAIN, w)
      end
  end.
Definition mini_os_mutex_unlock_isr (w : world) (mutex : option Z) : option (Z * world) :=
  r ← mutex_unlock_enter w mutex;
  match r, mutex with
  | inl (rc, w), _ => Some (rc, w)
  | inr w, Some m => mutex_give w m false
  | inr w, None => None
  end.

(** ** Forced release and deletion *)

Fixpoint kill_waiter_loop (k : kernel) (nodes : list Z) (report_dead : bool) : option kernel :=
  match nodes with
  | [] => Some k
  | t :: nodes =>
      th ← threads k !! t;
      k ← mini_os_sync_wake_thread (set_thread k t (th_set_wait_mutex th None)) t report_dead;
      kill_waiter_loop k nodes report_dead
  end.
Definition mini_os_mutex_kill_waiters (w : world) (m : Z) : option (bool * world) :=
  mx ← mutexes w !! m; l ← wait_lists (w_kern w) !! m;
  k ← kill_waiter_loop (w_kern w) l (mini_os_obj_kill_error (mx_obj mx) =? MINI_OS_ERR_DEAD);
  Some (match l with [] => false | _ => true end, w_set_kern w k).
Definition mini_os_mutex_enable_kill (w : world) (mutex : option Z) : option (Z * world) :=
  match mutex with
  | None => Some (MINI_ERR_INVAL, w)
  | Some m =>
      mx ← mutexes w !! m;
      Some (MINI_OK, w_set_mutex w m (mx_set_obj mx (mini_os_obj_enable_kill_reports_timeout (mx_obj mx))))
  end.

Fixpoint kill_held_loop (w : world) (held : list Z) (woken : bool) : option (bool * world) :=
  match held with
  | [] => Some (woken, w)
  | m :: held =>
      '(b, w) ← mini_os_mutex_kill_waiters w m;
      mx ← mutexes w !! m; sm ← sems (w_sync w) !! m;
      let w := w_set_mutex (hold_unlink w m) m (mx_set_depth (mx_set_owner mx None) 0) in
      kill_held_loop (w_set_sem w m (sem_set_count sm (sem_max_count sm))) held (woken || b)
  end.
Definition mini_os_mutex_kill_held (w : world) (thread : option Z) : option (bool * world) :=
  match thread with
  | None => Some (false, w)
  | Some t => kill_held_loop w (held_by w t) false
  end.

Definition mini_os_mutex_delete_common (w : world) (mutex : option Z) (is_static : bool) : option (Z * world) :=
  match mutex with
  | None => Some (MINI_ERR_INVAL, w)
  | Some m =>
      mx ← mutexes w !! m;
      if negb (eqb (mini_os_obj_is_static (mx_obj mx)) is_static) then Some (MINI_ERR_NOTSUPP, w) else
      if (mini_os_obj_user_count (mx_obj mx) >? 1) && negb (mini_os_obj_is_kill_enabled (mx_obj mx))
      then Some (MINI_OS_ERR_REJECT, w) else
      sm ← sems (w_sync w) !! m; l ← wait_lists (w_kern w) !! m;
      if (sem_count sm =? 0) && bool_decide (mx_owner mx = None) && bool_decide (l = []) then Some (MINI_OS_ERR_REJECT, w) else
      let contended := negb (bool_decide (l = [])) || negb (bool_decide (mx_owner mx = None)) in
      if contended && negb (mini_os_obj_is_kill_enabled (mx_obj mx)) then Some (MINI_OS_ERR_REJECT, w) else
      '(woken, w) ← (if contended then
                       '(woken, w) ← mini_os_mutex_kill_waiters w m;
                       mx ← mutexes w !! m;
                       let w := w_set_mutex (hold_unlink w m) m (mx_set_depth (mx_set_owner mx None) 0) in
                       w ← match mx_owner mx with
                           | Some o => mini_os_mutex_propagate w (Some o) MINI_OS_PRIORITY 0
                           | None => Some w
                           end;
                       Some (woken, w)
                     else Some (false, w));
      mx ← mutexes w !! m;
      let '(_, reclaim, o) := mini_os_obj_request_destroy (mx_obj mx) in
      let w := w_set_mutex w m (mx_set_obj mx o) in
      let w := if reclaim then mutex_free_storage w m else w in
      Some (MINI_OK, if woken : bool then w_set_kern w (mini_os_schedule_yield (w_kern w)).2 else w)
  end.
Definition mini_os_mutex_delete (w : world) (mutex : option Z) := mini_os_mutex_delete_common w mutex false.
Definition mini_os_mutex_delete_static (w : world) (mutex : option Z) := mini_os_mutex_delete_common w mutex true.

(** ** The calls of the threads *)

(** Where a thread is inside a call. *)
Inductive call :=
  | InTake (m timeout_tick : Z)
  | InPark (m : Z)
  | InFinish (m ret : Z)
  | InGive (m : Z).

(** A lock that returned success, an unlock by the owner. *)
Inductive mutex_event := Locked (m t : Z) | Unlocked (m t : Z).

(** Who owns a mutex and how often, by a log with the last event first. *)
Fixpoint owner_of (log : list mutex_event) (m : Z) : option (Z * Z) :=
  match log with
  | [] => None
  | Locked m' t :: log =>
      if m' =? m then Some (t, match owner_of log m with Some (_, d) => d + 1 | None => 1 end) else owner_of log m
  | Unlocked m' _ :: log =>
      if m' =? m then match owner_of log m with Some (t, d) => if d =? 1 then None else Some (t, d - 1) | None => None end
      else owner_of log m
  end.
(** Only a free mutex is locked by another thread, and only its owner unlocks it. *)
Fixpoint exclusive (log : list mutex_event) : Prop :=
  match log with
  | [] => True
  | Locked m t :: log => match owner_of log m with Some (o, _) => o = t | None => True end /\ exclusive log
  | Unlocked m t :: log => match owner_of log m with Some (o, _) => o = t | None => False end /\ exclusive log
  end.

Record lock_machine := mk_lmachine { x_world : world; x_calls : gmap Z call; x_log : list mutex_event }.

Inductive mutex_op :=
  | XKernel (op : kernel_op)
  | XPriority (t priority : Z)
  | XCreate (m : Z) (is_recursive static : bool)
  | XLock (m timeout_tick : Z)
  | XUnlock (m : Z)
  | XNext
  | XLockIsr (m : Z)
  | XUnlockIsr (m : Z).

Section lmachine.
Context (time_slice long_time : bool).

(** The current thread goes on with the call it is in. *)
Definition next_step (x : lock_machine) (c : Z) : option lock_machine :=
  let w := x_world x in
  p ← x_calls x !! c;
  match p with
  | InTake m timeout_tick =>
      r ← mini_os_semaphore_take (w_sync w) (Some m) timeout_tick;
      Some match r with
           | inl (rc, y) => mk_lmachine (w_set_sync w y) (<[c := InFinish m rc]> (x_calls x)) (x_log x)
           | inr y => mk_lmachine (w_set_sync w y) (<[c := InPark m]> (x_calls x)) (x_log x)
           end
  | InPark m =>
      '(rc, y) ← sem_take_resume (w_sync w) m c;
      Some (mk_lmachine (w_set_sync w y) (<[c := InFinish m rc]> (x_calls x)) (x_log x))
  | InFinish m ret =>
      '(rc, w) ← mutex_lock_finish w m c ret;
      Some (mk_lmachine w (delete c (x_calls x)) (if rc =? MINI_OK then Locked m c :: x_log x else x_log x))
  | InGive m =>
      '(_, w) ← mutex_give w m true;
      Some (mk_lmachine w (delete c (x_calls x)) (x_log x))
  end.

Definition lock_step (x : lock_machine) (op : mutex_op) : option lock_machine :=
  let w := x_world x in
  match op with
  | XKernel op =>
      k ← kernel_step time_slice long_time (w_kern w) op; Some (mk_lmachine (w_set_kern w k) (x_calls x) (x_log x))
  | XPriority t priority =>
      '(_, w) ← mini_os_thread_set_priority w (Some t) priority; Some (mk_lmachine w (x_calls x) (x_log x))
  | XCreate m is_recursive static =>
      Some (mk_lmachine (mutex_create_with w (Some m) is_recursive (negb static)).2 (x_calls x) (x_log x))
  | XLock m timeout_tick =>
      c ← current_thread (w_kern w);
      r ← mutex_lock_enter w (Some m) timeout_tick;
      Some match r with
           | inl (rc, w) => mk_lmachine w (x_calls x) (if rc =? MINI_OK then Locked m c :: x_log x else x_log x)
           | inr w => mk_lmachine w (<[c := InTake m timeout_tick]> (x_calls x)) (x_log x)
           end
  | XUnlock m =>
      c ← current_thread (w_kern w);
      r ← mutex_unlock_enter w (Some m);
      Some match r with
           | inl (rc, w) => mk_lmachine w (x_calls x) (if rc =? MINI_OK then Unlocked m c :: x_log x else x_log x)
           | inr w => mk_lmachine w (<[c := InGive m]> (x_calls x)) (Unlocked m c :: x_log x)
           end
  | XNext => c ← current_thread (w_kern w); next_step x c
  | XLockIsr m =>
      '(rc, w') ← mini_os_mutex_lock_isr w (Some m);
      Some (mk_lmachine w' (x_calls x)
              match current_thread (w_kern w) with
              | Some c => if rc =? MINI_OK then Locked m c :: x_log x else x_log x
              | None => x_log x
              end)
  | XUnlockIsr m =>
      '(rc, w') ← mini_os_mutex_unlock_isr w (Some m);
      Some (mk_lmachine w' (x_calls x)
              match current_thread (w_kern w) with
              | Some c => if rc =? MINI_OK then Unlocked m c :: x_log x else x_log x
              | None => x_log x
              end)
  end.

(** The current thread is in no call. *)
Definition idle_call (x : lock_machine) : Prop :=
  match current_thread (w_kern (x_world x)) with Some c => x_calls x !! c = None | None => True end.
(** The test of [switch_safe]. *)
Definition keeps_level (k : kernel) : bool :=
  negb (mini_os_get_highest_priority k =? s_current_priority k)
  || match c ← current_thread k; threads k !! c with Some th => th_priority th =? s_current_priority k | None => true end.
(** What the callers keep to: the storage they name is there, calls come from a running
    thread that is in no other call, and a switch is not taken with the current thread off
    the level of the last switch while that level has a thread. *)
Definition lock_op_ok (x : lock_machine) (op : mutex_op) : Prop :=
  let w := x_world x in let k := w_kern w in
  match op with
  | XKernel (KCreate t priority _ _) => threads k !! t = None /\ 0 <= priority
  | XKernel (KTick | KYield) => True
  | XKernel KSwitch => keeps_level k = true
  | XKernel (KDelay ticks) => may_call k /\ is_u32 ticks /\ idle_call x
  | XKernel _ => False
  | XPriority t priority => is_Some (threads k !! t) /\ 0 <= priority
  | XCreate m _ _ => mutexes w !! m = None /\ sems (w_sync w) !! m = None /\ wait_lists k !! m = None
  | XLock m timeout_tick =>
      is_Some (mutexes w !! m) /\ is_Some (current_thread k) /\ may_call k /\ idle_call x /\
      -2147483648 <= timeout_tick < 2147483648
  | XUnlock m => is_Some (mutexes w !! m) /\ is_Some (current_thread k) /\ may_call k /\ idle_call x
  | XNext => may_call k /\ match c ← current_thread k; x_calls x !! c with Some _ => True | None => False end
  | XLockIsr m | XUnlockIsr m => is_Some (mutexes w !! m)
  end.

Fixpoint lock_run (x : lock_machine) (ops : list mutex_op) : option lock_machine :=
  match ops with [] => Some x | op :: ops => x ← lock_step x op; lock_run x ops end.
Fixpoint lock_ops_ok (x : lock_machine) (ops : list mutex_op) : Prop :=
  match ops with
  | [] => True
  | op :: ops => lock_op_ok x op /\ match lock_step x op with Some x => lock_ops_ok x ops | None => True end
  end.
End lmachine.

Definition boot_world : world := mk_world (mk_sync boot_kernel ∅) ∅ ∅.
Definition boot_lmachine : lock_machine := mk_lmachine boot_world ∅ [].
