(* ===== verification/MiniMutexInv.v ===== *)
(** * What the mutexes guarantee

    The invariant of the machine of [MiniMutex], that every step of it keeps, and what follows.
    [mutex_exclusive]: whatever happens between the steps of the calls, a mutex has one owner
    at a time.  [propagate_settles]: the walk along a wait chain leaves every thread on it at
    the priority it has to have.  The findings at the end: an unlock after inheritance derails
    the next switch; a waiter that parks while the mutex changes hands leaves its priority
    with the owner; a recomputation between entry and take forgets the caller; a deletion
    between the steps of an unlock takes the storage away under the give. *)

From S2P Require Import Prelude Status MiniList MiniSched MiniKernel MiniSem MiniMutex.
From stdpp Require Import gmap functions.

#[local] Open Scope Z_scope.

(** ** The invariant *)

(** A unit has been handed to [t], which has not taken the ownership yet. *)
Definition flight (k : kernel) (calls : gmap Z call) (m t : Z) : Prop :=
  match calls !! t with
  | Some (InPark m') => m' = m /\ ∃ th, threads k !! t = Some th /\ th_wait_list th = None /\ th_wait_status th = true
  | Some (InFinish m' ret) => m' = m /\ ret = MINI_OK
  | Some (InGive m') => m' = m
  | _ => False
  end.
Definition call_mutex (c : call) : Z := match c with InTake m _ | InPark m | InFinish m _ | InGive m => m end.

(** Where the unit of a mutex is: in the semaphore, with the owner, with a thread inside a
    call, or in the hands of the step that is being made. *)
Inductive unit_loc := AtSem | AtOwner (t : Z) | AtCall (t : Z) | AtStep.
Definition located (k : kernel) (calls : gmap Z call) (e : option Z) (m count : Z) (owner : option Z) (loc : unit_loc) : Prop :=
  match loc with
  | AtSem => count = 1 /\ owner = None
  | AtOwner t => count = 0 /\ owner = Some t
  | AtCall t => count = 0 /\ owner = None
  | AtStep => count = 0 /\ owner = None /\ e = Some m
  end /\ (∀ t, flight k calls m t -> loc = AtCall t) /\ (e = Some m -> loc = AtStep).

Record mutex_ok (w : world) (calls : gmap Z call) (log : list mutex_event) (e : option Z) (m : Z) (mx : mutex) (sm : semaphore)
    : Prop := {
  mo_list : is_Some (wait_lists (w_kern w) !! m);
  mo_alive : mini_os_obj_is_destroyed (mx_obj mx) = false /\ mini_os_obj_is_destroyed (sem_obj sm) = false;
  mo_max : sem_max_count sm = 1;
  mo_log : match mx_owner mx with
           | Some t => is_Some (threads (w_kern w) !! t) /\ owner_of log m = Some (t, mx_depth mx) /\ 1 <= mx_depth mx < 256
           | None => owner_of log m = None
           end;
  mo_unit : ∃ loc, located (w_kern w) calls e m (sem_count sm) (mx_owner mx) loc
}.
(** What a call relies on: the mutex is there and the time limit is a tick count. *)
Definition call_ok (w : world) (c : call) : Prop :=
  is_Some (mutexes w !! call_mutex c) /\
  match c with InTake _ timeout_tick => -2147483648 <= timeout_tick < 2147483648 | _ => True end.
Record xinv (w : world) (calls : gmap Z call) (log : list mutex_event) (e : option Z) : Prop := {
  xi_wf : wf (w_kern w);
  xi_base : bases_ok (w_kern w);
  xi_mutex : ∀ m mx, mutexes w !! m = Some mx -> ∃ sm, sems (w_sync w) !! m = Some sm /\ mutex_ok w calls log e m mx sm;
  xi_held : ∀ t m, m ∈ held_by w t <-> ∃ mx, mutexes w !! m = Some mx /\ mx_owner mx = Some t;
  xi_wait : ∀ t th m, threads (w_kern w) !! t = Some th -> th_wait_list th = Some m -> calls !! t = Some (InPark m);
  xi_call : ∀ t c, calls !! t = Some c -> call_ok w c /\
     ∃ th, threads (w_kern w) !! t = Some th /\ ∀ m, c = InPark m -> th_wait_list th = None \/ th_wait_list th = Some m;
  xi_log : exclusive log;
  xi_fresh : ∀ m, mutexes w !! m = None -> owner_of log m = None
}.

Lemma no_grant_trans k1 k2 k3 : no_grant k1 k2 -> no_grant k2 k3 -> no_grant k1 k3.
Proof.
  intros [A1 A2 A3] [B1 B2 B3]. split; [congruence| |].
  - intros t th Ht. destruct (A2 _ _ Ht) as (th2 & Ht2 & Ha). destruct (B2 _ _ Ht2) as (th3 & Ht3 & Hb).
    exists th3. split; [done|]. destruct Ha as [[<- <-]|(? & E & F)]; [done|].
    right. split; [done|]. rewrite E, F in Hb. destruct Hb as [[-> ->]|[? _]]; done.
  - intros t th3 Ht3 Hn. destruct (B3 _ _ Ht3 Hn) as [th2 Ht2]. apply (A3 t th2); [done|].
    destruct (B2 _ _ Ht2) as (th & Ht & [[E _]|(? & _)]); congruence.
Qed.

(** Time outs and priorities do not move a unit. *)
Lemma flight_no_grant k k' calls m t :
  no_grant k k' -> (∀ t c, calls !! t = Some c -> is_Some (threads k !! t)) -> flight k' calls m t -> flight k calls m t.
Proof.
  intros [_ G2 _] Hc. unfold flight. destruct (calls !! t) as [[]|] eqn:E; try done. intros (-> & th' & Ht' & Hl & Hs).
  destruct (Hc t _ E) as [th Ht]. destruct (G2 _ _ Ht) as (th2 & Ht2 & Hd). assert (th2 = th') as -> by congruence.
  split; [done|]. exists th. split; [done|]. destruct Hd as [[E1 E2]|(_ & _ & E2)]; [|congruence]. split; congruence.
Qed.

Lemma xinv_kernel w calls log e k' :
  xinv w calls log e -> wf k' -> no_grant (w_kern w) k' ->
  bases_ok k' ->
  xinv (w_set_kern w k') calls log e.
Proof.
  intros [I1 I2 I3 I4 I5 I6 I7 I8] Hw Hg Hb. pose proof Hg as [G1 G2 G3]. split; simpl; try done.
  - intros m mx Hm. destruct (I3 _ _ Hm) as (sm & Hs & []). exists sm. split; [done|]. split; try done.
    + change (is_Some (wait_lists k' !! m)). rewrite <- elem_of_dom, G1. by apply elem_of_dom.
    + destruct (mx_owner mx) as [t|]; [|done]. destruct mo_log0 as ([th Ht] & ? & ?). split; [|done].
      destruct (G2 _ _ Ht) as (th' & Ht' & _). eauto.
    + destruct mo_unit0 as (loc & H1 & H2 & H3). exists loc. split; [done|]. split; [|done].
      intros t Ht. apply H2. eapply flight_no_grant; [exact Hg| |exact Ht]. intros t0 c0 Hc0.
      destruct (I6 _ _ Hc0) as (_ & th & ? & _). eauto.
  - intros t th m Ht Hl. destruct (G3 t th) as [th0 Ht0]; [done|congruence|].
    destruct (G2 _ _ Ht0) as (th' & Ht' & Hd). change (threads k' !! t = Some th) in Ht. assert (th' = th) as -> by congruence.
    apply (I5 t th0); [done|]. destruct Hd as [[E _]|(_ & E & _)]; congruence.
  - intros t c Hc. destruct (I6 _ _ Hc) as (Hs & th & Ht & Hp). split; [done|].
    destruct (G2 _ _ Ht) as (th' & Ht' & Hd). exists th'. split; [done|]. intros m E. specialize (Hp m E).
    destruct Hd as [[-> _]|(_ & -> & _)]; auto.
Qed.

(** The block of [c] changes in what does not concern waiting. *)
Lemma xinv_set_thread w calls log e c th th' :
  xinv w calls log e -> threads (w_kern w) !! c = Some th -> th_state th' = th_state th -> th_priority th' = th_priority th ->
  th_round th' = th_round th -> th_wheel_slot th' = th_wheel_slot th -> th_wait_list th' = th_wait_list th ->
  (th_wait_status th' = th_wait_status th \/ ∀ m, calls !! c ≠ Some (InPark m)) ->
  0 <= th_base_priority th' < MINI_OS_PRIORITY ->
  xinv (w_set_kern w (set_thread (w_kern w) c th')) calls log e.
Proof.
  intros [I1 I2 I3 I4 I5 I6 I7 I8] Ht E1 E2 E3 E4 E5 E6 Hb. set (k' := set_thread (w_kern w) c th').
  assert (∀ t, t ≠ c -> threads k' !! t = threads (w_kern w) !! t) as Hne by (intros t Htc; by apply lookup_insert_ne).
  assert (threads k' !! c = Some th') as Hc by apply lookup_insert_eq.
  split; change (w_kern (w_set_kern w k')) with k'; try done.
  - eapply wf_set_thread; [exact I1|exact Ht|unfold place; by rewrite E1, E2, E4|done|].
    destruct (wf_threads _ I1 _ _ Ht). split; rewrite ?E1, ?E2, ?E3, ?E4, ?E5; done.
  - intros t tht. destruct (decide (t = c)) as [->|]; [|rewrite Hne by done; apply I2].
    rewrite Hc. by intros [= <-].
  - intros m mx Hm. destruct (I3 _ _ Hm) as (sm & Hs & []). exists sm. split; [done|]. split; try done.
    + destruct (mx_owner mx) as [o|]; [|done]. destruct mo_log0 as (Ho & ? & ?). split; [|done].
      change (is_Some (threads k' !! o)). destruct (decide (o = c)) as [->|]; [eauto|by rewrite Hne].
    + destruct mo_unit0 as (loc & H1 & H2 & H3). exists loc. split; [done|]. split; [|done].
      intros t Hf. apply H2. unfold flight in *. change (w_kern (w_set_kern w k')) with k' in Hf.
      destruct (decide (t = c)) as [->|]; [|by rewrite Hne in Hf]. rewrite Hc in Hf.
      destruct (calls !! c) as [[]|] eqn:Ec; try done. destruct Hf as (-> & th0 & [= <-] & Hl & Hst). split; [done|].
      exists th. destruct E6 as [E6|E6]; [split; [done|split; congruence]|by destruct (E6 m)].
  - intros t tht m. destruct (decide (t = c)) as [->|]; [|rewrite Hne by done; apply I5].
    rewrite Hc. intros [= <-]. rewrite E5. by apply I5.
  - intros t p Hp. destruct (I6 _ _ Hp) as (Hok & tht & Htt & Hl). split; [done|]. change (w_kern (w_set_kern w k')) with k'.
    destruct (decide (t = c)) as [->|]; [|rewrite Hne by done; eauto]. exists th'. split; [done|]. intros m Em.
    rewrite E5. assert (tht = th) as -> by congruence. by apply Hl.
Qed.

(** ** The walk along the wait chain *)

Lemma waiter_loop_spec k l hi :
  (∀ t, t ∈ l -> ∃ th, threads k !! t = Some th /\ 0 <= th_priority th) -> 0 <= hi ->
  ∃ r, waiter_loop k l hi = Some r /\ 0 <= r <= hi /\
    (∀ t th, t ∈ l -> threads k !! t = Some th -> r <= th_priority th) /\
    (r = hi \/ ∃ t th, t ∈ l /\ threads k !! t = Some th /\ th_priority th = r).
Proof.
  revert hi. induction l as [|t l IH]; intros hi Hl Hhi.
  { exists hi. split; [done|]. split; [lia|]. split; [|by left]. intros t th Hin. by apply not_elem_of_nil in Hin. }
  destruct (Hl t) as (th & Ht & Hp); [apply elem_of_cons; auto|]. cbn [waiter_loop]. rewrite Ht. cbn [mbind option_bind].
  destruct (IH (if th_priority th <? hi then th_priority th else hi)) as (r & -> & Hr & Hall & Hex).
  { intros t' Ht'. apply Hl, elem_of_cons. auto. }
  { destruct (Z.ltb_spec (th_priority th) hi); lia. }
  exists r. split; [done|]. split; [destruct (Z.ltb_spec (th_priority th) hi); lia|]. split.
  - intros t' th' [->|Hin]%elem_of_cons Ht'; [|eauto]. assert (th' = th) as -> by congruence.
    destruct (Z.ltb_spec (th_priority th) hi); lia.
  - destruct Hex as [->|(t' & th' & ? & ? & ?)]; [|right; exists t', th'; rewrite elem_of_cons; auto].
    destruct (Z.ltb_spec (th_priority th) hi); [|by left]. right. exists t, th. rewrite elem_of_cons. auto.
Qed.

Lemma waiters_ok w calls log e m l t :
  xinv w calls log e -> wait_lists (w_kern w) !! m = Some l -> t ∈ l ->
  ∃ th, threads (w_kern w) !! t = Some th /\ 0 <= th_priority th /\ th_wait_list th = Some m.
Proof.
  intros Hi Hl Hin. destruct (waiter_spec _ _ _ _ (xi_wf _ _ _ _ Hi) Hl Hin) as (th & Ht & Hw & _).
  exists th. split; [done|]. split; [|done]. apply (to_priority _ _ _ (wf_threads _ (xi_wf _ _ _ _ Hi) _ _ Ht)).
Qed.

Lemma highest_waiter_spec w calls log e m l :
  xinv w calls log e -> wait_lists (w_kern w) !! m = Some l ->
  ∃ r, mini_os_mutex_highest_waiter (w_kern w) m = Some r /\ 0 <= r <= MINI_OS_PRIORITY /\
    (∀ t th, t ∈ l -> threads (w_kern w) !! t = Some th -> r <= th_priority th) /\
    (r = MINI_OS_PRIORITY \/ ∃ t th, t ∈ l /\ threads (w_kern w) !! t = Some th /\ th_priority th = r).
Proof.
  intros Hi Hl. unfold mini_os_mutex_highest_waiter. rewrite Hl. apply waiter_loop_spec; [|done].
  intros t Ht. destruct (waiters_ok _ _ _ _ _ _ _ Hi Hl Ht) as (th & ? & ? & _). eauto.
Qed.

(** [t] waits on a mutex of [held]. *)
Definition waits_on (k : kernel) (held : list Z) (t : Z) : Prop := ∃ m l, m ∈ held /\ wait_lists k !! m = Some l /\ t ∈ l.
Lemma held_loop_spec w calls log e held base :
  xinv w calls log e -> (∀ m, m ∈ held -> is_Some (wait_lists (w_kern w) !! m)) -> 0 <= base <= MINI_OS_PRIORITY ->
  ∃ r, held_loop (w_kern w) held base = Some r /\ 0 <= r <= base /\
    (∀ t th, waits_on (w_kern w) held t -> threads (w_kern w) !! t = Some th -> r <= th_priority th) /\
    (r = base \/ ∃ t th, waits_on (w_kern w) held t /\ threads (w_kern w) !! t = Some th /\ th_priority th = r).
Proof.
  intros Hi. revert base. induction held as [|m held IH]; intros base Hl Hb.
  { exists base. split; [done|]. split; [lia|]. split; [|by left]. intros t th (m & l & Hin & _). by apply not_elem_of_nil in Hin. }
  destruct (Hl m) as [l Hm]; [apply elem_of_cons; auto|]. destruct (highest_waiter_spec _ _ _ _ m l Hi Hm) as (hw & E & Hr & Ha & Hx).
  cbn [held_loop]. rewrite E. cbn [mbind option_bind].
  destruct (IH (if hw <? base then hw else base)) as (r & -> & Hr2 & Ha2 & Hx2).
  { intros m' Hm'. apply Hl, elem_of_cons. auto. }
  { destruct (Z.ltb_spec hw base); lia. }
  exists r. split; [done|]. split; [destruct (Z.ltb_spec hw base); lia|]. split.
  - intros t th (m' & l' & [->|Hin]%elem_of_cons & Hm' & Ht) Hth.
    + assert (l' = l) as -> by congruence. specialize (Ha t th Ht Hth). destruct (Z.ltb_spec hw base); lia.
    + apply (Ha2 t th); [exists m', l'; auto|done].
  - assert (∀ t, waits_on (w_kern w) held t -> waits_on (w_kern w) (m :: held) t) as Hmono.
    { intros t (m' & l' & ? & ? & ?). exists m', l'. rewrite elem_of_cons. auto. }
    destruct Hx2 as [->|(t & th & ? & ? & ?)]; [|right; exists t, th; auto].
    destruct (Z.ltb_spec hw base); [|by left]. destruct Hx as [->|(t & th & ? & ? & ?)]; [lia|].
    right. exists t, th. split; [|done]. exists m, l. rewrite elem_of_cons. auto.
Qed.

(** The priority a thread has to have: its own or that of a waiter on a mutex it holds,
    whichever is higher. *)
Lemma required_spec w calls log e t th :
  xinv w calls log e -> threads (w_kern w) !! t = Some th ->
  ∃ r, mini_os_mutex_required_priority w t = Some r /\ 0 <= r <= th_base_priority th /\
    (∀ t' th', waits_on (w_kern w) (held_by w t) t' -> threads (w_kern w) !! t' = Some th' -> r <= th_priority th') /\
    (r = th_base_priority th \/
     ∃ t' th', waits_on (w_kern w) (held_by w t) t' /\ threads (w_kern w) !! t' = Some th' /\ th_priority th' = r).
Proof.
  intros Hi Ht. unfold mini_os_mutex_required_priority. rewrite Ht.
  pose proof (xi_base _ _ _ _ Hi _ _ Ht). apply (held_loop_spec w calls log e); [done| |lia].
  intros m Hm. apply (xi_held _ _ _ _ Hi) in Hm as (mx & Hm & _). destruct (xi_mutex _ _ _ _ Hi _ _ Hm) as (sm & _ & []). done.
Qed.

Lemma set_kern_eta w : w_set_kern w (w_kern w) = w.
Proof. by destruct w as [[] ? ?]. Qed.

(** One link of the walk. *)
Lemma apply_ok w calls log e t th p :
  xinv w calls log e -> threads (w_kern w) !! t = Some th -> 0 <= p < MINI_OS_PRIORITY ->
  ∃ k', (if p =? th_priority th then Some w
         else '(_, k) ← mini_os_thread_priority_apply (w_kern w) (Some t) p; Some (w_set_kern w k)) = Some (w_set_kern w k') /\
    threads k' = <[t := th_set_priority th p]> (threads (w_kern w)) /\ wait_lists k' = wait_lists (w_kern w) /\
    current_thread k' = current_thread (w_kern w) /\ xinv (w_set_kern w k') calls log e.
Proof.
  intros Hi Ht Hp. destruct (Z.eqb_spec p (th_priority th)) as [->|Hne].
  { exists (w_kern w). rewrite set_kern_eta. split; [done|]. split; [|done].
    assert (th_set_priority th (th_priority th) = th) as -> by by destruct th. by rewrite insert_id. }
  destruct (priority_ok (w_kern w) t p (xi_wf _ _ _ _ Hi)) as (rc & k' & -> & Hw & _ & Hk); [eauto|lia|]. simpl.
  exists k'. split; [done|]. destruct Hk as [[_ [?|E]]|(th0 & Ht0 & Hf & Hwl)]; [lia|rewrite Ht in E; simpl in E; congruence|].
  assert (th0 = th) as -> by congruence. pose proof Hf as [F1 F2 _ _ _ _]. split; [done|]. split; [done|]. split; [done|].
  apply xinv_kernel; [done|done| |].
  - eapply no_grant_frame; [exact Hf| |intros; congruence]. intros th0 Ht1. assert (th0 = th) as -> by congruence. done.
  - intros t0 th0. rewrite F1. destruct (decide (t0 = t)) as [->|].
    + rewrite lookup_insert_eq. intros [= <-]. exact (xi_base _ _ _ _ Hi _ _ Ht).
    + rewrite lookup_insert_ne by done. apply (xi_base _ _ _ _ Hi).
Qed.

(** The mutex a thread is parked on, and its owner. *)
Definition blocked_on (w : world) (t : Z) : option Z :=
  th ← threads (w_kern w) !! t; m ← th_wait_mutex th; if bool_decide (th_wait_list th = Some m) then Some m else None.
Definition next_owner (w : world) (t : Z) : option Z :=
  m ← blocked_on w t; mx ← mutexes w !! m; mx_owner mx.

Lemma propagate_step w calls log e fuel t th extra :
  xinv w calls log e -> threads (w_kern w) !! t = Some th -> 0 <= extra ->
  ∃ r k', mini_os_mutex_required_priority w t = Some r /\ 0 <= r < MINI_OS_PRIORITY /\
    propagate_loop (S fuel) w (Some t) extra =
      propagate_loop fuel (w_set_kern w k') (next_owner w t) (if extra <? r then extra else r) /\
    threads k' = <[t := th_set_priority th (if extra <? r then extra else r)]> (threads (w_kern w)) /\
    wait_lists k' = wait_lists (w_kern w) /\ current_thread k' = current_thread (w_kern w) /\
    xinv (w_set_kern w k') calls log e.
Proof.
  intros Hi Ht He. destruct (required_spec w calls log e t th Hi Ht) as (r & Er & Hr & _).
  pose proof (xi_base _ _ _ _ Hi _ _ Ht) as Hb. set (p := if extra <? r then extra else r).
  assert (0 <= p < MINI_OS_PRIORITY) as Hp by (subst p; destruct (Z.ltb_spec extra r); lia).
  destruct (apply_ok w calls log e t th p Hi Ht Hp) as (k' & E & F1 & F2 & F3 & Hi').
  exists r, k'. split; [done|]. split; [lia|]. split; [|done].
  cbn [propagate_loop]. rewrite Er. cbn [mbind option_bind]. rewrite Ht. cbn [mbind option_bind]. fold p. rewrite E.
  cbn [mbind option_bind]. change (w_kern (w_set_kern w k')) with k'. rewrite F1, lookup_insert_eq. cbn [mbind option_bind].
  unfold next_owner, blocked_on. rewrite Ht. cbn [mbind option_bind].
  change (th_wait_mutex (th_set_priority th p)) with (th_wait_mutex th).
  change (th_wait_list (th_set_priority th p)) with (th_wait_list th).
  destruct (th_wait_mutex th) as [m|]; cbn [mbind option_bind]; [|by destruct fuel].
  destruct (bool_decide_reflect (th_wait_list th = Some m)) as [Hw|]; cbn [negb mbind option_bind]; [|by destruct fuel].
  change (mutexes (w_set_kern w k')) with (mutexes w).
  pose proof (xi_wait _ _ _ _ Hi _ _ _ Ht Hw) as Hc. destruct (xi_call _ _ _ _ Hi _ _ Hc) as (([mx Hm] & _) & _). simpl in Hm.
  by rewrite Hm.
Qed.

Lemma next_owner_thread w calls log e t o :
  xinv w calls log e -> next_owner w t = Some o -> is_Some (threads (w_kern w) !! o).
Proof.
  intros Hi. unfold next_owner. destruct (blocked_on w t) as [m|]; [|done]. simpl.
  destruct (mutexes w !! m) as [mx|] eqn:Hm; [|done]. simpl. intros Ho.
  destruct (xi_mutex _ _ _ _ Hi _ _ Hm) as (sm & _ & []). rewrite Ho in mo_log0. apply mo_log0.
Qed.

(** The walk always comes to an end well and changes priorities only. *)
Lemma propagate_ok w calls log e thread extra depth :
  xinv w calls log e -> (∀ t, thread = Some t -> is_Some (threads (w_kern w) !! t)) -> 0 <= extra ->
  ∃ k', mini_os_mutex_propagate w thread extra depth = Some (w_set_kern w k') /\ xinv (w_set_kern w k') calls log e /\
    no_grant (w_kern w) k' /\ current_thread k' = current_thread (w_kern w) /\
    ∀ t, ∃ p, threads k' !! t = (λ th, th_set_priority th p) <$> threads (w_kern w) !! t.
Proof.
  unfold mini_os_mutex_propagate. generalize (Z.to_nat (MINI_OS_MUTEX_PI_CHAIN_MAX - depth)) as fuel. intros fuel.
  revert w thread extra. induction fuel as [|fuel IH]; intros w thread extra Hi Ht He.
  - exists (w_kern w). rewrite set_kern_eta. split; [done|]. split; [done|]. split; [apply no_grant_refl|]. split; [done|].
    intros t. destruct (threads (w_kern w) !! t) as [th|]; [|exists 0; done]. exists (th_priority th). simpl. by destruct th.
  - destruct thread as [t|].
    2:{ exists (w_kern w). rewrite set_kern_eta. split; [done|]. split; [done|]. split; [apply no_grant_refl|]. split; [done|].
        intros t. destruct (threads (w_kern w) !! t) as [th|]; [|exists 0; done]. exists (th_priority th). simpl. by destruct th. }
    destruct (Ht t eq_refl) as [th Hth]. destruct (propagate_step w calls log e fuel t th extra Hi Hth He)
      as (r & k1 & _ & Hr & -> & F1 & F2 & F3 & Hi1).
    destruct (IH (w_set_kern w k1) (next_owner w t) (if extra <? r then extra else r) Hi1) as (k' & E & Hi' & Hg & Hc & Hthr).
    { intros o Ho. destruct (next_owner_thread _ _ _ _ _ _ Hi Ho) as [tho Htho]. change (w_kern (w_set_kern w k1)) with k1.
      rewrite F1. destruct (decide (o = t)) as [->|]; [rewrite lookup_insert_eq|rewrite lookup_insert_ne by done]; eauto. }
    { destruct (Z.ltb_spec extra r); lia. }
    exists k'. split; [exact E|]. split; [exact Hi'|]. change (w_kern (w_set_kern w k1)) with k1 in *.
    split; [|split; [congruence|]].
    + eapply no_grant_trans; [|exact Hg]. split; [by rewrite F2| |]; rewrite F1.
      * intros t0 th0 Ht0. destruct (decide (t0 = t)) as [->|].
        -- rewrite lookup_insert_eq. eexists. split; [done|]. left. assert (th0 = th) as -> by congruence. done.
        -- rewrite lookup_insert_ne by done. eauto.
      * intros t0 th0. destruct (decide (t0 = t)) as [->|]; [eauto|rewrite lookup_insert_ne by done; eauto].
    + intros t0. destruct (Hthr t0) as [p Hp]. rewrite F1 in Hp. destruct (decide (t0 = t)) as [->|].
      * rewrite lookup_insert_eq in Hp. exists p. rewrite Hp, Hth. done.
      * rewrite lookup_insert_ne in Hp by done. eauto.
Qed.

(** ** What the walk achieves *)

(** The threads of a wait chain: each is parked on a mutex of the next, the last on none. *)
Inductive wait_chain (w : world) : list Z -> Prop :=
  | chain_end u : next_owner w u = None -> wait_chain w [u]
  | chain_link u v l : next_owner w u = Some v -> wait_chain w (v :: l) -> wait_chain w (u :: v :: l).

Lemma chain_tail w l u o : wait_chain w l -> u ∈ l -> next_owner w u = Some o -> o ∈ tail l.
Proof.
  induction 1 as [u' E|u' v l E Hc IH]; intros Hin Ho.
  - apply list_elem_of_singleton in Hin as ->. congruence.
  - apply elem_of_cons in Hin as [->|Hin].
    + assert (o = v) as -> by congruence. apply elem_of_cons. auto.
    + specialize (IH Hin Ho). apply elem_of_cons. right. exact IH.
Qed.

(** The blocks in [l] say on which mutex they wait. *)
Definition tidy (w : world) (l : list Z) : Prop :=
  ∀ u th, u ∈ l -> threads (w_kern w) !! u = Some th -> th_wait_list th = None \/ th_wait_list th = th_wait_mutex th.

(** The world with other priorities. *)
Record reprio (w w' : world) : Prop := {
  rp_sems : sems (w_sync w') = sems (w_sync w);
  rp_mutexes : mutexes w' = mutexes w;
  rp_held : hold_lists w' = hold_lists w;
  rp_lists : wait_lists (w_kern w') = wait_lists (w_kern w);
  rp_threads : ∀ t, ∃ p, threads (w_kern w') !! t = (λ th, th_set_priority th p) <$> threads (w_kern w) !! t
}.
Lemma reprio_next w w' u : reprio w w' -> next_owner w' u = next_owner w u.
Proof.
  intros [_ R2 _ _ R5]. unfold next_owner, blocked_on. destruct (R5 u) as [p ->].
  destruct (threads (w_kern w) !! u) as [th|]; simpl; [|done]. by rewrite R2.
Qed.
Lemma reprio_chain w w' l : reprio w w' -> wait_chain w l -> wait_chain w' l.
Proof.
  intros Hr. induction 1; constructor; try done; by rewrite (reprio_next _ _ _ Hr).
Qed.
Lemma reprio_tidy w w' l : reprio w w' -> tidy w l -> tidy w' l.
Proof.
  intros Hr Ht u th Hu. destruct (rp_threads _ _ Hr u) as [p ->].
  destruct (threads (w_kern w) !! u) as [th0|] eqn:E; [|done]. simpl. intros [= <-]. apply (Ht u th0 Hu E).
Qed.
Lemma reprio_trans w1 w2 w3 : reprio w1 w2 -> reprio w2 w3 -> reprio w1 w3.
Proof.
  intros [A1 A2 A3 A4 A5] [B1 B2 B3 B4 B5]. split; try congruence. intros t.
  destruct (A5 t) as [p Hp], (B5 t) as [q Hq]. exists q. rewrite Hq, Hp. by destruct (threads (w_kern w1) !! t).
Qed.
Lemma reprio_refl w : reprio w w.
Proof.
  split; try done. intros t. destruct (threads (w_kern w) !! t) as [th|]; [|by exists 0]. exists (th_priority th). simpl. by destruct th.
Qed.
Lemma reprio_waits w w' held u : reprio w w' -> waits_on (w_kern w') held u <-> waits_on (w_kern w) held u.
Proof. intros Hr. unfold waits_on. by rewrite (rp_lists _ _ Hr). Qed.
Lemma reprio_held w w' t : reprio w w' -> held_by w' t = held_by w t.
Proof. intros Hr. unfold held_by. by rewrite (rp_held _ _ Hr). Qed.

(** The required priority depends on the priorities of the waiters alone. *)
Lemma required_ext w w' calls log e t :
  xinv w calls log e -> xinv w' calls log e -> reprio w w' -> is_Some (threads (w_kern w) !! t) ->
  (∀ u, waits_on (w_kern w) (held_by w t) u -> threads (w_kern w') !! u = threads (w_kern w) !! u) ->
  mini_os_mutex_required_priority w' t = mini_os_mutex_required_priority w t.
Proof.
  intros Hi Hi' Hr [th Ht] Hu. destruct (rp_threads _ _ Hr t) as [p Hp]. rewrite Ht in Hp. simpl in Hp.
  destruct (required_spec w calls log e t th Hi Ht) as (r & -> & Hr1 & Ha & Hx).
  destruct (required_spec w' calls log e t _ Hi' Hp) as (r' & -> & Hr2 & Ha' & Hx'). simpl in *. f_equal.
  rewrite (reprio_held _ _ _ Hr) in Ha', Hx'. apply Z.le_antisymm.
  - destruct Hx as [->|(u & thu & Hw & Hthu & <-)]; [lia|]. apply (Ha' u); [by apply (reprio_waits w w')|by rewrite Hu].
  - destruct Hx' as [->|(u & thu & Hw & Hthu & <-)]; [lia|]. apply (reprio_waits w w') in Hw; [|done].
    apply (Ha u); [done|]. by rewrite Hu in Hthu.
Qed.

Lemma waits_next w calls log e t u l :
  xinv w calls log e -> tidy w l -> u ∈ l -> waits_on (w_kern w) (held_by w t) u -> next_owner w u = Some t.
Proof.
  intros Hi Htd Hu (m & wl & Hm & Hl & Hin). destruct (waiters_ok _ _ _ _ _ _ _ Hi Hl Hin) as (th & Ht & _ & Hw).
  apply (xi_held _ _ _ _ Hi) in Hm as (mx & Hm & Ho). unfold next_owner, blocked_on. rewrite Ht. simpl.
  destruct (Htd u th Hu Ht) as [?|E]; [congruence|]. rewrite <- E, Hw. simpl. rewrite bool_decide_true by done. simpl. by rewrite Hm.
Qed.

Lemma settle fuel w calls log e t l extra :
  xinv w calls log e -> wait_chain w (t :: l) -> NoDup (t :: l) -> tidy w (t :: l) -> (length (t :: l) <= fuel)%nat ->
  is_Some (threads (w_kern w) !! t) -> 0 <= extra ->
  ∃ w', propagate_loop fuel w (Some t) extra = Some w' /\ xinv w' calls log e /\ reprio w w' /\
    (∀ u, u ∉ t :: l -> threads (w_kern w') !! u = threads (w_kern w) !! u) /\
    ∀ u th, u ∈ t :: l -> threads (w_kern w') !! u = Some th ->
      ∃ r, mini_os_mutex_required_priority w' u = Some r /\ th_priority th = if u =? t then Z.min extra r else r.
Proof.
  revert w t l extra. induction fuel as [|fuel IH]; intros w t l extra Hi Hc Hnd Htd Hlen [th Ht] He; [simpl in Hlen; lia|].
  destruct (propagate_step w calls log e fuel t th extra Hi Ht He) as (r & k1 & Er & Hr & -> & F1 & F2 & F3 & Hi1).
  set (p := if extra <? r then extra else r) in *. set (w1 := w_set_kern w k1) in *.
  assert (reprio w w1) as Hr1.
  { split; try done. intros u. change (w_kern w1) with k1. rewrite F1. destruct (decide (u = t)) as [->|].
    - exists p. rewrite lookup_insert_eq, Ht. done.
    - rewrite lookup_insert_ne by done. destruct (threads (w_kern w) !! u) as [thu|]; [|by exists 0].
      exists (th_priority thu). simpl. by destruct thu. }
  assert (∀ u, u ≠ t -> threads (w_kern w1) !! u = threads (w_kern w) !! u) as Hne
    by (intros u Hu; change (w_kern w1) with k1; by rewrite F1, lookup_insert_ne).
  assert (threads (w_kern w1) !! t = Some (th_set_priority th p)) as Ht1
    by (change (w_kern w1) with k1; by rewrite F1, lookup_insert_eq).
  assert (p = Z.min extra r) as Hp by (subst p; destruct (Z.ltb_spec extra r); lia).
  (* no thread of the chain waits on a mutex of [t] *)
  assert (∀ u, u ∈ t :: l -> ¬ waits_on (w_kern w) (held_by w t) u) as Hnw.
  { intros u Hu Hw. pose proof (waits_next _ _ _ _ _ _ _ Hi Htd Hu Hw) as Hn.
    pose proof (chain_tail _ _ _ _ Hc Hu Hn) as Hin. apply list.NoDup_cons in Hnd as [Hnd _]. by apply Hnd. }
  assert (∀ w', xinv w' calls log e -> reprio w w' -> (∀ u, u ∉ t :: l -> threads (w_kern w') !! u = threads (w_kern w) !! u) ->
    mini_os_mutex_required_priority w' t = Some r) as Hreq.
  { intros w' Hi' Hrp Hout. rewrite <- Er. eapply required_ext; [exact Hi|exact Hi'|done|eauto|].
    intros u Hu. apply Hout. intros Hin. by apply (Hnw u). }
  inversion Hc as [? Hno|? v l' Hno Hc']; subst.
  - rewrite Hno. exists w1. split; [by destruct fuel|]. split; [done|]. split; [done|].
    assert (∀ u, u ∉ [t] -> threads (w_kern w1) !! u = threads (w_kern w) !! u) as Hout
      by (intros u Hu; apply Hne; intros ->; apply Hu, elem_of_cons; auto).
    split; [done|]. intros u thu Hu%list_elem_of_singleton. subst u. rewrite Ht1. intros [= <-].
    exists r. split; [by apply Hreq|]. by rewrite Z.eqb_refl.
  - rewrite Hno. apply list.NoDup_cons in Hnd as [Htnin Hnd].
    destruct (IH w1 v l' p Hi1) as (w' & E & Hi' & Hrp & Hout & Hin).
    + by apply (reprio_chain w).
    + done.
    + intros u thu Hu. apply (reprio_tidy w w1 _ Hr1 Htd u thu). apply elem_of_cons. auto.
    + simpl in Hlen |- *. lia.
    + destruct (next_owner_thread _ _ _ _ _ _ Hi Hno) as [thv Hthv].
      destruct (decide (v = t)) as [->|]; [eauto|]. rewrite Hne by done. eauto.
    + subst p. destruct (Z.ltb_spec extra r); lia.
    + exists w'. split; [exact E|]. split; [done|]. assert (reprio w w') as Hrp' by by apply (reprio_trans w w1).
      assert (threads (w_kern w') !! t = Some (th_set_priority th p)) as Ht'.
      { rewrite Hout by done. done. }
      assert (∀ u, u ∉ t :: v :: l' -> threads (w_kern w') !! u = threads (w_kern w) !! u) as Hout'.
      { intros u Hu. apply not_elem_of_cons in Hu as [? ?]. by rewrite Hout, Hne. }
      split; [done|]. split; [done|]. intros u thu Hu Hthu. apply elem_of_cons in Hu as [->|Hu].
      * rewrite Ht' in Hthu. injection Hthu as <-. exists r. split; [by apply Hreq|]. by rewrite Z.eqb_refl.
      * destruct (Hin u thu Hu Hthu) as (ru & Eru & Hru). exists ru. split; [done|].
        destruct (Z.eqb_spec u t) as [->|]; [done|]. destruct (Z.eqb_spec u v) as [->|]; [|done].
        rewrite Hru. apply Z.min_r.
        (* [t] waits on a mutex of [v] *)
        destruct (required_spec w' calls log e v thu Hi' Hthu) as (rv & Erv & _ & Hall & _).
        assert (rv = ru) as -> by congruence.
        pose proof (Hall t (th_set_priority th p)) as Hle. simpl in Hle. apply Hle; [|done].
        unfold next_owner, blocked_on in Hno. rewrite Ht in Hno. simpl in Hno.
        destruct (th_wait_mutex th) as [m|]; [|done]. simpl in Hno.
        destruct (bool_decide_reflect (th_wait_list th = Some m)) as [Hwl|]; [|done]. simpl in Hno.
        destruct (mutexes w !! m) as [mx|] eqn:Hm; [|done]. simpl in Hno.
        destruct (xi_mutex _ _ _ _ Hi _ _ Hm) as (sm & _ & [[wl Hl] _ _ _ _]).
        exists m, wl. split; [rewrite (reprio_held _ _ _ Hrp'); apply (xi_held _ _ _ _ Hi); eauto|].
        rewrite (rp_lists _ _ Hrp'). split; [done|]. apply (waits_in_list _ t th m _ (xi_wf _ _ _ _ Hi)); done.
Qed.

(** ** Every step keeps the invariant *)

Lemma held_by_eq y ms hs t : held_by (mk_world y ms hs) t = default [] (hs !! t).
Proof. done. Qed.

(** A step on the mutex [m] that leaves the kernel and the calls alone. *)
Lemma xinv_mutex w calls log e m mx' sm' holds' log' e' :
  xinv w calls log e -> is_Some (mutexes w !! m) ->
  (∀ m', m' ≠ m -> owner_of log' m' = owner_of log m') -> exclusive log' ->
  (∀ m', m' ≠ m -> e = Some m' <-> e' = Some m') ->
  (∀ t m', m' ∈ default [] (holds' !! t) <-> if decide (m' = m) then mx_owner mx' = Some t else m' ∈ held_by w t) ->
  let w' := mk_world (set_sem (w_sync w) m sm') (<[m := mx']> (mutexes w)) holds' in
  mutex_ok w' calls log' e' m mx' sm' -> xinv w' calls log' e'.
Proof.
  intros [I1 I2 I3 I4 I5 I6 I7 I8] [mx Hm] Hlog Hex He Hheld w' Hok. split; try done.
  - intros m' mx0. simpl. destruct (decide (m' = m)) as [->|Hne].
    + rewrite !lookup_insert_eq. intros [= <-]. exists sm'. auto.
    + rewrite !lookup_insert_ne by done. intros Hm'. destruct (I3 _ _ Hm') as (sm & Hs & []). exists sm. split; [done|].
      split; try done; [by rewrite Hlog|]. destruct mo_unit0 as (loc & H1 & H2 & H3). exists loc.
      split; [|split; [done|by rewrite <- He]]. destruct loc; try done. by rewrite <- He.
  - intros t m'. change (held_by w' t) with (default [] (holds' !! t)). rewrite Hheld. simpl. destruct (decide (m' = m)) as [->|Hne].
    + setoid_rewrite lookup_insert_eq. naive_solver.
    + setoid_rewrite lookup_insert_ne; [|done]. apply I4.
  - intros t c Hc. destruct (I6 _ _ Hc) as (([mx0 H0] & Htm) & Hr). split; [|done]. split; [|done]. simpl.
    destruct (decide (call_mutex c = m)) as [->|]; [rewrite lookup_insert_eq; eauto|rewrite lookup_insert_ne by done; eauto].
  - intros m'. simpl. destruct (decide (m' = m)) as [->|]; [by rewrite lookup_insert_eq|]. rewrite lookup_insert_ne, Hlog by done. apply I8.
Qed.

(** Header and reference counts do not matter while the mutex lives. *)
Lemma xinv_objs w calls log e m mx sm o os :
  xinv w calls log e -> mutexes w !! m = Some mx -> sems (w_sync w) !! m = Some sm ->
  mini_os_obj_is_destroyed o = false -> mini_os_obj_is_destroyed os = false ->
  xinv (w_set_mutex (w_set_sem w m (sem_set_obj sm os)) m (mx_set_obj mx o)) calls log e.
Proof.
  intros Hi Hm Hs Ho Hos. pose proof (xi_log _ _ _ _ Hi).
  apply (xinv_mutex w calls log e m (mx_set_obj mx o) (sem_set_obj sm os) (hold_lists w) log e); try done; try (by eauto).
  - intros t m'. fold (held_by w t). destruct (decide (m' = m)) as [->|]; [|done]. rewrite (xi_held _ _ _ _ Hi). simpl.
    rewrite Hm. naive_solver.
  - destruct (xi_mutex _ _ _ _ Hi _ _ Hm) as (sm0 & Hs0 & []). assert (sm0 = sm) as -> by congruence. by split.
Qed.
Lemma set_sem_id w m sm o : sems (w_sync w) !! m = Some sm -> o = sem_obj sm -> w_set_sem w m (sem_set_obj sm o) = w.
Proof.
  intros Hs ->. unfold w_set_sem, w_set_sync. assert (sem_set_obj sm (sem_obj sm) = sm) as -> by by destruct sm.
  rewrite set_sem_same by done. by destruct w.
Qed.
Lemma xinv_obj w calls log e m mx o :
  xinv w calls log e -> mutexes w !! m = Some mx -> mini_os_obj_is_destroyed o = false ->
  xinv (w_set_mutex w m (mx_set_obj mx o)) calls log e.
Proof.
  intros Hi Hm Ho. destruct (xi_mutex _ _ _ _ Hi _ _ Hm) as (sm & Hs & [_ [_ Hd] _ _ _]).
  pose proof (xinv_objs w calls log e m mx sm o (sem_obj sm) Hi Hm Hs Ho Hd) as H. by rewrite set_sem_id in H.
Qed.
Lemma mutex_release_ok w calls log e m :
  xinv w calls log e -> is_Some (mutexes w !! m) -> ∃ w', mutex_release w m = Some w' /\ xinv w' calls log e.
Proof.
  intros Hi [mx Hm]. unfold mutex_release. rewrite Hm. cbn [mbind option_bind].
  destruct (xi_mutex _ _ _ _ Hi _ _ Hm) as (sm & Hs & [_ [Hd _] _ _ _]). destruct (release_alive _ Hd) as (o & -> & Ho).
  eexists. split; [done|]. by apply xinv_obj.
Qed.

(** The thread [c] goes from one point of its calls to another; a unit may pass between its
    call and the step. *)
Lemma xinv_calls w calls calls' log e e' c th :
  xinv w calls log e -> threads (w_kern w) !! c = Some th -> th_wait_list th = None ->
  (∀ t, t ≠ c -> calls' !! t = calls !! t) ->
  (∀ p, calls' !! c = Some p -> call_ok w p) ->
  (∀ m, e' = Some m \/ flight (w_kern w) calls' m c -> e = Some m \/ flight (w_kern w) calls m c) ->
  (∀ m, e' = Some m -> ¬ flight (w_kern w) calls' m c) ->
  xinv w calls' log e'.
Proof.
  intros [I1 I2 I3 I4 I5 I6 I7 I8] Ht Hl Hne Hc Hin Hex. split; try done.
  - intros m mx Hm. destruct (I3 _ _ Hm) as (sm & Hs & []). exists sm. split; [done|]. split; try done.
    destruct mo_unit0 as (loc & H1 & H2 & H3).
    assert (∀ t, t ≠ c -> flight (w_kern w) calls' m t <-> flight (w_kern w) calls m t) as Hfl
      by (intros t Htc; unfold flight; by rewrite Hne).
    assert (e' ≠ Some m -> ¬ flight (w_kern w) calls' m c -> loc ≠ AtStep -> located (w_kern w) calls' e' m (sem_count sm) (mx_owner mx) loc) as Hsame.
    { intros He' Hf Hs'. split; [by destruct loc|]. split; [|done]. intros t Hft.
      destruct (decide (t = c)) as [->|]; [done|]. apply H2. by apply Hfl. }
    assert (loc = AtStep \/ loc = AtCall c -> ∃ loc', located (w_kern w) calls' e' m (sem_count sm) (mx_owner mx) loc') as Hmove.
    { intros Hloc. assert (sem_count sm = 0 /\ mx_owner mx = None) as [E1 E2] by (destruct Hloc as [->| ->]; naive_solver).
      assert (∀ t, t ≠ c -> ¬ flight (w_kern w) calls' m t) as Hno.
      { intros t Htc Hft. apply Hfl, H2 in Hft; [|done]. destruct Hloc; naive_solver. }
      destruct (decide (e' = Some m)) as [He'|He'].
      - exists AtStep. split; [done|]. split; [|done]. intros t Hft. exfalso.
        destruct (decide (t = c)) as [->|Htc]; [by apply (Hex m)|by apply (Hno t)].
      - exists (AtCall c). split; [done|]. split; [|done]. intros t Hft.
        destruct (decide (t = c)) as [->|Htc]; [done|]. by destruct (Hno t). }
    assert (loc ≠ AtStep -> loc ≠ AtCall c -> ∃ loc', located (w_kern w) calls' e' m (sem_count sm) (mx_owner mx) loc') as Hkeep.
    { intros Hn1 Hn2. exists loc. apply Hsame; [| |done].
      - intros He'. destruct (Hin m (or_introl He')) as [He|Hf]; [by apply Hn1, H3|by apply Hn2, H2].
      - intros Hf'. destruct (Hin m (or_intror Hf')) as [He|Hf]; [by apply Hn1, H3|by apply Hn2, H2]. }
    destruct loc as [|t|t|]; try (by apply Hkeep); [|by auto].
    destruct (decide (t = c)) as [->|]; [by auto|]. apply Hkeep; congruence.
  - intros t tht m Htt Hw. destruct (decide (t = c)) as [->|]; [congruence|]. rewrite Hne by done. by apply (I5 t tht).
  - intros t p Hp. destruct (decide (t = c)) as [->|]; [|rewrite Hne in Hp by done; by apply I6].
    split; [by apply Hc|]. exists th. split; [done|]. auto.
Qed.

Lemma flight_insert k calls m c p t : flight k (<[c := p]> calls) m t -> t ≠ c -> flight k calls m t.
Proof. intros Hf Hn. unfold flight in *. by rewrite lookup_insert_ne in Hf. Qed.
Lemma flight_of k calls m c : flight k calls m c -> ∃ p, calls !! c = Some p /\ call_mutex p = m.
Proof. unfold flight. destruct (calls !! c) as [[]|]; try done; simpl; naive_solver. Qed.

(** The caller of a thread call is not parked. *)
Lemma caller_free w calls log e c th :
  xinv w calls log e -> may_call (w_kern w) -> current_thread (w_kern w) = Some c -> threads (w_kern w) !! c = Some th ->
  th_wait_list th = None.
Proof.
  intros Hi Hm Hc Ht. pose proof (caller_runs _ _ _ Hm Hc Ht) as Hr. destruct (th_wait_list th) eqn:El; [|done].
  assert (th_state th = THREAD_BLOCKED); [|congruence]. apply (to_wait _ _ _ (wf_threads _ (xi_wf _ _ _ _ Hi) _ _ Ht)). by rewrite El.
Qed.

(** The step that has the unit makes [c] the owner. *)
Lemma own_ok w calls log m c :
  xinv w calls log (Some m) -> is_Some (mutexes w !! m) -> is_Some (threads (w_kern w) !! c) ->
  ∃ w', mutex_own w m c = Some w' /\ xinv w' calls (Locked m c :: log) None /\ w_kern w' = w_kern w /\
        dom (mutexes w') = dom (mutexes w).
Proof.
  intros Hi [mx Hm] Hc. unfold mutex_own. rewrite Hm. cbn [mbind option_bind].
  destruct (xi_mutex _ _ _ _ Hi _ _ Hm) as (sm & Hs & [O1 O2 O3 O4 (loc & H1 & H2 & H3)]).
  specialize (H3 eq_refl). subst loc. destruct H1 as (Hcnt & Hown & _). rewrite Hown in O4.
  unfold hold_link. rewrite bool_decide_false.
  2:{ intros (t & l & Hl & Hin). simpl in Hl. assert (m ∈ held_by w t) as Hh by (unfold held_by; by rewrite Hl).
      apply (xi_held _ _ _ _ Hi) in Hh as (mx0 & Hm0 & Ho). congruence. }
  eexists. split; [done|]. split; [|split; [done|simpl; rewrite dom_insert_L; apply elem_of_dom_2 in Hm; set_solver]].
  set (mx' := mx_set_depth (mx_set_owner mx (Some c)) 1).
  assert (set_sem (w_sync w) m sm = w_sync w) as Hsy by by apply set_sem_same.
  rewrite <- Hsy at 1.
  apply (xinv_mutex w calls log (Some m) m mx' sm _ _ None); try done; try (by eauto).
  - intros m' Hne. simpl. by destruct (Z.eqb_spec m m') as [->|].
  - simpl. rewrite O4. split; [done|apply (xi_log _ _ _ _ Hi)].
  - intros m' Hne. split; [congruence|done].
  - intros t m'. simpl. destruct (decide (t = c)) as [->|Ht].
    + rewrite lookup_insert_eq. simpl. change (held_by (w_set_mutex w m mx') c) with (held_by w c).
      rewrite elem_of_app, list_elem_of_singleton. destruct (decide (m' = m)) as [->|]; [naive_solver|naive_solver].
    + rewrite lookup_insert_ne by done. simpl. change (default [] (hold_lists w !! t)) with (held_by w t).
      destruct (decide (m' = m)) as [->|]; [|done]. rewrite (xi_held _ _ _ _ Hi), Hm. naive_solver congruence.
  - rewrite Hsy. split; simpl; try done.
    + rewrite Z.eqb_refl, O4. split; [done|]. split; [done|lia].
    + exists (AtOwner c). split; [done|]. split; [|done]. intros t Hf. by apply H2 in Hf.
Qed.

(** The step takes the unit from the semaphore. *)
Lemma take_unit w calls log m mx sm o :
  xinv w calls log None -> mutexes w !! m = Some mx -> sems (w_sync w) !! m = Some sm -> sem_count sm > 0 ->
  mini_os_obj_is_destroyed o = false ->
  xinv (w_set_sem w m (mk_sem (sem_count sm - 1) (sem_max_count sm) o)) calls log (Some m).
Proof.
  intros Hi Hm Hs Hc Ho. destruct (xi_mutex _ _ _ _ Hi _ _ Hm) as (sm0 & Hs0 & [O1 O2 O3 O4 (loc & H1 & H2 & H3)]).
  assert (sm0 = sm) as -> by congruence.
  assert (loc = AtSem) as -> by (destruct loc; try done; simpl in H1; lia). destruct H1 as [Hcnt Hown].
  assert (w_set_sem w m (mk_sem (sem_count sm - 1) (sem_max_count sm) o) =
    mk_world (set_sem (w_sync w) m (mk_sem (sem_count sm - 1) (sem_max_count sm) o)) (<[m := mx]> (mutexes w)) (hold_lists w)) as ->
    by (unfold w_set_sem, w_set_sync; by rewrite (insert_id (mutexes w) m mx Hm)).
  apply (xinv_mutex w calls log None m mx _ _ _ (Some m)); try done; try (by eauto).
  - apply (xi_log _ _ _ _ Hi).
  - intros m' Hne. split; [done|congruence].
  - intros t m'. fold (held_by w t). destruct (decide (m' = m)) as [->|]; [|done]. rewrite (xi_held _ _ _ _ Hi), Hm. naive_solver.
  - split; simpl; try done; [by destruct O2|]. exists AtStep. split; [split; [lia|done]|]. split; [|done].
    intros t Hf. by apply H2 in Hf.
Qed.

(** The step gives the unit away: to the oldest waiter or to the semaphore. *)
Lemma give_ok w calls log m yields :
  xinv w calls log (Some m) -> is_Some (mutexes w !! m) ->
  ∃ rc w', mutex_give w m yields = Some (rc, w') /\ xinv w' calls log None /\ rc = MINI_OK.
Proof.
  intros Hi [mx Hm]. destruct (xi_mutex _ _ _ _ Hi _ _ Hm) as (sm & Hs & [[l Hl] O2 O3 O4 (loc & H1 & H2 & H3)]).
  specialize (H3 eq_refl). subst loc. destruct H1 as (Hcnt & Hown & _).
  assert (∀ k', wf k' -> xinv (w_set_kern w k') calls log None -> xinv (w_set_kern w (mini_os_schedule_yield k').2) calls log None) as Hyield.
  { intros k' Hw' Hi'. pose proof (xinv_kernel _ _ _ _ (mini_os_schedule_yield k').2 Hi') as H. apply H.
    - by apply wf_pendsv.
    - split; eauto.
    - exact (xi_base _ _ _ _ Hi'). }
  unfold mutex_give, give_common, mini_os_semaphore_wake_one, wake_oldest. change (kern (w_sync w)) with (w_kern w). rewrite Hl.
  cbn [mbind option_bind]. destruct l as [|t l].
  - cbn [mbind option_bind]. rewrite Hs. cbn [mbind option_bind]. rewrite Hcnt, O3. simpl. eexists _, _. split; [done|].
    split; [|done]. change (u16 1) with 1.
    match goal with |- xinv ?W _ _ _ => assert (W =
      mk_world (set_sem (w_sync w) m (sem_set_count sm 1)) (<[m := mx]> (mutexes w)) (hold_lists w)) as -> end.
    { unfold w_set_sync, set_kern, w_kern, set_sem, sem_set_count. simpl. rewrite (insert_id (mutexes w) m mx Hm), O3. done. }
    apply (xinv_mutex w calls log (Some m) m mx _ _ _ None); try done; try (by eauto).
    + apply (xi_log _ _ _ _ Hi).
    + intros m' Hne. split; [congruence|done].
    + intros t m'. fold (held_by w t). destruct (decide (m' = m)) as [->|]; [|done]. rewrite (xi_held _ _ _ _ Hi), Hm. naive_solver.
    + split; simpl; try done; try (by eauto). exists AtSem. split; [done|]. split; [|done]. intros t Hf. by apply H2 in Hf.
  - destruct (wake_ok (w_kern w) m (t :: l) t true (xi_wf _ _ _ _ Hi) Hl) as (k' & th & -> & Hw' & Ht & Hth & Hf & _);
      [apply elem_of_cons; auto|]. cbn [mbind option_bind].
    pose proof Hf as [F1 _ _ _ _ F6]. pose proof (xi_wait _ _ _ _ Hi _ _ _ Ht Hth) as Hcall.
    assert (th_wait_list (woken th true) = None /\ th_wait_status (woken th true) = true /\
            th_base_priority (woken th true) = th_base_priority th) as (W1 & W2 & W3)
      by (unfold woken; by destruct (_ <? _)).
    assert (xinv (w_set_kern w k') calls log None) as Hi'.
    { destruct Hi as [I1 I2 I3 I4 I5 I6 I7 I8]. split; simpl; try done.
      - by eapply bases_frame.
      - intros m' mx' Hm'. destruct (I3 _ _ Hm') as (sm' & Hs' & []). exists sm'. split; [done|]. split; try done.
        + change (is_Some (wait_lists k' !! m')). rewrite <- elem_of_dom, F6. by apply elem_of_dom.
        + destruct (mx_owner mx') as [o|]; [|done]. destruct mo_log0 as ([tho Htho] & ? & ?). split; [|done].
          change (is_Some (threads k' !! o)). rewrite F1.
          destruct (decide (o = t)) as [->|]; [rewrite lookup_insert_eq|rewrite lookup_insert_ne by done]; eauto.
        + change (w_kern (w_set_kern w k')) with k'.
          assert (∀ t' m0, t' ≠ t -> flight k' calls m0 t' <-> flight (w_kern w) calls m0 t') as Hfl.
          { intros t' m0 Hne. unfold flight. by rewrite F1, lookup_insert_ne. }
          assert (∀ m0, flight k' calls m0 t -> m0 = m) as Hft.
          { intros m0. unfold flight. rewrite Hcall. naive_solver. }
          destruct mo_unit0 as (loc & L1 & L2 & L3). destruct (decide (m' = m)) as [->|Hne].
          * assert (mx' = mx) as -> by congruence. assert (sm' = sm) as -> by congruence.
            exists (AtCall t). split; [done|]. split; [|done]. intros t' Hf'. destruct (decide (t' = t)) as [->|Hn]; [done|].
            apply Hfl in Hf'; [|done]. by apply H2 in Hf'.
          * exists loc. split; [|split; [|done]].
            -- destruct loc; try done. destruct L1 as (_ & _ & ?). congruence.
            -- intros t' Hf'. destruct (decide (t' = t)) as [->|Hn]; [by apply Hft in Hf'|]. apply L2. by apply Hfl.
      - intros t' th' m' Ht' Hw. change (threads k' !! t' = Some th') in Ht'. rewrite F1 in Ht'.
        destruct (decide (t' = t)) as [->|]; [rewrite lookup_insert_eq in Ht'; simplify_eq; congruence|].
        rewrite lookup_insert_ne in Ht' by done. by apply (I5 t' th').
      - intros t' p Hp. destruct (I6 _ _ Hp) as (Hs' & th' & Ht' & Hd). split; [done|].
        change (∃ th, threads k' !! t' = Some th /\ ∀ m, p = InPark m -> th_wait_list th = None \/ th_wait_list th = Some m). rewrite F1.
        destruct (decide (t' = t)) as [->|]; [rewrite lookup_insert_eq; eauto|rewrite lookup_insert_ne by done; eauto]. }
    eexists _, _. split; [done|]. split; [|done].
    destruct yields; [apply (Hyield k' Hw' Hi')|exact Hi'].
Qed.

Lemma keeps_level_safe k : keeps_level k = true -> switch_safe k.
Proof.
  unfold keeps_level. intros H Hp c th Hc Ht. rewrite Hc in H. simpl in H. rewrite Ht in H. bool_to_prop. lia.
Qed.

Lemma kernel_lock_step ts lt x op :
  xinv (x_world x) (x_calls x) (x_log x) None -> lock_op_ok x (XKernel op) ->
  ∃ x', lock_step ts lt x (XKernel op) = Some x' /\ xinv (x_world x') (x_calls x') (x_log x') None.
Proof.
  intros Hi Hok. set (k := w_kern (x_world x)).
  assert (plain_op op /\ op_ok k op /\ (op = KSwitch -> switch_safe k)) as (Hp & Ho & Hs)
    by (destruct op; simpl in Hok; try done; try (by split); naive_solver eauto using keeps_level_safe).
  destruct (plain_step ts lt k op (xi_wf _ _ _ _ Hi) Hs Hp Ho) as (k' & E & Hw & Hg & Hb).
  unfold lock_step. fold k. rewrite E. simpl. eexists. split; [done|].
  apply xinv_kernel; [done..|]. apply Hb, (xi_base _ _ _ _ Hi).
Qed.

Lemma priority_lock_step ts lt x t p :
  xinv (x_world x) (x_calls x) (x_log x) None -> lock_op_ok x (XPriority t p) ->
  ∃ x', lock_step ts lt x (XPriority t p) = Some x' /\ xinv (x_world x') (x_calls x') (x_log x') None.
Proof.
  intros Hi [[th Ht] Hp]. unfold lock_step, mini_os_thread_set_priority.
  destruct (Z.geb_spec p MINI_OS_PRIORITY); [eexists; split; [done|exact Hi]|].
  rewrite Ht. cbn [mbind option_bind mini_os_mutex_priority_recompute].
  pose proof (xinv_set_thread _ _ _ _ t th (th_set_base_priority th p) Hi Ht eq_refl eq_refl eq_refl eq_refl eq_refl (or_introl eq_refl) ltac:(simpl; lia)) as Hi1.
  destruct (propagate_ok _ _ _ _ (Some t) MINI_OS_PRIORITY 0 Hi1) as (k' & -> & Hi' & _).
  - intros t' [= <-]. simpl. change (is_Some (<[t := th_set_base_priority th p]> (threads (w_kern (x_world x))) !! t)).
    rewrite lookup_insert_eq. eauto.
  - unfold MINI_OS_PRIORITY. lia.
  - eexists. split; [done|]. exact Hi'.
Qed.

Lemma create_lock_step ts lt x m r s :
  xinv (x_world x) (x_calls x) (x_log x) None -> lock_op_ok x (XCreate m r s) ->
  ∃ x', lock_step ts lt x (XCreate m r s) = Some x' /\ xinv (x_world x') (x_calls x') (x_log x') None.
Proof.
  destruct x as [w calls log]. intros Hi (Hm & Hs & Hl). unfold lock_step. eexists. split; [done|].
  simpl in *. pose proof Hi as [I1 I2 I3 I4 I5 I6 I7 I8].
  destruct (new_obj_flags (negb s)) as [Hd _].
  assert (∀ t c, calls !! t = Some c -> call_mutex c ≠ m) as Hnc.
  { intros t c Hc E. destruct (I6 _ _ Hc) as [[[? E'] _] _]. congruence. }
  split; cbn [w_kern w_sync w_set_mutex w_set_sync set_sem set_kern kern sems mutexes hold_lists].
  - by apply wf_wait_list_init.
  - exact I2.
  - intros m' mx. destruct (decide (m' = m)) as [->|Hne].
    + rewrite !lookup_insert_eq. intros [= <-]. eexists. split; [done|]. split; simpl; try done.
      * rewrite lookup_insert_eq. eauto.
      * by apply I8.
      * exists AtSem. split; [done|]. split; [|done]. intros t Hf. destruct (flight_of _ _ _ _ Hf) as (p & Hp & E). by destruct (Hnc t p).
    + rewrite !lookup_insert_ne by done. intros Hm'. destruct (I3 _ _ Hm') as (sm & Hsm & []). exists sm. split; [done|].
      split; simpl; try done. by rewrite lookup_insert_ne.
  - intros t m'. change (held_by _ t) with (held_by w t). rewrite I4. destruct (decide (m' = m)) as [->|Hne].
    + rewrite Hm, lookup_insert_eq. naive_solver.
    + by setoid_rewrite lookup_insert_ne.
  - exact I5.
  - intros t c Hc. destruct (I6 _ _ Hc) as [[Hsome Htm] Hr]. split; [|exact Hr]. split; [|exact Htm]. simpl. rewrite lookup_insert_ne; [done|]. intros E. by apply (Hnc t c).
  - done.
  - intros m' Hm'. destruct (decide (m' = m)) as [->|]; [by rewrite lookup_insert_eq in Hm'|rewrite lookup_insert_ne in Hm' by done; by apply I8].
Qed.

(** The owner locks again or unlocks once of several times. *)
Lemma depth_ok w calls log m mx c d ev :
  xinv w calls log None -> mutexes w !! m = Some mx -> mx_owner mx = Some c -> 1 <= d < 256 ->
  (ev = Locked m c /\ d = mx_depth mx + 1 \/ ev = Unlocked m c /\ d = mx_depth mx - 1) ->
  xinv (w_set_mutex w m (mx_set_depth mx d)) calls (ev :: log) None.
Proof.
  intros Hi Hm Ho Hd Hev. destruct (xi_mutex _ _ _ _ Hi _ _ Hm) as (sm & Hs & [O1 O2 O3 O4 O5]). rewrite Ho in O4.
  destruct O4 as (Hc & Hlog & Hdep).
  assert (w_set_mutex w m (mx_set_depth mx d) =
    mk_world (set_sem (w_sync w) m sm) (<[m := mx_set_depth mx d]> (mutexes w)) (hold_lists w)) as -> by by rewrite set_sem_same.
  assert (owner_of (ev :: log) m = Some (c, d)) as Hlog'.
  { destruct Hev as [[-> ->]|[-> ->]]; simpl; rewrite Z.eqb_refl, Hlog; [done|].
    destruct (Z.eqb_spec (mx_depth mx) 1); [lia|done]. }
  apply (xinv_mutex w calls log None m _ _ _ _ None); try done; try (by eauto).
  - intros m' Hne. destruct Hev as [[-> _]|[-> _]]; simpl; by destruct (Z.eqb_spec m m') as [->|].
  - pose proof (xi_log _ _ _ _ Hi). destruct Hev as [[-> _]|[-> _]]; simpl; by rewrite Hlog.
  - intros t m'. fold (held_by w t). destruct (decide (m' = m)) as [->|]; [|done]. rewrite (xi_held _ _ _ _ Hi), Hm.
    simpl. naive_solver.
  - split; try done. simpl. rewrite Ho. done.
Qed.

Lemma lock_enter_ok w calls log m timeout c th :
  xinv w calls log None -> is_Some (mutexes w !! m) -> current_thread (w_kern w) = Some c ->
  threads (w_kern w) !! c = Some th -> th_wait_list th = None ->
  ∃ r, mutex_lock_enter w (Some m) timeout = Some r /\
    match r with
    | inl (rc, w') => xinv w' calls (if rc =? MINI_OK then Locked m c :: log else log) None
    | inr w' => xinv w' calls log None /\ is_Some (mutexes w' !! m) /\
                ∃ th', threads (w_kern w') !! c = Some th' /\ th_wait_list th' = None
    end.
Proof.
  intros Hi [mx Hm] Hc Hth Hwl. destruct (xi_mutex _ _ _ _ Hi _ _ Hm) as (sm & Hs & [O1 [Hd Hds] O3 O4 O5]).
  unfold mutex_lock_enter. rewrite Hm. cbn [mbind option_bind]. destruct (acquire_alive _ Hd) as (o & -> & Hdo).
  rewrite Z.eqb_refl. cbn [negb]. pose proof (xinv_obj _ _ _ _ _ _ _ Hi Hm Hdo) as Hi1.
  set (w1 := w_set_mutex w m (mx_set_obj mx o)) in *. change (w_kern w1) with (w_kern w). rewrite Hc.
  change (sems (w_sync w1) !! m) with (sems (w_sync w) !! m). rewrite Hs. cbn [mbind option_bind].
  assert (mutexes w1 !! m = Some (mx_set_obj mx o)) as Hm1 by apply lookup_insert_eq.
  assert (∀ w' log' rc, xinv w' calls log' None -> is_Some (mutexes w' !! m) -> log' = (if rc =? MINI_OK then Locked m c :: log else log) ->
    ∃ r, (w ← mutex_release w' m; Some (inl (rc, w))) = Some r /\
    match r with
    | inl (rc, w') => xinv w' calls (if rc =? MINI_OK then Locked m c :: log else log) None
    | inr w' => xinv w' calls log None /\ is_Some (mutexes w' !! m) /\
                ∃ th', threads (w_kern w') !! c = Some th' /\ th_wait_list th' = None
    end) as Hret.
  { intros w' log' rc Hi' Hm' ->. destruct (mutex_release_ok _ _ _ _ _ Hi' Hm') as (w2 & -> & Hi2). eexists. split; [done|]. done. }
  destruct (Z.gtb_spec (sem_count sm) 0).
  { pose proof (take_unit w1 calls log m _ sm (sem_obj sm) Hi1 Hm1 Hs ltac:(lia) Hds) as Hi2.
    unfold sem_set_count. destruct (own_ok _ _ _ m c Hi2) as (w3 & -> & Hi3 & _ & Hdom); [eauto|eauto|]. cbn [mbind option_bind].
    apply (Hret w3 (Locked m c :: log) MINI_OK Hi3); [|done]. apply elem_of_dom. rewrite Hdom. apply elem_of_dom. simpl.
    change (mutexes w1) with (<[m := mx_set_obj mx o]> (mutexes w)). rewrite lookup_insert_eq. eauto. }
  cbn [mx_owner mx_set_obj]. destruct (bool_decide_reflect (mx_owner mx = Some c)) as [Ho|Ho].
  { cbn [mx_is_recursive mx_set_obj mx_depth]. rewrite Ho in O4. destruct O4 as (_ & _ & Hdep).
    destruct (mx_is_recursive mx); cbn [negb]; [|apply (Hret w1 log); [done|eauto|done]].
    destruct (Z.eqb_spec (mx_depth mx) MINI_OS_UINT8_MAX) as [|Hmax]; [apply (Hret w1 log); [done|eauto|done]|].
    unfold MINI_OS_UINT8_MAX in Hmax.
    apply (Hret _ (Locked m c :: log)); [|simpl; rewrite lookup_insert_eq; eauto|done].
    apply (depth_ok w1 calls log m (mx_set_obj mx o) c); [done|done|done|simpl; lia|by left]. }
  destruct (timeout =? 0); [apply (Hret w1 log); [done|eauto|done]|].
  set (lend := match mx_owner mx with None => _ | Some _ => _ end).
  assert (∃ k', lend = Some (w_set_kern w1 k') /\ xinv (w_set_kern w1 k') calls log None /\ no_grant (w_kern w) k') as (k' & -> & Hi2 & Hg).
  { subst lend. destruct (mx_owner mx) as [ow|].
    2:{ exists (w_kern w1). rewrite set_kern_eta. split; [done|]. split; [done|]. apply no_grant_refl. }
    change (w_kern w1) with (w_kern w). rewrite Hth. cbn [mbind option_bind].
    assert (xinv (w_set_kern w1 (set_thread (w_kern w) c (th_set_wait_mutex th (Some m)))) calls log None) as Hi2
      by exact (xinv_set_thread w1 calls log None c th (th_set_wait_mutex th (Some m)) Hi1 Hth eq_refl eq_refl eq_refl eq_refl
                  eq_refl (or_introl eq_refl) (xi_base _ _ _ _ Hi _ _ Hth)).
    pose proof (to_priority _ _ _ (wf_threads _ (xi_wf _ _ _ _ Hi) _ _ Hth)) as Hpr.
    destruct (propagate_ok _ _ _ _ (Some ow) (th_priority th) 0 Hi2) as (k' & -> & Hi3 & Hg & _).
    - intros t [= <-]. change (is_Some (<[c := th_set_wait_mutex th (Some m)]> (threads (w_kern w)) !! ow)).
      destruct (decide (ow = c)) as [->|]; [rewrite lookup_insert_eq; eauto|rewrite lookup_insert_ne by done; apply O4].
    - lia.
    - exists k'. split; [done|]. split; [exact Hi3|]. eapply no_grant_trans; [|exact Hg].
      apply (no_grant_frame _ _ c (th_set_wait_mutex th (Some m))); [apply frame_set| |congruence].
      intros th0 Ht0. assert (th0 = th) as -> by congruence. done. }
  cbn [mbind option_bind]. change (w_kern (w_set_kern w1 k')) with k'.
  destruct (ng_threads _ _ Hg _ _ Hth) as (th' & Ht' & Hd'). rewrite Ht'. cbn [mbind option_bind]. eexists. split; [done|].
  assert (th_wait_list th' = None) as Hwl' by (destruct Hd' as [[-> _]|(_ & -> & _)]; done).
  set (th2 := mini_os_sync_wait_ref_push th' (mutex_header m)).
  assert (th_state th2 = th_state th' /\ th_priority th2 = th_priority th' /\ th_round th2 = th_round th' /\
          th_wheel_slot th2 = th_wheel_slot th' /\ th_wait_list th2 = th_wait_list th' /\ th_wait_status th2 = th_wait_status th' /\
          th_base_priority th2 = th_base_priority th') as (E1 & E2 & E3 & E4 & E5 & E6 & E7)
    by (subst th2; unfold mini_os_sync_wait_ref_push; by destruct (_ >=? _)).
  split; [|split; [simpl; rewrite lookup_insert_eq; eauto|]].
  - apply (xinv_set_thread (w_set_kern w1 k') calls log None c th' th2 Hi2 Ht'); try done; [by left|]. rewrite E7. apply (xi_base _ _ _ _ Hi2 _ _ Ht').
  - exists th2. split; [apply lookup_insert_eq|congruence].
Qed.

(** The owner lets go: the unit is with the step. *)
Lemma disown_ok w calls log m mx c d :
  xinv w calls log None -> mutexes w !! m = Some mx -> mx_owner mx = Some c -> mx_depth mx = 1 ->
  xinv (w_set_mutex (hold_unlink w m) m (mk_mutex d (mx_is_recursive mx) None (mx_obj mx))) calls (Unlocked m c :: log) (Some m).
Proof.
  intros Hi Hm Ho Hd. destruct (xi_mutex _ _ _ _ Hi _ _ Hm) as (sm & Hs & [O1 O2 O3 O4 (loc & H1 & H2 & _)]).
  rewrite Ho in O4, H1. destruct O4 as (_ & Hlog & _).
  assert (loc = AtOwner c /\ sem_count sm = 0) as [-> Hcnt] by (destruct loc; naive_solver).
  match goal with |- xinv ?W _ _ _ => assert (W = mk_world (set_sem (w_sync w) m sm)
    (<[m := mk_mutex d (mx_is_recursive mx) None (mx_obj mx)]> (mutexes w)) (filter (λ x, x ≠ m) <$> hold_lists w)) as ->
    by by rewrite set_sem_same end.
  apply (xinv_mutex w calls log None m _ _ _ _ (Some m)); try done; try (by eauto).
  - intros m' Hne. simpl. by destruct (Z.eqb_spec m m') as [->|].
  - simpl. rewrite Hlog. split; [done|apply (xi_log _ _ _ _ Hi)].
  - intros m' Hne. split; [done|congruence].
  - intros t m'. rewrite lookup_fmap.
    assert (m' ∈ default [] (filter (λ x, x ≠ m) <$> hold_lists w !! t) <-> m' ≠ m /\ m' ∈ held_by w t) as ->.
    { unfold held_by. destruct (hold_lists w !! t); simpl; [by rewrite list_elem_of_filter|]. set_solver. }
    destruct (decide (m' = m)) as [->|]; simpl; naive_solver.
  - split; simpl; try done.
    + rewrite Z.eqb_refl, Hlog, Hd. done.
    + exists AtStep. split; [done|]. split; [|done]. intros t Hf. by apply H2 in Hf.
Qed.

Lemma unlock_enter_ok w calls log m c :
  xinv w calls log None -> is_Some (mutexes w !! m) -> current_thread (w_kern w) = Some c ->
  ∃ r, mutex_unlock_enter w (Some m) = Some r /\
    match r with
    | inl (rc, w') => xinv w' calls (if rc =? MINI_OK then Unlocked m c :: log else log) None
    | inr w' => xinv w' calls (Unlocked m c :: log) (Some m) /\ is_Some (mutexes w' !! m) /\ no_grant (w_kern w) (w_kern w')
    end.
Proof.
  intros Hi [mx Hm] Hc. unfold mutex_unlock_enter. rewrite Hm. cbn [mbind option_bind]. rewrite Hc.
  destruct (bool_decide_reflect (mx_owner mx = Some c)) as [Ho|]; cbn [negb]; [|eexists; split; [done|exact Hi]].
  destruct (xi_mutex _ _ _ _ Hi _ _ Hm) as (sm & Hs & [_ _ _ O4 _]). rewrite Ho in O4. destruct O4 as ([th Hth] & _ & Hd).
  cbn [mx_depth mx_set_depth]. unfold u8. rewrite Z.mod_small by lia. destruct (Z.gtb_spec (mx_depth mx - 1) 0).
  { eexists. split; [done|]. apply (depth_ok w calls log m mx c); try done; [lia|by right]. }
  pose proof (disown_ok w calls log m mx c (mx_depth mx - 1) Hi Hm Ho ltac:(lia)) as Hi1.
  match goal with |- context [mini_os_mutex_propagate ?W _ _ _] =>
    assert (W = w_set_mutex (hold_unlink w m) m (mk_mutex (mx_depth mx - 1) (mx_is_recursive mx) None (mx_obj mx))) as -> end.
  { unfold w_set_mutex, hold_unlink. simpl. by rewrite insert_insert_eq. }
  destruct (propagate_ok _ _ _ _ (Some c) MINI_OS_PRIORITY 0 Hi1) as (k' & -> & Hi2 & Hg & _).
  - intros t [= <-]. exists th. exact Hth.
  - unfold MINI_OS_PRIORITY. lia.
  - eexists. split; [done|]. split; [exact Hi2|]. split; [|exact Hg]. simpl. rewrite lookup_insert_eq. eauto.
Qed.

(** A take that parks the caller. *)
Lemma park_calls w calls log m c th k' th' :
  xinv w calls log None -> is_Some (mutexes w !! m) -> threads (w_kern w) !! c = Some th -> (∀ m', ¬ flight (w_kern w) calls m' c) ->
  wf k' -> frame (w_kern w) k' c th' -> th_wait_list th' = Some m -> th_base_priority th' = th_base_priority th ->
  xinv (w_set_kern w k') (<[c := InPark m]> calls) log None.
Proof.
  intros [I1 I2 I3 I4 I5 I6 I7 I8] Hm Ht Hnf Hw Hf Hl Hb. pose proof Hf as [F1 _ _ _ _ F6].
  assert (∀ t m', flight k' (<[c := InPark m]> calls) m' t -> flight (w_kern w) calls m' t) as Hfl.
  { intros t m'. unfold flight. rewrite F1. destruct (decide (t = c)) as [->|]; [|by rewrite !lookup_insert_ne].
    rewrite !lookup_insert_eq. intros (_ & th0 & [= <-] & ? & _). congruence. }
  split; simpl; try done.
  - by eapply bases_frame.
  - intros m' mx Hm'. destruct (I3 _ _ Hm') as (sm & Hs & []). exists sm. split; [done|]. split; try done.
    + change (is_Some (wait_lists k' !! m')). rewrite <- elem_of_dom, F6. by apply elem_of_dom.
    + destruct (mx_owner mx) as [o|]; [|done]. destruct mo_log0 as ([tho Htho] & ? & ?). split; [|done].
      change (is_Some (threads k' !! o)). rewrite F1.
      destruct (decide (o = c)) as [->|]; [rewrite lookup_insert_eq|rewrite lookup_insert_ne by done]; eauto.
    + destruct mo_unit0 as (loc & H1 & H2 & H3). exists loc. split; [done|]. split; [|done]. intros t Hft. apply H2, Hfl, Hft.
  - intros t tht m' Htt Hs. change (threads k' !! t = Some tht) in Htt. rewrite F1 in Htt.
    destruct (decide (t = c)) as [->|].
    + rewrite lookup_insert_eq in Htt. rewrite lookup_insert_eq. congruence.
    + rewrite lookup_insert_ne in Htt by done. rewrite lookup_insert_ne by done. by apply (I5 t tht).
  - intros t p. change (w_kern (w_set_kern w k')) with k'. rewrite F1. destruct (decide (t = c)) as [->|].
    + rewrite !lookup_insert_eq. intros [= <-]. split; [done|]. exists th'. split; [done|]. intros m' [= <-]. auto.
    + rewrite !lookup_insert_ne by done. apply I6.
Qed.

Section steps.
Context (time_slice long_time : bool).
#[local] Notation ok x := (xinv (x_world x) (x_calls x) (x_log x) None).
#[local] Notation goes x op := (∃ x', lock_step time_slice long_time x op = Some x' /\ ok x').

Lemma lock_lock_step x m timeout : ok x -> lock_op_ok x (XLock m timeout) -> goes x (XLock m timeout).
Proof.
  intros Hi (Hm & [c Hc] & Hmay & Hidle & Htm). unfold lock_step. rewrite Hc. cbn [mbind option_bind].
  unfold idle_call in Hidle. rewrite Hc in Hidle. destruct (wf_current _ (xi_wf _ _ _ _ Hi) _ Hc) as [th Hth].
  pose proof (caller_free _ _ _ _ _ _ Hi Hmay Hc Hth) as Hwl.
  destruct (lock_enter_ok _ _ _ m timeout c th Hi Hm Hc Hth Hwl) as (r & -> & Hr). cbn [mbind option_bind].
  eexists. split; [done|]. destruct r as [[rc w']|w']; [exact Hr|]. destruct Hr as (Hi' & Hm' & th' & Ht' & Hw').
  apply (xinv_calls _ (x_calls x) _ _ None None c th'); try done; simpl.
  - intros t Ht. by rewrite lookup_insert_ne.
  - intros p. rewrite lookup_insert_eq. by intros [= <-].
  - intros m' [?|Hf]; [done|]. unfold flight in Hf. by rewrite lookup_insert_eq in Hf.
Qed.

Lemma unlock_lock_step x m : ok x -> lock_op_ok x (XUnlock m) -> goes x (XUnlock m).
Proof.
  intros Hi (Hm & [c Hc] & Hmay & Hidle). unfold lock_step. rewrite Hc. cbn [mbind option_bind].
  unfold idle_call in Hidle. rewrite Hc in Hidle. destruct (wf_current _ (xi_wf _ _ _ _ Hi) _ Hc) as [th Hth].
  pose proof (caller_free _ _ _ _ _ _ Hi Hmay Hc Hth) as Hwl.
  destruct (unlock_enter_ok _ _ _ m c Hi Hm Hc) as (r & -> & Hr). cbn [mbind option_bind].
  eexists. split; [done|]. destruct r as [[rc w']|w']; [exact Hr|]. destruct Hr as (Hi' & Hm' & Hg).
  destruct (ng_threads _ _ Hg _ _ Hth) as (th' & Ht' & Hd).
  apply (xinv_calls _ (x_calls x) _ _ (Some m) None c th'); simpl; try done.
  - destruct Hd as [[-> _]|(_ & -> & _)]; done.
  - intros t Ht. by rewrite lookup_insert_ne.
  - intros p. rewrite lookup_insert_eq. by intros [= <-].
  - intros m' [?|Hf]; [done|]. unfold flight in Hf. rewrite lookup_insert_eq in Hf. subst m'. by left.
Qed.

(** The caller leaves the call it is in; what it had is with the step. *)
Lemma leave_call w calls log c th p e :
  xinv w calls log None -> threads (w_kern w) !! c = Some th -> th_wait_list th = None -> calls !! c = Some p ->
  (∀ m, e = Some m -> flight (w_kern w) calls m c) -> xinv w (delete c calls) log e.
Proof.
  intros Hi Ht Hl Hp He. assert (∀ m, ¬ flight (w_kern w) (delete c calls) m c) as Hno
    by (intros m; unfold flight; rewrite lookup_delete_eq; tauto).
  apply (xinv_calls w calls _ _ None e c th); try done.
  - intros t Hn. by rewrite lookup_delete_ne.
  - intros q. by rewrite lookup_delete_eq.
  - intros m [Hm|Hf]; [right; by apply He|by destruct (Hno m)].
Qed.

Lemma finish_ok w calls log m c ret th :
  xinv w calls log None -> is_Some (mutexes w !! m) -> threads (w_kern w) !! c = Some th -> th_wait_list th = None ->
  calls !! c = Some (InFinish m ret) ->
  ∃ w', mutex_lock_finish w m c ret = Some (ret, w') /\
        xinv w' (delete c calls) (if ret =? MINI_OK then Locked m c :: log else log) None.
Proof.
  intros Hi Hm Hth Hwl Hc. unfold mutex_lock_finish. rewrite Hth. cbn [mbind option_bind].
  set (th' := th_set_wait_mutex (mini_os_sync_wait_ref_pop th) None).
  assert (xinv (w_set_kern w (set_thread (w_kern w) c th')) calls log None) as Hi1.
  { apply (xinv_set_thread w calls log None c th th'); try done; [by left|]. apply (xi_base _ _ _ _ Hi _ _ Hth). }
  set (w1 := w_set_kern w (set_thread (w_kern w) c th')) in *.
  assert (threads (w_kern w1) !! c = Some th') as Ht1 by apply lookup_insert_eq.
  set (act := if ret =? MINI_OK then _ else _).
  assert (∃ w2, act = Some w2 /\ xinv w2 (delete c calls) (if ret =? MINI_OK then Locked m c :: log else log) None /\
    dom (mutexes w2) = dom (mutexes w)) as (w2 & -> & Hi2 & Hdom).
  { subst act. destruct (Z.eqb_spec ret MINI_OK) as [->|Hne].
    - pose proof (leave_call w1 calls log c th' _ (Some m) Hi1 Ht1 Hwl Hc) as Hi2.
      destruct (own_ok w1 (delete c calls) log m c) as (w2 & -> & Hi3 & Hk2 & Hdom).
      + apply Hi2. intros m' [= <-]. unfold flight. by rewrite Hc.
      + exact Hm.
      + eauto.
      + cbn [mbind option_bind]. destruct (propagate_ok _ _ _ _ (Some c) MINI_OS_PRIORITY 0 Hi3) as (k' & -> & Hi4 & _).
        * intros t [= <-]. rewrite Hk2. eauto.
        * unfold MINI_OS_PRIORITY. lia.
        * eexists. split; [done|]. split; [exact Hi4|exact Hdom].
    - pose proof (leave_call w1 calls log c th' _ None Hi1 Ht1 Hwl Hc ltac:(done)) as Hi2.
      destruct (_ && _); [|exists w1; split; [done|]; split; [exact Hi2|done]].
      destruct Hm as [mx Hm]. change (mutexes w1 !! m) with (mutexes w !! m). rewrite Hm. cbn [mbind option_bind].
      destruct (mx_owner mx) as [o|] eqn:Eo; [|exists w1; split; [done|]; split; [exact Hi2|done]].
      destruct (propagate_ok _ _ _ _ (Some o) MINI_OS_PRIORITY 0 Hi2) as (k' & -> & Hi4 & _).
      + intros t [= <-]. destruct (xi_mutex _ _ _ _ Hi2 m mx Hm) as (sm & _ & []). rewrite Eo in mo_log0. apply mo_log0.
      + unfold MINI_OS_PRIORITY. lia.
      + eexists. split; [done|]. split; [exact Hi4|done]. }
  cbn [mbind option_bind]. destruct (mutex_release_ok w2 _ _ _ m Hi2) as (w3 & -> & Hi3).
  - apply elem_of_dom. rewrite Hdom. by apply elem_of_dom.
  - simpl. eexists. split; [done|exact Hi3].
Qed.

Lemma set_sem_world w m sm : w_set_sync w (set_sem (w_sync w) m sm) = w_set_sem w m sm.
Proof. done. Qed.
(** The same semaphore with another reference count. *)
Lemma xinv_sem_obj w calls log e m sm o :
  xinv w calls log e -> is_Some (mutexes w !! m) -> sems (w_sync w) !! m = Some sm -> mini_os_obj_is_destroyed o = false ->
  xinv (w_set_sem w m (sem_set_obj sm o)) calls log e.
Proof.
  intros Hi [mx Hm] Hs Ho. destruct (xi_mutex _ _ _ _ Hi _ _ Hm) as (sm0 & Hs0 & [_ [Hd _] _ _ _]).
  pose proof (xinv_objs w calls log e m mx sm (mx_obj mx) o Hi Hm Hs Hd Ho) as H.
  assert (mx_set_obj mx (mx_obj mx) = mx) as E by by destruct mx. rewrite E in H.
  unfold w_set_mutex in H. simpl in H. by rewrite (insert_id (mutexes w) m mx Hm) in H.
Qed.

Lemma take_ok x m timeout c th :
  ok x -> is_Some (mutexes (x_world x) !! m) -> may_call (w_kern (x_world x)) -> current_thread (w_kern (x_world x)) = Some c ->
  threads (w_kern (x_world x)) !! c = Some th -> th_wait_list th = None -> x_calls x !! c = Some (InTake m timeout) ->
  -2147483648 <= timeout < 2147483648 ->
  ∃ r, mini_os_semaphore_take (w_sync (x_world x)) (Some m) timeout = Some r /\
    match r with
    | inl (rc, y) => xinv (w_set_sync (x_world x) y) (<[c := InFinish m rc]> (x_calls x)) (x_log x) None
    | inr y => xinv (w_set_sync (x_world x) y) (<[c := InPark m]> (x_calls x)) (x_log x) None
    end.
Proof.
  set (w := x_world x). set (calls := x_calls x). set (log := x_log x). intros Hi [mx Hm] Hmay Hc Hth Hwl Hcall Htm.
  destruct (xi_mutex _ _ _ _ Hi _ _ Hm) as (sm & Hs & [O1 [Hd Hds] O3 O4 O5]).
  assert (∀ m', ¬ flight (w_kern w) calls m' c) as Hnf by (intros m'; unfold flight; rewrite Hcall; tauto).
  assert (∀ w' rc, w_kern w' = w_kern w -> is_Some (mutexes w' !! m) -> xinv w' calls log None -> rc ≠ MINI_OK ->
    xinv w' (<[c := InFinish m rc]> calls) log None) as Hfail.
  { intros w' rc Hk Hm' Hi' Hrc.
    apply (xinv_calls w' calls _ _ None None c th); try done; rewrite ?Hk; try done.
    - intros t Ht. by rewrite lookup_insert_ne.
    - intros p. rewrite lookup_insert_eq. by intros [= <-].
    - intros m' [?|Hf]; [done|]. unfold flight in Hf. rewrite lookup_insert_eq in Hf. naive_solver. }
  destruct (take_alive (w_sync w) m sm timeout Hs Hds) as (o & o1 & Ho & Ho1 & ->).
  assert (∀ rc, rc ≠ MINI_OK ->
    xinv (w_set_sync w (set_sem (w_sync w) m (sem_set_obj sm o))) (<[c := InFinish m rc]> calls) log None) as Hret.
  { intros rc Hrc. rewrite set_sem_world. apply Hfail; [done|eauto| |done]. apply (xinv_sem_obj w _ _ _ m sm o Hi); eauto. }
  cbv zeta. destruct (Z.gtb_spec (sem_count sm) 0).
  { eexists. split; [done|]. pose proof (take_unit w calls log m mx sm o Hi Hm Hs ltac:(lia) Ho) as Hi2.
    apply (xinv_calls (w_set_sem w m (mk_sem (sem_count sm - 1) (sem_max_count sm) o)) calls _ _ (Some m) None c th); try done.
    - intros t Ht. by rewrite lookup_insert_ne.
    - intros p. rewrite lookup_insert_eq. intros [= <-]. split; [|done]. simpl. eauto.
    - intros m' [?|Hf]; [done|]. unfold flight in Hf. rewrite lookup_insert_eq in Hf. left. by destruct Hf as [-> _]. }
  destruct (Z.eqb_spec timeout 0) as [|Hn0]; [eexists; split; [done|by apply Hret]|].
  change (kern (w_sync w)) with (w_kern w). rewrite Hc. cbn [bool_decide]. rewrite bool_decide_false by done.
  destruct (park_ok (w_kern w) m 0 timeout m (xi_wf _ _ _ _ Hi) Hmay O1 Htm)
    as [[_ [?|?]]|(c' & th0 & k' & Hc' & _ & Hth0 & -> & Hw' & _ & Hf & _)]; [done|congruence|].
  assert (c' = c) as -> by congruence. assert (th0 = th) as -> by congruence. cbn [mbind option_bind]. eexists. split; [done|].
  match type of Hf with frame _ _ _ ?y => set (th' := y) in Hf end.
  assert (th_wait_list th' = Some m /\ th_base_priority th' = th_base_priority th) as [Hw1 Hw2].
  { subst th'. destruct (waiting_on_fields th m 0 m) as (_ & _ & E & _).
    assert (th_base_priority (waiting_on th m 0 m) = th_base_priority th)
      by (unfold waiting_on, mini_os_sync_wait_ref_push; by destruct (_ >=? _)). by destruct (timeout =? _). }
  pose proof (park_calls w calls log m c th k' th' Hi ltac:(eauto) Hth Hnf Hw' Hf Hw1 Hw2) as Hi2.
  exact (xinv_sem_obj (w_set_kern w k') _ _ _ m sm o1 Hi2 ltac:(eauto) Hs Ho1).
Qed.

Lemma park_end_ok x m c th :
  ok x -> is_Some (mutexes (x_world x) !! m) ->
  threads (w_kern (x_world x)) !! c = Some th -> th_wait_list th = None -> x_calls x !! c = Some (InPark m) ->
  ∃ rc y, sem_take_resume (w_sync (x_world x)) m c = Some (rc, y) /\
    xinv (w_set_sync (x_world x) y) (<[c := InFinish m rc]> (x_calls x)) (x_log x) None.
Proof.
  set (w := x_world x). set (calls := x_calls x). set (log := x_log x). intros Hi [mx Hm] Hth Hwl Hcall.
  destruct (xi_mutex _ _ _ _ Hi _ _ Hm) as (sm & Hs & [O1 [Hd Hds] O3 O4 O5]).
  unfold sem_take_resume, sync_wait_resume. change (kern (w_sync w)) with (w_kern w). rewrite Hth. cbn [mbind option_bind].
  set (th' := mini_os_sync_wait_ref_pop (th_set_wait_status th true)).
  set (rc := if th_wait_status th then MINI_OK else MINI_ERR_TIMEOUT).
  destruct (sem_release_alive (set_kern (w_sync w) (set_thread (w_kern w) c th')) m sm Hs Hds) as (o & -> & Ho).
  cbn [mbind option_bind]. eexists _, _. split; [done|].
  (* first the call, then the block, then the header *)
  assert (xinv w (<[c := InFinish m rc]> calls) log None) as Hi1.
  { apply (xinv_calls w calls _ _ None None c th); try done.
    - intros t Ht. by rewrite lookup_insert_ne.
    - intros p. rewrite lookup_insert_eq. intros [= <-]. split; [|done]. simpl. eauto.
    - intros m' [?|Hf]; [done|]. right. unfold flight in Hf |- *. rewrite lookup_insert_eq in Hf. rewrite Hcall.
      destruct Hf as [-> Hrc]. split; [done|]. exists th. split; [done|]. split; [done|]. subst rc. by destruct (th_wait_status th). }
  assert (xinv (w_set_kern w (set_thread (w_kern w) c th')) (<[c := InFinish m rc]> calls) log None) as Hi2.
  { apply (xinv_set_thread w _ log None c th th'); try done; [|apply (xi_base _ _ _ _ Hi _ _ Hth)].
    right. intros m'. rewrite lookup_insert_eq. congruence. }
  exact (xinv_sem_obj (w_set_kern w _) _ _ _ m sm o Hi2 ltac:(eauto) Hs Ho).
Qed.

Lemma next_lock_step x : ok x -> lock_op_ok x XNext -> goes x XNext.
Proof.
  intros Hi [Hmay Hcall]. unfold lock_step. destruct (current_thread (w_kern (x_world x))) as [c|] eqn:Hc; [|done].
  cbn [mbind option_bind] in *. destruct (x_calls x !! c) as [p|] eqn:Ep; [|done]. clear Hcall.
  destruct (wf_current _ (xi_wf _ _ _ _ Hi) _ Hc) as [th Hth]. pose proof (caller_free _ _ _ _ _ _ Hi Hmay Hc Hth) as Hwl.
  destruct (xi_call _ _ _ _ Hi _ _ Ep) as ([Hm Htm] & _). unfold next_step. rewrite Ep. cbn [mbind option_bind].
  destruct p as [m timeout|m|m ret|m]; simpl call_mutex in Hm.
  - destruct (take_ok x m timeout c th Hi Hm Hmay Hc Hth Hwl Ep Htm) as (r & -> & Hr). cbn [mbind option_bind].
    eexists. split; [done|]. by destruct r as [[rc y]|y].
  - destruct (park_end_ok x m c th Hi Hm Hth Hwl Ep) as (rc & y & -> & Hr). eexists. split; [done|exact Hr].
  - destruct (finish_ok (x_world x) _ _ m c ret th Hi Hm Hth Hwl Ep) as (w' & -> & Hi'). eexists. split; [done|exact Hi'].
  - pose proof (leave_call (x_world x) _ _ c th _ (Some m) Hi Hth Hwl Ep) as Hi1.
    destruct (give_ok (x_world x) _ _ m true (Hi1 ltac:(intros m' [= <-]; unfold flight; by rewrite Ep)) Hm)
      as (rc & w' & -> & Hi2 & _). eexists. split; [done|exact Hi2].
Qed.

Lemma lock_isr_step x m : ok x -> lock_op_ok x (XLockIsr m) -> goes x (XLockIsr m).
Proof.
  intros Hi [mx Hm]. unfold lock_step, mini_os_mutex_lock_isr.
  destruct (current_thread (w_kern (x_world x))) as [c|] eqn:Hc; [|eexists; split; [done|exact Hi]].
  simpl in Hm. destruct (xi_mutex _ _ _ _ Hi _ _ Hm) as (sm & Hs & [O1 [Hd Hds] O3 O4 O5]). rewrite Hs. cbn [mbind option_bind].
  rewrite Hm. cbn [mbind option_bind]. destruct (wf_current _ (xi_wf _ _ _ _ Hi) _ Hc) as [th Hth].
  destruct (Z.gtb_spec (sem_count sm) 0).
  { pose proof (take_unit _ _ _ m mx sm (sem_obj sm) Hi Hm Hs ltac:(lia) Hds) as Hi2. unfold sem_set_count.
    destruct (own_ok _ _ _ m c Hi2) as (w3 & -> & Hi3 & _); [simpl; eauto|simpl; eauto|]. cbn [mbind option_bind].
    eexists. split; [done|exact Hi3]. }
  destruct (bool_decide_reflect (mx_owner mx = Some c)) as [Ho|]; [|eexists; split; [done|exact Hi]].
  rewrite Ho in O4. destruct O4 as (_ & _ & Hdep). unfold MINI_OS_UINT8_MAX.
  destruct (mx_is_recursive mx); simpl; [|eexists; split; [done|exact Hi]].
  destruct (Z.eqb_spec (mx_depth mx) 255); [eexists; split; [done|exact Hi]|]. eexists. split; [done|].
  apply (depth_ok _ _ _ m mx c); [done|done|done|lia|by left].
Qed.

Lemma unlock_isr_step x m : ok x -> lock_op_ok x (XUnlockIsr m) -> goes x (XUnlockIsr m).
Proof.
  intros Hi Hm. simpl in Hm. unfold lock_step, mini_os_mutex_unlock_isr.
  destruct (current_thread (w_kern (x_world x))) as [c|] eqn:Hc.
  - destruct (unlock_enter_ok _ _ _ m c Hi Hm Hc) as (r & -> & Hr). cbn [mbind option_bind].
    destruct r as [[rc w']|w']; [eexists; split; [done|exact Hr]|]. destruct Hr as (Hi' & Hm' & _).
    destruct (give_ok _ _ _ m false Hi' Hm') as (rc & w2 & -> & Hi2 & ->). eexists. split; [done|exact Hi2].
  - unfold mutex_unlock_enter. destruct Hm as [mx Hm]. rewrite Hm. cbn [mbind option_bind]. rewrite Hc.
    eexists. split; [done|exact Hi].
Qed.

Lemma lock_step_ok x op : ok x -> lock_op_ok x op -> goes x op.
Proof.
  destruct op.
  - apply kernel_lock_step.
  - apply priority_lock_step.
  - apply create_lock_step.
  - apply lock_lock_step.
  - apply unlock_lock_step.
  - apply next_lock_step.
  - apply lock_isr_step.
  - apply unlock_isr_step.
Qed.
Lemma lock_run_ok x ops :
  ok x -> lock_ops_ok time_slice long_time x ops -> ∃ x', lock_run time_slice long_time x ops = Some x' /\ ok x'.
Proof.
  revert x. induction ops as [|op ops IH]; intros x Hi; simpl; [eauto|]. intros [Hop Hops].
  destruct (lock_step_ok x op Hi Hop) as (x1 & E & Hi1). rewrite E in Hops |- *. simpl. eauto.
Qed.
End steps.

Lemma boot_xinv : xinv boot_world ∅ [] None.
Proof.
  split; try done; [apply boot_wf|]. intros t m. unfold held_by. simpl. split; [|by intros (? & ? & _)].
  intros H. by apply not_elem_of_nil in H.
Qed.

(** ** The theorems *)

(** C11: Take locks with any time limit, unlocks, interrupts that lock and unlock, priority
    changes, delays, ticks and switches, in any order between the critical sections of the
    calls, on mutexes that are not deleted, and up to the first switch that is taken while the
    running thread is off the level of the last switch and that level has a thread (there the
    scheduler itself goes wrong: [lowered_thread_derails]; an unlock after inheritance leads
    there: [unlock_after_inheritance_derails]).  Then no step goes wrong and a mutex is only
    locked when it is free or by its owner, only unlocked by its owner, with an owner and depth
    that are those of the calls that succeeded; and it is free exactly when nobody owns it and
    no unit is on its way. *)
Theorem mutex_exclusive time_slice long_time ops :
  lock_ops_ok time_slice long_time boot_lmachine ops ->
  ∃ x, lock_run time_slice long_time boot_lmachine ops = Some x /\ exclusive (x_log x) /\
    ∀ m mx, mutexes (x_world x) !! m = Some mx ->
      owner_of (x_log x) m = (t ← mx_owner mx; Some (t, mx_depth mx)) /\
      (∀ t, m ∈ held_by (x_world x) t <-> mx_owner mx = Some t) /\
      ∃ sm, sems (w_sync (x_world x)) !! m = Some sm /\
        (mx_owner mx ≠ None -> sem_count sm = 0) /\ 0 <= sem_count sm <= 1 /\
        ∀ t t', flight (w_kern (x_world x)) (x_calls x) m t -> flight (w_kern (x_world x)) (x_calls x) m t' ->
          t = t' /\ sem_count sm = 0 /\ mx_owner mx = None.
Proof.
  intros Hok. destruct (lock_run_ok time_slice long_time boot_lmachine ops boot_xinv Hok) as (x & E & Hi). exists x.
  split; [done|]. split; [apply (xi_log _ _ _ _ Hi)|]. intros m mx Hm.
  destruct (xi_mutex _ _ _ _ Hi _ _ Hm) as (sm & Hs & [_ _ _ O4 (loc & H1 & H2 & _)]). split; [|split].
  - destruct (mx_owner mx) as [t|]; [apply O4|done].
  - intros t. rewrite (xi_held _ _ _ _ Hi), Hm. naive_solver.
  - exists sm. split; [done|]. split; [destruct loc; naive_solver|]. split; [destruct loc; simpl in H1; lia|].
    intros t t' Hf Hf'. apply H2 in Hf as ->. apply H2 in Hf' as [= ->]. by destruct H1.
Qed.

(** Two threads and a mutex: the second waits, the first unlocks, the second owns it. *)
Definition mutex_ops : list mutex_op :=
  [XKernel (KCreate 1 5 512 4096); XCreate 100 true false; XKernel KSwitch; XLock 100 (-1); XLock 100 0;
   XKernel (KCreate 2 5 512 8192); XKernel KSwitch; XLock 100 (-1); XNext; XKernel KSwitch; XUnlock 100; XUnlock 100;
   XKernel KTick; XNext; XKernel KSwitch; XNext; XNext].

Lemma mutex_exclusive_witness :
  ∃ x, lock_run true true boot_lmachine mutex_ops = Some x /\ exclusive (x_log x) /\
       x_log x = [Locked 100 2; Unlocked 100 1; Unlocked 100 1; Locked 100 1; Locked 100 1].
Proof.
  destruct (mutex_exclusive true true mutex_ops) as (x & E & Hx & _).
  - unfold mutex_ops. vm_compute. repeat split; try discriminate; eexists; reflexivity.
  - exists x. split; [exact E|]. split; [exact Hx|].
    assert (match lock_run true true boot_lmachine mutex_ops with
            | Some x => x_log x = [Locked 100 2; Unlocked 100 1; Unlocked 100 1; Locked 100 1; Locked 100 1] | None => False end) as H
      by (vm_compute; reflexivity).
    rewrite E in H. exact H.
Defined.

(** C12: The walk along a wait chain of at most eight different threads, whose blocks say which
    mutex they wait for, leaves each of them with the highest of its own priority, those of
    the waiters on the mutexes it holds and, for the first, the one that is lent to it; so no
    waiter outranks the owner it waits for.  All other threads keep theirs. *)
Theorem propagate_settles w calls log e t l extra :
  xinv w calls log e -> wait_chain w (t :: l) -> NoDup (t :: l) -> tidy w (t :: l) -> Z.of_nat (length (t :: l)) <= MINI_OS_MUTEX_PI_CHAIN_MAX ->
  is_Some (threads (w_kern w) !! t) -> 0 <= extra ->
  ∃ w', mini_os_mutex_propagate w (Some t) extra 0 = Some w' /\
    (∀ u, u ∉ t :: l -> threads (w_kern w') !! u = threads (w_kern w) !! u) /\
    ∀ u th, u ∈ t :: l -> threads (w_kern w') !! u = Some th ->
      th_priority th <= th_base_priority th /\ (u = t -> th_priority th <= extra) /\
      (∀ v thv, waits_on (w_kern w') (held_by w' u) v -> threads (w_kern w') !! v = Some thv -> th_priority th <= th_priority thv) /\
      (th_priority th = th_base_priority th \/ u = t /\ th_priority th = extra \/
       ∃ v thv, waits_on (w_kern w') (held_by w' u) v /\ threads (w_kern w') !! v = Some thv /\ th_priority th = th_priority thv).
Proof.
  intros Hi Hc Hnd Htd Hlen Ht He. unfold mini_os_mutex_propagate, MINI_OS_MUTEX_PI_CHAIN_MAX in *.
  destruct (settle (Z.to_nat (8 - 0)) w calls log e t l extra Hi Hc Hnd Htd) as (w' & E & Hi' & Hr & Hout & Hin); [lia|done|done|].
  exists w'. split; [done|]. split; [done|]. intros u th Hu Hth. destruct (Hin u th Hu Hth) as (r & Er & Hp).
  destruct (required_spec w' calls log e u th Hi' Hth) as (r' & Er' & Hb & Hall & Hex). assert (r' = r) as -> by congruence.
  assert (th_priority th <= r /\ (th_priority th = r \/ u = t /\ th_priority th = extra) /\ (u = t -> th_priority th <= extra))
    as (Hle & Hcase & Hx) by (rewrite Hp; destruct (Z.eqb_spec u t); lia).
  split; [lia|]. split; [done|]. split.
  - intros v thv Hv Hthv. specialize (Hall v thv Hv Hthv). lia.
  - destruct Hcase as [->|?]; [|by auto]. destruct Hex as [->|(v & thv & ? & ? & ?)]; [by left|]. right; right. exists v, thv. auto.
Qed.

(** The third thread is about to wait for the second, which waits for the first. *)
Definition chain_ops : list mutex_op :=
  [XKernel (KCreate 1 9 512 4096); XCreate 100 false false; XCreate 108 false false; XKernel KSwitch; XLock 100 (-1);
   XKernel (KCreate 2 7 512 8192); XKernel KSwitch; XLock 108 (-1); XLock 100 (-1); XNext; XKernel KSwitch;
   XKernel (KCreate 3 5 512 12288); XKernel KSwitch].

Lemma propagate_settles_witness :
  ∃ x w' th, lock_run true true boot_lmachine chain_ops = Some x /\
    mini_os_mutex_propagate (x_world x) (Some 2) 5 0 = Some w' /\
    threads (w_kern w') !! 1 = Some th /\ th_priority th = 5.
Proof.
  assert (NoDup [2; 1]) as Hnd by (apply (bool_decide_unpack _); vm_compute; exact I).
  destruct (lock_run_ok true true boot_lmachine chain_ops boot_xinv) as (x & E & Hi).
  - unfold chain_ops. vm_compute. repeat split; try discriminate; eexists; reflexivity.
  - assert (match lock_run true true boot_lmachine chain_ops with
            | Some x => let w := x_world x in next_owner w 2 = Some 1 /\ next_owner w 1 = None /\
                ((λ th, (th_wait_list th, th_wait_mutex th)) <$> threads (w_kern w) !! 1) = Some (None, None) /\
                ((λ th, (th_wait_list th, th_wait_mutex th)) <$> threads (w_kern w) !! 2) = Some (Some 100, Some 100) /\
                match mini_os_mutex_propagate w (Some 2) 5 0 with
                | Some w' => (th_priority <$> threads (w_kern w') !! 1) = Some 5 | None => False end
            | None => False end) as H by (vm_compute; repeat split; reflexivity).
    rewrite E in H. destruct H as (H2 & H1 & Ht1 & Ht2 & Hp).
    destruct (propagate_settles (x_world x) (x_calls x) (x_log x) None 2 [1] 5 Hi) as (w' & Ew & _).
    + apply chain_link; [exact H2|apply chain_end; exact H1].
    + exact Hnd.
    + intros u th Hu Hth. apply elem_of_cons in Hu as [->|Hu%list_elem_of_singleton]; [|subst u].
      * rewrite Hth in Ht2. injection Ht2 as -> ->. right. reflexivity.
      * rewrite Hth in Ht1. injection Ht1 as -> ->. left. reflexivity.
    + unfold MINI_OS_MUTEX_PI_CHAIN_MAX. simpl. lia.
    + destruct (threads (w_kern (x_world x)) !! 2); [eexists; reflexivity|discriminate].
    + lia.
    + rewrite Ew in Hp. destruct (threads (w_kern w') !! 1) as [th|] eqn:Eth; [|discriminate]. injection Hp as Hp.
      exists x, w', th. exact (conj E (conj Ew (conj Eth Hp))).
Defined.

(** ** Findings *)

(** The priority of [t] and its own one, and what it waits on. *)
Definition shown (w : world) (t : Z) : option (Z * Z * option Z) :=
  th ← threads (w_kern w) !! t; Some (th_priority th, th_base_priority th, th_wait_list th).

(** The usual case of inheritance: the owner is raised by a waiter and unlocks.  It falls back
    while the waiter is made ready at the level of the last switch; the next switch takes a
    list head for a thread. *)
Definition inheritance_ops : list mutex_op :=
  [XKernel (KCreate 1 7 512 4096); XCreate 100 false false; XKernel KSwitch; XLock 100 (-1); XKernel (KCreate 2 5 512 8192);
   XKernel KSwitch; XLock 100 (-1); XNext; XKernel KSwitch; XUnlock 100; XNext].
Theorem unlock_after_inheritance_derails :
  (x ← lock_run true true boot_lmachine inheritance_ops;
   Some (x_log x, current_thread (w_kern (x_world x)), shown (x_world x) 1, shown (x_world x) 2,
         bool_decide (pendsv_handler (w_kern (x_world x)) ≫= (λ _, Some tt) = None)))
  = Some ([Unlocked 100 1; Locked 100 1], Some 1, Some (7, 7, None), Some (5, 5, None), true).
Proof. vm_compute. reflexivity. Qed.

(** A waiter with a time limit that parks while the mutex is on its way to another one: its
    wait is not recorded, and when it ends the owner keeps the priority it lent. *)
Definition handoff_ops : list mutex_op :=
  [XKernel (KCreate 1 9 512 4096); XKernel (KCreate 2 9 512 8192); XCreate 100 false false; XKernel KSwitch; XLock 100 (-1);
   XKernel KSwitch; XLock 100 (-1); XNext; XKernel KSwitch; XUnlock 100; XNext; XKernel (KCreate 3 5 512 12288); XKernel KSwitch;
   XLock 100 1; XNext; XKernel KSwitch; XKernel KSwitch; XNext; XNext; XKernel KTick; XKernel KSwitch; XKernel KSwitch; XNext; XNext].
Theorem handoff_waiter_leaves_boost :
  (x ← lock_run true true boot_lmachine handoff_ops; mx ← mutexes (x_world x) !! 100; l ← wait_lists (w_kern (x_world x)) !! 100;
   Some (mx_owner mx, l, map_to_list (x_calls x), shown (x_world x) 2))
  = Some (Some 2, [], [], Some (5, 9, None)).
Proof. vm_compute. reflexivity. Qed.

(** A recomputation of the owner between the entry of a lock and its take forgets the
    caller: the owner is outranked by the waiter. *)
Definition forgotten_ops : list mutex_op :=
  [XKernel (KCreate 1 9 512 4096); XCreate 100 false false; XKernel KSwitch; XLock 100 (-1); XKernel (KCreate 2 5 512 8192);
   XKernel (KCreate 3 5 512 12288); XKernel KSwitch; XLock 100 (-1); XKernel KSwitch; XPriority 1 9; XKernel KSwitch; XNext].
Theorem recompute_forgets_caller :
  (x ← lock_run true true boot_lmachine forgotten_ops; mx ← mutexes (x_world x) !! 100;
   Some (mx_owner mx, shown (x_world x) 1, shown (x_world x) 2))
  = Some (Some 1, Some (9, 9, None), Some (5, 5, Some 100)).
Proof. vm_compute. reflexivity. Qed.

(** A deletion with kill between the two steps of an unlock: the last waiter reclaims the
    storage, and the give goes to storage that is gone. *)
Definition killed_ops : list mutex_op :=
  [XKernel (KCreate 1 5 512 4096); XKernel (KCreate 2 5 512 8192); XKernel (KCreate 3 5 512 12288); XCreate 100 false false;
   XKernel KSwitch; XLock 100 (-1); XKernel KSwitch; XLock 100 (-1); XNext; XKernel KSwitch; XUnlock 100;
   XKernel KSwitch].
Theorem kill_between_unlock_and_give :
  (x ← lock_run true true boot_lmachine killed_ops;
   '(_, w) ← mini_os_mutex_enable_kill (x_world x) (Some 100);
   '(rc, w) ← mini_os_mutex_delete w (Some 100);
   x ← lock_run true true (mk_lmachine w (x_calls x) (x_log x)) [XKernel KSwitch; XNext; XNext; XKernel KSwitch];
   Some (rc, current_thread (w_kern (x_world x)), x_calls x !! 1, bool_decide (mutexes (x_world x) !! 100 = None),
         bool_decide (lock_step true true x XNext ≫= (λ _, Some tt) = None)))
  = Some (MINI_OK, Some 1, Some (InGive 100), true, true).
Proof. vm_compute. reflexivity. Qed.
