(* ===== verification/MiniWait.v ===== *)
(** * Calls that wait

    What the blocking calls of the kernel objects share: the turns of their loops, counting the
    calls inside an object, the wait of a thread from step to step, its deadline, waking one
    waiter and all. *)

From S2P Require Import Prelude Status MiniList MiniSched MiniKernel MiniSem.
From stdpp Require Import gmap functions.

#[local] Open Scope Z_scope.

(** How a turn of the loop of a blocking call ends: the call is over, the thread is parked,
    there is another turn. *)
Inductive turn := Leave (err : Z) | Park | Again.

(** The end of a turn that found nothing, as the blocking calls have it. *)
Definition block_on (k : kernel) (w mask timeout_tick deadline obj : Z) : option (turn * kernel) :=
  if timeout_tick =? 0 then Some (Leave MINI_ERR_AGAIN, k) else
  if bool_decide (current_thread k = None) then Some (Leave MINI_ERR_INVAL, k) else
  let remain := mini_os_tick_until k deadline in
  if negb (timeout_tick =? MINI_OS_WAIT_FOREVER) && (remain =? 0) then Some (Leave MINI_ERR_TIMEOUT, k) else
  r ← mini_os_sync_wait_park k (Some w) mask
        (if negb (timeout_tick =? MINI_OS_WAIT_FOREVER) then s32 remain else timeout_tick) obj;
  Some match r with inl (_, k) => (Leave MINI_ERR_TIMEOUT, k) | inr k => (Park, k) end.
(** The deadline that a call computes at its entry. *)
Definition call_deadline (k : kernel) (timeout_tick : Z) : Z :=
  if (timeout_tick >? 0) && negb (timeout_tick =? MINI_OS_WAIT_FOREVER) then u32 (g_global_tick k + timeout_tick) else 0.
(** The wait of the thread [c] is over. *)
Definition park_end (k : kernel) (c : Z) : option (turn * kernel) :=
  '(rc, k) ← sync_wait_resume k c;
  Some (if negb (rc =? MINI_OK) then Leave MINI_ERR_TIMEOUT else Again, k).

(** ** Counting calls *)

Section count.
Context {C : Type}.
Implicit Types (f g : Z -> C -> bool) (m : gmap Z C) (c : C).

Definition count f m : Z :=
  Z.of_nat (size (filter (λ p : Z * C, f p.1 p.2 = true) m)).
Lemma calls_count_nonneg f m : 0 <= count f m.
Proof. unfold count. lia. Qed.
Lemma count_ext f g m m' :
  (∀ t c, m !! t = Some c /\ f t c = true <-> m' !! t = Some c /\ g t c = true) -> count f m = count g m'.
Proof.
  intros H. unfold count. do 2 f_equal. apply map_filter_strong_ext. intros t c. specialize (H t c). simpl. tauto.
Qed.
Lemma calls_count_insert f m t c : m !! t = None -> count f (<[t := c]> m) = count f m + Z.b2z (f t c).
Proof.
  intros H. unfold count. destruct (f t c) eqn:E.
  - rewrite map_filter_insert_True by done. rewrite map_size_insert_None; [simpl; lia|]. apply map_lookup_filter_None. by left.
  - rewrite map_filter_insert_False by (simpl; congruence). rewrite delete_id by done. simpl. lia.
Qed.
Lemma count_delete f m t c : m !! t = Some c -> count f (delete t m) = count f m - Z.b2z (f t c).
Proof. intros H. rewrite <- (insert_delete_id m t c H) at 2. rewrite calls_count_insert by apply lookup_delete_eq. lia. Qed.
Lemma count_update f m t c c' : m !! t = Some c -> count f (<[t := c']> m) = count f m - Z.b2z (f t c) + Z.b2z (f t c').
Proof. intros H. rewrite <- insert_delete_eq, calls_count_insert by apply lookup_delete_eq. by rewrite (count_delete _ _ _ _ H). Qed.
(** Another predicate that differs at [t]. *)
Lemma count_change f g m t c :
  m !! t = Some c -> (∀ t' c', t' ≠ t -> m !! t' = Some c' -> f t' c' = g t' c') ->
  count g m = count f m - Z.b2z (f t c) + Z.b2z (g t c).
Proof.
  intros H Hne. pose proof (count_delete f m t c H). pose proof (count_delete g m t c H).
  assert (count f (delete t m) = count g (delete t m)); [|lia]. apply count_ext. intros t' c'.
  destruct (decide (t' = t)) as [->|]; [rewrite lookup_delete_eq; naive_solver|].
  rewrite lookup_delete_ne by done. split; intros [E ?]; (split; [done|]); specialize (Hne t' c' ltac:(done) E); congruence.
Qed.
Lemma calls_count_zero f m t c : count f m = 0 -> m !! t = Some c -> f t c = false.
Proof.
  unfold count. intros H Ht. destruct (f t c) eqn:E; [|done].
  assert (filter (λ p : Z * C, f p.1 p.2 = true) m = ∅) as E0 by (apply map_size_empty_inv; lia).
  assert (filter (λ p : Z * C, f p.1 p.2 = true) m !! t = Some c) as E1 by (by apply map_lookup_filter_Some).
  by rewrite E0, lookup_empty in E1.
Qed.
(** One call and no other. *)
Lemma count_one f m t c t' c' : count f m = 1 -> m !! t = Some c -> f t c = true -> m !! t' = Some c' -> f t' c' = true -> t' = t.
Proof.
  intros H Ht Hf Ht' Hf'. destruct (decide (t' = t)) as [|Hne]; [done|].
  pose proof (count_delete f m t c Ht) as Hd. rewrite Hf in Hd. simpl in Hd.
  assert (f t' c' = false); [|congruence]. apply (calls_count_zero f (delete t m)); [lia|by rewrite lookup_delete_ne].
Qed.
End count.

(** ** The wait of a thread *)

Lemma running_free k t th :
  wf k -> may_call k -> current_thread k = Some t -> threads k !! t = Some th -> th_wait_list th = None.
Proof.
  intros Hw Hm Hc Ht. pose proof (caller_runs _ _ _ Hm Hc Ht) as Hr. destruct (th_wait_list th) eqn:El; [|done].
  assert (th_state th = THREAD_BLOCKED) by (apply (to_wait _ _ _ (wf_threads _ Hw _ _ Ht)); by rewrite El). congruence.
Qed.

(** A wait that is over and succeeded. *)
Definition granted (k : kernel) (t : Z) : bool :=
  match threads k !! t with Some th => bool_decide (th_wait_list th = None) && th_wait_status th | None => false end.

(** The wait of a thread goes on or has failed. *)
Definition kept (k : kernel) (th : thread) (k' : kernel) (th' : thread) : Prop :=
  th_wait_list th' = th_wait_list th /\ th_wait_status th' = th_wait_status th /\
    (th_wait_list th ≠ None -> due k' th' = due k th /\ th_wait_mask th' = th_wait_mask th) \/
  th_wait_list th ≠ None /\ th_wait_list th' = None /\ th_wait_status th' = false.
Lemma kept_same k k' th : same_clock k k' -> kept k th k' th.
Proof. intros Hc. left. split; [done|]. split; [done|]. intros _. by split; [apply due_same|]. Qed.
Lemma kept_granted k k' t th th' :
  threads k !! t = Some th -> threads k' !! t = Some th' -> kept k th k' th' -> granted k' t = granted k t.
Proof.
  intros Ht Ht' Hk. unfold granted. rewrite Ht, Ht'. destruct Hk as [(-> & -> & _)|(Hn & -> & ->)]; [done|].
  by rewrite bool_decide_true, bool_decide_false by done.
Qed.
Lemma kept_waits k k' th th' : kept k th k' th' -> th_wait_list th' ≠ None -> th_wait_list th = th_wait_list th'.
Proof. by intros [(-> & _)|(_ & -> & _)]. Qed.

Lemma due_parked k k1 c th n :
  wf k -> frame k k1 c (parked k th n) -> 0 < n -> due k1 (parked k th n) = Some (u32 (g_global_tick k + n)).
Proof.
  intros Hw Hf Hn. destruct (parked_start k k1 c th n _ Hw Hf eq_refl Hn) as (th' & Ht' & _ & _ & Hs & Hr).
  rewrite (frame_lookup _ _ _ _ Hf) in Ht'. injection Ht' as <-. unfold due.
  destruct (Z.ltb_spec (th_wheel_slot (parked k th n)) MINI_OS_TICK_WHEEL); [|lia]. by rewrite Hr, (fr_tick _ _ _ _ Hf).
Qed.
Lemma tick_until_spec k deadline :
  0 <= deadline < 4294967296 ->
  let r := mini_os_tick_until k deadline in
  r = 0 \/ 0 < r < 2147483648 /\ s32 r = r /\ u32 (g_global_tick k + r) = deadline.
Proof.
  intros Hd. unfold mini_os_tick_until, s32. destruct (Z.leb_spec (if u32 (deadline - g_global_tick k) <? 2147483648
    then u32 (deadline - g_global_tick k) else u32 (deadline - g_global_tick k) - 4294967296) 0) as [|H]; [by left|].
  right. pose proof (u32_range (deadline - g_global_tick k)). set (r := u32 (deadline - g_global_tick k)) in *.
  destruct (Z.ltb_spec r 2147483648); [|lia]. assert (u32 r = r) as E by (apply u32_small; lia). split; [lia|]. rewrite E.
  destruct (Z.ltb_spec r 2147483648); [|lia]. split; [done|]. subst r. unfold u32. rewrite Zplus_mod_idemp_r.
  replace (g_global_tick k + (deadline - g_global_tick k)) with deadline by lia. by apply Z.mod_small.
Qed.

Definition due_at (timeout_tick deadline : Z) : option Z := if timeout_tick =? MINI_OS_WAIT_FOREVER then None else Some deadline.
Lemma block_on_ok k t th w mask timeout_tick deadline obj l :
  wf k -> current_level k -> may_call k -> current_thread k = Some t -> threads k !! t = Some th -> wait_lists k !! w = Some l ->
  -2147483648 <= timeout_tick < 2147483648 -> 0 <= deadline < 4294967296 ->
  (∃ err, block_on k w mask timeout_tick deadline obj = Some (Leave err, k) /\ err ≠ MINI_OK) \/
  ∃ k' th', block_on k w mask timeout_tick deadline obj = Some (Park, k') /\ wf k' /\ current_level k' /\
    frame k k' t th' /\ th_wait_list th' = Some w /\ th_wait_mask th' = mask /\ due k' th' = due_at timeout_tick deadline /\
    wait_lists k' = <[w := l ++ [t]]> (wait_lists k).
Proof.
  intros Hw Hlev Hm Hcur Hth Hl Htm Hdl. unfold block_on.
  destruct (Z.eqb_spec timeout_tick 0) as [|Hn0]; [left; by eexists|]. rewrite bool_decide_false by congruence.
  pose proof (tick_until_spec k deadline Hdl) as Hr. cbv zeta in Hr. set (remain := mini_os_tick_until k deadline) in *. clearbody remain.
  destruct (negb (timeout_tick =? MINI_OS_WAIT_FOREVER) && (remain =? 0)) eqn:Eb; [left; by eexists|]. right.
  set (tm := if negb (timeout_tick =? MINI_OS_WAIT_FOREVER) then s32 remain else timeout_tick).
  assert (tm ≠ 0 /\ -2147483648 <= tm < 2147483648 /\
    (tm = MINI_OS_WAIT_FOREVER /\ timeout_tick = MINI_OS_WAIT_FOREVER \/
     0 < tm /\ timeout_tick ≠ MINI_OS_WAIT_FOREVER /\ u32 (g_global_tick k + tm) = deadline)) as (Ht0 & Htr & Hcase).
  { subst tm. destruct (Z.eqb_spec timeout_tick MINI_OS_WAIT_FOREVER) as [->|Hf]; cbn [negb andb] in *; [auto|].
    destruct (Z.eqb_spec remain 0); [done|]. destruct Hr as [|(? & E & Ed)]; [done|]. rewrite E. split; [done|]. split; [lia|]. right. split; [lia|]. split; [done|]. exact Ed. }
  destruct (park_ok k w mask tm obj Hw Hm) as [[_ [?|?]]|(t' & th0 & k' & Hcur' & _ & Hth' & -> & Hw' & Hl' & Hf & W)];
    [by rewrite Hl|done|done|congruence|].
  assert (t' = t) as -> by congruence. assert (th0 = th) as -> by congruence. cbn [mbind option_bind].
  destruct (waiting_on_fields th w mask obj) as (F1 & F2 & F3 & F4 & F5 & F6).
  match type of Hf with frame _ _ _ ?x => exists k', x end. split; [done|]. split; [done|]. split; [auto|]. split; [done|].
  split; [by destruct (tm =? _)|].
  split; [destruct (tm =? _); unfold parked, waiting_on, mini_os_sync_wait_ref_push; by destruct (_ >=? _)|].
  split; [|by rewrite W, Hl]. unfold due_at. destruct Hcase as [[E1 E2]|(Hpos & E2 & E3)].
  - rewrite E1, E2, Z.eqb_refl. unfold due. rewrite F5.
    rewrite (running_slot _ _ _ Hw Hth); [done|]. by rewrite (caller_runs _ _ _ Hm Hcur Hth).
  - destruct (Z.eqb_spec timeout_tick MINI_OS_WAIT_FOREVER); [done|]. rewrite <- E3.
    destruct (Z.eqb_spec tm MINI_OS_WAIT_FOREVER) as [E|_]; [unfold MINI_OS_WAIT_FOREVER in E; lia|].
    rewrite u32_small in Hf |- * by lia. by apply (due_parked _ _ t).
Qed.
Lemma call_deadline_range k timeout_tick : 0 <= call_deadline k timeout_tick < 4294967296.
Proof. unfold call_deadline. destruct (_ && _); [apply u32_range|lia]. Qed.

(** ** Waking *)

Lemma wake_oldest_ok k w l :
  wf k -> current_level k -> wait_lists k !! w = Some l ->
  match l with
  | [] => wake_oldest k w true = Some (false, k)
  | t :: l' =>
      ∃ k' th, wake_oldest k w true = Some (true, k') /\ wf k' /\ current_level k' /\ threads k !! t = Some th /\
        th_wait_list th = Some w /\ frame k k' t (woken th true) /\ wait_lists k' !! w = Some l' /\
        ∀ w', w' ≠ w -> wait_lists k' !! w' = wait_lists k !! w'
  end.
Proof.
  intros Hw Hl El. unfold wake_oldest. rewrite El. cbn [mbind option_bind]. destruct l as [|t l']; [done|].
  destruct (wake_ok k w (t :: l') t true Hw El) as (k' & th & -> & Hw' & Ht & Hwl & Hf & W & _); [apply elem_of_cons; auto|].
  cbn [mbind option_bind]. exists k', th. split; [done|]. split; [done|].
  split; [eapply level_frame; [done|exact Hf|left; by rewrite woken_priority]|]. repeat (split; [done|]).
  pose proof (wl_nodup _ _ (wf_waiting _ Hw) _ _ El) as Hnd. apply list.NoDup_cons in Hnd as [Hnin _].
  assert (∀ w', wait_lists k' !! w' = filter (λ x, x ≠ t) <$> wait_lists k !! w') as W' by (intros w'; by rewrite W, lookup_fmap).
  split.
  - rewrite W', El. simpl. rewrite filter_cons_False by auto. by rewrite filter_ne_not_in.
  - intros w' Hne. rewrite W'. destruct (wait_lists k !! w') as [l2|] eqn:E2; [|done]. simpl. rewrite filter_ne_not_in; [done|].
    intros Hin. destruct (waiter_spec _ _ _ _ Hw E2 Hin) as (th2 & Ht2 & Hwl2 & _). congruence.
Qed.

Lemma woken_done th : th_wait_list (woken th true) = None /\ th_wait_status (woken th true) = true.
Proof. unfold woken. by destruct (_ <? _). Qed.

(** All waiters of an object are put out. *)
Lemma wake_all_ok k w d :
  wf k -> current_level k -> is_Some (wait_lists k !! w) ->
  ∃ b k', mini_os_sync_wake_all k w d = Some (b, k') /\ wf k' /\ current_level k' /\ same_vars k k' /\
    (∀ t th, threads k' !! t = Some th -> th_wait_list th ≠ Some w) /\
    ∀ t, threads k' !! t = threads k !! t \/
         ∃ th, threads k !! t = Some th /\ th_wait_list th = Some w /\ threads k' !! t = Some (woken th d).
Proof.
  intros Hw Hl [l El]. unfold mini_os_sync_wake_all. rewrite El. cbn [mbind option_bind].
  destruct (wake_loop_ok w d l k l Hw El) as (k' & -> & Hw' & Hv & _ & Ht'); [apply (wl_nodup _ _ (wf_waiting _ Hw) _ _ El)|done|].
  cbn [mbind option_bind]. eexists _, _. split; [done|]. split; [done|].
  assert (∀ th, th_wait_list (woken th d) = None) as Hwn by (intros th; unfold woken; by destruct (_ <? _)).
  split; [|split; [done|split]].
  - eapply level_threads; [exact Hl|apply Hv|apply Hv|]. intros t th' E. rewrite Ht' in E. destruct (decide (t ∈ l)); [|eauto].
    destruct (threads k !! t) as [th|]; [|done]. injection E as <-. exists th. by rewrite woken_priority.
  - intros t th. rewrite Ht'. destruct (decide (t ∈ l)) as [Hin|Hn].
    + destruct (threads k !! t) as [th0|]; [|done]. intros [= <-]. by rewrite Hwn.
    + intros Ht Hs. by apply Hn, (waits_in_list _ _ _ _ _ Hw Ht Hs El).
  - intros t. rewrite Ht'. destruct (decide (t ∈ l)) as [Hin|Hn]; [right|by left].
    destruct (waiter_spec _ _ _ _ Hw El Hin) as (th & Ht & Hs & _). exists th. by rewrite Ht.
Qed.

(** ** Objects *)

Lemma kill_flag o :
  mini_os_obj_is_destroyed (mini_os_obj_enable_kill o) = mini_os_obj_is_destroyed o /\
  mini_os_obj_kill_reports_timeout (mini_os_obj_enable_kill o) = mini_os_obj_kill_reports_timeout o.
Proof.
  unfold mini_os_obj_is_destroyed, mini_os_obj_kill_reports_timeout, flag_set, MINI_OS_OBJ_FLAG_DESTROY, MINI_OS_OBJ_FLAG_TIMEOUT.
  simpl. rewrite !Z.land_lor_distr_l. change (Z.land MINI_OS_OBJ_FLAG_KILL 2) with 0. change (Z.land MINI_OS_OBJ_FLAG_KILL 8) with 0.
  by rewrite !Z.lor_0_r.
Qed.
Lemma destroy_flags o r :
  mini_os_obj_is_destroyed (mk_obj r (Z.lor (obj_flags o) MINI_OS_OBJ_FLAG_DESTROY)) = true /\
  mini_os_obj_kill_reports_timeout (mk_obj r (Z.lor (obj_flags o) MINI_OS_OBJ_FLAG_DESTROY)) = mini_os_obj_kill_reports_timeout o.
Proof.
  destruct (doomed_flags (mk_sem 0 0 o)) as (D1 & _ & D3). done.
Qed.

Lemma request_destroy_eq o :
  0 < obj_ref o < 256 ->
  mini_os_obj_request_destroy o =
    let o' := mk_obj (obj_ref o - 1) (Z.lor (obj_flags o) MINI_OS_OBJ_FLAG_DESTROY) in
    if obj_ref o - 1 >? 0 then (MINI_OS_ERR_REJECT, false, o') else (MINI_OK, true, o').
Proof.
  intros H. unfold mini_os_obj_request_destroy. simpl. destruct (Z.gtb_spec (obj_ref o) 0); [|lia]. simpl.
  unfold u8. by rewrite Z.mod_small by lia.
Qed.

