(* ===== verification/MiniQueue.v ===== *)
(** * mini-os message queues

    Models src/lib/mini-os/src/queue.c.  A queue is named by its address; its two wait lists
    have the names [waiters_of q true] (senders) and [waiters_of q false] (receivers).  The
    message pool belongs to the queue, as bytes; [None] for it means freed.  [None] as a
    result is an access to a queue or a pool that is gone or out of its range.

    A send or a receive is several critical sections, as in the code: the entry, the turns of
    its loop, the end of each wait, the two parts of the release.  Each is a step of the
    thread that makes the call, and anything may happen in between.  The calls for
    interrupts are one step.  What holds is in [MiniQueueInv]. *)

From S2P Require Import Prelude Status MiniList MiniSched MiniKernel MiniSem MiniWait.
From stdpp Require Import gmap functions.

#[local] Open Scope Z_scope.

(** [mini_os_queue_t] without the name and the wait lists. *)
Record queue := mk_queue {
  q_msg_size : Z;
  q_max_depth : Z;
  q_depth : Z;
  q_write_idx : Z;
  q_read_idx : Z;
  q_obj : obj;
  q_pool : option (list Z)
}.
Definition q_set_obj (qu : queue) (o : obj) : queue :=
  mk_queue (q_msg_size qu) (q_max_depth qu) (q_depth qu) (q_write_idx qu) (q_read_idx qu) o (q_pool qu).
Definition q_set_pool (qu : queue) (p : option (list Z)) : queue :=
  mk_queue (q_msg_size qu) (q_max_depth qu) (q_depth qu) (q_write_idx qu) (q_read_idx qu) (q_obj qu) p.

(** The kernel and the queues. *)
Record qsys := mk_qsys { q_kern : kernel; queues : gmap Z queue }.
Definition qs_set_kern (y : qsys) (k : kernel) : qsys := mk_qsys k (queues y).
Definition qs_set_queue (y : qsys) (q : Z) (qu : queue) : qsys := mk_qsys (q_kern y) (<[q := qu]> (queues y)).

(** [send_list] and [receive_list]. *)
Definition waiters_of (q : Z) (senders : bool) : Z := 2 * q + Z.b2z senders.

(** ** The pool *)

(** Offset of a slot in the pool. *)
Definition mini_os_queue_slot_at (qu : queue) (idx : Z) : Z := idx * q_msg_size qu.
Definition next_idx (qu : queue) (idx : Z) : Z :=
  let idx := u8 (idx + 1) in if idx >=? q_max_depth qu then 0 else idx.
(** The copy of a message into the next slot, or out of it. *)
Definition queue_put (qu : queue) (msg : list Z) : option queue :=
  pool ← q_pool qu;
  pool ← mem_copy pool (mini_os_queue_slot_at qu (q_write_idx qu)) msg 0 (q_msg_size qu);
  Some (mk_queue (q_msg_size qu) (q_max_depth qu) (u8 (q_depth qu + 1)) (next_idx qu (q_write_idx qu)) (q_read_idx qu)
          (q_obj qu) (Some pool)).
Definition queue_get (qu : queue) : option (list Z * queue) :=
  pool ← q_pool qu;
  msg ← mem_read pool (mini_os_queue_slot_at qu (q_read_idx qu)) (q_msg_size qu);
  Some (msg, mk_queue (q_msg_size qu) (q_max_depth qu) (u8 (q_depth qu - 1)) (q_write_idx qu) (next_idx qu (q_read_idx qu))
               (q_obj qu) (Some pool)).

Definition mini_os_queue_wake_one (k : kernel) (w : Z) : option (bool * kernel) := wake_oldest k w true.
Definition mini_os_queue_kill_list (k : kernel) (report_dead : bool) (w : Z) : option (bool * kernel) :=
  mini_os_sync_wake_all k w report_dead.
Definition mini_os_queue_kill_waiters (k : kernel) (q : Z) (o : obj) : option (bool * kernel) :=
  let report_dead := mini_os_obj_kill_error o =? MINI_OS_ERR_DEAD in
  '(b1, k) ← mini_os_queue_kill_list k report_dead (waiters_of q true);
  '(b2, k) ← mini_os_queue_kill_list k report_dead (waiters_of q false);
  Some (b1 || b2, k).

(** ** Creation and deletion *)

Definition mini_os_queue_init (y : qsys) (q msg_size depth : Z) (msg_base : list Z) (heap_owned : bool) : qsys :=
  qs_set_queue (qs_set_kern y (wait_list_init (wait_list_init (q_kern y) (waiters_of q true)) (waiters_of q false))) q
    (mk_queue msg_size depth 0 0 0 (mini_os_obj_init heap_owned) (Some msg_base)).
(** [mem] and [pool] are what [mini_os_malloc] returns. *)
Definition mini_os_queue_create (y : qsys) (mem : option Z) (pool : option (list Z)) (msg_size depth : Z) : option Z * qsys :=
  if (msg_size =? 0) || (depth =? 0) then (None, y) else
  match mem, pool with
  | Some q, Some pool => (Some q, mini_os_queue_init y q msg_size depth pool true)
  | _, _ => (None, y)
  end.
Definition mini_os_queue_create_static (y : qsys) (msg_size depth : Z) (queue_buffer : option Z) (msg_buffer : option (list Z))
    (buffer_size : Z) : option Z * qsys :=
  match queue_buffer, msg_buffer with
  | Some q, Some pool =>
      if (msg_size =? 0) || (depth =? 0) || (buffer_size <? depth * msg_size) then (None, y)
      else (Some q, mini_os_queue_init y q msg_size depth pool false)
  | _, _ => (None, y)
  end.

(** [mini_os_obj_free_storage] of a queue. *)
Definition queue_free_storage (y : qsys) (q : Z) : qsys :=
  mk_qsys (wait_list_drop (wait_list_drop (q_kern y) (waiters_of q true)) (waiters_of q false)) (delete q (queues y)).
Definition mini_os_queue_delete_common (y : qsys) (queue : option Z) (is_static : bool) : option (Z * qsys) :=
  match queue with
  | None => Some (MINI_ERR_INVAL, y)
  | Some q =>
      qu ← queues y !! q;
      if negb (eqb (mini_os_obj_is_static (q_obj qu)) is_static) then Some (MINI_ERR_NOTSUPP, y) else
      if (mini_os_obj_user_count (q_obj qu) >? 1) && negb (mini_os_obj_is_kill_enabled (q_obj qu))
      then Some (MINI_OS_ERR_REJECT, y) else
      '(killed, k) ← (if mini_os_obj_user_count (q_obj qu) >? 1 then mini_os_queue_kill_waiters (q_kern y) q (q_obj qu)
                      else Some (false, q_kern y));
      let qu := if (mini_os_obj_user_count (q_obj qu) =? 1) && negb is_static then q_set_pool qu None else qu in
      let '(_, reclaim, o) := mini_os_obj_request_destroy (q_obj qu) in
      let y := qs_set_queue (qs_set_kern y k) q (q_set_obj qu o) in
      let y := if reclaim then queue_free_storage y q else y in
      Some (MINI_OK, if killed : bool then qs_set_kern y (mini_os_schedule_yield (q_kern y)).2 else y)
  end.
Definition mini_os_queue_delete (y : qsys) (queue : option Z) := mini_os_queue_delete_common y queue false.
Definition mini_os_queue_delete_static (y : qsys) (queue : option Z) := mini_os_queue_delete_common y queue true.
Definition mini_os_queue_enable_kill (y : qsys) (queue : option Z) : option (Z * qsys) :=
  match queue with
  | None => Some (MINI_ERR_INVAL, y)
  | Some q => qu ← queues y !! q; Some (MINI_OK, qs_set_queue y q (q_set_obj qu (mini_os_obj_enable_kill (q_obj qu))))
  end.

(** ** Sending and receiving *)

(** The entry of [mini_os_queue_send] and [mini_os_queue_receive]: [inl] is a return, [inr]
    goes on to the loop with the deadline. *)
Definition queue_enter (y : qsys) (queue : option Z) (has_msg : bool) (timeout_tick : Z) : option (Z * qsys + qsys * Z) :=
  match queue with
  | Some q =>
      if negb has_msg then Some (inl (MINI_ERR_INVAL, y)) else
      qu ← queues y !! q;
      let '(err, o) := mini_os_obj_acquire (q_obj qu) in
      if negb (err =? MINI_OK) then Some (inl (err, y)) else
      Some (inr (qs_set_queue y q (q_set_obj qu o), call_deadline (q_kern y) timeout_tick))
  | None => Some (inl (MINI_ERR_INVAL, y))
  end.

(** The end of a turn that found the queue full, or empty. *)
Definition queue_block (y : qsys) (q : Z) (senders : bool) (timeout_tick deadline : Z) : option (turn * qsys) :=
  '(r, k) ← block_on (q_kern y) (waiters_of q senders) 0 timeout_tick deadline q; Some (r, qs_set_kern y k).
(** After the copy: the oldest waiter of the other side is woken. *)
Definition queue_moved (y : qsys) (q : Z) (qu : queue) (senders yields : bool) : option qsys :=
  '(woken, k) ← mini_os_queue_wake_one (q_kern y) (waiters_of q (negb senders));
  Some (qs_set_queue (qs_set_kern y (if (woken : bool) && yields then (mini_os_schedule_yield k).2 else k)) q qu).

Definition queue_send_turn (y : qsys) (q : Z) (msg : list Z) (timeout_tick deadline : Z) : option (turn * qsys) :=
  qu ← queues y !! q;
  if mini_os_obj_is_destroyed (q_obj qu) then Some (Leave MINI_OS_ERR_DEAD, y) else
  if q_depth qu <? q_max_depth qu then
    qu ← queue_put qu msg; y ← queue_moved y q qu true true; Some (Leave MINI_OK, y)
  else queue_block y q true timeout_tick deadline.
Definition queue_receive_turn (y : qsys) (q : Z) (timeout_tick deadline : Z) : option (option (list Z) * turn * qsys) :=
  qu ← queues y !! q;
  if mini_os_obj_is_destroyed (q_obj qu) then Some (None, Leave MINI_OS_ERR_DEAD, y) else
  if q_depth qu >? 0 then
    '(msg, qu) ← queue_get qu; y ← queue_moved y q qu false true; Some (Some msg, Leave MINI_OK, y)
  else '(r, y) ← queue_block y q false timeout_tick deadline; Some (None, r, y).
(** The wait of the thread [c] is over. *)
Definition queue_park_end (y : qsys) (c : Z) : option (turn * qsys) :=
  '(r, k) ← park_end (q_kern y) c; Some (r, qs_set_kern y k).

(** [mini_os_queue_release]: the part that frees the pool, and the reference. *)
Definition queue_release_pool (y : qsys) (q : Z) : option qsys :=
  qu ← queues y !! q;
  Some (if (mini_os_obj_user_count (q_obj qu) =? 1) && mini_os_obj_is_destroyed (q_obj qu) && mini_os_obj_is_heap_owned (q_obj qu)
        then qs_set_queue y q (q_set_pool qu None) else y).
Definition queue_release_obj (y : qsys) (q : Z) : option qsys :=
  qu ← queues y !! q;
  let '(reclaim, o) := mini_os_obj_release (q_obj qu) in
  Some (if reclaim then queue_free_storage y q else qs_set_queue y q (q_set_obj qu o)).

Definition mini_os_queue_send_isr (y : qsys) (queue : option Z) (msg : option (list Z)) : option (Z * qsys) :=
  match queue, msg with
  | Some q, Some msg =>
      qu ← queues y !! q;
      if q_depth qu >=? q_max_depth qu then Some (MINI_ERR_AGAIN, y) else
      qu ← queue_put qu msg; y ← queue_moved y q qu true false; Some (MINI_OK, y)
  | _, _ => Some (MINI_ERR_INVAL, y)
  end.
Definition mini_os_queue_receive_isr (y : qsys) (queue : option Z) (has_msg : bool) : option (Z * option (list Z) * qsys) :=
  match queue, has_msg with
  | Some q, true =>
      qu ← queues y !! q;
      if q_depth qu =? 0 then Some (MINI_ERR_AGAIN, None, y) else
      '(msg, qu) ← queue_get qu; y ← queue_moved y q qu false false; Some (MINI_OK, Some msg, y)
  | _, _ => Some (MINI_ERR_INVAL, None, y)
  end.

Definition mini_os_queue_is_empty (y : qsys) (queue : option Z) : option bool :=
  match queue with None => Some false | Some q => qu ← queues y !! q; Some (q_depth qu =? 0) end.
Definition mini_os_queue_is_full (y : qsys) (queue : option Z) : option bool :=
  match queue with None => Some false | Some q => qu ← queues y !! q; Some (q_depth qu =? q_max_depth qu) end.
Definition mini_os_queue_get_depth (y : qsys) (queue : option Z) : option Z :=
  match queue with None => Some 0 | Some q => qu ← queues y !! q; Some (q_depth qu) end.

(** ** The calls of the threads *)

(** Where a thread is inside a call. *)
Inductive queue_pc := QLoop | QParked | QFreePool (err : Z) | QRelease (err : Z).
(** [qc_msg] is the message of a send, [None] in a receive. *)
Record queue_call := mk_qcall {
  qc_queue : Z; qc_msg : option (list Z); qc_timeout : Z; qc_deadline : Z; qc_pc : queue_pc
}.
Definition qc_set_pc (c : queue_call) (pc : queue_pc) : queue_call :=
  mk_qcall (qc_queue c) (qc_msg c) (qc_timeout c) (qc_deadline c) pc.
Definition is_send (c : queue_call) : bool := match qc_msg c with Some _ => true | None => false end.

Inductive queue_event := Made (q : Z) | Put (q : Z) (msg : list Z) | Got (q : Z) (msg : list Z) | Ended (t err : Z).

(** What the queue has to hold, by a log with the last event first: each message that is
    received is the oldest one. *)
Fixpoint fifo (log : list queue_event) (q : Z) : option (list (list Z)) :=
  match log with
  | [] => Some []
  | Made q' :: log => if q' =? q then Some [] else fifo log q
  | Put q' msg :: log => if q' =? q then l ← fifo log q; Some (l ++ [msg]) else fifo log q
  | Got q' msg :: log =>
      if q' =? q then
        l ← fifo log q; match l with [] => None | x :: l => if bool_decide (x = msg) then Some l else None end
      else fifo log q
  | Ended _ _ :: log => fifo log q
  end.

Record queue_machine := mk_qmachine { qm_sys : qsys; qm_calls : gmap Z queue_call; qm_log : list queue_event }.

Inductive queue_op :=
  | QKernel (op : kernel_op)
  | QCreate (q msg_size depth : Z) (pool : list Z) (static : bool)
  | QDelete (q : Z) (static : bool)
  | QEnableKill (q : Z)
  | QSend (q : Z) (msg : list Z) (timeout_tick : Z)
  | QReceive (q timeout_tick : Z)
  | QNext
  | QSendIsr (q : Z) (msg : list Z)
  | QReceiveIsr (q : Z).

Section qmachine.
Context (time_slice long_time : bool).

Definition pc_after (r : turn) : queue_pc := match r with Leave err => QFreePool err | Park => QParked | Again => QLoop end.

(** The current thread [t] goes on with its call. *)
Definition queue_next (x : queue_machine) (t : Z) : option queue_machine :=
  let y := qm_sys x in
  c ← qm_calls x !! t;
  let goes pc y log := mk_qmachine y (<[t := qc_set_pc c pc]> (qm_calls x)) log in
  match qc_pc c, qc_msg c with
  | QLoop, Some msg =>
      '(r, y) ← queue_send_turn y (qc_queue c) msg (qc_timeout c) (qc_deadline c);
      Some (goes (pc_after r) y (match r with Leave err => if err =? MINI_OK then Put (qc_queue c) msg :: qm_log x else qm_log x | _ => qm_log x end))
  | QLoop, None =>
      '(msg, r, y) ← queue_receive_turn y (qc_queue c) (qc_timeout c) (qc_deadline c);
      Some (goes (pc_after r) y (match msg with Some msg => Got (qc_queue c) msg :: qm_log x | None => qm_log x end))
  | QParked, _ => '(r, y) ← queue_park_end y t; Some (goes (pc_after r) y (qm_log x))
  | QFreePool err, _ => y ← queue_release_pool y (qc_queue c); Some (goes (QRelease err) y (qm_log x))
  | QRelease err, _ =>
      y ← queue_release_obj y (qc_queue c); Some (mk_qmachine y (delete t (qm_calls x)) (Ended t err :: qm_log x))
  end.

Definition queue_call_step (x : queue_machine) (q : Z) (msg : option (list Z)) (timeout_tick : Z) : option queue_machine :=
  t ← current_thread (q_kern (qm_sys x));
  r ← queue_enter (qm_sys x) (Some q) true timeout_tick;
  Some match r with
       | inl (rc, y) => mk_qmachine y (qm_calls x) (Ended t rc :: qm_log x)
       | inr (y, deadline) => mk_qmachine y (<[t := mk_qcall q msg timeout_tick deadline QLoop]> (qm_calls x)) (qm_log x)
       end.

Definition queue_step (x : queue_machine) (op : queue_op) : option queue_machine :=
  let y := qm_sys x in
  match op with
  | QKernel op =>
      k ← kernel_step time_slice long_time (q_kern y) op; Some (mk_qmachine (qs_set_kern y k) (qm_calls x) (qm_log x))
  | QCreate q msg_size depth pool static =>
      let '(r, y) := if static then mini_os_queue_create_static y msg_size depth (Some q) (Some pool) (Z.of_nat (length pool))
                     else mini_os_queue_create y (Some q) (Some pool) msg_size depth in
      Some (mk_qmachine y (qm_calls x) (if bool_decide (r = None) then qm_log x else Made q :: qm_log x))
  | QDelete q static =>
      '(_, y) ← (if static then mini_os_queue_delete_static y (Some q) else mini_os_queue_delete y (Some q));
      Some (mk_qmachine y (qm_calls x) (qm_log x))
  | QEnableKill q => '(_, y) ← mini_os_queue_enable_kill y (Some q); Some (mk_qmachine y (qm_calls x) (qm_log x))
  | QSend q msg timeout_tick => queue_call_step x q (Some msg) timeout_tick
  | QReceive q timeout_tick => queue_call_step x q None timeout_tick
  | QNext => t ← current_thread (q_kern y); queue_next x t
  | QSendIsr q msg =>
      '(rc, y) ← mini_os_queue_send_isr y (Some q) (Some msg);
      Some (mk_qmachine y (qm_calls x) (if rc =? MINI_OK then Put q msg :: qm_log x else qm_log x))
  | QReceiveIsr q =>
      '(_, msg, y) ← mini_os_queue_receive_isr y (Some q) true;
      Some (mk_qmachine y (qm_calls x) (match msg with Some msg => Got q msg :: qm_log x | None => qm_log x end))
  end.

Definition free_caller (x : queue_machine) : Prop :=
  match current_thread (q_kern (qm_sys x)) with Some c => qm_calls x !! c = None | None => True end.
(** What the callers keep to: the storage they name is there and as large as they say, a
    queue is deleted once and not used by interrupts then, fewer than 255 calls are inside
    one queue, and calls come from a running thread that is in no other call. *)
Definition queue_op_ok (x : queue_machine) (op : queue_op) : Prop :=
  let y := qm_sys x in let k := q_kern y in
  match op with
  | QKernel op => plain_op op /\ op_ok k op /\ (match op with KDelay _ => free_caller x | _ => True end)
  | QCreate q msg_size depth pool static =>
      queues y !! q = None /\ wait_lists k !! waiters_of q true = None /\ wait_lists k !! waiters_of q false = None /\
      is_u16 msg_size /\ is_u8 depth /\ (static = false -> Z.of_nat (length pool) = depth * msg_size)
  | QDelete q _ => match queues y !! q with Some qu => mini_os_obj_is_destroyed (q_obj qu) = false | None => False end
  | QEnableKill q => is_Some (queues y !! q)
  | QSend q msg timeout_tick =>
      match queues y !! q with Some qu => obj_ref (q_obj qu) < 255 /\ Z.of_nat (length msg) = q_msg_size qu | None => False end /\
      is_Some (current_thread k) /\ may_call k /\ free_caller x /\ -2147483648 <= timeout_tick < 2147483648
  | QReceive q timeout_tick =>
      match queues y !! q with Some qu => obj_ref (q_obj qu) < 255 | None => False end /\
      is_Some (current_thread k) /\ may_call k /\ free_caller x /\ -2147483648 <= timeout_tick < 2147483648
  | QNext => may_call k /\ match t ← current_thread k; qm_calls x !! t with Some _ => True | None => False end
  | QSendIsr q msg =>
      match queues y !! q with
      | Some qu => mini_os_obj_is_destroyed (q_obj qu) = false /\ Z.of_nat (length msg) = q_msg_size qu
      | None => False
      end
  | QReceiveIsr q => match queues y !! q with Some qu => mini_os_obj_is_destroyed (q_obj qu) = false | None => False end
  end.

Fixpoint queue_run (x : queue_machine) (ops : list queue_op) : option queue_machine :=
  match ops with [] => Some x | op :: ops => x ← queue_step x op; queue_run x ops end.
Fixpoint queue_ops_ok (x : queue_machine) (ops : list queue_op) : Prop :=
  match ops with
  | [] => True
  | op :: ops => queue_op_ok x op /\ match queue_step x op with Some x => queue_ops_ok x ops | None => True end
  end.
End qmachine.

Definition boot_qmachine : queue_machine := mk_qmachine (mk_qsys boot_kernel ∅) ∅ [].
