(* ===== verification/MiniQueueInv.v ===== *)
(** * What the message queues guarantee

    The invariant of the machine of [MiniQueue], that every step of it keeps, and what
    follows.  [queue_delivers]: whatever happens between the steps of the calls, each message
    is received once, whole and in the order of sending.  [queue_no_lost_wakeup]: nobody is
    left waiting beside a message or a free slot unless enough threads of its side are on
    their way to the queue.  [queue_deadline_strict]: a wait with a time limit is over at the
    tick the call computed at its start.  The finding at the end: two calls that leave a
    deleted queue together leak its message pool. *)

From S2P Require Import Prelude Status MiniList MiniSched MiniKernel MiniSem MiniWait MiniQueue.
From stdpp Require Import gmap functions.

#[local] Open Scope Z_scope.

(** ** The messages in the pool *)

Definition slot (pool : list Z) (size i : Z) : list Z := take (Z.to_nat size) (drop (Z.to_nat (i * size)) pool).
(** From the oldest message. *)
Definition contents (pool : list Z) (qu : queue) : list (list Z) :=
  (λ i, slot pool (q_msg_size qu) ((q_read_idx qu + i) mod q_max_depth qu)) <$> seqZ 0 (q_depth qu).

Lemma slot_length pool size i : 0 <= size -> 0 <= i -> (i + 1) * size <= Z.of_nat (length pool) -> length (slot pool size i) = Z.to_nat size.
Proof. intros. unfold slot. rewrite length_take, length_drop. nia. Qed.

Lemma segment_eq (l l' : list Z) a n :
  length l = length l' -> (∀ i, (a <= i < a + n)%nat -> l !! i = l' !! i) -> take n (drop a l) = take n (drop a l').
Proof.
  intros Hlen H. apply list_eq. intros i. destruct (decide (i < n)%nat).
  - rewrite !lookup_take_lt, !lookup_drop by done. apply H. lia.
  - rewrite !lookup_take_ge by lia. done.
Qed.
Lemma write_lookup (l d : list Z) off i :
  (off + length d <= length l)%nat -> (i < off \/ off + length d <= i)%nat ->
  (take off l ++ d ++ drop (off + length d) l) !! i = l !! i.
Proof.
  intros Hl [Hi|Hi].
  - rewrite lookup_app_l by (rewrite length_take; lia). by rewrite lookup_take_lt.
  - rewrite lookup_app_r by (rewrite length_take; lia). rewrite length_take, Nat.min_l by lia.
    rewrite lookup_app_r by lia. rewrite lookup_drop. f_equal. lia.
Qed.

Record shape (qu : queue) : Prop := {
  sh_size : 0 < q_msg_size qu < 65536;
  sh_max : 0 < q_max_depth qu < 256;
  sh_depth : 0 <= q_depth qu <= q_max_depth qu;
  sh_read : 0 <= q_read_idx qu < q_max_depth qu;
  sh_write : q_write_idx qu = (q_read_idx qu + q_depth qu) mod q_max_depth qu
}.
Lemma next_idx_mod qu i : 0 <= i < q_max_depth qu -> q_max_depth qu < 256 -> next_idx qu i = (i + 1) mod q_max_depth qu.
Proof.
  intros Hi Hm. unfold next_idx, u8. rewrite (Z.mod_small (i + 1) 256) by lia.
  destruct (Z.geb_spec (i + 1) (q_max_depth qu)).
  - assert (i + 1 = q_max_depth qu) as -> by lia. by rewrite Z.mod_same by lia.
  - by rewrite Z.mod_small by lia.
Qed.

Lemma mod_differ r i j n : 0 <= i < j -> j < n -> (r + i) mod n ≠ (r + j) mod n.
Proof.
  intros Hi Hj E. pose proof (Z.div_mod (r + i) n ltac:(lia)). pose proof (Z.div_mod (r + j) n ltac:(lia)).
  rewrite E in *. assert (n * ((r + j) / n - (r + i) / n) = j - i) as Hd by lia. assert (0 < (r + j) / n - (r + i) / n < 1) by nia. lia.
Qed.

Lemma put_spec qu pool msg :
  shape qu -> q_pool qu = Some pool -> q_max_depth qu * q_msg_size qu <= Z.of_nat (length pool) ->
  Z.of_nat (length msg) = q_msg_size qu -> q_depth qu < q_max_depth qu ->
  ∃ qu' pool', queue_put qu msg = Some qu' /\ shape qu' /\ q_pool qu' = Some pool' /\ length pool' = length pool /\
    q_obj qu' = q_obj qu /\ q_msg_size qu' = q_msg_size qu /\ q_max_depth qu' = q_max_depth qu /\ q_depth qu' = q_depth qu + 1 /\
    contents pool' qu' = contents pool qu ++ [msg].
Proof.
  intros [S1 S2 S3 S4 S5] Hp Hlen Hmsg Hd. unfold queue_put, mem_copy, mini_os_queue_slot_at. rewrite Hp. cbn [mbind option_bind].
  pose proof (Z.mod_pos_bound (q_read_idx qu + q_depth qu) (q_max_depth qu) ltac:(lia)) as Hw. rewrite <- S5 in Hw.
  assert ((q_write_idx qu + 1) * q_msg_size qu <= Z.of_nat (length pool)) as Hfit by nia.
  rewrite mem_read_in by lia. cbn [mbind option_bind]. rewrite drop_0, take_ge by lia.
  rewrite mem_write_in by nia. cbn [mbind option_bind]. eexists _, _. split; [reflexivity|].
  set (off := Z.to_nat (q_write_idx qu * q_msg_size qu)).
  assert ((off + length msg <= length pool)%nat) as Hoff by nia.
  assert (u8 (q_depth qu + 1) = q_depth qu + 1) as Hd8 by (unfold u8; apply Z.mod_small; lia).
  assert (length (take off pool ++ msg ++ drop (off + length msg) pool) = length pool) as Hlen'
    by (rewrite !length_app, length_take, length_drop; lia).
  rewrite Hd8. split; [|split; [done|]; split; [exact Hlen'|]; repeat (split; [done|])].
  - split; simpl; try done; [lia|]. rewrite next_idx_mod, S5 by lia. rewrite Zplus_mod_idemp_l. f_equal. lia.
  - unfold contents. cbn [q_depth q_msg_size q_read_idx q_max_depth]. rewrite seqZ_app by lia. rewrite fmap_app. f_equal.
    + apply list_fmap_ext. intros j i Hi. apply lookup_seqZ in Hi as [-> Hj].
      pose proof (Z.mod_pos_bound (q_read_idx qu + (0 + Z.of_nat j)) (q_max_depth qu) ltac:(lia)) as Hi.
      assert ((q_read_idx qu + (0 + Z.of_nat j)) mod q_max_depth qu ≠ q_write_idx qu) as Hne.
      { rewrite S5. apply mod_differ; lia. }
      apply segment_eq; [exact Hlen'|]. intros x Hx. apply (write_lookup pool msg off); [done|]. subst off. nia.
    + change (seqZ (0 + q_depth qu) 1) with [0 + (0 + q_depth qu)]. cbn [fmap list_fmap]. f_equal. rewrite !Z.add_0_l, <- S5. unfold slot. fold off.
      rewrite drop_app_le, drop_ge by (rewrite length_take; lia). simpl. rewrite take_app_le, take_ge by lia. done.
Qed.

Lemma get_spec qu pool :
  shape qu -> q_pool qu = Some pool -> q_max_depth qu * q_msg_size qu <= Z.of_nat (length pool) -> 0 < q_depth qu ->
  ∃ msg qu', queue_get qu = Some (msg, qu') /\ shape qu' /\ q_pool qu' = Some pool /\
    q_obj qu' = q_obj qu /\ q_msg_size qu' = q_msg_size qu /\ q_max_depth qu' = q_max_depth qu /\ q_depth qu' = q_depth qu - 1 /\
    Z.of_nat (length msg) = q_msg_size qu /\ contents pool qu = msg :: contents pool qu'.
Proof.
  intros [S1 S2 S3 S4 S5] Hp Hlen Hd. unfold queue_get, mini_os_queue_slot_at. rewrite Hp. cbn [mbind option_bind].
  rewrite mem_read_in by nia. cbn [mbind option_bind]. eexists _, _. split; [reflexivity|].
  assert (u8 (q_depth qu - 1) = q_depth qu - 1) as -> by (unfold u8; apply Z.mod_small; lia).
  pose proof (Z.mod_pos_bound (q_read_idx qu + 1) (q_max_depth qu) ltac:(lia)).
  split; [|split; [done|]; repeat (split; [done|])].
  - split; simpl; try done; [lia| |]; rewrite next_idx_mod by lia; [done|].
    rewrite S5, Zplus_mod_idemp_l. f_equal. lia.
  - split; [rewrite length_take, length_drop; nia|]. unfold contents. cbn [q_depth q_msg_size q_read_idx q_max_depth].
    replace (q_depth qu) with (1 + (q_depth qu - 1)) at 1 by lia. rewrite seqZ_app by lia. rewrite fmap_app. simpl.
    rewrite Z.add_0_r, Z.mod_small by lia. f_equal.
    change (seqZ 1 (q_depth qu - 1)) with (seqZ (1 + 0) (q_depth qu - 1)). rewrite <- (fmap_add_seqZ 1 0), <- list_fmap_compose.
    apply list_fmap_ext. intros j i Hi. simpl. rewrite next_idx_mod by lia. rewrite Zplus_mod_idemp_l. f_equal. f_equal. lia.
Qed.

(** ** The invariant *)

(** The call is about to look at the queue. *)
Definition coming (k : kernel) (q : Z) (senders : bool) (t : Z) (c : queue_call) : bool :=
  (qc_queue c =? q) && eqb (is_send c) senders &&
  match qc_pc c with QLoop => true | QParked => granted k t | _ => false end.
Definition inside (q : Z) (t : Z) (c : queue_call) : bool := qc_queue c =? q.
(** What the threads of one side wait for: free slots, or messages. *)
Definition avail (qu : queue) (senders : bool) : Z := if senders then q_max_depth qu - q_depth qu else q_depth qu.

(** The pool is there and holds what the log says, or only calls that are leaving are left. *)
Definition pool_ok (calls : gmap Z queue_call) (log : list queue_event) (q : Z) (qu : queue) : Prop :=
  match q_pool qu with
  | Some pool => q_max_depth qu * q_msg_size qu <= Z.of_nat (length pool) /\ fifo log q = Some (contents pool qu)
  | None => mini_os_obj_is_destroyed (q_obj qu) = true /\
            ∀ t c, calls !! t = Some c -> qc_queue c = q -> ∃ err, qc_pc c = QRelease err
  end.
Record obj_ok (calls : gmap Z queue_call) (q : Z) (o : obj) : Prop := {
  oo_kill : mini_os_obj_kill_reports_timeout o = false;
  oo_users : obj_ref o = (if mini_os_obj_is_destroyed o then 0 else 1) + count (inside q) calls;
  oo_byte : obj_ref o < 256
}.
Definition waiters_ok (k : kernel) (calls : gmap Z queue_call) (q : Z) (qu : queue) : Prop :=
  ∀ s, ∃ l, wait_lists k !! waiters_of q s = Some l /\
    (l = [] \/ mini_os_obj_is_destroyed (q_obj qu) = false /\ avail qu s <= count (coming k q s) calls).
Record queue_ok (k : kernel) (calls : gmap Z queue_call) (log : list queue_event) (q : Z) (qu : queue) : Prop := {
  qo_shape : shape qu;
  qo_obj : obj_ok calls q (q_obj qu);
  qo_pool : pool_ok calls log q qu;
  qo_waiters : waiters_ok k calls q qu
}.

(** A call that waits is woken by its deadline. *)
Definition call_timed (k : kernel) (th : thread) (c : queue_call) : Prop :=
  due k th = due_at (qc_timeout c) (qc_deadline c).
Record call_ok (y : qsys) (t : Z) (c : queue_call) : Prop := {
  co_queue : ∃ qu, queues y !! qc_queue c = Some qu /\ ∀ msg, qc_msg c = Some msg -> Z.of_nat (length msg) = q_msg_size qu;
  co_timeout : -2147483648 <= qc_timeout c < 2147483648 /\ 0 <= qc_deadline c < 4294967296;
  co_thread : ∃ th, threads (q_kern y) !! t = Some th /\
    (th_wait_list th ≠ None -> qc_pc c = QParked /\ th_wait_list th = Some (waiters_of (qc_queue c) (is_send c)) /\
                               call_timed (q_kern y) th c)
}.
Record qinv (y : qsys) (calls : gmap Z queue_call) (log : list queue_event) : Prop := {
  qi_wf : wf (q_kern y);
  qi_level : current_level (q_kern y);
  qi_queue : ∀ q qu, queues y !! q = Some qu -> queue_ok (q_kern y) calls log q qu;
  qi_call : ∀ t c, calls !! t = Some c -> call_ok y t c;
  qi_wait : ∀ t th, threads (q_kern y) !! t = Some th -> th_wait_list th ≠ None -> is_Some (calls !! t)
}.

Lemma waiters_of_inj q q' s s' : waiters_of q s = waiters_of q' s' -> q = q' /\ s = s'.
Proof. unfold waiters_of. destruct s, s'; simpl; intros; split; (done || lia). Qed.

Lemma kept_timed k k' th th' c : kept k th k' th' -> th_wait_list th' ≠ None -> call_timed k th c -> call_timed k' th' c.
Proof. intros [(E & _ & H)|(_ & ? & _)] Hn; [|done]. unfold call_timed. destruct H as [-> _]; [congruence|done]. Qed.

(** A step that touches only the queues in [T] and the calls inside them. *)
Lemma qinv_change (T : gset Z) y calls log y' calls' log' :
  qinv y calls log -> wf (q_kern y') -> current_level (q_kern y') ->
  (∀ q, q ∉ T -> queues y' !! q = queues y !! q /\ fifo log' q = fifo log q) ->
  (∀ q s, q ∉ T -> is_Some (wait_lists (q_kern y) !! waiters_of q s) -> is_Some (wait_lists (q_kern y') !! waiters_of q s)) ->
  (∀ t c, qc_queue c ∉ T -> calls' !! t = Some c <-> calls !! t = Some c) ->
  (∀ t c th, calls !! t = Some c -> qc_queue c ∉ T -> threads (q_kern y) !! t = Some th ->
     ∃ th', threads (q_kern y') !! t = Some th' /\ kept (q_kern y) th (q_kern y') th') ->
  (∀ q qu, q ∈ T -> queues y' !! q = Some qu -> queue_ok (q_kern y') calls' log' q qu) ->
  (∀ t c, calls' !! t = Some c -> qc_queue c ∈ T -> call_ok y' t c) ->
  (∀ t th, threads (q_kern y') !! t = Some th -> th_wait_list th ≠ None -> is_Some (calls' !! t)) ->
  qinv y' calls' log'.
Proof.
  intros [I1 I2 I3 I4 I5] Hw Hl HQ HL HC HK HTq HTc HW. split; try done.
  - intros q qu Hq. destruct (decide (q ∈ T)) as [|HT]; [by apply HTq|]. destruct (HQ q HT) as [EQ EF]. rewrite EQ in Hq.
    assert (∀ f f', (∀ t c, f t c = true -> qc_queue c = q) -> (∀ t c, f' t c = true -> qc_queue c = q) ->
      (∀ t c, calls !! t = Some c -> qc_queue c = q -> f t c = f' t c) -> count f' calls' = count f calls) as Hcount.
    { intros f f' Hf Hf' He. symmetry. apply count_ext. intros t c. split; intros [Hc E].
      - pose proof (Hf _ _ E) as Eq. rewrite <- (He t c), (HC t c) by (rewrite ?Eq; done). done.
      - pose proof (Hf' _ _ E) as Eq. rewrite (HC t c) in Hc by by rewrite Eq. by rewrite (He t c) by done. }
    destruct (I3 _ _ Hq) as [Q1 [Q2 Q3 Q4] Q5 Q6]. split; [done|split; [done| |done]| |].
    + rewrite (Hcount (inside q) (inside q)); [done|unfold inside; intros ?? ?; by apply Z.eqb_eq..|done].
    + unfold pool_ok in *. destruct (q_pool qu); [by rewrite EF|]. destruct Q5 as [? Q5]. split; [done|].
      intros t c Hc Eq. apply Q5 with t; [apply HC; [by rewrite Eq|done]|done].
    + intros s. destruct (Q6 s) as (l & El & Hsl). destruct (HL q s HT) as [l' El']; [eauto|]. exists l'. split; [done|].
      destruct l' as [|t l']; [by left|]. right.
      assert (l ≠ []) as Hne.
      { destruct (waiter_spec _ _ _ t Hw El') as (th' & Ht' & Hwl & _); [apply elem_of_cons; auto|].
        destruct (HW t th' Ht') as [c Hc]; [congruence|]. destruct (decide (qc_queue c ∈ T)) as [HcT|HcT].
        - destruct (HTc _ _ Hc HcT) as [_ _ (th2 & Ht2 & Hx)]. assert (th2 = th') as -> by congruence.
          destruct Hx as (_ & E & _); [congruence|]. rewrite Hwl in E. injection E as E. apply waiters_of_inj in E as [-> _]. done.
        - apply HC in Hc; [|done]. destruct (I4 _ _ Hc) as [_ _ (th & Ht & _)]. destruct (HK _ _ _ Hc HcT Ht) as (th2 & Ht2 & Hk).
          assert (th2 = th') as -> by congruence. apply kept_waits in Hk; [|congruence]. rewrite Hwl in Hk.
          pose proof (waits_in_list _ _ _ _ _ I1 Ht Hk El) as Hin. intros ->. by apply not_elem_of_nil in Hin. }
      destruct Hsl as [|[Hd Ha]]; [done|]. split; [done|].
      rewrite (Hcount (coming (q_kern y) q s) (coming (q_kern y') q s)); [done| | |].
      1,2: unfold coming; intros ?? E; destruct (Z.eqb_spec (qc_queue c) q); [done|discriminate].
      intros t0 c Hc Eq. unfold coming. destruct (I4 _ _ Hc) as [_ _ (th & Ht & _)].
      destruct (HK t0 c th Hc) as (th' & Ht' & Hk); [by rewrite Eq|done|]. by rewrite (kept_granted _ _ _ _ _ Ht Ht' Hk).
  - intros t c Hc. destruct (decide (qc_queue c ∈ T)) as [|HT]; [by apply HTc|]. apply HC in Hc; [|done].
    destruct (I4 _ _ Hc) as [(qu & Hq & Hm) C2 (th & Ht & Hx)]. destruct (HK _ _ _ Hc HT Ht) as (th' & Ht' & Hk).
    split; [exists qu; by rewrite (proj1 (HQ _ HT))|done|]. exists th'. split; [done|]. intros Hn.
    pose proof (kept_waits _ _ _ _ Hk Hn) as E. destruct Hx as (? & E2 & ?); [congruence|].
    split; [done|]. split; [congruence|]. by eapply kept_timed.
Qed.

(** Steps of the kernel that hand nothing to a parked thread. *)
Lemma qinv_kernel y calls log k' :
  qinv y calls log -> wf k' -> current_level k' -> no_grant (q_kern y) k' -> keeps_due (q_kern y) k' ->
  qinv (qs_set_kern y k') calls log.
Proof.
  intros Hi Hw Hl [G1 G2 G3] Hd. apply (qinv_change ∅ y calls log); try done.
  - intros q s _. simpl. by rewrite <- !elem_of_dom, G1.
  - intros t c th _ _ Ht. destruct (G2 _ _ Ht) as (th' & Ht' & Hk). exists th'. split; [done|].
    destruct Hk as [[E1 E2]|Hk]; [left|by right]. split; [done|]. split; [done|]. intros Hn. by apply (Hd t).
  - intros t th' Ht' Hn. destruct (G3 _ _ Ht' Hn) as [th Ht]. destruct (G2 _ _ Ht) as (th2 & Ht2 & Hk).
    simpl in Ht'. assert (th2 = th') as -> by congruence. apply (qi_wait _ _ _ Hi t th Ht).
    destruct Hk as [[<- _]|(? & _)]; done.
Qed.
Lemma qinv_yield y calls log : qinv y calls log -> qinv (qs_set_kern y (mini_os_schedule_yield (q_kern y)).2) calls log.
Proof.
  intros Hi. apply qinv_kernel; [done|apply wf_pendsv, Hi|exact (qi_level _ _ _ Hi)|split; eauto|].
  intros t th th' Ht Ht' _ _. simpl in Ht'. assert (th' = th) as -> by congruence. done.
Qed.

(** Steps that change the record of one queue and the calls inside it. *)
Lemma qinv_record y calls log q qu calls' log' :
  qinv y calls log -> (∀ q', q' ≠ q -> fifo log' q' = fifo log q') ->
  (∀ t c, qc_queue c ≠ q -> calls' !! t = Some c <-> calls !! t = Some c) ->
  (∀ t th, threads (q_kern y) !! t = Some th -> th_wait_list th ≠ None -> is_Some (calls !! t) -> is_Some (calls' !! t)) ->
  queue_ok (q_kern y) calls' log' q qu ->
  (∀ t c, calls' !! t = Some c -> qc_queue c = q -> call_ok (qs_set_queue y q qu) t c) ->
  qinv (qs_set_queue y q qu) calls' log'.
Proof.
  intros Hi HF HC HS HQ Hc. apply (qinv_change {[q]} y calls log); try done; try apply Hi.
  - intros q' Hn. rewrite not_elem_of_singleton in Hn. simpl. rewrite lookup_insert_ne by done. auto.
  - intros t c Hn. rewrite not_elem_of_singleton in Hn. auto.
  - intros t c th _ _ Ht. exists th. split; [done|]. by apply kept_same.
  - intros q' qu' ->%elem_of_singleton. simpl. rewrite lookup_insert_eq. by intros [= <-].
  - intros t c Hcc E%elem_of_singleton. auto.
  - intros t th Ht Hn. apply (HS t th); [done..|]. by apply (qi_wait _ _ _ Hi t th).
Qed.

(** ** Calls *)

Lemma call_ok_record y t c q qu qu' :
  queues y !! q = Some qu -> q_msg_size qu' = q_msg_size qu -> call_ok y t c -> call_ok (qs_set_queue y q qu') t c.
Proof.
  intros Hq Hs [(qu0 & Hq0 & Hm) C2 C3]. split; [|done|done]. simpl. destruct (decide (qc_queue c = q)) as [E|].
  - rewrite E in *. rewrite lookup_insert_eq. exists qu'. split; [done|]. intros msg Em. rewrite Hs. assert (qu0 = qu) as -> by congruence. auto.
  - rewrite lookup_insert_ne by done. eauto.
Qed.
Lemma call_ok_pc y t c pc th :
  threads (q_kern y) !! t = Some th -> th_wait_list th = None -> call_ok y t c -> call_ok y t (qc_set_pc c pc).
Proof. intros Ht Hn [C1 C2 C3]. split; [done..|]. exists th. done. Qed.

Lemma shape_obj qu o : shape qu -> shape (q_set_obj qu o).
Proof. intros []. by split. Qed.
Lemma shape_pool qu p : shape qu -> shape (q_set_pool qu p).
Proof. intros []. by split. Qed.
Lemma waiters_same k calls q qu qu' :
  q_max_depth qu' = q_max_depth qu -> q_depth qu' = q_depth qu ->
  mini_os_obj_is_destroyed (q_obj qu') = mini_os_obj_is_destroyed (q_obj qu) -> waiters_ok k calls q qu -> waiters_ok k calls q qu'.
Proof. intros E1 E2 E3 H s. destruct (H s) as (l & El & Hl). exists l. split; [done|]. unfold avail in *. by rewrite E1, E2, E3. Qed.
Lemma waiters_more k calls calls' q qu :
  (∀ s l, wait_lists k !! waiters_of q s = Some l -> l ≠ [] ->
     avail qu s <= count (coming k q s) calls -> avail qu s <= count (coming k q s) calls') ->
  waiters_ok k calls q qu -> waiters_ok k calls' q qu.
Proof. intros Hm H s. destruct (H s) as (l & El & Hl). exists l. split; [done|]. destruct (decide (l = [])); [auto|]. destruct Hl as [|[? ?]]; eauto. Qed.

Lemma set_pc_id c : qc_set_pc c (qc_pc c) = c.
Proof. by destruct c. Qed.
Lemma calls_other (calls : gmap Z queue_call) t c c' q :
  calls !! t = Some c -> qc_queue c = q -> qc_queue c' = q ->
  ∀ t' d, qc_queue d ≠ q -> <[t := c']> calls !! t' = Some d <-> calls !! t' = Some d.
Proof.
  intros Hc E E' t' d Hd. destruct (decide (t' = t)) as [->|]; [|by rewrite lookup_insert_ne].
  rewrite lookup_insert_eq. split; [intros [= <-]; done|]. intros E1. assert (d = c) as -> by congruence. done.
Qed.

(** A new call. *)
Lemma queue_enter_ok x q msg timeout :
  qinv (qm_sys x) (qm_calls x) (qm_log x) ->
  match queues (qm_sys x) !! q with
  | Some qu => obj_ref (q_obj qu) < 255 /\ ∀ m, msg = Some m -> Z.of_nat (length m) = q_msg_size qu | None => False end ->
  is_Some (current_thread (q_kern (qm_sys x))) -> may_call (q_kern (qm_sys x)) -> free_caller x -> -2147483648 <= timeout < 2147483648 ->
  ∃ x', queue_call_step x q msg timeout = Some x' /\ qinv (qm_sys x') (qm_calls x') (qm_log x').
Proof.
  destruct x as [y calls log]. simpl. intros Hi Hq [t Hc] Hm Hf Ht. unfold free_caller in Hf. simpl in Hf. rewrite Hc in Hf.
  destruct (queues y !! q) as [qu|] eqn:Eq; [|done]. destruct Hq as [Hr Hmsg].
  unfold queue_call_step, queue_enter. simpl. rewrite Hc. cbn [mbind option_bind]. rewrite Eq. cbn [mbind option_bind].
  pose proof (qi_queue _ _ _ Hi _ _ Eq) as [Q1 [O1 O2 O3] Q5 Q6].
  unfold mini_os_obj_acquire. destruct (mini_os_obj_is_destroyed (q_obj qu)) eqn:Ed; simpl.
  { eexists. split; [done|]. destruct Hi. split; try done. intros q' qu' E'. destruct (qi_queue0 _ _ E'). by split. }
  eexists. split; [done|]. cbn [qm_sys qm_calls qm_log].
  pose proof (calls_count_nonneg (inside q) calls). assert (u8 (obj_ref (q_obj qu) + 1) = obj_ref (q_obj qu) + 1) as -> by (apply Z.mod_small; lia).
  set (o := mk_obj _ _). set (c := mk_qcall _ _ _ _ _).
  assert (mini_os_obj_is_destroyed o = false) as Ed' by exact Ed.
  destruct (wf_current _ (qi_wf _ _ _ Hi) _ Hc) as [th Hth]. pose proof (running_free _ _ _ (qi_wf _ _ _ Hi) Hm Hc Hth) as Hn.
  apply (qinv_record y calls log q); try done.
  - intros t' c' Hne. destruct (decide (t' = t)) as [->|]; [|by rewrite lookup_insert_ne].
    rewrite lookup_insert_eq, Hf. split; [|done]. intros [= <-]. done.
  - intros t' _ _ _ [c' Hc']. destruct (decide (t' = t)) as [->|]; [rewrite lookup_insert_eq|rewrite lookup_insert_ne by done]; eauto.
  - split; [by apply shape_obj| | |].
    + split; cbn [q_set_obj q_obj]; [done| |simpl; lia]. rewrite Ed'. rewrite ?Ed in O2. rewrite calls_count_insert by done.
      unfold inside at 2. simpl. rewrite Z.eqb_refl. simpl. lia.
    + unfold pool_ok in *. simpl in *. destruct (q_pool qu); [done|]. destruct Q5. congruence.
    + apply (waiters_more _ calls); [|by apply (waiters_same _ _ _ qu)]. intros s l _ _ Ha. rewrite calls_count_insert by done.
      destruct (coming _ _ _ t c); simpl; lia.
  - intros t' c' Hc' Eqc. destruct (decide (t' = t)) as [->|].
    + rewrite lookup_insert_eq in Hc'. injection Hc' as <-. apply (call_ok_record _ _ _ _ qu); [done..|]. split.
      * exists qu. split; [done|]. simpl. auto.
      * split; [done|]. apply call_deadline_range.
      * exists th. split; [done|]. by rewrite Hn.
    + rewrite lookup_insert_ne in Hc' by done. apply (call_ok_record _ _ _ _ qu); [done..|]. by apply (qi_call _ _ _ Hi).
Qed.

(** A call goes on to another place, its thread not waiting. *)
Lemma qinv_pc y calls log t c th qu pc :
  qinv y calls log -> calls !! t = Some c -> threads (q_kern y) !! t = Some th -> th_wait_list th = None ->
  queues y !! qc_queue c = Some qu ->
  (q_pool qu = None -> ∃ err, pc = QRelease err) ->
  (∀ s l, wait_lists (q_kern y) !! waiters_of (qc_queue c) s = Some l -> l ≠ [] ->
     avail qu s <= count (coming (q_kern y) (qc_queue c) s) calls ->
     avail qu s <= count (coming (q_kern y) (qc_queue c) s) (<[t := qc_set_pc c pc]> calls)) ->
  qinv y (<[t := qc_set_pc c pc]> calls) log.
Proof.
  intros Hi Hc Ht Hn Hq Hp Hw. assert (y = qs_set_queue y (qc_queue c) qu) as Ey.
  { destruct y. unfold qs_set_queue. simpl in *. by rewrite insert_id. }
  rewrite Ey. pose proof (qi_queue _ _ _ Hi _ _ Hq) as [Q1 [O1 O2 O3] Q5 Q6].
  apply (qinv_record y calls log); try done.
  - by apply (calls_other _ _ c).
  - intros t' _ _ _ [c' Hc']. destruct (decide (t' = t)) as [->|]; [rewrite lookup_insert_eq|rewrite lookup_insert_ne by done]; eauto.
  - split; [done|split; [done| |done]| |by apply (waiters_more _ calls)].
    + rewrite (count_update _ _ _ c) by done. unfold inside at 2 3. simpl. lia.
    + unfold pool_ok in *. destruct (q_pool qu); [done|]. destruct Q5 as [? Q5]. split; [done|]. intros t' c' Hc' Eq'.
      destruct (decide (t' = t)) as [->|]; [|rewrite lookup_insert_ne in Hc' by done; eauto].
      rewrite lookup_insert_eq in Hc'. injection Hc' as <-. by apply Hp.
  - intros t' c' Hc' _. rewrite <- Ey. destruct (decide (t' = t)) as [->|].
    + rewrite lookup_insert_eq in Hc'. injection Hc' as <-. apply (call_ok_pc _ _ _ _ th); [done..|]. by apply (qi_call _ _ _ Hi).
    + rewrite lookup_insert_ne in Hc' by done. by apply (qi_call _ _ _ Hi).
Qed.

(** The block of a thread changes in what does not concern waiting, the call not parked. *)
Lemma qinv_thread y calls log t c th th' :
  qinv y calls log -> calls !! t = Some c -> qc_pc c ≠ QParked -> threads (q_kern y) !! t = Some th ->
  wf (set_thread (q_kern y) t th') -> current_level (set_thread (q_kern y) t th') -> th_wait_list th' = None ->
  qinv (qs_set_kern y (set_thread (q_kern y) t th')) calls log.
Proof.
  intros Hi Hc Hp Ht Hw Hl Hn. set (k' := set_thread (q_kern y) t th').
  assert (∀ t' c', t' ≠ t -> threads k' !! t' = Some c' <-> threads (q_kern y) !! t' = Some c') as Hne
    by (intros t' c' ?; unfold k'; simpl; by rewrite lookup_insert_ne).
  apply (qinv_change {[qc_queue c]} y calls log); try done.
  - intros t' d u Hd Hdn Hu. rewrite not_elem_of_singleton in Hdn. assert (t' ≠ t) by congruence. exists u.
    split; [by apply Hne|]. by apply kept_same.
  - intros q qu ->%elem_of_singleton Hq. destruct (qi_queue _ _ _ Hi _ _ Hq) as [Q1 Q2 Q3 Q4]. split; try done.
    intros s. destruct (Q4 s) as (l & El & Hx). exists l. split; [done|]. destruct Hx as [|[? Ha]]; [auto|]. right. split; [done|].
    replace (count (coming (q_kern (qs_set_kern y k')) (qc_queue c) s) calls) with (count (coming (q_kern y) (qc_queue c) s) calls); [done|].
    apply count_ext. intros t' d. destruct (decide (t' = t)) as [->|Hn'].
    + split; intros [E E2]; (split; [done|]); (assert (d = c) as -> by congruence); unfold coming in *; by destruct (qc_pc c).
    + unfold coming, granted. simpl. by rewrite lookup_insert_ne by done.
  - intros t' d Hd _. destruct (qi_call _ _ _ Hi _ _ Hd) as [C1 C2 (u & Hu & Hx)]. split; [done..|].
    destruct (decide (t' = t)) as [->|Hn'].
    + exists th'. split; [apply lookup_insert_eq|]. by rewrite Hn.
    + exists u. split; [by apply Hne|done].
  - intros t' u Hu Hwl. simpl in Hu. destruct (decide (t' = t)) as [->|Hn'].
    + rewrite lookup_insert_eq in Hu. congruence.
    + rewrite lookup_insert_ne in Hu by done. by apply (qi_wait _ _ _ Hi t' u).
Qed.

(** ** A message is moved *)

(** The calls after a move by the call [who], or by an interrupt. *)
Definition leaving (calls : gmap Z queue_call) (who : option (Z * queue_call)) : gmap Z queue_call :=
  match who with Some (t, c) => <[t := qc_set_pc c (QFreePool MINI_OK)]> calls | None => calls end.
Definition mover (y : qsys) (calls : gmap Z queue_call) (q : Z) (s : bool) (who : option (Z * queue_call)) : Prop :=
  ∀ t c, who = Some (t, c) -> calls !! t = Some c /\ qc_queue c = q /\ qc_pc c = QLoop /\ is_send c = s /\
    ∃ th, threads (q_kern y) !! t = Some th /\ th_wait_list th = None.

Lemma leaving_count y calls q s who f :
  mover y calls q s who -> count f (leaving calls who) =
    count f calls + match who with Some (t, c) => Z.b2z (f t (qc_set_pc c (QFreePool MINI_OK))) - Z.b2z (f t c) | None => 0 end.
Proof.
  intros Hm. destruct who as [[t c]|]; simpl; [|lia]. destruct (Hm t c eq_refl) as (Hc & _). rewrite (count_update _ _ _ c) by done. lia.
Qed.
Lemma leaving_lookup y calls q s who t d :
  mover y calls q s who -> leaving calls who !! t = Some d ->
  calls !! t = Some d \/ ∃ c, who = Some (t, c) /\ d = qc_set_pc c (QFreePool MINI_OK).
Proof.
  intros Hm. destruct who as [[t' c]|]; simpl; [|auto]. destruct (decide (t = t')) as [->|].
  - rewrite lookup_insert_eq. intros [= <-]. eauto.
  - rewrite lookup_insert_ne by done. auto.
Qed.

Lemma moved_ok y calls log q qu qu' s who log' yields :
  qinv y calls log -> queues y !! q = Some qu -> mini_os_obj_is_destroyed (q_obj qu) = false -> mover y calls q s who ->
  shape qu' -> q_obj qu' = q_obj qu -> q_msg_size qu' = q_msg_size qu -> is_Some (q_pool qu') ->
  (∀ calls', pool_ok calls' log' q qu') ->
  avail qu' s = avail qu s - 1 -> avail qu' (negb s) = avail qu (negb s) + 1 ->
  (∀ q', q' ≠ q -> fifo log' q' = fifo log q') ->
  ∃ y', queue_moved y q qu' s yields = Some y' /\ qinv y' (leaving calls who) log'.
Proof.
  intros Hi Hq Hd Hm Hsh Eo Es [pool Ep] Hpool Ha1 Ha2 Hfifo. unfold queue_moved, mini_os_queue_wake_one.
  pose proof (qi_queue _ _ _ Hi _ _ Hq) as [Q1 Q2 Q3 Q4]. destruct (Q4 (negb s)) as (l & El & Hl).
  assert (∃ b k', wake_oldest (q_kern y) (waiters_of q (negb s)) true = Some (b, k') /\
    qinv (qs_set_queue (qs_set_kern y k') q qu') (leaving calls who) log') as (b & k' & -> & Hi').
  2:{ cbn [mbind option_bind]. eexists. split; [done|]. destruct (b && yields); [|done]. exact (qinv_yield _ _ _ Hi'). }
  assert (∀ k', wf k' -> current_level k' -> same_clock (q_kern y) k' ->
    (∀ t th, threads (q_kern y) !! t = Some th -> head l ≠ Some t -> threads k' !! t = Some th) ->
    (∀ t th, threads (q_kern y) !! t = Some th -> head l = Some t -> threads k' !! t = Some (woken th true)) ->
    (∀ t th, threads k' !! t = Some th -> th_wait_list th ≠ None -> is_Some (threads (q_kern y) !! t) /\ head l ≠ Some t) ->
    wait_lists k' !! waiters_of q (negb s) = Some (tail l) ->
    (∀ w, w ≠ waiters_of q (negb s) -> wait_lists k' !! w = wait_lists (q_kern y) !! w) ->
    qinv (qs_set_queue (qs_set_kern y k') q qu') (leaving calls who) log') as Hmain.
  2:{ pose proof (wake_oldest_ok _ _ _ (qi_wf _ _ _ Hi) (qi_level _ _ _ Hi) El) as Hwk. destruct l as [|t l'].
      - exists false, (q_kern y). split; [done|]. apply Hmain; try done; apply Hi.
      - destruct Hwk as (k' & th & -> & Hw' & Hl' & Ht & Hwl & [F1 F2 F3 F4 F5 F6] & W1 & W2). exists true, k'. split; [done|].
        apply Hmain; try done.
        + intros t' th' Ht' Hne. rewrite F1, lookup_insert_ne; [done|]. simpl in Hne. congruence.
        + intros t' th' Ht' [= ->]. rewrite F1, lookup_insert_eq. congruence.
        + intros t' th' Ht' Hn. rewrite F1 in Ht'. destruct (decide (t' = t)) as [->|].
          * rewrite lookup_insert_eq in Ht'. injection Ht' as <-. destruct (woken_done th) as [E _]. congruence.
          * rewrite lookup_insert_ne in Ht' by done. split; [eauto|]. simpl. congruence. }
  intros k' Hw' Hl' Hck Hsame Hhead Hback W1 W2.
  assert (∀ t, head l = Some t -> ∃ th, threads (q_kern y) !! t = Some th /\ th_wait_list th = Some (waiters_of q (negb s)) /\
    ∃ c, calls !! t = Some c /\ qc_queue c = q /\ qc_pc c = QParked /\ is_send c = negb s) as Hwaiter.
  { intros t E. destruct l as [|t' l']; [done|]. injection E as ->.
    destruct (waiter_spec _ _ _ t (qi_wf _ _ _ Hi) El) as (th & Ht & Hwl & _); [apply elem_of_cons; auto|].
    exists th. split; [done|]. split; [done|]. destruct (qi_wait _ _ _ Hi t th Ht) as [c Hc]; [congruence|].
    exists c. split; [done|]. destruct (qi_call _ _ _ Hi _ _ Hc) as [_ _ (th' & Ht' & Hx)]. assert (th' = th) as -> by congruence.
    destruct Hx as (? & E & _); [congruence|]. rewrite Hwl in E. injection E as E. by apply waiters_of_inj in E as [-> ->]. }
  assert (∀ t c, who = Some (t, c) -> head l ≠ Some t) as Hwho.
  { intros t c E Ehd. destruct (Hm t c E) as (_ & _ & _ & _ & th & Ht & Hn). destruct (Hwaiter t Ehd) as (th' & ? & ? & _). congruence. }
  assert (∀ t th, threads (q_kern y) !! t = Some th -> head l ≠ Some t -> granted k' t = granted (q_kern y) t) as Hgr.
  { intros t th Ht Hne. unfold granted. by rewrite (Hsame t th), Ht. }
  (* who is coming *)
  assert (∀ s', count (coming k' q s') (leaving calls who) =
     count (coming (q_kern y) q s') calls + (if eqb s' (negb s) then match l with [] => 0 | _ => 1 end
                                             else match who with Some _ => -1 | None => 0 end)) as Hcount.
  { intros s'. rewrite (leaving_count y calls q s who _ Hm).
    assert (match who with Some (t, c) => Z.b2z (coming k' q s' t (qc_set_pc c (QFreePool MINI_OK))) - Z.b2z (coming k' q s' t c) | None => 0 end
       = if eqb s' (negb s) then 0 else match who with Some _ => -1 | None => 0 end) as ->.
    { destruct who as [[t c]|]; [|by destruct (eqb _ _)]. destruct (Hm t c eq_refl) as (_ & E1 & E2 & E3 & _).
      unfold coming. simpl. rewrite andb_false_r, E2, E1, Z.eqb_refl, andb_true_r, E3. by destruct s, s'. }
    assert (count (coming k' q s') calls = count (coming (q_kern y) q s') calls +
              if eqb s' (negb s) then match l with [] => 0 | _ => 1 end else 0) as ->; [|destruct (eqb _ _); lia].
    assert (∀ t c, calls !! t = Some c -> head l ≠ Some t -> coming (q_kern y) q s' t c = coming k' q s' t c) as Hco.
    { intros t c Hc Hne. destruct (qi_call _ _ _ Hi _ _ Hc) as [_ _ (th & Ht & _)]. unfold coming. by rewrite (Hgr t th). }
    destruct l as [|t l'].
    { rewrite (count_ext _ (coming (q_kern y) q s') _ calls); [destruct (eqb _ _); lia|]. intros t c.
      split; intros [Hc E]; (split; [done|]); [rewrite Hco|rewrite <- Hco]; done. }
    destruct (Hwaiter t eq_refl) as (th & Ht & Hwl & c & Hc & E1 & E2 & E3).
    rewrite (count_change (coming (q_kern y) q s') _ _ t c Hc).
    2:{ intros t' c' Hne Hc'. apply Hco; [done|]. simpl. congruence. }
    unfold coming, granted. rewrite E1, E2, E3, Ht, (Hhead t th Ht eq_refl). destruct (woken_done th) as [-> ->].
    rewrite Z.eqb_refl, Hwl. simpl. destruct s, s'; simpl; lia. }
  apply (qinv_change {[q]} y calls log); try done.
  - intros q' Hn. rewrite not_elem_of_singleton in Hn. simpl. rewrite lookup_insert_ne by done. auto.
  - intros q' s' Hn. rewrite not_elem_of_singleton in Hn. simpl. rewrite W2; [done|]. by intros [? _]%waiters_of_inj.
  - intros t c Hn. rewrite not_elem_of_singleton in Hn. destruct who as [[t' c']|]; [|done]. simpl.
    destruct (Hm t' c' eq_refl) as (? & ? & _). apply (calls_other _ _ c' _ q); done.
  - intros t c th Hc Hn Ht. rewrite not_elem_of_singleton in Hn. exists th. split; [|by apply kept_same]. apply Hsame; [done|].
    intros E. destruct (Hwaiter t E) as (_ & _ & _ & c' & ? & ? & _). congruence.
  - intros q' qu0 ->%elem_of_singleton. simpl. rewrite lookup_insert_eq. intros [= <-]. split; [done| |done|].
    + rewrite Eo. destruct Q2 as [O1 O2 O3]. split; [done| |done]. rewrite (leaving_count y calls q s who _ Hm).
      destruct who as [[t c]|]; [|lia]. unfold inside at 2 3. simpl. lia.
    + intros s'. destruct (Q4 s') as (ls & Els & Hls). destruct (decide (s' = negb s)) as [->|Hns].
      * exists (tail l). split; [done|]. rewrite Eo. assert (ls = l) as -> by congruence.
        destruct l as [|t l']; [by left|]. right. destruct Hls as [|[_ Hls]]; [done|]. split; [done|].
        rewrite Hcount, eqb_reflx. lia.
      * exists ls. split; [rewrite W2; [done|]; intros [_ E]%waiters_of_inj; done|]. rewrite Eo.
        destruct Hls as [|[_ Hls]]; [auto|]. right. split; [done|]. rewrite Hcount.
        assert (s' = s) as -> by (by destruct s, s'). rewrite (proj2 (eqb_false_iff s (negb s))) by (by destruct s).
        destruct who; lia.
  - intros t d Hd' _. apply (call_ok_record (qs_set_kern y k') _ _ _ qu); [done|done|].
    assert (∀ c, calls !! t = Some c -> call_ok (qs_set_kern y k') t c) as Hold.
    { intros c Hc. destruct (qi_call _ _ _ Hi _ _ Hc) as [C1 C2 (th & Ht & Hx)]. split; [done..|].
      destruct (decide (head l = Some t)) as [Eh|].
      - exists (woken th true). split; [by apply Hhead|]. by destruct (woken_done th) as [-> _].
      - exists th. split; [by apply Hsame|]. intros Hn. destruct (Hx Hn) as (? & ? & ?). split; [done|]. split; [done|].
        unfold call_timed. cbn [q_kern qs_set_kern]. rewrite (due_same (q_kern y) k' th th); done. }
    destruct (leaving_lookup _ _ _ _ _ _ _ Hm Hd') as [Hc|(c & E & ->)]; [auto|].
    destruct (Hm t c E) as (Hc & _ & _ & _ & th & Ht & Hn). apply (call_ok_pc _ _ _ _ th); [|done|auto]. apply Hsame; [done|].
    by apply (Hwho t c).
  - intros t th Ht Hn. simpl in Ht. destruct (Hback t th Ht Hn) as [[th0 Ht0] Hne]. rewrite (Hsame t th0) in Ht by done.
    injection Ht as ->. destruct (qi_wait _ _ _ Hi t th Ht0 Hn) as [c Hc]. destruct who as [[t' c']|]; simpl; [|eauto].
    destruct (decide (t = t')) as [->|]; [rewrite lookup_insert_eq|rewrite lookup_insert_ne by done]; eauto.
Qed.

(** ** The turns of a call *)

Lemma coming_leaves k q s t c pc :
  match pc with QLoop | QParked => False | _ => True end -> coming k q s t (qc_set_pc c pc) = false.
Proof. unfold coming. simpl. destruct pc; try done; by rewrite andb_false_r. Qed.
Lemma coming_other k q s t c : is_send c ≠ s -> coming k q s t c = false.
Proof.
  intros H. unfold coming. destruct (eqb_spec (is_send c) s); [done|]. by rewrite andb_false_r.
Qed.

(** A call that leaves when there is nothing for its side, or the queue is deleted. *)
Lemma leave_ok y calls log t c th qu err :
  qinv y calls log -> calls !! t = Some c -> qc_pc c = QLoop -> threads (q_kern y) !! t = Some th -> th_wait_list th = None ->
  queues y !! qc_queue c = Some qu -> avail qu (is_send c) = 0 \/ mini_os_obj_is_destroyed (q_obj qu) = true ->
  qinv y (<[t := qc_set_pc c (QFreePool err)]> calls) log.
Proof.
  intros Hi Hc Hp Ht Hn Hq Ha. pose proof (qi_queue _ _ _ Hi _ _ Hq) as [Q1 _ Q5 Q6].
  apply (qinv_pc y calls log t c th qu); try done.
  - intros E. unfold pool_ok in Q5. rewrite E in Q5. destruct Q5 as [_ Q5]. destruct (Q5 t c Hc eq_refl) as [e E']. congruence.
  - intros s l El Hl Hle. destruct (Q6 s) as (l' & El' & Hx). assert (l' = l) as -> by congruence.
    destruct Hx as [|[Hd _]]; [done|]. destruct Ha as [Ha|]; [|congruence].
    destruct (decide (s = is_send c)) as [->|Hs]; [rewrite Ha; apply calls_count_nonneg|].
    rewrite (count_update _ _ _ c), coming_leaves, coming_other by done. simpl. lia.
Qed.

Lemma queue_park_call y calls log t c qu k' thp :
  qinv y calls log -> calls !! t = Some c -> qc_pc c = QLoop -> queues y !! qc_queue c = Some qu ->
  mini_os_obj_is_destroyed (q_obj qu) = false -> avail qu (is_send c) = 0 ->
  wf k' -> current_level k' -> frame (q_kern y) k' t thp -> th_wait_list thp = Some (waiters_of (qc_queue c) (is_send c)) ->
  due k' thp = due_at (qc_timeout c) (qc_deadline c) ->
  (∀ l, wait_lists (q_kern y) !! waiters_of (qc_queue c) (is_send c) = Some l ->
     wait_lists k' = <[waiters_of (qc_queue c) (is_send c) := l ++ [t]]> (wait_lists (q_kern y))) ->
  qinv (qs_set_kern y k') (<[t := qc_set_pc c QParked]> calls) log.
Proof.
  intros Hi Hc Hp Hq Hd Ha Hw' Hl' Hf Hwl Htimed W. set (q := qc_queue c) in *. set (s := is_send c) in *.
  pose proof (qi_queue _ _ _ Hi _ _ Hq) as [Q1 Q2 Q5 Q6]. destruct (Q6 s) as (l & El & _). specialize (W _ El).
  pose proof Hf as [G1 G2 G3 G4 G5 G6].
  assert (∀ t', t' ≠ t -> threads k' !! t' = threads (q_kern y) !! t') as Hsame by (intros t' ?; by rewrite G1, lookup_insert_ne).
  assert (threads k' !! t = Some thp) as Ht' by by rewrite G1, lookup_insert_eq.
  assert (∀ s', count (coming (q_kern y) q s') calls - (if eqb s' s then 1 else 0) <= count (coming k' q s') (<[t := qc_set_pc c QParked]> calls)) as Hcount.
  { intros s'. rewrite (count_update _ _ _ c) by done.
    rewrite (count_change (coming (q_kern y) q s') (coming k' q s') calls t c Hc).
    - assert (coming k' q s' t (qc_set_pc c QParked) = false) as ->.
      { unfold coming, granted. simpl. by rewrite Ht', Hwl, bool_decide_false, andb_false_r. }
      assert (coming k' q s' t c = coming (q_kern y) q s' t c) as -> by (unfold coming; by rewrite Hp).
      destruct (eqb_spec s' s); [destruct (coming (q_kern y) q s' t c); simpl; lia|].
      rewrite coming_other by (subst s; congruence). simpl. lia.
    - intros t0 c0 Hne _. unfold coming, granted. by rewrite (Hsame t0 Hne). }
  apply (qinv_change {[q]} y calls log); try done.
  - intros q' s' _. simpl. rewrite W. destruct (decide (waiters_of q' s' = waiters_of q s)) as [->|];
      [rewrite lookup_insert_eq; eauto|by rewrite lookup_insert_ne].
  - intros t0 d Hdn. rewrite not_elem_of_singleton in Hdn. by apply (calls_other _ _ c _ q).
  - intros t0 d u Hd0 Hdn Hu. rewrite not_elem_of_singleton in Hdn. exists u. split; [|by apply kept_same].
    simpl. rewrite Hsame; [done|]. intros ->. assert (d = c) as -> by congruence. by apply Hdn.
  - intros q' qu0 ->%elem_of_singleton Hq0. simpl in Hq0. assert (qu0 = qu) as -> by congruence. split; [done| | |].
    + destruct Q2 as [O1 O2 O3]. split; [done| |done]. rewrite (count_update _ _ _ c) by done. unfold inside at 2 3. simpl. lia.
    + unfold pool_ok in *. destruct (q_pool qu); [done|]. destruct Q5. congruence.
    + intros s'. destruct (Q6 s') as (ls & Els & Hls). simpl. rewrite W.
      destruct (decide (s' = s)) as [->|Hs].
      * rewrite lookup_insert_eq. eexists. split; [done|]. right. split; [done|]. rewrite Ha. apply calls_count_nonneg.
      * rewrite lookup_insert_ne by (intros [_ ?]%waiters_of_inj; done). exists ls. split; [done|].
        destruct Hls as [|[_ Hls]]; [auto|]. right. split; [done|]. specialize (Hcount s').
        destruct (eqb_spec s' s); [done|]. lia.
  - intros t0 d Hd0 _. destruct (decide (t0 = t)) as [->|Hne].
    + rewrite lookup_insert_eq in Hd0. injection Hd0 as <-. destruct (qi_call _ _ _ Hi _ _ Hc) as [C1 C2 _]. split; [done..|].
      exists thp. split; [done|]. intros _. by repeat split.
    + rewrite lookup_insert_ne in Hd0 by done. destruct (qi_call _ _ _ Hi _ _ Hd0) as [C1 C2 (u & Hu & Hx)]. split; [done..|].
      exists u. simpl. rewrite Hsame by done. split; [done|]. intros Hn. destruct (Hx Hn) as (? & ? & ?). split; [done|]. split; [done|].
      unfold call_timed. rewrite (due_same (q_kern y) k' u u); done.
  - intros t0 u Hu Hn. simpl in Hu. destruct (decide (t0 = t)) as [->|Hne]; [rewrite lookup_insert_eq; eauto|].
    rewrite Hsame in Hu by done. rewrite lookup_insert_ne by done. by apply (qi_wait _ _ _ Hi t0 u).
Qed.

Lemma block_ok y calls log t c th qu :
  qinv y calls log -> calls !! t = Some c -> qc_pc c = QLoop -> queues y !! qc_queue c = Some qu ->
  mini_os_obj_is_destroyed (q_obj qu) = false -> avail qu (is_send c) = 0 ->
  current_thread (q_kern y) = Some t -> may_call (q_kern y) -> threads (q_kern y) !! t = Some th ->
  ∃ r y', queue_block y (qc_queue c) (is_send c) (qc_timeout c) (qc_deadline c) = Some (r, y') /\
    qinv y' (<[t := qc_set_pc c (pc_after r)]> calls) log /\ r ≠ Leave MINI_OK.
Proof.
  intros Hi Hc Hp Hq Hd Ha Hcur Hm Hth. pose proof (running_free _ _ _ (qi_wf _ _ _ Hi) Hm Hcur Hth) as Hfree.
  destruct (qi_call _ _ _ Hi _ _ Hc) as [_ [Htm Hdl] _]. unfold queue_block.
  destruct (qo_waiters _ _ _ _ _ (qi_queue _ _ _ Hi _ _ Hq) (is_send c)) as (l & El & _).
  destruct (block_on_ok (q_kern y) t th (waiters_of (qc_queue c) (is_send c)) 0 (qc_timeout c) (qc_deadline c) (qc_queue c) l)
    as [(err & -> & Herr)|(k' & th' & -> & Hw' & Hl' & Hf & Hwl & _ & Hdue & W)]; try done; try apply Hi; cbn [mbind option_bind].
  - eexists _, _. split; [done|]. split; [|congruence]. destruct y. by apply (leave_ok _ calls log t c th qu); auto.
  - eexists _, _. split; [done|]. split; [|done]. apply (queue_park_call y calls log t c qu k' th'); try done. intros l' El'. congruence.
Qed.

Lemma fifo_put log q msg l : fifo log q = Some l -> fifo (Put q msg :: log) q = Some (l ++ [msg]).
Proof. simpl. rewrite Z.eqb_refl. by intros ->. Qed.
Lemma fifo_got log q msg l : fifo log q = Some (msg :: l) -> fifo (Got q msg :: log) q = Some l.
Proof. simpl. rewrite Z.eqb_refl. intros ->. simpl. by rewrite bool_decide_true. Qed.
Lemma fifo_other log q q' msg : q' ≠ q -> fifo (Put q msg :: log) q' = fifo log q' /\ fifo (Got q msg :: log) q' = fifo log q'.
Proof. intros H. simpl. destruct (Z.eqb_spec q q'); [congruence|done]. Qed.

(** The two copies with the move. *)
Lemma put_moved y calls log q qu who msg yields :
  qinv y calls log -> queues y !! q = Some qu -> mini_os_obj_is_destroyed (q_obj qu) = false -> mover y calls q true who ->
  Z.of_nat (length msg) = q_msg_size qu -> q_depth qu < q_max_depth qu ->
  ∃ qu' y', queue_put qu msg = Some qu' /\ queue_moved y q qu' true yields = Some y' /\
    qinv y' (leaving calls who) (Put q msg :: log).
Proof.
  intros Hi Hq Hd Hm Hmsg Hdep. destruct (qi_queue _ _ _ Hi _ _ Hq) as [Q1 _ Q5 _]. unfold pool_ok in Q5.
  destruct (q_pool qu) as [pool|] eqn:Ep; [|destruct Q5; congruence]. destruct Q5 as [Hlen Hfifo].
  destruct (put_spec qu pool msg Q1 Ep Hlen Hmsg Hdep) as (qu' & pool' & E & Hsh & Ep' & El & Eo & Es & Ex & Ed & Ec).
  destruct (moved_ok y calls log q qu qu' true who (Put q msg :: log) yields) as (y' & Ey & Hi'); try done.
  - intros calls'. unfold pool_ok. rewrite Ep', Ex, Es, El. split; [done|]. rewrite Ec. by apply fifo_put.
  - simpl. lia.
  - intros q' Hn. by apply (fifo_other log q q' msg).
  - eauto.
Qed.
Lemma get_moved y calls log q qu who yields :
  qinv y calls log -> queues y !! q = Some qu -> mini_os_obj_is_destroyed (q_obj qu) = false -> mover y calls q false who ->
  0 < q_depth qu ->
  ∃ msg qu' y', queue_get qu = Some (msg, qu') /\ queue_moved y q qu' false yields = Some y' /\
    qinv y' (leaving calls who) (Got q msg :: log).
Proof.
  intros Hi Hq Hd Hm Hdep. destruct (qi_queue _ _ _ Hi _ _ Hq) as [Q1 _ Q5 _]. unfold pool_ok in Q5.
  destruct (q_pool qu) as [pool|] eqn:Ep; [|destruct Q5; congruence]. destruct Q5 as [Hlen Hfifo].
  destruct (get_spec qu pool Q1 Ep Hlen Hdep) as (msg & qu' & E & Hsh & Ep' & Eo & Es & Ex & Ed & _ & Ec).
  destruct (moved_ok y calls log q qu qu' false who (Got q msg :: log) yields) as (y' & Ey & Hi'); try done.
  - intros calls'. unfold pool_ok. rewrite Ep', Ex, Es. split; [done|]. apply fifo_got. by rewrite Hfifo, Ec.
  - simpl. lia.
  - intros q' Hn. by apply (fifo_other log q q' msg).
  - eauto 10.
Qed.

Definition qok (x : queue_machine) : Prop := qinv (qm_sys x) (qm_calls x) (qm_log x).

Lemma loop_ok x t c :
  qok x -> current_thread (q_kern (qm_sys x)) = Some t -> may_call (q_kern (qm_sys x)) -> qm_calls x !! t = Some c -> qc_pc c = QLoop ->
  ∃ x', queue_next x t = Some x' /\ qok x'.
Proof.
  destruct x as [y calls log]. unfold qok. simpl. intros Hi Hcur Hm Hc Hp.
  unfold queue_next. simpl. rewrite Hc. cbn [mbind option_bind]. rewrite Hp.
  destruct (qi_call _ _ _ Hi _ _ Hc) as [(qu & Hq & Hmsg) _ (th & Hth & _)].
  pose proof (running_free _ _ _ (qi_wf _ _ _ Hi) Hm Hcur Hth) as Hfree.
  destruct (qi_queue _ _ _ Hi _ _ Hq) as [Q1 _ _ _].
  destruct (qc_msg c) as [msg|] eqn:Em.
  - assert (is_send c = true) as Hs by (unfold is_send; by rewrite Em).
    unfold queue_send_turn. rewrite Hq. cbn [mbind option_bind].
    destruct (mini_os_obj_is_destroyed (q_obj qu)) eqn:Ed.
    { eexists. split; [done|]. by apply (leave_ok y calls log t c th qu); auto. }
    destruct (Z.ltb_spec (q_depth qu) (q_max_depth qu)).
    + destruct (put_moved y calls log (qc_queue c) qu (Some (t, c)) msg true) as (qu' & y' & -> & Ey & Hi'); try done.
      { intros t' c' [= <- <-]. repeat (split; [done|]). eauto. }
      { by apply Hmsg. }
      cbn [mbind option_bind]. rewrite Ey. cbn [mbind option_bind]. eexists. split; [done|]. exact Hi'.
    + destruct (block_ok y calls log t c th qu) as (r & y' & E & Hi' & Hr); try done.
      { rewrite Hs. simpl. destruct Q1. lia. }
      rewrite Hs in E. rewrite E. cbn [mbind option_bind]. eexists. split; [done|]. simpl.
      destruct r as [err| |]; try exact Hi'. destruct (Z.eqb_spec err MINI_OK) as [->|]; [done|exact Hi'].
  - assert (is_send c = false) as Hs by (unfold is_send; by rewrite Em).
    unfold queue_receive_turn. rewrite Hq. cbn [mbind option_bind].
    destruct (mini_os_obj_is_destroyed (q_obj qu)) eqn:Ed.
    { eexists. split; [done|]. by apply (leave_ok y calls log t c th qu); auto. }
    destruct (Z.gtb_spec (q_depth qu) 0).
    + destruct (get_moved y calls log (qc_queue c) qu (Some (t, c)) true) as (msg & qu' & y' & -> & Ey & Hi'); try done.
      { intros t' c' [= <- <-]. repeat (split; [done|]). eauto. }
      cbn [mbind option_bind]. rewrite Ey. cbn [mbind option_bind]. eexists. split; [done|]. exact Hi'.
    + destruct (block_ok y calls log t c th qu) as (r & y' & E & Hi' & Hr); try done.
      { rewrite Hs. simpl. destruct Q1. lia. }
      rewrite Hs in E. rewrite E. cbn [mbind option_bind]. eexists. split; [done|]. exact Hi'.
Qed.

Lemma count_pc_same y calls t c pc q s :
  calls !! t = Some c -> coming (q_kern y) q s t (qc_set_pc c pc) = coming (q_kern y) q s t c ->
  count (coming (q_kern y) q s) (<[t := qc_set_pc c pc]> calls) = count (coming (q_kern y) q s) calls.
Proof. intros Hc E. rewrite (count_update _ _ _ c), E by done. lia. Qed.

Lemma queue_park_end_ok x t c :
  qok x -> current_thread (q_kern (qm_sys x)) = Some t -> may_call (q_kern (qm_sys x)) -> qm_calls x !! t = Some c -> qc_pc c = QParked ->
  ∃ x', queue_next x t = Some x' /\ qok x'.
Proof.
  destruct x as [y calls log]. unfold qok. simpl. intros Hi Hcur Hm Hc Hp.
  unfold queue_next. simpl. rewrite Hc. cbn [mbind option_bind]. rewrite Hp.
  destruct (qi_call _ _ _ Hi _ _ Hc) as [(qu & Hq & _) _ (th & Hth & _)].
  pose proof (running_free _ _ _ (qi_wf _ _ _ Hi) Hm Hcur Hth) as Hfree.
  unfold queue_park_end, park_end, sync_wait_resume. rewrite Hth. cbn [mbind option_bind].
  set (th' := mini_os_sync_wait_ref_pop (th_set_wait_status th true)).
  set (r := if negb _ then _ else _). set (y' := qs_set_kern _ _).
  assert (∃ x', Some (mk_qmachine y' (<[t:=qc_set_pc c (pc_after r)]> calls) log) = Some x' /\ qinv (qm_sys x') (qm_calls x') (qm_log x')) as H;
    [|destruct (qc_msg c); exact H].
  eexists. split; [done|]. cbn [qm_sys qm_calls qm_log].
  assert (r = if th_wait_status th then Again else Leave MINI_ERR_TIMEOUT) as -> by (subst r; by destruct (th_wait_status th)).
  apply (qinv_thread y _ log t (qc_set_pc c (pc_after (if th_wait_status th then Again else Leave MINI_ERR_TIMEOUT))) th); try done.
  - apply (qinv_pc y calls log t c th qu); try done.
    + intros E. destruct (qi_queue _ _ _ Hi _ _ Hq) as [_ _ Q5 _]. unfold pool_ok in Q5. rewrite E in Q5.
      destruct Q5 as [_ Q5]. destruct (Q5 t c Hc eq_refl) as [e E']. congruence.
    + intros s l _ _ Ha. rewrite count_pc_same; [done..|]. unfold coming. simpl. rewrite Hp. unfold granted. rewrite Hth, Hfree.
      by destruct (th_wait_status th).
  - apply lookup_insert_eq.
  - by destruct (th_wait_status th).
  - eapply wf_set_thread; [apply Hi|exact Hth|done|done|]. destruct (wf_threads _ (qi_wf _ _ _ Hi) _ _ Hth). by split.
  - eapply level_frame; [apply (qi_level _ _ _ Hi)|apply frame_set|by left].
Qed.

Lemma pool_step_ok x t c err :
  qok x -> current_thread (q_kern (qm_sys x)) = Some t -> may_call (q_kern (qm_sys x)) -> qm_calls x !! t = Some c -> qc_pc c = QFreePool err ->
  ∃ x', queue_next x t = Some x' /\ qok x'.
Proof.
  destruct x as [y calls log]. unfold qok. simpl. intros Hi Hcur Hm Hc Hp.
  unfold queue_next. simpl. rewrite Hc. cbn [mbind option_bind]. rewrite Hp.
  destruct (qi_call _ _ _ Hi _ _ Hc) as [(qu & Hq & _) _ (th & Hth & _)].
  pose proof (running_free _ _ _ (qi_wf _ _ _ Hi) Hm Hcur Hth) as Hfree.
  pose proof (qi_queue _ _ _ Hi _ _ Hq) as [Q1 [O1 O2 O3] Q5 Q6].
  unfold queue_release_pool. rewrite Hq. cbn [mbind option_bind]. match goal with |- context [if ?b then ?y1 else y] => set (y' := if b then y1 else y) end.
  assert (∃ x', Some (mk_qmachine y' (<[t:=qc_set_pc c (QRelease err)]> calls) log) = Some x' /\ qinv (qm_sys x') (qm_calls x') (qm_log x')) as H;
    [|destruct (qc_msg c); exact H].
  eexists. split; [done|]. cbn [qm_sys qm_calls qm_log].
  assert (qinv y (<[t:=qc_set_pc c (QRelease err)]> calls) log) as Hi1.
  { apply (qinv_pc y calls log t c th qu); try done; [eauto|]. intros s l _ _ Ha. rewrite count_pc_same; [done..|].
    unfold coming. simpl. by rewrite Hp. }
  subst y'. destruct (_ && _) eqn:Eb; [|done]. bool_to_prop. rename select (mini_os_obj_is_destroyed _ = true) into Ed.
  unfold mini_os_obj_user_count in *. rewrite Ed in O2.
  pose proof (qi_queue _ _ _ Hi1 _ _ Hq) as [_ R2 _ R6].
  apply (qinv_record y (<[t:=qc_set_pc c (QRelease err)]> calls) log); try done.
  - split; [by apply shape_pool|done| |by apply (waiters_same _ _ _ qu)]. unfold pool_ok. simpl. split; [done|].
    intros t' d Hd Eq. destruct (decide (t' = t)) as [->|Hne]; [rewrite lookup_insert_eq in Hd; injection Hd as <-; by exists err|].
    rewrite lookup_insert_ne in Hd by done. destruct Hne. apply (count_one (inside (qc_queue c)) calls t c t' d); [lia|done| |done|];
      unfold inside; by rewrite ?Eq, Z.eqb_refl.
  - intros t' d Hd _. apply (call_ok_record _ _ _ _ qu); [done..|]. by apply (qi_call _ _ _ Hi1).
Qed.

(** The last reference to a deleted queue is gone. *)
Lemma queue_storage_ok y calls log q :
  qinv y calls log -> (∀ t c, calls !! t = Some c -> qc_queue c ≠ q) ->
  (∃ qu, queues y !! q = Some qu /\ ∀ s, wait_lists (q_kern y) !! waiters_of q s = Some []) ->
  qinv (queue_free_storage y q) calls log.
Proof.
  intros Hi Hno (qu & Hq & Hl). apply (qinv_change {[q]} y calls log); try done.
  - apply wf_wait_list_drop; [apply wf_wait_list_drop; [apply Hi|apply Hl]|]. simpl. rewrite lookup_delete_ne; [apply Hl|].
    by intros [_ ?]%waiters_of_inj.
  - exact (qi_level _ _ _ Hi).
  - intros q' Hn. rewrite not_elem_of_singleton in Hn. simpl. by rewrite lookup_delete_ne.
  - intros q' s Hn. rewrite not_elem_of_singleton in Hn. simpl. rewrite !lookup_delete_ne; [done|by intros [? _]%waiters_of_inj..].
  - intros t c th Hc _ Ht. exists th. split; [done|]. by apply kept_same.
  - intros q' qu' ->%elem_of_singleton. simpl. by rewrite lookup_delete_eq.
  - intros t c Hc E%elem_of_singleton. by destruct (Hno t c).
  - intros t th Ht Hn. by apply (qi_wait _ _ _ Hi t th).
Qed.

Lemma empty_waiters y calls log q qu s :
  qinv y calls log -> queues y !! q = Some qu -> mini_os_obj_is_destroyed (q_obj qu) = true ->
  wait_lists (q_kern y) !! waiters_of q s = Some [].
Proof.
  intros Hi Hq Hd. destruct (qi_queue _ _ _ Hi _ _ Hq) as [_ _ _ Q6]. destruct (Q6 s) as (l & El & [->|[? _]]); [done|congruence].
Qed.

Lemma release_ok x t c err :
  qok x -> current_thread (q_kern (qm_sys x)) = Some t -> may_call (q_kern (qm_sys x)) -> qm_calls x !! t = Some c -> qc_pc c = QRelease err ->
  ∃ x', queue_next x t = Some x' /\ qok x'.
Proof.
  destruct x as [y calls log]. unfold qok. simpl. intros Hi Hcur Hm Hc Hp.
  unfold queue_next. simpl. rewrite Hc. cbn [mbind option_bind]. rewrite Hp.
  destruct (qi_call _ _ _ Hi _ _ Hc) as [(qu & Hq & _) _ (th & Hth & _)].
  pose proof (running_free _ _ _ (qi_wf _ _ _ Hi) Hm Hcur Hth) as Hfree.
  pose proof (qi_queue _ _ _ Hi _ _ Hq) as [Q1 [O1 O2 O3] Q5 Q6]. set (q := qc_queue c) in *.
  pose proof (count_delete (inside q) calls t c Hc) as Hcd. pose proof (calls_count_nonneg (inside q) (delete t calls)) as Hnn.
  unfold inside at 3 in Hcd. fold q in Hcd. rewrite Z.eqb_refl in Hcd. simpl in Hcd.
  unfold queue_release_obj. rewrite Hq. cbn [mbind option_bind]. unfold mini_os_obj_release.
  assert (0 < obj_ref (q_obj qu)) as Hr by (destruct (mini_os_obj_is_destroyed _); lia).
  destruct (Z.gtb_spec (obj_ref (q_obj qu)) 0); [|lia]. unfold u8. rewrite Z.mod_small by lia.
  set (o := mk_obj _ _). assert (mini_os_obj_is_destroyed o = mini_os_obj_is_destroyed (q_obj qu)) as Ed by done.
  change (obj_ref o) with (obj_ref (q_obj qu) - 1). rewrite Ed. cbn [mbind option_bind]. match goal with |- context [if ?b then queue_free_storage y q else ?y1] => set (y' := if b then queue_free_storage y q else y1) end.
  assert (∃ x', Some (mk_qmachine y' (delete t calls) (Ended t err :: log)) = Some x' /\ qinv (qm_sys x') (qm_calls x') (qm_log x')) as H0;
    [|destruct (qc_msg c); exact H0].
  eexists. split; [done|]. cbn [qm_sys qm_calls qm_log].
  assert (qinv (qs_set_queue y q (q_set_obj qu o)) (delete t calls) (Ended t err :: log)) as Hi1.
  { apply (qinv_record y calls log q); try done.
    - intros t' d Hd. destruct (decide (t' = t)) as [->|]; [|by rewrite lookup_delete_ne].
      rewrite lookup_delete_eq. split; [done|]. intros E. assert (d = c) as -> by congruence. done.
    - intros t' th' Ht' Hn [d Hd]. rewrite lookup_delete_ne; [eauto|]. intros ->. congruence.
    - split; [by apply shape_obj| | |].
      + split; cbn [q_set_obj q_obj]; [done| |simpl; lia]. rewrite Ed, Hcd. simpl. lia.
      + unfold pool_ok in *. simpl. destruct (q_pool qu); [done|]. rewrite Ed. destruct Q5 as [? Q5]. split; [done|].
        intros t' d [_ Hd]%lookup_delete_Some. by apply (Q5 t').
      + apply (waiters_more _ calls); [|by apply (waiters_same _ _ _ qu)]. intros s l _ _ Ha. rewrite (count_delete _ _ _ c) by done.
        unfold coming at 2. rewrite Hp, andb_false_r. simpl. lia.
    - intros t' d [_ Hd]%lookup_delete_Some _. apply (call_ok_record _ _ _ _ qu); [done..|]. by apply (qi_call _ _ _ Hi). }
  subst y'. destruct (_ && _) eqn:Eb; [|done]. bool_to_prop. rename select (mini_os_obj_is_destroyed _ = true) into Ed'.
  assert (queue_free_storage y q = queue_free_storage (qs_set_queue y q (q_set_obj qu o)) q) as ->.
  { unfold queue_free_storage. simpl. by rewrite delete_insert_eq. }
  apply queue_storage_ok; [done| |].
  - intros t' d Hd Eq. rewrite Ed' in O2. assert (inside q t' d = false) as E.
    { apply (calls_count_zero (inside q) (delete t calls)); [lia|done]. }
    unfold inside in E. by rewrite Eq, Z.eqb_refl in E.
  - exists (q_set_obj qu o). split; [apply lookup_insert_eq|]. intros s. simpl. by apply (empty_waiters y calls log q qu).
Qed.

Lemma queue_next_step_ok x :
  qok x -> may_call (q_kern (qm_sys x)) -> match t ← current_thread (q_kern (qm_sys x)); qm_calls x !! t with Some _ => True | None => False end ->
  ∃ x' : queue_machine, (t ← current_thread (q_kern (qm_sys x)); queue_next x t) = Some x' /\ qok x'.
Proof.
  intros Hi Hm Hc. destruct (current_thread (q_kern (qm_sys x))) as [t|] eqn:Et; [|done]. cbn [mbind option_bind] in *.
  destruct (qm_calls x !! t) as [c|] eqn:Ec; [|done]. destruct (qc_pc c) eqn:Ep.
  - by eapply loop_ok.
  - by eapply queue_park_end_ok.
  - by eapply pool_step_ok.
  - by eapply release_ok.
Qed.

(** ** The other operations *)

Lemma queue_kernel_part_ok ts lt x op :
  qok x -> queue_op_ok x (QKernel op) -> ∃ x', queue_step ts lt x (QKernel op) = Some x' /\ qok x'.
Proof.
  intros Hi (Hp & Hok & _). unfold queue_step.
  destruct (kernel_step_ok ts lt _ op (qi_wf _ _ _ Hi) (qi_level _ _ _ Hi) Hok) as (k' & E & Hw & Hl).
  destruct (plain_step ts lt _ op (qi_wf _ _ _ Hi) (λ _ _, qi_level _ _ _ Hi) Hp Hok) as (k1 & E1 & _ & Hg & _).
  assert (k1 = k') as -> by congruence. rewrite E. cbn [mbind option_bind]. eexists. split; [done|].
  apply qinv_kernel; try done. apply (step_due ts lt _ op _ (qi_wf _ _ _ Hi) (qi_level _ _ _ Hi) Hok); [|done].
  intros wl. by destruct op, wl.
Qed.

Lemma queue_create_ok x q msg_size depth pool static :
  qok x -> queue_op_ok x (QCreate q msg_size depth pool static) ->
  ∃ x', queue_step false false x (QCreate q msg_size depth pool static) = Some x' /\ qok x'.
Proof.
  destruct x as [y calls log]. unfold qok, queue_step. cbn [qm_sys qm_calls qm_log]. intros Hi (Hq & Hw1 & Hw2 & Hs & Hd & Hpool).
  cbn [qm_sys] in *.
  assert (∃ r y', (if static then mini_os_queue_create_static y msg_size depth (Some q) (Some pool) (Z.of_nat (length pool))
                   else mini_os_queue_create y (Some q) (Some pool) msg_size depth) = (r, y') /\
    (r = None /\ y' = y \/ r = Some q /\ y' = mini_os_queue_init y q msg_size depth pool (negb static) /\
       0 < msg_size /\ 0 < depth /\ depth * msg_size <= Z.of_nat (length pool))) as (r & y' & -> & Hy).
  { unfold mini_os_queue_create_static, mini_os_queue_create, is_u16, is_u8 in *.
    destruct (Z.eqb_spec msg_size 0), (Z.eqb_spec depth 0), (Z.ltb_spec (Z.of_nat (length pool)) (depth * msg_size));
      destruct static; simpl; eexists _, _; (split; [reflexivity|]); auto; right; repeat (split; [done || lia|]); try lia.
    all: rewrite Hpool by done; lia. }
  destruct Hy as [[-> ->]|(-> & -> & Hs0 & Hd0 & Hlen)]; [rewrite bool_decide_true by done; eexists; split; [done|exact Hi]|].
  rewrite bool_decide_false by done. eexists. split; [done|]. cbn [qm_sys qm_calls qm_log].
  assert (∀ t c, calls !! t = Some c -> qc_queue c ≠ q) as Hno.
  { intros t c Hc E. destruct (qi_call _ _ _ Hi _ _ Hc) as [(qu & ? & _) _ _]. congruence. }
  assert (∀ f, (∀ t c, f t c = true -> qc_queue c = q) -> count f calls = 0) as Hzero.
  { intros f Hf. unfold count. assert (filter (λ p : Z * queue_call, f p.1 p.2 = true) calls = ∅) as ->; [|by rewrite map_size_empty].
    apply map_empty. intros t. apply map_lookup_filter_None. right. intros c Hc E. by apply (Hno t c), (Hf t c). }
  assert (∀ s, wait_lists (wait_list_init (wait_list_init (q_kern y) (waiters_of q true)) (waiters_of q false)) !! waiters_of q s = Some []) as Hnew.
  { intros []; simpl; [rewrite lookup_insert_ne by (intros [_ ?]%waiters_of_inj; done)|]; by rewrite lookup_insert_eq. }
  apply (qinv_change {[q]} y calls log); try done.
  - apply wf_wait_list_init; [by apply wf_wait_list_init; [apply Hi|]|]. simpl. rewrite lookup_insert_ne; [done|].
    by intros [_ ?]%waiters_of_inj.
  - exact (qi_level _ _ _ Hi).
  - intros q' Hn. rewrite not_elem_of_singleton in Hn. simpl. rewrite lookup_insert_ne by done. split; [done|].
    by destruct (Z.eqb_spec q q'); [congruence|].
  - intros q' s Hn. rewrite not_elem_of_singleton in Hn. simpl. rewrite !lookup_insert_ne; [done|by intros [? _]%waiters_of_inj..].
  - intros t c th _ _ Ht. exists th. split; [done|]. by apply kept_same.
  - intros q' qu ->%elem_of_singleton. simpl. rewrite lookup_insert_eq. intros [= <-]. unfold is_u16, is_u8 in *. split.
    + split; simpl; try lia. by rewrite Z.mod_0_l by lia.
    + split; simpl; [by destruct static| |lia]. rewrite Hzero; [by destruct static|]. intros t c. apply Z.eqb_eq.
    + split; [simpl; lia|]. simpl. by rewrite Z.eqb_refl.
    + intros s. exists []. split; [|by left]. apply Hnew.
  - intros t c Hc E%elem_of_singleton. by destruct (Hno t c).
  - intros t th Ht Hn. by apply (qi_wait _ _ _ Hi t th).
Qed.

Lemma queue_enable_kill_ok x q :
  qok x -> queue_op_ok x (QEnableKill q) -> ∃ x', queue_step false false x (QEnableKill q) = Some x' /\ qok x'.
Proof.
  destruct x as [y calls log]. unfold qok. simpl. intros Hi [qu Hq]. unfold mini_os_queue_enable_kill. rewrite Hq. simpl.
  eexists. split; [done|]. destruct (kill_flag (q_obj qu)) as [K1 K2].
  pose proof (qi_queue _ _ _ Hi _ _ Hq) as [Q1 [O1 O2 O3] Q5 Q6]. apply (qinv_record y calls log); try done.
  - split; [by apply shape_obj| | |by apply (waiters_same _ _ _ qu)].
    + split; cbn [q_set_obj q_obj]; [by rewrite K2|by rewrite K1|done].
    + unfold pool_ok in *. simpl. by rewrite K1.
  - intros t c Hc _. apply (call_ok_record _ _ _ _ qu); [done..|]. by apply (qi_call _ _ _ Hi).
Qed.

Lemma kill_waiters_ok y calls log q qu :
  qinv y calls log -> queues y !! q = Some qu ->
  ∃ b k', mini_os_queue_kill_waiters (q_kern y) q (q_obj qu) = Some (b, k') /\ wf k' /\ current_level k' /\ same_clock (q_kern y) k' /\
    (∀ q' s, is_Some (wait_lists (q_kern y) !! waiters_of q' s) -> is_Some (wait_lists k' !! waiters_of q' s)) /\
    (∀ s, wait_lists k' !! waiters_of q s = Some []) /\
    ∀ t, threads k' !! t = threads (q_kern y) !! t \/
         ∃ th th', threads (q_kern y) !! t = Some th /\ (∃ s, th_wait_list th = Some (waiters_of q s)) /\
                   threads k' !! t = Some th' /\ th_wait_list th' = None.
Proof.
  intros Hi Hq. pose proof (qi_queue _ _ _ Hi _ _ Hq) as [_ _ _ Q6]. unfold mini_os_queue_kill_waiters, mini_os_queue_kill_list.
  set (d := _ =? _). assert (∀ th, th_wait_list (woken th d) = None) as Hwn by (intros th; unfold woken; by destruct (_ <? _)).
  destruct (wake_all_ok (q_kern y) (waiters_of q true) d (qi_wf _ _ _ Hi) (qi_level _ _ _ Hi)) as (b1 & k1 & -> & W1 & L1 & V1 & N1 & T1).
  { destruct (Q6 true) as (l & -> & _). eauto. }
  cbn [mbind option_bind].
  destruct (wake_all_ok k1 (waiters_of q false) d W1 L1) as (b2 & k2 & -> & W2 & L2 & V2 & N2 & T2).
  { destruct (Q6 false) as (l & El & _). apply elem_of_dom. rewrite (sv_waits _ _ V1). apply elem_of_dom. eauto. }
  cbn [mbind option_bind]. eexists _, k2. split; [done|]. split; [done|]. split; [done|].
  pose proof (transitivity V1 V2) as V. split; [split; apply V|].
  assert (∀ w, is_Some (wait_lists (q_kern y) !! w) -> is_Some (wait_lists k2 !! w)) as Hdom
    by (intros w; by rewrite <- !elem_of_dom, (sv_waits _ _ V)).
  assert (∀ t, threads k2 !! t = threads (q_kern y) !! t \/
    ∃ th th', threads (q_kern y) !! t = Some th /\ (∃ s, th_wait_list th = Some (waiters_of q s)) /\
              threads k2 !! t = Some th' /\ th_wait_list th' = None) as HT.
  { intros t. destruct (T2 t) as [E2|(th & Ht & Hs & E2)], (T1 t) as [E1|(th1 & Ht1 & Hs1 & E1)].
    - left. congruence.
    - right. exists th1, (woken th1 d). rewrite E2, E1. eauto.
    - right. exists th, (woken th d). rewrite <- E1. eauto.
    - exfalso. rewrite E1 in Ht. injection Ht as <-. by rewrite Hwn in Hs. }
  split; [auto|]. split; [|done]. intros s. destruct (Q6 s) as (l & El & _). destruct (Hdom (waiters_of q s)) as [l' El']; [eauto|].
  destruct l' as [|t l']; [done|].
  destruct (waiter_spec _ _ _ t W2 El') as (th & Ht & Hs & _); [apply elem_of_cons; auto|]. destruct s; [|by destruct (N2 t th)].
  destruct (T2 t) as [E2|(th2 & _ & _ & E2)]; [destruct (N1 t th); congruence|]. rewrite Ht in E2. injection E2 as ->. by rewrite Hwn in Hs.
Qed.

Lemma queue_delete_ok x q static :
  qok x -> queue_op_ok x (QDelete q static) -> ∃ x', queue_step false false x (QDelete q static) = Some x' /\ qok x'.
Proof.
  destruct x as [y calls log]. unfold qok, queue_step. cbn [qm_sys qm_calls qm_log]. intros Hi Hd. simpl in Hd. destruct (queues y !! q) as [qu|] eqn:Hq; [|done].
  pose proof (qi_queue _ _ _ Hi _ _ Hq) as [Q1 [O1 O2 O3] Q5 Q6]. pose proof (calls_count_nonneg (inside q) calls) as Hnn. rewrite Hd in O2. cbn iota in O2.
  replace (if static then _ else _) with (mini_os_queue_delete_common y (Some q) static) by by destruct static.
  unfold mini_os_queue_delete_common. rewrite Hq. cbn [mbind option_bind].
  destruct (negb (eqb _ static)); [eexists; split; [done|exact Hi]|].
  destruct (_ && _) eqn:E1; [eexists; split; [done|exact Hi]|]. unfold mini_os_obj_user_count in *.
  assert (∀ b : bool, q_obj (if b then q_set_pool qu None else qu) = q_obj qu) as -> by by intros [].
  rewrite request_destroy_eq by lia. cbv zeta.
  set (o := mk_obj (obj_ref (q_obj qu) - 1) _). destruct (destroy_flags (q_obj qu) (obj_ref (q_obj qu) - 1)) as [D1 D2]. fold o in D1, D2.
  destruct (Z.gtb_spec (obj_ref (q_obj qu)) 1) as [Hu|Hu].
  - destruct (kill_waiters_ok y calls log q qu Hi Hq) as (b & k' & -> & Hw & Hl & Hck & Hdom & Hempty & Hthr). cbn [mbind option_bind].
    destruct (Z.eqb_spec (obj_ref (q_obj qu)) 1); [lia|]. cbn [andb]. destruct (Z.gtb_spec (obj_ref (q_obj qu) - 1) 0); [|lia].
    cbn [mbind option_bind]. eexists. split; [done|]. cbn [qm_sys qm_calls qm_log].
    assert (qinv (qs_set_queue (qs_set_kern y k') q (q_set_obj qu o)) calls log) as Hi'; [|destruct b; [exact (qinv_yield _ _ _ Hi')|exact Hi']].
    assert (∀ t c, calls !! t = Some c -> qc_queue c ≠ q -> threads k' !! t = threads (q_kern y) !! t) as Hsame.
    { intros t c Hc Hne. destruct (Hthr t) as [|(th & th' & Ht & [s Hs] & _)]; [done|]. exfalso.
      destruct (qi_call _ _ _ Hi _ _ Hc) as [_ _ (th0 & Ht0 & Hx)]. assert (th0 = th) as -> by congruence.
      destruct Hx as (_ & E & _); [congruence|]. rewrite Hs in E. injection E as E. by apply waiters_of_inj in E as [-> _]. }
    assert (∀ t th, threads k' !! t = Some th -> th_wait_list th ≠ None -> threads (q_kern y) !! t = Some th) as Hback.
    { intros t th Ht Hn. destruct (Hthr t) as [|(_ & th' & _ & _ & Ht' & ?)]; congruence. }
    apply (qinv_change {[q]} y calls log); try done.
    + intros q' Hn. rewrite not_elem_of_singleton in Hn. simpl. by rewrite lookup_insert_ne.
    + intros q' s _. apply Hdom.
    + intros t c th Hc Hn Ht. rewrite not_elem_of_singleton in Hn. exists th. simpl. rewrite (Hsame t c) by done.
      split; [done|]. by apply kept_same.
    + intros q' qu' ->%elem_of_singleton. simpl. rewrite lookup_insert_eq. intros [= <-]. split; [by apply shape_obj| | |].
      * split; cbn [q_set_obj q_obj]; [by rewrite D2|rewrite D1; simpl; lia|simpl; lia].
      * unfold pool_ok in *. simpl. destruct (q_pool qu); [done|]. destruct Q5. congruence.
      * intros s. exists []. split; [apply Hempty|by left].
    + intros t c Hc _. apply (call_ok_record (qs_set_kern y k') _ _ _ qu); [done|done|].
      destruct (qi_call _ _ _ Hi _ _ Hc) as [C1 C2 (th & Ht & Hx)]. split; [done..|].
      destruct (Hthr t) as [E|(_ & th' & _ & _ & Ht' & Hn)]; [|exists th'; split; [done|by rewrite Hn]].
      exists th. simpl. rewrite E. split; [done|]. intros Hn. destruct (Hx Hn) as (? & ? & ?). split; [done|]. split; [done|].
      unfold call_timed. rewrite (due_same (q_kern y) k' th th); done.
    + intros t th Ht Hn. apply (qi_wait _ _ _ Hi t th); [|done]. by apply Hback.
  - (* the only user is the creator *)
    assert (obj_ref (q_obj qu) = 1 /\ count (inside q) calls = 0) as [Hr Hc0] by lia. cbn [mbind option_bind].
    rewrite Hr. cbn [Z.eqb Pos.eqb andb]. destruct (Z.gtb_spec (1 - 1) 0); [lia|]. cbn [mbind option_bind].
    eexists. split; [done|]. cbn [qm_sys qm_calls qm_log].
    match goal with |- qinv (queue_free_storage ?y' q) _ _ => assert (queue_free_storage y' q = queue_free_storage y q) as -> end.
    { unfold queue_free_storage. simpl. by rewrite delete_insert_eq. }
    assert (∀ t c, calls !! t = Some c -> qc_queue c ≠ q) as Hno.
    { intros t c Hc Eq. assert (inside q t c = false) as E by by apply (calls_count_zero (inside q) calls).
      unfold inside in E. by rewrite Eq, Z.eqb_refl in E. }
    apply queue_storage_ok; [done..|]. exists qu. split; [done|]. intros s. destruct (Q6 s) as (l & El & _).
    destruct l as [|t l]; [done|]. exfalso.
    destruct (waiter_spec _ _ _ t (qi_wf _ _ _ Hi) El) as (th & Ht & Hwl & _); [apply elem_of_cons; auto|].
    destruct (qi_wait _ _ _ Hi t th Ht) as [c Hc]; [congruence|]. destruct (qi_call _ _ _ Hi _ _ Hc) as [_ _ (th' & Ht' & Hx)].
    assert (th' = th) as -> by congruence. destruct Hx as (_ & E & _); [congruence|]. rewrite Hwl in E. injection E as E.
    apply waiters_of_inj in E as [-> _]. by apply (Hno t c).
Qed.

Lemma isr_ok ts lt x op :
  qok x -> queue_op_ok x op -> match op with QSendIsr _ _ | QReceiveIsr _ => True | _ => False end ->
  ∃ x', queue_step ts lt x op = Some x' /\ qok x'.
Proof.
  destruct x as [y calls log]. unfold qok. intros Hi Hok Hop.
  destruct op as [| | | | | | |q msg|q]; try done; simpl in *; destruct (queues y !! q) as [qu|] eqn:Hq; try done; simpl.
  - destruct Hok as [Hd Hmsg]. destruct (Z.geb_spec (q_depth qu) (q_max_depth qu)).
    { eexists. split; [done|]. exact Hi. }
    destruct (put_moved y calls log q qu None msg false) as (qu' & y' & -> & Ey & Hi'); try done.
    simpl. rewrite Ey. eexists. split; [done|]. exact Hi'.
  - destruct (Z.eqb_spec (q_depth qu) 0).
    { eexists. split; [done|]. exact Hi. }
    destruct (get_moved y calls log q qu None false) as (msg & qu' & y' & -> & Ey & Hi'); try done.
    { destruct (qi_queue _ _ _ Hi _ _ Hq) as [[] _ _ _]. lia. }
    simpl. rewrite Ey. eexists. split; [done|]. exact Hi'.
Qed.

Lemma queue_step_ok ts lt x op : qok x -> queue_op_ok x op -> ∃ x', queue_step ts lt x op = Some x' /\ qok x'.
Proof.
  intros Hi Hok. destruct op as [op|q ms d p s|q s|q|q msg tm|q tm| |q msg|q].
  - by apply queue_kernel_part_ok.
  - by apply queue_create_ok.
  - by apply queue_delete_ok.
  - by apply queue_enable_kill_ok.
  - destruct Hok as (Hq & Hc & Hm & Hf & Ht). apply queue_enter_ok; try done. destruct (queues _ !! q); [|done]. destruct Hq. split; [done|].
    by intros m [= <-].
  - destruct Hok as (Hq & Hc & Hm & Hf & Ht). apply queue_enter_ok; try done. by destruct (queues _ !! q).
  - destruct Hok as [Hm Hc]. by apply queue_next_step_ok.
  - by apply isr_ok.
  - by apply isr_ok.
Qed.
Lemma queue_run_ok ts lt x ops :
  qok x -> queue_ops_ok ts lt x ops -> ∃ x', queue_run ts lt x ops = Some x' /\ qok x'.
Proof.
  revert x. induction ops as [|op ops IH]; intros x Hi; simpl; [eauto|]. intros [Hop Hops].
  destruct (queue_step_ok ts lt x op Hi Hop) as (x1 & E & Hi1). rewrite E in Hops |- *. simpl. eauto.
Qed.
Lemma queue_boot_ok : qok boot_qmachine.
Proof. split; simpl; try done. apply boot_wf. Qed.

(** ** The theorems *)

(** C16: Whatever the order of sends and receives with any time limit, interrupts that send and
    receive, deletions, delays, ticks and switches between the steps of the calls, no step
    goes wrong, and each queue holds exactly the messages that were sent and not received, in
    the order of sending: every message received was the oldest one, whole, and was received
    once. *)
Theorem queue_delivers time_slice long_time ops :
  queue_ops_ok time_slice long_time boot_qmachine ops ->
  ∃ x, queue_run time_slice long_time boot_qmachine ops = Some x /\
    ∀ q qu, queues (qm_sys x) !! q = Some qu -> mini_os_obj_is_destroyed (q_obj qu) = false ->
      ∃ pool, q_pool qu = Some pool /\ fifo (qm_log x) q = Some (contents pool qu) /\
        Z.of_nat (length (contents pool qu)) = q_depth qu /\ q_depth qu <= q_max_depth qu /\
        ∀ msg, msg ∈ contents pool qu -> Z.of_nat (length msg) = q_msg_size qu.
Proof.
  intros Hok. destruct (queue_run_ok time_slice long_time _ ops queue_boot_ok Hok) as (x & E & Hi). exists x. split; [done|].
  intros q qu Hq Hd. destruct (qi_queue _ _ _ Hi _ _ Hq) as [[S1 S2 S3 S4 S5] _ Hp _]. unfold pool_ok in Hp.
  destruct (q_pool qu) as [pool|]; [|destruct Hp; congruence]. exists pool. destruct Hp as [Hlen Hf].
  split; [done|]. split; [done|]. split; [unfold contents; rewrite length_fmap, length_seqZ; lia|]. split; [lia|].
  intros msg (i & -> & Hin)%list_elem_of_fmap.
  pose proof (Z.mod_pos_bound (q_read_idx qu + i) (q_max_depth qu) ltac:(lia)). rewrite slot_length; [lia|lia|lia|nia].
Qed.

(** A receiver waits and is served, a sender waits for room, an interrupt sends. *)
Definition queue_ops : list queue_op :=
  [QKernel (KCreate 1 5 512 4096); QKernel (KCreate 2 5 512 8192); QCreate 10 2 1 [0; 0] false; QKernel KSwitch;
   QReceive 10 (-1); QNext; QKernel KSwitch; QSend 10 [7; 8] 5; QNext; QNext; QNext; QSend 10 [9; 4] 5; QNext; QKernel KTick;
   QKernel KSwitch; QNext; QNext; QSendIsr 10 [5; 5]; QKernel KSwitch; QNext; QNext].

Lemma queue_delivers_witness :
  ∃ x qu, queue_run true true boot_qmachine queue_ops = Some x /\ queues (qm_sys x) !! 10 = Some qu /\
    q_pool qu = Some [5; 5] /\ fifo (qm_log x) 10 = Some [[5; 5]].
Proof.
  destruct (queue_delivers true true queue_ops) as (x & E & H).
  - unfold queue_ops. vm_compute. repeat split; try discriminate; eexists; reflexivity.
  - assert (match queue_run true true boot_qmachine queue_ops with
            | Some x => match queues (qm_sys x) !! 10 with
                        | Some qu => mini_os_obj_is_destroyed (q_obj qu) = false /\ q_pool qu = Some [5; 5] /\ contents [5; 5] qu = [[5; 5]]
                        | None => False
                        end
            | None => False
            end) as Hx by (vm_compute; repeat split).
    rewrite E in Hx. destruct (queues (qm_sys x) !! 10) as [qu|] eqn:Eq; [|contradiction]. destruct Hx as (Hd & Hp & Hc).
    destruct (H 10 qu Eq Hd) as (pool & Ep & Hf & _). rewrite Hp in Ep. injection Ep as <-. rewrite Hc in Hf.
    exists x, qu. exact (conj E (conj Eq (conj Hp Hf))).
Defined.

(** C17: At every moment of every such run: while a thread is parked to receive there are at
    most as many messages as threads on their way to receive, and while one is parked to
    send at most as many free slots as threads on their way to send; so no wake-up is lost,
    also when others get ahead of the woken thread. *)
Theorem queue_no_lost_wakeup time_slice long_time ops :
  queue_ops_ok time_slice long_time boot_qmachine ops ->
  ∃ x, queue_run time_slice long_time boot_qmachine ops = Some x /\
    ∀ q qu senders l, queues (qm_sys x) !! q = Some qu -> wait_lists (q_kern (qm_sys x)) !! waiters_of q senders = Some l -> l ≠ [] ->
      mini_os_obj_is_destroyed (q_obj qu) = false /\
      avail qu senders <= count (coming (q_kern (qm_sys x)) q senders) (qm_calls x).
Proof.
  intros Hok. destruct (queue_run_ok time_slice long_time _ ops queue_boot_ok Hok) as (x & E & Hi). exists x. split; [done|].
  intros q qu s l Hq Hl Hne. destruct (qi_queue _ _ _ Hi _ _ Hq) as [_ _ _ Hw]. destruct (Hw s) as (l' & El & Hx).
  assert (l' = l) as -> by congruence. by destruct Hx.
Qed.

(** Two receivers wait, one message comes, and a third receiver runs before the woken one. *)
Definition overtaken_ops : list queue_op :=
  [QKernel (KCreate 1 5 512 4096); QKernel (KCreate 2 5 512 8192); QKernel (KCreate 3 5 512 12288); QCreate 10 1 4 [0; 0; 0; 0] true;
   QKernel KSwitch; QReceive 10 (-1); QNext; QKernel KSwitch; QReceive 10 (-1); QNext; QKernel KSwitch; QSend 10 [7] 0; QNext;
   QNext; QNext; QReceive 10 0].

Lemma queue_no_lost_wakeup_witness :
  ∃ x qu, queue_run true true boot_qmachine overtaken_ops = Some x /\ queues (qm_sys x) !! 10 = Some qu /\
    wait_lists (q_kern (qm_sys x)) !! waiters_of 10 false = Some [2] /\
    q_depth qu = 1 /\ q_depth qu <= count (coming (q_kern (qm_sys x)) 10 false) (qm_calls x).
Proof.
  destruct (queue_no_lost_wakeup true true overtaken_ops) as (x & E & H).
  - unfold overtaken_ops. vm_compute. repeat split; try discriminate; eexists; reflexivity.
  - assert (match queue_run true true boot_qmachine overtaken_ops with
            | Some x => (q_depth <$> queues (qm_sys x) !! 10) = Some 1 /\
                        wait_lists (q_kern (qm_sys x)) !! waiters_of 10 false = Some [2]
            | None => False
            end) as Hx by (vm_compute; repeat split).
    rewrite E in Hx. destruct (queues (qm_sys x) !! 10) as [qu|] eqn:Eq; [|destruct Hx; discriminate]. destruct Hx as [Hd Hl].
    injection Hd as Hd. destruct (H 10 qu false [2] Eq Hl) as [_ Ha]; [discriminate|]. exists x, qu.
    exact (conj E (conj Eq (conj Hl (conj Hd Ha)))).
Defined.

(** C25: The time limit of a send or receive is one of the whole call: however often it is
    overtaken and parks again, a parked call is woken by the time wheel exactly at the tick
    that was computed at its start, and one without a limit by no tick. *)
Theorem queue_deadline_strict time_slice long_time ops :
  queue_ops_ok time_slice long_time boot_qmachine ops ->
  ∃ x, queue_run time_slice long_time boot_qmachine ops = Some x /\
    ∀ t th, threads (q_kern (qm_sys x)) !! t = Some th -> th_wait_list th ≠ None ->
      ∃ c, qm_calls x !! t = Some c /\ th_wait_list th = Some (waiters_of (qc_queue c) (is_send c)) /\
        call_timed (q_kern (qm_sys x)) th c.
Proof.
  intros Hok. destruct (queue_run_ok time_slice long_time _ ops queue_boot_ok Hok) as (x & E & Hi). exists x. split; [done|].
  intros t th Ht Hn. destruct (qi_wait _ _ _ Hi t th Ht Hn) as [c Hc]. exists c. split; [done|].
  destruct (qi_call _ _ _ Hi _ _ Hc) as [_ _ (th' & Ht' & Hx)]. assert (th' = th) as -> by congruence.
  by destruct (Hx Hn) as (_ & ? & ?).
Qed.

(** A receiver with a limit of 40 ticks is woken after 3, finds the queue empty, and parks
    again; it will be woken at tick 40. *)
Definition strict_ops : list queue_op :=
  [QKernel (KCreate 1 5 512 4096); QKernel (KCreate 2 5 512 8192); QCreate 10 1 4 [0; 0; 0; 0] true; QKernel KSwitch; QReceive 10 40;
   QNext; QKernel KSwitch; QKernel KTick; QKernel KTick; QKernel KTick; QSendIsr 10 [7]; QReceiveIsr 10; QKernel KSwitch; QNext; QNext].

Lemma queue_deadline_strict_witness :
  ∃ x th, queue_run true true boot_qmachine strict_ops = Some x /\ threads (q_kern (qm_sys x)) !! 1 = Some th /\
    g_global_tick (q_kern (qm_sys x)) = 3 /\ due (q_kern (qm_sys x)) th = Some 40.
Proof.
  destruct (queue_deadline_strict true true strict_ops) as (x & E & H).
  - unfold strict_ops. vm_compute. repeat split; try discriminate; eexists; reflexivity.
  - assert (match queue_run true true boot_qmachine strict_ops with
            | Some x => (th_wait_list <$> threads (q_kern (qm_sys x)) !! 1) = Some (Some 20) /\ g_global_tick (q_kern (qm_sys x)) = 3 /\
                        ((λ c, (qc_timeout c, qc_deadline c)) <$> qm_calls x !! 1) = Some (40, 40)
            | None => False
            end) as Hx by (vm_compute; repeat split).
    rewrite E in Hx. destruct Hx as (Hw & Hg & Hc). destruct (threads (q_kern (qm_sys x)) !! 1) as [th|] eqn:Et; [|discriminate].
    injection Hw as Hw. destruct (H 1 th Et) as (c & Ec & _ & Hd); [congruence|]. rewrite Ec in Hc. injection Hc as Ht Hdl.
    unfold call_timed in Hd. rewrite Ht, Hdl in Hd. exists x, th. exact (conj E (conj Et (conj Hg Hd))).
Defined.

(** ** A finding *)

(** Two receivers are put out by a deletion.  Each passes the test of the last user before
    the other has dropped its reference, so neither frees the pool, and the storage of the
    queue goes with the pool still allocated. *)
Definition leak_ops : list queue_op :=
  [QKernel (KCreate 1 5 512 4096); QKernel (KCreate 2 5 512 8192); QKernel (KCreate 3 5 512 12288); QCreate 10 1 1 [0] false;
   QEnableKill 10; QKernel KSwitch; QReceive 10 (-1); QNext; QKernel KSwitch; QReceive 10 (-1); QNext; QKernel KSwitch; QDelete 10 false;
   QKernel KSwitch; QNext; QNext; QNext; QKernel KSwitch; QNext; QNext; QNext; QNext;
   QKernel KSwitch; QKernel KSwitch].
Theorem last_users_leak_pool :
  (x ← queue_run true true boot_qmachine leak_ops; qu ← queues (qm_sys x) !! 10;
   x' ← queue_step true true x QNext;
   Some (mini_os_obj_is_heap_owned (q_obj qu), obj_ref (q_obj qu), q_pool qu, bool_decide (queues (qm_sys x') !! 10 = None),
         bool_decide (qm_calls x' = ∅)))
  = Some (true, 1, Some [0], true, true).
Proof. vm_compute. reflexivity. Qed.
