(* ===== verification/MiniEvent.v ===== *)
(** * mini-os event groups

    Models src/lib/mini-os/src/event.c (compiled with MINI_OS_EVENT).  A group and its wait
    list have the same address.  Each critical section is a step of the thread that makes the
    call: the entry takes a reference, the body does the work (a wait in turns, as in
    [MiniWait]), the exit drops the reference.  What holds is in [MiniEventInv]. *)

From S2P Require Import Prelude Status MiniList MiniSched MiniKernel MiniSem MiniWait.
From stdpp Require Import gmap functions.

#[local] Open Scope Z_scope.

Inductive event_type := EVENT_WHOLE_TYPE | EVENT_OR_TYPE.
(** [mini_os_event_group_t] without its wait list. *)
Record egroup := mk_egroup { eg_event : Z; eg_type : event_type; eg_auto_clear : bool; eg_obj : obj }.
Definition eg_set_event (g : egroup) (v : Z) : egroup := mk_egroup v (eg_type g) (eg_auto_clear g) (eg_obj g).
Definition eg_set_auto (g : egroup) (v : bool) : egroup := mk_egroup (eg_event g) (eg_type g) v (eg_obj g).
Definition eg_set_obj (g : egroup) (v : obj) : egroup := mk_egroup (eg_event g) (eg_type g) (eg_auto_clear g) v.

Record esys := mk_esys { e_kern : kernel; egroups : gmap Z egroup }.
Definition es_set_kern (y : esys) (k : kernel) : esys := mk_esys k (egroups y).
Definition es_set_group (y : esys) (e : Z) (g : egroup) : esys := mk_esys (e_kern y) (<[e := g]> (egroups y)).

(** ** Creation and deletion *)

Definition event_group_init (y : esys) (e event_id : Z) (type : event_type) (heap_owned : bool) : esys :=
  es_set_group (es_set_kern y (wait_list_init (e_kern y) e)) e (mk_egroup event_id type true (mini_os_obj_init heap_owned)).
(** [mem] is what [mini_os_malloc] returns, or the caller's storage. *)
Definition mini_os_event_group_create (y : esys) (mem : option Z) (event_id : Z) (type : event_type) : option Z * esys :=
  match mem with None => (None, y) | Some e => (Some e, event_group_init y e event_id type true) end.
Definition mini_os_event_group_create_static (y : esys) (event_group : option Z) (event_id : Z) (type : event_type) : option Z * esys :=
  match event_group with None => (None, y) | Some e => (Some e, event_group_init y e event_id type false) end.

Definition mini_os_event_kill_waiters (k : kernel) (e : Z) (o : obj) : option (bool * kernel) :=
  mini_os_sync_wake_all k e (mini_os_obj_kill_error o =? MINI_OS_ERR_DEAD).
(** [mini_os_obj_free_storage] of a group. *)
Definition event_free_storage (y : esys) (e : Z) : esys := mk_esys (wait_list_drop (e_kern y) e) (delete e (egroups y)).
Definition mini_os_event_group_delete (y : esys) (event_group : option Z) : option (Z * esys) :=
  match event_group with
  | None => Some (MINI_ERR_INVAL, y)
  | Some e =>
      g ← egroups y !! e;
      if negb (mini_os_obj_is_heap_owned (eg_obj g)) then Some (MINI_ERR_NOTSUPP, y) else
      if (mini_os_obj_user_count (eg_obj g) >? 1) && negb (mini_os_obj_is_kill_enabled (eg_obj g))
      then Some (MINI_OS_ERR_REJECT, y) else
      '(killed, k) ← (if mini_os_obj_user_count (eg_obj g) >? 1 then mini_os_event_kill_waiters (e_kern y) e (eg_obj g)
                      else Some (false, e_kern y));
      let '(_, reclaim, o) := mini_os_obj_request_destroy (eg_obj g) in
      let y := es_set_group (es_set_kern y k) e (eg_set_obj g o) in
      let y := if reclaim then event_free_storage y e else y in
      Some (MINI_OK, if killed : bool then es_set_kern y (mini_os_schedule_yield (e_kern y)).2 else y)
  end.
Definition mini_os_event_group_enable_kill (y : esys) (event_group : option Z) : option (Z * esys) :=
  match event_group with
  | None => Some (MINI_ERR_INVAL, y)
  | Some e => g ← egroups y !! e; Some (MINI_OK, es_set_group y e (eg_set_obj g (mini_os_obj_enable_kill (eg_obj g))))
  end.

(** ** Flags *)

Definition satisfied (type : event_type) (event mask : Z) : bool :=
  match type with
  | EVENT_WHOLE_TYPE => Z.land event mask =? mask
  | EVENT_OR_TYPE => negb (Z.land event mask =? 0)
  end.
Definition mini_os_event_satisfied (g : egroup) (mask : Z) : bool := satisfied (eg_type g) (eg_event g) mask.

Fixpoint wake_satisfied_loop (k : kernel) (g : egroup) (nodes : list Z) (woken : bool) : option (bool * kernel) :=
  match nodes with
  | [] => Some (woken, k)
  | t :: nodes =>
      th ← threads k !! t;
      if negb (mini_os_event_satisfied g (th_wait_mask th)) then wake_satisfied_loop k g nodes woken else
      k ← mini_os_sync_wake_thread k t true;
      wake_satisfied_loop k g nodes true
  end.
Definition mini_os_event_wake_satisfied (k : kernel) (e : Z) (g : egroup) : option (bool * kernel) :=
  l ← wait_lists k !! e; wake_satisfied_loop k g l false.
Definition new_flags (type : event_type) (old event : Z) : Z :=
  match type with EVENT_WHOLE_TYPE => event | EVENT_OR_TYPE => Z.lor old event end.
Definition mini_os_event_apply (y : esys) (e event : Z) : option (bool * esys) :=
  g ← egroups y !! e;
  let g := eg_set_event g (new_flags (eg_type g) (eg_event g) event) in
  '(woken, k) ← mini_os_event_wake_satisfied (e_kern y) e g;
  Some (woken, es_set_group (es_set_kern y k) e g).

(** ** The calls *)

(** The reference a call takes and drops. *)
Definition event_acquire (y : esys) (e : Z) : option (Z * esys) :=
  g ← egroups y !! e;
  let '(err, o) := mini_os_obj_acquire (eg_obj g) in
  Some (err, es_set_group y e (eg_set_obj g o)).
Definition event_release (y : esys) (e : Z) : option esys :=
  g ← egroups y !! e;
  let '(reclaim, o) := mini_os_obj_release (eg_obj g) in
  Some (if reclaim then event_free_storage y e else es_set_group y e (eg_set_obj g o)).

(** [mini_os_event_group_set], [get], [clear], [set_auto_clear] and [wait]. *)
Inductive event_action :=
  | ESet (event : Z)
  | EGet
  | EClear (event : Z)
  | EAuto (is_auto_clear : bool)
  | EWait (mask timeout_tick deadline : Z).

(** A turn of a wait, with the flags it reports. *)
Definition event_wait_turn (y : esys) (e mask timeout_tick deadline : Z) : option (turn * option Z * esys) :=
  g ← egroups y !! e;
  if mini_os_event_satisfied g mask then
    Some (Leave MINI_OK, Some (Z.land (eg_event g) mask),
          if eg_auto_clear g then es_set_group y e (eg_set_event g (Z.ldiff (eg_event g) mask)) else y)
  else if mini_os_obj_is_destroyed (eg_obj g) then Some (Leave MINI_OS_ERR_DEAD, None, y)
  else '(r, k) ← block_on (e_kern y) e mask timeout_tick deadline e; Some (r, None, es_set_kern y k).

(** The body of a call; the flag asks for a yield after the exit. *)
Definition event_body (y : esys) (e : Z) (a : event_action) : option (turn * option Z * bool * esys) :=
  g ← egroups y !! e;
  match a with
  | ESet event => '(woken, y) ← mini_os_event_apply y e event; Some (Leave MINI_OK, None, woken, y)
  | EGet => Some (Leave MINI_OK, Some (eg_event g), false, y)
  | EClear event => Some (Leave MINI_OK, None, false, es_set_group y e (eg_set_event g (Z.ldiff (eg_event g) event)))
  | EAuto b => Some (Leave MINI_OK, None, false, es_set_group y e (eg_set_auto g b))
  | EWait mask timeout_tick deadline =>
      '(r, out, y) ← event_wait_turn y e mask timeout_tick deadline; Some (r, out, false, y)
  end.

(** An interrupt is not interrupted by threads: one step. *)
Definition mini_os_event_group_set_isr (y : esys) (event_group : option Z) (event : Z) : option (Z * esys) :=
  match event_group with
  | None => Some (MINI_ERR_INVAL, y)
  | Some e =>
      '(err, y) ← event_acquire y e;
      if negb (err =? MINI_OK) then Some (err, y) else
      '(_, y) ← mini_os_event_apply y e event; y ← event_release y e; Some (MINI_OK, y)
  end.

(** Where a thread is inside a call: [EExit] has the result, the flags it reports and whether
    it yields. *)
Inductive event_pc := EBody | EParked | EExit (err : Z) (out : option Z) (yields : bool).
Record event_call := mk_ecall { ec_group : Z; ec_action : event_action; ec_pc : event_pc }.
Definition ec_set_pc (c : event_call) (pc : event_pc) : event_call := mk_ecall (ec_group c) (ec_action c) pc.

(** What happened to a group, and what the calls returned. *)
Inductive event_event :=
  | EMade (e event : Z) (type : event_type)
  | EDone (e t : Z) (a : event_action) (out : option Z)
  | EEnded (e t : Z) (a : event_action) (err : Z) (out : option Z).

Record event_machine := mk_emachine { em_sys : esys; em_calls : gmap Z event_call; em_log : list event_event }.

Inductive event_op :=
  | EKernel (op : kernel_op)
  | ECreate (e event_id : Z) (type : event_type) (static : bool)
  | EDelete (e : Z)
  | EEnableKill (e : Z)
  | ECall (e : Z) (a : event_action)
  | ENext
  | ESetIsr (e event : Z).

Section emachine.
Context (time_slice long_time : bool).

(** The deadline of a wait is computed at its entry. *)
Definition start_action (k : kernel) (a : event_action) : event_action :=
  match a with EWait mask timeout_tick _ => EWait mask timeout_tick (call_deadline k timeout_tick) | a => a end.
(** A wait for no flag is refused. *)
Definition valid_action (a : event_action) : bool := match a with EWait mask _ _ => negb (mask =? 0) | _ => true end.

Definition event_next (x : event_machine) (t : Z) : option event_machine :=
  let y := em_sys x in
  c ← em_calls x !! t;
  let e := ec_group c in
  let goes pc y log := mk_emachine y (<[t := ec_set_pc c pc]> (em_calls x)) log in
  match ec_pc c with
  | EBody =>
      '(r, out, yields, y) ← event_body y e (ec_action c);
      Some match r with
           | Leave err => goes (EExit err out yields) y (if err =? MINI_OK then EDone e t (ec_action c) out :: em_log x else em_log x)
           | Park => goes EParked y (em_log x)
           | Again => goes EBody y (em_log x)
           end
  | EParked =>
      '(r, k) ← park_end (e_kern y) t;
      Some (goes (match r with Leave err => EExit err None false | _ => EBody end) (es_set_kern y k) (em_log x))
  | EExit err out yields =>
      y ← event_release y e;
      Some (mk_emachine (if yields : bool then es_set_kern y (mini_os_schedule_yield (e_kern y)).2 else y) (delete t (em_calls x))
              (EEnded e t (ec_action c) err out :: em_log x))
  end.

Definition event_step (x : event_machine) (op : event_op) : option event_machine :=
  let y := em_sys x in
  match op with
  | EKernel op => k ← kernel_step time_slice long_time (e_kern y) op; Some (mk_emachine (es_set_kern y k) (em_calls x) (em_log x))
  | ECreate e event_id type static =>
      let '(r, y) := if static then mini_os_event_group_create_static y (Some e) event_id type
                     else mini_os_event_group_create y (Some e) event_id type in
      Some (mk_emachine y (em_calls x) (EMade e event_id type :: em_log x))
  | EDelete e => '(_, y) ← mini_os_event_group_delete y (Some e); Some (mk_emachine y (em_calls x) (em_log x))
  | EEnableKill e => '(_, y) ← mini_os_event_group_enable_kill y (Some e); Some (mk_emachine y (em_calls x) (em_log x))
  | ECall e a =>
      t ← current_thread (e_kern y);
      if negb (valid_action a) then Some (mk_emachine y (em_calls x) (EEnded e t a MINI_ERR_INVAL None :: em_log x)) else
      '(err, y) ← event_acquire y e;
      Some (if negb (err =? MINI_OK) then mk_emachine y (em_calls x) (EEnded e t a err None :: em_log x)
            else mk_emachine y (<[t := mk_ecall e (start_action (e_kern y) a) EBody]> (em_calls x)) (em_log x))
  | ENext => t ← current_thread (e_kern y); event_next x t
  | ESetIsr e event =>
      '(err, y) ← mini_os_event_group_set_isr y (Some e) event;
      Some (mk_emachine y (em_calls x) (if err =? MINI_OK then EDone e 0 (ESet event) None :: em_log x else em_log x))
  end.

Definition no_call (x : event_machine) : Prop :=
  match current_thread (e_kern (em_sys x)) with Some c => em_calls x !! c = None | None => True end.
(** What the callers keep to: the storage they name is there, a group is deleted once, fewer
    than 254 calls are inside one group, and calls come from a running thread that is in no
    other call. *)
Definition event_op_ok (x : event_machine) (op : event_op) : Prop :=
  let y := em_sys x in let k := e_kern y in
  match op with
  | EKernel op => plain_op op /\ op_ok k op /\ (match op with KDelay _ => no_call x | _ => True end)
  | ECreate e _ _ _ => egroups y !! e = None /\ wait_lists k !! e = None
  | EDelete e => match egroups y !! e with Some g => mini_os_obj_is_destroyed (eg_obj g) = false | None => False end
  | EEnableKill e => is_Some (egroups y !! e)
  | ECall e a =>
      match egroups y !! e with Some g => obj_ref (eg_obj g) < 254 | None => False end /\
      is_Some (current_thread k) /\ may_call k /\ no_call x /\
      match a with EWait _ timeout_tick _ => -2147483648 <= timeout_tick < 2147483648 | _ => True end
  | ENext => may_call k /\ match t ← current_thread k; em_calls x !! t with Some _ => True | None => False end
  | ESetIsr e _ => is_Some (egroups y !! e)
  end.

Fixpoint event_run (x : event_machine) (ops : list event_op) : option event_machine :=
  match ops with [] => Some x | op :: ops => x ← event_step x op; event_run x ops end.
Fixpoint event_ops_ok (x : event_machine) (ops : list event_op) : Prop :=
  match ops with
  | [] => True
  | op :: ops => event_op_ok x op /\ match event_step x op with Some x => event_ops_ok x ops | None => True end
  end.
End emachine.

Definition boot_emachine : event_machine := mk_emachine (mk_esys boot_kernel ∅) ∅ [].
