(* ===== verification/MiniEventInv.v ===== *)
(** * What the event groups guarantee

    The invariant of the machine of [MiniEvent], that every step of it keeps, and what
    follows.  [event_waits_exact]: the flags of a group are those of the calls made, in their
    order, and each wait that succeeds held its condition at that moment, reports the flags
    of it and, with auto clear, takes them.  [event_nobody_sleeps]: no thread is parked on a
    group whose flags satisfy it, nor on a deleted one, and the time limit is one of the
    whole call. *)

From S2P Require Import Prelude Status MiniList MiniSched MiniKernel MiniSem MiniWait MiniEvent.
From stdpp Require Import gmap functions.

#[local] Open Scope Z_scope.

(** ** Flags *)

Lemma satisfied_clear type f m mask : satisfied type f mask = false -> satisfied type (Z.ldiff f m) mask = false.
Proof.
  rewrite Z.ldiff_land. destruct type; simpl.
  - rewrite !Z.eqb_neq. intros H E. apply H. rewrite <- E at 2. rewrite <- E at 1.
    rewrite !Z.land_assoc. do 2 f_equal. by rewrite Z.land_diag.
  - rewrite !negb_false_iff, !Z.eqb_eq. intros H. rewrite <- Z.land_assoc, (Z.land_comm (Z.lnot m)), Z.land_assoc, H. apply Z.land_0_l.
Qed.

(** ** What a log says *)

(** The flags, the type and auto clear of a group, by a log with the last event first. *)
Fixpoint replay (log : list event_event) (e : Z) : Z * event_type * bool :=
  match log with
  | [] => (0, EVENT_OR_TYPE, true)
  | EMade e' event type :: log => if e' =? e then (event, type, true) else replay log e
  | EDone e' _ a _ :: log =>
      if negb (e' =? e) then replay log e else
      let '(flags, type, auto) := replay log e in
      match a with
      | ESet event => (new_flags type flags event, type, auto)
      | EGet => (flags, type, auto)
      | EClear event => (Z.ldiff flags event, type, auto)
      | EAuto b => (flags, type, b)
      | EWait mask _ _ => (if auto then Z.ldiff flags mask else flags, type, auto)
      end
  | EEnded _ _ _ _ _ :: log => replay log e
  end.
(** Each get and each wait that succeeded reported the flags of that moment, and the condition
    of the wait held. *)
Fixpoint reports_ok (log : list event_event) : Prop :=
  match log with
  | [] => True
  | EDone e _ a out :: log =>
      let '(flags, type, _) := replay log e in
      match a with
      | EGet => out = Some flags
      | EWait mask _ _ => satisfied type flags mask = true /\ out = Some (Z.land flags mask)
      | _ => out = None
      end /\ reports_ok log
  | _ :: log => reports_ok log
  end.

(** ** The invariant *)

Definition within (e : Z) (t : Z) (c : event_call) : bool := ec_group c =? e.
Record group_ok (k : kernel) (calls : gmap Z event_call) (log : list event_event) (e : Z) (g : egroup) : Prop := {
  go_list : ∃ l, wait_lists k !! e = Some l /\ (l = [] \/ mini_os_obj_is_destroyed (eg_obj g) = false);
  go_kill : mini_os_obj_kill_reports_timeout (eg_obj g) = false;
  go_users : obj_ref (eg_obj g) = (if mini_os_obj_is_destroyed (eg_obj g) then 0 else 1) + count (within e) calls;
  go_byte : obj_ref (eg_obj g) < 255;
  go_replay : replay log e = (eg_event g, eg_type g, eg_auto_clear g)
}.
Definition action_ok (a : event_action) : Prop :=
  match a with
  | EWait mask timeout_tick deadline => -2147483648 <= timeout_tick < 2147483648 /\ 0 <= deadline < 4294967296
  | _ => True
  end.
(** What a parked call waits for. *)
Definition wait_ok (y : esys) (th : thread) (c : event_call) : Prop :=
  ec_pc c = EParked /\ th_wait_list th = Some (ec_group c) /\
  ∃ mask timeout_tick deadline, ec_action c = EWait mask timeout_tick deadline /\ th_wait_mask th = mask /\
    due (e_kern y) th = due_at timeout_tick deadline /\
    ∀ g, egroups y !! ec_group c = Some g -> mini_os_event_satisfied g mask = false.
Record ecall_ok (y : esys) (t : Z) (c : event_call) : Prop := {
  ec_ok_group : is_Some (egroups y !! ec_group c);
  ec_ok_action : action_ok (ec_action c);
  ec_ok_thread : ∃ th, threads (e_kern y) !! t = Some th /\ (th_wait_list th ≠ None -> wait_ok y th c)
}.
Record einv (y : esys) (calls : gmap Z event_call) (log : list event_event) : Prop := {
  ei_wf : wf (e_kern y);
  ei_level : current_level (e_kern y);
  ei_group : ∀ e g, egroups y !! e = Some g -> group_ok (e_kern y) calls log e g;
  ei_call : ∀ t c, calls !! t = Some c -> ecall_ok y t c;
  ei_wait : ∀ t th, threads (e_kern y) !! t = Some th -> th_wait_list th ≠ None -> is_Some (calls !! t);
  ei_log : reports_ok log
}.

(** A step that touches only the groups in [T] and the calls inside them. *)
Lemma einv_change (T : gset Z) y calls log y' calls' log' :
  einv y calls log -> wf (e_kern y') -> current_level (e_kern y') -> reports_ok log' ->
  (∀ e, e ∉ T -> egroups y' !! e = egroups y !! e /\ replay log' e = replay log e) ->
  (∀ e, e ∉ T -> is_Some (wait_lists (e_kern y) !! e) -> is_Some (wait_lists (e_kern y') !! e)) ->
  (∀ t c, ec_group c ∉ T -> calls' !! t = Some c <-> calls !! t = Some c) ->
  (∀ t c th, calls !! t = Some c -> ec_group c ∉ T -> threads (e_kern y) !! t = Some th ->
     ∃ th', threads (e_kern y') !! t = Some th' /\ kept (e_kern y) th (e_kern y') th') ->
  (∀ e g, e ∈ T -> egroups y' !! e = Some g -> group_ok (e_kern y') calls' log' e g) ->
  (∀ t c, calls' !! t = Some c -> ec_group c ∈ T -> ecall_ok y' t c) ->
  (∀ t th, threads (e_kern y') !! t = Some th -> th_wait_list th ≠ None -> is_Some (calls' !! t)) ->
  einv y' calls' log'.
Proof.
  intros [I1 I2 I3 I4 I5 I6] Hw Hl Hlog HQ HL HC HK HTq HTc HW. split; try done.
  - intros e g Hg. destruct (decide (e ∈ T)) as [|HT]; [by apply HTq|]. destruct (HQ e HT) as [EQ EF]. rewrite EQ in Hg.
    destruct (I3 _ _ Hg) as [(l & El & Hl0) G2 G3 G4 G5]. split; [|done| |done|by rewrite EF].
    + destruct (HL e HT) as [l' El']; [eauto|]. exists l'. split; [done|]. destruct l' as [|t l']; [by left|]. right.
      destruct Hl0 as [->|]; [|done]. exfalso.
      destruct (waiter_spec _ _ _ t Hw El') as (th' & Ht' & Hwl & _); [apply elem_of_cons; auto|].
      destruct (HW t th' Ht') as [c Hc]; [congruence|]. destruct (decide (ec_group c ∈ T)) as [HcT|HcT].
      * destruct (HTc _ _ Hc HcT) as [_ _ (th2 & Ht2 & Hx)]. assert (th2 = th') as -> by congruence.
        destruct Hx as (_ & E & _); [congruence|]. rewrite Hwl in E. injection E as ->. done.
      * apply HC in Hc; [|done]. destruct (I4 _ _ Hc) as [_ _ (th & Ht & _)]. destruct (HK _ _ _ Hc HcT Ht) as (th2 & Ht2 & Hk).
        assert (th2 = th') as -> by congruence. apply kept_waits in Hk; [|congruence]. rewrite Hwl in Hk.
        pose proof (waits_in_list _ _ _ _ _ I1 Ht Hk El) as Hin. by apply not_elem_of_nil in Hin.
    + rewrite G3. f_equal. apply count_ext. intros t c. unfold within. destruct (Z.eqb_spec (ec_group c) e) as [E|]; [|naive_solver].
      rewrite HC; [done|]. by rewrite E.
  - intros t c Hc. destruct (decide (ec_group c ∈ T)) as [|HT]; [by apply HTc|]. apply HC in Hc; [|done].
    destruct (I4 _ _ Hc) as [C1 C2 (th & Ht & Hx)]. destruct (HK _ _ _ Hc HT Ht) as (th' & Ht' & Hk).
    split; [by rewrite (proj1 (HQ _ HT))|done|]. exists th'. split; [done|]. intros Hn.
    pose proof (kept_waits _ _ _ _ Hk Hn) as E. destruct Hx as (X1 & X2 & mask & tm & dl & X3 & X4 & X5 & X6); [congruence|].
    split; [done|]. split; [congruence|]. exists mask, tm, dl. split; [done|].
    destruct Hk as [(_ & _ & Hk)|(_ & ? & _)]; [|done]. destruct Hk as [-> ->]; [congruence|].
    split; [done|]. split; [done|]. by rewrite (proj1 (HQ _ HT)).
Qed.

Lemma einv_kernel y calls log k' :
  einv y calls log -> wf k' -> current_level k' -> no_grant (e_kern y) k' -> keeps_due (e_kern y) k' ->
  einv (es_set_kern y k') calls log.
Proof.
  intros Hi Hw Hl [G1 G2 G3] Hd. apply (einv_change ∅ y calls log); try done; try apply Hi.
  - intros e _. simpl. by rewrite <- !elem_of_dom, G1.
  - intros t c th _ _ Ht. destruct (G2 _ _ Ht) as (th' & Ht' & Hk). exists th'. split; [done|].
    destruct Hk as [[E1 E2]|Hk]; [left|by right]. split; [done|]. split; [done|]. intros Hn. by apply (Hd t).
  - intros t th' Ht' Hn. destruct (G3 _ _ Ht' Hn) as [th Ht]. destruct (G2 _ _ Ht) as (th2 & Ht2 & Hk).
    simpl in Ht'. assert (th2 = th') as -> by congruence. apply (ei_wait _ _ _ Hi t th Ht).
    destruct Hk as [[<- _]|(? & _)]; done.
Qed.
Lemma einv_yield y calls log : einv y calls log -> einv (es_set_kern y (mini_os_schedule_yield (e_kern y)).2) calls log.
Proof.
  intros Hi. apply einv_kernel; [done|apply wf_pendsv, Hi|exact (ei_level _ _ _ Hi)|split; eauto|].
  intros t th th' Ht Ht' _ _. simpl in Ht'. assert (th' = th) as -> by congruence. done.
Qed.

(** Steps that change the record of one group and the calls inside it. *)
Lemma einv_record y calls log e g calls' log' :
  einv y calls log -> reports_ok log' -> (∀ e', e' ≠ e -> replay log' e' = replay log e') ->
  (∀ t c, ec_group c ≠ e -> calls' !! t = Some c <-> calls !! t = Some c) ->
  (∀ t th, threads (e_kern y) !! t = Some th -> th_wait_list th ≠ None -> is_Some (calls !! t) -> is_Some (calls' !! t)) ->
  group_ok (e_kern y) calls' log' e g ->
  (∀ t c, calls' !! t = Some c -> ec_group c = e -> ecall_ok (es_set_group y e g) t c) ->
  einv (es_set_group y e g) calls' log'.
Proof.
  intros Hi Hlog HF HC HS HQ Hc. apply (einv_change {[e]} y calls log); try done; try apply Hi.
  - intros e' Hn. rewrite not_elem_of_singleton in Hn. simpl. rewrite lookup_insert_ne by done. auto.
  - intros t c Hn. rewrite not_elem_of_singleton in Hn. auto.
  - intros t c th _ _ Ht. exists th. split; [done|]. by apply kept_same.
  - intros e' g' ->%elem_of_singleton. simpl. rewrite lookup_insert_eq. by intros [= <-].
  - intros t c Hcc E%elem_of_singleton. auto.
  - intros t th Ht Hn. apply (HS t th); [done..|]. by apply (ei_wait _ _ _ Hi t th).
Qed.

(** A call stays in order when the flags of its group satisfy no more than before. *)
Lemma ecall_record y t c e g g' :
  egroups y !! e = Some g ->
  (∀ mask, mini_os_event_satisfied g mask = false -> mini_os_event_satisfied g' mask = false) ->
  ecall_ok y t c -> ecall_ok (es_set_group y e g') t c.
Proof.
  intros Hg Hs [C1 C2 (th & Ht & Hx)]. split; [|done|].
  - simpl. destruct (decide (ec_group c = e)) as [->|]; [rewrite lookup_insert_eq|rewrite lookup_insert_ne by done]; eauto.
  - exists th. split; [done|]. intros Hn. destruct (Hx Hn) as (X1 & X2 & mask & tm & dl & X3 & X4 & X5 & X6).
    split; [done|]. split; [done|]. exists mask, tm, dl. do 3 (split; [done|]). simpl. intros g0.
    destruct (decide (ec_group c = e)) as [E|]; [|rewrite lookup_insert_ne by done; apply X6].
    rewrite E, lookup_insert_eq. intros [= <-]. apply Hs, X6. by rewrite E.
Qed.
Lemma ecall_pc y t c pc th :
  threads (e_kern y) !! t = Some th -> th_wait_list th = None -> ecall_ok y t c -> ecall_ok y t (ec_set_pc c pc).
Proof. intros Ht Hn [C1 C2 C3]. split; [done..|]. exists th. done. Qed.
Lemma ecalls_other (calls : gmap Z event_call) t c c' e :
  calls !! t = Some c -> ec_group c = e -> ec_group c' = e ->
  ∀ t' d, ec_group d ≠ e -> <[t := c']> calls !! t' = Some d <-> calls !! t' = Some d.
Proof.
  intros Hc E E' t' d Hd. destruct (decide (t' = t)) as [->|]; [|by rewrite lookup_insert_ne].
  rewrite lookup_insert_eq. split; [intros [= <-]; done|]. intros E1. assert (d = c) as -> by congruence. done.
Qed.
Lemma within_pc calls t c pc e : calls !! t = Some c -> count (within e) (<[t := ec_set_pc c pc]> calls) = count (within e) calls.
Proof. intros Hc. rewrite (count_update _ _ _ c) by done. unfold within at 2 3. simpl. lia. Qed.

(** The call of a thread that runs goes on, its group with other flags. *)
Lemma einv_body y calls log t c th g g' pc log' :
  einv y calls log -> calls !! t = Some c -> threads (e_kern y) !! t = Some th -> th_wait_list th = None ->
  egroups y !! ec_group c = Some g -> eg_obj g' = eg_obj g ->
  (∀ mask, mini_os_event_satisfied g mask = false -> mini_os_event_satisfied g' mask = false) ->
  reports_ok log' -> (∀ e', e' ≠ ec_group c -> replay log' e' = replay log e') ->
  replay log' (ec_group c) = (eg_event g', eg_type g', eg_auto_clear g') ->
  einv (es_set_group y (ec_group c) g') (<[t := ec_set_pc c pc]> calls) log'.
Proof.
  intros Hi Hc Ht Hn Hg Eo Hs Hlog Hr1 Hr2. destruct (ei_group _ _ _ Hi _ _ Hg) as [G1 G2 G3 G4 G5].
  apply (einv_record y calls log); try done.
  - by apply (ecalls_other _ _ c).
  - intros t' _ _ _ [c' Hc']. destruct (decide (t' = t)) as [->|]; [rewrite lookup_insert_eq|rewrite lookup_insert_ne by done]; eauto.
  - split; rewrite ?Eo; [done|done| |done|done]. by rewrite within_pc.
  - intros t' c' Hc' _. apply (ecall_record _ _ _ _ g); [done..|]. destruct (decide (t' = t)) as [->|].
    + rewrite lookup_insert_eq in Hc'. injection Hc' as <-. apply (ecall_pc _ _ _ _ th); [done..|]. by apply (ei_call _ _ _ Hi).
    + rewrite lookup_insert_ne in Hc' by done. by apply (ei_call _ _ _ Hi).
Qed.
Lemma set_group_id y e g : egroups y !! e = Some g -> es_set_group y e g = y.
Proof. intros H. destruct y. unfold es_set_group. simpl in *. by rewrite insert_id. Qed.
(** The same with nothing changed but the place. *)
Lemma einv_pc y calls log t c th pc :
  einv y calls log -> calls !! t = Some c -> threads (e_kern y) !! t = Some th -> th_wait_list th = None ->
  einv y (<[t := ec_set_pc c pc]> calls) log.
Proof.
  intros Hi Hc Ht Hn. destruct (ei_call _ _ _ Hi _ _ Hc) as [[g Hg] _ _]. rewrite <- (set_group_id y (ec_group c) g Hg).
  apply (einv_body y calls log t c th g); try done; [apply Hi|]. apply (go_replay _ _ _ _ _ (ei_group _ _ _ Hi _ _ Hg)).
Qed.

(** ** Waking *)

Lemma wake_satisfied_loop_ok g w nodes k l b :
  wf k -> wait_lists k !! w = Some l -> NoDup nodes -> (∀ t, t ∈ nodes -> t ∈ l) ->
  ∃ b' k', wake_satisfied_loop k g nodes b = Some (b', k') /\ wf k' /\ same_vars k k' /\
    ∀ t, threads k' !! t = threads k !! t /\
           (t ∈ nodes -> ∃ th, threads k !! t = Some th /\ mini_os_event_satisfied g (th_wait_mask th) = false) \/
         t ∈ nodes /\ ∃ th, threads k !! t = Some th /\ th_wait_list th = Some w /\ threads k' !! t = Some (woken th true).
Proof.
  intros Hw Hl Hnd. revert k l b Hw Hl. induction Hnd as [|t nodes Hnin Hnd IH]; intros k l b Hw Hl Hin; cbn [wake_satisfied_loop].
  { exists b, k. split; [done|]. split; [done|]. split; [done|]. intros t. left. split; [done|]. by intros ?%not_elem_of_nil. }
  destruct (waiter_spec _ _ _ t Hw Hl) as (th & Ht & Hwl & _); [apply Hin, elem_of_cons; auto|].
  rewrite Ht. cbn [mbind option_bind]. destruct (mini_os_event_satisfied g (th_wait_mask th)) eqn:Es; cbn [negb].
  - destruct (wake_ok k w l t true Hw Hl) as (k1 & th1 & -> & Hw1 & Ht1 & _ & Hf & W1 & _); [apply Hin, elem_of_cons; auto|].
    cbn [mbind option_bind]. assert (th1 = th) as -> by congruence.
    destruct (IH k1 (filter (λ x, x ≠ t) l) true Hw1) as (b' & k' & -> & Hw' & Hv & Hthr).
    { by rewrite W1, lookup_fmap, Hl. }
    { intros t' Ht'. rewrite list_elem_of_filter. split; [congruence|]. apply Hin, elem_of_cons; auto. }
    exists b', k'. split; [done|]. split; [done|]. split; [by etrans; [eapply frame_same|]|]. intros t'.
    specialize (Hthr t'). rewrite (fr_threads _ _ _ _ Hf) in Hthr. destruct (decide (t' = t)) as [->|].
    + right. split; [apply elem_of_cons; auto|]. exists th. split; [done|]. split; [done|]. rewrite lookup_insert_eq in Hthr.
      destruct Hthr as [[-> _]|[? _]]; done.
    + rewrite lookup_insert_ne in Hthr by done. rewrite elem_of_cons. naive_solver.
  - destruct (IH k l b Hw Hl) as (b' & k' & -> & Hw' & Hv & Hthr); [intros t' ?; apply Hin, elem_of_cons; auto|].
    exists b', k'. split; [done|]. split; [done|]. split; [done|]. intros t'. destruct (Hthr t') as [[E Hn]|[? Hx]].
    + left. split; [done|]. rewrite elem_of_cons. intros [->|]; eauto.
    + right. split; [apply elem_of_cons; auto|done].
Qed.

(** The flags of a group change, and waiters of it are put out. *)
Lemma einv_waiters y calls log e g g' k' log' :
  einv y calls log -> egroups y !! e = Some g -> wf k' -> current_level k' -> same_vars (e_kern y) k' ->
  (∀ t, threads k' !! t = threads (e_kern y) !! t \/
        ∃ th th', threads (e_kern y) !! t = Some th /\ th_wait_list th = Some e /\ threads k' !! t = Some th' /\ th_wait_list th' = None) ->
  (∀ t th, threads k' !! t = Some th -> th_wait_list th = Some e -> mini_os_event_satisfied g' (th_wait_mask th) = false) ->
  reports_ok log' -> (∀ e', e' ≠ e -> replay log' e' = replay log e') -> group_ok k' calls log' e g' ->
  einv (es_set_group (es_set_kern y k') e g') calls log'.
Proof.
  intros Hi Hg Hw Hl Hv Hthr Hun Hlog Hrep Hok.
  assert (∀ t c, calls !! t = Some c -> ec_group c ≠ e -> threads k' !! t = threads (e_kern y) !! t) as Hsame.
  { intros t c Hc Hne. destruct (Hthr t) as [|(th & th' & Ht & Hs & _)]; [done|]. exfalso.
    destruct (ei_call _ _ _ Hi _ _ Hc) as [_ _ (th0 & Ht0 & Hx)]. assert (th0 = th) as -> by congruence.
    destruct Hx as (_ & E & _); congruence. }
  assert (same_clock (e_kern y) k') as Hck by (split; apply Hv).
  apply (einv_change {[e]} y calls log); try done.
  - intros e' Hn. rewrite not_elem_of_singleton in Hn. simpl. rewrite lookup_insert_ne by done. auto.
  - intros e' _. simpl. by rewrite <- !elem_of_dom, (sv_waits _ _ Hv).
  - intros t c th Hc Hn Ht. rewrite not_elem_of_singleton in Hn. exists th. simpl. rewrite (Hsame t c) by done.
    split; [done|]. by apply kept_same.
  - intros e' g0 ->%elem_of_singleton. simpl. rewrite lookup_insert_eq. by intros [= <-].
  - intros t c Hc E%elem_of_singleton. destruct (ei_call _ _ _ Hi _ _ Hc) as [C1 C2 (th & Ht & Hx)].
    split; [simpl; rewrite E, lookup_insert_eq; eauto|done|].
    destruct (Hthr t) as [Es|(_ & th' & _ & _ & Ht' & Hn)]; [|exists th'; split; [done|by rewrite Hn]].
    exists th. cbn [e_kern es_set_group es_set_kern]. rewrite Es. split; [done|]. intros Hn.
    destruct (Hx Hn) as (X1 & X2 & mask & tm & dl & X3 & X4 & X5 & X6). split; [done|]. split; [done|]. exists mask, tm, dl.
    split; [done|]. split; [done|]. split; [by rewrite <- X5; apply due_same|]. intros g0. simpl. rewrite E, lookup_insert_eq. intros [= <-].
    rewrite <- X4. apply (Hun t); congruence.
  - intros t th Ht Hn. apply (ei_wait _ _ _ Hi t th); [|done]. destruct (Hthr t) as [<-|(_ & th' & _ & _ & Ht' & ?)]; [done|].
    simpl in Ht. congruence.
Qed.

Lemma group_kern k k' calls log e g :
  (∀ l, wait_lists k !! e = Some l -> ∃ l', wait_lists k' !! e = Some l' /\ (l = [] -> l' = [])) ->
  group_ok k calls log e g -> group_ok k' calls log e g.
Proof.
  intros H [(l & El & Hl) G2 G3 G4 G5]. split; try done. destruct (H l El) as (l' & El' & Hl'). exists l'. split; [done|].
  destruct Hl; auto.
Qed.

Lemma group_flags k calls log log' e g g' :
  eg_obj g' = eg_obj g -> replay log' e = (eg_event g', eg_type g', eg_auto_clear g') -> group_ok k calls log e g -> group_ok k calls log' e g'.
Proof. intros Eo Er []. split; by rewrite ?Eo. Qed.

Lemma set_ok y calls log t e g event :
  einv y calls log -> egroups y !! e = Some g ->
  let g' := eg_set_event g (new_flags (eg_type g) (eg_event g) event) in
  ∃ b k', mini_os_event_wake_satisfied (e_kern y) e g' = Some (b, k') /\ current_thread k' = current_thread (e_kern y) /\
    (∀ t th, threads (e_kern y) !! t = Some th -> th_wait_list th = None -> threads k' !! t = Some th) /\
    einv (es_set_group (es_set_kern y k') e g') calls (EDone e t (ESet event) None :: log).
Proof.
  intros Hi Hg g'. destruct (ei_group _ _ _ Hi _ _ Hg) as [(l & El & Hl) G2 G3 G4 G5].
  unfold mini_os_event_wake_satisfied. rewrite El. cbn [mbind option_bind].
  destruct (wake_satisfied_loop_ok g' e l (e_kern y) l false) as (b & k' & -> & Hw & Hv & Hthr);
    [apply Hi|done|apply (wl_nodup _ _ (wf_waiting _ (ei_wf _ _ _ Hi)) _ _ El)|done|].
  exists b, k'. split; [done|]. split; [apply Hv|]. split.
  { intros t' th Ht Hn. destruct (Hthr t') as [[-> _]|(_ & th' & ? & ? & _)]; [done|]. congruence. }
  apply (einv_waiters y calls log e g); try done.
  - eapply level_threads; [apply (ei_level _ _ _ Hi)|apply Hv|apply Hv|]. intros t' th' Ht'.
    destruct (Hthr t') as [[E _]|(_ & th & Ht & _ & E)]; [exists th'; split; congruence|]. rewrite Ht' in E. injection E as ->.
    exists th. by rewrite woken_priority.
  - intros t'. destruct (Hthr t') as [[E _]|(_ & th & Ht & Hs & E)]; [by left|]. right. exists th, (woken th true).
    repeat (split; [done|]). apply woken_done.
  - intros t' th Ht Hs. destruct (Hthr t') as [[E Hn]|(_ & th' & _ & _ & E)].
    + rewrite E in Ht. destruct Hn as (th' & Ht' & Hx); [by apply (waits_in_list _ _ _ _ _ (ei_wf _ _ _ Hi) Ht Hs El)|]. congruence.
    + rewrite E in Ht. injection Ht as <-. destruct (woken_done th') as [E' _]. congruence.
  - simpl. destruct (replay log e) as [[] ?]. split; [done|]. apply Hi.
  - intros e' Hne. simpl. destruct (Z.eqb_spec e e'); [congruence|done].
  - apply (group_kern (e_kern y)).
    + intros l0 El0. assert (is_Some (wait_lists k' !! e)) as [l' El'].
      { apply elem_of_dom. rewrite (sv_waits _ _ Hv). apply elem_of_dom. eauto. }
      exists l'. split; [done|]. intros ->. destruct l' as [|t' l']; [done|].
      destruct (waiter_spec _ _ _ t' Hw El') as (th & Ht & Hs & _); [apply elem_of_cons; auto|].
      destruct (Hthr t') as [[E _]|(Hin & _)].
      * rewrite E in Ht. pose proof (waits_in_list _ _ _ _ _ (ei_wf _ _ _ Hi) Ht Hs El0) as Hin. by apply not_elem_of_nil in Hin.
      * assert (l = []) as -> by congruence. by apply not_elem_of_nil in Hin.
    + apply (group_flags _ _ log _ _ g); [done| |by apply (ei_group _ _ _ Hi)]. simpl. rewrite Z.eqb_refl. simpl. by rewrite G5.
Qed.

(** ** The steps of a call *)

Definition eok (x : event_machine) : Prop := einv (em_sys x) (em_calls x) (em_log x).
(** What ends a call, or a refused one, changes no flag. *)
Lemma einv_ended y calls log e t a err out : einv y calls log -> einv y calls (EEnded e t a err out :: log).
Proof. intros [I1 I2 I3 I4 I5 I6]. split; try done. intros e' g Hg. destruct (I3 _ _ Hg). by split. Qed.

Lemma event_enter_ok x e a :
  eok x -> event_op_ok x (ECall e a) -> ∃ x', event_step false false x (ECall e a) = Some x' /\ eok x'.
Proof.
  destruct x as [y calls log]. unfold eok, event_op_ok, no_call. simpl. intros Hi (Hg & [t Hc] & Hm & Hf & Ha). rewrite Hc in Hf |- *.
  cbn [mbind option_bind]. destruct (egroups y !! e) as [g|] eqn:Eg; [|done].
  destruct (negb (valid_action a)); [eexists; split; [done|by apply einv_ended]|].
  unfold event_acquire. rewrite Eg. cbn [mbind option_bind]. pose proof (ei_group _ _ _ Hi _ _ Eg) as [G1 G2 G3 G4 G5].
  unfold mini_os_obj_acquire. destruct (mini_os_obj_is_destroyed (eg_obj g)) eqn:Ed; cbn [mbind option_bind].
  { eexists. split; [done|]. apply einv_ended. cbn [em_sys em_calls]. replace (es_set_group _ _ _) with y; [done|].
    symmetry. apply set_group_id. by destruct g as [?? ? []]. }
  rewrite Z.eqb_refl. eexists. split; [done|]. cbn [em_sys em_calls em_log negb].
  pose proof (calls_count_nonneg (within e) calls). assert (u8 (obj_ref (eg_obj g) + 1) = obj_ref (eg_obj g) + 1) as -> by (apply Z.mod_small; lia).
  set (o := mk_obj _ _). set (c := mk_ecall _ _ _). assert (mini_os_obj_is_destroyed o = false) as Ed' by exact Ed.
  destruct (wf_current _ (ei_wf _ _ _ Hi) _ Hc) as [th Hth]. pose proof (running_free _ _ _ (ei_wf _ _ _ Hi) Hm Hc Hth) as Hn.
  apply (einv_record y calls log e); try done.
  - apply (ei_log _ _ _ Hi).
  - intros t' c' Hne. destruct (decide (t' = t)) as [->|]; [|by rewrite lookup_insert_ne].
    rewrite lookup_insert_eq, Hf. split; [|done]. intros [= <-]. done.
  - intros t' _ _ _ [c' Hc']. destruct (decide (t' = t)) as [->|]; [rewrite lookup_insert_eq|rewrite lookup_insert_ne by done]; eauto.
  - destruct G1 as (l & El & Hl). split; cbn [eg_set_obj eg_obj]; [|done| |simpl; lia|done].
    + exists l. split; [done|]. by right.
    + rewrite Ed', calls_count_insert by done. rewrite ?Ed in G3. unfold within at 2. simpl. rewrite Z.eqb_refl. simpl. lia.
  - intros t' c' Hc' Eqc. destruct (decide (t' = t)) as [->|].
    + rewrite lookup_insert_eq in Hc'. injection Hc' as <-. apply (ecall_record _ _ _ _ g); [done..|]. split.
      * simpl. rewrite Eg. eauto.
      * simpl. destruct a; try done. split; [done|]. apply call_deadline_range.
      * exists th. split; [done|]. by rewrite Hn.
    + rewrite lookup_insert_ne in Hc' by done. apply (ecall_record _ _ _ _ g); [done..|]. by apply (ei_call _ _ _ Hi).
Qed.

(** The block of a thread that runs changes in what does not concern waiting. *)
Lemma einv_thread y calls log t c th th' :
  einv y calls log -> calls !! t = Some c -> threads (e_kern y) !! t = Some th -> th_wait_list th = None ->
  wf (set_thread (e_kern y) t th') -> current_level (set_thread (e_kern y) t th') -> th_wait_list th' = None ->
  einv (es_set_kern y (set_thread (e_kern y) t th')) calls log.
Proof.
  intros Hi Hc Ht Hn0 Hw Hl Hn. set (k' := set_thread (e_kern y) t th').
  destruct (ei_call _ _ _ Hi _ _ Hc) as [[g Hg] _ _].
  rewrite <- (set_group_id (es_set_kern y k') (ec_group c) g Hg).
  assert (∀ t', t' ≠ t -> threads k' !! t' = threads (e_kern y) !! t') as Hne
    by (intros t' ?; unfold k'; simpl; by rewrite lookup_insert_ne).
  assert (threads k' !! t = Some th') as Ht' by apply lookup_insert_eq.
  apply (einv_change {[ec_group c]} y calls log); try done.
  - apply Hi.
  - intros e Hx. rewrite not_elem_of_singleton in Hx. simpl. by rewrite lookup_insert_ne.
  - intros t' d u Hd Hdn Hu. rewrite not_elem_of_singleton in Hdn. assert (t' ≠ t) by congruence. exists u. simpl.
    split; [by rewrite Hne|]. by apply kept_same.
  - intros e g0 ->%elem_of_singleton. simpl. rewrite lookup_insert_eq. intros [= <-].
    apply (group_kern (e_kern y)); [eauto|]. by apply (ei_group _ _ _ Hi).
  - intros t' d Hd _. destruct (ei_call _ _ _ Hi _ _ Hd) as [C1 C2 (u & Hu & Hx)].
    apply (ecall_record (es_set_kern y k') _ _ _ g); [done..|]. split; [done..|].
    destruct (decide (t' = t)) as [->|Hn'].
    + exists th'. split; [done|]. by rewrite Hn.
    + exists u. split; [by rewrite <- Hu; apply Hne|]. intros Hwl. exact (Hx Hwl).
  - intros t' u Hu Hwl. simpl in Hu. destruct (decide (t' = t)) as [->|Hn']; [eauto|].
    rewrite lookup_insert_ne in Hu by done. by apply (ei_wait _ _ _ Hi t' u).
Qed.

(** A wait that finds nothing parks. *)
Lemma event_park_call y calls log t c g mask tm dl k' thp :
  einv y calls log -> calls !! t = Some c -> egroups y !! ec_group c = Some g -> ec_action c = EWait mask tm dl ->
  mini_os_event_satisfied g mask = false -> mini_os_obj_is_destroyed (eg_obj g) = false ->
  wf k' -> current_level k' -> frame (e_kern y) k' t thp -> th_wait_list thp = Some (ec_group c) -> th_wait_mask thp = mask ->
  due k' thp = due_at tm dl ->
  einv (es_set_kern y k') (<[t := ec_set_pc c EParked]> calls) log.
Proof.
  intros Hi Hc Hg Ea Hs Hd Hw Hl Hf Hwl Hmk Hdue. pose proof Hf as [F1 F2 F3 F4 F5 F6].
  assert (∀ t', t' ≠ t -> threads k' !! t' = threads (e_kern y) !! t') as Hsame by (intros t' ?; by rewrite F1, lookup_insert_ne).
  assert (threads k' !! t = Some thp) as Ht' by by rewrite F1, lookup_insert_eq.
  assert (∀ e, is_Some (wait_lists (e_kern y) !! e) -> is_Some (wait_lists k' !! e)) as Hdom by (intros e; by rewrite <- !elem_of_dom, F6).
  apply (einv_change {[ec_group c]} y calls log); try done.
  - apply Hi.
  - intros e _. apply Hdom.
  - intros t0 d Hdn. rewrite not_elem_of_singleton in Hdn. by apply (ecalls_other _ _ c _ (ec_group c)).
  - intros t0 d u Hd0 Hdn Hu. rewrite not_elem_of_singleton in Hdn. exists u. split; [|by apply kept_same].
    simpl. rewrite Hsame; [done|]. intros ->. assert (d = c) as -> by congruence. by apply Hdn.
  - intros e g0 ->%elem_of_singleton Hg0. simpl in Hg0. assert (g0 = g) as -> by congruence.
    destruct (ei_group _ _ _ Hi _ _ Hg) as [(l & El & _) G2 G3 G4 G5]. split; [|done| |done|done].
    + destruct (Hdom (ec_group c)) as [l' El']; [eauto|]. exists l'. split; [done|by right].
    + by rewrite within_pc.
  - intros t0 d Hd0 _. destruct (decide (t0 = t)) as [->|Hne].
    + rewrite lookup_insert_eq in Hd0. injection Hd0 as <-. destruct (ei_call _ _ _ Hi _ _ Hc) as [C1 C2 _]. split; [done..|].
      exists thp. split; [done|]. intros _. split; [done|]. split; [done|]. exists mask, tm, dl. repeat (split; [done|]).
      intros g0 Hg0. simpl in Hg0. congruence.
    + rewrite lookup_insert_ne in Hd0 by done. destruct (ei_call _ _ _ Hi _ _ Hd0) as [C1 C2 (u & Hu & Hx)]. split; [done..|].
      exists u. simpl. rewrite Hsame by done. split; [done|]. intros Hn.
      destruct (Hx Hn) as (X1 & X2 & m & m1 & m2 & X3 & X4 & X5 & X6). split; [done|]. split; [done|]. exists m, m1, m2.
      do 2 (split; [done|]). split; [|done]. rewrite <- X5. by apply due_same.
  - intros t0 u Hu Hn. simpl in Hu. destruct (decide (t0 = t)) as [->|Hne]; [rewrite lookup_insert_eq; eauto|].
    rewrite Hsame in Hu by done. rewrite lookup_insert_ne by done. by apply (ei_wait _ _ _ Hi t0 u).
Qed.

(** A wait whose flags are there takes them. *)
Lemma taken y calls log t c th g mask tm dl :
  einv y calls log -> calls !! t = Some c -> threads (e_kern y) !! t = Some th -> th_wait_list th = None ->
  egroups y !! ec_group c = Some g -> ec_action c = EWait mask tm dl -> mini_os_event_satisfied g mask = true ->
  let out := Some (Z.land (eg_event g) mask) in
  let g' := if eg_auto_clear g then eg_set_event g (Z.ldiff (eg_event g) mask) else g in
  einv (es_set_group y (ec_group c) g') (<[t := ec_set_pc c (EExit MINI_OK out false)]> calls)
    (EDone (ec_group c) t (EWait mask tm dl) out :: log).
Proof.
  intros Hi Hc Ht Hn Hg Ea Hs out g'. pose proof (go_replay _ _ _ _ _ (ei_group _ _ _ Hi _ _ Hg)) as Hr.
  apply (einv_body y calls log t c th g); try done.
  - subst g'. by destruct (eg_auto_clear g).
  - intros m Hm. subst g'. destruct (eg_auto_clear g); [|done]. by apply satisfied_clear.
  - simpl. rewrite Hr. split; [done|]. apply Hi.
  - intros e' Hne. simpl. destruct (Z.eqb_spec (ec_group c) e'); [congruence|done].
  - simpl. rewrite Z.eqb_refl. simpl. rewrite Hr. subst g'. destruct (eg_auto_clear g) eqn:Eauto; simpl; by rewrite ?Eauto.
Qed.

Lemma wait_ok_turn y calls log t c th g mask tm dl :
  einv y calls log -> calls !! t = Some c -> current_thread (e_kern y) = Some t -> may_call (e_kern y) ->
  threads (e_kern y) !! t = Some th -> egroups y !! ec_group c = Some g -> ec_action c = EWait mask tm dl ->
  ∃ r out y', event_wait_turn y (ec_group c) mask tm dl = Some (r, out, y') /\
    match r with
    | Leave err => einv y' (<[t := ec_set_pc c (EExit err out false)]> calls)
                     (if err =? MINI_OK then EDone (ec_group c) t (EWait mask tm dl) out :: log else log)
    | Park => einv y' (<[t := ec_set_pc c EParked]> calls) log
    | Again => einv y' (<[t := ec_set_pc c EBody]> calls) log
    end.
Proof.
  intros Hi Hc Hcur Hm Ht Hg Ea. pose proof (running_free _ _ _ (ei_wf _ _ _ Hi) Hm Hcur Ht) as Hn.
  unfold event_wait_turn. rewrite Hg. cbn [mbind option_bind]. destruct (mini_os_event_satisfied g mask) eqn:Es.
  { eexists _, _, _. split; [done|]. cbn iota. rewrite Z.eqb_refl.
    pose proof (taken y calls log t c th g mask tm dl Hi Hc Ht Hn Hg Ea Es) as H. cbv zeta in H.
    destruct (eg_auto_clear g); [done|]. by rewrite set_group_id in H. }
  assert (∀ err, err ≠ MINI_OK -> einv y (<[t := ec_set_pc c (EExit err None false)]> calls)
    (if err =? MINI_OK then EDone (ec_group c) t (EWait mask tm dl) None :: log else log)) as Hleave.
  { intros err He. destruct (Z.eqb_spec err MINI_OK); [done|]. by apply (einv_pc y calls log t c th). }
  destruct (mini_os_obj_is_destroyed (eg_obj g)) eqn:Ed.
  { eexists _, _, _. split; [done|]. by apply Hleave. }
  destruct (go_list _ _ _ _ _ (ei_group _ _ _ Hi _ _ Hg)) as (l & El & _).
  pose proof (ec_ok_action _ _ _ (ei_call _ _ _ Hi _ _ Hc)) as Ha. rewrite Ea in Ha. destruct Ha as [Htm Hdl].
  destruct (block_on_ok (e_kern y) t th (ec_group c) mask tm dl (ec_group c) l)
    as [(err & -> & Herr)|(k' & th' & -> & Hw' & Hl' & Hf & Hwl & Hmk & Hdue & _)]; try done; try apply Hi; cbn [mbind option_bind].
  - eexists _, _, _. split; [done|]. destruct y. by apply Hleave.
  - eexists _, _, _. split; [done|]. by apply (event_park_call y calls log t c g mask tm dl k' th').
Qed.

Lemma body_ok y calls log t c :
  einv y calls log -> calls !! t = Some c -> current_thread (e_kern y) = Some t -> may_call (e_kern y) -> ec_pc c = EBody ->
  ∃ x', event_next (mk_emachine y calls log) t = Some x' /\ eok x'.
Proof.
  intros Hi Hc Hcur Hm Hp. destruct (ei_call _ _ _ Hi _ _ Hc) as [[g Hg] Ha (th & Ht & _)].
  pose proof (running_free _ _ _ (ei_wf _ _ _ Hi) Hm Hcur Ht) as Hn.
  pose proof (go_replay _ _ _ _ _ (ei_group _ _ _ Hi _ _ Hg)) as Hr.
  unfold event_next. simpl. rewrite Hc. cbn [mbind option_bind]. rewrite Hp. unfold event_body. rewrite Hg. cbn [mbind option_bind].
  assert (∀ a e', e' ≠ ec_group c -> ∀ out, replay (EDone (ec_group c) t a out :: log) e' = replay log e') as Hother.
  { intros a e' Hne out. simpl. destruct (Z.eqb_spec (ec_group c) e'); [congruence|done]. }
  assert (∀ a g' out yields, eg_obj g' = eg_obj g ->
    (∀ mask, mini_os_event_satisfied g mask = false -> mini_os_event_satisfied g' mask = false) ->
    reports_ok (EDone (ec_group c) t a out :: log) ->
    replay (EDone (ec_group c) t a out :: log) (ec_group c) = (eg_event g', eg_type g', eg_auto_clear g') ->
    eok (mk_emachine (es_set_group y (ec_group c) g') (<[t := ec_set_pc c (EExit MINI_OK out yields)]> calls)
          (EDone (ec_group c) t a out :: log))) as Hgoes.
  { intros a g' out yields Eo Hs Hlog Hrep. apply (einv_body y calls log t c th g); try done. intros e' ?. by apply Hother. }
  pose proof (ei_log _ _ _ Hi) as Hlog.
  destruct (ec_action c) as [event| |event|b|mask tm dl] eqn:Ea.
  - unfold mini_os_event_apply. rewrite Hg. cbn [mbind option_bind].
    destruct (set_ok y calls log t (ec_group c) g event Hi Hg) as (b & k' & -> & _ & Hthr & Hi'). cbn [mbind option_bind].
    eexists. split; [done|]. rewrite Z.eqb_refl. apply (einv_pc _ calls _ t c th); [done|done|by apply Hthr|done].
  - eexists. split; [done|]. rewrite Z.eqb_refl. rewrite <- (set_group_id y (ec_group c) g Hg).
    apply Hgoes; try done; simpl; rewrite ?Z.eqb_refl; simpl; by rewrite Hr.
  - eexists. split; [done|]. rewrite Z.eqb_refl. apply Hgoes; try done.
    + intros mask. apply satisfied_clear.
    + simpl. by rewrite Hr.
    + simpl. rewrite Z.eqb_refl. simpl. by rewrite Hr.
  - eexists. split; [done|]. rewrite Z.eqb_refl. apply Hgoes; try done.
    + simpl. by rewrite Hr.
    + simpl. rewrite Z.eqb_refl. simpl. by rewrite Hr.
  - destruct (wait_ok_turn y calls log t c th g mask tm dl) as (r & out & y' & -> & H); try done. cbn [mbind option_bind].
    eexists. split; [done|]. destruct r as [err| |]; exact H.
Qed.

Lemma event_park_end_ok y calls log t c :
  einv y calls log -> calls !! t = Some c -> current_thread (e_kern y) = Some t -> may_call (e_kern y) -> ec_pc c = EParked ->
  ∃ x', event_next (mk_emachine y calls log) t = Some x' /\ eok x'.
Proof.
  intros Hi Hc Hcur Hm Hp. destruct (ei_call _ _ _ Hi _ _ Hc) as [[g Hg] Ha (th & Ht & _)].
  pose proof (running_free _ _ _ (ei_wf _ _ _ Hi) Hm Hcur Ht) as Hn.
  unfold event_next. simpl. rewrite Hc. cbn [mbind option_bind]. rewrite Hp. unfold park_end, sync_wait_resume. rewrite Ht.
  cbn [mbind option_bind]. eexists. split; [done|]. unfold eok. cbn [em_sys em_calls em_log].
  match goal with |- einv _ (<[t := ?c']> calls) _ => apply (einv_thread y _ log t c' th); try done end.
  - by apply (einv_pc y calls log t c th).
  - apply lookup_insert_eq.
  - eapply wf_set_thread; [apply Hi|exact Ht|done|done|]. destruct (wf_threads _ (ei_wf _ _ _ Hi) _ _ Ht). by split.
  - eapply level_frame; [apply (ei_level _ _ _ Hi)|apply frame_set|by left].
Qed.

(** The last reference to a deleted group is gone. *)
Lemma event_storage_ok y calls log e :
  einv y calls log -> (∀ t c, calls !! t = Some c -> ec_group c ≠ e) -> wait_lists (e_kern y) !! e = Some [] ->
  einv (event_free_storage y e) calls log.
Proof.
  intros Hi Hno Hl. apply (einv_change {[e]} y calls log); try done.
  - by apply wf_wait_list_drop; [apply Hi|].
  - exact (ei_level _ _ _ Hi).
  - apply Hi.
  - intros e' Hn. rewrite not_elem_of_singleton in Hn. simpl. by rewrite lookup_delete_ne.
  - intros e' Hn. rewrite not_elem_of_singleton in Hn. simpl. by rewrite lookup_delete_ne.
  - intros t c th Hc _ Ht. exists th. split; [done|]. by apply kept_same.
  - intros e' g' ->%elem_of_singleton. simpl. by rewrite lookup_delete_eq.
  - intros t c Hc E%elem_of_singleton. by destruct (Hno t c).
  - intros t th Ht Hn. by apply (ei_wait _ _ _ Hi t th).
Qed.

Lemma exit_ok y calls log t c err out yields :
  einv y calls log -> calls !! t = Some c -> current_thread (e_kern y) = Some t -> may_call (e_kern y) -> ec_pc c = EExit err out yields ->
  ∃ x', event_next (mk_emachine y calls log) t = Some x' /\ eok x'.
Proof.
  intros Hi Hc Hcur Hm Hp. destruct (ei_call _ _ _ Hi _ _ Hc) as [[g Hg] Ha (th & Ht & _)].
  pose proof (running_free _ _ _ (ei_wf _ _ _ Hi) Hm Hcur Ht) as Hn. pose proof (ei_group _ _ _ Hi _ _ Hg) as [G1 G2 G3 G4 G5].
  set (e := ec_group c) in *. pose proof (count_delete (within e) calls t c Hc) as Hcd.
  pose proof (calls_count_nonneg (within e) (delete t calls)) as Hnn. unfold within at 3 in Hcd. fold e in Hcd. rewrite Z.eqb_refl in Hcd. simpl in Hcd.
  unfold event_next. simpl. rewrite Hc. cbn [mbind option_bind]. rewrite Hp. unfold event_release. fold e. rewrite Hg. cbn [mbind option_bind].
  unfold mini_os_obj_release. assert (0 < obj_ref (eg_obj g)) as Hr by (destruct (mini_os_obj_is_destroyed _); lia).
  destruct (Z.gtb_spec (obj_ref (eg_obj g)) 0); [|lia]. unfold u8. rewrite Z.mod_small by lia.
  set (o := mk_obj _ _). assert (mini_os_obj_is_destroyed o = mini_os_obj_is_destroyed (eg_obj g)) as Ed by done.
  change (obj_ref o) with (obj_ref (eg_obj g) - 1). rewrite Ed. cbn [mbind option_bind].
  assert (einv (es_set_group y e (eg_set_obj g o)) (delete t calls) (EEnded e t (ec_action c) err out :: log)) as Hi1.
  { apply einv_ended, (einv_record y calls log e); try done.
    - apply Hi.
    - intros t' d Hd. destruct (decide (t' = t)) as [->|]; [|by rewrite lookup_delete_ne].
      rewrite lookup_delete_eq. split; [done|]. intros E. assert (d = c) as -> by congruence. done.
    - intros t' th' Ht' Hn' [d Hd]. rewrite lookup_delete_ne; [eauto|]. intros ->. congruence.
    - split; cbn [eg_set_obj eg_obj]; [by rewrite Ed|done| |simpl; lia|done]. rewrite Ed, Hcd. simpl. lia.
    - intros t' d [_ Hd]%lookup_delete_Some _. apply (ecall_record _ _ _ _ g); [done..|]. by apply (ei_call _ _ _ Hi). }
  assert (∀ y', einv y' (delete t calls) (EEnded e t (ec_action c) err out :: log) ->
    eok (mk_emachine (if yields then es_set_kern y' (mini_os_schedule_yield (e_kern y')).2 else y') (delete t calls)
          (EEnded e t (ec_action c) err out :: log))) as Hy.
  { intros y' Hi'. destruct yields; [by apply einv_yield|done]. }
  eexists. split; [done|]. apply Hy. destruct (_ && _) eqn:Eb; [|done]. bool_to_prop.
  rename select (mini_os_obj_is_destroyed _ = true) into Ed'.
  assert (event_free_storage y e = event_free_storage (es_set_group y e (eg_set_obj g o)) e) as ->.
  { unfold event_free_storage. simpl. by rewrite delete_insert_eq. }
  apply event_storage_ok; [done| |].
  - intros t' d Hd Eq. rewrite Ed' in G3. assert (within e t' d = false) as E.
    { apply (calls_count_zero (within e) (delete t calls)); [lia|done]. }
    unfold within in E. by rewrite Eq, Z.eqb_refl in E.
  - simpl. destruct G1 as (l & El & [->|]); [done|congruence].
Qed.

Lemma event_next_step_ok x :
  eok x -> may_call (e_kern (em_sys x)) -> match t ← current_thread (e_kern (em_sys x)); em_calls x !! t with Some _ => True | None => False end ->
  ∃ x' : event_machine, (t ← current_thread (e_kern (em_sys x)); event_next x t) = Some x' /\ eok x'.
Proof.
  destruct x as [y calls log]. unfold eok. simpl. intros Hi Hm Hc.
  destruct (current_thread (e_kern y)) as [t|] eqn:Et; [|done]. cbn [mbind option_bind] in *.
  destruct (calls !! t) as [c|] eqn:Ec; [|done]. destruct (ec_pc c) eqn:Ep.
  - by eapply body_ok.
  - by eapply event_park_end_ok.
  - by eapply exit_ok.
Qed.

(** ** The other operations *)

Lemma event_kernel_part_ok ts lt x op :
  eok x -> event_op_ok x (EKernel op) -> ∃ x', event_step ts lt x (EKernel op) = Some x' /\ eok x'.
Proof.
  intros Hi (Hp & Hok & _). unfold event_step.
  destruct (kernel_step_ok ts lt _ op (ei_wf _ _ _ Hi) (ei_level _ _ _ Hi) Hok) as (k' & E & Hw & Hl).
  destruct (plain_step ts lt _ op (ei_wf _ _ _ Hi) (λ _ _, ei_level _ _ _ Hi) Hp Hok) as (k1 & E1 & _ & Hg & _).
  assert (k1 = k') as -> by congruence. rewrite E. cbn [mbind option_bind]. eexists. split; [done|].
  apply einv_kernel; try done. apply (step_due ts lt _ op _ (ei_wf _ _ _ Hi) (ei_level _ _ _ Hi) Hok); [|done].
  intros wl. by destruct op, wl.
Qed.

Lemma event_create_ok x e event_id type static :
  eok x -> event_op_ok x (ECreate e event_id type static) ->
  ∃ x', event_step false false x (ECreate e event_id type static) = Some x' /\ eok x'.
Proof.
  destruct x as [y calls log]. unfold eok, event_step. cbn [em_sys em_calls em_log]. intros Hi [Hg Hw]. cbn [em_sys] in *.
  assert ((if static then mini_os_event_group_create_static y (Some e) event_id type
           else mini_os_event_group_create y (Some e) event_id type) = (Some e, event_group_init y e event_id type (negb static))) as ->
    by by destruct static.
  eexists. split; [done|]. cbn [em_sys em_calls em_log].
  assert (∀ t c, calls !! t = Some c -> ec_group c ≠ e) as Hno.
  { intros t c Hc E. destruct (ei_call _ _ _ Hi _ _ Hc) as [[g ?] _ _]. congruence. }
  assert (count (within e) calls = 0) as Hzero.
  { unfold count. assert (filter (λ p : Z * event_call, within e p.1 p.2 = true) calls = ∅) as ->; [|by rewrite map_size_empty].
    apply map_empty. intros t. apply map_lookup_filter_None. right. intros c Hc E. by apply (Hno t c), Z.eqb_eq. }
  apply (einv_change {[e]} y calls log); try done.
  - by apply wf_wait_list_init; [apply Hi|].
  - exact (ei_level _ _ _ Hi).
  - apply Hi.
  - intros e' Hn. rewrite not_elem_of_singleton in Hn. simpl. rewrite lookup_insert_ne by done.
    by destruct (Z.eqb_spec e e'); [congruence|].
  - intros e' Hn. rewrite not_elem_of_singleton in Hn. simpl. by rewrite lookup_insert_ne.
  - intros t c th _ _ Ht. exists th. split; [done|]. by apply kept_same.
  - intros e' g ->%elem_of_singleton. simpl. rewrite lookup_insert_eq. intros [= <-]. split; simpl.
    + exists []. split; [apply lookup_insert_eq|by left].
    + by destruct static.
    + rewrite Hzero. by destruct static.
    + lia.
    + by rewrite Z.eqb_refl.
  - intros t c Hc E%elem_of_singleton. by destruct (Hno t c).
  - intros t th Ht Hn. by apply (ei_wait _ _ _ Hi t th).
Qed.

Lemma event_enable_kill_ok x e :
  eok x -> event_op_ok x (EEnableKill e) -> ∃ x', event_step false false x (EEnableKill e) = Some x' /\ eok x'.
Proof.
  destruct x as [y calls log]. unfold eok. simpl. intros Hi [g Hg]. rewrite Hg. simpl.
  eexists. split; [done|]. destruct (kill_flag (eg_obj g)) as [K1 K2].
  pose proof (ei_group _ _ _ Hi _ _ Hg) as [G1 G2 G3 G4 G5]. apply (einv_record y calls log); try done.
  - apply Hi.
  - split; cbn [eg_set_obj eg_obj]; [by rewrite K1|by rewrite K2|by rewrite K1|done|done].
  - intros t c Hc _. apply (ecall_record _ _ _ _ g); [done..|]. by apply (ei_call _ _ _ Hi).
Qed.

(** A group on which nothing waits has an empty list. *)
Lemma no_waiters y calls log e g :
  einv y calls log -> egroups y !! e = Some g -> (∀ t c, calls !! t = Some c -> ec_group c ≠ e) -> wait_lists (e_kern y) !! e = Some [].
Proof.
  intros Hi Hg Hno. destruct (go_list _ _ _ _ _ (ei_group _ _ _ Hi _ _ Hg)) as (l & El & _). destruct l as [|t l]; [done|]. exfalso.
  destruct (waiter_spec _ _ _ t (ei_wf _ _ _ Hi) El) as (th & Ht & Hwl & _); [apply elem_of_cons; auto|].
  destruct (ei_wait _ _ _ Hi t th Ht) as [c Hc]; [congruence|]. destruct (ei_call _ _ _ Hi _ _ Hc) as [_ _ (th' & Ht' & Hx)].
  assert (th' = th) as -> by congruence. destruct Hx as (_ & E & _); [congruence|]. apply (Hno t c); congruence.
Qed.

Lemma event_delete_ok x e :
  eok x -> event_op_ok x (EDelete e) -> ∃ x', event_step false false x (EDelete e) = Some x' /\ eok x'.
Proof.
  destruct x as [y calls log]. unfold eok, event_step. cbn [em_sys em_calls em_log]. intros Hi Hd. simpl in Hd.
  destruct (egroups y !! e) as [g|] eqn:Hg; [|done].
  pose proof (ei_group _ _ _ Hi _ _ Hg) as [G1 G2 G3 G4 G5]. pose proof (calls_count_nonneg (within e) calls) as Hnn. rewrite Hd in G3.
  unfold mini_os_event_group_delete. rewrite Hg. cbn [mbind option_bind].
  destruct (negb (mini_os_obj_is_heap_owned _)); [eexists; split; [done|exact Hi]|].
  destruct (_ && _) eqn:E1; [eexists; split; [done|exact Hi]|]. unfold mini_os_obj_user_count in *.
  rewrite request_destroy_eq by lia. cbv zeta.
  set (o := mk_obj (obj_ref (eg_obj g) - 1) _). destruct (destroy_flags (eg_obj g) (obj_ref (eg_obj g) - 1)) as [D1 D2]. fold o in D1, D2.
  destruct (Z.gtb_spec (obj_ref (eg_obj g)) 1) as [Hu|Hu].
  - unfold mini_os_event_kill_waiters. set (d := _ =? _).
    destruct (wake_all_ok (e_kern y) e d (ei_wf _ _ _ Hi) (ei_level _ _ _ Hi)) as (b & k' & -> & Hw & Hl & Hv & Hnone & Hthr).
    { destruct G1 as (l & El & _). eauto. }
    cbn [mbind option_bind]. destruct (Z.gtb_spec (obj_ref (eg_obj g) - 1) 0); [|lia]. cbn [mbind option_bind].
    eexists. split; [done|]. cbn [em_sys em_calls em_log].
    assert (einv (es_set_group (es_set_kern y k') e (eg_set_obj g o)) calls log) as Hi'; [|destruct b; [|exact Hi']].
    2:{ match goal with |- einv ?y' _ _ => replace y' with (es_set_kern (es_set_group (es_set_kern y k') e (eg_set_obj g o)) (mini_os_schedule_yield k').2) by done end.
        exact (einv_yield _ _ _ Hi'). }
    apply (einv_waiters y calls log e g); try done.
    + intros t. destruct (Hthr t) as [|(th & ? & ? & ?)]; [by left|]. right. exists th, (woken th d). repeat (split; [done|]).
      unfold woken. by destruct (_ <? _).
    + intros t th Ht Hs. by destruct (Hnone t th).
    + apply Hi.
    + split; cbn [eg_set_obj eg_obj]; [|by rewrite D2|rewrite D1; simpl; lia|simpl; lia|done].
      destruct G1 as (l & El & _). assert (is_Some (wait_lists k' !! e)) as [l' El'].
      { apply elem_of_dom. rewrite (sv_waits _ _ Hv). apply elem_of_dom. eauto. }
      exists l'. split; [done|]. left. destruct l' as [|t l']; [done|].
      destruct (waiter_spec _ _ _ t Hw El') as (th & Ht & Hs & _); [apply elem_of_cons; auto|]. by destruct (Hnone t th).
  - (* the only user is the creator *)
    assert (obj_ref (eg_obj g) = 1 /\ count (within e) calls = 0) as [Hr Hc0] by lia. cbn [mbind option_bind].
    rewrite Hr. destruct (Z.gtb_spec (1 - 1) 0); [lia|]. cbn [mbind option_bind].
    eexists. split; [done|]. cbn [em_sys em_calls em_log].
    match goal with |- einv (event_free_storage ?y' e) _ _ => assert (event_free_storage y' e = event_free_storage y e) as -> end.
    { unfold event_free_storage. simpl. by rewrite delete_insert_eq. }
    assert (∀ t c, calls !! t = Some c -> ec_group c ≠ e) as Hno.
    { intros t c Hc Eq. assert (within e t c = false) as E by by apply (calls_count_zero (within e) calls).
      unfold within in E. by rewrite Eq, Z.eqb_refl in E. }
    apply event_storage_ok; [done..|]. by apply (no_waiters y calls log e g).
Qed.

Lemma wake_satisfied_ext g g' :
  eg_type g' = eg_type g -> eg_event g' = eg_event g -> ∀ nodes k b, wake_satisfied_loop k g' nodes b = wake_satisfied_loop k g nodes b.
Proof.
  intros E1 E2 nodes. induction nodes as [|t nodes IH]; intros k b; [done|]. simpl. destruct (threads k !! t) as [th|]; [|done].
  cbn [mbind option_bind]. unfold mini_os_event_satisfied. rewrite E1, E2. destruct (negb _); [apply IH|].
  destruct (mini_os_sync_wake_thread k t true); [|done]. apply IH.
Qed.

Lemma set_isr_ok x e event :
  eok x -> event_op_ok x (ESetIsr e event) -> ∃ x', event_step false false x (ESetIsr e event) = Some x' /\ eok x'.
Proof.
  destruct x as [y calls log]. unfold eok, event_step. cbn [em_sys em_calls em_log]. intros Hi [g Hg]. cbn [em_sys] in Hg.
  pose proof (ei_group _ _ _ Hi _ _ Hg) as [_ _ G3 G4 _]. pose proof (calls_count_nonneg (within e) calls) as Hnn.
  unfold mini_os_event_group_set_isr, event_acquire. rewrite Hg. cbn [mbind option_bind].
  unfold mini_os_obj_acquire. destruct (mini_os_obj_is_destroyed (eg_obj g)) eqn:Ed; cbn [mbind option_bind].
  { eexists. split; [done|]. cbn [em_sys em_calls em_log]. replace (es_set_group _ _ _) with y; [done|].
    symmetry. apply set_group_id. by destruct g as [?? ? []]. }
  rewrite Z.eqb_refl. cbn [negb]. unfold mini_os_event_apply. cbn [egroups es_set_group e_kern]. rewrite lookup_insert_eq.
  cbn [mbind option_bind eg_set_obj eg_type eg_event].
  destruct (set_ok y calls log 0 e g event Hi Hg) as (b & k' & E & _ & _ & Hi').
  unfold mini_os_event_wake_satisfied in *. destruct (wait_lists (e_kern y) !! e) as [l|]; [|done]. cbn [mbind option_bind] in E |- *.
  match goal with |- context [wake_satisfied_loop _ ?g2 _ _] => rewrite (wake_satisfied_ext (eg_set_event g (new_flags (eg_type g) (eg_event g) event)) g2) by done end.
  rewrite E. cbn [mbind option_bind]. unfold event_release. cbn [egroups es_set_group]. rewrite lookup_insert_eq. cbn [mbind option_bind].
  unfold mini_os_obj_release. cbn [eg_set_event eg_set_obj eg_obj obj_ref obj_flags].
  assert (u8 (obj_ref (eg_obj g) + 1) = obj_ref (eg_obj g) + 1) as -> by (apply Z.mod_small; lia).
  destruct (Z.gtb_spec (obj_ref (eg_obj g) + 1) 0); [|lia]. cbn [obj_ref obj_flags]. assert (u8 (obj_ref (eg_obj g) + 1 - 1) = obj_ref (eg_obj g)) as ->
    by (unfold u8; rewrite Z.mod_small; lia).
  replace (mk_obj (obj_ref (eg_obj g)) (obj_flags (eg_obj g))) with (eg_obj g) by by destruct (eg_obj g).
  rewrite Ed, andb_false_r. cbn [mbind option_bind]. eexists. split; [done|]. cbn [em_sys em_calls em_log].
  rewrite Z.eqb_refl. match goal with |- einv ?y' _ _ => replace y' with (es_set_group (es_set_kern y k') e (eg_set_event g (new_flags (eg_type g) (eg_event g) event))) end; [done|].
  unfold es_set_group. cbn [egroups es_set_kern e_kern]. by rewrite !insert_insert_eq.
Qed.

Lemma event_step_ok ts lt x op : eok x -> event_op_ok x op -> ∃ x', event_step ts lt x op = Some x' /\ eok x'.
Proof.
  intros Hi Hok. destruct op as [op|e ev ty s|e|e|e a| |e ev].
  - by apply event_kernel_part_ok.
  - by apply event_create_ok.
  - by apply event_delete_ok.
  - by apply event_enable_kill_ok.
  - by apply event_enter_ok.
  - destruct Hok as [Hm Hc]. by apply event_next_step_ok.
  - by apply set_isr_ok.
Qed.
Lemma event_run_ok ts lt x ops :
  eok x -> event_ops_ok ts lt x ops -> ∃ x', event_run ts lt x ops = Some x' /\ eok x'.
Proof.
  revert x. induction ops as [|op ops IH]; intros x Hi; simpl; [eauto|]. intros [Hop Hops].
  destruct (event_step_ok ts lt x op Hi Hop) as (x1 & E & Hi1). rewrite E in Hops |- *. simpl. eauto.
Qed.
Lemma event_boot_ok : eok boot_emachine.
Proof. split; simpl; try done. apply boot_wf. Qed.

(** ** The theorems *)

(** C18: Whatever the order of sets, gets, clears, waits with any time limit, sets from
    interrupts, deletions, delays, ticks and switches between the steps of the calls, no step
    goes wrong; the flags of each group are those that the completed calls leave, taken in
    their order; and each wait that succeeded did so at a moment when its flags were set,
    reported those of them that were, and with auto clear took them from the group. *)
Theorem event_waits_exact time_slice long_time ops :
  event_ops_ok time_slice long_time boot_emachine ops ->
  ∃ x, event_run time_slice long_time boot_emachine ops = Some x /\ reports_ok (em_log x) /\
    ∀ e g, egroups (em_sys x) !! e = Some g -> replay (em_log x) e = (eg_event g, eg_type g, eg_auto_clear g).
Proof.
  intros Hok. destruct (event_run_ok time_slice long_time _ ops event_boot_ok Hok) as (x & E & Hi). exists x. split; [done|].
  split; [apply Hi|]. intros e g Hg. apply (go_replay _ _ _ _ _ (ei_group _ _ _ Hi _ _ Hg)).
Qed.

(** Two threads wait for any flag of a group that takes the flags it reports; one set
    satisfies both, and the one that runs first gets them. *)
Definition event_ops : list event_op :=
  [EKernel (KCreate 1 5 512 4096); EKernel (KCreate 2 5 512 8192); EKernel (KCreate 3 5 512 12288); ECreate 10 0 EVENT_OR_TYPE true;
   EKernel KSwitch; ECall 10 (EWait 3 (-1) 0); ENext; EKernel KSwitch; ECall 10 (EWait 1 20 0); ENext; EKernel KSwitch;
   ECall 10 (ESet 5); ENext; ENext; EKernel KTick; EKernel KSwitch; ENext; ENext; ENext].

Lemma event_waits_exact_witness :
  ∃ x, event_run true true boot_emachine event_ops = Some x /\ reports_ok (em_log x) /\
    head (em_log x) = Some (EEnded 10 1 (EWait 3 (-1) 0) MINI_OK (Some 1)) /\ replay (em_log x) 10 = (4, EVENT_OR_TYPE, true).
Proof.
  destruct (event_waits_exact true true event_ops) as (x & E & Hr & Hg).
  - vm_compute. repeat split; try discriminate; eexists; reflexivity.
  - assert (match event_run true true boot_emachine event_ops with
            | Some x => head (em_log x) = Some (EEnded 10 1 (EWait 3 (-1) 0) MINI_OK (Some 1)) /\
                        (egroups (em_sys x) !! 10) = Some (mk_egroup 4 EVENT_OR_TYPE true (mk_obj 2 0))
            | None => False
            end) as Hx by (vm_compute; repeat split).
    rewrite E in Hx. destruct Hx as [Hh Hgr]. exists x. exact (conj E (conj Hr (conj Hh (Hg 10 _ Hgr)))).
Defined.

(** The call waits for flags that its group does not hold, and until its deadline. *)
Definition rightly_parked (y : esys) (th : thread) (c : event_call) : Prop :=
  ∃ g mask timeout_tick deadline, ec_action c = EWait mask timeout_tick deadline /\
    th_wait_list th = Some (ec_group c) /\ egroups y !! ec_group c = Some g /\
    mini_os_event_satisfied g mask = false /\ mini_os_obj_is_destroyed (eg_obj g) = false /\
    due (e_kern y) th = due_at timeout_tick deadline.

(** C19: At every moment of every such run, a thread parked on a group is there for flags that
    the group does not hold, and the group is not deleted: no set and no deletion misses a
    waiter.  It is woken by the time wheel exactly at the tick that its call computed at its
    start, however often it was woken for flags that another thread took, and without a time
    limit by no tick. *)
Theorem event_nobody_sleeps time_slice long_time ops :
  event_ops_ok time_slice long_time boot_emachine ops ->
  ∃ x, event_run time_slice long_time boot_emachine ops = Some x /\
    ∀ t th, threads (e_kern (em_sys x)) !! t = Some th -> th_wait_list th ≠ None ->
      ∃ c, em_calls x !! t = Some c /\ rightly_parked (em_sys x) th c.
Proof.
  intros Hok. destruct (event_run_ok time_slice long_time _ ops event_boot_ok Hok) as (x & E & Hi). exists x. split; [done|].
  intros t th Ht Hn. destruct (ei_wait _ _ _ Hi t th Ht Hn) as [c Hc].
  destruct (ei_call _ _ _ Hi _ _ Hc) as [[g Hg] _ (th' & Ht' & Hx)]. assert (th' = th) as -> by congruence.
  destruct (Hx Hn) as (X1 & X2 & mask & tm & dl & X3 & X4 & X5 & X6). exists c.
  split; [done|]. exists g, mask, tm, dl. split; [done|]. split; [done|]. split; [done|]. split; [by apply X6|]. split; [|done].
  destruct (go_list _ _ _ _ _ (ei_group _ _ _ Hi _ _ Hg)) as (l & El & [->|]); [|done].
  pose proof (waits_in_list _ _ _ _ _ (ei_wf _ _ _ Hi) Ht X2 El) as Hin. by apply not_elem_of_nil in Hin.
Qed.

(** The thread that comes second finds the flags taken and parks again, for tick 20. *)
Definition beaten_ops : list event_op :=
  event_ops ++ [EKernel (KDelay 9); EKernel KSwitch; EKernel (KDelay 9); EKernel KSwitch; ENext; ENext].

Lemma event_nobody_sleeps_witness :
  ∃ x th g, event_run true true boot_emachine beaten_ops = Some x /\ threads (e_kern (em_sys x)) !! 2 = Some th /\
    egroups (em_sys x) !! 10 = Some g /\ eg_event g = 4 /\ mini_os_event_satisfied g 1 = false /\
    due (e_kern (em_sys x)) th = Some 20.
Proof.
  destruct (event_nobody_sleeps true true beaten_ops) as (x & E & H).
  - vm_compute. repeat split; try discriminate; eexists; reflexivity.
  - assert (match event_run true true boot_emachine beaten_ops with
            | Some x => (th_wait_list <$> threads (e_kern (em_sys x)) !! 2) = Some (Some 10) /\
                        (em_calls x !! 2) = Some (mk_ecall 10 (EWait 1 20 20) EParked) /\
                        (egroups (em_sys x) !! 10) = Some (mk_egroup 4 EVENT_OR_TYPE true (mk_obj 2 0))
            | None => False
            end) as Hx by (vm_compute; repeat split).
    rewrite E in Hx. destruct Hx as (Hw & Hc & Hg). destruct (threads (e_kern (em_sys x)) !! 2) as [th|] eqn:Et; [|discriminate].
    injection Hw as Hw. destruct (H 2 th Et) as (c & Ec & g & m & tm & dl & Ea & _ & Eg & Hs & _ & Hd); [congruence|].
    rewrite Hc in Ec. injection Ec as <-. injection Ea as <- <- <-. cbn [ec_group] in Eg. rewrite Hg in Eg. injection Eg as <-.
    exists x, th, (mk_egroup 4 EVENT_OR_TYPE true (mk_obj 2 0)). exact (conj E (conj Et (conj Hg (conj eq_refl (conj Hs Hd))))).
Defined.

(** ** A finding *)

(** A thread waits for a flag of a WHOLE group.  The flag is set, which wakes it, and before
    it runs another flag is set, which replaces the first: no thread took the flag, and the
    waiter parks again and has missed it. *)
Definition missed_ops : list event_op :=
  [EKernel (KCreate 1 5 512 4096); ECreate 10 0 EVENT_WHOLE_TYPE true; EKernel KSwitch; ECall 10 (EWait 1 (-1) 0); ENext;
   ESetIsr 10 1; ESetIsr 10 2; EKernel KSwitch; ENext; ENext].
Theorem replaced_flag_missed :
  (x ← event_run true true boot_emachine missed_ops; c ← em_calls x !! 1; Some (em_log x, ec_pc c))
  = Some ([EDone 10 0 (ESet 2) None; EDone 10 0 (ESet 1) None; EMade 10 0 EVENT_WHOLE_TYPE], EParked).
Proof. vm_compute. reflexivity. Qed.
