(* ===== verification/MiniTimer.v ===== *)
(** * mini-os timers

    Models src/lib/mini-os/src/timer.c (compiled with MINI_OS_TIMER) and the SysTick handler
    with it.  The lists of the timer wheel and of the pending SOFT timers are sequences of
    timers, as [MiniList] shows the pointer lists implement them; the walk of the tick over a
    slot follows the next pointers, because a callback may change the lists under it.  [None]
    is an access to a timer that is gone, the linking of a node that is linked already, the
    use of a list head as a timer, or a walk that does not end.  What a callback does is a
    parameter: the calls it makes to this module.  The service thread is a machine with a step
    for each critical section and for each read outside of one; a start is the checks before
    its critical section and the section.  What holds is in [MiniTimerInv]. *)

From S2P Require Import Prelude Status MiniList MiniSched MiniKernel MiniSem.
From stdpp Require Import gmap functions.

#[local] Open Scope Z_scope.

Definition MINI_OS_TIMER_FLAG_PERIODIC : Z := 1.
Definition MINI_OS_TIMER_FLAG_SOFT : Z := 2.
Definition MINI_OS_TIMER_FLAG_ACTIVE : Z := 4.
Definition MINI_OS_TIMER_THREAD_PRIORITY : Z := MINI_OS_PRIORITY - 2.
Definition MINI_OS_TIMER_THREAD_STACK_SIZE : Z := 512.

(** [mini_os_timer_t] without the nodes and the name; a callback of 0 is NULL. *)
Record timer := mk_timer {
  tm_callback : Z;
  tm_arg : Z;
  tm_trigger_tick : Z;
  tm_round : Z;
  tm_flag : Z;
  tm_obj : obj
}.
Definition tm_set_callback (tm : timer) (cb arg : Z) : timer := mk_timer cb arg (tm_trigger_tick tm) (tm_round tm) (tm_flag tm) (tm_obj tm).
Definition tm_set_trigger (tm : timer) (v : Z) : timer := mk_timer (tm_callback tm) (tm_arg tm) v (tm_round tm) (tm_flag tm) (tm_obj tm).
Definition tm_set_round (tm : timer) (v : Z) : timer := mk_timer (tm_callback tm) (tm_arg tm) (tm_trigger_tick tm) v (tm_flag tm) (tm_obj tm).
Definition tm_set_flag (tm : timer) (v : Z) : timer := mk_timer (tm_callback tm) (tm_arg tm) (tm_trigger_tick tm) (tm_round tm) v (tm_obj tm).
Definition tm_has (tm : timer) (f : Z) : bool := negb (Z.land (tm_flag tm) f =? 0).

(** [s_timer_wheel] and [s_soft_pending]. *)
Inductive timer_head := TimerSlot (s : Z) | SoftPending.
#[export] Instance timer_head_eq_dec : EqDecision timer_head.
Proof. solve_decision. Defined.
Inductive timer_node := TimerNode (u : Z) | TimerHead (h : timer_head).
#[export] Instance timer_node_eq_dec : EqDecision timer_node.
Proof. solve_decision. Defined.

(** The variables of timer.c, with the kernel and its semaphores. *)
Record tsys := mk_tsys {
  t_sync : sync;
  timers : gmap Z timer;
  timer_lists : timer_head -> list Z;
  s_timer_slot : Z;
  s_timer_thread : option Z
}.
Definition t_kern (y : tsys) : kernel := kern (t_sync y).
Definition ts_set_sync (y : tsys) (v : sync) : tsys := mk_tsys v (timers y) (timer_lists y) (s_timer_slot y) (s_timer_thread y).
Definition ts_set_kern (y : tsys) (k : kernel) : tsys := ts_set_sync y (set_kern (t_sync y) k).
Definition ts_set_timers (y : tsys) (v : gmap Z timer) : tsys := mk_tsys (t_sync y) v (timer_lists y) (s_timer_slot y) (s_timer_thread y).
Definition ts_set_lists (y : tsys) (v : timer_head -> list Z) : tsys := mk_tsys (t_sync y) (timers y) v (s_timer_slot y) (s_timer_thread y).
Definition ts_set_slot (y : tsys) (v : Z) : tsys := mk_tsys (t_sync y) (timers y) (timer_lists y) v (s_timer_thread y).
Definition ts_set_thread (y : tsys) (v : option Z) : tsys := mk_tsys (t_sync y) (timers y) (timer_lists y) (s_timer_slot y) v.
Definition set_timer (y : tsys) (u : Z) (tm : timer) : tsys := ts_set_timers y (<[u := tm]> (timers y)).

(** ** The lists *)

Definition timer_heads : list timer_head := SoftPending :: (TimerSlot <$> seqZ 0 MINI_OS_TICK_WHEEL).
Definition timer_home (f : timer_head -> list Z) (u : Z) : option timer_head := snd <$> list_find (λ h, u ∈ f h) timer_heads.
Definition timer_next (f : timer_head -> list Z) (n : timer_node) : timer_node :=
  match n with
  | TimerHead h => match f h with [] => TimerHead h | u :: _ => TimerNode u end
  | TimerNode u =>
      match timer_home f u with
      | None => TimerNode u
      | Some h => match after u (f h) with [] => TimerHead h | u' :: _ => TimerNode u' end
      end
  end.
(** [mini_os_list_head], [mini_os_list_tail] and [mini_os_list_remove] on [list_node]. *)
Definition timer_list_add (y : tsys) (front : bool) (h : timer_head) (u : Z) : option tsys :=
  match timer_home (timer_lists y) u with
  | Some _ => None
  | None =>
      let l := timer_lists y h in
      Some (ts_set_lists y (<[h := if front then u :: l else l ++ [u]]> (timer_lists y)))
  end.
Definition timer_list_remove (y : tsys) (u : Z) : tsys := ts_set_lists y (λ h, filter (λ x, x ≠ u) (timer_lists y h)).

Definition timer_wheel_insert (y : tsys) (u : Z) : option tsys :=
  tm ← timers y !! u;
  let ticks := u32 (tm_trigger_tick tm) in
  let slot := Z.land (u32 (s_timer_slot y + ticks)) MINI_OS_TICK_WHEEL_MASK in
  let shift := MINI_OS_CTZ MINI_OS_TICK_WHEEL in
  let tm := tm_set_flag tm (Z.lor (tm_flag tm) MINI_OS_TIMER_FLAG_ACTIVE) in
  if slot =? s_timer_slot y then
    timer_list_add (set_timer y u (tm_set_round tm (u32 (Z.shiftr ticks shift - 1)))) true (TimerSlot slot) u
  else
    timer_list_add (set_timer y u (tm_set_round tm (Z.shiftr (u32 (ticks - 1)) shift))) false (TimerSlot slot) u.
Definition tm_deactivate (tm : timer) : timer := tm_set_flag tm (Z.land (tm_flag tm) (u8 (Z.lnot MINI_OS_TIMER_FLAG_ACTIVE))).
Definition timer_unlink (y : tsys) (u : Z) : option tsys :=
  tm ← timers y !! u;
  Some (set_timer (timer_list_remove y u) u (tm_deactivate (tm_set_round tm 0))).

(** ** Creation *)

Definition timer_selectors_valid (trigger_num trigger_mode : Z) : bool :=
  if negb (Z.land trigger_num (u8 (Z.lnot MINI_OS_TIMER_FLAG_PERIODIC)) =? 0) then false
  else if negb (Z.land trigger_mode (u8 (Z.lnot MINI_OS_TIMER_FLAG_SOFT)) =? 0) then false else true.
Definition timer_init (y : tsys) (timer : option Z) (cb arg tick flag : Z) (heap_owned : bool) : Z * tsys :=
  match timer with
  | None => (MINI_ERR_INVAL, y)
  | Some u =>
      if (cb =? 0) || (tick <=? 0) || negb (Z.land flag (u8 (Z.lnot 3)) =? 0) then (MINI_ERR_INVAL, y)
      else (MINI_OK, set_timer y u (mk_timer cb arg tick 0 flag (mini_os_obj_init heap_owned)))
  end.
(** [mem] is what [mini_os_malloc] returns. *)
Definition mini_os_timer_create (y : tsys) (mem : option Z) (cb arg trigger_tick trigger_num trigger_mode : Z) : option Z * tsys :=
  if (cb =? 0) || (trigger_tick <=? 0) || negb (timer_selectors_valid trigger_num trigger_mode) then (None, y) else
  match mem with
  | None => (None, y)
  | Some _ =>
      let '(rc, y) := timer_init y mem cb arg trigger_tick (u8 (Z.lor trigger_num trigger_mode)) true in
      (if negb (rc =? MINI_OK) then None else mem, y)
  end.
Definition mini_os_timer_create_static (y : tsys) (cb arg trigger_tick trigger_num trigger_mode : Z) (timer : option Z) : option Z * tsys :=
  if bool_decide (timer = None) || (cb =? 0) || (trigger_tick <=? 0) || negb (timer_selectors_valid trigger_num trigger_mode)
  then (None, y) else
  let '(rc, y) := timer_init y timer cb arg trigger_tick (u8 (Z.lor trigger_num trigger_mode)) false in
  (if negb (rc =? MINI_OK) then None else timer, y).

(** The calls to this module, by its users and by the callbacks. *)
Inductive timer_call :=
  | TCreate (u cb arg trigger_tick trigger_num trigger_mode : Z) (static : bool)
  | TStart (u : Z)
  | TStop (u : Z)
  | TDelete (u : Z) (static : bool)
  | TSetTick (u trigger_tick : Z)
  | TSetCallback (u cb arg : Z).

(** What happens: a call that succeeded, a tick, a deadline reached, a SOFT timer taken by the
    service thread, its callback called there with its argument, a call made by it there. *)
Inductive timer_event :=
  | TDid (c : timer_call)
  | TTicked
  | THit (u : Z)
  | TServed (u : Z)
  | TCalled (u cb arg : Z)
  | TMade (c : timer_call).

Section timers.
(** The control block, the stack and the semaphore of the service thread. *)
Context (tcb stack sem : Z).
(** What a callback does, by its address and argument. *)
Context (callback_body : Z -> Z -> list timer_call).

(** The constructor of the module. *)
Definition mini_os_g_timer_init (y : sync) (tms : gmap Z timer) : tsys :=
  mk_tsys (mini_os_semaphore_create_static y (Some sem) 1 0).2 tms (λ _, []) 0 None.

(** ** Starting and stopping *)

Definition timer_thread_ensure (y : tsys) : option tsys :=
  match s_timer_thread y with
  | Some _ => Some y
  | None =>
      '(r, k) ← mini_os_thread_create_static (t_kern y) true true MINI_OS_TIMER_THREAD_STACK_SIZE MINI_OS_TIMER_THREAD_PRIORITY stack (Some tcb);
      Some (ts_set_thread (ts_set_kern y k) r)
  end.
(** Before the critical section of [mini_os_timer_start], and inside it. *)
Definition timer_start_checks (y : tsys) (timer : option Z) : option (Z * tsys) :=
  match timer with
  | None => Some (MINI_ERR_INVAL, y)
  | Some u =>
      tm ← timers y !! u;
      if tm_trigger_tick tm <=? 0 then Some (MINI_ERR_INVAL, y) else
      y ← (if tm_has tm MINI_OS_TIMER_FLAG_SOFT then timer_thread_ensure y else Some y);
      Some (MINI_OK, y)
  end.
Definition timer_start_locked (y : tsys) (u : Z) : option (Z * tsys) :=
  y ← timer_unlink y u;
  y ← timer_wheel_insert y u;
  Some (MINI_OK, y).
Definition mini_os_timer_start (y : tsys) (timer : option Z) : option (Z * tsys) :=
  '(rc, y) ← timer_start_checks y timer;
  match timer with
  | Some u => if rc =? MINI_OK then timer_start_locked y u else Some (rc, y)
  | None => Some (rc, y)
  end.
Definition mini_os_timer_stop (y : tsys) (timer : option Z) : option (Z * tsys) :=
  match timer with
  | None => Some (MINI_ERR_INVAL, y)
  | Some u => y ← timer_unlink y u; Some (MINI_OK, y)
  end.
Definition mini_os_timer_delete_common (y : tsys) (timer : option Z) (is_static : bool) : option (Z * tsys) :=
  match timer with
  | None => Some (MINI_ERR_INVAL, y)
  | Some u =>
      tm ← timers y !! u;
      if negb (eqb (mini_os_obj_is_static (tm_obj tm)) is_static) then Some (MINI_ERR_NOTSUPP, y) else
      y ← timer_unlink y u;
      tm ← timers y !! u;
      let '(_, reclaim, o) := mini_os_obj_request_destroy (tm_obj tm) in
      Some (MINI_OK, if reclaim then ts_set_timers y (delete u (timers y))
                     else set_timer y u (mk_timer (tm_callback tm) (tm_arg tm) (tm_trigger_tick tm) (tm_round tm) (tm_flag tm) o))
  end.
Definition mini_os_timer_delete (y : tsys) (timer : option Z) := mini_os_timer_delete_common y timer false.
Definition mini_os_timer_delete_static (y : tsys) (timer : option Z) := mini_os_timer_delete_common y timer true.
Definition mini_os_timer_set_trigger_tick (y : tsys) (timer : option Z) (trigger_tick : Z) : option (Z * tsys) :=
  match timer with
  | None => Some (MINI_ERR_INVAL, y)
  | Some u =>
      if trigger_tick <=? 0 then Some (MINI_ERR_INVAL, y) else
      tm ← timers y !! u;
      let was_active := tm_has tm MINI_OS_TIMER_FLAG_ACTIVE in
      y ← timer_unlink y u;
      tm ← timers y !! u;
      let y := set_timer y u (tm_set_trigger tm trigger_tick) in
      y ← (if was_active then timer_wheel_insert y u else Some y);
      Some (MINI_OK, y)
  end.
Definition mini_os_timer_set_callback (y : tsys) (timer : option Z) (cb arg : Z) : option (Z * tsys) :=
  match timer with
  | None => Some (MINI_ERR_INVAL, y)
  | Some u =>
      if cb =? 0 then Some (MINI_ERR_INVAL, y) else
      tm ← timers y !! u; Some (MINI_OK, set_timer y u (tm_set_callback tm cb arg))
  end.

Definition run_call (y : tsys) (c : timer_call) : option (Z * tsys) :=
  match c with
  | TCreate u cb arg tick num mode static =>
      let '(r, y) := if static then mini_os_timer_create_static y cb arg tick num mode (Some u)
                     else mini_os_timer_create y (Some u) cb arg tick num mode in
      Some (if bool_decide (r = None) then MINI_ERR_INVAL else MINI_OK, y)
  | TStart u => mini_os_timer_start y (Some u)
  | TStop u => mini_os_timer_stop y (Some u)
  | TDelete u static => if static then mini_os_timer_delete_static y (Some u) else mini_os_timer_delete y (Some u)
  | TSetTick u tick => mini_os_timer_set_trigger_tick y (Some u) tick
  | TSetCallback u cb arg => mini_os_timer_set_callback y (Some u) cb arg
  end.

(** ** The tick *)

(** The system with what happened, the last event first. *)
Record timed := mk_timed { td_sys : tsys; td_log : list timer_event }.
Definition happened (x : timed) (ev : timer_event) : timed := mk_timed (td_sys x) (ev :: td_log x).
Definition do_call (x : timed) (c : timer_call) : option timed :=
  '(rc, y) ← run_call (td_sys x) c; Some (mk_timed y (if rc =? MINI_OK then TDid c :: td_log x else td_log x)).
Fixpoint do_calls (x : timed) (cs : list timer_call) : option timed :=
  match cs with [] => Some x | c :: cs => x ← do_call x c; do_calls x cs end.

(** A timer whose deadline is reached; the flag says that it is a SOFT one. *)
Definition timer_hit (x : timed) (u : Z) : option (bool * timed) :=
  let y := timer_list_remove (td_sys x) u in
  let log := THit u :: td_log x in
  tm ← timers y !! u;
  if tm_has tm MINI_OS_TIMER_FLAG_SOFT then
    y ← timer_list_add y false SoftPending u; Some (true, mk_timed y log)
  else
    y ← (if tm_has tm MINI_OS_TIMER_FLAG_PERIODIC then timer_wheel_insert y u else Some (set_timer y u (tm_deactivate tm)));
    tm ← timers y !! u;
    let x := mk_timed y log in
    x ← (if negb (tm_callback tm =? 0) then do_calls x (callback_body (tm_callback tm) (tm_arg tm)) else Some x);
    Some (false, x).

Fixpoint tick_walk (fuel : nat) (x : timed) (node : timer_node) (wake : bool) : option (bool * timed) :=
  match fuel with
  | O => None
  | S fuel =>
      if bool_decide (node = TimerHead (TimerSlot (s_timer_slot (td_sys x)))) then Some (wake, x) else
      let next := timer_next (timer_lists (td_sys x)) node in
      match node with
      | TimerHead _ => None
      | TimerNode u =>
          tm ← timers (td_sys x) !! u;
          if tm_round tm >? 0 then
            tick_walk fuel (mk_timed (set_timer (td_sys x) u (tm_set_round tm (tm_round tm - 1))) (td_log x)) next wake
          else '(soft, x) ← timer_hit x u; tick_walk fuel x next (wake || soft)
      end
  end.
(** Enough to come to the end of a slot that the callbacks leave alone. *)
Definition walk_fuel (y : tsys) : nat := S (length (timer_lists y (TimerSlot (s_timer_slot y)))).
Definition mini_os_timer_tick (x : timed) : option timed :=
  let y := td_sys x in
  let y := ts_set_slot y (Z.land (u32 (s_timer_slot y + 1)) MINI_OS_TICK_WHEEL_MASK) in
  let head := TimerHead (TimerSlot (s_timer_slot y)) in
  '(wake, x) ← tick_walk (walk_fuel y) (mk_timed y (TTicked :: td_log x)) (timer_next (timer_lists y) head) false;
  if wake : bool then
    '(_, s) ← mini_os_semaphore_give_isr (t_sync (td_sys x)) (Some sem);
    '(_, k) ← mini_os_schedule_yield_isr (kern s);
    Some (mk_timed (ts_set_sync (td_sys x) (set_kern s k)) (td_log x))
  else Some x.

(** ** The service thread *)

(** Where it is: at the head of the drain, with a timer taken from the pending ones whose
    callback it is to load, with its argument to load, inside a callback with these calls to
    go, before the take, parked inside it. *)
Inductive service_pc := SDrain | SFetch (u : Z) | SArg (u cb : Z) | SCallback (cs : list timer_call) | STake | SParked.

(** The critical section of [timer_run_soft_callbacks]. *)
Definition soft_next (x : timed) : option (service_pc * timed) :=
  let y := td_sys x in
  match timer_lists y SoftPending with
  | [] => Some (STake, x)
  | u :: _ =>
      tm ← timers y !! u;
      let y := timer_list_remove y u in
      y ← (if tm_has tm MINI_OS_TIMER_FLAG_PERIODIC then timer_wheel_insert y u else Some (set_timer y u (tm_deactivate tm)));
      Some (SFetch u, mk_timed y (TServed u :: td_log x))
  end.
(** After it the callback and its argument are read from the timer, one after the other, while
    others may be at work on it. *)
Definition soft_fetch (x : timed) (u : Z) : option (service_pc * timed) :=
  tm ← timers (td_sys x) !! u;
  Some (if negb (tm_callback tm =? 0) then SArg u (tm_callback tm) else SDrain, x).
Definition soft_call (x : timed) (u cb : Z) : option (service_pc * timed) :=
  tm ← timers (td_sys x) !! u;
  Some (SCallback (callback_body cb (tm_arg tm)), happened x (TCalled u cb (tm_arg tm))).
Definition service_step (x : timed) (c : Z) (pc : service_pc) : option (service_pc * timed) :=
  let y := td_sys x in
  match pc with
  | SDrain => soft_next x
  | SFetch u => soft_fetch x u
  | SArg u cb => soft_call x u cb
  | SCallback [] => Some (SDrain, x)
  | SCallback (call :: calls) => x ← do_call (happened x (TMade call)) call; Some (SCallback calls, x)
  | STake =>
      r ← mini_os_semaphore_take (t_sync y) (Some sem) MINI_OS_WAIT_FOREVER;
      Some match r with
           | inl (_, s) => (SDrain, mk_timed (ts_set_sync y s) (td_log x))
           | inr s => (SParked, mk_timed (ts_set_sync y s) (td_log x))
           end
  | SParked => '(_, s) ← sem_take_resume (t_sync y) sem c; Some (SDrain, mk_timed (ts_set_sync y s) (td_log x))
  end.

(** ** The whole *)

(** [TEnsure] and [TArm] are the two parts of a [mini_os_timer_start] that something comes
    between; [TCall] is a call that runs through. *)
Record timer_machine := mk_tmachine { tmm_timed : timed; tmm_pc : service_pc }.
Inductive timer_op :=
  | TKernel (op : kernel_op)
  | TTick
  | TCall (c : timer_call)
  | TEnsure (u : Z)
  | TArm (u : Z)
  | TService.

Context (time_slice long_time : bool).

Definition systick_with_timers (x : timed) : option timed :=
  k ← systick_count time_slice long_time (t_kern (td_sys x));
  x ← mini_os_timer_tick (mk_timed (ts_set_kern (td_sys x) k) (td_log x));
  '(_, k) ← mini_os_schedule_yield_isr (t_kern (td_sys x));
  Some (mk_timed (ts_set_kern (td_sys x) k) (td_log x)).

Definition timer_step (m : timer_machine) (op : timer_op) : option timer_machine :=
  let x := tmm_timed m in let y := td_sys x in
  match op with
  | TKernel op => k ← kernel_step time_slice long_time (t_kern y) op; Some (mk_tmachine (mk_timed (ts_set_kern y k) (td_log x)) (tmm_pc m))
  | TTick => x ← systick_with_timers x; Some (mk_tmachine x (tmm_pc m))
  | TCall c => x ← do_call x c; Some (mk_tmachine x (tmm_pc m))
  | TEnsure u => '(_, y) ← timer_start_checks y (Some u); Some (mk_tmachine (mk_timed y (td_log x)) (tmm_pc m))
  | TArm u => '(_, y) ← timer_start_locked y u; Some (mk_tmachine (mk_timed y (TDid (TStart u) :: td_log x)) (tmm_pc m))
  | TService =>
      c ← current_thread (t_kern y);
      '(pc, x) ← service_step x c (tmm_pc m); Some (mk_tmachine x pc)
  end.
Fixpoint timer_run (m : timer_machine) (ops : list timer_op) : option timer_machine :=
  match ops with [] => Some m | op :: ops => m ← timer_step m op; timer_run m ops end.

(** ** What the users keep to *)

Definition call_target (c : timer_call) : Z :=
  match c with TCreate u _ _ _ _ _ _ | TStart u | TStop u | TDelete u _ | TSetTick u _ | TSetCallback u _ _ => u end.
Definition is_tick (v : Z) : Prop := -2147483648 <= v < 2147483648.
(** The timer exists, or is new; numbers are in the range of their types. *)
Definition call_ok (y : tsys) (c : timer_call) : Prop :=
  match c with
  | TCreate u _ _ tick num mode _ => timers y !! u = None /\ is_tick tick /\ is_u8 num /\ is_u8 mode
  | TSetTick u tick => is_Some (timers y !! u) /\ is_tick tick
  | c => is_Some (timers y !! call_target c)
  end.
(** A HARD callback of the timer [u], of the slot [l], works on its own timer and on timers of
    other slots; it creates none, and deletes only its own, as its last call. *)
Fixpoint hard_body_ok (y : tsys) (l : list Z) (u : Z) (cs : list timer_call) : Prop :=
  match cs with
  | [] => True
  | c :: cs =>
      (call_target c = u \/ call_target c ∉ l) /\ call_ok y c /\
      match c with TCreate _ _ _ _ _ _ _ => False | TDelete v _ => v = u /\ cs = [] | _ => True end /\
      hard_body_ok y l u cs
  end.
Fixpoint bodies_ok (y : tsys) (l us : list Z) : Prop :=
  match us with
  | [] => True
  | u :: us =>
      match timers y !! u with
      | Some tm => if tm_has tm MINI_OS_TIMER_FLAG_SOFT then True else hard_body_ok y l u (callback_body (tm_callback tm) (tm_arg tm))
      | None => True
      end /\ bodies_ok y l us
  end.
Definition tick_ok (y : tsys) : Prop :=
  let l := timer_lists y (TimerSlot ((s_timer_slot y + 1) mod MINI_OS_TICK_WHEEL)) in bodies_ok y l l.
(** What the checks of a start leave behind, as long as the timer is not deleted. *)
Definition checked (y : tsys) (u : Z) : Prop :=
  ∃ tm, timers y !! u = Some tm /\ (tm_has tm MINI_OS_TIMER_FLAG_SOFT = true -> s_timer_thread y ≠ None).
(** A timer that the service thread has taken is not deleted before it has read the callback
    and the argument. *)
Definition timer_op_ok (m : timer_machine) (op : timer_op) : Prop :=
  let y := td_sys (tmm_timed m) in let k := t_kern y in
  match op with
  | TKernel (KCreate t priority _ _) => threads k !! t = None /\ 0 <= priority /\ t ≠ tcb
  | TKernel (KDelay ticks) => may_call k /\ is_u32 ticks /\ (current_thread k = Some tcb -> ∃ cs, tmm_pc m = SCallback cs)
  | TKernel (KSwitch | KYield) => True
  | TKernel (KPriority t priority) => is_Some (threads k !! t) /\ 0 <= priority /\ current_thread k ≠ Some t
  | TKernel _ => False
  | TTick => tick_ok y
  | TCall c => call_ok y c
  | TEnsure u => is_Some (timers y !! u)
  | TArm u => checked y u
  | TService =>
      may_call k /\ current_thread k = Some tcb /\ s_timer_thread y = Some tcb /\
      match tmm_pc m with
      | SFetch u | SArg u _ => is_Some (timers y !! u)
      | SCallback (c :: _) => call_ok y c
      | _ => True
      end
  end.
Fixpoint timer_ops_ok (m : timer_machine) (ops : list timer_op) : Prop :=
  match ops with
  | [] => True
  | op :: ops => timer_op_ok m op /\ match timer_step m op with Some m => timer_ops_ok m ops | None => True end
  end.

Definition boot_timers : timer_machine :=
  mk_tmachine (mk_timed (mini_os_g_timer_init (mk_sync boot_kernel ∅) ∅) []) SDrain.
End timers.
