(* ===== verification/MiniTimerInv.v ===== *)
(** * What the timers guarantee

    The abstract view of a timer is a countdown: how many ticks are left until its deadline.
    [timers_refine_countdowns]: whatever happens is what the countdowns allow, so each deadline
    is met at its tick, none is missed and none comes early, and every walk of the tick ends.
    [soft_timers_served]: while a SOFT timer waits for its callback, the service thread is
    not asleep, and undisturbed it calls back whoever waits.  The findings at the end are
    about callbacks that stop another timer, the periods of SOFT timers, and what the service
    thread reads outside the critical section. *)

From S2P Require Import Prelude Status MiniList MiniSched MiniKernel MiniSem MiniWait MiniTimer.
From stdpp Require Import gmap functions.

#[local] Open Scope Z_scope.

(** ** Countdowns *)

Record countdown := mk_cd { cd_period : Z; cd_periodic : bool; cd_soft : bool; cd_left : option Z; cd_pending : bool }.
Definition cd_arm (d : countdown) (left : option Z) : countdown := mk_cd (cd_period d) (cd_periodic d) (cd_soft d) left false.
(** The next period, of a periodic one. *)
Definition cd_rearm (d : countdown) : countdown := cd_arm d (if cd_periodic d then Some (cd_period d) else None).
Definition cd_active (d : countdown) : bool := bool_decide (is_Some (cd_left d)) || cd_pending d.

(** What a call does to the countdowns. *)
Definition spec_call (s : gmap Z countdown) (c : timer_call) : gmap Z countdown :=
  match c with
  | TCreate u _ _ tick num mode _ => <[u := mk_cd tick (negb (Z.land num 1 =? 0)) (negb (Z.land mode 2 =? 0)) None false]> s
  | TStart u => alter (λ d, cd_arm d (Some (cd_period d))) u s
  | TStop u => alter (λ d, cd_arm d None) u s
  | TDelete u _ => delete u s
  | TSetTick u tick =>
      alter (λ d, mk_cd tick (cd_periodic d) (cd_soft d) (if cd_active d then Some tick else None) false) u s
  | TSetCallback _ _ _ => s
  end.
(** A tick counts all down; a deadline is reached at 0 and at no other moment; a SOFT timer is
    served once for each deadline. *)
Definition cd_tick (d : countdown) : countdown := mk_cd (cd_period d) (cd_periodic d) (cd_soft d) (Z.pred <$> cd_left d) (cd_pending d).
Definition spec_step (s : gmap Z countdown) (ev : timer_event) : option (gmap Z countdown) :=
  match ev with
  | TDid c => Some (spec_call s c)
  | TTicked => Some (cd_tick <$> s)
  | THit u =>
      d ← s !! u;
      if bool_decide (cd_left d = Some 0)
      then Some (<[u := if cd_soft d then mk_cd (cd_period d) (cd_periodic d) true None true else cd_rearm d]> s) else None
  | TServed u => d ← s !! u; if cd_pending d then Some (<[u := cd_rearm d]> s) else None
  | TCalled _ _ _ | TMade _ => Some s
  end.
(** A log has the last event first. *)
Fixpoint spec_run (log : list timer_event) : option (gmap Z countdown) :=
  match log with [] => Some ∅ | ev :: log => s ← spec_run log; spec_step s ev end.

(** ** The lists *)

(** Each timer is in at most one list, once. *)
Record sorted_out (f : timer_head -> list Z) (tms : gmap Z timer) : Prop := {
  so_nodup : ∀ h, NoDup (f h);
  so_one : ∀ u h h', u ∈ f h -> u ∈ f h' -> h = h';
  so_head : ∀ u h, u ∈ f h -> h ∈ timer_heads;
  so_timer : ∀ u h, u ∈ f h -> is_Some (tms !! u)
}.
Lemma home_in f tms u h : sorted_out f tms -> timer_home f u = Some h <-> u ∈ f h.
Proof.
  intros [H1 H2 H3 H4]. unfold timer_home. destruct (list_find _ timer_heads) as [[i h']|] eqn:E; simpl.
  - apply list_find_Some in E as (_ & Hin & _). split; [by intros [= ->]|]. intros Hu. f_equal. eauto.
  - apply list_find_None in E. split; [done|]. intros Hu. rewrite list.Forall_forall in E. destruct (E h); eauto.
Qed.
Lemma home_none f tms u : sorted_out f tms -> timer_home f u = None <-> ∀ h, u ∉ f h.
Proof.
  intros Hs. split.
  - intros E h Hu. apply (home_in _ _ _ _ Hs) in Hu. congruence.
  - intros H. destruct (timer_home f u) as [h|] eqn:E; [|done]. apply (home_in _ _ _ _ Hs) in E. by destruct (H h).
Qed.
Lemma home_ext f f' tms tms' u u' :
  sorted_out f tms -> sorted_out f' tms' -> (∀ h, u' ∈ f' h <-> u ∈ f h) -> timer_home f' u' = timer_home f u.
Proof.
  intros Hs Hs' H. destruct (timer_home f u) as [h|] eqn:E.
  - apply (home_in _ _ _ _ Hs') , H, (home_in _ _ _ _ Hs), E.
  - apply (home_none _ _ _ Hs'). intros h Hu. apply H in Hu. by apply (home_none _ _ _ Hs) with h in E.
Qed.

Lemma sorted_remove f tms u :
  sorted_out f tms -> sorted_out (λ h, filter (λ x, x ≠ u) (f h)) tms /\ timer_home (λ h, filter (λ x, x ≠ u) (f h)) u = None /\
  ∀ u', u' ≠ u -> timer_home (λ h, filter (λ x, x ≠ u) (f h)) u' = timer_home f u'.
Proof.
  intros Hs. assert (sorted_out (λ h, filter (λ x, x ≠ u) (f h)) tms) as Hs'.
  { destruct Hs as [H1 H2 H3 H4]. split.
    - intros h. by apply list.NoDup_filter.
    - intros u' h h' [_ ?]%list_elem_of_filter [_ ?]%list_elem_of_filter. eauto.
    - intros u' h [_ ?]%list_elem_of_filter. eauto.
    - intros u' h [_ ?]%list_elem_of_filter. eauto. }
  split; [done|]. split.
  - apply (home_none _ _ _ Hs'). intros h. rewrite list_elem_of_filter. naive_solver.
  - intros u' Hne. apply (home_ext _ _ tms tms); [done..|]. intros h. rewrite list_elem_of_filter. naive_solver.
Qed.

Lemma sorted_add (f : timer_head -> list Z) tms u h (front : bool) l' :
  sorted_out f tms -> timer_home f u = None -> h ∈ timer_heads -> is_Some (tms !! u) ->
  l' = (if front then u :: f h else f h ++ [u]) ->
  sorted_out (<[h := l']> f) tms /\ timer_home (<[h := l']> f) u = Some h /\
  ∀ u', u' ≠ u -> timer_home (<[h := l']> f) u' = timer_home f u'.
Proof.
  intros Hs Hu Hh Ht ->. pose proof (proj1 (home_none _ _ _ Hs) Hu) as Hnin.
  assert (∀ x, x ∈ (if front then u :: f h else f h ++ [u]) <-> x = u \/ x ∈ f h) as Hel.
  { intros x. destruct front; [by rewrite elem_of_cons|]. rewrite elem_of_app, list_elem_of_singleton. tauto. }
  assert (∀ x h', x ∈ <[h := if front then u :: f h else f h ++ [u]]> f h' <-> x = u /\ h' = h \/ x ∈ f h') as Hin.
  { intros x h'. destruct (decide (h' = h)) as [->|]; [rewrite fn_lookup_insert, Hel; naive_solver|].
    rewrite fn_lookup_insert_ne by done. naive_solver. }
  assert (sorted_out (<[h := if front then u :: f h else f h ++ [u]]> f) tms) as Hs'.
  { pose proof Hs as [H1 H2 H3 H4]. split.
    - intros h'. destruct (decide (h' = h)) as [->|]; [rewrite fn_lookup_insert|by rewrite fn_lookup_insert_ne].
      destruct front; [by apply list.NoDup_cons|]. apply list.NoDup_app. split; [done|]. split; [|apply NoDup_singleton].
      intros x Hx Hxu%list_elem_of_singleton. subst x. by apply (Hnin h).
    - intros x h1 h2. rewrite !Hin. intros [[??]|?] [[??]|?]; subst; try done; try (by edestruct Hnin); eauto.
    - intros x h'. rewrite Hin. intros [[-> ->]|?]; eauto.
    - intros x h'. rewrite Hin. intros [[-> ->]|?]; eauto. }
  split; [done|]. split.
  - apply (home_in _ _ _ _ Hs'), Hin. by left.
  - intros u' Hne. apply (home_ext _ _ tms tms); [done..|]. intros h'. rewrite Hin. naive_solver.
Qed.
Lemma sorted_timers f tms tms' : sorted_out f tms -> (∀ u, is_Some (tms !! u) -> is_Some (tms' !! u)) -> sorted_out f tms'.
Proof. intros [H1 H2 H3 H4] H. split; eauto. Qed.

(** The node after [u] in its list. *)
Lemma next_in f tms h pre u rest :
  sorted_out f tms -> f h = pre ++ u :: rest ->
  timer_next f (TimerNode u) = match rest with [] => TimerHead h | u' :: _ => TimerNode u' end.
Proof.
  intros Hs E. simpl. assert (u ∈ f h) as Hu by (rewrite E, elem_of_app, elem_of_cons; auto).
  apply (home_in _ _ _ _ Hs) in Hu. rewrite Hu. pose proof (so_nodup _ _ Hs h) as Hn. rewrite E in Hn |- *.
  rewrite after_spec; [done|]. apply list.NoDup_app in Hn as (_ & Hn & _). intros Hin. apply (Hn u Hin), elem_of_cons. auto.
Qed.

(** ** The invariant of the timers *)

Lemma flag_cases f : 0 <= f < 8 -> f = 0 \/ f = 1 \/ f = 2 \/ f = 3 \/ f = 4 \/ f = 5 \/ f = 6 \/ f = 7.
Proof. lia. Qed.
Lemma flag_active tm :
  0 <= tm_flag tm < 8 ->
  let tm1 := tm_set_flag tm (Z.lor (tm_flag tm) MINI_OS_TIMER_FLAG_ACTIVE) in
  0 <= tm_flag tm1 < 8 /\ tm_has tm1 MINI_OS_TIMER_FLAG_ACTIVE = true /\
  tm_has tm1 MINI_OS_TIMER_FLAG_PERIODIC = tm_has tm MINI_OS_TIMER_FLAG_PERIODIC /\
  tm_has tm1 MINI_OS_TIMER_FLAG_SOFT = tm_has tm MINI_OS_TIMER_FLAG_SOFT.
Proof.
  intros H. unfold tm_has. cbn [tm_set_flag tm_flag].
  destruct (flag_cases _ H) as [->|[->|[->|[->|[->|[->|[->| ->]]]]]]]; vm_compute; repeat split; done.
Qed.
Lemma flag_inactive tm :
  0 <= tm_flag tm < 8 ->
  let tm1 := tm_deactivate tm in
  0 <= tm_flag tm1 < 8 /\ tm_has tm1 MINI_OS_TIMER_FLAG_ACTIVE = false /\
  tm_has tm1 MINI_OS_TIMER_FLAG_PERIODIC = tm_has tm MINI_OS_TIMER_FLAG_PERIODIC /\
  tm_has tm1 MINI_OS_TIMER_FLAG_SOFT = tm_has tm MINI_OS_TIMER_FLAG_SOFT.
Proof.
  intros H. unfold tm_deactivate, tm_has. cbn [tm_set_flag tm_flag].
  destruct (flag_cases _ H) as [->|[->|[->|[->|[->|[->|[->| ->]]]]]]]; vm_compute; repeat split; done.
Qed.

(** The ticks left of a timer in a slot; those in [rest] are about to be visited. *)
Definition left_in (cur : Z) (rest : list Z) (u slot round : Z) : Z :=
  (slot - cur - 1) mod 32 + 1 + 32 * round - (if bool_decide (u ∈ rest) then 32 else 0).
Definition abs (y : tsys) (rest : list Z) (u : Z) (tm : timer) : countdown :=
  mk_cd (tm_trigger_tick tm) (tm_has tm MINI_OS_TIMER_FLAG_PERIODIC) (tm_has tm MINI_OS_TIMER_FLAG_SOFT)
    (match timer_home (timer_lists y) u with
     | Some (TimerSlot slot) => Some (left_in (s_timer_slot y) rest u slot (tm_round tm))
     | _ => None
     end)
    (bool_decide (timer_home (timer_lists y) u = Some SoftPending)).

Record cfg_ok (tm : timer) : Prop := {
  cf_trigger : 0 < tm_trigger_tick tm < 2147483648;
  cf_callback : tm_callback tm ≠ 0;
  cf_obj : obj_ref (tm_obj tm) = 1;
  cf_flag : 0 <= tm_flag tm < 8
}.
Record tm_ok (y : tsys) (u : Z) (tm : timer) : Prop := {
  tk_cfg : cfg_ok tm;
  tk_round : 0 <= tm_round tm;
  tk_active : tm_has tm MINI_OS_TIMER_FLAG_ACTIVE = bool_decide (is_Some (timer_home (timer_lists y) u));
  tk_thread : tm_has tm MINI_OS_TIMER_FLAG_SOFT = true -> timer_home (timer_lists y) u ≠ None -> s_timer_thread y ≠ None;
  tk_soft : timer_home (timer_lists y) u = Some SoftPending -> tm_has tm MINI_OS_TIMER_FLAG_SOFT = true
}.
(** The countdowns are those of the timers; in the middle of a call on the timer [x] it is
    left out, in the middle of a walk [rest] is still to be visited. *)
Record tinv (y : tsys) (rest : list Z) (x : option Z) (s : gmap Z countdown) : Prop := {
  ti_slot : 0 <= s_timer_slot y < 32;
  ti_lists : sorted_out (timer_lists y) (timers y);
  ti_rest : ∃ pre, timer_lists y (TimerSlot (s_timer_slot y)) = pre ++ rest;
  ti_timer : ∀ u tm, Some u ≠ x -> timers y !! u = Some tm -> tm_ok y u tm;
  ti_spec : ∀ u, Some u ≠ x -> s !! u = abs y rest u <$> timers y !! u
}.

Lemma abs_ext y y' rest rest' u tm :
  timer_home (timer_lists y') u = timer_home (timer_lists y) u -> s_timer_slot y' = s_timer_slot y -> (u ∈ rest' <-> u ∈ rest) ->
  abs y' rest' u tm = abs y rest u tm.
Proof. intros E1 E2 E3. unfold abs, left_in. rewrite E1, E2. by rewrite (bool_decide_ext _ _ E3). Qed.
Lemma tm_ok_ext y y' u tm :
  timer_home (timer_lists y') u = timer_home (timer_lists y) u -> (s_timer_thread y ≠ None -> s_timer_thread y' ≠ None) -> tm_ok y u tm -> tm_ok y' u tm.
Proof. intros E1 E2 []. split; rewrite ?E1; eauto. Qed.

(** Out of all lists. *)
Lemma tinv_remove y rest u s tm :
  tinv y rest None s -> timers y !! u = Some tm -> u ∉ rest ->
  tinv (timer_list_remove y u) rest (Some u) s /\ timer_home (timer_lists (timer_list_remove y u)) u = None.
Proof.
  intros [I1 I2 [pre I3] I4 I5] Hu Hr. destruct (sorted_remove _ _ u I2) as (S1 & S2 & S3). split; [|done]. split; try done.
  - exists (filter (λ x, x ≠ u) pre). simpl. rewrite I3, list.filter_app. f_equal. by apply filter_ne_not_in.
  - intros u' tm' Hne Ht. apply (tm_ok_ext y); [apply S3; congruence|done|]. by apply I4.
  - intros u' Hne. rewrite I5 by done. simpl. destruct (timers y !! u'); [|done]. simpl. f_equal. symmetry. apply abs_ext; [|done..].
    apply S3. congruence.
Qed.
(** The timer about to be visited. *)
Lemma tinv_visit y rest u s :
  tinv y (u :: rest) None s ->
  tinv (timer_list_remove y u) rest (Some u) s /\ timer_home (timer_lists (timer_list_remove y u)) u = None.
Proof.
  intros [I1 I2 [pre I3] I4 I5]. destruct (sorted_remove _ _ u I2) as (S1 & S2 & S3). split; [|done].
  pose proof (so_nodup _ _ I2 (TimerSlot (s_timer_slot y))) as Hnd. rewrite I3 in Hnd.
  apply list.NoDup_app in Hnd as (_ & Hnd & [Hn _]%list.NoDup_cons). split; try done.
  - exists pre. simpl. rewrite I3, list.filter_app, filter_cons_False by auto. f_equal; apply filter_ne_not_in; [|done].
    intros Hin. by apply (Hnd u Hin), elem_of_cons; left.
  - intros u' tm' Hne Ht. apply (tm_ok_ext y); [apply S3; congruence|done|]. by apply I4.
  - intros u' Hne. rewrite I5 by done. simpl. destruct (timers y !! u'); [|done]. simpl. f_equal. symmetry. apply abs_ext; [|done|].
    + apply S3. congruence.
    + rewrite elem_of_cons. naive_solver.
Qed.
Lemma tinv_set y rest u s tm : tinv y rest (Some u) s -> tinv (set_timer y u tm) rest (Some u) s.
Proof.
  intros [I1 I2 I3 I4 I5]. split; try done.
  - eapply sorted_timers; [done|]. intros u' Hu'. simpl. destruct (decide (u' = u)) as [->|]; [rewrite lookup_insert_eq|rewrite lookup_insert_ne by done]; eauto.
  - intros u' tm' Hne. simpl. rewrite lookup_insert_ne by congruence. intros Ht. apply (tm_ok_ext y); [done..|]. by apply I4.
  - intros u' Hne. simpl. rewrite lookup_insert_ne by congruence. by apply I5.
Qed.
Lemma tinv_add y rest u s (front : bool) h :
  tinv y rest (Some u) s -> timer_home (timer_lists y) u = None -> is_Some (timers y !! u) -> h ∈ timer_heads ->
  (front = false -> h ≠ TimerSlot (s_timer_slot y)) ->
  ∃ y', timer_list_add y front h u = Some y' /\ tinv y' rest (Some u) s /\ timer_home (timer_lists y') u = Some h /\
    t_sync y' = t_sync y /\ timers y' = timers y /\ s_timer_slot y' = s_timer_slot y /\ s_timer_thread y' = s_timer_thread y.
Proof.
  intros [I1 I2 [pre I3] I4 I5] Hu Ht Hh Hf. unfold timer_list_add. rewrite Hu. eexists. split; [done|].
  destruct (sorted_add _ _ _ _ front _ I2 Hu Hh Ht eq_refl) as (S1 & S2 & S3). split; [|done]. split; try done.
  - simpl. destruct (decide (h = TimerSlot (s_timer_slot y))) as [->|]; [|rewrite fn_lookup_insert_ne by done; eauto].
    rewrite fn_lookup_insert, I3. destruct front; [by exists (u :: pre)|]. by destruct Hf.
  - intros u' tm' Hne Htm. apply (tm_ok_ext y); [apply S3; congruence|done|]. by apply I4.
  - intros u' Hne. rewrite I5 by done. simpl. destruct (timers y !! u'); [|done]. simpl. f_equal. symmetry. apply abs_ext; [|done..].
    apply S3. congruence.
Qed.
(** The call is done with the timer. *)
Lemma tinv_settle y rest u s tm :
  tinv y rest (Some u) s -> timers y !! u = Some tm -> tm_ok y u tm -> tinv y rest None (<[u := abs y rest u tm]> s).
Proof.
  intros [I1 I2 I3 I4 I5] Ht Hok. split; try done.
  - intros u' tm' _ Ht'. destruct (decide (u' = u)) as [->|]; [congruence|]. apply I4; congruence.
  - intros u' _. destruct (decide (u' = u)) as [->|]; [by rewrite lookup_insert_eq, Ht|].
    rewrite lookup_insert_ne by done. apply I5. congruence.
Qed.

(** ** The calls *)

(** A call on [u] leaves the other timers, and the walk, alone. *)
Record aside (y y' : tsys) (u : Z) : Prop := {
  as_slot : s_timer_slot y' = s_timer_slot y;
  as_timers : ∀ u', u' ≠ u -> timers y' !! u' = timers y !! u'
}.
Lemma aside_trans y1 y2 y3 u : aside y1 y2 u -> aside y2 y3 u -> aside y1 y3 u.
Proof. intros [A1 A2] [B1 B2]. split; [congruence|]. intros u' Hn. by rewrite B2, A2. Qed.
Lemma aside_refl y u : aside y y u.
Proof. by split. Qed.
Lemma aside_set y u tm : aside y (set_timer y u tm) u.
Proof. split; [done|]. intros u' Hn. simpl. by rewrite lookup_insert_ne. Qed.

Lemma cfg_flags tm1 tm :
  cfg_ok tm -> 0 <= tm_flag tm1 < 8 -> tm_trigger_tick tm1 = tm_trigger_tick tm -> tm_callback tm1 = tm_callback tm -> tm_obj tm1 = tm_obj tm -> cfg_ok tm1.
Proof. intros [] ? E1 E2 E3. split; by rewrite ?E1, ?E2, ?E3. Qed.

Lemma unlink_ok y rest u s tm :
  tinv y rest None s -> timers y !! u = Some tm -> u ∉ rest ->
  ∃ y', timer_unlink y u = Some y' /\ tinv y' rest (Some u) s /\ timer_home (timer_lists y') u = None /\ aside y y' u /\
    t_sync y' = t_sync y /\ s_timer_thread y' = s_timer_thread y /\ timers y' !! u = Some (tm_deactivate (tm_set_round tm 0)) /\
    ∀ h, timer_lists y' h = filter (λ x, x ≠ u) (timer_lists y h).
Proof.
  intros Hi Hu Hr. unfold timer_unlink. rewrite Hu. cbn [mbind option_bind]. eexists. split; [done|].
  destruct (tinv_remove _ _ _ _ _ Hi Hu Hr) as [Hi' Hh]. split; [by apply tinv_set|]. split; [done|].
  split; [destruct (aside_set (timer_list_remove y u) u (tm_deactivate (tm_set_round tm 0))); by split|]. split; [done|]. split; [done|]. split; [apply lookup_insert_eq|done].
Qed.
Lemma slot_of_ticks cur ticks :
  0 <= cur < 32 -> 0 < ticks < 2147483648 -> Z.land (u32 (cur + ticks)) MINI_OS_TICK_WHEEL_MASK = (cur + ticks) mod 32.
Proof.
  intros Hc Ht. rewrite u32_small by lia. change MINI_OS_TICK_WHEEL_MASK with (Z.ones 5). by rewrite Z.land_ones by lia.
Qed.
Lemma left_of_ticks cur ticks rest u :
  0 <= cur < 32 -> 0 < ticks -> u ∉ rest ->
  let slot := (cur + ticks) mod 32 in
  left_in cur rest u slot (if slot =? cur then ticks / 32 - 1 else (ticks - 1) / 32) = ticks /\
  (slot = cur -> 1 <= ticks / 32).
Proof.
  intros Hc Ht Hr slot. unfold left_in. rewrite bool_decide_false by done.
  assert ((slot - cur - 1) mod 32 = (ticks - 1) mod 32) as ->.
  { subst slot. rewrite <- Z.sub_add_distr, Zminus_mod_idemp_l. f_equal. lia. }
  pose proof (Z.div_mod ticks 32 ltac:(lia)). pose proof (Z.div_mod (ticks - 1) 32 ltac:(lia)).
  pose proof (Z.mod_pos_bound (ticks - 1) 32 ltac:(lia)). pose proof (Z.mod_pos_bound ticks 32 ltac:(lia)).
  assert (slot = cur -> ticks mod 32 = 0) as Hz.
  { subst slot. intros E. pose proof (Z.div_mod (cur + ticks) 32 ltac:(lia)). rewrite E in *.
    assert (ticks = ((cur + ticks) / 32) * 32) as -> by lia. by rewrite Z.mod_mul. }
  destruct (Z.eqb_spec slot cur) as [E|E]; [|split; [lia|done]]. specialize (Hz E). split; [|lia].
  assert ((ticks - 1) mod 32 = 31) as ->; [|lia].
  assert (ticks - 1 = (ticks / 32 - 1) * 32 + 31) as -> by lia. rewrite Z.add_comm, Z_mod_plus_full. done.
Qed.

Lemma insert_ok y rest u s tm :
  tinv y rest (Some u) s -> timer_home (timer_lists y) u = None -> timers y !! u = Some tm -> cfg_ok tm ->
  (tm_has tm MINI_OS_TIMER_FLAG_SOFT = true -> s_timer_thread y ≠ None) -> u ∉ rest ->
  ∃ y' tm', timer_wheel_insert y u = Some y' /\
    tinv y' rest None (<[u := mk_cd (tm_trigger_tick tm) (tm_has tm MINI_OS_TIMER_FLAG_PERIODIC) (tm_has tm MINI_OS_TIMER_FLAG_SOFT)
                              (Some (tm_trigger_tick tm)) false]> s) /\
    aside y y' u /\ t_sync y' = t_sync y /\ s_timer_thread y' = s_timer_thread y /\ timers y' !! u = Some tm' /\
    tm_callback tm' = tm_callback tm /\ tm_arg tm' = tm_arg tm /\ timer_lists y' SoftPending = timer_lists y SoftPending.
Proof.
  intros Hi Hh Hu Hc Hth Hr. pose proof Hc as [C1 C2 C3 C4]. pose proof (ti_slot _ _ _ _ Hi) as Hcur.
  unfold timer_wheel_insert. rewrite Hu. cbn [mbind option_bind]. rewrite (u32_small (tm_trigger_tick tm)) by lia.
  rewrite slot_of_ticks by lia. change (MINI_OS_CTZ MINI_OS_TICK_WHEEL) with 5. rewrite !Z.shiftr_div_pow2 by lia. change (2 ^ 5) with 32.
  rewrite (u32_small (tm_trigger_tick tm - 1)) by lia.
  destruct (left_of_ticks (s_timer_slot y) (tm_trigger_tick tm) rest u Hcur (proj1 C1) Hr) as [Hleft Hq]. cbv zeta in Hleft, Hq.
  set (slot := (s_timer_slot y + tm_trigger_tick tm) mod 32) in *. pose proof (Z.mod_pos_bound (s_timer_slot y + tm_trigger_tick tm) 32 ltac:(lia)).
  destruct (flag_active tm C4) as (F1 & F2 & F3 & F4). set (tm1 := tm_set_flag tm _) in *.
  assert (TimerSlot slot ∈ timer_heads) as Hin.
  { unfold timer_heads. apply elem_of_cons. right. apply list_elem_of_fmap. exists slot. split; [done|]. apply elem_of_seqZ.
    unfold MINI_OS_TICK_WHEEL. fold slot in H. lia. }
  set (round := if slot =? s_timer_slot y then tm_trigger_tick tm / 32 - 1 else (tm_trigger_tick tm - 1) / 32) in *.
  assert (0 <= round < 4294967296) as Hround.
  { subst round. pose proof (Z.div_le_upper_bound (tm_trigger_tick tm) 32 4294967295 ltac:(lia) ltac:(lia)).
    pose proof (Z.div_le_upper_bound (tm_trigger_tick tm - 1) 32 4294967295 ltac:(lia) ltac:(lia)).
    pose proof (Z.div_pos (tm_trigger_tick tm - 1) 32). destruct (Z.eqb_spec slot (s_timer_slot y)) as [E|]; [specialize (Hq E)|]; lia. }
  assert (∀ front : bool, (front = false -> slot ≠ s_timer_slot y) ->
    ∃ y' tm', timer_list_add (set_timer y u (tm_set_round tm1 round)) front (TimerSlot slot) u = Some y' /\
      tinv y' rest None (<[u := mk_cd (tm_trigger_tick tm) (tm_has tm MINI_OS_TIMER_FLAG_PERIODIC) (tm_has tm MINI_OS_TIMER_FLAG_SOFT)
                              (Some (tm_trigger_tick tm)) false]> s) /\
      aside y y' u /\ t_sync y' = t_sync y /\ s_timer_thread y' = s_timer_thread y /\ timers y' !! u = Some tm' /\
      tm_callback tm' = tm_callback tm /\ tm_arg tm' = tm_arg tm /\ timer_lists y' SoftPending = timer_lists y SoftPending) as Hmain.
  { intros front Hf. destruct (tinv_add (set_timer y u (tm_set_round tm1 round)) rest u s front (TimerSlot slot)) as (y' & E & Hi' & Hh' & E1 & E2 & E3 & E4);
      [by apply tinv_set|done|simpl; rewrite lookup_insert_eq; eauto|done|simpl; intros Hff; specialize (Hf Hff); congruence|].
    rewrite E. assert (timers y' !! u = Some (tm_set_round tm1 round)) as Hu' by (rewrite E2; apply lookup_insert_eq).
    eexists _, _. split; [done|]. split; [|split; [|split; [done|split; [done|split; [exact Hu'|split; [done|split; [done|]]]]]]].
    - pose proof (tinv_settle _ _ _ _ _ Hi' Hu') as Hs. unfold abs in Hs. rewrite Hh', E3, bool_decide_false in Hs by done.
      cbn [set_timer s_timer_slot ts_set_timers tm_set_round tm_round] in Hs.
      change (tm_has (tm_set_round tm1 round)) with (tm_has tm1) in Hs. rewrite F3, F4, Hleft in Hs. apply Hs.
      split; [by apply (cfg_flags _ tm)|simpl; lia| | |by rewrite Hh'].
      + change (tm_has (tm_set_round tm1 round)) with (tm_has tm1). rewrite F2, Hh'. by rewrite bool_decide_true by eauto.
      + change (tm_has (tm_set_round tm1 round)) with (tm_has tm1). rewrite F4, E4. auto.
    - split; [by rewrite E3|]. intros u' Hn. rewrite E2. simpl. by rewrite lookup_insert_ne.
    - unfold timer_list_add in E. destruct (timer_home _ u); [done|]. injection E as <-. simpl. by rewrite fn_lookup_insert_ne. }
  destruct (Z.eqb_spec slot (s_timer_slot y)) as [E|E].
  - rewrite (u32_small (tm_trigger_tick tm / 32 - 1)) by (subst round; lia). by apply (Hmain true).
  - by apply (Hmain false).
Qed.

Lemma alter_some {A} (f : A -> A) (s : gmap Z A) u d : s !! u = Some d -> alter f u s = <[u := f d]> s.
Proof.
  intros E. apply map_eq. intros i. destruct (decide (i = u)) as [->|];
    [by rewrite lookup_alter_eq, E, lookup_insert_eq|by rewrite lookup_alter_ne, lookup_insert_ne].
Qed.
Lemma tinv_weaken y rest u s : tinv y rest None s -> tinv y rest (Some u) s.
Proof. intros [I1 I2 I3 I4 I5]. split; try done; [intros u' tm _; by apply I4|intros u' _; by apply I5]. Qed.
Lemma tinv_old y rest u s tm : tinv y rest None s -> timers y !! u = Some tm -> s !! u = Some (abs y rest u tm) /\ tm_ok y u tm.
Proof. intros [I1 I2 I3 I4 I5] Hu. split; [by rewrite I5, Hu|by apply I4]. Qed.

(** The timer [u] is stopped, its record still in order. *)
Lemma tinv_idle y rest u s tm :
  tinv y rest (Some u) s -> timer_home (timer_lists y) u = None -> timers y !! u = Some tm -> cfg_ok tm ->
  tm_has tm MINI_OS_TIMER_FLAG_ACTIVE = false -> 0 <= tm_round tm ->
  tinv y rest None (<[u := mk_cd (tm_trigger_tick tm) (tm_has tm MINI_OS_TIMER_FLAG_PERIODIC) (tm_has tm MINI_OS_TIMER_FLAG_SOFT) None false]> s).
Proof.
  intros Hi Hh Hu Hc Ha Hr. pose proof (tinv_settle _ _ _ _ _ Hi Hu) as H. unfold abs in H. rewrite Hh, bool_decide_false in H by done.
  apply H. split; [done|done| | |]; rewrite Hh; [|done|done]. by rewrite Ha, bool_decide_false by (by intros [? ?]).
Qed.
Lemma tinv_delete y rest u s :
  tinv y rest (Some u) s -> timer_home (timer_lists y) u = None -> tinv (ts_set_timers y (delete u (timers y))) rest None (delete u s).
Proof.
  intros [I1 I2 I3 I4 I5] Hh. pose proof (proj1 (home_none _ _ _ I2) Hh) as Hn. split; try done.
  - destruct I2 as [S1 S2 S3 S4]. split; try done. intros u' h Hin. simpl. rewrite lookup_delete_ne; [eauto|]. intros ->. by apply (Hn h).
  - intros u' tm _. simpl. intros [Hne Ht]%lookup_delete_Some. apply (tm_ok_ext y); [done..|]. apply I4; congruence.
  - intros u' _. simpl. destruct (decide (u' = u)) as [->|]; [by rewrite !lookup_delete_eq|].
    rewrite !lookup_delete_ne by done. apply I5. congruence.
Qed.
Lemma deactivated tm :
  cfg_ok tm -> let tm1 := tm_deactivate (tm_set_round tm 0) in
  cfg_ok tm1 /\ tm_has tm1 MINI_OS_TIMER_FLAG_ACTIVE = false /\ tm_has tm1 MINI_OS_TIMER_FLAG_PERIODIC = tm_has tm MINI_OS_TIMER_FLAG_PERIODIC /\
  tm_has tm1 MINI_OS_TIMER_FLAG_SOFT = tm_has tm MINI_OS_TIMER_FLAG_SOFT.
Proof.
  intros Hc. destruct (flag_inactive tm (cf_flag _ Hc)) as (F1 & F2 & F3 & F4). cbv zeta.
  split; [by apply (cfg_flags _ tm)|]. by split.
Qed.

Lemma byte_all (f : Z -> bool) : forallb f (seqZ 0 256) = true -> ∀ x, is_u8 x -> f x = true.
Proof. intros H x [Hx1 Hx2]. rewrite forallb_forall in H. apply H. apply list_elem_of_In, elem_of_seqZ. lia. Qed.
Lemma selectors num mode :
  is_u8 num -> is_u8 mode -> timer_selectors_valid num mode = true ->
  (num = 0 \/ num = 1) /\ (mode = 0 \/ mode = 2).
Proof.
  intros Hn Hm Hv. unfold timer_selectors_valid in Hv.
  assert (implb (Z.land num (u8 (Z.lnot 1)) =? 0) ((num =? 0) || (num =? 1)) = true) as H1
    by (by apply (byte_all (λ x, implb (Z.land x (u8 (Z.lnot 1)) =? 0) ((x =? 0) || (x =? 1))))).
  assert (implb (Z.land mode (u8 (Z.lnot 2)) =? 0) ((mode =? 0) || (mode =? 2)) = true) as H2
    by (by apply (byte_all (λ x, implb (Z.land x (u8 (Z.lnot 2)) =? 0) ((x =? 0) || (x =? 2))))).
  unfold MINI_OS_TIMER_FLAG_PERIODIC, MINI_OS_TIMER_FLAG_SOFT in Hv.
  destruct (Z.land num _ =? 0); [|done]. destruct (Z.land mode _ =? 0); [|done]. simpl in H1, H2.
  apply orb_true_iff in H1, H2. rewrite !Z.eqb_eq in H1, H2. done.
Qed.

Section service.
Context (tcb stack sem : Z) (callback_body : Z -> Z -> list timer_call).
Hypothesis stack_aligned : stack ≠ 0 /\ Z.land stack 7 = 0.

(** The result of a call that leaves the service thread alone. *)
Definition goes (y : tsys) (rest : list Z) (s : gmap Z countdown) (c : timer_call) (r : option (Z * tsys)) : Prop :=
  ∃ rc y', r = Some (rc, y') /\ tinv y' rest None (if rc =? MINI_OK then spec_call s c else s) /\ aside y y' (call_target c) /\
    t_sync y' = t_sync y /\ s_timer_thread y' = s_timer_thread y /\ (length (timer_lists y' SoftPending) <= length (timer_lists y SoftPending))%nat /\
    (is_Some (timers y !! call_target c) -> match c with TDelete _ _ => True | _ => is_Some (timers y' !! call_target c) end).
Lemma goes_refused y rest s c rc : tinv y rest None s -> rc ≠ MINI_OK -> goes y rest s c (Some (rc, y)).
Proof.
  intros Hi Hrc. exists rc, y. split; [done|]. destruct (Z.eqb_spec rc MINI_OK); [done|]. split; [done|]. split; [apply aside_refl|].
  repeat (split; [done|]). by destruct c.
Qed.

Lemma create_goes y rest s u cb arg tick num mode static :
  tinv y rest None s -> call_ok y (TCreate u cb arg tick num mode static) -> u ∉ rest ->
  goes y rest s (TCreate u cb arg tick num mode static) (run_call tcb stack y (TCreate u cb arg tick num mode static)).
Proof.
  intros Hi (Hu & Htick & Hnum & Hmode) Hr. unfold run_call.
  assert (∃ (r : option Z) y', (if static then mini_os_timer_create_static y cb arg tick num mode (Some u)
     else mini_os_timer_create y (Some u) cb arg tick num mode) = (r, y') /\
   (r = None /\ y' = y \/ r = Some u /\ cb ≠ 0 /\ 0 < tick /\ timer_selectors_valid num mode = true /\
      y' = set_timer y u (mk_timer cb arg tick 0 (u8 (Z.lor num mode)) (mini_os_obj_init (negb static))))) as (r & y' & -> & Hy).
  { unfold mini_os_timer_create_static, mini_os_timer_create, timer_init. rewrite bool_decide_false by done. cbn [orb].
    destruct (Z.eqb_spec cb 0), (Z.leb_spec tick 0), (timer_selectors_valid num mode) eqn:Ev; cbn [orb negb];
      try (destruct static; eexists _, _; (split; [done|]); by left).
    destruct (selectors num mode Hnum Hmode Ev) as [[-> | ->] [-> | ->]]; destruct static; eexists _, _; (split; [done|]); right; done. }
  destruct Hy as [[-> ->]|(-> & Hcb & Ht & Ev & ->)].
  { rewrite bool_decide_true by done. by apply goes_refused. }
  rewrite bool_decide_false by done. eexists _, _. split; [done|]. rewrite Z.eqb_refl. unfold spec_call, call_target.
  assert (timer_home (timer_lists y) u = None) as Hh.
  { apply (home_none _ _ _ (ti_lists _ _ _ _ Hi)). intros h Hin. destruct (so_timer _ _ (ti_lists _ _ _ _ Hi) _ _ Hin). congruence. }
  split; [|split; [apply aside_set|repeat (split; [done|]); intros _; simpl; rewrite lookup_insert_eq; eauto]].
  match goal with |- tinv (set_timer y u ?tm) _ _ _ =>
    pose proof (tinv_idle (set_timer y u tm) rest u s tm (tinv_set _ _ _ _ tm (tinv_weaken _ _ _ _ Hi)) Hh (lookup_insert_eq _ _ _)) as H end.
  destruct (selectors num mode Hnum Hmode Ev) as [[-> | ->] [-> | ->]]; (apply H; [split; simpl; try done; unfold is_tick in Htick; lia|done|simpl; lia]).
Qed.

Lemma stop_goes y rest s u tm : tinv y rest None s -> timers y !! u = Some tm -> u ∉ rest -> goes y rest s (TStop u) (run_call tcb stack y (TStop u)).
Proof.
  intros Hi Hu Hr. destruct (tinv_old _ _ _ _ _ Hi Hu) as [Hs Hok]. cbn [run_call mini_os_timer_stop].
  destruct (unlink_ok _ _ _ _ _ Hi Hu Hr) as (y1 & -> & Hi1 & Hh1 & Ha1 & E1 & E2 & Hu1 & Hl1). cbn [mbind option_bind].
  exists MINI_OK, y1. split; [done|]. rewrite Z.eqb_refl. cbn [spec_call call_target]. rewrite (alter_some _ _ _ _ Hs).
  destruct (deactivated tm (tk_cfg _ _ _ Hok)) as (D1 & D2 & D3 & D4).
  split; [|split; [done|split; [done|split; [done|split; [rewrite Hl1; apply length_filter|intros _; rewrite Hu1; eauto]]]]].
  pose proof (tinv_idle _ _ _ _ _ Hi1 Hh1 Hu1 D1 D2) as H. rewrite D3, D4 in H. apply H. simpl. lia.
Qed.

Lemma arm_goes y rest s u tm :
  tinv y rest None s -> timers y !! u = Some tm -> u ∉ rest -> (tm_has tm MINI_OS_TIMER_FLAG_SOFT = true -> s_timer_thread y ≠ None) ->
  goes y rest s (TStart u) (timer_start_locked y u).
Proof.
  intros Hi Hu Hr Hth. destruct (tinv_old _ _ _ _ _ Hi Hu) as [Hs Hok]. unfold timer_start_locked.
  destruct (unlink_ok _ _ _ _ _ Hi Hu Hr) as (y1 & -> & Hi1 & Hh1 & Ha1 & E1 & E2 & Hu1 & Hl1). cbn [mbind option_bind].
  destruct (deactivated tm (tk_cfg _ _ _ Hok)) as (D1 & D2 & D3 & D4).
  destruct (insert_ok y1 rest u s _ Hi1 Hh1 Hu1 D1) as (y2 & tm2 & -> & Hi2 & Ha2 & E3 & E4 & Hu2 & _ & _ & Hp); [by rewrite D4, E2|done|].
  cbn [mbind option_bind]. exists MINI_OK, y2. split; [done|]. rewrite Z.eqb_refl. cbn [spec_call call_target]. rewrite (alter_some _ _ _ _ Hs).
  rewrite D3, D4 in Hi2. split; [exact Hi2|]. split; [by eapply aside_trans|]. split; [congruence|]. split; [congruence|].
  split; [rewrite Hp, Hl1; apply length_filter|rewrite Hu2; eauto].
Qed.
(** With the service thread made where it is wanted, a start is its critical section. *)
Lemma start_locked y rest s u tm :
  tinv y rest None s -> timers y !! u = Some tm -> (tm_has tm MINI_OS_TIMER_FLAG_SOFT = true -> s_timer_thread y ≠ None) ->
  run_call tcb stack y (TStart u) = timer_start_locked y u.
Proof.
  intros Hi Hu Hth. destruct (tinv_old _ _ _ _ _ Hi Hu) as [Hs Hok]. cbn [run_call]. unfold mini_os_timer_start, timer_start_checks. rewrite Hu.
  cbn [mbind option_bind]. destruct (Z.leb_spec (tm_trigger_tick tm) 0); [destruct (tk_cfg _ _ _ Hok); lia|].
  assert ((if tm_has tm MINI_OS_TIMER_FLAG_SOFT then timer_thread_ensure tcb stack y else Some y) = Some y) as ->; [|done].
  destruct (tm_has tm MINI_OS_TIMER_FLAG_SOFT); [|done]. unfold timer_thread_ensure. destruct (s_timer_thread y); [done|]. by destruct Hth.
Qed.
Lemma start_goes y rest s u tm :
  tinv y rest None s -> timers y !! u = Some tm -> u ∉ rest -> (tm_has tm MINI_OS_TIMER_FLAG_SOFT = true -> s_timer_thread y ≠ None) ->
  goes y rest s (TStart u) (run_call tcb stack y (TStart u)).
Proof. intros. rewrite (start_locked _ rest s _ tm) by done. by apply (arm_goes _ _ _ _ tm). Qed.

Lemma delete_goes y rest s u tm static :
  tinv y rest None s -> timers y !! u = Some tm -> u ∉ rest -> goes y rest s (TDelete u static) (run_call tcb stack y (TDelete u static)).
Proof.
  intros Hi Hu Hr. destruct (tinv_old _ _ _ _ _ Hi Hu) as [Hs Hok].
  assert (run_call tcb stack y (TDelete u static) = mini_os_timer_delete_common y (Some u) static) as -> by by destruct static.
  unfold mini_os_timer_delete_common. rewrite Hu. cbn [mbind option_bind].
  destruct (negb _); [by apply goes_refused|].
  destruct (unlink_ok _ _ _ _ _ Hi Hu Hr) as (y1 & -> & Hi1 & Hh1 & Ha1 & E1 & E2 & Hu1 & Hl1). cbn [mbind option_bind].
  rewrite Hu1. cbn [mbind option_bind]. pose proof (cf_obj _ (tk_cfg _ _ _ Hok)) as Ho.
  rewrite request_destroy_eq by (simpl; lia). cbv zeta. change (tm_obj (tm_deactivate (tm_set_round tm 0))) with (tm_obj tm). rewrite Ho.
  cbn [Z.sub Z.add Z.opp Z.pos_sub Z.gtb Z.compare]. eexists _, _. split; [done|]. rewrite Z.eqb_refl. cbn [spec_call call_target].
  split; [by apply tinv_delete|]. split; [|split; [done|split; [done|split; [simpl; rewrite Hl1; apply length_filter|done]]]].
  destruct Ha1 as [A1 A2]. split; [done|]. intros u' Hn. simpl. rewrite lookup_delete_ne by done. by apply A2.
Qed.

Lemma set_tick_goes y rest s u tm tick :
  tinv y rest None s -> timers y !! u = Some tm -> u ∉ rest -> is_tick tick -> goes y rest s (TSetTick u tick) (run_call tcb stack y (TSetTick u tick)).
Proof.
  intros Hi Hu Hr Ht. destruct (tinv_old _ _ _ _ _ Hi Hu) as [Hs Hok]. cbn [run_call mini_os_timer_set_trigger_tick].
  destruct (Z.leb_spec tick 0); [by apply goes_refused|]. rewrite Hu. cbn [mbind option_bind].
  destruct (unlink_ok _ _ _ _ _ Hi Hu Hr) as (y1 & -> & Hi1 & Hh1 & Ha1 & E1 & E2 & Hu1 & Hl1). cbn [mbind option_bind].
  rewrite Hu1. cbn [mbind option_bind]. destruct (deactivated tm (tk_cfg _ _ _ Hok)) as (D1 & D2 & D3 & D4).
  set (tm1 := tm_deactivate (tm_set_round tm 0)) in *. set (tm2 := tm_set_trigger tm1 tick). set (y2 := set_timer y1 u tm2).
  assert (tinv y2 rest (Some u) s) as Hi2 by by apply tinv_set. assert (timers y2 !! u = Some tm2) as Hu2 by apply lookup_insert_eq.
  assert (cfg_ok tm2) as Hc2 by (destruct D1; split; simpl; try done; unfold is_tick in Ht; lia).
  assert (aside y y2 u) as Ha2 by (eapply aside_trans; [exact Ha1|apply aside_set]).
  assert (cd_active (abs y rest u tm) = tm_has tm MINI_OS_TIMER_FLAG_ACTIVE) as Hact.
  { rewrite (tk_active _ _ _ Hok). unfold cd_active, abs. simpl. by destruct (timer_home (timer_lists y) u) as [[sl|]|]. }
  unfold goes. cbn [spec_call call_target]. rewrite (alter_some _ _ _ _ Hs), Hact.
  destruct (tm_has tm MINI_OS_TIMER_FLAG_ACTIVE) eqn:Eact.
  - destruct (insert_ok y2 rest u s tm2 Hi2 Hh1 Hu2 Hc2) as (y3 & tm3 & -> & Hi3 & Ha3 & E3 & E4 & Hu3 & _ & _ & Hp); [|done|].
    { intros Hsoft. change (s_timer_thread y2) with (s_timer_thread y1). rewrite E2. apply (tk_thread _ _ _ Hok); [by rewrite <- D4|].
      rewrite (tk_active _ _ _ Hok) in Eact. apply bool_decide_eq_true in Eact as [? ->]. done. }
    cbn [mbind option_bind]. exists MINI_OK, y3. split; [done|]. rewrite Z.eqb_refl.
    change (tm_has tm2) with (tm_has tm1) in Hi3. rewrite D3, D4 in Hi3. split; [exact Hi3|]. split; [by eapply aside_trans|].
    split; [by rewrite E3|]. split; [by rewrite E4|]. split; [rewrite Hp; simpl; rewrite Hl1; apply length_filter|rewrite Hu3; eauto].
  - cbn [mbind option_bind]. exists MINI_OK, y2. split; [done|]. rewrite Z.eqb_refl.
    pose proof (tinv_idle y2 rest u s tm2 Hi2 Hh1 Hu2 Hc2 D2) as H2. change (tm_has tm2) with (tm_has tm1) in H2. rewrite D3, D4 in H2.
    split; [apply H2; simpl; lia|]. split; [done|]. split; [done|]. split; [done|].
    split; [simpl; rewrite Hl1; apply length_filter|rewrite Hu2; eauto].
Qed.

Lemma set_callback_goes y rest s u tm cb arg :
  tinv y rest None s -> timers y !! u = Some tm -> goes y rest s (TSetCallback u cb arg) (run_call tcb stack y (TSetCallback u cb arg)).
Proof.
  intros Hi Hu. destruct (tinv_old _ _ _ _ _ Hi Hu) as [Hs [Hc Hr Ha Ht Hsf]]. cbn [run_call mini_os_timer_set_callback].
  destruct (Z.eqb_spec cb 0); [by apply goes_refused|]. rewrite Hu. cbn [mbind option_bind].
  eexists _, _. split; [done|]. rewrite Z.eqb_refl. cbn [spec_call call_target].
  split; [|split; [apply aside_set|repeat (split; [done|]); intros _; simpl; rewrite lookup_insert_eq; eauto]].
  pose proof (tinv_settle _ _ _ _ _ (tinv_set _ _ _ _ (tm_set_callback tm cb arg) (tinv_weaken _ _ u _ Hi)) (lookup_insert_eq _ _ _)) as H.
  rewrite insert_id in H; [|exact Hs]. apply H. destruct Hc. by repeat (split; simpl; try done).
Qed.

Lemma call_goes y rest s c :
  tinv y rest None s -> call_ok y c -> call_target c ∉ rest ->
  (∀ u tm, c = TStart u -> timers y !! u = Some tm -> tm_has tm MINI_OS_TIMER_FLAG_SOFT = true -> s_timer_thread y ≠ None) ->
  goes y rest s c (run_call tcb stack y c).
Proof.
  intros Hi Hok Hr Hth. destruct c as [u cb arg tick num mode st|u|u|u st|u tick|u cb arg]; cbn [call_ok call_target] in *.
  - by apply create_goes.
  - destruct Hok as [tm Hu]. apply (start_goes _ _ _ _ tm); eauto.
  - destruct Hok as [tm Hu]. by apply (stop_goes _ _ _ _ tm).
  - destruct Hok as [tm Hu]. by apply (delete_goes _ _ _ _ tm).
  - destruct Hok as [[tm Hu] Ht]. by apply (set_tick_goes _ _ _ _ tm).
  - destruct Hok as [tm Hu]. by apply (set_callback_goes _ _ _ _ tm).
Qed.

(** ** The service thread *)

(** The semaphore is there; only the service thread waits, on it. *)
Record sbase (y : tsys) (pc : service_pc) : Prop := {
  sb_wf : wf (t_kern y);
  sb_level : current_level (t_kern y);
  sb_sem : ∃ sm l, sems (t_sync y) !! sem = Some sm /\ wait_lists (t_kern y) !! sem = Some l /\ sem_max_count sm = 1 /\
             0 <= sem_count sm <= 1 /\ mini_os_obj_is_destroyed (sem_obj sm) = false;
  sb_wait : ∀ t th, threads (t_kern y) !! t = Some th -> th_wait_list th ≠ None -> t = tcb /\ pc = SParked /\ th_wait_list th = Some sem;
  sb_thread : s_timer_thread y = None /\ threads (t_kern y) !! tcb = None /\ pc = SDrain \/
              s_timer_thread y = Some tcb /\ is_Some (threads (t_kern y) !! tcb)
}.
(** The service thread will look at the pending timers. *)
Definition alert (y : tsys) (pc : service_pc) : Prop :=
  ∃ th, threads (t_kern y) !! tcb = Some th /\ th_wait_list th = None /\
    (pc = STake -> ∃ sm, sems (t_sync y) !! sem = Some sm /\ 0 < sem_count sm).
Definition wakes (y : tsys) (pc : service_pc) (wake : bool) : Prop :=
  timer_lists y SoftPending ≠ [] -> wake = true \/ alert y pc.

Lemma sbase_same y y' pc : t_sync y' = t_sync y -> s_timer_thread y' = s_timer_thread y -> sbase y pc -> sbase y' pc.
Proof. unfold t_kern. intros E1 E2 []. unfold t_kern in *. split; unfold t_kern; rewrite ?E1, ?E2; done. Qed.
Lemma wakes_same y y' pc wake :
  t_sync y' = t_sync y -> (length (timer_lists y' SoftPending) <= length (timer_lists y SoftPending))%nat -> wakes y pc wake -> wakes y' pc wake.
Proof. unfold wakes, alert, t_kern. intros -> Hp H Hne. apply H. intros E. rewrite E in Hp. by destruct (timer_lists y' SoftPending); [|simpl in Hp; lia]. Qed.

Lemma create_static_ok k priority stack_size :
  wf k -> threads k !! tcb = None -> 0 <= priority < MINI_OS_PRIORITY -> MINI_OS_THREAD_MIN_STACK_SIZE <= stack_size -> Z.land stack_size 7 = 0 ->
  ∃ k' th, mini_os_thread_create_static k true true stack_size priority stack (Some tcb) = Some (Some tcb, k') /\ wf k' /\
    (current_level k -> current_level k') /\ frame k k' tcb th /\ th_wait_list th = None.
Proof.
  intros Hw Ht Hp Hs Hal. destruct stack_aligned as [Hst Hst7]. unfold mini_os_thread_create_static, mini_os_stack_create, MINI_OS_STACK_ALIGN_SIZE.
  unfold MINI_OS_THREAD_MIN_STACK_SIZE in *.
  destruct (Z.eqb_spec stack_size 0); [lia|]. destruct (Z.geb_spec priority MINI_OS_PRIORITY); [lia|]. destruct (Z.eqb_spec stack 0); [done|].
  rewrite bool_decide_false by done. change (8 - 1) with 7. rewrite Hst7. cbn [negb orb fst Z.eqb].
  destruct (Z.eqb_spec stack 0); [done|]. unfold mini_os_thread_init, MINI_OS_THREAD_MIN_STACK_SIZE. rewrite Hst7, Hal. destruct (Z.geb_spec priority MINI_OS_PRIORITY); [lia|].
  destruct (Z.ltb_spec stack_size 256); [lia|]. destruct (Z.eqb_spec stack 0); [done|]. cbn [negb orb Z.eqb].
  destruct (admit_ok k tcb priority Hw Ht Hp) as (k' & -> & Hw' & Hl & th & Hf & Hn & _). simpl. exists k', th. auto 10.
Qed.

Lemma ensure_ok y rest s pc wake :
  tinv y rest None s -> sbase y pc -> wakes y pc wake ->
  ∃ y', timer_thread_ensure tcb stack y = Some y' /\ tinv y' rest None s /\ sbase y' pc /\ wakes y' pc wake /\
    s_timer_thread y' = Some tcb /\ timers y' = timers y /\ timer_lists y' = timer_lists y /\ s_timer_slot y' = s_timer_slot y.
Proof.
  intros Hi Hb Hwk. pose proof Hb as [B1 B2 B3 B4 B5]. unfold timer_thread_ensure. destruct B5 as [(E & Ht & Hpc)|[E Ht]]; rewrite E; [|exists y; by auto 10].
  destruct (create_static_ok (t_kern y) MINI_OS_TIMER_THREAD_PRIORITY MINI_OS_TIMER_THREAD_STACK_SIZE) as (k' & th & -> & Hw & Hl & Hf & Hn);
    [done|done|done|done|done|]. cbn [mbind option_bind]. eexists. split; [done|].
  pose proof Hf as [F1 F2 F3 F4 F5 F6].
  split; [|split; [|split; [|done]]].
  - destruct Hi as [I1 I2 I3 I4 I5]. split; try done. intros u tm Hne Hu. apply (tm_ok_ext y); [done|done|by apply I4].
  - split; unfold t_kern; simpl; [done|auto| | |].
    + destruct B3 as (sm & l & E1 & E2 & E3). exists sm. assert (is_Some (wait_lists k' !! sem)) as [l' El'].
      { apply elem_of_dom. rewrite F6. apply elem_of_dom. eauto. }
      exists l'. split; [done|]. split; [done|exact E3].
    + intros t th'. rewrite F1. destruct (decide (t = tcb)) as [->|]; [rewrite lookup_insert_eq; intros [= <-]; done|].
      rewrite lookup_insert_ne by done. apply B4.
    + right. split; [done|]. rewrite F1, lookup_insert_eq. eauto.
  - intros Hne. destruct (Hwk Hne) as [|(th0 & Ht0 & _)]; [by left|]. congruence.
Qed.

(** The checks of a start. *)
Lemma checks_ok y rest s pc wake u tm :
  tinv y rest None s -> sbase y pc -> wakes y pc wake -> timers y !! u = Some tm ->
  ∃ y', timer_start_checks tcb stack y (Some u) = Some (MINI_OK, y') /\ tinv y' rest None s /\ sbase y' pc /\ wakes y' pc wake /\
    (tm_has tm MINI_OS_TIMER_FLAG_SOFT = true -> s_timer_thread y' ≠ None) /\
    timers y' = timers y /\ timer_lists y' = timer_lists y /\ s_timer_slot y' = s_timer_slot y.
Proof.
  intros Hi Hb Hw Hu. unfold timer_start_checks. rewrite Hu. cbn [mbind option_bind].
  destruct (tinv_old _ _ _ _ _ Hi Hu) as [_ [[Htr _ _ _] _ _ _ _]]. destruct (Z.leb_spec (tm_trigger_tick tm) 0); [lia|].
  destruct (tm_has tm MINI_OS_TIMER_FLAG_SOFT); [|by exists y].
  destruct (ensure_ok y rest s pc wake Hi Hb Hw) as (y1 & -> & Hi1 & Hb1 & Hw1 & Eth & Et & El & Esl). cbn [mbind option_bind].
  exists y1. rewrite Eth. by auto 10.
Qed.

(** What a call does besides. *)
Definition runs (y : tsys) (rest : list Z) (s : gmap Z countdown) (pc : service_pc) (wake : bool) (c : timer_call) : Prop :=
  ∃ rc y', run_call tcb stack y c = Some (rc, y') /\ tinv y' rest None (if rc =? MINI_OK then spec_call s c else s) /\
    aside y y' (call_target c) /\ sbase y' pc /\ wakes y' pc wake /\
    (length (timer_lists y' SoftPending) <= length (timer_lists y SoftPending))%nat /\
    (is_Some (timers y !! call_target c) -> match c with TDelete _ _ => True | _ => is_Some (timers y' !! call_target c) end).

Lemma call_runs y rest s pc wake c :
  tinv y rest None s -> sbase y pc -> wakes y pc wake -> call_ok y c -> call_target c ∉ rest -> runs y rest s pc wake c.
Proof.
  intros Hi Hb Hw Hok Hr.
  assert (∀ y0, run_call tcb stack y c = run_call tcb stack y0 c -> tinv y0 rest None s -> sbase y0 pc -> wakes y0 pc wake ->
    aside y y0 (call_target c) -> timers y0 = timers y -> timer_lists y0 = timer_lists y -> goes y0 rest s c (run_call tcb stack y0 c) -> runs y rest s pc wake c) as Hmain.
  { intros y0 Erun Hi0 Hb0 Hw0 Ha0 Et El0 (rc & y' & E & Hi' & Ha & E1 & E2 & Hp & Hx). exists rc, y'. rewrite Erun. split; [done|].
    split; [done|]. split; [by eapply aside_trans|]. split; [by eapply sbase_same|]. split; [by eapply wakes_same|].
    rewrite <- El0. split; [done|]. by rewrite <- Et. }
  destruct c as [u cb arg tick num mode st|u|u|u st|u tick|u cb arg].
  all: try (apply (Hmain y); [done..|apply aside_refl|done|done|]; apply call_goes; [done..|congruence]).
  destruct Hok as [tm Hu]. cbn [call_target] in *.
  destruct (checks_ok y rest s pc wake u tm Hi Hb Hw Hu) as (y1 & E & Hi1 & Hb1 & Hw1 & Hth & Et & El & Esl). apply (Hmain y1); try done.
  - rewrite (start_locked y1 rest s u tm) by (rewrite ?Et; done). cbn [run_call]. unfold mini_os_timer_start. by rewrite E.
  - split; [done|]. intros u' _. by rewrite Et.
  - apply call_goes; try done; [cbn [call_ok call_target]; rewrite Et; eauto|]. intros u' tm' [= <-] Hu'. rewrite Et, Hu in Hu'. by injection Hu' as <-.
Qed.

(** ** The tick *)

(** The log is one the countdowns allow, and they are those of the timers. *)
Definition tracks (x : timed) (rest : list Z) : Prop := ∃ s, spec_run (td_log x) = Some s /\ tinv (td_sys x) rest None s.

Lemma do_call_ok x rest pc wake c :
  tracks x rest -> sbase (td_sys x) pc -> wakes (td_sys x) pc wake -> call_ok (td_sys x) c -> call_target c ∉ rest ->
  ∃ x', do_call tcb stack x c = Some x' /\ tracks x' rest /\ sbase (td_sys x') pc /\ wakes (td_sys x') pc wake /\
    (length (timer_lists (td_sys x') SoftPending) <= length (timer_lists (td_sys x) SoftPending))%nat /\
    aside (td_sys x) (td_sys x') (call_target c) /\
    (is_Some (timers (td_sys x) !! call_target c) -> match c with TDelete _ _ => True | _ => is_Some (timers (td_sys x') !! call_target c) end).
Proof.
  intros (s & Hlog & Hi) Hb Hw Hok Hr. destruct (call_runs _ _ _ _ _ _ Hi Hb Hw Hok Hr) as (rc & y' & E & Hi' & Ha & Hb' & Hw' & Hp & Hx).
  unfold do_call. rewrite E. cbn [mbind option_bind]. eexists. split; [done|]. cbn [td_sys td_log]. split; [|done].
  exists (if rc =? MINI_OK then spec_call s c else s). split; [|done]. cbn [td_log]. destruct (rc =? MINI_OK); [|done]. simpl. by rewrite Hlog.
Qed.

(** The timers still to be visited are as they were, and none outside the slot is gone. *)
Record spared (y0 y : tsys) (l rest : list Z) : Prop := {
  sp_slot : s_timer_slot y = s_timer_slot y0;
  sp_rest : ∀ v, v ∈ rest -> timers y !! v = timers y0 !! v;
  sp_out : ∀ v, v ∉ l -> is_Some (timers y0 !! v) -> is_Some (timers y !! v)
}.

Lemma hard_body_runs y0 l rest pc wake u cs x :
  hard_body_ok y0 l u cs -> tracks x rest -> sbase (td_sys x) pc -> wakes (td_sys x) pc wake -> spared y0 (td_sys x) l rest ->
  (∀ v, v ∈ rest -> v ∈ l) -> u ∈ l -> u ∉ rest -> is_Some (timers (td_sys x) !! u) ->
  ∃ x', do_calls tcb stack x cs = Some x' /\ tracks x' rest /\ sbase (td_sys x') pc /\ wakes (td_sys x') pc wake /\ spared y0 (td_sys x') l rest.
Proof.
  revert x. induction cs as [|c cs IH]; intros x Hbody Hi Hb Hw [S1 S2 S3] Hl Hul Hur Hu; [by exists x|].
  destruct Hbody as (Htgt & Hok & Hkind & Hbody). cbn [do_calls].
  assert (call_target c ∉ rest) as Hr by (destruct Htgt as [->|Hn]; [done|by intros ?%Hl]).
  assert (is_Some (timers (td_sys x) !! call_target c)) as Hex.
  { destruct Htgt as [->|Hn]; [done|]. apply S3; [done|]. destruct c; cbn [call_ok call_target] in *; try done; by destruct Hok. }
  assert (call_ok (td_sys x) c) as Hok' by (destruct c; cbn [call_ok call_target] in *; try done; by destruct Hok).
  destruct (do_call_ok x rest pc wake c Hi Hb Hw Hok' Hr) as (x1 & -> & Hi1 & Hb1 & Hw1 & _ & [A1 A2] & Hx). cbn [mbind option_bind].
  assert (spared y0 (td_sys x1) l rest) as Hsp.
  { split; [congruence| |].
    - intros v Hv. rewrite A2; [by apply S2|]. by intros ->.
    - intros v Hv Hv0. destruct (decide (v = call_target c)) as [->|]; [|rewrite A2; auto].
      specialize (Hx Hex). destruct c; try done. cbn [call_target] in *. destruct Hkind as [-> _]. done. }
  destruct c as [u' cb arg tick num mode st|u'|u'|u' st|u' tick|u' cb arg]; try done; cbn [call_target] in *.
  3:{ destruct Hkind as [-> ->]. by exists x1. }
  all: apply IH; try done; (destruct (decide (u' = u)) as [->|]; [by apply Hx|by rewrite A2]).
Qed.

Lemma hit_ok y0 l rest pc wake u tm x :
  tracks x (u :: rest) -> sbase (td_sys x) pc -> wakes (td_sys x) pc wake -> spared y0 (td_sys x) l (u :: rest) ->
  (∀ v, v ∈ u :: rest -> v ∈ l) -> timers (td_sys x) !! u = Some tm -> tm_round tm = 0 ->
  (tm_has tm MINI_OS_TIMER_FLAG_SOFT = false -> hard_body_ok y0 l u (callback_body (tm_callback tm) (tm_arg tm))) ->
  ∃ b x', timer_hit tcb stack callback_body x u = Some (b, x') /\ tracks x' rest /\ sbase (td_sys x') pc /\ wakes (td_sys x') pc (wake || b) /\
    spared y0 (td_sys x') l rest.
Proof.
  intros (s & Hlog & Hi) Hb Hw [S1 S2 S3] Hl Hu Hr0 Hbody. set (y := td_sys x) in *.
  destruct (tinv_old _ _ _ _ _ Hi Hu) as [Hs [Hc Hrd Hact Hth Hsf]]. destruct (tinv_visit _ _ _ _ Hi) as [Hi1 Hh1].
  assert (timer_home (timer_lists y) u = Some (TimerSlot (s_timer_slot y))) as Hh.
  { apply (home_in _ (timers y)); [apply Hi|]. destruct (ti_rest _ _ _ _ Hi) as [pre ->]. rewrite elem_of_app, elem_of_cons. auto. }
  assert (u ∉ rest) as Hur.
  { pose proof (so_nodup _ _ (ti_lists _ _ _ _ Hi) (TimerSlot (s_timer_slot y))) as Hnd. destruct (ti_rest _ _ _ _ Hi) as [pre E].
    rewrite E in Hnd. by apply list.NoDup_app in Hnd as (_ & _ & [? _]%list.NoDup_cons). }
  assert (cd_left (abs y (u :: rest) u tm) = Some 0) as Hleft.
  { unfold abs. simpl. rewrite Hh. unfold left_in. rewrite Hr0, bool_decide_true by (apply elem_of_cons; auto).
    replace (s_timer_slot y - s_timer_slot y - 1) with (-1) by lia. done. }
  assert (tm_has tm MINI_OS_TIMER_FLAG_ACTIVE = true) as Ha by (by rewrite Hact, Hh).
  set (d := abs y (u :: rest) u tm) in *. set (y1 := timer_list_remove y u) in *.
  assert (∀ d', (if cd_soft d then mk_cd (cd_period d) (cd_periodic d) true None true else cd_rearm d) = d' ->
    spec_run (THit u :: td_log x) = Some (<[u := d']> s)) as Hspec.
  { intros d' <-. simpl. rewrite Hlog. cbn [mbind option_bind]. rewrite Hs. cbn [mbind option_bind]. fold d. by rewrite bool_decide_true. }
  assert (∀ y', aside y1 y' u -> spared y0 y' l rest) as Hspared.
  { intros y' [A1 A2]. split; [by rewrite A1|intros v Hv; rewrite A2; [|by intros ->]; apply S2, elem_of_cons; auto|].
    intros v Hv Hv0. rewrite A2; [by apply S3|]. intros ->. apply Hv, Hl, elem_of_cons. auto. }
  unfold timer_hit. fold y. fold y1. change (timers y1) with (timers y). rewrite Hu. cbn [mbind option_bind].
  destruct (tm_has tm MINI_OS_TIMER_FLAG_SOFT) eqn:Es.
  - destruct (tinv_add y1 rest u s false SoftPending Hi1 Hh1) as (y2 & -> & Hi2 & Hh2 & E1 & E2 & E3 & E4);
      [simpl; eauto|unfold timer_heads; apply elem_of_cons; auto|done|]. cbn [mbind option_bind]. eexists true, _. split; [done|].
    assert (timers y2 !! u = Some tm) as Hu2 by by rewrite E2.
    split; [|split; [by apply (sbase_same y)|split; [intros _; left; apply orb_true_r|]]].
    + exists (<[u := abs y2 rest u tm]> s). split.
      * apply Hspec. unfold d, abs. simpl. rewrite Es, Hh2. by rewrite bool_decide_true.
      * apply tinv_settle; [done..|]. split; [done|done|by rewrite Ha, Hh2| |done]. intros _ _. rewrite E4. apply Hth; [done|]. by rewrite Hh.
    + apply Hspared. split; [exact E3|]. intros v _. cbn [td_sys]. by rewrite E2.
  - assert (∃ y2 tm2, (if tm_has tm MINI_OS_TIMER_FLAG_PERIODIC then timer_wheel_insert y1 u else Some (set_timer y1 u (tm_deactivate tm))) = Some y2 /\
      tracks (mk_timed y2 (THit u :: td_log x)) rest /\ aside y1 y2 u /\ t_sync y2 = t_sync y /\ s_timer_thread y2 = s_timer_thread y /\
      timers y2 !! u = Some tm2 /\ tm_callback tm2 = tm_callback tm /\ tm_arg tm2 = tm_arg tm /\
      timer_lists y2 SoftPending = filter (λ v, v ≠ u) (timer_lists y SoftPending)) as (y2 & tm2 & -> & Hi2 & Ha2 & E1 & E2 & Hu2 & C1 & C2 & Hp).
    { destruct (tm_has tm MINI_OS_TIMER_FLAG_PERIODIC) eqn:Ep.
      - destruct (insert_ok y1 rest u s tm Hi1 Hh1 Hu Hc) as (y2 & tm2 & -> & Hi2 & Ha2 & E1 & E2 & Hu2 & C1 & C2 & Hp); [by rewrite Es|done|].
        exists y2, tm2. split; [done|]. split; [|done]. eexists. split; [|exact Hi2]. apply Hspec. unfold d, abs, cd_rearm, cd_arm. simpl.
        by rewrite Ep, Es.
      - destruct (flag_inactive tm (cf_flag _ Hc)) as (F1 & F2 & F3 & F4).
        eexists _, _. split; [done|]. split; [|split; [apply aside_set|split; [done|split; [done|split; [apply lookup_insert_eq|done]]]]].
        eexists. split; [|exact (tinv_idle _ rest u s (tm_deactivate tm) (tinv_set _ _ _ _ _ Hi1) Hh1 (lookup_insert_eq _ _ _) (cfg_flags _ tm Hc F1 eq_refl eq_refl eq_refl) F2 Hrd)].
        apply Hspec. rewrite F3, F4. unfold d, abs, cd_rearm, cd_arm. simpl. by rewrite Ep, Es. }
    cbn [mbind option_bind]. rewrite Hu2. cbn [mbind option_bind]. rewrite C1, C2.
    destruct (Z.eqb_spec (tm_callback tm) 0) as [E|_]; [by destruct (cf_callback _ Hc)|]. cbn [negb].
    destruct (hard_body_runs y0 l rest pc wake u (callback_body (tm_callback tm) (tm_arg tm)) (mk_timed y2 (THit u :: td_log x)))
      as (x3 & -> & Hi3 & Hb3 & Hw3 & Hsp3); try done.
    + by apply Hbody.
    + by apply (sbase_same y).
    + apply (wakes_same y); [done| |done]. cbn [td_sys]. rewrite Hp. apply length_filter.
    + by apply Hspared.
    + intros v Hv. apply Hl, elem_of_cons. auto.
    + apply Hl, elem_of_cons. auto.
    + cbn [mbind option_bind]. exists false, x3. rewrite orb_false_r. done.
Qed.

(** The timer visited has turns of the wheel left. *)
Lemma tinv_skip y rest u s tm :
  tinv y (u :: rest) None s -> timers y !! u = Some tm -> 0 < tm_round tm ->
  tinv (set_timer y u (tm_set_round tm (tm_round tm - 1))) rest None s /\ u ∉ rest.
Proof.
  intros Hi Hu Hr. destruct (tinv_old _ _ _ _ _ Hi Hu) as [Hs [Hc Hrd Hact Hth Hsf]]. destruct Hi as [I1 I2 [pre I3] I4 I5].
  assert (timer_home (timer_lists y) u = Some (TimerSlot (s_timer_slot y))) as Hh
    by (apply (home_in _ (timers y)); [done|]; rewrite I3, elem_of_app, elem_of_cons; auto).
  assert (u ∉ rest) as Hur.
  { pose proof (so_nodup _ _ I2 (TimerSlot (s_timer_slot y))) as Hnd. rewrite I3 in Hnd.
    by apply list.NoDup_app in Hnd as (_ & _ & [? _]%list.NoDup_cons). }
  split; [|done]. split; [done| |exists (pre ++ [u]); simpl; by rewrite I3, <- app_assoc| |].
  - eapply sorted_timers; [done|]. intros v Hv. simpl. destruct (decide (v = u)) as [->|]; [rewrite lookup_insert_eq|rewrite lookup_insert_ne by done]; eauto.
  - intros v tm' _. simpl. destruct (decide (v = u)) as [->|].
    + rewrite lookup_insert_eq. intros [= <-]. split; [by apply (cfg_flags _ tm); try apply Hc|simpl; lia|done|done|done].
    + rewrite lookup_insert_ne by done. intros Hv. apply (tm_ok_ext y); [done..|]. by apply I4.
  - intros v _. simpl. destruct (decide (v = u)) as [->|].
    + rewrite lookup_insert_eq, Hs. simpl. f_equal. unfold abs. simpl. rewrite Hh. unfold left_in.
      rewrite (bool_decide_true (u ∈ u :: rest)) by (apply elem_of_cons; auto). rewrite (bool_decide_false (u ∈ rest)) by done.
      change (tm_has (tm_set_round tm (tm_round tm - 1))) with (tm_has tm). do 2 f_equal. simpl. lia.
    + rewrite lookup_insert_ne, I5 by done. destruct (timers y !! v); [|done]. simpl. f_equal. symmetry. apply abs_ext; [done..|].
      rewrite elem_of_cons. naive_solver.
Qed.

Definition head_node (cur : Z) (rest : list Z) : timer_node :=
  match rest with [] => TimerHead (TimerSlot cur) | u :: _ => TimerNode u end.
Lemma walk_ok y0 l pc rest : ∀ fuel x wake,
  (length rest < fuel)%nat -> tracks x rest -> sbase (td_sys x) pc -> wakes (td_sys x) pc wake -> spared y0 (td_sys x) l rest ->
  (∀ v, v ∈ rest -> v ∈ l) ->
  (∀ v tm, v ∈ rest -> timers y0 !! v = Some tm -> tm_has tm MINI_OS_TIMER_FLAG_SOFT = false ->
     hard_body_ok y0 l v (callback_body (tm_callback tm) (tm_arg tm))) ->
  ∃ b x', tick_walk tcb stack callback_body fuel x (head_node (s_timer_slot y0) rest) wake = Some (b, x') /\
    tracks x' [] /\ sbase (td_sys x') pc /\ wakes (td_sys x') pc b.
Proof.
  induction rest as [|u rest IH]; intros [|fuel] x wake Hf Hi Hb Hw Hsp Hl Hbody; simpl in Hf; try lia; cbn [tick_walk head_node].
  { rewrite bool_decide_true by (by rewrite (sp_slot _ _ _ _ Hsp)). eauto 10. }
  pose proof Hi as (s & Hlog & Ht). pose proof (ti_lists _ _ _ _ Ht) as Hso. destruct (ti_rest _ _ _ _ Ht) as [pre Epre].
  rewrite bool_decide_false by done.
  assert (timer_next (timer_lists (td_sys x)) (TimerNode u) = head_node (s_timer_slot y0) rest) as ->
    by (rewrite (next_in _ _ _ pre u rest Hso Epre), (sp_slot _ _ _ _ Hsp); done).
  destruct (so_timer _ _ Hso u (TimerSlot (s_timer_slot (td_sys x)))) as [tm Hu]; [rewrite Epre, elem_of_app, elem_of_cons; auto|].
  rewrite Hu. cbn [mbind option_bind]. pose proof (proj2 (tinv_old _ _ _ _ _ Ht Hu)) as Hok.
  assert (timers y0 !! u = Some tm) as Hu0 by (rewrite <- (sp_rest _ _ _ _ Hsp); [done|apply elem_of_cons; auto]).
  destruct (Z.gtb_spec (tm_round tm) 0) as [Hr|Hr].
  - destruct (tinv_skip _ _ _ _ _ Ht Hu Hr) as [Ht' Hur].
    apply IH; [lia|exists s; done|by apply (sbase_same (td_sys x))|done| |intros v Hv; apply Hl, elem_of_cons; auto|intros v tm' Hv; apply Hbody, elem_of_cons; auto].
    destruct Hsp as [S1 S2 S3]. split; [done| |].
    + intros v Hv. simpl. rewrite lookup_insert_ne by (by intros ->). apply S2, elem_of_cons. auto.
    + intros v Hv Hv0. simpl. rewrite lookup_insert_ne; [auto|]. intros ->. apply Hv, Hl, elem_of_cons. auto.
  - destruct (hit_ok y0 l rest pc wake u tm x) as (b & x' & -> & Hi' & Hb' & Hw' & Hsp'); try done.
    + destruct Hok. lia.
    + apply Hbody; [apply elem_of_cons; auto|done].
    + cbn [mbind option_bind]. apply IH; try done; [lia|intros v Hv; apply Hl, elem_of_cons; auto|].
      intros v tm' Hv. apply Hbody, elem_of_cons. auto.
Qed.

(** The wheel turns. *)
Lemma tinv_turn y s :
  tinv y [] None s -> let cur := (s_timer_slot y + 1) mod 32 in
  tinv (ts_set_slot y cur) (timer_lists y (TimerSlot cur)) None (cd_tick <$> s).
Proof.
  intros [I1 I2 I3 I4 I5] cur. pose proof (Z.mod_pos_bound (s_timer_slot y + 1) 32 ltac:(lia)) as Hcur. fold cur in Hcur.
  split; [done|done|by exists []| |].
  - intros u tm _ Hu. apply (tm_ok_ext y); [done..|]. by apply I4.
  - intros u _. simpl. rewrite lookup_fmap, I5 by done. destruct (timers y !! u) as [tm|]; [|done]. simpl. f_equal.
    unfold cd_tick, abs. simpl. destruct (timer_home (timer_lists y) u) as [[sl|]|] eqn:Eh; simpl; try done. do 2 f_equal.
    unfold left_in. rewrite (bool_decide_false (u ∈ [])) by apply not_elem_of_nil.
    pose proof (proj1 (home_in _ _ _ _ I2) Eh) as Hin. pose proof (so_head _ _ I2 _ _ Hin) as Hsl.
    unfold timer_heads in Hsl. apply elem_of_cons in Hsl as [|Hsl]; [done|]. apply list_elem_of_fmap in Hsl as (sl' & [= <-] & Hsl).
    apply elem_of_seqZ in Hsl. unfold MINI_OS_TICK_WHEEL in Hsl.
    assert (cur = if s_timer_slot y =? 31 then 0 else s_timer_slot y + 1) as Ec.
    { subst cur. destruct (Z.eqb_spec (s_timer_slot y) 31) as [->|]; [done|]. apply Z.mod_small. lia. }
    assert (∀ z, -32 <= z < 32 -> z mod 32 = if z <? 0 then z + 32 else z) as Hmod.
    { intros z Hz. destruct (Z.ltb_spec z 0); [|apply Z.mod_small; lia].
      rewrite <- (Z_mod_plus_full z 1 32). apply Z.mod_small. lia. }
    rewrite !Hmod by (destruct (Z.eqb_spec (s_timer_slot y) 31); lia).
    destruct (decide (sl = cur)) as [E|E].
    + rewrite bool_decide_true by by rewrite <- E. destruct (Z.eqb_spec (s_timer_slot y) 31);
        repeat match goal with |- context [?a <? ?b] => destruct (Z.ltb_spec a b) end; lia.
    + rewrite bool_decide_false.
      2:{ intros Hin'. apply E. pose proof (so_one _ _ I2 _ _ _ Hin Hin') as Ex. congruence. }
      destruct (Z.eqb_spec (s_timer_slot y) 31);
        repeat match goal with |- context [?a <? ?b] => destruct (Z.ltb_spec a b) end; lia.
Qed.

(** The semaphore is given. *)
Lemma give_isr_ok y pc :
  sbase y pc ->
  ∃ rc y1, mini_os_semaphore_give_isr (t_sync y) (Some sem) = Some (rc, y1) /\ sbase (ts_set_sync y y1) pc /\
    (s_timer_thread y ≠ None -> alert (ts_set_sync y y1) pc).
Proof.
  intros [B1 B2 B3 B4 B5]. destruct B3 as (sm & l & Hsm & Hl & Hmax & Hcount & Hd). unfold t_kern in *.
  unfold mini_os_semaphore_give_isr, give_common, mini_os_semaphore_wake_one.
  pose proof (wake_oldest_ok _ _ _ B1 B2 Hl) as Hwk. destruct l as [|t l'].
  - rewrite Hwk. cbn [mbind option_bind]. rewrite Hsm. cbn [mbind option_bind].
    assert (∀ tht, threads (kern (t_sync y)) !! tcb = Some tht -> th_wait_list tht = None) as Hfree.
    { intros tht Htht. destruct (th_wait_list tht) eqn:Ew; [|done]. destruct (B4 _ _ Htht) as (_ & _ & Es); [congruence|].
      pose proof (waits_in_list _ _ _ _ _ B1 Htht Es Hl) as Hin. by apply not_elem_of_nil in Hin. }
    assert (s_timer_thread y ≠ None -> ∃ tht, threads (kern (t_sync y)) !! tcb = Some tht) as Hth by (destruct B5 as [(E & _)|[_ ?]]; [congruence|done]).
    destruct (Z.geb_spec (sem_count sm) (sem_max_count sm)).
    + eexists _, _. split; [done|]. split; [split; unfold t_kern; simpl; try done; by exists sm, []|].
      intros [tht Ht]%Hth. exists tht. unfold t_kern. simpl. split; [done|]. split; [eauto|]. intros _. exists sm. split; [done|lia].
    + eexists _, _. split; [done|]. assert (u16 (sem_count sm + 1) = 1) as -> by (assert (sem_count sm = 0) as -> by lia; done). split.
      * split; unfold t_kern; simpl; try done. eexists _, []. rewrite lookup_insert_eq. split; [done|]. split; [done|]. simpl. split; [done|]. split; [lia|done].
      * intros [tht Ht]%Hth. exists tht. unfold t_kern. simpl. split; [done|]. split; [eauto|]. intros _. rewrite lookup_insert_eq. eexists. split; [done|]. simpl. lia.
  - destruct Hwk as (k' & th & -> & Hw' & Hlv & Ht & Hwl & Hf & W1 & W2). cbn [mbind option_bind]. eexists _, _. split; [done|].
    destruct (B4 _ _ Ht) as (-> & Hpc & _); [congruence|]. destruct (woken_done th) as [Hwn _]. pose proof Hf as [F1 F2 F3 F4 F5 F6]. split.
    + split; unfold t_kern; simpl; [done|done|by exists sm, l'| |].
      * intros t th'. rewrite F1. destruct (decide (t = tcb)) as [->|]; [rewrite lookup_insert_eq; intros [= <-]; congruence|].
        rewrite lookup_insert_ne by done. apply B4.
      * right. destruct B5 as [(_ & E & _)|[E _]]; [congruence|]. split; [done|]. rewrite F1, lookup_insert_eq. eauto.
    + intros _. exists (woken th true). unfold t_kern. simpl. rewrite F1, lookup_insert_eq. split; [done|]. split; [done|]. congruence.
Qed.

(** The kernel moves on: waiting threads may time out, none starts to wait, the service thread
    is not made by another. *)
Record calm (k k' : kernel) : Prop := {
  cm_wf : wf k';
  cm_level : current_level k';
  cm_lists : dom (wait_lists k') = dom (wait_lists k);
  cm_threads : ∀ t th, threads k !! t = Some th -> ∃ th', threads k' !! t = Some th' /\
     (th_wait_list th' = th_wait_list th \/ th_wait_list th' = None);
  cm_new : ∀ t th', threads k' !! t = Some th' -> th_wait_list th' ≠ None -> is_Some (threads k !! t);
  cm_none : threads k !! tcb = None -> threads k' !! tcb = None
}.
Lemma calm_same k k' :
  wf k' -> current_level k' -> dom (wait_lists k') = dom (wait_lists k) -> threads k' = threads k -> calm k k'.
Proof. intros Hw Hl Hd E. split; rewrite ?E; eauto. Qed.
Lemma calm_grant k k' :
  wf k' -> current_level k' -> no_grant k k' -> (threads k !! tcb = None -> threads k' !! tcb = None) -> calm k k'.
Proof.
  intros Hw Hl [G1 G2 G3] Hn. split; try done. intros t th Ht. destruct (G2 _ _ Ht) as (th' & E & Hc). exists th'. split; [done|].
  destruct Hc as [[]|(_ & ? & _)]; auto.
Qed.
Lemma sbase_kernel y k' pc : sbase y pc -> calm (t_kern y) k' -> sbase (ts_set_kern y k') pc /\ (alert y pc -> alert (ts_set_kern y k') pc).
Proof.
  intros [B1 B2 B3 B4 B5] [C1 C2 G1 G2 G3 Hnew]. unfold t_kern in *. split; [split; unfold t_kern; simpl; try done|].
  - destruct B3 as (sm & l & E1 & E2 & E3). assert (is_Some (wait_lists k' !! sem)) as [l' El'].
    { apply elem_of_dom. rewrite G1. apply elem_of_dom. eauto. }
    exists sm, l'. by split.
  - intros t th' Ht Hwl. destruct (G3 _ _ Ht Hwl) as [th Ht0]. destruct (G2 _ _ Ht0) as (th1 & Ht1 & Hc). simplify_eq.
    destruct Hc as [E|E]; [|by rewrite E in Hwl]. rewrite E in Hwl |- *. by apply (B4 t th).
  - destruct B5 as [(E1 & E2 & E3)|[E [th Ht]]]; [left; auto|]. right. split; [done|]. destruct (G2 _ _ Ht) as (th' & -> & _). eauto.
  - intros (th & Ht & Hn & Hsem). destruct (G2 _ _ Ht) as (th' & Ht' & Hc). exists th'. unfold t_kern. simpl. split; [done|]. split; [|done].
    destruct Hc; congruence.
Qed.
Lemma tinv_sync y v rest s : tinv y rest None s -> tinv (ts_set_sync y v) rest None s.
Proof. intros [I1 I2 I3 I4 I5]. split; try done. intros u tm Hne Hu. apply (tm_ok_ext y); [done|done|by apply I4]. Qed.
Lemma hard_body_same y y' l u cs : timers y' = timers y -> hard_body_ok y l u cs -> hard_body_ok y' l u cs.
Proof.
  intros E. induction cs as [|c cs IH]; [done|]. intros (H1 & H2 & H3 & H4). split; [done|]. split; [|auto].
  destruct c; simpl in *; by rewrite E.
Qed.
Lemma bodies_ok_same y y' l us : timers y' = timers y -> bodies_ok callback_body y l us -> bodies_ok callback_body y' l us.
Proof.
  intros E. induction us as [|u us IH]; [done|]. intros [H1 H2]. simpl. rewrite E. split; [|auto].
  destruct (timers y !! u); [|done]. destruct (tm_has _ _); [done|]. by apply (hard_body_same y).
Qed.
Lemma bodies_in y l us u tm :
  bodies_ok callback_body y l us -> u ∈ us -> timers y !! u = Some tm -> tm_has tm MINI_OS_TIMER_FLAG_SOFT = false ->
  hard_body_ok y l u (callback_body (tm_callback tm) (tm_arg tm)).
Proof.
  intros Hb Hin Hu Hs. induction us as [|v us IH]; [by apply not_elem_of_nil in Hin|]. destruct Hb as [Hv Hb].
  apply elem_of_cons in Hin as [<-|Hin]; [|auto]. by rewrite Hu, Hs in Hv.
Qed.
(** The tick: the walk ends, and the service thread is told. *)
Lemma timer_tick_ok x pc :
  tracks x [] -> sbase (td_sys x) pc -> wakes (td_sys x) pc false -> tick_ok callback_body (td_sys x) ->
  ∃ x', mini_os_timer_tick tcb stack sem callback_body x = Some x' /\ tracks x' [] /\ sbase (td_sys x') pc /\ wakes (td_sys x') pc false.
Proof.
  intros (s & Hlog & Hi) Hb Hw Hok. unfold mini_os_timer_tick. set (y := td_sys x) in *.
  pose proof (ti_slot _ _ _ _ Hi) as Hslot.
  assert (Z.land (u32 (s_timer_slot y + 1)) MINI_OS_TICK_WHEEL_MASK = (s_timer_slot y + 1) mod 32) as ->.
  { apply slot_of_ticks; lia. }
  set (cur := (s_timer_slot y + 1) mod 32). pose proof (tinv_turn _ _ Hi) as Hi1. fold cur in Hi1. set (y1 := ts_set_slot y cur) in *.
  destruct (walk_ok y1 (timer_lists y (TimerSlot cur)) pc (timer_lists y (TimerSlot cur)) (walk_fuel y1) (mk_timed y1 (TTicked :: td_log x)) false)
    as (b & x1 & E & Hi2 & Hb2 & Hw2).
  - unfold walk_fuel. simpl. lia.
  - exists (cd_tick <$> s). split; [|done]. simpl. by rewrite Hlog.
  - by apply (sbase_same y).
  - by apply (wakes_same y).
  - done.
  - done.
  - intros v tm Hv Htm Hs. apply (hard_body_same y); [done|]. by apply (bodies_in _ _ _ _ _ Hok).
  - cbn [timer_next]. change (timer_lists y1) with (timer_lists y) at 1. change (s_timer_slot y1) with cur in *.
    change (match timer_lists y (TimerSlot cur) with [] => TimerHead (TimerSlot cur) | u :: _ => TimerNode u end) with (head_node cur (timer_lists y (TimerSlot cur))).
    rewrite E. cbn [mbind option_bind]. destruct b; [|by exists x1].
    destruct (give_isr_ok _ _ Hb2) as (rc & y2 & -> & Hb3 & Ha3). cbn [mbind option_bind].
    destruct (yield_isr_spec (kern y2) (sb_wf _ _ Hb3)) as [v ->]. cbn [mbind option_bind]. eexists. split; [done|]. cbn [td_sys].
    destruct (sbase_kernel _ (k_set_pendsv (kern y2) v) _ Hb3) as [Hb4 Ha4];
      [by apply calm_same; [apply wf_pendsv, Hb3|exact (sb_level _ _ Hb3)|..]|].
    destruct Hi2 as (s2 & Hlog2 & Hi2). split; [|split; [exact Hb4|]].
    + exists s2. split; [done|]. by apply (tinv_sync (ts_set_sync (td_sys x1) y2)), tinv_sync.
    + intros Hne. right. apply Ha4, Ha3. simpl in Hne. destruct (timer_lists (td_sys x1) SoftPending) as [|u l] eqn:El; [done|].
      assert (timer_home (timer_lists (td_sys x1)) u = Some SoftPending) as Hh.
      { apply (home_in _ _ _ _ (ti_lists _ _ _ _ Hi2)). rewrite El. apply elem_of_cons. auto. }
      destruct (so_timer _ _ (ti_lists _ _ _ _ Hi2) u SoftPending) as [tm Hu]; [rewrite El; apply elem_of_cons; auto|].
      destruct (tinv_old _ _ _ _ _ Hi2 Hu) as [_ Htk]. apply (tk_thread _ _ _ Htk); [by apply (tk_soft _ _ _ Htk)|by rewrite Hh].
Qed.

(** ** The kernel and the service thread *)

Context (time_slice long_time : bool).

Lemma plain_new k op k' :
  wf k -> current_level k -> plain_op op -> op_ok k op -> (∀ t p ss st, op = KCreate t p ss st -> t ≠ tcb) ->
  kernel_step time_slice long_time k op = Some k' -> threads k !! tcb = None -> threads k' !! tcb = None.
Proof.
  intros Hw Hl Hp Hok Hne E Hn.
  destruct op as [t p ss st|w|w| | | |n|w m tm o| |w s|w s|t p]; try done; cbn [kernel_step op_ok] in *.
  - destruct Hok as [Hf Hp0]. destruct (create_ok k true true t p ss st Hw Hf Hp0) as (r & k1 & Ec & _ & _ & Hfr). rewrite Ec in E.
    injection E as <-. destruct Hfr as [->|(th & Hfr & _)]; [done|]. rewrite (fr_threads _ _ _ _ Hfr), lookup_insert_ne; [done|]. by eapply Hne.
  - destruct (systick_spec time_slice long_time k Hw) as (k1 & E1 & _ & _ & _ & _ & _ & _ & Ht). rewrite E in E1. injection E1 as <-.
    specialize (Ht tcb). rewrite Hn in Ht. by destruct (threads k' !! tcb).
  - destruct (switch_spec (k_set_pendsv k false)) as (rc & k1 & Es & _ & _ & _ & _ & _ & _ & _ & Hr); [by apply wf_pendsv|done|].
    unfold pendsv_handler in E. rewrite Es in E. injection E as <-. destruct (_ =? _).
    + destruct Hr as [_ ->]. change (threads (k_set_pendsv k false)) with (threads k). by rewrite Hn.
    + destruct Hr as (_ & _ & n & _ & _ & _ & ->). change (threads (k_set_pendsv k false)) with (threads k). by rewrite Hn.
  - by injection E as <-.
  - destruct Hok as [Hm Ht]. unfold mini_os_thread_delay_tick in E. destruct (Z.eqb_spec n 0); [by injection E as <-|].
    destruct (delay_ok k n Hw Hm) as (k1 & Ed & _ & _ & Hfr); [unfold is_u32 in Ht; lia|]. rewrite Ed in E. injection E as <-.
    destruct (current_thread k) as [c|]; [|congruence]. destruct Hfr as (th & Hc & Hfr). rewrite (fr_threads _ _ _ _ Hfr), lookup_insert_ne; congruence.
  - destruct Hok as (Hs & Hp0 & Hc). destruct (priority_ok k t p Hw Hs Hp0) as (rc & k1 & Ep & _ & _ & Hfr). rewrite Ep in E. injection E as <-.
    destruct Hfr as [[-> _]|(th & Ht & Hfr & _)]; [done|]. rewrite (fr_threads _ _ _ _ Hfr), lookup_insert_ne; congruence.
Qed.
Lemma plain_calm k op :
  wf k -> current_level k -> plain_op op -> op_ok k op -> (∀ t p ss st, op = KCreate t p ss st -> t ≠ tcb) ->
  ∃ k', kernel_step time_slice long_time k op = Some k' /\ calm k k'.
Proof.
  intros Hw Hl Hp Hok Hne. destruct (kernel_step_ok time_slice long_time k op Hw Hl Hok) as (k' & E & Hw' & Hl').
  destruct (plain_step time_slice long_time k op Hw (λ _ _, Hl) Hp Hok) as (k1 & E1 & _ & Hg & _). exists k'. split; [done|].
  apply calm_grant; try done; [congruence|]. by apply (plain_new k op).
Qed.
Lemma count_calm k : wf k -> current_level k -> ∃ k', systick_count time_slice long_time k = Some k' /\ calm k k'.
Proof.
  intros Hw Hl. destruct (plain_calm k KTick Hw Hl) as (k2 & E & [C1 C2 C3 C4 C5 C6]); [done..|]. cbn [kernel_step] in E. unfold mini_os_systick_handler in E.
  destruct (systick_count time_slice long_time k) as [k1|]; [|done]. cbn [mbind option_bind] in E. exists k1. split; [done|].
  assert (k2 = k1 \/ k2 = k_set_pendsv k1 true) as Hk.
  { unfold mini_os_schedule_yield_isr in E. destruct (current_thread k1) as [c|]; [|left; by injection E].
    destruct (threads k1 !! c); [|done]. simpl in E. destruct (_ <? _); injection E; auto. }
  destruct Hk as [-> | ->]; [by split|]. split; try done. apply (wf_pendsv _ (pendsv k1)) in C1. by destruct k1.
Qed.

Definition good (m : timer_machine) : Prop :=
  let x := tmm_timed m in tracks x [] /\ sbase (td_sys x) (tmm_pc m) /\ wakes (td_sys x) (tmm_pc m) false.

Lemma calm_good x pc k' :
  tracks x [] -> sbase (td_sys x) pc -> wakes (td_sys x) pc false -> calm (t_kern (td_sys x)) k' ->
  let x' := mk_timed (ts_set_kern (td_sys x) k') (td_log x) in tracks x' [] /\ sbase (td_sys x') pc /\ wakes (td_sys x') pc false.
Proof.
  intros (s & Hlog & Hi) Hb Hw Hc. destruct (sbase_kernel _ _ _ Hb Hc) as [Hb' Ha]. split; [exists s; split; [done|by apply tinv_sync]|].
  split; [exact Hb'|]. intros Hne. destruct (Hw Hne) as [?|?]; auto.
Qed.
Lemma tick_good m : good m -> timer_op_ok tcb callback_body m TTick ->
  ∃ m', timer_step tcb stack sem callback_body time_slice long_time m TTick = Some m' /\ good m'.
Proof.
  intros (Hi & Hb & Hw) Hok. unfold timer_step, systick_with_timers.
  destruct (count_calm (t_kern (td_sys (tmm_timed m))) (sb_wf _ _ Hb) (sb_level _ _ Hb)) as (k & -> & Hc). cbn [mbind option_bind].
  destruct (calm_good _ _ _ Hi Hb Hw Hc) as (Hi1 & Hb1 & Hw1).
  destruct (timer_tick_ok _ (tmm_pc m) Hi1 Hb1 Hw1) as (x2 & -> & Hi2 & Hb2 & Hw2).
  { unfold tick_ok. apply (bodies_ok_same (td_sys (tmm_timed m))); [done|exact Hok]. }
  cbn [mbind option_bind]. destruct (yield_isr_spec (t_kern (td_sys x2)) (sb_wf _ _ Hb2)) as [v ->]. cbn [mbind option_bind].
  eexists. split; [done|]. apply (calm_good x2 (tmm_pc m)); [done..|]. apply calm_same; [apply wf_pendsv, Hb2|exact (sb_level _ _ Hb2)|done..].
Qed.
Lemma kernel_good m op : good m -> timer_op_ok tcb callback_body m (TKernel op) ->
  ∃ m', timer_step tcb stack sem callback_body time_slice long_time m (TKernel op) = Some m' /\ good m'.
Proof.
  intros (Hi & Hb & Hw) Hok. unfold timer_step.
  destruct (plain_calm (t_kern (td_sys (tmm_timed m))) op (sb_wf _ _ Hb) (sb_level _ _ Hb)) as (k & -> & Hc).
  1-3: destruct op; try done; cbn [timer_op_ok op_ok] in *; try tauto. { intros ???? [= <- <- <- <-]. tauto. }
  cbn [mbind option_bind]. eexists. split; [done|]. by apply (calm_good (tmm_timed m) (tmm_pc m)).
Qed.
Lemma call_good m c : good m -> timer_op_ok tcb callback_body m (TCall c) ->
  ∃ m', timer_step tcb stack sem callback_body time_slice long_time m (TCall c) = Some m' /\ good m'.
Proof.
  intros (Hi & Hb & Hw) Hok. unfold timer_step.
  destruct (do_call_ok (tmm_timed m) [] (tmm_pc m) false c Hi Hb Hw Hok) as (x' & -> & Hi' & Hb' & Hw' & _); [apply not_elem_of_nil|].
  cbn [mbind option_bind]. eexists. split; [done|]. by split.
Qed.

(** A start in its two parts. *)
Lemma ensure_good m u : good m -> timer_op_ok tcb callback_body m (TEnsure u) ->
  ∃ m', timer_step tcb stack sem callback_body time_slice long_time m (TEnsure u) = Some m' /\ good m'.
Proof.
  intros ((s & Hlog & Hi) & Hb & Hw) [tm Hu]. unfold timer_step.
  destruct (checks_ok _ [] s _ false u tm Hi Hb Hw Hu) as (y1 & -> & Hi1 & Hb1 & Hw1 & _). cbn [mbind option_bind].
  eexists. split; [done|]. split; [by exists s|]. by split.
Qed.
Lemma arm_good m u : good m -> timer_op_ok tcb callback_body m (TArm u) ->
  ∃ m', timer_step tcb stack sem callback_body time_slice long_time m (TArm u) = Some m' /\ good m'.
Proof.
  intros ((s & Hlog & Hi) & Hb & Hw) (tm & Hu & Hth). unfold timer_step.
  destruct (arm_goes _ [] s u tm Hi Hu (not_elem_of_nil u) Hth) as (rc & y1 & E & Hi1 & _ & E1 & E2 & Hp & _).
  assert (rc = MINI_OK) as ->.
  { unfold timer_start_locked in E. destruct (timer_unlink _ _) as [y2|]; [|done]. simpl in E. destruct (timer_wheel_insert _ _); [|done]. by injection E. }
  rewrite E. cbn [mbind option_bind]. eexists. split; [done|]. split; [|split].
  - exists (spec_call s (TStart u)). split; [|done]. simpl. by rewrite Hlog.
  - by eapply sbase_same.
  - by eapply wakes_same.
Qed.

(** From one point of the service thread to another outside the semaphore. *)
Lemma sbase_pc y pc pc' : pc ≠ SParked -> s_timer_thread y = Some tcb -> sbase y pc -> sbase y pc'.
Proof.
  intros Hpc Eth [B1 B2 B3 B4 B5]. split; try done.
  - intros t th Ht Hw. by destruct (B4 t th Ht Hw) as (_ & ? & _).
  - right. destruct B5 as [(E & _)|[_ ?]]; [congruence|done].
Qed.
Lemma awake y pc pc' : sbase y pc -> pc ≠ SParked -> s_timer_thread y = Some tcb -> pc' ≠ STake -> alert y pc'.
Proof.
  intros [B1 B2 B3 B4 B5] Hpc Eth Hpc'. destruct B5 as [(E & _)|[_ [th Ht]]]; [congruence|]. exists th. split; [done|]. split; [|done].
  destruct (th_wait_list th) eqn:E; [|done]. destruct (B4 tcb th Ht) as (_ & ? & _); [by rewrite E|done].
Qed.

(** The service thread goes on outside the semaphore. *)
Lemma good_at x pc pc' :
  tracks x [] -> sbase (td_sys x) pc -> s_timer_thread (td_sys x) = Some tcb -> pc ≠ SParked -> pc' ≠ STake -> good (mk_tmachine x pc').
Proof.
  intros Hi Hb Eth Hpc Hpc'. split; [done|]. split; [by apply (sbase_pc _ pc)|]. intros _. right. by apply (awake _ pc).
Qed.
(** Events the countdowns do not see. *)
Definition silent (ev : timer_event) : Prop := match ev with TCalled _ _ _ | TMade _ => True | _ => False end.
#[export] Instance silent_dec ev : Decision (silent ev).
Proof. destruct ev; simpl; apply _. Defined.
Lemma tracks_silent x rest ev : silent ev -> tracks x rest -> tracks (happened x ev) rest.
Proof. intros He (s & Hlog & Hi). exists s. split; [|done]. simpl. rewrite Hlog. by destruct ev. Qed.

(** The oldest pending timer is taken: its countdown starts again, its callback and argument
    are as they were. *)
Lemma soft_next_ok x s u l :
  spec_run (td_log x) = Some s -> tinv (td_sys x) [] None s -> s_timer_thread (td_sys x) ≠ None -> timer_lists (td_sys x) SoftPending = u :: l ->
  ∃ tm y tm', timers (td_sys x) !! u = Some tm /\ soft_next x = Some (SFetch u, mk_timed y (TServed u :: td_log x)) /\
    tracks (mk_timed y (TServed u :: td_log x)) [] /\ t_sync y = t_sync (td_sys x) /\ s_timer_thread y = s_timer_thread (td_sys x) /\
    timer_lists y SoftPending = l /\ aside (td_sys x) y u /\
    timers y !! u = Some tm' /\ tm_callback tm' = tm_callback tm /\ tm_arg tm' = tm_arg tm.
Proof.
  intros Hlog Hi Eth El. unfold soft_next. set (y := td_sys x) in *. rewrite El.
  assert (u ∈ timer_lists y SoftPending) as Hin by (rewrite El; apply elem_of_cons; auto).
  pose proof (proj2 (home_in _ _ _ _ (ti_lists _ _ _ _ Hi)) Hin) as Hh. destruct (so_timer _ _ (ti_lists _ _ _ _ Hi) _ _ Hin) as [tm Hu].
  destruct (tinv_old _ _ _ _ _ Hi Hu) as [Hs [Hc Hrd Hact Hth Hsf]].
  destruct (tinv_remove _ _ _ _ _ Hi Hu (not_elem_of_nil u)) as [Hi1 Hh1]. set (y1 := timer_list_remove y u) in *.
  assert (timer_lists y1 SoftPending = l) as Hl1.
  { pose proof (so_nodup _ _ (ti_lists _ _ _ _ Hi) SoftPending) as Hnd. simpl. rewrite El in Hnd |- *.
    apply list.NoDup_cons in Hnd as [Hn _]. rewrite filter_cons_False by auto. by apply filter_ne_not_in. }
  assert (aside y y1 u) as Ha1 by done.
  assert (∃ y2 tm2, (if tm_has tm MINI_OS_TIMER_FLAG_PERIODIC then timer_wheel_insert y1 u else Some (set_timer y1 u (tm_deactivate tm))) = Some y2 /\
    t_sync y2 = t_sync y /\ s_timer_thread y2 = s_timer_thread y /\ tinv y2 [] None (<[u := cd_rearm (abs y [] u tm)]> s) /\
    timer_lists y2 SoftPending = l /\ aside y y2 u /\ timers y2 !! u = Some tm2 /\ tm_callback tm2 = tm_callback tm /\ tm_arg tm2 = tm_arg tm)
    as (y2 & tm2 & E2 & E3 & E4 & Hi2 & Hrest).
  { unfold cd_rearm, cd_arm, abs. simpl. destruct (tm_has tm MINI_OS_TIMER_FLAG_PERIODIC) eqn:Ep.
    - destruct (insert_ok y1 [] u s tm Hi1 Hh1 Hu Hc) as (y2 & tm2 & -> & Hi2 & Ha2 & E1 & E2 & Hu2 & Ecb & Earg & Hp);
        [done|apply not_elem_of_nil|]. rewrite Ep in Hi2. rewrite Hl1 in Hp. exists y2, tm2.
      assert (aside y y2 u) by by eapply aside_trans. by repeat (split; [done|]).
    - destruct (flag_inactive tm (cf_flag _ Hc)) as (F1 & F2 & F3 & F4).
      pose proof (tinv_idle _ [] u s (tm_deactivate tm) (tinv_set _ _ _ _ _ Hi1) Hh1 (lookup_insert_eq _ _ _) (cfg_flags _ tm Hc F1 eq_refl eq_refl eq_refl) F2 Hrd) as H.
      rewrite F3, F4, Ep in H. eexists _, (tm_deactivate tm). split; [done|]. split; [done|]. split; [done|]. split; [exact H|]. split; [done|].
      split; [eapply aside_trans; [exact Ha1|apply aside_set]|]. split; [apply lookup_insert_eq|done]. }
  exists tm, y2, tm2. rewrite Hu. cbn [mbind option_bind]. rewrite E2. cbn [mbind option_bind]. split; [done|]. split; [done|].
  split; [|by split]. exists (<[u := cd_rearm (abs y [] u tm)]> s). split; [|done]. simpl. rewrite Hlog. cbn [mbind option_bind]. rewrite Hs.
  cbn [mbind option_bind]. assert (cd_pending (abs y [] u tm) = true) as -> by (by apply bool_decide_eq_true). done.
Qed.
Lemma drain_good x c :
  tracks x [] -> sbase (td_sys x) SDrain -> s_timer_thread (td_sys x) = Some tcb ->
  ∃ pc x', service_step tcb stack sem callback_body x c SDrain = Some (pc, x') /\ good (mk_tmachine x' pc).
Proof.
  intros (s & Hlog & Hi) Hb Eth. cbn [service_step]. destruct (timer_lists (td_sys x) SoftPending) as [|u l] eqn:El.
  { unfold soft_next. rewrite El. eexists _, _. split; [done|]. split; [by exists s|]. split; [by apply (sbase_pc _ SDrain)|].
    intros H. simpl in H. by rewrite El in H. }
  destruct (soft_next_ok x s u l Hlog Hi) as (tm & y & tm' & _ & -> & Htr & E1 & E2 & _); [congruence|done|].
  eexists _, _. split; [done|]. apply (good_at _ SDrain); [done|by apply (sbase_same (td_sys x))|simpl; congruence|done..].
Qed.

Lemma take_good x :
  tracks x [] -> sbase (td_sys x) STake -> wakes (td_sys x) STake false -> s_timer_thread (td_sys x) = Some tcb ->
  may_call (t_kern (td_sys x)) -> current_thread (t_kern (td_sys x)) = Some tcb ->
  ∃ pc x', service_step tcb stack sem callback_body x tcb STake = Some (pc, x') /\ good (mk_tmachine x' pc).
Proof.
  intros (s & Hlog & Hi) Hb Hw Eth Hm Hc. cbn [service_step]. set (y := td_sys x) in *. pose proof Hb as [B1 B2 (sm & l & Hsm & Hl & Hmax & Hct & Hd) B4 B5].
  unfold t_kern in *. destruct (take_alive _ _ _ MINI_OS_WAIT_FOREVER Hsm Hd) as (o & o1 & Ho & Ho1 & ->). cbv zeta.
  destruct (Z.gtb_spec (sem_count sm) 0) as [Hpos|Hzero].
  - cbn [mbind option_bind]. eexists _, _. split; [done|].
    assert (sbase (ts_set_sync y (set_sem (t_sync y) sem (mk_sem (sem_count sm - 1) (sem_max_count sm) o))) STake) as Hb'.
    { split; unfold t_kern; simpl; try done. eexists _, l. rewrite lookup_insert_eq. split; [done|]. split; [done|]. simpl. split; [done|]. split; [lia|done]. }
    split; [exists s; split; [done|by apply tinv_sync]|]. split; [by apply (sbase_pc _ STake)|]. intros _. right. by apply (awake _ STake).
  - change (MINI_OS_WAIT_FOREVER =? 0) with false. cbn iota. rewrite bool_decide_false by (by rewrite Hc).
    destruct (park_ok (kern (t_sync y)) sem 0 MINI_OS_WAIT_FOREVER sem B1 Hm) as [[_ [?|?]]|(c & th & k' & Hc' & _ & Ht & -> & Hw' & Hl' & Hf & W)];
      [by exists l|done|done|congruence|]. cbn [mbind option_bind]. assert (c = tcb) as -> by congruence. clear Hc'. eexists _, _. split; [done|].
    rewrite Z.eqb_refl in Hf. pose proof Hf as [F1 F2 F3 F4 F5 F6]. destruct (waiting_on_fields th sem 0 sem) as (_ & _ & Hwl & _).
    split; [exists s; split; [done|by apply tinv_sync]|]. split.
    + split; unfold t_kern; simpl; [done|auto| | |].
      * rewrite lookup_insert_eq, W. eexists _, _. split; [done|]. rewrite lookup_insert_eq. split; [done|]. simpl. by split.
      * intros t th'. rewrite F1. destruct (decide (t = tcb)) as [->|]; [rewrite lookup_insert_eq; by intros [= <-]|].
        rewrite lookup_insert_ne by done. intros Ht' Hwt. by destruct (B4 t th' Ht' Hwt) as (_ & ? & _).
      * right. split; [done|]. rewrite F1, lookup_insert_eq. eauto.
    + intros Hne. destruct (Hw Hne) as [?|(th0 & _ & _ & Hs0)]; [done|]. destruct Hs0 as (sm0 & Hsm0 & Hpos); [done|]. simplify_eq. lia.
Qed.

Lemma resume_good x :
  tracks x [] -> sbase (td_sys x) SParked -> s_timer_thread (td_sys x) = Some tcb ->
  may_call (t_kern (td_sys x)) -> current_thread (t_kern (td_sys x)) = Some tcb ->
  ∃ pc x', service_step tcb stack sem callback_body x tcb SParked = Some (pc, x') /\ good (mk_tmachine x' pc).
Proof.
  intros (s & Hlog & Hi) Hb Eth Hm Hc. cbn [service_step]. set (y := td_sys x) in *. pose proof Hb as [B1 B2 (sm & l & Hsm & Hl & Hmax & Hct & Hd) B4 B5].
  destruct (kernel_step_ok time_slice long_time _ KUnpark B1 B2 Hm) as (k' & E & Hw' & Hl'). cbn [kernel_step] in E. rewrite Hc in E.
  unfold t_kern in *. unfold sem_take_resume. unfold sync_wait_resume in E |- *.
  destruct (threads (kern (t_sync y)) !! tcb) as [th|] eqn:Ht; [|done]. cbn [mbind option_bind fmap option_fmap option_map snd] in E |- *.
  assert (th_wait_list th = None) as Hn.
  { destruct (th_wait_list th) eqn:Ew; [|done]. pose proof (to_wait _ _ _ (wf_threads _ B1 _ _ Ht)) as H. rewrite (caller_runs _ _ _ Hm Hc Ht) in H.
    discriminate H. by rewrite Ew. }
  injection E as Ek. rewrite Ek. assert (calm (kern (t_sync y)) k') as Hcalm.
  { subst k'. split; simpl; try done.
    - intros t th0 Ht0. destruct (decide (t = tcb)) as [->|]; [rewrite lookup_insert_eq|rewrite lookup_insert_ne by done; eauto].
      assert (th0 = th) as -> by congruence. eexists. split; [done|]. by left.
    - intros t th0. destruct (decide (t = tcb)) as [->|]; [rewrite Ht; eauto|rewrite lookup_insert_ne by done; eauto].
    - congruence. }
  destruct (sbase_kernel _ _ _ Hb Hcalm) as [[D1 D2 D3 D4 D5] _]. unfold t_kern in *. simpl in *.
  destruct (sem_release_alive (set_kern (t_sync y) k') sem sm Hsm Hd) as (o & -> & Ho). cbn [mbind option_bind]. eexists _, _. split; [done|].
  assert (∀ t th0, threads k' !! t = Some th0 -> th_wait_list th0 = None) as Hnone.
  { intros t th0 Ht0. destruct (th_wait_list th0) eqn:Ew; [|done]. destruct (D4 _ _ Ht0) as (-> & _); [by rewrite Ew|].
    subst k'. simpl in Ht0. rewrite lookup_insert_eq in Ht0. injection Ht0 as <-. simpl in Ew. congruence. }
  assert (sbase (ts_set_sync y (set_sem (set_kern (t_sync y) k') sem (sem_set_obj sm o))) SDrain) as Hb'.
  { split; unfold t_kern; simpl; try done.
    - destruct D3 as (sm' & l' & E1 & E2 & E3). simplify_eq. eexists _, l'. rewrite lookup_insert_eq. split; [done|]. split; [done|].
      destruct E3 as (? & ? & _). by split.
    - intros t th0 Ht0 Hwt. by rewrite (Hnone _ _ Ht0) in Hwt.
    - right. destruct D5 as [(? & _)|[_ ?]]; [congruence|done]. }
  split; [exists s; split; [done|by apply tinv_sync]|]. split; [exact Hb'|]. intros _. right. by apply (awake _ SDrain).
Qed.

Lemma service_good m : good m -> timer_op_ok tcb callback_body m TService ->
  ∃ m', timer_step tcb stack sem callback_body time_slice long_time m TService = Some m' /\ good m'.
Proof.
  intros (Hi & Hb & Hw) (Hm & Hc & Eth & Hok). unfold timer_step. rewrite Hc. cbn [mbind option_bind].
  assert (∃ pc x', service_step tcb stack sem callback_body (tmm_timed m) tcb (tmm_pc m) = Some (pc, x') /\ good (mk_tmachine x' pc)) as (pc & x' & -> & Hg).
  { destruct (tmm_pc m) as [|u|u cb|[|c cs]| |] eqn:Epc.
    - by apply drain_good.
    - destruct Hok as [tm Hu]. cbn [service_step]. unfold soft_fetch. rewrite Hu. cbn [mbind option_bind]. eexists _, _. split; [done|].
      apply (good_at _ (SFetch u)); [done..|by destruct (negb (tm_callback tm =? 0))].
    - destruct Hok as [tm Hu]. cbn [service_step]. unfold soft_call. rewrite Hu. cbn [mbind option_bind]. eexists _, _. split; [done|].
      apply (good_at _ (SArg u cb)); [by apply tracks_silent|done..].
    - eexists _, _. split; [done|]. by apply (good_at _ (SCallback [])).
    - cbn [service_step].
      destruct (do_call_ok (happened (tmm_timed m) (TMade c)) [] _ false c (tracks_silent _ _ (TMade c) I Hi) Hb Hw Hok) as (x' & -> & Hi' & Hb' & Hw' & _);
        [apply not_elem_of_nil|].
      cbn [mbind option_bind]. eexists _, _. split; [done|].
      apply (good_at _ (SCallback (c :: cs))); try done. by destruct (sb_thread _ _ Hb') as [(_ & _ & ?)|[? _]].
    - by apply take_good.
    - by apply resume_good. }
  cbn [mbind option_bind]. eauto.
Qed.

Lemma timer_step_good m op : good m -> timer_op_ok tcb callback_body m op ->
  ∃ m', timer_step tcb stack sem callback_body time_slice long_time m op = Some m' /\ good m'.
Proof.
  intros Hg Hok. destruct op; [by apply kernel_good|by apply tick_good|by apply call_good|by apply ensure_good|by apply arm_good|by apply service_good].
Qed.
Lemma timer_run_good ops : ∀ m, good m -> timer_ops_ok tcb stack sem callback_body time_slice long_time m ops ->
  ∃ m', timer_run tcb stack sem callback_body time_slice long_time m ops = Some m' /\ good m'.
Proof.
  induction ops as [|op ops IH]; intros m Hg; simpl; [eauto|]. intros [Hop Hops].
  destruct (timer_step_good m op Hg Hop) as (m1 & E & Hg1).
  rewrite E in Hops |- *. cbn [mbind option_bind]. eauto.
Qed.
Lemma boot_good : good (boot_timers sem).
Proof.
  assert (t_kern (td_sys (tmm_timed (boot_timers sem))) = wait_list_init boot_kernel sem) as Ek by done.
  split; [|split].
  - exists ∅. split; [done|]. split; simpl; [lia|split; simpl; try (intros; by apply not_elem_of_nil in H)|by exists []| |].
    all: try (intros; repeat match goal with H : _ ∈ [] |- _ => by apply not_elem_of_nil in H end); try done.
    + constructor.
  - split; rewrite ?Ek; try done.
    + apply wf_wait_list_init; [apply boot_wf|done].
    + eexists _, []. split; [apply lookup_insert_eq|]. split; [apply lookup_insert_eq|]. done.
    + by left.
  - by intros H.
Qed.

(** ** The drain *)







(** ** The theorems *)

Lemma left_positive y s u d n : tinv y [] None s -> s !! u = Some d -> cd_left d = Some n -> 0 < n.
Proof.
  intros Hi Hs Hn. rewrite (ti_spec _ _ _ _ Hi) in Hs by done. destruct (timers y !! u) as [tm|] eqn:Hu; [|done]. injection Hs as <-.
  destruct (tinv_old _ _ _ _ _ Hi Hu) as [_ [_ Hr _ _ _]]. unfold abs in Hn. simpl in Hn.
  destruct (timer_home (timer_lists y) u) as [[sl|]|]; [|done..]. injection Hn as <-. unfold left_in. rewrite bool_decide_false by apply not_elem_of_nil.
  pose proof (Z.mod_pos_bound (sl - s_timer_slot y - 1) 32 ltac:(lia)). lia.
Qed.
End service.

(** C20: Calls are made by threads and callbacks in whatever order with ticks, switches, the two
    parts of a start and the steps of the service thread, under these conditions
    ([timer_ops_ok]).  Callers pass timers that exist and numbers in the range of their types.
    A HARD callback works on its own timer and on timers of other slots, creates none and
    deletes none but its own, with its last call; otherwise the walk goes astray
    ([stopped_neighbour_derails]).  A timer is not deleted between the two parts of its start,
    nor after the service thread has taken it and before it has read the callback
    ([deleted_before_its_callback]).  The test for the service thread and its creation run
    through ([service_thread_made_twice]).  Then nothing goes wrong and each walk of a tick
    ends; the events are those that countdowns allow: a tick counts every running timer down
    by one, a deadline is reached exactly when the count is 0, and none is left at 0 when the
    tick is over; a SOFT timer is served once for each deadline.  The countdowns are those
    that the wheel, the rounds and the flags of the timers stand for. *)
Theorem timers_refine_countdowns tcb stack sem callback_body time_slice long_time ops :
  stack ≠ 0 /\ Z.land stack 7 = 0 ->
  timer_ops_ok tcb stack sem callback_body time_slice long_time (boot_timers sem) ops ->
  ∃ m s, timer_run tcb stack sem callback_body time_slice long_time (boot_timers sem) ops = Some m /\
    spec_run (td_log (tmm_timed m)) = Some s /\
    (∀ u d n, s !! u = Some d -> cd_left d = Some n -> 0 < n) /\
    ∀ u, let y := td_sys (tmm_timed m) in
      s !! u = abs y [] u <$> timers y !! u /\
      ((λ tm, tm_has tm MINI_OS_TIMER_FLAG_ACTIVE) <$> timers y !! u) = (cd_active <$> s !! u).
Proof.
  intros Hst Hok. destruct (timer_run_good tcb stack sem callback_body Hst time_slice long_time ops _ (boot_good tcb sem) Hok) as (m & E & (s & Hlog & Hi) & _).
  exists m, s. split; [done|]. split; [done|]. split; [intros u d n; by apply (left_positive _ _ _ _ _ Hi)|].
  intros u y. pose proof (ti_spec _ _ _ _ Hi u) as Hs. fold y in Hs. rewrite Hs by done. split; [done|].
  destruct (timers y !! u) as [tm|] eqn:Hu; [|done]. simpl. f_equal. rewrite (tk_active _ _ _ (proj2 (tinv_old _ _ _ _ _ Hi Hu))).
  unfold cd_active, abs. simpl. fold y. by destruct (timer_home (timer_lists y) u) as [[sl|]|].
Qed.

(** A HARD periodic timer of 3 ticks whose callback restarts itself, and a SOFT one of 2 that the
    service thread serves. *)
Definition sample_body (callback arg : Z) : list timer_call :=
  if callback =? 1 then [] else if callback =? 2 then [TStop arg] else [TStart arg].
Definition timer_ops : list timer_op :=
  [TKernel (KCreate 1 5 512 16384); TCall (TCreate 10 3 10 3 1 0 false); TCall (TStart 10);
   TCall (TCreate 11 1 0 2 0 2 true); TCall (TStart 11); TKernel KSwitch; TKernel (KDelay 40); TKernel KSwitch; TService; TService;
   TTick; TTick; TKernel KSwitch; TService; TService; TService; TService; TService; TTick].
Lemma timers_refine_countdowns_witness :
  ∃ m s, timer_run 900 4096 800 sample_body true true (boot_timers 800) timer_ops = Some m /\
    spec_run (td_log (tmm_timed m)) = Some s /\ s !! 10 = Some (mk_cd 3 true false (Some 3) false) /\
    s !! 11 = Some (mk_cd 2 false true None false).
Proof.
  destruct (timers_refine_countdowns 900 4096 800 sample_body true true timer_ops) as (m & s & E & Hs & _).
  - split; [discriminate|reflexivity].
  - vm_compute. repeat split; try discriminate; try (eexists; reflexivity); try (left; reflexivity).
  - assert (match timer_run 900 4096 800 sample_body true true (boot_timers 800) timer_ops with
            | Some m => match spec_run (td_log (tmm_timed m)) with
                        | Some s => s !! 10 = Some (mk_cd 3 true false (Some 3) false) /\ s !! 11 = Some (mk_cd 2 false true None false)
                        | None => False
                        end
            | None => False
            end) as Hx by (vm_compute; repeat split).
    rewrite E, Hs in Hx. destruct Hx as [H1 H2]. exists m, s. exact (conj E (conj Hs (conj H1 H2))).
Defined.



(** ** Findings *)

(** A node that a HARD callback took out of the slot under the walk points to itself: the walk
    hits it again and again and never ends. *)
Lemma stray_walk_endless tcb stack callback_body fuel : ∀ x u tm wake,
  timers (td_sys x) !! u = Some tm -> timer_home (timer_lists (td_sys x)) u = None -> tm_round tm = 0 ->
  0 <= tm_flag tm < 8 -> tm_has tm MINI_OS_TIMER_FLAG_SOFT = false -> tm_has tm MINI_OS_TIMER_FLAG_PERIODIC = false ->
  callback_body (tm_callback tm) (tm_arg tm) = [] -> tick_walk tcb stack callback_body fuel x (TimerNode u) wake = None.
Proof.
  induction fuel as [|fuel IH]; intros x u tm wake Hu Hh Hr Hf Hs Hp Hb; [done|]. cbn [tick_walk]. rewrite bool_decide_false by done.
  cbn [timer_next]. rewrite Hh, Hu. cbn [mbind option_bind]. rewrite Hr. cbn [Z.gtb Z.compare].
  unfold timer_hit. change (timers (timer_list_remove (td_sys x) u)) with (timers (td_sys x)). rewrite Hu. cbn [mbind option_bind]. rewrite Hs, Hp.
  cbn [mbind option_bind]. simpl timers. rewrite lookup_insert_eq. cbn [mbind option_bind]. change (tm_callback (tm_deactivate tm)) with (tm_callback tm).
  change (tm_arg (tm_deactivate tm)) with (tm_arg tm). rewrite Hb.
  replace (if negb (tm_callback tm =? 0) then _ else _) with (Some (mk_timed (set_timer (timer_list_remove (td_sys x) u) u (tm_deactivate tm)) (THit u :: td_log x)))
    by by destruct (negb _).
  cbn [mbind option_bind]. destruct (flag_inactive tm Hf) as (F1 & F2 & F3 & F4).
  apply (IH _ u (tm_deactivate tm)); [apply lookup_insert_eq| |done|done|congruence|congruence|done].
  simpl. unfold timer_home in *. destruct (list_find _ timer_heads) as [[i h]|] eqn:E in Hh; [done|]. apply list_find_None in E.
  destruct (list_find _ timer_heads) as [[i h]|] eqn:E'; [|done]. apply list_find_Some in E' as (El & [_ Hin]%list_elem_of_filter & _).
  rewrite list.Forall_forall in E. by destruct (E h (list_elem_of_lookup_2 _ _ _ El)).
Qed.
(** Two one-shot timers are due at the same tick, and the callback of the first stops the
    second. *)
Theorem stopped_neighbour_derails :
  (m ← timer_run 900 4096 800 sample_body true true (boot_timers 800)
         [TCall (TCreate 10 2 11 3 0 0 false); TCall (TStart 10); TCall (TCreate 11 1 0 3 0 0 false); TCall (TStart 11); TTick; TTick];
   Some (timer_lists (td_sys (tmm_timed m)) (TimerSlot 3), bool_decide (mini_os_timer_tick 900 4096 800 sample_body (tmm_timed m) ≫= (λ _, Some tt) = None)))
  = Some ([10; 11], true).
Proof. vm_compute. reflexivity. Qed.

(** A SOFT timer of 3 ticks that is served two ticks late comes again at 8, not at 6. *)
Theorem soft_period_drifts :
  (m ← timer_run 900 4096 800 sample_body true true (boot_timers 800)
         [TCall (TCreate 10 1 0 3 1 2 false); TCall (TStart 10); TTick; TTick; TTick; TTick; TTick;
          TKernel KSwitch; TService; TService; TTick; TTick; TTick];
   Some (td_log (tmm_timed m)))
  = Some [THit 10; TTicked; TTicked; TTicked; TServed 10; TTicked; TTicked; THit 10; TTicked; TTicked; TTicked;
          TDid (TStart 10); TDid (TCreate 10 1 0 3 1 2 false)].
Proof. vm_compute. reflexivity. Qed.

(** The service thread has taken a SOFT timer and left the critical section; the timer is deleted;
    the thread then reads the callback of a timer that is gone. *)
Theorem deleted_before_its_callback :
  (m ← timer_run 900 4096 800 sample_body true true (boot_timers 800)
         [TCall (TCreate 10 1 0 2 0 2 false); TCall (TStart 10); TKernel KSwitch; TTick; TTick; TService; TCall (TDelete 10 false)];
   Some (tmm_pc m, bool_decide (timer_step 900 4096 800 sample_body true true m TService ≫= (λ _, Some tt) = None)))
  = Some (SFetch 10, true).
Proof. vm_compute. reflexivity. Qed.
(** The callback is set in one critical section, but read in two steps without one: the old
    function is called with the argument of the new one. *)
Theorem callback_and_argument_torn :
  (m ← timer_run 900 4096 800 sample_body true true (boot_timers 800)
         [TCall (TCreate 10 1 5 2 0 2 false); TCall (TStart 10); TKernel KSwitch; TTick; TTick; TService; TService;
          TCall (TSetCallback 10 2 6); TService];
   Some (take 2 (td_log (tmm_timed m))))
  = Some [TCalled 10 1 6; TDid (TSetCallback 10 2 6)].
Proof. vm_compute. reflexivity. Qed.

(** Two threads find no service thread and both create it on its one control block: the node in
    the ready list is linked a second time. *)
Theorem service_thread_made_twice :
  ('(r, k) ← mini_os_thread_create_static boot_kernel true true MINI_OS_TIMER_THREAD_STACK_SIZE MINI_OS_TIMER_THREAD_PRIORITY 4096 (Some 900);
   Some (r, bool_decide (mini_os_thread_create_static k true true MINI_OS_TIMER_THREAD_STACK_SIZE MINI_OS_TIMER_THREAD_PRIORITY 4096 (Some 900) ≫= (λ _, Some tt) = None)))
  = Some (Some 900, true).
Proof. vm_compute. reflexivity. Qed.
