(* ===== verification/MiniThread.v ===== *)
(** * The life of mini-os threads

    Models the rest of src/lib/mini-os/src/thread.c in the default configuration: suspension
    and resumption, exit, deletion, the queue of terminated threads that the idle thread
    empties, and the accessors; and [mini_os_sync_wait_ref_drop_all] of src/schedule.c.  They
    work on the world of [MiniMutex], since a thread that ends lets go of its mutexes.  The
    blocks of [threads] are the storage that is alive: a thread that is deleted or reaped is
    gone from it.  [None] is an access to storage that is gone, the linking of a node that is
    linked already, or a call that never returns.

    A reference that a waiting call holds is the address of the header it counts in: that of
    a semaphore, or [mutex_header] of a mutex.

    What holds of it is in [MiniThreadInv]. *)

From S2P Require Import Prelude Status MiniList MiniSched MiniKernel MiniSem MiniMutex.
From stdpp Require Import gmap.

#[local] Open Scope Z_scope.

Definition drop_thread (k : kernel) (t : Z) : kernel := k_set_threads k (delete t (threads k)).

(** ** Suspension *)

(** [t] leaves the wait list it is in, and the owner of the mutex it waited on drops the
    boost; [cancel]: its wait is reported as failed. *)
Definition leave_wait (w : world) (t : Z) (cancel : bool) : option world :=
  th ← threads (w_kern w) !! t;
  match th_wait_list th with
  | None => Some w
  | Some l =>
      let waited := m ← th_wait_mutex th; if bool_decide (l = m) then Some m else None in
      let th := th_set_wait_mutex (th_set_wait_list th None) None in
      let th := if cancel then th_set_wait_status th false else th in
      let w := w_set_kern w (set_thread (wait_unlink (w_kern w) t) t th) in
      match waited with
      | None => Some w
      | Some m =>
          mx ← mutexes w !! m;
          match mx_owner mx with
          | None => Some w
          | Some _ => '(_, w) ← mini_os_mutex_priority_recompute w (mx_owner mx); Some w
          end
      end
  end.

(** A blocked thread is unlinked from everything, its delay kept in [resume_time]. *)
Definition suspend_blocked (w : world) (t : Z) : option world :=
  th ← threads (w_kern w) !! t;
  remain ← mini_os_wheel_remain (w_kern w) (Some t);
  let w := w_set_kern w (set_thread (w_kern w) t (th_set_resume_time th (s32 remain))) in
  w ← leave_wait w t true;
  let k := w_kern w in
  let k := if bool_decide (home k t = None) then k else unlink k t in
  th ← threads k !! t;
  Some (w_set_kern w (set_thread k t (th_set_round (th_set_wheel_slot th MINI_OS_TICK_WHEEL) 0))).
Definition mini_os_thread_suspend (w : world) (thread : option Z) : option (Z * world) :=
  match thread with
  | None => Some (MINI_ERR_INVAL, w)
  | Some t =>
      th ← threads (w_kern w) !! t;
      if bool_decide (th_state th = THREAD_SUSPENDED) then Some (MINI_OK, w) else
      let ready := is_ready (th_state th) in
      if negb ready && negb (bool_decide (th_state th = THREAD_BLOCKED)) then Some (MINI_ERR_BUSY, w) else
      w ← (if ready then
             '(_, k) ← mini_os_remove_thread_from_ready_running_list (w_kern w) (Some t); Some (w_set_kern w k)
           else suspend_blocked w t);
      th ← threads (w_kern w) !! t;
      let k := set_thread (w_kern w) t (th_set_state th THREAD_SUSPENDED) in
      Some (MINI_OK, w_set_kern w (if bool_decide (current_thread k = Some t) then (mini_os_schedule_yield k).2 else k))
  end.

Definition mini_os_thread_resume (k : kernel) (thread : option Z) : option (Z * kernel) :=
  match thread with
  | None => Some (MINI_ERR_INVAL, k)
  | Some t =>
      th ← threads k !! t;
      if negb (bool_decide (th_state th = THREAD_SUSPENDED)) then Some (MINI_ERR_INVAL, k) else
      k ← (if th_resume_time th >? 0 then
             '(_, k) ← mini_os_wheel_insert k (Some t) (u32 (th_resume_time th));
             th ← threads k !! t;
             Some (set_thread k t (th_set_resume_time th 0))
           else '(_, k) ← mini_os_add_thread_to_ready_running_list k (Some t); Some k);
      Some (MINI_OK, k)
  end.

(** ** Exit *)

(** [mini_os_list_tail] on the node of [t], which is that of the ready lists and the wheel. *)
Definition mini_os_defunct_list_insert (k : kernel) (defunct : list Z) (t : Z) : option (list Z) :=
  if bool_decide (t ∈ defunct) || negb (bool_decide (home k t = None)) then None else Some (defunct ++ [t]).
(** Without a current thread it spins for ever. *)
Definition mini_os_thread_exit (w : world) (defunct : list Z) : option (world * list Z) :=
  t ← current_thread (w_kern w);
  '(_, w) ← mini_os_mutex_kill_held w (Some t);
  '(_, k) ← mini_os_remove_thread_from_ready_running_list (w_kern w) (Some t);
  th ← threads k !! t;
  let k := set_thread k t (th_set_state th THREAD_TERMINATED) in
  defunct ← mini_os_defunct_list_insert k defunct t;
  Some (w_set_kern w (mini_os_schedule_yield k).2, defunct).
(** The entry, then the cleanup, if there is one, with the argument of the entry. *)
Definition mini_os_thread_entry_wrapper (entry : world -> option world) (thread_cleanup : option (world -> option world))
    (w : world) (defunct : list Z) : option (world * list Z) :=
  w ← entry w;
  w ← match thread_cleanup with Some f => f w | None => Some w end;
  mini_os_thread_exit w defunct.

Fixpoint defunct_loop (k : kernel) (nodes : list Z) : option kernel :=
  match nodes with
  | [] => Some k
  | t :: nodes => _ ← threads k !! t; defunct_loop (drop_thread k t) nodes
  end.
Definition mini_os_thread_defunct_execute (w : world) (defunct : list Z) : option (world * list Z) :=
  k ← defunct_loop (w_kern w) defunct; Some (w_set_kern w k, []).

(** ** Deletion *)

Definition mini_os_thread_unlink_blocked (w : world) (t : Z) : option world :=
  w ← leave_wait w t false;
  th ← threads (w_kern w) !! t;
  if th_wheel_slot th <? MINI_OS_TICK_WHEEL then '(_, k) ← mini_os_wheel_remove (w_kern w) (Some t); Some (w_set_kern w k)
  else Some w.

(** [mini_os_obj_release] of the header at [ref]. *)
Definition release_ref (w : world) (ref : Z) : option world :=
  match mutexes w !! (ref - 1) with
  | Some _ => mutex_release w (ref - 1)
  | None => y ← sem_release (w_sync w) ref; Some (w_set_sync w y)
  end.
Fixpoint drop_loop (w : world) (t : Z) (refs : list Z) : option world :=
  match refs with
  | [] => Some w
  | ref :: refs =>
      th ← threads (w_kern w) !! t;
      w ← release_ref (w_set_kern w (set_thread (w_kern w) t (mini_os_sync_wait_ref_pop th))) ref;
      drop_loop w t refs
  end.
Definition mini_os_sync_wait_ref_drop_all (w : world) (thread : option Z) : option world :=
  match thread with
  | None => Some w
  | Some t => th ← threads (w_kern w) !! t; drop_loop w t (th_wait_refs th)
  end.

(** What both deletions do before the storage: the result tells whether waiters were woken. *)
Definition tear_down (w : world) (t : Z) : option (bool * world) :=
  th ← threads (w_kern w) !! t;
  w ← (if is_ready (th_state th) then
         '(_, k) ← mini_os_remove_thread_from_ready_running_list (w_kern w) (Some t); Some (w_set_kern w k)
       else if bool_decide (th_state th = THREAD_BLOCKED) then mini_os_thread_unlink_blocked w t
       else Some w);
  w ← mini_os_sync_wait_ref_drop_all w (Some t);
  mini_os_mutex_kill_held w (Some t).
(** The storage at [tcb] is freed or zeroed. *)
Definition delete_storage (woken : bool) (w : world) (tcb : Z) : world :=
  let k := drop_thread (w_kern w) tcb in w_set_kern w (if woken then (mini_os_schedule_yield k).2 else k).
Definition mini_os_thread_delete (w : world) (thread : option Z) : option (Z * world) :=
  match thread with
  | None => Some (MINI_ERR_INVAL, w)
  | Some t =>
      th ← threads (w_kern w) !! t;
      if bool_decide (current_thread (w_kern w) = Some t) || bool_decide (th_state th = THREAD_TERMINATED) then Some (MINI_ERR_INVAL, w) else
      '(woken, w) ← tear_down w t;
      Some (MINI_OK, delete_storage woken w t)
  end.
Definition mini_os_thread_delete_static (w : world) (thread : option Z) (stack_buffer : bool) (task_buffer : option Z)
    : option (Z * world) :=
  match thread, task_buffer with
  | Some t, Some tcb =>
      if negb stack_buffer then Some (MINI_ERR_INVAL, w) else
      th ← threads (w_kern w) !! t;
      if bool_decide (current_thread (w_kern w) = Some t) || bool_decide (th_state th = THREAD_TERMINATED) then Some (MINI_ERR_INVAL, w) else
      '(woken, w) ← tear_down w t;
      Some (MINI_OK, delete_storage woken w tcb)
  | _, _ => Some (MINI_ERR_INVAL, w)
  end.

(** ** Accessors *)

Definition mini_os_thread_get_current (k : kernel) : option Z := current_thread k.
(** The blocks of [k] are the arguments; [None] stands for a pointer that is NULL. *)
Definition mini_os_thread_get_priority (th : option thread) (priority : bool) : Z * option Z :=
  match th with
  | Some th => if priority then (MINI_OK, Some (th_priority th)) else (MINI_ERR_INVAL, None)
  | None => (MINI_ERR_INVAL, None)
  end.
Definition mini_os_thread_get_state (th : option thread) (state : bool) : Z * option thread_state :=
  match th with
  | Some th => if state then (MINI_OK, Some (th_state th)) else (MINI_ERR_INVAL, None)
  | None => (MINI_ERR_INVAL, None)
  end.
Definition th_set_init_tick_num (t : thread) (v : Z) : thread :=
  mk_thread (th_state t) (th_priority t) (th_base_priority t) (th_round t) (th_wheel_slot t) (th_resume_time t)
    (th_wait_list t) (th_wait_status t) (th_wait_mask t) (th_wait_refs t) (th_wait_mutex t) v (th_remain_tick t).
Definition mini_os_thread_set_timeslice (k : kernel) (thread : option Z) (tick : Z) : option (Z * kernel) :=
  match thread with
  | None => Some (MINI_ERR_INVAL, k)
  | Some t =>
      if tick <? 0 then Some (MINI_ERR_INVAL, k) else
      th ← threads k !! t;
      Some (MINI_OK, set_thread k t (th_set_remain_tick (th_set_init_tick_num th tick) tick))
  end.
Definition mini_os_thread_get_timeslice (th : option thread) (tick : bool) : Z * option Z :=
  match th with
  | Some th => if tick then (MINI_OK, Some (th_init_tick_num th)) else (MINI_ERR_INVAL, None)
  | None => (MINI_ERR_INVAL, None)
  end.

(** The words of a block that the kernel does not look at. *)
Record thread_words := mk_words { tw_user_data : Z; tw_thread_cleanup : option Z }.
Definition mini_os_thread_set_user_data (th : option thread_words) (user_data : Z) : Z * option thread_words :=
  match th with Some th => (MINI_OK, Some (mk_words user_data (tw_thread_cleanup th))) | None => (MINI_ERR_INVAL, None) end.
Definition mini_os_thread_get_user_data (th : option thread_words) (user_data : bool) : Z * option Z :=
  match th with
  | Some th => if user_data then (MINI_OK, Some (tw_user_data th)) else (MINI_ERR_INVAL, None)
  | None => (MINI_ERR_INVAL, None)
  end.
(** [arg] is not kept. *)
Definition mini_os_thread_set_cleanup (th : option thread_words) (cleanup : option Z) (arg : Z) : Z * option thread_words :=
  match th with Some th => (MINI_OK, Some (mk_words (tw_user_data th) cleanup)) | None => (MINI_ERR_INVAL, None) end.

(** ** The idle thread *)

Definition MINI_OS_DEFAULT_IDLE_STACK_SIZE : Z := 256.
(** [thread] and [stack] are what [mini_os_malloc] returns; the result is [s_idle_thread]. *)
Definition mini_os_thread_idle_create (k : kernel) (thread : option Z) (stack : Z) : option (option Z * kernel) :=
  mini_os_thread_create k true true MINI_OS_DEFAULT_IDLE_STACK_SIZE (MINI_OS_PRIORITY - 1) thread stack.
Definition mini_os_thread_get_idle_handle (s_idle_thread : option Z) : option Z := s_idle_thread.
(** One pass of [mini_os_thread_idle_hook], up to the wait for an interrupt. *)
Definition idle_pass (hook : option (world -> option world)) (w : world) (defunct : list Z) : option (world * list Z) :=
  '(w, defunct) ← mini_os_thread_defunct_execute w defunct;
  w ← match hook with Some f => f w | None => Some w end;
  Some (w, defunct).

(** ** The machine *)

(** The threads and mutexes of [MiniMutex] with the queue of the terminated threads.  When a
    thread ends, its mutexes are unlocked in its name, as often as it had locked them. *)
Record life := mk_life { l_mutex : lock_machine; l_defunct : list Z }.
Definition l_world (l : life) : world := x_world (l_mutex l).
Definition l_kern (l : life) : kernel := w_kern (l_world l).

Fixpoint killed_log (ms : gmap Z mutex) (t : Z) (held : list Z) (log : list mutex_event) : list mutex_event :=
  match held with
  | [] => log
  | m :: held =>
      killed_log ms t held (replicate (Z.to_nat (match ms !! m with Some mx => mx_depth mx | None => 0 end)) (Unlocked m t) ++ log)
  end.

Inductive life_op :=
  | LMutex (op : mutex_op)
  | LEnableKill (m : Z)
  | LSuspend (t : Z)
  | LResume (t : Z)
  | LExit
  | LDelete (t : Z)
  | LIdle.

Section machine.
Context (time_slice long_time : bool).

Definition life_step (l : life) (op : life_op) : option life :=
  let x := l_mutex l in let w := x_world x in
  let with_world w := mk_life (mk_lmachine w (x_calls x) (x_log x)) (l_defunct l) in
  match op with
  | LMutex op => x ← lock_step time_slice long_time x op; Some (mk_life x (l_defunct l))
  | LEnableKill m => '(_, w) ← mini_os_mutex_enable_kill w (Some m); Some (with_world w)
  | LSuspend t => '(_, w) ← mini_os_thread_suspend w (Some t); Some (with_world w)
  | LResume t => '(_, k) ← mini_os_thread_resume (w_kern w) (Some t); Some (with_world (w_set_kern w k))
  | LExit =>
      c ← current_thread (w_kern w);
      '(w', defunct) ← mini_os_thread_exit w (l_defunct l);
      Some (mk_life (mk_lmachine w' (x_calls x) (killed_log (mutexes w) c (held_by w c) (x_log x))) defunct)
  | LDelete t =>
      '(rc, w') ← mini_os_thread_delete w (Some t);
      Some (if rc =? MINI_OK
            then mk_life (mk_lmachine w' (delete t (x_calls x)) (killed_log (mutexes w) t (held_by w t) (x_log x))) (l_defunct l)
            else l)
  | LIdle =>
      '(w, defunct) ← idle_pass None w (l_defunct l);
      Some (mk_life (mk_lmachine w (x_calls x) (x_log x)) defunct)
  end.

(** Whoever waits on a mutex of [t] is to be told of a time-out. *)
Definition ends_well (w : world) (t : Z) : Prop :=
  ∀ m mx u th, m ∈ held_by w t -> mutexes w !! m = Some mx -> threads (w_kern w) !! u = Some th -> th_wait_list th = Some m ->
    mini_os_obj_kill_reports_timeout (mx_obj mx) = true.
(** What the callers keep to, besides [lock_op_ok]: storage is aligned, handles are those of
    living blocks, a thread that ends or is deleted ends well, the idle thread runs when it
    reaps, and no interrupt locks between an exit and the switch. *)
Definition life_op_ok (l : life) (op : life_op) : Prop :=
  let x := l_mutex l in let w := l_world l in let k := l_kern l in
  match op with
  | LMutex op =>
      lock_op_ok x op /\
      match op with
      | XCreate m _ _ => Z.even m = true
      | XLockIsr _ => ∀ c th, current_thread k = Some c -> threads k !! c = Some th -> th_state th ≠ THREAD_TERMINATED
      | _ => True
      end
  | LEnableKill m => is_Some (mutexes w !! m)
  | LSuspend t | LResume t => is_Some (threads k !! t)
  | LExit => is_Some (current_thread k) /\ may_call k /\ idle_call x /\ ∀ c, current_thread k = Some c -> ends_well w c
  | LDelete t => is_Some (threads k !! t) /\ ends_well w t
  | LIdle => is_Some (current_thread k) /\ may_call k
  end.

Fixpoint life_run (l : life) (ops : list life_op) : option life :=
  match ops with [] => Some l | op :: ops => l ← life_step l op; life_run l ops end.
Fixpoint life_ops_ok (l : life) (ops : list life_op) : Prop :=
  match ops with
  | [] => True
  | op :: ops => life_op_ok l op /\ match life_step l op with Some l => life_ops_ok l ops | None => True end
  end.
End machine.

Definition boot_life : life := mk_life boot_lmachine [].
