(* ===== verification/MiniThreadFrame.v ===== *)
(** * What the rest of mini-os leaves alone of a thread

    A thread that is suspended or terminated is left alone by every operation but those of
    [MiniThread]: [evolves] and [keeps] say what a step of the kernel or of the mutexes may do
    to the blocks and to the held mutexes, and [lock_step_keeps] that every step of the machine
    of [MiniMutex] does no more. *)

From S2P Require Import Prelude Status MiniList MiniSched MiniKernel MiniSem MiniMutex MiniMutexInv MiniThread.
From stdpp Require Import gmap functions.

#[local] Open Scope Z_scope.

(** ** What other operations leave alone *)

(** Suspended or terminated: only the operations of this file change that. *)
Definition outside (th : thread) : Prop := th_state th = THREAD_SUSPENDED \/ th_state th = THREAD_TERMINATED.
#[export] Instance outside_dec th : Decision (outside th).
Proof. unfold outside. apply _. Defined.

(** A thread that waits has not been told that it succeeded. *)
Definition undecided (th : thread) : Prop := th_wait_list th ≠ None -> th_wait_status th = false.
(** [V]: the references that waiting calls may hold. *)
Record moves (V : Z -> Prop) (th th' : thread) : Prop := {
  mv_state : outside th \/ outside th' -> th_state th' = th_state th;
  mv_resume : th_resume_time th' = th_resume_time th;
  mv_refs : Forall V (th_wait_refs th) -> Forall V (th_wait_refs th');
  mv_wait : undecided th -> undecided th'
}.
Definition enters (V : Z -> Prop) (th : thread) : Prop :=
  ¬ outside th /\ th_resume_time th = 0 /\ Forall V (th_wait_refs th) /\ undecided th.
Record evolves (V : Z -> Prop) (k k' : kernel) : Prop := {
  ev_alive : ∀ t, is_Some (threads k !! t) -> is_Some (threads k' !! t);
  ev_moves : ∀ t th', threads k' !! t = Some th' -> match threads k !! t with Some th => moves V th th' | None => enters V th' end
}.

Lemma outside_state th th' : th_state th' = th_state th -> outside th' <-> outside th.
Proof. unfold outside. by intros ->. Qed.
#[export] Instance moves_preorder V : PreOrder (moves V).
Proof.
  split; [by intros th; split|]. intros a b c [A1 A2 A3 A4] [B1 B2 B3 B4]. split; [|congruence|auto..]. intros [H|H].
  - pose proof (A1 (or_introl H)) as E. rewrite <- E. apply B1. left. by apply (outside_state a b E).
  - pose proof (B1 (or_intror H)) as E. rewrite E. apply A1. right. by apply (outside_state b c E).
Qed.
#[export] Instance evolves_preorder V : PreOrder (evolves V).
Proof.
  split.
  - intros k. split; [done|]. intros t th' ->. done.
  - intros k1 k2 k3 [A1 A2] [B1 B2]. split; [auto|]. intros t th3 E3. specialize (B2 t th3 E3).
    destruct (threads k2 !! t) as [th2|] eqn:E2.
    + specialize (A2 t th2 E2). destruct (threads k1 !! t); [by etrans|]. destruct A2 as (H1 & H2 & H3 & H4), B2 as [B1' B2' B3' B4'].
      split; [|split; [congruence|by split; auto]]. intros Ho. apply H1. apply (outside_state th2 th3); auto.
    + destruct (threads k1 !! t) eqn:E1; [|done]. destruct (A1 t) as [? ?]; [eauto|congruence].
Qed.
Lemma moves_same V th th' :
  th_state th' = th_state th \/ ¬ outside th /\ ¬ outside th' -> th_resume_time th' = th_resume_time th ->
  th_wait_refs th' = th_wait_refs th -> (undecided th -> undecided th') -> moves V th th'.
Proof. intros H1 H2 H3 H4. split; [intros Ho; destruct H1 as [|[??]]; tauto|done|by rewrite H3|done]. Qed.
Lemma evolves_set V k t th th' : threads k !! t = Some th -> moves V th th' -> evolves V k (set_thread k t th').
Proof.
  intros Ht Hm. split; simpl.
  - intros u [thu Hu]. destruct (decide (u = t)) as [->|]; [rewrite lookup_insert_eq|rewrite lookup_insert_ne by done]; eauto.
  - intros u thu. destruct (decide (u = t)) as [->|]; [rewrite lookup_insert_eq, Ht; by intros [= <-]|].
    rewrite lookup_insert_ne by done. intros ->. done.
Qed.
Lemma evolves_threads V k k1 k' : threads k1 = threads k' -> evolves V k k' -> evolves V k k1.
Proof. intros E [H1 H2]. split; rewrite E; done. Qed.
Lemma evolves_frame V k k' t th th' : frame k k' t th' -> threads k !! t = Some th -> moves V th th' -> evolves V k k'.
Proof. intros Hf Ht Hm. apply (evolves_threads V k k' (set_thread k t th')); [apply (fr_threads _ _ _ _ Hf)|by eapply evolves_set]. Qed.
Lemma evolves_map V k k' (f : Z -> thread -> thread) :
  (∀ t, threads k' !! t = f t <$> threads k !! t) -> (∀ t th, threads k !! t = Some th -> moves V th (f t th)) -> evolves V k k'.
Proof.
  intros Hf Hm. split.
  - intros t [th Ht]. rewrite Hf, Ht. eauto.
  - intros t th'. rewrite Hf. destruct (threads k !! t) as [th|] eqn:E; [|done]. intros [= <-]. by apply Hm.
Qed.

(** A thread that waits, is in the wheel or ready is not outside. *)
Lemma not_outside k t th : wf k -> threads k !! t = Some th -> (th_wait_list th ≠ None \/ th_wheel_slot th < MINI_OS_TICK_WHEEL \/ is_ready (th_state th) = true) -> ¬ outside th.
Proof.
  intros Hw Ht H Ho. pose proof (wf_threads _ Hw _ _ Ht) as [].
  assert (th_state th = THREAD_BLOCKED \/ is_ready (th_state th) = true) as Hs by (destruct H as [H|[H|H]]; auto).
  destruct Ho as [E|E]; rewrite E in Hs; destruct Hs; done.
Qed.
Lemma woken_moves V th b : ¬ outside th -> moves V th (woken th b).
Proof.
  intros Ho. apply moves_same.
  - right. split; [done|]. unfold woken, outside. simpl. naive_solver.
  - unfold woken. simpl. by destruct (_ <? _).
  - unfold woken. simpl. by destruct (_ <? _).
  - unfold undecided, woken. done.
Qed.
Lemma ticked_moves V k t th : wf k -> threads k !! t = Some th -> moves V th (ticked ((s_current_slot k + 1) mod 32) th).
Proof.
  intros Hw Ht. unfold ticked. destruct (Z.eqb_spec (th_wheel_slot th) ((s_current_slot k + 1) mod 32)) as [E|]; [|done]. cbn [negb].
  destruct (_ >? 0); [by apply moves_same; [left|..]|].
  assert (¬ outside th) as Ho.
  { apply (not_outside k t); [done..|]. right; left. rewrite E. apply Z.mod_pos_bound. unfold MINI_OS_TICK_WHEEL. lia. }
  destruct (th_wait_list th).
  - etrans; [|apply woken_moves]; [by apply moves_same; [left|..]|done].
  - apply moves_same; [right|done..]. split; [done|]. unfold outside; simpl; intuition congruence.
Qed.

Lemma core_moves V th1 th2 th : core th1 = core th2 -> moves V th th2 -> moves V th th1.
Proof.
  intros E. assert (th_state th1 = th_state th2 /\ th_resume_time th1 = th_resume_time th2 /\ th_wait_refs th1 = th_wait_refs th2 /\
    (undecided th2 -> undecided th1)) as (E1 & E2 & E3 & E4)
    by (destruct th1, th2; injection E; intros; subst; done).
  intros [H1 H2 H3 H4]. split; [|congruence|by rewrite E3|auto]. rewrite E1. intros Ho. apply H1. destruct Ho; [auto|right]. by apply (outside_state th2 th1).
Qed.

(** Putting a thread into its ready list. *)
Lemma add_threads k t rc k' th :
  mini_os_add_thread_to_ready_running_list k (Some t) = Some (rc, k') -> threads k !! t = Some th ->
  threads k' = threads k \/ is_ready (th_state th) = false /\ threads k' = <[t := th_set_state th THREAD_READY]> (threads k).
Proof.
  unfold mini_os_add_thread_to_ready_running_list. intros E Ht. rewrite Ht in E. cbn [mbind option_bind] in E.
  destruct (is_ready (th_state th)); cbn [orb] in E; [left; congruence|]. destruct (_ >=? _); [left; congruence|].
  unfold link_tail in E. destruct (home _ t); [done|]. injection E as <- <-. right. done.
Qed.
Lemma create_evolves V k t p ss st k' :
  threads k !! t = None -> snd <$> mini_os_thread_create k true true ss p (Some t) st = Some k' -> evolves V k k'.
Proof.
  intros Hf E. unfold mini_os_thread_create in E. cbn [negb orb] in E. destruct (_ || _ || _); [injection E as <-; done|].
  destruct (st =? 0); [injection E as <-; done|]. unfold mini_os_thread_init in E. destruct (_ || _); [injection E as <-; done|].
  cbn [Z.eqb negb] in E. destruct (mini_os_add_thread_to_ready_running_list _ _) as [[rc k1]|] eqn:Ea; [|done].
  injection E as <-.
  assert (∃ s, s ≠ THREAD_SUSPENDED /\ s ≠ THREAD_TERMINATED /\ threads k1 = <[t := th_set_state (new_thread p) s]> (threads k)) as (s & Hs1 & Hs2 & Ek).
  { destruct (add_threads _ _ _ _ (new_thread p) Ea (lookup_insert_eq _ _ _)) as [->|[_ ->]]; [exists THREAD_INIT|exists THREAD_READY];
      (split; [done|]); (split; [done|]); simpl; [done|apply insert_insert_eq]. }
  split.
  - intros u Hu. rewrite Ek. destruct (decide (u = t)) as [->|]; [rewrite lookup_insert_eq|rewrite lookup_insert_ne by done]; eauto.
  - intros u th. rewrite Ek. destruct (decide (u = t)) as [->|]; [|rewrite lookup_insert_ne by done; by intros ->].
    rewrite lookup_insert_eq, Hf. intros [= <-]. split; [unfold outside; simpl; intuition congruence|]. split; [done|]. split; [by constructor|by intros []].
Qed.

(** The operations of the kernel alone. *)
Lemma plain_evolves V ts lt k op k' :
  wf k -> (op = KSwitch -> switch_safe k) -> plain_op op -> op_ok k op -> kernel_step ts lt k op = Some k' -> evolves V k k'.
Proof.
  intros Hw Hsafe Hpl Hok E.
  destruct op as [t p ss st|w|w| | | |n|w m tm o| |w s|w s|t p]; try done; cbn [kernel_step op_ok] in *.
  - destruct Hok as [Hf Hp].
    by eapply create_evolves.
  - destruct (systick_spec ts lt k Hw) as (k1 & E1 & _ & _ & _ & _ & _ & _ & Ht). assert (k1 = k') as -> by congruence. split.
    + intros t [th Et]. specialize (Ht t). rewrite Et in Ht. destruct (threads k' !! t); [eauto|done].
    + intros t th' Et. specialize (Ht t). rewrite Et in Ht. destruct (threads k !! t) as [th|] eqn:E0; [|done].
      apply (inj Some) in Ht. eapply core_moves; [exact Ht|]. by eapply ticked_moves.
  - destruct (switch_gen (k_set_pendsv k false)) as (rc & k1 & Es & _ & _ & _ & _ & _ & _ & _ & Hr);
      [by apply wf_pendsv|by apply Hsafe|].
    unfold pendsv_handler in E. rewrite Es in E. injection E as <-.
    assert (∀ th, moves V th (demoted th)) as Hd.
    { intros th. unfold demoted. destruct (bool_decide_reflect (th_state th = THREAD_RUNNING)); [|done]. apply moves_same; [right|done..].
      unfold outside; simpl; intuition congruence. }
    destruct (_ =? _).
    + apply (evolves_map V k k1 (λ _, demoted)); [apply Hr|auto].
    + destruct Hr as (_ & _ & n & _ & Hn & _ & Ht). apply (evolves_map V k k1 (switched n)); [apply Ht|].
      intros t th Et. unfold switched. destruct (Z.eqb_spec t n) as [->|]; [|auto]. apply moves_same; [right|done..].
      apply (in_ready k) in Hn as (th0 & Ht0 & Hr & _); [|done]. assert (th0 = th) as -> by congruence.
      split; [apply (not_outside k n); auto|unfold outside; simpl; intuition congruence].
  - injection E as <-. by apply (evolves_threads V k _ k).
  - destruct Hok as [Hm Hn]. unfold mini_os_thread_delay_tick in E.
    destruct (Z.eqb_spec n 0); [injection E as <-; done|].
    destruct (delay_ok k n Hw Hm) as (k1 & Ed & _ & _ & Hfr); [unfold is_u32 in Hn; lia|].
    rewrite Ed in E. injection E as <-. destruct (current_thread k) as [c|] eqn:Ec; [|by subst].
    destruct Hfr as (th & Ht & Hfr). eapply evolves_frame; [exact Hfr|exact Ht|].
    pose proof (caller_runs _ _ _ Hm Ec Ht) as Hst. apply moves_same; [right|done..]. unfold outside; simpl; intuition congruence.
  - destruct Hok as (Hs & Hp & Hc). destruct (priority_ok k t p) as (rc & k1 & Ep & _ & _ & Hfr); [done..|].
    rewrite Ep in E. injection E as <-. destruct Hfr as [[-> _]|(th & Ht & Hfr & _)]; [done|].
    eapply evolves_frame; [exact Hfr|exact Ht|]. by apply moves_same; [left|..].
Qed.

Lemma remove_threads k t rc k' :
  mini_os_remove_thread_from_ready_running_list k (Some t) = Some (rc, k') -> threads k' = threads k.
Proof.
  unfold mini_os_remove_thread_from_ready_running_list. destruct (threads k !! t) as [th|]; [|done]. cbn [mbind option_bind].
  destruct (_ || _); [congruence|]. intros [= _ <-]. by case_match.
Qed.
Lemma apply_evolves V k t p rc k' : mini_os_thread_priority_apply k (Some t) p = Some (rc, k') -> evolves V k k'.
Proof.
  unfold mini_os_thread_priority_apply. destruct (Z.geb_spec p MINI_OS_PRIORITY); [by intros [= _ <-]|].
  destruct (threads k !! t) as [th|] eqn:Ht; [|done].
  cbn [mbind option_bind]. destruct (_ =? _); [by intros [= _ <-]|]. destruct (is_ready (th_state th)) eqn:Hr.
  2:{ intros [= _ <-]. eapply evolves_set; [exact Ht|]. by apply moves_same; [left|..]. }
  destruct (mini_os_remove_thread_from_ready_running_list k (Some t)) as [[r1 k1]|] eqn:E1; [|done]. cbn [mbind option_bind].
  apply remove_threads in E1. set (th1 := th_set_state (th_set_priority th p) THREAD_SUSPENDED).
  destruct (mini_os_add_thread_to_ready_running_list _ _) as [[r2 k2]|] eqn:E2; [|done]. cbn [mbind option_bind].
  assert (threads k2 = <[t := th_set_state th1 THREAD_READY]> (threads k)) as Ek.
  { unfold mini_os_add_thread_to_ready_running_list in E2.
    change (threads (set_thread k1 t th1)) with (<[t := th1]> (threads k1)) in E2. rewrite lookup_insert_eq in E2. cbn [mbind option_bind] in E2.
    cbn [th_state th_priority th1 th_set_state th_set_priority is_ready orb] in E2.
    destruct (Z.geb_spec p MINI_OS_PRIORITY); [lia|]. destruct (link_tail _ _ _) as [k3|] eqn:E3; [|done]. injection E2 as _ <-.
    unfold link_tail in E3. destruct (home _ t); [done|]. injection E3 as <-. simpl. by rewrite !insert_insert_eq, E1. }
  rewrite Ek, lookup_insert_eq. cbn [mbind option_bind]. intros [= _ <-].
  assert (¬ outside th) as Ho by (intros [E|E]; by rewrite E in Hr).
  apply (evolves_threads V k _ (set_thread k t (if bool_decide (th_state th = THREAD_RUNNING) then th_set_state th1 THREAD_RUNNING
    else th_set_state th1 THREAD_READY))).
  - destruct (bool_decide _); simpl; rewrite Ek; [apply insert_insert_eq|done].
  - eapply evolves_set; [exact Ht|]. apply moves_same; [right; split; [done|]|by destruct (bool_decide _)..].
    unfold outside. destruct (bool_decide _); simpl; intuition congruence.
Qed.

(** The same of a world; [c] is the thread that may come to hold a mutex. *)
Record keeps (V : Z -> Prop) (c : option Z) (w w' : world) : Prop := {
  kp_kern : evolves V (w_kern w) (w_kern w');
  kp_dom : dom (mutexes w') = dom (mutexes w);
  kp_held : ∀ t m, m ∈ held_by w' t -> m ∈ held_by w t \/ c = Some t;
  kp_nodup : (∀ t, NoDup (held_by w t)) -> ∀ t, NoDup (held_by w' t)
}.
#[export] Instance keeps_preorder V c : PreOrder (keeps V c).
Proof.
  split; [intros w; split; auto; done|]. intros w1 w2 w3 [A1 A2 A3 A4] [B1 B2 B3 B4]. split; [by etrans|congruence| |auto].
  intros t m H. destruct (B3 t m H); auto.
Qed.
Lemma keeps_weaken V c w w' : keeps V None w w' -> keeps V c w w'.
Proof. intros [A1 A2 A3 A4]. split; auto. intros t m H. destruct (A3 t m H); [auto|done]. Qed.
Lemma keeps_kern V c w k' : evolves V (w_kern w) k' -> keeps V c w (w_set_kern w k').
Proof. intros He. split; auto. Qed.
Lemma keeps_thread V c w t th th' : threads (w_kern w) !! t = Some th -> moves V th th' -> keeps V c w (w_set_kern w (set_thread (w_kern w) t th')).
Proof. intros Ht Hm. apply keeps_kern. by eapply evolves_set. Qed.
Lemma keeps_sem V c w m sm : keeps V c w (w_set_sem w m sm).
Proof. split; auto; done. Qed.
Lemma keeps_mutex V c w m mx : is_Some (mutexes w !! m) -> keeps V c w (w_set_mutex w m mx).
Proof. intros Hm. split; auto; [done|]. simpl. rewrite dom_insert_L. apply elem_of_dom in Hm. set_solver. Qed.
Lemma keeps_unlink V c w m : keeps V c w (hold_unlink w m).
Proof.
  assert (∀ t, held_by (hold_unlink w m) t = filter (λ x, x ≠ m) (held_by w t)) as E.
  { intros t. unfold held_by, hold_unlink. simpl. rewrite lookup_fmap. by destruct (hold_lists w !! t). }
  split; auto; [done| |].
  - intros t m'. rewrite E, list_elem_of_filter. tauto.
  - intros H t. rewrite E. by apply list.NoDup_filter.
Qed.
Lemma keeps_own V w m c w' : mutex_own w m c = Some w' -> keeps V (Some c) w w'.
Proof.
  unfold mutex_own. destruct (mutexes w !! m) as [mx|] eqn:Hm; [|done]. cbn [mbind option_bind]. unfold hold_link.
  destruct (bool_decide_reflect (map_Exists (λ _ l, m ∈ l) (hold_lists (w_set_mutex w m (mx_set_depth (mx_set_owner mx (Some c)) 1))))) as [|Hn]; [done|].
  intros [= <-]. split; auto; [done|simpl; rewrite dom_insert_L; apply elem_of_dom_2 in Hm; set_solver| |].
  - intros t m'. unfold held_by at 1. simpl. destruct (decide (t = c)) as [->|]; [auto|]. rewrite lookup_insert_ne by done. by left.
  - intros H t. unfold held_by at 1. simpl. destruct (decide (t = c)) as [->|]; [|rewrite lookup_insert_ne by done; apply H].
    rewrite lookup_insert_eq. simpl. apply list.NoDup_app. split; [apply H|]. split; [|apply NoDup_singleton].
    intros x Hx. rewrite list_elem_of_singleton. intros ->. apply Hn. simpl. exists c. unfold held_by in Hx.
    simpl in Hx. destruct (hold_lists w !! c) as [l|]; [|by apply not_elem_of_nil in Hx]. by exists l.
Qed.
Lemma keeps_release V c w m mx w' :
  mutexes w !! m = Some mx -> mini_os_obj_is_destroyed (mx_obj mx) = false -> mutex_release w m = Some w' -> keeps V c w w'.
Proof.
  intros Hm Hd. unfold mutex_release. rewrite Hm. cbn [mbind option_bind]. destruct (release_alive _ Hd) as (o & -> & _).
  intros [= <-]. apply keeps_mutex. eauto.
Qed.
Lemma propagate_keeps V c w t extra depth w' : mini_os_mutex_propagate w t extra depth = Some w' -> keeps V c w w'.
Proof.
  unfold mini_os_mutex_propagate. generalize (Z.to_nat (MINI_OS_MUTEX_PI_CHAIN_MAX - depth)) as fuel. intros fuel.
  revert w t extra. induction fuel as [|fuel IH]; intros w t extra; [by intros [= <-]|]. destruct t as [t|]; [|by intros [= <-]].
  cbn [propagate_loop]. destruct (mini_os_mutex_required_priority w t) as [r|]; [|done]. cbn [mbind option_bind].
  destruct (threads (w_kern w) !! t) as [th|] eqn:Ht; [|done]. cbn [mbind option_bind].
  set (p := if extra <? r then extra else r).
  match goal with |- (w0 ← ?e; _) = _ -> _ => destruct e as [w1|] eqn:E1 end; [|done]. cbn [mbind option_bind].
  assert (keeps V c w w1) as H1.
  { destruct (p =? th_priority th); [by injection E1 as <-|].
    destruct (mini_os_thread_priority_apply _ _ _) as [[rc k]|] eqn:E; [|done]. injection E1 as <-.
    apply keeps_kern. by eapply apply_evolves. }
  destruct (threads (w_kern w1) !! t) as [th1|]; [|done]. cbn [mbind option_bind].
  destruct (th_wait_mutex th1) as [m|]; [|by intros [= <-]]. destruct (negb _); [by intros [= <-]|].
  destruct (mutexes w1 !! m) as [mx|]; [|done]. cbn [mbind option_bind]. intros E. etrans; [exact H1|]. by eapply IH.
Qed.

(** The steps of the calls. *)
Section steps.
Context (time_slice long_time : bool) (V : Z -> Prop).

Lemma running_moves th th' :
  th_state th = THREAD_RUNNING -> th_state th' ≠ THREAD_SUSPENDED -> th_state th' ≠ THREAD_TERMINATED ->
  th_resume_time th' = th_resume_time th -> (Forall V (th_wait_refs th) -> Forall V (th_wait_refs th')) ->
  (undecided th -> undecided th') -> moves V th th'.
Proof. intros H1 H2 H3 H4 H5 H6. split; [|done..]. unfold outside. rewrite H1. intuition congruence. Qed.

Lemma push_refs th r : V r -> Forall V (th_wait_refs th) -> Forall V (th_wait_refs (mini_os_sync_wait_ref_push th r)).
Proof. intros Hr H. unfold mini_os_sync_wait_ref_push. destruct (_ >=? _); [done|]. by constructor. Qed.
Lemma pop_refs th : Forall V (th_wait_refs th) -> Forall V (th_wait_refs (mini_os_sync_wait_ref_pop th)).
Proof. unfold mini_os_sync_wait_ref_pop. simpl. intros H. destruct (th_wait_refs th); [done|]. by apply Forall_inv_tail in H. Qed.
Lemma push_moves th r : V r -> moves V th (mini_os_sync_wait_ref_push th r).
Proof. intros Hr. split; [| |by apply push_refs|]; unfold mini_os_sync_wait_ref_push; by destruct (_ >=? _). Qed.
Lemma pop_moves th : moves V th (mini_os_sync_wait_ref_pop th).
Proof. split; [done|done|apply pop_refs|done]. Qed.

Lemma own_mutex w m c w' : mutex_own w m c = Some w' ->
  ∃ mx, mutexes w !! m = Some mx /\ mutexes w' !! m = Some (mx_set_depth (mx_set_owner mx (Some c)) 1).
Proof.
  unfold mutex_own. destruct (mutexes w !! m) as [mx|]; [|done]. cbn [mbind option_bind]. unfold hold_link.
  destruct (bool_decide _); [done|]. intros [= <-]. exists mx. split; [done|]. simpl. by rewrite lookup_insert_eq.
Qed.

Lemma enter_keeps w calls log m timeout c r :
  xinv w calls log None -> current_thread (w_kern w) = Some c -> V (mutex_header m) ->
  mutex_lock_enter w (Some m) timeout = Some r -> keeps V (Some c) w match r with inl (_, w') => w' | inr w' => w' end.
Proof.
  intros Hi Hc HV. unfold mutex_lock_enter. destruct (mutexes w !! m) as [mx|] eqn:Hm; [|done]. cbn [mbind option_bind].
  destruct (xi_mutex _ _ _ _ Hi _ _ Hm) as (sm & Hs & [_ [Hd _] _ _ _]). destruct (acquire_alive _ Hd) as (o & -> & Hdo).
  cbn [negb Z.eqb]. rewrite Z.eqb_refl. cbn [negb]. set (w1 := w_set_mutex w m (mx_set_obj mx o)).
  assert (keeps V (Some c) w w1) as K1 by (apply keeps_mutex; eauto).
  assert (mutexes w1 !! m = Some (mx_set_obj mx o)) as Hm1 by apply lookup_insert_eq.
  change (w_kern w1) with (w_kern w). rewrite Hc. change (sems (w_sync w1) !! m) with (sems (w_sync w) !! m). rewrite Hs. cbn [mbind option_bind].
  assert (∀ w2 mx2 rc, keeps V (Some c) w w2 -> mutexes w2 !! m = Some mx2 -> mx_obj mx2 = o ->
    (w ← mutex_release w2 m; Some (inl (rc, w))) = Some r -> keeps V (Some c) w match r with inl (_, w') => w' | inr w' => w' end) as Hret.
  { intros w2 mx2 rc K2 Hm2 <- E. destruct (mutex_release w2 m) as [w3|] eqn:Er; [|done]. injection E as <-.
    etrans; [exact K2|]. by eapply keeps_release. }
  destruct (_ >? 0).
  { destruct (mutex_own _ m c) as [w2|] eqn:Eo; [|done]. cbn [mbind option_bind]. pose proof (own_mutex _ _ _ _ Eo) as (mx1 & E1 & E2).
    assert (mx1 = mx_set_obj mx o) as -> by (simpl in E1; rewrite lookup_insert_eq in E1; congruence).
    eapply Hret; [|exact E2|done]. etrans; [exact K1|]. etrans; [apply keeps_sem|by eapply keeps_own]. }
  destruct (bool_decide _).
  { destruct (negb _); [by eapply Hret|]. destruct (_ =? _); [by eapply Hret|].
    eapply Hret; [|simpl; apply lookup_insert_eq|done]. etrans; [exact K1|]. apply keeps_mutex. eauto. }
  destruct (timeout =? 0); [by eapply Hret|].
  match goal with |- (w0 ← ?e; _) = _ -> _ => destruct e as [w2|] eqn:E2 end; [|done]. cbn [mbind option_bind].
  assert (keeps V (Some c) w1 w2) as K2.
  { destruct (mx_owner (mx_set_obj mx o)) as [ow|]; [|by injection E2 as <-]. destruct (threads (w_kern w) !! c) as [th|] eqn:Ht; [|done].
    cbn [mbind option_bind] in E2. etrans; [|by eapply propagate_keeps]. apply (keeps_thread V (Some c) w1 c th); [done|]. by apply moves_same; [left|..]. }
  destruct (threads (w_kern w2) !! c) as [th|] eqn:Ht; [|done]. intros [= <-].
  etrans; [exact K1|]. etrans; [exact K2|]. eapply keeps_thread; [exact Ht|]. by apply push_moves.
Qed.

Lemma unlock_keeps w m r :
  mutex_unlock_enter w (Some m) = Some r -> keeps V None w match r with inl (_, w') => w' | inr w' => w' end.
Proof.
  unfold mutex_unlock_enter. destruct (mutexes w !! m) as [mx|] eqn:Hm; [|done]. cbn [mbind option_bind].
  destruct (current_thread (w_kern w)) as [c|]; [|by intros [= <-]]. destruct (negb _); [by intros [= <-]|].
  destruct (_ >? 0); [intros [= <-]; apply keeps_mutex; eauto|].
  match goal with |- context [mini_os_mutex_propagate ?W _ _ _] => set (w1 := W) end.
  destruct (mini_os_mutex_propagate w1 _ _ _) as [w2|] eqn:E; [|done]. intros [= <-]. etrans; [|by eapply propagate_keeps].
  subst w1. etrans; [apply (keeps_mutex _ _ _ m); eauto|]. etrans; [apply keeps_unlink|]. apply keeps_mutex. simpl. rewrite lookup_insert_eq. eauto.
Qed.

Lemma give_keeps w calls log e m yields rc w' :
  xinv w calls log e -> mutex_give w m yields = Some (rc, w') -> keeps V None w w'.
Proof.
  intros Hi. unfold mutex_give, give_common, mini_os_semaphore_wake_one, wake_oldest. change (kern (w_sync w)) with (w_kern w).
  destruct (wait_lists (w_kern w) !! m) as [l|] eqn:Hl; [|done]. cbn [mbind option_bind]. destruct l as [|t l].
  - cbn [mbind option_bind]. destruct (sems (w_sync w) !! m) as [sm|]; [|done]. cbn [mbind option_bind].
    destruct (_ >=? _); intros [= _ <-]; by split; auto.
  - destruct (wake_ok (w_kern w) m (t :: l) t true (xi_wf _ _ _ _ Hi) Hl) as (k' & th & -> & _ & Ht & Hwl & Hf & _); [apply elem_of_cons; auto|].
    cbn [mbind option_bind]. intros [= _ <-].
    assert (evolves V (w_kern w) k') as He.
    { eapply evolves_frame; [exact Hf|exact Ht|]. apply woken_moves. apply (not_outside (w_kern w) t); [apply (xi_wf _ _ _ _ Hi)|done|]. left. by rewrite Hwl. }
    apply (keeps_kern V None w (if yields then (mini_os_schedule_yield k').2 else k')). destruct yields; [|done]. by apply (evolves_threads V (w_kern w) _ k').
Qed.

Lemma take_keeps w calls log m timeout r :
  xinv w calls log None -> is_Some (mutexes w !! m) -> may_call (w_kern w) -> V m -> -2147483648 <= timeout < 2147483648 ->
  mini_os_semaphore_take (w_sync w) (Some m) timeout = Some r ->
  keeps V None w (w_set_sync w match r with inl (_, y) => y | inr y => y end).
Proof.
  intros Hi [mx Hm] Hmay HV Htm. destruct (xi_mutex _ _ _ _ Hi _ _ Hm) as (sm & Hs & [O1 [_ Hds] _ _ _]).
  destruct (take_alive (w_sync w) m sm timeout Hs Hds) as (o & o1 & _ & Ho1 & ->). cbv zeta.
  destruct (_ >? 0); [intros [= <-]; apply (keeps_sem V None w m)|]. destruct (timeout =? 0) eqn:Et0; [intros [= <-]; apply (keeps_sem V None w m)|].
  destruct (bool_decide_reflect (current_thread (kern (w_sync w)) = None)) as [|Hc]; [intros [= <-]; apply (keeps_sem V None w m)|].
  change (kern (w_sync w)) with (w_kern w) in *.
  destruct (park_ok (w_kern w) m 0 timeout m (xi_wf _ _ _ _ Hi) Hmay O1 Htm)
    as [[_ [?|?]]|(c & th & k' & Hc' & _ & Hth & -> & _ & _ & Hf & _)]; [lia|done|].
  cbn [mbind option_bind]. intros [= <-].
  etrans; [|exact (keeps_sem V None (w_set_kern w k') m (sem_set_obj sm o1))]. apply (keeps_kern V None w k'). eapply evolves_frame; [exact Hf|exact Hth|].
  pose proof (caller_runs _ _ _ Hmay Hc' Hth) as Hst.
  destruct (waiting_on_fields th m 0 m) as (E1 & _ & _ & E4 & _).
  assert (th_resume_time (waiting_on th m 0 m) = th_resume_time th) as E2 by (unfold waiting_on, mini_os_sync_wait_ref_push; by destruct (_ >=? _)).
  assert (Forall V (th_wait_refs th) -> Forall V (th_wait_refs (waiting_on th m 0 m))) as E3 by (intros H; apply push_refs; done).
  destruct (timeout =? MINI_OS_WAIT_FOREVER); (apply running_moves; [done|by rewrite ?E1|by rewrite ?E1|exact E2|exact E3|by intros _ _; simpl; rewrite ?E4]).
Qed.

Lemma resume_keeps w calls log m c rc y :
  xinv w calls log None -> is_Some (mutexes w !! m) -> (∀ th, threads (w_kern w) !! c = Some th -> th_wait_list th = None) ->
  sem_take_resume (w_sync w) m c = Some (rc, y) -> keeps V None w (w_set_sync w y).
Proof.
  intros Hi [mx Hm] Hwl. destruct (xi_mutex _ _ _ _ Hi _ _ Hm) as (sm & Hs & [_ [_ Hds] _ _ _]).
  unfold sem_take_resume, sync_wait_resume. change (kern (w_sync w)) with (w_kern w).
  destruct (threads (w_kern w) !! c) as [th|] eqn:Ht; [|done]. cbn [mbind option_bind].
  match goal with |- context [sem_release (set_kern _ ?K) _] => set (k' := K) end.
  destruct (sem_release_alive (set_kern (w_sync w) k') m sm Hs Hds) as (o & -> & _). intros [= _ <-].
  etrans; [|exact (keeps_sem V None (w_set_kern w k') m (sem_set_obj sm o))]. apply (keeps_thread V None w c th); [done|].
  etrans; [|apply pop_moves]. apply moves_same; [by left|done|done|]. intros _ Hn. destruct Hn. exact (Hwl th eq_refl).
Qed.

Lemma finish_keeps w calls log m c ret rc w' :
  xinv w calls log None -> is_Some (mutexes w !! m) -> mutex_lock_finish w m c ret = Some (rc, w') -> keeps V (Some c) w w'.
Proof.
  intros Hi [mx Hm]. destruct (xi_mutex _ _ _ _ Hi _ _ Hm) as (sm & _ & [_ [Hd _] _ _ _]). unfold mutex_lock_finish.
  destruct (threads (w_kern w) !! c) as [th|] eqn:Ht; [|done]. cbn [mbind option_bind].
  match goal with |- context [mutex_own ?W m c] => set (w1 := W) end.
  assert (keeps V (Some c) w w1) as K1.
  { apply (keeps_thread V _ w c th); [done|]. etrans; [apply pop_moves|]. by apply moves_same; [left|..]. }
  match goal with |- (w0 ← ?e; _) = _ -> _ => destruct e as [w2|] eqn:E2 end; [|done]. cbn [mbind option_bind].
  assert (keeps V (Some c) w1 w2 /\ ∃ mx2, mutexes w2 !! m = Some mx2 /\ mx_obj mx2 = mx_obj mx) as (K2 & mx2 & Hm2 & Eo).
  { assert (∀ w3 w4 t extra depth, mini_os_mutex_propagate w3 t extra depth = Some w4 -> mutexes w4 = mutexes w3) as Hpm.
    { intros w3 w4 t extra depth. unfold mini_os_mutex_propagate. generalize (Z.to_nat (MINI_OS_MUTEX_PI_CHAIN_MAX - depth)) as fuel.
      intros fuel. revert w3 t extra. induction fuel as [|fuel IH]; intros w3 t extra; [by intros [= <-]|]. destruct t as [t|]; [|by intros [= <-]].
      cbn [propagate_loop]. destruct (mini_os_mutex_required_priority w3 t) as [r|]; [|done]. cbn [mbind option_bind].
      destruct (threads (w_kern w3) !! t) as [th3|]; [|done]. cbn [mbind option_bind].
      match goal with |- (w0 ← ?e; _) = _ -> _ => destruct e as [w5|] eqn:E1 end; [|done]. cbn [mbind option_bind].
      assert (mutexes w5 = mutexes w3) as <-.
      { destruct (_ =? th_priority th3); [by injection E1 as <-|]. destruct (mini_os_thread_priority_apply _ _ _) as [[? ?]|]; [|done]. by injection E1 as <-. }
      destruct (threads (w_kern w5) !! t) as [th5|]; [|done]. cbn [mbind option_bind].
      destruct (th_wait_mutex th5) as [m5|]; [|by intros [= <-]]. destruct (negb _); [by intros [= <-]|].
      destruct (mutexes w5 !! m5) as [mx5|]; [|done]. cbn [mbind option_bind]. apply IH. }
    destruct (_ =? _).
    - destruct (mutex_own w1 m c) as [w3|] eqn:E3; [|done]. cbn [mbind option_bind] in E2.
      split; [etrans; [by eapply keeps_own|by eapply propagate_keeps]|]. destruct (own_mutex _ _ _ _ E3) as (mx1 & H1 & H2).
      rewrite (Hpm _ _ _ _ _ E2), H2. eexists. split; [done|]. change (mutexes w !! m = Some mx1) in H1. by simplify_eq.
    - destruct (_ && _); [|injection E2 as <-; split; [done|by exists mx]].
      change (mutexes w1) with (mutexes w) in E2. rewrite Hm in E2. cbn [mbind option_bind] in E2.
      destruct (mx_owner mx); [|injection E2 as <-; split; [done|by exists mx]].
      split; [by eapply propagate_keeps|]. rewrite (Hpm _ _ _ _ _ E2). by exists mx. }
  destruct (mutex_release w2 m) as [w3|] eqn:E3; [|done]. intros [= _ <-]. etrans; [exact K1|]. etrans; [exact K2|].
  eapply keeps_release; [exact Hm2|by rewrite Eo|done].
Qed.

(** What a step of the mutexes leaves alone: only the caller comes to hold mutexes and enters
    or leaves calls. *)
Lemma lock_step_keeps x op x' :
  let w := x_world x in
  xinv w (x_calls x) (x_log x) None -> lock_op_ok x op -> (∀ m, is_Some (mutexes w !! m) -> V m /\ V (mutex_header m)) ->
  (∀ m r s, op ≠ XCreate m r s) -> lock_step time_slice long_time x op = Some x' ->
  ∃ c, keeps V c w (x_world x') /\
    (∀ t, c = Some t -> current_thread (w_kern w) = Some t /\ (may_call (w_kern w) \/ ∃ m, op = XLockIsr m)) /\
    (∀ t, x_calls x' !! t = x_calls x !! t \/ current_thread (w_kern w) = Some t /\ may_call (w_kern w)).
Proof.
  intros w Hi Hok HV Hnc E. unfold lock_step in E. fold w in E.
  destruct op as [op|t p|m r s|m timeout|m| |m|m]; cbn [lock_op_ok] in Hok; fold w in Hok.
  - destruct (kernel_step _ _ _ _) as [k'|] eqn:Ek; [|done]. injection E as <-. exists None. split; [|split; [done|auto]].
    assert (plain_op op /\ op_ok (w_kern w) op /\ (op = KSwitch -> switch_safe (w_kern w))) as (Hp & Ho & Hs)
      by (destruct op; simpl in Hok; try done; try (by split); naive_solver eauto using keeps_level_safe).
    apply keeps_kern. eapply plain_evolves; [apply (xi_wf _ _ _ _ Hi)|done..|exact Ek].
  - unfold mini_os_thread_set_priority in E. destruct (_ >=? _); [injection E as <-; exists None; split; [done|]; split; [done|auto]|].
    destruct Hok as [[th Ht] Hp]. rewrite Ht in E. cbn [mbind option_bind mini_os_mutex_priority_recompute] in E.
    destruct (mini_os_mutex_propagate _ _ _ _) as [w2|] eqn:E2; [|done]. injection E as <-. exists None. split; [|split; [done|auto]].
    etrans; [|by eapply propagate_keeps]. apply (keeps_thread V None w t th); [done|]. by apply moves_same; [left|..].
  - by destruct (Hnc m r s).
  - destruct Hok as (Hm & _ & Hmay & _). destruct (current_thread (w_kern w)) as [c|] eqn:Hc; [|done]. cbn [mbind option_bind] in E.
    destruct (mutex_lock_enter w (Some m) timeout) as [r|] eqn:Er; [|done]. injection E as <-.
    pose proof (enter_keeps _ _ _ _ _ c _ Hi Hc (proj2 (HV m Hm)) Er) as K. exists (Some c). split; [by destruct r as [[rc w2]|w2]|].
    split; [intros t [= ->]; auto|]. intros t. destruct (decide (t = c)) as [->|]; [auto|]. left. destruct r as [[rc w2]|w2]; [done|]. simpl. by rewrite lookup_insert_ne.
  - destruct Hok as (Hm & _ & Hmay & _). destruct (current_thread (w_kern w)) as [c|] eqn:Hc; [|done]. cbn [mbind option_bind] in E.
    destruct (mutex_unlock_enter w (Some m)) as [r|] eqn:Er; [|done]. injection E as <-.
    pose proof (unlock_keeps _ _ _ Er) as K. exists None. split; [by destruct r as [[rc w2]|w2]|].
    split; [done|]. intros t. destruct (decide (t = c)) as [->|]; [auto|]. left. destruct r as [[rc w2]|w2]; [done|]. simpl. by rewrite lookup_insert_ne.
  - destruct Hok as [Hmay _]. destruct (current_thread (w_kern w)) as [c|] eqn:Hc; [|done]. cbn [mbind option_bind] in E. unfold next_step in E. fold w in E.
    destruct (x_calls x !! c) as [p|] eqn:Ep; [|done]. cbn [mbind option_bind] in E. destruct (xi_call _ _ _ _ Hi _ _ Ep) as ([Hm Htm] & _).
    assert (∀ calls' : gmap Z call, (∀ t, t ≠ c -> calls' !! t = x_calls x !! t) ->
      ∀ t, calls' !! t = x_calls x !! t \/ Some c = Some t /\ may_call (w_kern w)) as Hcalls.
    { intros calls' H t. destruct (decide (t = c)) as [->|]; auto. }
    exists (Some c). assert (∀ t, Some c = Some t -> Some c = Some t /\ (may_call (w_kern w) \/ ∃ m, XNext = XLockIsr m)) as Hc' by auto.
    destruct p as [m timeout|m|m ret|m]; simpl call_mutex in Hm.
    + destruct (mini_os_semaphore_take _ _ _) as [r|] eqn:Er; [|done]. injection E as <-.
      pose proof (take_keeps _ _ _ _ _ _ Hi Hm Hmay (proj1 (HV m Hm)) Htm Er) as K. apply (keeps_weaken V (Some c)) in K.
      destruct r as [[rc y]|y]; (split; [exact K|]); (split; [done|]); apply Hcalls; intros t Ht; simpl; by rewrite lookup_insert_ne.
    + destruct (sem_take_resume _ _ _) as [[rc y]|] eqn:Er; [|done]. injection E as <-.
      split; [apply keeps_weaken; refine (resume_keeps _ _ _ _ _ _ _ Hi Hm _ Er); intros th Ht; by eapply caller_free|]. split; [done|]. apply Hcalls. intros t Ht. simpl. by rewrite lookup_insert_ne.
    + destruct (mutex_lock_finish _ _ _ _) as [[rc w2]|] eqn:Er; [|done]. injection E as <-.
      split; [apply (finish_keeps _ _ _ _ _ _ _ _ Hi Hm Er)|]. split; [done|]. apply Hcalls. intros t Ht. simpl. by rewrite lookup_delete_ne.
    + destruct (mutex_give _ _ _) as [[rc w2]|] eqn:Er; [|done]. injection E as <-.
      split; [apply keeps_weaken, (give_keeps _ _ _ _ _ _ _ _ Hi Er)|]. split; [done|]. apply Hcalls. intros t Ht. simpl. by rewrite lookup_delete_ne.
  - unfold mini_os_mutex_lock_isr in E. destruct (current_thread (w_kern w)) as [c|] eqn:Hc; [|injection E as <-; exists None; split; [done|]; split; [done|auto]].
    destruct (sems (w_sync w) !! m) as [sm|]; [|done]. cbn [mbind option_bind] in E. destruct Hok as [mx Hm]. rewrite Hm in E. cbn [mbind option_bind] in E.
    exists (Some c). assert (∀ t, Some c = Some t -> Some c = Some t /\ (may_call (w_kern w) \/ ∃ m', XLockIsr m = XLockIsr m')) as Hc' by eauto.
    destruct (_ >? 0).
    { destruct (mutex_own _ m c) as [w2|] eqn:Eo; [|done]. injection E as <-. split; [|split; [done|auto]].
      etrans; [apply keeps_sem|by eapply keeps_own]. }
    destruct (bool_decide _); [destruct (_ || _)|]; injection E as <-; (split; [|split; [done|auto]]); try done. apply keeps_mutex. eauto.
  - unfold mini_os_mutex_unlock_isr in E. destruct (mutex_unlock_enter w (Some m)) as [r|] eqn:Er; [|done]. cbn [mbind option_bind] in E.
    pose proof (unlock_keeps _ _ _ Er) as K. exists None.
    destruct r as [[rc w2]|w2]; [injection E as <-; split; [exact K|]; split; [done|auto]|].
    destruct (mutex_give w2 m false) as [[rc w3]|] eqn:Eg; [|done]. injection E as <-. split; [|split; [done|auto]].
    etrans; [exact K|]. simpl.
    destruct (current_thread (w_kern w)) as [c|] eqn:Hc.
    2:{ unfold mutex_unlock_enter in Er. destruct Hok as [mx Hm]. rewrite Hm in Er. cbn [mbind option_bind] in Er. by rewrite Hc in Er. }
    destruct (unlock_enter_ok _ _ _ m c Hi Hok Hc) as (r & Er' & Hr). rewrite Er in Er'. injection Er' as <-. destruct Hr as (Hi2 & _).
    apply (give_keeps _ _ _ _ _ _ _ _ Hi2 Eg).
Qed.
End steps.
