(* ===== verification/MiniThreadInv.v ===== *)
(** * What holds of threads that are suspended, exit or are deleted

    Taking a thread out of its lists, the unlocking of its mutexes, the invariant [life_inv]
    that every operation of [life_op] preserves, and what a suspended thread keeps.  The
    deletion and the suspension of a blocked thread go through states with a blocked thread in
    no list; [restate] relates them to the well-formed state in which the thread is suspended. *)

From S2P Require Import Prelude Status MiniList MiniSched MiniKernel MiniSem MiniMutex MiniMutexInv MiniThread MiniThreadFrame.
From stdpp Require Import gmap functions.

#[local] Open Scope Z_scope.

(** ** A block with another state *)

(** Inside a suspension or a deletion the block of the thread is not what its lists say.  It
    is that of a world in order, with another state: what works on other threads, and the
    walk of priorities, does the same on both. *)
Definition restate (s : thread_state) (t : Z) (k : kernel) : kernel := k_set_threads k (alter (λ th, th_set_state th s) t (threads k)).
Definition w_restate (s : thread_state) (t : Z) (w : world) : world := w_set_kern w (restate s t (w_kern w)).
Definition restated {A} (s : thread_state) (t : Z) (r : A * kernel) : A * kernel := (r.1, restate s t r.2).
Definition w_restated {A} (s : thread_state) (t : Z) (r : A * world) : A * world := (r.1, w_restate s t r.2).

(** The wait lists after a wake-up. *)
Lemma wake_wait_lists k u b k' : mini_os_sync_wake_thread k u b = Some k' -> wait_lists k' = filter (λ x, x ≠ u) <$> wait_lists k.
Proof.
  assert (∀ k1 k2 rc, mini_os_add_thread_to_ready_running_list k1 (Some u) = Some (rc, k2) -> wait_lists k2 = wait_lists k1) as Hadd.
  { intros k1 k2 rc. unfold mini_os_add_thread_to_ready_running_list. destruct (threads k1 !! u); [|done]. cbn [mbind option_bind].
    destruct (_ || _); [congruence|]. unfold link_tail. destruct (home _ u); [done|]. by intros [= _ <-]. }
  unfold mini_os_sync_wake_thread. destruct (threads (wait_unlink k u) !! u) as [th|]; [|done]. cbn [mbind option_bind].
  match goal with |- ('(_, k) ← ?e; _) = _ -> _ => destruct e as [[rc k1]|] eqn:E1 end; [|done]. cbn [mbind option_bind].
  destruct (mini_os_add_thread_to_ready_running_list k1 (Some u)) as [[rc2 k2]|] eqn:E2; [|done]. intros [= <-]. rewrite (Hadd _ _ _ E2).
  destruct (_ <? _); [|by injection E1 as _ <-]. unfold mini_os_wheel_remove in E1. destruct (threads _ !! u); [|done]. cbn [mbind option_bind] in E1.
  destruct (negb _); by injection E1 as _ <-.
Qed.
Lemma kill_wait_lists nodes b : ∀ k k', kill_waiter_loop k nodes b = Some k' ->
  ∀ m l', wait_lists k' !! m = Some l' -> ∃ l, wait_lists k !! m = Some l /\ ∀ x, x ∈ l' -> x ∈ l /\ x ∉ nodes.
Proof.
  induction nodes as [|u nodes IH]; intros k k'; cbn [kill_waiter_loop].
  { intros [= <-] m l' Hl. exists l'. split; [done|]. intros x Hx. split; [done|]. apply not_elem_of_nil. }
  destruct (threads k !! u) as [th|]; [|done]. cbn [mbind option_bind].
  destruct (mini_os_sync_wake_thread _ u _) as [k1|] eqn:E; [|done]. cbn [mbind option_bind]. intros E' m l' Hl.
  destruct (IH _ _ E' m l' Hl) as (l1 & Hl1 & Hsub). rewrite (wake_wait_lists _ _ _ _ E), lookup_fmap in Hl1.
  change (wait_lists (set_thread k u (th_set_wait_mutex th None))) with (wait_lists k) in Hl1.
  destruct (wait_lists k !! m) as [l0|]; [|done]. injection Hl1 as <-. exists l0. split; [done|].
  intros x Hx. apply Hsub in Hx as [Hx ?]. apply list_elem_of_filter in Hx as [? ?]. split; [done|]. by apply not_elem_of_cons.
Qed.

Section restate.
Context (s : thread_state) (t : Z).

Lemma restate_ne k u : u ≠ t -> threads (restate s t k) !! u = threads k !! u.
Proof. intros Hne. simpl. by rewrite lookup_alter_ne. Qed.
Lemma restate_eq k : threads (restate s t k) !! t = (λ th, th_set_state th s) <$> threads k !! t.
Proof. simpl. apply lookup_alter_eq. Qed.
Lemma restate_set k u th : u ≠ t -> set_thread (restate s t k) u th = restate s t (set_thread k u th).
Proof. intros Hne. unfold set_thread, restate, k_set_threads. simpl. by rewrite alter_insert_ne. Qed.
Lemma restate_self k th : set_thread (restate s t k) t (th_set_state th s) = restate s t (set_thread k t th).
Proof.
  unfold set_thread, restate, k_set_threads. simpl. f_equal. apply map_eq. intros u. destruct (decide (u = t)) as [->|].
  - by rewrite lookup_insert_eq, lookup_alter_eq, lookup_insert_eq.
  - by rewrite lookup_insert_ne, !lookup_alter_ne, lookup_insert_ne.
Qed.
Lemma restate_drop k : drop_thread (restate s t k) t = drop_thread k t.
Proof.
  unfold drop_thread, restate, k_set_threads. simpl. f_equal. apply map_eq. intros u. destruct (decide (u = t)) as [->|].
  - by rewrite !lookup_delete_eq.
  - by rewrite !lookup_delete_ne, lookup_alter_ne.
Qed.

Lemma remove_restate k u : u ≠ t ->
  mini_os_remove_thread_from_ready_running_list (restate s t k) (Some u) =
  restated s t <$> mini_os_remove_thread_from_ready_running_list k (Some u).
Proof.
  intros Hne. unfold mini_os_remove_thread_from_ready_running_list. rewrite restate_ne by done. destruct (threads k !! u) as [th|]; [|done].
  cbn [mbind option_bind]. destruct (_ || _); [done|].
  change (linked (unlink (restate s t k) u)) with (linked (unlink k u)). by destruct (linked (unlink k u) (ReadyHead (th_priority th))).
Qed.
Lemma add_restate k u : u ≠ t ->
  mini_os_add_thread_to_ready_running_list (restate s t k) (Some u) =
  restated s t <$> mini_os_add_thread_to_ready_running_list k (Some u).
Proof.
  intros Hne. unfold mini_os_add_thread_to_ready_running_list. rewrite restate_ne by done. destruct (threads k !! u) as [th|]; [|done].
  cbn [mbind option_bind]. destruct (_ || _); [done|]. rewrite restate_set by done. unfold link_tail.
  change (home (restate s t (set_thread k u (th_set_state th THREAD_READY))) u) with (home (set_thread k u (th_set_state th THREAD_READY)) u).
  by destruct (home _ u).
Qed.
Lemma wheel_remove_restate k u : u ≠ t ->
  mini_os_wheel_remove (restate s t k) (Some u) = restated s t <$> mini_os_wheel_remove k (Some u).
Proof.
  intros Hne. unfold mini_os_wheel_remove. rewrite restate_ne by done. destruct (threads k !! u) as [th|]; [|done].
  cbn [mbind option_bind]. destruct (negb _); [done|]. cbn [fmap option_fmap option_map]. unfold restated. cbn [fst snd].
  by rewrite <- restate_set.
Qed.
Lemma wake_restate k u b : u ≠ t -> mini_os_sync_wake_thread (restate s t k) u b = restate s t <$> mini_os_sync_wake_thread k u b.
Proof.
  intros Hne. unfold mini_os_sync_wake_thread. change (wait_unlink (restate s t k) u) with (restate s t (wait_unlink k u)).
  rewrite restate_ne by done. destruct (threads (wait_unlink k u) !! u) as [th|]; [|done]. cbn [mbind option_bind].
  rewrite restate_set by done. set (k1 := set_thread _ u _).
  assert (∀ r : option (Z * kernel), ('(_, k) ← restated s t <$> r; '(_, k) ← mini_os_add_thread_to_ready_running_list k (Some u); Some k) =
    restate s t <$> ('(_, k) ← r; '(_, k) ← mini_os_add_thread_to_ready_running_list k (Some u); Some k)) as H.
  { intros [[rc k2]|]; [|done]. cbn. rewrite add_restate by done. by destruct (mini_os_add_thread_to_ready_running_list k2 (Some u)) as [[]|]. }
  destruct (_ <? _).
  - rewrite wheel_remove_restate by done. apply H.
  - apply (H (Some (MINI_OK, k1))).
Qed.
Lemma kill_waiters_restate nodes b : t ∉ nodes -> ∀ k, kill_waiter_loop (restate s t k) nodes b = restate s t <$> kill_waiter_loop k nodes b.
Proof.
  induction nodes as [|u nodes IH]; [done|]. rewrite not_elem_of_cons. intros [Hne Hn] k. cbn [kill_waiter_loop].
  rewrite restate_ne by done. destruct (threads k !! u) as [th|]; [|done]. cbn [mbind option_bind].
  rewrite restate_set, wake_restate by done. destruct (mini_os_sync_wake_thread _ u b) as [k1|]; [|done]. cbn [mbind option_bind fmap option_fmap option_map].
  by apply IH.
Qed.

Lemma kill_held_restate held : ∀ w woken, (∀ m l, wait_lists (w_kern w) !! m = Some l -> t ∉ l) ->
  kill_held_loop (w_restate s t w) held woken = w_restated s t <$> kill_held_loop w held woken.
Proof.
  induction held as [|m held IH]; intros w woken Hn; [done|]. cbn [kill_held_loop]. unfold mini_os_mutex_kill_waiters.
  change (mutexes (w_restate s t w)) with (mutexes w). destruct (mutexes w !! m) as [mx|] eqn:Hm; [|done]. cbn [mbind option_bind].
  change (wait_lists (w_kern (w_restate s t w))) with (wait_lists (w_kern w)). destruct (wait_lists (w_kern w) !! m) as [l|] eqn:Hl; [|done].
  cbn [mbind option_bind]. change (w_kern (w_restate s t w)) with (restate s t (w_kern w)). rewrite kill_waiters_restate by eauto.
  destruct (kill_waiter_loop (w_kern w) l _) as [k1|] eqn:Ek; [|done]. cbn [mbind option_bind fmap option_fmap option_map].
  change (mutexes (w_set_kern (w_restate s t w) (restate s t k1))) with (mutexes w). change (mutexes (w_set_kern w k1)) with (mutexes w). rewrite Hm.
  cbn [mbind option_bind]. change (sems (w_sync (w_set_kern (w_restate s t w) (restate s t k1)))) with (sems (w_sync w)).
  change (sems (w_sync (w_set_kern w k1))) with (sems (w_sync w)).
  destruct (sems (w_sync w) !! m) as [sm|]; [|done]. cbn [mbind option_bind].
  match goal with |- _ = _ <$> kill_held_loop ?W _ _ => rewrite <- (IH W) end; [done|].
  intros m' l'. change (wait_lists k1 !! m' = Some l' -> t ∉ l'). intros Hl' Hin.
  destruct (kill_wait_lists _ _ _ _ Ek _ _ Hl') as (l0 & Hl0 & Hsub). apply (Hn m' l0); [done|]. by apply Hsub.
Qed.

(** The walk of priorities, also over the thread itself. *)
Lemma waiter_loop_restate k nodes hi : waiter_loop (restate s t k) nodes hi = waiter_loop k nodes hi.
Proof.
  revert hi. induction nodes as [|u nodes IH]; [done|]. intros hi. cbn [waiter_loop].
  assert (th_priority <$> threads (restate s t k) !! u = th_priority <$> threads k !! u) as E.
  { destruct (decide (u = t)) as [->|]; [rewrite restate_eq|by rewrite restate_ne]. by destruct (threads k !! t). }
  destruct (threads (restate s t k) !! u) as [th1|], (threads k !! u) as [th2|]; try done. apply (inj Some) in E.
  cbn [mbind option_bind]. by rewrite E, IH.
Qed.
Lemma required_restate w u : mini_os_mutex_required_priority (w_restate s t w) u = mini_os_mutex_required_priority w u.
Proof.
  assert (∀ held req, held_loop (restate s t (w_kern w)) held req = held_loop (w_kern w) held req) as Hh.
  { induction held as [|m held IH]; [done|]. intros req. cbn [held_loop]. unfold mini_os_mutex_highest_waiter.
    change (wait_lists (restate s t (w_kern w))) with (wait_lists (w_kern w)). destruct (wait_lists (w_kern w) !! m) as [l|]; [|done].
    cbn [mbind option_bind]. rewrite waiter_loop_restate. destruct (waiter_loop (w_kern w) l _); [|done]. cbn [mbind option_bind]. apply IH. }
  unfold mini_os_mutex_required_priority. change (w_kern (w_restate s t w)) with (restate s t (w_kern w)).
  change (held_by (w_restate s t w) u) with (held_by w u).
  destruct (decide (u = t)) as [->|]; [rewrite restate_eq|rewrite restate_ne by done];
    [destruct (threads (w_kern w) !! t)|destruct (threads (w_kern w) !! u)]; try done; apply Hh.
Qed.
Lemma apply_restate k u p : is_ready s = false -> (∀ th, threads k !! t = Some th -> is_ready (th_state th) = false) ->
  mini_os_thread_priority_apply (restate s t k) (Some u) p = restated s t <$> mini_os_thread_priority_apply k (Some u) p.
Proof.
  intros Hs Ht. unfold mini_os_thread_priority_apply. destruct (_ >=? _); [done|]. destruct (decide (u = t)) as [->|Hne].
  - rewrite restate_eq. destruct (threads k !! t) as [th|]; [|done]. cbn [mbind option_bind fmap option_fmap option_map].
    change (th_priority (th_set_state th s)) with (th_priority th). destruct (_ =? _); [done|]. cbn [th_state th_set_state].
    rewrite Hs, (Ht th eq_refl). unfold restated. simpl. by rewrite <- restate_self.
  - rewrite restate_ne by done. destruct (threads k !! u) as [th|]; [|done]. cbn [mbind option_bind]. destruct (_ =? _); [done|].
    destruct (is_ready (th_state th)); [|unfold restated; simpl; by rewrite <- restate_set].
    rewrite remove_restate by done. destruct (mini_os_remove_thread_from_ready_running_list k (Some u)) as [[rc k1]|]; [|done].
    cbn [mbind option_bind fmap option_fmap option_map restated fst snd]. rewrite restate_set, add_restate by done.
    destruct (mini_os_add_thread_to_ready_running_list _ (Some u)) as [[rc2 k2]|]; [|done].
    cbn [mbind option_bind fmap option_fmap option_map restated fst snd]. rewrite restate_ne by done.
    destruct (threads k2 !! u) as [th2|]; [|done]. cbn [mbind option_bind fmap option_fmap option_map]. unfold restated. cbn [fst snd].
    destruct (bool_decide _); [by rewrite restate_set|done].
Qed.
Lemma propagate_restate w u extra depth : is_ready s = false -> (∃ th, threads (w_kern w) !! t = Some th /\ outside th) ->
  mini_os_mutex_propagate (w_restate s t w) u extra depth = w_restate s t <$> mini_os_mutex_propagate w u extra depth.
Proof.
  intros Hs. unfold mini_os_mutex_propagate. generalize (Z.to_nat (MINI_OS_MUTEX_PI_CHAIN_MAX - depth)) as fuel. intros fuel.
  revert w u extra. induction fuel as [|fuel IH]; intros w u extra (th0 & H0 & Ho); [done|]. destruct u as [u|]; [|done]. cbn [propagate_loop].
  rewrite required_restate. destruct (mini_os_mutex_required_priority w u) as [r|]; [|done]. cbn [mbind option_bind].
  change (w_kern (w_restate s t w)) with (restate s t (w_kern w)). set (p := if extra <? r then extra else r).
  assert (∀ k, th_priority <$> threads (restate s t k) !! u = th_priority <$> threads k !! u) as E.
  { intros k. destruct (decide (u = t)) as [->|]; [rewrite restate_eq|by rewrite restate_ne]. by destruct (threads k !! t). }
  specialize (E (w_kern w)). destruct (threads (restate s t (w_kern w)) !! u) as [th1|], (threads (w_kern w) !! u) as [th|] eqn:Ht; try done.
  apply (inj Some) in E. cbn [mbind option_bind]. rewrite E.
  rewrite apply_restate; [|done|intros th2 H2; assert (th2 = th0) as -> by congruence; by destruct Ho as [->| ->]].
  assert (∃ r1, (if p =? th_priority th then Some w else '(_, k) ← mini_os_thread_priority_apply (w_kern w) (Some u) p; Some (w_set_kern w k)) = r1 /\
    (if p =? th_priority th then Some (w_restate s t w)
     else '(_, k) ← restated s t <$> mini_os_thread_priority_apply (w_kern w) (Some u) p; Some (w_set_kern (w_restate s t w) k)) = w_restate s t <$> r1 /\
    match r1 with Some w1 => ∃ th, threads (w_kern w1) !! t = Some th /\ outside th | None => True end) as (r1 & -> & -> & Ho1).
  { eexists. split; [done|]. destruct (_ =? _); [split; [done|eauto]|]. destruct (mini_os_thread_priority_apply _ _ _) as [[rc k1]|] eqn:Ea; [|done].
    split; [done|]. cbn [mbind option_bind]. apply (apply_evolves (λ _, True)) in Ea as [Ha Hm]. destruct (Ha t) as [th1' Ht1]; [eauto|].
    exists th1'. split; [done|]. specialize (Hm t th1' Ht1). rewrite H0 in Hm.
    apply (outside_state th0 th1'); [|done]. apply (mv_state _ _ _ Hm). auto. }
  destruct r1 as [w1|]; [|done]. cbn [mbind option_bind fmap option_fmap option_map].
  change (w_kern (w_restate s t w1)) with (restate s t (w_kern w1)).
  assert (∀ k, (λ th, (th_wait_mutex th, th_wait_list th)) <$> threads (restate s t k) !! u = (λ th, (th_wait_mutex th, th_wait_list th)) <$> threads k !! u) as E2.
  { intros k. destruct (decide (u = t)) as [->|]; [rewrite restate_eq|by rewrite restate_ne]. by destruct (threads k !! t). }
  specialize (E2 (w_kern w1)). destruct (threads (restate s t (w_kern w1)) !! u) as [th3|], (threads (w_kern w1) !! u) as [th4|]; try done.
  apply (inj Some) in E2. injection E2 as E3 E4. cbn [mbind option_bind]. rewrite E3, E4.
  destruct (th_wait_mutex th4) as [m|]; [|done]. destruct (negb _); [done|]. change (mutexes (w_restate s t w1)) with (mutexes w1).
  destruct (mutexes w1 !! m) as [mx|]; [|done]. cbn [mbind option_bind]. by apply IH.
Qed.
End restate.

(** ** Taking a thread out of its lists *)

(** The header of a mutex may change its count of references. *)
Definition mutex_view (w : world) (m : Z) : option (option Z * Z * Z) :=
  (λ mx, (mx_owner mx, mx_depth mx, obj_flags (mx_obj mx))) <$> mutexes w !! m.
(** The operation of another kind on the block of [t]; the others as in [keeps]. *)
Record changes (V : Z -> Prop) (t : Z) (w w' : world) : Prop := {
  ch_alive : ∀ u, is_Some (threads (w_kern w') !! u) <-> is_Some (threads (w_kern w) !! u);
  ch_moves : ∀ u th th', u ≠ t -> threads (w_kern w) !! u = Some th -> threads (w_kern w') !! u = Some th' -> moves V th th';
  ch_waits : ∀ u th th', threads (w_kern w) !! u = Some th -> threads (w_kern w') !! u = Some th' ->
    th_wait_list th' ≠ None -> th_wait_list th = th_wait_list th';
  ch_mutex : ∀ m, mutex_view w' m = mutex_view w m;
  ch_held : ∀ u, held_by w' u = held_by w u;
  ch_current : current_thread (w_kern w') = current_thread (w_kern w)
}.
#[export] Instance changes_preorder V t : PreOrder (changes V t).
Proof.
  split.
  - intros w. split; auto; intros u th th'; [intros _|]; intros E1 E2; by simplify_eq.
  - intros w1 w2 w3 [A1 A2 A3 A4 A5 A6] [B1 B2 B3 B4 B5 B6].
    assert (∀ u th, threads (w_kern w1) !! u = Some th -> ∃ th2, threads (w_kern w2) !! u = Some th2) as Hs by (intros u th Hu; apply A1; eauto).
    split; [by intros u; rewrite B1| | |congruence|congruence|congruence].
    + intros u th th3 Hu E1 E3. destruct (Hs _ _ E1) as [th2 E2]. etrans; eauto.
    + intros u th th3 E1 E3 Hn. destruct (Hs _ _ E1) as [th2 E2]. pose proof (B3 _ _ _ E2 E3 Hn) as H. rewrite <- H in Hn |- *. eauto.
Qed.
Lemma changes_frame V t w k' th th' :
  threads k' = <[t := th']> (threads (w_kern w)) -> threads (w_kern w) !! t = Some th -> th_wait_list th' = None \/ th_wait_list th' = th_wait_list th ->
  current_thread k' = current_thread (w_kern w) -> changes V t w (w_set_kern w k').
Proof.
  intros E Ht Hl Hc. split; auto; change (w_kern (w_set_kern w k')) with k'; rewrite E.
  - intros u. destruct (decide (u = t)) as [->|]; [rewrite lookup_insert_eq|by rewrite lookup_insert_ne]. naive_solver.
  - intros u thu th2 Hu E1. rewrite lookup_insert_ne by done. intros E2. by simplify_eq.
  - intros u thu th2 E1. destruct (decide (u = t)) as [->|]; [rewrite lookup_insert_eq|rewrite lookup_insert_ne by done]; intros E2 Hn; simplify_eq; [|done].
    destruct Hl; congruence.
Qed.
Lemma changes_restate V s t w : changes V t w (w_restate s t w).
Proof.
  assert (∀ u, threads (w_kern (w_restate s t w)) !! u = threads (restate s t (w_kern w)) !! u) as E by done.
  split; try done; intros u; rewrite E.
  - destruct (decide (u = t)) as [->|]; [rewrite restate_eq|by rewrite restate_ne]. by destruct (threads (w_kern w) !! t).
  - intros th th' Hu E1. rewrite restate_ne by done. intros E2. by simplify_eq.
  - intros th th' E1. destruct (decide (u = t)) as [->|]; [rewrite restate_eq|rewrite restate_ne by done]; rewrite E1; by intros [= <-].
Qed.

Lemma frame_changes V t w k' th th' :
  frame (w_kern w) k' t th' -> threads (w_kern w) !! t = Some th -> th_wait_list th' = None \/ th_wait_list th' = th_wait_list th ->
  changes V t w (w_set_kern w k').
Proof. intros Hf Ht Hl. eapply changes_frame; [apply Hf|exact Ht|done|apply Hf]. Qed.

(** The walk of priorities. *)
Lemma propagate_changes V w calls log e u extra depth t :
  xinv w calls log e -> is_Some (threads (w_kern w) !! u) -> 0 <= extra ->
  ∃ w', mini_os_mutex_propagate w (Some u) extra depth = Some w' /\ xinv w' calls log e /\ changes V t w w' /\
    ∃ p, threads (w_kern w') !! t = (λ th, th_set_priority th p) <$> threads (w_kern w) !! t.
Proof.
  intros Hi Hu He. destruct (propagate_ok w calls log e (Some u) extra depth Hi) as (k' & E & Hi' & _ & Hc & Ht); [by intros ? [= <-]|done|].
  exists (w_set_kern w k'). split; [done|]. split; [done|]. split; [|apply Ht].
  assert (∀ v, is_Some (threads k' !! v) <-> is_Some (threads (w_kern w) !! v)) as Ha.
  { intros v. destruct (Ht v) as [p ->]. by destruct (threads (w_kern w) !! v). }
  assert (∀ v th th', threads (w_kern w) !! v = Some th -> threads k' !! v = Some th' -> ∃ p, th' = th_set_priority th p) as Hp.
  { intros v th th' E1 E2. destruct (Ht v) as [p Ep]. rewrite Ep, E1 in E2. injection E2 as <-. eauto. }
  split; try done; [intros v th th' _ E1 E2|intros v th th' E1 E2 _]; destruct (Hp v th th' E1 E2) as [p ->]; [|done].
  by apply moves_same; [left|..].
Qed.

Lemma restate_insert s t k th : restate s t (set_thread k t th) = set_thread k t (th_set_state th s).
Proof. rewrite <- restate_self. unfold set_thread, restate, k_set_threads. simpl. f_equal. apply map_eq. intros u. destruct (decide (u = t)) as [->|]; [by rewrite !lookup_insert_eq|by rewrite !lookup_insert_ne, lookup_alter_ne]. Qed.

(** The block of a thread that left its wait list; [p] is the priority it is left with. *)
Definition left_wait (th : thread) (b : bool) (p : Z) : thread :=
  th_set_priority (th_set_wait_mutex (th_set_wait_list (if b then th_set_wait_status th false else th) None) None) p.

(** A blocked thread leaves its wait list.  One that is in the wheel stays blocked; of one
    that is not, only the state is left to be set. *)
Lemma leave_wait_ok V w calls log t th b :
  xinv w calls log None -> threads (w_kern w) !! t = Some th -> th_state th = THREAD_BLOCKED -> undecided th -> th_wait_list th ≠ None ->
  ∃ ws p, 0 <= p < MINI_OS_PRIORITY /\ xinv ws calls log None /\ changes V t w ws /\
    if th_wheel_slot th <? MINI_OS_TICK_WHEEL
    then leave_wait w t b = Some ws /\ threads (w_kern ws) !! t = Some (left_wait th b p)
    else leave_wait w t b = Some (w_restate THREAD_BLOCKED t ws) /\
         threads (w_kern ws) !! t = Some (th_set_state (left_wait th b p) THREAD_SUSPENDED).
Proof.
  intros Hi Ht Hst Hun Hwl. pose proof (xi_wf _ _ _ _ Hi) as Hw. pose proof (wf_threads _ Hw _ _ Ht) as Hok.
  destruct (th_wait_list th) as [l|] eqn:El; [|done]. clear Hwl.
  pose proof (wf_at_wait_unlink _ _ _ _ (wf_at_of_wf _ _ _ Hw Ht)) as Ha.
  set (th1 := left_wait th b (th_priority th)).
  set (st := if th_wheel_slot th <? MINI_OS_TICK_WHEEL then THREAD_BLOCKED else THREAD_SUSPENDED).
  set (k1 := set_thread (wait_unlink (w_kern w) t) t (th_set_state th1 st)).
  assert (frame (w_kern w) k1 t (th_set_state th1 st)) as Hf by (split; try done; simpl; by rewrite dom_fmap_L).
  assert (xinv (w_set_kern w k1) calls log None) as Hi1.
  { apply xinv_kernel; [done| | |].
    - eapply wf_of_wf_at; [exact (wf_at_set _ _ _ _ (th_set_state th1 st) Ha)|apply lookup_insert_eq| |by destruct b|].
      + unfold place. rewrite Hst. subst st th1. destruct b; simpl; by destruct (_ <? _) eqn:E; simpl; rewrite ?E.
      + destruct Hok. subst st th1. destruct b, (Z.ltb_spec (th_wheel_slot th) MINI_OS_TICK_WHEEL); split; simpl; try done; try lia; by left.
    - split; [simpl; by rewrite dom_fmap_L|intros u thu Hu|intros u thu]; simpl.
      + destruct (decide (u = t)) as [->|]; [|rewrite lookup_insert_ne by done; eauto]. rewrite lookup_insert_eq. eexists. split; [done|].
        right. simplify_eq. rewrite El. split; [done|]. split; [by destruct b|]. subst th1. destruct b; [done|]. simpl. apply Hun. by rewrite El.
      + destruct (decide (u = t)) as [->|]; [eauto|rewrite lookup_insert_ne by done; eauto].
    - apply (bases_frame _ _ _ _ _ Hf Ht); [by destruct b|]. apply (xi_base _ _ _ _ Hi). }
  assert (changes V t w (w_set_kern w k1)) as C1 by (apply (frame_changes V t w k1 th _ Hf Ht); left; by destruct b).
  assert (0 <= th_priority th < MINI_OS_PRIORITY) as Hp by apply Hok.
  assert (threads k1 !! t = Some (th_set_state th1 st)) as Ht1 by apply lookup_insert_eq.
  (* the walk, if there is one *)
  set (waited := m ← th_wait_mutex th; if bool_decide (l = m) then Some m else None).
  assert (leave_wait w t b =
    let w1 := w_set_kern w (set_thread (wait_unlink (w_kern w) t) t th1) in
    match waited with
    | None => Some w1
    | Some m => mx ← mutexes w !! m; match mx_owner mx with None => Some w1 | Some _ => '(_, w) ← mini_os_mutex_priority_recompute w1 (mx_owner mx); Some w end
    end) as E.
  { unfold leave_wait. rewrite Ht. cbn [mbind option_bind]. rewrite El. fold waited.
    assert ((if b then th_set_wait_status (th_set_wait_mutex (th_set_wait_list th None) None) false
             else th_set_wait_mutex (th_set_wait_list th None) None) = th1) as -> by (subst th1; unfold left_wait; destruct th, b; done). done. }
  assert (set_thread (wait_unlink (w_kern w) t) t th1 =
    if th_wheel_slot th <? MINI_OS_TICK_WHEEL then k1 else restate THREAD_BLOCKED t k1) as Ek.
  { subst k1 st. rewrite restate_insert. assert (th_state th1 = THREAD_BLOCKED) as E1 by (subst th1; by destruct b).
    assert (∀ x, th_state x = THREAD_BLOCKED -> th_set_state x THREAD_BLOCKED = x) as E2 by (intros []; simpl; by intros ->).
    assert (th_set_state (th_set_state th1 (if th_wheel_slot th <? MINI_OS_TICK_WHEEL then THREAD_BLOCKED else THREAD_SUSPENDED)) THREAD_BLOCKED = th1) as ->
      by (rewrite <- (E2 th1) at 2; done). destruct (_ <? _); [by rewrite E2|done]. }
  assert (∃ ws p, 0 <= p < MINI_OS_PRIORITY /\ xinv ws calls log None /\ changes V t w ws /\
    threads (w_kern ws) !! t = Some (th_set_state (left_wait th b p) st) /\
    leave_wait w t b = Some (if th_wheel_slot th <? MINI_OS_TICK_WHEEL then ws else w_restate THREAD_BLOCKED t ws)) as (ws & p & H1 & H2 & H3 & H4 & H5).
  { rewrite E. cbv zeta. rewrite Ek.
    assert (∃ ws p, 0 <= p < MINI_OS_PRIORITY /\ xinv ws calls log None /\ changes V t w ws /\
      threads (w_kern ws) !! t = Some (th_set_state (left_wait th b p) st) /\
      Some (w_set_kern w (if th_wheel_slot th <? MINI_OS_TICK_WHEEL then k1 else restate THREAD_BLOCKED t k1)) =
      Some (if th_wheel_slot th <? MINI_OS_TICK_WHEEL then ws else w_restate THREAD_BLOCKED t ws)) as Hstay.
    { exists (w_set_kern w k1), (th_priority th). split; [done|]. split; [done|]. split; [done|]. split; [done|]. by destruct (_ <? _). }
    subst waited. destruct (th_wait_mutex th) as [m|]; [|exact Hstay]. cbn [mbind option_bind].
    destruct (bool_decide_reflect (l = m)) as [<-|]; [|exact Hstay].
    pose proof (xi_wait _ _ _ _ Hi _ _ _ Ht El) as Hcall. destruct (xi_call _ _ _ _ Hi _ _ Hcall) as (([mx Hm] & _) & _). simpl in Hm.
    rewrite Hm. cbn [mbind option_bind]. destruct (mx_owner mx) as [o|] eqn:Eo; [|exact Hstay]. cbn [mini_os_mutex_priority_recompute].
    destruct (propagate_changes V (w_set_kern w k1) calls log None o MINI_OS_PRIORITY 0 t Hi1) as (ws & Ep & Hi2 & C2 & p & Htp).
    { destruct (xi_mutex _ _ _ _ Hi1 l mx Hm) as (sm & _ & [_ _ _ Hlog _]). rewrite Eo in Hlog. apply Hlog. }
    { unfold MINI_OS_PRIORITY. lia. }
    change (w_kern (w_set_kern w k1)) with k1 in Htp. rewrite Ht1 in Htp. cbn [fmap option_fmap option_map] in Htp.
    exists ws, p. split; [apply (to_priority _ _ _ (wf_threads _ (xi_wf _ _ _ _ Hi2) _ _ Htp))|]. split; [done|]. split; [by etrans|].
    split; [by rewrite Htp; subst th1; destruct b|]. destruct (_ <? _) eqn:Es; [by rewrite Ep|].
    change (w_set_kern w (restate THREAD_BLOCKED t k1)) with (w_restate THREAD_BLOCKED t (w_set_kern w k1)).
    rewrite propagate_restate; [by rewrite Ep|done|]. eexists. split; [exact Ht1|]. subst st. by left. }
  exists ws, p. split; [done|]. split; [done|]. split; [done|]. subst st. destruct (_ <? _); (split; [done|]); [|done].
  rewrite H4. f_equal. subst th1. destruct th, b; simpl in *; by subst.
Qed.

Lemma set_kern_twice w k1 k2 : w_set_kern (w_set_kern w k1) k2 = w_set_kern w k2.
Proof. done. Qed.
Lemma set_thread_twice k t a b : set_thread (set_thread k t a) t b = set_thread k t b.
Proof. unfold set_thread, k_set_threads. simpl. by rewrite insert_insert_eq. Qed.

Lemma set_lookup w k t th : threads (w_kern (w_set_kern w (set_thread k t th))) !! t = Some th.
Proof. apply lookup_insert_eq. Qed.
Lemma set_twice w k t a b :
  let w1 := w_set_kern w (set_thread k t a) in w_set_kern w1 (set_thread (w_kern w1) t b) = w_set_kern w (set_thread k t b).
Proof. cbv zeta. change (w_kern (w_set_kern w (set_thread k t a))) with (set_thread k t a). by rewrite set_thread_twice. Qed.

Lemma xinv_yield w calls log e k : xinv (w_set_kern w k) calls log e -> xinv (w_set_kern w (mini_os_schedule_yield k).2) calls log e.
Proof.
  intros Hi. apply (xinv_kernel _ _ _ _ (mini_os_schedule_yield k).2 Hi).
  - apply wf_pendsv, (xi_wf _ _ _ _ Hi).
  - split; eauto.
  - exact (xi_base _ _ _ _ Hi).
Qed.
Lemma changes_yield V t w k : changes V t w (w_set_kern w k) -> changes V t w (w_set_kern w (mini_os_schedule_yield k).2).
Proof. intros [A1 A2 A3 A4 A5 A6]. by split. Qed.

(** A thread that is in no list comes to rest in a state that needs none. *)
Lemma rest_ok V w calls log e k1 t th0 th th1 :
  xinv w calls log e -> threads (w_kern w) !! t = Some th -> th_wait_list th = None -> wf_at k1 t None None -> frame (w_kern w) k1 t th0 ->
  outside th1 -> th_wait_list th1 = None -> th_wait_status th1 = th_wait_status th -> th_wheel_slot th1 = MINI_OS_TICK_WHEEL ->
  0 <= th_round th1 < 134217728 -> 0 <= th_priority th1 < MINI_OS_PRIORITY -> th_base_priority th1 = th_base_priority th ->
  xinv (w_set_kern w (set_thread k1 t th1)) calls log e /\ changes V t w (w_set_kern w (set_thread k1 t th1)).
Proof.
  intros Hi Ht Hl Ha Hf Ho Hl1 Hs1 Hslot Hr Hp Hb.
  assert (frame (w_kern w) (set_thread k1 t th1) t th1) as Hf1 by (eapply frame_trans; [exact Hf|apply frame_set]).
  split; [|apply (frame_changes V t w _ th _ Hf1 Ht); auto]. apply xinv_kernel; [done| | |].
  - eapply wf_of_wf_at; [exact (wf_at_set _ _ _ _ th1 Ha)|apply lookup_insert_eq| |done|].
    + unfold place. rewrite Hslot. by destruct Ho as [->| ->].
    + split; try done; rewrite ?Hl1, ?Hslot; try done; try (destruct Ho as [->| ->]; done).
  - eapply no_grant_frame; [exact Hf1| |congruence]. intros th2 Ht2. assert (th2 = th) as -> by congruence. by rewrite Hl, Hl1.
  - eapply bases_frame; [exact Hf1|exact Ht|done|apply (xi_base _ _ _ _ Hi)].
Qed.

Lemma no_list_home k t th : wf k -> threads k !! t = Some th -> home k t = place th.
Proof. intros Hw Ht. rewrite (home_spec _ _ _ (wf_placed _ Hw)). unfold place_of. by rewrite Ht. Qed.

Lemma remain_s32 k t th : wf k -> threads k !! t = Some th ->
  ∃ r, mini_os_wheel_remain k (Some t) = Some r /\ is_u32 r /\ (th_wheel_slot th = MINI_OS_TICK_WHEEL -> r = 0).
Proof.
  intros Hw Ht. unfold mini_os_wheel_remain. rewrite Ht. cbn [mbind option_bind]. unfold MINI_OS_TICK_WHEEL.
  destruct (Z.geb_spec (th_wheel_slot th) 32); [exists 0; repeat split; lia|]. eexists. split; [done|].
  split; [apply Z.mod_pos_bound; lia|lia].
Qed.

(** What a suspension makes of the block. *)
Definition frozen (k : kernel) (th th' : thread) : Prop :=
  th_state th' = THREAD_SUSPENDED /\ th_wait_list th' = None /\ th_wait_refs th' = th_wait_refs th /\ undecided th' /\
  (th_wait_list th ≠ None -> th_wait_status th' = false) /\ (th_wait_list th = None -> th_wait_status th' = th_wait_status th).

Lemma suspend_blocked_ok V w calls log t th :
  xinv w calls log None -> threads (w_kern w) !! t = Some th -> th_state th = THREAD_BLOCKED -> undecided th ->
  ∃ w1 w2 th' r, suspend_blocked w t = Some w1 /\ mini_os_wheel_remain (w_kern w) (Some t) = Some r /\
    (th1 ← threads (w_kern w1) !! t; Some (w_set_kern w1 (set_thread (w_kern w1) t (th_set_state th1 THREAD_SUSPENDED)))) = Some w2 /\
    xinv w2 calls log None /\ changes V t w w2 /\ threads (w_kern w2) !! t = Some th' /\ th_resume_time th' = s32 r /\ frozen (w_kern w) th th'.
Proof.
  intros Hi Ht Hst Hun. pose proof (xi_wf _ _ _ _ Hi) as Hw. pose proof (wf_threads _ Hw _ _ Ht) as Hok.
  destruct (remain_s32 _ _ _ Hw Ht) as (r & Er & Hr & _). unfold suspend_blocked. rewrite Ht. cbn [mbind option_bind]. rewrite Er. cbn [mbind option_bind].
  set (th0 := th_set_resume_time th (s32 r)). set (w0 := w_set_kern w (set_thread (w_kern w) t th0)).
  assert (xinv w0 calls log None) as Hi0.
  { apply (xinv_set_thread w calls log None t th th0); try done; [by left|]. apply (xi_base _ _ _ _ Hi _ _ Ht). }
  assert (threads (w_kern w0) !! t = Some th0) as Ht0 by apply lookup_insert_eq.
  assert (changes V t w w0) as C0 by (apply (frame_changes V t w _ th th0); [apply frame_set|done|by right]).
  (* in the wheel and in no wait list *)
  assert (∀ ws thw, xinv ws calls log None -> changes V t w ws -> threads (w_kern ws) !! t = Some thw -> th_state thw = THREAD_BLOCKED ->
    th_wheel_slot thw < MINI_OS_TICK_WHEEL -> th_wait_list thw = None -> th_resume_time thw = s32 r -> th_wait_refs thw = th_wait_refs th ->
    (th_wait_list th ≠ None -> th_wait_status thw = false) -> (th_wait_list th = None -> th_wait_status thw = th_wait_status th) ->
    ∃ w1 w2 th' r0, (let k := w_kern ws in let k := if bool_decide (home k t = None) then k else unlink k t in th ← threads k !! t;
      Some (w_set_kern ws (set_thread k t (th_set_round (th_set_wheel_slot th MINI_OS_TICK_WHEEL) 0)))) = Some w1 /\ Some r = Some r0 /\
    (th1 ← threads (w_kern w1) !! t; Some (w_set_kern w1 (set_thread (w_kern w1) t (th_set_state th1 THREAD_SUSPENDED)))) = Some w2 /\
    xinv w2 calls log None /\ changes V t w w2 /\ threads (w_kern w2) !! t = Some th' /\ th_resume_time th' = s32 r0 /\ frozen (w_kern w) th th') as Hwheel.
  { intros ws thw His C Htw Hstw Hsw Hlw Hrw Hrefs Hs1 Hs2. pose proof (xi_wf _ _ _ _ His) as Hws. cbv zeta.
    pose proof (wf_threads _ Hws _ _ Htw) as [K1 K2 K3 _ _ _ _].
    rewrite (no_list_home _ _ _ Hws Htw). unfold place. rewrite Hstw. cbn [is_ready]. rewrite (proj2 (Z.ltb_lt _ _) Hsw).
    rewrite bool_decide_false by done. change (threads (unlink (w_kern ws) t)) with (threads (w_kern ws)). rewrite Htw. cbn [mbind option_bind].
    eexists _, _, _, r. split; [done|]. split; [done|]. rewrite set_lookup. cbn [mbind option_bind].
    split; [done|]. rewrite set_twice. set (th' := th_set_state _ _).
    pose proof (wf_at_of_wf _ _ _ Hws Htw) as Ha. rewrite Hlw in Ha. apply wf_at_unlink in Ha.
    2:{ intros q. unfold place. rewrite Hstw. simpl. by destruct (_ <? _). }
    destruct (rest_ok V ws calls log None (unlink (w_kern ws) t) t thw thw th' His Htw) as [Hi' C']; try done.
    - split; try done. simpl. by rewrite insert_id.
    - by left.
    - split; [exact Hi'|]. split; [by etrans|]. split; [apply lookup_insert_eq|]. split; [done|].
      split; [done|]. split; [done|]. split; [done|]. split; [by intros []|]. split; [exact Hs1|exact Hs2]. }
  destruct (th_wait_list th) as [l|] eqn:El.
  2:{ assert (leave_wait w0 t true = Some w0) as -> by (unfold leave_wait; rewrite Ht0; cbn [mbind option_bind]; subst th0; simpl; by rewrite El).
      cbn [mbind option_bind]. destruct (to_blocked _ _ _ Hok Hst) as [Hs|Hs]; [|by rewrite El in Hs].
      apply (Hwheel w0 th0); try done. }
  destruct (leave_wait_ok V w0 calls log t th0 true Hi0 Ht0 Hst) as (ws & p & Hp & His & Cs & Hcase); [done|change (th_wait_list th ≠ None); by rewrite El|].
  change (th_wheel_slot th0) with (th_wheel_slot th) in Hcase. destruct (Z.ltb_spec (th_wheel_slot th) MINI_OS_TICK_WHEEL) as [Hs|Hs]; destruct Hcase as [-> Hts]; cbn [mbind option_bind].
  - apply (Hwheel ws (left_wait th0 true p)); try done. by etrans.
  - pose proof (xi_wf _ _ _ _ His) as Hws. set (ths := th_set_state (left_wait th0 true p) THREAD_SUSPENDED) in *.
    assert (th_wheel_slot th = MINI_OS_TICK_WHEEL) as Hs32 by (destruct Hok; lia).
    change (w_kern (w_restate THREAD_BLOCKED t ws)) with (restate THREAD_BLOCKED t (w_kern ws)).
    change (home (restate THREAD_BLOCKED t (w_kern ws)) t) with (home (w_kern ws) t).
    assert (place ths = None) as Hpl by (unfold place; subst ths th0; simpl; by rewrite Hs32).
    rewrite (no_list_home _ _ _ Hws Hts), Hpl.
    rewrite bool_decide_true by done. rewrite restate_eq, Hts. cbn [mbind option_bind fmap option_fmap option_map].
    set (th' := th_set_round _ 0). eexists _, _, _, r. split; [done|]. split; [done|].
    rewrite set_lookup. cbn [mbind option_bind].
    split; [done|]. rewrite set_twice.
    assert (set_thread (restate THREAD_BLOCKED t (w_kern ws)) t (th_set_state th' THREAD_SUSPENDED) = set_thread (w_kern ws) t (th_set_state th' THREAD_SUSPENDED)) as E.
    { unfold set_thread, restate, k_set_threads. simpl. f_equal. apply map_eq. intros u. destruct (decide (u = t)) as [->|]; [by rewrite !lookup_insert_eq|by rewrite !lookup_insert_ne, lookup_alter_ne]. }
    change (w_set_kern (w_restate THREAD_BLOCKED t ws) (set_thread (restate THREAD_BLOCKED t (w_kern ws)) t (th_set_state th' THREAD_SUSPENDED)))
      with (w_set_kern ws (set_thread (restate THREAD_BLOCKED t (w_kern ws)) t (th_set_state th' THREAD_SUSPENDED))). rewrite E.
    pose proof (wf_at_of_wf _ _ _ Hws Hts) as Ha. rewrite Hpl in Ha.
    destruct (rest_ok V ws calls log None (w_kern ws) t ths ths (th_set_state th' THREAD_SUSPENDED) His Hts) as [Hi' C']; try done.
    + split; try done. by rewrite insert_id.
    + by left.
    + split; [exact Hi'|]. split; [etrans; [exact C0|by etrans]|]. split; [apply lookup_insert_eq|]. split; [done|].
      split; [done|]. split; [done|]. split; [done|]. split; [by intros []|]. split; [done|by rewrite El].
Qed.

(** A suspension: what the code documents, in every state of the thread. *)
Lemma suspend_ok V w calls log t th :
  xinv w calls log None -> threads (w_kern w) !! t = Some th -> undecided th ->
  ∃ rc w', mini_os_thread_suspend w (Some t) = Some (rc, w') /\ xinv w' calls log None /\ changes V t w w' /\
    (rc = MINI_ERR_BUSY /\ w' = w /\ is_ready (th_state th) = false /\ th_state th ≠ THREAD_BLOCKED \/
     rc = MINI_OK /\ w' = w /\ th_state th = THREAD_SUSPENDED \/
     rc = MINI_OK /\ ∃ th', threads (w_kern w') !! t = Some th' /\ frozen (w_kern w) th th' /\
       (is_ready (th_state th) = true /\ th_resume_time th' = th_resume_time th \/
        th_state th = THREAD_BLOCKED /\ ∃ r, mini_os_wheel_remain (w_kern w) (Some t) = Some r /\ th_resume_time th' = s32 r)).
Proof.
  intros Hi Ht Hun. pose proof (xi_wf _ _ _ _ Hi) as Hw. pose proof (wf_threads _ Hw _ _ Ht) as Hok.
  unfold mini_os_thread_suspend. rewrite Ht. cbn [mbind option_bind].
  destruct (bool_decide_reflect (th_state th = THREAD_SUSPENDED)) as [Es|Es]; [exists MINI_OK, w; repeat (split; [done|]); auto|].
  destruct (is_ready (th_state th)) eqn:Hr; cbn [negb andb].
  - destruct (detach_spec _ _ _ Hw Ht Hr) as (k1 & -> & Ha & Hf & _). cbn [mbind option_bind].
    change (w_kern (w_set_kern w k1)) with k1. rewrite (frame_lookup _ _ _ _ Hf). cbn [mbind option_bind]. rewrite set_kern_twice.
    assert (th_wait_list th = None) as Hl.
    { destruct (th_wait_list th) eqn:El; [|done]. assert (th_state th = THREAD_BLOCKED) as E by (apply (to_wait _ _ _ Hok); by rewrite El). by rewrite E in Hr. }
    destruct (rest_ok V w calls log None k1 t th th (th_set_state th THREAD_SUSPENDED) Hi Ht Hl Ha Hf) as [Hi' C']; try done; try apply Hok.
    { by left. } { exact (running_slot _ _ _ Hw Ht Hr). }
    eexists _, _. split; [done|]. set (k2 := set_thread k1 t _) in *.
    assert (threads k2 !! t = Some (th_set_state th THREAD_SUSPENDED)) as Ht2 by apply lookup_insert_eq.
    split; [destruct (bool_decide _); [by apply xinv_yield|done]|]. split; [destruct (bool_decide _); [by apply changes_yield|done]|].
    right; right. split; [done|]. exists (th_set_state th THREAD_SUSPENDED). split; [by destruct (bool_decide _)|].
    split; [|by left]. split; [done|]. split; [done|]. split; [done|]. split; [by intros []|]. split; [by rewrite Hl|done].
  - destruct (bool_decide_reflect (th_state th = THREAD_BLOCKED)) as [Eb|Eb]; cbn [negb]; [|exists MINI_ERR_BUSY, w; repeat (split; [done|]); auto].
    destruct (suspend_blocked_ok V w calls log t th Hi Ht Eb Hun) as (w1 & w2 & th' & r & -> & Er & E2 & Hi' & C' & Ht' & Hrt & Hfr).
    cbn [mbind option_bind]. destruct (threads (w_kern w1) !! t) as [th1|]; [|done]. cbn [mbind option_bind] in E2 |- *.
    set (k2 := set_thread (w_kern w1) t (th_set_state th1 THREAD_SUSPENDED)) in *. injection E2 as E2.
    eexists _, _. split; [done|].
    assert (xinv (w_set_kern w1 k2) calls log None) as Hi2 by by rewrite E2. assert (changes V t w (w_set_kern w1 k2)) as C2 by by rewrite E2.
    split; [destruct (bool_decide _); [by apply xinv_yield|done]|].
    split; [destruct (bool_decide _); [|done]|].
    { destruct C2 as [A1 A2 A3 A4 A5 A6]. by split. }
    right; right. split; [done|]. exists th'. split; [|split; [done|]; right; eauto].
    rewrite <- E2 in Ht'. by destruct (bool_decide _).
Qed.

(** A resumption. *)
Definition resumed (k : kernel) (th th' : thread) : Prop :=
  if th_resume_time th >? 0
  then th' = th_set_resume_time (parked k th (th_resume_time th)) 0
  else th' = th_set_state th THREAD_READY.
Lemma resume_ok V w calls log t th :
  xinv w calls log None -> threads (w_kern w) !! t = Some th -> -2147483648 <= th_resume_time th < 2147483648 ->
  ∃ rc k', mini_os_thread_resume (w_kern w) (Some t) = Some (rc, k') /\ xinv (w_set_kern w k') calls log None /\ changes V t w (w_set_kern w k') /\
    if decide (th_state th = THREAD_SUSPENDED)
    then rc = MINI_OK /\ s_current_slot k' = s_current_slot (w_kern w) /\ ∃ th', threads k' !! t = Some th' /\ resumed (w_kern w) th th'
    else rc = MINI_ERR_INVAL /\ k' = w_kern w.
Proof.
  intros Hi Ht Hrt. pose proof (xi_wf _ _ _ _ Hi) as Hw. pose proof (wf_threads _ Hw _ _ Ht) as Hok.
  unfold mini_os_thread_resume. rewrite Ht. cbn [mbind option_bind]. destruct (decide (th_state th = THREAD_SUSPENDED)) as [Es|Es].
  2:{ rewrite bool_decide_false by done. cbn [negb]. exists MINI_ERR_INVAL, (w_kern w). rewrite set_kern_eta. by repeat (split; [done|]). }
  rewrite bool_decide_true by done. cbn [negb].
  assert (th_wait_list th = None) as Hl by (destruct (th_wait_list th) eqn:El; [|done]; pose proof (to_wait _ _ _ Hok ltac:(by rewrite El)); congruence).
  assert (th_wheel_slot th = MINI_OS_TICK_WHEEL) as Hs.
  { destruct Hok. destruct (Z.lt_ge_cases (th_wheel_slot th) MINI_OS_TICK_WHEEL) as [H|]; [|lia]. apply to_wheel in H. congruence. }
  pose proof (wf_at_of_wf _ _ _ Hw Ht) as Ha. rewrite Hl in Ha. unfold place in Ha. rewrite Es, Hs in Ha. simpl in Ha.
  assert (∀ k' th', wf k' -> frame (w_kern w) k' t th' -> th_wait_list th' = None -> th_wait_status th' = th_wait_status th ->
    th_base_priority th' = th_base_priority th ->
    xinv (w_set_kern w k') calls log None /\ changes V t w (w_set_kern w k')) as Hend.
  { intros k' th' Hw' Hf E1 E2 E3. split; [|apply (frame_changes V t w _ th _ Hf Ht); auto]. apply xinv_kernel; [done..| |].
    - eapply no_grant_frame; [exact Hf| |congruence]. intros th2 H2. assert (th2 = th) as -> by congruence. by rewrite Hl.
    - eapply bases_frame; [exact Hf|exact Ht|done|apply (xi_base _ _ _ _ Hi)]. }
  destruct (Z.gtb_spec (th_resume_time th) 0) as [Hpos|Hneg].
  - rewrite u32_small by (unfold is_u32; lia).
    destruct (wheel_insert_spec _ _ _ _ (th_resume_time th) Ha Ht) as (k1 & -> & Ha1 & Hf1 & _); [lia|]. cbn [mbind option_bind].
    rewrite (frame_lookup _ _ _ _ Hf1). cbn [mbind option_bind]. set (th' := th_set_resume_time (parked (w_kern w) th (th_resume_time th)) 0).
    assert (frame (w_kern w) (set_thread k1 t th') t th') as Hf by (eapply frame_trans; [exact Hf1|apply frame_set]).
    eexists _, _. split; [done|]. destruct (Hend (set_thread k1 t th') th') as [Hi' C']; try done.
    + pose proof (wf_slot _ Hw) as Hsl. pose proof (Z.mod_pos_bound (s_current_slot (w_kern w) + th_resume_time th) 32 ltac:(lia)) as Hm.
      assert ((s_current_slot (w_kern w) + th_resume_time th) mod 32 <? MINI_OS_TICK_WHEEL = true) as Hm' by (apply Z.ltb_lt; unfold MINI_OS_TICK_WHEEL; lia).
      eapply wf_of_wf_at; [exact (wf_at_set _ _ _ _ th' Ha1)|apply lookup_insert_eq|unfold place; simpl; by rewrite Hm'|done|].
      destruct Hok. split; simpl; try done; [unfold MINI_OS_TICK_WHEEL; lia|Z.to_euclidean_division_equations; lia|].
      intros _. left. by apply Z.ltb_lt.
    + split; [exact Hi'|]. split; [exact C'|]. split; [done|]. split; [apply Hf1|]. exists th'. split; [apply lookup_insert_eq|].
      unfold resumed. destruct (Z.gtb_spec (th_resume_time th) 0); [done|lia].
  - destruct (add_spec _ _ _ _ Ha Ht) as (k1 & -> & Ha1 & Hf1 & _); [by rewrite Es|apply Hok|]. cbn [mbind option_bind].
    eexists _, _. split; [done|]. destruct (Hend k1 (th_set_state th THREAD_READY)) as [Hi' C']; try done.
    + eapply wf_of_wf_at; [exact Ha1|by eapply frame_lookup|done|done|]. destruct Hok. split; simpl; try done; rewrite ?Hs, ?Hl; try done; lia.
    + split; [exact Hi'|]. split; [exact C'|]. split; [done|]. split; [apply Hf1|]. exists (th_set_state th THREAD_READY). split; [by eapply frame_lookup|].
      unfold resumed. destruct (Z.gtb_spec (th_resume_time th) 0); [lia|done].
Qed.

(** ** The mutexes of a thread that ends *)

Definition still_waits (k k' : kernel) : Prop :=
  ∀ u th', threads k' !! u = Some th' -> th_wait_list th' ≠ None -> ∃ th, threads k !! u = Some th /\ th_wait_list th = th_wait_list th'.
#[export] Instance still_waits_preorder : PreOrder still_waits.
Proof.
  split; [intros k u th'; eauto|]. intros k1 k2 k3 A B u th3 E3 H3. destruct (B u th3 E3 H3) as (th2 & E2 & H2).
  rewrite <- H2 in H3 |- *. eauto.
Qed.
Lemma still_waits_frame k k' t th th' :
  threads k' = <[t := th']> (threads k) -> threads k !! t = Some th -> th_wait_list th' = None \/ th_wait_list th' = th_wait_list th -> still_waits k k'.
Proof.
  intros E Ht Hl u thu. rewrite E. destruct (decide (u = t)) as [->|]; [rewrite lookup_insert_eq|rewrite lookup_insert_ne by done; eauto].
  intros [= <-] Hn. exists th. split; [done|]. destruct Hl; congruence.
Qed.

Lemma mutex_waiters_ok V m nodes : ∀ w calls log e l,
  xinv w calls log e -> wait_lists (w_kern w) !! m = Some l -> NoDup nodes -> (∀ u, u ∈ nodes -> u ∈ l) ->
  ∃ k', kill_waiter_loop (w_kern w) nodes false = Some k' /\ xinv (w_set_kern w k') calls log e /\ keeps V None w (w_set_kern w k') /\
    current_thread k' = current_thread (w_kern w) /\ still_waits (w_kern w) k' /\ (∀ x, x ∉ nodes -> threads k' !! x = threads (w_kern w) !! x) /\
    ∀ x th', x ∈ nodes -> threads k' !! x = Some th' -> th_wait_list th' = None.
Proof.
  induction nodes as [|u nodes IH]; intros w calls log e l Hi Hl Hnd Hin; cbn [kill_waiter_loop].
  { exists (w_kern w). rewrite set_kern_eta. repeat (split; [done|]). intros x th' Hx. by apply not_elem_of_nil in Hx. }
  apply list.NoDup_cons in Hnd as [Hu Hnd]. pose proof (xi_wf _ _ _ _ Hi) as Hw.
  destruct (waiter_spec _ _ _ _ Hw Hl (Hin u ltac:(apply elem_of_cons; auto))) as (th & Ht & Hwl & Hst). rewrite Ht. cbn [mbind option_bind].
  set (k1 := set_thread (w_kern w) u (th_set_wait_mutex th None)).
  assert (xinv (w_set_kern w k1) calls log e) as Hi1.
  { apply (xinv_set_thread w calls log e u th); try done; [by left|]. apply (xi_base _ _ _ _ Hi _ _ Ht). }
  destruct (wake_ok k1 m l u false (xi_wf _ _ _ _ Hi1) Hl (Hin u ltac:(apply elem_of_cons; auto))) as (k2 & th1 & -> & Hw2 & Ht1 & Hwl1 & Hf & W2 & _).
  cbn [mbind option_bind]. assert (th1 = th_set_wait_mutex th None) as -> by (simpl in Ht1; rewrite lookup_insert_eq in Ht1; congruence).
  assert (xinv (w_set_kern w k2) calls log e) as Hi2.
  { apply (xinv_kernel (w_set_kern w k1) calls log e k2 Hi1 Hw2).
    - split; [simpl; rewrite W2; by rewrite dom_fmap_L| |].
      + intros v thv Hv. rewrite (fr_threads _ _ _ _ Hf). destruct (decide (v = u)) as [->|]; [|rewrite lookup_insert_ne by done; eauto].
        rewrite lookup_insert_eq. eexists. split; [done|]. right. simpl in Hv. rewrite lookup_insert_eq in Hv. injection Hv as <-.
        simpl. rewrite Hwl. by split.
      + intros v thv. rewrite (fr_threads _ _ _ _ Hf). change (w_kern (w_set_kern w k1)) with k1. destruct (decide (v = u)) as [->|]; [eauto|].
        rewrite lookup_insert_ne by done. eauto.
    - eapply (bases_frame k1); [exact Hf|exact Ht1| |apply (xi_base _ _ _ _ Hi1)]. unfold woken. simpl. by destruct (_ <? _). }
  assert (keeps V None w (w_set_kern w k2)) as K2.
  { apply keeps_kern. etrans; [eapply (evolves_set V (w_kern w) u th (th_set_wait_mutex th None)); [done|by apply moves_same; [left|..]]|].
    eapply (evolves_frame V k1); [exact Hf|exact Ht1|]. apply woken_moves. apply (not_outside k1 u); [apply (xi_wf _ _ _ _ Hi1)|done|]. left. simpl. by rewrite Hwl. }
  destruct (IH (w_set_kern w k2) calls log e (filter (λ x, x ≠ u) l) Hi2) as (k' & E & Hi' & K' & Hc & Hsw & Hx & Hx2).
  - change (wait_lists k2 !! m = Some (filter (λ x, x ≠ u) l)). rewrite W2, lookup_fmap. simpl. by rewrite Hl.
  - done.
  - intros v Hv. apply list_elem_of_filter. split; [congruence|]. apply Hin, elem_of_cons. auto.
  - exists k'. split; [exact E|]. split; [exact Hi'|]. split; [by etrans|]. split; [rewrite Hc; apply Hf|]. split.
    { etrans; [eapply (still_waits_frame _ k1); [done|exact Ht|by right]|]. etrans; [|exact Hsw].
      eapply still_waits_frame; [apply Hf|exact Ht1|]. left. unfold woken. by destruct (_ <? _). }
    change (threads (w_kern (w_set_kern w k2))) with (threads k2) in Hx. rewrite (fr_threads _ _ _ _ Hf) in Hx. split.
    { intros x. rewrite not_elem_of_cons. intros [Hxu Hxn]. rewrite Hx, lookup_insert_ne by done. simpl. by rewrite lookup_insert_ne. }
    intros x th' [->|Hin']%elem_of_cons; [|by apply Hx2]. rewrite Hx, lookup_insert_eq by done. intros [= <-]. unfold woken. by destruct (_ <? _).
Qed.

Lemma unlocked_log m t d log : owner_of log m = Some (t, d) -> exclusive log -> ∀ n : nat, Z.of_nat n <= d -> 1 <= d ->
  exclusive (replicate n (Unlocked m t) ++ log) /\
  owner_of (replicate n (Unlocked m t) ++ log) m = (if Z.of_nat n =? d then None else Some (t, d - Z.of_nat n)) /\
  ∀ m', m' ≠ m -> owner_of (replicate n (Unlocked m t) ++ log) m' = owner_of log m'.
Proof.
  intros Ho He. induction n as [|n IH]; intros Hn Hd.
  { change (Z.of_nat 0) with 0. cbn [replicate app]. rewrite Z.sub_0_r. destruct (Z.eqb_spec 0 d); [lia|]. by rewrite Ho. }
  destruct IH as (H1 & H2 & H3); [lia|done|]. cbn [replicate app exclusive owner_of]. rewrite Z.eqb_refl, H2.
  destruct (Z.eqb_spec (Z.of_nat n) d); [lia|]. split; [done|]. split.
  - destruct (Z.eqb_spec (d - Z.of_nat n) 1), (Z.eqb_spec (Z.of_nat (S n)) d); try lia; [done|]. do 2 f_equal. lia.
  - intros m' Hne. destruct (Z.eqb_spec m m') as [->|]; [done|auto].
Qed.

(** One mutex: its waiters are told of a time-out, it becomes free. *)
Lemma free_held_ok w calls log t m mx sm :
  xinv w calls log None -> mutexes w !! m = Some mx -> sems (w_sync w) !! m = Some sm -> mx_owner mx = Some t ->
  xinv (w_set_sem (w_set_mutex (hold_unlink w m) m (mx_set_depth (mx_set_owner mx None) 0)) m (sem_set_count sm (sem_max_count sm)))
    calls (replicate (Z.to_nat (mx_depth mx)) (Unlocked m t) ++ log) None.
Proof.
  intros Hi Hm Hs Ho. destruct (xi_mutex _ _ _ _ Hi _ _ Hm) as (sm0 & Hs0 & [O1 O2 O3 O4 (loc & H1 & H2 & H3)]).
  assert (sm0 = sm) as -> by congruence. rewrite Ho in O4, H1. destruct O4 as (_ & Hlog & Hd).
  assert (loc = AtOwner t) as -> by (destruct loc; naive_solver).
  destruct (unlocked_log m t (mx_depth mx) log Hlog (xi_log _ _ _ _ Hi) (Z.to_nat (mx_depth mx))) as (L1 & L2 & L3); [lia..|].
  rewrite Z2Nat.id, Z.eqb_refl in L2 by lia.
  apply (xinv_mutex w calls log None m _ _ (filter (λ x, x ≠ m) <$> hold_lists w) _ None); try done; try (by eauto).
  - intros u m'. rewrite lookup_fmap.
    assert (m' ∈ default [] (filter (λ x, x ≠ m) <$> hold_lists w !! u) <-> m' ≠ m /\ m' ∈ held_by w u) as ->.
    { unfold held_by. destruct (hold_lists w !! u); simpl; [by rewrite list_elem_of_filter|]. set_solver. }
    destruct (decide (m' = m)) as [->|]; simpl; naive_solver.
  - split; simpl; try done. exists AtSem. split; [done|]. split; [|done]. intros u Hf. by apply H2 in Hf.
Qed.

(** The mutex is there for anyone to lock, and nobody waits for it. *)
Definition nobody_waits (k : kernel) (m : Z) : Prop := ∀ u th, threads k !! u = Some th -> th_wait_list th ≠ Some m.
Definition mutex_free (w : world) (m : Z) : Prop :=
  (∃ mx sm, mutexes w !! m = Some mx /\ mx_owner mx = None /\ sems (w_sync w) !! m = Some sm /\ sem_count sm = 1) /\
  nobody_waits (w_kern w) m.
Lemma still_nobody k k' m : still_waits k k' -> nobody_waits k m -> nobody_waits k' m.
Proof. intros Hs Hn u th' Hu E. destruct (Hs u th' Hu) as (th & Ht & E2); [by rewrite E|]. apply (Hn u th Ht). congruence. Qed.
Lemma kill_held_ok V t ms held : ∀ w calls log woken,
  xinv w calls log None -> NoDup held -> (∀ m, m ∈ held -> mutexes w !! m = ms !! m) ->
  (∀ m, m ∈ held -> ∃ mx, mutexes w !! m = Some mx /\ mx_owner mx = Some t /\
     ∀ u th, threads (w_kern w) !! u = Some th -> th_wait_list th = Some m -> mini_os_obj_kill_reports_timeout (mx_obj mx) = true) ->
  (∀ th, threads (w_kern w) !! t = Some th -> th_wait_list th = None) ->
  ∃ b w', kill_held_loop w held woken = Some (b, w') /\ xinv w' calls (killed_log ms t held log) None /\ keeps V None w w' /\
    current_thread (w_kern w') = current_thread (w_kern w) /\ threads (w_kern w') !! t = threads (w_kern w) !! t /\
    (∀ u m, m ∈ held_by w' u <-> m ∈ held_by w u /\ m ∉ held) /\ (∀ m, m ∈ held -> mutex_free w' m) /\
    (∀ m, m ∉ held -> mutexes w' !! m = mutexes w !! m /\ sems (w_sync w') !! m = sems (w_sync w) !! m) /\
    still_waits (w_kern w) (w_kern w').
Proof.
  induction held as [|m held IH]; intros w calls log woken Hi Hnd Hms Hheld Hwl.
  { exists woken, w. split; [done|]. split; [done|]. split; [done|]. split; [done|]. split; [done|].
    split; [intros u m; pose proof (not_elem_of_nil m); tauto|]. split; [intros m Hm; by apply not_elem_of_nil in Hm|]. done. }
  apply list.NoDup_cons in Hnd as [Hnm Hnd]. destruct (Hheld m) as (mx & Hm & Ho & Hkill); [apply elem_of_cons; auto|].
  cbn [kill_held_loop]. unfold mini_os_mutex_kill_waiters. rewrite Hm. cbn [mbind option_bind].
  destruct (xi_mutex _ _ _ _ Hi _ _ Hm) as (sm & Hs & [[l Hl] _ Hmax _ _]). rewrite Hl. cbn [mbind option_bind].
  assert (∃ k1, kill_waiter_loop (w_kern w) l (mini_os_obj_kill_error (mx_obj mx) =? MINI_OS_ERR_DEAD) = Some k1 /\
    xinv (w_set_kern w k1) calls log None /\ keeps V None w (w_set_kern w k1) /\ current_thread k1 = current_thread (w_kern w) /\
    threads k1 !! t = threads (w_kern w) !! t /\ still_waits (w_kern w) k1 /\ nobody_waits k1 m) as (k1 & E & Hi1 & K1 & Hc1 & Ht1 & Hsw1 & Hno1).
  { assert (∀ u th, threads (w_kern w) !! u = Some th -> th_wait_list th = Some m -> u ∈ l) as Hall.
    { intros u th Hu Hwu. assert (wait_of (w_kern w) u = Some m) as Ew by (unfold wait_of; by rewrite Hu).
      apply (wl_in _ _ (wf_waiting _ (xi_wf _ _ _ _ Hi))) in Ew as (l0 & El & Hin). congruence. }
    destruct l as [|u l'].
    { exists (w_kern w). rewrite set_kern_eta. repeat (split; [done|]). intros u th Hu Hwu. by apply (Hall u th Hu), not_elem_of_nil in Hwu. }
    assert ((mini_os_obj_kill_error (mx_obj mx) =? MINI_OS_ERR_DEAD) = false) as ->.
    { destruct (waiter_spec _ _ _ _ (xi_wf _ _ _ _ Hi) Hl ltac:(apply elem_of_cons; auto)) as (th & Hth & Hw & _).
      unfold mini_os_obj_kill_error. by rewrite (Hkill u th Hth Hw). }
    destruct (mutex_waiters_ok V m (u :: l') w calls log None (u :: l') Hi Hl) as (k1 & E & Hi1 & K1 & Hc1 & Hsw & Hx & Hx2); [apply (wl_nodup _ _ (wf_waiting _ (xi_wf _ _ _ _ Hi)) _ _ Hl)|done|].
    exists k1. split; [exact E|]. split; [done|]. split; [done|]. split; [done|]. split; [|split; [exact Hsw|]].
    2:{ intros v th Hv Hwv. destruct (decide (v ∈ u :: l')) as [Hin|Hn]; [by rewrite (Hx2 v th Hin Hv) in Hwv|]. rewrite Hx in Hv by done. by apply Hn, (Hall v th). }
    apply Hx. intros Hin. destruct (waiter_spec _ _ _ _ (xi_wf _ _ _ _ Hi) Hl Hin) as (th & Hth & Hw & _). rewrite (Hwl th Hth) in Hw. done. }
  rewrite E. cbn [mbind option_bind]. change (mutexes (w_set_kern w k1)) with (mutexes w). rewrite Hm. cbn [mbind option_bind].
  change (sems (w_sync (w_set_kern w k1))) with (sems (w_sync w)). rewrite Hs. cbn [mbind option_bind].
  pose proof (free_held_ok _ _ _ t m mx sm Hi1 Hm Hs Ho) as Hi2. set (w2 := w_set_sem _ m _) in *.
  assert (keeps V None w w2) as K2.
  { etrans; [exact K1|]. etrans; [apply (keeps_unlink _ _ _ m)|]. etrans; [apply (keeps_mutex _ _ _ m); simpl; eauto|]. apply keeps_sem. }
  assert (∀ u m', m' ∈ held_by w2 u <-> m' ∈ held_by w u /\ m' ≠ m) as Hh2.
  { intros u m'. unfold held_by. subst w2. simpl. rewrite lookup_fmap. destruct (hold_lists w !! u) as [l0|]; simpl; [rewrite list_elem_of_filter; tauto|].
    pose proof (not_elem_of_nil m'). tauto. }
  destruct (IH w2 calls _ (woken || match l with [] => false | _ => true end) Hi2 Hnd) as (b & w' & E' & Hi' & K' & Hc' & Ht' & Hh' & Hf' & Hn' & Hs').
  - intros m' Hm'. assert (m' ≠ m) by congruence. subst w2. simpl. rewrite lookup_insert_ne by done. apply Hms, elem_of_cons. auto.
  - intros m' Hm'. assert (m' ≠ m) by congruence. destruct (Hheld m') as (mx' & Hmx' & Ho' & Hk'); [apply elem_of_cons; auto|].
    exists mx'. subst w2. simpl. rewrite lookup_insert_ne by done. split; [done|]. split; [done|].
    intros u th Hu Hwu. destruct (Hsw1 u th Hu) as (th0 & Hu0 & El); [by rewrite Hwu|]. apply (Hk' u th0 Hu0). congruence.
  - intros th Hth. apply Hwl. rewrite <- Ht1. exact Hth.
  - exists b, w'. split; [exact E'|]. split; [|split; [by etrans|]; split; [by rewrite Hc'|]; split; [by rewrite Ht'|]].
    + cbn [killed_log]. rewrite <- (Hms m) by (apply elem_of_cons; auto). by rewrite Hm.
    + split; [intros u m'; rewrite Hh', Hh2, not_elem_of_cons; tauto|]. split.
      * intros m' [->|Hm']%elem_of_cons; [|auto]. destruct (Hn' m Hnm) as [Em Es]. split; [|exact (still_nobody _ _ _ Hs' Hno1)].
        rewrite Em, Es. subst w2. simpl. rewrite !lookup_insert_eq. eexists _, _. by repeat (split; [done|]).
      * split; [|etrans; [exact Hsw1|exact Hs']].
        intros m' [Hne Hm']%not_elem_of_cons. destruct (Hn' m' Hm') as [-> ->]. subst w2. simpl. by rewrite !lookup_insert_ne.
Qed.

(** ** The invariant *)

(** The header that a reference of a waiting call points to is there. *)
Definition valid_ref (ms : gmap Z mutex) (r : Z) : Prop :=
  Z.even r = true /\ is_Some (ms !! r) \/ Z.even r = false /\ is_Some (ms !! (r - 1)).
(** A kept delay, and none for a thread that is not suspended. *)
Definition delay_ok (th : thread) : Prop :=
  -2147483648 <= th_resume_time th < 2147483648 /\ (th_state th ≠ THREAD_SUSPENDED -> th_resume_time th <= 0).

Record life_inv (l : life) : Prop := {
  li_x : xinv (l_world l) (x_calls (l_mutex l)) (x_log (l_mutex l)) None;
  li_even : ∀ m, is_Some (mutexes (l_world l) !! m) -> Z.even m = true;
  li_block : ∀ t th, threads (l_kern l) !! t = Some th ->
    Forall (valid_ref (mutexes (l_world l))) (th_wait_refs th) /\ undecided th /\ delay_ok th;
  li_held : ∀ t, NoDup (held_by (l_world l) t);
  li_queue : NoDup (l_defunct l);
  li_defunct : ∀ t, t ∈ l_defunct l <-> ∃ th, threads (l_kern l) !! t = Some th /\ th_state th = THREAD_TERMINATED;
  li_dead : ∀ t th, threads (l_kern l) !! t = Some th -> th_state th = THREAD_TERMINATED ->
    x_calls (l_mutex l) !! t = None /\ held_by (l_world l) t = []
}.

Lemma valid_ref_dom ms ms' r : dom ms' = dom ms -> valid_ref ms r -> valid_ref ms' r.
Proof. intros E. unfold valid_ref. by rewrite <- !elem_of_dom, E. Qed.
Lemma view_some w w' m : mutex_view w' m = mutex_view w m -> is_Some (mutexes w' !! m) <-> is_Some (mutexes w !! m).
Proof. unfold mutex_view. destruct (mutexes w' !! m), (mutexes w !! m); simpl; intros E; (split; intros [? ?]; simplify_eq; eauto). Qed.
Lemma view_dom w w' : (∀ m, mutex_view w' m = mutex_view w m) -> dom (mutexes w') = dom (mutexes w).
Proof. intros H. apply set_eq. intros m. rewrite !elem_of_dom. by apply view_some. Qed.

Lemma outside_terminated th th' : outside th \/ outside th' -> th_state th' = th_state th ->
  th_state th' = THREAD_TERMINATED <-> th_state th = THREAD_TERMINATED.
Proof. intros _ ->. done. Qed.
Lemma moves_terminated V th th' : moves V th th' -> th_state th' = THREAD_TERMINATED <-> th_state th = THREAD_TERMINATED.
Proof. intros [H _ _ _]. unfold outside in H. split; intros E; [rewrite <- E; symmetry; apply H|rewrite <- E; apply H]; tauto. Qed.
Lemma moves_block V (ms' : gmap Z mutex) th th' :
  (∀ r, V r -> valid_ref ms' r) -> moves V th th' -> Forall V (th_wait_refs th) /\ undecided th /\ delay_ok th ->
  Forall (valid_ref ms') (th_wait_refs th') /\ undecided th' /\ delay_ok th'.
Proof.
  intros HV [M1 M2 M3 M4] (H1 & H2 & H3 & H4). split; [|split; [auto|split; [by rewrite M2|]]].
  - eapply Forall_impl; [exact HV|exact (M3 H1)].
  - intros Hs. rewrite M2. apply H4. intros E. apply Hs. rewrite M1; [done|]. left. by left.
Qed.

(** What becomes of the threads other than [t]. *)
Definition others (V : Z -> Prop) (t : Z) (k k' : kernel) : Prop :=
  ∀ u th, u ≠ t -> threads k !! u = Some th -> ∃ th', threads k' !! u = Some th' /\ moves V th th'.
#[export] Instance others_preorder V t : PreOrder (others V t).
Proof.
  split; [intros k u th _ Hu; by exists th|]. intros k1 k2 k3 A B u th Hne Hu. destruct (A u th Hne Hu) as (th2 & H2 & M2).
  destruct (B u th2 Hne H2) as (th3 & H3 & M3). exists th3. split; [done|by etrans].
Qed.
Lemma evolves_moves V k k' u th : evolves V k k' -> threads k !! u = Some th -> ∃ th', threads k' !! u = Some th' /\ moves V th th'.
Proof. intros [Ha Hm] Hu. destruct (Ha u) as [th' Hu']; [eauto|]. exists th'. split; [done|]. specialize (Hm u th' Hu'). by rewrite Hu in Hm. Qed.
Lemma keeps_others V c t w w' : keeps V c w w' -> others V t (w_kern w) (w_kern w').
Proof. intros K u th _ Hu. eapply evolves_moves; [apply K|done]. Qed.
Lemma changes_others V t w w' : changes V t w w' -> others V t (w_kern w) (w_kern w').
Proof. intros C u th Hne Hu. destruct (proj2 (ch_alive _ _ _ _ C u)) as [th' Hu']; [eauto|]. exists th'. split; [done|]. by apply (ch_moves _ _ _ _ C u). Qed.
Lemma changes_still V t w w' : changes V t w w' -> still_waits (w_kern w) (w_kern w').
Proof. intros C u th' Hu Hn. destruct (proj1 (ch_alive _ _ _ _ C u)) as [th H]; [eauto|]. exists th. split; [done|]. by apply (ch_waits _ _ _ _ C u). Qed.

(** A step of the mutexes. *)
Lemma life_keeps l c w' calls' log' :
  life_inv l -> keeps (valid_ref (mutexes (l_world l))) c (l_world l) w' -> xinv w' calls' log' None ->
  (∀ t th, threads (l_kern l) !! t = Some th -> th_state th = THREAD_TERMINATED -> c ≠ Some t /\ calls' !! t = x_calls (l_mutex l) !! t) ->
  life_inv (mk_life (mk_lmachine w' calls' log') (l_defunct l)).
Proof.
  intros [I1 I2 I3 I4 I5 I6 I7] [[Ka Km] Kd Kh Kn] Hi Hdead. set (V := valid_ref (mutexes (l_world l))) in *.
  assert (∀ r, V r -> valid_ref (mutexes w') r) as HV by (intros r; by apply valid_ref_dom).
  assert (∀ t, (∃ th, threads (w_kern w') !! t = Some th /\ th_state th = THREAD_TERMINATED) <->
               (∃ th, threads (l_kern l) !! t = Some th /\ th_state th = THREAD_TERMINATED)) as Hterm.
  { intros t. split.
    - intros (th' & E' & Hst). specialize (Km t th' E'). change (w_kern (l_world l)) with (l_kern l) in Km.
      destruct (threads (l_kern l) !! t) as [th|]; [exists th; split; [done|by apply (moves_terminated _ _ _ Km)]|].
      destruct Km as [Ho _]. destruct Ho. by right.
    - intros (th & E & Hst). destruct (Ka t) as [th' E']; [eauto|]. exists th'. split; [done|]. specialize (Km t th' E').
      change (w_kern (l_world l)) with (l_kern l) in Km. rewrite E in Km. by apply (moves_terminated _ _ _ Km). }
  split; cbn [l_world l_mutex l_defunct x_world x_calls x_log l_kern]; auto.
  - intros m Hm. apply I2. apply elem_of_dom. rewrite <- Kd. by apply elem_of_dom.
  - intros t th' E'. specialize (Km t th' E'). change (w_kern (l_world l)) with (l_kern l) in Km.
    destruct (threads (l_kern l) !! t) as [th|] eqn:E; [eapply moves_block; [exact HV|exact Km|by apply (I3 t)]|].
    destruct Km as (Ho & Hr & Hrefs & Hu). split; [eapply Forall_impl; [exact HV|exact Hrefs]|]. split; [done|]. unfold delay_ok. rewrite Hr. split; [lia|lia].
  - intros t. rewrite I6. symmetry. apply Hterm.
  - intros t th' E' Hst. destruct (proj1 (Hterm t)) as (th & E & Hst0); [eauto|]. destruct (Hdead t th E Hst0) as [Hc ->].
    destruct (I7 t th E Hst0) as [-> Hh]. split; [done|]. apply elem_of_nil_inv. intros m Hm. destruct (Kh t m Hm) as [Hm'|]; [|done].
    rewrite Hh in Hm'. by apply not_elem_of_nil in Hm'.
Qed.

(** A step on the block of [t]. *)
Lemma life_changes l w' log' t th' defunct' :
  life_inv l -> changes (valid_ref (mutexes (l_world l))) t (l_world l) w' -> xinv w' (x_calls (l_mutex l)) log' None ->
  threads (w_kern w') !! t = Some th' -> Forall (valid_ref (mutexes (l_world l))) (th_wait_refs th') -> undecided th' -> delay_ok th' ->
  NoDup defunct' -> (∀ u, u ∈ defunct' <-> if decide (u = t) then th_state th' = THREAD_TERMINATED else u ∈ l_defunct l) ->
  (th_state th' = THREAD_TERMINATED -> x_calls (l_mutex l) !! t = None /\ held_by w' t = []) ->
  life_inv (mk_life (mk_lmachine w' (x_calls (l_mutex l)) log') defunct').
Proof.
  intros [I1 I2 I3 I4 I5 I6 I7] [C1 C2 C3 C4 C5 C6] Hi Ht Hr Hu Hd Hnd Hq Hdead. set (V := valid_ref (mutexes (l_world l))) in *.
  pose proof (view_dom _ _ C4) as Kd. assert (∀ r, V r -> valid_ref (mutexes w') r) as HV by (intros r; by apply valid_ref_dom).
  split; cbn [l_world l_mutex l_defunct x_world x_calls x_log l_kern]; auto.
  - intros m Hm. apply I2. apply elem_of_dom. rewrite <- Kd. by apply elem_of_dom.
  - intros u thu E'. change (threads (w_kern w') !! u = Some thu) in E'. destruct (decide (u = t)) as [->|Hne].
    + simplify_eq. split; [eapply Forall_impl; [exact HV|exact Hr]|done].
    + destruct (proj1 (C1 u)) as [th E]; [eauto|]. eapply moves_block; [exact HV|by eapply C2|by apply (I3 u)].
  - intros u. change (l_world _) with w'. rewrite C5. apply I4.
  - intros u. rewrite Hq. change (l_kern _) with (w_kern w'). destruct (decide (u = t)) as [->|Hne]; [rewrite Ht; naive_solver|].
    rewrite I6. split.
    + intros (th & E & Hst). destruct (proj2 (C1 u)) as [thu E']; [eauto|]. exists thu. split; [done|]. by apply (moves_terminated _ _ _ (C2 _ _ _ Hne E E')).
    + intros (thu & E' & Hst). destruct (proj1 (C1 u)) as [th E]; [eauto|]. exists th. split; [done|]. by apply (moves_terminated _ _ _ (C2 _ _ _ Hne E E')).
  - intros u thu E' Hst. change (threads (w_kern w') !! u = Some thu) in E'. change (l_world _) with w'.
    destruct (decide (u = t)) as [->|Hne]; [simplify_eq; auto|]. rewrite C5.
    destruct (proj1 (C1 u)) as [th E]; [eauto|]. apply (I7 u th E). by apply (moves_terminated _ _ _ (C2 _ _ _ Hne E E')).
Qed.

Section life.
Context (time_slice long_time : bool).
Let step := life_step time_slice long_time.

Lemma thread_suspend_step l t : life_inv l -> is_Some (threads (l_kern l) !! t) -> ∃ l', step l (LSuspend t) = Some l' /\ life_inv l'.
Proof.
  intros Hl [th Ht]. pose proof (li_x _ Hl) as Hi. destruct (li_block _ Hl _ _ Ht) as (Hr & Hu & Hd).
  destruct (suspend_ok (valid_ref (mutexes (l_world l))) (l_world l) _ _ t th Hi Ht Hu) as (rc & w' & E & Hi' & C & Hcase).
  unfold step, life_step. change (x_world (l_mutex l)) with (l_world l). rewrite E. cbn [mbind option_bind]. eexists. split; [done|].
  assert (w' = l_world l -> life_inv (mk_life (mk_lmachine w' (x_calls (l_mutex l)) (x_log (l_mutex l))) (l_defunct l))) as Hsame.
  { intros ->. unfold l_world. by destruct l as [[] ?]. }
  destruct Hcase as [(_ & Ew & _)|[(_ & Ew & _)|(_ & th' & Ht' & (F1 & F2 & F3 & F4 & _) & Hrt)]]; [by apply Hsame..|].
  apply (life_changes l w' _ t th'); try done.
  - by rewrite F3.
  - split; [|by rewrite F1]. destruct Hrt as [[_ ->]|(_ & r & _ & ->)]; [apply Hd|]. unfold s32. case_match; pose proof (Z.mod_pos_bound r 4294967296 ltac:(lia)); unfold u32 in *; lia.
  - apply Hl.
  - intros u. destruct (decide (u = t)) as [->|]; [|done]. rewrite (li_defunct _ Hl). rewrite F1. split; [|done]. intros (th0 & Ht0 & Est).
    assert (th0 = th) as -> by congruence. destruct Hrt as [[Hr' _]|[Hb _]]; [by rewrite Est in Hr'|congruence].
  - by rewrite F1.
Qed.

Lemma thread_resume_step l t : life_inv l -> is_Some (threads (l_kern l) !! t) -> ∃ l', step l (LResume t) = Some l' /\ life_inv l'.
Proof.
  intros Hl [th Ht]. pose proof (li_x _ Hl) as Hi. destruct (li_block _ Hl _ _ Ht) as (Hr & Hu & Hd).
  destruct (resume_ok (valid_ref (mutexes (l_world l))) (l_world l) _ _ t th Hi Ht (proj1 Hd)) as (rc & k' & E & Hi' & C & Hcase).
  unfold step, life_step. change (x_world (l_mutex l)) with (l_world l). rewrite E. cbn [mbind option_bind]. eexists. split; [done|].
  destruct (decide (th_state th = THREAD_SUSPENDED)) as [Es|Es].
  2:{ destruct Hcase as [_ ->]. rewrite set_kern_eta. unfold l_world. by destruct l as [[] ?]. }
  destruct Hcase as (_ & _ & th' & Ht' & Hres). unfold resumed in Hres.
  apply (life_changes l (w_set_kern (l_world l) k') _ t th'); try done.
  - by destruct (_ >? 0); subst th'.
  - by destruct (_ >? 0); subst th'.
  - destruct (Z.gtb_spec (th_resume_time th) 0); subst th'; (split; [|simpl; lia]); [simpl; lia|apply Hd].
  - apply Hl.
  - intros u. destruct (decide (u = t)) as [->|]; [|done]. rewrite (li_defunct _ Hl). split.
    + intros (th0 & Ht0 & Est). assert (th0 = th) as -> by congruence. congruence.
    + by destruct (_ >? 0); subst th'.
  - by destruct (_ >? 0); subst th'.
Qed.

End life.

(** An exit: the mutexes are free, the thread is in the queue of the terminated ones. *)
Lemma thread_exit_ok l c :
  life_inv l -> current_thread (l_kern l) = Some c -> may_call (l_kern l) -> x_calls (l_mutex l) !! c = None -> ends_well (l_world l) c ->
  ∃ w', mini_os_thread_exit (l_world l) (l_defunct l) = Some (w', l_defunct l ++ [c]) /\
    life_inv (mk_life (mk_lmachine w' (x_calls (l_mutex l)) (killed_log (mutexes (l_world l)) c (held_by (l_world l) c) (x_log (l_mutex l)))) (l_defunct l ++ [c])) /\
    (∀ m, m ∈ held_by (l_world l) c -> mutex_free w' m) /\ others (valid_ref (mutexes (l_world l))) c (l_kern l) (w_kern w').
Proof.
  intros Hl Hc Hm Hcall Hend. pose proof (li_x _ Hl) as Hi. set (w := l_world l) in *. set (log' := killed_log _ _ _ _).
  set (V := valid_ref (mutexes w)).
  destruct (wf_current _ (xi_wf _ _ _ _ Hi) _ Hc) as [th Ht]. pose proof (caller_runs _ _ _ Hm Hc Ht) as Hst.
  pose proof (caller_free _ _ _ _ _ _ Hi Hm Hc Ht) as Hwl.
  unfold mini_os_thread_exit. change (w_kern w) with (l_kern l). rewrite Hc. cbn [mbind option_bind mini_os_mutex_kill_held].
  destruct (kill_held_ok V c (mutexes w) (held_by w c) w (x_calls (l_mutex l)) (x_log (l_mutex l)) false Hi (li_held _ Hl c))
    as (b & w1 & -> & Hi1 & K1 & Hc1 & Ht1 & Hh1 & Hf1 & _); [done| | |].
  { intros m Hmh. destruct (proj1 (xi_held _ _ _ _ Hi c m) Hmh) as (mx & Hmx & Ho). exists mx. split; [done|]. split; [done|]. intros u thu Hu Hwu. eauto. }
  { intros th0 Hth0. assert (th0 = th) as -> by congruence. done. }
  cbn [mbind option_bind]. change (threads (w_kern w)) with (threads (l_kern l)) in Ht1. change (threads (w_kern w)) with (threads (l_kern l)) in Ht. rewrite Ht in Ht1.
  fold log' in Hi1.
  assert (life_inv (mk_life (mk_lmachine w1 (x_calls (l_mutex l)) log') (l_defunct l))) as Hl1.
  { apply (life_keeps l None w1 _ log' Hl K1 Hi1). done. }
  destruct (detach_spec _ _ _ (xi_wf _ _ _ _ Hi1) Ht1) as (k2 & -> & Ha & Hf & _); [by rewrite Hst|]. cbn [mbind option_bind].
  rewrite (frame_lookup _ _ _ _ Hf). cbn [mbind option_bind]. set (th' := th_set_state th THREAD_TERMINATED).
  destruct (rest_ok V w1 _ _ None k2 c th th th' Hi1 Ht1 Hwl Ha Hf) as [Hi2 C2]; try done; try apply (wf_threads _ (xi_wf _ _ _ _ Hi1) _ _ Ht1).
  { by right. } { refine (running_slot _ _ _ (xi_wf _ _ _ _ Hi1) Ht1 _). by rewrite Hst. }
  set (k3 := set_thread k2 c th') in *. unfold mini_os_defunct_list_insert.
  assert (c ∉ l_defunct l) as Hnq.
  { intros Hin. apply (li_defunct _ Hl) in Hin as (th0 & Ht0 & Es). assert (th0 = th) as -> by congruence. congruence. }
  assert (home k3 c = None) as Hh3.
  { change (home k3 c) with (home k2 c). rewrite (home_spec _ _ _ (wa_placed _ _ _ _ Ha)). by rewrite fn_lookup_insert. }
  rewrite Hh3, (bool_decide_false (c ∈ l_defunct l)), bool_decide_true by done. cbn [orb negb mbind option_bind].
  eexists. split; [done|]. split; [|split].
  2:{ intros m Hmh. destruct (Hf1 m Hmh) as [Hfree Hno]. split; [exact Hfree|]. exact (still_nobody _ _ _ (changes_still _ _ _ _ C2) Hno). }
  2:{ etrans; [exact (keeps_others _ _ _ _ _ K1)|exact (changes_others _ _ _ _ C2)]. }
  assert (threads k3 !! c = Some th') as Ht3 by apply lookup_insert_eq.
  destruct (li_block _ Hl c th Ht) as (Hr & Hu & Hd).
  apply (life_changes (mk_life (mk_lmachine w1 (x_calls (l_mutex l)) log') (l_defunct l)) _ log' c th').
  - exact Hl1.
  - apply changes_yield.
    assert (mutexes (l_world (mk_life (mk_lmachine w1 (x_calls (l_mutex l)) log') (l_defunct l))) = mutexes w1) as -> by done.
    destruct (rest_ok (valid_ref (mutexes w1)) w1 _ _ None k2 c th th th' Hi1 Ht1 Hwl Ha Hf) as [_ C3]; try done; try apply (wf_threads _ (xi_wf _ _ _ _ Hi1) _ _ Ht1).
    { by right. } { refine (running_slot _ _ _ (xi_wf _ _ _ _ Hi1) Ht1 _). by rewrite Hst. }
  - by apply xinv_yield.
  - exact Ht3.
  - eapply Forall_impl; [intros r; apply valid_ref_dom|exact Hr]. apply K1.
  - intros Hn. by destruct Hn.
  - split; [apply Hd|]. intros _. apply Hd. by rewrite Hst.
  - apply list.NoDup_app. split; [apply Hl|]. split; [|apply NoDup_singleton]. intros x Hx. rewrite list_elem_of_singleton. intros ->. done.
  - intros u. rewrite elem_of_app, list_elem_of_singleton. cbn [l_defunct]. destruct (decide (u = c)) as [->|]; [|naive_solver]. split; [done|auto].
  - intros _. split; [done|]. apply elem_of_nil_inv. intros m Hin.
    change (m ∈ held_by w1 c) in Hin. apply Hh1 in Hin. tauto.
Qed.

(** The storage of a thread that is in no list goes away. *)
Lemma wf_drop k t th : wf k -> threads k !! t = Some th -> place th = None -> th_wait_list th = None -> current_thread k ≠ Some t -> wf (drop_thread k t).
Proof.
  intros [H1 H2 H3 H4 H5 H6] Ht Hp Hw Hc. split; try done.
  - eapply placed_linked; [|eapply placed_ext; [|exact H1]]; [done|]. intros u. unfold place_of. simpl. destruct (decide (u = t)) as [->|].
    + by rewrite lookup_delete_eq, Ht.
    + by rewrite lookup_delete_ne.
  - eapply waiting_lists; [|eapply waiting_ext; [|exact H2]]; [done|]. intros u. unfold wait_of. simpl. destruct (decide (u = t)) as [->|].
    + by rewrite lookup_delete_eq, Ht.
    + by rewrite lookup_delete_ne.
  - simpl. intros u thu. rewrite lookup_delete_Some. intros [_ Hu]. eauto.
  - simpl. intros c Hcc. rewrite lookup_delete_ne by congruence. eauto.
Qed.
Lemma xinv_drop w calls log t th :
  xinv w calls log None -> threads (w_kern w) !! t = Some th -> place th = None -> th_wait_list th = None -> current_thread (w_kern w) ≠ Some t ->
  calls !! t = None -> held_by w t = [] -> xinv (w_set_kern w (drop_thread (w_kern w) t)) calls log None.
Proof.
  intros [I1 I2 I3 I4 I5 I6 I7 I8] Ht Hp Hwl Hc Hcall Hh. set (k' := drop_thread (w_kern w) t).
  assert (∀ u, u ≠ t -> threads k' !! u = threads (w_kern w) !! u) as Hne by (intros u Hu; simpl; by rewrite lookup_delete_ne).
  assert (threads k' !! t = None) as Heq by (simpl; by rewrite lookup_delete_eq).
  split; change (w_kern (w_set_kern w k')) with k'; try done.
  - by eapply wf_drop.
  - intros u thu Hu. destruct (decide (u = t)) as [->|]; [congruence|]. rewrite Hne in Hu by done. by apply (I2 u).
  - intros m mx Hm. destruct (I3 _ _ Hm) as (sm & Hs & [M1 M2 M3 M4 (loc & H1 & H2 & H3)]). exists sm. split; [done|]. split; try done.
    + destruct (mx_owner mx) as [o|] eqn:Eo; [|done]. destruct M4 as (Ho & ? & ?). split; [|done].
      change (is_Some (threads k' !! o)). rewrite Hne; [done|]. intros ->. assert (m ∈ held_by w t) as Hin by (apply I4; eauto).
      rewrite Hh in Hin. by apply not_elem_of_nil in Hin.
    + exists loc. split; [done|]. split; [|done]. intros u Hf. apply H2. unfold flight in *.
      destruct (decide (u = t)) as [->|]; [by rewrite Hcall in Hf|]. change (w_kern (w_set_kern w k')) with k' in Hf. by rewrite Hne in Hf.
  - intros u thu m Hu. destruct (decide (u = t)) as [->|]; [congruence|]. rewrite Hne in Hu by done. by apply I5.
  - intros u p Hp'. destruct (I6 _ _ Hp') as (Hok & thu & Hu & Hx). split; [done|]. exists thu. split; [|done].
    change (threads k' !! u = Some thu). rewrite Hne; [done|]. intros ->. congruence.
Qed.
Lemma life_drop w calls log defunct t th :
  life_inv (mk_life (mk_lmachine w calls log) defunct) -> threads (w_kern w) !! t = Some th -> place th = None -> th_wait_list th = None ->
  current_thread (w_kern w) ≠ Some t -> calls !! t = None -> held_by w t = [] ->
  life_inv (mk_life (mk_lmachine (w_set_kern w (drop_thread (w_kern w) t)) calls log) (filter (λ x, x ≠ t) defunct)).
Proof.
  intros [I1 I2 I3 I4 I5 I6 I7] Ht Hp Hwl Hc Hcall Hh. unfold l_kern in *. cbn [l_world l_mutex l_defunct x_world x_calls x_log] in *.
  assert (∀ u thu, threads (drop_thread (w_kern w) t) !! u = Some thu <-> u ≠ t /\ threads (w_kern w) !! u = Some thu) as Hd.
  { intros u thu. simpl. rewrite lookup_delete_Some. naive_solver. }
  split; unfold l_kern; cbn [l_world l_mutex l_defunct x_world x_calls x_log]; auto.
  - by eapply xinv_drop.
  - intros u thu Hu. apply Hd in Hu as [_ Hu]. by apply (I3 u).
  - by apply list.NoDup_filter.
  - intros u. rewrite list_elem_of_filter, I6. change (w_kern (w_set_kern w (drop_thread (w_kern w) t))) with (drop_thread (w_kern w) t).
    setoid_rewrite Hd. naive_solver.
  - intros u thu Hu. apply Hd in Hu as [_ Hu]. by apply (I7 u thu).
Qed.

(** The idle thread frees all of them. *)
Lemma defunct_loop_ok calls log nodes : ∀ w,
  life_inv (mk_life (mk_lmachine w calls log) nodes) -> (∀ c th, current_thread (w_kern w) = Some c -> threads (w_kern w) !! c = Some th -> th_state th ≠ THREAD_TERMINATED) ->
  ∃ k', defunct_loop (w_kern w) nodes = Some k' /\ life_inv (mk_life (mk_lmachine (w_set_kern w k') calls log) []) /\
    ∀ u, u ∉ nodes -> threads k' !! u = threads (w_kern w) !! u.
Proof.
  induction nodes as [|t nodes IH]; intros w Hl Hc; cbn [defunct_loop].
  { exists (w_kern w). rewrite set_kern_eta. by repeat (split; [done|]). }
  pose proof (proj1 (li_defunct _ Hl t) ltac:(apply elem_of_cons; auto)) as (th & Ht & Hst). unfold l_kern in Ht. cbn [l_world l_mutex x_world] in Ht.
  rewrite Ht. cbn [mbind option_bind]. pose proof (li_x _ Hl) as Hi. cbn [l_world l_mutex x_world x_calls x_log] in Hi.
  pose proof (wf_threads _ (xi_wf _ _ _ _ Hi) _ _ Ht) as Hok. destruct (li_dead _ Hl t th Ht Hst) as [Hcall Hh].
  assert (th_wait_list th = None) as Hwl by (destruct (th_wait_list th) eqn:El; [|done]; pose proof (to_wait _ _ _ Hok ltac:(by rewrite El)); congruence).
  assert (place th = None) as Hp.
  { unfold place. rewrite Hst. cbn [is_ready]. destruct (Z.ltb_spec (th_wheel_slot th) MINI_OS_TICK_WHEEL) as [H|]; [|done]. apply (to_wheel _ _ _ Hok) in H. congruence. }
  pose proof (life_drop w calls log (t :: nodes) t th Hl Ht Hp Hwl) as Hl2.
  rewrite filter_cons_False in Hl2 by auto. pose proof (li_queue _ Hl) as Hnd. cbn [l_defunct] in Hnd. apply list.NoDup_cons in Hnd as [Hn _].
  rewrite filter_ne_not_in in Hl2 by done.
  destruct (IH (w_set_kern w (drop_thread (w_kern w) t))) as (k' & E & Hl' & Hx).
  - apply Hl2; [|done|done]. intros E. by apply (Hc t th).
  - intros c thc Ec Htc. simpl in Htc. apply lookup_delete_Some in Htc as [_ Htc]. by apply (Hc c).
  - exists k'. split; [exact E|]. split; [exact Hl'|]. intros u [Hne Hu]%not_elem_of_cons. rewrite Hx by done. simpl. by rewrite lookup_delete_ne.
Qed.
Lemma idle_ok l :
  life_inv l -> may_call (l_kern l) -> ∃ w', idle_pass None (l_world l) (l_defunct l) = Some (w', []) /\
    life_inv (mk_life (mk_lmachine w' (x_calls (l_mutex l)) (x_log (l_mutex l))) []) /\
    ∀ u, u ∉ l_defunct l -> threads (w_kern w') !! u = threads (l_kern l) !! u.
Proof.
  intros Hl Hm. destruct l as [[w calls log] defunct]. cbn [l_world l_mutex l_defunct x_world x_calls x_log] in *.
  destruct (defunct_loop_ok calls log defunct w Hl) as (k' & E & Hl' & Hx).
  { intros c th Hc Ht. rewrite (caller_runs _ _ _ Hm Hc Ht). done. }
  unfold idle_pass, mini_os_thread_defunct_execute. rewrite E. cbn [mbind option_bind]. eauto.
Qed.

(** ** Deletion *)

(** The first part of a deletion: the thread is in no list, and its state is left as it was. *)
Definition detach_thread (w : world) (t : Z) (th : thread) : option world :=
  if is_ready (th_state th) then
    '(_, k) ← mini_os_remove_thread_from_ready_running_list (w_kern w) (Some t); Some (w_set_kern w k)
  else if bool_decide (th_state th = THREAD_BLOCKED) then mini_os_thread_unlink_blocked w t
  else Some w.

Lemma restate_undo w k t th th' : threads k !! t = Some th -> th_set_state th' (th_state th) = th ->
  w_restate (th_state th) t (w_set_kern w (set_thread k t th')) = w_set_kern w k.
Proof.
  intros Ht E. unfold w_restate. change (w_kern (w_set_kern w (set_thread k t th'))) with (set_thread k t th').
  rewrite restate_insert, set_kern_twice, E. f_equal. unfold set_thread, k_set_threads. rewrite insert_id by done. by destruct k.
Qed.

(** A thread in the wheel that waits for nothing is taken out of it. *)
Lemma unwheel_ok V w calls log t th :
  xinv w calls log None -> threads (w_kern w) !! t = Some th -> th_state th = THREAD_BLOCKED -> th_wait_list th = None ->
  ∃ k ws ths, mini_os_wheel_remove (w_kern w) (Some t) = Some (MINI_OK, k) /\ w_set_kern w k = w_restate THREAD_BLOCKED t ws /\
    xinv ws calls log None /\ changes V t w ws /\ threads (w_kern ws) !! t = Some ths /\ th_state ths = THREAD_SUSPENDED /\ th_wait_list ths = None /\
    th_wheel_slot ths = MINI_OS_TICK_WHEEL /\ th_wait_refs ths = th_wait_refs th /\ th_resume_time ths = th_resume_time th.
Proof.
  intros Hi Ht Hst Hl. pose proof (xi_wf _ _ _ _ Hi) as Hw. pose proof (wf_threads _ Hw _ _ Ht) as Hok.
  unfold mini_os_wheel_remove. rewrite Ht. cbn [mbind option_bind]. rewrite bool_decide_true by done. cbn [negb].
  pose proof (wf_at_of_wf _ _ _ Hw Ht) as Ha. rewrite Hl in Ha. apply wf_at_unlink in Ha.
  2:{ intros q. unfold place. rewrite Hst. simpl. by destruct (_ <? _). }
  set (thb := th_set_wheel_slot (th_set_round th 0) MINI_OS_TICK_WHEEL).
  destruct (rest_ok V w calls log None (unlink (w_kern w) t) t th th (th_set_state thb THREAD_SUSPENDED) Hi Ht Hl Ha) as [Hi' C']; try done; try apply Hok.
  { split; try done. simpl. by rewrite insert_id. } { by left. }
  eexists _, (w_set_kern w (set_thread (unlink (w_kern w) t) t (th_set_state thb THREAD_SUSPENDED))), (th_set_state thb THREAD_SUSPENDED).
  split; [done|]. split.
  - unfold w_restate. change (w_kern (w_set_kern w (set_thread ?k t ?x))) with (set_thread k t x). rewrite restate_insert, set_kern_twice.
    f_equal. f_equal. subst thb. destruct th. simpl in *. by subst.
  - split; [exact Hi'|]. split; [exact C'|]. split; [apply lookup_insert_eq|]. done.
Qed.

Lemma detach_ok V w calls log t th :
  xinv w calls log None -> threads (w_kern w) !! t = Some th -> undecided th ->
  ∃ st ws ths, detach_thread w t th = Some (w_restate st t ws) /\ xinv ws calls log None /\ changes V t w ws /\
    threads (w_kern ws) !! t = Some ths /\ th_state ths = THREAD_SUSPENDED /\ th_wait_list ths = None /\ th_wheel_slot ths = MINI_OS_TICK_WHEEL /\
    th_wait_refs ths = th_wait_refs th /\ th_resume_time ths = th_resume_time th.
Proof.
  intros Hi Ht Hun. pose proof (xi_wf _ _ _ _ Hi) as Hw. pose proof (wf_threads _ Hw _ _ Ht) as Hok. unfold detach_thread.
  destruct (is_ready (th_state th)) eqn:Hr; [|destruct (bool_decide_reflect (th_state th = THREAD_BLOCKED)) as [Eb|Eb]].
  - assert (th_wait_list th = None) as Hl.
    { destruct (th_wait_list th) eqn:El; [|done]. assert (th_state th = THREAD_BLOCKED) as E by (apply (to_wait _ _ _ Hok); by rewrite El). by rewrite E in Hr. }
    destruct (detach_spec _ _ _ Hw Ht Hr) as (k1 & -> & Ha & Hf & _). cbn [mbind option_bind].
    destruct (rest_ok V w calls log None k1 t th th (th_set_state th THREAD_SUSPENDED) Hi Ht Hl Ha Hf) as [Hi' C']; try done; try apply Hok.
    { by left. } { exact (running_slot _ _ _ Hw Ht Hr). }
    exists (th_state th), (w_set_kern w (set_thread k1 t (th_set_state th THREAD_SUSPENDED))), (th_set_state th THREAD_SUSPENDED).
    split; [f_equal; symmetry; apply restate_undo; [by eapply frame_lookup|by destruct th]|].
    split; [done|]. split; [done|]. split; [apply lookup_insert_eq|]. split; [done|]. split; [done|]. split; [exact (running_slot _ _ _ Hw Ht Hr)|done].
  - unfold mini_os_thread_unlink_blocked. destruct (th_wait_list th) as [l|] eqn:El.
    + destruct (leave_wait_ok V w calls log t th false Hi Ht Eb Hun) as (ws & p & Hp & His & Cs & Hcase); [by rewrite El|].
      destruct (Z.ltb_spec (th_wheel_slot th) MINI_OS_TICK_WHEEL) as [Hs|Hs]; destruct Hcase as [-> Hts]; cbn [mbind option_bind].
      * rewrite Hts. cbn [mbind option_bind]. change (th_wheel_slot (left_wait th false p)) with (th_wheel_slot th). rewrite (proj2 (Z.ltb_lt _ _) Hs).
        destruct (unwheel_ok V ws calls log t _ His Hts Eb eq_refl) as (k & ws2 & ths & -> & E & His2 & C2 & Hx). cbn [mbind option_bind].
        exists THREAD_BLOCKED, ws2, ths. split; [by rewrite E|]. split; [done|]. split; [by etrans|]. exact Hx.
      * change (w_kern (w_restate THREAD_BLOCKED t ws)) with (restate THREAD_BLOCKED t (w_kern ws)). rewrite restate_eq, Hts. cbn [mbind option_bind fmap option_fmap option_map].
        change (th_wheel_slot (th_set_state (th_set_state (left_wait th false p) THREAD_SUSPENDED) THREAD_BLOCKED)) with (th_wheel_slot th).
        destruct (Z.ltb_spec (th_wheel_slot th) MINI_OS_TICK_WHEEL); [lia|]. exists THREAD_BLOCKED, ws, (th_set_state (left_wait th false p) THREAD_SUSPENDED).
        split; [done|]. split; [done|]. split; [done|]. split; [done|]. split; [done|]. split; [done|]. split; [|done]. simpl. destruct Hok. lia.
    + assert (leave_wait w t false = Some w) as -> by (unfold leave_wait; rewrite Ht; cbn [mbind option_bind]; by rewrite El). cbn [mbind option_bind].
      rewrite Ht. cbn [mbind option_bind]. destruct (to_blocked _ _ _ Hok Eb) as [Hs|Hs]; [|by rewrite El in Hs]. rewrite (proj2 (Z.ltb_lt _ _) Hs).
      destruct (unwheel_ok V w calls log t th Hi Ht Eb El) as (k & ws2 & ths & -> & E & His2 & C2 & Hx). cbn [mbind option_bind].
      exists THREAD_BLOCKED, ws2, ths. split; [by rewrite E|]. auto.
  - assert (th_wait_list th = None) as Hl by (destruct (th_wait_list th) eqn:El; [|done]; by destruct Eb; apply (to_wait _ _ _ Hok); rewrite El).
    assert (th_wheel_slot th = MINI_OS_TICK_WHEEL) as Hs.
    { destruct Hok. destruct (Z.lt_ge_cases (th_wheel_slot th) MINI_OS_TICK_WHEEL) as [H|]; [|lia]. by apply to_wheel in H. }
    pose proof (wf_at_of_wf _ _ _ Hw Ht) as Ha. rewrite Hl in Ha. unfold place in Ha. rewrite Hr, Hs in Ha. simpl in Ha.
    destruct (rest_ok V w calls log None (w_kern w) t th th (th_set_state th THREAD_SUSPENDED) Hi Ht Hl Ha) as [Hi' C']; try done; try apply Hok.
    { split; try done. by rewrite insert_id. } { by left. }
    exists (th_state th), (w_set_kern w (set_thread (w_kern w) t (th_set_state th THREAD_SUSPENDED))), (th_set_state th THREAD_SUSPENDED).
    split; [f_equal; rewrite restate_undo; [by rewrite set_kern_eta|done|by destruct th]|].
    split; [done|]. split; [done|]. split; [apply lookup_insert_eq|]. done.
Qed.

(** The references of its calls are dropped. *)
Lemma drop_restate s t refs : ∀ w, drop_loop (w_restate s t w) t refs = w_restate s t <$> drop_loop w t refs.
Proof.
  assert (∀ w r, release_ref (w_restate s t w) r = w_restate s t <$> release_ref w r) as Hrel.
  { intros w r. unfold release_ref. change (mutexes (w_restate s t w)) with (mutexes w). destruct (mutexes w !! (r - 1)) as [mx|] eqn:Hm.
    - unfold mutex_release. change (mutexes (w_restate s t w)) with (mutexes w). rewrite Hm. cbn [mbind option_bind].
      destruct (mini_os_obj_release (mx_obj mx)) as [[] o]; done.
    - unfold sem_release. change (sems (w_sync (w_restate s t w))) with (sems (w_sync w)). destruct (sems (w_sync w) !! r) as [sm|]; [|done].
      cbn [mbind option_bind]. destruct (mini_os_obj_release (sem_obj sm)) as [[] o]; done. }
  induction refs as [|r refs IH]; intros w; [done|]. cbn [drop_loop]. change (w_kern (w_restate s t w)) with (restate s t (w_kern w)).
  rewrite restate_eq. destruct (threads (w_kern w) !! t) as [th|]; [|done]. cbn [mbind option_bind fmap option_fmap option_map].
  change (mini_os_sync_wait_ref_pop (th_set_state th s)) with (th_set_state (mini_os_sync_wait_ref_pop th) s). rewrite restate_self.
  change (w_set_kern (w_restate s t w) (restate s t (set_thread (w_kern w) t (mini_os_sync_wait_ref_pop th))))
    with (w_restate s t (w_set_kern w (set_thread (w_kern w) t (mini_os_sync_wait_ref_pop th)))). rewrite Hrel.
  destruct (release_ref _ r) as [w1|]; [|done]. cbn [mbind option_bind fmap option_fmap option_map]. apply IH.
Qed.
Lemma release_flags o r o' : mini_os_obj_release o = (r, o') -> obj_flags o' = obj_flags o.
Proof. unfold mini_os_obj_release. destruct (_ >? 0); intros [= _ <-]; done. Qed.

Lemma drop_ok V t ms refs : ∀ w calls log th,
  xinv w calls log None -> dom (mutexes w) = dom ms -> (∀ m, is_Some (ms !! m) -> Z.even m = true) -> threads (w_kern w) !! t = Some th -> Forall (valid_ref ms) refs ->
  ∃ w' th', drop_loop w t refs = Some w' /\ xinv w' calls log None /\ changes V t w w' /\ threads (w_kern w') !! t = Some th' /\
    th_state th' = th_state th /\ th_wait_list th' = th_wait_list th /\ th_wheel_slot th' = th_wheel_slot th /\ th_resume_time th' = th_resume_time th /\
    (Forall (valid_ref ms) (th_wait_refs th) -> Forall (valid_ref ms) (th_wait_refs th')).
Proof.
  induction refs as [|r refs IH]; intros w calls log th Hi Hd Hev Ht Hr; cbn [drop_loop]; [by exists w, th|].
  apply list.Forall_cons_1 in Hr as [Hr Hrs]. rewrite Ht. cbn [mbind option_bind]. set (th1 := mini_os_sync_wait_ref_pop th).
  set (w1 := w_set_kern w (set_thread (w_kern w) t th1)).
  assert (xinv w1 calls log None) as Hi1.
  { apply (xinv_set_thread w calls log None t th th1); try done; [by left|]. apply (xi_base _ _ _ _ Hi _ _ Ht). }
  assert (changes V t w w1) as C1 by (apply (frame_changes V t w _ th th1); [apply frame_set|done|by right]).
  assert (∀ m, is_Some (mutexes w1 !! m) <-> is_Some (ms !! m)) as Hd1 by (intros m; by rewrite <- !elem_of_dom, <- Hd).
  assert (∃ w2, release_ref w1 r = Some w2 /\ xinv w2 calls log None /\ changes V t w1 w2 /\ w_kern w2 = w_kern w1) as (w2 & -> & Hi2 & C2 & Ek2).
  { unfold release_ref. destruct Hr as [[He Hm]|[Ho Hm]].
    - assert (mutexes w1 !! (r - 1) = None) as ->.
      { destruct (mutexes w1 !! (r - 1)) eqn:E; [|done]. assert (Z.even (r - 1) = true) as He' by (apply Hev, Hd1; eauto).
        rewrite Z.even_sub, He in He'. done. }
      apply Hd1 in Hm as [mx Hm]. destruct (xi_mutex _ _ _ _ Hi1 _ _ Hm) as (sm & Hs & [_ [_ Hds] _ _ _]).
      destruct (sem_release_alive (w_sync w1) r sm Hs Hds) as (o & -> & Ho). cbn [mbind option_bind]. eexists. split; [done|].
      rewrite set_sem_world. split; [apply xinv_sem_obj; eauto|]. split; [|done].
      split; try done. { intros u th0 th0' _ E1 E2. change (threads (w_kern w1) !! u = Some th0') in E2. by simplify_eq. }
      intros u th0 th0' E1 E2 _. change (threads (w_kern w1) !! u = Some th0') in E2. by simplify_eq.
    - apply Hd1 in Hm as [mx Hm]. rewrite Hm. destruct (mutex_release_ok w1 calls log None (r - 1) Hi1) as (w2 & E & Hi2); [eauto|].
      exists w2. split; [done|]. split; [done|]. unfold mutex_release in E. rewrite Hm in E. cbn [mbind option_bind] in E.
      destruct (xi_mutex _ _ _ _ Hi1 _ _ Hm) as (sm & Hs & [_ [Hds _] _ _ _]). destruct (release_alive _ Hds) as (o & Eo & _).
      rewrite Eo in E. injection E as <-. split; [|done].
      split; try done; [intros u th0 th0' _ E1 E2|intros u th0 th0' E1 E2 _|].
      + change (threads (w_kern w1) !! u = Some th0') in E2. by simplify_eq.
      + change (threads (w_kern w1) !! u = Some th0') in E2. by simplify_eq.
      + intros m. unfold mutex_view. simpl. destruct (decide (m = r - 1)) as [->|]; [|by rewrite lookup_insert_ne].
        rewrite lookup_insert_eq. change (mutexes w) with (mutexes w1). rewrite Hm. simpl. by rewrite (release_flags _ _ _ Eo). }
  cbn [mbind option_bind].
  destruct (IH w2 calls log th1 Hi2) as (w' & th' & E & Hi' & C' & Ht' & E1 & E2 & E3 & E4 & E5); [|done|by rewrite Ek2; apply lookup_insert_eq|done|].
  - rewrite <- Hd. apply view_dom. intros m. rewrite (ch_mutex _ _ _ _ C2 m). done.
  - exists w', th'. split; [done|]. split; [done|]. split; [etrans; [exact C1|by etrans]|]. split; [done|]. do 4 (split; [done|]).
    intros Hrf. by apply E5, pop_refs.
Qed.

Lemma tear_down_eq w t th : threads (w_kern w) !! t = Some th ->
  tear_down w t = (w ← detach_thread w t th; w ← mini_os_sync_wait_ref_drop_all w (Some t); mini_os_mutex_kill_held w (Some t)).
Proof. intros Ht. unfold tear_down. rewrite Ht. done. Qed.
Lemma killed_log_ext ms ms' t held : ∀ log,
  (∀ m, m ∈ held -> mx_depth <$> ms' !! m = mx_depth <$> ms !! m) -> killed_log ms' t held log = killed_log ms t held log.
Proof.
  induction held as [|m held IH]; intros log H; [done|]. cbn [killed_log]. rewrite IH by (intros; apply H, elem_of_cons; auto).
  specialize (H m ltac:(apply elem_of_cons; auto)). destruct (ms' !! m), (ms !! m); try done. apply (inj Some) in H. by rewrite H.
Qed.
Lemma life_calls w calls log defunct t :
  life_inv (mk_life (mk_lmachine w calls log) defunct) -> xinv w (delete t calls) log None ->
  life_inv (mk_life (mk_lmachine w (delete t calls) log) defunct).
Proof.
  intros [I1 I2 I3 I4 I5 I6 I7] Hi. split; auto. intros u th Hu Hst. destruct (I7 u th Hu Hst) as [Hc Hh]. split; [|done].
  cbn [l_mutex x_calls] in *. destruct (decide (u = t)) as [->|]; [by rewrite lookup_delete_eq|by rewrite lookup_delete_ne].
Qed.
Lemma life_yield w k calls log defunct :
  life_inv (mk_life (mk_lmachine (w_set_kern w k) calls log) defunct) ->
  life_inv (mk_life (mk_lmachine (w_set_kern w (mini_os_schedule_yield k).2) calls log) defunct).
Proof. intros [I1 I2 I3 I4 I5 I6 I7]. split; auto. by apply xinv_yield. Qed.

(** A deletion: the mutexes are free, nothing of the thread is left. *)
Lemma delete_ok l t th :
  life_inv l -> threads (l_kern l) !! t = Some th -> current_thread (l_kern l) ≠ Some t -> th_state th ≠ THREAD_TERMINATED -> ends_well (l_world l) t ->
  ∃ woken w', tear_down (l_world l) t = Some (woken, w') /\
    life_inv (mk_life (mk_lmachine (delete_storage woken w' t) (delete t (x_calls (l_mutex l)))
      (killed_log (mutexes (l_world l)) t (held_by (l_world l) t) (x_log (l_mutex l)))) (l_defunct l)) /\
    (∀ m, m ∈ held_by (l_world l) t -> mutex_free (delete_storage woken w' t) m) /\
    others (valid_ref (mutexes (l_world l))) t (l_kern l) (w_kern (delete_storage woken w' t)) /\
    threads (w_kern (delete_storage woken w' t)) !! t = None.
Proof.
  intros Hl Ht Hc Hst Hend. pose proof (li_x _ Hl) as Hi. set (w := l_world l) in *. set (log' := killed_log _ _ _ _). set (V := valid_ref (mutexes w)).
  set (calls := x_calls (l_mutex l)) in *. set (log := x_log (l_mutex l)) in *. destruct (li_block _ Hl t th Ht) as (Hr & Hu & Hd). fold w in Hr.
  change (threads (w_kern w) !! t = Some th) in Ht. rewrite (tear_down_eq w t th Ht).
  destruct (detach_ok V w calls log t th Hi Ht Hu) as (st & ws & ths & -> & His & Cs & Hts & S1 & S2 & S3 & S4 & S5). cbn [mbind option_bind].
  unfold mini_os_sync_wait_ref_drop_all. change (w_kern (w_restate st t ws)) with (restate st t (w_kern ws)). rewrite restate_eq, Hts.
  cbn [mbind option_bind fmap option_fmap option_map]. change (th_wait_refs (th_set_state ths st)) with (th_wait_refs ths). rewrite drop_restate, S4.
  destruct (drop_ok V t (mutexes w) (th_wait_refs th) ws calls log ths His) as (w2 & th2 & -> & Hi2 & C2 & Ht2 & D1 & D2 & D3 & D4 & D5); [|apply Hl|done|done|].
  { apply view_dom. apply Cs. }
  cbn [mbind option_bind fmap option_fmap option_map mini_os_mutex_kill_held]. pose proof (transitivity Cs C2) as C.
  change (held_by (w_restate st t w2) t) with (held_by w2 t). rewrite kill_held_restate.
  2:{ intros m lm Hlm Hin. destruct (waiter_spec _ _ _ _ (xi_wf _ _ _ _ Hi2) Hlm Hin) as (th0 & H0 & Hw0 & _). assert (th0 = th2) as -> by congruence. congruence. }
  rewrite (ch_held _ _ _ _ C t).
  destruct (kill_held_ok V t (mutexes w2) (held_by w t) w2 calls log false Hi2 (li_held _ Hl t))
    as (b & w3 & -> & Hi3 & K3 & Hc3 & Ht3 & Hh3 & Hf3 & _); [done| | |].
  { intros m Hmh. rewrite <- (ch_held _ _ _ _ C t) in Hmh. destruct (proj1 (xi_held _ _ _ _ Hi2 t m) Hmh) as (mx2 & Hm2 & Ho2). exists mx2.
    split; [done|]. split; [done|]. intros u thu Hthu Hwu. rewrite (ch_held _ _ _ _ C t) in Hmh. pose proof (ch_mutex _ _ _ _ C m) as Hv.
    unfold mutex_view in Hv. rewrite Hm2 in Hv. destruct (mutexes w !! m) as [mx|] eqn:Hm; [|done]. injection Hv as _ _ Hfl.
    destruct (proj1 (ch_alive _ _ _ _ C u)) as [th0 H0]; [eauto|]. pose proof (ch_waits _ _ _ _ C u th0 thu H0 Hthu ltac:(by rewrite Hwu)) as Hw0.
    pose proof (Hend m mx u th0 Hmh Hm H0 ltac:(congruence)) as Hk. unfold mini_os_obj_kill_reports_timeout, flag_set in *. by rewrite Hfl. }
  { intros th0 H0. assert (th0 = th2) as -> by congruence. congruence. }
  assert (killed_log (mutexes w2) t (held_by w t) log = log') as El.
  { apply killed_log_ext. intros m _. pose proof (ch_mutex _ _ _ _ C m) as Hv. unfold mutex_view in Hv.
    destruct (mutexes w2 !! m), (mutexes w !! m); try done. injection Hv as _ Hdp _. simpl. by rewrite Hdp. }
  rewrite El in Hi3. cbn [mbind option_bind fmap option_fmap option_map w_restated fst snd]. rewrite Ht2 in Ht3.
  assert (life_inv (mk_life (mk_lmachine w2 calls log) (l_defunct l))) as Hl2.
  { apply (life_changes l w2 log t th2); try done.
    - by apply D5; rewrite S4.
    - intros Hn. congruence.
    - split; [rewrite D4, S5; apply Hd|congruence].
    - apply Hl.
    - intros u. destruct (decide (u = t)) as [->|]; [|done]. rewrite (li_defunct _ Hl). split; [|congruence]. intros (th0 & H0 & Es).
      change (threads (w_kern w) !! t = Some th0) in H0. congruence.
    - congruence. }
  assert (life_inv (mk_life (mk_lmachine w3 calls log') (l_defunct l))) as Hl3.
  { apply (life_keeps (mk_life (mk_lmachine w2 calls log) (l_defunct l)) None w3 calls log' Hl2); [|exact Hi3|done].
    destruct K3 as [[Ka Km] Kd Kh Kn]. split; try done. split; [done|]. intros u thu Eu. specialize (Km u thu Eu).
    assert (∀ r, V r <-> valid_ref (mutexes w2) r) as HV by (intros r; split; apply valid_ref_dom; [|symmetry]; apply view_dom, C).
    change (w_kern (l_world (mk_life (mk_lmachine w2 calls log) (l_defunct l)))) with (w_kern w2).
    change (mutexes (l_world (mk_life (mk_lmachine w2 calls log) (l_defunct l)))) with (mutexes w2).
    assert (∀ lr, Forall V lr <-> Forall (valid_ref (mutexes w2)) lr) as HF by (intros lr; split; apply Forall_impl; intros; by apply HV).
    destruct (threads (w_kern w2) !! u).
    - destruct Km as [M1 M2 M3 M4]. split; try done. by rewrite <- !HF.
    - destruct Km as (M1 & M2 & M3 & M4). split; [done|]. split; [done|]. by rewrite <- HF. }
  assert (life_inv (mk_life (mk_lmachine w3 (delete t calls) log') (l_defunct l))) as Hl4.
  { apply life_calls; [done|]. apply (xinv_calls w3 calls _ log' None None t th2); try done.
    - congruence.
    - intros u Hn. by rewrite lookup_delete_ne.
    - intros p. by rewrite lookup_delete_eq.
    - intros m [?|Hf]; [done|]. unfold flight in Hf. by rewrite lookup_delete_eq in Hf. }
  assert (t ∉ l_defunct l) as Hnq.
  { intros Hin. apply (li_defunct _ Hl) in Hin as (th0 & H0 & Es). change (threads (w_kern w) !! t = Some th0) in H0. congruence. }
  pose proof (life_drop w3 (delete t calls) log' (l_defunct l) t th2 Hl4 Ht3) as Hl5. rewrite (filter_ne_not_in _ _ Hnq) in Hl5.
  exists b, (w_restate st t w3). split; [done|]. unfold delete_storage.
  change (w_kern (w_restate st t w3)) with (restate st t (w_kern w3)). rewrite restate_drop.
  assert (life_inv (mk_life (mk_lmachine (w_set_kern w3 (drop_thread (w_kern w3) t)) (delete t calls) log') (l_defunct l))) as Hl6.
  { apply Hl5.
    - unfold place. rewrite D1, S1, D3, S3. done.
    - congruence.
    - rewrite Hc3, (ch_current _ _ _ _ C). exact Hc.
    - by rewrite lookup_delete_eq.
    - apply elem_of_nil_inv. intros m Hin. apply Hh3 in Hin as [Hin Hn]. by rewrite (ch_held _ _ _ _ C t) in Hin. }
  set (k6 := if b then _ else _). assert (threads k6 = delete t (threads (w_kern w3))) as E6 by (subst k6; by destruct b).
  split; [|split; [|split]].
  - subst k6. destruct b; [|exact Hl6]. change (w_set_kern (w_restate st t w3) ?k) with (w_set_kern w3 k). by apply life_yield.
  - intros m Hm. destruct (Hf3 m Hm) as [(mx & sm & H1 & H2 & H3 & H4) Hno]. split; [by exists mx, sm|].
    intros u thu Hlu. change (threads k6 !! u = Some thu) in Hlu. rewrite E6 in Hlu. apply lookup_delete_Some in Hlu as [_ Hlu]. by apply (Hno u).
  - intros u thu Hne Hlu. change (w_kern (w_set_kern _ k6)) with k6. rewrite E6, lookup_delete_ne by done.
    destruct (transitivity (changes_others _ _ _ _ C) (keeps_others _ _ t _ _ K3) u thu Hne Hlu) as (thu' & ? & ?). by exists thu'.
  - change (w_kern (w_set_kern _ k6)) with k6. by rewrite E6, lookup_delete_eq.
Qed.

(** ** Every step *)

Lemma enable_kill_alive o : mini_os_obj_is_destroyed o = false -> mini_os_obj_is_destroyed (mini_os_obj_enable_kill_reports_timeout o) = false.
Proof.
  unfold mini_os_obj_is_destroyed, mini_os_obj_enable_kill_reports_timeout, flag_set, MINI_OS_OBJ_FLAG_DESTROY, MINI_OS_OBJ_FLAG_KILL, MINI_OS_OBJ_FLAG_TIMEOUT.
  simpl. rewrite Z.land_lor_distr_l. change (Z.land 12 2) with 0. by rewrite Z.lor_0_r.
Qed.

(** Only blocks and lists of mutexes count for the rest of the invariant. *)
Lemma life_same l w' :
  life_inv l -> xinv w' (x_calls (l_mutex l)) (x_log (l_mutex l)) None -> w_kern w' = w_kern (l_world l) \/ threads (w_kern w') = threads (l_kern l) ->
  hold_lists w' = hold_lists (l_world l) ->
  (∀ m, is_Some (mutexes (l_world l) !! m) -> is_Some (mutexes w' !! m)) -> (∀ m, is_Some (mutexes w' !! m) -> Z.even m = true) ->
  life_inv (mk_life (mk_lmachine w' (x_calls (l_mutex l)) (x_log (l_mutex l))) (l_defunct l)).
Proof.
  intros [I1 I2 I3 I4 I5 I6 I7] Hi Hk Hh Hm Hev. assert (threads (w_kern w') = threads (l_kern l)) as E by (destruct Hk as [->|]; done).
  split; unfold l_kern, held_by in *; cbn [l_world l_mutex l_defunct x_world x_calls x_log]; rewrite ?E, ?Hh; auto.
  intros t th Ht. destruct (I3 t th Ht) as (H1 & H2 & H3). split; [|done]. eapply Forall_impl; [|exact H1].
  intros r [[? ?]|[? ?]]; [left|right]; auto.
Qed.

Section steps.
Context (time_slice long_time : bool).
Let step := life_step time_slice long_time.
Let goes (l : life) (op : life_op) : Prop := ∃ l', step l op = Some l' /\ life_inv l'.

Lemma lock_life l op : life_inv l -> life_op_ok l (LMutex op) -> goes l (LMutex op).
Proof.
  intros Hl [Hok Hx]. pose proof (li_x _ Hl) as Hi. unfold goes, step, life_step.
  destruct (lock_step_ok time_slice long_time (l_mutex l) op Hi Hok) as (x' & E & Hi'). rewrite E. cbn [mbind option_bind]. eexists. split; [done|].
  assert (∀ t th, threads (l_kern l) !! t = Some th -> th_state th = THREAD_TERMINATED -> current_thread (l_kern l) = Some t ->
    ¬ may_call (l_kern l)) as Hdead by (intros t th Ht Est Hc Hm; pose proof (caller_runs _ _ _ Hm Hc Ht); congruence).
  assert ((∃ m r s, op = XCreate m r s) \/ ∀ m r s, op ≠ XCreate m r s) as [(m & r & s & ->)|Hnc]
    by (destruct op; ((right; intros ???; discriminate) || (left; eauto))).
  - unfold lock_step in E. injection E as <-. destruct Hok as (Hm & _). change (x_world (l_mutex l)) with (l_world l) in *.
    apply (life_same l _ Hl Hi'); simpl.
    + by right.
    + done.
    + intros m' Hm'. destruct (decide (m' = m)) as [->|]; [by rewrite lookup_insert_eq|by rewrite lookup_insert_ne].
    + intros m' Hm'. destruct (decide (m' = m)) as [->|]; [done|]. rewrite lookup_insert_ne in Hm' by done. by apply Hl.
  - destruct (lock_step_keeps time_slice long_time (valid_ref (mutexes (l_world l))) (l_mutex l) op x' Hi Hok) as (c & K & Hc & Hcalls); [|done|done|].
    { intros m Hm. pose proof (li_even _ Hl m Hm) as He. unfold valid_ref, mutex_header. split; [by left|right].
      rewrite Z.even_add, He. replace (m + 1 - 1) with m by lia. done. }
    destruct x' as [w' calls' log']. apply (life_keeps l c w' calls' log' Hl K Hi').
    intros t th Ht Est. split.
    + intros ->. destruct (Hc t eq_refl) as [Hcur [Hm|[m ->]]]; [by apply (Hdead t th)|]. by apply (Hx t th).
    + destruct (Hcalls t) as [?|[Hcur Hm]]; [done|]. by destruct (Hdead t th).
Qed.

Lemma kill_life l m : life_inv l -> life_op_ok l (LEnableKill m) -> goes l (LEnableKill m).
Proof.
  intros Hl [mx Hm]. pose proof (li_x _ Hl) as Hi. unfold goes, step, life_step, mini_os_mutex_enable_kill. change (x_world (l_mutex l)) with (l_world l).
  rewrite Hm. cbn [mbind option_bind]. eexists. split; [done|].
  destruct (xi_mutex _ _ _ _ Hi _ _ Hm) as (sm & Hs & [_ [Hd _] _ _ _]). apply (life_same l _ Hl).
  - apply xinv_obj; [done|done|]. by apply enable_kill_alive.
  - by left.
  - done.
  - intros m'. simpl. destruct (decide (m' = m)) as [->|]; [rewrite lookup_insert_eq|rewrite lookup_insert_ne by done]; eauto.
  - intros m'. simpl. destruct (decide (m' = m)) as [->|]; [|rewrite lookup_insert_ne by done; apply Hl]. intros _. apply Hl. eauto.
Qed.

Lemma delete_life l t : life_inv l -> life_op_ok l (LDelete t) -> goes l (LDelete t).
Proof.
  intros Hl [[th Ht] Hend]. unfold goes, step, life_step, mini_os_thread_delete. change (x_world (l_mutex l)) with (l_world l).
  change (w_kern (l_world l)) with (l_kern l). rewrite Ht. cbn [mbind option_bind].
  destruct (bool_decide_reflect (current_thread (l_kern l) = Some t)) as [Hc|Hc]; [eexists; split; [done|exact Hl]|].
  destruct (bool_decide_reflect (th_state th = THREAD_TERMINATED)) as [Hs|Hs]; [eexists; split; [done|exact Hl]|]. cbn [orb].
  destruct (delete_ok l t th Hl Ht Hc Hs Hend) as (woken & w' & -> & Hl' & _). cbn [mbind option_bind]. eexists. split; [done|exact Hl'].
Qed.

Lemma life_step_ok l op : life_inv l -> life_op_ok l op -> goes l op.
Proof.
  intros Hl Hok. destruct op as [op|m|t|t| |t|].
  - by apply lock_life.
  - by apply kill_life.
  - by apply thread_suspend_step.
  - by apply thread_resume_step.
  - destruct Hok as ([c Hc] & Hm & Hcall & Hend). unfold idle_call in Hcall. change (current_thread (w_kern (x_world (l_mutex l)))) with (current_thread (l_kern l)) in Hcall.
    rewrite Hc in Hcall. destruct (thread_exit_ok l c Hl Hc Hm Hcall (Hend c Hc)) as (w' & E & Hl' & _).
    unfold goes, step, life_step. change (x_world (l_mutex l)) with (l_world l). change (w_kern (l_world l)) with (l_kern l). rewrite Hc.
    cbn [mbind option_bind]. rewrite E. cbn [mbind option_bind]. eexists. split; [done|exact Hl'].
  - by apply delete_life.
  - destruct Hok as [_ Hm]. destruct (idle_ok l Hl Hm) as (w' & E & Hl' & _). unfold goes, step, life_step.
    change (x_world (l_mutex l)) with (l_world l). rewrite E. cbn [mbind option_bind]. eexists. split; [done|exact Hl'].
Qed.
Lemma life_run_ok ops : ∀ l, life_inv l -> life_ops_ok time_slice long_time l ops -> ∃ l', life_run time_slice long_time l ops = Some l' /\ life_inv l'.
Proof.
  induction ops as [|op ops IH]; intros l Hl; cbn [life_run life_ops_ok]; [eauto|]. intros [Hop Hops].
  destruct (life_step_ok l op Hl Hop) as (l1 & E & Hl1). unfold step in E. rewrite E in Hops |- *. cbn [mbind option_bind]. by apply IH.
Qed.
End steps.

Lemma boot_life_inv : life_inv boot_life.
Proof.
  split; try done.
  - apply boot_xinv.
  - intros m [? H]. done.
  - intros t. apply NoDup_nil_2.
  - apply NoDup_nil_2.
  - intros t. split; [intros H; by apply not_elem_of_nil in H|intros (? & H & _); done].
Qed.

(** ** A suspended thread *)

Definition held_back (k : kernel) (t resume_time : Z) : Prop :=
  ∃ th, threads k !! t = Some th /\ th_state th = THREAD_SUSPENDED /\ th_resume_time th = resume_time.
Lemma held_back_others V u k k' t r : others V u k k' -> u ≠ t -> held_back k t r -> held_back k' t r.
Proof.
  intros Ho Hne (th & Ht & Hs & Hr). destruct (Ho t th) as (th' & Ht' & [M1 M2 _ _]); [congruence|done|]. exists th'.
  split; [done|]. rewrite M1, M2 by (left; by left). done.
Qed.
Lemma held_back_same k k' t r : threads k' !! t = threads k !! t -> held_back k t r -> held_back k' t r.
Proof. unfold held_back. by intros ->. Qed.

Section suspended.
Context (time_slice long_time : bool).
Let step := life_step time_slice long_time.

(** It stays as it is until it is resumed or deleted. *)
Lemma held_back_step l op l' t r :
  life_inv l -> life_op_ok l op -> op ≠ LResume t -> op ≠ LDelete t -> held_back (l_kern l) t r -> step l op = Some l' -> held_back (l_kern l') t r.
Proof.
  intros Hl Hok Hnr Hnd Hb E. pose proof Hb as (th & Ht & Hs & _). pose proof (li_x _ Hl) as Hi. unfold step, life_step in E.
  change (x_world (l_mutex l)) with (l_world l) in E. change (w_kern (l_world l)) with (l_kern l) in E.
  destruct op as [op|m|u|u| |u|].
  - destruct Hok as [Hok _]. destruct (lock_step _ _ _ _) as [x'|] eqn:E1; [|done]. cbn [mbind option_bind] in E. injection E as <-.
    assert ((∃ m b s, op = XCreate m b s) \/ ∀ m b s, op ≠ XCreate m b s) as [(m & b & s & ->)|Hnc]
      by (destruct op; ((right; intros ???; discriminate) || (left; eauto))).
    { unfold lock_step in E1. injection E1 as <-. exact Hb. }
    destruct (lock_step_keeps time_slice long_time (λ _, True) (l_mutex l) op x' Hi Hok) as (c & K & _); [done|done|exact E1|].
    destruct (evolves_moves _ _ _ _ _ (kp_kern _ _ _ _ K) Ht) as (th' & Ht' & [M1 M2 _ _]). destruct Hb as (th0 & Ht0 & _ & Hr).
    assert (th0 = th) as -> by congruence. exists th'. split; [exact Ht'|]. rewrite M1, M2 by (left; by left). done.
  - destruct (mini_os_mutex_enable_kill _ _) as [[rc w']|] eqn:E1; [|done]. injection E as <-. unfold mini_os_mutex_enable_kill in E1.
    destruct (mutexes (l_world l) !! m); [|done]. injection E1 as _ <-. exact Hb.
  - destruct (decide (u = t)) as [->|Hne].
    + unfold mini_os_thread_suspend in E. change (w_kern (l_world l)) with (l_kern l) in E. rewrite Ht in E. cbn [mbind option_bind] in E.
      rewrite bool_decide_true in E by done. injection E as <-. exact Hb.
    + destruct Hok as [thu Hu]. destruct (li_block _ Hl _ _ Hu) as (_ & Hun & _).
      destruct (suspend_ok (λ _, True) (l_world l) _ _ u thu Hi Hu Hun) as (rc & w' & E1 & _ & C & _). rewrite E1 in E. injection E as <-.
      exact (held_back_others _ u _ _ t r (changes_others _ _ _ _ C) Hne Hb).
  - assert (u ≠ t) as Hne by congruence. destruct Hok as [thu Hu]. destruct (li_block _ Hl _ _ Hu) as (_ & _ & Hd).
    destruct (resume_ok (λ _, True) (l_world l) _ _ u thu Hi Hu (proj1 Hd)) as (rc & k' & E1 & _ & C & _).
    change (w_kern (l_world l)) with (l_kern l) in E1. rewrite E1 in E. injection E as <-.
    exact (held_back_others _ u _ _ t r (changes_others _ _ _ _ C) Hne Hb).
  - destruct Hok as ([c Hc] & Hm & Hcall & Hend). unfold idle_call in Hcall. change (current_thread (w_kern (x_world (l_mutex l)))) with (current_thread (l_kern l)) in Hcall.
    rewrite Hc in Hcall, E. cbn [mbind option_bind] in E. destruct (thread_exit_ok l c Hl Hc Hm Hcall (Hend c Hc)) as (w' & E1 & _ & _ & Ho).
    rewrite E1 in E. injection E as <-. apply (held_back_others _ c _ _ t r Ho); [|done]. intros ->. pose proof (caller_runs _ _ _ Hm Hc Ht). congruence.
  - assert (u ≠ t) as Hne by congruence. destruct Hok as [[thu Hu] Hend]. unfold mini_os_thread_delete in E. change (w_kern (l_world l)) with (l_kern l) in E.
    rewrite Hu in E. cbn [mbind option_bind] in E.
    destruct (bool_decide_reflect (current_thread (l_kern l) = Some u)) as [Hc|Hc]; [injection E as <-; done|].
    destruct (bool_decide_reflect (th_state thu = THREAD_TERMINATED)) as [Hst|Hst]; [injection E as <-; done|]. cbn [orb] in E.
    destruct (delete_ok l u thu Hl Hu Hc Hst Hend) as (woken & w' & E1 & _ & _ & Ho & _). rewrite E1 in E. injection E as <-.
    exact (held_back_others _ u _ _ t r Ho Hne Hb).
  - destruct Hok as [_ Hm]. destruct (idle_ok l Hl Hm) as (w' & E1 & _ & Hx). rewrite E1 in E. injection E as <-.
    apply (held_back_same _ _ _ _ (Hx t ltac:(intros Hin; apply (li_defunct _ Hl) in Hin as (th0 & H0 & Es); congruence)) Hb).
Qed.
Lemma held_back_run ops t r : ∀ l l',
  life_inv l -> life_ops_ok time_slice long_time l ops -> Forall (λ op, op ≠ LResume t /\ op ≠ LDelete t) ops ->
  held_back (l_kern l) t r -> life_run time_slice long_time l ops = Some l' -> held_back (l_kern l') t r.
Proof.
  induction ops as [|op ops IH]; intros l l' Hl; cbn [life_ops_ok life_run]; [by intros _ _ Hb [= <-]|].
  intros [Hop Hops] [[Hn1 Hn2] Hn]%list.Forall_cons_1 Hb E. destruct (life_step_ok time_slice long_time l op Hl Hop) as (l1 & E1 & Hl1).
  rewrite E1 in Hops, E. apply (IH l1 l'); try done. by apply (held_back_step l op).
Qed.
Lemma life_run_app ops1 ops2 : ∀ l, life_run time_slice long_time l (ops1 ++ ops2) = l1 ← life_run time_slice long_time l ops1; life_run time_slice long_time l1 ops2.
Proof. induction ops1 as [|op ops IH]; intros l; [done|]. cbn [app life_run]. destruct (life_step _ _ l op); [apply IH|done]. Qed.
Lemma life_ops_ok_app ops1 ops2 : ∀ l l1, life_ops_ok time_slice long_time l (ops1 ++ ops2) -> life_run time_slice long_time l ops1 = Some l1 ->
  life_ops_ok time_slice long_time l ops1 /\ life_ops_ok time_slice long_time l1 ops2.
Proof.
  induction ops1 as [|op ops IH]; intros l l1; cbn [app life_run life_ops_ok]; [by intros H [= <-]|]. intros [Hop Hops].
  destruct (life_step _ _ l op) as [l2|]; [|done]. cbn [mbind option_bind]. intros E. destruct (IH l2 l1 Hops E). done.
Qed.
Lemma life_ops_prefix ops1 ops2 : ∀ l, life_ops_ok time_slice long_time l (ops1 ++ ops2) -> life_ops_ok time_slice long_time l ops1.
Proof. induction ops1 as [|op ops IH]; intros l; [done|]. cbn [app life_ops_ok]. intros [Hop Hops]. split; [done|]. by destruct (life_step _ _ l op); [apply IH|]. Qed.

(** What a thread has before it when it goes on: to run, or the rest of its delay. *)
Inductive outlook (k : kernel) (t : Z) : Z -> Prop :=
  | outlook_now th : threads k !! t = Some th -> is_ready (th_state th) = true -> outlook k t 0
  | outlook_ever th : threads k !! t = Some th -> th_state th = THREAD_BLOCKED -> th_wheel_slot th = MINI_OS_TICK_WHEEL -> outlook k t 0
  | outlook_later m wl : parked_for k t m wl -> 0 < m < 2147483648 -> outlook k t m.

Lemma suspend_holds_back l t n :
  life_inv l -> outlook (l_kern l) t n -> ∃ l' r, step l (LSuspend t) = Some l' /\ life_inv l' /\ held_back (l_kern l') t r /\
    (if n =? 0 then r <= 0 else r = n) /\
    ∀ th th', threads (l_kern l) !! t = Some th -> threads (l_kern l') !! t = Some th' ->
      th_wait_list th' = None /\ (th_wait_list th ≠ None -> th_wait_status th' = false).
Proof.
  intros Hl Ho. pose proof (li_x _ Hl) as Hi. pose proof (xi_wf _ _ _ _ Hi) as Hw. change (w_kern (l_world l)) with (l_kern l) in Hw.
  assert (∃ th, threads (l_kern l) !! t = Some th) as [th Ht] by (destruct Ho as [? ?|? ?|? ? (? & ? & _)]; eauto).
  destruct (thread_suspend_step time_slice long_time l t Hl) as (l' & E & Hl'); [eauto|]. destruct (li_block _ Hl _ _ Ht) as (_ & Hun & Hd).
  destruct (suspend_ok (λ _, True) (l_world l) _ _ t th Hi Ht Hun) as (rc & w' & E1 & _ & _ & Hcase).
  unfold step. pose proof E as E0. unfold life_step in E0. change (x_world (l_mutex l)) with (l_world l) in E0. rewrite E1 in E0.
  cbn [mbind option_bind] in E0. injection E0 as <-. unfold l_kern. cbn [l_world l_mutex x_world].
  assert (is_ready (th_state th) = true \/ th_state th = THREAD_BLOCKED) as Hst.
  { destruct Ho as [th1 H1 Hr|th1 H1 Hb _|m wl (th1 & H1 & Hb & _) _]; assert (th1 = th) as -> by congruence; auto. }
  destruct Hcase as [(_ & _ & H1 & H2)|[(_ & _ & H1)|(_ & th' & Ht' & (F1 & F2 & _ & _ & F5 & _) & Hrt)]].
  - destruct Hst; congruence.
  - rewrite H1 in Hst. by destruct Hst.
  - eexists _, (th_resume_time th'). split; [exact E|]. split; [exact Hl'|]. split; [by exists th'|]. split.
    + destruct Hrt as [[Hr ->]|(Hb & r & Er & ->)].
      * destruct Ho as [th1 H1 _|th1 H1 Hb _|m wl (th1 & H1 & Hb & _) _]; [|assert (th1 = th) as -> by congruence; by rewrite Hb in Hr..].
        apply Hd. intros Es. by rewrite Es in Hr.
      * destruct Ho as [th1 H1 Hr|th1 H1 _ Hs|m wl (th1 & H1 & _ & _ & Hs & Hm) Hb1]; (assert (th1 = th) as -> by congruence).
        -- by rewrite Hb in Hr.
        -- destruct (remain_s32 _ _ _ Hw Ht) as (r0 & Er0 & _ & H0). assert (r0 = r) as -> by (change (w_kern (l_world l)) with (l_kern l) in Er; congruence). by rewrite H0.
        -- pose proof (wf_threads _ Hw _ _ Ht) as []. pose proof (wf_slot _ Hw).
           change (w_kern (l_world l)) with (l_kern l) in Er. rewrite (remain_eq _ _ _ Ht) in Er by (done || lia). rewrite Hm in Er. injection Er as <-.
           rewrite u32_small by lia. unfold s32. rewrite u32_small by lia. destruct (Z.eqb_spec m 0); [lia|]. destruct (Z.ltb_spec m 2147483648); [done|lia].
    + intros th1 th2 H1 H2. assert (th1 = th) as -> by (apply (inj Some); rewrite <- H1; exact Ht). assert (th2 = th') as -> by (apply (inj Some); rewrite <- H2; exact Ht'). done.
Qed.
Lemma resume_goes_on l t r :
  life_inv l -> held_back (l_kern l) t r -> ∃ l', step l (LResume t) = Some l' /\
    if r >? 0 then parked_for (l_kern l') t r None else ∃ th, threads (l_kern l') !! t = Some th /\ th_state th = THREAD_READY.
Proof.
  intros Hl (th & Ht & Hs & <-). pose proof (li_x _ Hl) as Hi. pose proof (xi_wf _ _ _ _ Hi) as Hw. change (w_kern (l_world l)) with (l_kern l) in Hw.
  destruct (li_block _ Hl _ _ Ht) as (_ & _ & Hd).
  destruct (resume_ok (λ _, True) (l_world l) _ _ t th Hi Ht (proj1 Hd)) as (rc & k' & E & _ & _ & Hcase). rewrite decide_True in Hcase by done.
  destruct Hcase as (_ & Hslot & th' & Ht' & Hres). unfold step, life_step. change (x_world (l_mutex l)) with (l_world l). rewrite E. cbn [mbind option_bind].
  eexists. split; [done|]. unfold l_kern. cbn [l_world l_mutex x_world]. change (w_kern (w_set_kern (l_world l) k')) with k'. unfold resumed in Hres.
  destruct (Z.gtb_spec (th_resume_time th) 0).
  - subst th'. eexists. split; [exact Ht'|]. pose proof (wf_slot _ Hw). change (w_kern (l_world l)) with (l_kern l) in *.
    assert (th_wait_list th = None) as Hl0.
    { destruct (th_wait_list th) eqn:El; [|done]. pose proof (to_wait _ _ _ (wf_threads _ Hw _ _ Ht) ltac:(by rewrite El)). congruence. }
    rewrite Hslot. split; [done|]. split; [exact Hl0|]. unfold parked, MINI_OS_TICK_WHEEL in *. simpl.
    split; Z.to_euclidean_division_equations; lia.
  - subst th'. eauto.
Qed.
End suspended.

(** ** The theorems *)

(** A test of the discipline: whoever ends has armed all of its mutexes. *)
Definition armed (w : world) (t : Z) : bool :=
  forallb (λ m, match mutexes w !! m with Some mx => mini_os_obj_kill_reports_timeout (mx_obj mx) | None => true end) (held_by w t).
Definition armed_op (l : life) (op : life_op) : Prop :=
  let x := l_mutex l in let k := l_kern l in
  match op with
  | LExit => may_call k /\ idle_call x /\ match current_thread k with Some c => armed (l_world l) c = true | None => False end
  | LDelete t => is_Some (threads k !! t) /\ armed (l_world l) t = true
  | _ => life_op_ok l op
  end.
Fixpoint armed_ops (time_slice long_time : bool) (l : life) (ops : list life_op) : Prop :=
  match ops with
  | [] => True
  | op :: ops => armed_op l op /\ match life_step time_slice long_time l op with Some l => armed_ops time_slice long_time l ops | None => True end
  end.
Lemma armed_ends_well w t : armed w t = true -> ends_well w t.
Proof.
  unfold armed. rewrite forallb_forall. intros H m mx u th Hm Hmx _ _. specialize (H m). rewrite Hmx in H. apply H. by apply list_elem_of_In.
Qed.
Lemma armed_op_ok l op : armed_op l op -> life_op_ok l op.
Proof.
  destruct op; try done; cbn [armed_op life_op_ok].
  - intros (Hm & Hc & Ha). destruct (current_thread (l_kern l)) as [c|]; [|done]. split; [eauto|]. split; [done|]. split; [done|].
    intros ? [= <-]. by apply armed_ends_well.
  - intros [Ht Ha]. split; [done|by apply armed_ends_well].
Qed.
Lemma armed_ops_ok time_slice long_time ops : ∀ l, armed_ops time_slice long_time l ops -> life_ops_ok time_slice long_time l ops.
Proof.
  induction ops as [|op ops IH]; intros l; [done|]. cbn [armed_ops life_ops_ok]. intros [Hop Hops]. split; [by apply armed_op_ok|].
  destruct (life_step _ _ l op); [by apply IH|done].
Qed.

(** C13: Take creations of threads, locks, unlocks, waits, delays, suspensions, resumptions,
    exits, deletions and passes of the idle thread in any order, with two conditions.  A thread
    exits or is deleted only when those who wait for its mutexes are to be told of a time-out,
    as [mini_os_mutex_enable_kill] arranges (else: [exit_hands_mutex_twice]); and no switch is
    taken while the running thread is off the level of the last switch and that level has a
    thread (else: [unlock_after_inheritance_derails]).  Then no step goes wrong and exclusion
    holds; the owner of a mutex is a living thread, and every thread that ended is once in the
    queue of the idle thread, in no call, with no mutex.  The mutexes of a thread that exits or
    is deleted are free and nobody waits for them any more, a deleted thread is gone, and after
    the idle thread ran no thread that ended is left. *)
Theorem threads_end_clean time_slice long_time ops :
  life_ops_ok time_slice long_time boot_life ops ->
  ∃ l, life_run time_slice long_time boot_life ops = Some l /\ exclusive (x_log (l_mutex l)) /\
    (∀ m mx t, mutexes (l_world l) !! m = Some mx -> mx_owner mx = Some t ->
       ∃ th, threads (l_kern l) !! t = Some th /\ th_state th ≠ THREAD_TERMINATED) /\
    NoDup (l_defunct l) /\
    (∀ t, t ∈ l_defunct l <-> ∃ th, threads (l_kern l) !! t = Some th /\ th_state th = THREAD_TERMINATED) /\
    (∀ t, t ∈ l_defunct l -> x_calls (l_mutex l) !! t = None /\ held_by (l_world l) t = []) /\
    (∀ c l', current_thread (l_kern l) = Some c -> life_op_ok l LExit -> life_step time_slice long_time l LExit = Some l' ->
       l_defunct l' = l_defunct l ++ [c] /\ ∀ m, m ∈ held_by (l_world l) c -> mutex_free (l_world l') m) /\
    (∀ t l', life_op_ok l (LDelete t) -> current_thread (l_kern l) ≠ Some t -> t ∉ l_defunct l -> life_step time_slice long_time l (LDelete t) = Some l' ->
       threads (l_kern l') !! t = None /\ ∀ m, m ∈ held_by (l_world l) t -> mutex_free (l_world l') m) /\
    (∀ l', life_op_ok l LIdle -> life_step time_slice long_time l LIdle = Some l' ->
       ∀ t th, threads (l_kern l') !! t = Some th -> th_state th ≠ THREAD_TERMINATED).
Proof.
  intros Hok. destruct (life_run_ok time_slice long_time ops _ boot_life_inv Hok) as (l & E & Hl). exists l. pose proof (li_x _ Hl) as Hi.
  assert (∀ t, t ∈ l_defunct l -> x_calls (l_mutex l) !! t = None /\ held_by (l_world l) t = []) as Hdead.
  { intros t (th & Ht & Hs)%(li_defunct _ Hl). by apply (li_dead _ Hl t th). }
  split; [done|]. split; [apply (xi_log _ _ _ _ Hi)|]. split.
  { intros m mx t Hm Ho. destruct (xi_mutex _ _ _ _ Hi _ _ Hm) as (sm & _ & [_ _ _ Hlog _]). rewrite Ho in Hlog. destruct Hlog as ([th Ht] & _).
    exists th. split; [done|]. intros Hs. destruct (Hdead t) as [_ Hh]; [apply (li_defunct _ Hl); eauto|].
    assert (m ∈ held_by (l_world l) t) as Hin by (apply (xi_held _ _ _ _ Hi); eauto). rewrite Hh in Hin. by apply not_elem_of_nil in Hin. }
  split; [apply Hl|]. split; [apply Hl|]. split; [exact Hdead|]. split; [|split].
  - intros c l' Hc (_ & Hm & Hcall & Hend) E1. unfold idle_call in Hcall. change (current_thread (w_kern (x_world (l_mutex l)))) with (current_thread (l_kern l)) in Hcall.
    rewrite Hc in Hcall. destruct (thread_exit_ok l c Hl Hc Hm Hcall (Hend c Hc)) as (w' & E2 & _ & Hf & _). unfold life_step in E1.
    change (x_world (l_mutex l)) with (l_world l) in E1. change (w_kern (l_world l)) with (l_kern l) in E1. rewrite Hc in E1. cbn [mbind option_bind] in E1.
    rewrite E2 in E1. injection E1 as <-. split; [done|exact Hf].
  - intros t l' [[th Ht] Hend] Hc Hn E1. unfold life_step, mini_os_thread_delete in E1. change (x_world (l_mutex l)) with (l_world l) in E1.
    change (w_kern (l_world l)) with (l_kern l) in E1. rewrite Ht in E1. cbn [mbind option_bind] in E1. rewrite bool_decide_false in E1 by done. cbn [orb] in E1.
    assert (th_state th ≠ THREAD_TERMINATED) as Hs by (intros Hs; apply Hn, (li_defunct _ Hl); eauto). rewrite bool_decide_false in E1 by done.
    destruct (delete_ok l t th Hl Ht Hc Hs Hend) as (woken & w' & E2 & _ & Hf & _ & Hgone). rewrite E2 in E1. injection E1 as <-. split; [exact Hgone|exact Hf].
  - intros l' [_ Hm] E1. destruct (idle_ok l Hl Hm) as (w' & E2 & Hl' & _). unfold life_step in E1. change (x_world (l_mutex l)) with (l_world l) in E1.
    rewrite E2 in E1. injection E1 as <-. intros t th Ht Hs. assert (t ∈ @nil Z) as Hin by (apply (li_defunct _ Hl'); eauto). by apply not_elem_of_nil in Hin.
Qed.

(** Two threads wait for a mutex whose owner exits: neither gets it, the first goes on, the
    second is deleted, the idle thread frees the owner. *)
Definition plain (op : kernel_op) : life_op := LMutex (XKernel op).
Definition three_threads : list life_op :=
  [plain (KCreate 1 5 512 4096); plain (KCreate 2 5 512 8192); plain (KCreate 3 5 512 12288); LMutex (XCreate 100 false false)].
Definition owner_exits : list life_op :=
  [plain KSwitch; LMutex (XLock 100 (-1)); plain KSwitch; LMutex (XLock 100 (-1)); LMutex XNext; plain KSwitch; plain KSwitch;
   LMutex (XLock 100 (-1)); LMutex XNext; plain KSwitch; LExit; plain KSwitch; LMutex XNext; LMutex XNext].

Lemma threads_end_clean_witness :
  ∃ l, life_run true true boot_life (three_threads ++ LEnableKill 100 :: owner_exits ++ [LDelete 3; LIdle]) = Some l /\
    exclusive (x_log (l_mutex l)) /\ l_defunct l = [] /\ x_log (l_mutex l) = [Unlocked 100 1; Locked 100 1].
Proof.
  destruct (threads_end_clean true true (three_threads ++ LEnableKill 100 :: owner_exits ++ [LDelete 3; LIdle])) as (l & E & He & _).
  - apply armed_ops_ok. vm_compute. repeat split; try discriminate; eexists; reflexivity.
  - exists l. split; [exact E|]. split; [exact He|].
    assert (match life_run true true boot_life (three_threads ++ LEnableKill 100 :: owner_exits ++ [LDelete 3; LIdle]) with
            | Some l => l_defunct l = [] /\ x_log (l_mutex l) = [Unlocked 100 1; Locked 100 1] | None => False end) as H
      by (vm_compute; split; reflexivity).
    rewrite E in H. exact H.
Defined.

(** Without [mini_os_mutex_enable_kill] the waiters are woken as if they had got the mutex: the
    first takes it while its unit is back in the semaphore, the second takes it as well. *)
Theorem exit_hands_mutex_twice :
  match life_run true true boot_life (three_threads ++ owner_exits) with
  | Some l => mx_owner <$> mutexes (l_world l) !! 100 = Some (Some 2) /\ sem_count <$> sems (w_sync (l_world l)) !! 100 = Some 1 /\
              life_run true true l [plain KSwitch; LMutex XNext; LMutex XNext] = None
  | None => False
  end.
Proof. vm_compute. repeat split; reflexivity. Qed.

(** A thread that is deleted after an unlock handed it the mutex takes the unit with it. *)
Definition handed_over : list life_op :=
  [plain (KCreate 1 5 512 4096); plain (KCreate 2 5 512 8192); LMutex (XCreate 100 false false); plain KSwitch; LMutex (XLock 100 (-1));
   plain KSwitch; LMutex (XLock 100 (-1)); LMutex XNext; plain KSwitch; LMutex (XUnlock 100); LMutex XNext].
Theorem delete_loses_mutex :
  match life_run true true boot_life (handed_over ++ [LDelete 2]) with
  | Some l => mx_owner <$> mutexes (l_world l) !! 100 = Some None /\ sem_count <$> sems (w_sync (l_world l)) !! 100 = Some 0 /\
              size (threads (l_kern l)) = 1%nat /\ size (x_calls (l_mutex l)) = 0%nat
  | None => False
  end.
Proof. vm_compute. repeat split; reflexivity. Qed.

(** C14: A thread that is suspended stays so whatever happens until it is resumed, and then
    goes on where it was: if it was ready, or waited without limit, it is ready; if it had [n]
    ticks of a delay or a limit left, it is blocked for exactly [n] more ticks.  A wait is over
    with the suspension, and has failed. *)
Theorem suspend_freezes time_slice long_time before ops t n l :
  life_ops_ok time_slice long_time boot_life before -> life_run time_slice long_time boot_life before = Some l ->
  outlook (l_kern l) t n ->
  Forall (λ op, op ≠ LResume t /\ op ≠ LDelete t) ops -> life_ops_ok time_slice long_time l (LSuspend t :: ops) ->
  ∃ l1 l2 l3 r, life_step time_slice long_time l (LSuspend t) = Some l1 /\ held_back (l_kern l1) t r /\
    (∀ th th1, threads (l_kern l) !! t = Some th -> threads (l_kern l1) !! t = Some th1 ->
       th_wait_list th1 = None /\ (th_wait_list th ≠ None -> th_wait_status th1 = false)) /\
    life_run time_slice long_time l1 ops = Some l2 /\ held_back (l_kern l2) t r /\
    life_step time_slice long_time l2 (LResume t) = Some l3 /\
    if n =? 0 then ∃ th, threads (l_kern l3) !! t = Some th /\ th_state th = THREAD_READY else parked_for (l_kern l3) t n None.
Proof.
  intros Hb Eb Ho Hq [_ Hops]. destruct (life_run_ok time_slice long_time before _ boot_life_inv Hb) as (l0 & E0 & Hl). assert (l0 = l) as -> by congruence.
  destruct (suspend_holds_back time_slice long_time l t n Hl Ho) as (l1 & r & E1 & Hl1 & Hh1 & Hr & Hw). rewrite E1 in Hops.
  destruct (life_run_ok time_slice long_time ops l1 Hl1 Hops) as (l2 & E2 & Hl2).
  pose proof (held_back_run time_slice long_time ops t r l1 l2 Hl1 Hops Hq Hh1 E2) as Hh2.
  destruct (resume_goes_on time_slice long_time l2 t r Hl2 Hh2) as (l3 & E3 & Hg). exists l1, l2, l3, r. do 6 (split; [done|]).
  assert (0 <= n) as Hn by (destruct Ho; lia).
  destruct (Z.eqb_spec n 0), (Z.gtb_spec r 0); try lia; [done|by subst].
Qed.

(** A thread with four ticks to go is suspended for ten, and has four to go. *)
Definition paused : list life_op :=
  [plain (KCreate 1 5 512 4096); plain (KCreate 2 5 512 8192); plain KSwitch; plain KSwitch; plain (KDelay 5); plain KSwitch; plain KTick].
Lemma suspend_freezes_witness :
  ∃ l l1 l2 l3, life_run true true boot_life paused = Some l /\ life_step true true l (LSuspend 2) = Some l1 /\
    life_run true true l1 (replicate 10 (plain KTick)) = Some l2 /\ life_step true true l2 (LResume 2) = Some l3 /\
    parked_for (l_kern l3) 2 4 None.
Proof.
  assert (life_ops_ok true true boot_life paused /\ match life_run true true boot_life paused with
    | Some l => life_ops_ok true true l (LSuspend 2 :: replicate 10 (plain KTick)) /\
        match threads (l_kern l) !! 2 with
        | Some th => th_state th = THREAD_BLOCKED /\ th_wait_list th = None /\ th_wheel_slot th < MINI_OS_TICK_WHEEL /\
            (th_wheel_slot th - s_current_slot (l_kern l) - 1) mod 32 + 1 + 32 * th_round th = 4
        | None => False
        end
    | None => False end) as [Hb H] by (vm_compute; repeat split; try discriminate; eexists; reflexivity).
  destruct (life_run true true boot_life paused) as [l|] eqn:E; [|contradiction]. destruct H as [Hops H].
  destruct (threads (l_kern l) !! 2) as [th|] eqn:Ht; [|contradiction]. destruct H as (H1 & H2 & H3 & H4).
  destruct (suspend_freezes true true paused (replicate 10 (plain KTick)) 2 4 l Hb E) as (l1 & l2 & l3 & r & E1 & _ & _ & E2 & _ & E3 & Hp).
  - apply (outlook_later _ _ 4 None); [exists th; auto|lia].
  - repeat constructor; discriminate.
  - exact Hops.
  - exists l, l1, l2, l3. auto.
Defined.

(** A delay of 2^31 ticks or more is kept as a negative number: the thread is resumed at once. *)
Theorem long_delay_forgotten :
  match life_run true true boot_life
          [plain (KCreate 1 5 512 4096); plain (KCreate 2 5 512 8192); plain KSwitch; plain KSwitch; plain (KDelay 3000000000);
           plain KSwitch; LSuspend 2; LResume 2] with
  | Some l => th_state <$> threads (l_kern l) !! 2 = Some THREAD_READY
  | None => False
  end.
Proof. vm_compute. reflexivity. Qed.
