(* ===== verification/OtaState.v ===== *)
(** * Persistent OTA state

    Models the persistent state of the mini-ota bootloader (src/lib/mini-ota/bootutil): the
    state word and its bits (inc/ota_state.h), records and the read-modify-write interface
    (src/ota_state.c), the dispatch layer over the platform's flash driver (src/flash.c) and
    the append log in the state sector (src/ota_state_flash.c).

    The platform's flash functions are the class [FlashOps]; what they document is
    [FlashLaws].  A [uint32_t] stored in flash is its four bytes, least significant first.
    The CRC is the stream of [Crc], whose table engine computes the same value.  The theorems
    show that a record survives storing and loading, that the log is atomic under a power cut
    as long as it does not have to erase, and that it is not when it has to. *)

From S2P Require Import Prelude Crc ConfigBlob.

#[local] Open Scope Z_scope.

Definition ERR_OK : Z := 0.
Definition ERR_ARG : Z := -128.
Definition ERR_TOO_SMALL : Z := -129.
Definition ERR_OVERFLOW : Z := -130.
Definition ERR_NOT_SUPPORTED : Z := -131.
Definition ERR_UNSUPPORTED : Z := -131.
Definition ERR_BUF_TOO_SMALL : Z := -132.
Definition ERR_CRC_MISMATCH : Z := -133.
Definition ERR_HASH_MISMATCH : Z := -134.
Definition ERR_AUTH_FAILED : Z := -135.
Definition ERR_DECRYPT_FAILED : Z := -136.
Definition ERR_HASH_FAILED : Z := -137.
Definition ERR_PADDING : Z := -138.
Definition ERR_OTA_OPEN : Z := -139.
Definition ERR_TRANSMIT : Z := -140.
Definition ERR_OTA_STATE : Z := -141.
Definition ERR_OTA_HW : Z := -142.

(** ** The state word *)

Definition OTA_STATE_BIT_OPEN : Z := 0.
Definition OTA_STATE_BIT_ROLLBACK : Z := 2.
Definition OTA_STATE_BIT_FORCE : Z := 3.
Definition OTA_STATE_FAIL_SHIFT : Z := 4.
Definition OTA_STATE_FAIL_MASK : Z := Z.shiftl 3 OTA_STATE_FAIL_SHIFT.
Definition OTA_STATE_BIT_CURRENT : Z := 6.
Definition OTA_STATE_BIT_PENDING : Z := 7.
Definition OTA_STATE_MAGIC_SHIFT : Z := 8.
Definition OTA_STATE_MAGIC_MASK : Z := Z.shiftl 255 OTA_STATE_MAGIC_SHIFT.
Definition OTA_STATE_MAGIC_VALUE : Z := 0xA5.
Definition OTA_STATE_BIT_TRIAL : Z := 16.
Definition OTA_STATE_MASK_CURRENT : Z := Z.shiftl 1 OTA_STATE_BIT_CURRENT.
Definition OTA_STATE_MASK_PENDING : Z := Z.shiftl 1 OTA_STATE_BIT_PENDING.
Definition OTA_STATE_MASK_TRIAL : Z := Z.shiftl 1 OTA_STATE_BIT_TRIAL.
Definition OTA_STATE_PARTITION_IMAGE_0 : Z := 0.
Definition OTA_STATE_PARTITION_IMAGE_1 : Z := 1.
Definition OTA_STATE_MASK_STATUS_BYTE : Z := 255.
Definition OTA_STATE_DURABLE_MASK : Z :=
  Z.lor (Z.lor (Z.lor OTA_STATE_FAIL_MASK OTA_STATE_MASK_CURRENT) OTA_STATE_MASK_PENDING)
    OTA_STATE_MASK_TRIAL.

Definition ota_state_bit_get (word bit : Z) : Z := Z.land (Z.shiftr word bit) 1.
Definition ota_state_bit_put (word bit value : Z) : Z :=
  if negb (value =? 0) then Z.lor word (u32 (Z.shiftl 1 bit))
  else Z.land word (u32 (Z.lnot (u32 (Z.shiftl 1 bit)))).
Definition ota_state_fail_get (word : Z) : Z :=
  Z.shiftr (Z.land word OTA_STATE_FAIL_MASK) OTA_STATE_FAIL_SHIFT.
Definition ota_state_fail_encode (code : Z) : Z :=
  Z.land (u32 (Z.shiftl code OTA_STATE_FAIL_SHIFT)) OTA_STATE_FAIL_MASK.
Definition ota_state_fail_put (word code : Z) : Z :=
  Z.lor (Z.land word (u32 (Z.lnot OTA_STATE_FAIL_MASK))) (ota_state_fail_encode code).
Definition ota_state_partition_get (word : Z) : Z := ota_state_bit_get word OTA_STATE_BIT_CURRENT.
Definition ota_state_pending_get (word : Z) : Z := ota_state_bit_get word OTA_STATE_BIT_PENDING.
Definition ota_state_trial_get (word : Z) : Z := ota_state_bit_get word OTA_STATE_BIT_TRIAL.

(** ** Records *)

Definition record := (Z * Z)%type.

Definition ota_state_crc32 (state_word : Z) : Z :=
  let bytes := [u8 (Z.shiftr state_word 0); u8 (Z.shiftr state_word 8);
                u8 (Z.shiftr state_word 16); u8 (Z.shiftr state_word 24)] in
  let stream := crc_stream_start (Some stream_zero) 0xFFFFFFFF true true 0xFFFFFFFF 0x04C11DB7 32 in
  match crc_stream_feed false stream bytes cache_zero with
  | Some (stream, _) => crc_stream_finish stream
  | None => 0
  end.

Definition ota_state_with_magic (state_word : Z) : Z :=
  Z.lor (Z.land state_word (u32 (Z.lnot OTA_STATE_MAGIC_MASK)))
    (Z.land (Z.shiftl OTA_STATE_MAGIC_VALUE OTA_STATE_MAGIC_SHIFT) OTA_STATE_MAGIC_MASK).

Definition ota_state_record_build (state_word : Z) : record :=
  let word := ota_state_with_magic state_word in (word, ota_state_crc32 word).

Definition ota_state_record_valid (r : record) : bool :=
  if negb (Z.land r.1 OTA_STATE_MAGIC_MASK
           =? Z.land (Z.shiftl OTA_STATE_MAGIC_VALUE OTA_STATE_MAGIC_SHIFT) OTA_STATE_MAGIC_MASK)
  then false else r.2 =? ota_state_crc32 r.1.

(** The result and the new word; [None] is a NULL pointer. *)
Definition ota_state_resolve_pending (state : option Z) (fail_code : Z) : Z * option Z :=
  match state with
  | None => (0, None)
  | Some w =>
      if ota_state_pending_get w =? 0 then (0, Some w) else
      let current := ota_state_partition_get w in
      let w := ota_state_bit_put w OTA_STATE_BIT_CURRENT
                 (if current =? OTA_STATE_PARTITION_IMAGE_1 then OTA_STATE_PARTITION_IMAGE_0
                  else OTA_STATE_PARTITION_IMAGE_1) in
      let w := ota_state_bit_put w OTA_STATE_BIT_PENDING 0 in
      let w := ota_state_bit_put w OTA_STATE_BIT_TRIAL 0 in
      (1, Some (ota_state_fail_put w fail_code))
  end.

(** ** Flash *)

Definition FLASH_AREA_ID_IMAGE_0 : Z := 0.
Definition FLASH_AREA_ID_IMAGE_1 : Z := 1.
Definition FLASH_AREA_ID_BOOTLOADER : Z := 2.
Definition FLASH_AREA_ID_STATE : Z := 3.

Record flash_area := mk_area { fa_id : Z; fa_device_id : Z; fa_offset : Z; fa_size : Z }.

(** The functions a platform registers. *)
Class FlashOps (F : Type) := {
  ops_open : F -> Z -> Z * option flash_area;
  ops_erase : F -> flash_area -> Z -> Z -> Z * F;
  ops_write : F -> flash_area -> Z -> list Z -> Z * F;
  ops_read : F -> flash_area -> Z -> Z -> Z * list Z
}.

Definition blank (n : nat) : list Z := replicate n 255.

(** What flash.h documents of a working device: the bytes of an area, which a write to blank
    bytes stores and an erase from the start blanks; other areas keep their bytes.  An area
    is smaller than 2 GB. *)
Class FlashLaws (F : Type) `{FlashOps F} := {
  content : F -> Z -> list Z;
  content_u8 f id : Forall is_u8 (content f id);
  content_small f id : Z.of_nat (length (content f id)) < 2 ^ 31;
  open_law f id : ∃ a, ops_open f id = (ERR_OK, Some a) /\ fa_id a = id /\
    fa_size a = Z.of_nat (length (content f id));
  read_law f a off len : 0 <= off -> 0 <= len -> off + len <= Z.of_nat (length (content f (fa_id a))) ->
    ops_read f a off len = (ERR_OK, take (Z.to_nat len) (drop (Z.to_nat off) (content f (fa_id a))));
  write_law f a off d : 0 <= off -> Forall is_u8 d ->
    off + Z.of_nat (length d) <= Z.of_nat (length (content f (fa_id a))) ->
    take (length d) (drop (Z.to_nat off) (content f (fa_id a))) = blank (length d) ->
    ∃ f', ops_write f a off d = (ERR_OK, f') /\
      content f' (fa_id a) = take (Z.to_nat off) (content f (fa_id a)) ++ d ++
                             drop (Z.to_nat off + length d) (content f (fa_id a)) /\
      ∀ id, id ≠ fa_id a -> content f' id = content f id;
  erase_law f a len : 0 <= len -> len <= Z.of_nat (length (content f (fa_id a))) ->
    ∃ f', ops_erase f a 0 len = (ERR_OK, f') /\
      length (content f' (fa_id a)) = length (content f (fa_id a)) /\
      take (Z.to_nat len) (content f' (fa_id a)) = blank (Z.to_nat len) /\
      ∀ id, id ≠ fa_id a -> content f' id = content f id
}.

Section flash.
Context {F : Type} `{FlashOps F}.

(** [s_flash_ops] is set once a platform has registered its functions. *)
Record flash_sys := mk_flash { s_flash_ops : bool; dev : F }.

(** [complete]: all mandatory functions are there. *)
Definition flash_ops_register (s : flash_sys) (complete : bool) : Z * flash_sys :=
  if negb complete then (ERR_ARG, s) else (ERR_OK, mk_flash true (dev s)).

Definition flash_area_open (s : flash_sys) (id : Z) : Z * option flash_area :=
  if negb (s_flash_ops s) then (ERR_NOT_SUPPORTED, None) else ops_open (dev s) id.

Definition flash_area_erase_operation (s : flash_sys) (a : flash_area) (off len : Z) : Z * flash_sys :=
  if negb (s_flash_ops s) then (ERR_NOT_SUPPORTED, s) else
  let '(rc, f) := ops_erase (dev s) a off len in (rc, mk_flash (s_flash_ops s) f).

Definition flash_area_write_operation (s : flash_sys) (a : flash_area) (off : Z) (buf : list Z) : Z * flash_sys :=
  if negb (s_flash_ops s) then (ERR_NOT_SUPPORTED, s) else
  let '(rc, f) := ops_write (dev s) a off buf in (rc, mk_flash (s_flash_ops s) f).

Definition flash_area_read_operation (s : flash_sys) (a : flash_area) (off len : Z) : Z * list Z :=
  if negb (s_flash_ops s) then (ERR_NOT_SUPPORTED, []) else ops_read (dev s) a off len.

(** ** The append log *)

Definition OTA_STATE_REC_BYTES : Z := 8.
Definition OTA_STATE_BLANK_WORD : Z := 0xFFFFFFFF.

(** The two words of eight bytes read. *)
Definition rec_of (b : list Z) : record :=
  match b with
  | [b0; b1; b2; b3; b4; b5; b6; b7] => (of_le32 b0 b1 b2 b3, of_le32 b4 b5 b6 b7)
  | _ => (0, 0)
  end.

Record state_scan_t := mk_scan { used : Z; latest : option record }.

Definition is_blank (r : record) : bool := (r.1 =? OTA_STATE_BLANK_WORD) && (r.2 =? OTA_STATE_BLANK_WORD).

(** The loop of [state_scan]; a round advances by one record, so the size of the area bounds
    the rounds. *)
Fixpoint scan_loop (fuel : nat) (s : flash_sys) (a : flash_area) (off : Z) (out : state_scan_t) : Z * state_scan_t :=
  match fuel with
  | O => (ERR_OK, out)
  | S fuel =>
      if negb (u32 (off + OTA_STATE_REC_BYTES) <=? fa_size a) then (ERR_OK, out) else
      let '(rc, b) := flash_area_read_operation s a off OTA_STATE_REC_BYTES in
      if negb (rc =? ERR_OK) then (rc, out) else
      let r := rec_of b in
      if is_blank r then (ERR_OK, out) else
      if negb (ota_state_record_valid r) then (ERR_OK, out) else
      let off := u32 (off + OTA_STATE_REC_BYTES) in
      scan_loop fuel s a off (mk_scan off (Some r))
  end.

Definition state_scan (s : flash_sys) (a : flash_area) : Z * state_scan_t :=
  scan_loop (S (Z.to_nat (fa_size a))) s a 0 (mk_scan 0 None).

Definition flash_state_load (s : flash_sys) : Z * option record :=
  let '(rc, area) := flash_area_open s FLASH_AREA_ID_STATE in
  if negb (rc =? ERR_OK) then (rc, None) else
  match area with
  | None => (ERR_ARG, None)
  | Some a =>
      let '(rc, scan) := state_scan s a in
      if negb (rc =? ERR_OK) then (rc, None) else
      match latest scan with
      | None => (ERR_OTA_STATE, None)
      | Some r => (ERR_OK, Some r)
      end
  end.

(** Where the record goes, after an erase if the place is not blank. *)
Definition place_record (s : flash_sys) (a : flash_area) (off : Z) : Z * Z * flash_sys :=
  if u32 (off + OTA_STATE_REC_BYTES) >? fa_size a then
    let '(rc, s) := flash_area_erase_operation s a 0 (fa_size a) in (rc, 0, s)
  else
    let '(rc, b) := flash_area_read_operation s a off OTA_STATE_REC_BYTES in
    if (rc =? ERR_OK) && negb (is_blank (rec_of b)) then
      let '(rc, s) := flash_area_erase_operation s a 0 (fa_size a) in (rc, 0, s)
    else (rc, off, s).

Definition flash_state_store (s : flash_sys) (r : record) : Z * flash_sys :=
  let '(rc, area) := flash_area_open s FLASH_AREA_ID_STATE in
  if negb (rc =? ERR_OK) then (rc, s) else
  match area with
  | None => (ERR_ARG, s)
  | Some a =>
      if fa_size a <? OTA_STATE_REC_BYTES then (ERR_ARG, s) else
      let '(rc, scan) := state_scan s a in
      if negb (rc =? ERR_OK) then (rc, s) else
      let '(rc, off, s) := place_record s a (used scan) in
      if negb (rc =? ERR_OK) then (rc, s) else
      let '(rc, s) := flash_area_write_operation s a off (le32 r.1) in
      if negb (rc =? ERR_OK) then (rc, s) else
      flash_area_write_operation s a (u32 (off + 4)) (le32 r.2)
  end.
End flash.
Arguments flash_sys : clear implicits.

(** ** The high-level interface, over any backend *)

(** A registered backend: [ota_state_ops_t]. *)
Class StateBackend (B : Type) := {
  backend_load : B -> Z * option record;
  backend_store : B -> record -> Z * B
}.

#[export] Instance flash_backend {F} `{FlashOps F} : StateBackend (flash_sys F) :=
  {| backend_load := flash_state_load; backend_store := flash_state_store |}.

Section core.
Context {B : Type} `{StateBackend B}.

(** [s_state_ops] is set once a backend is registered. *)
Record state_sys := mk_state { s_state_ops : bool; backend : B }.

(** [complete]: the table and both functions are there. *)
Definition ota_state_ops_register (s : state_sys) (complete : bool) : Z * state_sys :=
  if negb complete then (ERR_ARG, s) else (ERR_OK, mk_state true (backend s)).

(** Registers the functions of the log, which are both there. *)
Definition ota_state_flash_register (s : state_sys) : Z * state_sys := ota_state_ops_register s true.

(** [wanted]: the output pointer is not NULL. *)
Definition ota_state_load (s : state_sys) (wanted : bool) : Z * option Z :=
  if negb wanted then (ERR_ARG, None) else
  if negb (s_state_ops s) then (ERR_NOT_SUPPORTED, None) else
  let '(rc, r) := backend_load (backend s) in
  if negb (rc =? ERR_OK) then (rc, None) else
  match r with
  | None => (ERR_OTA_STATE, None)
  | Some r => if negb (ota_state_record_valid r) then (ERR_OTA_STATE, None) else (ERR_OK, Some r.1)
  end.

Definition ota_state_store (s : state_sys) (state_word : Z) : Z * state_sys :=
  if negb (s_state_ops s) then (ERR_NOT_SUPPORTED, s) else
  let '(rc, b) := backend_store (backend s) (ota_state_record_build state_word) in
  (rc, mk_state (s_state_ops s) b).

Definition ota_state_update (s : state_sys) (mask value : Z) : Z * state_sys :=
  if negb (s_state_ops s) then (ERR_NOT_SUPPORTED, s) else
  let cur := match ota_state_load s true with
             | (rc, Some w) => if rc =? ERR_OK then w else 0
             | (_, None) => 0
             end in
  ota_state_store s (Z.land (Z.lor (Z.land cur (u32 (Z.lnot mask))) (Z.land value mask)) OTA_STATE_DURABLE_MASK).
End core.
Arguments state_sys : clear implicits.

(** ** Words and records *)

Lemma land_lor_mask w m c d :
  Z.land (Z.lor (Z.land w m) c) d = Z.lor (Z.land w (Z.land m d)) (Z.land c d).
Proof. by rewrite Z.land_lor_distr_l, Z.land_assoc. Qed.

Lemma with_magic_magic w :
  Z.land (ota_state_with_magic w) OTA_STATE_MAGIC_MASK = 0xA500.
Proof.
  unfold ota_state_with_magic. rewrite land_lor_mask.
  change (Z.land (u32 (Z.lnot OTA_STATE_MAGIC_MASK)) OTA_STATE_MAGIC_MASK) with 0.
  rewrite Z.land_0_r. vm_compute. done.
Qed.

(** The magic leaves the durable bits. *)
Lemma with_magic_durable w :
  Z.land (ota_state_with_magic w) OTA_STATE_DURABLE_MASK = Z.land w OTA_STATE_DURABLE_MASK.
Proof.
  unfold ota_state_with_magic. rewrite land_lor_mask.
  change (Z.land (u32 (Z.lnot OTA_STATE_MAGIC_MASK)) OTA_STATE_DURABLE_MASK) with OTA_STATE_DURABLE_MASK.
  change (Z.land (Z.land _ _) OTA_STATE_DURABLE_MASK) with 0. apply Z.lor_0_r.
Qed.

Lemma record_build_valid w : ota_state_record_valid (ota_state_record_build w) = true.
Proof.
  unfold ota_state_record_valid, ota_state_record_build. cbn [fst snd]. rewrite with_magic_magic.
  apply Z.eqb_refl.
Qed.

Lemma land_u32 w m : is_u32 m -> 0 <= w -> is_u32 (Z.land w m).
Proof.
  unfold is_u32. intros Hm Hw. split; [apply Z.land_nonneg; by left|].
  destruct (Z.eq_dec (Z.land w m) 0) as [->|Hne]; [lia|].
  assert (0 <= Z.land w m) by (apply Z.land_nonneg; by left).
  change 4294967296 with (2 ^ 32). apply Z.log2_lt_pow2; [lia|].
  eapply Z.le_lt_trans; [apply Z.log2_land; lia|]. apply Z.min_lt_iff. right.
  destruct (Z.eq_dec m 0) as [->|]; [reflexivity|]. apply Z.log2_lt_pow2; lia.
Qed.

Lemma lor_u32 a b : is_u32 a -> is_u32 b -> is_u32 (Z.lor a b).
Proof.
  unfold is_u32. intros Ha Hb. assert (0 <= Z.lor a b) by (apply Z.lor_nonneg; lia). split; [done|].
  destruct (Z.eq_dec (Z.lor a b) 0) as [->|Hne]; [lia|].
  change 4294967296 with (2 ^ 32). apply Z.log2_lt_pow2; [lia|]. rewrite Z.log2_lor by lia.
  apply Z.max_lub_lt.
  - destruct (Z.eq_dec a 0) as [->|]; [reflexivity|]. apply Z.log2_lt_pow2; lia.
  - destruct (Z.eq_dec b 0) as [->|]; [reflexivity|]. apply Z.log2_lt_pow2; lia.
Qed.

Lemma with_magic_u32 w : 0 <= w -> is_u32 (ota_state_with_magic w).
Proof. intros Hw. apply lor_u32; [apply land_u32; [split; vm_compute; done|done]|split; vm_compute; done]. Qed.

Lemma crc32_u32 w : is_u32 (ota_state_crc32 w).
Proof.
  unfold ota_state_crc32.
  destruct (crc_stream_start_wf stream_zero 0xFFFFFFFF true true 0xFFFFFFFF 0x04C11DB7 32) as (s & Es & Hs); [lia|].
  set (bytes := [_; _; _; _]). assert (Forall is_u8 bytes) as Hb by (repeat constructor; apply u8_range).
  destruct (crc_stream_feed_fed false s bytes cache_zero Hb Hs cache_zero_ok) as (c & Ef & _).
  rewrite Es, Ef. unfold crc_stream_finish. rewrite (stream_wf_on (fed s bytes)) by (by apply fed_wf).
  unfold crc_finalize. cbn [fed set_reg st_width st_refin st_refout]. destruct Hs as (Hw & _ & _).
  assert (st_width s = 32) as -> by (by injection Es as <-).
  split; [apply Z.land_nonneg; right; vm_compute; done|].
  change (crc_mask 32) with (Z.ones 32). rewrite Z.land_ones by lia. apply Z.mod_pos_bound. lia.
Qed.

(** The CRC does not depend on the engine the build selects, nor on the cached table. *)
Lemma ota_state_crc32_any_engine mode c w :
  cache_ok c ->
  ∃ s' c', crc_stream_feed mode (crc_stream_start (Some stream_zero) 0xFFFFFFFF true true 0xFFFFFFFF 0x04C11DB7 32)
    [u8 (Z.shiftr w 0); u8 (Z.shiftr w 8); u8 (Z.shiftr w 16); u8 (Z.shiftr w 24)] c = Some (s', c') /\
    crc_stream_finish s' = ota_state_crc32 w.
Proof.
  intros Hc. unfold ota_state_crc32.
  destruct (crc_stream_start_wf stream_zero 0xFFFFFFFF true true 0xFFFFFFFF 0x04C11DB7 32) as (s & Es & Hs); [lia|].
  rewrite Es. set (bytes := [_; _; _; _]). assert (Forall is_u8 bytes) as Hb by (repeat constructor; apply u8_range).
  destruct (crc_stream_feed_fed mode s bytes c Hb Hs Hc) as (c1 & -> & _).
  destruct (crc_stream_feed_fed false s bytes cache_zero Hb Hs cache_zero_ok) as (c2 & -> & _). eauto.
Qed.

(** A record the interface builds. *)
Definition good_record (r : record) : Prop := is_u32 r.1 /\ is_u32 r.2 /\ ota_state_record_valid r = true.

Lemma record_build_good w : 0 <= w -> good_record (ota_state_record_build w).
Proof. intros Hw. split; [by apply with_magic_u32|]. split; [apply crc32_u32|apply record_build_valid]. Qed.

Definition rec_bytes (r : record) : list Z := le32 r.1 ++ le32 r.2.
Definition log_bytes (rs : list record) : list Z := concat (rec_bytes <$> rs).

Lemma le32_u8 w : Forall is_u8 (le32 w).
Proof.
  unfold le32. repeat constructor; change 255 with (Z.ones 8); rewrite Z.land_ones by lia;
    apply Z.mod_pos_bound; lia.
Qed.

Lemma rec_of_bytes r : is_u32 r.1 -> is_u32 r.2 -> rec_of (rec_bytes r) = r.
Proof.
  intros H1 H2. unfold rec_bytes, rec_of, le32. cbn [app]. rewrite !of_le32_spec.
  destruct r as [a b]. cbn [fst snd] in *. by rewrite !u32_small.
Qed.

Lemma log_bytes_length rs : length (log_bytes rs) = (8 * length rs)%nat.
Proof. induction rs as [|r rs IH]; [done|]. unfold log_bytes in *. cbn. cbn in IH. rewrite IH. lia. Qed.

Lemma log_bytes_snoc rs r : log_bytes (rs ++ [r]) = log_bytes rs ++ rec_bytes r.
Proof. unfold log_bytes. rewrite fmap_app, concat_app. done. Qed.

(** A word with the magic is not blank. *)
Lemma magic_not_blank r : ota_state_record_valid r = true -> is_blank r = false.
Proof.
  unfold ota_state_record_valid, is_blank. intros H. destruct (Z.eqb_spec r.1 OTA_STATE_BLANK_WORD) as [E|]; [|done].
  rewrite E in H. done.
Qed.

(** What may follow the records: blank bytes, possibly behind the bytes of a record that is
    neither blank nor valid. *)
Definition stops (tail : list Z) : Prop :=
  (length tail < 8)%nat \/ is_blank (rec_of (take 8 tail)) = true \/ ota_state_record_valid (rec_of (take 8 tail)) = false.

Lemma blank_rec n : (8 <= n)%nat -> is_blank (rec_of (take 8 (blank n))) = true.
Proof.
  intros Hn. unfold blank. rewrite take_replicate, Nat.min_l by lia. vm_compute. done.
Qed.

Section log.
Context {F : Type} `{FlashLaws F}.
Implicit Types (f : F) (s : flash_sys F) (a : flash_area).

Definition state_bytes (s : flash_sys F) : list Z := content (dev s) FLASH_AREA_ID_STATE.

Lemma rec_off s a off k :
  fa_size a = Z.of_nat (length (state_bytes s)) -> 0 <= off <= fa_size a -> 0 <= k <= 8 ->
  u32 (off + k) = off + k.
Proof. intros Hsz Hn Hk. apply u32_small. pose proof (content_small (dev s) FLASH_AREA_ID_STATE). unfold state_bytes in *. lia. Qed.

Lemma scan_loop_spec fuel s a todo done tail :
  s_flash_ops s = true -> fa_id a = FLASH_AREA_ID_STATE -> fa_size a = Z.of_nat (length (state_bytes s)) ->
  state_bytes s = log_bytes (done ++ todo) ++ tail -> Forall good_record todo -> stops tail ->
  (length todo < fuel)%nat ->
  scan_loop fuel s a (8 * Z.of_nat (length done)) (mk_scan (8 * Z.of_nat (length done)) (list.last done)) =
    (ERR_OK, mk_scan (8 * Z.of_nat (length (done ++ todo))) (list.last (done ++ todo))).
Proof.
  intros Hreg Hid Hsz. revert done fuel. induction todo as [|r todo IH]; intros done fuel Hb Hgood Hstop Hfuel;
    (destruct fuel as [|fuel]; [cbn in Hfuel; lia|]); cbn [scan_loop]; unfold OTA_STATE_REC_BYTES.
  - rewrite app_nil_r in *. assert (length (state_bytes s) = (8 * length done + length tail)%nat) as Hlen.
    { rewrite Hb, length_app, log_bytes_length. lia. }
    rewrite (rec_off s a) by (done || lia).
    destruct (Z.leb_spec (8 * Z.of_nat (length done) + 8) (fa_size a)) as [Hle|]; [|done]. cbn [negb].
    unfold flash_area_read_operation. rewrite Hreg. cbn [negb].
    assert (content (dev s) (fa_id a) = state_bytes s) as Ec by (by rewrite Hid).
    rewrite read_law by (rewrite ?Ec; lia). rewrite Ec, Hb. cbn [negb Z.eqb].
    rewrite drop_app_ge by (rewrite log_bytes_length; lia).
    replace (Z.to_nat (8 * Z.of_nat (length done)) - length (log_bytes done))%nat with O by (rewrite log_bytes_length; lia).
    rewrite drop_0. change (Z.to_nat 8) with 8%nat. change (ERR_OK =? ERR_OK) with true. cbn [negb].
    destruct Hstop as [Hlt|[->|Hv]]; [rewrite Hlen in Hsz; lia|done|].
    destruct (is_blank _); [done|]. by rewrite Hv.
  - apply Forall_cons_1 in Hgood as [(Hr1 & Hr2 & Hv) Hgood].
    assert (length (state_bytes s) = (8 * length done + (8 + (8 * length todo + length tail)))%nat) as Hlen.
    { rewrite Hb, !length_app, log_bytes_length, length_app. cbn. lia. }
    rewrite (rec_off s a) by (done || lia). rewrite (proj2 (Z.leb_le _ _)) by lia. cbn [negb].
    unfold flash_area_read_operation. rewrite Hreg. cbn [negb].
    assert (content (dev s) (fa_id a) = state_bytes s) as Ec by (by rewrite Hid).
    rewrite read_law by (rewrite ?Ec; lia). rewrite Ec, Hb. change (ERR_OK =? ERR_OK) with true. cbn [negb].
    assert (take (Z.to_nat 8) (drop (Z.to_nat (8 * Z.of_nat (length done))) (log_bytes (done ++ r :: todo) ++ tail)) = rec_bytes r) as ->.
    { replace (done ++ r :: todo) with ((done ++ [r]) ++ todo) by (by rewrite <- app_assoc).
      unfold log_bytes at 1. rewrite fmap_app, concat_app, <- app_assoc.
      change (concat (rec_bytes <$> done ++ [r])) with (log_bytes (done ++ [r])). rewrite log_bytes_snoc, <- app_assoc.
      rewrite drop_app_ge by (rewrite log_bytes_length; lia).
      replace (Z.to_nat (8 * Z.of_nat (length done)) - length (log_bytes done))%nat with O by (rewrite log_bytes_length; lia).
      done. }
    rewrite rec_of_bytes by done. rewrite magic_not_blank, Hv by done. cbn [negb]. cbv zeta.
    replace (8 * Z.of_nat (length done) + 8) with (8 * Z.of_nat (length (done ++ [r]))) by (rewrite length_app; cbn; lia).
    rewrite <- (list.last_snoc r done). replace (done ++ r :: todo) with ((done ++ [r]) ++ todo) in * by (by rewrite <- app_assoc).
    apply IH; try done. cbn in Hfuel. lia.
Qed.
Lemma blank_length n : length (blank n) = n.
Proof. apply length_replicate. Qed.

(** A log: records, then blank bytes, possibly behind eight bytes that are no record. *)
Definition tail_ok (tail : list Z) : Prop :=
  ∃ h n, tail = h ++ blank n /\
    (h = [] \/ (length h = 8%nat /\ is_blank (rec_of h) = false /\ ota_state_record_valid (rec_of h) = false)).

Lemma tail_ok_stops tail : tail_ok tail -> stops tail.
Proof.
  intros (h & n & -> & [->|(Hl & _ & Hv)]).
  - destruct (decide (n < 8)%nat); [left; by rewrite app_nil_l, blank_length|].
    right; left. apply blank_rec. lia.
  - right; right. by rewrite take_app_length'.
Qed.

Definition sector (s : flash_sys F) (rs : list record) : Prop :=
  s_flash_ops s = true /\ Forall good_record rs /\
  ∃ tail, state_bytes s = log_bytes rs ++ tail /\ tail_ok tail.

Lemma state_area s : s_flash_ops s = true ->
  ∃ a, flash_area_open s FLASH_AREA_ID_STATE = (ERR_OK, Some a) /\ fa_id a = FLASH_AREA_ID_STATE /\
    fa_size a = Z.of_nat (length (state_bytes s)).
Proof.
  intros Hr. unfold flash_area_open. rewrite Hr. cbn [negb].
  destruct (open_law (dev s) FLASH_AREA_ID_STATE) as (a & -> & ? & ?). eauto.
Qed.

Lemma state_scan_spec s a rs :
  sector s rs -> fa_id a = FLASH_AREA_ID_STATE -> fa_size a = Z.of_nat (length (state_bytes s)) ->
  state_scan s a = (ERR_OK, mk_scan (8 * Z.of_nat (length rs)) (list.last rs)).
Proof.
  intros (Hr & Hg & tail & Hb & Ht) Hid Hsz. unfold state_scan.
  apply (scan_loop_spec _ s a rs [] tail); try done; [by apply tail_ok_stops|].
  rewrite Hsz, Hb, length_app, log_bytes_length. lia.
Qed.

(** Loading gives the last record. *)
Lemma flash_state_load_spec s rs :
  sector s rs ->
  flash_state_load s = match list.last rs with Some r => (ERR_OK, Some r) | None => (ERR_OTA_STATE, None) end.
Proof.
  intros Hs. unfold flash_state_load. destruct (state_area s) as (a & -> & Hid & Hsz); [apply Hs|].
  cbn [negb]. change (ERR_OK =? ERR_OK) with true. cbn [negb].
  rewrite (state_scan_spec s a rs) by done. change (ERR_OK =? ERR_OK) with true. cbn [negb latest].
  by destruct (list.last rs).
Qed.

Lemma read_state s a off n :
  s_flash_ops s = true -> fa_id a = FLASH_AREA_ID_STATE -> (off + n <= length (state_bytes s))%nat ->
  flash_area_read_operation s a (Z.of_nat off) (Z.of_nat n) = (ERR_OK, take n (drop off (state_bytes s))).
Proof.
  intros Hr Hid Hl. unfold flash_area_read_operation. rewrite Hr. cbn [negb].
  unfold state_bytes in *. rewrite read_law by (rewrite ?Hid; lia). by rewrite Hid, !Nat2Z.id.
Qed.

Definition kept (f f' : F) : Prop :=
  length (content f' FLASH_AREA_ID_STATE) = length (content f FLASH_AREA_ID_STATE) /\
  ∀ id, id ≠ FLASH_AREA_ID_STATE -> content f' id = content f id.

Lemma kept_trans f g h : kept f g -> kept g h -> kept f h.
Proof. intros [L1 K1] [L2 K2]. split; [congruence|]. intros id Hid. by rewrite K2, K1. Qed.

Lemma write_blank s a pre d post :
  s_flash_ops s = true -> fa_id a = FLASH_AREA_ID_STATE -> Forall is_u8 d ->
  state_bytes s = pre ++ blank (length d) ++ post ->
  ∃ s', flash_area_write_operation s a (Z.of_nat (length pre)) d = (ERR_OK, s') /\
    s_flash_ops s' = true /\ state_bytes s' = pre ++ d ++ post /\ kept (dev s) (dev s').
Proof.
  intros Hr Hid Hd Hb. unfold flash_area_write_operation. rewrite Hr. cbn [negb]. unfold state_bytes in *.
  assert (length (content (dev s) (fa_id a)) = (length pre + (length d + length post))%nat) as Hlen.
  { by rewrite Hid, Hb, !length_app, blank_length. }
  destruct (write_law (dev s) a (Z.of_nat (length pre)) d) as (f & E & Ec & Ek); [lia|done|lia| |].
  { rewrite Hid, Hb, Nat2Z.id, drop_app_length. apply take_app_length'. by rewrite blank_length. }
  rewrite E. eexists. split; [done|]. cbn [s_flash_ops dev]. rewrite Hid, Nat2Z.id in *.
  assert (content f FLASH_AREA_ID_STATE = pre ++ d ++ post) as Ef.
  { rewrite Ec, Hb, take_app_length. do 2 f_equal. rewrite drop_app_ge, drop_app_ge by (rewrite ?blank_length; lia).
    rewrite blank_length.
    replace (_ - _)%nat with O by lia. done. }
  split; [done|]. split; [done|]. split; [|done]. rewrite Ef, Hlen, !length_app. done.
Qed.
Lemma read_record s a n :
  s_flash_ops s = true -> fa_id a = FLASH_AREA_ID_STATE -> (8 * n + 8 <= length (state_bytes s))%nat ->
  flash_area_read_operation s a (8 * Z.of_nat n) 8 = (ERR_OK, take 8 (drop (8 * n) (state_bytes s))).
Proof.
  intros Hr Hid Hl. rewrite <- (read_state s a (8 * n) 8) by done. f_equal. lia.
Qed.

Lemma write_record s a pre r n :
  s_flash_ops s = true -> fa_id a = FLASH_AREA_ID_STATE ->
  state_bytes s = pre ++ blank (8 + n) ->
  ∃ s1 s2, flash_area_write_operation s a (Z.of_nat (length pre)) (le32 r.1) = (ERR_OK, s1) /\
    flash_area_write_operation s1 a (Z.of_nat (length pre) + 4) (le32 r.2) = (ERR_OK, s2) /\
    s_flash_ops s2 = true /\ state_bytes s2 = pre ++ rec_bytes r ++ blank n /\ kept (dev s) (dev s2).
Proof.
  intros Hr Hid Hb.
  destruct (write_blank s a pre (le32 r.1) (blank (4 + n))) as (s1 & E1 & Hr1 & Hb1 & K1);
    [done|done|apply le32_u8|exact Hb|].
  destruct (write_blank s1 a (pre ++ le32 r.1) (le32 r.2) (blank n)) as (s2 & E2 & Hr2 & Hb2 & K2);
    [done|done|apply le32_u8|by rewrite Hb1, <- app_assoc|].
  exists s1, s2. split; [done|]. rewrite length_app in E2. change (length (le32 r.1)) with 4%nat in E2.
  rewrite Nat2Z.inj_add in E2. split; [exact E2|]. split; [done|].
  split; [by rewrite Hb2; unfold rec_bytes; rewrite <- !app_assoc|]. by eapply kept_trans.
Qed.

Lemma erase_state s a :
  s_flash_ops s = true -> fa_id a = FLASH_AREA_ID_STATE -> fa_size a = Z.of_nat (length (state_bytes s)) ->
  ∃ s', flash_area_erase_operation s a 0 (fa_size a) = (ERR_OK, s') /\
    s_flash_ops s' = true /\ state_bytes s' = blank (length (state_bytes s)) /\ kept (dev s) (dev s').
Proof.
  intros Hr Hid Hsz. unfold flash_area_erase_operation. rewrite Hr. cbn [negb]. unfold state_bytes in *.
  destruct (erase_law (dev s) a (fa_size a)) as (f & -> & Hl & Hc & Hk); [lia|rewrite Hid; lia|].
  eexists. split; [done|]. cbn [s_flash_ops dev]. rewrite Hid in *. rewrite Hsz, Nat2Z.id in Hc.
  rewrite take_ge in Hc by lia. by split_and!.
Qed.

(** The place is free: it is where the log ends. *)
Lemma place_room s a rs n :
  s_flash_ops s = true -> fa_id a = FLASH_AREA_ID_STATE -> fa_size a = Z.of_nat (length (state_bytes s)) ->
  state_bytes s = log_bytes rs ++ blank (8 + n) ->
  place_record s a (8 * Z.of_nat (length rs)) = (ERR_OK, 8 * Z.of_nat (length rs), s).
Proof.
  intros Hr Hid Hsz Hb.
  assert (length (state_bytes s) = (8 * length rs + (8 + n))%nat) as Hl by (by rewrite Hb, length_app, log_bytes_length, blank_length).
  unfold place_record, OTA_STATE_REC_BYTES. rewrite (rec_off s a) by (done || lia).
  rewrite Z.gtb_ltb, (proj2 (Z.ltb_ge _ _)) by lia.
  rewrite (read_record s a (length rs)) by (done || lia). rewrite Hb, drop_app_length' by (by rewrite log_bytes_length).
  change (ERR_OK =? ERR_OK) with true. rewrite blank_rec by lia. done.
Qed.

(** The sector is full, or it ends in bytes that are no record: it is erased. *)
Lemma place_erase s a rs tail :
  s_flash_ops s = true -> fa_id a = FLASH_AREA_ID_STATE -> fa_size a = Z.of_nat (length (state_bytes s)) ->
  state_bytes s = log_bytes rs ++ tail -> (length tail < 8)%nat \/ is_blank (rec_of (take 8 tail)) = false ->
  place_record s a (8 * Z.of_nat (length rs)) =
    let '(rc, s) := flash_area_erase_operation s a 0 (fa_size a) in (rc, 0, s).
Proof.
  intros Hr Hid Hsz Hb Hf.
  assert (length (state_bytes s) = (8 * length rs + length tail)%nat) as Hl by (by rewrite Hb, length_app, log_bytes_length).
  unfold place_record, OTA_STATE_REC_BYTES. rewrite (rec_off s a) by (done || lia). rewrite Z.gtb_ltb.
  destruct (Z.ltb_spec (fa_size a) (8 * Z.of_nat (length rs) + 8)) as [|Hroom]; [done|].
  destruct Hf as [|Hf]; [lia|].
  rewrite (read_record s a (length rs)) by (done || lia). rewrite Hb, drop_app_length' by (by rewrite log_bytes_length).
  change (ERR_OK =? ERR_OK) with true. by rewrite Hf.
Qed.

(** The tail is room for a record, or the sector needs erasing. *)
Lemma tail_cases tail :
  tail_ok tail -> (∃ n, tail = blank (8 + n)) \/ (length tail < 8)%nat \/ is_blank (rec_of (take 8 tail)) = false.
Proof.
  intros (h & n & -> & [->|(Hl & Hb & _)]).
  - destruct (decide (n < 8)%nat); [right; left; by rewrite app_nil_l, blank_length|].
    left. exists (n - 8)%nat. rewrite app_nil_l. f_equal. lia.
  - right; right. by rewrite take_app_length'.
Qed.

Lemma flash_state_store_spec s rs r :
  sector s rs -> (8 <= length (state_bytes s))%nat -> good_record r ->
  ∃ s' rs', flash_state_store s r = (ERR_OK, s') /\ (rs' = rs \/ rs' = []) /\ sector s' (rs' ++ [r]) /\
    kept (dev s) (dev s').
Proof.
  intros Hs H8 Hgr. pose proof Hs as (Hr & Hg & tail & Hb & Ht). unfold flash_state_store.
  destruct (state_area s Hr) as (a & -> & Hid & Hsz). change (ERR_OK =? ERR_OK) with true. cbn [negb].
  rewrite (proj2 (Z.ltb_ge _ _)) by (unfold OTA_STATE_REC_BYTES; lia).
  rewrite (state_scan_spec s a rs) by done. change (ERR_OK =? ERR_OK) with true. cbn [negb used].
  assert (∃ off rs' s1 n, place_record s a (8 * Z.of_nat (length rs)) = (ERR_OK, Z.of_nat off, s1) /\
    off = length (log_bytes rs') /\ (rs' = rs \/ rs' = []) /\ Forall good_record rs' /\ s_flash_ops s1 = true /\
    state_bytes s1 = log_bytes rs' ++ blank (8 + n) /\ kept (dev s) (dev s1)) as
    (off & rs' & s1 & n & -> & Hoff & Hrs & Hg1 & Hr1 & Hb1 & K1).
  { destruct (tail_cases tail Ht) as [[n ->]|Hf].
    - exists (8 * length rs)%nat, rs, s, n. rewrite (place_room s a rs n) by done.
      split; [by rewrite Nat2Z.inj_mul|]. rewrite log_bytes_length. split_and!; try done. by left.
    - rewrite (place_erase s a rs tail) by done.
      destruct (erase_state s a) as (s1 & -> & Hr1 & Hb1 & K1); [done..|].
      exists O, [], s1, (length (state_bytes s) - 8)%nat. split_and!; try done; [by right|].
      rewrite Hb1. change (log_bytes []) with (@nil Z). rewrite app_nil_l. f_equal. lia. }
  change (ERR_OK =? ERR_OK) with true. cbn [negb].
  destruct (write_record s1 a (log_bytes rs') r n) as (s2 & s3 & E2 & E3 & Hr3 & Hb3 & K3); [done..|].
  rewrite Hoff. rewrite E2. change (ERR_OK =? ERR_OK) with true. cbn [negb].
  assert (length (log_bytes rs') <= length (state_bytes s))%nat as Hle.
  { destruct K1 as [L1 _]. unfold state_bytes in *. rewrite <- L1, Hb1, length_app. lia. }
  rewrite (rec_off s a) by (done || lia). rewrite E3.
  exists s3, rs'. split; [done|]. split; [done|]. split; [|by eapply kept_trans].
  split; [done|]. split; [apply Forall_app; split; [done|by apply list.Forall_singleton]|]. exists (blank n).
  split; [by rewrite Hb3, log_bytes_snoc, <- app_assoc|]. exists [], n. split; [done|by left].
Qed.
End log.

(** ** Power cuts *)

(** A device that loses power after so many steps: a byte written or an erase is a step.
    Reads go to the device. *)
Record cut (F : Type) := mk_cut { cut_dev : F; cut_left : nat }.
Arguments mk_cut {F} _ _.
Arguments cut_dev {F} _.
Arguments cut_left {F} _.

#[export] Instance cut_ops {F} `{FlashOps F} : FlashOps (cut F) := {|
  ops_open c id := ops_open (cut_dev c) id;
  ops_erase c a off len :=
    match cut_left c with
    | O => (ERR_OTA_HW, c)
    | S k => let '(rc, f) := ops_erase (cut_dev c) a off len in (rc, mk_cut f k)
    end;
  ops_write c a off d :=
    let '(rc, f) := ops_write (cut_dev c) a off (take (cut_left c) d) in
    if (length d <=? cut_left c)%nat then (rc, mk_cut f (cut_left c - length d)) else (ERR_OTA_HW, mk_cut f 0);
  ops_read c := ops_read (cut_dev c)
|}.

Lemma land_pow2 x k : 0 <= k -> Z.land x (2 ^ k) = if Z.testbit x k then 2 ^ k else 0.
Proof.
  intros Hk. apply Z.bits_inj'. intros n Hn. rewrite Z.land_spec, Z.pow2_bits_eqb by done.
  destruct (Z.eqb_spec k n) as [->|Hne].
  - destruct (Z.testbit x n) eqn:E; [by rewrite Z.pow2_bits_true|by rewrite Z.bits_0].
  - rewrite andb_false_r. destruct (Z.testbit x k); [by rewrite Z.pow2_bits_false|by rewrite Z.bits_0].
Qed.

(** What a cut write of a durable word leaves: nothing, the whole record, or no record. *)
Definition torn (w : Z) (k : nat) : list Z := take k (rec_bytes (ota_state_record_build w)) ++ blank (8 - k).

Definition torn_ok (w : Z) (k : nat) : bool :=
  let h := torn w k in
  bool_decide (h = blank 8) || bool_decide (h = rec_bytes (ota_state_record_build w)) ||
  (negb (is_blank (rec_of h)) && negb (ota_state_record_valid (rec_of h))).

Lemma torn_durable x : forallb (torn_ok (Z.land x OTA_STATE_DURABLE_MASK)) (seq 0 8) = true.
Proof.
  change OTA_STATE_DURABLE_MASK with (Z.lor (Z.lor (Z.lor (Z.lor (2 ^ 4) (2 ^ 5)) (2 ^ 6)) (2 ^ 7)) (2 ^ 16)).
  rewrite !Z.land_lor_distr_r, !land_pow2 by done.
  destruct (Z.testbit x 4), (Z.testbit x 5), (Z.testbit x 6), (Z.testbit x 7), (Z.testbit x 16);
    vm_compute; done.
Qed.

Lemma torn_tail x k n :
  let w := Z.land x OTA_STATE_DURABLE_MASK in
  let r := ota_state_record_build w in
  (k < 8)%nat -> tail_ok (torn w k ++ blank n) \/ torn w k = rec_bytes r.
Proof.
  intros w r Hk. assert (torn_ok w k = true) as H.
  { pose proof (torn_durable x) as H. rewrite forallb_forall in H. apply H. apply in_seq. lia. }
  unfold torn_ok in H. apply orb_true_iff in H as [H|H]; [apply orb_true_iff in H as [H|H]|].
  - apply bool_decide_eq_true in H. left. exists [], (8 + n)%nat. rewrite H. split; [|by left].
    unfold blank. by rewrite <- replicate_add.
  - apply bool_decide_eq_true in H. by right.
  - apply andb_true_iff in H as [H1 H2]. left. exists (torn w k), n. split; [done|]. right.
    split; [|by split; apply negb_true_iff]. unfold torn. rewrite length_app, blank_length, length_take.
    change (length (rec_bytes _)) with 8%nat. lia.
Qed.

Section cut.
Context {F : Type} `{FlashLaws F}.
Implicit Types (f : F) (s : flash_sys F) (a : flash_area).

(** The device of [s], about to lose power. *)
Definition dying (s : flash_sys F) (k : nat) : flash_sys (cut F) := mk_flash (s_flash_ops s) (mk_cut (dev s) k).
(** What is found at the next start. *)
Definition restart (s : flash_sys (cut F)) : flash_sys F := mk_flash true (cut_dev (dev s)).

Lemma scan_loop_cut fuel s k a off out : scan_loop fuel (dying s k) a off out = scan_loop fuel s a off out.
Proof.
  revert off out. induction fuel as [|fuel IH]; intros off out; [done|]. cbn [scan_loop].
  change (flash_area_read_operation (dying s k) a off OTA_STATE_REC_BYTES)
    with (flash_area_read_operation s a off OTA_STATE_REC_BYTES).
  destruct (flash_area_read_operation s a off OTA_STATE_REC_BYTES) as [rc b].
  repeat (case_match; [done|]). apply IH.
Qed.

Lemma write_cut s k a off d :
  s_flash_ops s = true ->
  flash_area_write_operation (dying s k) a off d =
    let '(rc, s1) := flash_area_write_operation s a off (take k d) in
    if (length d <=? k)%nat then (rc, dying s1 (k - length d)) else (ERR_OTA_HW, dying s1 0).
Proof.
  intros Hr. unfold flash_area_write_operation. cbn [s_flash_ops dying dev ops_write cut_ops cut_dev cut_left].
  rewrite Hr. cbn [negb]. destruct (ops_write (dev s) a off (take k d)) as [rc f].
  destruct (length d <=? k)%nat; unfold dying; cbn; by rewrite ?Hr.
Qed.

(** The bytes that reach the flash. *)
Lemma write_cut_blank s k a pre d post :
  s_flash_ops s = true -> fa_id a = FLASH_AREA_ID_STATE -> Forall is_u8 d ->
  state_bytes s = pre ++ blank (length d) ++ post ->
  ∃ s1, flash_area_write_operation (dying s k) a (Z.of_nat (length pre)) d =
      (if (length d <=? k)%nat then (ERR_OK, dying s1 (k - length d)) else (ERR_OTA_HW, dying s1 0)) /\
    s_flash_ops s1 = true /\ state_bytes s1 = pre ++ (take k d ++ blank (length d - k)) ++ post /\
    kept (dev s) (dev s1).
Proof.
  intros Hr Hid Hd Hb. rewrite write_cut by done.
  destruct (write_blank s a pre (take k d) (blank (length d - k) ++ post)) as (s1 & -> & Hr1 & Hb1 & K1);
    [done|done|by apply Forall_take| |].
  { rewrite Hb. f_equal. rewrite app_assoc. f_equal. unfold blank. rewrite <- replicate_add. f_equal.
    rewrite length_take. lia. }
  exists s1. split; [done|]. split; [done|]. split; [|done]. by rewrite Hb1, <- app_assoc.
Qed.

Lemma place_cut s k a rs n :
  s_flash_ops s = true -> fa_id a = FLASH_AREA_ID_STATE -> fa_size a = Z.of_nat (length (state_bytes s)) ->
  state_bytes s = log_bytes rs ++ blank (8 + n) ->
  place_record (dying s k) a (8 * Z.of_nat (length rs)) = (ERR_OK, 8 * Z.of_nat (length rs), dying s k).
Proof.
  intros Hr Hid Hsz Hb.
  assert (length (state_bytes s) = (8 * length rs + (8 + n))%nat) as Hl by (by rewrite Hb, length_app, log_bytes_length, blank_length).
  unfold place_record, OTA_STATE_REC_BYTES. rewrite (rec_off s a) by (done || lia).
  rewrite Z.gtb_ltb, (proj2 (Z.ltb_ge _ _)) by lia.
  change (flash_area_read_operation (dying s k) a (8 * Z.of_nat (length rs)) 8)
    with (flash_area_read_operation s a (8 * Z.of_nat (length rs)) 8).
  rewrite (read_record s a (length rs)) by (done || lia).
  rewrite Hb, drop_app_length' by (by rewrite log_bytes_length).
  change (ERR_OK =? ERR_OK) with true. rewrite blank_rec by lia. done.
Qed.

(** The two writes of a record, cut after [k] bytes. *)
Lemma write_record_cut s k a pre w n :
  let r := ota_state_record_build w in
  s_flash_ops s = true -> fa_id a = FLASH_AREA_ID_STATE -> state_bytes s = pre ++ blank (8 + n) ->
  ∃ res, (let '(rc, s1) := flash_area_write_operation (dying s k) a (Z.of_nat (length pre)) (le32 r.1) in
         if negb (rc =? ERR_OK) then (rc, s1) else
         flash_area_write_operation s1 a (Z.of_nat (length pre) + 4) (le32 r.2)) = res /\
    (res.1 = ERR_OK <-> (8 <= k)%nat) /\ s_flash_ops (restart res.2) = true /\
    state_bytes (restart res.2) = pre ++ torn w k ++ blank n /\ kept (dev s) (dev (restart res.2)).
Proof.
  intros r Hr Hid Hb. eexists. split; [reflexivity|].
  destruct (write_cut_blank s k a pre (le32 r.1) (blank (4 + n))) as (s1 & -> & Hr1 & Hb1 & K1);
    [done|done|apply le32_u8|exact Hb|].
  change (length (le32 r.1)) with 4%nat in *. destruct (Nat.leb_spec 4 k) as [H4|H4].
  - change (ERR_OK =? ERR_OK) with true. cbn [negb].
    destruct (write_cut_blank s1 (k - 4) a (pre ++ le32 r.1) (le32 r.2) (blank n)) as (s2 & E2 & Hr2 & Hb2 & K2);
      [done|done|apply le32_u8| |].
    { rewrite Hb1, take_ge, <- !app_assoc by done. replace (4 - k)%nat with O by lia. done. }
    rewrite length_app, Nat2Z.inj_add in E2. change (Z.of_nat (length (le32 r.1))) with 4 in E2. rewrite E2.
    change (length (le32 r.2)) with 4%nat in *.
    assert (state_bytes s2 = pre ++ torn w k ++ blank n) as Hb3.
    { rewrite Hb2. unfold torn, rec_bytes. fold r. rewrite take_app_ge by done. change (length (le32 r.1)) with 4%nat.
      rewrite <- !app_assoc. do 5 f_equal. lia. }
    destruct (Nat.leb_spec 4 (k - 4)); cbn [fst snd]; (split; [split; [lia|done] || (split; [done|lia])|]);
      (split; [done|]); (split; [exact Hb3|]); by eapply kept_trans.
  - change (ERR_OTA_HW =? ERR_OK) with false. cbn [negb fst snd]. split; [split; [done|lia]|].
    split; [done|]. split; [|done]. change (state_bytes s1 = pre ++ torn w k ++ blank n). rewrite Hb1.
    unfold torn, rec_bytes. fold r. rewrite take_app_le by (cbn; lia). f_equal. rewrite <- !app_assoc. f_equal.
    unfold blank. rewrite <- !replicate_add. f_equal. lia.
Qed.
Lemma store_cut s k rs x n :
  let r := ota_state_record_build (Z.land x OTA_STATE_DURABLE_MASK) in
  sector s rs -> state_bytes s = log_bytes rs ++ blank (8 + n) ->
  let res := flash_state_store (dying s k) r in
  (sector (restart res.2) rs \/ sector (restart res.2) (rs ++ [r])) /\
  (res.1 = ERR_OK -> sector (restart res.2) (rs ++ [r])) /\ kept (dev s) (dev (restart res.2)).
Proof.
  intros r Hs Hb. pose proof Hs as (Hr & Hg & _). unfold flash_state_store.
  destruct (state_area s Hr) as (a & E & Hid & Hsz).
  change (flash_area_open (dying s k) FLASH_AREA_ID_STATE) with (flash_area_open s FLASH_AREA_ID_STATE). rewrite E.
  assert (length (state_bytes s) = (8 * length rs + (8 + n))%nat) as Hl by (by rewrite Hb, length_app, log_bytes_length, blank_length).
  change (ERR_OK =? ERR_OK) with true. cbn [negb]. rewrite (proj2 (Z.ltb_ge _ _)) by (unfold OTA_STATE_REC_BYTES; lia).
  unfold state_scan. rewrite scan_loop_cut. fold (state_scan s a). rewrite (state_scan_spec s a rs) by done.
  change (ERR_OK =? ERR_OK) with true. cbn [negb used]. rewrite (place_cut s k a rs n) by done.
  change (ERR_OK =? ERR_OK) with true. cbn [negb]. rewrite (rec_off s a) by (done || lia).
  destruct (write_record_cut s k a (log_bytes rs) (Z.land x OTA_STATE_DURABLE_MASK) n)
    as (res & Eres & Hok & Hr1 & Hb1 & K1); [done..|].
  fold r in Eres. rewrite log_bytes_length, Nat2Z.inj_mul in Eres. change (Z.of_nat 8) with 8 in Eres. rewrite Eres.
  assert (good_record r) as Hgr by (apply record_build_good, Z.land_nonneg; by right).
  assert (∀ m, state_bytes (restart res.2) = log_bytes rs ++ rec_bytes r ++ blank m -> sector (restart res.2) (rs ++ [r])) as Hnew.
  { intros m Hm. split; [done|]. split; [apply Forall_app; split; [done|by apply list.Forall_singleton]|].
    exists (blank m). split; [by rewrite Hm, log_bytes_snoc, <- app_assoc|]. exists [], m. split; [done|by left]. }
  split; [|split; [|done]].
  - destruct (decide (k < 8)%nat) as [Hk|Hk].
    + destruct (torn_tail x k n Hk) as [Ht|Ht]; [left|right; apply (Hnew n); by rewrite Hb1, Ht].
      split; [done|]. split; [done|]. by eexists.
    + right. apply (Hnew n). rewrite Hb1. unfold torn. rewrite take_ge by (change (length (rec_bytes _)) with 8%nat; lia).
      replace (8 - k)%nat with O by lia. by rewrite <- app_assoc.
  - intros Hk%Hok. apply (Hnew n). rewrite Hb1. unfold torn. rewrite take_ge by (change (length (rec_bytes _)) with 8%nat; lia).
    replace (8 - k)%nat with O by lia. by rewrite <- app_assoc.
Qed.
End cut.

(** ** The persistent word as a register *)

(** What one update makes of the durable bits. *)
Definition reg_update (v : option Z) (op : Z * Z) : option Z :=
  Some (Z.land (Z.lor (Z.land (default 0 v) (u32 (Z.lnot op.1))) (Z.land op.2 op.1)) OTA_STATE_DURABLE_MASK).

(** A run of updates and the results it had. *)
Fixpoint run_updates {B} `{StateBackend B} (s : state_sys B) (ops : list (Z * Z)) : list Z * state_sys B :=
  match ops with
  | [] => ([], s)
  | op :: ops =>
      let '(rc, s) := ota_state_update s op.1 op.2 in
      let '(rcs, s) := run_updates s ops in (rc :: rcs, s)
  end.

Section register.
Context {F : Type} `{FlashLaws F}.
Implicit Types (s : state_sys (flash_sys F)).

Definition register s (v : option Z) : Prop :=
  s_state_ops s = true /\ (8 <= length (state_bytes (backend s)))%nat /\
  ∃ rs, sector (backend s) rs /\ list.last rs = ota_state_record_build <$> v.

Lemma register_load s v : register s v ->
  ota_state_load s true = match v with Some w => (ERR_OK, Some (ota_state_with_magic w)) | None => (ERR_OTA_STATE, None) end.
Proof.
  intros (Hr & _ & rs & Hs & Hv). unfold ota_state_load. rewrite Hr. cbn [negb backend_load flash_backend].
  rewrite (flash_state_load_spec _ rs Hs), Hv. destruct v as [w|]; [|done]. cbn [fmap option_fmap option_map].
  change (ERR_OK =? ERR_OK) with true. cbn [negb]. by rewrite record_build_valid.
Qed.

(** The word an update stores. *)
Lemma update_word w m value :
  Z.land (Z.lor (Z.land (ota_state_with_magic w) m) value) OTA_STATE_DURABLE_MASK =
  Z.land (Z.lor (Z.land w m) value) OTA_STATE_DURABLE_MASK.
Proof.
  rewrite !land_lor_mask. f_equal. rewrite !(Z.land_comm m), !Z.land_assoc. by rewrite with_magic_durable.
Qed.

Lemma update_stores {B} `{StateBackend B} (t : state_sys B) v mask value :
  s_state_ops t = true ->
  ota_state_load t true = match v with Some w => (ERR_OK, Some (ota_state_with_magic w)) | None => (ERR_OTA_STATE, None) end ->
  ota_state_update t mask value = ota_state_store t (default 0 (reg_update v (mask, value))).
Proof.
  intros Hr E. unfold ota_state_update, reg_update. rewrite Hr, E. cbn [negb default fst snd].
  destruct v as [w|]; cbn [default]; [|done]. change (ERR_OK =? ERR_OK) with true. cbv iota. by rewrite update_word.
Qed.

Lemma register_update s v mask value :
  register s v ->
  ∃ s', ota_state_update s mask value = (ERR_OK, s') /\ register s' (reg_update v (mask, value)) /\
    kept (dev (backend s)) (dev (backend s')).
Proof.
  intros Hreg. rewrite (update_stores s v) by (apply Hreg || by apply register_load).
  destruct Hreg as (Hr & H8 & rs & Hs & Hv). unfold ota_state_store. rewrite Hr. cbn [negb backend_store flash_backend].
  destruct (flash_state_store_spec (backend s) rs (ota_state_record_build (default 0 (reg_update v (mask, value)))))
    as (s' & rs' & -> & _ & Hs' & K); [done|done|apply record_build_good, Z.land_nonneg; by right|].
  eexists. split; [done|]. split; [|done]. split; [done|]. cbn [backend].
  split; [unfold state_bytes in *; by rewrite (proj1 K)|]. exists (rs' ++ [ota_state_record_build (default 0 (reg_update v (mask, value)))]).
  split; [done|]. by rewrite list.last_snoc.
Qed.
End register.

(** ** Results *)

(** the persistent state is a register.  From a well-formed state sector, any sequence of
    [ota_state_update]s succeeds, whatever compactions it takes, and the load that follows
    returns the magic with exactly the durable bits the sequence makes: each update replaces
    the bits of its mask and keeps the others.  No other flash area changes. *)
Theorem ota_state_refines_register {F : Type} `{FlashLaws F} (s : state_sys (flash_sys F)) v ops :
  register s v -> ops ≠ [] ->
  ∃ rcs s' w, run_updates s ops = (rcs, s') /\ Forall (eq ERR_OK) rcs /\ fold_left reg_update ops v = Some w /\
    ota_state_load s' true = (ERR_OK, Some (ota_state_with_magic w)) /\ register s' (Some w) /\
    ∀ id, id ≠ FLASH_AREA_ID_STATE -> content (dev (backend s')) id = content (dev (backend s)) id.
Proof.
  revert s v. induction ops as [|[mask value] ops IH]; intros s v Hreg Hne; [done|]. cbn [run_updates fst snd fold_left].
  destruct (register_update s v mask value Hreg) as (s1 & -> & Hreg1 & K1).
  destruct ops as [|op ops].
  - cbn [run_updates fold_left]. eexists [ERR_OK], s1, _. split; [done|]. split; [by repeat constructor|].
    split; [done|]. split; [by apply (register_load s1 (Some _))|]. split; [done|]. apply K1.
  - destruct (IH s1 _ Hreg1 ltac:(done)) as (rcs & s' & w & -> & Hrcs & Hw & Hl & Hreg' & K).
    exists (ERR_OK :: rcs), s', w. split; [done|]. split; [by constructor|]. split_and!; try done.
    intros id Hid. by rewrite K, (proj2 K1).
Qed.

(** C8: an update is atomic under a power cut while the sector has room: wherever the cut falls,
    even inside a word, the next start loads the old word or the new one, never anything else;
    an update that reported success is the one loaded; and the sector stays well-formed, so
    that the updates after it work.  No other flash area changes. *)
Theorem ota_state_update_atomic {F : Type} `{FlashLaws F} (s : state_sys (flash_sys F)) v mask value rs n k :
  register s v -> sector (backend s) rs -> state_bytes (backend s) = log_bytes rs ++ blank (8 + n) ->
  let res := ota_state_update (mk_state true (dying (backend s) k)) mask value in
  let s' := mk_state true (restart (backend res.2)) in
  (register s' v \/ register s' (reg_update v (mask, value))) /\
  (res.1 = ERR_OK -> register s' (reg_update v (mask, value))) /\
  ∀ id, id ≠ FLASH_AREA_ID_STATE -> content (dev (backend s')) id = content (dev (backend s)) id.
Proof.
  intros Hreg Hs Hb. cbv zeta. pose proof (register_load s v Hreg) as Hload.
  assert (list.last rs = ota_state_record_build <$> v) as Hlast.
  { destruct Hreg as (_ & _ & rs' & Hs' & Hv'). rewrite <- Hv'.
    pose proof (flash_state_load_spec _ rs Hs) as E1. rewrite (flash_state_load_spec _ rs' Hs') in E1.
    destruct (list.last rs), (list.last rs'); congruence. }
  rewrite (update_stores _ v); [|done|].
  2:{ rewrite <- Hload. unfold ota_state_load. rewrite (proj1 Hreg). cbn [s_state_ops negb backend backend_load flash_backend].
      unfold flash_state_load. change (flash_area_open (dying _ _)) with (flash_area_open (backend s)).
      destruct (flash_area_open _ _) as [rc [a|]]; [|done]. unfold state_scan. by rewrite scan_loop_cut. }
  unfold ota_state_store. cbn [s_state_ops negb backend backend_store flash_backend].
  set (x := Z.lor (Z.land (default 0 v) (u32 (Z.lnot mask))) (Z.land value mask)).
  change (reg_update v (mask, value)) with (Some (Z.land x OTA_STATE_DURABLE_MASK)).
  change (default 0 (Some ?y)) with y.
  pose proof (store_cut (backend s) k rs x n Hs Hb) as Hc. cbv zeta in Hc.
  set (w := Z.land x OTA_STATE_DURABLE_MASK) in *. destruct (flash_state_store (dying (backend s) k) (ota_state_record_build w)) as [rc b].
  cbn [fst snd backend] in *. destruct Hc as (Hor & Hok & K). destruct Hreg as (_ & H8 & _).
  assert (8 <= length (state_bytes (restart b)))%nat as H8' by (unfold state_bytes in *; by rewrite (proj1 K)).
  assert (sector (restart b) (rs ++ [ota_state_record_build w]) -> register (mk_state true (restart b)) (Some w)) as Hnew.
  { intros Hn. split; [done|]. split; [done|]. eexists. split; [done|]. by rewrite list.last_snoc. }
  split; [|split; [intros E; by apply Hnew, Hok|apply K]].
  destruct Hor as [Ho|Ho]; [left|right; by apply Hnew]. split; [done|]. split; [done|]. by exists rs.
Qed.

(** Storing into a sector without room erases first. *)
Lemma store_cut_erased {F : Type} `{FlashLaws F} (s : flash_sys F) rs tail r :
  sector s rs -> (8 <= length (state_bytes s))%nat -> state_bytes s = log_bytes rs ++ tail ->
  (length tail < 8)%nat \/ is_blank (rec_of (take 8 tail)) = false ->
  let s' := restart (flash_state_store (dying s 1) r).2 in
  sector s' [] /\ length (state_bytes s') = length (state_bytes s).
Proof.
  intros Hs H8 Hb Hf s'. subst s'. pose proof Hs as (Hr & _). unfold flash_state_store.
  destruct (state_area s Hr) as (a & E & Hid & Hsz).
  change (flash_area_open (dying s 1) FLASH_AREA_ID_STATE) with (flash_area_open s FLASH_AREA_ID_STATE). rewrite E.
  change (ERR_OK =? ERR_OK) with true. cbn [negb]. rewrite (proj2 (Z.ltb_ge _ _)) by (unfold OTA_STATE_REC_BYTES; lia).
  unfold state_scan. rewrite scan_loop_cut. fold (state_scan s a). rewrite (state_scan_spec s a rs) by done.
  change (ERR_OK =? ERR_OK) with true. cbn [negb used].
  destruct (erase_state s a) as (s1 & Ee & Hr1 & Hb1 & _); [done..|].
  assert (flash_area_erase_operation (dying s 1) a 0 (fa_size a) = (ERR_OK, dying s1 0)) as Ec.
  { revert Ee. unfold flash_area_erase_operation. cbn. rewrite Hr. cbn.
    destruct (ops_erase (dev s) a 0 (fa_size a)) as [rc f]. intros [= -> <-]. done. }
  assert (place_record (dying s 1) a (8 * Z.of_nat (length rs)) = (ERR_OK, 0, dying s1 0)) as ->.
  { pose proof (place_erase s a rs tail Hr Hid Hsz Hb Hf) as Ep. unfold place_record in *.
    rewrite Ec. rewrite Ee in Ep.
    change (flash_area_read_operation (dying s 1) a (8 * Z.of_nat (length rs)) OTA_STATE_REC_BYTES)
      with (flash_area_read_operation s a (8 * Z.of_nat (length rs)) OTA_STATE_REC_BYTES).
    destruct (_ >? _) eqn:Eg; [done|]. destruct (flash_area_read_operation s a _ _) as [rc b] eqn:Er.
    destruct ((rc =? ERR_OK) && _) eqn:Eb; [done|]. exfalso.
    rewrite Z.gtb_ltb in Eg. apply Z.ltb_ge in Eg.
    assert (length (state_bytes s) = (8 * length rs + length tail)%nat) as Hl by (by rewrite Hb, length_app, log_bytes_length).
    unfold OTA_STATE_REC_BYTES in *. rewrite (rec_off s a) in Eg by (done || lia). destruct Hf as [|Hf]; [lia|].
    rewrite (read_record s a (length rs)) in Er by (done || lia). injection Er as <- <-.
    rewrite Hb, drop_app_length' in Eb by (by rewrite log_bytes_length). by rewrite Hf in Eb. }
  change (ERR_OK =? ERR_OK) with true. cbn [negb].
  destruct (write_cut_blank s1 0 a [] (le32 r.1) (blank (length (state_bytes s) - 4))) as (s2 & Ew & Hr2 & Hb2 & _);
    [done|done|apply le32_u8|rewrite Hb1; unfold blank; rewrite app_nil_l, <- replicate_add; f_equal; cbn; lia|].
  change (Z.of_nat (length (@nil Z))) with 0 in Ew. rewrite Ew. cbn [length le32 Nat.leb].
  change (ERR_OTA_HW =? ERR_OK) with false. cbn [negb snd].
  assert (state_bytes s2 = blank (length (state_bytes s))) as Hb3.
  { rewrite Hb2.
    change (take 0 (le32 r.1)) with (@nil Z). rewrite !app_nil_l. unfold blank. rewrite <- replicate_add. f_equal. cbn. lia. }
  change (sector (mk_flash true (dev s2)) [] /\ length (state_bytes s2) = length (state_bytes s)).
  split; [|by rewrite Hb3, blank_length]. split; [done|]. split; [done|]. eexists. split; [exact Hb3|].
  eexists [], _. split; [reflexivity|by left].
Qed.

(** compaction is not atomic.  When the sector has no room for a record, or ends in one
    that a power cut left half written, the update erases before it writes; a power cut
    after the erase loses both the old word and the new one, and the next start finds no
    state. *)
Theorem compaction_loses_state {F : Type} `{FlashLaws F} (s : state_sys (flash_sys F)) w mask value rs tail :
  register s (Some w) -> sector (backend s) rs -> state_bytes (backend s) = log_bytes rs ++ tail ->
  (length tail < 8)%nat \/ is_blank (rec_of (take 8 tail)) = false ->
  let res := ota_state_update (mk_state true (dying (backend s) 1)) mask value in
  ota_state_load s true = (ERR_OK, Some (ota_state_with_magic w)) /\
  ota_state_load (mk_state true (restart (backend res.2))) true = (ERR_OTA_STATE, None).
Proof.
  intros Hreg Hs Hb Hf. split; [by apply (register_load s (Some w))|].
  apply (register_load _ None). unfold ota_state_update, ota_state_store.
  cbn [s_state_ops negb backend backend_store flash_backend].
  set (r := ota_state_record_build _). destruct Hreg as (_ & H8 & _).
  pose proof (store_cut_erased (backend s) rs tail r Hs H8 Hb Hf) as He. cbv zeta in He.
  destruct (flash_state_store (dying (backend s) 1) r) as [rc b] eqn:Er. cbn [snd backend] in *.
  destruct He as [He Hl]. split; [done|]. split; [cbn [backend]; by rewrite Hl|]. by exists [].
Qed.

(** ** A flash device *)

(** Areas of at most 1 KB, by number; a write stores its bytes, an erase blanks the area. *)
Record ram_flash := mk_ram { ram_areas : Z -> list Z }.

Definition ram_content (f : ram_flash) (id : Z) : list Z := u8 <$> take 1024 (ram_areas f id).
Definition ram_set (f : ram_flash) (id : Z) (b : list Z) : ram_flash :=
  mk_ram (fun i => if i =? id then b else ram_areas f i).

#[export] Instance ram_flash_ops : FlashOps ram_flash := {|
  ops_open f id := (ERR_OK, Some (mk_area id 0 0 (Z.of_nat (length (ram_content f id)))));
  ops_erase f a off len := (ERR_OK, ram_set f (fa_id a) (blank (length (ram_content f (fa_id a)))));
  ops_write f a off d :=
    let c := ram_content f (fa_id a) in
    (ERR_OK, ram_set f (fa_id a) (take (Z.to_nat off) c ++ d ++ drop (Z.to_nat off + length d) c));
  ops_read f a off len := (ERR_OK, take (Z.to_nat len) (drop (Z.to_nat off) (ram_content f (fa_id a))))
|}.

Lemma ram_content_le f id : (length (ram_content f id) <= 1024)%nat.
Proof. unfold ram_content. rewrite length_fmap, length_take. lia. Qed.

Lemma ram_content_set f id b :
  Forall is_u8 b -> (length b <= 1024)%nat -> ram_content (ram_set f id b) id = b.
Proof.
  intros Hb Hl. unfold ram_content, ram_set. cbn. rewrite Z.eqb_refl, take_ge by done.
  clear Hl. induction Hb as [|x b Hx Hb IH]; [done|]. rewrite fmap_cons, IH. unfold u8. by rewrite Z.mod_small.
Qed.

Lemma ram_content_other f id b i : i ≠ id -> ram_content (ram_set f id b) i = ram_content f i.
Proof. intros Hne. unfold ram_content, ram_set. cbn. by rewrite (proj2 (Z.eqb_neq _ _)). Qed.

Lemma ram_content_u8 f id : Forall is_u8 (ram_content f id).
Proof. unfold ram_content. apply list.Forall_fmap, list.Forall_forall. intros x _. apply u8_range. Qed.

Lemma blank_u8 n : Forall is_u8 (blank n).
Proof. apply Forall_replicate. done. Qed.

#[export] Instance ram_flash_laws : FlashLaws ram_flash.
Proof.
  refine {| content := ram_content; content_u8 := ram_content_u8 |}.
  - intros f id. pose proof (ram_content_le f id). lia.
  - intros f id. eexists. done.
  - intros f a off len _ _ _. done.
  - intros f a off d Hoff Hd Hl _. eexists. split; [done|]. cbn.
    pose proof (ram_content_le f (fa_id a)). pose proof (ram_content_u8 f (fa_id a)).
    split; [apply ram_content_set|by intros; apply ram_content_other].
    + apply Forall_app; split; [by apply Forall_take|]. apply Forall_app; split; [done|by apply Forall_drop].
    + rewrite !length_app, length_take, length_drop. lia.
  - intros f a len Hlen Hl. exists (ram_set f (fa_id a) (blank (length (ram_content f (fa_id a))))).
    split; [done|]. pose proof (ram_content_le f (fa_id a)).
    rewrite ram_content_set by (apply blank_u8 || by rewrite blank_length).
    split; [by rewrite blank_length|]. split; [|by intros; apply ram_content_other].
    unfold blank. rewrite take_replicate. f_equal. lia.
Defined.

(** A device with a state sector of [n] bytes that holds these records. *)
Definition ram_log (rs : list record) (n : nat) : state_sys (flash_sys ram_flash) :=
  mk_state true (mk_flash true (mk_ram (fun id => if id =? FLASH_AREA_ID_STATE then log_bytes rs ++ blank n else blank 32))).

Definition rec0 : record := ota_state_record_build 0.
Definition rec_active : record := ota_state_record_build (Z.lor OTA_STATE_MASK_CURRENT OTA_STATE_MASK_PENDING).

Lemma two_good : Forall good_record [rec0; rec_active].
Proof. apply Forall_cons; [by apply record_build_good|]. apply Forall_cons; [by apply record_build_good|done]. Qed.

(** A sector of three records: two stored, so that the second of two updates compacts. *)
Lemma ram_log_register : register (ram_log [rec0; rec_active] 8) (Some (Z.lor OTA_STATE_MASK_CURRENT OTA_STATE_MASK_PENDING)).
Proof.
  split; [done|]. split; [vm_compute; lia|]. exists [rec0; rec_active]. split; [|done].
  split; [done|]. split; [apply two_good|].
  exists (blank 8). split; [vm_compute; done|]. exists [], 8%nat. split; [done|by left].
Qed.

Lemma ota_state_refines_register_witness :
  let s := ram_log [rec0; rec_active] 8 in
  ∃ rcs s' w, run_updates s [(OTA_STATE_MASK_TRIAL, OTA_STATE_MASK_TRIAL); (OTA_STATE_MASK_PENDING, 0)] = (rcs, s') /\
    ota_state_load s' true = (ERR_OK, Some (ota_state_with_magic w)) /\ w = 0x10040.
Proof.
  destruct (ota_state_refines_register (ram_log [rec0; rec_active] 8) _
    [(OTA_STATE_MASK_TRIAL, OTA_STATE_MASK_TRIAL); (OTA_STATE_MASK_PENDING, 0)] ram_log_register ltac:(discriminate))
    as (rcs & s' & w & E & _ & Hw & Hl & _).
  exists rcs, s', w. split; [exact E|]. split; [exact Hl|]. injection Hw as <-. reflexivity.
Defined.

Lemma ram_log_sector : sector (backend (ram_log [rec0; rec_active] 8)) [rec0; rec_active].
Proof.
  split; [done|]. split; [apply two_good|].
  exists (blank 8). split; [vm_compute; done|]. exists [], 8%nat. split; [done|by left].
Qed.

(** Six bytes into the record: the old word is loaded. *)
Lemma ota_state_update_atomic_witness :
  let s := ram_log [rec0; rec_active] 8 in
  let res := ota_state_update (mk_state true (dying (backend s) 6)) OTA_STATE_MASK_PENDING 0 in
  let s' := mk_state true (restart (backend res.2)) in
  (register s' (Some 0xC0) \/ register s' (Some 0x40)) /\ ota_state_load s' true = (ERR_OK, Some 0xA5C0).
Proof.
  split; [|vm_compute; reflexivity].
  apply (ota_state_update_atomic (ram_log [rec0; rec_active] 8) _ OTA_STATE_MASK_PENDING 0 [rec0; rec_active] 0 6
           ram_log_register ram_log_sector).
  vm_compute. reflexivity.
Defined.

Lemma ram_full_sector : sector (backend (ram_log [rec0; rec_active] 0)) [rec0; rec_active].
Proof.
  split; [done|]. split; [apply two_good|].
  exists []. split; [vm_compute; done|]. exists [], O. split; [done|by left].
Qed.

Lemma compaction_loses_state_witness :
  let s := ram_log [rec0; rec_active] 0 in
  let res := ota_state_update (mk_state true (dying (backend s) 1)) OTA_STATE_MASK_PENDING 0 in
  ota_state_load s true = (ERR_OK, Some 0xA5C0) /\
  ota_state_load (mk_state true (restart (backend res.2))) true = (ERR_OTA_STATE, None).
Proof.
  apply (compaction_loses_state (ram_log [rec0; rec_active] 0) 0xC0 OTA_STATE_MASK_PENDING 0 [rec0; rec_active] []).
  - split; [reflexivity|]. split; [vm_compute; lia|]. exists [rec0; rec_active]. split; [apply ram_full_sector|reflexivity].
  - apply ram_full_sector.
  - vm_compute. reflexivity.
  - left. cbn. lia.
Defined.
