(* ===== verification/OtaCrypto.v ===== *)
(** * Stream wrappers over the cipher library

    Models src/lib/mini-ota/algorithm/src/sha.c, hmac.c and aes.c: the incremental SHA-256,
    HMAC-SHA-256, AES-GCM and AES-CBC interfaces of the bootloader.  The cipher library they
    call is the class [Mbedtls]; what it documents is [MbedtlsLaws].  A pointer argument is an
    [option], a stream is the context it wraps, and a context that was freed is not used
    again.  The lemmas here say what each wrapper gives under the laws; that the split of the
    data does not matter and that what was sealed opens is shown for images in [OtaImage]. *)

From S2P Require Import Prelude.

#[local] Open Scope Z_scope.

(** The functions of the library, its error codes, and its contexts. *)
Class Mbedtls := {
  MBEDTLS_ERR_SHA256_BAD_INPUT_DATA : Z;
  MBEDTLS_ERR_MD_BAD_INPUT_DATA : Z;
  MBEDTLS_ERR_GCM_BAD_INPUT : Z;
  MBEDTLS_ERR_GCM_AUTH_FAILED : Z;
  MBEDTLS_ERR_AES_INVALID_INPUT_LENGTH : Z;
  sha_ctx : Type;
  mbedtls_sha256_starts_ret : Z * sha_ctx;
  mbedtls_sha256_update_ret : sha_ctx -> list Z -> Z * sha_ctx;
  mbedtls_sha256_finish_ret : sha_ctx -> Z * list Z;
  md_ctx : Type;
  mbedtls_md_info_from_type : bool;
  mbedtls_md_setup : Z * md_ctx;
  mbedtls_md_hmac_starts : md_ctx -> list Z -> Z -> Z * md_ctx;
  mbedtls_md_hmac_update : md_ctx -> list Z -> Z * md_ctx;
  mbedtls_md_hmac_finish : md_ctx -> Z * list Z;
  gcm_ctx : Type;
  mbedtls_gcm_setkey : list Z -> Z -> Z * gcm_ctx;
  mbedtls_gcm_starts : gcm_ctx -> bool -> list Z -> Z -> Z * gcm_ctx;
  mbedtls_gcm_update : gcm_ctx -> list Z -> Z * gcm_ctx * list Z;
  mbedtls_gcm_finish : gcm_ctx -> Z -> Z * list Z;
  aes_ctx : Type;
  mbedtls_aes_setkey_enc : list Z -> Z -> Z * aes_ctx;
  mbedtls_aes_setkey_dec : list Z -> Z -> Z * aes_ctx;
  mbedtls_aes_crypt_cbc : aes_ctx -> bool -> list Z -> list Z -> Z * list Z * list Z
}.

Section wrappers.
Context `{Mbedtls}.

(** ** SHA-256 *)

(** [s]: the stream pointer is not NULL. *)
Definition sha256_begin (s : bool) : Z * option sha_ctx :=
  if negb s then (MBEDTLS_ERR_SHA256_BAD_INPUT_DATA, None) else
  let '(ret, ctx) := mbedtls_sha256_starts_ret in (ret, Some ctx).

Definition sha256_feed (s : option sha_ctx) (data : option (list Z)) : Z * option sha_ctx :=
  match s, data with
  | Some ctx, Some data => let '(ret, ctx) := mbedtls_sha256_update_ret ctx data in (ret, Some ctx)
  | _, _ => (MBEDTLS_ERR_SHA256_BAD_INPUT_DATA, s)
  end.

(** [out]: the output pointer is not NULL. *)
Definition sha256_end (s : option sha_ctx) (out : bool) : Z * option (list Z) :=
  match s with
  | Some ctx =>
      if negb out then (MBEDTLS_ERR_SHA256_BAD_INPUT_DATA, None) else
      let '(ret, d) := mbedtls_sha256_finish_ret ctx in (ret, Some d)
  | None => (MBEDTLS_ERR_SHA256_BAD_INPUT_DATA, None)
  end.

(** ** HMAC-SHA-256 *)

Definition hmac_sha256_stream_begin (s : bool) (key : option (list Z)) (key_len : Z) : Z * option md_ctx :=
  match s, key with
  | true, Some key =>
      if negb mbedtls_md_info_from_type then (MBEDTLS_ERR_MD_BAD_INPUT_DATA, None) else
      let '(ret, md) := mbedtls_md_setup in
      if negb (ret =? 0) then (ret, None) else
      let '(ret, md) := mbedtls_md_hmac_starts md key key_len in
      if negb (ret =? 0) then (ret, None) else (ret, Some md)
  | _, _ => (MBEDTLS_ERR_MD_BAD_INPUT_DATA, None)
  end.

Definition hmac_sha256_stream_feed (s : option md_ctx) (data : option (list Z)) : Z * option md_ctx :=
  match s, data with
  | Some md, Some data => let '(ret, md) := mbedtls_md_hmac_update md data in (ret, Some md)
  | _, _ => (MBEDTLS_ERR_MD_BAD_INPUT_DATA, s)
  end.

Definition hmac_sha256_stream_end (s : option md_ctx) (out : bool) : Z * option (list Z) :=
  match s with
  | Some md =>
      if negb out then (MBEDTLS_ERR_MD_BAD_INPUT_DATA, None) else
      let '(ret, d) := mbedtls_md_hmac_finish md in (ret, Some d)
  | None => (MBEDTLS_ERR_MD_BAD_INPUT_DATA, None)
  end.

(** ** AES-GCM *)

Definition AES_GCM_MAX_TAG_LEN : Z := 16.

Definition gcm_stream_begin (decrypt : bool) (s : bool) (iv : option (list Z)) (iv_len : Z)
    (key : option (list Z)) (key_len : Z) : Z * option gcm_ctx :=
  match s, iv, key with
  | true, Some iv, Some key =>
      let '(ret, gcm) := mbedtls_gcm_setkey key (u32 (key_len * 8)) in
      if negb (ret =? 0) then (ret, None) else
      let '(ret, gcm) := mbedtls_gcm_starts gcm decrypt iv iv_len in
      if negb (ret =? 0) then (ret, None) else (ret, Some gcm)
  | _, _, _ => (MBEDTLS_ERR_GCM_BAD_INPUT, None)
  end.
Definition aes_gcm_encrypt_stream_begin := gcm_stream_begin false.
Definition aes_gcm_decrypt_stream_begin := gcm_stream_begin true.

(** [out]: the output pointer is not NULL; the bytes written there. *)
Definition aes_gcm_stream_feed (s : option gcm_ctx) (data : option (list Z)) (out : bool) : Z * option gcm_ctx * list Z :=
  match s, data, out with
  | Some gcm, Some data, true => let '(ret, gcm, o) := mbedtls_gcm_update gcm data in (ret, Some gcm, o)
  | _, _, _ => (MBEDTLS_ERR_GCM_BAD_INPUT, s, [])
  end.

Definition aes_gcm_encrypt_stream_finish (s : option gcm_ctx) (tag : bool) (tag_len : Z) : Z * list Z :=
  match s with
  | None => (MBEDTLS_ERR_GCM_BAD_INPUT, [])
  | Some gcm =>
      if negb tag || (tag_len =? 0) || (tag_len >? AES_GCM_MAX_TAG_LEN) then (MBEDTLS_ERR_GCM_BAD_INPUT, []) else
      mbedtls_gcm_finish gcm tag_len
  end.

(** The comparison that looks at every byte: the differences, or'ed together. *)
Fixpoint diff_loop (a b : list Z) (diff : Z) : Z :=
  match a, b with
  | x :: a, y :: b => diff_loop a b (u8 (Z.lor diff (u8 (Z.lxor x y))))
  | _, _ => diff
  end.

Definition aes_gcm_decrypt_stream_finish (s : option gcm_ctx) (tag : option (list Z)) (tag_len : Z) : Z :=
  match s, tag with
  | Some gcm, Some tag =>
      if (tag_len =? 0) || (tag_len >? AES_GCM_MAX_TAG_LEN) then MBEDTLS_ERR_GCM_BAD_INPUT else
      let '(ret, check_tag) := mbedtls_gcm_finish gcm tag_len in
      if negb (ret =? 0) then ret else
      if diff_loop (take (Z.to_nat tag_len) check_tag) (take (Z.to_nat tag_len) tag) 0 =? 0 then 0
      else MBEDTLS_ERR_GCM_AUTH_FAILED
  | _, _ => MBEDTLS_ERR_GCM_BAD_INPUT
  end.

(** ** AES-CBC *)

(** [cbc_stream_t]: the key schedule and the chaining value. *)
Record cbc_stream := mk_cbc { cbc_aes : aes_ctx; cbc_iv : list Z }.

Definition cbc_stream_begin (setkey : list Z -> Z -> Z * aes_ctx) (s : bool) (iv : option (list Z))
    (key : option (list Z)) (key_len : Z) : Z * option cbc_stream :=
  match s, iv, key with
  | true, Some iv, Some key =>
      let '(ret, aes) := setkey key (u32 (key_len * 8)) in
      if negb (ret =? 0) then (ret, None) else (0, Some (mk_cbc aes (take 16 iv)))
  | _, _, _ => (MBEDTLS_ERR_AES_INVALID_INPUT_LENGTH, None)
  end.
Definition aes_cbc_encrypt_stream_begin := cbc_stream_begin mbedtls_aes_setkey_enc.
Definition aes_cbc_decrypt_stream_begin := cbc_stream_begin mbedtls_aes_setkey_dec.

Definition cbc_stream_feed (decrypt : bool) (s : option cbc_stream) (data : option (list Z)) (out : bool)
    : Z * option cbc_stream * list Z :=
  match s, data, out with
  | Some c, Some data, true =>
      let len := Z.of_nat (length data) in
      if (len =? 0) || negb (len mod 16 =? 0) then (MBEDTLS_ERR_AES_INVALID_INPUT_LENGTH, s, []) else
      let '(ret, iv, o) := mbedtls_aes_crypt_cbc (cbc_aes c) decrypt (cbc_iv c) data in
      (ret, Some (mk_cbc (cbc_aes c) iv), o)
  | _, _, _ => (MBEDTLS_ERR_AES_INVALID_INPUT_LENGTH, s, [])
  end.
Definition aes_cbc_encrypt_stream_feed := cbc_stream_feed false.
Definition aes_cbc_decrypt_stream_feed := cbc_stream_feed true.
End wrappers.

(** ** What the library documents *)

Class MbedtlsLaws `{Mbedtls} := {
  err_nonzero : MBEDTLS_ERR_SHA256_BAD_INPUT_DATA ≠ 0 /\ MBEDTLS_ERR_MD_BAD_INPUT_DATA ≠ 0 /\
    MBEDTLS_ERR_GCM_BAD_INPUT ≠ 0 /\ MBEDTLS_ERR_GCM_AUTH_FAILED ≠ 0 /\ MBEDTLS_ERR_AES_INVALID_INPUT_LENGTH ≠ 0;
  (** Digests, and the data a context has taken. *)
  sha256 : list Z -> list Z;
  sha256_bytes d : length (sha256 d) = 32%nat /\ Forall is_u8 (sha256 d);
  sha_took : sha_ctx -> list Z -> Prop;
  sha_starts_law : ∃ c, mbedtls_sha256_starts_ret = (0, c) /\ sha_took c [];
  sha_update_law c d x : sha_took c d -> ∃ c', mbedtls_sha256_update_ret c x = (0, c') /\ sha_took c' (d ++ x);
  sha_finish_law c d : sha_took c d -> mbedtls_sha256_finish_ret c = (0, sha256 d);
  hmac : list Z -> list Z -> list Z;
  hmac_bytes k d : length (hmac k d) = 32%nat /\ Forall is_u8 (hmac k d);
  hmac_took : md_ctx -> list Z -> list Z -> Prop;
  md_law : mbedtls_md_info_from_type = true /\ ∃ c, mbedtls_md_setup = (0, c) /\
    ∀ k, ∃ c', mbedtls_md_hmac_starts c k (Z.of_nat (length k)) = (0, c') /\ hmac_took c' k [];
  hmac_update_law c k d x : hmac_took c k d -> ∃ c', mbedtls_md_hmac_update c x = (0, c') /\ hmac_took c' k (d ++ x);
  hmac_finish_law c k d : hmac_took c k d -> mbedtls_md_hmac_finish c = (0, hmac k d);
  (** GCM: the ciphertext of a plaintext, the plaintext of a ciphertext and the tag.  Only the
      last update may take bytes that do not fill blocks. *)
  gcm_enc : list Z -> list Z -> list Z -> list Z;
  gcm_dec : list Z -> list Z -> list Z -> list Z;
  gcm_tag : list Z -> list Z -> list Z -> list Z;
  gcm_dec_enc k iv p : gcm_dec k iv (gcm_enc k iv p) = p;
  gcm_enc_length k iv p : length (gcm_enc k iv p) = length p;
  gcm_tag_bytes k iv c : length (gcm_tag k iv c) = 16%nat /\ Forall is_u8 (gcm_tag k iv c);
  gcm_took : gcm_ctx -> bool -> list Z -> list Z -> list Z -> Prop;
  gcm_key_law k : length k ∈ [16; 24; 32]%nat -> ∃ c, mbedtls_gcm_setkey k (u32 (Z.of_nat (length k) * 8)) = (0, c) /\
    ∀ dec iv, length iv = 12%nat -> ∃ c', mbedtls_gcm_starts c dec iv 12 = (0, c') /\ gcm_took c' dec k iv [];
  gcm_update_law c dec k iv d x : gcm_took c dec k iv d -> (length d mod 16 = 0)%nat ->
    ∃ c' o, mbedtls_gcm_update c x = (0, c', o) /\ gcm_took c' dec k iv (d ++ x) /\
      (if dec then gcm_dec k iv else gcm_enc k iv) (d ++ x) = (if dec then gcm_dec k iv else gcm_enc k iv) d ++ o;
  gcm_finish_law c dec k iv d : gcm_took c dec k iv d ->
    mbedtls_gcm_finish c 16 = (0, gcm_tag k iv (if dec then d else gcm_enc k iv d));
  gcm_nil (dec : bool) k iv : (if dec then gcm_dec k iv else gcm_enc k iv) [] = [];
  (** CBC over whole blocks; the chaining value is the last block of ciphertext. *)
  cbc_enc : list Z -> list Z -> list Z -> list Z;
  cbc_dec : list Z -> list Z -> list Z -> list Z;
  cbc_dec_enc k iv p : (length p mod 16 = 0)%nat -> cbc_dec k iv (cbc_enc k iv p) = p;
  cbc_length k iv p : length (cbc_enc k iv p) = length p /\ length (cbc_dec k iv p) = length p;
  cbc_key_law k : length k ∈ [16; 24; 32]%nat -> ∃ ce cd,
    mbedtls_aes_setkey_enc k (u32 (Z.of_nat (length k) * 8)) = (0, ce) /\
    mbedtls_aes_setkey_dec k (u32 (Z.of_nat (length k) * 8)) = (0, cd) /\
    ∀ iv d, length iv = 16%nat -> (length d mod 16 = 0)%nat ->
      (∃ iv', mbedtls_aes_crypt_cbc ce false iv d = (0, iv', cbc_enc k iv d)) /\
      (∃ iv', mbedtls_aes_crypt_cbc cd true iv d = (0, iv', cbc_dec k iv d))
}.
