(* ===== verification/OtaImage.v ===== *)
(** * Firmware images

    Models src/lib/mini-ota/bootutil/src/read.c and verify.c: the layout of an image and its
    parser, the verification of an image that is read in pieces, and the decryption of one
    that is in memory.

    A pointer into the image is its offset; an output parameter that the caller may leave
    NULL is part of the result.  [IMAGE_CRYPTO_ENABLE] is the parameter [crypto].  The reading
    callback is a function from an offset and a length to a result and bytes.  The theorems
    show that the parser inverts the layout of read.h exactly, that verification in pieces
    gives the verdict of the whole image whatever the buffer, and that decryption hands out
    only what authenticated. *)

From S2P Require Import Prelude Crc ConfigBlob OtaState OtaCrypto.

#[local] Open Scope Z_scope.

(** ** Layout *)

Definition IMAGE_CRC_LEN : Z := 4.
Definition IMAGE_META_LEN : Z := 4.
Definition IMAGE_META_MAGIC : Z := 0xA5.
Definition IMAGE_CHECK_CRC : Z := 0.
Definition IMAGE_CHECK_SHA : Z := 1.
Definition IMAGE_CHECK_GCM : Z := 2.
Definition IMAGE_CHECK_CBC : Z := 3.
Definition IMAGE_CHECK_CBC_SHA : Z := 4.
Definition IMAGE_GCM_NONCE_LEN : Z := 12.
Definition IMAGE_GCM_TAG_LEN : Z := 16.
Definition IMAGE_CBC_IV_LEN : Z := 16.
Definition IMAGE_HASH_LEN : Z := 32.
Definition IMAGE_CBC_BLOCK_LEN : Z := 16.
(** [size_t] is 32 bits wide on the targets. *)
Definition SIZE_MAX : Z := 4294967295.

Record image_view := mk_view {
  v_mode : Z; v_is_front : bool;
  v_payload : Z; v_payload_len : Z;
  v_aux : Z; v_aux_len : Z;
  v_version : Z; v_version_len : Z;
  v_tag : Z; v_tag_len : Z;
  v_crc_stored : Z
}.

(** Bytes of a buffer. *)
Definition slice (buf : list Z) (off len : Z) : list Z := take (Z.to_nat len) (drop (Z.to_nat off) buf).
Definition byte_at (buf : list Z) (i : Z) : Z := nth (Z.to_nat i) buf 0.
(** Four bytes, least significant first. *)
Definition get_le32 (b : list Z) : Z := of_le32 (byte_at b 0) (byte_at b 1) (byte_at b 2) (byte_at b 3).

Record meta := mk_meta { m_mode : Z; m_is_front : bool; m_version_len : Z; m_tag_len : Z }.

Definition meta_decode (m : list Z) : Z * option meta :=
  let m1 := byte_at m 1 in
  if negb (byte_at m 0 =? IMAGE_META_MAGIC) || (Z.land m1 0x7F >? IMAGE_CHECK_CBC_SHA) then (ERR_ARG, None) else
  (ERR_OK, Some (mk_meta (Z.land m1 0x7F) (negb (Z.land m1 0x80 =? 0)) (byte_at m 2) (byte_at m 3))).

(** [wanted]: the output pointer is not NULL. *)
Definition image_aux_len (mode : Z) (wanted : bool) : Z * Z :=
  if negb wanted then (ERR_ARG, 0) else
  if mode =? IMAGE_CHECK_CRC then (ERR_OK, 0) else
  if mode =? IMAGE_CHECK_SHA then (ERR_OK, 32) else
  if mode =? IMAGE_CHECK_GCM then (ERR_OK, 12 + 16) else
  if mode =? IMAGE_CHECK_CBC then (ERR_OK, 16) else
  if mode =? IMAGE_CHECK_CBC_SHA then (ERR_OK, 16 + 32) else (ERR_ARG, 0).

Definition image_overhead (mode version_len tag_len : Z) (wanted : bool) : Z * Z :=
  if negb wanted then (ERR_ARG, 0) else
  let '(rc, aux_len) := image_aux_len mode true in
  if negb (rc =? ERR_OK) then (rc, 0) else
  if (version_len >? SIZE_MAX - IMAGE_CRC_LEN - IMAGE_META_LEN) ||
     (tag_len >? SIZE_MAX - IMAGE_CRC_LEN - IMAGE_META_LEN - version_len) ||
     (aux_len >? SIZE_MAX - IMAGE_CRC_LEN - IMAGE_META_LEN - version_len - tag_len)
  then (ERR_OVERFLOW, 0)
  else (ERR_OK, IMAGE_CRC_LEN + IMAGE_META_LEN + version_len + tag_len + aux_len).

(** [out]: the result pointer is not NULL; the length of the buffer is the length of the list. *)
Definition image_parse (buf : option (list Z)) (out : bool) : Z * option image_view :=
  match buf with
  | None => (ERR_ARG, None)
  | Some buf =>
      let len := Z.of_nat (length buf) in
      if negb out || (len <? IMAGE_CRC_LEN + IMAGE_META_LEN) then (ERR_ARG, None) else
      let '(rc, m) := meta_decode (slice buf (len - IMAGE_META_LEN) IMAGE_META_LEN) in
      match m with
      | None => (rc, None)
      | Some m =>
          let '(rc, overhead) := image_overhead (m_mode m) (m_version_len m) (m_tag_len m) true in
          if negb (rc =? ERR_OK) then (rc, None) else
          if len <? overhead then (ERR_TOO_SMALL, None) else
          let '(rc, aux_len) := image_aux_len (m_mode m) true in
          if negb (rc =? ERR_OK) then (rc, None) else
          let payload_len := len - overhead in
          if m_is_front m then
            let version := IMAGE_CRC_LEN in
            let tag := version + m_version_len m in
            let aux := tag + m_tag_len m in
            let payload := aux + aux_len in
            (ERR_OK, Some (mk_view (m_mode m) true payload payload_len aux aux_len version (m_version_len m)
                             tag (m_tag_len m) (get_le32 (slice buf 0 4))))
          else
            let aux := payload_len in
            let version := aux + aux_len in
            let tag := version + m_version_len m in
            let crc_bytes := tag + m_tag_len m in
            (ERR_OK, Some (mk_view (m_mode m) false 0 payload_len aux aux_len version (m_version_len m)
                             tag (m_tag_len m) (get_le32 (slice buf crc_bytes 4))))
      end
  end.

(** ** CRC *)

Definition CRC_MODEL_INIT : Z := 0xFFFFFFFF.
Definition CRC_MODEL_REFIN : bool := true.
Definition CRC_MODEL_REFOUT : bool := true.
Definition CRC_MODEL_XOR_OUT : Z := 0xFFFFFFFF.
Definition CRC_MODEL_POLY : Z := 0x04C11DB7.
Definition CRC_MODEL_WIDTH : Z := 32.
Definition IMAGE_VERIFY_CHUNK : Z := 256.

(** A started stream of the image's model, with the table cache of the engine. *)
Definition crc_begin (width : Z) (c : crc_cache) : option crc_stream * crc_cache :=
  (crc_stream_start (Some stream_zero) CRC_MODEL_INIT CRC_MODEL_REFIN CRC_MODEL_REFOUT CRC_MODEL_XOR_OUT
     CRC_MODEL_POLY width, c).

(** [crc_stream_feed] with the table engine; the table is never read outside, so the other
    case does not occur. *)
Definition crc_feed (st : option crc_stream * crc_cache) (data : list Z) : option crc_stream * crc_cache :=
  match crc_stream_feed true st.1 data st.2 with Some st => st | None => st end.

(** ** Verification in pieces *)

(** The reading loop of every branch.  [feed] takes the bytes read; its error ends the
    verification.  A round reads at least one byte, so [remaining] bounds the rounds. *)
Fixpoint chunk_loop {St : Type} (fuel : nat) (read_fn : Z -> Z -> Z * list Z) (scratch_size : Z)
    (feed : St -> list Z -> Z + St) (off remaining : Z) (st : St) : Z + St :=
  match fuel with
  | O => inr st
  | S fuel =>
      if negb (remaining >? 0) then inr st else
      let chunk := if remaining >? scratch_size then scratch_size else u32 remaining in
      let '(rc, b) := read_fn off chunk in
      if negb (rc =? ERR_OK) then inl rc else
      match feed st b with
      | inl rc => inl rc
      | inr st => chunk_loop fuel read_fn scratch_size feed (u32 (off + chunk)) (remaining - chunk) st
      end
  end.
Definition read_loop {St : Type} (read_fn : Z -> Z -> Z * list Z) (scratch_size : Z)
    (feed : St -> list Z -> Z + St) (off remaining : Z) (st : St) : Z + St :=
  chunk_loop (S (Z.to_nat remaining)) read_fn scratch_size feed off remaining st.

(** Equal as byte strings of [len] bytes, in constant time. *)
Definition ct_equal (a b : list Z) (len : Z) : bool :=
  diff_loop (take (Z.to_nat len) a) (take (Z.to_nat len) b) 0 =? 0.

(** [image_read_cfg_t]. *)
Record image_read_cfg := mk_cfg { key : option (list Z); key_len : Z; mac_key : option (list Z); mac_key_len : Z }.

Definition mac_key_of (cfg : image_read_cfg) : option (list Z) * Z :=
  match mac_key cfg with Some k => (Some k, mac_key_len cfg) | None => (key cfg, key_len cfg) end.

Section verify.
Context `{Mbedtls} (crypto : bool).

(** The error of a library call, or its stream. *)
Definition fed_or {A} (err : Z) (r : Z * option A) : Z + option A := if negb (r.1 =? 0) then inl err else inr r.2.

(** The branches of the [switch]; [off], [len] place the payload, [aux_off] the aux bytes. *)
Definition verify_crc (read_fn : Z -> Z -> Z * list Z) (scratch_size off len crc_stored : Z) (c : crc_cache) : Z :=
  match read_loop read_fn scratch_size (fun st b => inr (crc_feed st b)) off len (crc_begin CRC_MODEL_WIDTH c) with
  | inl rc => rc
  | inr st => if crc_stream_finish st.1 =? crc_stored then ERR_OK else ERR_CRC_MISMATCH
  end.

Definition verify_sha (read_fn : Z -> Z -> Z * list Z) (scratch_size off len aux_off : Z) : Z :=
  let '(rc, expect) := read_fn aux_off IMAGE_HASH_LEN in
  if negb (rc =? ERR_OK) then rc else
  let '(rc, sh) := sha256_begin true in
  if negb (rc =? 0) then ERR_HASH_FAILED else
  match read_loop read_fn scratch_size (fun sh b => fed_or ERR_HASH_FAILED (sha256_feed sh (Some b))) off len sh with
  | inl rc => rc
  | inr sh =>
      let '(rc, digest) := sha256_end sh true in
      if negb (rc =? 0) then ERR_HASH_FAILED else
      if ct_equal (default [] digest) expect IMAGE_HASH_LEN then ERR_OK else ERR_HASH_MISMATCH
  end.

Definition verify_gcm (read_fn : Z -> Z -> Z * list Z) (scratch_size off len aux_off : Z) (cfg : image_read_cfg) : Z :=
  match key cfg with
  | None => ERR_ARG
  | Some k =>
      let '(rc, nonce) := read_fn aux_off IMAGE_GCM_NONCE_LEN in
      if negb (rc =? ERR_OK) then rc else
      let '(rc, tag) := read_fn (u32 (aux_off + IMAGE_GCM_NONCE_LEN)) IMAGE_GCM_TAG_LEN in
      if negb (rc =? ERR_OK) then rc else
      let '(rc, g) := aes_gcm_decrypt_stream_begin true (Some nonce) IMAGE_GCM_NONCE_LEN (Some k) (key_len cfg) in
      if negb (rc =? 0) then ERR_DECRYPT_FAILED else
      match read_loop read_fn scratch_size
              (fun g b => fed_or ERR_DECRYPT_FAILED (aes_gcm_stream_feed g (Some b) true).1) off len g with
      | inl rc => rc
      | inr g => if aes_gcm_decrypt_stream_finish g (Some tag) IMAGE_GCM_TAG_LEN =? 0 then ERR_OK else ERR_AUTH_FAILED
      end
  end.

Definition verify_cbc_sha (read_fn : Z -> Z -> Z * list Z) (scratch_size off len aux_off : Z) (cfg : image_read_cfg) : Z :=
  let '(mk, mk_len) := mac_key_of cfg in
  match mk with
  | None => ERR_ARG
  | Some mk =>
      let '(rc, iv) := read_fn aux_off IMAGE_CBC_IV_LEN in
      if negb (rc =? ERR_OK) then rc else
      let '(rc, mac) := read_fn (u32 (aux_off + IMAGE_CBC_IV_LEN)) IMAGE_HASH_LEN in
      if negb (rc =? ERR_OK) then rc else
      let '(rc, h) := hmac_sha256_stream_begin true (Some mk) mk_len in
      if negb (rc =? 0) then ERR_AUTH_FAILED else
      let '(rc, h) := hmac_sha256_stream_feed h (Some iv) in
      if negb (rc =? 0) then ERR_AUTH_FAILED else
      match read_loop read_fn scratch_size (fun h b => fed_or ERR_AUTH_FAILED (hmac_sha256_stream_feed h (Some b))) off len h with
      | inl rc => rc
      | inr h =>
          let '(rc, calc) := hmac_sha256_stream_end h true in
          if negb (rc =? 0) then ERR_AUTH_FAILED else
          if ct_equal (default [] calc) mac IMAGE_HASH_LEN then ERR_OK else ERR_AUTH_FAILED
      end
  end.

(** The result and the word stored through [out_crc]. *)
Definition image_verify_stream (read_fn : option (Z -> Z -> Z * list Z)) (img_size : Z) (cfg : option image_read_cfg)
    (scratch : bool) (scratch_size : Z) (c : crc_cache) : Z * option Z :=
  match read_fn, cfg with
  | Some read_fn, Some cfg =>
      if negb scratch || (scratch_size <? 16) || (img_size <? IMAGE_CRC_LEN + IMAGE_META_LEN) then (ERR_ARG, None) else
      let '(rc, mb) := read_fn (img_size - IMAGE_META_LEN) IMAGE_META_LEN in
      if negb (rc =? ERR_OK) then (rc, None) else
      let '(rc, m) := meta_decode mb in
      match m with
      | None => (rc, None)
      | Some m =>
          let mode := m_mode m in
          let '(rc, aux_len) := image_aux_len mode true in
          if negb (rc =? ERR_OK) then (rc, None) else
          let '(rc, overhead) := image_overhead mode (m_version_len m) (m_tag_len m) true in
          if negb (rc =? ERR_OK) then (rc, None) else
          if img_size <? overhead then (ERR_TOO_SMALL, None) else
          let payload_len := img_size - overhead in
          let crc_off := if m_is_front m then 0 else u32 (img_size - IMAGE_CRC_LEN - IMAGE_META_LEN) in
          let '(rc, cb) := read_fn crc_off IMAGE_CRC_LEN in
          if negb (rc =? ERR_OK) then (rc, None) else
          let crc_stored := get_le32 cb in
          let payload_off := if m_is_front m then u32 (IMAGE_CRC_LEN + m_version_len m + m_tag_len m + aux_len) else 0 in
          let aux_off := if m_is_front m then u32 (IMAGE_CRC_LEN + m_version_len m + m_tag_len m)
                         else u32 (img_size - IMAGE_CRC_LEN - IMAGE_META_LEN - m_version_len m - m_tag_len m - aux_len) in
          let rc :=
            if mode =? IMAGE_CHECK_CRC then verify_crc read_fn scratch_size payload_off payload_len crc_stored c
            else if mode =? IMAGE_CHECK_CBC then ERR_OK
            else if negb crypto then ERR_NOT_SUPPORTED
            else if mode =? IMAGE_CHECK_SHA then verify_sha read_fn scratch_size payload_off payload_len aux_off
            else if mode =? IMAGE_CHECK_GCM then verify_gcm read_fn scratch_size payload_off payload_len aux_off cfg
            else if mode =? IMAGE_CHECK_CBC_SHA then verify_cbc_sha read_fn scratch_size payload_off payload_len aux_off cfg
            else ERR_NOT_SUPPORTED in
          (rc, Some crc_stored)
      end
  | _, _ => (ERR_ARG, None)
  end.

(** ** An image in memory *)

Definition calc_crc (buf : list Z) (v : image_view) (c : crc_cache) : Z :=
  crc_stream_finish (crc_feed (crc_begin CRC_MODEL_WIDTH c) (slice buf (v_payload v) (v_payload_len v))).1.

(** What a call leaves behind: the bytes at the start of the output buffer, and the length
    it reports. *)
Definition plain := (list Z * option Z)%type.
Definition no_plain : plain := ([], None).

(** [out]: the output buffer is not NULL. *)
Definition copy_plain (buf : list Z) (v : image_view) (out : bool) (cap : Z) : Z * plain :=
  if negb out then (ERR_OK, ([], Some (v_payload_len v))) else
  if cap <? v_payload_len v then (ERR_BUF_TOO_SMALL, ([], Some (v_payload_len v))) else
  (ERR_OK, (slice buf (v_payload v) (v_payload_len v), Some (v_payload_len v))).

Definition check_sha (buf : list Z) (v : image_view) : Z :=
  if negb crypto then ERR_UNSUPPORTED else
  if v_aux_len v <? IMAGE_HASH_LEN then ERR_TOO_SMALL else
  let '(rc, sh) := sha256_begin true in
  if negb (rc =? 0) then ERR_HASH_FAILED else
  let '(rc, sh) := sha256_feed sh (Some (slice buf (v_payload v) (v_payload_len v))) in
  if negb (rc =? 0) then ERR_HASH_FAILED else
  let '(rc, digest) := sha256_end sh true in
  if negb (rc =? 0) then ERR_HASH_FAILED else
  if ct_equal (default [] digest) (slice buf (v_aux v) (v_aux_len v)) IMAGE_HASH_LEN then ERR_OK else ERR_HASH_MISMATCH.

(** The length without the padding; the loop compares the last [pad] bytes. *)
Definition pkcs7_unpad (data : list Z) : Z * option Z :=
  let len := Z.of_nat (length data) in
  if (len =? 0) || negb (len mod IMAGE_CBC_BLOCK_LEN =? 0) then (ERR_ARG, None) else
  let pad := byte_at data (len - 1) in
  if (pad =? 0) || (pad >? IMAGE_CBC_BLOCK_LEN) || (pad >? len) then (ERR_PADDING, None) else
  if negb (forallb (fun i => byte_at data (len - 1 - i) =? pad) (seqZ 0 pad)) then (ERR_PADDING, None) else
  (ERR_OK, Some (len - pad)).

(** What both CBC modes do once the image may be decrypted. *)
Definition cbc_open (iv cipher : list Z) (k : option (list Z)) (klen : Z) : Z * plain :=
  let '(rc, cbc) := aes_cbc_decrypt_stream_begin true (Some iv) k klen in
  if negb (rc =? 0) then (ERR_DECRYPT_FAILED, no_plain) else
  let '(rc, _, out) := aes_cbc_decrypt_stream_feed cbc (Some cipher) true in
  if negb (rc =? 0) then (ERR_DECRYPT_FAILED, (out, None)) else
  let '(rc, n) := pkcs7_unpad out in
  if negb (rc =? ERR_OK) then (rc, (out, None)) else (ERR_OK, (out, n)).

Definition cbc_decrypt (buf : list Z) (v : image_view) (k : option (list Z)) (klen cap : Z) : Z * plain :=
  if v_aux_len v <? IMAGE_CBC_IV_LEN then (ERR_TOO_SMALL, no_plain) else
  if (v_payload_len v =? 0) || negb (v_payload_len v mod IMAGE_CBC_BLOCK_LEN =? 0) then (ERR_ARG, no_plain) else
  if cap <? v_payload_len v then (ERR_BUF_TOO_SMALL, no_plain) else
  cbc_open (slice buf (v_aux v) (v_aux_len v)) (slice buf (v_payload v) (v_payload_len v)) k klen.

Definition gcm_decrypt (buf : list Z) (v : image_view) (k : option (list Z)) (klen cap : Z) : Z * plain :=
  if negb crypto then (ERR_UNSUPPORTED, no_plain) else
  if v_aux_len v <? IMAGE_GCM_NONCE_LEN + IMAGE_GCM_TAG_LEN then (ERR_TOO_SMALL, no_plain) else
  if cap <? v_payload_len v then (ERR_BUF_TOO_SMALL, no_plain) else
  let '(rc, g) := aes_gcm_decrypt_stream_begin true (Some (slice buf (v_aux v) IMAGE_GCM_NONCE_LEN)) IMAGE_GCM_NONCE_LEN k klen in
  if negb (rc =? 0) then (ERR_DECRYPT_FAILED, no_plain) else
  let '(rc, g, out) := aes_gcm_stream_feed g (Some (slice buf (v_payload v) (v_payload_len v))) true in
  if negb (rc =? 0) then (ERR_DECRYPT_FAILED, (out, None)) else
  if negb (aes_gcm_decrypt_stream_finish g
             (Some (slice buf (v_aux v + IMAGE_GCM_NONCE_LEN) IMAGE_GCM_TAG_LEN)) IMAGE_GCM_TAG_LEN =? 0)
  then (ERR_AUTH_FAILED, (out, None)) else (ERR_OK, (out, Some (v_payload_len v))).

Definition cbc_decrypt_dispatch (buf : list Z) (v : image_view) (k : option (list Z)) (klen cap : Z) : Z * plain :=
  if crypto then cbc_decrypt buf v k klen cap else (ERR_UNSUPPORTED, no_plain).

(** The MAC over the IV and the ciphertext, [None] when the library reports an error. *)
Definition mac_iv_cipher (mk : option (list Z)) (mk_len : Z) (iv cipher : list Z) : option (list Z) :=
  let '(rc, h) := hmac_sha256_stream_begin true mk mk_len in
  if negb (rc =? 0) then None else
  let '(rc, h) := hmac_sha256_stream_feed h (Some iv) in
  if negb (rc =? 0) then None else
  let '(rc, h) := hmac_sha256_stream_feed h (Some cipher) in
  if negb (rc =? 0) then None else
  let '(rc, calc) := hmac_sha256_stream_end h true in
  if negb (rc =? 0) then None else calc.

Definition cbc_sha_decrypt (buf : list Z) (v : image_view) (k : option (list Z)) (klen : Z)
    (mk : option (list Z)) (mk_len cap : Z) : Z * plain :=
  if negb crypto then (ERR_UNSUPPORTED, no_plain) else
  if v_aux_len v <? IMAGE_CBC_IV_LEN + IMAGE_HASH_LEN then (ERR_TOO_SMALL, no_plain) else
  if (v_payload_len v =? 0) || negb (v_payload_len v mod IMAGE_CBC_BLOCK_LEN =? 0) then (ERR_ARG, no_plain) else
  if cap <? v_payload_len v then (ERR_BUF_TOO_SMALL, no_plain) else
  let iv := slice buf (v_aux v) IMAGE_CBC_IV_LEN in
  let cipher := slice buf (v_payload v) (v_payload_len v) in
  match mac_iv_cipher mk mk_len iv cipher with
  | None => (ERR_AUTH_FAILED, no_plain)
  | Some calc =>
      if negb (ct_equal calc (slice buf (v_aux v + IMAGE_CBC_IV_LEN) IMAGE_HASH_LEN) IMAGE_HASH_LEN)
      then (ERR_AUTH_FAILED, no_plain)
      else cbc_open iv cipher k klen
  end.

Definition check_crypto_args (cfg : image_read_cfg) (out : bool) : Z :=
  match key cfg with
  | None => ERR_ARG
  | Some _ =>
      if negb (key_len cfg =? 16) && negb (key_len cfg =? 24) && negb (key_len cfg =? 32) then ERR_ARG else
      if negb out then ERR_ARG else ERR_OK
  end.

Record read_out := mk_out { o_view : option image_view; o_plain : plain; o_crc : option Z }.

(** The [switch] over the mode of a parsed image. *)
Definition read_view (b : list Z) (cfg : image_read_cfg) (out : bool) (cap : Z) (c : crc_cache) (v : image_view) : Z * read_out :=
  let mode := v_mode v in
  if mode =? IMAGE_CHECK_CRC then
    let calc := calc_crc b v c in
    if negb (calc =? v_crc_stored v) then (ERR_CRC_MISMATCH, mk_out (Some v) no_plain (Some calc)) else
    let '(rc, p) := copy_plain b v out cap in (rc, mk_out (Some v) p (Some calc))
  else if mode =? IMAGE_CHECK_SHA then
    let rc := check_sha b v in
    if negb (rc =? ERR_OK) then (rc, mk_out (Some v) no_plain None) else
    let '(rc, p) := copy_plain b v out cap in (rc, mk_out (Some v) p None)
  else if (mode =? IMAGE_CHECK_GCM) || (mode =? IMAGE_CHECK_CBC) || (mode =? IMAGE_CHECK_CBC_SHA) then
    let rc := check_crypto_args cfg out in
    if negb (rc =? ERR_OK) then (rc, mk_out (Some v) no_plain None) else
    let '(rc, p) :=
      if mode =? IMAGE_CHECK_GCM then gcm_decrypt b v (key cfg) (key_len cfg) cap
      else if mode =? IMAGE_CHECK_CBC then cbc_decrypt_dispatch b v (key cfg) (key_len cfg) cap
      else let '(mk, mk_len) := mac_key_of cfg in cbc_sha_decrypt b v (key cfg) (key_len cfg) mk mk_len cap in
    (rc, mk_out (Some v) p None)
  else (ERR_ARG, mk_out (Some v) no_plain None).

Definition image_read_payload (buf : option (list Z)) (cfg : option image_read_cfg) (out : bool) (cap : Z) (c : crc_cache)
    : Z * read_out :=
  match buf, cfg with
  | Some b, Some cfg =>
      let '(rc, v) := image_parse (Some b) true in
      match v with
      | None => (rc, mk_out None no_plain None)
      | Some v => read_view b cfg out cap c v
      end
  | _, _ => (ERR_ARG, mk_out None no_plain None)
  end.
End verify.

(** ** Raw data (verify.c) *)

Definition image_verify_raw (read_fn : option (Z -> Z -> Z * list Z)) (len expected_crc : Z) (c : crc_cache) : Z :=
  match read_fn with
  | None => ERR_ARG
  | Some read_fn =>
      if len =? 0 then ERR_ARG else
      match read_loop read_fn IMAGE_VERIFY_CHUNK (fun st b => inr (crc_feed st b)) 0 len (crc_begin 32 c) with
      | inl rc => rc
      | inr st => if crc_stream_finish st.1 =? expected_crc then ERR_OK else ERR_CRC_MISMATCH
      end
  end.

Definition verify_area_read {F} `{FlashOps F} (s : flash_sys F) (a : flash_area) (base : Z) (offset len : Z) : Z * list Z :=
  flash_area_read_operation s a (u32 (base + offset)) len.

Definition image_verify_area {F} `{FlashOps F} (s : flash_sys F) (area_id off len expected_crc : Z) (c : crc_cache) : Z :=
  let '(rc, area) := flash_area_open s area_id in
  if negb (rc =? ERR_OK) then rc else
  match area with
  | None => ERR_NOT_SUPPORTED
  | Some a => image_verify_raw (Some (verify_area_read s a off)) len expected_crc c
  end.

(** ** Slices *)

Lemma slice_length buf off len :
  0 <= off -> 0 <= len -> off + len <= Z.of_nat (length buf) -> Z.of_nat (length (slice buf off len)) = len.
Proof. intros. unfold slice. rewrite length_take, length_drop. lia. Qed.

Lemma slice_cat buf off a b :
  0 <= off -> 0 <= a -> 0 <= b -> slice buf off a ++ slice buf (off + a) b = slice buf off (a + b).
Proof.
  intros. unfold slice. rewrite !Z2Nat.inj_add by lia. rewrite <- drop_drop.
  apply take_take_drop.
Qed.

Lemma slice_all buf : slice buf 0 (Z.of_nat (length buf)) = buf.
Proof. unfold slice. rewrite Nat2Z.id. change (Z.to_nat 0) with O. rewrite drop_0. by apply take_ge. Qed.

Lemma slice_mid a b c off len :
  off = Z.of_nat (length a) -> len = Z.of_nat (length b) -> slice (a ++ b ++ c) off len = b.
Proof. intros -> ->. unfold slice. by rewrite !Nat2Z.id, drop_app_length, take_app_length. Qed.

Lemma slice_end a b off len : off = Z.of_nat (length a) -> len = Z.of_nat (length b) -> slice (a ++ b) off len = b.
Proof. intros. rewrite <- (app_nil_r b) at 1. by apply slice_mid. Qed.

Lemma slice_u8 buf off len : Forall is_u8 buf -> Forall is_u8 (slice buf off len).
Proof. intros. unfold slice. by apply Forall_take, Forall_drop. Qed.

Lemma four_bytes (l : list Z) : length l = 4%nat -> l = [byte_at l 0; byte_at l 1; byte_at l 2; byte_at l 3].
Proof. by destruct l as [|? [|? [|? [|? [|]]]]]. Qed.

Lemma get_le32_le32 w : is_u32 w -> get_le32 (le32 w) = w.
Proof.
  intros Hw. change (get_le32 (le32 w)) with (of_le32 (nth 0 (le32 w) 0) (nth 1 (le32 w) 0) (nth 2 (le32 w) 0) (nth 3 (le32 w) 0)).
  unfold le32. cbn [nth]. rewrite of_le32_spec. by apply u32_small.
Qed.

(** ** The parser inverts the layout *)

Record parts := mk_parts { p_mode : Z; p_front : bool; p_version : list Z; p_tag : list Z; p_aux : list Z; p_payload : list Z; p_crc : Z }.

Definition meta_bytes (p : parts) : list Z :=
  [IMAGE_META_MAGIC; p_mode p + (if p_front p then 128 else 0); Z.of_nat (length (p_version p)); Z.of_nat (length (p_tag p))].

(** The layouts read.h draws. *)
Definition build_image (p : parts) : list Z :=
  if p_front p then le32 (p_crc p) ++ p_version p ++ p_tag p ++ p_aux p ++ p_payload p ++ meta_bytes p
  else p_payload p ++ p_aux p ++ p_version p ++ p_tag p ++ le32 (p_crc p) ++ meta_bytes p.

Definition parts_wf (p : parts) : Prop :=
  0 <= p_mode p <= 4 /\ (length (p_version p) <= 255)%nat /\ (length (p_tag p) <= 255)%nat /\
  Z.of_nat (length (p_aux p)) = (image_aux_len (p_mode p) true).2 /\ is_u32 (p_crc p).

Definition parts_of (buf : list Z) (v : image_view) : parts :=
  mk_parts (v_mode v) (v_is_front v) (slice buf (v_version v) (v_version_len v)) (slice buf (v_tag v) (v_tag_len v))
    (slice buf (v_aux v) (v_aux_len v)) (slice buf (v_payload v) (v_payload_len v)) (v_crc_stored v).

Lemma aux_len_ok mode : 0 <= mode <= 4 ->
  ∃ n, image_aux_len mode true = (ERR_OK, n) /\ 0 <= n <= 48.
Proof.
  intros H. assert (mode = 0 \/ mode = 1 \/ mode = 2 \/ mode = 3 \/ mode = 4) as [->|[->|[->|[->| ->]]]] by lia;
    eexists; (split; [reflexivity|lia]).
Qed.

Lemma overhead_ok mode vl tl n :
  image_aux_len mode true = (ERR_OK, n) -> 0 <= n <= 48 -> 0 <= vl <= 255 -> 0 <= tl <= 255 ->
  image_overhead mode vl tl true = (ERR_OK, 8 + vl + tl + n).
Proof.
  intros E Hn Hv Ht. unfold image_overhead. rewrite E. change (ERR_OK =? ERR_OK) with true. cbn [negb].
  unfold SIZE_MAX, IMAGE_CRC_LEN, IMAGE_META_LEN. rewrite !Z.gtb_ltb, !(proj2 (Z.ltb_ge _ _)) by lia.
  done.
Qed.

Lemma mode_byte m1 : is_u8 m1 ->
  (Z.land m1 0x7F) + (if negb (Z.land m1 0x80 =? 0) then 128 else 0) = m1 /\ 0 <= Z.land m1 0x7F < 128.
Proof.
  intros H. assert (forallb (fun m => (Z.land m 0x7F + (if negb (Z.land m 0x80 =? 0) then 128 else 0) =? m) &&
    (0 <=? Z.land m 0x7F) && (Z.land m 0x7F <? 128)) (seqZ 0 256) = true) as Ha by (vm_compute; done).
  rewrite forallb_forall in Ha. specialize (Ha m1).
  rewrite !andb_true_iff, Z.eqb_eq, Z.leb_le, Z.ltb_lt in Ha.
  destruct Ha as [[H1 H2] H3]; [|done]. apply list_elem_of_In, elem_of_seqZ. unfold is_u8 in H. lia.
Qed.

Lemma mode_byte_enc mode (front : bool) : 0 <= mode <= 4 ->
  let m1 := mode + (if front then 128 else 0) in Z.land m1 0x7F = mode /\ negb (Z.land m1 0x80 =? 0) = front.
Proof.
  intros H. assert (mode = 0 \/ mode = 1 \/ mode = 2 \/ mode = 3 \/ mode = 4) as [->|[->|[->|[->| ->]]]] by lia;
    destruct front; done.
Qed.

Lemma meta_decode_build p : parts_wf p ->
  meta_decode (meta_bytes p) =
    (ERR_OK, Some (mk_meta (p_mode p) (p_front p) (Z.of_nat (length (p_version p))) (Z.of_nat (length (p_tag p))))).
Proof.
  intros (Hm & _). destruct (mode_byte_enc (p_mode p) (p_front p) Hm) as [E1 E2].
  unfold meta_decode, meta_bytes, byte_at. change (Z.to_nat 0) with O. change (Z.to_nat 1) with 1%nat.
  change (Z.to_nat 2) with 2%nat. change (Z.to_nat 3) with 3%nat. cbn [nth]. cbv zeta in *. rewrite E1, E2, Z.eqb_refl.
  cbn [negb orb]. unfold IMAGE_CHECK_CBC_SHA. by rewrite Z.gtb_ltb, (proj2 (Z.ltb_ge _ _)) by lia.
Qed.

(** What a meta that decodes says. *)
Lemma meta_decode_inv m d :
  length m = 4%nat -> Forall is_u8 m -> meta_decode m = (ERR_OK, Some d) ->
  0 <= m_mode d <= 4 /\ 0 <= m_version_len d <= 255 /\ 0 <= m_tag_len d <= 255 /\
  m = [IMAGE_META_MAGIC; m_mode d + (if m_is_front d then 128 else 0); m_version_len d; m_tag_len d].
Proof.
  intros Hl Hu. rewrite (four_bytes m Hl) in Hu |- *. set (m0 := byte_at m 0) in *. set (m1 := byte_at m 1) in *.
  set (m2 := byte_at m 2) in *. set (m3 := byte_at m 3) in *. unfold meta_decode.
  change (byte_at [m0; m1; m2; m3] 0) with m0. change (byte_at [m0; m1; m2; m3] 1) with m1.
  change (byte_at [m0; m1; m2; m3] 2) with m2. change (byte_at [m0; m1; m2; m3] 3) with m3.
  destruct (Z.eqb_spec m0 IMAGE_META_MAGIC) as [->|]; [|done]. cbn [negb orb]. unfold IMAGE_CHECK_CBC_SHA.
  rewrite Z.gtb_ltb. destruct (Z.ltb_spec 4 (Z.land m1 0x7F)) as [|Hm]; [done|]. intros [= <-]. cbn.
  rewrite !list.Forall_cons in Hu. destruct Hu as (_ & H1 & H2 & H3 & _).
  destruct (mode_byte m1 H1) as [E [H0 _]]. unfold is_u8 in *. rewrite E. by split_and!; lia || f_equal.
Qed.

(** A slice that is one of the parts of a buffer. *)
Lemma slice_part (pre b post buf : list Z) off len :
  buf = pre ++ b ++ post -> off = Z.of_nat (length pre) -> len = Z.of_nat (length b) -> slice buf off len = b.
Proof. intros ->. apply slice_mid. Qed.

Lemma le32_length w : length (le32 w) = 4%nat.
Proof. done. Qed.

Lemma build_length p : parts_wf p -> Z.of_nat (length (build_image p)) =
  8 + Z.of_nat (length (p_version p)) + Z.of_nat (length (p_tag p)) + Z.of_nat (length (p_aux p)) + Z.of_nat (length (p_payload p)).
Proof. intros _. unfold build_image. destruct (p_front p); rewrite !length_app, le32_length; cbn [length meta_bytes]; lia. Qed.

Lemma build_meta p : slice (build_image p) (Z.of_nat (length (build_image p)) - 4) 4 = meta_bytes p.
Proof.
  assert (∃ x, build_image p = x ++ meta_bytes p) as [x ->].
  { unfold build_image. destruct (p_front p).
    - eexists (le32 (p_crc p) ++ p_version p ++ p_tag p ++ p_aux p ++ p_payload p). by rewrite <- !app_assoc.
    - eexists (p_payload p ++ p_aux p ++ p_version p ++ p_tag p ++ le32 (p_crc p)). by rewrite <- !app_assoc. }
  apply slice_end; [|done]. rewrite length_app. cbn [length meta_bytes]. lia.
Qed.

Lemma image_parse_build p :
  parts_wf p -> ∃ v, image_parse (Some (build_image p)) true = (ERR_OK, Some v) /\ parts_of (build_image p) v = p.
Proof.
  intros Hp. pose proof Hp as (Hm & Hv & Ht & Ha & Hc). pose proof (build_length p Hp) as Hl.
  destruct (aux_len_ok (p_mode p) Hm) as (n & En & Hn). rewrite En in Ha. cbn [snd] in Ha.
  unfold image_parse, IMAGE_CRC_LEN, IMAGE_META_LEN. cbn [negb orb]. rewrite (proj2 (Z.ltb_ge _ _)) by lia.
  rewrite build_meta, meta_decode_build by done. cbn [m_mode m_is_front m_version_len m_tag_len].
  rewrite (overhead_ok _ _ _ n), En by (done || lia). change (ERR_OK =? ERR_OK) with true. cbn [negb].
  rewrite (proj2 (Z.ltb_ge _ _)) by lia.
  replace (_ - (8 + _ + _ + n)) with (Z.of_nat (length (p_payload p))) by lia. clear Hl.
  destruct p as [mode front version tag aux payload crc]. cbn in *.
  destruct front; eexists; (split; [reflexivity|]); unfold parts_of; cbn -[slice];
    unfold build_image; cbn [p_front p_version p_tag p_aux p_payload p_crc]; set (mt := meta_bytes _); f_equal.
  - apply (slice_part (le32 crc) _ (tag ++ aux ++ payload ++ mt)); [done|cbn; lia|done].
  - apply (slice_part (le32 crc ++ version) _ (aux ++ payload ++ mt)); [by rewrite <- app_assoc|rewrite !length_app, le32_length; lia|done].
  - apply (slice_part (le32 crc ++ version ++ tag) _ (payload ++ mt)); [by rewrite <- !app_assoc|rewrite !length_app, le32_length; lia|lia].
  - apply (slice_part (le32 crc ++ version ++ tag ++ aux) _ mt); [by rewrite <- !app_assoc|rewrite !length_app, le32_length; lia|done].
  - rewrite (slice_part [] (le32 crc) (version ++ tag ++ aux ++ payload ++ mt)) by done. by apply get_le32_le32.
  - apply (slice_part (payload ++ aux) _ (tag ++ le32 crc ++ mt)); [by rewrite <- !app_assoc|rewrite !length_app; lia|done].
  - apply (slice_part (payload ++ aux ++ version) _ (le32 crc ++ mt)); [by rewrite <- !app_assoc|rewrite !length_app; lia|done].
  - apply (slice_part payload _ (version ++ tag ++ le32 crc ++ mt)); [done|done|lia].
  - apply (slice_part [] _ (aux ++ version ++ tag ++ le32 crc ++ mt)); done.
  - rewrite (slice_part (payload ++ aux ++ version ++ tag) (le32 crc) mt);
      [by apply get_le32_le32|by rewrite <- !app_assoc|rewrite !length_app; lia|done].
Qed.

Lemma le32_get_le32 b : length b = 4%nat -> Forall is_u8 b -> le32 (get_le32 b) = b /\ is_u32 (get_le32 b).
Proof.
  intros Hl Hu. rewrite (four_bytes b Hl) in Hu. rewrite (four_bytes b Hl) at 2. unfold get_le32.
  generalize dependent (byte_at b 0). generalize dependent (byte_at b 1). generalize dependent (byte_at b 2).
  generalize dependent (byte_at b 3). intros b3 b2 b1 b0 Hu. rewrite !list.Forall_cons in Hu. unfold is_u8 in Hu.
  set (n := b0 + 256 * b1 + 65536 * b2 + 16777216 * b3).
  assert (le32 n = [b0; b1; b2; b3]) as El.
  { unfold le32. change 255 with (Z.ones 8). rewrite !Z.land_ones, !Z.shiftr_div_pow2 by lia.
    change (2 ^ 8) with 256. change (2 ^ 16) with 65536. change (2 ^ 24) with 16777216. subst n.
    repeat f_equal; Z.to_euclidean_division_equations; lia. }
  assert (of_le32 b0 b1 b2 b3 = n) as ->.
  { pose proof (of_le32_spec n) as E. unfold le32 in El. injection El as E0 E1 E2 E3. rewrite E0, E1, E2, E3 in E. rewrite E. apply u32_small. lia. }
  split; [done|]. unfold is_u32. lia.
Qed.

(** The meta at the end of a buffer, when it decodes. *)
Lemma tail_meta buf :
  Forall is_u8 buf -> 8 <= Z.of_nat (length buf) ->
  let mb := slice buf (Z.of_nat (length buf) - 4) 4 in
  meta_decode mb = (ERR_ARG, None) \/
  ∃ d n, meta_decode mb = (ERR_OK, Some d) /\ image_aux_len (m_mode d) true = (ERR_OK, n) /\
    image_overhead (m_mode d) (m_version_len d) (m_tag_len d) true = (ERR_OK, 8 + m_version_len d + m_tag_len d + n) /\
    0 <= m_mode d <= 4 /\ 0 <= m_version_len d <= 255 /\ 0 <= m_tag_len d <= 255 /\ 0 <= n <= 48 /\
    mb = [IMAGE_META_MAGIC; m_mode d + (if m_is_front d then 128 else 0); m_version_len d; m_tag_len d].
Proof.
  intros Hu Hlen mb. assert (length mb = 4%nat) as Hml by (pose proof (slice_length buf (Z.of_nat (length buf) - 4) 4); unfold mb; lia).
  destruct (meta_decode mb) as [rc [d|]] eqn:Ed; unfold meta_decode in Ed; destruct (_ || _) eqn:Eb; try discriminate Ed.
  - right. assert (meta_decode mb = (ERR_OK, Some d)) as Ed' by (unfold meta_decode; rewrite Eb; congruence).
    destruct (meta_decode_inv mb d Hml (slice_u8 _ _ _ Hu) Ed') as (Hm & Hv & Ht & Emeta).
    destruct (aux_len_ok (m_mode d) Hm) as (n & En & Hn). exists d, n. rewrite (overhead_ok _ _ _ n) by done.
    split_and!; (done || congruence || lia).
  - left. congruence.
Qed.

Lemma image_parse_inv buf v :
  Forall is_u8 buf -> image_parse (Some buf) true = (ERR_OK, Some v) ->
  parts_wf (parts_of buf v) /\ build_image (parts_of buf v) = buf.
Proof.
  intros Hu. unfold image_parse, IMAGE_CRC_LEN, IMAGE_META_LEN. cbn [negb orb].
  destruct (Z.ltb_spec (Z.of_nat (length buf)) (4 + 4)) as [|Hlen]; [done|].
  set (len := Z.of_nat (length buf)) in *.
  pose proof (tail_meta buf Hu ltac:(lia)) as Htm. cbv zeta in Htm. fold len in Htm.
  destruct Htm as [->|(d & n & -> & En & Eo & Hm & Hv & Ht & Hn & Emeta)]; [done|]. rewrite Eo, En. change (ERR_OK =? ERR_OK) with true. cbn [negb].
  destruct (Z.ltb_spec len (8 + m_version_len d + m_tag_len d + n)) as [|Hov]; [done|].
  set (pl := len - (8 + m_version_len d + m_tag_len d + n)).
  assert (∀ off, 0 <= off -> off + 4 <= len -> le32 (get_le32 (slice buf off 4)) = slice buf off 4 /\ is_u32 (get_le32 (slice buf off 4))) as Hcrc.
  { intros off H0 H1. apply le32_get_le32; [|by apply slice_u8]. pose proof (slice_length buf off 4). lia. }
  assert (slice buf 0 len = buf) as Hall by apply slice_all.
  destruct (m_is_front d) eqn:Ef; intros [= <-]; unfold parts_of; cbn -[slice le32 get_le32].
  - assert (0 <= 4 + m_version_len d + m_tag_len d + n) by lia.
    split.
    + destruct (Hcrc 0) as [_ ?]; [lia..|].
      unfold parts_wf. cbn -[slice get_le32 image_aux_len]. rewrite En. cbn [snd].
      pose proof (slice_length buf 4 (m_version_len d)). pose proof (slice_length buf (4 + m_version_len d) (m_tag_len d)).
      pose proof (slice_length buf (4 + m_version_len d + m_tag_len d) n). split_and!; (done || lia).
    + unfold build_image, meta_bytes. cbn -[slice le32 get_le32]. rewrite !slice_length by lia.
      rewrite <- Emeta, (proj1 (Hcrc 0 ltac:(lia) ltac:(lia))).
      replace (len - 4) with (4 + m_version_len d + m_tag_len d + n + pl) by lia.
      rewrite !slice_cat by lia.
      rewrite <- Hall at 2. f_equal. lia.
  - split.
    + destruct (Hcrc (pl + n + m_version_len d + m_tag_len d)) as [_ ?]; [lia..|].
      unfold parts_wf. cbn -[slice get_le32 image_aux_len]. rewrite En. cbn [snd].
      pose proof (slice_length buf (pl + n) (m_version_len d)). pose proof (slice_length buf (pl + n + m_version_len d) (m_tag_len d)).
      pose proof (slice_length buf pl n). split_and!; (done || lia).
    + unfold build_image, meta_bytes. cbn -[slice le32 get_le32]. rewrite !slice_length by lia.
      rewrite Z.add_0_r in Emeta. rewrite Z.add_0_r, <- Emeta.
      rewrite (proj1 (Hcrc (pl + n + m_version_len d + m_tag_len d) ltac:(lia) ltac:(lia))).
      replace (len - 4) with (pl + n + m_version_len d + m_tag_len d + 4) by lia.
      rewrite !slice_cat by lia.
      rewrite <- Hall at 2. f_equal. lia.
Qed.

(** the parser inverts the layouts of read.h exactly.  Every image put together from parts,
    in either layout and for each of the five modes, parses into those parts; and whatever
    bytes the parser accepts are an image, whose parts it has found, all inside the buffer
    and without overlap. *)
Theorem image_parse_exact :
  (∀ p, parts_wf p -> ∃ v, image_parse (Some (build_image p)) true = (ERR_OK, Some v) /\ parts_of (build_image p) v = p) /\
  (∀ buf v, Forall is_u8 buf -> image_parse (Some buf) true = (ERR_OK, Some v) ->
     parts_wf (parts_of buf v) /\ build_image (parts_of buf v) = buf).
Proof. split; [exact image_parse_build|exact image_parse_inv]. Qed.

Definition demo_parts : parts := mk_parts IMAGE_CHECK_SHA false [49; 46; 48] [98] (replicate 32 7) [1; 2; 3; 4; 5] 0xDEADBEEF.

Lemma image_parse_exact_witness :
  ∃ v, image_parse (Some (build_image demo_parts)) true = (ERR_OK, Some v) /\
    parts_of (build_image demo_parts) v = demo_parts /\ v_version v = 37.
Proof.
  destruct (proj1 image_parse_exact demo_parts) as (v & E & Hv); [vm_compute; repeat split; (lia || discriminate)|].
  exists v. split; [exact E|]. split; [exact Hv|]. vm_compute in E. injection E as <-. reflexivity.
Defined.

(** ** Reading in pieces *)

(** The callback reads this image. *)
Definition reads (buf : list Z) (rf : Z -> Z -> Z * list Z) : Prop :=
  ∀ off len, 0 <= off -> 0 <= len -> off + len <= Z.of_nat (length buf) -> rf off len = (ERR_OK, slice buf off len).

Section pieces.
Context {St : Type} (feed : St -> list Z -> Z + St) (took : St -> list Z -> Prop) (g : Z).
Context (buf : list Z) (rf : Z -> Z -> Z * list Z) (scratch_size : Z).
Hypothesis Hbuf : Forall is_u8 buf.
Hypothesis Hsmall : Z.of_nat (length buf) < 2 ^ 32.
Hypothesis Hrf : reads buf rf.
Hypothesis Hg : 0 < g /\ (g | scratch_size) /\ 0 < scratch_size.
Hypothesis Hfeed : ∀ st d b, took st d -> (g | Z.of_nat (length d)) -> Forall is_u8 b ->
  ∃ st', feed st b = inr st' /\ took st' (d ++ b).

(** Feeding in pieces is feeding the whole, when every piece but the last fills blocks. *)
Lemma chunk_loop_spec fuel off len st d :
  0 <= off -> 0 <= len -> off + len <= Z.of_nat (length buf) -> (Z.to_nat len < fuel)%nat ->
  took st d -> (g | Z.of_nat (length d)) ->
  ∃ st', chunk_loop fuel rf scratch_size feed off len st = inr st' /\ took st' (d ++ slice buf off len).
Proof using Hbuf Hsmall Hrf Hg Hfeed.
  revert off len st d. induction fuel as [|fuel IH]; intros off len st d Hoff Hlen Hin Hf Ht Hd; [lia|].
  cbn [chunk_loop]. rewrite !Z.gtb_ltb. destruct (Z.ltb_spec 0 len) as [Hpos|]; cbn [negb].
  2:{ replace len with 0 by lia. exists st. split; [done|]. unfold slice. change (Z.to_nat 0) with O. by rewrite app_nil_r. }
  assert (u32 len = len) as -> by (apply u32_small; lia).
  set (chunk := if _ <? _ then _ else _).
  assert (0 < chunk <= len) as Hc by (subst chunk; destruct (Z.ltb_spec scratch_size len); lia).
  rewrite Hrf by lia. change (ERR_OK =? ERR_OK) with true. cbn [negb].
  destruct (Hfeed st d (slice buf off chunk) Ht Hd) as (st1 & -> & Ht1); [by apply slice_u8|].
  rewrite u32_small by lia.
  destruct (Z.eq_dec chunk len) as [->|Hne].
  - rewrite Z.sub_diag. destruct fuel as [|fuel]; [lia|]. cbn [chunk_loop]. exists st1. by split.
  - destruct (IH (off + chunk) (len - chunk) st1 (d ++ slice buf off chunk)) as (st' & E & Ht'); try lia; [done| |].
    { rewrite length_app, Nat2Z.inj_add, slice_length by lia. apply Z.divide_add_r; [done|].
      subst chunk. destruct (Z.ltb_spec scratch_size len); [apply Hg|lia]. }
    exists st'. split; [done|]. rewrite <- app_assoc, slice_cat in Ht' by lia.
    by replace (chunk + (len - chunk)) with len in Ht' by lia.
Qed.

Lemma read_loop_spec off len st :
  0 <= off -> 0 <= len -> off + len <= Z.of_nat (length buf) -> took st [] ->
  ∃ st', read_loop rf scratch_size feed off len st = inr st' /\ took st' (slice buf off len).
Proof using Hbuf Hsmall Hrf Hg Hfeed.
  intros. apply (chunk_loop_spec _ off len st []); try done; [lia|]. apply Z.divide_0_r.
Qed.
End pieces.

(** ** Comparisons *)

Lemma diff_loop_0 a b d :
  Forall is_u8 a -> Forall is_u8 b -> length a = length b -> is_u8 d -> (diff_loop a b d = 0 <-> d = 0 /\ a = b).
Proof.
  intros Ha. revert b d. induction Ha as [|x a Hx Ha IH]; intros b d Hb Hl Hd; destruct b as [|y b]; try done.
  { cbn. naive_solver. }
  apply Forall_cons_1 in Hb as [Hy Hb]. cbn [diff_loop].
  assert (fits 8 (Z.lxor x y)) as Hxy by (apply fits_lxor; by apply fits_u8).
  assert (u8 (Z.lxor x y) = Z.lxor x y) as -> by (apply Z.mod_small; by apply fits_u8).
  assert (0 <= Z.lor d (Z.lxor x y) < 256) as Hor.
  { assert (0 <= Z.lxor x y < 2 ^ 8) by (apply fits_range; done || lia).
    split; [apply Z.lor_nonneg; unfold is_u8 in Hd; lia|].
    destruct (Z.eq_dec (Z.lor d (Z.lxor x y)) 0) as [->|]; [done|].
    change 256 with (2 ^ 8). apply Z.log2_lt_pow2; [pose proof (Z.lor_nonneg d (Z.lxor x y)); unfold is_u8 in Hd; lia|].
    unfold is_u8 in Hd. rewrite Z.log2_lor by lia.
    assert (∀ z, 0 <= z < 2 ^ 8 -> Z.log2 z < 8) as Hlg.
    { intros z Hz. destruct (Z.eq_dec z 0) as [->|]; [done|]. apply Z.log2_lt_pow2; lia. }
    apply Z.max_lub_lt; apply Hlg; lia. }
  assert (u8 (Z.lor d (Z.lxor x y)) = Z.lor d (Z.lxor x y)) as -> by (by apply Z.mod_small).
  rewrite IH; [|done|by injection Hl|done]. rewrite Z.lor_eq_0_iff, Z.lxor_eq_0_iff. naive_solver.
Qed.

Lemma ct_equal_spec a b n :
  Forall is_u8 a -> Forall is_u8 b -> length a = Z.to_nat n -> length b = Z.to_nat n -> ct_equal a b n = bool_decide (a = b).
Proof.
  intros Ha Hb Hla Hlb. unfold ct_equal. rewrite !take_ge by lia. apply eq_true_iff_eq.
  rewrite Z.eqb_eq, bool_decide_eq_true, diff_loop_0 by (done || lia). naive_solver.
Qed.

(** ** The verdict on a whole image *)

(** The bit-serial CRC of the image's model. *)
Definition crc_model : option crc_stream :=
  crc_stream_start (Some stream_zero) CRC_MODEL_INIT CRC_MODEL_REFIN CRC_MODEL_REFOUT CRC_MODEL_XOR_OUT CRC_MODEL_POLY CRC_MODEL_WIDTH.
Definition image_crc (d : list Z) : Z :=
  match crc_model with Some s => crc_stream_finish (Some (fed s d)) | None => 0 end.

Definition crc_took (st : option crc_stream * crc_cache) (d : list Z) : Prop :=
  ∃ s, crc_model = Some s /\ stream_wf (fed s d) /\ st.1 = Some (fed s d) /\ cache_ok st.2.

Lemma crc_begin_took c : cache_ok c -> crc_took (crc_begin CRC_MODEL_WIDTH c) [].
Proof.
  intros Hc. destruct (crc_stream_start_wf stream_zero CRC_MODEL_INIT CRC_MODEL_REFIN CRC_MODEL_REFOUT CRC_MODEL_XOR_OUT
    CRC_MODEL_POLY CRC_MODEL_WIDTH) as (s & Es & Hs); [unfold CRC_MODEL_WIDTH; lia|].
  exists s. split; [done|]. assert (fed s [] = s) as -> by (destruct s as [? ? ? ? [] ?]; reflexivity).
  by unfold crc_begin; rewrite Es.
Qed.

Lemma crc_feed_took st d b : crc_took st d -> Forall is_u8 b -> crc_took (crc_feed st b) (d ++ b).
Proof.
  intros (s & Es & Hs & E1 & Hc) Hb. unfold crc_feed. rewrite E1.
  destruct (crc_stream_feed_fed true (fed s d) b st.2 Hb Hs Hc) as (c' & -> & Hc').
  exists s. rewrite fed_app. split; [done|]. split; [|done]. rewrite <- fed_app. by apply fed_wf.
Qed.

Lemma crc_took_finish st d : crc_took st d -> crc_stream_finish st.1 = image_crc d.
Proof. intros (s & Es & _ & -> & _). unfold image_crc. by rewrite Es. Qed.

(** The keys are the ones their lengths say. *)
Definition cfg_ok (cfg : image_read_cfg) : Prop :=
  (∀ k, key cfg = Some k -> key_len cfg = Z.of_nat (length k) /\ length k ∈ [16; 24; 32]%nat) /\
  (∀ k, mac_key cfg = Some k -> mac_key_len cfg = Z.of_nat (length k)).

Lemma mac_key_of_ok cfg k n : cfg_ok cfg -> mac_key_of cfg = (Some k, n) -> n = Z.of_nat (length k).
Proof.
  intros [Hk Hm]. unfold mac_key_of. destruct (mac_key cfg) as [mk|] eqn:E; intros [= E1 <-]; [subst; by apply Hm|].
  by apply Hk.
Qed.

Section spec.
Context `{MbedtlsLaws} (crypto : bool).

(** What each mode checks, on the parts of the image. *)
Definition verdict (cfg : image_read_cfg) (p : parts) : Z :=
  if p_mode p =? IMAGE_CHECK_CRC then
    if bool_decide (image_crc (p_payload p) = p_crc p) then ERR_OK else ERR_CRC_MISMATCH
  else if p_mode p =? IMAGE_CHECK_CBC then ERR_OK
  else if negb crypto then ERR_NOT_SUPPORTED
  else if p_mode p =? IMAGE_CHECK_SHA then
    if bool_decide (sha256 (p_payload p) = p_aux p) then ERR_OK else ERR_HASH_MISMATCH
  else if p_mode p =? IMAGE_CHECK_GCM then
    match key cfg with
    | None => ERR_ARG
    | Some k => if bool_decide (gcm_tag k (take 12 (p_aux p)) (p_payload p) = drop 12 (p_aux p)) then ERR_OK else ERR_AUTH_FAILED
    end
  else
    match (mac_key_of cfg).1 with
    | None => ERR_ARG
    | Some k => if bool_decide (hmac k (take 16 (p_aux p) ++ p_payload p) = drop 16 (p_aux p)) then ERR_OK else ERR_AUTH_FAILED
    end.

Section branches.
Context (buf : list Z) (rf : Z -> Z -> Z * list Z) (sz off len : Z).
Hypothesis Hbuf : Forall is_u8 buf.
Hypothesis Hsmall : Z.of_nat (length buf) < 2 ^ 32.
Hypothesis Hrf : reads buf rf.
Hypothesis Hin : 0 <= off /\ 0 <= len /\ off + len <= Z.of_nat (length buf).

Lemma verify_crc_spec stored c : 16 <= sz -> cache_ok c ->
  verify_crc rf sz off len stored c =
    if bool_decide (image_crc (slice buf off len) = stored) then ERR_OK else ERR_CRC_MISMATCH.
Proof using Hbuf Hsmall Hrf Hin.
  intros Hsz Hc. unfold verify_crc.
  destruct (read_loop_spec (fun st b => inr (crc_feed st b)) crc_took 1 buf rf sz Hbuf Hsmall Hrf
    ltac:(split; [lia|split; [apply Z.divide_1_l|lia]])
    ltac:(intros st d b Ht _ Hb; eexists; split; [done|by apply crc_feed_took])
    off len (crc_begin CRC_MODEL_WIDTH c)) as (st & -> & Ht); [lia..|by apply crc_begin_took|].
  rewrite (crc_took_finish _ _ Ht). destruct (Z.eqb_spec (image_crc (slice buf off len)) stored) as [E|E];
    [by rewrite bool_decide_true|by rewrite bool_decide_false].
Qed.

Lemma verify_sha_spec aux : 16 <= sz -> 0 <= aux -> aux + 32 <= Z.of_nat (length buf) ->
  verify_sha rf sz off len aux =
    if bool_decide (sha256 (slice buf off len) = slice buf aux 32) then ERR_OK else ERR_HASH_MISMATCH.
Proof using Hbuf Hsmall Hrf Hin.
  intros Hsz Ha Hal. unfold verify_sha, IMAGE_HASH_LEN. rewrite Hrf by lia. change (ERR_OK =? ERR_OK) with true. cbn [negb].
  unfold sha256_begin. cbn [negb]. destruct sha_starts_law as (c0 & -> & Hc0). change (0 =? 0) with true. cbn [negb].
  destruct (read_loop_spec (fun sh b => fed_or ERR_HASH_FAILED (sha256_feed sh (Some b)))
    (fun sh d => ∃ c, sh = Some c /\ sha_took c d) 1 buf rf sz Hbuf Hsmall Hrf
    ltac:(split; [lia|split; [apply Z.divide_1_l|lia]])) with (off := off) (len := len) (st := Some c0)
    as (sh & -> & c & -> & Hc); [|lia..|by eexists|].
  { intros st d b (c & -> & Hc) _ _. unfold fed_or, sha256_feed.
    destruct (sha_update_law c d b Hc) as (c' & -> & Hc'). eexists. split; [done|]. by eexists. }
  unfold sha256_end. cbn [negb]. rewrite (sha_finish_law _ _ Hc). change (0 =? 0) with true. cbn [negb].
  change (default [] (Some ?x)) with x. destruct (sha256_bytes (slice buf off len)) as [Hl Hu].
  rewrite ct_equal_spec; [done|done|by apply slice_u8|done|].
  pose proof (slice_length buf aux 32). lia.
Qed.

Lemma verify_gcm_spec cfg aux k :
  cfg_ok cfg -> key cfg = Some k -> 16 <= sz -> (16 | sz) -> 0 <= aux -> aux + 28 <= Z.of_nat (length buf) ->
  verify_gcm rf sz off len aux cfg =
    if bool_decide (gcm_tag k (slice buf aux 12) (slice buf off len) = slice buf (aux + 12) 16) then ERR_OK else ERR_AUTH_FAILED.
Proof using Hbuf Hsmall Hrf Hin.
  intros [Hk _] Ek Hsz Hdiv Ha Hal. destruct (Hk k Ek) as [Ekl Hkl]. unfold verify_gcm, IMAGE_GCM_NONCE_LEN, IMAGE_GCM_TAG_LEN.
  rewrite Ek, !Hrf by lia. change (ERR_OK =? ERR_OK) with true. cbn [negb]. rewrite u32_small by lia.
  rewrite Hrf by lia. change (ERR_OK =? ERR_OK) with true. cbn [negb].
  unfold aes_gcm_decrypt_stream_begin, gcm_stream_begin. rewrite Ekl.
  destruct (gcm_key_law k Hkl) as (c0 & -> & Hst). change (0 =? 0) with true. cbn [negb].
  destruct (Hst true (slice buf aux 12)) as (c1 & -> & Hc1); [pose proof (slice_length buf aux 12); lia|].
  change (0 =? 0) with true. cbn [negb].
  destruct (read_loop_spec (fun g b => fed_or ERR_DECRYPT_FAILED (aes_gcm_stream_feed g (Some b) true).1)
    (fun g d => ∃ c, g = Some c /\ gcm_took c true k (slice buf aux 12) d) 16 buf rf sz Hbuf Hsmall Hrf
    ltac:(split; [lia|split; [done|lia]])) with (off := off) (len := len) (st := Some c1)
    as (g & -> & c & -> & Hc); [|lia..|by eexists|].
  { intros st d b (c & -> & Hc) Hd _. unfold fed_or, aes_gcm_stream_feed.
    destruct (gcm_update_law c true k (slice buf aux 12) d b Hc) as (c' & o & -> & Hc' & _).
    { apply Nat2Z.inj. rewrite Nat2Z.inj_mod. by apply Z.mod_divide. }
    eexists. split; [done|]. by eexists. }
  unfold aes_gcm_decrypt_stream_finish. change ((16 =? 0) || (16 >? AES_GCM_MAX_TAG_LEN)) with false.
  rewrite (gcm_finish_law _ _ _ _ _ Hc). change (0 =? 0) with true. cbn [negb].
  destruct (gcm_tag_bytes k (slice buf aux 12) (slice buf off len)) as [Hl Hu].
  fold (ct_equal (gcm_tag k (slice buf aux 12) (slice buf off len)) (slice buf (aux + 12) 16) 16).
  rewrite ct_equal_spec; [|done|by apply slice_u8|done|pose proof (slice_length buf (aux + 12) 16); lia].
  case_bool_decide; [done|]. destruct err_nonzero as (_ & _ & _ & Hne & _).
  by rewrite (proj2 (Z.eqb_neq _ _)).
Qed.

Lemma verify_cbc_sha_spec cfg aux k :
  cfg_ok cfg -> (mac_key_of cfg).1 = Some k -> 16 <= sz -> 0 <= aux -> aux + 48 <= Z.of_nat (length buf) ->
  verify_cbc_sha rf sz off len aux cfg =
    if bool_decide (hmac k (slice buf aux 16 ++ slice buf off len) = slice buf (aux + 16) 32) then ERR_OK else ERR_AUTH_FAILED.
Proof using Hbuf Hsmall Hrf Hin.
  intros Hcfg Ek Hsz Ha Hal. unfold verify_cbc_sha, IMAGE_CBC_IV_LEN, IMAGE_HASH_LEN.
  destruct (mac_key_of cfg) as [mk n] eqn:Em. cbn [fst] in Ek. subst mk. rewrite (mac_key_of_ok cfg k n Hcfg Em).
  rewrite !Hrf by lia. change (ERR_OK =? ERR_OK) with true. cbn [negb]. rewrite u32_small by lia.
  rewrite Hrf by lia. change (ERR_OK =? ERR_OK) with true. cbn [negb].
  unfold hmac_sha256_stream_begin. destruct md_law as (-> & c0 & -> & Hst). cbn [negb].
  change (0 =? 0) with true. cbn [negb]. destruct (Hst k) as (c1 & -> & Hc1). change (0 =? 0) with true. cbn [negb].
  unfold hmac_sha256_stream_feed at 1. destruct (hmac_update_law c1 k [] (slice buf aux 16) Hc1) as (c2 & -> & Hc2).
  change (0 =? 0) with true. cbn [negb]. rewrite app_nil_l in Hc2.
  destruct (read_loop_spec (fun h b => fed_or ERR_AUTH_FAILED (hmac_sha256_stream_feed h (Some b)))
    (fun h d => ∃ c, h = Some c /\ hmac_took c k (slice buf aux 16 ++ d)) 1 buf rf sz Hbuf Hsmall Hrf
    ltac:(split; [lia|split; [apply Z.divide_1_l|lia]])) with (off := off) (len := len) (st := Some c2)
    as (h & -> & c & -> & Hc); [|lia..|eexists; by rewrite app_nil_r|].
  { intros st d b (c & -> & Hc) _ _. unfold fed_or, hmac_sha256_stream_feed.
    destruct (hmac_update_law c k _ b Hc) as (c' & -> & Hc'). eexists. split; [done|]. eexists. by rewrite app_assoc. }
  unfold hmac_sha256_stream_end. cbn [negb]. rewrite (hmac_finish_law _ _ _ Hc). change (0 =? 0) with true. cbn [negb].
  change (default [] (Some ?x)) with x. destruct (hmac_bytes k (slice buf aux 16 ++ slice buf off len)) as [Hl Hu].
  rewrite ct_equal_spec; [done|done|by apply slice_u8|done|].
  pose proof (slice_length buf (aux + 16) 32). lia.
Qed.
End branches.
Lemma slice_take buf off a n : 0 <= a <= n -> take (Z.to_nat a) (slice buf off n) = slice buf off a.
Proof. intros. unfold slice. rewrite take_take. f_equal. lia. Qed.

Lemma slice_drop buf off a n : 0 <= off -> 0 <= a <= n -> drop (Z.to_nat a) (slice buf off n) = slice buf (off + a) (n - a).
Proof.
  intros. unfold slice. rewrite Z2Nat.inj_add, <- drop_drop by lia. rewrite (take_drop_commute _ (Z.to_nat (n - a))).
  do 2 f_equal. lia.
Qed.

Lemma mode_cases mode : 0 <= mode <= 4 ->
  mode = IMAGE_CHECK_CRC \/ mode = IMAGE_CHECK_SHA \/ mode = IMAGE_CHECK_GCM \/ mode = IMAGE_CHECK_CBC \/ mode = IMAGE_CHECK_CBC_SHA.
Proof. unfold IMAGE_CHECK_CRC, IMAGE_CHECK_SHA, IMAGE_CHECK_GCM, IMAGE_CHECK_CBC, IMAGE_CHECK_CBC_SHA. lia. Qed.

(** Each branch on the parts of a view. *)
Lemma branches_verdict buf rf sz cfg c v :
  Forall is_u8 buf -> Z.of_nat (length buf) < 2 ^ 32 -> reads buf rf -> cfg_ok cfg -> cache_ok c ->
  16 <= sz -> (16 | sz) ->
  0 <= v_mode v <= 4 -> v_aux_len v = (image_aux_len (v_mode v) true).2 ->
  0 <= v_payload v -> 0 <= v_payload_len v -> v_payload v + v_payload_len v <= Z.of_nat (length buf) ->
  0 <= v_aux v -> v_aux v + v_aux_len v <= Z.of_nat (length buf) ->
  (if v_mode v =? IMAGE_CHECK_CRC then verify_crc rf sz (v_payload v) (v_payload_len v) (v_crc_stored v) c
   else if v_mode v =? IMAGE_CHECK_CBC then ERR_OK
   else if negb crypto then ERR_NOT_SUPPORTED
   else if v_mode v =? IMAGE_CHECK_SHA then verify_sha rf sz (v_payload v) (v_payload_len v) (v_aux v)
   else if v_mode v =? IMAGE_CHECK_GCM then verify_gcm rf sz (v_payload v) (v_payload_len v) (v_aux v) cfg
   else if v_mode v =? IMAGE_CHECK_CBC_SHA then verify_cbc_sha rf sz (v_payload v) (v_payload_len v) (v_aux v) cfg
   else ERR_NOT_SUPPORTED) = verdict cfg (parts_of buf v).
Proof.
  intros Hbuf Hsm Hrf Hcfg Hc Hsz Hdiv Hm Ea Hp Hpl Hpb Ha Hab. unfold verdict, parts_of. cbn [p_mode p_payload p_aux p_crc].
  destruct (mode_cases _ Hm) as [E|[E|[E|[E|E]]]]; rewrite E in *; cbn in Ea; rewrite Ea in *; cbn [Z.eqb].
  - apply verify_crc_spec; try done; lia.
  - cbv [IMAGE_CHECK_SHA IMAGE_CHECK_CRC IMAGE_CHECK_CBC Z.eqb Pos.eqb]. destruct crypto; [|done]. cbn [negb].
    apply verify_sha_spec; try done; lia.
  - cbv [IMAGE_CHECK_SHA IMAGE_CHECK_GCM IMAGE_CHECK_CRC IMAGE_CHECK_CBC Z.eqb Pos.eqb]. destruct crypto; [|done]. cbn [negb].
    destruct (key cfg) as [k|] eqn:Ek; [|unfold verify_gcm; by rewrite Ek].
    rewrite (verify_gcm_spec buf rf sz (v_payload v) (v_payload_len v) Hbuf Hsm Hrf ltac:(lia) cfg (v_aux v) k) by (done || lia).
    rewrite <- (slice_take buf (v_aux v) 12 28) by lia.
    change (slice buf (v_aux v + 12) 16) with (slice buf (v_aux v + 12) (28 - 12)). by rewrite <- (slice_drop buf (v_aux v) 12 28) by lia.
  - done.
  - cbv [IMAGE_CHECK_SHA IMAGE_CHECK_GCM IMAGE_CHECK_CRC IMAGE_CHECK_CBC IMAGE_CHECK_CBC_SHA Z.eqb Pos.eqb].
    destruct crypto; [|done]. cbn [negb].
    destruct (mac_key_of cfg).1 as [k|] eqn:Ek.
    + rewrite (verify_cbc_sha_spec buf rf sz (v_payload v) (v_payload_len v) Hbuf Hsm Hrf ltac:(lia) cfg (v_aux v) k) by (done || lia).
      rewrite <- (slice_take buf (v_aux v) 16 48) by lia.
      change (slice buf (v_aux v + 16) 32) with (slice buf (v_aux v + 16) (48 - 16)). by rewrite <- (slice_drop buf (v_aux v) 16 48) by lia.
    + unfold verify_cbc_sha. by destruct (mac_key_of cfg) as [[mk|] n].
Qed.

(** Streamed verification, on the whole image. *)
Lemma verify_stream_whole buf rf sz cfg c :
  Forall is_u8 buf -> Z.of_nat (length buf) < 2 ^ 32 -> reads buf rf -> cfg_ok cfg -> cache_ok c ->
  16 <= sz -> (16 | sz) ->
  image_verify_stream crypto (Some rf) (Z.of_nat (length buf)) (Some cfg) true sz c =
    match image_parse (Some buf) true with
    | (_, Some v) => (verdict cfg (parts_of buf v), Some (v_crc_stored v))
    | (rc, None) => (rc, None)
    end.
Proof.
  intros Hbuf Hsm Hrf Hcfg Hc Hsz Hdiv. set (len := Z.of_nat (length buf)) in *.
  unfold image_verify_stream, image_parse, IMAGE_CRC_LEN, IMAGE_META_LEN. fold len. cbn [negb orb].
  rewrite (proj2 (Z.ltb_ge sz 16)) by lia. cbn [orb].
  destruct (Z.ltb_spec len (4 + 4)) as [|Hlen]; [done|]. rewrite Hrf by lia. change (ERR_OK =? ERR_OK) with true. cbn [negb].
  pose proof (tail_meta buf Hbuf ltac:(lia)) as Htm. cbv zeta in Htm. fold len in Htm.
  destruct Htm as [->|(d & n & -> & En & Eo & Hm & Hv & Ht & Hn & Emeta)]; [done|]. rewrite Eo, En. change (ERR_OK =? ERR_OK) with true. cbn [negb].
  destruct (Z.ltb_spec len (8 + m_version_len d + m_tag_len d + n)) as [|Hov]; [done|].
  set (pl := len - (8 + m_version_len d + m_tag_len d + n)).
  destruct (m_is_front d) eqn:Ef.
  - rewrite Hrf by lia. change (ERR_OK =? ERR_OK) with true. cbn [negb]. rewrite !u32_small by lia. f_equal.
    set (v := mk_view _ _ _ _ _ _ _ _ _ _ _). apply (branches_verdict buf rf sz cfg c v); cbn -[image_aux_len]; (done || lia || by rewrite En).
  - rewrite !u32_small by lia. rewrite Hrf by lia. change (ERR_OK =? ERR_OK) with true. cbn [negb].
    replace (len - 4 - 4) with (pl + n + m_version_len d + m_tag_len d) by lia. f_equal.
    replace (pl + n + m_version_len d + m_tag_len d - m_version_len d - m_tag_len d - n) with pl by lia.
    set (v := mk_view _ _ _ _ _ _ _ _ _ _ _). apply (branches_verdict buf rf sz cfg c v); cbn -[image_aux_len]; (done || lia || by rewrite En).
Qed.

(** C30: an image verified in pieces gets the verdict of the whole image.  Whatever the buffer, a
    multiple of 16 bytes, in which the callback reads the image, streamed verification fails
    exactly when the parser does, with its error, and else returns what the image's mode
    checks over all of its payload: the CRC, the digest, the GCM tag or the MAC. *)
Theorem image_verify_stream_whole buf rf sz cfg c :
  Forall is_u8 buf -> Z.of_nat (length buf) < 2 ^ 32 -> reads buf rf -> cfg_ok cfg -> cache_ok c ->
  16 <= sz -> (16 | sz) ->
  image_verify_stream crypto (Some rf) (Z.of_nat (length buf)) (Some cfg) true sz c =
    match image_parse (Some buf) true with
    | (_, Some v) => (verdict cfg (parts_of buf v), Some (v_crc_stored v))
    | (rc, None) => (rc, None)
    end.
Proof. apply verify_stream_whole. Qed.
(** ** Decryption *)

Definition pkcs7_pad (d : list Z) : list Z :=
  let n := (16 - length d mod 16)%nat in d ++ replicate n (Z.of_nat n).

Lemma pkcs7_pad_length d : ∃ n, (1 <= n <= 16)%nat /\ pkcs7_pad d = d ++ replicate n (Z.of_nat n) /\
  (length (pkcs7_pad d) mod 16 = 0)%nat /\ length (pkcs7_pad d) = (length d + n)%nat.
Proof.
  pose proof (Nat.mod_upper_bound (length d) 16 ltac:(lia)). exists (16 - length d mod 16)%nat. split; [lia|]. split; [done|].
  unfold pkcs7_pad. rewrite length_app, length_replicate. split; [|done].
  pose proof (Nat.div_mod_eq (length d) 16) as E. set (q := (length d / 16)%nat) in *. set (r := (length d mod 16)%nat) in *.
  replace (length d + (16 - r))%nat with ((q + 1) * 16)%nat by lia. apply Nat.Div0.mod_mul.
Qed.

Lemma pkcs7_round_trip d : pkcs7_unpad (pkcs7_pad d) = (ERR_OK, Some (Z.of_nat (length d))).
Proof.
  destruct (pkcs7_pad_length d) as (n & Hn & E & Hmod & Hl). unfold pkcs7_unpad, IMAGE_CBC_BLOCK_LEN. rewrite Hl.
  rewrite (proj2 (Z.eqb_neq _ 0)) by lia.
  assert (Z.of_nat (length d + n) mod 16 = 0) as ->.
  { rewrite <- Hl. change 16 with (Z.of_nat 16). rewrite <- Nat2Z.inj_mod, Hmod. done. }
  cbn [orb negb Z.eqb].
  assert (∀ i, 0 <= i < Z.of_nat n -> byte_at (pkcs7_pad d) (Z.of_nat (length d + n) - 1 - i) = Z.of_nat n) as Hb.
  { intros i Hi. unfold byte_at. rewrite E, app_nth2 by lia. apply nth_lookup_Some, lookup_replicate_2. lia. }
  assert (byte_at (pkcs7_pad d) (Z.of_nat (length d + n) - 1) = Z.of_nat n) as Hlast.
  { rewrite <- (Hb 0) by lia. f_equal. lia. }
  rewrite !Hlast, (proj2 (Z.eqb_neq _ 0)), !Z.gtb_ltb, !(proj2 (Z.ltb_ge _ _)) by lia. cbn [orb].
  rewrite (proj2 (forallb_forall _ _)).
  - cbn [negb]. do 2 f_equal. lia.
  - intros i Hi%list_elem_of_In%elem_of_seqZ. apply Z.eqb_eq, Hb. lia.
Qed.

Lemma gcm_decrypt_spec buf v k klen cap :
  Forall is_u8 buf -> klen = Z.of_nat (length k) -> length k ∈ [16; 24; 32]%nat -> v_payload_len v <= cap ->
  v_aux_len v = 28 -> 0 <= v_aux v -> v_aux v + 28 <= Z.of_nat (length buf) ->
  let nonce := slice buf (v_aux v) 12 in
  let cipher := slice buf (v_payload v) (v_payload_len v) in
  gcm_decrypt true buf v (Some k) klen cap =
    if bool_decide (gcm_tag k nonce cipher = slice buf (v_aux v + 12) 16)
    then (ERR_OK, (gcm_dec k nonce cipher, Some (v_payload_len v))) else (ERR_AUTH_FAILED, (gcm_dec k nonce cipher, None)).
Proof.
  intros Hbuf -> Hk Hcap Ea Ha Hal nonce cipher. unfold gcm_decrypt, IMAGE_GCM_NONCE_LEN, IMAGE_GCM_TAG_LEN. cbn [negb].
  rewrite Ea. change (28 <? 12 + 16) with false. rewrite (proj2 (Z.ltb_ge _ _)) by lia. cbv iota.
  fold nonce cipher. unfold aes_gcm_decrypt_stream_begin, gcm_stream_begin.
  destruct (gcm_key_law k Hk) as (c0 & -> & Hst). change (0 =? 0) with true. cbn [negb].
  destruct (Hst true nonce) as (c1 & -> & Hc1); [pose proof (slice_length buf (v_aux v) 12); unfold nonce; lia|].
  change (0 =? 0) with true. cbn [negb]. unfold aes_gcm_stream_feed.
  destruct (gcm_update_law c1 true k nonce [] cipher Hc1 ltac:(done)) as (c2 & o & -> & Hc2 & Ho).
  rewrite (gcm_nil true), !app_nil_l in Ho. rewrite app_nil_l in Hc2. change (0 =? 0) with true. cbn [negb].
  unfold aes_gcm_decrypt_stream_finish. change ((16 =? 0) || (16 >? AES_GCM_MAX_TAG_LEN)) with false.
  rewrite (gcm_finish_law _ _ _ _ _ Hc2). change (0 =? 0) with true. cbn [negb].
  destruct (gcm_tag_bytes k nonce cipher) as [Hl Hu]. subst o.
  fold (ct_equal (gcm_tag k nonce cipher) (slice buf (v_aux v + 12) 16) 16).
  rewrite ct_equal_spec; [|done|by apply slice_u8|done|pose proof (slice_length buf (v_aux v + 12) 16); lia].
  case_bool_decide; [done|]. destruct err_nonzero as (_ & _ & _ & Hne & _). by rewrite (proj2 (Z.eqb_neq _ _)).
Qed.

Lemma cbc_open_spec iv cipher k klen :
  klen = Z.of_nat (length k) -> length k ∈ [16; 24; 32]%nat -> (16 <= length iv)%nat ->
  cipher ≠ [] -> (length cipher mod 16 = 0)%nat ->
  cbc_open iv cipher (Some k) klen =
    let out := cbc_dec k (take 16 iv) cipher in
    let '(rc, n) := pkcs7_unpad out in
    if negb (rc =? ERR_OK) then (rc, (out, None)) else (ERR_OK, (out, n)).
Proof.
  intros -> Hk Hiv Hne Hmod. unfold cbc_open, aes_cbc_decrypt_stream_begin, cbc_stream_begin.
  destruct (cbc_key_law k Hk) as (ce & cd & _ & -> & Hcr). change (0 =? 0) with true. cbn [negb].
  unfold aes_cbc_decrypt_stream_feed, cbc_stream_feed. cbn [cbc_aes cbc_iv].
  assert ((Z.of_nat (length cipher) =? 0) = false) as -> by (apply Z.eqb_neq; destruct cipher; [done|cbn [length]; lia]).
  assert (Z.of_nat (length cipher) mod 16 = 0) as ->.
  { change 16 with (Z.of_nat 16). by rewrite <- Nat2Z.inj_mod, Hmod. }
  destruct (Hcr (take 16 iv) cipher) as [_ [iv' ->]]; [rewrite length_take; lia|done|]. done.
Qed.

Lemma mac_iv_cipher_spec k iv cipher :
  mac_iv_cipher (Some k) (Z.of_nat (length k)) iv cipher = Some (hmac k (iv ++ cipher)).
Proof.
  unfold mac_iv_cipher, hmac_sha256_stream_begin. destruct md_law as (-> & c0 & -> & Hst). cbn [negb].
  change (0 =? 0) with true. cbn [negb]. destruct (Hst k) as (c1 & -> & Hc1). change (0 =? 0) with true. cbn [negb].
  unfold hmac_sha256_stream_feed. destruct (hmac_update_law c1 k [] iv Hc1) as (c2 & -> & Hc2).
  change (0 =? 0) with true. cbn [negb]. destruct (hmac_update_law c2 k _ cipher Hc2) as (c3 & -> & Hc3).
  change (0 =? 0) with true. cbn [negb hmac_sha256_stream_end]. by rewrite (hmac_finish_law _ _ _ Hc3).
Qed.
Lemma check_sha_spec buf v :
  Forall is_u8 buf -> v_aux_len v = 32 -> 0 <= v_aux v -> v_aux v + 32 <= Z.of_nat (length buf) ->
  check_sha true buf v =
    if bool_decide (sha256 (slice buf (v_payload v) (v_payload_len v)) = slice buf (v_aux v) 32) then ERR_OK else ERR_HASH_MISMATCH.
Proof.
  intros Hbuf Ea Ha Hal. unfold check_sha. rewrite Ea. change (32 <? IMAGE_HASH_LEN) with false. cbn [negb].
  unfold sha256_begin. cbn [negb]. destruct sha_starts_law as (c0 & -> & Hc0). change (0 =? 0) with true. cbn [negb].
  unfold sha256_feed. set (d := slice buf (v_payload v) _). destruct (sha_update_law c0 [] d Hc0) as (c1 & -> & Hc1).
  change (0 =? 0) with true. cbn [negb sha256_end]. rewrite (sha_finish_law _ _ Hc1). change (0 =? 0) with true. cbn [negb].
  change (default [] (Some ?x)) with x. rewrite app_nil_l. destruct (sha256_bytes d) as [Hl Hu].
  rewrite ct_equal_spec; [done|done|by apply slice_u8|done|]. pose proof (slice_length buf (v_aux v) 32). unfold IMAGE_HASH_LEN. lia.
Qed.

Lemma cbc_sha_decrypt_spec buf v k klen mk mk_len cap :
  Forall is_u8 buf -> klen = Z.of_nat (length k) -> length k ∈ [16; 24; 32]%nat -> mk_len = Z.of_nat (length mk) ->
  v_aux_len v = 48 -> 0 <= v_aux v -> v_aux v + 48 <= Z.of_nat (length buf) ->
  0 <= v_payload v -> 0 <= v_payload_len v -> v_payload v + v_payload_len v <= Z.of_nat (length buf) ->
  let iv := slice buf (v_aux v) 16 in
  let cipher := slice buf (v_payload v) (v_payload_len v) in
  let out := cbc_dec k iv cipher in
  cbc_sha_decrypt true buf v (Some k) klen (Some mk) mk_len cap =
    if (v_payload_len v =? 0) || negb (v_payload_len v mod 16 =? 0) then (ERR_ARG, no_plain) else
    if cap <? v_payload_len v then (ERR_BUF_TOO_SMALL, no_plain) else
    if bool_decide (hmac mk (iv ++ cipher) = slice buf (v_aux v + 16) 32) then
      let '(rc, n) := pkcs7_unpad out in
      if negb (rc =? ERR_OK) then (rc, (out, None)) else (ERR_OK, (out, n))
    else (ERR_AUTH_FAILED, no_plain).
Proof.
  intros Hbuf Hkl Hk -> Ea Ha Hal Hp Hpl Hpb iv cipher out.
  unfold cbc_sha_decrypt, IMAGE_CBC_IV_LEN, IMAGE_HASH_LEN, IMAGE_CBC_BLOCK_LEN. rewrite Ea. change (48 <? 16 + 32) with false. cbn [negb].
  destruct (Z.eqb_spec (v_payload_len v) 0) as [|Hne]; [done|]. destruct (Z.eqb_spec (v_payload_len v mod 16) 0) as [Hmod|]; [|done].
  cbn [orb negb]. destruct (cap <? v_payload_len v); [done|]. fold iv cipher. rewrite mac_iv_cipher_spec.
  assert (length cipher = Z.to_nat (v_payload_len v)) as Hc by (unfold cipher; pose proof (slice_length buf (v_payload v) (v_payload_len v)); lia).
  assert (length iv = 16%nat) as Hiv by (unfold iv; pose proof (slice_length buf (v_aux v) 16); lia).
  destruct (hmac_bytes mk (iv ++ cipher)) as [Hl Hu].
  rewrite ct_equal_spec; [|done|by apply slice_u8|done|pose proof (slice_length buf (v_aux v + 16) 32); lia].
  case_bool_decide; [|done]. cbn [negb]. rewrite (cbc_open_spec iv cipher k) ; [|done|done|lia| |].
  - rewrite take_ge by lia. done.
  - intros E. rewrite E in Hc. cbn in Hc. lia.
  - rewrite Hc. apply Nat2Z.inj. rewrite Nat2Z.inj_mod, Z2Nat.id by lia. done.
Qed.

(** What a view says of its buffer. *)
Lemma image_parse_bounds buf v :
  Forall is_u8 buf -> image_parse (Some buf) true = (ERR_OK, Some v) ->
  0 <= v_mode v <= 4 /\ v_aux_len v = (image_aux_len (v_mode v) true).2 /\
  0 <= v_payload v /\ 0 <= v_payload_len v /\ v_payload v + v_payload_len v <= Z.of_nat (length buf) /\
  0 <= v_aux v /\ v_aux v + v_aux_len v <= Z.of_nat (length buf).
Proof.
  intros Hu. unfold image_parse, IMAGE_CRC_LEN, IMAGE_META_LEN. cbn [negb orb].
  destruct (Z.ltb_spec (Z.of_nat (length buf)) (4 + 4)) as [|Hlen]; [done|]. set (len := Z.of_nat (length buf)) in *.
  pose proof (tail_meta buf Hu ltac:(lia)) as Htm. cbv zeta in Htm. fold len in Htm.
  destruct Htm as [->|(d & n & -> & En & Eo & Hm & Hv & Ht & Hn & Emeta)]; [done|]. rewrite Eo, En. change (ERR_OK =? ERR_OK) with true. cbn [negb].
  destruct (Z.ltb_spec len (8 + m_version_len d + m_tag_len d + n)) as [|Hov]; [done|].
  destruct (m_is_front d); intros [= <-]; cbn -[image_aux_len]; rewrite En; split_and!; (done || lia).
Qed.

Definition plaintext (cfg : image_read_cfg) (p : parts) : list Z :=
  let k := default [] (key cfg) in
  if p_mode p =? IMAGE_CHECK_GCM then gcm_dec k (take 12 (p_aux p)) (p_payload p)
  else if (p_mode p =? IMAGE_CHECK_CBC) || (p_mode p =? IMAGE_CHECK_CBC_SHA) then cbc_dec k (take 16 (p_aux p)) (p_payload p)
  else p_payload p.

Lemma calc_crc_spec buf v c : Forall is_u8 buf -> cache_ok c ->
  calc_crc buf v c = image_crc (slice buf (v_payload v) (v_payload_len v)).
Proof.
  intros Hbuf Hc. unfold calc_crc. apply crc_took_finish. rewrite <- (app_nil_l (slice _ _ _)).
  apply crc_feed_took; [by apply crc_begin_took|by apply slice_u8].
Qed.

Lemma image_parse_rc buf rc ov : image_parse (Some buf) true = (rc, ov) -> (rc = ERR_OK <-> ov ≠ None).
Proof.
  unfold image_parse. cbn [negb orb]. destruct (_ <? _); [by intros [= <- <-]|].
  unfold meta_decode. destruct (_ || _); [by intros [= <- <-]|].
  destruct (image_overhead _ _ _ _) as [r1 n1]. destruct (Z.eqb_spec r1 ERR_OK); cbn [negb]; [|by intros [= <- <-]].
  destruct (_ <? _); [by intros [= <- <-]|].
  destruct (image_aux_len _ _) as [r2 n2]. destruct (Z.eqb_spec r2 ERR_OK); cbn [negb]; [|by intros [= <- <-]].
  destruct (m_is_front _); by intros [= <- <-].
Qed.

Lemma copy_plain_ok buf v cap p : copy_plain buf v true cap = (ERR_OK, p) -> p.1 = slice buf (v_payload v) (v_payload_len v).
Proof. unfold copy_plain. cbn [negb]. destruct (_ <? _); [done|]. by intros [= <-]. Qed.

Lemma check_args_key cfg out : check_crypto_args cfg out = ERR_OK -> ∃ k, key cfg = Some k.
Proof. unfold check_crypto_args. destruct (key cfg) as [k|]; [by exists k|done]. Qed.

(** Decides the tests between modes. *)
Ltac is_mode m := match m with IMAGE_CHECK_CRC => idtac | IMAGE_CHECK_SHA => idtac | IMAGE_CHECK_GCM => idtac
  | IMAGE_CHECK_CBC => idtac | IMAGE_CHECK_CBC_SHA => idtac end.
Ltac mode_tests :=
  repeat match goal with
  | |- context [?a =? ?b] => is_mode a; is_mode b; let r := eval vm_compute in (a =? b) in change (a =? b) with r
  end; cbn [orb]; cbv iota.

Section views.
Context (buf : list Z) (cfg : image_read_cfg) (out : bool) (cap : Z) (c : crc_cache) (v : image_view).
Hypothesis Hbuf : Forall is_u8 buf.
Hypothesis Hcfg : cfg_ok cfg.
Hypothesis Hc : cache_ok c.
Hypothesis Hparse : image_parse (Some buf) true = (ERR_OK, Some v).

(** The aux bytes of a GCM and of a CBC_SHA image. *)
Lemma aux_split n m : 0 <= n -> 0 <= m -> v_aux_len v = n + m ->
  take (Z.to_nat n) (slice buf (v_aux v) (v_aux_len v)) = slice buf (v_aux v) n /\
  drop (Z.to_nat n) (slice buf (v_aux v) (v_aux_len v)) = slice buf (v_aux v + n) m.
Proof using Hbuf Hparse.
  intros Hn Hm E. destruct (image_parse_bounds buf v Hbuf Hparse) as (_ & _ & _ & _ & _ & Ha & _).
  rewrite slice_take, slice_drop by lia. split; [done|]. f_equal. lia.
Qed.

Lemma read_view_authentic rc o :
  read_view crypto buf cfg out cap c v = (rc, o) ->
  (rc = ERR_OK -> verdict cfg (parts_of buf v) = ERR_OK /\ (out = true -> (o_plain o).1 = plaintext cfg (parts_of buf v))) /\
  (v_mode v = IMAGE_CHECK_CBC_SHA -> verdict cfg (parts_of buf v) ≠ ERR_OK -> o_plain o = no_plain).
Proof using Hbuf Hcfg Hc Hparse.
  destruct (image_parse_bounds buf v Hbuf Hparse) as (Hm & Ea & Hp & Hpl & Hpb & Ha & Hab).
  unfold read_view, verdict, plaintext, parts_of. cbn [p_mode p_payload p_aux p_crc].
  destruct (mode_cases _ Hm) as [E|[E|[E|[E|E]]]]; rewrite E in *; cbn in Ea; mode_tests.
  - rewrite calc_crc_spec by done. destruct (Z.eqb_spec (image_crc (slice buf (v_payload v) (v_payload_len v))) (v_crc_stored v)) as [Ec|]; cbn [negb].
    + rewrite bool_decide_true by done. destruct (copy_plain _ _ _ _) as [r p] eqn:Ecp. intros [= <- <-].
      split; [|done]. intros ->. split; [done|]. intros ->. by apply copy_plain_ok in Ecp.
    + intros [= <- <-]. split; [done|]. done.
  - destruct crypto.
    + rewrite check_sha_spec by (done || lia). rewrite Ea. case_bool_decide; cbn [negb Z.eqb].
      * change (ERR_OK =? ERR_OK) with true. cbn [negb]. destruct (copy_plain _ _ _ _) as [r p] eqn:Ecp. intros [= <- <-].
        split; [|done]. intros ->. split; [done|]. intros ->. by apply copy_plain_ok in Ecp.
      * intros [= <- <-]. split; [done|]. done.
    + intros [= <- <-]. split; [done|]. done.
  - destruct (check_crypto_args cfg out =? ERR_OK) eqn:Eca; cbn [negb]; [|intros [= <- <-]; split; [by intros E1; rewrite E1 in Eca|done]].
    apply Z.eqb_eq in Eca. destruct (check_args_key _ _ Eca) as [k Ek]. destruct (proj1 Hcfg k Ek) as [Ekl Hkl].
    rewrite Ek. destruct crypto; [|by intros [= <- <-]]. destruct (aux_split 12 16 ltac:(lia) ltac:(lia) Ea) as [Et Ed].
    destruct (Z.ltb_spec cap (v_payload_len v)) as [Hcap|Hcap].
    { unfold gcm_decrypt. cbn [negb]. rewrite Ea. change (12 + 16 <? IMAGE_GCM_NONCE_LEN + IMAGE_GCM_TAG_LEN) with false.
      rewrite (proj2 (Z.ltb_lt cap _) Hcap). by intros [= <- <-]. }
    rewrite (gcm_decrypt_spec buf v k) by (done || lia). change (Z.to_nat 12) with 12%nat in *. rewrite Et, Ed.
    cbn [negb]. case_bool_decide; intros [= <- <-]; (split; [|done]); [|done]. by split.
  - intros Hr. split; [|done]. intros ->. split; [done|]. intros ->. revert Hr.
    destruct (check_crypto_args cfg true =? ERR_OK) eqn:Eca; cbn [negb]; [|intros [= E1 <-]; by rewrite E1 in Eca].
    apply Z.eqb_eq in Eca. destruct (check_args_key _ _ Eca) as [k Ek]. destruct (proj1 Hcfg k Ek) as [Ekl Hkl].
    rewrite Ek. unfold cbc_decrypt_dispatch. destruct crypto; [|done]. unfold cbc_decrypt, IMAGE_CBC_BLOCK_LEN, IMAGE_CBC_IV_LEN. rewrite Ea.
    change (16 <? 16) with false. destruct (Z.eqb_spec (v_payload_len v) 0) as [|Hne]; [done|].
    destruct (Z.eqb_spec (v_payload_len v mod 16) 0) as [Hmod|]; [|done]. cbn [orb negb]. destruct (_ <? _); [done|].
    rewrite (cbc_open_spec _ _ k); [|done|done| | |].
    + cbv zeta. destruct (pkcs7_unpad _) as [r n]. destruct (r =? ERR_OK) eqn:Er; cbn [negb]; [by intros [= <-]|intros [= E1 <-]; by rewrite E1 in Er].
    + pose proof (slice_length buf (v_aux v) 16). lia.
    + intros E0. pose proof (slice_length buf (v_payload v) (v_payload_len v)) as Hl. rewrite E0 in Hl. cbn in Hl. lia.
    + apply Nat2Z.inj. rewrite Nat2Z.inj_mod, slice_length by lia. done.
  - destruct (check_crypto_args cfg out =? ERR_OK) eqn:Eca; cbn [negb]; [|intros [= <- <-]; split; [by intros E1; rewrite E1 in Eca|done]].
    apply Z.eqb_eq in Eca. destruct (check_args_key _ _ Eca) as [k Ek]. destruct (proj1 Hcfg k Ek) as [Ekl Hkl].
    destruct crypto; [|by destruct (mac_key_of cfg); intros [= <- <-]]. destruct (aux_split 16 32 ltac:(lia) ltac:(lia) Ea) as [Et Ed].
    assert (∃ mk n, mac_key_of cfg = (Some mk, n) /\ n = Z.of_nat (length mk)) as (mk & n & Emk & ->).
    { destruct (mac_key_of cfg) as [[mk|] n] eqn:Em; [|unfold mac_key_of in Em; destruct (mac_key cfg); congruence].
      exists mk, n. split; [done|]. by apply (mac_key_of_ok cfg). }
    rewrite Ek, Emk. cbn [fst]. rewrite (cbc_sha_decrypt_spec buf v k) by (done || lia).
    change (Z.to_nat 16) with 16%nat in *. rewrite Et, Ed. cbn [negb].
    destruct (_ || _); [by intros [= <- <-]|]. destruct (_ <? _); [by intros [= <- <-]|].
    case_bool_decide; [|by intros [= <- <-]].
    destruct (pkcs7_unpad _) as [r n]. destruct (r =? ERR_OK) eqn:Er; cbn [negb]; intros [= <- <-]; (split; [|done]).
    + by split.
    + intros ->. done.
Qed.
End views.
(** decryption hands out only what authenticated.  When [image_read_payload] succeeds, the image
    parses, it passes the check of its mode over its whole payload, and the output is its
    plaintext; and when the MAC of a CBC_SHA image is wrong, nothing at all has been written to
    the output. *)
Theorem image_read_payload_authentic buf cfg out cap c rc o :
  Forall is_u8 buf -> cfg_ok cfg -> cache_ok c ->
  image_read_payload crypto (Some buf) (Some cfg) out cap c = (rc, o) ->
  (rc = ERR_OK -> ∃ v, image_parse (Some buf) true = (ERR_OK, Some v) /\ verdict cfg (parts_of buf v) = ERR_OK /\
     (out = true -> (o_plain o).1 = plaintext cfg (parts_of buf v))) /\
  (∀ v, image_parse (Some buf) true = (ERR_OK, Some v) -> v_mode v = IMAGE_CHECK_CBC_SHA ->
     verdict cfg (parts_of buf v) ≠ ERR_OK -> o_plain o = no_plain).
Proof.
  intros Hbuf Hcfg Hc. unfold image_read_payload. destruct (image_parse (Some buf) true) as [rc0 ov] eqn:Ep.
  pose proof (image_parse_rc _ _ _ Ep) as Hrc. destruct ov as [v|].
  - assert (rc0 = ERR_OK) as -> by (by apply Hrc). intros Hr.
    destruct (read_view_authentic buf cfg out cap c v Hbuf Hcfg Hc Ep rc o Hr) as [H1 H2].
    split; [intros Ek; exists v; split; [done|by apply H1]|]. by intros v' [= <-].
  - intros [= <- <-]. split; [|done]. by intros Ek%Hrc.
Qed.

(** Images as the packer seals them. *)
Definition seal_gcm (k nonce m version tag : list Z) (front : bool) (crc : Z) : parts :=
  let cipher := gcm_enc k nonce m in
  mk_parts IMAGE_CHECK_GCM front version tag (nonce ++ gcm_tag k nonce cipher) cipher crc.
Definition seal_cbc_sha (k mk iv m version tag : list Z) (front : bool) (crc : Z) : parts :=
  let cipher := cbc_enc k iv (pkcs7_pad m) in
  mk_parts IMAGE_CHECK_CBC_SHA front version tag (iv ++ hmac mk (iv ++ cipher)) cipher crc.

(** A sealed image, read back: the parts are found and the checks pass. *)
Lemma seal_parsed p : parts_wf p -> Forall is_u8 (build_image p) -> ∃ v,
  image_parse (Some (build_image p)) true = (ERR_OK, Some v) /\ parts_of (build_image p) v = p /\
  v_mode v = p_mode p /\ v_payload_len v = Z.of_nat (length (p_payload p)) /\ v_aux_len v = Z.of_nat (length (p_aux p)).
Proof.
  intros Hp Hu. destruct (image_parse_build p Hp) as (v & Ev & Hv). exists v. split; [done|]. split; [done|].
  destruct (image_parse_bounds _ _ Hu Ev) as (_ & Ea & ? & ? & ? & ? & ?).
  pose proof (f_equal p_mode Hv) as Em. pose proof (f_equal p_payload Hv) as Epl. pose proof (f_equal p_aux Hv) as Eax.
  cbn -[slice] in Em, Epl, Eax. split; [done|]. destruct Hp as (Hm & _ & _ & Hal & _).
  assert (0 <= v_aux_len v) by (rewrite Ea, Em, <- Hal; lia). rewrite <- Epl, <- Eax. by rewrite !slice_length by lia.
Qed.

Section sealed.
Context (k mk iv m version tag : list Z) (front : bool) (crc cap : Z) (c : crc_cache).
Hypothesis Hk : length k ∈ [16; 24; 32]%nat.
Hypothesis Hc : cache_ok c.
Hypothesis Hlen : (length version <= 255)%nat /\ (length tag <= 255)%nat /\ is_u32 crc.

Lemma check_args_ok mac n : check_crypto_args (mk_cfg (Some k) (Z.of_nat (length k)) mac n) true = ERR_OK.
Proof using Hk.
  unfold check_crypto_args. cbn [key key_len].
  revert Hk. rewrite !elem_of_cons. by intros [->|[->|[->|?%not_elem_of_nil]]].
Qed.

Lemma seal_gcm_opens :
  let p := seal_gcm k iv m version tag front crc in
  length iv = 12%nat -> Forall is_u8 (build_image p) -> Z.of_nat (length m) <= cap ->
  (read_view true (build_image p) (mk_cfg (Some k) (Z.of_nat (length k)) None 0) true cap c <$>
     (image_parse (Some (build_image p)) true).2) =
  Some (ERR_OK, mk_out (image_parse (Some (build_image p)) true).2 (m, Some (Z.of_nat (length m))) None).
Proof using Hk Hc Hlen.
  intros p Hiv Hu Hcap. destruct (gcm_tag_bytes k iv (gcm_enc k iv m)) as [Htl _].
  assert (parts_wf p) as Hp.
  { unfold parts_wf, p, seal_gcm. cbn -[app]. rewrite length_app, Htl, Hiv. split_and!; (done || lia || apply Hlen). }
  destruct (seal_parsed p Hp Hu) as (v & Ev & Hv & Em & Epl & Eal). rewrite Ev. cbn [snd fmap option_fmap option_map]. f_equal.
  destruct (image_parse_bounds _ _ Hu Ev) as (_ & _ & ? & ? & ? & ? & ?).
  unfold p, seal_gcm in Em, Epl, Eal. cbn [p_mode p_payload p_aux] in Em, Epl, Eal.
  rewrite gcm_enc_length in Epl. rewrite length_app, Htl, Hiv in Eal. change (Z.of_nat (12 + 16)) with (12 + 16) in Eal.
  unfold read_view. rewrite Em, check_args_ok. mode_tests. cbn [key key_len]. change (ERR_OK =? ERR_OK) with true. cbn [negb].
  rewrite (gcm_decrypt_spec (build_image p) v k) by (done || lia).
  destruct (aux_split (build_image p) v Hu Ev 12 16 ltac:(lia) ltac:(lia) Eal) as [Et Ed].
  pose proof (f_equal p_payload Hv) as Hpl. pose proof (f_equal p_aux Hv) as Hax.
  cbn -[slice app] in Hpl, Hax. rewrite Hax in Et, Ed. change (Z.to_nat 12) with 12%nat in *.
  rewrite take_app_length' in Et by done. rewrite drop_app_length' in Ed by done.
  rewrite <- Et, <- Ed, Hpl. rewrite bool_decide_true by done. by rewrite gcm_dec_enc, Epl.
Qed.

Lemma seal_cbc_sha_opens :
  let p := seal_cbc_sha k mk iv m version tag front crc in
  length iv = 16%nat -> Forall is_u8 (build_image p) -> Z.of_nat (length m) + 16 <= cap ->
  (read_view true (build_image p) (mk_cfg (Some k) (Z.of_nat (length k)) (Some mk) (Z.of_nat (length mk))) true cap c <$>
     (image_parse (Some (build_image p)) true).2) =
  Some (ERR_OK, mk_out (image_parse (Some (build_image p)) true).2 (pkcs7_pad m, Some (Z.of_nat (length m))) None).
Proof using Hk Hc Hlen.
  intros p Hiv Hu Hcap. set (cipher := cbc_enc k iv (pkcs7_pad m)).
  destruct (hmac_bytes mk (iv ++ cipher)) as [Htl _].
  destruct (pkcs7_pad_length m) as (n & Hn & _ & Hmod & Hpadl). destruct (cbc_length k iv (pkcs7_pad m)) as [Hcl _].
  assert (parts_wf p) as Hp.
  { unfold parts_wf, p, seal_cbc_sha. cbn -[app]. fold cipher. rewrite length_app, Htl, Hiv. split_and!; (done || lia || apply Hlen). }
  destruct (seal_parsed p Hp Hu) as (v & Ev & Hv & Em & Epl & Eal). rewrite Ev. cbn [snd fmap option_fmap option_map]. f_equal.
  destruct (image_parse_bounds _ _ Hu Ev) as (_ & _ & ? & ? & ? & ? & ?).
  unfold p, seal_cbc_sha in Em, Epl, Eal. cbn [p_mode p_payload p_aux] in Em, Epl, Eal. fold cipher in Eal.
  rewrite Hcl in Epl. rewrite length_app, Htl, Hiv in Eal. change (Z.of_nat (16 + 32)) with (16 + 32) in Eal.
  unfold read_view. rewrite Em, check_args_ok. mode_tests. change (ERR_OK =? ERR_OK) with true. cbn [negb mac_key_of mac_key mac_key_len key key_len].
  rewrite (cbc_sha_decrypt_spec (build_image p) v k) by (done || lia).
  rewrite (proj2 (Z.eqb_neq (v_payload_len v) 0)) by lia.
  assert (v_payload_len v mod 16 = 0) as -> by (rewrite Epl; change 16 with (Z.of_nat 16); by rewrite <- Nat2Z.inj_mod, Hmod).
  rewrite (proj2 (Z.ltb_ge cap _)) by lia. cbn [orb negb Z.eqb].
  destruct (aux_split (build_image p) v Hu Ev 16 32 ltac:(lia) ltac:(lia) Eal) as [Et Ed].
  pose proof (f_equal p_payload Hv) as Hpl. pose proof (f_equal p_aux Hv) as Hax.
  cbn -[slice app] in Hpl, Hax. rewrite Hax in Et, Ed. change (Z.to_nat 16) with 16%nat in *.
  rewrite take_app_length' in Et by done. rewrite drop_app_length' in Ed by done.
  rewrite <- Et, <- Ed, Hpl. rewrite bool_decide_true by done. rewrite cbc_dec_enc by done.
  by rewrite pkcs7_round_trip.
Qed.
End sealed.

(** what the packer seals, the bootloader opens.  An image sealed with AES-GCM, or encrypted with
    AES-CBC and authenticated with HMAC, in either layout and with any version and tag strings,
    reads back with success as the firmware it was made from and its length. *)
Theorem sealed_image_opens k mk iv m version tag front crc cap c :
  length k ∈ [16; 24; 32]%nat -> cache_ok c ->
  (length version <= 255)%nat /\ (length tag <= 255)%nat /\ is_u32 crc ->
  (let img := build_image (seal_gcm k iv m version tag front crc) in
   length iv = 12%nat -> Forall is_u8 img -> Z.of_nat (length m) <= cap ->
   ∃ o, image_read_payload true (Some img) (Some (mk_cfg (Some k) (Z.of_nat (length k)) None 0)) true cap c = (ERR_OK, o) /\
     o_plain o = (m, Some (Z.of_nat (length m)))) /\
  (let img := build_image (seal_cbc_sha k mk iv m version tag front crc) in
   length iv = 16%nat -> Forall is_u8 img -> Z.of_nat (length m) + 16 <= cap ->
   ∃ o, image_read_payload true (Some img) (Some (mk_cfg (Some k) (Z.of_nat (length k)) (Some mk) (Z.of_nat (length mk)))) true cap c = (ERR_OK, o) /\
     take (length m) (o_plain o).1 = m /\ (o_plain o).2 = Some (Z.of_nat (length m))).
Proof.
  intros Hk Hc Hl. split.
  - intros img Hiv Hu Hcap. pose proof (seal_gcm_opens k iv m version tag front crc cap c Hk Hc Hl Hiv Hu Hcap) as E. fold img in E.
    unfold image_read_payload. destruct (image_parse (Some img) true) as [rc [v|]]; [|done]. cbn in E. injection E as ->.
    eexists. by split.
  - intros img Hiv Hu Hcap. pose proof (seal_cbc_sha_opens k mk iv m version tag front crc cap c Hk Hc Hl Hiv Hu Hcap) as E. fold img in E.
    unfold image_read_payload. destruct (image_parse (Some img) true) as [rc [v|]]; [|done]. cbn in E. injection E as ->.
    eexists. split; [done|]. cbn. split; [by apply take_app_length|done].
Qed.

(** a plain CBC image is accepted whatever it holds.  Verification of an image whose meta says
    CBC returns success for any payload, any IV and any stored CRC, without a key; and the
    mode is a byte of the image that nothing authenticates. *)
Theorem cbc_accepts_anything p cfg rf sz c :
  parts_wf p -> p_mode p = IMAGE_CHECK_CBC -> Forall is_u8 (build_image p) -> Z.of_nat (length (build_image p)) < 2 ^ 32 ->
  reads (build_image p) rf -> 16 <= sz ->
  ∃ crc, image_verify_stream crypto (Some rf) (Z.of_nat (length (build_image p))) (Some cfg) true sz c = (ERR_OK, Some crc).
Proof.
  intros Hp Em Hu Hsm Hrf Hsz. pose proof (build_length p Hp) as Hlen.
  assert (∃ v, image_parse (Some (build_image p)) true = (ERR_OK, Some v) /\ v_mode v = IMAGE_CHECK_CBC) as (v & Ev & Hm).
  { destruct (seal_parsed p Hp Hu) as (v & Ev & _ & E & _). exists v. by rewrite E, Em. }
  set (buf := build_image p) in *. set (len := Z.of_nat (length buf)) in *. revert Ev.
  unfold image_verify_stream, image_parse, IMAGE_CRC_LEN, IMAGE_META_LEN. fold len. cbn [negb orb].
  rewrite (proj2 (Z.ltb_ge sz 16)), (proj2 (Z.ltb_ge len (4 + 4))) by lia. cbn [orb]. rewrite Hrf by lia.
  change (ERR_OK =? ERR_OK) with true. cbn [negb].
  pose proof (tail_meta buf Hu ltac:(lia)) as Htm. cbv zeta in Htm. fold len in Htm.
  destruct Htm as [->|(d & n & -> & En & Eo & Hmd & Hv & Ht & Hn & Emeta)]; [done|]. rewrite Eo, En.
  change (ERR_OK =? ERR_OK) with true. cbn [negb]. destruct (Z.ltb_spec len (8 + m_version_len d + m_tag_len d + n)) as [|Hov]; [done|].
  intros Ev. assert (m_mode d = IMAGE_CHECK_CBC) as ->.
  { destruct (m_is_front d); injection Ev as <-; exact Hm. }
  assert (∃ off, (if m_is_front d then 0 else u32 (len - 4 - 4)) = off /\ 0 <= off /\ off + 4 <= len) as (off & -> & Hlo & Hhi).
  { eexists. split; [done|]. destruct (m_is_front d); [lia|]. rewrite u32_small by lia. lia. }
  rewrite Hrf by lia. change (ERR_OK =? ERR_OK) with true. cbn [negb]. mode_tests. by eexists.
Qed.
End spec.


(** ** A cipher library *)

(** Complemented bytes and checksums, as one library with the documented behaviour. *)
Definition toy_digest (n : nat) (d : list Z) : list Z := replicate n 0 ++ [u8 (foldr Z.add 0 d)].
Definition toy_cipher (d : list Z) : list Z := (fun x => 255 - x) <$> d.

#[export] Instance toy_mbedtls : Mbedtls := {|
  MBEDTLS_ERR_SHA256_BAD_INPUT_DATA := -116; MBEDTLS_ERR_MD_BAD_INPUT_DATA := -20736; MBEDTLS_ERR_GCM_BAD_INPUT := -20;
  MBEDTLS_ERR_GCM_AUTH_FAILED := -18; MBEDTLS_ERR_AES_INVALID_INPUT_LENGTH := -34;
  sha_ctx := list Z;
  mbedtls_sha256_starts_ret := (0, []);
  mbedtls_sha256_update_ret c x := (0, c ++ x);
  mbedtls_sha256_finish_ret c := (0, toy_digest 31 c);
  md_ctx := list Z * list Z;
  mbedtls_md_info_from_type := true;
  mbedtls_md_setup := (0, ([], []));
  mbedtls_md_hmac_starts c k n := (0, (k, []));
  mbedtls_md_hmac_update c x := (0, (c.1, c.2 ++ x));
  mbedtls_md_hmac_finish c := (0, toy_digest 31 (c.1 ++ c.2));
  gcm_ctx := bool * list Z * list Z * list Z;
  mbedtls_gcm_setkey k bits := (0, (false, k, [], []));
  mbedtls_gcm_starts c dec iv n := (0, (dec, c.1.1.2, iv, []));
  mbedtls_gcm_update c x := (0, (c.1, c.2 ++ x), toy_cipher x);
  mbedtls_gcm_finish c n :=
    (0, toy_digest 15 (c.1.1.2 ++ c.1.2 ++ (if c.1.1.1 then c.2 else toy_cipher c.2)));
  aes_ctx := list Z;
  mbedtls_aes_setkey_enc k bits := (0, k);
  mbedtls_aes_setkey_dec k bits := (0, k);
  mbedtls_aes_crypt_cbc c dec iv d := (0, iv, toy_cipher d)
|}.

Lemma toy_digest_bytes n d : length (toy_digest n d) = S n /\ Forall is_u8 (toy_digest n d).
Proof.
  unfold toy_digest. rewrite length_app, length_replicate. split; [cbn; lia|].
  apply Forall_app; split; [by apply Forall_replicate|]. apply list.Forall_singleton, u8_range.
Qed.

Lemma toy_cipher_twice d : toy_cipher (toy_cipher d) = d.
Proof.
  unfold toy_cipher. rewrite <- list_fmap_compose. induction d as [|x d IH]; [done|].
  rewrite fmap_cons, IH. f_equal. cbn. lia.
Qed.

#[export] Instance toy_laws : MbedtlsLaws.
Proof.
  refine {|
    sha256 := toy_digest 31; sha_took c d := c = d;
    hmac k d := toy_digest 31 (k ++ d); hmac_took c k d := c = (k, d);
    gcm_enc _ _ := toy_cipher; gcm_dec _ _ := toy_cipher; gcm_tag k iv c := toy_digest 15 (k ++ iv ++ c);
    gcm_took c dec k iv d := c = (dec, k, iv, d);
    cbc_enc _ _ := toy_cipher; cbc_dec _ _ := toy_cipher |}.
  - done.
  - intros. apply toy_digest_bytes.
  - by eexists.
  - intros c d x ->. by eexists.
  - by intros c d ->.
  - intros. apply toy_digest_bytes.
  - split; [done|]. eexists. split; [done|]. intros k. by eexists.
  - intros c k d x ->. by eexists.
  - by intros c k d ->.
  - intros. apply toy_cipher_twice.
  - intros. apply length_fmap.
  - intros. apply toy_digest_bytes.
  - intros k _. eexists. split; [done|]. intros dec iv _. by eexists.
  - intros c dec k iv d x -> _. eexists _, _. split; [done|]. split; [done|]. destruct dec; apply fmap_app.
  - intros c dec k iv d ->. by destruct dec.
  - by intros [].
  - intros. apply toy_cipher_twice.
  - intros. split; apply length_fmap.
  - intros k _. eexists _, _. split; [done|]. split; [done|]. intros iv d _ _. split; by eexists.
Defined.

(** The demonstration image of the parser, in a CRC mode that its CRC matches. *)
Definition crc_parts : parts := mk_parts IMAGE_CHECK_CRC true [49] [] [] [49; 50; 51; 52; 53; 54; 55; 56; 57] 0xCBF43926.
Definition no_keys : image_read_cfg := mk_cfg None 0 None 0.
Definition read_of (buf : list Z) (off len : Z) : Z * list Z := (ERR_OK, slice buf off len).

Lemma reads_of buf : reads buf (read_of buf).
Proof. by intros off len _ _ _. Qed.

Lemma no_keys_ok : cfg_ok no_keys.
Proof. by split. Qed.

Lemma image_verify_stream_whole_witness :
  image_verify_stream false (Some (read_of (build_image crc_parts))) 18 (Some no_keys) true 16 cache_zero = (ERR_OK, Some 0xCBF43926).
Proof.
  etransitivity; [apply (image_verify_stream_whole false (build_image crc_parts) (read_of (build_image crc_parts)) 16 no_keys cache_zero)|].
  - vm_compute. repeat constructor; discriminate || reflexivity.
  - vm_compute. reflexivity.
  - apply reads_of.
  - apply no_keys_ok.
  - apply cache_zero_ok.
  - lia.
  - exists 1. reflexivity.
  - vm_compute. reflexivity.
Defined.

Definition demo_key : list Z := replicate 16 3.
Definition demo_sealed : list Z := build_image (seal_cbc_sha demo_key [7] (replicate 16 1) [10; 20; 30] [49] [] false 0).

Lemma demo_sealed_u8 : Forall is_u8 demo_sealed.
Proof. vm_compute. repeat constructor; discriminate || reflexivity. Qed.

Definition demo_cfg : image_read_cfg := mk_cfg (Some demo_key) 16 (Some [7]) 1.
(** The same image with one byte of ciphertext changed. *)
Definition demo_tampered : list Z := <[0%nat := 0]> demo_sealed.

Lemma demo_cfg_ok : cfg_ok demo_cfg.
Proof. split; intros k [= <-]; [|done]. split; [done|]. apply elem_of_cons. by left. Qed.

Lemma image_read_payload_authentic_witness :
  let res := image_read_payload true (Some demo_tampered) (Some demo_cfg) true 64 cache_zero in
  res.1 = ERR_AUTH_FAILED /\ o_plain res.2 = no_plain.
Proof.
  split; [vm_compute; reflexivity|].
  destruct (image_parse (Some demo_tampered) true) as [rc [v|]] eqn:Ep; [|vm_compute in Ep; discriminate Ep].
  eapply (image_read_payload_authentic true demo_tampered demo_cfg true 64 cache_zero _ _).
  - vm_compute. repeat constructor; discriminate || reflexivity.
  - apply demo_cfg_ok.
  - apply cache_zero_ok.
  - apply surjective_pairing.
  - rewrite Ep. do 2 f_equal. vm_compute in Ep. injection Ep as <- _. reflexivity.
  - vm_compute in Ep. injection Ep as _ <-. reflexivity.
  - vm_compute in Ep. injection Ep as _ <-. vm_compute. discriminate.
Defined.

Lemma sealed_image_opens_witness :
  ∃ o, image_read_payload true (Some demo_sealed) (Some demo_cfg) true 64 cache_zero = (ERR_OK, o) /\
    take 3 (o_plain o).1 = [10; 20; 30] /\ (o_plain o).2 = Some 3.
Proof.
  apply (proj2 (sealed_image_opens demo_key [7] (replicate 16 1) [10; 20; 30] [49] [] false 0 64 cache_zero
    ltac:(apply elem_of_cons; by left) cache_zero_ok ltac:(vm_compute; repeat split; (lia || discriminate)))).
  - reflexivity.
  - apply demo_sealed_u8.
  - cbn. lia.
Defined.

(** An image of zeros under a CBC meta. *)
Definition forged : parts := mk_parts IMAGE_CHECK_CBC false [] [] (replicate 16 0) (replicate 32 0) 0.

Lemma cbc_accepts_anything_witness :
  ∃ crc, image_verify_stream true (Some (read_of (build_image forged))) 56 (Some no_keys) true 512 cache_zero = (ERR_OK, Some crc).
Proof.
  apply (cbc_accepts_anything true forged no_keys (read_of (build_image forged)) 512 cache_zero).
  - vm_compute. repeat split; (lia || discriminate).
  - reflexivity.
  - vm_compute. repeat constructor; discriminate || reflexivity.
  - vm_compute. reflexivity.
  - apply reads_of.
  - lia.
Defined.

(** ** Raw data in flash *)

Lemma slice_slice buf off len a n :
  0 <= off -> 0 <= a -> 0 <= n -> a + n <= len -> slice (slice buf off len) a n = slice buf (off + a) n.
Proof.
  intros. rewrite <- (slice_take _ a n (len - a)) by lia.
  rewrite <- (slice_take buf (off + a) n (len - a)) by lia. f_equal. rewrite <- slice_drop by lia.
  unfold slice at 1. rewrite take_ge; [done|]. rewrite length_drop. unfold slice. rewrite length_take. lia.
Qed.

(** The verification of raw data in a flash area is the CRC of those bytes. *)
Lemma image_verify_area_spec {F : Type} `{FlashLaws F} (s : flash_sys F) id off len expected c :
  s_flash_ops s = true -> cache_ok c -> 0 <= off -> 0 < len -> off + len <= Z.of_nat (length (content (dev s) id)) ->
  image_verify_area s id off len expected c =
    if bool_decide (image_crc (slice (content (dev s) id) off len) = expected) then ERR_OK else ERR_CRC_MISMATCH.
Proof.
  intros Hr Hc Hoff Hlen Hin. unfold image_verify_area, flash_area_open. rewrite Hr. cbn [negb].
  destruct (open_law (dev s) id) as (a & -> & Hid & _). change (ERR_OK =? ERR_OK) with true. cbn [negb].
  pose proof (content_small (dev s) id) as Hsm. set (cont := content (dev s) id) in *.
  unfold image_verify_raw. rewrite (proj2 (Z.eqb_neq len 0)) by lia.
  assert (Z.of_nat (length (slice cont off len)) = len) as Hl by (apply slice_length; lia).
  destruct (read_loop_spec (fun st b => inr (crc_feed st b)) crc_took 1 (slice cont off len) (verify_area_read s a off) IMAGE_VERIFY_CHUNK)
    with (off := 0) (len := len) (st := crc_begin 32 c) as (st & -> & Ht); try lia.
  - apply slice_u8, content_u8.
  - intros o n Ho Hn Hb. unfold verify_area_read, flash_area_read_operation. rewrite Hr. cbn [negb].
    rewrite u32_small by lia. rewrite Hl in Hb. rewrite read_law by (rewrite ?Hid; fold cont; lia). rewrite Hid. fold cont.
    by rewrite slice_slice by lia.
  - split; [lia|]. split; [apply Z.divide_1_l|done].
  - intros st d b Ht _ Hb. eexists. split; [done|]. by apply crc_feed_took.
  - by apply crc_begin_took.
  - rewrite (crc_took_finish _ _ Ht), slice_slice, Z.add_0_r by lia.
    destruct (Z.eqb_spec (image_crc (slice cont off len)) expected) as [E|E]; [by rewrite bool_decide_true|by rewrite bool_decide_false].
Qed.
