(* ===== verification/OtaBoot.v ===== *)
(** * Update flow of the bootloader

    Models src/lib/mini-ota/bootutil/src/start.c (the run-time state word, downloading,
    activating, trial boots, rollback and confirmation), boot_keys.c (the key slot) and
    boot.c (the checks before the jump into the application).

    The module's variables are the record [boot], with the flash and the persistent state of
    [OtaState].  The dual-partition switch [OTA_DUAL_PARTITION] and [IMAGE_CRYPTO_ENABLE] are
    parameters, as are the download hook and the memory the vector table is read from.  The
    theorems show that an activated image gets one trial boot before the other partition is
    chosen again, that downloading writes the inactive partition and nothing else, that only a
    verified image is activated, and what the jump requires. *)

From S2P Require Import Prelude Crc ConfigBlob OtaState OtaCrypto OtaImage.

#[local] Open Scope Z_scope.

Definition OTA_FAIL_NONE : Z := 0.
Definition OTA_FAIL_READ : Z := 1.
Definition OTA_FAIL_WRITE : Z := 2.
Definition OTA_FAIL_VERIFY : Z := 3.
Definition MINI_BOOT_LOAD_MAX : Z := 512.
Definition BOOT_KEY_MAX_LEN : Z := 32.

(** ** The key slot *)

Record key_slot := mk_slot { s_key : list Z; s_key_len : Z }.
Definition zero_key : list Z := replicate (Z.to_nat BOOT_KEY_MAX_LEN) 0.

(** [None] is a NULL key; the slot is cleared before the bytes are copied. *)
Definition boot_key_set (s : key_slot) (k : option (list Z)) (len : Z) : Z * key_slot :=
  match k with
  | None => (ERR_ARG, s)
  | Some k =>
      if negb (len =? 16) && negb (len =? 24) && negb (len =? 32) then (ERR_ARG, s) else
      (ERR_OK, mk_slot (take (Z.to_nat len) k ++ drop (Z.to_nat len) zero_key) len)
  end.

Definition boot_key_get (s : key_slot) : option (list Z) * Z :=
  if s_key_len s =? 0 then (None, 0) else (Some (take (Z.to_nat (s_key_len s)) (s_key s)), s_key_len s).

Definition boot_key_wipe (s : key_slot) : key_slot := mk_slot zero_key 0.

Section boot.
Context {F : Type} `{FlashOps F} `{Mbedtls} (dual crypto : bool).

(** The variables of start.c and boot_keys.c, and what they are stored in. *)
Record boot := mk_boot {
  s_ota_state : Z;
  s_downloaded_size : Z;
  keys : key_slot;
  persist : state_sys (flash_sys F)
}.
Implicit Types b : boot.

Definition set_word b (w : Z) : boot := mk_boot w (s_downloaded_size b) (keys b) (persist b).
Definition set_persist b (p : state_sys (flash_sys F)) : boot := mk_boot (s_ota_state b) (s_downloaded_size b) (keys b) p.
Definition set_size b (n : Z) : boot := mk_boot (s_ota_state b) n (keys b) (persist b).
Definition set_keys b (k : key_slot) : boot := mk_boot (s_ota_state b) (s_downloaded_size b) k (persist b).
(** The flash below the persistent state. *)
Definition flash b : flash_sys F := backend (persist b).
Definition set_flash b (f : flash_sys F) : boot := set_persist b (mk_state (s_state_ops (persist b)) f).

(** ** State word *)

Definition state_update b (mask value : Z) : Z * boot :=
  let b := set_word b (Z.lor (Z.land (s_ota_state b) (u32 (Z.lnot mask))) (Z.land value mask)) in
  let '(rc, p) := ota_state_update (persist b) mask value in (rc, set_persist b p).

Definition state_update_bit b (mask value : Z) : Z * boot := state_update b mask (if negb (value =? 0) then mask else 0).

Definition ota_open b : boot := set_word b (ota_state_bit_put (s_ota_state b) OTA_STATE_BIT_OPEN 1).
Definition ota_close b : boot := set_word b (ota_state_bit_put (s_ota_state b) OTA_STATE_BIT_OPEN 0).
Definition ota_rollback_open b : boot := set_word b (ota_state_bit_put (s_ota_state b) OTA_STATE_BIT_ROLLBACK 1).
Definition ota_rollback_close b : boot := set_word b (ota_state_bit_put (s_ota_state b) OTA_STATE_BIT_ROLLBACK 0).
Definition ota_set_partition_image_0 b : Z * boot := state_update_bit b OTA_STATE_MASK_CURRENT OTA_STATE_PARTITION_IMAGE_0.
Definition ota_set_partition_image_1 b : Z * boot := state_update_bit b OTA_STATE_MASK_CURRENT OTA_STATE_PARTITION_IMAGE_1.
Definition ota_force_open b : boot := set_word b (ota_state_bit_put (s_ota_state b) OTA_STATE_BIT_FORCE 1).
Definition ota_force_close b : boot := set_word b (ota_state_bit_put (s_ota_state b) OTA_STATE_BIT_FORCE 0).
Definition ota_fail_set b (code : Z) : Z * boot := state_update b OTA_STATE_FAIL_MASK (ota_state_fail_encode code).

Definition mini_boot_get_ota_status b : Z := u8 (Z.land (s_ota_state b) OTA_STATE_MASK_STATUS_BYTE).
Definition ota_is_open b : Z := u8 (ota_state_bit_get (s_ota_state b) OTA_STATE_BIT_OPEN).
Definition ota_is_double : bool := dual.
Definition ota_is_rollback b : Z := u8 (ota_state_bit_get (s_ota_state b) OTA_STATE_BIT_ROLLBACK).
Definition ota_is_force b : Z := u8 (ota_state_bit_get (s_ota_state b) OTA_STATE_BIT_FORCE).
Definition ota_fail_get b : Z := u8 (ota_state_fail_get (s_ota_state b)).
Definition ota_current_partition_get b : Z := u8 (ota_state_bit_get (s_ota_state b) OTA_STATE_BIT_CURRENT).
Definition ota_is_pending b : Z := u8 (ota_state_bit_get (s_ota_state b) OTA_STATE_BIT_PENDING).
Definition ota_is_trial b : Z := u8 (ota_state_bit_get (s_ota_state b) OTA_STATE_BIT_TRIAL).

Definition state_reload b : Z * boot :=
  let '(rc, loaded) := ota_state_load (persist b) true in
  if rc =? ERR_OK then
    (ERR_OK, set_word b (Z.lor (Z.land (s_ota_state b) (u32 (Z.lnot OTA_STATE_DURABLE_MASK)))
                           (Z.land (default 0 loaded) OTA_STATE_DURABLE_MASK)))
  else if rc =? ERR_OTA_STATE then (ERR_OK, set_word b (Z.land (s_ota_state b) (u32 (Z.lnot OTA_STATE_DURABLE_MASK))))
  else (rc, b).

(** The bits an activation or a rollback writes. *)
Definition activation_mask : Z :=
  Z.lor (Z.lor (Z.lor OTA_STATE_MASK_CURRENT OTA_STATE_MASK_PENDING) OTA_STATE_MASK_TRIAL) OTA_STATE_FAIL_MASK.

Definition mini_boot_state_load b : Z * boot :=
  let '(rc, b) := state_reload b in
  if negb (rc =? ERR_OK) then (rc, b) else
  if negb (ota_is_pending b =? 0) then
    if ota_is_trial b =? 0 then (ERR_OK, (state_update_bit b OTA_STATE_MASK_TRIAL 1).2)
    else
      match ota_state_resolve_pending (Some (s_ota_state b)) OTA_FAIL_VERIFY with
      | (r, Some resolved) =>
          if negb (r =? 0) then (ERR_OK, (state_update b activation_mask (Z.land resolved activation_mask)).2) else (ERR_OK, b)
      | (_, None) => (ERR_OK, b)
      end
  else (ERR_OK, b).

Definition mini_boot_state_refresh b : Z * boot := state_reload b.

Definition flash_active_area_id b : Z :=
  if ota_current_partition_get b =? OTA_STATE_PARTITION_IMAGE_1 then FLASH_AREA_ID_IMAGE_1 else FLASH_AREA_ID_IMAGE_0.
Definition flash_inactive_area_id b : Z :=
  if negb ota_is_double then FLASH_AREA_ID_IMAGE_0 else
  if ota_current_partition_get b =? OTA_STATE_PARTITION_IMAGE_1 then FLASH_AREA_ID_IMAGE_0 else FLASH_AREA_ID_IMAGE_1.

(** ** Downloading *)

(** [None] is a context without an area. *)
Definition flash_image_read_fn (s : flash_sys F) (a : option flash_area) (offset len : Z) : Z * list Z :=
  match a with
  | None => (ERR_ARG, [])
  | Some a => flash_area_read_operation s a offset len
  end.

(** The hook: its state, the bytes wanted; the result, the length it reports and the bytes it
    put into the buffer. *)
Definition down_load_hook (P : Type) : Type := P -> Z -> Z * Z * list Z * P.

Definition fail b (code rc : Z) : Z * boot := (rc, (ota_fail_set b code).2).

(** An [open] that reports success gives an area: the other case is for totality. *)
Definition no_area b : Z * boot := fail b OTA_FAIL_WRITE ERR_ARG.

(** The receiving loop; a round takes at least one byte, so [total_len] bounds the rounds. *)
Fixpoint receive_loop {P} (fuel : nat) (hook : down_load_hook P) (param : P) b (a : flash_area) (received total_len : Z) : Z * boot :=
  match fuel with
  | O => (ERR_OK, b)
  | S fuel =>
      if negb (received <? total_len) then (ERR_OK, set_size b total_len) else
      let want := if total_len - received >? MINI_BOOT_LOAD_MAX then MINI_BOOT_LOAD_MAX else total_len - received in
      let '(rc, raw, data, param) := hook param want in
      if negb (rc =? ERR_OK) || (raw <=? 0) || (raw >? want) then fail b OTA_FAIL_READ ERR_TRANSMIT else
      let '(rc, f) := flash_area_write_operation (flash b) a received (take (Z.to_nat raw) data) in
      let b := set_flash b f in
      if negb (rc =? ERR_OK) then fail b OTA_FAIL_WRITE rc else
      receive_loop fuel hook param b a (received + raw) total_len
  end.

Definition mini_boot_source_download_stream {P} b (hook : option (down_load_hook P)) (param : P) (total_len : Z) : Z * boot :=
  if ota_is_open b =? 0 then (ERR_OTA_OPEN, b) else
  match hook with
  | None => (ERR_ARG, b)
  | Some hook =>
      if total_len =? 0 then (ERR_ARG, b) else
      let '(rc, area) := flash_area_open (flash b) (flash_inactive_area_id b) in
      if negb (rc =? ERR_OK) then fail b OTA_FAIL_WRITE rc else
      match area with
      | None => no_area b
      | Some a =>
          let '(rc, f) := flash_area_erase_operation (flash b) a 0 total_len in
          let b := set_flash b f in
          if negb (rc =? ERR_OK) then fail b OTA_FAIL_WRITE rc else
          receive_loop (S (Z.to_nat total_len)) hook param b a 0 total_len
      end
  end.

(** ** Activating *)

Definition verify_area (s : flash_sys F) (a : option flash_area) (size : Z) (cfg : image_read_cfg) (c : crc_cache) : Z :=
  (image_verify_stream crypto (Some (flash_image_read_fn s a)) size (Some cfg) true MINI_BOOT_LOAD_MAX c).1.

Definition mini_boot_start_ota b (c : crc_cache) : Z * boot :=
  if ota_is_open b =? 0 then (ERR_OTA_OPEN, b) else
  if s_downloaded_size b =? 0 then (ERR_ARG, b) else
  let '(rc, area) := flash_area_open (flash b) (flash_inactive_area_id b) in
  if negb (rc =? ERR_OK) then fail b OTA_FAIL_WRITE rc else
  let '(k, klen) := if crypto then boot_key_get (keys b) else (None, 0) in
  let rc := verify_area (flash b) area (s_downloaded_size b) (mk_cfg k klen None 0) c in
  let b := if crypto then set_keys b (boot_key_wipe (keys b)) else b in
  if negb (rc =? ERR_OK) then fail b OTA_FAIL_VERIFY rc else
  let value := if flash_inactive_area_id b =? FLASH_AREA_ID_IMAGE_1 then OTA_STATE_MASK_CURRENT else 0 in
  let value := if ota_is_double && negb (ota_is_rollback b =? 0) then Z.lor value OTA_STATE_MASK_PENDING else value in
  let '(rc_state, b) := state_update b activation_mask value in
  if ota_is_double && negb (rc_state =? ERR_OK) then (rc_state, b) else (ERR_OK, b).

(** [mini_boot_backup_param_t]. *)
Record backup_param := mk_backup { bp_partition : Z; bp_size : Z; bp_cfg : image_read_cfg }.

Definition mini_boot_backup b (param : option backup_param) (c : crc_cache) : Z :=
  match param with
  | None => ERR_ARG
  | Some p =>
      if bp_size p <? IMAGE_CRC_LEN + IMAGE_META_LEN then ERR_ARG else
      let '(rc, area) := flash_area_open (flash b) (bp_partition p) in
      if negb (rc =? ERR_OK) then rc else
      match area with
      | None => ERR_ARG
      | Some a => if bp_size p >? fa_size a then ERR_ARG else verify_area (flash b) area (bp_size p) (bp_cfg p) c
      end
  end.

Definition mini_boot_confirm_ota b : Z * boot := state_update b (Z.lor OTA_STATE_MASK_PENDING OTA_STATE_MASK_TRIAL) 0.

(** ** The jump *)

Record app_area := mk_app { initial_addr : Z; app_size : Z; app_fa_id : Z; image_len : Z }.

(** What the processor is told on the way out. *)
Inductive action :=
  | irq_disable | set_systick (ctrl val : Z) | clear_nvic | set_vtor (addr : Z) | psp_to_msp | set_psp (psp : Z)
  | dsb | isb | jump_to_app (msp entry : Z).

(** An error, or the actions that end in the jump.  [mem] is the word at an address. *)
Definition boot_jump_switch_app (SRAM_START_ADDR SRAM_SIZE : Z) (mem : Z -> Z) b (c : crc_cache) (app : app_area) : Z + list action :=
  let addr := initial_addr app in
  if (addr =? 0) || negb (Z.land addr 0x7F =? 0) then inl ERR_ARG else
  let app_sp := mem addr in
  let app_pc := mem (addr + 4) in
  if (app_sp <? SRAM_START_ADDR) || (app_sp >? u32 (SRAM_START_ADDR + SRAM_SIZE)) || negb (Z.land app_sp 0x3 =? 0) then inl ERR_ARG else
  if (app_pc <? addr) || (app_pc >=? u32 (addr + app_size app)) || (Z.land app_pc 0x1 =? 0) then inl ERR_ARG else
  let rc :=
    if negb (image_len app =? 0) then
      let '(k, klen) := if crypto then boot_key_get (keys b) else (None, 0) in
      mini_boot_backup b (Some (mk_backup (app_fa_id app) (image_len app) (mk_cfg k klen None 0))) c
    else ERR_OK in
  if negb (rc =? ERR_OK) then inl rc else
  inr [irq_disable; set_systick 0 0; clear_nvic; set_vtor addr; psp_to_msp; set_psp 0; dsb; isb; jump_to_app app_sp app_pc].
End boot.
Arguments boot F : clear implicits.

(** ** Bits *)


Lemma land_1_bit x : Z.land x 1 = Z.b2z (Z.testbit x 0).
Proof. change 1 with (Z.ones 1). rewrite Z.land_ones by lia. change (2 ^ 1) with 2. by rewrite Z.bit0_mod. Qed.

Lemma bit_get_testbit w i : 0 <= i -> ota_state_bit_get w i = Z.b2z (Z.testbit w i).
Proof. intros Hi. unfold ota_state_bit_get. rewrite land_1_bit, Z.shiftr_spec by lia. by rewrite Z.add_0_l. Qed.

Lemma u8_b2z x : u8 (Z.b2z x) = Z.b2z x.
Proof. by destruct x. Qed.

Lemma lnot_bit m i : 0 <= i < 32 -> Z.testbit (u32 (Z.lnot m)) i = negb (Z.testbit m i).
Proof.
  intros Hi. unfold u32. change 4294967296 with (2 ^ 32). rewrite Z.mod_pow2_bits_low by lia. apply Z.lnot_spec. lia.
Qed.

(** Replacing the bits of a mask. *)
Definition masked (w mask value : Z) : Z := Z.lor (Z.land w (u32 (Z.lnot mask))) (Z.land value mask).

Lemma masked_bit w m x i : 0 <= i < 32 -> Z.testbit (masked w m x) i = if Z.testbit m i then Z.testbit x i else Z.testbit w i.
Proof.
  intros Hi. unfold masked. rewrite Z.lor_spec, !Z.land_spec, lnot_bit by done.
  destruct (Z.testbit m i), (Z.testbit w i), (Z.testbit x i); done.
Qed.

Lemma bit_put_bit w k x i : 0 <= k < 32 -> 0 <= i < 32 ->
  Z.testbit (ota_state_bit_put w k x) i = if i =? k then negb (x =? 0) else Z.testbit w i.
Proof.
  intros Hk Hi. unfold ota_state_bit_put. rewrite Z.shiftl_1_l, (u32_small (2 ^ k)).
  2:{ split; [apply Z.pow_nonneg; lia|]. change 4294967296 with (2 ^ 32). apply Z.pow_lt_mono_r; lia. }
  destruct (x =? 0); cbn [negb].
  - rewrite Z.land_spec, lnot_bit, Z.pow2_bits_eqb by lia. rewrite (Z.eqb_sym k i).
    destruct (i =? k), (Z.testbit w i); done.
  - rewrite Z.lor_spec, Z.pow2_bits_eqb by lia. rewrite (Z.eqb_sym k i).
    destruct (i =? k), (Z.testbit w i); done.
Qed.

Lemma fail_put_bit w code i : 0 <= i < 32 ->
  Z.testbit (ota_state_fail_put w code) i =
    if Z.testbit OTA_STATE_FAIL_MASK i then Z.testbit (u32 (Z.shiftl code OTA_STATE_FAIL_SHIFT)) i else Z.testbit w i.
Proof. intros Hi. by apply (masked_bit w OTA_STATE_FAIL_MASK). Qed.

(** ** The durable bits *)

Record durable := mk_durable { d_current : bool; d_pending : bool; d_trial : bool; d_fail0 : bool; d_fail1 : bool }.

Definition durable_of (w : Z) : durable :=
  mk_durable (Z.testbit w 6) (Z.testbit w 7) (Z.testbit w 16) (Z.testbit w 4) (Z.testbit w 5).

(** What a start makes of them: an activated image is tried once, then given up. *)
Definition start_durable (d : durable) : durable :=
  if d_pending d then
    if d_trial d then mk_durable (negb (d_current d)) false false true true
    else mk_durable (d_current d) true true (d_fail0 d) (d_fail1 d)
  else d.

Lemma durable_masked w m x :
  durable_of (masked w m x) =
    mk_durable (if Z.testbit m 6 then Z.testbit x 6 else Z.testbit w 6) (if Z.testbit m 7 then Z.testbit x 7 else Z.testbit w 7)
      (if Z.testbit m 16 then Z.testbit x 16 else Z.testbit w 16) (if Z.testbit m 4 then Z.testbit x 4 else Z.testbit w 4)
      (if Z.testbit m 5 then Z.testbit x 5 else Z.testbit w 5).
Proof. unfold durable_of. by rewrite !masked_bit by lia. Qed.

Lemma durable_land w : durable_of (Z.land w OTA_STATE_DURABLE_MASK) = durable_of w.
Proof. unfold durable_of. rewrite !Z.land_spec. cbn. by rewrite !andb_true_r. Qed.

Lemma durable_update v m x : durable_of (default 0 (reg_update v (m, x))) = durable_of (masked (default 0 v) m x).
Proof. exact (durable_land (masked (default 0 v) m x)). Qed.

Lemma durable_magic w : durable_of (ota_state_with_magic w) = durable_of w.
Proof. by rewrite <- durable_land, with_magic_durable, durable_land. Qed.

(** Computes the bits of constants. *)
Ltac const_bits :=
  repeat match goal with
  | |- context [Z.testbit ?m ?i] =>
      let r := eval vm_compute in (Z.testbit m i) in
      match r with true => change (Z.testbit m i) with true | false => change (Z.testbit m i) with false end
  | |- context [?a =? ?b] =>
      let r := eval vm_compute in (a =? b) in
      match r with true => change (a =? b) with true | false => change (a =? b) with false end
  end; cbv iota.

Lemma durable_masked_ext w w' m x : durable_of w = durable_of w' -> durable_of (masked w m x) = durable_of (masked w' m x).
Proof.
  intros Hd. rewrite !durable_masked.
  assert (Z.testbit w 6 = Z.testbit w' 6) as -> by exact (f_equal d_current Hd).
  assert (Z.testbit w 7 = Z.testbit w' 7) as -> by exact (f_equal d_pending Hd).
  assert (Z.testbit w 16 = Z.testbit w' 16) as -> by exact (f_equal d_trial Hd).
  assert (Z.testbit w 4 = Z.testbit w' 4) as -> by exact (f_equal d_fail0 Hd).
  by assert (Z.testbit w 5 = Z.testbit w' 5) as -> by exact (f_equal d_fail1 Hd).
Qed.

Section flow.
Context {F : Type} `{FlashLaws F} `{MbedtlsLaws} (dual crypto : bool).
Implicit Types (b : boot F) (v : option Z).

(** The variables agree with the persistent word. *)
Definition coherent b v : Prop :=
  register (persist b) v /\ durable_of (s_ota_state b) = durable_of (default 0 v).

(** The device below is the same but for the state sector. *)
Definition same_images b b' : Prop := ∀ id, id ≠ FLASH_AREA_ID_STATE -> content (dev (flash b')) id = content (dev (flash b)) id.

Lemma state_update_ok b v mask value :
  coherent b v ->
  ∃ b', state_update b mask value = (ERR_OK, b') /\ coherent b' (reg_update v (mask, value)) /\
    s_ota_state b' = masked (s_ota_state b) mask value /\ same_images b b' /\
    s_downloaded_size b' = s_downloaded_size b /\ keys b' = keys b.
Proof.
  intros [Hreg Hd]. unfold state_update. cbn [persist set_word].
  destruct (register_update (persist b) v mask value Hreg) as (p & -> & Hp & K).
  eexists. split; [done|]. cbn. split; [|split; [done|split; [exact (proj2 K)|done]]]. split; [done|]. cbn [s_ota_state set_word set_persist].
  rewrite durable_update. fold (masked (s_ota_state b) mask value).
  by apply durable_masked_ext.
Qed.

Lemma state_reload_ok b v :
  register (persist b) v ->
  ∃ b', state_reload b = (ERR_OK, b') /\ coherent b' v /\ persist b' = persist b /\
    s_downloaded_size b' = s_downloaded_size b /\ keys b' = keys b /\
    ∀ i, 0 <= i < 32 -> Z.testbit OTA_STATE_DURABLE_MASK i = false -> Z.testbit (s_ota_state b') i = Z.testbit (s_ota_state b) i.
Proof.
  intros Hreg. unfold state_reload. rewrite (register_load _ _ Hreg). destruct v as [w|].
  - change (ERR_OK =? ERR_OK) with true. cbv iota. change (default 0 (Some ?x)) with x.
    eexists. split; [done|]. cbn [persist set_word s_ota_state s_downloaded_size keys].
    fold (masked (s_ota_state b) OTA_STATE_DURABLE_MASK (ota_state_with_magic w)).
    split; [|split_and!; try done; intros i Hi E; by rewrite masked_bit, E].
    split; [done|]. cbn [s_ota_state set_word default]. rewrite durable_masked. exact (durable_magic w).
  - change (ERR_OTA_STATE =? ERR_OK) with false. change (ERR_OTA_STATE =? ERR_OTA_STATE) with true. cbv iota.
    eexists. split; [done|]. cbn [persist set_word s_ota_state s_downloaded_size keys].
    split; [|split_and!; try done; intros i Hi E; by rewrite Z.land_spec, lnot_bit, E, andb_true_r].
    split; [done|]. cbn [s_ota_state set_word default]. unfold durable_of. rewrite !Z.land_spec, !lnot_bit by lia. const_bits.
    by rewrite !andb_false_r.
Qed.

Lemma pending_get b : ota_is_pending b = Z.b2z (d_pending (durable_of (s_ota_state b))).
Proof. unfold ota_is_pending. by rewrite bit_get_testbit, u8_b2z by (unfold OTA_STATE_BIT_PENDING; lia). Qed.
Lemma trial_get b : ota_is_trial b = Z.b2z (d_trial (durable_of (s_ota_state b))).
Proof. unfold ota_is_trial. by rewrite bit_get_testbit, u8_b2z by (unfold OTA_STATE_BIT_TRIAL; lia). Qed.
Lemma current_get b : ota_current_partition_get b = Z.b2z (d_current (durable_of (s_ota_state b))).
Proof. unfold ota_current_partition_get. by rewrite bit_get_testbit, u8_b2z by (unfold OTA_STATE_BIT_CURRENT; lia). Qed.

(** The word a rollback resolves to. *)
Lemma resolve_durable w : d_pending (durable_of w) = true ->
  ∃ w', ota_state_resolve_pending (Some w) OTA_FAIL_VERIFY = (1, Some w') /\
    durable_of w' = mk_durable (negb (d_current (durable_of w))) false false true true.
Proof.
  intros Hp. unfold ota_state_resolve_pending, ota_state_pending_get, ota_state_partition_get.
  rewrite !bit_get_testbit by (unfold OTA_STATE_BIT_PENDING, OTA_STATE_BIT_CURRENT; lia).
  change (Z.testbit w OTA_STATE_BIT_PENDING) with (d_pending (durable_of w)). rewrite Hp. cbn [Z.b2z Z.eqb].
  eexists. split; [done|].
  unfold durable_of. rewrite !fail_put_bit, !bit_put_bit by (unfold OTA_STATE_BIT_TRIAL, OTA_STATE_BIT_PENDING, OTA_STATE_BIT_CURRENT; lia).
  const_bits. cbn [d_current durable_of]. change OTA_STATE_BIT_CURRENT with 6. by destruct (Z.testbit w 6).
Qed.

(** One start of the bootloader. *)
Lemma state_load_ok b v :
  register (persist b) v ->
  ∃ b' v', mini_boot_state_load b = (ERR_OK, b') /\ coherent b' v' /\
    durable_of (default 0 v') = start_durable (durable_of (default 0 v)) /\ same_images b b'.
Proof.
  intros Hreg. unfold mini_boot_state_load. destruct (state_reload_ok b v Hreg) as (b1 & -> & Hco & Ep & _).
  change (ERR_OK =? ERR_OK) with true. cbn [negb].
  assert (same_images b b1) as Hsame by (unfold same_images, flash; by rewrite Ep).
  pose proof (proj2 Hco) as Hd. rewrite pending_get, trial_get. unfold start_durable. rewrite <- Hd.
  destruct (d_pending (durable_of (s_ota_state b1))) eqn:Epd; [|by exists b1, v].
  destruct (d_trial (durable_of (s_ota_state b1))) eqn:Etr; cbn [Z.b2z Z.eqb negb].
  - destruct (resolve_durable (s_ota_state b1) Epd) as (w' & -> & Hw'). change (1 =? 0) with false. cbn [negb].
    destruct (state_update_ok b1 v activation_mask (Z.land w' activation_mask) Hco) as (b2 & -> & Hco2 & _ & Hs2 & _).
    eexists _, _. split; [done|]. split; [done|]. split; [|by intros id Hid; rewrite Hs2, Hsame].
    rewrite durable_update, durable_masked. rewrite !Z.land_spec. const_bits. rewrite !andb_true_r. exact Hw'.
  - unfold state_update_bit. change (negb (1 =? 0)) with true. cbv iota.
    destruct (state_update_ok b1 v OTA_STATE_MASK_TRIAL OTA_STATE_MASK_TRIAL Hco) as (b2 & -> & Hco2 & _ & Hs2 & _).
    eexists _, _. split; [done|]. split; [done|]. split; [|by intros id Hid; rewrite Hs2, Hsame].
    rewrite durable_update, durable_masked, Hd. const_bits. rewrite Hd in Epd. cbn [d_pending durable_of] in Epd. by rewrite Epd.
Qed.
Lemma confirm_ok b v :
  coherent b v ->
  ∃ b' v', mini_boot_confirm_ota b = (ERR_OK, b') /\ coherent b' v' /\
    durable_of (default 0 v') = (let d := durable_of (default 0 v) in mk_durable (d_current d) false false (d_fail0 d) (d_fail1 d)) /\
    same_images b b'.
Proof.
  intros Hco. unfold mini_boot_confirm_ota.
  destruct (state_update_ok b v (Z.lor OTA_STATE_MASK_PENDING OTA_STATE_MASK_TRIAL) 0 Hco) as (b' & -> & Hco' & _ & Hs & _).
  eexists _, _. split; [done|]. split; [done|]. split; [|done]. rewrite durable_update, durable_masked. const_bits. done.
Qed.

(** ** Starts *)

(** A reset clears the variables. *)
Definition reset b : boot F := mk_boot 0 0 (mk_slot zero_key 0) (persist b).
(** A start, with the partition it selects. *)
Definition start b : Z * boot F := let b := (mini_boot_state_load (reset b)).2 in (ota_current_partition_get b, b).
Fixpoint starts (n : nat) b : list Z * boot F :=
  match n with
  | O => ([], b)
  | S n => let '(p, b) := start b in let '(ps, b) := starts n b in (p :: ps, b)
  end.

Lemma start_ok b v : register (persist b) v ->
  ∃ b' v', start b = (Z.b2z (d_current (start_durable (durable_of (default 0 v)))), b') /\ coherent b' v' /\
    durable_of (default 0 v') = start_durable (durable_of (default 0 v)) /\ same_images b b'.
Proof.
  intros Hreg. unfold start. destruct (state_load_ok (reset b) v Hreg) as (b' & v' & -> & Hco & Hd & Hs). cbn [snd].
  exists b', v'. rewrite current_get, (proj2 Hco), Hd. done.
Qed.

(** Starts without anything pending stay. *)
Lemma starts_settled n b v : register (persist b) v -> d_pending (durable_of (default 0 v)) = false ->
  ∃ b' v', starts n b = (replicate n (Z.b2z (d_current (durable_of (default 0 v)))), b') /\ register (persist b') v' /\
    durable_of (default 0 v') = durable_of (default 0 v) /\ same_images b b'.
Proof.
  revert b v. induction n as [|n IH]; intros b v Hreg Hp; [by exists b, v|]. cbn [starts replicate].
  destruct (start_ok b v Hreg) as (b1 & v1 & -> & [Hreg1 _] & Hd1 & Hs1). unfold start_durable in *. rewrite Hp in *.
  destruct (IH b1 v1 Hreg1) as (b' & v' & -> & Hreg' & Hd' & Hs'); [by rewrite Hd1|].
  exists b', v'. rewrite Hd1. split; [done|]. split; [done|]. split; [by rewrite Hd', Hd1|].
  intros id Hid. by rewrite Hs', Hs1.
Qed.

(** a new image gets one trial.  After an activation that awaits confirmation, the next start
    selects the new partition; unless it is confirmed, every later start, however many,
    selects the other partition and the failure is recorded; if the trial run confirms it,
    every later start selects the new one.  The images themselves are untouched. *)
Theorem trial_boot_once b v n :
  register (persist b) v ->
  let d := durable_of (default 0 v) in
  d_pending d = true -> d_trial d = false ->
  let '(first, b1) := start b in
  first = Z.b2z (d_current d) /\
  (let '(later, b') := starts (S n) b1 in
   later = replicate (S n) (Z.b2z (negb (d_current d))) /\ same_images b b' /\
   ∃ v', register (persist b') v' /\ durable_of (default 0 v') = mk_durable (negb (d_current d)) false false true true) /\
  (let '(rc, b2) := mini_boot_confirm_ota b1 in
   let '(later, b') := starts (S n) b2 in
   rc = ERR_OK /\ later = replicate (S n) (Z.b2z (d_current d)) /\ same_images b b').
Proof.
  intros Hreg d Hp Ht. destruct (start_ok b v Hreg) as (b1 & v1 & -> & Hco1 & Hd1 & Hs1). fold d in Hd1 |- *.
  unfold start_durable in Hd1 |- *. rewrite Hp, Ht in *. split; [done|]. split.
  - cbn [starts]. destruct (start_ok b1 v1 (proj1 Hco1)) as (b2 & v2 & -> & Hco2 & Hd2 & Hs2). rewrite Hd1 in Hd2 |- *.
    cbn [start_durable d_pending d_trial d_current] in Hd2 |- *.
    destruct (starts_settled n b2 v2 (proj1 Hco2)) as (b' & v' & -> & Hreg' & Hd' & Hs'); [by rewrite Hd2|].
    rewrite Hd2 in *. split; [done|]. split; [intros id Hid; by rewrite Hs', Hs2, Hs1|]. by exists v'.
  - destruct (confirm_ok b1 v1 Hco1) as (b2 & v2 & -> & Hco2 & Hd2 & Hs2). rewrite Hd1 in Hd2.
    destruct (starts_settled (S n) b2 v2 (proj1 Hco2)) as (b' & v' & -> & _ & _ & Hs'); [by rewrite Hd2|].
    rewrite Hd2. split; [done|]. split; [done|]. intros id Hid. by rewrite Hs', Hs2, Hs1.
Qed.
(** ** Downloads *)

Lemma inactive_not_state b : flash_inactive_area_id dual b ≠ FLASH_AREA_ID_STATE.
Proof. unfold flash_inactive_area_id. destruct (negb _); [done|]. by destruct (_ =? _). Qed.

(** The hook gives out a source, in pieces of its own choosing. *)
Definition gives {P} (hook : down_load_hook P) (rest : P -> list Z) : Prop :=
  ∀ p want, 0 < want -> want <= Z.of_nat (length (rest p)) ->
    ∃ raw data p', hook p want = (ERR_OK, raw, data, p') /\ 0 < raw <= want /\
      take (Z.to_nat raw) data = take (Z.to_nat raw) (rest p) /\ (Z.to_nat raw <= length data)%nat /\
      rest p' = drop (Z.to_nat raw) (rest p).

(** A write into the blank part of an area. *)
Lemma write_area b a done d post :
  s_flash_ops (flash b) = true -> Forall is_u8 d ->
  content (dev (flash b)) (fa_id a) = done ++ blank (length d) ++ post ->
  ∃ f, flash_area_write_operation (flash b) a (Z.of_nat (length done)) d = (ERR_OK, f) /\ s_flash_ops f = true /\
    content (dev f) (fa_id a) = done ++ d ++ post /\
    ∀ id, id ≠ fa_id a -> content (dev f) id = content (dev (flash b)) id.
Proof.
  intros Hr Hd Hc. unfold flash_area_write_operation. rewrite Hr. cbn [negb].
  assert (length (content (dev (flash b)) (fa_id a)) = (length done + (length d + length post))%nat) as Hl
    by (by rewrite Hc, !length_app, blank_length).
  destruct (write_law (dev (flash b)) a (Z.of_nat (length done)) d) as (f & E & Ec & Ek); [lia|done|lia| |].
  { rewrite Hc, Nat2Z.id, drop_app_length. apply take_app_length'. by rewrite blank_length. }
  rewrite E. eexists. split; [done|]. cbn [s_flash_ops dev]. split; [done|]. split; [|done].
  rewrite Ec, Hc, Nat2Z.id, take_app_length. do 2 f_equal.
  rewrite drop_app_ge, drop_app_ge by (rewrite ?blank_length; lia). rewrite blank_length.
  by replace (_ - _)%nat with O by lia.
Qed.

Section download.
Context {P : Type} (hook : down_load_hook P) (rest : P -> list Z).
Hypothesis Hgives : gives hook rest.
Hypothesis Hsrc : ∀ p, Forall is_u8 (rest p).

Lemma receive_ok fuel b a p done total post :
  s_flash_ops (flash b) = true -> total = Z.of_nat (length (done ++ rest p)) ->
  content (dev (flash b)) (fa_id a) = done ++ blank (length (rest p)) ++ post ->
  (length (rest p) < fuel)%nat ->
  ∃ f, receive_loop fuel hook p b a (Z.of_nat (length done)) total = (ERR_OK, set_size (set_flash b f) total) /\
    s_flash_ops f = true /\ content (dev f) (fa_id a) = (done ++ rest p) ++ post /\
    ∀ id, id ≠ fa_id a -> content (dev f) id = content (dev (flash b)) id.
Proof using Hgives Hsrc.
  revert b p done. induction fuel as [|fuel IH]; intros b p done Hr Ht Hc Hf; [lia|]. cbn [receive_loop].
  rewrite length_app in Ht. destruct (Z.ltb_spec (Z.of_nat (length done)) total) as [Hlt|Hge]; cbn [negb].
  2:{ exists (flash b). assert (rest p = []) as E by (apply nil_length_inv; lia). rewrite E in *. rewrite app_nil_r.
      split; [|by split_and!]. unfold set_flash, set_persist, set_size, flash. cbn. by destruct b as [? ? ? []]. }
  set (want := if _ >? _ then _ else _).
  assert (0 < want <= Z.of_nat (length (rest p))) as Hw.
  { subst want. unfold MINI_BOOT_LOAD_MAX. rewrite Z.gtb_ltb. destruct (Z.ltb_spec 512 (total - Z.of_nat (length done))); lia. }
  destruct (Hgives p want) as (raw & data & p' & -> & Hraw & Hdata & Hlen & Hrest); [lia..|].
  change (ERR_OK =? ERR_OK) with true. rewrite (proj2 (Z.leb_gt raw 0)), Z.gtb_ltb, (proj2 (Z.ltb_ge want raw)) by lia. cbn [negb orb].
  rewrite Hdata. set (d := take (Z.to_nat raw) (rest p)).
  assert (rest p = d ++ rest p') as Hsplit by (subst d; rewrite Hrest; symmetry; apply take_drop).
  assert (length d = Z.to_nat raw) as Hdl by (subst d; rewrite length_take; lia).
  destruct (write_area b a done d (blank (length (rest p')) ++ post)) as (f & -> & Hrf & Hcf & Hkf);
    [done|subst d; apply Forall_take, Hsrc| |].
  { rewrite Hc, Hsplit, length_app. unfold blank. by rewrite replicate_add, <- !app_assoc. }
  change (ERR_OK =? ERR_OK) with true. cbn [negb].
  destruct (IH (set_flash b f) p' (done ++ d)) as (f' & E & Hr' & Hc' & Hk').
  - done.
  - rewrite !length_app, Hsplit in *. rewrite length_app in *. lia.
  - cbn [flash set_flash set_persist persist backend]. by rewrite Hcf, <- app_assoc.
  - rewrite Hsplit, length_app in Hf. lia.
  - exists f'. replace (Z.of_nat (length done) + raw) with (Z.of_nat (length (done ++ d))) by (rewrite length_app; lia).
    rewrite E. split; [done|]. split; [done|]. split; [by rewrite Hc', Hsplit, <- !app_assoc|].
    intros id Hid. rewrite Hk' by done. by apply Hkf.
Qed.
End download.
Lemma register_same (p p' : state_sys (flash_sys F)) v :
  register p v -> s_state_ops p' = s_state_ops p -> s_flash_ops (backend p') = true ->
  state_bytes (backend p') = state_bytes (backend p) -> register p' v.
Proof.
  intros (Hr & H8 & rs & (Hf & Hg & tail & Hb & Ht) & Hl) Es Ef Eb. rewrite <- Es in Hr. split; [done|].
  rewrite Eb. split; [done|]. exists rs. split; [|done]. split; [done|]. split; [done|]. exists tail. by rewrite Eb.
Qed.

Lemma register_flash (p : state_sys (flash_sys F)) v : register p v -> s_flash_ops (backend p) = true.
Proof. intros (_ & _ & rs & (Hf & _) & _). done. Qed.

Lemma set_flash_coherent b v f :
  coherent b v -> s_flash_ops f = true -> state_bytes f = state_bytes (flash b) -> coherent (set_flash b f) v.
Proof. intros [Hreg Hd] Hf Hb. split; [|done]. by eapply register_same. Qed.

Definition opened b : Prop := Z.testbit (s_ota_state b) 0 = true.

Lemma opened_get b : opened b -> (ota_is_open b =? 0) = false.
Proof. intros Ho. unfold ota_is_open. rewrite bit_get_testbit, u8_b2z by done. unfold OTA_STATE_BIT_OPEN. by rewrite Ho. Qed.

Lemma open_area b id : s_flash_ops (flash b) = true ->
  ∃ a, flash_area_open (flash b) id = (ERR_OK, Some a) /\ fa_id a = id /\ fa_size a = Z.of_nat (length (content (dev (flash b)) id)).
Proof. intros Hr. unfold flash_area_open. rewrite Hr. apply open_law. Qed.

(** Downloading replaces the front of the inactive area by the source, and nothing else. *)
Lemma download_ok {P} (hook : down_load_hook P) (rest : P -> list Z) b v p :
  gives hook rest -> (∀ p, Forall is_u8 (rest p)) -> coherent b v -> opened b -> rest p ≠ [] ->
  let target := flash_inactive_area_id dual b in
  (length (rest p) <= length (content (dev (flash b)) target))%nat ->
  ∃ b', mini_boot_source_download_stream dual b (Some hook) p (Z.of_nat (length (rest p))) = (ERR_OK, b') /\
    coherent b' v /\ s_ota_state b' = s_ota_state b /\ keys b' = keys b /\
    s_downloaded_size b' = Z.of_nat (length (rest p)) /\
    length (content (dev (flash b')) target) = length (content (dev (flash b)) target) /\
    take (length (rest p)) (content (dev (flash b')) target) = rest p /\
    ∀ id, id ≠ target -> content (dev (flash b')) id = content (dev (flash b)) id.
Proof.
  intros Hg Hsrc Hco Ho Hne target Hfit. unfold mini_boot_source_download_stream. rewrite opened_get by done.
  rewrite (proj2 (Z.eqb_neq _ 0)) by (destruct (rest p); [done|cbn; lia]).
  fold target. pose proof (register_flash _ _ (proj1 Hco)) as Hr. destruct (open_area b target Hr) as (a & -> & Hid & Hsz).
  change (ERR_OK =? ERR_OK) with true. cbn [negb]. unfold flash_area_erase_operation. fold (flash b) in Hr. rewrite Hr. cbn [negb].
  destruct (erase_law (dev (flash b)) a (Z.of_nat (length (rest p)))) as (f & E & Hl & Hb & Hk); [lia|rewrite Hid; lia|].
  rewrite E. change (ERR_OK =? ERR_OK) with true. cbn [negb]. rewrite Nat2Z.id in Hb |- *. rewrite Hid in *.
  set (b1 := set_flash b (mk_flash true f)).
  destruct (receive_ok hook rest Hg Hsrc (S (length (rest p))) b1 a p [] (Z.of_nat (length (rest p)))
    (drop (length (rest p)) (content f target))) as (f' & E' & Hr' & Hc' & Hk'); [done|done| |lia|].
  { rewrite Hid. cbn [app flash set_flash set_persist persist backend b1 dev]. rewrite <- Hb. symmetry. apply take_drop. }
  change (Z.of_nat (length (@nil Z))) with 0 in E'. rewrite E'. rewrite Hid, app_nil_l in *.
  assert (∀ id, id ≠ target -> content (dev f') id = content (dev (flash b)) id) as Hkk by (intros id Hi; rewrite Hk', <- (Hk id) by done; done).
  eexists. split; [done|]. split.
  { destruct Hco as [Hreg Hd]. split; [|done]. eapply register_same; [exact Hreg|done|done|].
    apply Hkk. apply not_eq_sym, inactive_not_state. }
  split; [done|]. split; [done|]. split; [done|].
  change (content (dev (flash (set_size (set_flash b1 f') (Z.of_nat (length (rest p)))))) ?i) with (content (dev f') i).
  split; [|split; [by rewrite Hc', take_app_length|exact Hkk]].
  rewrite Hc', length_app, length_drop, <- Hl. rewrite Hl. lia.
Qed.
(** ** Activation *)

(** The verdict on some bytes, parsing included. *)
Definition image_verdict (cfg : image_read_cfg) (img : list Z) : Z :=
  match image_parse (Some img) true with
  | (_, Some v) => verdict crypto cfg (parts_of img v)
  | (rc, None) => rc
  end.

Definition slot_ok (s : key_slot) : Prop :=
  s_key_len s = 0 \/ (s_key_len s ∈ [16; 24; 32] /\ length (s_key s) = 32%nat).

(** The keys an activation verifies with. *)
Definition start_cfg b : image_read_cfg :=
  let '(k, klen) := if crypto then boot_key_get (keys b) else (None, 0) in mk_cfg k klen None 0.

Lemma start_cfg_ok b : slot_ok (keys b) -> cfg_ok (start_cfg b).
Proof.
  intros Hs. unfold start_cfg, boot_key_get. destruct crypto; [|by split]. destruct (Z.eqb_spec (s_key_len (keys b)) 0) as [|Hne]; [by split|].
  destruct Hs as [|[Hin Hl]]; [done|]. split; [|done]. cbn. intros k [= <-]. rewrite length_take, Hl.
  rewrite !elem_of_cons in Hin. destruct Hin as [->|[->|[->|[]%not_elem_of_nil]]]; (split; [done|]); rewrite !elem_of_cons; tauto.
Qed.

Lemma reads_area b a n :
  s_flash_ops (flash b) = true -> (n <= length (content (dev (flash b)) (fa_id a)))%nat ->
  reads (take n (content (dev (flash b)) (fa_id a))) (flash_image_read_fn (flash b) (Some a)).
Proof.
  intros Hr Hn off len Ho Hl Hb. rewrite length_take in Hb. unfold flash_image_read_fn, flash_area_read_operation. rewrite Hr. cbn [negb].
  rewrite read_law by lia. f_equal. unfold slice.
  replace (Z.to_nat len) with (Z.to_nat len `min` (n - Z.to_nat off))%nat at 1 by lia.
  rewrite <- take_take. f_equal. rewrite take_drop_commute. do 2 f_equal. lia.
Qed.

Lemma verify_area_spec b a n cfg c :
  s_flash_ops (flash b) = true -> (n <= length (content (dev (flash b)) (fa_id a)))%nat -> cfg_ok cfg -> cache_ok c ->
  verify_area crypto (flash b) (Some a) (Z.of_nat n) cfg c = image_verdict cfg (take n (content (dev (flash b)) (fa_id a))).
Proof.
  intros Hr Hn Hcfg Hc. unfold verify_area, image_verdict. set (img := take n _).
  assert (length img = n) as Hl by (subst img; rewrite length_take; lia).
  pose proof (content_small (dev (flash b)) (fa_id a)). rewrite <- Hl at 1.
  rewrite (verify_stream_whole crypto img _ MINI_BOOT_LOAD_MAX cfg c); try done.
  - by destruct (image_parse (Some img) true) as [rc [v|]].
  - apply Forall_take, content_u8.
  - lia.
  - by apply reads_area.
  - by exists 32.
Qed.
Definition with_fail (d : durable) : durable := mk_durable (d_current d) (d_pending d) (d_trial d) true true.

Lemma fail_ok b v code rc : code = OTA_FAIL_VERIFY -> coherent b v ->
  ∃ b' v', fail b code rc = (rc, b') /\ coherent b' v' /\ same_images b b' /\ keys b' = keys b /\
    durable_of (default 0 v') = with_fail (durable_of (default 0 v)).
Proof.
  intros -> Hco. unfold fail, ota_fail_set.
  destruct (state_update_ok b v OTA_STATE_FAIL_MASK (ota_state_fail_encode OTA_FAIL_VERIFY) Hco) as (b' & -> & Hco' & _ & Hs & _ & Hk).
  eexists _, _. split; [done|]. split; [done|]. split; [done|]. split; [done|]. rewrite durable_update, durable_masked. const_bits. done.
Qed.

Definition rollback_on b : bool := Z.testbit (s_ota_state b) 2.

Lemma rollback_get b : negb (ota_is_rollback b =? 0) = rollback_on b.
Proof. unfold ota_is_rollback. rewrite bit_get_testbit, u8_b2z by done. unfold rollback_on, OTA_STATE_BIT_ROLLBACK. by destruct (Z.testbit _ 2). Qed.

(** What an activation does. *)
Lemma start_ota_ok b v c :
  coherent b v -> opened b -> slot_ok (keys b) -> cache_ok c ->
  let target := flash_inactive_area_id dual b in
  0 < s_downloaded_size b -> s_downloaded_size b <= Z.of_nat (length (content (dev (flash b)) target)) ->
  let rc := image_verdict (start_cfg b) (take (Z.to_nat (s_downloaded_size b)) (content (dev (flash b)) target)) in
  ∃ b' v', mini_boot_start_ota dual crypto b c = (rc, b') /\ coherent b' v' /\ same_images b b' /\
    (crypto = true -> keys b' = mk_slot zero_key 0) /\
    durable_of (default 0 v') =
      if rc =? ERR_OK then mk_durable (target =? FLASH_AREA_ID_IMAGE_1) (dual && rollback_on b) false false false
      else with_fail (durable_of (default 0 v)).
Proof.
  intros Hco Ho Hs Hc target Hpos Hfit rc. unfold mini_boot_start_ota. rewrite opened_get by done.
  rewrite (proj2 (Z.eqb_neq (s_downloaded_size b) 0)) by lia. fold target.
  pose proof (register_flash _ _ (proj1 Hco)) as Hr. destruct (open_area b target Hr) as (a & -> & Hid & Hsz).
  change (ERR_OK =? ERR_OK) with true. cbn [negb].
  pose proof (verify_area_spec b a (Z.to_nat (s_downloaded_size b)) (start_cfg b) c Hr ltac:(rewrite Hid; lia) (start_cfg_ok b Hs) Hc) as Hv.
  rewrite Hid, Z2Nat.id in Hv by lia. fold rc in Hv. unfold start_cfg in Hv.
  destruct (if crypto then boot_key_get (keys b) else (None, 0)) as [k klen]. rewrite Hv.
  set (b1 := if crypto then set_keys b (boot_key_wipe (keys b)) else b).
  assert (coherent b1 v) as Hco1 by (unfold b1; by destruct crypto).
  assert (flash b1 = flash b) as Hfl by (unfold b1; by destruct crypto).
  assert (s_ota_state b1 = s_ota_state b) as Hw by (unfold b1; by destruct crypto).
  assert (crypto = true -> keys b1 = mk_slot zero_key 0) as Hk1 by (intros ->; done).
  destruct (Z.eqb_spec rc ERR_OK) as [Erc|Hne]; cbn [negb].
  - assert (flash_inactive_area_id dual b1 = target) as -> by (unfold target, flash_inactive_area_id, ota_current_partition_get; by rewrite Hw).
    rewrite rollback_get. unfold rollback_on. rewrite Hw. unfold ota_is_double.
    set (value := if dual && _ then _ else _).
    destruct (state_update_ok b1 v activation_mask value Hco1) as (b' & -> & Hco' & _ & Hs' & _ & Hk'). change (ERR_OK =? ERR_OK) with true.
    rewrite andb_false_r. eexists _, _. rewrite Erc. split; [done|]. split; [done|].
    split; [intros id Hi; by rewrite Hs', Hfl|]. split; [intros Hcr; by rewrite Hk', Hk1|].
    rewrite durable_update, durable_masked. subst value.
    destruct dual, (Z.testbit (s_ota_state b) 2), (target =? FLASH_AREA_ID_IMAGE_1); reflexivity.
  - destruct (fail_ok b1 v OTA_FAIL_VERIFY rc eq_refl Hco1) as (b' & v' & -> & Hco' & Hs' & Hk' & Hd').
    exists b', v'. split; [done|]. split; [done|]. split; [intros id Hi; by rewrite Hs', Hfl|].
    split; [intros Hcr; by rewrite Hk', Hk1|done].
Qed.

(** activation follows verification.  [mini_boot_start_ota] returns the verdict on exactly the
    downloaded bytes of the inactive partition.  On success the persistent state selects that
    partition, awaits confirmation if rollback is on, and is clear of old trials and
    failures; otherwise it selects what it did and records the failure.  The image areas are
    untouched and the key is gone from the slot either way. *)
Theorem start_ota_activates_verified b v c :
  coherent b v -> opened b -> slot_ok (keys b) -> cache_ok c ->
  let target := flash_inactive_area_id dual b in
  0 < s_downloaded_size b -> s_downloaded_size b <= Z.of_nat (length (content (dev (flash b)) target)) ->
  let rc := image_verdict (start_cfg b) (take (Z.to_nat (s_downloaded_size b)) (content (dev (flash b)) target)) in
  ∃ b' v', mini_boot_start_ota dual crypto b c = (rc, b') /\ coherent b' v' /\ same_images b b' /\
    (crypto = true -> keys b' = mk_slot zero_key 0) /\
    durable_of (default 0 v') =
      if rc =? ERR_OK then mk_durable (target =? FLASH_AREA_ID_IMAGE_1) (dual && rollback_on b) false false false
      else with_fail (durable_of (default 0 v)).
Proof. exact (start_ota_ok b v c). Qed.
Definition area_of (current : bool) : Z := if current then FLASH_AREA_ID_IMAGE_1 else FLASH_AREA_ID_IMAGE_0.

Lemma inactive_dual b : dual = true -> flash_inactive_area_id dual b = area_of (negb (d_current (durable_of (s_ota_state b)))).
Proof. intros ->. unfold flash_inactive_area_id, ota_is_double. rewrite current_get. by destruct (d_current _). Qed.

(** C7: an update, end to end.  With two partitions, rollback on and a hook that delivers an image
    that verifies, in whatever pieces, the download and the activation succeed; the next
    start selects the partition that now begins with that image; and if the image does not
    confirm itself, the start after that selects the partition that was running, whose
    content no step of the update has touched. *)
Theorem ota_end_to_end {P} (hook : down_load_hook P) (rest : P -> list Z) b v p c :
  dual = true -> gives hook rest -> (∀ p, Forall is_u8 (rest p)) ->
  coherent b v -> opened b -> rollback_on b = true -> slot_ok (keys b) -> cache_ok c ->
  let old := area_of (d_current (durable_of (s_ota_state b))) in
  let new := area_of (negb (d_current (durable_of (s_ota_state b)))) in
  rest p ≠ [] -> (length (rest p) <= length (content (dev (flash b)) new))%nat ->
  image_verdict (start_cfg b) (rest p) = ERR_OK ->
  ∃ b1 b2 b3 b4,
    mini_boot_source_download_stream dual b (Some hook) p (Z.of_nat (length (rest p))) = (ERR_OK, b1) /\
    mini_boot_start_ota dual crypto b1 c = (ERR_OK, b2) /\
    start b2 = (Z.b2z (negb (d_current (durable_of (s_ota_state b)))), b3) /\
    take (length (rest p)) (content (dev (flash b3)) new) = rest p /\
    start b3 = (Z.b2z (d_current (durable_of (s_ota_state b))), b4) /\
    content (dev (flash b4)) old = content (dev (flash b)) old.
Proof.
  intros Hdual Hg Hsrc Hco Ho Hrb Hs Hc old new Hne Hfit Hver. set (cur := d_current (durable_of (s_ota_state b))) in *.
  pose proof (inactive_dual b Hdual) as Hin. fold cur new in Hin.
  destruct (download_ok hook rest b v p Hg Hsrc Hco Ho Hne) as (b1 & E1 & Hco1 & Hw1 & Hk1 & Hn1 & Hl1 & Ht1 & Hkeep1); [by rewrite Hin|].
  rewrite Hin in *. assert (flash_inactive_area_id dual b1 = new) as Hin1 by (rewrite (inactive_dual b1 Hdual), Hw1; done).
  assert (0 < Z.of_nat (length (rest p))) by (destruct (rest p); [done|cbn [length]; lia]).
  destruct (start_ota_ok b1 v c Hco1) as (b2 & v2 & E2 & Hco2 & Hs2 & _ & Hd2); rewrite ?Hn1, ?Hin1, ?Hk1; try done; [by unfold opened; rewrite Hw1|lia|].
  rewrite Hn1, Hin1, Nat2Z.id, Ht1 in E2, Hd2.
  assert (start_cfg b1 = start_cfg b) as Hcfg by (unfold start_cfg; by rewrite Hk1). rewrite Hcfg, Hver in E2, Hd2.
  unfold rollback_on in Hd2, Hrb. rewrite Hw1, Hrb, Hdual in Hd2. change (ERR_OK =? ERR_OK) with true in Hd2.
  assert ((new =? FLASH_AREA_ID_IMAGE_1) = negb cur) as Hnew by (unfold new; by destruct cur). rewrite Hnew in Hd2.
  destruct (start_ok b2 v2 (proj1 Hco2)) as (b3 & v3 & E3 & Hco3 & Hd3 & Hs3). rewrite Hd2 in E3, Hd3.
  destruct (start_ok b3 v3 (proj1 Hco3)) as (b4 & v4 & E4 & Hco4 & Hd4 & Hs4). rewrite Hd3 in E4.
  assert (∀ x, area_of x ≠ FLASH_AREA_ID_STATE) as Hst by (by intros []).
  exists b1, b2, b3, b4. split; [exact E1|]. split; [exact E2|]. split; [exact E3|].
  split; [by rewrite Hs3, Hs2 by apply Hst|]. split; [rewrite E4; cbn; by rewrite negb_involutive|].
  rewrite Hs4, Hs3, Hs2 by apply Hst. apply Hkeep1. unfold old, new. by destruct cur.
Qed.

(** an activation that fails to persist leaves the wrong partition exposed.  When the state
    cannot be stored, the activation of a good image reports the error, but the run-time word
    has already been switched: the next download will erase the partition that is running. *)
Theorem failed_activation_exposes_running b c a rc p' :
  dual = true -> opened b -> s_downloaded_size b ≠ 0 ->
  flash_area_open (flash b) (flash_inactive_area_id dual b) = (ERR_OK, Some a) ->
  verify_area crypto (flash b) (Some a) (s_downloaded_size b) (start_cfg b) c = ERR_OK ->
  (∀ value, ota_state_update (persist b) activation_mask value = (rc, p')) -> rc ≠ ERR_OK ->
  ∃ b', mini_boot_start_ota dual crypto b c = (rc, b') /\ flash_inactive_area_id dual b' = flash_active_area_id b.
Proof.
  intros Hdual Ho Hn Eop Hv Hst Hrc. unfold mini_boot_start_ota. rewrite opened_get by done.
  rewrite (proj2 (Z.eqb_neq (s_downloaded_size b) 0)) by done. rewrite Eop. change (ERR_OK =? ERR_OK) with true. cbn [negb].
  unfold start_cfg in Hv. destruct (if crypto then boot_key_get (keys b) else (None, 0)) as [k klen]. rewrite Hv.
  change (ERR_OK =? ERR_OK) with true. cbn [negb]. set (b1 := if crypto then set_keys b (boot_key_wipe (keys b)) else b).
  assert (s_ota_state b1 = s_ota_state b /\ persist b1 = persist b) as [Hw Hp] by (unfold b1; by destruct crypto).
  set (value := if _ && _ then _ else _). unfold state_update. cbn [persist set_word]. rewrite Hp, Hst.
  rewrite (proj2 (Z.eqb_neq rc ERR_OK)) by done. assert (ota_is_double dual && negb false = true) as -> by (by rewrite Hdual). eexists. split; [done|].
  rewrite inactive_dual by done. unfold flash_active_area_id. rewrite current_get. cbn [s_ota_state set_persist set_word].
  fold (masked (s_ota_state b1) activation_mask value). rewrite durable_masked. cbn [d_current].
  change (Z.testbit activation_mask 6) with true. cbv iota.
  assert (Z.testbit value 6 = negb (d_current (durable_of (s_ota_state b)))) as ->; [|by destruct (d_current _)].
  subst value. rewrite (inactive_dual b1 Hdual), Hw. destruct (d_current (durable_of (s_ota_state b))), (_ && _); done.
Qed.

(** nothing unchecked is jumped to.  [boot_jump_switch_app] jumps only to the two words of a vector
    table on a 128-byte boundary: to a stack pointer that is aligned and in RAM and to a Thumb
    entry point inside the partition; and, if the caller gave the length of the image, only
    when that image verifies.  Interrupts are off before the vector table is switched, and
    the jump is the last action. *)
Theorem jump_is_checked SRAM_START SRAM_SIZE mem b c app acts :
  boot_jump_switch_app crypto SRAM_START SRAM_SIZE mem b c app = inr acts ->
  let sp := mem (initial_addr app) in
  let pc := mem (initial_addr app + 4) in
  acts = [irq_disable; set_systick 0 0; clear_nvic; set_vtor (initial_addr app); psp_to_msp; set_psp 0; dsb; isb; jump_to_app sp pc] /\
  initial_addr app ≠ 0 /\ Z.land (initial_addr app) 127 = 0 /\
  SRAM_START <= sp <= u32 (SRAM_START + SRAM_SIZE) /\ Z.land sp 3 = 0 /\
  initial_addr app <= pc < u32 (initial_addr app + app_size app) /\ Z.testbit pc 0 = true /\
  (image_len app ≠ 0 ->
     mini_boot_backup crypto b (Some (mk_backup (app_fa_id app) (image_len app) (start_cfg b))) c = ERR_OK).
Proof.
  unfold boot_jump_switch_app. set (sp := mem (initial_addr app)). set (pc := mem (initial_addr app + 4)).
  destruct (Z.eqb_spec (initial_addr app) 0) as [|Ha]; [done|]. destruct (Z.eqb_spec (Z.land (initial_addr app) 127) 0) as [Hal|]; [|done].
  cbn [orb negb]. rewrite !Z.gtb_ltb, Z.geb_leb.
  destruct (Z.ltb_spec sp SRAM_START) as [|Hlo]; [done|]. destruct (Z.ltb_spec (u32 (SRAM_START + SRAM_SIZE)) sp) as [|Hhi]; [done|].
  destruct (Z.eqb_spec (Z.land sp 3) 0) as [Hsa|]; [|done]. cbn [orb negb].
  destruct (Z.ltb_spec pc (initial_addr app)) as [|Hpl]; [done|]. destruct (Z.leb_spec (u32 (initial_addr app + app_size app)) pc) as [|Hph]; [done|].
  destruct (Z.eqb_spec (Z.land pc 1) 0) as [|Hth]; [done|]. cbn [orb].
  assert (Z.testbit pc 0 = true) as Hbit by (rewrite land_1_bit in Hth; by destruct (Z.testbit pc 0)).
  unfold start_cfg. destruct (if crypto then boot_key_get (keys b) else (None, 0)) as [k klen].
  destruct (Z.eqb_spec (image_len app) 0) as [E|Hne]; cbn [negb].
  - change (ERR_OK =? ERR_OK) with true. cbn [negb]. intros [= <-]. by split_and!.
  - destruct (Z.eqb_spec (mini_boot_backup crypto b (Some (mk_backup (app_fa_id app) (image_len app) (mk_cfg k klen None 0))) c) ERR_OK) as [Eb|];
      cbn [negb]; [|done]. intros [= <-]. by split_and!.
Qed.
End flow.

(** ** A device *)

Definition no_slot : key_slot := mk_slot zero_key 0.

Lemma trial_boot_once_witness :
  let b := mk_boot 0 0 no_slot (ram_log [rec0; rec_active] 8) in
  (start b).1 = 1 /\ (starts 3 (start b).2).1 = [0; 0; 0] /\ (starts 3 (mini_boot_confirm_ota (start b).2).2).1 = [1; 1; 1].
Proof.
  pose proof (trial_boot_once (mk_boot 0 0 no_slot (ram_log [rec0; rec_active] 8)) _ 2 ram_log_register
    ltac:(reflexivity) ltac:(reflexivity)) as Ht. cbv zeta in Ht |- *.
  destruct (start _) as [first b1]. destruct Ht as (-> & H1 & H2). cbn [fst snd].
  destruct (starts 3 b1) as [l1 b2]. destruct (mini_boot_confirm_ota b1) as [rc b3]. cbn [snd].
  destruct (starts 3 b3) as [l2 b4]. destruct H1 as (-> & _), H2 as (_ & -> & _). repeat split.
Defined.

(** A hook that gives at most seven bytes at a time. *)
Definition seven_hook : down_load_hook (list Z) := fun p want =>
  let raw := Z.min want 7 in (ERR_OK, raw, u8 <$> take (Z.to_nat raw) p, drop (Z.to_nat raw) p).
Definition seven_rest (p : list Z) : list Z := u8 <$> p.

Lemma seven_gives : gives seven_hook seven_rest.
Proof.
  intros p want Hw Hl. unfold seven_rest in *. rewrite length_fmap in Hl. eexists _, _, _. split; [done|]. split; [lia|].
  split; [by rewrite fmap_take, take_take, Nat.min_id|]. split; [rewrite length_fmap, length_take; lia|]. by rewrite fmap_drop.
Qed.

Lemma seven_u8 p : Forall is_u8 (seven_rest p).
Proof. apply list.Forall_fmap, list.Forall_forall. intros x _. apply u8_range. Qed.

(** Two areas of 32 bytes, the first running, and a state sector with one record; updating and
    rollback are on. *)
Definition demo_boot : boot ram_flash := mk_boot 5 0 no_slot (ram_log [rec0] 24).

Lemma demo_coherent : coherent demo_boot (Some 0).
Proof.
  split; [|reflexivity]. split; [reflexivity|]. split; [vm_compute; lia|]. exists [rec0]. split; [|reflexivity].
  split; [reflexivity|]. split; [apply list.Forall_singleton, record_build_good; lia|].
  exists (blank 24). split; [vm_compute; reflexivity|]. exists [], 24%nat. split; [reflexivity|by left].
Qed.

Lemma ota_end_to_end_witness :
  ∃ b1 b2 b3 b4,
    mini_boot_source_download_stream true demo_boot (Some seven_hook) (build_image crc_parts) 18 = (ERR_OK, b1) /\
    mini_boot_start_ota true false b1 cache_zero = (ERR_OK, b2) /\ start b2 = (1, b3) /\
    take 18 (content (dev (flash b3)) FLASH_AREA_ID_IMAGE_1) = build_image crc_parts /\ start b3 = (0, b4).
Proof.
  destruct (ota_end_to_end true false seven_hook seven_rest demo_boot (Some 0) (build_image crc_parts) cache_zero)
    as (b1 & b2 & b3 & b4 & E1 & E2 & E3 & E4 & E5 & _).
  - reflexivity.
  - apply seven_gives.
  - apply seven_u8.
  - apply demo_coherent.
  - reflexivity.
  - reflexivity.
  - left. reflexivity.
  - apply cache_zero_ok.
  - discriminate.
  - vm_compute. lia.
  - vm_compute. reflexivity.
  - exists b1, b2, b3, b4. split; [exact E1|]. split; [exact E2|]. split; [exact E3|]. split; [exact E4|exact E5].
Defined.

(** The device once an image of 18 bytes is in the second area. *)
Definition loaded_flash : ram_flash :=
  mk_ram (fun id => if id =? FLASH_AREA_ID_STATE then log_bytes [rec0] ++ blank 24
                    else if id =? FLASH_AREA_ID_IMAGE_1 then build_image crc_parts ++ blank 14 else blank 32).
Definition loaded_boot (registered : bool) : boot ram_flash :=
  mk_boot 5 18 no_slot (mk_state registered (mk_flash true loaded_flash)).

Lemma loaded_coherent : coherent (loaded_boot true) (Some 0).
Proof.
  split; [|reflexivity]. split; [reflexivity|]. split; [vm_compute; lia|]. exists [rec0]. split; [|reflexivity].
  split; [reflexivity|]. split; [apply list.Forall_singleton, record_build_good; lia|].
  exists (blank 24). split; [vm_compute; reflexivity|]. exists [], 24%nat. split; [reflexivity|by left].
Qed.

Lemma start_ota_activates_verified_witness :
  ∃ b' v', mini_boot_start_ota true true (loaded_boot true) cache_zero = (ERR_OK, b') /\ coherent b' v' /\
    durable_of (default 0 v') = mk_durable true true false false false.
Proof.
  destruct (start_ota_activates_verified true true (loaded_boot true) (Some 0) cache_zero) as (b' & v' & E & Hco & _ & _ & Hd).
  - apply loaded_coherent.
  - reflexivity.
  - left. reflexivity.
  - apply cache_zero_ok.
  - reflexivity.
  - vm_compute. discriminate.
  - exists b', v'. split; [|split; [exact Hco|]].
    + rewrite E. f_equal.
    + rewrite Hd. reflexivity.
Defined.

(** The state backend is not registered. *)
Lemma failed_activation_exposes_running_witness :
  ∃ b', mini_boot_start_ota true false (loaded_boot false) cache_zero = (ERR_NOT_SUPPORTED, b') /\
    flash_inactive_area_id true b' = FLASH_AREA_ID_IMAGE_0 /\ flash_active_area_id (loaded_boot false) = FLASH_AREA_ID_IMAGE_0.
Proof.
  destruct (failed_activation_exposes_running true false (loaded_boot false) cache_zero (mk_area 1 0 0 32) ERR_NOT_SUPPORTED
    (persist (loaded_boot false))) as (b' & E & Hi).
  - reflexivity.
  - reflexivity.
  - discriminate.
  - vm_compute. reflexivity.
  - vm_compute. reflexivity.
  - reflexivity.
  - discriminate.
  - exists b'. split; [exact E|]. split; [exact Hi|reflexivity].
Defined.

(** A vector table at 0x08020000 whose application verifies. *)
Lemma jump_is_checked_witness :
  let mem := fun a => if a =? 0x08020000 then 0x20020000 else 0x08020101 in
  let app := mk_app 0x08020000 0x20000 FLASH_AREA_ID_IMAGE_1 18 in
  boot_jump_switch_app false 0x20000000 0x20000 mem (loaded_boot true) cache_zero app =
    inr [irq_disable; set_systick 0 0; clear_nvic; set_vtor 0x08020000; psp_to_msp; set_psp 0; dsb; isb; jump_to_app 0x20020000 0x08020101] /\
  mini_boot_backup false (loaded_boot true) (Some (mk_backup FLASH_AREA_ID_IMAGE_1 18 (mk_cfg None 0 None 0))) cache_zero = ERR_OK.
Proof.
  intros mem app. assert (∃ acts, boot_jump_switch_app false 0x20000000 0x20000 mem (loaded_boot true) cache_zero app = inr acts) as [acts E]
    by (eexists; vm_compute; reflexivity).
  pose proof (jump_is_checked false 0x20000000 0x20000 mem (loaded_boot true) cache_zero app acts E) as Hj. cbv zeta in Hj.
  destruct Hj as (Ha & _ & _ & _ & _ & _ & _ & Hv). rewrite E, Ha. split; [reflexivity|]. apply Hv. discriminate.
Defined.
