(* ===== verification/Log.v ===== *)
(** * The logger

    Models src/mini-log/src/log.c and the inline functions of inc/log.h, with the defaults of
    inc/log_config.h.  The two rings are those of [FifoUni] with items of one byte, the frame
    CRC is a stream of [Crc].  The functions that a platform registers to reach its flash are
    the class [LogFlash].  Text arrives as [vsnprintf] formats it, in full; [None] as a result
    is an access outside an array.  [size_t] has 32 bits.  What holds is in [LogInv]. *)

From S2P Require Import Prelude Ring Fifo FifoUni Crc ConfigBlob.

#[local] Open Scope Z_scope.

Definition MINI_LOG_MAX_LEN : Z := 128.
Definition MINI_LOG_RING_SIZE : Z := 1024.
Definition MINI_LOG_FLASH_RING_SIZE : Z := 512.
Definition MINI_LOG_DEFAULT_ALIGIN : Z := 4.
Definition MINI_LOG_MAGIC : Z := 4.
Definition MINI_LOG_OK : Z := 0.
Definition MINI_LOG_ERR_PARAM : Z := -160.
Definition MINI_LOG_ERR_NOT_INIT : Z := -161.
Definition MINI_LOG_ERR_TOO_LONG : Z := -162.
Definition MINI_LOG_ERR_FLASH_OPEN : Z := -163.
Definition MINI_LOG_ERR_FLASH_ERASE : Z := -164.
Definition MINI_LOG_ERR_FLASH_WRITE : Z := -165.
Definition MINI_LOG_ERR_FLASH_READ : Z := -166.

(** The characters. *)
Definition newline : Z := 10.

(** [mini_log_flash_ops_t]: the functions that reach a flash partition. *)
Class LogFlash (F : Type) := {
  lf_open : F -> Z -> Z -> Z -> Z * F;
  lf_close : F -> F;
  lf_erase : F -> Z -> Z -> Z * F;
  lf_write : F -> Z -> list Z -> Z * F;
  lf_read : F -> Z -> Z -> Z * list Z
}.

Record mini_log_flash_info_t := mk_info { base_addr : Z; total_size : Z; sector_size : Z; write_gran : Z }.

(** [mini_log_frame_handle_check_t], packed. *)
Record frame_handle := mk_handle { h_magic : Z; h_len : Z; h_tick : Z; h_crc : Z }.
Definition handle_size : Z := 10.
(** The bytes up to the CRC, and all of them. *)
Definition handle_head (h : frame_handle) : list Z := le16 (h_magic h) ++ le16 (h_len h) ++ le32 (h_tick h).
Definition handle_bytes (h : frame_handle) : list Z := handle_head h ++ le16 (h_crc h).
Definition handle_of (b : list Z) : frame_handle :=
  let at_ i := default 0 (b !! i) in
  mk_handle (of_le16 (at_ 0%nat) (at_ 1%nat)) (of_le16 (at_ 2%nat) (at_ 3%nat))
            (of_le32 (at_ 4%nat) (at_ 5%nat) (at_ 6%nat) (at_ 7%nat)) (of_le16 (at_ 8%nat) (at_ 9%nat)).

(** What [vsnprintf] makes of a format and its arguments: a NULL format, an error, a text. *)
Inductive formatted := FmtNull | FmtError | FmtText (text : list Z).

Section logger.
Context {F : Type} `{LogFlash F}.

(** The static variables; the flash and what the console received belong to the platform. *)
Record logger := mk_logger {
  lg_ring : fifo_uni_spsc;
  lg_console : list Z;
  flash_ring : fifo_uni_spsc;
  flash_frame_buf : list Z;
  flash_line_buf : list Z;
  flash_line_len : Z;
  flash_resync : bool;
  lg_dev : F;
  lg_info : mini_log_flash_info_t;
  write_offset : Z;
  is_initialized : bool;
  lg_crc : crc_cache
}.
Definition lg_set_ring (s : logger) (v : fifo_uni_spsc) : logger := mk_logger v (lg_console s) (flash_ring s) (flash_frame_buf s) (flash_line_buf s) (flash_line_len s) (flash_resync s) (lg_dev s) (lg_info s) (write_offset s) (is_initialized s) (lg_crc s).
Definition lg_set_console (s : logger) (v : list Z) : logger := mk_logger (lg_ring s) v (flash_ring s) (flash_frame_buf s) (flash_line_buf s) (flash_line_len s) (flash_resync s) (lg_dev s) (lg_info s) (write_offset s) (is_initialized s) (lg_crc s).
Definition lg_set_flash_ring (s : logger) (v : fifo_uni_spsc) : logger := mk_logger (lg_ring s) (lg_console s) v (flash_frame_buf s) (flash_line_buf s) (flash_line_len s) (flash_resync s) (lg_dev s) (lg_info s) (write_offset s) (is_initialized s) (lg_crc s).
Definition lg_set_frame (s : logger) (v : list Z) : logger := mk_logger (lg_ring s) (lg_console s) (flash_ring s) v (flash_line_buf s) (flash_line_len s) (flash_resync s) (lg_dev s) (lg_info s) (write_offset s) (is_initialized s) (lg_crc s).
Definition lg_set_line (s : logger) (b : list Z) (v : Z) : logger := mk_logger (lg_ring s) (lg_console s) (flash_ring s) (flash_frame_buf s) b v (flash_resync s) (lg_dev s) (lg_info s) (write_offset s) (is_initialized s) (lg_crc s).
Definition lg_set_resync (s : logger) (v : bool) : logger := mk_logger (lg_ring s) (lg_console s) (flash_ring s) (flash_frame_buf s) (flash_line_buf s) (flash_line_len s) v (lg_dev s) (lg_info s) (write_offset s) (is_initialized s) (lg_crc s).
Definition lg_set_dev (s : logger) (v : F) : logger := mk_logger (lg_ring s) (lg_console s) (flash_ring s) (flash_frame_buf s) (flash_line_buf s) (flash_line_len s) (flash_resync s) v (lg_info s) (write_offset s) (is_initialized s) (lg_crc s).
Definition lg_set_info (s : logger) (v : mini_log_flash_info_t) : logger := mk_logger (lg_ring s) (lg_console s) (flash_ring s) (flash_frame_buf s) (flash_line_buf s) (flash_line_len s) (flash_resync s) (lg_dev s) v (write_offset s) (is_initialized s) (lg_crc s).
Definition lg_set_offset (s : logger) (v : Z) : logger := mk_logger (lg_ring s) (lg_console s) (flash_ring s) (flash_frame_buf s) (flash_line_buf s) (flash_line_len s) (flash_resync s) (lg_dev s) (lg_info s) v (is_initialized s) (lg_crc s).
Definition lg_set_init (s : logger) (v : bool) : logger := mk_logger (lg_ring s) (lg_console s) (flash_ring s) (flash_frame_buf s) (flash_line_buf s) (flash_line_len s) (flash_resync s) (lg_dev s) (lg_info s) (write_offset s) v (lg_crc s).
Definition lg_set_crc (s : logger) (v : crc_cache) : logger := mk_logger (lg_ring s) (lg_console s) (flash_ring s) (flash_frame_buf s) (flash_line_buf s) (flash_line_len s) (flash_resync s) (lg_dev s) (lg_info s) (write_offset s) (is_initialized s) v.

(** The static initialisers, over a platform's flash. *)
Definition static_ring (size : Z) : fifo_uni_spsc := mk_uni (replicate (Z.to_nat size) 0) size 1 (size - 1) 0 0.
Definition logger_zero (dev : F) : logger :=
  mk_logger (static_ring MINI_LOG_RING_SIZE) [] (static_ring MINI_LOG_FLASH_RING_SIZE)
    (replicate (Z.to_nat MINI_LOG_FLASH_RING_SIZE) 0) (replicate (Z.to_nat MINI_LOG_MAX_LEN) 0) 0 false
    dev (mk_info 0 0 0 0) 0 false (mk_cache (replicate 256 0) 0 0 false false).

(** ** Time *)

(** [now] is what the registered callback returns, if one is registered. *)
Definition mini_log_get_tick (now : option Z) : Z := match now with Some t => t | None => -1 end.
Definition mini_log_tick_value (now : option Z) : Z :=
  let t := mini_log_get_tick now in if t <? 0 then 0 else u32 t.

(** ** The console *)

Context (AUTO_FLUSH FLASH_AUTO_FLUSH CRC_MODE : bool).

(** The output callback, or the standard output, receives the bytes. *)
Fixpoint console_loop (fuel : nat) (s : logger) : option logger :=
  match fuel with
  | O => None
  | S fuel =>
      '(_, ring, chunk, got) ← fifo_uni_read_block (Some (lg_ring s)) (Some (replicate 128 0)) 128 (Some 0);
      ring ← ring; chunk ← chunk; n ← got;
      if n =? 0 then Some s else
      console_loop fuel (lg_set_console (lg_set_ring s ring) (lg_console s ++ take (Z.to_nat n) chunk))
  end.
Definition mini_log_flush (s : logger) : option logger := console_loop (S (Z.to_nat MINI_LOG_RING_SIZE)) s.

(** [fmt] and its length, after [vsnprintf]; [None] where the call returns. *)
Definition format_line (str : formatted) : option (list Z * Z) :=
  match str with
  | FmtNull | FmtError => None
  | FmtText text =>
      let n := Z.of_nat (length text) in
      if n <=? 0 then None else
      Some (take (Z.to_nat MINI_LOG_MAX_LEN) (take (Z.to_nat (MINI_LOG_MAX_LEN - 1)) text ++ replicate (Z.to_nat MINI_LOG_MAX_LEN) 0),
            if n <? MINI_LOG_MAX_LEN then u16 n else u16 (MINI_LOG_MAX_LEN - 1))
  end.
(** A whole line or nothing into a ring. *)
Definition ring_put_line (ring : fifo_uni_spsc) (size : Z) (fmt : list Z) (len : Z) : option (bool * fifo_uni_spsc) :=
  used ← (fifo_uni_get_count (Some ring) (Some 0)).2;
  if u16 (size - used) <? len then Some (false, ring) else
  '(_, ring, _) ← fifo_uni_write_block (Some ring) (Some fmt) len (Some 0);
  ring ← ring; Some (true, ring).
Definition mini_log_default_output (s : logger) (str : formatted) : option logger :=
  match format_line str with
  | None => Some s
  | Some (fmt, len) =>
      '(wrote, ring) ← ring_put_line (lg_ring s) MINI_LOG_RING_SIZE fmt len;
      if negb wrote then Some s else
      let s := lg_set_ring s ring in
      if AUTO_FLUSH then mini_log_flush s else Some s
  end.

(** ** The flash *)

(** [ops]: whether all five functions are there; [None] is a NULL pointer. *)
Definition mini_log_flash_register_cxt (s : logger) (ops : option bool) (info : option mini_log_flash_info_t) : Z * logger :=
  let s := lg_set_resync (lg_set_init s false) false in
  match ops, info with
  | Some complete, Some info =>
      if negb complete then (MINI_LOG_ERR_PARAM, s) else
      if (total_size info =? 0) || (sector_size info =? 0) then (MINI_LOG_ERR_PARAM, s) else
      if negb (total_size info mod sector_size info =? 0) then (MINI_LOG_ERR_PARAM, s) else
      if negb (write_gran info =? 0) && negb (Z.land (write_gran info) (write_gran info - 1) =? 0) then (MINI_LOG_ERR_PARAM, s) else
      (MINI_LOG_OK, lg_set_init (lg_set_offset (lg_set_info s info) 0) true)
  | _, _ => (MINI_LOG_ERR_PARAM, s)
  end.

(** The partition opened for all its sectors. *)
Definition open_all (s : logger) : Z * logger :=
  let i := lg_info s in
  let '(r, dev) := lf_open (lg_dev s) (base_addr i) (sector_size i) (u16 (total_size i / sector_size i)) in (r, lg_set_dev s dev).
Definition close_ (s : logger) : logger := lg_set_dev s (lf_close (lg_dev s)).
Definition mini_log_flash_clean_all (s : logger) : Z * logger :=
  if negb (is_initialized s) then (MINI_LOG_ERR_NOT_INIT, s) else
  let '(r, s) := open_all s in
  if negb (r =? 0) then (MINI_LOG_ERR_FLASH_OPEN, s) else
  let '(ret, dev) := lf_erase (lg_dev s) 0 (total_size (lg_info s)) in
  let s := close_ (lg_set_dev s dev) in
  if negb (ret =? 0) then (MINI_LOG_ERR_FLASH_ERASE, s) else
  (MINI_LOG_OK, lg_set_resync (lg_set_offset s 0) false).

(** [MINI_LOG_FRAME_CRC_*] over the head of a frame and its payload. *)
Definition frame_crc (cache : crc_cache) (head data : list Z) : option (Z * crc_cache) :=
  let cs := crc_stream_start (Some (mk_stream 0 0 0 0 false false)) 65535 false false 0 4129 16 in
  '(cs, cache) ← crc_stream_feed CRC_MODE cs head cache;
  '(cs, cache) ← crc_stream_feed CRC_MODE cs data cache;
  Some (u16 (crc_stream_finish cs), cache).

Definition log_aligned (i : mini_log_flash_info_t) : Z := if write_gran i >? 0 then write_gran i else MINI_LOG_DEFAULT_ALIGIN.
Definition align_up (len aligned_len : Z) : Z := Z.land (u32 (len + (aligned_len - 1))) (u32 (Z.lnot (aligned_len - 1))).

(** [data] is the payload, [len] bytes of it; [now] as in [mini_log_get_tick]. *)
Definition mini_log_flash_write_record (s : logger) (now : option Z) (data : option (list Z)) (len : Z) : option (Z * logger) :=
  if negb (is_initialized s) then Some (MINI_LOG_ERR_NOT_INIT, s) else
  match data with
  | None => Some (MINI_LOG_ERR_PARAM, s)
  | Some data =>
      if len =? 0 then Some (MINI_LOG_ERR_PARAM, s) else
      let i := lg_info s in
      let total_len := u32 (handle_size + len) in
      let write_len := align_up total_len (log_aligned i) in
      if (write_len >? MINI_LOG_FLASH_RING_SIZE) || (write_len >? total_size i) then Some (MINI_LOG_ERR_TOO_LONG, s) else
      let s := if u32 (write_offset s + write_len) >? total_size i then lg_set_offset s 0 else s in
      let handle := mk_handle MINI_LOG_MAGIC (u16 len) (mini_log_tick_value now) 0 in
      payload ← mem_read data 0 len;
      '(crc, cache) ← frame_crc (lg_crc s) (handle_head handle) payload;
      let handle := mk_handle (h_magic handle) (h_len handle) (h_tick handle) crc in
      let frame := replicate (Z.to_nat MINI_LOG_FLASH_RING_SIZE) 255 in
      frame ← mem_write frame 0 (handle_bytes handle);
      frame ← mem_write frame handle_size payload;
      let s := lg_set_crc (lg_set_frame s frame) cache in
      let sector_size := sector_size i in
      let frame_end := u32 (write_offset s + write_len) in
      let erase_start := if write_offset s mod sector_size =? 0 then write_offset s
                         else u32 ((write_offset s / sector_size + 1) * sector_size) in
      let erase_end := u32 (u32 (frame_end + sector_size - 1) / sector_size * sector_size) in
      let '(r, s) := open_all s in
      if negb (r =? 0) then Some (MINI_LOG_ERR_FLASH_OPEN, s) else
      let '(r, dev) := if erase_end >? erase_start then lf_erase (lg_dev s) erase_start (erase_end - erase_start) else (0, lg_dev s) in
      let s := lg_set_dev s dev in
      if negb (r =? 0) then Some (MINI_LOG_ERR_FLASH_ERASE, close_ s) else
      out ← mem_read frame 0 write_len;
      let '(r, dev) := lf_write (lg_dev s) (write_offset s) out in
      let s := lg_set_dev s dev in
      if negb (r =? 0) then Some (MINI_LOG_ERR_FLASH_WRITE, close_ s) else
      let s := lg_set_offset s (u32 (write_offset s + write_len)) in
      let s := if (write_offset s <? total_size i) && (write_offset s mod sector_size =? 0)
               then lg_set_dev s (lf_erase (lg_dev s) (write_offset s) sector_size).2 else s in
      Some (MINI_LOG_OK, close_ s)
  end.

(** [mini_log_flash_flush] over a piece of the ring: [inl] is its early return. *)
Fixpoint flush_bytes (s : logger) (now : option Z) (chunk : list Z) : option (Z * logger + logger) :=
  match chunk with
  | [] => Some (inr s)
  | c :: chunk =>
      if flash_resync s then flush_bytes (if c =? newline then lg_set_resync s false else s) now chunk else
      b ← arr_set (flash_line_buf s) (flash_line_len s) c;
      let s := lg_set_line s b (flash_line_len s + 1) in
      if (c =? newline) || (flash_line_len s =? MINI_LOG_MAX_LEN) then
        '(ret, s) ← mini_log_flash_write_record s now (Some (flash_line_buf s)) (flash_line_len s);
        let s := lg_set_line s (flash_line_buf s) 0 in
        if negb (ret =? MINI_LOG_OK) then
          Some (inl (ret, if (ret =? MINI_LOG_ERR_FLASH_OPEN) || (ret =? MINI_LOG_ERR_FLASH_ERASE) || (ret =? MINI_LOG_ERR_FLASH_WRITE)
                          then lg_set_resync s true else s))
        else flush_bytes s now chunk
      else flush_bytes s now chunk
  end.
Fixpoint flush_loop (fuel : nat) (s : logger) (now : option Z) : option (Z * logger) :=
  match fuel with
  | O => None
  | S fuel =>
      '(_, ring, chunk, got) ← fifo_uni_read_block (Some (flash_ring s)) (Some (replicate 128 0)) 128 (Some 0);
      ring ← ring; chunk ← chunk; n ← got;
      if n =? 0 then Some (MINI_LOG_OK, s) else
      r ← flush_bytes (lg_set_flash_ring s ring) now (take (Z.to_nat n) chunk);
      match r with
      | inl r => Some r
      | inr s => flush_loop fuel s now
      end
  end.
Definition mini_log_flash_flush (s : logger) (now : option Z) : option (Z * logger) :=
  if negb (is_initialized s) then Some (MINI_LOG_ERR_NOT_INIT, s) else flush_loop (S (Z.to_nat MINI_LOG_FLASH_RING_SIZE)) s now.
Definition mini_log_flash_output (s : logger) (now : option Z) (str : formatted) : option logger :=
  match format_line str with
  | None => Some s
  | Some (fmt, len) =>
      last ← arr_get fmt (len - 1);
      fmt ← (if negb (last =? newline) then arr_set fmt (len - 1) newline else Some fmt);
      '(wrote, ring) ← ring_put_line (flash_ring s) MINI_LOG_FLASH_RING_SIZE fmt len;
      if negb wrote then Some s else
      let s := lg_set_flash_ring s ring in
      if FLASH_AUTO_FLUSH then snd <$> mini_log_flash_flush s now else Some s
  end.

(** ** Reading back *)

(** A read into [flash_frame_buf] at [at_]. *)
Definition read_frame (s : logger) (offset at_ len : Z) : option (Z * logger) :=
  let '(r, b) := lf_read (lg_dev s) offset len in
  if negb (r =? 0) then Some (r, s) else frame ← mem_write (flash_frame_buf s) at_ b; Some (0, lg_set_frame s frame).
Definition mini_log_read_from_flash (s : logger) (offset len : Z) : option (Z * logger) :=
  if negb (is_initialized s) then Some (MINI_LOG_ERR_NOT_INIT, s) else
  let i := lg_info s in
  if (len =? 0) || (offset >=? total_size i) then Some (MINI_LOG_ERR_PARAM, s) else
  let len := if len >? total_size i - offset then total_size i - offset else len in
  let len := if len >? MINI_LOG_FLASH_RING_SIZE then MINI_LOG_FLASH_RING_SIZE else len in
  let '(r, dev) := lf_open (lg_dev s) (base_addr i) (sector_size i) (u16 (u32 (offset + len + sector_size i - 1) / sector_size i)) in
  let s := lg_set_dev s dev in
  if negb (r =? 0) then Some (MINI_LOG_ERR_FLASH_OPEN, s) else
  '(ret, s) ← read_frame s offset 0 len;
  Some (if ret =? 0 then MINI_LOG_OK else MINI_LOG_ERR_FLASH_READ, close_ s).

Definition mini_log_frame_crc_ok (s : logger) (payload_len : Z) : option (bool * logger) :=
  hb ← mem_read (flash_frame_buf s) 0 handle_size;
  head ← mem_read (flash_frame_buf s) 0 8;
  payload ← mem_read (flash_frame_buf s) handle_size payload_len;
  '(crc, cache) ← frame_crc (lg_crc s) head payload;
  Some (crc =? h_crc (handle_of hb), lg_set_crc s cache).

(** The scan: the error, [offset], [frames] and [stopped_dirty] it ends with. *)
Fixpoint recover_loop (fuel : nat) (s : logger) (offset frames : Z) : option (Z * Z * Z * bool * logger) :=
  match fuel with
  | O => None
  | S fuel =>
      let i := lg_info s in
      if u32 (offset + handle_size) >? total_size i then Some (MINI_LOG_OK, offset, frames, false, s) else
      '(r, s) ← read_frame s offset 0 handle_size;
      if negb (r =? 0) then Some (MINI_LOG_ERR_FLASH_READ, offset, frames, false, s) else
      hb ← mem_read (flash_frame_buf s) 0 handle_size;
      let h := handle_of hb in
      if negb (h_magic h =? MINI_LOG_MAGIC)
      then Some (MINI_LOG_OK, offset, frames, negb (forallb (λ x, x =? 255) hb), s) else
      if h_len h =? 0 then Some (MINI_LOG_OK, offset, frames, true, s) else
      let total := handle_size + h_len h in
      if (total >? MINI_LOG_FLASH_RING_SIZE) || (u32 (offset + total) >? total_size i) then Some (MINI_LOG_OK, offset, frames, true, s) else
      '(r, s) ← read_frame s (offset + handle_size) handle_size (h_len h);
      if negb (r =? 0) then Some (MINI_LOG_ERR_FLASH_READ, offset, frames, false, s) else
      '(ok, s) ← mini_log_frame_crc_ok s (h_len h);
      if negb ok then Some (MINI_LOG_OK, offset, frames, true, s) else
      recover_loop fuel s (u32 (offset + align_up total (log_aligned i))) (u32 (frames + 1))
  end.
(** [out_frames] comes second. *)
Definition mini_log_flash_recover (s : logger) : option (Z * Z * logger) :=
  if negb (is_initialized s) then Some (MINI_LOG_ERR_NOT_INIT, 0, s) else
  let i := lg_info s in
  let '(r, s) := open_all s in
  if negb (r =? 0) then Some (MINI_LOG_ERR_FLASH_OPEN, 0, s) else
  '(err, offset, frames, stopped_dirty, s) ← recover_loop (S (Z.to_nat (total_size i))) s 0 0;
  let s := close_ s in
  let s := if err =? MINI_LOG_OK then
             let offset := if stopped_dirty : bool then u32 (u32 (offset + sector_size i - 1) / sector_size i * sector_size i) else offset in
             lg_set_offset s (if offset >? total_size i then 0 else offset)
           else s in
  Some (err, frames, s).
End logger.
Arguments logger : clear implicits.
