(* ===== verification/LogInv.v ===== *)
(** * What the logger guarantees

    [log_recovers]: on a working flash ([LogFlashLaws]) every record is written as a frame of
    its own, and a scan after a restart finds all frames since the log last began again at the
    start of the partition, and the place to go on.  [log_lines_recorded]: each line that the
    logger accepted becomes one record, in order.  The findings at the end: records behind a
    gap are lost at the next restart, lines are lost around a failure of the flash, and a
    record written over the remains of a failed write is unreadable. *)

From S2P Require Import Prelude Ring Fifo FifoUni Crc ConfigBlob Log.

#[local] Open Scope Z_scope.

Definition blank (n : nat) : list Z := replicate n 255.
Definition splice (b : list Z) (off : nat) (d : list Z) : list Z := take off b ++ d ++ drop (off + length d) b.

(** What log.h documents of a working flash: sectors are erased to blank, a write stores what
    it is given into blank bytes. *)
Class LogFlashLaws (F : Type) `{LogFlash F} (sector : Z) := {
  lf_bytes : F -> list Z;
  lf_open_law f base n : ∃ f', lf_open f base sector n = (0, f') /\ lf_bytes f' = lf_bytes f;
  lf_close_law f : lf_bytes (lf_close f) = lf_bytes f;
  lf_erase_law f off len : 0 <= off -> 0 <= len -> off + len <= Z.of_nat (length (lf_bytes f)) -> (sector | off) -> (sector | len) ->
    ∃ f', lf_erase f off len = (0, f') /\ lf_bytes f' = splice (lf_bytes f) (Z.to_nat off) (blank (Z.to_nat len));
  lf_write_law f off d : 0 <= off -> off + Z.of_nat (length d) <= Z.of_nat (length (lf_bytes f)) -> Forall is_u8 d ->
    take (length d) (drop (Z.to_nat off) (lf_bytes f)) = blank (length d) ->
    ∃ f', lf_write f off d = (0, f') /\ lf_bytes f' = splice (lf_bytes f) (Z.to_nat off) d;
  lf_read_law f off len : 0 <= off -> 0 <= len -> off + len <= Z.of_nat (length (lf_bytes f)) ->
    lf_read f off len = (0, take (Z.to_nat len) (drop (Z.to_nat off) (lf_bytes f)))
}.

(** ** Frames *)

Lemma le16_of n : is_u16 n -> of_le16 (Z.land n 255) (Z.land (Z.shiftr n 8) 255) = n.
Proof.
  intros Hn. pose proof (of_le32_spec n) as H. unfold of_le32 in H. unfold of_le16, is_u16 in *.
  change 255 with (Z.ones 8) in *. rewrite !Z.land_ones, !Z.shiftr_div_pow2 in * by lia.
  change (2 ^ 16) with 65536 in H. change (2 ^ 24) with 16777216 in H.
  rewrite (Z.div_small n 65536), (Z.div_small n 16777216) in H by lia. rewrite !Z.mod_0_l, !Z.shiftl_0_l, !Z.lor_0_r in H by lia.
  rewrite H. apply u32_small. lia.
Qed.
Lemma le16_u8 n : Forall is_u8 (le16 n).
Proof. unfold le16. change 255 with (Z.ones 8). repeat constructor; rewrite Z.land_ones by lia; apply Z.mod_pos_bound; lia. Qed.
Lemma le32_bytes n : Forall is_u8 (le32 n).
Proof. unfold le32. change 255 with (Z.ones 8). repeat constructor; rewrite Z.land_ones by lia; apply Z.mod_pos_bound; lia. Qed.

Lemma handle_length h : length (handle_bytes h) = 10%nat.
Proof. done. Qed.
Lemma handle_of_bytes h : h_magic h = MINI_LOG_MAGIC -> is_u16 (h_len h) -> is_u32 (h_tick h) -> is_u16 (h_crc h) -> handle_of (handle_bytes h) = h.
Proof.
  destruct h as [m l t c]. simpl. intros -> Hl Ht Hc. unfold handle_of, handle_bytes, handle_head. cbn [h_magic h_len h_tick h_crc].
  change (mk_handle (of_le16 (Z.land 4 255) (Z.land (Z.shiftr 4 8) 255)) (of_le16 (Z.land l 255) (Z.land (Z.shiftr l 8) 255))
    (of_le32 (Z.land t 255) (Z.land (Z.shiftr t 8) 255) (Z.land (Z.shiftr t 16) 255) (Z.land (Z.shiftr t 24) 255))
    (of_le16 (Z.land c 255) (Z.land (Z.shiftr c 8) 255)) = mk_handle 4 l t c).
  rewrite of_le32_spec, !le16_of by done. f_equal. by apply u32_small.
Qed.
Lemma handle_bytes_u8 h : Forall is_u8 (handle_bytes h).
Proof. unfold handle_bytes, handle_head. repeat (apply Forall_app; split); (apply le16_u8 || apply le32_bytes). Qed.

(** The CRC of a frame, without the cache. *)
Definition frame_stream : crc_stream :=
  default (mk_stream 0 0 0 0 false false) (crc_stream_start (Some (mk_stream 0 0 0 0 false false)) 65535 false false 0 4129 16).
Definition crc_of (head data : list Z) : Z := u16 (crc_stream_finish (Some (fed (fed frame_stream head) data))).
Lemma frame_crc_ok mode cache head data :
  cache_ok cache -> Forall is_u8 head -> Forall is_u8 data ->
  ∃ cache', frame_crc mode cache head data = Some (crc_of head data, cache') /\ cache_ok cache'.
Proof.
  intros Hc Hh Hd. destruct (crc_stream_start_wf (mk_stream 0 0 0 0 false false) 65535 false false 0 4129 16 ltac:(lia)) as (s & Es & Hs).
  assert (s = frame_stream) as -> by (unfold frame_stream; by rewrite Es). unfold frame_crc. rewrite Es.
  destruct (crc_stream_feed_fed mode frame_stream head cache) as (c1 & -> & Hc1); [done..|]. cbn [mbind option_bind].
  destruct (crc_stream_feed_fed mode (fed frame_stream head) data c1) as (c2 & -> & Hc2); [done|by apply fed_wf|done|]. cbn [mbind option_bind]. eauto.
Qed.
Lemma crc_of_u16 head data : is_u16 (crc_of head data).
Proof. apply u16_range. Qed.

(** A record: its time and its payload. *)
Definition log_record : Type := Z * list Z.
Definition frame_head (r : log_record) : frame_handle := mk_handle MINI_LOG_MAGIC (Z.of_nat (length r.2)) r.1 0.
Definition frame_handle_of (r : log_record) : frame_handle :=
  mk_handle MINI_LOG_MAGIC (Z.of_nat (length r.2)) r.1 (crc_of (handle_head (frame_head r)) r.2).
Definition frame_body (r : log_record) : list Z := handle_bytes (frame_handle_of r) ++ r.2.

Section geometry.
(** The size of the partition and of its sectors; frames are aligned to [gran]. *)
Context (total sector gran : Z).
Record geometry_ok : Prop := {
  ge_total : 0 < total < 2147483648;
  ge_sector : 0 < sector;
  ge_divides : (sector | total);
  ge_gran : is_pow2 gran;
  ge_gran_small : gran <= 512
}.
Definition frame_size (r : log_record) : Z := (10 + Z.of_nat (length r.2) + (gran - 1)) / gran * gran.
Definition frame_of (r : log_record) : list Z :=
  frame_body r ++ blank (Z.to_nat (frame_size r) - (10 + length r.2)).
Definition frames_of (rs : list log_record) : list Z := concat (frame_of <$> rs).
Record record_ok (r : log_record) : Prop := {
  rk_tick : is_u32 r.1;
  rk_bytes : Forall is_u8 r.2;
  rk_some : r.2 ≠ [];
  rk_fits : frame_size r <= 512 /\ frame_size r <= total
}.
(** The records of the current lap: a frame that does not fit begins again at the start. *)
Definition lap (rs : list log_record) (r : log_record) : list log_record :=
  if Z.of_nat (length (frames_of rs)) + frame_size r >? total then [r] else rs ++ [r].
Definition last_lap (rs : list log_record) : list log_record := foldl lap [] rs.
End geometry.

(** ** Sizes *)

Lemma align_up_spec len g :
  is_pow2 g -> 0 <= len -> len + g < 4294967296 -> align_up len g = (len + (g - 1)) / g * g.
Proof.
  intros (k & Hk & ->) Hl Hg. unfold align_up. pose proof (pow2_pos k Hk). rewrite (u32_small (len + _)) by lia.
  assert (k < 32) as Hk32 by (apply (Z.pow_lt_mono_r_iff 2); change (2 ^ 32) with 4294967296; lia).
  assert (u32 (Z.lnot (2 ^ k - 1)) = Z.ldiff (Z.ones 32) (Z.ones k)) as ->.
  { unfold u32. change 4294967296 with (2 ^ 32). rewrite <- Z.land_ones by lia. rewrite Z.ldiff_land, Z.land_comm, (Z.ones_equiv k). done. }
  rewrite !Z.ldiff_land, Z.land_assoc, Z.land_ones, Z.mod_small by (change (2 ^ 32) with 4294967296; lia).
  rewrite <- Z.ldiff_land, Z.ldiff_ones_r, Z.shiftl_mul_pow2, Z.shiftr_div_pow2 by lia. done.
Qed.

Section sizes.
Context (total sector gran : Z).
Hypothesis geo : geometry_ok total sector gran.

Lemma frame_size_spec r :
  10 + Z.of_nat (length r.2) <= frame_size gran r < 10 + Z.of_nat (length r.2) + gran.
Proof.
  destruct geo as [_ _ _ (k & Hk & E) _]. pose proof (pow2_pos k Hk). unfold frame_size.
  pose proof (Z.div_mod (10 + Z.of_nat (length r.2) + (gran - 1)) gran ltac:(lia)).
  pose proof (Z.mod_pos_bound (10 + Z.of_nat (length r.2) + (gran - 1)) gran ltac:(lia)). lia.
Qed.
Lemma frame_of_length r : length (frame_of gran r) = Z.to_nat (frame_size gran r).
Proof.
  pose proof (frame_size_spec r). unfold frame_of, frame_body, blank. rewrite !length_app, length_replicate, handle_length. lia.
Qed.
Lemma frames_of_app rs r : frames_of gran (rs ++ [r]) = frames_of gran rs ++ frame_of gran r.
Proof. unfold frames_of. rewrite fmap_app, concat_app. simpl. by rewrite app_nil_r. Qed.
Lemma frame_of_u8 r : record_ok total gran r -> Forall is_u8 (frame_of gran r).
Proof.
  intros [_ Hb _ _]. unfold frame_of, frame_body, blank. apply Forall_app; split; [apply Forall_app; split; [apply handle_bytes_u8|done]|].
  apply Forall_replicate. unfold is_u8. lia.
Qed.
Lemma record_len r : record_ok total gran r -> 0 < Z.of_nat (length r.2) <= 502.
Proof. intros [_ _ Hn [H _]]. pose proof (frame_size_spec r). destruct (r.2); [done|]. simpl length in *. lia. Qed.
End sizes.

(** ** Pieces of the flash *)

Lemma splice_nil b off : splice b off [] = b.
Proof. unfold splice. simpl. rewrite Nat.add_0_r. apply take_drop. Qed.
Lemma splice_app pre mid rest d : length mid = length d -> splice (pre ++ mid ++ rest) (length pre) d = pre ++ d ++ rest.
Proof.
  intros E. unfold splice. rewrite take_app_length. do 2 f_equal. rewrite <- E, app_assoc, <- length_app. apply drop_app_length.
Qed.
Lemma splice_length b off d : (off + length d <= length b)%nat -> length (splice b off d) = length b.
Proof. intros H. unfold splice. rewrite !length_app, length_take, length_drop. lia. Qed.
Lemma blank_app m n : blank m ++ blank n = blank (m + n).
Proof. symmetry. apply replicate_add. Qed.

(** The sectors from the first boundary erased, after a blank piece. *)
Lemma erase_view pre rest g n :
  (g + n <= length rest)%nat -> take g rest = blank g ->
  splice (pre ++ rest) (length pre + g) (blank n) = pre ++ blank (g + n) ++ drop (g + n) rest.
Proof.
  intros Hlen Hg. rewrite <- (take_drop g rest) at 1. rewrite Hg. rewrite <- (take_drop n (drop g rest)), drop_drop, app_assoc.
  assert (length pre + g = length (pre ++ blank g))%nat as -> by (rewrite length_app; unfold blank; rewrite length_replicate; lia).
  rewrite splice_app by (rewrite length_take, length_drop; unfold blank; rewrite length_replicate; lia).
  by rewrite <- app_assoc, (app_assoc (blank g)), blank_app.
Qed.

Section logger_laws.
Context {F : Type} `{LogFlashLaws F sector} (AUTO_FLUSH FLASH_AUTO_FLUSH CRC_MODE : bool).
Notation logger := (logger F).
Notation total s := (total_size (lg_info s)).
Notation gran s := (log_aligned (lg_info s)).
Notation bytes s := (lf_bytes (lg_dev s)).

(** A registered logger over a flash of the right size. *)
Record ready (s : logger) : Prop := {
  rd_geo : geometry_ok (total s) sector (gran s);
  rd_sector : sector_size (lg_info s) = sector;
  rd_init : is_initialized s = true;
  rd_cache : cache_ok (lg_crc s);
  rd_frame : length (flash_frame_buf s) = 512%nat;
  rd_bytes : Z.of_nat (length (bytes s)) = total s
}.
(** To the end of the sector of [wo]. *)
Definition room (wo : Z) : Z := sector - wo mod sector.
(** The flash holds the frames of [rs], then blank bytes to the end of the sector. *)
Record log_inv (s : logger) (rs : list log_record) : Prop := {
  li_ready : ready s;
  li_records : Forall (record_ok (total s) (gran s)) rs;
  li_offset : write_offset s = Z.of_nat (length (frames_of (gran s) rs));
  li_view : ∃ rest, bytes s = frames_of (gran s) rs ++ rest /\
    (write_offset s < total s -> take (Z.to_nat (room (write_offset s))) rest = blank (Z.to_nat (room (write_offset s))))
}.

Lemma room_spec wo : 0 < sector -> 0 <= wo -> 0 < room wo <= sector /\ (sector | wo + room wo).
Proof.
  intros Hs Hw. unfold room. pose proof (Z.mod_pos_bound wo sector Hs). split; [lia|].
  exists (wo / sector + 1). pose proof (Z.div_mod wo sector ltac:(lia)). lia.
Qed.
Lemma room_total wo tot : 0 < sector -> (sector | tot) -> 0 <= wo < tot -> wo + room wo <= tot.
Proof.
  intros Hs [q ->] Hw. unfold room. pose proof (Z.div_mod wo sector ltac:(lia)). pose proof (Z.mod_pos_bound wo sector Hs).
  assert (wo / sector < q) by (apply Z.div_lt_upper_bound; lia). nia.
Qed.

(** The limits of the erased sectors, as the code computes them. *)
Definition erase_from (wo : Z) : Z := if wo mod sector =? 0 then wo else (wo / sector + 1) * sector.
Definition erase_to (fe : Z) : Z := (fe + sector - 1) / sector * sector.
Lemma erase_limits wo fe tot :
  0 < sector -> (sector | tot) -> 0 <= wo < fe -> fe <= tot ->
  let g := if wo mod sector =? 0 then 0 else room wo in
  erase_from wo = wo + g /\ 0 <= g /\ (sector | erase_from wo) /\ erase_from wo <= erase_to fe <= tot /\ (sector | erase_to fe) /\ fe <= erase_to fe /\
  erase_to fe = fe + (if fe mod sector =? 0 then 0 else room fe).
Proof.
  intros Hs [q ->] Hw Hf g. unfold erase_from, erase_to, g, room.
  pose proof (Z.div_mod wo sector ltac:(lia)). pose proof (Z.mod_pos_bound wo sector Hs).
  pose proof (Z.div_mod fe sector ltac:(lia)). pose proof (Z.mod_pos_bound fe sector Hs).
  assert ((fe + sector - 1) / sector = if fe mod sector =? 0 then fe / sector else fe / sector + 1) as ->.
  { destruct (Z.eqb_spec (fe mod sector) 0).
    - symmetry. apply (Z.div_unique _ _ _ (sector - 1)); lia.
    - symmetry. apply (Z.div_unique _ _ _ (fe mod sector - 1)); lia. }
  assert (wo / sector <= fe / sector) by (apply Z.div_le_mono; lia).
  assert (fe / sector <= q) by (apply Z.div_le_upper_bound; lia).
  assert (fe mod sector ≠ 0 -> fe / sector < q) by (intros; destruct (Z.lt_ge_cases (fe / sector) q); [done|nia]).
  assert (fe mod sector = 0 -> wo mod sector ≠ 0 -> wo / sector < fe / sector) by (intros; destruct (Z.lt_ge_cases (wo / sector) (fe / sector)); [done|nia]).
  assert (wo mod sector = 0 -> (sector | wo)) by (intros; exists (wo / sector); lia).
  destruct (Z.eqb_spec (wo mod sector) 0), (Z.eqb_spec (fe mod sector) 0); (split; [nia|]); (split; [lia|]);
    (split; [auto; by eexists|]); (split; [nia|]); (split; [by eexists|]); nia.
Qed.

(** ** A record *)

Lemma open_ok s : ready s -> ∃ dev, open_all s = (0, lg_set_dev s dev) /\ lf_bytes dev = bytes s.
Proof.
  intros Hr. unfold open_all. rewrite (rd_sector _ Hr).
  destruct (lf_open_law (lg_dev s) (base_addr (lg_info s)) (u16 (total s / sector))) as (dev & -> & E). eauto.
Qed.

(** Where the record goes, what is before it and what after. *)
Lemma lap_view s rs r :
  log_inv s rs -> record_ok (total s) (gran s) r ->
  let wl := frame_size (gran s) r in
  let wo := if write_offset s + wl >? total s then 0 else write_offset s in
  ∃ pre rest, bytes s = pre ++ rest /\ Z.of_nat (length pre) = wo /\ frames_of (gran s) (lap (total s) (gran s) rs r) = pre ++ frame_of (gran s) r /\
    0 <= wo /\ wo + wl <= total s /\ (wo mod sector = 0 \/ take (Z.to_nat (room wo)) rest = blank (Z.to_nat (room wo))).
Proof.
  intros [Hr Hrs Ho (rest & Hb & Hgap)] Hok wl wo. pose proof (rk_fits _ _ _ Hok) as [Hf1 Hf2].
  pose proof (rd_geo _ Hr) as Hg. pose proof (frame_size_spec _ _ _ Hg r) as Hsz. fold wl in Hf1, Hf2, Hsz.
  unfold lap. subst wo. rewrite Ho. fold wl. destruct (Z.gtb_spec (Z.of_nat (length (frames_of (gran s) rs)) + wl) (total s)).
  - exists [], (bytes s). split; [done|]. split; [done|]. split; [unfold frames_of; simpl; by rewrite app_nil_r|]. split; [lia|]. split; [lia|].
    left. by rewrite Z.mod_0_l by (destruct Hg; lia).
  - exists (frames_of (gran s) rs), rest. split; [done|]. split; [done|]. split; [apply frames_of_app|]. split; [lia|]. split; [lia|].
    right. rewrite <- Ho. apply Hgap. lia.
Qed.

Lemma erase_step dev pre rest wo fe tot :
  0 < sector -> (sector | tot) -> lf_bytes dev = pre ++ rest -> Z.of_nat (length pre) = wo -> 0 <= wo < fe -> fe <= tot ->
  Z.of_nat (length (pre ++ rest)) = tot -> (wo mod sector = 0 \/ take (Z.to_nat (room wo)) rest = blank (Z.to_nat (room wo))) ->
  ∃ dev', (if erase_to fe >? erase_from wo then lf_erase dev (erase_from wo) (erase_to fe - erase_from wo) else (0, dev)) = (0, dev') /\
    lf_bytes dev' = pre ++ blank (Z.to_nat (erase_to fe - wo)) ++ drop (Z.to_nat (erase_to fe - wo)) rest.
Proof.
  intros Hs Hd Hb Hp Hw Hf Hl Hgap. destruct (erase_limits wo fe tot Hs Hd Hw Hf) as (E1 & E2 & E3 & E4 & E5 & E6 & _).
  set (g := if wo mod sector =? 0 then 0 else room wo) in *. rewrite length_app in Hl.
  assert (take (Z.to_nat g) rest = blank (Z.to_nat g)) as Hg.
  { subst g. destruct (Z.eqb_spec (wo mod sector) 0); [done|]. by destruct Hgap. }
  assert (splice (pre ++ rest) (Z.to_nat (erase_from wo)) (blank (Z.to_nat (erase_to fe - erase_from wo))) =
    pre ++ blank (Z.to_nat (erase_to fe - wo)) ++ drop (Z.to_nat (erase_to fe - wo)) rest) as Hview.
  { replace (Z.to_nat (erase_from wo)) with (length pre + Z.to_nat g)%nat by lia. rewrite erase_view; [|lia|done].
    by replace (Z.to_nat (erase_to fe - wo)) with (Z.to_nat g + Z.to_nat (erase_to fe - erase_from wo))%nat by lia. }
  destruct (Z.gtb_spec (erase_to fe) (erase_from wo)).
  - destruct (lf_erase_law dev (erase_from wo) (erase_to fe - erase_from wo)) as (dev' & -> & E);
      [lia|lia|rewrite Hb, length_app; lia|done|by apply Z.divide_sub_r|]. exists dev'. split; [done|]. by rewrite E, Hb.
  - exists dev. split; [done|]. rewrite Hb, <- Hview. replace (erase_to fe - erase_from wo) with 0 by lia. by rewrite splice_nil.
Qed.

(** The sector behind a frame that ends at a boundary. *)
Lemma next_step dev pre m rest fe tot :
  0 < sector -> (sector | tot) -> lf_bytes dev = pre ++ blank m ++ rest -> Z.of_nat (length pre) = fe -> 0 < fe <= tot ->
  m = Z.to_nat (if fe mod sector =? 0 then 0 else room fe) -> Z.of_nat (length (lf_bytes dev)) = tot ->
  let dev' := if (fe <? tot) && (fe mod sector =? 0) then (lf_erase dev fe sector).2 else dev in
  ∃ rest', lf_bytes dev' = pre ++ rest' /\ length (lf_bytes dev') = length (lf_bytes dev) /\
    (fe < tot -> take (Z.to_nat (room fe)) rest' = blank (Z.to_nat (room fe))).
Proof.
  intros Hs Hd Hb Hp Hf -> Hl. destruct (Z.ltb_spec fe tot) as [Hlt|]; [|exists (blank (Z.to_nat (if fe mod sector =? 0 then 0 else room fe)) ++ rest); split; [done|split; [done|lia]]].
  pose proof (room_total fe tot Hs Hd ltac:(lia)) as Hr. destruct (Z.eqb_spec (fe mod sector) 0) as [E|E]; cbn [andb].
  - assert (room fe = sector) as Er by (unfold room; lia). rewrite Er in Hr |- *.
    destruct (lf_erase_law dev fe sector) as (dev' & -> & E'); [lia|lia|lia|exists (fe / sector); pose proof (Z.div_mod fe sector ltac:(lia)); lia|done|].
    exists (blank (Z.to_nat sector) ++ drop (Z.to_nat sector) rest). cbn [snd]. rewrite E', Hb. simpl.
    replace (Z.to_nat fe) with (length pre + 0)%nat by lia. rewrite Hb, !length_app in Hl. simpl in Hl.
    rewrite erase_view by (done || lia). split; [done|]. split.
    + rewrite !length_app, length_drop. unfold blank. rewrite length_replicate. lia.
    + intros _. apply take_app_length'. symmetry. apply length_replicate.
  - exists (blank (Z.to_nat (room fe)) ++ rest). split; [done|]. split; [done|]. intros _. apply take_app_length'. symmetry. apply length_replicate.
Qed.

(** The frame in its buffer. *)
Lemma frame_buffer (s : logger) r :
  geometry_ok (total s) sector (gran s) -> record_ok (total s) (gran s) r ->
  (frame ← mem_write (replicate (Z.to_nat MINI_LOG_FLASH_RING_SIZE) 255) 0 (handle_bytes (frame_handle_of r)); mem_write frame handle_size r.2)
  = Some (frame_body r ++ blank (512 - (10 + length r.2))) /\
  mem_read (frame_body r ++ blank (512 - (10 + length r.2))) 0 (frame_size (gran s) r) = Some (frame_of (gran s) r).
Proof.
  intros Hg Hok. pose proof (record_len _ _ _ Hg r Hok) as Hlen. pose proof (frame_size_spec _ _ _ Hg r) as Hsz. destruct (rk_fits _ _ _ Hok) as [Hf1 Hf2].
  assert (length (handle_bytes (frame_handle_of r)) = 10%nat) as Hh by apply handle_length.
  set (hb := handle_bytes (frame_handle_of r)) in *. change (Z.to_nat MINI_LOG_FLASH_RING_SIZE) with 512%nat. unfold handle_size. split.
  - rewrite mem_write_in by (rewrite ?length_replicate, ?Hh; lia). cbn [mbind option_bind].
    change (Z.to_nat 0) with 0%nat. rewrite take_0, Hh, drop_replicate. cbn [app Nat.add].
    rewrite mem_write_in by (rewrite ?length_app, ?length_replicate, ?Hh; lia). f_equal. change (Z.to_nat 10) with 10%nat.
    rewrite (take_app_length' hb) by done. unfold frame_body. fold hb. rewrite <- app_assoc. do 2 f_equal.
    rewrite drop_app_ge by lia. rewrite Hh, drop_replicate. unfold blank. f_equal. lia.
  - rewrite mem_read_in by (unfold frame_body, blank; fold hb; rewrite ?length_app, ?length_replicate, ?Hh; lia). f_equal.
    change (Z.to_nat 0) with 0%nat. rewrite drop_0. unfold frame_of.
    assert (length (frame_body r) = 10 + length r.2)%nat as Hbl by (unfold frame_body; fold hb; rewrite length_app, Hh; done).
    rewrite take_app_ge by lia. rewrite Hbl. f_equal. unfold blank. rewrite take_replicate. f_equal. lia.
Qed.

(** The clock, in range. *)
Definition now_ok (now : option Z) : Prop := match now with Some t => t < 2147483648 | None => True end.
Lemma tick_value_u32 now : now_ok now -> is_u32 (mini_log_tick_value now).
Proof. intros _. unfold mini_log_tick_value. destruct (_ <? 0); [by vm_compute|apply u32_range]. Qed.

(** Erasing, programming and erasing ahead, as the code does it for a frame [fr]. *)
Lemma program_ok dev pre rest wo fr tot :
  0 < sector -> (sector | tot) -> lf_bytes dev = pre ++ rest -> Z.of_nat (length pre) = wo -> fr ≠ [] -> Forall is_u8 fr ->
  let fe := wo + Z.of_nat (length fr) in
  fe <= tot -> Z.of_nat (length (pre ++ rest)) = tot -> (wo mod sector = 0 \/ take (Z.to_nat (room wo)) rest = blank (Z.to_nat (room wo))) ->
  ∃ dev1 dev2, (if erase_to fe >? erase_from wo then lf_erase dev (erase_from wo) (erase_to fe - erase_from wo) else (0, dev)) = (0, dev1) /\
    lf_write dev1 wo fr = (0, dev2) /\
    let dev3 := if (fe <? tot) && (fe mod sector =? 0) then (lf_erase dev2 fe sector).2 else dev2 in
    Z.of_nat (length (lf_bytes dev3)) = tot /\
    ∃ rest3, lf_bytes dev3 = (pre ++ fr) ++ rest3 /\ (fe < tot -> take (Z.to_nat (room fe)) rest3 = blank (Z.to_nat (room fe))).
Proof.
  intros Hs Hd Hb Hp Hne H8 fe Hfit Hl Hgap. assert (0 < Z.of_nat (length fr)) as Hpos by (destruct fr; [done|simpl; lia]).
  destruct (erase_step dev pre rest wo fe tot) as (dev1 & E1 & Eb1); [done|done|done|done|lia|lia|done|done|].
  destruct (erase_limits wo fe tot Hs Hd) as (_ & _ & _ & [_ El2] & _ & El3 & El4); [lia|lia|].
  set (ee := erase_to fe) in *. set (rest1 := drop (Z.to_nat (ee - wo)) rest) in *. rewrite length_app in Hl.
  assert (blank (Z.to_nat (ee - wo)) = blank (length fr) ++ blank (Z.to_nat (ee - fe))) as Hbl by (rewrite blank_app; f_equal; lia).
  assert (length (blank (length fr)) = length fr) as Hbll by apply length_replicate.
  assert (Z.of_nat (length (lf_bytes dev1)) = tot) as Hl1.
  { rewrite Eb1, !length_app. unfold rest1, blank. rewrite length_replicate, length_drop. lia. }
  destruct (lf_write_law dev1 wo fr) as (dev2 & E2 & Eb2); [lia|lia|done| |].
  { rewrite Eb1, Hbl. rewrite drop_app_length' by lia. rewrite <- app_assoc. by apply take_app_length'. }
  assert (lf_bytes dev2 = (pre ++ fr) ++ blank (Z.to_nat (ee - fe)) ++ rest1) as Eb2'.
  { rewrite Eb2, Eb1, Hbl, <- !app_assoc. replace (Z.to_nat wo) with (length pre) by lia. by apply splice_app. }
  assert (Z.of_nat (length (lf_bytes dev2)) = tot) as Hl2 by (rewrite Eb2, splice_length by lia; done).
  destruct (next_step dev2 (pre ++ fr) (Z.to_nat (ee - fe)) rest1 fe tot) as (rest3 & Hb3 & Hl3 & Hgap3);
    [done|done|done|rewrite length_app; lia|lia|f_equal; lia|done|].
  exists dev1, dev2. split; [done|]. split; [done|]. cbv zeta in *. split; [by rewrite Hl3|]. eauto.
Qed.

(** [data] may be a longer buffer. *)
Lemma write_record_ok s rs now data len r :
  log_inv s rs -> r = (mini_log_tick_value now, take (Z.to_nat len) data) -> 0 < len <= Z.of_nat (length data) -> record_ok (total s) (gran s) r ->
  ∃ s', mini_log_flash_write_record CRC_MODE s now (Some data) len = Some (MINI_LOG_OK, s') /\
    log_inv s' (lap (total s) (gran s) rs r) /\ lg_info s' = lg_info s /\ flash_ring s' = flash_ring s /\ lg_ring s' = lg_ring s /\
    flash_line_buf s' = flash_line_buf s /\ flash_line_len s' = flash_line_len s /\ flash_resync s' = flash_resync s /\ lg_console s' = lg_console s.
Proof.
  intros Hinv Er Hlen Hok. pose proof Hinv as [Hr Hrs Ho Hview]. pose proof (rd_geo _ Hr) as Hg. pose proof Hg as [G1 G2 G3 G4 G5].
  pose proof (frame_size_spec _ _ _ Hg r) as Hsz. pose proof (record_len _ _ _ Hg r Hok) as Hrl. destruct (rk_fits _ _ _ Hok) as [Hf1 Hf2].
  assert (Z.of_nat (length r.2) = len) as Elen by (rewrite Er; simpl; rewrite length_take; lia).
  destruct (lap_view s rs r Hinv Hok) as (pre & rest & Hb & Hp & Hfr & Hwo & Hfit & Hgap). cbv zeta in *.
  set (wl := frame_size (gran s) r) in *.
  assert (write_offset s <= total s) as Hol.
  { rewrite Ho. destruct Hview as (rest0 & Hb0 & _). pose proof (rd_bytes _ Hr) as Hl0. rewrite Hb0, length_app in Hl0. lia. }
  unfold mini_log_flash_write_record. rewrite (rd_init _ Hr). cbn [negb]. destruct (Z.eqb_spec len 0); [lia|].
  rewrite (u32_small (handle_size + len)) by (unfold handle_size; lia).
  assert (align_up (handle_size + len) (gran s) = wl) as ->.
  { unfold handle_size. rewrite align_up_spec by (done || lia). unfold wl, frame_size. by rewrite Elen. }
  change MINI_LOG_FLASH_RING_SIZE with 512 at 1. destruct (Z.gtb_spec wl 512); [lia|]. destruct (Z.gtb_spec wl (total s)); [lia|]. cbn [orb].
  rewrite (u32_small (write_offset s + wl)) by lia. set (wo := if write_offset s + wl >? total s then 0 else write_offset s) in *.
  set (s1 := if write_offset s + wl >? total s then lg_set_offset s 0 else s).
  assert (lg_set_offset s wo = s1) as E1 by (subst wo s1; destruct (_ >? _); [done|by destruct s]).
  rewrite <- E1. clearbody s1 wo. clear E1.
  rewrite mem_read_in by lia. cbn [mbind option_bind]. change (Z.to_nat 0) with 0%nat. rewrite drop_0.
  assert (take (Z.to_nat len) data = r.2) as -> by by rewrite Er.
  assert (mk_handle MINI_LOG_MAGIC (u16 len) (mini_log_tick_value now) 0 = frame_head r) as ->.
  { unfold frame_head. rewrite Elen, u16_small by lia. by rewrite Er. }
  change (lg_crc (lg_set_offset s wo)) with (lg_crc s).
  destruct (frame_crc_ok CRC_MODE (lg_crc s) (handle_head (frame_head r)) r.2) as (cache & -> & Hcache);
    [apply Hr|repeat (apply Forall_app; split); (apply le16_u8 || apply le32_bytes)|apply Hok|]. cbn [mbind option_bind].
  change (mk_handle (h_magic (frame_head r)) (h_len (frame_head r)) (h_tick (frame_head r)) (crc_of (handle_head (frame_head r)) r.2)) with (frame_handle_of r).
  destruct (frame_buffer s r Hg Hok) as [Hfb Hout].
  destruct (mem_write (replicate _ 255) 0 (handle_bytes (frame_handle_of r))) as [f1|]; [|done]. cbn [mbind option_bind] in Hfb |- *. rewrite Hfb.
  cbn [mbind option_bind]. set (frame := frame_body r ++ blank (512 - (10 + length r.2))) in *.
  set (s2 := lg_set_crc (lg_set_frame (lg_set_offset s wo) frame) cache). change (write_offset s2) with wo. rewrite (rd_sector _ Hr).
  rewrite (u32_small (wo + wl)) by lia.
  assert (wo / sector * sector <= wo) as Hdiv by (pose proof (Z.div_mod wo sector ltac:(lia)); pose proof (Z.mod_pos_bound wo sector G2); lia).
  assert (sector <= total s) as Hst by (apply Z.divide_pos_le; [lia|done]).
  assert (0 <= wo / sector * sector) by (apply Z.mul_nonneg_nonneg; [apply Z.div_pos|]; lia).
  rewrite (u32_small ((wo / sector + 1) * sector)) by (rewrite Z.mul_add_distr_r; lia). rewrite (u32_small (wo + wl + sector - 1)) by lia. fold (erase_from wo).
  assert (0 <= erase_to (wo + wl) <= total s) as Het.
  { destruct (erase_limits wo (wo + wl) (total s) G2 G3) as (_ & _ & _ & ? & _ & ? & _); [lia|lia|]. lia. }
  rewrite u32_small by (unfold erase_to in Het; lia). fold (erase_to (wo + wl)).
  assert (ready s2) as Hr2.
  { destruct Hr. split; try done. change (flash_frame_buf s2) with frame. unfold frame, frame_body, blank. rewrite !length_app, length_replicate, handle_length. lia. }
  destruct (open_ok s2 Hr2) as (dev & -> & Ed). cbn [negb Z.eqb]. change (lg_dev s2) with (lg_dev s) in Ed.
  change (lg_dev (lg_set_dev s2 dev)) with dev.
  assert (Z.of_nat (length (frame_of (gran s) r)) = wl) as Hfl by (rewrite (frame_of_length _ _ _ Hg); lia).
  destruct (program_ok dev pre rest wo (frame_of (gran s) r) (total s)) as (dev1 & dev2 & Ee & Ew & Hl3 & rest3 & Hb3 & Hgap3);
    [done|done|by rewrite Ed|done|intros E; rewrite E in Hfl; simpl in Hfl; lia|by apply (frame_of_u8 (total s))|lia|rewrite <- Hb; apply Hr|done|].
  rewrite Hfl in Ee, Hl3, Hb3, Hgap3. rewrite Ee. fold wl in Hout. cbn [negb Z.eqb]. rewrite Hout. cbn [mbind option_bind].
  change (write_offset (lg_set_dev (lg_set_dev s2 dev) dev1)) with wo. change (lg_dev (lg_set_dev (lg_set_dev s2 dev) dev1)) with dev1.
  rewrite Ew. cbn [negb Z.eqb]. change (write_offset (lg_set_dev (lg_set_dev (lg_set_dev s2 dev) dev1) dev2)) with wo. rewrite (u32_small (wo + wl)) by lia.
  cbn [lg_set_offset lg_set_dev write_offset lg_dev lg_info]. change (lg_info s2) with (lg_info s).
  set (dev3 := if (wo + wl <? total s) && ((wo + wl) mod sector =? 0) then (lf_erase dev2 (wo + wl) sector).2 else dev2) in *.
  eexists. split; [done|].
  match goal with |- log_inv ?s' _ /\ _ => assert (s' = lg_set_dev (lg_set_offset s2 (wo + wl)) (lf_close dev3)) as -> by (subst dev3; unfold close_; destruct (_ && _); reflexivity) end.
  split; [|done]. split.
  - destruct Hr2. split; try done. simpl. by rewrite lf_close_law.
  - unfold lap. change (total (lg_set_dev (lg_set_offset s2 (wo + wl)) (lf_close dev3))) with (total s).
    change (gran (lg_set_dev (lg_set_offset s2 (wo + wl)) (lf_close dev3))) with (gran s).
    match goal with |- Forall _ (if ?b then _ else _) => destruct b end; [by constructor|]. apply Forall_app. split; [done|by constructor].
  - cbn [write_offset lg_set_dev lg_set_offset]. change (gran (lg_set_dev (lg_set_offset s2 (wo + wl)) (lf_close dev3))) with (gran s).
    rewrite Hfr, length_app. lia.
  - exists rest3. change (gran (lg_set_dev (lg_set_offset s2 (wo + wl)) (lf_close dev3))) with (gran s).
    cbn [write_offset lg_dev lg_set_dev lg_set_offset]. rewrite lf_close_law, Hb3, Hfr. split; [done|exact Hgap3].
Qed.

(** ** The scan *)

Record scanned (s s' : logger) : Prop := { sc_ready : ready s'; sc_dev : lg_dev s' = lg_dev s; sc_info : lg_info s' = lg_info s }.
Lemma scanned_refl s : ready s -> scanned s s.
Proof. by split. Qed.
Lemma scanned_trans s1 s2 s3 : scanned s1 s2 -> scanned s2 s3 -> scanned s1 s3.
Proof. intros [_ A B] [C D E]. split; congruence. Qed.

Lemma read_frame_ok s off at_ len :
  ready s -> 0 <= off -> 0 <= len -> off + len <= total s -> 0 <= at_ -> at_ + len <= 512 ->
  ∃ s', read_frame s off at_ len = Some (0, s') /\ scanned s s' /\ lg_crc s' = lg_crc s /\ write_offset s' = write_offset s /\
    flash_frame_buf s' = splice (flash_frame_buf s) (Z.to_nat at_) (take (Z.to_nat len) (drop (Z.to_nat off) (bytes s))).
Proof.
  intros Hr Ho Hl Hol Ha Hal. pose proof Hr as [R1 R2 R3 R4 R5 R6]. unfold read_frame. rewrite lf_read_law by lia. cbn [negb Z.eqb].
  assert (length (take (Z.to_nat len) (drop (Z.to_nat off) (bytes s))) = Z.to_nat len) as Hlen by (rewrite length_take, length_drop; lia).
  rewrite mem_write_in by lia. cbn [mbind option_bind]. eexists. split; [done|].
  fold (splice (flash_frame_buf s) (Z.to_nat at_) (take (Z.to_nat len) (drop (Z.to_nat off) (bytes s)))).
  split; [|done]. split; [|done|done]. split; try done. simpl. rewrite splice_length; lia.
Qed.

Lemma view_at (pre mid post : list Z) k n : (k + n <= length mid)%nat -> take n (drop (length pre + k) (pre ++ mid ++ post)) = take n (drop k mid).
Proof.
  intros H1. rewrite <- drop_drop, drop_app_length, drop_app_le by lia. rewrite take_app_le by (rewrite length_drop; lia). done.
Qed.
Lemma frame_crc_check s r :
  ready s -> record_ok (total s) (gran s) r -> take (10 + length r.2) (flash_frame_buf s) = frame_body r ->
  ∃ s', mini_log_frame_crc_ok CRC_MODE s (Z.of_nat (length r.2)) = Some (true, s') /\ scanned s s' /\ write_offset s' = write_offset s.
Proof.
  intros Hr Hok Hf. pose proof (record_len _ _ _ (rd_geo _ Hr) r Hok) as Hlen. pose proof (rd_frame _ Hr) as H512.
  assert (∀ off n, (off + n <= 10 + length r.2)%nat -> take n (drop off (flash_frame_buf s)) = take n (drop off (frame_body r))) as Hview.
  { intros off n Hn. rewrite <- Hf, skipn_firstn_comm, take_take. f_equal. lia. }
  assert (length (handle_bytes (frame_handle_of r)) = 10%nat) as Hh by apply handle_length.
  unfold mini_log_frame_crc_ok. rewrite !mem_read_in by (unfold handle_size; lia). cbn [mbind option_bind]. change (Z.to_nat handle_size) with 10%nat.
  change (Z.to_nat 0) with 0%nat. rewrite !Hview by lia. rewrite !drop_0. unfold frame_body.
  rewrite (take_app_length' (handle_bytes _)) by done. rewrite take_app_le by (rewrite Hh; lia). rewrite drop_app_length' by done.
  rewrite Nat2Z.id, firstn_all.
  change (take (Z.to_nat 8) (handle_bytes (frame_handle_of r))) with (handle_head (frame_head r)).
  destruct (frame_crc_ok CRC_MODE (lg_crc s) (handle_head (frame_head r)) r.2) as (c & -> & Hc);
    [apply Hr|repeat (apply Forall_app; split); (apply le16_u8 || apply le32_bytes)|apply Hok|]. cbn [mbind option_bind].
  rewrite handle_of_bytes; [|done|unfold frame_handle_of, is_u16; simpl; lia|apply Hok|apply crc_of_u16]. simpl. rewrite Z.eqb_refl.
  eexists. split; [done|]. split; [|done]. split; [|done|done]. destruct Hr. by split.
Qed.

Lemma recover_step fuel s n pre r post :
  ready s -> record_ok (total s) (gran s) r -> bytes s = pre ++ frame_of (gran s) r ++ post -> 0 <= n < 4294967295 ->
  ∃ s', recover_loop CRC_MODE (S fuel) s (Z.of_nat (length pre)) n
        = recover_loop CRC_MODE fuel s' (Z.of_nat (length (pre ++ frame_of (gran s) r))) (n + 1) /\ scanned s s' /\ write_offset s' = write_offset s.
Proof.
  intros Hr Hok Hb Hn. pose proof Hr as [Hg R2 R3 R4 R5 R6]. pose proof (record_len _ _ _ Hg r Hok) as Hlen. pose proof Hg as [G1 G2 G3 G4 G5].
  pose proof (frame_size_spec _ _ _ Hg r) as Hsz. destruct (rk_fits _ _ _ Hok) as [Hf1 Hf2].
  pose proof (frame_of_length _ _ _ Hg r) as Hfl. assert (length (bytes s) = length pre + (length (frame_of (gran s) r) + length post))%nat as Hbl by (rewrite Hb, !length_app; lia).
  assert (length (handle_bytes (frame_handle_of r)) = 10%nat) as Hh by apply handle_length.
  assert (length (frame_body r) = 10 + length r.2)%nat as Hbody by (unfold frame_body; rewrite length_app, Hh; done).
  cbn [recover_loop]. rewrite u32_small by (unfold handle_size; lia). destruct (Z.gtb_spec (Z.of_nat (length pre) + handle_size) (total s)); [unfold handle_size in *; lia|].
  destruct (read_frame_ok s (Z.of_nat (length pre)) 0 handle_size) as (s1 & -> & S1 & C1 & O1 & B1); [done|unfold handle_size; lia..|].
  cbn [mbind option_bind negb Z.eqb]. pose proof (sc_ready _ _ S1) as Hr1. destruct S1 as [_ D1 I1].
  change (Z.to_nat handle_size) with 10%nat in B1. rewrite Hb, Nat2Z.id in B1. replace (length pre) with (length pre + 0)%nat in B1 by lia.
  rewrite view_at in B1 by lia. rewrite drop_0 in B1. unfold frame_of in B1. rewrite take_app_le in B1 by lia. unfold frame_body in B1. rewrite (take_app_length' (handle_bytes _)) in B1 by done.
  assert (mem_read (flash_frame_buf s1) 0 handle_size = Some (handle_bytes (frame_handle_of r))) as ->.
  { rewrite mem_read_in by (rewrite ?(rd_frame _ Hr1); unfold handle_size; lia). f_equal. rewrite B1. change (Z.to_nat 0) with 0%nat. change (Z.to_nat handle_size) with 10%nat.
    unfold splice. rewrite take_0, drop_0. cbn [app]. by apply take_app_length'. }
  cbn [mbind option_bind]. rewrite handle_of_bytes; [|done|unfold frame_handle_of, is_u16; simpl; lia|apply Hok|apply crc_of_u16].
  cbn [frame_handle_of h_magic h_len]. rewrite Z.eqb_refl. cbn [negb]. destruct (Z.eqb_spec (Z.of_nat (length r.2)) 0); [lia|].
  change MINI_LOG_FLASH_RING_SIZE with 512. destruct (Z.gtb_spec (handle_size + Z.of_nat (length r.2)) 512); [unfold handle_size in *; lia|].
  rewrite u32_small by (unfold handle_size; lia). destruct (Z.gtb_spec (Z.of_nat (length pre) + (handle_size + Z.of_nat (length r.2))) (total s)); [unfold handle_size in *; lia|]. cbn [orb].
  destruct (read_frame_ok s1 (Z.of_nat (length pre) + handle_size) handle_size (Z.of_nat (length r.2))) as (s2 & -> & S2 & C2 & O2 & B2); [done|rewrite ?I1; unfold handle_size; lia..|].
  cbn [mbind option_bind negb Z.eqb]. pose proof (sc_ready _ _ S2) as Hr2. destruct S2 as [_ D2 I2].
  rewrite D1, Hb, Nat2Z.id in B2. replace (Z.to_nat (Z.of_nat (length pre) + handle_size)) with (length pre + 10)%nat in B2 by (unfold handle_size; lia).
  rewrite view_at in B2 by (rewrite Hfl; lia). unfold frame_of in B2. rewrite drop_app_le, take_app_le in B2 by (rewrite ?length_drop; lia).
  unfold frame_body in B2. rewrite drop_app_length', firstn_all in B2 by done.
  destruct (frame_crc_check s2 r Hr2) as (s3 & -> & S3 & O3); [by rewrite I2, I1| |].
  { rewrite B2. change (Z.to_nat handle_size) with 10%nat. unfold splice. rewrite B1. unfold splice at 1. rewrite take_0. cbn [app]. rewrite (take_app_length' (handle_bytes _)) by done.
    rewrite app_assoc. apply take_app_length'. unfold frame_body. rewrite length_app, Hh. done. }
  cbn [mbind option_bind negb]. exists s3. destruct S3 as [Hr3 D3 I3]. split; [|split; [split; [done|congruence|congruence]|congruence]].
  rewrite (u32_small (n + 1)) by lia. unfold handle_size. rewrite align_up_spec by (done || lia). fold (frame_size (gran s) r).
  rewrite length_app, Hfl. rewrite u32_small by lia. f_equal. lia.
Qed.

Lemma recover_frames rs : ∀ fuel s n pre post,
  ready s -> Forall (record_ok (total s) (gran s)) rs -> bytes s = pre ++ frames_of (gran s) rs ++ post -> 0 <= n -> n + Z.of_nat (length rs) < 4294967296 ->
  ∃ s', recover_loop CRC_MODE (length rs + fuel) s (Z.of_nat (length pre)) n
        = recover_loop CRC_MODE fuel s' (Z.of_nat (length (pre ++ frames_of (gran s) rs))) (n + Z.of_nat (length rs)) /\ scanned s s' /\ write_offset s' = write_offset s.
Proof.
  induction rs as [|r rs IH]; intros fuel s n pre post Hr Hrs Hb Hn Hmax.
  { exists s. split; [|split; [by apply scanned_refl|done]]. unfold frames_of. simpl. by rewrite app_nil_r, Z.add_0_r. }
  apply Forall_cons_1 in Hrs as [Hok Hrs]. unfold frames_of in Hb. simpl in Hb, Hmax. rewrite <- app_assoc in Hb. fold (frames_of (gran s) rs) in Hb.
  destruct (recover_step (length rs + fuel) s n pre r (frames_of (gran s) rs ++ post)) as (s1 & E1 & [S1 D1 I1] & O1); [done|done|done|lia|].
  destruct (IH fuel s1 (n + 1) (pre ++ frame_of (gran s) r) post) as (s2 & E2 & [S2 D2 I2] & O2); [done|by rewrite I1|by rewrite D1, I1, <- app_assoc|lia|lia|].
  exists s2. split; [|split; [split; [done|congruence|congruence]|congruence]]. cbn [length Nat.add]. rewrite E1, E2. rewrite I1. f_equal; [|lia].
  unfold frames_of. simpl. by rewrite <- app_assoc.
Qed.

Lemma odd_not_magic x : of_le16 255 x ≠ MINI_LOG_MAGIC.
Proof.
  intros E. apply (f_equal (λ z, Z.testbit z 0)) in E. unfold of_le16 in E. rewrite Z.lor_spec, Z.shiftl_spec in E by lia. by vm_compute in E.
Qed.
Lemma recover_end fuel s wo n pre rest :
  ready s -> bytes s = pre ++ rest -> Z.of_nat (length pre) = wo ->
  (wo < total s -> take (Z.to_nat (room wo)) rest = blank (Z.to_nat (room wo))) ->
  ∃ dirty s', recover_loop CRC_MODE (S fuel) s wo n = Some (MINI_LOG_OK, wo, n, dirty, s') /\ scanned s s' /\ write_offset s' = write_offset s /\
    (dirty = true -> room wo < 10).
Proof.
  intros Hr Hb Hp Hgap. pose proof Hr as [[G1 G2 G3 G4 G5] R2 R3 R4 R5 R6]. pose proof R6 as Hl. rewrite Hb, length_app in Hl.
  cbn [recover_loop]. rewrite u32_small by (unfold handle_size; lia).
  destruct (Z.gtb_spec (wo + handle_size) (total s)); [exists false, s; split; [done|split; [by apply scanned_refl|done]]|]. unfold handle_size in *.
  destruct (read_frame_ok s wo 0 10) as (s1 & -> & S1 & C1 & O1 & B1); [done|lia..|]. cbn [mbind option_bind negb Z.eqb].
  pose proof (sc_ready _ _ S1) as Hr1. pose proof (rd_frame _ Hr1) as F1.
  destruct (room_spec wo G2 ltac:(lia)) as [Hroom _]. specialize (Hgap ltac:(lia)).
  rewrite Hb, drop_app_length' in B1 by lia. change (Z.to_nat 10) with 10%nat in B1.
  assert (length (take 10 rest) = 10%nat) as Ht by (rewrite length_take; lia).
  assert (mem_read (flash_frame_buf s1) 0 10 = Some (take 10 rest)) as ->.
  { rewrite mem_read_in by lia. f_equal. rewrite B1. change (Z.to_nat 0) with 0%nat. change (Z.to_nat 10) with 10%nat.
    unfold splice. rewrite take_0, drop_0. cbn [app]. by apply take_app_length'. }
  cbn [mbind option_bind].
  assert (rest !! 0%nat = Some 255) as Hfirst.
  { rewrite <- (take_drop (Z.to_nat (room wo)) rest), Hgap, lookup_app_l by (unfold blank; rewrite length_replicate; lia). apply lookup_replicate_2. lia. }
  destruct (Z.eqb_spec (h_magic (handle_of (take 10 rest))) MINI_LOG_MAGIC) as [E|_].
  { exfalso. unfold handle_of in E. cbn [h_magic] in E. rewrite lookup_take_lt, Hfirst in E by lia. cbn [default from_option id] in E. by apply odd_not_magic in E. }
  cbn [negb]. eexists _, s1. split; [done|]. split; [done|]. split; [done|]. intros Hd. destruct (Z.lt_ge_cases (room wo) 10) as [|Hge]; [done|exfalso].
  apply negb_true_iff in Hd. assert (forallb (λ x, x =? 255) (take 10 rest) = true) as Hall; [|congruence].
  replace 10%nat with (10 `min` Z.to_nat (room wo))%nat by lia. rewrite <- take_take, Hgap. unfold blank. rewrite take_replicate.
  apply forallb_forall. intros x Hx. apply list_elem_of_In, elem_of_replicate in Hx as [-> _]. done.
Qed.

Lemma frames_long rs s : ready s -> Forall (record_ok (total s) (gran s)) rs -> (length rs <= length (frames_of (gran s) rs))%nat.
Proof.
  intros Hr. induction 1 as [|r rs Hok Hrs IH]; [simpl; lia|]. unfold frames_of in *. rewrite fmap_cons. cbn [concat length]. rewrite length_app.
  pose proof (frame_of_length _ _ _ (rd_geo _ Hr) r). pose proof (frame_size_spec _ _ _ (rd_geo _ Hr) r). lia.
Qed.
(** After a restart: the logger [s0] over a flash with the frames of [rs]. *)
Lemma recover_ok s0 rs rest :
  ready s0 -> Forall (record_ok (total s0) (gran s0)) rs -> bytes s0 = frames_of (gran s0) rs ++ rest ->
  let wo := Z.of_nat (length (frames_of (gran s0) rs)) in
  (wo < total s0 -> take (Z.to_nat (room wo)) rest = blank (Z.to_nat (room wo))) ->
  ∃ s', mini_log_flash_recover CRC_MODE s0 = Some (MINI_LOG_OK, Z.of_nat (length rs), s') /\ ready s' /\ bytes s' = bytes s0 /\ lg_info s' = lg_info s0 /\
    (write_offset s' = wo \/ room wo < 10 /\ write_offset s' = erase_to wo).
Proof.
  intros Hr Hrs Hb wo Hgap. pose proof Hr as [[G1 G2 G3 G4 G5] R2 R3 R4 R5 R6]. pose proof R6 as Hl. rewrite Hb, length_app in Hl.
  pose proof (frames_long rs s0 Hr Hrs) as Hlong. unfold mini_log_flash_recover. rewrite R3. cbn [negb].
  destruct (open_ok s0 Hr) as (dev & -> & Ed). cbn [negb Z.eqb]. set (s1 := lg_set_dev s0 dev).
  assert (ready s1) as Hr1 by (split; try done; simpl; by rewrite Ed).
  replace (S (Z.to_nat (total s0))) with (length rs + S (Z.to_nat (total s0) - length rs))%nat by lia.
  destruct (recover_frames rs (S (Z.to_nat (total s0) - length rs)) s1 0 [] rest) as (s2 & E2 & [S2 D2 I2] & O2); [done|done|by simpl; rewrite Ed|lia|lia|].
  change (Z.of_nat (length (@nil Z))) with 0 in E2. rewrite E2. cbn [app]. change (gran s1) with (gran s0). fold wo.
  destruct (recover_end (Z.to_nat (total s0) - length rs) s2 wo (0 + Z.of_nat (length rs)) (frames_of (gran s0) rs) rest) as (dirty & s3 & -> & [S3 D3 I3] & O3 & Hd);
    [done|by rewrite D2; simpl; rewrite Ed|done|by rewrite I2|].
  cbn [mbind option_bind Z.add]. rewrite Z.eqb_refl. eexists. split; [by rewrite Z.add_0_l|].
  assert (lf_bytes (lf_close (lg_dev s3)) = bytes s0) as Hend by (rewrite lf_close_law, D3, D2; done).
  assert (lg_info s3 = lg_info s0) as Ei by by rewrite I3, I2.
  assert (wo <= total s0) as Hwo by (unfold wo; lia).
  assert (wo <= erase_to wo <= total s0) as Het.
  { destruct (Z.eq_dec wo 0) as [->|Hne]; [unfold erase_to; rewrite Z.div_small by lia; lia|].
    destruct (erase_limits 0 wo (total s0) G2 G3) as (_ & _ & _ & ? & _ & ? & _); unfold wo in *; lia. }
  assert (sector <= total s0) as Hst by (apply Z.divide_pos_le; [lia|done]).
  rewrite R2, (u32_small (wo + sector - 1)) by (unfold wo in *; lia).
  rewrite (u32_small ((wo + sector - 1) / sector * sector)) by (unfold erase_to in Het; unfold wo in *; lia). fold (erase_to wo).
  assert (((if dirty then erase_to wo else wo) >? total s0) = false) as -> by (destruct dirty; lia).
  split; [destruct S3; split; try done; simpl; rewrite Ei, Hend; congruence|]. split; [done|]. split; [done|]. simpl. destruct dirty; auto.
Qed.

(** ** The whole life of a log *)

Lemma clean_ok s : ready s -> ∃ s', mini_log_flash_clean_all s = (MINI_LOG_OK, s') /\ log_inv s' [] /\ lg_info s' = lg_info s /\
  lg_ring s' = lg_ring s /\ flash_ring s' = flash_ring s /\ lg_console s' = lg_console s /\ flash_line_buf s' = flash_line_buf s /\
  flash_line_len s' = flash_line_len s /\ flash_resync s' = false.
Proof.
  intros Hr. pose proof Hr as [Hg R2 R3 R4 R5 R6]. pose proof Hg as [G1 G2 G3 G4 G5]. unfold mini_log_flash_clean_all. rewrite R3. cbn [negb].
  destruct (open_ok s Hr) as (dev & -> & Ed). cbn [negb Z.eqb lg_set_dev lg_dev lg_info].
  destruct (lf_erase_law dev 0 (total s)) as (dev' & -> & E'); [lia..|rewrite Ed; lia|apply Z.divide_0_r|done|]. cbn [negb Z.eqb].
  assert (lf_bytes dev' = blank (Z.to_nat (total s))) as Eb.
  { rewrite E'. unfold splice, blank. rewrite take_0, drop_ge, app_nil_r by (rewrite Ed, length_replicate; lia). done. }
  eexists. split; [done|]. split; [|done]. split; [|by constructor|done|].
  - split; try done. simpl. rewrite lf_close_law, Eb. unfold blank. rewrite length_replicate. lia.
  - exists (blank (Z.to_nat (total s))). cbn [lg_dev lg_set_resync lg_set_offset lg_set_dev close_ write_offset]. rewrite lf_close_law, Eb. split; [done|]. intros _.
    pose proof (room_total 0 (total s) G2 G3 ltac:(lia)). destruct (room_spec 0 G2 ltac:(lia)) as [? _]. unfold blank. rewrite take_replicate. f_equal. lia.
Qed.

Definition record_at (e : option Z * list Z) : log_record := (mini_log_tick_value e.1, e.2).
(** Records one after the other, up to the first error. *)
Fixpoint log_all (s : logger) (es : list (option Z * list Z)) : option (Z * logger) :=
  match es with
  | [] => Some (MINI_LOG_OK, s)
  | (now, data) :: es =>
      '(r, s) ← mini_log_flash_write_record CRC_MODE s now (Some data) (Z.of_nat (length data));
      if negb (r =? MINI_LOG_OK) then Some (r, s) else log_all s es
  end.
Lemma log_all_ok es : ∀ s rs, log_inv s rs -> Forall (record_ok (total s) (gran s)) (record_at <$> es) ->
  ∃ s', log_all s es = Some (MINI_LOG_OK, s') /\ log_inv s' (foldl (lap (total s) (gran s)) rs (record_at <$> es)) /\ lg_info s' = lg_info s.
Proof.
  induction es as [|[now data] es IH]; intros s rs Hinv Hes; [by exists s|]. apply Forall_cons_1 in Hes as [Hok Hes].
  assert (0 < Z.of_nat (length data)) by (apply rk_some in Hok; destruct data; [done|simpl; lia]).
  destruct (write_record_ok s rs now data (Z.of_nat (length data)) _ Hinv eq_refl) as (s1 & E1 & Hinv1 & I1 & _);
    [lia|by rewrite Nat2Z.id, firstn_all|]. cbn [log_all]. rewrite E1. cbn [mbind option_bind negb Z.eqb MINI_LOG_OK].
  rewrite Nat2Z.id, firstn_all in Hinv1. fold (record_at (now, data)) in Hinv1.
  destruct (IH s1 _ Hinv1) as (s2 & E2 & Hinv2 & I2); [by rewrite I1|]. exists s2. split; [done|]. rewrite I1 in Hinv2. split; [done|congruence].
Qed.

(** The state after a start of the program that registers the flash. *)
Definition started (dev : F) (i : mini_log_flash_info_t) : logger := (mini_log_flash_register_cxt (logger_zero dev) (Some true) (Some i)).2.
Record info_ok (i : mini_log_flash_info_t) : Prop := {
  io_geo : geometry_ok (total_size i) sector (log_aligned i);
  io_sector : sector_size i = sector;
  io_gran : 0 <= write_gran i
}.
Lemma pow2_land k : 0 <= k -> Z.land (2 ^ k) (2 ^ k - 1) = 0.
Proof. intros Hk. rewrite Z.sub_1_r, <- Z.ones_equiv, Z.land_ones by done. apply Z.mod_same. pose proof (pow2_pos k Hk). lia. Qed.
Lemma started_eq (dev : F) i :
  info_ok i -> mini_log_flash_register_cxt (logger_zero dev) (Some true) (Some i)
  = (MINI_LOG_OK, lg_set_init (lg_set_offset (lg_set_info (lg_set_resync (lg_set_init (logger_zero dev) false) false) i) 0) true).
Proof.
  intros [[G1 G2 G3 G4 G5] Hs Hw]. unfold mini_log_flash_register_cxt. cbn [negb]. rewrite Hs.
  destruct (Z.eqb_spec (total_size i) 0); [lia|]. destruct (Z.eqb_spec sector 0); [lia|]. cbn [orb].
  rewrite (proj2 (Z.mod_divide _ sector ltac:(lia)) G3). cbn [negb Z.eqb].
  assert ((negb (write_gran i =? 0) && negb (Z.land (write_gran i) (write_gran i - 1) =? 0)) = false) as ->; [|done].
  destruct (Z.eqb_spec (write_gran i) 0) as [|Hne]; [done|]. unfold log_aligned in G4. destruct (Z.gtb_spec (write_gran i) 0); [|lia].
  destruct G4 as (k & Hk & ->). by rewrite pow2_land.
Qed.
Lemma started_ready dev i :
  info_ok i -> Z.of_nat (length (lf_bytes dev)) = total_size i ->
  ready (started dev i) /\ lg_info (started dev i) = i /\ lg_dev (started dev i) = dev.
Proof. intros Hi Hl. unfold started. rewrite (started_eq dev i Hi). destruct Hi. split; [|done]. by split. Qed.

(** Where the [k]th of the records begins. *)
Definition frame_offset (g : Z) (rs : list log_record) (k : nat) : Z := Z.of_nat (length (frames_of g (take k rs))).
Lemma frames_split g (rs : list log_record) k r :
  rs !! k = Some r -> frames_of g rs = frames_of g (take k rs) ++ frame_of g r ++ frames_of g (drop (S k) rs).
Proof. intros E. rewrite <- (take_drop_middle _ _ _ E) at 1. unfold frames_of. by rewrite fmap_app, fmap_cons, concat_app. Qed.
Lemma read_back s rs rest k r :
  ready s -> Forall (record_ok (total s) (gran s)) rs -> bytes s = frames_of (gran s) rs ++ rest -> rs !! k = Some r ->
  ∃ s', mini_log_read_from_flash s (frame_offset (gran s) rs k) (frame_size (gran s) r) = Some (MINI_LOG_OK, s') /\
    take (length (frame_body r)) (flash_frame_buf s') = frame_body r.
Proof.
  intros Hr Hrs Hb E. pose proof Hr as [Hg R2 R3 R4 R5 R6]. pose proof Hg as [G1 G2 G3 G4 G5].
  pose proof (proj1 (Forall_lookup _ _) Hrs k r E) as Hok. destruct (rk_fits _ _ _ Hok) as [Hf1 Hf2].
  pose proof (frame_size_spec _ _ _ Hg r) as Hsz. pose proof (frame_of_length _ _ _ Hg r) as Hfl.
  rewrite (frames_split _ _ _ _ E), <- !app_assoc in Hb. rewrite Hb, !length_app, Hfl in R6.
  set (pre := frames_of (gran s) (take k rs)) in *. unfold frame_offset. fold pre. unfold mini_log_read_from_flash. rewrite R3. cbn [negb].
  destruct (Z.eqb_spec (frame_size (gran s) r) 0); [lia|]. destruct (Z.geb_spec (Z.of_nat (length pre)) (total s)); [lia|]. cbn [orb].
  destruct (Z.gtb_spec (frame_size (gran s) r) (total s - Z.of_nat (length pre))); [lia|]. change MINI_LOG_FLASH_RING_SIZE with 512.
  destruct (Z.gtb_spec (frame_size (gran s) r) 512); [lia|]. rewrite R2.
  match goal with |- context [lf_open (lg_dev s) ?b sector ?n] => destruct (lf_open_law (lg_dev s) b n) as (dev & -> & Ed) end. cbn [negb Z.eqb].
  assert (ready (lg_set_dev s dev)) as Hr1 by (split; try done; simpl; by rewrite Ed, Hb, !length_app, Hfl).
  destruct (read_frame_ok (lg_set_dev s dev) (Z.of_nat (length pre)) 0 (frame_size (gran s) r)) as (s1 & -> & S1 & _ & _ & B1); [done|simpl; lia..|].
  cbn [mbind option_bind Z.eqb]. eexists. split; [done|]. cbn [close_ lg_set_dev flash_frame_buf]. rewrite B1. simpl lg_dev. rewrite Ed, Hb, Nat2Z.id, drop_app_length.
  rewrite <- Hfl, take_app_length. unfold splice. change (Z.to_nat 0) with 0%nat. rewrite take_0. cbn [app]. unfold frame_of. rewrite <- !app_assoc. apply take_app_length.
Qed.

(** C22: Life of a log.  On a working flash of any content, a program that registers it, cleans
    it and writes records gets success for each of them.  The program started again finds the
    records since the log last went back to the start of the partition: it counts exactly these,
    can read back each of them with its time, and will go on behind the last one, at the next
    sector if fewer than 10 bytes of this one are left, without having changed the flash. *)
Theorem log_recovers dev i es :
  info_ok i -> Z.of_nat (length (lf_bytes dev)) = total_size i ->
  let g := log_aligned i in
  let rs := last_lap (total_size i) g (record_at <$> es) in
  Forall (record_ok (total_size i) g) (record_at <$> es) ->
  ∃ s1 s2 s3, mini_log_flash_clean_all (started dev i) = (MINI_LOG_OK, s1) /\
    log_all s1 es = Some (MINI_LOG_OK, s2) /\
    mini_log_flash_recover CRC_MODE (started (lg_dev s2) i) = Some (MINI_LOG_OK, Z.of_nat (length rs), s3) /\
    (write_offset s3 = write_offset s2 \/ room (write_offset s2) < 10 /\ write_offset s3 = erase_to (write_offset s2)) /\ bytes s3 = bytes s2 /\
    ∀ k r, rs !! k = Some r -> ∃ s4, mini_log_read_from_flash s3 (frame_offset g rs k) (frame_size g r) = Some (MINI_LOG_OK, s4) /\
      handle_of (take 10 (flash_frame_buf s4)) = frame_handle_of r /\ take (length r.2) (drop 10 (flash_frame_buf s4)) = r.2.
Proof.
  intros Hi Hl g rs Hes. destruct (started_ready dev i Hi Hl) as (Hr0 & I0 & D0).
  destruct (clean_ok _ Hr0) as (s1 & E1 & Hinv1 & I1 & _). rewrite I0 in I1.
  destruct (log_all_ok es s1 [] Hinv1) as (s2 & E2 & Hinv2 & I2); [by rewrite I1|]. rewrite I1 in Hinv2, I2.
  change (foldl _ [] (record_at <$> es)) with rs in Hinv2. destruct Hinv2 as [Hr2 Hrs Ho (rest & Hb & Hgap)].
  pose proof (rd_bytes _ Hr2) as Hl2. rewrite I2 in *. fold g in Hrs, Ho, Hb.
  destruct (started_ready (lg_dev s2) i Hi Hl2) as (Hr3 & I3 & D3).
  destruct (recover_ok (started (lg_dev s2) i) rs rest) as (s3 & E3 & Hr4 & B4 & I4 & Hw); [done|rewrite I3; done|rewrite I3, D3; done|rewrite I3; fold g; by rewrite <- Ho|].
  rewrite I3 in I4. rewrite D3 in B4. rewrite I3 in Hw. fold g in Hw. rewrite <- Ho in Hw.
  exists s1, s2, s3. split; [done|]. split; [done|]. split; [done|]. split; [done|]. split; [done|]. intros k r Ek.
  destruct (read_back s3 rs rest k r) as (s4 & E4 & Hbody); [done|rewrite I4; done|rewrite I4, B4; done|done|]. rewrite I4 in E4. fold g in E4.
  exists s4. split; [done|]. pose proof (proj1 (Forall_lookup _ _) Hrs k r Ek) as Hok. pose proof (record_len _ _ _ (io_geo _ Hi) r Hok) as Hrl.
  assert (length (frame_body r) = 10 + length r.2)%nat as Hbl by (unfold frame_body; by rewrite length_app, handle_length).
  split.
  - replace (take 10 (flash_frame_buf s4)) with (take 10 (frame_body r)) by (rewrite <- Hbody, take_take; f_equal; lia).
    unfold frame_body. rewrite take_app_length' by done. apply handle_of_bytes; [done|unfold frame_handle_of, is_u16; simpl; lia|apply Hok|apply crc_of_u16].
  - replace (take (length r.2) (drop 10 (flash_frame_buf s4))) with (take (length r.2) (drop 10 (frame_body r)))
      by (rewrite <- Hbody, skipn_firstn_comm, take_take; f_equal; lia).
    unfold frame_body. by rewrite drop_app_length', firstn_all.
Qed.

(** ** Lines *)

(** The bytes of the ring become records at a newline or when the line buffer is full. *)
Fixpoint split_lines (part bs : list Z) : list (list Z) * list Z :=
  match bs with
  | [] => ([], part)
  | c :: bs =>
      let p := part ++ [c] in
      if (c =? newline) || (Z.of_nat (length p) =? MINI_LOG_MAX_LEN) then let '(ls, q) := split_lines [] bs in (p :: ls, q)
      else split_lines p bs
  end.
Lemma split_lines_app a b : ∀ part,
  split_lines part (a ++ b) = let '(l1, p1) := split_lines part a in let '(l2, p2) := split_lines p1 b in (l1 ++ l2, p2).
Proof.
  induction a as [|c a IH]; intros part; cbn [app split_lines]; [by destruct (split_lines part b)|]. rewrite !IH.
  destruct (_ || _); [|done]. destruct (split_lines [] a) as [l1 p1]. by destruct (split_lines p1 b).
Qed.
Lemma split_lines_concat bs : ∀ part, part ++ bs = concat (split_lines part bs).1 ++ (split_lines part bs).2.
Proof.
  induction bs as [|c bs IH]; intros part; cbn [split_lines]; [by rewrite app_nil_r|].
  destruct (_ || _); [|by rewrite <- IH, <- app_assoc]. specialize (IH []). destruct (split_lines [] bs) as [ls q]. simpl in *.
  by rewrite <- !app_assoc, <- IH.
Qed.
(** A line that ends in a newline leaves nothing behind. *)
Lemma split_lines_end bs : ∀ part, (split_lines part (bs ++ [newline])).2 = [].
Proof. intros part. rewrite split_lines_app. destruct (split_lines part bs) as [l1 p1]. done. Qed.

Definition lines_fit (tot g : Z) : Prop := (10 + 128 + (g - 1)) / g * g <= 512 /\ (10 + 128 + (g - 1)) / g * g <= tot.
Lemma line_record_ok tot g now p :
  geometry_ok tot sector g -> lines_fit tot g -> p ≠ [] -> (length p <= 128)%nat -> Forall is_u8 p -> record_ok tot g (mini_log_tick_value now, p).
Proof.
  intros Hg [F1 F2] Hne Hp H8. destruct Hg as [_ _ _ (k & Hk & ->) _]. pose proof (pow2_pos k Hk).
  assert (frame_size (2 ^ k) (mini_log_tick_value now, p) <= (10 + 128 + (2 ^ k - 1)) / 2 ^ k * 2 ^ k).
  { unfold frame_size. apply Z.mul_le_mono_nonneg_r; [lia|]. apply Z.div_le_mono; simpl; lia. }
  split; [|done|done|lia]. simpl. unfold mini_log_tick_value. destruct (_ <? 0); [by vm_compute|apply u32_range].
Qed.

(** The line buffer holds [part], the ring holds [pend]. *)
Definition byte_ring (h : fifo_uni_spsc) (n : nat) (pend : list Z) : Prop :=
  uni_wf h /\ uni_cap h = n /\ uni_item h = 1%nat /\ uni_contents h = pend.
Record line_inv (s : logger) (rs : list log_record) (part : list Z) : Prop := {
  ln_log : log_inv s rs;
  ln_fit : lines_fit (total s) (gran s);
  ln_buf : length (flash_line_buf s) = 128%nat;
  ln_len : flash_line_len s = Z.of_nat (length part) /\ (length part < 128)%nat;
  ln_part : take (length part) (flash_line_buf s) = part;
  ln_u8 : Forall is_u8 part;
  ln_resync : flash_resync s = false
}.
Definition keeps (s s' : logger) : Prop :=
  lg_ring s' = lg_ring s /\ lg_console s' = lg_console s /\ flash_ring s' = flash_ring s /\ lg_info s' = lg_info s.

Definition log_at (tot g : Z) (now : option Z) (rs : list log_record) (ls : list (list Z)) : list log_record :=
  foldl (lap tot g) rs (pair (mini_log_tick_value now) <$> ls).
Lemma log_at_app tot g now rs l1 l2 : log_at tot g now rs (l1 ++ l2) = log_at tot g now (log_at tot g now rs l1) l2.
Proof. unfold log_at. by rewrite fmap_app, foldl_app. Qed.

Lemma flush_bytes_ok now bs : ∀ s rs part,
  line_inv s rs part -> Forall is_u8 bs ->
  ∃ s', flush_bytes CRC_MODE s now bs = Some (inr s') /\
    line_inv s' (log_at (total s) (gran s) now rs (split_lines part bs).1) (split_lines part bs).2 /\ keeps s s'.
Proof.
  induction bs as [|c bs IH]; intros s rs part Hinv H8; [by exists s|]. apply Forall_cons_1 in H8 as [Hc H8].
  pose proof Hinv as [Hlog Hfit Hbuf [Hlen Hlt] Hpart Hp8 Hres].
  cbn [flush_bytes split_lines]. rewrite Hres. rewrite arr_set_in by lia. cbn [mbind option_bind].
  rewrite Hlen, Nat2Z.id, <- (Z2Nat.id (Z.of_nat (length part) + 1)) by lia.
  set (b := <[length part := c]> (flash_line_buf s)).
  assert (take (length (part ++ [c])) b = part ++ [c]) as Hb.
  { rewrite length_app, Nat.add_1_r. rewrite (take_S_r _ _ c) by (apply list_lookup_insert_eq; lia). subst b. by rewrite take_insert_ge, Hpart by lia. }
  assert (Z.of_nat (length part) + 1 = Z.of_nat (length (part ++ [c]))) as El by (rewrite length_app; simpl; lia).
  rewrite El, Z2Nat.id by lia. change (flash_line_len (lg_set_line s b (Z.of_nat (length (part ++ [c]))))) with (Z.of_nat (length (part ++ [c]))).
  assert (Forall is_u8 (part ++ [c])) as Hpc by (apply Forall_app; split; [done|by constructor]).
  destruct ((c =? newline) || (Z.of_nat (length (part ++ [c])) =? MINI_LOG_MAX_LEN)) eqn:Eb.
  - assert (log_inv (lg_set_line s b (Z.of_nat (length (part ++ [c])))) rs) as Hlog1 by (destruct Hlog as [[] ? ? ?]; by split).
    destruct (write_record_ok _ rs now b (Z.of_nat (length (part ++ [c]))) _ Hlog1 eq_refl) as (s1 & E1 & Hlog2 & I2 & K1 & K2 & K3 & K4 & K5 & K6).
    { unfold b. rewrite length_insert, length_app. simpl. lia. }
    { rewrite Nat2Z.id, Hb. apply line_record_ok; [apply Hlog|done|by destruct part|rewrite length_app; simpl; lia|done]. }
    cbn [flash_line_buf lg_set_line]. rewrite E1. cbn [mbind option_bind negb Z.eqb MINI_LOG_OK]. rewrite Nat2Z.id, Hb in Hlog2.
    destruct (IH (lg_set_line s1 (flash_line_buf s1) 0) (lap (total s) (gran s) rs (mini_log_tick_value now, part ++ [c])) []) as (s2 & -> & Hinv2 & K2');
      [|done|].
    + split; try done; simpl.
      * destruct Hlog2 as [[] ? ? ?]; by split.
      * by rewrite I2.
      * rewrite K3. simpl. unfold b. by rewrite length_insert.
      * split; [done|lia].
      * by rewrite K5.
    + exists s2. split; [done|]. simpl in Hinv2. rewrite I2 in Hinv2. simpl in Hinv2. unfold keeps in *. simpl in K2'.
      destruct (split_lines [] bs) as [ls q]. split; [done|]. destruct K2' as (-> & -> & -> & ->). by rewrite K1, K2, K6, I2.
  - apply orb_false_iff in Eb as [_ Eb]. apply Z.eqb_neq in Eb. unfold MINI_LOG_MAX_LEN in Eb. rewrite length_app in Eb. simpl in Eb.
    destruct (IH (lg_set_line s b (Z.of_nat (length (part ++ [c])))) rs (part ++ [c])) as (s2 & -> & Hinv2 & K2'); [|done|by exists s2].
    split; try done; simpl.
    + destruct Hlog as [[] ? ? ?]; by split.
    + unfold b. by rewrite length_insert.
    + split; [done|rewrite length_app; simpl; lia].
Qed.

(** *** The rings *)

Lemma read_piece h n pend :
  byte_ring h n pend -> pend ≠ [] ->
  let k := Nat.min 128 (length pend) in
  ∃ h' r chunk, fifo_uni_read_block (Some h) (Some (replicate 128 0)) 128 (Some 0) = Some (r, Some h', Some chunk, Some (Z.of_nat k)) /\
    take k chunk = take k pend /\ byte_ring h' n (drop k pend).
Proof.
  intros (Hwf & Hcap & Hitem & Hc) Hne k. pose proof (uni_contents_length h Hwf) as Hl. rewrite Hc, Hitem, Nat.mul_1_r in Hl.
  assert (length pend ≠ 0%nat) by (by destruct pend).
  destruct (fifo_uni_read_block_ok h (replicate 128 0) 128 (Some 0)) as (h' & E & Hwf' & Hcap' & Hitem' & _ & Hc');
    [done|lia|rewrite Hitem, length_replicate; lia|lia|]. rewrite Hitem, <- Hl, Nat.mul_1_r in E, Hc'. change (Z.to_nat 128) with 128%nat in *. fold k in E, Hc'.
  rewrite Hc in E, Hc'. eexists h', _, _. split; [exact E|]. split.
  - rewrite take_app_le by (rewrite length_take; lia). rewrite take_take. f_equal. lia.
  - split; [done|]. split; [congruence|]. split; [congruence|done].
Qed.
Lemma read_none h n :
  byte_ring h n [] -> fifo_uni_read_block (Some h) (Some (replicate 128 0)) 128 (Some 0) = Some (BUFF_ERR_EMPTY, Some h, Some (replicate 128 0), Some 0).
Proof.
  intros (Hwf & Hcap & Hitem & Hc). pose proof (uni_contents_length h Hwf) as Hl. rewrite Hc, Hitem in Hl. simpl in Hl.
  rewrite fifo_uni_read_block_empty by (done || lia). done.
Qed.
(** All of the line or none of it. *)
Lemma put_line_ok h n pend fmt len :
  byte_ring h n pend -> Z.of_nat n <= 32768 -> 0 < len <= Z.of_nat (length fmt) ->
  ∃ h', ring_put_line h (Z.of_nat n) fmt len = Some (bool_decide (Z.of_nat (length pend) + len <= Z.of_nat n), h') /\
    byte_ring h' n (if bool_decide (Z.of_nat (length pend) + len <= Z.of_nat n) then pend ++ take (Z.to_nat len) fmt else pend).
Proof.
  intros (Hwf & Hcap & Hitem & Hc) Hn Hlen. pose proof (uni_contents_length h Hwf) as Hl. rewrite Hc, Hitem, Nat.mul_1_r in Hl.
  pose proof (uni_used_le h Hwf) as Hle. rewrite Hcap, <- Hl in Hle. unfold ring_put_line. cbn [fifo_uni_get_count snd mbind option_bind].
  pose proof (u16_range (uni_w_ptr h - uni_r_ptr h)) as Hu. unfold uni_used in Hl. unfold is_u16 in Hu.
  replace (u16 (uni_w_ptr h - uni_r_ptr h)) with (Z.of_nat (length pend)) by lia. rewrite u16_small by lia.
  case_bool_decide as Hfits.
  - destruct (Z.ltb_spec (Z.of_nat n - Z.of_nat (length pend)) len); [lia|].
    destruct (fifo_uni_write_block_ok h fmt len (Some 0)) as (h' & -> & Hwf' & Hcap' & Hitem' & _ & Hc'); [done|lia|rewrite Hitem; lia|unfold uni_used; lia|].
    cbn [mbind option_bind]. exists h'. split; [done|]. split; [done|]. split; [congruence|]. split; [congruence|]. rewrite Hc', Hc, Hitem, Nat.mul_1_r.
    f_equal. f_equal. unfold uni_used. lia.
  - destruct (Z.ltb_spec (Z.of_nat n - Z.of_nat (length pend)) len); [|lia]. exists h. split; [done|]. by split.
Qed.

Lemma line_inv_ring s rs part h : line_inv s rs part -> line_inv (lg_set_flash_ring s h) rs part.
Proof. intros [Hlog ? ? ? ? ? ?]. split; try done. destruct Hlog as [[] ? ? ?]; by split. Qed.
Lemma line_inv_console s rs part h b : line_inv s rs part -> line_inv (lg_set_console (lg_set_ring s h) b) rs part.
Proof. intros [Hlog ? ? ? ? ? ?]. split; try done. destruct Hlog as [[] ? ? ?]; by split. Qed.
Lemma flush_loop_ok now fuel : ∀ s rs part pend,
  line_inv s rs part -> byte_ring (flash_ring s) 512 pend -> Forall is_u8 pend -> (length pend < fuel)%nat ->
  ∃ s', flush_loop CRC_MODE fuel s now = Some (MINI_LOG_OK, s') /\
    line_inv s' (log_at (total s) (gran s) now rs (split_lines part pend).1) (split_lines part pend).2 /\
    byte_ring (flash_ring s') 512 [] /\ lg_ring s' = lg_ring s /\ lg_console s' = lg_console s /\ lg_info s' = lg_info s.
Proof.
  induction fuel as [|fuel IH]; intros s rs part pend Hinv Hring H8 Hfuel; [lia|]. cbn [flush_loop].
  destruct (decide (pend = [])) as [->|Hne]; [rewrite (read_none _ _ Hring); by exists s|].
  destruct (read_piece _ _ _ Hring Hne) as (h' & r & chunk & -> & Hchunk & Hring'). set (k := Nat.min 128 (length pend)) in *.
  assert (0 < k)%nat as Hk by (destruct pend; [done|simpl in k; lia]).
  cbn [mbind option_bind]. destruct (Z.eqb_spec (Z.of_nat k) 0); [lia|]. rewrite Nat2Z.id, Hchunk.
  assert (line_inv (lg_set_flash_ring s h') rs part) as Hinv1 by by apply line_inv_ring.
  destruct (flush_bytes_ok now (take k pend) _ rs part Hinv1) as (s1 & -> & Hinv2 & (K1 & K2 & K3 & K4)); [by apply Forall_take|]. cbn [mbind option_bind].
  simpl in Hinv2, K1, K2, K3, K4.
  destruct (IH s1 _ _ (drop k pend) Hinv2) as (s2 & -> & Hinv3 & Hring3 & L1 & L2 & L3); [by rewrite K3|by apply Forall_drop|rewrite length_drop; lia|].
  exists s2. split; [done|]. rewrite K4 in Hinv3. split; [|split; [done|split; [congruence|split; congruence]]].
  rewrite <- (take_drop k pend), split_lines_app. destruct (split_lines part (take k pend)) as [l1 p1]. cbn [fst snd] in Hinv3 |- *.
  destruct (split_lines p1 (drop k pend)) as [l2 p2]. cbn [fst snd] in Hinv3 |- *. by rewrite log_at_app.
Qed.
Lemma flush_ok now s rs part pend :
  line_inv s rs part -> byte_ring (flash_ring s) 512 pend -> Forall is_u8 pend ->
  ∃ s', mini_log_flash_flush CRC_MODE s now = Some (MINI_LOG_OK, s') /\
    line_inv s' (log_at (total s) (gran s) now rs (split_lines part pend).1) (split_lines part pend).2 /\
    byte_ring (flash_ring s') 512 [] /\ lg_ring s' = lg_ring s /\ lg_console s' = lg_console s /\ lg_info s' = lg_info s.
Proof.
  intros Hinv Hring H8. unfold mini_log_flash_flush. rewrite (rd_init _ (li_ready _ _ (ln_log _ _ _ Hinv))). cbn [negb].
  apply flush_loop_ok; try done. destruct Hring as (Hwf & Hcap & Hitem & Hc). pose proof (uni_contents_length _ Hwf) as Hl.
  pose proof (uni_used_le _ Hwf). rewrite Hc, Hitem in Hl. change (Z.to_nat MINI_LOG_FLASH_RING_SIZE) with 512%nat. lia.
Qed.
Lemma console_ok (s : logger) pend fuel :
  byte_ring (lg_ring s) 1024 pend -> (length pend < fuel)%nat ->
  ∃ h', console_loop fuel s = Some (lg_set_console (lg_set_ring s h') (lg_console s ++ pend)) /\ byte_ring h' 1024 [].
Proof.
  revert s pend. induction fuel as [|fuel IH]; intros s pend Hring Hfuel; [lia|]. cbn [console_loop].
  destruct (decide (pend = [])) as [->|Hne].
  { rewrite (read_none _ _ Hring). cbn [mbind option_bind Z.eqb]. exists (lg_ring s). rewrite app_nil_r. by destruct s. }
  destruct (read_piece _ _ _ Hring Hne) as (h' & r & chunk & -> & Hchunk & Hring'). set (k := Nat.min 128 (length pend)) in *.
  assert (0 < k)%nat as Hk by (destruct pend; [done|simpl in k; lia]). cbn [mbind option_bind]. destruct (Z.eqb_spec (Z.of_nat k) 0); [lia|].
  rewrite Nat2Z.id, Hchunk. destruct (IH (lg_set_console (lg_set_ring s h') (lg_console s ++ take k pend)) (drop k pend)) as (h2 & -> & Hring2);
    [done|rewrite length_drop; lia|]. exists h2. split; [|done]. simpl. by rewrite <- app_assoc, take_drop.
Qed.
Lemma mini_log_flush_ok (s : logger) pend :
  byte_ring (lg_ring s) 1024 pend -> ∃ h', mini_log_flush s = Some (lg_set_console (lg_set_ring s h') (lg_console s ++ pend)) /\ byte_ring h' 1024 [].
Proof.
  intros Hring. apply console_ok; [done|]. destruct Hring as (Hwf & Hcap & Hitem & Hc). pose proof (uni_contents_length _ Hwf) as Hl.
  pose proof (uni_used_le _ Hwf). rewrite Hc, Hitem in Hl. change (Z.to_nat MINI_LOG_RING_SIZE) with 1024%nat. lia.
Qed.

(** *** A session *)

Inductive log_op := LPrint (str : formatted) | LShow | LLog (now : option Z) (str : formatted) | LFlush (now : option Z).
Definition log_exec (s : logger) (op : log_op) : option logger :=
  match op with
  | LPrint str => mini_log_default_output AUTO_FLUSH s str
  | LShow => mini_log_flush s
  | LLog now str => mini_log_flash_output FLASH_AUTO_FLUSH CRC_MODE s now str
  | LFlush now => snd <$> mini_log_flash_flush CRC_MODE s now
  end.

(** What the logger promises: bytes for the console, waiting and received; lines for the
    flash, waiting; records written.  A text is cut at 127 bytes, dropped when it has no room. *)
Record log_spec := mk_ls { ls_waiting : list Z; ls_shown : list Z; ls_lines : list (list Z); ls_records : list log_record }.
Definition text_of (str : formatted) : list Z := match str with FmtText t => take 127 t | _ => [] end.
(** The last byte gives way to the newline. *)
Definition line_of (t : list Z) : list Z := take (length t - 1) t ++ [newline].
Definition spec_show (l : log_spec) : log_spec := mk_ls [] (ls_shown l ++ ls_waiting l) (ls_lines l) (ls_records l).
Definition spec_flush (tot g : Z) (now : option Z) (l : log_spec) : log_spec :=
  mk_ls (ls_waiting l) (ls_shown l) [] (log_at tot g now (ls_records l) (ls_lines l)).
Definition spec_exec (tot g : Z) (l : log_spec) (op : log_op) : log_spec :=
  match op with
  | LPrint str =>
      let t := text_of str in
      if bool_decide (t = [] \/ (1024 < length (ls_waiting l) + length t)%nat) then l else
      let l := mk_ls (ls_waiting l ++ t) (ls_shown l) (ls_lines l) (ls_records l) in
      if AUTO_FLUSH then spec_show l else l
  | LShow => spec_show l
  | LLog now str =>
      let t := text_of str in
      if bool_decide (t = [] \/ (512 < length (concat (ls_lines l)) + length t)%nat) then l else
      let l := mk_ls (ls_waiting l) (ls_shown l) (ls_lines l ++ (split_lines [] (line_of t)).1) (ls_records l) in
      if FLASH_AUTO_FLUSH then spec_flush tot g now l else l
  | LFlush now => spec_flush tot g now l
  end.
Definition op_ok (op : log_op) : Prop :=
  match op with LPrint (FmtText t) | LLog _ (FmtText t) => Forall is_u8 t | _ => True end.
Record refines (s : logger) (l : log_spec) : Prop := {
  rf_line : line_inv s (ls_records l) [];
  rf_ring : byte_ring (flash_ring s) 512 (concat (ls_lines l));
  rf_whole : split_lines [] (concat (ls_lines l)) = (ls_lines l, []);
  rf_u8 : Forall is_u8 (concat (ls_lines l));
  rf_console : byte_ring (lg_ring s) 1024 (ls_waiting l);
  rf_shown : lg_console s = ls_shown l
}.

Lemma format_line_ok str : 
  match format_line str with
  | None => text_of str = []
  | Some (fmt, len) => ∃ t, text_of str = t /\ t ≠ [] /\ len = Z.of_nat (length t) /\ (length t <= 127)%nat /\ length fmt = 128%nat /\ take (length t) fmt = t
  end.
Proof.
  destruct str as [| |t]; [done..|]. unfold format_line, text_of. destruct (Z.leb_spec (Z.of_nat (length t)) 0); [destruct t; [done|simpl in *; lia]|].
  set (x := take 127 t). assert (length x = Nat.min 127 (length t)) as Hx by (unfold x; by rewrite length_take).
  exists x. split; [done|]. split; [intros E; rewrite E in Hx; cbn [length] in Hx; lia|].
  change (Z.to_nat MINI_LOG_MAX_LEN) with 128%nat. change (Z.to_nat (MINI_LOG_MAX_LEN - 1)) with 127%nat. fold x.
  split; [unfold MINI_LOG_MAX_LEN; destruct (Z.ltb_spec (Z.of_nat (length t)) 128); rewrite u16_small; lia|]. split; [lia|].
  split; [rewrite length_take, length_app, length_replicate; lia|]. rewrite take_take, Nat.min_l by lia. apply take_app_length.
Qed.
Lemma text_u8 str : op_ok (LPrint str) -> Forall is_u8 (text_of str).
Proof. destruct str; simpl; try done. by apply Forall_take. Qed.

Lemma line_of_spec t fmt :
  t ≠ [] -> take (length t) fmt = t -> (length t <= length fmt)%nat ->
  ∃ fmt', (last ← arr_get fmt (Z.of_nat (length t) - 1); if negb (last =? newline) then arr_set fmt (Z.of_nat (length t) - 1) newline else Some fmt) = Some fmt' /\
    length fmt' = length fmt /\ take (length t) fmt' = line_of t.
Proof.
  intros Hne Ht Hl. assert (0 < length t)%nat by (destruct t; [done|simpl; lia]).
  destruct (arr_get_in fmt (Z.of_nat (length t) - 1)) as [x Hx]; [lia|]. rewrite Hx. cbn [mbind option_bind].
  assert (fmt !! (length t - 1)%nat = Some x) as Hlk.
  { unfold arr_get in Hx. destruct (0 <=? _); [|done]. by replace (length t - 1)%nat with (Z.to_nat (Z.of_nat (length t) - 1)) by lia. }
  assert (take (length t - 1) fmt = take (length t - 1) t) as Hpre by (rewrite <- Ht at 3; rewrite take_take; f_equal; lia).
  destruct (Z.eqb_spec x newline) as [->|]; cbn [negb].
  - exists fmt. split; [done|]. split; [done|]. unfold line_of. rewrite <- Hpre. replace (length t) with (S (length t - 1)) at 1 by lia. by apply take_S_r.
  - rewrite arr_set_in by lia. eexists. split; [done|]. split; [apply length_insert|]. unfold line_of. rewrite <- Hpre.
    replace (Z.to_nat (Z.of_nat (length t) - 1)) with (length t - 1)%nat by lia. replace (length t) with (S (length t - 1)) at 1 by lia.
    rewrite (take_S_r _ _ newline) by (apply list_lookup_insert_eq; lia). by rewrite take_insert_ge by lia.
Qed.

Lemma spec_exec_print (s : logger) l str :
  refines s l -> ∃ s', mini_log_default_output AUTO_FLUSH s str = Some s' /\ refines s' (spec_exec (total s) (gran s) l (LPrint str)) /\ lg_info s' = lg_info s.
Proof.
  intros Hr. pose proof Hr as [R1 R2 R3 R4 R5 R6]. pose proof (format_line_ok str) as Hf. unfold mini_log_default_output. cbn [spec_exec]. cbv zeta.
  destruct (format_line str) as [[fmt len]|]; [|rewrite Hf, bool_decide_true by auto; eauto].
  destruct Hf as (t & -> & Hne & -> & Hlt & Hfl & Ht). assert (0 < length t)%nat by (destruct t; [done|simpl; lia]).
  destruct (put_line_ok _ _ _ fmt (Z.of_nat (length t)) R5) as (h' & E & Hring); [lia|lia|]. change (Z.of_nat 1024) with MINI_LOG_RING_SIZE in *. rewrite E. cbn [mbind option_bind].
  rewrite Nat2Z.id, Ht in Hring.
  case_bool_decide as Hfits; unfold MINI_LOG_RING_SIZE in Hfits; cbn [negb].
  - rewrite (bool_decide_false (t = [] \/ _)) by (intros [?|?]; [done|lia]).
    assert (refines (lg_set_ring s h') (mk_ls (ls_waiting l ++ t) (ls_shown l) (ls_lines l) (ls_records l))) as Hr'.
    { split; try done. by apply (line_inv_console s _ _ h' (lg_console s)). }
    destruct AUTO_FLUSH; [|eauto]. destruct (mini_log_flush_ok (lg_set_ring s h') _ (rf_console _ _ Hr')) as (h2 & -> & Hring2).
    eexists. split; [done|]. split; [|done]. split; try done; simpl; [by apply (line_inv_console s)|by rewrite R6].
  - rewrite (bool_decide_true (t = [] \/ _)) by (right; lia). eauto.
Qed.
Lemma spec_exec_flush (s : logger) l now :
  refines s l -> ∃ s', mini_log_flash_flush CRC_MODE s now = Some (MINI_LOG_OK, s') /\ refines s' (spec_flush (total s) (gran s) now l) /\ lg_info s' = lg_info s.
Proof.
  intros [R1 R2 R3 R4 R5 R6]. destruct (flush_ok now s _ [] _ R1 R2 R4) as (s' & -> & Hl & Hring & E1 & E2 & E3). rewrite R3 in Hl. cbn [fst snd] in Hl.
  exists s'. split; [done|]. split; [|done]. split; try done; simpl; [by rewrite E1|by rewrite E2].
Qed.
Lemma spec_exec_log (s : logger) l now str :
  refines s l -> op_ok (LLog now str) ->
  ∃ s', mini_log_flash_output FLASH_AUTO_FLUSH CRC_MODE s now str = Some s' /\ refines s' (spec_exec (total s) (gran s) l (LLog now str)) /\ lg_info s' = lg_info s.
Proof.
  intros Hr Hop. pose proof Hr as [R1 R2 R3 R4 R5 R6]. pose proof (format_line_ok str) as Hf. pose proof (text_u8 str Hop) as Hu.
  unfold mini_log_flash_output. cbn [spec_exec]. cbv zeta.
  destruct (format_line str) as [[fmt len]|]; [|rewrite Hf, bool_decide_true by auto; eauto].
  destruct Hf as (t & Et & Hne & -> & Hlt & Hfl & Ht). rewrite Et in *. assert (0 < length t)%nat by (destruct t; [done|simpl; lia]).
  destruct (line_of_spec t fmt Hne Ht) as (fmt' & E & Hfl' & Hline); [lia|].
  destruct (arr_get fmt (Z.of_nat (length t) - 1)) as [x|]; [|done]. cbn [mbind option_bind] in E |- *. rewrite E. cbn [mbind option_bind].
  destruct (put_line_ok _ _ _ fmt' (Z.of_nat (length t)) R2) as (h' & E' & Hring); [lia|lia|]. change (Z.of_nat 512) with MINI_LOG_FLASH_RING_SIZE in *. rewrite E'. cbn [mbind option_bind].
  rewrite Nat2Z.id, Hline in Hring. case_bool_decide as Hfits; unfold MINI_LOG_FLASH_RING_SIZE in Hfits; cbn [negb].
  - rewrite (bool_decide_false (t = [] \/ _)) by (intros [?|?]; [done|lia]).
    pose proof (split_lines_concat (line_of t) []) as Hc. pose proof (split_lines_end (take (length t - 1) t) []) as Hs. fold (line_of t) in Hs. cbn [app] in Hc.
    rewrite Hs, app_nil_r in Hc. destruct (split_lines [] (line_of t)) as [ls q] eqn:El. cbn [fst snd] in *. subst q.
    assert (concat (ls_lines l ++ ls) = concat (ls_lines l) ++ line_of t) as Ec by (by rewrite concat_app, <- Hc).
    assert (refines (lg_set_flash_ring s h') (mk_ls (ls_waiting l) (ls_shown l) (ls_lines l ++ ls) (ls_records l))) as Hr'.
    { split; try done; simpl; rewrite ?Ec; [by apply line_inv_ring|done|by rewrite split_lines_app, R3, El|].
      apply Forall_app. split; [done|]. apply Forall_app. split; [by apply Forall_take|repeat constructor]; unfold newline; lia. }
    destruct FLASH_AUTO_FLUSH; [|eauto]. destruct (spec_exec_flush _ _ now Hr') as (s2 & -> & Hr2 & I2). exists s2. done.
  - rewrite (bool_decide_true (t = [] \/ _)) by (right; lia). eauto.
Qed.
Lemma spec_exec_ok (s : logger) l op :
  refines s l -> op_ok op -> ∃ s', log_exec s op = Some s' /\ refines s' (spec_exec (total s) (gran s) l op) /\ lg_info s' = lg_info s.
Proof.
  intros Hr Hop. destruct op as [str| |now str|now].
  - by apply spec_exec_print.
  - destruct (mini_log_flush_ok s _ (rf_console _ _ Hr)) as (h' & E & Hring). simpl. rewrite E. eexists. split; [done|]. split; [|done].
    destruct Hr as [R1 R2 R3 R4 R5 R6]. split; try done; simpl; [by apply line_inv_console|by rewrite R6].
  - by apply spec_exec_log.
  - destruct (spec_exec_flush s l now Hr) as (s' & E & Hr' & I'). simpl. rewrite E. exists s'. done.
Qed.
Lemma static_ring_ok k : 0 <= k <= 15 -> byte_ring (static_ring (2 ^ k)) (Z.to_nat (2 ^ k)) [].
Proof.
  intros Hk. pose proof (pow2_pos k ltac:(lia)). assert (uni_wf (static_ring (2 ^ k))) as Hwf.
  { split; simpl; try (unfold is_u16; lia); [by exists k|rewrite length_replicate; lia|]. change (u16 (0 - 0)) with 0. lia. }
  repeat split; try apply Hwf.
Qed.
Fixpoint log_run (s : logger) (ops : list log_op) : option logger :=
  match ops with [] => Some s | op :: ops => s ← log_exec s op; log_run s ops end.

(** C23: Lines.  Any sequence of prints, log lines and flushes after a program has registered
    and cleaned a working flash behaves as the abstract logger does: a text, cut at 127 bytes,
    is taken whole or, without room in the ring, not at all; the console receives the accepted
    bytes in order; each line for the flash becomes one record, with the time of the flush, in
    the order of the calls, wherever pieces of 128 bytes cut the stream; nothing fails, and at
    the end the flash holds the frames of these records since the log last began again. *)
Theorem log_lines_recorded dev i ops :
  info_ok i -> Z.of_nat (length (lf_bytes dev)) = total_size i -> lines_fit (total_size i) (log_aligned i) -> Forall op_ok ops ->
  ∃ s1 s2, mini_log_flash_clean_all (started dev i) = (MINI_LOG_OK, s1) /\ log_run s1 ops = Some s2 /\
    let l := foldl (spec_exec (total_size i) (log_aligned i)) (mk_ls [] [] [] []) ops in
    lg_console s2 = ls_shown l /\ uni_contents (lg_ring s2) = ls_waiting l /\ uni_contents (flash_ring s2) = concat (ls_lines l) /\
    ∃ rest, bytes s2 = frames_of (log_aligned i) (ls_records l) ++ rest.
Proof.
  intros Hi Hl Hfit Hops. destruct (started_ready dev i Hi Hl) as (Hr0 & I0 & D0).
  destruct (clean_ok _ Hr0) as (s1 & E1 & Hinv1 & I1 & K1 & K2 & K3 & K4 & K5 & K6). rewrite I0 in I1. exists s1.
  assert (∀ ops s l, Forall op_ok ops -> refines s l -> lg_info s = i ->
    ∃ s', log_run s ops = Some s' /\ refines s' (foldl (spec_exec (total_size i) (log_aligned i)) l ops) /\ lg_info s' = i) as Hrun.
  { clear. intros ops. induction ops as [|op ops IH]; intros s l Hops Hr I; [by exists s|]. apply Forall_cons_1 in Hops as [Hop Hops].
    destruct (spec_exec_ok s l op Hr Hop) as (s1 & E & Hr1 & I1). rewrite I in Hr1, I1. destruct (IH s1 _ Hops Hr1 I1) as (s2 & E2 & H2).
    exists s2. cbn [log_run]. by rewrite E. }
  destruct (Hrun ops s1 (mk_ls [] [] [] []) Hops) as (s2 & E2 & [R1 R2 R3 R4 R5 R6] & I2); [|done|].
  { split; cbn [ls_records ls_lines ls_waiting ls_shown concat]; rewrite ?K1, ?K2, ?K3; unfold started; rewrite ?(started_eq dev i Hi); [|by apply (static_ring_ok 9)|done|done|by apply (static_ring_ok 10)|done].
    split; rewrite ?I1, ?K4, ?K5; unfold started; rewrite ?(started_eq dev i Hi); try done. split; [done|simpl; lia]. }
  exists s2. split; [done|]. split; [done|]. cbv zeta. split; [done|]. split; [apply R5|]. split; [apply R2|].
  destruct (li_view _ _ (ln_log _ _ _ R1)) as (rest & Hb & _). exists rest. by rewrite Hb, I2.
Qed.
End logger_laws.

(** ** A flash in memory *)

(** The bytes of a NOR flash: a write clears bits, an erase sets them. *)
Record nor := mk_nor { nor_bytes : list Z }.
Definition nor_program (b : list Z) (off : Z) (d : list Z) : list Z :=
  splice b (Z.to_nat off) (zip_with Z.land d (take (length d) (drop (Z.to_nat off) b))).
#[export] Instance nor_flash : LogFlash nor := {|
  lf_open f _ _ _ := (0, f);
  lf_close f := f;
  lf_erase f off len := (0, mk_nor (splice (nor_bytes f) (Z.to_nat off) (blank (Z.to_nat len))));
  lf_write f off d := (0, mk_nor (nor_program (nor_bytes f) off d));
  lf_read f off len := (0, take (Z.to_nat len) (drop (Z.to_nat off) (nor_bytes f)))
|}.
Lemma land_blank d : Forall is_u8 d -> zip_with Z.land d (blank (length d)) = d.
Proof.
  induction 1 as [|x d Hx Hd IH]; [done|]. simpl. unfold blank in IH. rewrite IH. f_equal. change 255 with (Z.ones 8).
  rewrite Z.land_ones by lia. by apply Z.mod_small.
Qed.
#[export] Instance nor_flash_laws sector : LogFlashLaws nor sector.
Proof.
  refine {| lf_bytes := nor_bytes |}; simpl; try done.
  - eauto.
  - eauto.
  - intros f off d Ho Hl H8 Hb. eexists. split; [done|]. simpl. unfold nor_program. by rewrite Hb, land_blank.
Defined.

(** A flash whose next writes may fail after a number of bytes. *)
Record flaky := mk_flaky { fl_bytes : list Z; fl_fails : list (option nat) }.
#[export] Instance flaky_flash : LogFlash flaky := {|
  lf_open f _ _ _ := (0, f);
  lf_close f := f;
  lf_erase f off len := (0, mk_flaky (splice (fl_bytes f) (Z.to_nat off) (blank (Z.to_nat len))) (fl_fails f));
  lf_write f off d := match fl_fails f with
    | Some k :: fs => (1, mk_flaky (nor_program (fl_bytes f) off (take k d)) fs)
    | None :: fs => (0, mk_flaky (nor_program (fl_bytes f) off d) fs)
    | [] => (0, mk_flaky (nor_program (fl_bytes f) off d) [])
    end;
  lf_read f off len := (0, take (Z.to_nat len) (drop (Z.to_nat off) (fl_bytes f)))
|}.

(** ** Witnesses *)

Definition small_info : mini_log_flash_info_t := mk_info 0 640 64 4.
Lemma small_info_ok : info_ok (sector := 64) small_info.
Proof. constructor; [constructor; simpl; [lia|lia|by exists 10|by exists 2|by vm_compute]|done|by vm_compute]. Qed.

(** Three records; the third begins the partition again. *)
Definition three_records : list (option Z * list Z) := [(Some 7, replicate 300 65); (None, replicate 200 66); (Some 9, replicate 150 67)].
Lemma log_recovers_witness :
  let rs := last_lap 640 4 (record_at <$> three_records) in
  rs = [(9, replicate 150 67)] /\
  ∃ s1 s2 s3, mini_log_flash_clean_all (started (mk_nor (replicate 640 7)) small_info) = (MINI_LOG_OK, s1) /\
    log_all true s1 three_records = Some (MINI_LOG_OK, s2) /\
    mini_log_flash_recover true (started (lg_dev s2) small_info) = Some (MINI_LOG_OK, Z.of_nat (length rs), s3) /\
    (write_offset s3 = write_offset s2 \/ room (sector := 64) (write_offset s2) < 10 /\ write_offset s3 = erase_to (sector := 64) (write_offset s2)) /\
    lf_bytes (sector := 64) (lg_dev s3) = lf_bytes (sector := 64) (lg_dev s2) /\
    ∀ k r, rs !! k = Some r -> ∃ s4, mini_log_read_from_flash s3 (frame_offset 4 rs k) (frame_size 4 r) = Some (MINI_LOG_OK, s4) /\
      handle_of (take 10 (flash_frame_buf s4)) = frame_handle_of r /\ take (length r.2) (drop 10 (flash_frame_buf s4)) = r.2.
Proof.
  split; [by vm_compute|]. apply (log_recovers (sector := 64) true (mk_nor (replicate 640 7)) small_info three_records).
  - apply small_info_ok.
  - reflexivity.
  - repeat constructor; try (vm_compute; congruence); simpl; try discriminate; apply Forall_replicate; unfold is_u8; lia.
Defined.

Definition a_session : list log_op :=
  [LPrint (FmtText [72; 105; 10]); LLog (Some 5) (FmtText (replicate 300 65)); LLog (Some 6) (FmtText [66; 10; 67; 10]); LShow; LFlush (Some 8);
   LLog None (FmtText [68; 68]); LPrint FmtNull].
Lemma log_lines_recorded_witness :
  ∃ s1 s2, mini_log_flash_clean_all (started (mk_nor (replicate 640 7)) small_info) = (MINI_LOG_OK, s1) /\
    log_run false false true s1 a_session = Some s2 /\
    let l := foldl (spec_exec false false 640 4) (mk_ls [] [] [] []) a_session in
    (ls_shown l = [72; 105; 10] /\ ls_lines l = [[68; 10]] /\ ls_records l = [(8, replicate 126 65 ++ [10]); (8, [66; 10]); (8, [67; 10])]) /\
    lg_console s2 = ls_shown l /\ uni_contents (flash_ring s2) = concat (ls_lines l) /\
    ∃ rest, lf_bytes (sector := 64) (lg_dev s2) = frames_of 4 (ls_records l) ++ rest.
Proof.
  destruct (log_lines_recorded (sector := 64) false false true (mk_nor (replicate 640 7)) small_info a_session) as (s1 & s2 & E1 & E2 & C1 & _ & C2 & C3).
  - apply small_info_ok.
  - reflexivity.
  - split; simpl; vm_compute; discriminate.
  - repeat constructor; simpl; try (apply Forall_replicate); unfold is_u8; lia.
  - exists s1, s2. split; [exact E1|]. split; [exact E2|]. cbv zeta. split; [vm_compute; auto|]. split; [exact C1|]. split; [exact C2|exact C3].
Defined.

(** ** Findings *)

(** Six frames of 28 bytes in a partition of 128, in two sectors: the fifth begins again, and
    8 bytes of the first sector stay blank before the remains of the last lap.  The scan goes
    on at the second sector; the record written there is not found at the next start, and the
    next record takes its place. *)
Definition tiny_info : mini_log_flash_info_t := mk_info 0 128 64 4.
Example records_behind_gap_lost :
  match
    let s := (mini_log_flash_clean_all (started (mk_nor (replicate 128 7)) tiny_info)).2 in
    '(_, s) ← log_all true s (replicate 6 (Some 1, replicate 18 65));
    '(_, n, s) ← mini_log_flash_recover true (started (lg_dev s) tiny_info);
    '(r, s) ← mini_log_flash_write_record true s (Some 2) (Some (replicate 18 66)) 18;
    '(_, n', s') ← mini_log_flash_recover true (started (lg_dev s) tiny_info);
    Some (n, r, write_offset s, n', write_offset s')
  with Some x => x = (2, MINI_LOG_OK, 92, 2, 64) | None => False end.
Proof. by vm_compute. Qed.

(** Lines [a], [b], [c] wait; the write of [a] fails.  The ring is empty after the failure, and
    the line [d] logged afterwards is dropped as well; only [e] is recorded. *)
Example failure_loses_lines :
  match
    let s := started (mk_flaky (replicate 128 255) [Some 0%nat]) tiny_info in
    let say (s : logger flaky) c := mini_log_flash_output false true s (Some 1) (FmtText [c; 10]) in
    s ← say s 97; s ← say s 98; s ← say s 99;
    '(r, s) ← mini_log_flash_flush true s (Some 1);
    s' ← say s 100; s' ← say s' 101;
    '(r', s') ← mini_log_flash_flush true s' (Some 1);
    '(_, n, s2) ← mini_log_flash_recover true (started (lg_dev s') tiny_info);
    '(_, s3) ← mini_log_read_from_flash s2 0 12;
    Some (r, uni_contents (flash_ring s), r', n, take 2 (drop 10 (flash_frame_buf s3)))
  with Some x => x = (MINI_LOG_ERR_FLASH_WRITE, [], MINI_LOG_OK, 1, [101; 10]) | None => False end.
Proof. by vm_compute. Qed.

(** The second write stops after 12 bytes.  The next record goes to the same place, which is not
    erased again: success is reported, but the scan ends before it. *)
Example record_over_remains :
  match
    let s := started (mk_flaky (replicate 128 255) [None; Some 12%nat]) tiny_info in
    let put s c := mini_log_flash_write_record true s (Some 1) (Some [c; c; c; c]) 4 in
    '(_, s) ← put s 65; '(r, s) ← put s 66; '(r', s) ← put s 67; '(r2, s) ← put s 68;
    '(_, n, _) ← mini_log_flash_recover true (started (lg_dev s) tiny_info);
    Some (r, r', r2, n)
  with Some x => x = (MINI_LOG_ERR_FLASH_WRITE, MINI_LOG_OK, MINI_LOG_OK, 1) | None => False end.
Proof. by vm_compute. Qed.

(** A text without a newline loses its last character. *)
Example last_character_lost :
  match mini_log_flash_output false true (logger_zero (mk_nor [])) None (FmtText [97; 98; 99]) with
  | Some s => uni_contents (flash_ring s) = [97; 98; 10] | None => False end.
Proof. by vm_compute. Qed.
