(* ===== verification/SystemC.v ===== *)
(** * System services and start-up

    Models src/system_c/src (safe_state.c, system_wdt.c, system_scrubber.c, task_manager.c,
    system_init.c) and the bare-metal and mini-os branches of src/core/src/mini_time.c, over
    the models of the components they call: the device table and drivers, the event bus, the
    verification of flash areas of mini-ota.  [enter_safe_state] does not return: a call that
    can reach it has the type [run].  The watchdog of a platform is the class [Iwdg]; what the
    OS backend returns (task creation, stack watermarks) is an argument.

    [system_starts]: a healthy system comes up with every device active, the bus sealed and
    the ready event queued.  [scrubber_detects]: a pass of the scrubber freezes the system
    exactly when the running image has another checksum, which every damaged run of four
    bytes causes.  [delay_returns]: the bare-metal delay ends, after its time or a stalled
    clock.  The findings at the end: the boot event is never delivered, the counter against
    boot loops never counts, time on mini-os jumps back after 71 minutes, the scrubber may
    read the wrong partition. *)

From S2P Require Import Prelude Status IntParse Lifecycle Device Driver EventBus Crc ConfigBlob OtaState OtaCrypto OtaImage OtaBoot MiniSched.

From stdpp Require Import gmap.

#[local] Open Scope Z_scope.

(** ** The safe state (safe_state.c) *)

Definition BOOTLOOP_THRESHOLD : Z := 5.
(** What [enter_safe_state] does before it spins. *)
Inductive freeze_act := HardwareLock | SchedFreeze | IrqDisable.
Inductive run (A : Type) := Runs (a : A) | Frozen (acts : list freeze_act).
Arguments Runs {A} a.
Arguments Frozen {A} acts.
Definition run_bind {A B : Type} (m : run A) (f : A -> run B) : run B :=
  match m with Runs a => f a | Frozen acts => Frozen acts end.

Definition enter_safe_state {A : Type} : run A := Frozen [HardwareLock; SchedFreeze; IrqDisable].
(** The argument and the number in the result are [panic_counter]. *)
Definition safe_state_check_bootloop (panic_counter : Z) : run (bool * Z) :=
  if panic_counter >=? BOOTLOOP_THRESHOLD then enter_safe_state else Runs (true, u32 (panic_counter + 1)).
Definition safe_state_clear_bootloop : Z := 0.
(** Its static initialiser. *)
Definition panic_counter_init : Z := 0.

(** ** Watchdogs (system_wdt.c) *)

Class Iwdg (D : Type) := {
  hal_iwdg_init : D -> Z -> Z * D;
  hal_iwdg_start : D -> Z * D;
  hal_iwdg_feed : D -> Z * D;
  hal_iwdg_set_long_timeout : D -> Z * D;
  hal_iwdg_restore_timeout : D -> Z * D
}.

Definition BOARD_STACK_MONITOR_MAX_TASKS : Z := 8.
Record stack_monitor_entry := mk_entry { sme_task : option Z; sme_alarm : Z }.
(** What the check logs of a task. *)
Inductive stack_report := StackOverflowed (task : Z) | StackCritical (task watermark : Z) | StackWarn (task watermark : Z).

Section wdt.
Context {D : Type} `{Iwdg D}.

Record system_wdt := mk_wdt {
  wd_initialized : bool;
  wd_iwdg : D;
  wd_iwdg_active : bool;
  wd_entries : list stack_monitor_entry;
  wd_count : Z
}.
Definition wdt_zero (d : D) : system_wdt :=
  mk_wdt false d false (replicate (Z.to_nat BOARD_STACK_MONITOR_MAX_TASKS) (mk_entry None 0)) 0.
Definition wd_set_iwdg (w : system_wdt) (d : D) (active : bool) : system_wdt := mk_wdt (wd_initialized w) d active (wd_entries w) (wd_count w).

Definition system_wdt_init_iwdg (w : system_wdt) (timeout_ms : Z) : Z * system_wdt :=
  if wd_iwdg_active w then (MINI_OK, w) else
  let '(ret, d) := hal_iwdg_init (wd_iwdg w) timeout_ms in
  let w := wd_set_iwdg w d false in
  if negb (ret =? 0) then (MINI_ERR_IO, w) else
  let '(ret, d) := hal_iwdg_start (wd_iwdg w) in
  let w := wd_set_iwdg w d false in
  if negb (ret =? 0) then (MINI_ERR_IO, w) else (MINI_OK, wd_set_iwdg w (wd_iwdg w) true).
Definition system_wdt_iwdg_set_long_timeout (w : system_wdt) : system_wdt :=
  if negb (wd_iwdg_active w) then w else wd_set_iwdg w (hal_iwdg_set_long_timeout (wd_iwdg w)).2 true.
Definition system_wdt_iwdg_restore_timeout (w : system_wdt) : system_wdt :=
  if negb (wd_iwdg_active w) then w else wd_set_iwdg w (hal_iwdg_restore_timeout (wd_iwdg w)).2 true.
Definition system_wdt_feed_iwdg (w : system_wdt) : system_wdt :=
  if wd_iwdg_active w then wd_set_iwdg w (hal_iwdg_feed (wd_iwdg w)).2 true else w.

Definition system_wdt_stack_monitor_register (w : system_wdt) (task : option Z) (alarm_threshold_bytes : Z)
    : option (Z * system_wdt) :=
  if bool_decide (task = None) || (alarm_threshold_bytes =? 0) then Some (MINI_ERR_INVAL, w) else
  if wd_count w >=? BOARD_STACK_MONITOR_MAX_TASKS then Some (MINI_ERR_NOSPC, w) else
  es ← arr_set (wd_entries w) (wd_count w) (mk_entry task alarm_threshold_bytes);
  Some (MINI_OK, mk_wdt (wd_initialized w) (wd_iwdg w) (wd_iwdg_active w) es (wd_count w + 1)).

(** [watermark] is what the backend reports; the logs in order. *)
Definition stack_check (watermark : Z -> Z) (e : stack_monitor_entry) : list stack_report :=
  match sme_task e with
  | None => []
  | Some task =>
      let wm_bytes := watermark task in
      if wm_bytes =? 0 then [StackOverflowed task] else
      if wm_bytes <? sme_alarm e then [StackCritical task wm_bytes] else
      if wm_bytes <? u32 (sme_alarm e * 2) then [StackWarn task wm_bytes] else []
  end.
Fixpoint stack_check_loop (watermark : Z -> Z) (es : list stack_monitor_entry) (index : Z) (n : nat) : option (list stack_report) :=
  match n with
  | O => Some []
  | S n => e ← arr_get es index; rest ← stack_check_loop watermark es (index + 1) n; Some (stack_check watermark e ++ rest)
  end.
Definition system_wdt_stack_check_all (watermark : Z -> Z) (w : system_wdt) : option (list stack_report) :=
  stack_check_loop watermark (wd_entries w) 0 (Z.to_nat (wd_count w)).

Definition system_wdt_init (w : system_wdt) (timeout_ms : Z) : Z * system_wdt :=
  if wd_initialized w then (MINI_OK, w) else (MINI_OK, mk_wdt true (wd_iwdg w) (wd_iwdg_active w) (wd_entries w) (wd_count w)).
Definition system_wdt_subscribe (w : system_wdt) (task : option Z) : Z :=
  if bool_decide (task = None) then MINI_ERR_INVAL else if negb (wd_initialized w) then MINI_ERR_AGAIN else MINI_OK.
Definition system_wdt_unsubscribe (w : system_wdt) (task : option Z) : Z :=
  if bool_decide (task = None) then MINI_ERR_INVAL else if negb (wd_initialized w) then MINI_ERR_AGAIN else MINI_OK.
Definition system_wdt_feed (w : system_wdt) : system_wdt := w.

(** ** Tasks (task_manager.c) *)

Record board_task_config := mk_tc { tc_name : option cstring; tc_stack_size : Z; tc_priority : Z; tc_core_id : Z }.
(** [backend]: [mini_task_create_handle], its result and the handle it stores. *)
Definition task_manager_create (backend : board_task_config -> Z * option Z) (config : option board_task_config) (entry : bool)
    (w : system_wdt) : option Z :=
  match config with
  | None => None
  | Some cfg =>
      if negb entry then None else
      let '(ret, handle) := backend cfg in
      if negb (ret =? 0) then None else
      let _ := system_wdt_subscribe w handle in handle
  end.
Definition task_manager_create_task (backend : board_task_config -> Z * option Z) (unknown : cstring) (name : option cstring)
    (stack_size priority : Z) (entry : bool) (core_id : Z) (w : system_wdt) : option Z :=
  task_manager_create backend (Some (mk_tc (Some (default unknown name)) stack_size priority core_id)) entry w.
End wdt.
Arguments system_wdt : clear implicits.

(** ** The scrubber (system_scrubber.c) *)

(** [running] and the handle; [created] is what [mini_task_create_handle] returns. *)
Definition system_scrubber_start (running created : bool) : Z * bool :=
  if running then (MINI_OK, running) else if negb created then (MINI_ERR_NOMEM, false) else (MINI_OK, true).
Definition system_scrubber_is_running (running : bool) : bool := running.

Section scrubber.
Context {D : Type} `{Iwdg D} {F : Type} `{FlashOps F}.
(** SYSTEM_SCRUBBER_CRC_BASELINE and SYSTEM_SCRUBBER_IMAGE_LEN. *)
Context (baseline_crc image_len : Z).

(** Where the task begins: it ends at once, or goes on with an area. *)
Definition scrubber_begin (current_partition : Z) : option Z :=
  if (baseline_crc =? 0) || (image_len =? 0) then None else Some (u32 (FLASH_AREA_ID_IMAGE_0 + current_partition)).
(** One round of the loop, up to the delay. *)
Definition scrubber_pass (area_id : Z) (w : system_wdt D) (s : flash_sys F) (c : crc_cache) : run (system_wdt D) :=
  let w := system_wdt_feed_iwdg w in
  let ret := image_verify_area s area_id 0 image_len baseline_crc c in
  if ret =? ERR_CRC_MISMATCH then enter_safe_state else Runs w.
(** The rounds over what the flash and the cache of the engine are at each of them. *)
Fixpoint scrubber_rounds (area_id : Z) (w : system_wdt D) (passes : list (flash_sys F * crc_cache)) : run (system_wdt D) :=
  match passes with
  | [] => Runs w
  | (s, c) :: passes => run_bind (scrubber_pass area_id w s c) (λ w, scrubber_rounds area_id w passes)
  end.
End scrubber.

(** ** Time (mini_time.c) *)

Definition MINI_TIME_TICK_HANG_THRESHOLD : Z := 10000.

(** [CONFIG_OS_BARE]: [clock n] is the tick counter at its [n]th reading.  The result is the
    number of readings, [None] that [fuel] rounds were not enough. *)
Section bare.
Context (clock : nat -> Z).
Definition mini_time_ms (reading : nat) : Z := clock reading.
Fixpoint delay_loop (fuel : nat) (reading : nat) (start last no_tick_count ms : Z) : option nat :=
  match fuel with
  | O => None
  | S fuel =>
      if negb (u32 (mini_time_ms reading - start) <? ms) then Some (S reading) else
      let now := mini_time_ms (S reading) in
      let '(last, no_tick_count) := if now =? last then (last, u32 (no_tick_count + 1)) else (now, 0) in
      if no_tick_count >? MINI_TIME_TICK_HANG_THRESHOLD then Some (S (S reading))
      else delay_loop fuel (S (S reading)) start last no_tick_count ms
  end.
Definition mini_delay_ms (fuel : nat) (ms : Z) : option nat :=
  if ms =? 0 then Some 0%nat else
  let start := mini_time_ms 0 in delay_loop fuel 1 start start 0 ms.
End bare.
(** Rounds of the empty loop: bare metal and RT-Thread, mini-os with its clock. *)
Definition mini_delay_us_loops (us : Z) : Z := if us =? 0 then 0 else u32 (us * 8).
Definition mini_delay_us_cycles (cpu_clock_hz us : Z) : Z := if us =? 0 then 0 else u32 (us * (cpu_clock_hz / 1000000)).
(** [CONFIG_OS_MINI_OS]. *)
Definition mini_time_ms_mini_os (k : kernel) : Z := MINI_OS_TICK_TO_MS (g_global_tick k).
Definition mini_delay_ms_mini_os (in_isr : bool) (k : kernel) (ms : Z) : option kernel :=
  if in_isr then Some k else snd <$> mini_os_thread_delay_ms k ms.

(** ** Start-up (system_init.c) *)

Section start.
Context {D : Type} `{Iwdg D}.
(** The configured services. *)
Context (CONFIG_SYSTEM_WDT CONFIG_EVENT_BUS CONFIG_SYSTEM_SCRUBBER : bool).
(** The capacities of the bus; the generated tables; the drivers. *)
Context (K_QUEUE_LEN K_MAX_SUBSCRIBERS : nat).
Context (nodes : list (option device_node)) (board_dev_count : Z) (order : list Z).
Context (probe_fn : Z -> option (list device -> Z * list device)) (cascade : Z -> list Z) (call : Z -> device -> Z * device).

Record system := mk_system {
  sy_irq_enabled : bool;
  sy_panic_counter : Z;
  sy_os_initialized : bool;
  sy_wdt : system_wdt D;
  sy_devices : list device;
  sy_bus : event_bus;
  sy_scrubbing : bool
}.
Definition sy_set_wdt (s : system) (v : system_wdt D) : system := mk_system (sy_irq_enabled s) (sy_panic_counter s) (sy_os_initialized s) v (sy_devices s) (sy_bus s) (sy_scrubbing s).
Definition sy_set_devices (s : system) (v : list device) : system := mk_system (sy_irq_enabled s) (sy_panic_counter s) (sy_os_initialized s) (sy_wdt s) v (sy_bus s) (sy_scrubbing s).
Definition sy_set_bus (s : system) (v : event_bus) : system := mk_system (sy_irq_enabled s) (sy_panic_counter s) (sy_os_initialized s) (sy_wdt s) (sy_devices s) v (sy_scrubbing s).
(** The static variables after a reset. *)
Definition after_reset (d : D) (devices : list device) : system :=
  mk_system true panic_counter_init false (wdt_zero d) devices (eb_zero K_MAX_SUBSCRIBERS) false.

(** [mutexes]: the mutex creations of the device table succeed; [queue_ok], [mutex_ok]: those
    of the bus.  [None] is the halt of the device table. *)
Definition mini_tree_pre_os_init (mutexes : nat -> bool) (queue_ok mutex_ok : bool) (s : system) : option (run system) :=
  match safe_state_check_bootloop (sy_panic_counter s) with
  | Frozen acts => Some (Frozen acts)
  | Runs (ok, n) =>
      let s := mk_system false n (sy_os_initialized s) (sy_wdt s) (sy_devices s) (sy_bus s) (sy_scrubbing s) in
      if negb ok then Some (Runs s) else
      let s := if CONFIG_SYSTEM_WDT then sy_set_wdt s (system_wdt_init_iwdg (sy_wdt s) 8000).2 else s in
      '(_, devices) ← device_tree_init nodes board_dev_count mutexes (sy_devices s);
      let s := sy_set_devices s devices in
      let '(ret, bus) := if CONFIG_EVENT_BUS then event_bus_init queue_ok mutex_ok (sy_bus s) else (MINI_OK, sy_bus s) in
      let s := sy_set_bus s bus in
      if negb (ret =? MINI_OK) then Some enter_safe_state else
      let s := if CONFIG_EVENT_BUS
               then sy_set_bus s (event_bus_post K_QUEUE_LEN false (sy_os_initialized s) EVENT_SYS_BOOT 0 (sy_bus s)).2 else s in
      Some (Runs (mk_system (sy_irq_enabled s) (sy_panic_counter s) true (sy_wdt s) (sy_devices s) (sy_bus s) (sy_scrubbing s)))
  end.

(** [task]: the handle of the dispatch task; [created]: whether the scrubber's task is
    created; [None] is a failed device that is fatal. *)
Definition mini_tree_start_tasks (task : option Z) (created : bool) (s : system) : option system :=
  let s := if CONFIG_EVENT_BUS then sy_set_bus s (event_bus_start task (sy_bus s)) else s in
  '(_, devices) ← board_driver_probe_all order board_dev_count probe_fn cascade call (sy_devices s);
  let s := sy_set_devices s devices in
  let s := if CONFIG_SYSTEM_WDT then sy_set_wdt s (system_wdt_init (sy_wdt s) 3000).2 else s in
  let scrubbing := if CONFIG_SYSTEM_SCRUBBER then (system_scrubber_start (sy_scrubbing s) created).2 else sy_scrubbing s in
  let s := mk_system (sy_irq_enabled s) safe_state_clear_bootloop (sy_os_initialized s) (sy_wdt s) (sy_devices s) (sy_bus s) scrubbing in
  Some (if CONFIG_EVENT_BUS
        then sy_set_bus s (event_bus_seal (event_bus_post K_QUEUE_LEN false (sy_os_initialized s) EVENT_SYS_READY 0 (sy_bus s)).2) else s).

Definition system_init_complete (s : system) : system :=
  mk_system true (sy_panic_counter s) (sy_os_initialized s) (sy_wdt s) (sy_devices s) (sy_bus s) (sy_scrubbing s).
End start.
Arguments system : clear implicits.

(** ** The bare-metal delay *)

Section delay.
(** The milliseconds since the start of the clock at each reading; at most [d] pass from one
    reading to the next. *)
Context (e : nat -> Z) (d ms : Z).
Hypothesis steps : ∀ n, 0 <= e (S n) - e n <= d.
Hypothesis small : 0 < ms /\ ms + 2 * d < 4294967296.
Let clock (n : nat) : Z := u32 (e n).

Lemma clock_diff i j : 0 <= e j - e i < 4294967296 -> u32 (clock j - clock i) = e j - e i.
Proof. intros H. unfold clock, u32. rewrite <- Zminus_mod. by apply Z.mod_small. Qed.
Lemma clock_same i j : 0 <= e j - e i < 4294967296 -> clock j = clock i -> e j = e i.
Proof. intros H E. pose proof (clock_diff i j H) as Hd. rewrite E, Z.sub_diag in Hd. unfold u32 in Hd. rewrite Z.mod_0_l in Hd by lia. lia. Qed.

(** The clock did not move over the last [2 * k] readings. *)
Definition stalled (n k : nat) : Prop := (2 * k <= n)%nat /\ e n = e (n - 2 * k)%nat.
Lemma delay_loop_ok fuel : ∀ r count,
  0 <= count <= MINI_TIME_TICK_HANG_THRESHOLD -> 0 <= e r - e 0%nat < ms + d -> stalled r (Z.to_nat count) ->
  (ms + d - (e r - e 0%nat)) * 10001 - count < Z.of_nat fuel ->
  ∃ n, delay_loop clock fuel (S r) (clock 0%nat) (clock r) count ms = Some (S n) /\ (ms <= e n - e 0%nat \/ stalled n (Z.to_nat 10001)).
Proof using steps small.
  unfold MINI_TIME_TICK_HANG_THRESHOLD. induction fuel as [|fuel IH]; intros r count Hc Hr Hst Hf; [nia|]. cbn [delay_loop]. unfold mini_time_ms.
  pose proof (steps r) as Hs1. pose proof (steps (S r)) as Hs2. rewrite clock_diff by lia.
  destruct (Z.ltb_spec (e (S r) - e 0%nat) ms); cbn [negb]; [|exists (S r); auto].
  destruct (Z.eqb_spec (clock (S (S r))) (clock r)) as [E|E].
  - apply clock_same in E; [|lia]. rewrite u32_small by lia.
    assert (stalled (S (S r)) (Z.to_nat (count + 1))) as Hst'.
    { destruct Hst as [H1 H2]. split; [lia|]. rewrite E, H2. f_equal. lia. }
    unfold MINI_TIME_TICK_HANG_THRESHOLD. destruct (Z.gtb_spec (count + 1) 10000).
    + exists (S (S r)). split; [done|]. right. by replace (Z.to_nat (count + 1)) with (Z.to_nat 10001) in Hst' by (f_equal; lia).
    + replace (clock r) with (clock (S (S r))) by (unfold clock; by rewrite E). apply IH; [lia|lia|done|lia].
  - assert (e (S (S r)) ≠ e r) by (intros E'; apply E; unfold clock; by rewrite E').
    unfold MINI_TIME_TICK_HANG_THRESHOLD. destruct (Z.gtb_spec 0 10000); [lia|]. apply IH; [lia|lia|split; [lia|f_equal; lia]|lia].
Qed.
End delay.

(** C28: The bare-metal delay ends.  Whatever the tick counter does between its readings, wrap
    of 32 bits included, as long as at most [d] milliseconds pass from one to the next and
    the delay stays that far below the wrap: a bounded number of rounds is enough, and it ends
    because its time is over, or because the counter did not move in 20002 readings. *)
Theorem delay_returns e d ms :
  (∀ n, 0 <= e (S n) - e n <= d) -> 0 < ms -> ms + 2 * d < 4294967296 ->
  ∃ n, mini_delay_ms (λ n, u32 (e n)) (S (Z.to_nat ((ms + d) * 10001))) ms = Some (S n) /\
    (ms <= e n - e 0%nat \/ (Z.to_nat 20002 <= n)%nat /\ e n = e (n - Z.to_nat 20002)%nat).
Proof.
  intros Hs Hms Hd. unfold mini_delay_ms. destruct (Z.eqb_spec ms 0) as [|_]; [lia|]. unfold mini_time_ms at 1 2. pose proof (Hs 0%nat).
  destruct (delay_loop_ok e d ms Hs (conj Hms Hd) (S (Z.to_nat ((ms + d) * 10001))) 0 0) as (n & E & Hn);
    [unfold MINI_TIME_TICK_HANG_THRESHOLD; lia|lia|split; [lia|done]|lia|]. exists n. split; [done|]. destruct Hn as [|[Hn1 Hn2]]; [auto|right].
  replace (Z.to_nat 20002) with (2 * Z.to_nat 10001)%nat by (change 20002 with (2 * 10001); rewrite Z2Nat.inj_mul by lia; done). auto.
Qed.
(** A counter of one tick in three readings, near its wrap. *)
Lemma delay_returns_witness :
  ∃ n, mini_delay_ms (λ n, u32 (4294967294 + Z.of_nat n / 3)) (S (Z.to_nat ((5 + 1) * 10001))) 5 = Some (S n) /\
    (5 <= (4294967294 + Z.of_nat n / 3) - (4294967294 + Z.of_nat 0 / 3) \/
     (Z.to_nat 20002 <= n)%nat /\ 4294967294 + Z.of_nat n / 3 = 4294967294 + Z.of_nat (n - Z.to_nat 20002) / 3).
Proof.
  apply (delay_returns (λ n, 4294967294 + Z.of_nat n / 3) 1 5); [|lia|lia].
  intros n. rewrite Nat2Z.inj_succ. unfold Z.succ. Z.to_euclidean_division_equations. lia.
Defined.

(** ** The scrubber *)

Lemma image_crc_le d : Forall is_u8 d -> image_crc d = Z.lxor (crc32_le 4294967295 d) 4294967295.
Proof.
  intros Hd. assert (fits 32 4294967295) as Hf by (apply fits_lt; lia).
  pose proof (crc32_le_fits 4294967295 d Hf Hd) as Hfit. unfold image_crc.
  assert (crc_model = Some (mk_stream 4294967295 CRC32_POLY 4294967295 32 true true)) as -> by by vm_compute.
  unfold crc_stream_finish. cbn [stream_off fed set_reg st_width st_reg st_xor_out st_refin st_refout st_poly].
  rewrite <- crc32_le_bitwise by (unfold is_u32; lia || done). change ((32 =? 0) || (32 >? 32)) with false. cbn iota.
  unfold crc_finalize. cbn [negb eqb]. rewrite crc_mask_ones by lia.
  apply land_fits; [lia|]. by apply fits_lxor.
Qed.
(** Damage to a run of at most four bytes changes the checksum. *)
Lemma image_crc_burst pre mid mid' post :
  Forall is_u8 (pre ++ mid ++ post) -> Forall is_u8 mid' -> length mid' = length mid -> (length mid <= 4)%nat -> mid ≠ mid' ->
  image_crc (pre ++ mid ++ post) ≠ image_crc (pre ++ mid' ++ post).
Proof.
  intros H H' Hl H4 Hne E. assert (Forall is_u8 (pre ++ mid' ++ post)) as H2 by (rewrite !Forall_app in *; naive_solver).
  rewrite !image_crc_le in E by done. apply (f_equal (λ x, Z.lxor x 4294967295)) in E. rewrite !Z.lxor_assoc, Z.lxor_nilpotent, !Z.lxor_0_r in E.
  revert E. by apply crc32_detects_burst.
Qed.

Section scrubbing.
Context {D : Type} `{Iwdg D} {F : Type} `{FlashLaws F}.

(** The bytes of the image that a pass looks at. *)
Definition scrubbed (len area_id : Z) (s : flash_sys F) : list Z := slice (content (dev s) area_id) 0 len.
Record pass_ok (len area_id : Z) (p : flash_sys F * crc_cache) : Prop := {
  ps_registered : s_flash_ops p.1 = true;
  ps_cache : cache_ok p.2;
  ps_size : len <= Z.of_nat (length (content (dev p.1) area_id))
}.
Lemma scrubber_pass_ok baseline len area_id w s c :
  pass_ok len area_id (s, c) -> 0 < len ->
  scrubber_pass baseline len area_id w s c
  = (if bool_decide (image_crc (scrubbed len area_id s) = baseline) then Runs (system_wdt_feed_iwdg w) else enter_safe_state : run (system_wdt D)).
Proof.
  intros [P1 P2 P3] Hlen. unfold scrubber_pass. rewrite image_verify_area_spec by (done || lia). unfold scrubbed.
  by case_bool_decide.
Qed.
End scrubbing.

(** C27: Bit rot.  While every pass of the scrubber finds the bytes of the image as they were
    when the baseline was taken it feeds the watchdog and goes on.  The first pass at which a
    run of one to four bytes differs enters the safe state, whatever follows; and no pass of a
    system without flash functions enters it. *)
Theorem scrubber_detects {D F : Type} `{Iwdg D} `{FlashLaws F} (image : list Z) area_id (w : system_wdt D) good bad rest :
  let len := Z.of_nat (length image) in
  let baseline := image_crc image in
  Forall is_u8 image -> image ≠ [] -> baseline ≠ 0 ->
  Forall (λ p, pass_ok len area_id p /\ scrubbed len area_id p.1 = image) good -> pass_ok len area_id bad ->
  (∃ pre mid mid' post, image = pre ++ mid ++ post /\ scrubbed len area_id bad.1 = pre ++ mid' ++ post /\
     length mid' = length mid /\ (length mid <= 4)%nat /\ mid' ≠ mid) ->
  scrubber_begin baseline len (area_id - FLASH_AREA_ID_IMAGE_0) = Some (u32 area_id) /\
  scrubber_rounds baseline len area_id w good = Runs (foldl (λ w _, system_wdt_feed_iwdg w) w good) /\
  scrubber_rounds baseline len area_id w (good ++ bad :: rest) = (enter_safe_state : run (system_wdt D)) /\
  ∀ dev c, scrubber_pass baseline len area_id w (mk_flash (F := F) false dev) c = Runs (system_wdt_feed_iwdg w).
Proof.
  intros len baseline Hu Hne Hb Hgood Hbad (pre & mid & mid' & post & Ei & Es & Hl & H4 & Hd).
  assert (0 < len) as Hlen by (subst len; destruct image; [done|simpl; lia]).
  assert (∀ s c w, pass_ok len area_id (s, c) -> scrubbed len area_id s = image ->
    scrubber_pass baseline len area_id w s c = (Runs (system_wdt_feed_iwdg w) : run (system_wdt D))) as Hpass.
  { intros s c w0 Hp E. rewrite scrubber_pass_ok by done. by rewrite E, bool_decide_true. }
  split; [|split; [|split]].
  - unfold scrubber_begin. destruct (Z.eqb_spec baseline 0); [done|]. destruct (Z.eqb_spec len 0); [lia|]. cbn [orb]. do 2 f_equal. lia.
  - revert w. induction Hgood as [|[s c] good [Hp E] _ IH]; intros w; [done|]. cbn [scrubber_rounds foldl]. rewrite (Hpass s c) by done. apply IH.
  - destruct bad as [sb cb]. revert w. induction Hgood as [|[s c] good [Hp E] _ IH]; intros w.
    + cbn [app scrubber_rounds]. rewrite scrubber_pass_ok by done. rewrite bool_decide_false; [done|]. cbn [fst] in Es. rewrite Es.
      unfold baseline. rewrite Ei. intros E'. symmetry in E'. revert E'. apply image_crc_burst; try done; [by rewrite <- Ei|].
      assert (Forall is_u8 (pre ++ mid' ++ post)) as H2 by (rewrite <- Es; apply slice_u8, content_u8). rewrite !Forall_app in H2. naive_solver.
    + cbn [app scrubber_rounds]. rewrite (Hpass s c) by done. apply IH.
  - done.
Qed.

(** A watchdog that counts what is fed to it. *)
Definition dog : Type := Z.
#[export] Instance dog_iwdg : Iwdg dog := {|
  hal_iwdg_init d _ := (0, d); hal_iwdg_start d := (0, d); hal_iwdg_feed d := (0, d + 1);
  hal_iwdg_set_long_timeout d := (0, d); hal_iwdg_restore_timeout d := (0, d)
|}.
Definition scrub_flash (b : list Z) : flash_sys ram_flash := mk_flash true (mk_ram (λ _, b)).
Lemma scrubber_detects_witness :
  let image := [1; 2; 3; 4; 5; 6] in let w := wd_set_iwdg (wdt_zero (0 : dog)) 0 true in
  let good := [(scrub_flash (image ++ [9]), cache_zero); (scrub_flash image, cache_zero)] in
  let bad := (scrub_flash [1; 2; 7; 4; 5; 6], cache_zero) in
  scrubber_rounds (image_crc image) 6 1 w good = Runs (wd_set_iwdg w 2 true) /\
  scrubber_rounds (image_crc image) 6 1 w (good ++ [bad]) = Frozen [HardwareLock; SchedFreeze; IrqDisable].
Proof.
  intros image w good bad.
  destruct (scrubber_detects (F := ram_flash) image 1 w good bad []) as (_ & E1 & E2 & _).
  - repeat constructor; vm_compute; congruence.
  - discriminate.
  - vm_compute. discriminate.
  - repeat constructor; try (vm_compute; congruence); apply cache_zero_ok.
  - constructor; try (vm_compute; congruence); apply cache_zero_ok.
  - exists [1; 2], [3], [7], [4; 5; 6]. repeat split; try (vm_compute; congruence). simpl. lia.
  - split; [exact E1|exact E2].
Defined.

(** ** Start-up *)

Section starting.
Context {D : Type} `{Iwdg D} (CONFIG_SYSTEM_WDT CONFIG_SYSTEM_SCRUBBER : bool).
Context (K_QUEUE_LEN K_MAX_SUBSCRIBERS : nat).
Context (nodes : list (option device_node)) (order : list Z).
Context (probe_fn : Z -> option (list device -> Z * list device)) (cascade : Z -> list Z) (call : Z -> device -> Z * device).
Notation count := (Z.of_nat (length nodes)).
Notation node_of id := (board_node_get nodes id).

(** A generated tree whose devices can be probed in the generated order. *)
Record tree_ok : Prop := {
  tr_order : NoDup order;
  tr_ready id : id ∈ order -> 0 <= id < count /\
    ∃ n, node_of id = Some n /\ nd_status n = DEVICE_STATUS_READY /\ Z.land (nd_flags n) DEVICE_FLAG_DIRECT = 0;
  tr_healthy i n : (i < length nodes)%nat -> node_of (Z.of_nat i) = Some n ->
    nd_status n ≠ DEVICE_STATUS_ERROR /\ nd_status n ≠ DEVICE_STATUS_REMOVED /\
    ∀ dep, dep ∈ default [] (nd_deps n) -> 0 <= dep < count
}.

Lemma device_init_one_ok old node : ∃ d, device_init_one true old node = Some d /\ dv_node d = node /\
  dv_status d = match node with Some n => nd_status n | None => DEVICE_STATUS_DISABLED end.
Proof. unfold device_init_one. destruct node as [n|]; [destruct (_ && _)|]; eauto. Qed.
Lemma device_tree_loop_ok old : ∀ index,
  ∃ ds, device_tree_loop nodes (λ _, true) index old = Some ds /\ length ds = length old /\
    ∀ i d, ds !! i = Some d -> dv_node d = node_of (Z.of_nat (index + i)) /\
      dv_status d = match dv_node d with Some n => nd_status n | None => DEVICE_STATUS_DISABLED end.
Proof.
  induction old as [|o old IH]; intros index; [by exists []|]. cbn [device_tree_loop].
  destruct (device_init_one_ok o (node_of (Z.of_nat index))) as (d & -> & Hn & Hs). cbn [mbind option_bind].
  destruct (IH (S index)) as (ds & -> & Hl & Hd). cbn [mbind option_bind]. exists (d :: ds). split; [done|]. split; [simpl; congruence|].
  intros [|i] d' E; cbn [lookup list_lookup] in E.
  - injection E as <-. rewrite Nat.add_0_r. split; [done|]. by rewrite Hn.
  - rewrite <- Nat.add_succ_comm. by apply Hd.
Qed.
Lemma tree_init_ok old :
  tree_ok -> length old = length nodes ->
  ∃ rc ds, device_tree_init nodes count (λ _, true) old = Some (rc, ds) /\ healthy ds /\ ∀ id, id ∈ order -> ready_at count ds id.
Proof.
  intros [T1 T2 T3] Hl. unfold device_tree_init. destruct (device_tree_loop_ok old 0) as (ds & -> & Hlen & Hds). cbn [mbind option_bind].
  assert (∀ j d, dev_get ds j = Some d -> (Z.to_nat j < length nodes)%nat /\ dv_node d = node_of j /\
    dv_status d = match dv_node d with Some n => nd_status n | None => DEVICE_STATUS_DISABLED end) as Hget.
  { intros j d Hj. apply dev_get_Some in Hj as [H0 Hj]. pose proof (lookup_lt_Some _ _ _ Hj). destruct (Hds _ _ Hj) as [Hn Hs].
    split; [lia|]. split; [|done]. rewrite Hn. f_equal. lia. }
  eexists _, ds. split; [done|]. split.
  - intros j d Hj. destruct (Hget j d Hj) as (Hlt & Hn & ->). unfold deps_of. destruct (dv_node d) as [n|]; [|split; [done|split; [done|]]; intros dep ?%elem_of_nil; done].
    apply dev_get_Some in Hj as [Hj _]. rewrite <- (Z2Nat.id j) in Hn by done. destruct (T3 _ n Hlt (eq_sym Hn)) as (? & ? & Hd).
    split; [done|]. split; [done|]. rewrite Hlen, Hl. exact Hd.
  - intros id Hid. destruct (T2 id Hid) as (Hr & n & Hn & Hs & Hf). split; [done|].
    destruct (lookup_lt_is_Some_2 ds (Z.to_nat id)) as [d Ed]; [lia|].
    assert (dev_get ds id = Some d) as Hd by (apply dev_get_Some; split; [lia|done]). exists d. split; [done|].
    destruct (Hget id d Hd) as (_ & En & Es). rewrite Hn in En. rewrite En in Es. split; [congruence|]. unfold is_direct. rewrite En, Hf. done.
Qed.

(** The subscriptions of the start-up: calls that may succeed or fail. *)
Fixpoint subscribe_all (b : event_bus) (subs : list (Z * Z * option Z * Z)) : option event_bus :=
  match subs with
  | [] => Some b
  | (id_min, id_max, cb, data) :: subs =>
      '(_, b) ← event_bus_subscribe K_MAX_SUBSCRIBERS false true id_min id_max cb data b; subscribe_all b subs
  end.
(** What they leave alone. *)
Definition awaiting (b : event_bus) : Prop :=
  eb_inv K_QUEUE_LEN K_MAX_SUBSCRIBERS b /\ eb_queue b = Some [] /\ eb_inited b = true /\ eb_task b = None /\ eb_is_sealed b = false.
Lemma subscribe_all_ok subs : ∀ b, awaiting b -> ∃ b', subscribe_all b subs = Some b' /\ awaiting b'.
Proof.
  induction subs as [|[[[lo hi] cb] data] subs IH]; intros b Hb; [by exists b|]. cbn [subscribe_all].
  assert (∃ rc b1, event_bus_subscribe K_MAX_SUBSCRIBERS false true lo hi cb data b = Some (rc, b1) /\ awaiting b1) as (rc & b1 & -> & Hb1); [|by apply IH].
  pose proof Hb as (Hi & Hq & Hin & Ht & Hs). unfold event_bus_subscribe. rewrite Hs. destruct cb as [cb|]; [|by eexists _, b].
  destruct (negb (eb_sub_lock b)); [by eexists _, b|]. destruct (Z.gtb_spec lo hi); [by eexists _, b|]. cbn [negb].
  destruct (Z.ltb_spec (eb_count b) (Z.of_nat K_MAX_SUBSCRIBERS)); [|by eexists _, b]. destruct Hi as [I1 I2 I3 I4].
  rewrite arr_set_in by lia. cbn [mbind option_bind]. eexists _, _. split; [done|]. split; [|done]. split; simpl; [by rewrite length_insert|lia|done|].
  rewrite Z2Nat.inj_add, Nat.add_1_r by lia. rewrite (take_S_r _ _ (mk_sub lo hi (Some cb) data)) by (apply list_lookup_insert_eq; lia).
  rewrite take_insert_ge by lia. apply Forall_app. split; [done|]. constructor; [|done]. simpl. split; [eauto|lia].
Qed.

Lemma pre_os_ok d old :
  tree_ok -> length old = length nodes ->
  ∃ s1, mini_tree_pre_os_init CONFIG_SYSTEM_WDT true K_QUEUE_LEN nodes count (λ _, true) true true (after_reset K_MAX_SUBSCRIBERS d old) = Some (Runs s1) /\
    sy_irq_enabled s1 = false /\ sy_panic_counter s1 = 1 /\ sy_os_initialized s1 = true /\ awaiting (sy_bus s1) /\ sy_scrubbing s1 = false /\
    healthy (sy_devices s1) /\ ∀ id, id ∈ order -> ready_at count (sy_devices s1) id.
Proof.
  intros Ht Hl. unfold mini_tree_pre_os_init. cbn [safe_state_check_bootloop after_reset sy_panic_counter panic_counter_init].
  change (safe_state_check_bootloop panic_counter_init) with (Runs (true, 1)). cbn iota beta. cbn [negb].
  match goal with |- context [device_tree_init _ _ _ (sy_devices ?s)] => assert (sy_devices s = old) as -> by (by destruct CONFIG_SYSTEM_WDT) end.
  destruct (tree_init_ok old Ht Hl) as (rc & ds & -> & Hh & Hr). cbn [mbind option_bind].
  destruct CONFIG_SYSTEM_WDT; (eexists; split; [reflexivity|]); repeat (split; [done|]).
  all: split; [|split; [done|split; [exact Hh|exact Hr]]]; split; [|done]; split; simpl; [apply length_replicate|lia|intros q [= <-]; simpl; lia|constructor].
Qed.

(** C26: Start-up.  From a reset, with memory for the locks and queues and a tree of healthy
    devices in a generated order with working drivers: the first phase ends with interrupts
    off and the bus open for whatever subscriptions follow; the second ends with every device
    active, the counter of failed starts back at 0, and the bus sealed with one event, that
    the system is ready, which the dispatch task hands to the subscribers of it. *)
Theorem system_starts d old subs task created :
  (0 < K_QUEUE_LEN)%nat -> tree_ok -> length old = length nodes -> probes_ok order probe_fn -> calls_ok call ->
  ∃ s1 bus s2,
    mini_tree_pre_os_init CONFIG_SYSTEM_WDT true K_QUEUE_LEN nodes count (λ _, true) true true (after_reset K_MAX_SUBSCRIBERS d old) = Some (Runs s1) /\
    sy_irq_enabled s1 = false /\ subscribe_all (sy_bus s1) subs = Some bus /\
    mini_tree_start_tasks CONFIG_SYSTEM_WDT true CONFIG_SYSTEM_SCRUBBER K_QUEUE_LEN count order probe_fn cascade call (Some task) created (sy_set_bus s1 bus) = Some s2 /\
    (∀ id, id ∈ order -> up_at (sy_devices s2) id) /\ sy_panic_counter s2 = 0 /\ sy_scrubbing s2 = CONFIG_SYSTEM_SCRUBBER && created /\
    (∀ lo hi cb data, event_bus_subscribe K_MAX_SUBSCRIBERS false true lo hi cb data (sy_bus s2) = Some (MINI_ERR_NOTSUPP, sy_bus s2)) /\
    ∃ b', event_bus_dispatch_task true (sy_bus s2) = Some (DispCalls (eb_deliver (mk_event EVENT_SYS_READY 0) (eb_subs bus)), b') /\ eb_queue b' = Some [].
Proof using.
  intros HK Ht Hl Hp Hc. destruct (pre_os_ok d old Ht Hl) as (s1 & E1 & P1 & P2 & P3 & Hb & P4 & Hh & Hr).
  destruct (subscribe_all_ok subs _ Hb) as (bus & Es & Hi & Hq & Hin & Htk & Hs). exists s1, bus.
  destruct (probe_pass_boots order count probe_fn cascade call Hp Hc order (mk_ps (sy_devices s1) 0 0 0)) as (devs & Ep & Hup & _); [apply Ht|done..|].
  assert (∀ id, id ∈ order -> up_at devs id) as Hup' by (intros id Hid; by eapply booted_up, Hup). clear Hup. rename Hup' into Hup.
  cbn [ps_fail ps_deferred] in Ep.
  assert (board_driver_probe_all order count probe_fn cascade call (sy_devices s1) = Some (0, devs)) as Epr.
  { unfold board_driver_probe_all. cbn [probe_passes ps_devs ps_ok ps_fail]. by rewrite Ep. }
  unfold mini_tree_start_tasks. cbn [sy_devices sy_set_bus]. rewrite Epr. cbn [mbind option_bind].
  assert (∀ x, event_bus_post_internal K_QUEUE_LEN true EVENT_SYS_READY 0 (event_bus_start (Some task) bus) = x ->
    x = (MINI_OK, mk_bus (eb_subscribers bus) (eb_count bus) true false (Some [mk_event EVENT_SYS_READY 0]) (Some task) (eb_dropped bus) (eb_sub_lock bus))) as Epost.
  { intros x <-. unfold event_bus_post_internal, event_bus_start. rewrite Htk, Hq. cbn [eb_queue eb_inited]. rewrite Hin. cbn [negb].
    unfold mini_queue_send. simpl length. destruct (decide (0 < K_QUEUE_LEN)%nat); [|lia]. by rewrite Hs. }
  eexists. split; [done|]. split; [done|]. split; [done|]. split; [reflexivity|].
  destruct CONFIG_SYSTEM_WDT; cbn [sy_set_bus sy_set_wdt sy_set_devices sy_devices sy_panic_counter sy_scrubbing sy_bus sy_os_initialized event_bus_post];
    rewrite P3, P4, (Epost _ eq_refl); (split; [exact Hup|]); (split; [done|]); (split; [by destruct CONFIG_SYSTEM_SCRUBBER, created|]);
    (split; [done|]); cbn [event_bus_seal snd eb_subscribers eb_count eb_inited eb_is_sealed eb_queue eb_task eb_dropped eb_sub_lock];
    unfold event_bus_dispatch_task, event_bus_seal; cbn [eb_queue eb_task eb_sub_lock eb_subscribers eb_count]; rewrite andb_false_r;
    destruct Hi as [I1 I2 I3 I4]; rewrite (eb_snapshot_take _ _ 0) by lia; cbn [mbind option_bind drop]; eexists; split; reflexivity.
Qed.
End starting.

(** A tree of two devices, the second depends on the first; one subscriber to all events. *)
Definition demo_tree : list (option device_node) :=
  [Some (mk_node None None None None [] (Some []) None 0 None 0 DEVICE_STATUS_READY DEVICE_CRIT_FATAL 0);
   Some (mk_node None None None None [] (Some [0]) None 0 None 0 DEVICE_STATUS_READY DEVICE_CRIT_FATAL 0)].
Definition demo_old : device := mk_dev None DEVICE_STATUS_DISABLED 0 None false (mk_lc 0 0 DEV_LC_UNINITIALIZED) 0 None.
Lemma demo_tree_ok : tree_ok demo_tree [0; 1].
Proof.
  constructor.
  - apply (bool_decide_unpack (NoDup [0; 1])). reflexivity.
  - intros id Hid. apply list_elem_of_In in Hid. simpl in Hid. destruct Hid as [<-|[<-|[]]]; (split; [simpl; lia|]); eexists; (split; [reflexivity|done]).
  - intros [|[|i]] n Hi; [| |simpl in Hi; lia]; intros [= <-]; (split; [done|]); (split; [done|]); intros dep Hdep; apply list_elem_of_In in Hdep; simpl in Hdep |- *; lia.
Qed.
Lemma system_starts_witness :
  ∃ s1 bus s2,
    mini_tree_pre_os_init true true 4 demo_tree 2 (λ _, true) true true (after_reset 3 (0 : dog) [demo_old; demo_old]) = Some (Runs s1) /\
    subscribe_all 3 (sy_bus s1) [(0, 10, Some 77, 5)] = Some bus /\
    mini_tree_start_tasks true true true 4 2 [0; 1] demo_probe (λ _, []) (λ h d, (MINI_OK, d)) (Some 9) true (sy_set_bus s1 bus) = Some s2 /\
    up_at (sy_devices s2) 1.
Proof.
  destruct (system_starts (D := dog) true true 4 3 demo_tree [0; 1] demo_probe (λ _, []) (λ h d, (MINI_OK, d)) 0 [demo_old; demo_old] [(0, 10, Some 77, 5)] 9 true)
    as (s1 & bus & s2 & E1 & _ & E2 & E3 & Hup & _).
  - lia.
  - apply demo_tree_ok.
  - reflexivity.
  - apply demo_probe_ok.
  - apply demo_calls_ok.
  - exists s1, bus, s2. split; [exact E1|]. split; [exact E2|]. split; [exact E3|]. apply Hup. apply list_elem_of_In. simpl. auto.
Defined.

(** ** Findings *)

(** The event that the first phase posts is refused: the flag the bus tests is set after it. *)
Example boot_event_lost :
  ∀ b, event_bus_post 4 false false EVENT_SYS_BOOT 0 b = (MINI_ERR_AGAIN, b).
Proof. intros b. unfold event_bus_post, event_bus_post_internal. destruct (eb_queue b); [|done]. by destruct (negb (eb_inited b)). Qed.

(** The counter of failed starts is a static variable: whatever happened before a reset, the
    start after it counts from its initialiser and never reaches the limit. *)
Example bootloop_never_detected :
  ∀ (d : dog) devices, safe_state_check_bootloop (sy_panic_counter (after_reset 3 d devices)) = Runs (true, 1).
Proof. done. Qed.

(** On mini-os the milliseconds come from a product of 32 bits: one tick after 4294967 of them
    the time is 0 again, and a difference of two times across it is wrong. *)
Example time_jumps_back :
  let at_ t := mini_time_ms_mini_os (k_set_tick (mini_os_schedule_init (mk_kernel ∅ empty_list ∅ 0 0 0 0 0 None false)).2 t 0) in
  at_ 4294967 = 4294967 /\ at_ 4294968 = 0 /\ u32 (at_ 4294968 - at_ 4294960) = 4290672336.
Proof. by vm_compute. Qed.

(** A threshold of half the range or more: its double wraps, and the warning for a watermark
    between the two is not given. *)
Example stack_warning_wraps :
  stack_check (λ _, 2147483648) (mk_entry (Some 1) 2147483648) = [].
Proof. by vm_compute. Qed.

(** The scrubber asks the word of the bootloader for the partition; nothing of the start-up
    loads it.  A sound application that runs from the second partition with the word at its
    initial 0 is compared with the first one, and frozen. *)
Definition two_images : flash_sys ram_flash := mk_flash true (mk_ram (λ id, if id =? FLASH_AREA_ID_IMAGE_1 then [1; 2; 3] else [4; 5; 6])).
Example stale_word_checks_other_partition :
  let image := scrubbed 3 FLASH_AREA_ID_IMAGE_1 two_images in
  scrubber_begin (image_crc image) 3 0 = Some FLASH_AREA_ID_IMAGE_0 /\
  scrubber_pass (image_crc image) 3 FLASH_AREA_ID_IMAGE_0 (wdt_zero (0 : dog)) two_images cache_zero = (enter_safe_state : run (system_wdt dog)) /\
  scrubber_pass (image_crc image) 3 FLASH_AREA_ID_IMAGE_1 (wdt_zero (0 : dog)) two_images cache_zero = Runs (wdt_zero (0 : dog)).
Proof. by vm_compute. Qed.
