(* ===== verification/Bare.v ===== *)
(** * The bare-metal backend: queues

    Models the queues of src/core/src/mini_backend_bare.c: a static pool of word FIFOs
    handed out by the slot allocator, over [Fifo] and [Slot].  An item is [item_size] bytes,
    that is [elements_per_item] words, written and read as one block.  A handle is the index
    the pointer has in the array [queues] (any integer, [None] for NULL); [None] as a result
    is an access out of range.  A receive that waits spins on the count while interrupts
    work: the model is given, for every round of the loop, the time it reads and the calls that
    interrupt handlers make before the count is read again.  Everywhere else a call is not
    interrupted by other calls on the queues; the code does not see to it, and
    [overlapping_sends] shows what an interrupt inside a send does.  [uintptr_t] and [size_t]
    have 32 bits. *)

From S2P Require Import Prelude Status Slot Fifo EventBus.
From stdpp Require Import gmap.

#[local] Open Scope Z_scope.

Definition MINI_WAIT_FOREVER : Z := 4294967295.

(** [sizeof(fifo_data_type)]. *)
Definition SIZEOF_FIFO_DATA : Z := 4.

(** [buf] is the storage of [mq_fifo], which uses its first words, and [mq_rest]. *)
Record mini_queue := mk_queue {
  mq_fifo : fifo_spsc;
  mq_rest : list Z;
  mq_epi : Z                    (** elements_per_item *)
}.

Record queue_pool := mk_pool {
  queues : list mini_queue;
  queue_pool_ctrl : mini_slot   (** its byte map is [queue_used] *)
}.

(** A call of an interrupt handler: the handle, the item or buffer. *)
Inductive isr_call :=
  | ISend (queue : option Z) (item : option (list Z))
  | IReceive (queue : option Z) (item : option (list Z))
  | IDelete (queue : option Z).

(** One round of a waiting loop: the time read at its start, the calls of interrupts after
    that. *)
Record poll := mk_poll { poll_now : Z; poll_calls : list isr_call }.

Inductive created := CTrap | CHandle (queue : option Z) (s : queue_pool).
Inductive waited {T : Type} := WReady (s : T) | WTimeout (s : T) | WWaiting (s : T).
Arguments waited : clear implicits.

Section queues.
(** MINI_BARE_QUEUE_POOL_SIZE and MINI_BARE_QUEUE_BUF_SZ. *)
Context (POOL_SIZE BUF_SZ : Z).

Definition MINI_BARE_QUEUE_ELEM_COUNT : Z := BUF_SZ / SIZEOF_FIFO_DATA.

Definition queue_zero : mini_queue :=
  mk_queue fifo_zero (replicate (Z.to_nat MINI_BARE_QUEUE_ELEM_COUNT) 0) 0.
Definition pool_zero : queue_pool :=
  mk_pool (replicate (Z.to_nat POOL_SIZE) queue_zero) (mk_slot None 0).

Definition queue_used (s : queue_pool) : list Z :=
  match used_slots (queue_pool_ctrl s) with
  | Some u => u
  | None => replicate (Z.to_nat POOL_SIZE) 0
  end.

Definition mini_queue_pool_boot (s : queue_pool) : option queue_pool :=
  '(_, c) ← mini_slot_init (Some (queue_pool_ctrl s)) (Some (queue_used s)) POOL_SIZE;
  c ← c; Some (mk_pool (queues s) c).

Definition mini_queue_index_of (s : queue_pool) (queue : option Z) : option Z :=
  match queue with
  | None => Some (-1)
  | Some idx =>
      if negb (POOL_SIZE >? 0) then Some (-1) else
      if (idx <? 0) || (idx >=? POOL_SIZE) then Some (-1) else
      u ← arr_get (queue_used s) idx;
      Some (if u =? 0 then -1 else idx)
  end.

(** The end of [mini_queue_create], from the claim of a slot on. *)
Definition create_in_slot (s : queue_pool) (total_elements elements_per_item : Z)
    : option created :=
  '(idx, c) ← mini_slot_claim (Some (queue_pool_ctrl s)); c ← c;
  if idx <? 0 then Some (CHandle None (mk_pool (queues s) c)) else
  queue ← arr_get (queues s) idx;
  let buf := fifo_buf (mq_fifo queue) ++ mq_rest queue in
  let n := Z.to_nat total_elements in
  let '(r, f) := fifo_init (Some (mq_fifo queue)) (Some (take n buf)) (u16 total_elements) in
  f ← f;
  if r =? BUFF_OK then
    qs ← arr_set (queues s) idx (mk_queue f (drop n buf) elements_per_item);
    Some (CHandle (Some idx) (mk_pool qs c))
  else
    qs ← arr_set (queues s) idx (mk_queue f (mq_rest queue) elements_per_item);
    '(_, c) ← mini_slot_release (Some c) idx; c ← c;
    Some (CHandle None (mk_pool qs c)).

Definition mini_queue_create (s : queue_pool) (queue_len item_size : Z) : option created :=
  if (queue_len =? 0) || (item_size =? 0) then Some (CHandle None s) else
  if negb (pow2_test queue_len) then Some CTrap else
  if negb (item_size mod SIZEOF_FIFO_DATA =? 0) then Some (CHandle None s) else
  let elements_per_item := item_size / SIZEOF_FIFO_DATA in
  let total_elements := u32 (queue_len * elements_per_item) in
  if negb (pow2_test total_elements) then Some CTrap else
  if total_elements >? MINI_BARE_QUEUE_ELEM_COUNT then Some (CHandle None s) else
  if negb (POOL_SIZE >? 0) then Some (CHandle None s) else
  create_in_slot s total_elements elements_per_item.

Definition mini_queue_delete (s : queue_pool) (queue : option Z) : option queue_pool :=
  idx ← mini_queue_index_of s queue;
  if idx <? 0 then Some s else
  '(_, c) ← mini_slot_release (Some (queue_pool_ctrl s)) idx; c ← c;
  Some (mk_pool (queues s) c).

Definition mini_queue_send_internal (s : queue_pool) (queue : option Z)
    (item : option (list Z)) : option (bool * queue_pool) :=
  idx ← mini_queue_index_of s queue;
  if (idx <? 0) || negb (bool_decide (is_Some item)) then Some (false, s) else
  obj ← arr_get (queues s) idx;
  let epi := u16 (mq_epi obj) in
  count ← (fifo_get_count (Some (mq_fifo obj)) (Some 0)).2;
  if u16 (fifo_size (mq_fifo obj) - count) <? epi then Some (false, s) else
  '(r, f, written) ← fifo_write_block (Some (mq_fifo obj)) item epi (Some 0);
  f ← f; written ← written;
  qs ← arr_set (queues s) idx (mk_queue f (mq_rest obj) (mq_epi obj));
  let s := mk_pool qs (queue_pool_ctrl s) in
  if negb (r =? BUFF_OK) then Some (false, s) else Some (written =? epi, s).

Definition mini_queue_send (in_isr : bool) (s : queue_pool) (queue : option Z)
    (item : option (list Z)) : option (bool * queue_pool) :=
  if in_isr then Some (false, s) else mini_queue_send_internal s queue item.

Definition mini_queue_send_from_isr (s : queue_pool) (queue : option Z)
    (item : option (list Z)) : option (bool * queue_pool) :=
  mini_queue_send_internal s queue item.

(** The end of both receives: the count is read, then the block. *)
Definition receive_block (s : queue_pool) (idx : Z) (item : option (list Z))
    : option (bool * option (list Z) * queue_pool) :=
  obj ← arr_get (queues s) idx;
  let epi := u16 (mq_epi obj) in
  count ← (fifo_get_count (Some (mq_fifo obj)) (Some 0)).2;
  if count <? epi then Some (false, item, s) else
  '(r, f, item, rd) ← fifo_read_block (Some (mq_fifo obj)) item epi (Some 0);
  f ← f; rd ← rd;
  qs ← arr_set (queues s) idx (mk_queue f (mq_rest obj) (mq_epi obj));
  let s := mk_pool qs (queue_pool_ctrl s) in
  if negb (r =? BUFF_OK) then Some (false, item, s) else Some (rd =? epi, item, s).

Definition mini_queue_receive_from_isr (s : queue_pool) (queue : option Z)
    (item : option (list Z)) : option (bool * option (list Z) * queue_pool) :=
  idx ← mini_queue_index_of s queue;
  if (idx <? 0) || negb (bool_decide (is_Some item)) then Some (false, item, s) else
  receive_block s idx item.

Definition isr_exec (s : queue_pool) (c : isr_call) : option queue_pool :=
  match c with
  | ISend h item => '(_, s) ← mini_queue_send_from_isr s h item; Some s
  | IReceive h item => '(_, _, s) ← mini_queue_receive_from_isr s h item; Some s
  | IDelete h => mini_queue_delete s h
  end.

Fixpoint isr_calls (s : queue_pool) (l : list isr_call) : option queue_pool :=
  match l with [] => Some s | c :: l => s ← isr_exec s c; isr_calls s l end.

(** The waiting loops of [mini_queue_receive]; [WWaiting] when [polls] ends before they do. *)
Fixpoint receive_wait (timeout_ms start : Z) (s : queue_pool) (idx : Z) (polls : list poll)
    : option (waited queue_pool) :=
  obj ← arr_get (queues s) idx;
  count ← (fifo_get_count (Some (mq_fifo obj)) (Some 0)).2;
  if count <? u16 (mq_epi obj) then
    match polls with
    | [] => Some (WWaiting s)
    | p :: polls =>
        if negb (timeout_ms =? MINI_WAIT_FOREVER) && (u32 (poll_now p - start) >=? timeout_ms)
        then Some (WTimeout s)
        else s ← isr_calls s (poll_calls p); receive_wait timeout_ms start s idx polls
    end
  else Some (WReady s).

(** [None] as the boolean: still waiting after all of [polls]. *)
Definition mini_queue_receive (in_isr : bool) (s : queue_pool) (queue : option Z)
    (item : option (list Z)) (timeout_ms start : Z) (polls : list poll)
    : option (option bool * option (list Z) * queue_pool) :=
  if in_isr then Some (Some false, item, s) else
  idx ← mini_queue_index_of s queue;
  if (idx <? 0) || negb (bool_decide (is_Some item)) then Some (Some false, item, s) else
  w ← (if timeout_ms =? 0 then Some (WReady s) else receive_wait timeout_ms start s idx polls);
  match w with
  | WReady s => '(b, item, s) ← receive_block s idx item; Some (Some b, item, s)
  | WTimeout s => Some (Some false, item, s)
  | WWaiting s => Some (None, item, s)
  end.

(** ** Programs of calls *)

Inductive bare_op :=
  | BCreate (queue_len item_size : Z)
  | BDelete (queue : option Z)
  | BSend (in_isr : bool) (queue : option Z) (item : option (list Z))
  | BSendIsr (queue : option Z) (item : option (list Z))
  | BReceive (in_isr : bool) (queue : option Z) (item : option (list Z))
      (timeout_ms start : Z) (polls : list poll)
  | BReceiveIsr (queue : option Z) (item : option (list Z)).

Inductive bare_resp :=
  | RTrap
  | RHandle (queue : option Z)
  | RVoid
  | RBool (b : bool)
  | RItem (b : bool) (item : option (list Z))
  | RWaiting.

Definition bare_exec (s : queue_pool) (op : bare_op) : option (bare_resp * queue_pool) :=
  match op with
  | BCreate len size =>
      c ← mini_queue_create s len size;
      Some match c with CTrap => (RTrap, s) | CHandle h s => (RHandle h, s) end
  | BDelete h => s ← mini_queue_delete s h; Some (RVoid, s)
  | BSend i h item => '(b, s) ← mini_queue_send i s h item; Some (RBool b, s)
  | BSendIsr h item => '(b, s) ← mini_queue_send_from_isr s h item; Some (RBool b, s)
  | BReceive i h item t st polls =>
      '(b, item, s) ← mini_queue_receive i s h item t st polls;
      Some (match b with Some b => RItem b item | None => RWaiting end, s)
  | BReceiveIsr h item =>
      '(b, item, s) ← mini_queue_receive_from_isr s h item; Some (RItem b item, s)
  end.

(** The calls up to one that does not return. *)
Definition resp_returns (r : bare_resp) : bool :=
  match r with RTrap | RWaiting => false | _ => true end.

Fixpoint bare_run (s : queue_pool) (ops : list bare_op)
    : option (list bare_resp * queue_pool) :=
  match ops with
  | [] => Some ([], s)
  | op :: ops =>
      '(r, s) ← bare_exec s op;
      if resp_returns r then '(rs, s) ← bare_run s ops; Some (r :: rs, s) else Some ([r], s)
  end.

(** ** The abstract pool: bounded queues of whole items

    [None] where the caller breaks the contract: a buffer smaller than an item of the queue,
    sizes whose product does not fit [size_t]. *)

Record aqueue := mk_aq { aq_len : nat; aq_epi : nat; aq_items : list (list Z) }.

Definition aq_set (q : aqueue) (l : list (list Z)) : aqueue := mk_aq (aq_len q) (aq_epi q) l.

#[local] Notation pool_abs := (gmap Z aqueue).

(** The lowest index below [n + i] from [i] on that is not taken. *)
Fixpoint lowest_free (M : pool_abs) (i : Z) (n : nat) : option Z :=
  match n with
  | O => None
  | S n => if decide (is_Some (M !! i)) then lowest_free M (i + 1) n else Some i
  end.

Definition abs_create (M : pool_abs) (len size : Z) : option (bare_resp * pool_abs) :=
  let epi := size / SIZEOF_FIFO_DATA in
  if negb ((0 <=? len) && (0 <=? size) && (len * epi <? 2 ^ 32)) then None else
  if (len =? 0) || (size =? 0) then Some (RHandle None, M) else
  if negb (pow2_test len) then Some (RTrap, M) else
  if negb (size mod SIZEOF_FIFO_DATA =? 0) then Some (RHandle None, M) else
  if negb (pow2_test (len * epi)) then Some (RTrap, M) else
  if Z.min MINI_BARE_QUEUE_ELEM_COUNT 32768 <? len * epi then Some (RHandle None, M) else
  match lowest_free M 0 (Z.to_nat POOL_SIZE) with
  | None => Some (RHandle None, M)
  | Some i => Some (RHandle (Some i), <[i := mk_aq (Z.to_nat len) (Z.to_nat epi) []]> M)
  end.

Definition abs_send (M : pool_abs) (h : option Z) (item : option (list Z))
    : option (bool * pool_abs) :=
  match h, item with
  | Some i, Some d =>
      match M !! i with
      | None => Some (false, M)
      | Some q =>
          if decide (length (aq_items q) < aq_len q)%nat then
            if decide (aq_epi q ≤ length d)%nat
            then Some (true, <[i := aq_set q (aq_items q ++ [take (aq_epi q) d])]> M)
            else None
          else Some (false, M)
      end
  | _, _ => Some (false, M)
  end.

(** Taking the oldest item of queue [i]. *)
Definition abs_take (M : pool_abs) (i : Z) (q : aqueue) (d : list Z)
    : option (bool * option (list Z) * pool_abs) :=
  match aq_items q with
  | [] => Some (false, Some d, M)
  | x :: l =>
      if decide (aq_epi q ≤ length d)%nat
      then Some (true, Some (x ++ drop (aq_epi q) d), <[i := aq_set q l]> M)
      else None
  end.

(** A receive that does not wait. *)
Definition abs_receive_now (M : pool_abs) (h : option Z) (item : option (list Z))
    : option (bool * option (list Z) * pool_abs) :=
  match h, item with
  | Some i, Some d => match M !! i with None => Some (false, item, M) | Some q => abs_take M i q d end
  | _, _ => Some (false, item, M)
  end.

Definition abs_delete (M : pool_abs) (h : option Z) : pool_abs :=
  match h with Some i => delete i M | None => M end.

Definition abs_call (M : pool_abs) (c : isr_call) : option pool_abs :=
  match c with
  | ISend h item => snd <$> abs_send M h item
  | IReceive h item => snd <$> abs_receive_now M h item
  | IDelete h => Some (abs_delete M h)
  end.

Fixpoint abs_calls (M : pool_abs) (l : list isr_call) : option pool_abs :=
  match l with [] => Some M | c :: l => M ← abs_call M c; abs_calls M l end.

Fixpoint abs_wait (timeout start : Z) (M : pool_abs) (i : Z) (polls : list poll)
    : option (waited pool_abs) :=
  q ← M !! i;
  match aq_items q, polls with
  | _ :: _, _ => Some (WReady M)
  | [], [] => Some (WWaiting M)
  | [], p :: polls =>
      if negb (timeout =? MINI_WAIT_FOREVER) && (u32 (poll_now p - start) >=? timeout)
      then Some (WTimeout M)
      else M ← abs_calls M (poll_calls p); abs_wait timeout start M i polls
  end.

Definition abs_receive (M : pool_abs) (h : option Z) (item : option (list Z))
    (wait : Z -> option (waited pool_abs)) : option (bare_resp * pool_abs) :=
  match h, item with
  | Some i, Some d =>
      match M !! i with
      | None => Some (RItem false item, M)
      | Some _ =>
          w ← wait i;
          match w with
          | WReady M => q ← M !! i; '(b, item, M) ← abs_take M i q d; Some (RItem b item, M)
          | WTimeout M => Some (RItem false item, M)
          | WWaiting M => Some (RWaiting, M)
          end
      end
  | _, _ => Some (RItem false item, M)
  end.

Definition abs_exec (M : pool_abs) (op : bare_op) : option (bare_resp * pool_abs) :=
  match op with
  | BCreate len size => abs_create M len size
  | BDelete h => Some (RVoid, abs_delete M h)
  | BSend true _ _ => Some (RBool false, M)
  | BSend false h item | BSendIsr h item =>
      '(b, M) ← abs_send M h item; Some (RBool b, M)
  | BReceive true _ item _ _ _ => Some (RItem false item, M)
  | BReceive false h item t st polls =>
      abs_receive M h item (fun i => if t =? 0 then Some (WReady M) else abs_wait t st M i polls)
  | BReceiveIsr h item => '(b, item, M) ← abs_receive_now M h item; Some (RItem b item, M)
  end.

Fixpoint abs_run (M : pool_abs) (ops : list bare_op) : option (list bare_resp * pool_abs) :=
  match ops with
  | [] => Some ([], M)
  | op :: ops =>
      '(r, M) ← abs_exec M op;
      if resp_returns r then '(rs, M) ← abs_run M ops; Some (r :: rs, M) else Some ([r], M)
  end.
(** ** The representation *)

Record queue_rep (o : mini_queue) (q : aqueue) : Prop := {
  qr_wf : fifo_wf (mq_fifo o);
  qr_epi : mq_epi o = Z.of_nat (aq_epi q);
  qr_pos : (0 < aq_epi q)%nat /\ (0 < aq_len q)%nat;
  qr_cap : fifo_cap (mq_fifo o) = (aq_len q * aq_epi q)%nat;
  qr_items : fifo_contents (mq_fifo o) = concat (aq_items q);
  qr_each : Forall (fun x => length x = aq_epi q) (aq_items q)
}.

Definition buf_whole (o : mini_queue) : Prop :=
  Z.of_nat (length (fifo_buf (mq_fifo o) ++ mq_rest o)) = MINI_BARE_QUEUE_ELEM_COUNT.

Record pool_rep (s : queue_pool) (M : pool_abs) : Prop := {
  pr_ctrl : ∃ u, queue_pool_ctrl s = mk_slot (Some u) POOL_SIZE /\ slot_wf u POOL_SIZE /\
                 slot_rep u POOL_SIZE (dom M);
  pr_len : Z.of_nat (length (queues s)) = POOL_SIZE;
  pr_buf : Forall buf_whole (queues s);
  pr_queue : ∀ i q, M !! i = Some q -> ∃ o, queues s !! Z.to_nat i = Some o /\ queue_rep o q
}.

Lemma concat_words (l : list (list Z)) n :
  Forall (fun x => length x = n) l -> length (concat l) = (length l * n)%nat.
Proof. induction 1 as [|x l Hx _ IH]; [done|]. simpl. rewrite length_app. lia. Qed.

Lemma get_count_contents f :
  fifo_wf f -> u16 (fifo_w_ptr f - fifo_r_ptr f) = Z.of_nat (length (fifo_contents f)).
Proof.
  intros WF. rewrite (fifo_contents_length f WF). unfold fifo_used.
  pose proof (u16_range (fifo_w_ptr f - fifo_r_ptr f)). by rewrite Z2Nat.id by lia.
Qed.

Section one_queue.
Context (o : mini_queue) (q : aqueue) (R : queue_rep o q).

Lemma qr_words : length (fifo_contents (mq_fifo o)) = (length (aq_items q) * aq_epi q)%nat.
Proof. rewrite (qr_items _ _ R). apply concat_words, R. Qed.

Lemma qr_epi16 : u16 (mq_epi o) = Z.of_nat (aq_epi q) /\ Z.of_nat (aq_epi q) <= 32768.
Proof.
  pose proof (fifo_size_bounds _ (qr_wf _ _ R)). pose proof (wf_len _ (qr_wf _ _ R)) as HL.
  pose proof (qr_cap _ _ R) as HC. destruct (qr_pos _ _ R). unfold fifo_cap in HC.
  rewrite (qr_epi _ _ R). split; [apply u16_small; nia|nia].
Qed.

Lemma qr_fits : (length (aq_items q) ≤ aq_len q)%nat.
Proof.
  pose proof (fifo_contents_le _ (qr_wf _ _ R)) as H. rewrite qr_words, (qr_cap _ _ R) in H.
  destruct (qr_pos _ _ R). nia.
Qed.

(** The test of the free space is the test for room for an item. *)
Lemma qr_room :
  (u16 (fifo_size (mq_fifo o) - Z.of_nat (length (fifo_contents (mq_fifo o)))) <? u16 (mq_epi o))
    = bool_decide (aq_len q ≤ length (aq_items q))%nat.
Proof.
  pose proof (fifo_size_bounds _ (qr_wf _ _ R)) as HB. pose proof (wf_len _ (qr_wf _ _ R)) as HL.
  pose proof (qr_cap _ _ R) as HC. unfold fifo_cap in HC. pose proof qr_fits.
  destruct qr_epi16 as [-> _]. destruct (qr_pos _ _ R). rewrite qr_words.
  rewrite u16_small by nia. apply eq_bool_prop_intro. rewrite bool_decide_spec.
  rewrite Is_true_true, Z.ltb_lt. nia.
Qed.

Lemma qr_empty :
  (Z.of_nat (length (fifo_contents (mq_fifo o))) <? u16 (mq_epi o))
    = bool_decide (aq_items q = []).
Proof.
  destruct qr_epi16 as [-> _]. destruct (qr_pos _ _ R). rewrite qr_words.
  apply eq_bool_prop_intro. rewrite bool_decide_spec, Is_true_true, Z.ltb_lt.
  rewrite <- length_zero_iff_nil. nia.
Qed.

Lemma qr_write d :
  (length (aq_items q) < aq_len q)%nat -> (aq_epi q ≤ length d)%nat ->
  ∃ f, fifo_write_block (Some (mq_fifo o)) (Some d) (u16 (mq_epi o)) (Some 0)
         = Some (BUFF_OK, Some f, Some (u16 (mq_epi o))) /\
       fifo_cap f = fifo_cap (mq_fifo o) /\
       queue_rep (mk_queue f (mq_rest o) (mq_epi o))
         (aq_set q (aq_items q ++ [take (aq_epi q) d])).
Proof.
  intros Hr Hd. destruct qr_epi16 as [-> _]. pose proof (qr_cap _ _ R) as HC.
  destruct (qr_pos _ _ R) as [He Hl]. pose proof qr_words as HW.
  destruct (fifo_write_block_ok (mq_fifo o) d (Z.of_nat (aq_epi q)) (Some 0))
    as (f & -> & WF & Hc & HI); [apply R|lia|lia|nia|].
  rewrite Nat2Z.id, Nat.min_l in * by nia. exists f. split; [done|]. split; [done|].
  split; simpl; try done; [apply R|congruence| |].
  - rewrite HI, (qr_items _ _ R), concat_app. simpl. by rewrite app_nil_r.
  - apply Forall_app. split; [apply R|]. constructor; [|constructor]. rewrite length_take. lia.
Qed.

Lemma qr_read x l d :
  aq_items q = x :: l -> (aq_epi q ≤ length d)%nat ->
  ∃ f, fifo_read_block (Some (mq_fifo o)) (Some d) (u16 (mq_epi o)) (Some 0)
         = Some (BUFF_OK, Some f, Some (x ++ drop (aq_epi q) d), Some (u16 (mq_epi o))) /\
       fifo_cap f = fifo_cap (mq_fifo o) /\
       queue_rep (mk_queue f (mq_rest o) (mq_epi o)) (aq_set q l).
Proof.
  intros E Hd. destruct qr_epi16 as [-> _]. pose proof (qr_cap _ _ R) as HC.
  destruct (qr_pos _ _ R) as [He Hl]. pose proof qr_words as HW.
  pose proof (qr_each _ _ R) as HF. rewrite E in HF. apply Forall_cons_1 in HF as [Hx HF].
  rewrite E in HW. simpl in HW.
  destruct (fifo_read_block_ok (mq_fifo o) d (Z.of_nat (aq_epi q)) (Some 0))
    as (f & -> & WF & Hc & HI); [apply R|lia|lia|intros HN; rewrite HN in HW; simpl in HW; lia|].
  rewrite Nat2Z.id, Nat.min_l in * by nia. exists f.
  rewrite (qr_items _ _ R), E in *. simpl in *.
  rewrite take_app_length' by done. rewrite drop_app_length' in HI by done.
  split; [done|]. split; [done|]. split; simpl; try done; [apply R|congruence].
Qed.
End one_queue.

(** ** The pool *)
Section pool.
Context (HP : 0 < POOL_SIZE).

Section state.
Context (s : queue_pool) (M : pool_abs) (R : pool_rep s M).

Lemma pool_used i : is_Some (M !! i) <->
  0 <= i < POOL_SIZE /\ ∃ x, queue_used s !! Z.to_nat i = Some x /\ x ≠ 0.
Proof using R.
  destruct (pr_ctrl _ _ R) as (u & Ec & _ & Hu). unfold queue_used. rewrite Ec. simpl.
  rewrite <- elem_of_dom. apply Hu.
Qed.

Lemma pool_index h :
  mini_queue_index_of s h
    = Some (match h with Some i => if decide (is_Some (M !! i)) then i else -1 | None => -1 end).
Proof using HP R.
  unfold mini_queue_index_of. destruct h as [i|]; [|done].
  rewrite Z.gtb_ltb, Z.geb_leb, (proj2 (Z.ltb_lt 0 POOL_SIZE)) by done. simpl.
  destruct (pr_ctrl _ _ R) as (u & Ec & [_ Hl] & _).
  destruct (Z.ltb_spec i 0), (Z.leb_spec POOL_SIZE i); simpl;
    try (rewrite decide_False; [done|rewrite pool_used; lia]).
  assert (Hi : arr_get (queue_used s) i = queue_used s !! Z.to_nat i)
    by (unfold arr_get; by rewrite (proj2 (Z.leb_le 0 i))).
  unfold queue_used at 1. rewrite Ec. simpl. destruct (arr_get_in u i) as [x Hx]; [lia|].
  rewrite Hx. unfold queue_used in Hi. rewrite Ec in Hi. simpl in *. rewrite Hx in Hi.
  destruct (Z.eqb_spec x 0) as [->|Hne].
  - rewrite decide_False; [done|]. rewrite pool_used. unfold queue_used. rewrite Ec. simpl.
    rewrite <- Hi. naive_solver.
  - rewrite decide_True; [done|]. rewrite pool_used. unfold queue_used. rewrite Ec. simpl. eauto.
Qed.

Lemma pool_get i q :
  M !! i = Some q ->
  ∃ o, arr_get (queues s) i = Some o /\ queue_rep o q /\ buf_whole o /\ 0 <= i < POOL_SIZE.
Proof using R.
  intros Hq. destruct (pr_queue _ _ R i q Hq) as (o & Ho & Hr).
  assert (0 <= i < POOL_SIZE) by (apply pool_used; eauto).
  exists o. split; [apply arr_get_Some; split; [lia|done]|]. split; [done|]. split; [|done].
  eapply Forall_lookup_1; [apply R|done].
Qed.

(** Replacing a queue by one that represents the new contents. *)
Lemma pool_put i q o f q' :
  M !! i = Some q -> arr_get (queues s) i = Some o ->
  fifo_cap f = fifo_cap (mq_fifo o) ->
  queue_rep (mk_queue f (mq_rest o) (mq_epi o)) q' ->
  ∃ qs, arr_set (queues s) i (mk_queue f (mq_rest o) (mq_epi o)) = Some qs /\
        pool_rep (mk_pool qs (queue_pool_ctrl s)) (<[i := q']> M).
Proof using R.
  intros Hq Ho Hf Hr. destruct (pool_get i q Hq) as (o' & Ho' & _ & Hb & Hi).
  rewrite Ho in Ho'. injection Ho' as <-. pose proof (pr_len _ _ R).
  rewrite arr_set_in by lia. eexists. split; [reflexivity|]. split; simpl.
  - rewrite dom_insert_lookup_L by eauto. apply R.
  - rewrite length_insert. apply R.
  - apply Forall_insert; [apply R|]. unfold buf_whole, fifo_cap in *. simpl.
    rewrite !length_app in *. lia.
  - intros j qj. destruct (decide (j = i)) as [->|Hne].
    + rewrite lookup_insert_eq. intros [= <-]. eexists. split; [|done].
      apply list_lookup_insert_eq. lia.
    + rewrite lookup_insert_ne by done. intros Hj.
      assert (0 <= j < POOL_SIZE) by (apply pool_used; eauto).
      rewrite list_lookup_insert_ne by lia. by apply R.
Qed.

Lemma send_refines h item b M' :
  abs_send M h item = Some (b, M') ->
  ∃ s', mini_queue_send_internal s h item = Some (b, s') /\ pool_rep s' M'.
Proof using HP R.
  unfold mini_queue_send_internal. rewrite pool_index. destruct h as [i|]; simpl.
  2: { intros [= <- <-]. eauto. }
  destruct item as [d|]; [|intros [= <- <-]; rewrite orb_true_r; eauto].
  rewrite bool_decide_eq_true_2 by eauto. rewrite orb_false_r.
  destruct (M !! i) as [q|] eqn:Hq.
  2: { intros [= <- <-]. rewrite decide_False by (by intros []). simpl. eauto. }
  rewrite (decide_True (P := is_Some (Some q))) by eauto. destruct (pool_get i q Hq) as (o & Ho & Hr & _ & Hi).
  rewrite (proj2 (Z.ltb_ge i 0)), Ho by lia. simpl.
  rewrite get_count_contents by apply Hr. simpl. rewrite (qr_room o q Hr).
  destruct (decide (length (aq_items q) < aq_len q)%nat) as [Hlt|Hge].
  2: { intros [= <- <-]. rewrite bool_decide_eq_true_2 by lia. eauto. }
  rewrite bool_decide_eq_false_2 by lia.
  destruct (decide (aq_epi q ≤ length d)%nat) as [Hd|]; [|done]. intros [= <- <-].
  destruct (qr_write o q Hr d Hlt Hd) as (f & -> & Hf & Hr'). cbn [mbind option_bind].
  destruct (pool_put i q o f _ Hq Ho Hf Hr') as (qs & -> & HR). cbn [mbind option_bind].
  change (negb (BUFF_OK =? BUFF_OK)) with false. cbv iota. rewrite Z.eqb_refl. eauto.
Qed.

Lemma take_refines i q d b item M' :
  M !! i = Some q -> abs_take M i q d = Some (b, item, M') ->
  ∃ s', receive_block s i (Some d) = Some (b, item, s') /\ pool_rep s' M'.
Proof using R.
  intros Hq. destruct (pool_get i q Hq) as (o & Ho & Hr & _ & Hi).
  unfold receive_block, abs_take. rewrite Ho. simpl.
  rewrite get_count_contents by apply Hr. simpl. rewrite (qr_empty o q Hr).
  destruct (aq_items q) as [|x l] eqn:E; simpl; [intros [= <- <- <-]; eauto|].
  destruct (decide (aq_epi q ≤ length d)%nat) as [Hd|]; [|done]. intros [= <- <- <-].
  destruct (qr_read o q Hr x l d E Hd) as (f & Hrd & Hf & Hr'). rewrite Hrd. simpl.
  destruct (pool_put i q o f _ Hq Ho Hf Hr') as (qs & -> & HR). simpl.
  rewrite Z.eqb_refl. eauto.
Qed.
End state.

(** *** Creation *)

Lemma lowest_free_full (M : pool_abs) n : ∀ i,
  (∀ j, i <= j < i + Z.of_nat n -> is_Some (M !! j)) -> lowest_free M i n = None.
Proof.
  induction n as [|n IH]; intros i H; [done|]. simpl. rewrite decide_True by (apply H; lia).
  apply IH. intros j Hj. apply H. lia.
Qed.

Lemma lowest_free_at (M : pool_abs) n k : ∀ i,
  i <= k < i + Z.of_nat n -> M !! k = None -> (∀ j, i <= j < k -> is_Some (M !! j)) ->
  lowest_free M i n = Some k.
Proof.
  induction n as [|n IH]; intros i Hk Hn H; [lia|]. simpl.
  destruct (decide (i = k)) as [->|Hne].
  - rewrite decide_False; [done|]. rewrite Hn. by intros [].
  - rewrite decide_True by (apply H; lia). apply IH; [lia|done|]. intros j Hj. apply H. lia.
Qed.

Lemma init_large o b total :
  32768 < total < 2 ^ 32 -> pow2_test total = true ->
  fifo_init (Some o) (Some b) (u16 total) = (BUFF_ERR_INVAL, Some o).
Proof.
  intros Ht Hp. apply pow2_test_spec in Hp as (k & Hk & ->); [|lia].
  assert (16 <= k).
  { destruct (Z.le_gt_cases 16 k); [done|]. assert (2 ^ k <= 2 ^ 15) by (apply Z.pow_le_mono_r; lia).
    lia. }
  replace (u16 (2 ^ k)) with 0; [done|]. unfold u16. change 65536 with (2 ^ 16).
  symmetry. apply Z.mod_divide; [lia|]. exists (2 ^ (k - 16)).
  rewrite <- Z.pow_add_r by lia. f_equal. lia.
Qed.

Lemma init_small o total :
  buf_whole o -> 0 < total <= Z.min MINI_BARE_QUEUE_ELEM_COUNT 32768 -> pow2_test total = true ->
  let n := Z.to_nat total in
  let buf := fifo_buf (mq_fifo o) ++ mq_rest o in
  ∃ f, fifo_init (Some (mq_fifo o)) (Some (take n buf)) (u16 total) = (BUFF_OK, Some f) /\
       fifo_wf f /\ fifo_cap f = n /\ fifo_contents f = [] /\
       (∀ e, buf_whole (mk_queue f (drop n buf) e)).
Proof.
  intros Hb Ht Hp n buf. unfold buf_whole in Hb. fold buf in Hb.
  rewrite u16_small by lia.
  destruct (fifo_init (Some (mq_fifo o)) (Some (take n buf)) total) as [r f'] eqn:E.
  assert (HT : Z.of_nat (length (take n buf)) = total) by (rewrite length_take; lia).
  assert (r = BUFF_OK /\ ∃ f, f' = Some f) as [-> (f & ->)].
  { revert E. unfold fifo_init. fold (pow2_test total). rewrite Hp.
    destruct (Z.eqb_spec total 0); [lia|]. simpl. intros [= <- <-]. eauto. }
  assert (Hu : is_u16 total) by (unfold is_u16; lia).
  destruct (fifo_init_wf (Some (mq_fifo o)) _ _ _ Hu HT E) as (WF & HC & HE).
  exists f. split; [done|]. split; [done|]. split; [done|]. split; [done|].
  intros e. unfold buf_whole. simpl. unfold fifo_cap in HC.
  rewrite length_app, HC, length_drop. unfold n. lia.
Qed.

(** The queue of index [i] is replaced while the pool's map becomes that of [M']. *)
Lemma pool_claim s M i o qs u M' :
  pool_rep s M -> 0 <= i < POOL_SIZE -> buf_whole o ->
  arr_set (queues s) i o = Some qs ->
  slot_wf u POOL_SIZE -> slot_rep u POOL_SIZE (dom M') ->
  (∀ j, j ≠ i -> M' !! j = M !! j) -> (∀ q, M' !! i = Some q -> queue_rep o q) ->
  pool_rep (mk_pool qs (mk_slot (Some u) POOL_SIZE)) M'.
Proof.
  intros R Hi Ho Hs Hu Hr Hj Hq. pose proof (pr_len _ _ R).
  rewrite arr_set_in in Hs by lia. injection Hs as <-. split; simpl.
  - eauto.
  - rewrite length_insert. apply R.
  - apply Forall_insert; [apply R|done].
  - intros j qj Hqj. destruct (decide (j = i)) as [->|Hne].
    + eexists. split; [apply list_lookup_insert_eq; lia|auto].
    + rewrite Hj in Hqj by done.
      assert (0 <= j < POOL_SIZE) by (apply (pool_used s M R); eauto).
      rewrite list_lookup_insert_ne by lia. by apply R.
Qed.

Lemma create_claims s M :
  pool_rep s M ->
  ∃ i u, mini_slot_claim (Some (queue_pool_ctrl s)) = Some (i, Some (mk_slot (Some u) POOL_SIZE)) /\
    ((i = -1 /\ pool_rep (mk_pool (queues s) (mk_slot (Some u) POOL_SIZE)) M /\
      lowest_free M 0 (Z.to_nat POOL_SIZE) = None) \/
     (∃ o, 0 <= i < POOL_SIZE /\ arr_get (queues s) i = Some o /\ buf_whole o /\ M !! i = None /\
      slot_wf u POOL_SIZE /\ slot_rep u POOL_SIZE ({[i]} ∪ dom M) /\
      lowest_free M 0 (Z.to_nat POOL_SIZE) = Some i)).
Proof using HP.
  intros R. destruct (pr_ctrl _ _ R) as (u & Ec & WF & Hr). rewrite Ec.
  destruct (slot_claim_step u POOL_SIZE (dom M) WF Hr) as (i & u' & -> & WF' & H).
  exists i, u'. split; [done|]. destruct H as [(-> & -> & H)|(Hi & Hni & Hlow & Hr')].
  - left. split; [done|]. split; [split; simpl; [eauto|apply R..]|].
    apply lowest_free_full. intros j Hj. apply elem_of_dom, H. lia.
  - right. pose proof (pr_len _ _ R). destruct (arr_get_in (queues s) i) as [o Ho]; [lia|].
    exists o. apply not_elem_of_dom in Hni. split; [done|]. split; [done|]. split.
    + apply arr_get_Some in Ho as [_ Ho]. eapply Forall_lookup_1; [apply R|done].
    + do 3 (split; [done|]). apply lowest_free_at; [lia|done|].
      intros j Hj. apply elem_of_dom, Hlow. lia.
Qed.

(** From the claim on: a pool that is full, a count that does not fit 16 bits (the slot is
    given back), a new queue. *)
Lemma create_claimed s M len epi r M' :
  pool_rep s M -> 0 < len -> 0 < epi -> len * epi < 2 ^ 32 ->
  pow2_test (len * epi) = true -> len * epi <= MINI_BARE_QUEUE_ELEM_COUNT ->
  (if 32768 <? len * epi then Some (RHandle None, M)
   else match lowest_free M 0 (Z.to_nat POOL_SIZE) with
        | None => Some (RHandle None, M)
        | Some i => Some (RHandle (Some i), <[i := mk_aq (Z.to_nat len) (Z.to_nat epi) []]> M)
        end) = Some (r, M') ->
  ∃ c s', create_in_slot s (len * epi) epi = Some c /\
          match c with CTrap => False | CHandle h s1 => r = RHandle h /\ s' = s1 end /\
          pool_rep s' M'.
Proof using HP.
  intros R Hl He Hlt Hp Hle. unfold create_in_slot. pose proof (pr_len _ _ R) as HL.
  destruct (create_claims s M R)
    as (i & u & -> & [(-> & R' & ->)|(o & Hi & Ho & Hb & Hn & WF & Hr & ->)]); cbn [mbind option_bind].
  { destruct (32768 <? len * epi); intros [= <- <-]; eexists _, _; split; eauto. }
  rewrite (proj2 (Z.ltb_ge i 0)), Ho by lia. cbn [mbind option_bind].
  destruct (Z.ltb_spec 32768 (len * epi)) as [Hbig|Hsm]; intros [= <- <-].
  - rewrite init_large by (done || lia). cbn [mbind option_bind].
    change (BUFF_ERR_INVAL =? BUFF_OK) with false. cbv iota.
    destruct (arr_set (queues s) i (mk_queue (mq_fifo o) (mq_rest o) epi)) as [qs|] eqn:Es;
      [|rewrite arr_set_in in Es by lia; done].
    cbn [mbind option_bind].
    destruct (slot_release_step u POOL_SIZE _ WF Hr i Hi) as (u' & -> & WF' & Hr').
    cbn [mbind option_bind]. eexists _, _. split; [done|]. split; [done|].
    eapply (pool_claim s M i); [done|done| |exact Es|done| |done|congruence]; [exact Hb|].
    apply not_elem_of_dom in Hn. by replace (dom M) with (({[i]} ∪ dom M) ∖ {[i]}) by set_solver.
  - destruct (init_small o (len * epi)) as (f & -> & HWF & HC & HE & HB); [done|lia|done|].
    cbn [mbind option_bind]. change (BUFF_OK =? BUFF_OK) with true. cbv iota.
    destruct (arr_set (queues s) i _) as [qs|] eqn:Es; [|rewrite arr_set_in in Es by lia; done].
    cbn [mbind option_bind]. eexists _, _. split; [done|]. split; [done|].
    eapply (pool_claim s M i); [done|done|apply HB|exact Es|done|by rewrite dom_insert_L|..].
    + intros j Hj. by rewrite lookup_insert_ne.
    + intros q. rewrite lookup_insert_eq. intros [= <-]. split; simpl; try done; lia.
Qed.

Lemma create_refines s M len size r M' :
  pool_rep s M -> abs_create M len size = Some (r, M') ->
  ∃ s', bare_exec s (BCreate len size) = Some (r, s') /\ pool_rep s' M'.
Proof using HP.
  intros R. unfold abs_create, bare_exec, mini_queue_create.
  destruct (negb _) eqn:Eg; [done|]. apply negb_false_iff in Eg. bool_to_prop.
  do 3 (bool_case; [intros [= <- <-]; simpl; eauto|]). bool_to_prop.
  set (epi := size / SIZEOF_FIFO_DATA) in *.
  assert (Hs : size = SIZEOF_FIFO_DATA * epi)
    by (unfold epi; pose proof (Z.div_mod size SIZEOF_FIFO_DATA); unfold SIZEOF_FIFO_DATA in *; lia).
  assert (0 < epi) by (unfold SIZEOF_FIFO_DATA in Hs; lia).
  assert (0 < len * epi) by nia.
  rewrite (u32_small (len * epi)) by (change 4294967296 with (2 ^ 32); lia).
  destruct (pow2_test (len * epi)) eqn:Ep; cbn [negb]; [|intros [= <- <-]; simpl; eauto].
  rewrite !Z.gtb_ltb, (proj2 (Z.ltb_lt 0 POOL_SIZE)) by done. cbn [negb].
  destruct (Z.ltb_spec MINI_BARE_QUEUE_ELEM_COUNT (len * epi)).
  { rewrite (proj2 (Z.ltb_lt _ _)) by lia. intros [= <- <-]. simpl. eauto. }
  replace (Z.min MINI_BARE_QUEUE_ELEM_COUNT 32768 <? len * epi) with (32768 <? len * epi).
  2: { apply eq_bool_prop_intro. rewrite !Is_true_true, !Z.ltb_lt. lia. }
  intros HA. destruct (create_claimed s M len epi r M' R) as (c & s' & -> & Hc & R'); try done; [lia|].
  destruct c as [|h s1]; [done|]. destruct Hc as [-> ->]. simpl. eauto.
Qed.

(** *** The other calls *)

Lemma delete_refines s M h :
  pool_rep s M ->
  ∃ s', mini_queue_delete s h = Some s' /\ pool_rep s' (abs_delete M h).
Proof using HP.
  intros R. unfold mini_queue_delete, abs_delete. rewrite (pool_index s M R).
  destruct h as [i|]; [|simpl; eauto]. cbn [mbind option_bind].
  destruct (M !! i) as [q|] eqn:Hq.
  2: { rewrite decide_False, delete_id by (done || by intros []). simpl. eauto. }
  rewrite decide_True by eauto. destruct (pool_get s M R i q Hq) as (_ & _ & _ & _ & Hi).
  rewrite (proj2 (Z.ltb_ge i 0)) by lia. destruct (pr_ctrl _ _ R) as (u & -> & WF & Hr).
  destruct (slot_release_step u POOL_SIZE _ WF Hr i Hi) as (u' & -> & WF' & Hr').
  simpl. eexists. split; [done|]. split; simpl; try apply R.
  - exists u'. by rewrite dom_delete_L.
  - intros j qj [_ Hj]%lookup_delete_Some. by apply R.
Qed.

Lemma receive_now_refines s M h item b it M' :
  pool_rep s M -> abs_receive_now M h item = Some (b, it, M') ->
  ∃ s', mini_queue_receive_from_isr s h item = Some (b, it, s') /\ pool_rep s' M'.
Proof using HP.
  intros R. unfold mini_queue_receive_from_isr, abs_receive_now. rewrite (pool_index s M R).
  destruct h as [i|]; [|intros [= <- <- <-]; simpl; eauto]. cbn [mbind option_bind].
  destruct item as [d|]; [|intros [= <- <- <-]; rewrite orb_true_r; eauto].
  destruct (M !! i) as [q|] eqn:Hq.
  2: { intros [= <- <- <-]. rewrite decide_False by (by intros []). simpl. eauto. }
  rewrite decide_True by eauto. destruct (pool_get s M R i q Hq) as (_ & _ & _ & _ & Hi).
  rewrite (proj2 (Z.ltb_ge i 0)) by lia. rewrite bool_decide_eq_true_2 by eauto. cbn [negb orb].
  intros HA. destruct (take_refines s M R i q d b it M' Hq HA) as (s1 & -> & R1). eauto.
Qed.

Lemma call_refines s M c M' :
  pool_rep s M -> abs_call M c = Some M' -> ∃ s', isr_exec s c = Some s' /\ pool_rep s' M'.
Proof using HP.
  intros R. destruct c as [h item|h item|h]; simpl.
  - destruct (abs_send M h item) as [[b M1]|] eqn:E; [|done]. intros [= <-].
    destruct (send_refines s M R h item b M1 E) as (s1 & Hs & R1).
    unfold mini_queue_send_from_isr. rewrite Hs. simpl. eauto.
  - destruct (abs_receive_now M h item) as [[[b it] M1]|] eqn:E; [|done]. intros [= <-].
    destruct (receive_now_refines s M h item b it M1 R E) as (s1 & -> & R1). simpl. eauto.
  - intros [= <-]. by apply delete_refines.
Qed.

Lemma calls_refine l : ∀ s M M',
  pool_rep s M -> abs_calls M l = Some M' -> ∃ s', isr_calls s l = Some s' /\ pool_rep s' M'.
Proof using HP.
  induction l as [|c l IH]; intros s M M' R; simpl; [intros [= <-]; eauto|].
  destruct (abs_call M c) as [M1|] eqn:E; [|done]. simpl. intros H.
  destruct (call_refines s M c M1 R E) as (s1 & -> & R1). simpl. eauto.
Qed.

Lemma wait_refines timeout start i polls : ∀ s M w,
  pool_rep s M -> abs_wait timeout start M i polls = Some w ->
  ∃ w', receive_wait timeout start s i polls = Some w' /\
    match w', w with
    | WReady s', WReady M' | WTimeout s', WTimeout M' | WWaiting s', WWaiting M' => pool_rep s' M'
    | _, _ => False
    end.
Proof using HP.
  induction polls as [|p polls IH]; intros s M w R; simpl;
    (destruct (M !! i) as [q|] eqn:Hq; [|done]); cbn [mbind option_bind];
    destruct (pool_get s M R i q Hq) as (o & -> & Hr & _ & Hi); cbn [mbind option_bind];
    rewrite get_count_contents by apply Hr; rewrite (qr_empty o q Hr);
    (destruct (aq_items q) eqn:Ei; simpl; [|intros [= <-]; by eexists]).
  { intros [= <-]. by eexists. }
  destruct (_ && _); [intros [= <-]; by eexists|].
  destruct (abs_calls M (poll_calls p)) as [M1|] eqn:E; [|done]. simpl. intros H.
  destruct (calls_refine _ s M M1 R E) as (s1 & -> & R1). simpl. eauto.
Qed.

(** Both receives: an index that is not in use, else a wait and the block. *)
Lemma receive_refines s M h item wait r M' :
  pool_rep s M -> abs_receive M h item wait = Some (r, M') ->
  (∃ i, h = Some i /\ is_Some (M !! i) /\ is_Some item /\
    mini_queue_index_of s h = Some i /\ (i <? 0) || negb (bool_decide (is_Some item)) = false) \/
  (r = RItem false item /\ M' = M /\ ∃ i, mini_queue_index_of s h = Some i /\
    (i <? 0) || negb (bool_decide (is_Some item)) = true).
Proof using HP.
  intros R. rewrite (pool_index s M R). unfold abs_receive.
  destruct h as [i|]; [|intros [= <- <-]; right; eauto].
  destruct item as [d|].
  2: { intros [= <- <-]. right. split; [done|]. split; [done|]. eexists. split; [done|].
       apply orb_true_r. }
  destruct (M !! i) as [q|] eqn:Hq.
  2: { intros [= <- <-]. right. split; [done|]. split; [done|]. eexists. split; [done|].
       rewrite decide_False by (by intros []). done. }
  intros _. left. exists i. rewrite decide_True by eauto.
  destruct (pool_get s M R i q Hq) as (_ & _ & _ & _ & Hi).
  rewrite (proj2 (Z.ltb_ge i 0)) by lia. rewrite bool_decide_eq_true_2 by eauto. eauto 10.
Qed.

Lemma block_refines s M i d r M' :
  pool_rep s M ->
  (q ← M !! i; '(b, item, M) ← abs_take M i q d; Some (RItem b item, M)) = Some (r, M') ->
  ∃ b item s', receive_block s i (Some d) = Some (b, item, s') /\ r = RItem b item /\
               pool_rep s' M'.
Proof.
  intros R. destruct (M !! i) as [q|] eqn:Hq; [|done]. cbn [mbind option_bind].
  destruct (abs_take M i q d) as [[[b it] M1]|] eqn:E; [|done]. intros [= <- <-].
  destruct (take_refines s M R i q d b it M1 Hq E) as (s1 & -> & R1). eauto 10.
Qed.

Lemma receive_call_refines isr s M h item t st polls r M' :
  pool_rep s M -> abs_exec M (BReceive isr h item t st polls) = Some (r, M') ->
  ∃ s', bare_exec s (BReceive isr h item t st polls) = Some (r, s') /\ pool_rep s' M'.
Proof using HP.
  intros R. destruct isr; simpl; [intros [= <- <-]; eauto|]. intros H. unfold mini_queue_receive.
  destruct (receive_refines _ _ _ _ _ _ _ R H)
    as [(i & -> & [q0 Hq0] & [d ->] & -> & Ht)|(-> & -> & i & -> & Ht)];
    cbn [mbind option_bind]; rewrite Ht; [|simpl; eauto]. clear Ht.
  revert H. unfold abs_receive. rewrite Hq0. destruct (t =? 0); cbn [mbind option_bind].
  { intros H. destruct (block_refines s M i d r M' R H) as (b & it & s1 & -> & -> & R1).
    simpl. eauto. }
  destruct (abs_wait t st M i polls) as [w|] eqn:Ew; [|done].
  destruct (wait_refines _ _ _ _ _ _ _ R Ew) as (w' & -> & Hw). cbn [mbind option_bind].
  destruct w as [M1|M1|M1], w' as [s1|s1|s1]; try done; [|intros [= <- <-]; simpl; eauto..].
  intros H. destruct (block_refines s1 M1 i d r M' Hw H) as (b & it & s2 & -> & -> & R2).
  simpl. eauto.
Qed.

Lemma exec_refines s M op r M' :
  pool_rep s M -> abs_exec M op = Some (r, M') ->
  ∃ s', bare_exec s op = Some (r, s') /\ pool_rep s' M'.
Proof using HP.
  intros R. destruct op as [len size|h|isr h item|h item|isr h item t st polls|h item].
  - by apply create_refines.
  - simpl. intros [= <- <-]. destruct (delete_refines s M h R) as (s' & -> & R'). simpl. eauto.
  - destruct isr; simpl; [intros [= <- <-]; eauto|].
    destruct (abs_send M h item) as [[b M1]|] eqn:E; [|done]. intros [= <- <-].
    destruct (send_refines s M R h item b M1 E) as (s1 & -> & R1). simpl. eauto.
  - simpl. destruct (abs_send M h item) as [[b M1]|] eqn:E; [|done]. intros [= <- <-].
    destruct (send_refines s M R h item b M1 E) as (s1 & Hs & R1).
    unfold mini_queue_send_from_isr. rewrite Hs. simpl. eauto.
  - by apply receive_call_refines.
  - simpl. destruct (abs_receive_now M h item) as [[[b it] M1]|] eqn:E; [|done]. intros [= <- <-].
    destruct (receive_now_refines s M h item b it M1 R E) as (s1 & -> & R1). simpl. eauto.
Qed.

Lemma run_refines ops : ∀ s M rs M',
  pool_rep s M -> abs_run M ops = Some (rs, M') ->
  ∃ s', bare_run s ops = Some (rs, s') /\ pool_rep s' M'.
Proof using HP.
  induction ops as [|op ops IH]; intros s M rs M' R; simpl; [intros [= <- <-]; eauto|].
  destruct (abs_exec M op) as [[r M1]|] eqn:E; [|done]. cbn [mbind option_bind].
  destruct (exec_refines s M op r M1 R E) as (s1 & -> & R1). cbn [mbind option_bind].
  destruct (resp_returns r); [|intros [= <- <-]; eauto].
  destruct (abs_run M1 ops) as [[rs1 M2]|] eqn:E2; [|done]. intros [= <- <-].
  destruct (IH s1 M1 rs1 M2 R1 E2) as (s2 & -> & R2). simpl. eauto.
Qed.

Lemma boot_rep :
  0 <= BUF_SZ -> ∃ s, mini_queue_pool_boot pool_zero = Some s /\ pool_rep s ∅.
Proof using HP.
  intros HB. unfold mini_queue_pool_boot, mini_slot_init. simpl.
  rewrite (proj2 (Z.eqb_neq POOL_SIZE 0)) by lia.
  destruct (slot_clear_spec (Z.to_nat POOL_SIZE) (queue_used pool_zero) 0)
    as (u & -> & HL & H1 & _);
    unfold queue_used, pool_zero in *; simpl in *; rewrite ?length_replicate in *; [lia|lia|].
  simpl. eexists. split; [done|]. split; simpl.
  - exists u. split; [done|]. split; [split; lia|]. intros i. rewrite dom_empty_L.
    split; [set_solver|]. intros [Hi (x & Hx & Hne)]. rewrite H1 in Hx by lia. congruence.
  - rewrite length_replicate. lia.
  - apply Forall_replicate. unfold buf_whole. simpl. rewrite length_replicate.
    unfold MINI_BARE_QUEUE_ELEM_COUNT, SIZEOF_FIFO_DATA.
    pose proof (Z.div_pos BUF_SZ 4). lia.
  - intros i q. by rewrite lookup_empty.
Qed.

(** With a finite timeout the waiting loop ends by the first reading of the clock that shows
    the timeout to be over. *)
Lemma receive_wait_ends timeout start i polls : ∀ s w,
  timeout ≠ MINI_WAIT_FOREVER ->
  Exists (fun p => timeout <= u32 (poll_now p - start)) polls ->
  receive_wait timeout start s i polls = Some w -> ∀ s', w ≠ WWaiting s'.
Proof.
  induction polls as [|p polls IH]; intros s w Hf He; [by inversion He|]. simpl.
  destruct (arr_get (queues s) i) as [o|]; [|done]. simpl.
  destruct (_ <? u16 (mq_epi o)); [|intros [= <-]; done].
  rewrite (proj2 (Z.eqb_neq _ _) Hf), Z.geb_leb. simpl.
  destruct (Z.leb_spec timeout (u32 (poll_now p - start))); [intros [= <-]; done|].
  destruct (isr_calls s (poll_calls p)) as [s1|]; [|done]. simpl.
  apply IH; [done|]. apply Exists_cons in He as [|]; [lia|done].
Qed.

(** The queue of the event bus: two words to an event, K_QUEUE_LEN events; a send does what
    the model of the bus takes it to do. *)
Definition event_words (e : event) : list Z := [ev_id e; ev_arg e].

Lemma event_queue_implemented K s M i l e :
  pool_rep s M -> M !! i = Some (mk_aq K 2 (event_words <$> l)) ->
  let '(b, l') := EventBus.mini_queue_send K l e in
  ∃ s', mini_queue_send_internal s (Some i) (Some (event_words e)) = Some (b, s') /\
        pool_rep s' (<[i := mk_aq K 2 (event_words <$> l')]> M).
Proof using HP.
  intros R Hq. unfold EventBus.mini_queue_send.
  assert (Ha : abs_send M (Some i) (Some (event_words e))
            = Some (if decide (length l < K)%nat then (true, <[i := mk_aq K 2 (event_words <$> (l ++ [e]))]> M)
                    else (false, M))).
  { simpl. rewrite Hq. simpl. rewrite length_fmap, fmap_app.
    destruct (decide (length l < K)%nat); [|done]. done. }
  destruct (decide (length l < K)%nat); apply (send_refines s M R) in Ha; [done|].
  by rewrite insert_id.
Qed.

End pool.

(** C37: Refinement. On a pool of queues started from boot, take any program of creations,
    deletions, sends and receives, from the main program or an interrupt, with any handle
    (null, out of range or of a deleted queue), in which calls do not interrupt each other,
    except that in every round of the loop of a receive that waits interrupts may send to,
    receive from and delete other queues and send to and receive from the one waited for.  Call
    by call it gives the answers of a map from handles to bounded queues of whole items:
    creation hands out the lowest free handle or traps or refuses as the sizes demand; a
    send appends a whole item or refuses when [queue_len] items wait; a receive hands out the
    oldest item entire; no queue disturbs another; no access is out of range.  The caller's
    side of the contract (buffers of an item's size, sizes whose product fits [size_t], no
    deletion of a queue that is waited for) is where the abstract run is defined. *)
Theorem bare_queues_refine ops rs M :
  0 < POOL_SIZE -> 0 <= BUF_SZ -> abs_run ∅ ops = Some (rs, M) ->
  ∃ s0 s, mini_queue_pool_boot pool_zero = Some s0 /\ bare_run s0 ops = Some (rs, s) /\
          pool_rep s M.
Proof.
  intros HP HB HA. destruct (boot_rep HP HB) as (s0 & H0 & R0).
  destruct (run_refines HP ops s0 ∅ rs M R0 HA) as (s & H & R). eauto.
Qed.
End queues.

Definition demo_ops : list bare_op :=
  [BCreate 4 8; BCreate 2 4; BCreate 2 4; BSend false (Some 0) (Some [1; 2]);
   BSendIsr (Some 0) (Some [3; 4]); BReceive false (Some 0) (Some [0; 0]) 0 0 [];
   BDelete (Some 1); BSend false (Some 1) (Some [7]); BCreate 8 4;
   BReceive false (Some 1) (Some [0]) 10 5
     [mk_poll 6 [IReceive (Some 0) (Some [0; 0])];
      mk_poll 7 [ISend (Some 1) (Some [9]); ISend (Some 0) (Some [8; 8])]];
   BReceive false (Some 1) (Some [0]) 10 5 [mk_poll 6 []; mk_poll 16 []];
   BReceive false (Some 1) (Some [0]) MINI_WAIT_FOREVER 0 []].

Definition demo_resps : list bare_resp :=
  [RHandle (Some 0); RHandle (Some 1); RHandle None; RBool true; RBool true;
   RItem true (Some [1; 2]); RVoid; RBool false; RHandle (Some 1); RItem true (Some [9]);
   RItem false (Some [0]); RWaiting].

Lemma bare_queues_refine_witness :
  abs_run 2 64 ∅ demo_ops
    = Some (demo_resps, <[1 := mk_aq 8 1 []]> (<[0 := mk_aq 4 2 [[8; 8]]]> ∅)) /\
  ∃ s0 s, mini_queue_pool_boot 2 (pool_zero 2 64) = Some s0 /\
          bare_run 2 64 s0 demo_ops = Some (demo_resps, s) /\
          pool_rep 2 64 s (<[1 := mk_aq 8 1 []]> (<[0 := mk_aq 4 2 [[8; 8]]]> ∅)).
Proof.
  assert (abs_run 2 64 ∅ demo_ops
    = Some (demo_resps, <[1 := mk_aq 8 1 []]> (<[0 := mk_aq 4 2 [[8; 8]]]> ∅)))
    by (vm_compute; reflexivity).
  split; [done|]. apply bare_queues_refine; [lia|lia|done].
Defined.

(** The event bus may be configured with a queue length that is no power of two
    (CONFIG_EVENT_BUS_QUEUE_LEN is any number from 8 to 256); its queue then traps. *)
Example event_bus_len_traps s :
  mini_queue_create 1 2048 s 100 8 = Some CTrap.
Proof. reflexivity. Qed.

(** The size of the whole queue is not checked for overflow: an item of 2^30 + 4 bytes, 16
    times, is 64 bytes modulo 2^32, and the queue is created; an item sent to it is cut to
    its first word. *)
Example create_wraps :
  (s ← mini_queue_pool_boot 1 (pool_zero 1 2048);
   '(rs, _) ← bare_run 1 2048 s [BCreate 16 (2 ^ 30 + 4); BSend false (Some 0) (Some [5; 6; 7]);
                                BReceive false (Some 0) (Some [0; 0; 0]) 0 0 []];
   Some rs)
  = Some [RHandle (Some 0); RBool true; RItem true (Some [5; 0; 0])].
Proof. vm_compute. reflexivity. Qed.

(** ** An interrupt inside a send

    [mini_queue_send_internal] has no critical section.  A send that was interrupted after
    [fifo_write_block] had loaded the pointers of [before] goes on with them, on the buffer as
    the interrupt left it in [s]. *)
Definition send_resumes (before s : queue_pool) (idx : Z) (item : list Z) : option (bool * queue_pool) :=
  old ← arr_get (queues before) idx; obj ← arr_get (queues s) idx;
  let f := mq_fifo obj in
  let loaded := mk_fifo (fifo_buf f) (fifo_size f) (fifo_mask f) (fifo_w_ptr (mq_fifo old))
                  (fifo_r_ptr (mq_fifo old)) in
  let epi := u16 (mq_epi obj) in
  '(r, f, written) ← fifo_write_block (Some loaded) (Some item) epi (Some 0);
  f ← f; written ← written;
  qs ← arr_set (queues s) idx (mk_queue f (mq_rest obj) (mq_epi obj));
  Some ((r =? BUFF_OK) && (written =? epi), mk_pool qs (queue_pool_ctrl s)).

(** An interrupt that sends [3; 4] while the main program sends [1; 2]: both are answered true,
    one item arrives.  So it goes with [event_bus_post] and [event_bus_post_from_isr]. *)
Example overlapping_sends :
  (s0 ← mini_queue_pool_boot 1 (pool_zero 1 64);
   '(_, s0) ← bare_run 1 64 s0 [BCreate 4 8];
   '(sent_isr, s1) ← mini_queue_send_from_isr 1 s0 (Some 0) (Some [3; 4]);
   '(sent, s2) ← send_resumes s0 s1 0 [1; 2];
   '(rs, _) ← bare_run 1 64 s2 [BReceiveIsr (Some 0) (Some [0; 0]); BReceiveIsr (Some 0) (Some [0; 0])];
   Some (sent_isr, sent, rs))
  = Some (true, true, [RItem true (Some [1; 2]); RItem false (Some [0; 0])]).
Proof. vm_compute. reflexivity. Qed.
