(* ===== verification/BareMutex.v ===== *)
(** * The bare-metal backend: mutexes and task stubs

    Models the rest of src/core/src/mini_backend_bare.c: the busy-wait mutex in its two
    builds, CONFIG_CPU_CORES = 1 (the state is tested and changed with interrupts masked, one
    step) and CONFIG_CPU_CORES > 1 (single atomic accesses, which other cores interleave
    with), and the stubs of the task functions.  The accesses of the multi-core build are
    taken to be sequentially consistent. *)

From S2P Require Import Prelude Status Bare.

#[local] Open Scope Z_scope.

Definition MINI_MUTEX_RECURSIVE : Z := 0.
Definition MINI_MUTEX_PLAIN : Z := 1.
(** [sizeof(struct mini_mutex)]. *)
Definition SIZEOF_MINI_MUTEX : Z := 12.

Record mini_mutex := mk_mtx { mtx_type : Z; mtx_lock : Z; mtx_depth : Z }.

Definition mini_mutex_init (mutex : option mini_mutex) (type : Z) : Z * option mini_mutex :=
  match mutex with
  | None => (MINI_ERR_INVAL, None)
  | Some _ =>
      if negb (type =? MINI_MUTEX_RECURSIVE) && negb (type =? MINI_MUTEX_PLAIN)
      then (MINI_ERR_INVAL, mutex)
      else (MINI_OK, Some (mk_mtx type 0 0))
  end.

(** The code, the storage, and whether [*out] is set to it.  [out]: the pointer is not
    NULL. *)
Definition mini_mutex_create_static_typed (in_isr out : bool) (storage : option mini_mutex)
    (storage_size type : Z) : Z * option mini_mutex * bool :=
  if negb out || negb (bool_decide (is_Some storage)) || (storage_size <? SIZEOF_MINI_MUTEX)
  then (MINI_ERR_INVAL, storage, false) else
  if in_isr then (MINI_ERR_ISR, storage, false) else
  if negb (type =? MINI_MUTEX_RECURSIVE) && negb (type =? MINI_MUTEX_PLAIN)
  then (MINI_ERR_INVAL, storage, false) else
  let '(r, storage) := mini_mutex_init storage type in
  if negb (r =? MINI_OK) then (MINI_ERR_INVAL, storage, false) else (MINI_OK, storage, true).

Definition mini_mutex_create_static (in_isr out : bool) (storage : option mini_mutex)
    (storage_size : Z) : Z * option mini_mutex * bool :=
  mini_mutex_create_static_typed in_isr out storage storage_size MINI_MUTEX_PLAIN.

Definition mini_mutex_create_static_recursive (in_isr out : bool) (storage : option mini_mutex)
    (storage_size : Z) : Z * option mini_mutex * bool :=
  mini_mutex_create_static_typed in_isr out storage storage_size MINI_MUTEX_RECURSIVE.

(** ** One core *)

Definition mini_mutex_try_acquire (m : mini_mutex) : Z * mini_mutex :=
  if mtx_lock m =? 0 then (MINI_OK, mk_mtx (mtx_type m) 1 1) else
  if (mtx_type m =? MINI_MUTEX_RECURSIVE) && (mtx_depth m >? 0)
  then (MINI_OK, mk_mtx (mtx_type m) (mtx_lock m) (u32 (mtx_depth m + 1)))
  else (MINI_ERR_BUSY, m).

Definition mini_mutex_unlock (in_isr : bool) (mtx : option mini_mutex) : Z * option mini_mutex :=
  match mtx with
  | None => (MINI_ERR_INVAL, None)
  | Some m =>
      if in_isr then (MINI_ERR_ISR, mtx) else
      if mtx_depth m =? 0 then (MINI_ERR_IO, mtx) else
      if mtx_depth m >? 1
      then (MINI_OK, Some (mk_mtx (mtx_type m) (mtx_lock m) (mtx_depth m - 1)))
      else (MINI_OK, Some (mk_mtx (mtx_type m) 0 0))
  end.

(** A round of the waiting loop: what others do to the mutex before the next attempt (an
    attempt or a release each), and the time read after it. *)
Inductive other_act := OTry | OUnlock.
Record mpoll := mk_mpoll { mp_others : list other_act; mp_now : Z }.

Definition other_step (m : mini_mutex) (a : other_act) : mini_mutex :=
  match a with
  | OTry => (mini_mutex_try_acquire m).2
  | OUnlock => default m (mini_mutex_unlock false (Some m)).2
  end.

(** [None]: still in the loop after [polls]. *)
Fixpoint lock_loop (timeout_ms start : Z) (m : mini_mutex) (polls : list mpoll)
    : option Z * mini_mutex :=
  match polls with
  | [] => (None, m)
  | p :: polls =>
      let m := foldl other_step m (mp_others p) in
      let '(r, m) := mini_mutex_try_acquire m in
      if r =? MINI_OK then (Some MINI_OK, m) else
      if negb (timeout_ms =? MINI_WAIT_FOREVER) && (u32 (mp_now p - start) >=? timeout_ms)
      then (Some MINI_ERR_TIMEOUT, m)
      else lock_loop timeout_ms start m polls
  end.

(** [now]: the time [start] is read from, if it is. *)
Definition mini_mutex_lock (in_isr : bool) (mtx : option mini_mutex) (timeout_ms now : Z)
    (polls : list mpoll) : option Z * option mini_mutex :=
  match mtx with
  | None => (Some MINI_ERR_INVAL, None)
  | Some m =>
      if in_isr then (Some MINI_ERR_ISR, mtx) else
      let '(r, m) := mini_mutex_try_acquire m in
      if r =? MINI_OK then (Some MINI_OK, Some m) else
      if timeout_ms =? 0 then (Some MINI_ERR_TIMEOUT, Some m) else
      let start := if negb (timeout_ms =? MINI_WAIT_FOREVER) then now else 0 in
      let '(r, m) := lock_loop timeout_ms start m polls in (r, Some m)
  end.

Definition mini_mutex_destroy (in_isr : bool) (mtx : option mini_mutex) : option mini_mutex :=
  match mtx with
  | None => None
  | Some m => if in_isr then mtx else Some (mk_mtx (mtx_type m) 0 0)
  end.

(** ** Several cores: access by access

    Where a core is in [mini_mutex_try_acquire] or [mini_mutex_unlock].  [PErr]: unlock
    returned MINI_ERR_IO. *)
Inductive mtx_pc :=
  | POut                 (** does not hold the mutex, in no call *)
  | PTry                 (** in [mini_mutex_try_acquire], before its first access *)
  | PWon                 (** the CAS was successful: [depth] is to be stored *)
  | PNest                (** the CAS failed on a recursive mutex: [depth] is to be loaded *)
  | PNestStore (d : Z)   (** [depth] + 1 is to be stored *)
  | PIn                  (** the attempt returned MINI_OK *)
  | PUnlock              (** in [mini_mutex_unlock], before its first access *)
  | PDec (d : Z)         (** [depth] - 1 is to be stored *)
  | PClear               (** 0 is to be stored in [depth] *)
  | PRelease             (** 0 is to be stored in [lock] *)
  | PErr.

#[export] Instance mtx_pc_eq_dec : EqDecision mtx_pc.
Proof. solve_decision. Defined.

Definition set_lock (m : mini_mutex) (v : Z) : mini_mutex := mk_mtx (mtx_type m) v (mtx_depth m).
Definition set_depth (m : mini_mutex) (v : Z) : mini_mutex := mk_mtx (mtx_type m) (mtx_lock m) v.

Definition amp_step (m : mini_mutex) (pc : mtx_pc) : mini_mutex * mtx_pc :=
  match pc with
  | POut => (m, PTry)
  | PTry =>
      if mtx_lock m =? 0 then (set_lock m 1, PWon) else
      if mtx_type m =? MINI_MUTEX_RECURSIVE then (m, PNest) else (m, POut)
  | PWon => (set_depth m 1, PIn)
  | PNest => if mtx_depth m =? 0 then (m, POut) else (m, PNestStore (mtx_depth m))
  | PNestStore d => (set_depth m (u32 (d + 1)), PIn)
  | PIn => (m, PUnlock)
  | PUnlock =>
      if mtx_depth m =? 0 then (m, PErr) else
      if mtx_depth m >? 1 then (m, PDec (mtx_depth m)) else (m, PClear)
  | PDec d => (set_depth m (u32 (d - 1)), POut)
  | PClear => (set_depth m 0, PRelease)
  | PRelease => (set_lock m 0, POut)
  | PErr => (m, PErr)
  end.

(** The same places on one core, where each of the two calls is one step. *)
Definition single_step (m : mini_mutex) (pc : mtx_pc) : mini_mutex * mtx_pc :=
  match pc with
  | POut => (m, PTry)
  | PTry => let '(r, m) := mini_mutex_try_acquire m in
            (m, if r =? MINI_OK then PIn else POut)
  | PIn => (m, PUnlock)
  | PUnlock => let '(r, m') := mini_mutex_unlock false (Some m) in
               (default m m', if r =? MINI_OK then POut else PErr)
  | _ => (m, pc)
  end.

(** The contexts that share a mutex; only those that hold it unlock it. *)
Record sharing := mk_sharing { sh_mutex : mini_mutex; sh_pcs : list mtx_pc }.

Definition share_step (amp : bool) (s : sharing) (i : nat) : sharing :=
  match sh_pcs s !! i with
  | None => s
  | Some pc =>
      let '(m, pc) := (if amp then amp_step else single_step) (sh_mutex s) pc in
      mk_sharing m (<[i := pc]> (sh_pcs s))
  end.

Definition share_run (amp : bool) (s : sharing) (sched : list nat) : sharing :=
  foldl (share_step amp) s sched.

Definition share_init (type : Z) (n : nat) : sharing :=
  mk_sharing (mk_mtx type 0 0) (replicate n POut).

(** From the successful CAS to the store that releases the lock. *)
Definition owns (pc : mtx_pc) : bool :=
  match pc with POut | PTry => false | _ => true end.

(** ** Task stubs, freeze, yield *)

(** The code and [*out_handle], [None] for a NULL pointer [out_handle]. *)
Definition mini_task_create_handle (out_handle : option Z) : Z * option Z :=
  match out_handle with
  | None => (MINI_ERR_INVAL, None)
  | Some _ => (MINI_ERR_NOTSUPP, Some 0)
  end.

Definition mini_task_is_running (task : option Z) : bool := false.
Definition mini_task_get_stack_watermark (task : option Z) : Z := 0.

(** [irq]: interrupts are enabled. *)
Definition mini_sched_freeze (irq : bool) : bool := false.

(** ** Mutual exclusion *)

(** What the two words say while context [k] is where it is. *)
Definition words_of (amp : bool) (pc : mtx_pc) (m : mini_mutex) : Prop :=
  mtx_lock m = 1 /\
  match pc with
  | PWon => amp = true /\ mtx_depth m = 0
  | PIn | PUnlock => mtx_depth m = 1
  | PClear => amp = true /\ mtx_depth m = 1
  | PRelease => amp = true /\ mtx_depth m = 0
  | _ => False
  end.

Definition share_inv (amp : bool) (s : sharing) : Prop :=
  mtx_type (sh_mutex s) = MINI_MUTEX_PLAIN /\
  ((mtx_lock (sh_mutex s) = 0 /\ mtx_depth (sh_mutex s) = 0 /\
    ∀ i pc, sh_pcs s !! i = Some pc -> owns pc = false) \/
   (∃ k pc, sh_pcs s !! k = Some pc /\ words_of amp pc (sh_mutex s) /\
    ∀ i pc', sh_pcs s !! i = Some pc' -> i ≠ k -> owns pc' = false)).

Lemma pcs_insert (l : list mtx_pc) i x j y :
  <[i := x]> l !! j = Some y -> (j = i /\ y = x) \/ (j ≠ i /\ l !! j = Some y).
Proof.
  destruct (decide (j = i)) as [->|Hne].
  - intros H. assert (i < length l)%nat.
    { apply lookup_lt_Some in H. by rewrite length_insert in H. }
    rewrite list_lookup_insert_eq in H by done. injection H as <-. by left.
  - rewrite list_lookup_insert_ne by done. auto.
Qed.

(** The step of one context, from a free mutex, as the holder, or while another holds. *)
Lemma step_free (amp : bool) m pc :
  mtx_type m = MINI_MUTEX_PLAIN -> mtx_lock m = 0 -> mtx_depth m = 0 -> owns pc = false ->
  let '(m', pc') := (if amp then amp_step else single_step) m pc in
  mtx_type m' = MINI_MUTEX_PLAIN /\
  ((m' = m /\ owns pc' = false) \/ words_of amp pc' m').
Proof.
  destruct m as [ty l d]. simpl. intros -> -> ->. destruct pc, amp; simpl; try done; intros _;
    (split; [done|]); auto; right; repeat split.
Qed.

Lemma step_owner (amp : bool) m pc :
  mtx_type m = MINI_MUTEX_PLAIN -> words_of amp pc m ->
  let '(m', pc') := (if amp then amp_step else single_step) m pc in
  mtx_type m' = MINI_MUTEX_PLAIN /\
  (words_of amp pc' m' \/ (mtx_lock m' = 0 /\ mtx_depth m' = 0 /\ owns pc' = false)).
Proof.
  destruct m as [ty l d]. unfold words_of. simpl. intros -> [-> Hw].
  destruct pc; try done; [destruct Hw as [-> ->]|subst d|subst d|destruct Hw as [-> ->]..];
    try destruct amp; simpl; split; auto 6.
Qed.

Lemma step_other (amp : bool) m pc :
  mtx_type m = MINI_MUTEX_PLAIN -> mtx_lock m = 1 -> owns pc = false ->
  let '(m', pc') := (if amp then amp_step else single_step) m pc in m' = m /\ owns pc' = false.
Proof.
  destruct m as [ty l d]. simpl. intros -> ->. destruct pc, amp; simpl; done.
Qed.

Lemma share_step_inv amp s i : share_inv amp s -> share_inv amp (share_step amp s i).
Proof.
  intros [Ht H]. unfold share_step. destruct (sh_pcs s !! i) as [pc|] eqn:Hi; [|done].
  pose proof (lookup_lt_Some _ _ _ Hi) as Hlen.
  destruct H as [(Hl & Hd & Hall)|(k & pk & Hk & Hw & Hall)].
  - pose proof (step_free amp _ pc Ht Hl Hd (Hall i pc Hi)) as H.
    destruct ((if amp then amp_step else single_step) (sh_mutex s) pc) as [m' pc'].
    destruct H as [Ht' [[-> Ho]|Hw]]; (split; [done|]); simpl.
    + left. split; [done|]. split; [done|]. intros j x [[_ ->]|[_ Hj]]%pcs_insert; eauto.
    + right. exists i, pc'. split; [by apply list_lookup_insert_eq|]. split; [done|].
      intros j x [[-> _]|[_ Hj]]%pcs_insert Hne; [done|]. eauto.
  - destruct (decide (i = k)) as [->|Hne].
    + rewrite Hk in Hi. injection Hi as ->. pose proof (step_owner amp _ pc Ht Hw) as H.
      destruct ((if amp then amp_step else single_step) (sh_mutex s) pc) as [m' pc'].
      destruct H as [Ht' [Hw'|(Hl & Hd & Ho)]]; (split; [done|]); simpl.
      * right. exists k, pc'. split; [by apply list_lookup_insert_eq|]. split; [done|].
        intros j x [[-> _]|[_ Hj]]%pcs_insert Hne; [done|]. eauto.
      * left. split; [done|]. split; [done|]. intros j x [[_ ->]|[Hne Hj]]%pcs_insert; eauto.
    + pose proof (step_other amp _ pc Ht (proj1 Hw) (Hall i pc Hi Hne)) as H.
      destruct ((if amp then amp_step else single_step) (sh_mutex s) pc) as [m' pc'].
      destruct H as [-> Ho]. split; [done|]. simpl. right. exists k, pk.
      split; [by rewrite list_lookup_insert_ne|]. split; [done|].
      intros j x [[-> ->]|[_ Hj]]%pcs_insert Hjk; [done|]. eauto.
Qed.

Lemma share_run_inv amp sched : ∀ s, share_inv amp s -> share_inv amp (share_run amp s sched).
Proof.
  induction sched as [|i sched IH]; intros s H; [done|]. simpl. by apply IH, share_step_inv.
Qed.

(** C38: Safety. A plain mutex of the bare-metal backend, in both builds.  Any number of
    contexts (on several cores, every access of one interleaving with those of the others;
    on one core, every call of one) try to take it and give back what they took, in any
    order.  At no time do two of them own it, from the access that takes it to the one that
    frees it; no unlock by its holder is answered with MINI_ERR_IO; and when nobody owns it
    the lock word is 0, so that the next attempt is successful. *)
Theorem bare_mutex_exclusive amp n sched :
  let s := share_run amp (share_init MINI_MUTEX_PLAIN n) sched in
  (∀ i j pi pj, sh_pcs s !! i = Some pi -> sh_pcs s !! j = Some pj ->
     owns pi = true -> owns pj = true -> i = j) /\
  (∀ i, sh_pcs s !! i ≠ Some PErr) /\
  ((∀ i pc, sh_pcs s !! i = Some pc -> owns pc = false) ->
   (mini_mutex_try_acquire (sh_mutex s)).1 = MINI_OK /\ ∃ m, amp_step (sh_mutex s) PTry = (m, PWon)).
Proof.
  intros s. assert (share_inv amp s) as [Ht H].
  { apply share_run_inv. split; [done|]. left. split; [done|]. split; [done|]. simpl.
    intros i pc Hi%lookup_replicate. by destruct Hi as [-> _]. }
  destruct H as [(Hl & Hd & Hall)|(k & pk & Hk & Hw & Hall)].
  - split; [|split].
    + intros i j pi pj Hi _ Ho. by rewrite (Hall i pi Hi) in Ho.
    + intros i Hi. by specialize (Hall i PErr Hi).
    + intros _. unfold mini_mutex_try_acquire. simpl. rewrite Hl. simpl. eauto.
  - assert (Hok : owns pk = true) by (destruct pk; try done; by destruct Hw).
    split; [|split].
    + intros i j pi pj Hi Hj Hoi Hoj.
      destruct (decide (i = k)) as [->|Hne], (decide (j = k)) as [->|Hne']; try done.
      * by rewrite (Hall j pj Hj Hne') in Hoj.
      * by rewrite (Hall i pi Hi Hne) in Hoi.
      * by rewrite (Hall i pi Hi Hne) in Hoi.
    + intros i Hi. destruct (decide (i = k)) as [->|Hne].
      * rewrite Hk in Hi. injection Hi as ->. by destruct Hw.
      * by specialize (Hall i PErr Hi Hne).
    + intros Hno. by rewrite (Hno k pk Hk) in Hok.
Qed.

(** ** One core: what the calls return *)

(** With a finite timeout the loop of [mini_mutex_lock] ends by the first reading of the
    clock that shows the timeout to be over. *)
Lemma lock_loop_ends timeout start polls : ∀ m,
  timeout ≠ MINI_WAIT_FOREVER ->
  Exists (fun p => timeout <= u32 (mp_now p - start)) polls ->
  is_Some (lock_loop timeout start m polls).1.
Proof.
  induction polls as [|p polls IH]; intros m Hf He; [by inversion He|]. simpl.
  destruct (mini_mutex_try_acquire _) as [r m']. destruct (r =? MINI_OK); [by eexists|].
  rewrite (proj2 (Z.eqb_neq _ _) Hf), Z.geb_leb. simpl.
  destruct (Z.leb_spec timeout (u32 (mp_now p - start))); [by eexists|].
  apply IH; [done|]. apply Exists_cons in He as [|]; [lia|done].
Qed.

(** The mutex keeps no owner.  A second context that locks a recursive mutex nests into the
    first one's section, on one core and on several. *)
Example recursive_two_holders :
  sh_pcs (share_run false (share_init MINI_MUTEX_RECURSIVE 2) [0; 0; 1; 1]%nat) = [PIn; PIn] /\
  sh_pcs (share_run true (share_init MINI_MUTEX_RECURSIVE 2) [0; 0; 0; 1; 1; 1; 1]%nat)
    = [PIn; PIn].
Proof. split; reflexivity. Qed.

(** The depth is loaded and stored in two accesses: two cores that nest at once are counted
    as one, and the second unlock finds a mutex that is free. *)
Example recursive_lost_nesting :
  sh_pcs (share_run true (share_init MINI_MUTEX_RECURSIVE 3)
            [0; 0; 0; 1; 1; 1; 2; 2; 2; 1; 2; 0; 0; 0; 1; 1; 1; 1; 2; 2]%nat)
    = [POut; POut; PErr].
Proof. reflexivity. Qed.

(** A context that does not hold the mutex unlocks it, and is answered MINI_OK. *)
Example unlock_by_anyone :
  let m := (mini_mutex_try_acquire (mk_mtx MINI_MUTEX_PLAIN 0 0)).2 in
  mini_mutex_unlock false (Some m) = (MINI_OK, Some (mk_mtx MINI_MUTEX_PLAIN 0 0)).
Proof. reflexivity. Qed.

Lemma bare_mutex_exclusive_witness :
  let s := share_run true (share_init MINI_MUTEX_PLAIN 2) [0; 1; 0; 1; 0; 1; 1]%nat in
  sh_pcs s = [PIn; POut] /\ ∀ i, sh_pcs s !! i ≠ Some PErr.
Proof.
  split; [reflexivity|].
  apply (bare_mutex_exclusive true 2 [0; 1; 0; 1; 0; 1; 1]%nat).
Defined.
