(* ===== verification/MiniBackend.v ===== *)
(** * The mini-os backend

    Models src/core/src/mini_backend_mini_os.c: the translation of codes and timeouts, mutexes
    and binary semaphores with their static pools, queues, tasks, the constructors that run
    before main and the memory functions, over the kernel of [MiniMutex], [MiniSem],
    [MiniQueue] and [MiniThread] and the heap of [MiniHeap].  A handle is the address of the kernel
    object.  Calls that may block start here and are carried on by the kernel's steps: [inr]
    says that the caller goes on inside the kernel; what it gets in the end passes
    through the same translation of codes. *)

From S2P Require Import Prelude Status Slot Bare MiniHeap MiniSched MiniKernel MiniSem MiniMutex MiniQueue MiniThread.
From stdpp Require Import gmap.

#[local] Open Scope Z_scope.

Definition mini_err_from_mini_os (err : Z) : Z :=
  if err =? MINI_ERR_AGAIN then MINI_ERR_TIMEOUT else err.

Record backend := mk_backend {
  bk_world : world;
  mutex_pool_ctrl : mini_slot;
  sem_pool_ctrl : mini_slot
}.

Definition bk_set_world (b : backend) (w : world) : backend :=
  mk_backend w (mutex_pool_ctrl b) (sem_pool_ctrl b).
Definition bk_set_sync (b : backend) (y : sync) : backend :=
  bk_set_world b (w_set_sync (bk_world b) y).
Definition bk_set_mutex_ctrl (b : backend) (c : mini_slot) : backend :=
  mk_backend (bk_world b) c (sem_pool_ctrl b).
Definition bk_set_sem_ctrl (b : backend) (c : mini_slot) : backend :=
  mk_backend (bk_world b) (mutex_pool_ctrl b) c.

Section backend.
(** The pools: their sizes, the addresses the linker gives the arrays, the sizes of an
    element. *)
Context (MINI_MUTEX_POOL_SIZE MINI_SEM_POOL_SIZE mutex_pool sem_pool : Z).
Context (sizeof_mini_mutex sizeof_mini_sem : Z).

Definition mini_os_timeout (timeout_ms : Z) : Z :=
  if timeout_ms =? MINI_WAIT_FOREVER then MINI_OS_WAIT_FOREVER
  else s32 (MINI_OS_MS_TO_TICK timeout_ms).

(** ** Mutexes *)

Definition mini_mutex_init (w : world) (mutex : option Z) (recursive : bool) : Z * world :=
  match mutex with
  | None => (MINI_ERR_INVAL, w)
  | Some _ =>
      let '(r, w) := if recursive then mini_os_mutex_recursive_create_static w mutex
                     else mini_os_mutex_create_static w mutex in
      (if bool_decide (r = None) then MINI_ERR_NOMEM else MINI_OK, w)
  end.

(** The code, and [*out] where it is set.  [out]: the pointer is not NULL. *)
Definition mutex_create_in (recursive in_isr out : bool) (b : backend) (storage : option Z)
    (storage_size : Z) : Z * option Z * backend :=
  if negb out || bool_decide (storage = None) || (storage_size <? sizeof_mini_mutex)
  then (MINI_ERR_INVAL, None, b) else
  if in_isr then (MINI_ERR_ISR, None, b) else
  let '(rc, w) := mini_mutex_init (bk_world b) storage recursive in
  (rc, if rc =? MINI_OK then storage else None, bk_set_world b w).
Definition mini_mutex_create_static := mutex_create_in false.
Definition mini_mutex_create_static_recursive := mutex_create_in true.

Definition mutex_at (idx : Z) : Z := mutex_pool + idx * sizeof_mini_mutex.

Definition mini_mutex_create (in_isr out : bool) (b : backend) : option (Z * option Z * backend) :=
  if negb out then Some (MINI_ERR_INVAL, None, b) else
  if in_isr then Some (MINI_ERR_ISR, None, b) else
  '(idx, c) ← mini_slot_claim (Some (mutex_pool_ctrl b)); c ← c;
  let b := bk_set_mutex_ctrl b c in
  if idx <? 0 then Some (MINI_ERR_NOMEM, None, b) else
  let '(rc, w) := mini_mutex_init (bk_world b) (Some (mutex_at idx)) false in
  let b := bk_set_world b w in
  if negb (rc =? MINI_OK) then
    '(_, c) ← mini_slot_release (Some (mutex_pool_ctrl b)) idx; c ← c;
    Some (MINI_ERR_NOMEM, None, bk_set_mutex_ctrl b c)
  else Some (MINI_OK, Some (mutex_at idx), b).

Definition mini_mutex_in_boot_context (b : backend) : bool :=
  bool_decide (mini_os_thread_get_current (w_kern (bk_world b)) = None).

Definition mini_mutex_lock (in_isr : bool) (b : backend) (mtx : option Z) (timeout_ms : Z)
    : option (Z * backend + backend) :=
  if bool_decide (mtx = None) then Some (inl (MINI_ERR_INVAL, b)) else
  if in_isr then Some (inl (MINI_ERR_ISR, b)) else
  if mini_mutex_in_boot_context b then Some (inl (MINI_OK, b)) else
  r ← mutex_lock_enter (bk_world b) mtx (mini_os_timeout timeout_ms);
  Some match r with
       | inl (rc, w) => inl (mini_err_from_mini_os rc, bk_set_world b w)
       | inr w => inr (bk_set_world b w)
       end.

Definition mini_mutex_unlock (in_isr : bool) (b : backend) (mtx : option Z)
    : option (Z * backend + backend) :=
  if bool_decide (mtx = None) then Some (inl (MINI_ERR_INVAL, b)) else
  if in_isr then Some (inl (MINI_ERR_ISR, b)) else
  if mini_mutex_in_boot_context b then Some (inl (MINI_OK, b)) else
  r ← mutex_unlock_enter (bk_world b) mtx;
  Some match r with
       | inl (rc, w) => inl (if rc =? MINI_OK then MINI_OK else MINI_ERR_IO, bk_set_world b w)
       | inr w => inr (bk_set_world b w)
       end.

Definition mini_mutex_destroy (in_isr : bool) (b : backend) (mtx : option Z) : option backend :=
  match mtx with
  | None => Some b
  | Some m =>
      if in_isr then Some b else
      '(_, w) ← mini_os_mutex_delete_static (bk_world b) mtx;
      let b := bk_set_world b w in
      if (m >=? mutex_pool) && (m <? mutex_at MINI_MUTEX_POOL_SIZE) then
        '(_, c) ← mini_slot_release (Some (mutex_pool_ctrl b)) ((m - mutex_pool) / sizeof_mini_mutex);
        c ← c; Some (bk_set_mutex_ctrl b c)
      else Some b
  end.

(** ** Binary semaphores *)

Definition mini_sem_init (y : sync) (sem : Z) : Z * sync :=
  let '(r, y) := mini_os_binary_semaphore_create_static y (Some sem) in
  (if bool_decide (r = None) then MINI_ERR_NOMEM else MINI_OK, y).

Definition mini_sem_create_binary_static (out : bool) (b : backend) (storage : option Z)
    (storage_size : Z) : Z * option Z * backend :=
  match storage with
  | Some s =>
      if negb out || (storage_size <? sizeof_mini_sem) then (MINI_ERR_INVAL, None, b) else
      let '(rc, y) := mini_sem_init (w_sync (bk_world b)) s in
      let b := bk_set_sync b y in
      if negb (rc =? MINI_OK) then (MINI_ERR_NOMEM, None, b) else (MINI_OK, Some s, b)
  | None => (MINI_ERR_INVAL, None, b)
  end.

Definition sem_at (idx : Z) : Z := sem_pool + idx * sizeof_mini_sem.

Definition mini_sem_create_binary (out : bool) (b : backend) : option (Z * option Z * backend) :=
  if negb out then Some (MINI_ERR_INVAL, None, b) else
  '(idx, c) ← mini_slot_claim (Some (sem_pool_ctrl b)); c ← c;
  let b := bk_set_sem_ctrl b c in
  if idx <? 0 then Some (MINI_ERR_NOMEM, None, b) else
  let '(rc, y) := mini_sem_init (w_sync (bk_world b)) (sem_at idx) in
  let b := bk_set_sync b y in
  if negb (rc =? MINI_OK) then
    '(_, c) ← mini_slot_release (Some (sem_pool_ctrl b)) idx; c ← c;
    Some (MINI_ERR_NOMEM, None, bk_set_sem_ctrl b c)
  else Some (MINI_OK, Some (sem_at idx), b).

Definition mini_sem_wait (in_isr : bool) (b : backend) (sem : option Z) (timeout_ms : Z)
    : option (Z * backend + backend) :=
  if bool_decide (sem = None) then Some (inl (MINI_ERR_INVAL, b)) else
  if in_isr then Some (inl (MINI_ERR_ISR, b)) else
  r ← mini_os_semaphore_take (w_sync (bk_world b)) sem (mini_os_timeout timeout_ms);
  Some match r with
       | inl (rc, y) => inl (mini_err_from_mini_os rc, bk_set_sync b y)
       | inr y => inr (bk_set_sync b y)
       end.

Definition mini_sem_post (in_isr : bool) (b : backend) (sem : option Z) : option (bool * backend) :=
  if bool_decide (sem = None) || in_isr then Some (false, b) else
  '(rc, y) ← mini_os_semaphore_give (w_sync (bk_world b)) sem;
  Some (rc =? MINI_OK, bk_set_sync b y).

(** With [*px_yield_required]; [None] for a NULL pointer. *)
Definition mini_sem_post_from_isr (b : backend) (sem : option Z) (px_yield_required : option bool)
    : option (bool * option bool * backend) :=
  if bool_decide (sem = None) then Some (false, px_yield_required, b) else
  '(rc, y) ← mini_os_semaphore_give_isr (w_sync (bk_world b)) sem;
  let posted := rc =? MINI_OK in
  Some (posted, if posted then (fun _ => true) <$> px_yield_required else px_yield_required,
        bk_set_sync b y).

Definition mini_sem_destroy (in_isr : bool) (b : backend) (sem : option Z) : option backend :=
  match sem with
  | None => Some b
  | Some s =>
      if in_isr then Some b else
      '(_, y) ← mini_os_semaphore_delete_static (w_sync (bk_world b)) sem;
      let b := bk_set_sync b y in
      if (s >=? sem_pool) && (s <? sem_at MINI_SEM_POOL_SIZE) then
        '(_, c) ← mini_slot_release (Some (sem_pool_ctrl b)) ((s - sem_pool) / sizeof_mini_sem);
        c ← c; Some (bk_set_sem_ctrl b c)
      else Some b
  end.

(** ** Queues *)

(** [mem] and [pool] are what the allocator returns. *)
Definition mini_queue_create (y : qsys) (mem : option Z) (pool : option (list Z))
    (queue_len item_size : Z) : option Z * qsys :=
  if (queue_len =? 0) || (item_size =? 0) then (None, y) else
  if queue_len >? 255 then (None, y) else
  if item_size >? 65535 then (None, y) else
  mini_os_queue_create y mem pool (u16 item_size) (u8 queue_len).

Definition mini_queue_delete (y : qsys) (queue : option Z) : option qsys :=
  if bool_decide (queue = None) then Some y else snd <$> mini_os_queue_delete y queue.

(** [inl]: the answer; [inr]: the caller goes on in the kernel's loop until its deadline, and
    is answered with whether that ends with MINI_OS_OK. *)
Definition mini_queue_send (in_isr : bool) (y : qsys) (queue : option Z) (has_item : bool)
    (timeout_ms : Z) : option (bool * qsys + qsys * Z) :=
  if bool_decide (queue = None) || in_isr then Some (inl (false, y)) else
  r ← queue_enter y queue has_item (mini_os_timeout timeout_ms);
  Some match r with inl (rc, y) => inl (rc =? MINI_OK, y) | inr p => inr p end.
Definition mini_queue_receive := mini_queue_send.

Definition mini_queue_send_from_isr (y : qsys) (queue : option Z) (item : option (list Z))
    (px_yield_required : option bool) : option (bool * option bool * qsys) :=
  if bool_decide (queue = None) then Some (false, px_yield_required, y) else
  '(rc, y) ← mini_os_queue_send_isr y queue item;
  let sent := rc =? MINI_OK in
  Some (sent, if sent then (fun _ => true) <$> px_yield_required else px_yield_required, y).

Definition mini_queue_receive_from_isr (y : qsys) (queue : option Z) (has_item : bool)
    (px_yield_required : option bool) : option (bool * option (list Z) * option bool * qsys) :=
  if bool_decide (queue = None) then Some (false, None, px_yield_required, y) else
  '(rc, msg, y) ← mini_os_queue_receive_isr y queue has_item;
  let received := rc =? MINI_OK in
  Some (received, msg,
        if received then (fun _ => true) <$> px_yield_required else px_yield_required, y).

(** ** Tasks *)

Definition mini_clamp_task_priority (priority : Z) : Z :=
  if priority >=? MINI_OS_PRIORITY then MINI_OS_PRIORITY - 1 else priority.

Definition mini_clamp_stack_size (stack_bytes : Z) : Z :=
  if stack_bytes <? MINI_OS_THREAD_MIN_STACK_SIZE then MINI_OS_THREAD_MIN_STACK_SIZE
  else stack_bytes.

(** [thread] and [stack] are what the allocator returns; the handle is [*out_handle]. *)
Definition mini_task_create_handle (in_isr : bool) (k : kernel) (name : bool)
    (stack_size priority : Z) (entry out_handle : bool) (thread : option Z) (stack : Z)
    : option (Z * option Z * kernel) :=
  if negb out_handle then Some (MINI_ERR_INVAL, None, k) else
  if negb entry then Some (MINI_ERR_INVAL, None, k) else
  if in_isr then Some (MINI_ERR_ISR, None, k) else
  '(handle, k) ← mini_os_thread_create k name entry (mini_clamp_stack_size stack_size)
                   (u8 (mini_clamp_task_priority priority)) thread stack;
  match handle with
  | None => Some (MINI_ERR_NOMEM, None, k)
  | Some t => Some (MINI_OK, Some t, k)
  end.

Definition mini_task_delete (w : world) (task : option Z) : option world :=
  if bool_decide (task = None) then Some w else snd <$> mini_os_thread_delete w task.

(** [None] as a result: the block of the thread is no longer allocated. *)
Definition mini_task_is_running (k : kernel) (task : option Z) : option bool :=
  match task with
  | None => Some false
  | Some t =>
      th ← threads k !! t;
      match mini_os_thread_get_state (Some th) true with
      | (rc, Some state) =>
          Some ((rc =? MINI_OK) && negb (bool_decide (state = THREAD_TERMINATED))
                && negb (bool_decide (state = THREAD_INVALID)))
      | (_, None) => Some false
      end
  end.

Definition mini_scheduler_start (k : kernel) : Z * kernel :=
  let '(rc, k) := mini_os_schedule_start k in (mini_err_from_mini_os rc, k).

Definition mini_yield_from_isr (k : kernel) (yield_required : bool) : option kernel :=
  if yield_required then snd <$> mini_os_schedule_yield_isr k else Some k.
(** The exit of the running task; [defunct] is the kernel's list of ended threads. *)
Definition mini_task_self_delete (w : world) (defunct : list Z) : option (world * list Z) :=
  mini_os_thread_exit w defunct.

(** The kernel keeps no high-water mark per thread. *)
Definition mini_task_get_stack_watermark (task : option Z) : Z := 0.

(** ** Constructors *)

Definition mini_mutex_pool_boot (b : backend) (mutex_used : list Z) : option backend :=
  '(_, c) ← mini_slot_init (Some (mutex_pool_ctrl b)) (Some mutex_used) MINI_MUTEX_POOL_SIZE;
  c ← c; Some (bk_set_mutex_ctrl b c).

Definition mini_sem_pool_boot (b : backend) (sem_used : list Z) : option backend :=
  '(_, c) ← mini_slot_init (Some (sem_pool_ctrl b)) (Some sem_used) MINI_SEM_POOL_SIZE;
  c ← c; Some (bk_set_sem_ctrl b c).

(** [thread] and [stack] are what the allocator returns for the idle thread. *)
Definition mini_backend_kernel_boot (k : kernel) (thread : option Z) (stack : Z) : option kernel :=
  snd <$> mini_os_thread_idle_create (mini_os_schedule_init k).2 thread stack.
End backend.

(** ** Memory *)
Section memory.
Context (open_slab slab_static : bool) (static_mem MINI_OS_SLAB_STATIC_SIZE static_free : Z).

Definition mini_malloc (s : heap_state) (size : Z) : option (Z * heap_state) :=
  mini_os_malloc open_slab slab_static static_free s size.
Definition mini_calloc (s : heap_state) (count size : Z) : option (Z * heap_state * option (Z * Z)) :=
  mini_os_calloc open_slab slab_static static_free s count size.
(** The answer of the heap is dropped. *)
Definition mini_free (s : heap_state) (ptr : Z) : option (Z * heap_state) :=
  '(_, s) ← mini_os_free open_slab slab_static static_mem MINI_OS_SLAB_STATIC_SIZE static_free s ptr;
  Some (MINI_OK, s).
End memory.

(** ** Timeouts *)

(** At the default of 1000 ticks per second a timeout is as many ticks as milliseconds, as
    long as the product in [MINI_OS_MS_TO_TICK] fits 32 bits. *)
Lemma timeout_exact ms :
  0 <= ms < 4294968 -> mini_os_timeout ms = ms.
Proof.
  intros Hm. unfold mini_os_timeout, MINI_OS_MS_TO_TICK, MINI_OS_DEFAULT_SYSTICK.
  rewrite (proj2 (Z.eqb_neq _ _)) by (unfold MINI_WAIT_FOREVER; lia).
  rewrite u32_small by lia. rewrite Z.div_mul by lia.
  unfold s32. rewrite u32_small by lia. destruct (Z.ltb_spec ms 2147483648); lia.
Qed.

(** From 71 minutes 35 seconds on it does not: a lock that may wait that long does not wait at
    all. *)
Example long_timeout_polls : mini_os_timeout 4294968 = 0.
Proof. reflexivity. Qed.

(** ** The pool of mutexes *)
Section mutex_pool.
Context (N mutex_pool sizeof_mini_mutex : Z) (Hsz : 0 < sizeof_mini_mutex).

#[local] Notation at_ := (mutex_at mutex_pool sizeof_mini_mutex).

(** The constructor leaves a pool of which nothing is handed out. *)
Lemma mutex_pool_boot_ok b u :
  0 < N -> N <= Z.of_nat (length u) ->
  ∃ b' u', mini_mutex_pool_boot N b u = Some b' /\ mutex_pool_ctrl b' = mk_slot (Some u') N /\
           slot_wf u' N /\ slot_rep u' N ∅ /\ bk_world b' = bk_world b.
Proof.
  intros HN Hl. unfold mini_mutex_pool_boot, mini_slot_init.
  rewrite (proj2 (Z.eqb_neq N 0)) by lia.
  destruct (slot_clear_spec (Z.to_nat N) u 0) as (u' & -> & HL & H0 & _); [lia|lia|].
  eexists _, u'. split; [reflexivity|]. split; [done|]. split; [split; lia|]. split; [|done].
  intros i. split; [set_solver|]. intros [Hi (x & Hx & Hne)]. rewrite H0 in Hx by lia. congruence.
Qed.

Lemma mutex_create_spec b u S :
  mutex_pool_ctrl b = mk_slot (Some u) N -> slot_wf u N -> slot_rep u N S ->
  (mini_mutex_create mutex_pool sizeof_mini_mutex false true b = Some (MINI_ERR_NOMEM, None, b) /\
   ∀ j, 0 <= j < N -> j ∈ S) \/
  (∃ i b' u', 0 <= i < N /\ i ∉ S /\ (∀ j, 0 <= j < i -> j ∈ S) /\
   mini_mutex_create mutex_pool sizeof_mini_mutex false true b = Some (MINI_OK, Some (at_ i), b') /\
   mutex_pool_ctrl b' = mk_slot (Some u') N /\ slot_wf u' N /\ slot_rep u' N ({[i]} ∪ S) /\
   sem_pool_ctrl b' = sem_pool_ctrl b /\
   bk_world b' = (mini_os_mutex_init (bk_world b) (Some (at_ i)) false false).2).
Proof.
  intros Ec WF R. unfold mini_mutex_create. simpl. rewrite Ec.
  destruct (slot_claim_step u N S WF R) as (i & u' & -> & WF' & [(-> & -> & H)|(Hi & Hn & Hlow & R')]);
    simpl.
  - left. split; [|done]. do 2 f_equal. destruct b as [w m s]. simpl in *. by subst m.
  - right. rewrite (proj2 (Z.ltb_ge i 0)) by lia. simpl. eexists i, _, u'. by repeat (split; [done|]).
Qed.

Lemma mutex_destroy_spec b u S i mx sm :
  mutex_pool_ctrl b = mk_slot (Some u) N -> slot_wf u N -> slot_rep u N S -> 0 <= i < N ->
  mutexes (bk_world b) !! at_ i = Some mx -> mx_owner mx = None -> mx_obj mx = mini_os_obj_init false ->
  sems (w_sync (bk_world b)) !! at_ i = Some sm -> sem_count sm = 1 ->
  wait_lists (w_kern (bk_world b)) !! at_ i = Some [] ->
  ∃ b' u', mini_mutex_destroy N mutex_pool sizeof_mini_mutex false b (Some (at_ i)) = Some b' /\
    mutex_pool_ctrl b' = mk_slot (Some u') N /\ slot_wf u' N /\ slot_rep u' N (S ∖ {[i]}) /\
    mutexes (bk_world b') !! at_ i = None /\
    ∀ j, j ≠ at_ i -> mutexes (bk_world b') !! j = mutexes (bk_world b) !! j.
Proof using Hsz.
  intros Ec WF R Hi Hm Ho Hobj Hs Hc Hw. unfold mini_mutex_destroy, mini_os_mutex_delete_static,
    mini_os_mutex_delete_common. rewrite Hm. cbn [mbind option_bind]. rewrite Hobj, Hs, Ho.
  cbn [mbind option_bind]. change (negb (eqb (mini_os_obj_is_static (mini_os_obj_init false)) true)) with false.
  change (mini_os_obj_user_count (mini_os_obj_init false) >? 1) with false. cbn [andb].
  rewrite Hw, Hc. cbn [mbind option_bind]. rewrite !bool_decide_eq_true_2 by done.
  change (1 =? 0) with false. cbn [andb negb orb]. cbn [mbind option_bind]. rewrite ?Hm. cbn [mbind option_bind].
  rewrite ?Hobj. cbn -[mutex_at mini_slot_release slot_rep].
  assert (Hr : (at_ i >=? mutex_pool) && (at_ i <? at_ N) = true).
  { unfold mutex_at. rewrite Z.geb_leb. apply andb_true_iff.
    rewrite Z.leb_le, Z.ltb_lt. nia. }
  rewrite Hr. replace ((at_ i - mutex_pool) / sizeof_mini_mutex) with i.
  2: { unfold mutex_at. rewrite Z.add_simpl_l. symmetry. apply Z.div_mul. lia. }
  rewrite Ec. destruct (slot_release_step u N S WF R i Hi) as (u' & -> & WF' & R').
  cbn -[mutex_at slot_rep]. eexists _, u'. split; [done|]. simpl.
  split; [done|]. split; [done|]. split; [done|]. split; [apply lookup_delete_eq|].
  intros j Hj. rewrite lookup_delete_ne by done. by rewrite lookup_insert_ne.
Qed.

(** A mutex of the pool that is created and destroyed while it is free leaves the pool as it
    was, so creation does not run out. *)
Theorem mutex_pool_recycles b u S :
  mutex_pool_ctrl b = mk_slot (Some u) N -> slot_wf u N -> slot_rep u N S ->
  (∃ j, 0 <= j < N /\ j ∉ S) ->
  ∃ h b1 b2 u', mini_mutex_create mutex_pool sizeof_mini_mutex false true b = Some (MINI_OK, Some h, b1) /\
    mini_mutex_destroy N mutex_pool sizeof_mini_mutex false b1 (Some h) = Some b2 /\
    mutex_pool_ctrl b2 = mk_slot (Some u') N /\ slot_wf u' N /\ slot_rep u' N S.
Proof using Hsz.
  intros Ec WF R (j & Hj & Hn).
  destruct (mutex_create_spec b u S Ec WF R)
    as [[_ H]|(i & b1 & u1 & Hi & Hni & _ & Hc & Ec1 & WF1 & R1 & _ & Ew)]; [by destruct Hn; auto|].
  destruct (mutex_destroy_spec b1 u1 _ i (mk_mutex 0 false None (mini_os_obj_init false))
              (mk_sem 1 1 (mini_os_obj_init false)) Ec1 WF1 R1 Hi)
    as (b2 & u2 & Hd & Ec2 & WF2 & R2 & _);
    try (rewrite Ew; simpl; by rewrite ?lookup_insert_eq); try done.
  exists (at_ i), b1, b2, u2. split; [done|]. split; [done|]. split; [done|]. split; [done|].
  intros k. rewrite <- (R2 k). set_solver.
Qed.
End mutex_pool.

(** ** What goes wrong *)

Definition demo_backend (w : world) : backend :=
  mk_backend w (mk_slot (Some [0; 0]) 2) (mk_slot (Some [0; 0]) 2).
Definition two_running : list mutex_op :=
  [XKernel (KCreate 1 5 512 4096); XKernel (KCreate 2 5 512 8192); XKernel KSwitch].
Definition lock_now (b : backend) (h : option Z) : option (Z * backend) :=
  r ← mini_mutex_lock false b h MINI_WAIT_FOREVER;
  match r with inl p => Some p | inr _ => None end.

(** The kernel refuses to delete a mutex that is held, but its slot is given back: the next
    creation returns the same object, free again while the first thread is inside, and a
    second thread that locks it links a node that still is in the list of the first. *)
Example destroy_recycles_held :
  match
    l ← lock_run true true boot_lmachine two_running;
    '(_, h, b) ← mini_mutex_create 10000 64 false true (demo_backend (x_world l));
    '(rc, b) ← lock_now b h;
    b ← mini_mutex_destroy 2 10000 64 false b h;
    '(_, h', b) ← mini_mutex_create 10000 64 false true b;
    k ← kernel_step true true (w_kern (bk_world b)) KSwitch;
    Some (h, rc, h', held_by (bk_world b) 1, current_thread k,
          bool_decide (lock_now (bk_set_world b (w_set_kern (bk_world b) k)) h' = None))
  with
  | Some r => r = (Some 10000, MINI_OK, Some 10000, [10000], Some 2, true)
  | None => False
  end.
Proof. vm_compute. reflexivity. Qed.

(** A lock taken before the scheduler starts is no lock: the unlock after the start is answered
    with MINI_ERR_IO. *)
Example boot_lock_not_held :
  match
    '(_, h, b) ← mini_mutex_create 10000 64 false true (demo_backend (x_world boot_lmachine));
    '(rc, b) ← lock_now b h;
    l ← lock_run true true (mk_lmachine (bk_world b) ∅ []) two_running;
    r ← mini_mutex_unlock false (bk_set_world b (x_world l)) h;
    Some (rc, match r with inl (rc, _) => rc | inr _ => MINI_OK end)
  with
  | Some r => r = (MINI_OK, MINI_ERR_IO)
  | None => False
  end.
Proof. vm_compute. reflexivity. Qed.

(** A task that has ended is freed by the idle thread; to ask whether it runs, as
    [event_bus_stop] does until it has ended, reads the freed block. *)
Example is_running_after_end :
  match life_run true true boot_life
          [LMutex (XKernel (KCreate 1 5 512 4096)); LMutex (XKernel (KCreate 2 5 512 8192));
           LMutex (XKernel KSwitch); LExit; LMutex (XKernel KSwitch)] with
  | Some l =>
      mini_task_is_running (l_kern l) (Some 1) = Some false /\
      match life_step true true l LIdle with
      | Some l => mini_task_is_running (l_kern l) (Some 1) = None
      | None => False
      end
  | None => False
  end.
Proof. vm_compute. split; reflexivity. Qed.
