(* ===== verification/BottomHalfTask.v ===== *)
(** * The bottom-half task of an RTOS build

    Models the task adapter of src/interrupt/interrupt.h ([struct bottom_half_task] and its
    functions): the queue of Interrupt.v with a semaphore that an interrupt posts after it
    queued a work item and that a task of its own waits for before it drains the queue.
    The semaphore is any [WakeSem]; the binary one of the mini-os backend and the flag of
    the bare-metal poller are instances.  Interrupts are cut as in Interrupt.v: the
    submit is one step, the draining task stops between any two of its accesses. *)

From S2P Require Import Prelude Status Ring Fifo Interrupt MiniList MiniSched MiniKernel MiniSem MiniMutex MiniBackend.
From stdpp Require Import relations strings.

#[local] Open Scope Z_scope.

(** What the adapter needs of a semaphore: a wait goes through exactly when a token is
    there and takes one, and after a post, refused or not, there is a token.  A task that
    was handed the unit while it waited counts as having a token until it runs on. *)
Class WakeSem (T : Type) := {
  sem_tokens : T -> nat;
  sem_wait : T -> option T;                  (** None: the caller stays blocked *)
  sem_post : T -> bool * bool * T;           (** posted, a switch is due, the semaphore *)
  sem_ok : T -> Prop;
  sem_wait_none s : sem_ok s -> sem_tokens s = 0%nat -> sem_wait s = None;
  sem_wait_some s n : sem_ok s -> sem_tokens s = S n ->
                      ∃ s', sem_wait s = Some s' /\ sem_tokens s' = n /\ sem_ok s';
  sem_post_token s : sem_ok s -> (0 < sem_tokens (sem_post s).2)%nat /\ sem_ok (sem_post s).2
}.

Definition BOTTOM_HALF_TASK_STACK_SIZE : Z := 2048.
Definition BOTTOM_HALF_TASK_NAME : string := "bottom_half_task".

Section task.
Context {Q T : Type} `{SplitQueue Q} `{WakeSem T}.

(** The adapter, the work items, and where the task stands: [PIdle] is the wait. *)
Record bottom_half_task := mk_task {
  t_fifo : Q;
  t_sem : option T;          (** None for NULL *)
  t_mem : work_mem;
  t_pc : consumer_pc;
  t_log : list Z             (** the works whose handler has been started, oldest first *)
}.

(** The post of a submit. *)
Definition task_post (s : bottom_half_task) (sem : T) (q : Q) (m : work_mem)
    : bool * bottom_half_task :=
  let '(_, woken, sem') := sem_post sem in
  (woken, mk_task q (Some sem') m (t_pc s) (t_log s)).

Definition bottom_half_task_submit_from_isr (s : bottom_half_task) (work : Z)
    (px_yield_required : option bool) : option (Z * option bool * bottom_half_task) :=
  match t_sem s with
  | None => Some (MINI_ERR_INVAL, px_yield_required, s)
  | Some sem =>
      '(ret, q, m) ← bottom_half_submit_from_isr (Some (t_fifo s)) (t_mem s) work;
      q ← q;
      if negb (ret =? MINI_OK)
      then Some (ret, px_yield_required, mk_task q (Some sem) m (t_pc s) (t_log s))
      else
        let '(woken, s') := task_post s sem q m in
        Some (MINI_OK,
              if woken : bool then (fun _ => true) <$> px_yield_required else px_yield_required, s')
  end.

Definition bottom_half_task_submit (in_isr : bool) (s : bottom_half_task) (work : Z)
    : option (Z * bottom_half_task) :=
  match t_sem s with
  | None => Some (MINI_ERR_INVAL, s)
  | Some sem =>
      if in_isr then Some (MINI_ERR_ISR, s) else
      '(ret, q, m) ← bottom_half_submit_from_isr (Some (t_fifo s)) (t_mem s) work;
      q ← q;
      if negb (ret =? MINI_OK) then Some (ret, mk_task q (Some sem) m (t_pc s) (t_log s))
      else Some (MINI_OK, (task_post s sem q m).2)
  end.

(** The state [bottom_half_run_pending] works on, which the poller shares. *)
Definition has_token (s : bottom_half_task) : bool :=
  match t_sem s with Some sem => (0 <? sem_tokens sem)%nat | None => false end.
Definition as_poller (s : bottom_half_task) : bottom_half_poller Q :=
  mk_poller (t_fifo s) (has_token s) (t_mem s) (t_pc s) (t_log s).
Definition of_poller (s : bottom_half_task) (p : bottom_half_poller Q) : bottom_half_task :=
  mk_task (p_fifo p) (t_sem s) (p_mem p) (p_pc p) (p_log p).

(** One step of [bottom_half_task_entry]: the wait, or an access of the drain. *)
Definition bottom_half_task_entry (s : bottom_half_task) : option bottom_half_task :=
  match t_sem s with
  | None => Some s
  | Some sem =>
      match t_pc s with
      | PIdle =>
          match sem_wait sem with
          | None => Some s
          | Some sem' => Some (mk_task (t_fifo s) (Some sem') (t_mem s) PRead (t_log s))
          end
      | _ => p ← bottom_half_run_pending_step (as_poller s); Some (of_poller s p)
      end
  end.

Fixpoint task_run (n : nat) (s : bottom_half_task) : option bottom_half_task :=
  match n with O => Some s | S n => s' ← bottom_half_task_entry s; task_run n s' end.

(** The task advances, or an interrupt submits a work item. *)
Inductive task_step : bottom_half_task -> bottom_half_task -> Prop :=
  | task_main s s' : bottom_half_task_entry s = Some s' -> task_step s s'
  | task_isr s w px r px' s' :
      calm (as_poller s) w ->
      bottom_half_task_submit_from_isr s w px = Some (r, px', s') -> task_step s s'.

(** ** The invariant *)

(** Where a recorded rerun can stand. *)
Definition may_rerun (pc : consumer_pc) (w : Z) : bool :=
  match pc with
  | PCall v | PClrExec v | PClrPending v | PXchg v | PCall2 v | PClrExec2 v => bool_decide (v = w)
  | _ => false
  end.

Definition sem_usable (s : bottom_half_task) : Prop := ∃ sem, t_sem s = Some sem /\ sem_ok sem.

Record task_inv (s : bottom_half_task) : Prop := {
  ti_sem : sem_usable s;
  ti_bh : bh_inv (as_poller s);
  ti_rerun w : bw_rerun (t_mem s w) = true -> may_rerun (t_pc s) w = true
}.

(** A drain step of the task is one of the poller. *)
Lemma entry_drains s s' :
  sem_usable s -> t_pc s ≠ PIdle -> bottom_half_task_entry s = Some s' ->
  t_sem s' = t_sem s /\ bottom_half_run_pending_step (as_poller s) = Some (as_poller s') /\
  bottom_half_poller_run (as_poller s) = Some (as_poller s').
Proof.
  unfold bottom_half_task_entry. intros (sem & Es & _) Hpc E. rewrite Es in E.
  assert ((p ← bottom_half_run_pending_step (as_poller s); Some (of_poller s p)) = Some s') as E'
    by (destruct (t_pc s); done).
  clear E. apply bind_Some in E' as (p & Ep & [= <-]). split; [done|].
  assert (p_pending_drain p = has_token s) as Ed.
  { revert Ep Hpc. unfold bottom_half_run_pending_step, bottom_half_submit_rerun. simpl.
    destruct (t_pc s); try done; try (by intros [= <-]).
    - intros ([[??]?] & _ & [= <-])%bind_Some _. done.
    - destruct (bw_rerun _); by intros [= <-].
    - destruct (bw_pending _); by intros [= <-].
    - destruct (bq_begin _); by intros [= <-].
    - intros (? & _ & [= <-])%bind_Some _. done. }
  assert (as_poller (of_poller s p) = p) as ->
    by (unfold as_poller, of_poller, has_token in *; destruct p; simpl in *; by rewrite <- Ed).
  split; [done|]. unfold bottom_half_poller_run. simpl. destruct (t_pc s); done.
Qed.

(** The wait: blocked without a token, else the drain starts. *)
Lemma entry_waits s s' :
  sem_usable s -> t_pc s = PIdle -> bottom_half_task_entry s = Some s' ->
  (has_token s = false /\ s' = s) \/
  (∃ sem sem', t_sem s = Some sem /\ sem_tokens sem = S (sem_tokens sem') /\ sem_ok sem' /\
     s' = mk_task (t_fifo s) (Some sem') (t_mem s) PRead (t_log s)).
Proof.
  unfold bottom_half_task_entry, has_token. intros (sem & Es & Ho) -> E. rewrite Es in *.
  destruct (sem_tokens sem) as [|n] eqn:Et.
  - rewrite (sem_wait_none sem Ho Et) in E. injection E as <-. left. done.
  - destruct (sem_wait_some sem n Ho Et) as (sem' & Ew & <- & Ho'). rewrite Ew in E.
    injection E as <-. right. exists sem, sem'. done.
Qed.

Lemma rerun_drain s s' :
  bottom_half_run_pending_step (as_poller s) = Some (as_poller s') -> t_pc s ≠ PIdle ->
  (∀ w, bw_rerun (t_mem s w) = true -> may_rerun (t_pc s) w = true) ->
  ∀ w, bw_rerun (t_mem s' w) = true -> may_rerun (t_pc s') w = true.
Proof.
  destruct s as [q sem m pc l], s' as [q' sem' m' pc' l'].
  unfold bottom_half_run_pending_step, as_poller. simpl. intros E Hpc Hr w.
  destruct pc as [| |v|v|v|v|v|v|v|v t|v t|v|v|v|v]; simpl in E, Hr; try done;
    unfold bottom_half_submit_rerun in E; simpl in E.
  - apply bind_Some in E as ([[??]?] & _ & [= _ _ <- _ _]). intros Hw. specialize (Hr w Hw). done.
  - injection E as <- _ <- <- _. upd_case w v; simpl; intros Hw; specialize (Hr _ Hw); done.
  - injection E as <- _ <- <- _. simpl. auto.
  - injection E as <- _ <- <- _. upd_case w v; simpl; auto.
  - injection E as <- _ <- <- _. upd_case w v; simpl; auto.
  - destruct (bw_rerun (m v)) eqn:Ev; injection E as <- _ <- <- _; upd_case w v; simpl;
      try done; intros Hw; specialize (Hr _ Hw); rewrite bool_decide_eq_true in Hr; congruence.
  - destruct (bw_pending (m v)); injection E as <- _ <- <- _; [|upd_case w v; simpl];
      intros Hw; specialize (Hr _ Hw); done.
  - destruct (bq_begin q); injection E as <- _ <- <- _; intros Hw; specialize (Hr _ Hw); done.
  - apply bind_Some in E as (? & _ & [= _ _ <- _ _]). intros Hw. specialize (Hr w Hw). done.
  - injection E as <- _ <- <- _. intros Hw. specialize (Hr w Hw). done.
  - injection E as <- _ <- <- _. upd_case w v; simpl; intros Hw; specialize (Hr _ Hw); done.
  - injection E as <- _ <- <- _. upd_case w v; simpl; intros Hw; specialize (Hr _ Hw); done.
  - injection E as <- _ <- <- _. simpl. auto.
  - injection E as <- _ <- <- _. upd_case w v; simpl; auto.
Qed.

(** A woken task has the poller's invariant whatever is left in the semaphore. *)
Lemma bh_inv_wake q d d' m l :
  bh_inv (mk_poller q d m PIdle l) -> bh_inv (mk_poller q d' m PRead l).
Proof. intros [Iq In Iqd Ip Ir Ie Id]. constructor; simpl in *; done. Qed.

Lemma task_main_inv s s' : bottom_half_task_entry s = Some s' -> task_inv s -> task_inv s'.
Proof.
  intros E [Is Ib Ir]. destruct (decide (t_pc s = PIdle)) as [Hpc|Hpc].
  - destruct (entry_waits s s' Is Hpc E) as [[_ ->]|(sem & sem' & _ & _ & Ho & ->)]; [done|].
    constructor; simpl; [by exists sem'| |].
    + unfold as_poller in Ib. rewrite Hpc in Ib. by eapply bh_inv_wake.
    + rewrite Hpc in Ir. done.
  - destruct (entry_drains s s' Is Hpc E) as (Es & Ed & Ep). constructor.
    + destruct Is as (sem & Es' & Ho). exists sem. by rewrite Es.
    + by eapply bh_main_inv.
    + by eapply rerun_drain.
Qed.

(** A submit to the task is the poller's, whose flag the post raises. *)
Lemma task_submit_poller s w px r px' s' :
  sem_usable s -> bottom_half_task_submit_from_isr s w px = Some (r, px', s') ->
  bottom_half_poller_submit (as_poller s) w = Some (r, as_poller s') /\ sem_usable s'.
Proof.
  unfold bottom_half_task_submit_from_isr, bottom_half_poller_submit. intros (sem & Es & Ho) E.
  rewrite Es in E.
  apply bind_Some in E as ([[ret q] m] & Eq & E).
  change (p_fifo (as_poller s)) with (t_fifo s). change (p_mem (as_poller s)) with (t_mem s).
  rewrite Eq. cbn [mbind option_bind].
  apply bind_Some in E as (q' & -> & E). cbn [mbind option_bind].
  destruct (Z.eqb_spec ret MINI_OK) as [->|Hne]; cbn [negb] in E.
  - unfold task_post in E. destruct (sem_post_token sem Ho) as [Hp Hk].
    destruct (sem_post sem) as [[posted woken] sem']. injection E as <- _ <-. simpl in Hp, Hk.
    split; [|by exists sem'].
    unfold as_poller, has_token. simpl. destruct (Nat.ltb_spec 0 (sem_tokens sem')); [done|lia].
  - injection E as <- _ <-. split; [|by exists sem]. unfold as_poller, has_token. simpl. by rewrite Es.
Qed.

Lemma task_isr_inv s w px r px' s' :
  calm (as_poller s) w ->
  bottom_half_task_submit_from_isr s w px = Some (r, px', s') -> task_inv s -> task_inv s'.
Proof.
  intros Hk E [Is Ib Ir]. destruct (task_submit_poller s w px r px' s' Is E) as [Ep Is'].
  constructor; [done|by eapply bh_isr_inv|].
  destruct (poller_submit_cases _ _ _ _ Ib Ep) as (Epc & _ & Hc). simpl in Epc, Hc. rewrite Epc.
  pose proof (bi_exec _ Ib w) as He. simpl in He.
  assert (may_rerun (t_pc s) w = true \/ bw_executing (t_mem s w) = false) as Hx.
  { rewrite He. destruct (t_pc s); simpl; auto; destruct (bool_decide _); auto. }
  intros u. destruct Hc as [[_ Ep']|[(_ & _ & _ & _ & ->)|[(_ & _ & _ & _ & _ & ->)
                   |(_ & _ & _ & _ & _ & _ & ->)]]].
  - assert (t_mem s' = t_mem s) as -> by (apply (f_equal p_mem) in Ep'; exact Ep'). apply Ir.
  - destruct Hx as [Hx|Hx].
    + destruct (bw_executing (t_mem s w)); [|apply Ir]. upd_case u w; auto.
    + rewrite Hx. apply Ir.
  - upd_case u w; rewrite ?(mem_upd_ne _ w _ u) by done; apply Ir.
  - upd_case u w; apply Ir.
Qed.

Lemma task_step_inv s s' : task_step s s' -> task_inv s -> task_inv s'.
Proof. intros []; eauto using task_main_inv, task_isr_inv. Qed.

Lemma task_steps_inv s s' : rtc task_step s s' -> task_inv s -> task_inv s'.
Proof. induction 1; eauto using task_step_inv. Qed.

(** ** A due run stays due until it is done *)

Definition task_owed (s : bottom_half_task) (w : Z) : Prop := owed (as_poller s) w.

Lemma task_step_owed s s' w :
  task_inv s -> task_step s s' ->
  ∃ new, t_log s' = t_log s ++ new /\ (task_owed s w -> w ∈ new \/ task_owed s' w).
Proof.
  intros I Hst. destruct Hst as [s s' E|s v px r px' s' _ E].
  - destruct (decide (t_pc s = PIdle)) as [Hpc|Hpc].
    + exists []. rewrite app_nil_r.
      destruct (entry_waits s s' (ti_sem s I) Hpc E) as [[_ ->]|(sem & sem' & _ & _ & _ & ->)];
        [auto|]. split; [done|]. intros [Ho|Ho]; [right; by left|].
      simpl in Ho. rewrite Hpc in Ho. done.
    + destruct (entry_drains s s' (ti_sem s I) Hpc E) as (_ & _ & Ep).
      destruct (bh_log_step _ _ (ti_bh s I) (bh_main _ _ Ep)) as [new En]. simpl in En.
      exists new. split; [done|]. intros Ho.
      destruct (owed_main _ _ w (ti_bh s I) Ep Ho) as [|El]; [auto|]. simpl in El. left.
      rewrite En in El. apply app_inv_head in El. rewrite El. by left.
  - destruct (task_submit_poller s v px r px' s' (ti_sem s I) E) as [Ep _].
    exists []. rewrite app_nil_r.
    destruct (poller_submit_cases _ _ _ _ (ti_bh s I) Ep) as (_ & El & _). split; [done|].
    intros Ho. right. by eapply owed_isr; [apply I| |].
Qed.

Lemma task_steps_owed s s' w :
  task_inv s -> rtc task_step s s' ->
  ∃ new, t_log s' = t_log s ++ new /\ (task_owed s w -> w ∈ new \/ task_owed s' w).
Proof.
  intros I Hs. induction Hs as [s|s1 s2 s3 H12 H23 IH].
  { exists []. rewrite app_nil_r. auto. }
  destruct (task_step_owed s1 s2 w I H12) as (n1 & E1 & O1).
  destruct (IH (task_step_inv _ _ H12 I)) as (n2 & E2 & O2).
  exists (n1 ++ n2). rewrite E2, E1, app_assoc. split; [done|].
  intros Ho. rewrite elem_of_app. destruct (O1 Ho) as [|Ho2]; [auto|]. destruct (O2 Ho2); auto.
Qed.

(** ** The drain ends *)

Definition pc_weight (pc : consumer_pc) : nat :=
  match pc with
  | PIdle => 0 | PRead => 1 | PXchg _ => 2 | PClrPending _ => 3 | PClrExec _ => 4
  | PCall _ => 5 | PSetExec _ => 6 | PClrExec2 _ => 3 | PCall2 _ => 4 | PSetExec2 _ => 5
  | PUnpend _ => 6 | PPublish _ _ => 12 | PFill _ _ => 13 | PLoad _ => 14 | PRerun _ => 15
  end.
Definition rerun_weight (m : work_mem) (pc : consumer_pc) : nat :=
  match pc with
  | PCall v | PClrExec v | PClrPending v | PXchg v | PCall2 v | PClrExec2 v =>
      if bw_rerun (m v) then 14 else 0
  | _ => 0
  end.
Definition tokens (s : bottom_half_task) : nat :=
  match t_sem s with Some sem => sem_tokens sem | None => 0 end.

(** The steps the task needs at most to come to rest. *)
Definition drain_weight (s : bottom_half_task) : nat :=
  10 * length (bq_contents (t_fifo s)) + 2 * tokens s + pc_weight (t_pc s) +
  rerun_weight (t_mem s) (t_pc s).

(** At rest: waiting, no token, nothing queued. *)
Definition at_rest (s : bottom_half_task) : Prop :=
  t_pc s = PIdle /\ tokens s = 0%nat /\ bq_contents (t_fifo s) = [].

Lemma weight_drain s s' :
  task_inv s -> t_pc s ≠ PIdle -> bottom_half_task_entry s = Some s' ->
  (drain_weight s' < drain_weight s)%nat.
Proof.
  intros [Is Ib Ir] Hpc E. destruct (entry_drains s s' Is Hpc E) as (Es & Ed & _).
  unfold drain_weight, tokens. rewrite Es. clear E Es.
  revert Ed. unfold bottom_half_run_pending_step. simpl.
  destruct s as [q sem m pc l], s' as [q' sem' m' pc' l']. unfold as_poller. simpl in *.
  destruct pc as [| |v|v|v|v|v|v|v|v t|v t|v|v|v|v]; simpl; intros Ed; try done.
  - destruct (bq_read_spec q (bi_q _ Ib)) as [[En (o & Hr)]|(x & q1 & Hr & _ & _ & En)];
      rewrite Hr in Ed; simpl in Ed; injection Ed as <- _ <- <- _; simpl; rewrite En; simpl; lia.
  - injection Ed as <- _ <- <- _. simpl. rewrite mem_upd_eq. simpl.
    destruct (bw_rerun (m v)) eqn:Ev; [|lia]. specialize (Ir v Ev). done.
  - injection Ed as <- _ <- <- _. simpl. lia.
  - injection Ed as <- _ <- <- _. simpl. rewrite mem_upd_eq. simpl. lia.
  - injection Ed as <- _ <- <- _. simpl. rewrite mem_upd_eq. simpl. lia.
  - destruct (bw_rerun (m v)); injection Ed as <- _ <- <- _; simpl; lia.
  - unfold bottom_half_submit_rerun in Ed. simpl in Ed.
    destruct (bw_pending (m v)); injection Ed as <- _ <- <- _; simpl; lia.
  - unfold bottom_half_submit_rerun in Ed. simpl in Ed.
    destruct (bq_begin q); injection Ed as <- _ <- <- _; simpl; lia.
  - unfold bottom_half_submit_rerun in Ed. simpl in Ed.
    destruct (rerun_fills _ v t _ Ib eq_refl Ed) as [_ En].
    apply bind_Some in Ed as (q1 & _ & [= <- _ <- <- _]). simpl in *. rewrite En. lia.
  - unfold bottom_half_submit_rerun in Ed. simpl in Ed. injection Ed as <- _ <- <- _. simpl.
    destruct (rerun_publishes _ v t Ib eq_refl) as [_ En]. simpl in En.
    rewrite En, length_app. simpl. lia.
  - unfold bottom_half_submit_rerun in Ed. simpl in Ed. injection Ed as <- _ <- <- _. simpl. lia.
  - injection Ed as <- _ <- <- _. simpl. rewrite mem_upd_eq. simpl.
    destruct (bw_rerun (m v)) eqn:Ev; [|lia]. specialize (Ir v Ev). done.
  - injection Ed as <- _ <- <- _. simpl. lia.
  - injection Ed as <- _ <- <- _. simpl. rewrite mem_upd_eq. simpl. lia.
Qed.

Lemma entry_total s : task_inv s -> ∃ s', bottom_half_task_entry s = Some s'.
Proof.
  intros [(sem & Es & _) Ib _]. unfold bottom_half_task_entry. rewrite Es.
  unfold bottom_half_run_pending_step, bottom_half_submit_rerun. simpl.
  destruct (t_pc s) as [| |v|v|v|v|v|v|v|v t|v t|v|v|v|v] eqn:Epc; simpl; eauto.
  - destruct (sem_wait sem); eauto.
  - destruct (bq_read_spec (t_fifo s) (bi_q _ Ib)) as [[_ (o & ->)]|(x & q' & -> & _)]; simpl; eauto.
  - destruct (bw_rerun _); simpl; eauto.
  - destruct (bw_pending _); simpl; eauto.
  - destruct (bq_begin _); simpl; eauto.
  - pose proof (bi_ticket _ Ib) as It. simpl in It. rewrite Epc in It. simpl in It.
    destruct (bq_split_spec (t_fifo s) v (bi_q _ Ib)) as [[_ E]|(t' & q1 & E & Ef & _)];
      [congruence|]. rewrite E in It. injection It as ->. rewrite Ef. simpl. eauto.
Qed.

Lemma weight_step s s' :
  task_inv s -> bottom_half_task_entry s = Some s' ->
  (drain_weight s' < drain_weight s)%nat \/ (s' = s /\ at_rest s).
Proof.
  intros I E. destruct (decide (t_pc s = PIdle)) as [Hpc|Hpc]; [|left; by apply weight_drain].
  destruct (entry_waits s s' (ti_sem s I) Hpc E) as [[Ht ->]|(sem & sem' & Es & Et & _ & ->)].
  - right. split; [done|]. split; [done|]. split.
    + unfold has_token, tokens in *. destruct (t_sem s) as [sem|]; [|done].
      destruct (Nat.ltb_spec 0 (sem_tokens sem)); [done|lia].
    + destruct (bq_contents (t_fifo s)) eqn:Eq; [done|]. exfalso.
      pose proof (bi_drain _ (ti_bh s I) Hpc) as Hd. simpl in Hd. rewrite Eq in Hd.
      rewrite Hd in Ht; done.
  - left. unfold drain_weight, tokens. simpl. rewrite Es, Hpc, Et. simpl. lia.
Qed.

Lemma task_run_rests n : ∀ s, task_inv s -> (drain_weight s <= n)%nat ->
  ∃ s', task_run n s = Some s' /\ rtc task_step s s' /\ at_rest s'.
Proof.
  induction n as [|n IH]; intros s I Hn; destruct (entry_total s I) as [s1 E].
  - exists s. split; [done|]. split; [apply rtc_refl|].
    destruct (weight_step s s1 I E) as [|[_ R]]; [lia|done].
  - simpl. rewrite E. cbn [mbind option_bind]. pose proof (task_main_inv s s1 E I) as I1.
    assert (drain_weight s1 <= n)%nat as Hw1.
    { destruct (weight_step s s1 I E) as [|[-> (Hp & Ht & Hq)]]; [lia|].
      unfold drain_weight. rewrite Hp, Ht, Hq. simpl. lia. }
    destruct (IH s1 I1 Hw1) as (s' & Er & Hs & R). exists s'. split; [done|]. split; [|done].
    eapply rtc_l; [by apply task_main|done].
Qed.

Lemma drain_weight_bound s :
  task_inv s -> (drain_weight s <= 10 * bq_cap (t_fifo s) + 2 * tokens s + 19)%nat.
Proof.
  intros [_ Ib _]. unfold drain_weight.
  assert (length (bq_contents (t_fifo s)) <= bq_cap (t_fifo s))%nat by apply bq_le, Ib.
  assert (pc_weight (t_pc s) + rerun_weight (t_mem s) (t_pc s) <= 19)%nat.
  { destruct (t_pc s); simpl; try destruct (bw_rerun _); lia. }
  lia.
Qed.
Definition task_initial (q : Q) (sem : T) (m : work_mem) : bottom_half_task :=
  mk_task q (Some sem) m PIdle [].

Lemma task_initial_inv q sem m :
  bq_inv q -> bq_contents q = [] -> sem_ok sem ->
  (∀ w, bw_pending (m w) = false /\ bw_executing (m w) = false /\ bw_rerun (m w) = false) ->
  task_inv (task_initial q sem m).
Proof.
  intros Iq Eq Ho Hm. constructor; simpl.
  - by exists sem.
  - destruct (poller_initial_inv q m Iq Eq) as [? ? ? ? ? ? ? _]; [intros w; by destruct (Hm w) as (? & ? & _)|].
    constructor; simpl in *; done.
  - intros w Hw. destruct (Hm w) as (_ & _ & ?). congruence.
Qed.

(** C40: Every acknowledged trigger outside two windows is served, and the task then sleeps
    again.  From an idle adapter, under every interleaving of the accesses of the task with
    interrupts that submit, one at a time, and do not write the queue while the task is between
    the load and the store of the write pointer for a rerun: if a submit of [w] from an
    interrupt returns MINI_OK and the task is not between clearing [executing] and clearing
    [pending] of [w], then whatever such steps come next, once the interrupts leave the task
    alone it comes to rest within a number of steps fixed by the depth of the queue and the
    tokens of the semaphore - waiting, nothing queued - and by then the handler of [w] has been
    started since the submit. *)
Theorem task_trigger_served q sem m s w px px' s1 s2 :
  bq_inv q -> bq_contents q = [] -> sem_ok sem ->
  (∀ w, bw_pending (m w) = false /\ bw_executing (m w) = false /\ bw_rerun (m w) = false) ->
  rtc task_step (task_initial q sem m) s ->
  bottom_half_task_submit_from_isr s w px = Some (MINI_OK, px', s1) -> t_pc s ≠ PClrPending w ->
  calm (as_poller s) w -> rtc task_step s1 s2 ->
  ∃ s3 new, task_run (10 * bq_cap (t_fifo s2) + 2 * tokens s2 + 19) s2 = Some s3 /\ at_rest s3 /\
            t_log s3 = t_log s1 ++ new /\ w ∈ new.
Proof.
  intros Iq Eq Hk Hm Hr Hs Hpc Hc H12.
  pose proof (task_steps_inv _ _ Hr (task_initial_inv q sem m Iq Eq Hk Hm)) as I.
  pose proof (task_isr_inv _ _ _ _ _ _ Hc Hs I) as I1.
  pose proof (task_steps_inv _ _ H12 I1) as I2.
  destruct (task_submit_poller _ _ _ _ _ _ (ti_sem s I) Hs) as [Hp _].
  pose proof (submit_owed _ _ _ (ti_bh s I) Hp Hpc : task_owed s1 w) as Ho.
  destruct (task_run_rests _ s2 I2 (drain_weight_bound s2 I2)) as (s3 & Er & H23 & R).
  destruct (task_steps_owed s1 s3 w I1) as (new & En & Hn); [by etrans|].
  exists s3, new. split; [done|]. split; [done|]. split; [done|].
  destruct (Hn Ho) as [|Ho3]; [done|]. destruct R as (Rp & _ & Rq).
  unfold task_owed, owed in Ho3. simpl in Ho3. rewrite Rp, Rq in Ho3.
  destruct Ho3 as [?%elem_of_nil|[]]. done.
Qed.
End task.

Arguments bottom_half_task : clear implicits.

(** ** Set-up *)

Definition bottom_half_task_init {T : Type} (task : option (bottom_half_task fifo_spsc T))
    (sem : option T) : Z * option (bottom_half_task fifo_spsc T) :=
  match task, sem with
  | Some t, Some _ =>
      let '(r, q) := fifo_init (Some (t_fifo t))
                       (Some (replicate (Z.to_nat BOTTOM_HALF_QUEUE_DEPTH) 0))
                       BOTTOM_HALF_QUEUE_DEPTH in
      match q with
      | Some q =>
          if negb (r =? BUFF_OK)
          then (MINI_ERR_INVAL, Some (mk_task q (t_sem t) (t_mem t) (t_pc t) (t_log t)))
          else (MINI_OK, Some (mk_task q sem (t_mem t) (t_pc t) (t_log t)))
      | None => (MINI_ERR_INVAL, None)
      end
  | _, _ => (MINI_ERR_INVAL, task)
  end.

(** On the mini-os backend.  [thread] and [stack] are what the allocator returns; the name is
    never NULL, for a NULL name is replaced. *)
Definition bottom_half_task_start (in_isr : bool) (k : kernel) (task : option Z)
    (stack_size priority : Z) (thread : option Z) (stack : Z) : option (Z * option Z * kernel) :=
  match task with
  | None => Some (MINI_ERR_INVAL, None, k)
  | Some _ =>
      mini_task_create_handle in_isr k true
        (if negb (stack_size =? 0) then stack_size else BOTTOM_HALF_TASK_STACK_SIZE)
        priority true true thread stack
  end.

(** An initialised adapter satisfies what the theorem starts from. *)
Lemma task_init_idle {T} (t : bottom_half_task fifo_spsc T) sem :
  ∃ q, bottom_half_task_init (Some t) (Some sem) =
         (MINI_OK, Some (mk_task q (Some sem) (t_mem t) (t_pc t) (t_log t))) /\
       bq_inv q /\ bq_contents q = [] /\ bq_cap q = 32%nat.
Proof.
  eexists. split; [reflexivity|].
  destruct (fifo_init_wf (Some (t_fifo t)) (replicate (Z.to_nat 32) 0) 32
              (mk_fifo (replicate (Z.to_nat 32) 0) 32 31 0 0)) as (WF & Ec & E);
    [unfold is_u16; lia|reflexivity|reflexivity|]. done.
Qed.

(** ** Semaphores *)

(** The flag of the bare-metal poller: the main loop is the task, [pending_drain] the
    semaphore. *)
#[export] Program Instance flag_sem : WakeSem bool := {|
  sem_tokens b := if b : bool then 1%nat else 0%nat;
  sem_wait b := if b : bool then Some false else None;
  sem_post _ := (true, false, true);
  sem_ok _ := True
|}.
Next Obligation. by intros []. Qed.
Next Obligation. intros [] n _; intros [= <-]. by exists false. Qed.
Next Obligation. simpl. auto with lia. Qed.

(** A semaphore of the kernel nobody waits for; [_binary_] is one with capacity 1. *)
#[export] Program Instance kernel_sem : WakeSem semaphore := {|
  sem_tokens sm := Z.to_nat (sem_count sm);
  sem_wait sm := if sem_count sm >? 0 then Some (sem_set_count sm (sem_count sm - 1)) else None;
  sem_post sm := if sem_count sm >=? sem_max_count sm then (false, false, sm)
                 else (true, true, sem_set_count sm (u16 (sem_count sm + 1)));
  sem_ok sm := 0 <= sem_count sm <= sem_max_count sm /\ 1 <= sem_max_count sm <= 65535
|}.
Next Obligation.
  intros sm [??] ?. rewrite Z.gtb_ltb, (proj2 (Z.ltb_ge _ _)) by lia. done.
Qed.
Next Obligation.
  intros sm n [??] ?. rewrite Z.gtb_ltb, (proj2 (Z.ltb_lt _ _)) by lia.
  eexists. split; [done|]. simpl. lia.
Qed.
Next Obligation.
  intros sm [??]. simpl. rewrite Z.geb_leb. destruct (Z.leb_spec (sem_max_count sm) (sem_count sm)); simpl; [lia|].
  rewrite u16_small by lia. lia.
Qed.

(** What the calls of the mini-os backend do to a semaphore that nobody waits for. *)
Lemma post_from_isr_kernel_sem b s sm px :
  let y := w_sync (bk_world b) in
  wait_lists (kern y) !! s = Some [] -> sems y !! s = Some sm ->
  mini_sem_post_from_isr b (Some s) px =
    let '(posted, woken, sm') := sem_post sm in
    Some (posted, if woken : bool then (fun _ => true) <$> px else px,
          bk_set_sync b (set_sem y s sm')).
Proof.
  intros y El Es. unfold mini_sem_post_from_isr. rewrite bool_decide_false by done.
  unfold mini_os_semaphore_give_isr, give_common, mini_os_semaphore_wake_one, wake_oldest.
  fold y. rewrite El. cbn. rewrite Es. cbn.
  assert (set_kern y (kern y) = y) as -> by by destruct y.
  destruct (sem_count sm >=? sem_max_count sm); simpl; [|done].
  by rewrite set_sem_same.
Qed.

Lemma wait_kernel_sem b s sm sm' timeout_ms :
  let y := w_sync (bk_world b) in
  sems y !! s = Some sm -> 0 <= obj_ref (sem_obj sm) < 255 ->
  mini_os_obj_is_destroyed (sem_obj sm) = false ->
  sem_wait sm = Some sm' ->
  mini_sem_wait false b (Some s) timeout_ms = Some (inl (MINI_OK, bk_set_sync b (set_sem y s sm'))).
Proof.
  intros y Es Hr Hd. simpl. unfold mini_sem_wait. rewrite bool_decide_false by done.
  fold y. rewrite (take_eq y s sm _ Es Hr), Hd.
  destruct (sem_count sm >? 0); [|done]. intros [= <-]. done.
Qed.

(** The bare-metal main loop is the task over the flag, so it serves its triggers too. *)
Lemma poller_runs_task (s : bottom_half_task fifo_spsc bool) n s' :
  t_sem s ≠ None -> task_run n s = Some s' -> main_steps n (as_poller s) = Some (as_poller s').
Proof.
  revert s. induction n as [|n IH]; intros s Hs E; simpl in E |- *; [by injection E as ->|].
  apply bind_Some in E as (s1 & E1 & E2).
  assert (sem_usable s) as Hu by (destruct (t_sem s) as [d|] eqn:Ed; [by exists d|done]).
  assert (bottom_half_poller_run (as_poller s) = Some (as_poller s1) /\ t_sem s1 ≠ None) as [-> H1].
  { destruct (decide (t_pc s = PIdle)) as [Hpc|Hpc].
    - destruct (entry_waits s s1 Hu Hpc E1) as [[Ht ->]|(d & d' & Ed & Et & _ & ->)].
      + split; [|done]. unfold bottom_half_poller_run. simpl. by rewrite Hpc, Ht.
      + split; [|done]. unfold bottom_half_poller_run, as_poller, has_token. simpl.
        rewrite Hpc, Ed. destruct d, d'; done.
    - destruct (entry_drains s s1 Hu Hpc E1) as (Es & _ & Ep). split; [done|by rewrite Es]. }
  simpl. by apply IH.
Qed.

Lemma poller_comes_to_rest (s : bottom_half_task fifo_spsc bool) :
  task_inv s ->
  ∃ s' : bottom_half_task fifo_spsc bool,
        main_steps (10 * bq_cap (t_fifo s) + 2 * tokens s + 19) (as_poller s)
          = Some (as_poller s') /\ at_rest s'.
Proof.
  intros I. destruct (task_run_rests _ s I (drain_weight_bound s I)) as (s' & E & _ & R).
  exists s'. split; [|done]. apply poller_runs_task; [|done].
  destruct (ti_sem s I) as (d & -> & _). done.
Qed.

(** ** A run *)

Definition sem_binary (count : Z) : semaphore := mk_sem count 1 (mini_os_obj_init false).
Definition small_task : bottom_half_task fifo_spsc semaphore :=
  task_initial (mk_fifo [0; 0; 0; 0] 4 3 0 0) (sem_binary 0) two_works.

Definition submitted_once : bottom_half_task fifo_spsc semaphore :=
  mk_task (mk_fifo [100; 0; 0; 0] 4 3 1 0) (Some (sem_binary 1))
    (mem_upd two_works 100 (set_pending true)) PIdle [].
Definition submitted_twice : bottom_half_task fifo_spsc semaphore :=
  mk_task (mk_fifo [100; 101; 0; 0] 4 3 2 0) (Some (sem_binary 1))
    (mem_upd (mem_upd two_works 100 (set_pending true)) 101 (set_pending true)) PIdle [].

Lemma task_trigger_served_witness :
  bottom_half_task_submit_from_isr small_task 100 (Some false)
    = Some (MINI_OK, Some true, submitted_once) /\
  bottom_half_task_submit_from_isr submitted_once 101 None = Some (MINI_OK, None, submitted_twice) /\
  ∃ s3 new, task_run 61 submitted_twice = Some s3 /\ at_rest s3 /\ t_log s3 = [] ++ new /\ 100 ∈ new.
Proof.
  assert (bottom_half_task_submit_from_isr small_task 100 (Some false)
    = Some (MINI_OK, Some true, submitted_once)) as E1 by reflexivity.
  assert (bottom_half_task_submit_from_isr submitted_once 101 None
    = Some (MINI_OK, None, submitted_twice)) as E2 by reflexivity.
  split; [exact E1|]. split; [exact E2|].
  assert (10 * bq_cap (t_fifo submitted_twice) + 2 * tokens submitted_twice + 19 = 61)%nat as <-
    by reflexivity.
  apply (task_trigger_served (mk_fifo [0; 0; 0; 0] 4 3 0 0) (sem_binary 0) two_works small_task
           100 (Some false) (Some true) submitted_once submitted_twice).
  - apply small_poller_wf.
  - apply small_poller_wf.
  - simpl. lia.
  - by intros w.
  - apply rtc_refl.
  - exact E1.
  - done.
  - done.
  - apply rtc_once. by apply (task_isr _ 101 None MINI_OK None).
Defined.

(** Two producers.  [bottom_half_task_submit] writes the queue from a task without keeping
    interrupts out.  An interrupt submits 101 after the task has marked 100 pending and loaded
    the write pointer [0]; the task goes on with its write and its post, the bottom-half task
    comes to rest, and an interrupt submits 101 again. *)
Definition submits_race : option (Z * list Z * Z * list Z * consumer_pc * nat * list Z) :=
  let s0 := task_initial (mk_fifo [0; 0; 0; 0] 4 3 0 0) (sem_binary 0)
              (mem_upd two_works 100 (set_pending true)) in
  '(r1, _, s1) ← bottom_half_task_submit_from_isr s0 101 None;
  q ← fifo_write_resume (t_fifo s1) 0 100;
  s2 ← task_run 40 (task_post s1 (sem_binary 1) q (t_mem s1)).2;
  '(r2, _, s3) ← bottom_half_task_submit_from_isr s2 101 None;
  s4 ← task_run 40 s3;
  Some (r1, t_log s2, r2, t_log s4, t_pc s4, tokens s4, fifo_contents (t_fifo s4)).

(** Both submits of 101 are answered MINI_OK; it never runs, now or later, for its pending flag
    stays set while it is in no queue. *)
Example task_submit_races :
  submits_race = Some (MINI_OK, [100], MINI_OK, [100], PIdle, 0%nat, []).
Proof. vm_compute. reflexivity. Qed.
